(* ===== verification/_CoqProject ===== *)
-Q . S2P
Prelude.v
Text.v
Sse.v
Json.v
JsonCodec.v
Floats.v
EventStream.v
Ir.v
ProfileTypes.v
EnvSubst.v
Refuse.v
Profile.v
Overlay.v
Catalog.v
StreamCore.v
Usage.v
Completion.v
BTree.v
Assembler.v
Shapes.v
Chat.v
Messages.v
MapCore.v
Gemini.v
Converse.v
Responses.v
StreamDecode.v
Fields.v
EncoderCore.v
EncoderMessages.v
EncoderResponses.v
EncoderWires.v
Encoder.v
MessagesBlocks.v
ChatCalls.v
GeminiCalls.v
EncoderEnds.v
Relay.v
RelayMessages.v
Failures.v
Upstream.v
Loss.v
RequestCore.v
Schema.v
Tools.v
Arrival.v
ChatRequest.v
ChatSampling.v
ChatArrives.v
ToolIds.v
MessagesRequest.v
MessagesEncode.v
MessagesSampling.v
CacheBreakpoints.v
MessagesBody.v
MessagesCalls.v
MessagesLimits.v
GeminiSchema.v
GeminiRequest.v
GeminiEncode.v
GeminiTurns.v
ConverseRequest.v
ConverseEncode.v
ConverseTurns.v
ResponsesRequest.v
ResponsesEncode.v
ResponsesArrives.v
Requests.v
CompleteCalls.v
CompleteChat.v
CompleteMessages.v
CompleteGemini.v
CompleteResponses.v
Complete.v
SameWire.v
Guard.v
Headers.v
Dates.v
Signing.v
Proxy.v
