(* ===== verification/Prelude.v ===== *)
(** * wiremux: a verification development

    wiremux translates between five LLM wire dialects (Chat Completions,
    Messages, Responses, Gemini and Converse).  A request of one dialect is
    read into an internal representation (IR) and written as a request of
    another, under a profile that says what the vendor behind it accepts; the
    answer comes back as a stream or as one body, is decoded to IR events and
    encoded again.  The code is under [src/crates/wiremux/src] (called [W]
    below) and, for profiles, [src/crates/wiremux-auth/src] (called [A]).
    This library models the translation in both directions, the byte framings,
    the profiles, and the part of the proxy that puts them in a row, and proves
    what makes them correct.

    ** Parts, files and code

    What the source takes from Rust and its JSON crate:
    - [Prelude], [Text], [Floats], [BTree], [Fields]: [result] with [let*] is
      [Result] and [?]; [outcome] with [let?] adds panics as [None]; [Text] has
      bytes, UTF-8 (strict and lossy), trimming and splitting; [Floats] the
      [f64] and [f32] of sampling numbers by their IEEE bits; [BTree] the
      ordered map with integer keys; [Fields] assignment to one field of a
      record, with which the mutable structs of the source are written.
    - [Json], [JsonCodec]: [serde_json::Value] with [get], [pointer] and
      indexed assignment, an object being an association list sorted by key as
      in a [BTreeMap].  The text of JSON is not code of this repository: the
      class [SerdeJson] has [to_string] and [from_str] as parameters, and
      [SerdeJsonLaws] states what is relied on: printing and reading a value
      without floats gives it back, an object is printed in braces, and the
      text is UTF-8 on one line.  [JsonCodec] is an instance that satisfies the
      laws, with which the witnesses are evaluated.

    Bytes and profiles:
    - [Sse], [EventStream]: [W/stream/sse.rs] and [eventstream.rs], the two
      framings: the readers as records with [feed], [finish] and their errors,
      the binary message parser with its headers and two CRC-32 checks, and the
      writers ([format_sse] of [W/proxy.rs], [encode_message]).
    - [Ir]: the data types of [W/ir/mod.rs] with their constructors, the loss
      report, and [MapError] of [W/map/mod.rs].
    - [ProfileTypes], [EnvSubst], [Refuse], [Profile], [Overlay], [Catalog]:
      [types.rs] and [error.rs], [envsubst.rs], [refuse.rs], [parse.rs],
      [overlay.rs] and [load.rs] of [A/profile]: a document is scanned, its
      environment references are substituted, it is scanned again and read as a
      raw layer; the layers of one id are merged and resolved.

    Answers as streams:
    - [StreamCore], [Usage], [Completion], [Shapes]: the shared part of
      [W/stream/mod.rs] (the frame reader of each wire, caps, slots, terminal
      frames), [W/stream/usage.rs], [W/completion.rs] with the visibility and
      error helpers it borrows, and the side events.
    - [Chat], [Messages], [Gemini], [Converse], [Responses]: the files of the
      same names under [W/stream], the decoder and encoder of one frame, with
      the small maps of [MapCore]; [StreamDecode]: [decode_stream_event(s)],
      [StreamDecoder] and [encode_stream_event] of [W/stream/mod.rs].
    - [Assembler]: [ToolCallAssembler] of [W/stream/mod.rs].
    - [EncoderCore], [EncoderMessages], [EncoderResponses], [EncoderWires],
      [Encoder]: [StreamEncoder] of [W/stream/encoder.rs], one record with the
      fields of the struct and one function per method; [MessagesBlocks],
      [ChatCalls], [GeminiCalls] and [EncoderEnds] hold the theorems about it.
    - [Relay], [RelayMessages], [Failures], [Upstream]: [MappedStream] and
      [map_sse_stream] of [W/proxy.rs], the vendor failures inside a successful
      answer, and the URLs of [W/upstream.rs].
    - [SameWire]: [SameWireGate] and [passthrough_sse] of [W/proxy.rs], which
      copy a stream that needs no translation and watch its frames.

    Answers as bodies, [W/stream/complete.rs]:
    - [CompleteCalls]: the table of indexed calls all encoders share;
      [CompleteChat], [CompleteMessages], [CompleteGemini],
      [CompleteResponses]: the body of each dialect, written and read (that of
      Converse is in [Converse]); [Complete]: the dispatch by wire.

    Requests, [W/map]:
    - [Loss], [RequestCore], [Schema], [Tools]: functions that note what they
      change, the helpers of [mod.rs], the schemas of [messages.rs] and the
      tools of [tools.rs].
    - [ChatRequest], [ChatSampling], [ChatArrives] ([chat.rs]);
      [MessagesRequest], [MessagesEncode], [MessagesSampling], [ToolIds],
      [CacheBreakpoints], [MessagesBody], [MessagesCalls], [MessagesLimits]
      ([messages.rs]); [GeminiSchema], [GeminiRequest], [GeminiEncode],
      [GeminiTurns] ([gemini.rs]); [ConverseRequest], [ConverseEncode],
      [ConverseTurns] ([converse.rs]); [ResponsesRequest], [ResponsesEncode],
      [ResponsesArrives] ([responses.rs]).  In each group the first files are
      [decode] and [encode], the last ones theorems about what is written;
      [Arrival] is what two of those arguments share.
    - [Requests]: [decode] and [encode] of [mod.rs] over the five dialects,
      with the prefix, the extra and the forbidden fields of the profile.

    Around a request:
    - [Guard]: [request_guard] of [W/proxy.rs], what a client may ask, and when
      a successful answer is passed through.
    - [Headers]: [W/headers.rs], [W/profile_auth.rs], [proxy_token] of
      [W/cli.rs] and [forward_inbound_headers] of [W/proxy.rs].
    - [Dates], [Signing]: the dates of [A/helpers.rs] and of the two signers,
      [sign_aws_request] of [A/providers/aws.rs] and [W/aws_sign.rs].
    - [Proxy]: [handle_inner] of [W/proxy.rs] with [send_upstream] and the count
      route: given a request and, turn by turn, what the world outside says when
      it is asked, the requests that go upstream and the answer.

    How they interact.  A request: [Requests.decode] reads the body of the
    client into an [IrRequest]; [Requests.encode] prepares its tools, puts the
    prefix of the profile before the system text, calls the encoder of the
    dialect and applies the extra and forbidden fields; every step appends to
    one loss report.  A streamed answer: the bytes go through the reader that
    [for_wire] chooses, a frame is decoded by [StreamDecoder], tool-call events
    pass the [Assembler], events the client's dialect has no slot for are left
    out, [StreamEncoder] writes frames and [format_sse] or [encode_message]
    turns them to bytes, [Relay] being this row; a stream of the client's own
    dialect goes through [SameWire] instead.  A whole answer:
    [Complete.decode_response] reads the body into the same events and
    [encode_response] folds events into a body.

    ** Interfaces

    [FrameReader] (in [StreamCore]) is what the stream path asks of a byte
    reader: feeding in pieces equals feeding at once.  Both readers are
    instances and the theorem about upstream frames uses only the laws.
    [KebabEnum] and [KebabLaws] (in [ProfileTypes]) state what every spelled
    enum promises.  [SerdeJson] and [SerdeJsonLaws] are the JSON crate.

    ** What the theorems show

    - Framing: the cut of the bytes into chunks is invisible on the text wires,
      and on Converse for a body of at most 16 MiB, or one that reads without an
      error; written frames are read back exactly; the SSE cursor loop refines a
      line machine; the binary reader never panics and returns on every input;
      any single wrong byte of a message is detected.
    - Events: for every event a frame carries whole, decoding what the encoder
      writes gives that event and nothing else; decoded indexes respect their
      caps; the calls of a Gemini stream are numbered consecutively.
    - The stream encoder: the Messages stream of events that are not copied from
      a vendor is well formed (blocks numbered from zero, one open at a time,
      deltas inside their block, nothing open at the end); the slot tables of
      Chat compute the renumbering of function calls that start before their
      fragments; a Gemini stream has the frames of its calls, which refine one
      machine per index, and of its other events, each once; every stream ends
      with its terminal frame.
    - The relay: it is the composition of its parts on every split of the
      bytes, it always returns, its Messages stream is well formed when the body
      is read without an error and nothing is copied from a vendor, and a
      truncated upstream is never made to look finished.
    - Bodies: text, refusal, reasoning, audio and calls of any list of events
      survive writing and reading a body of each dialect, and a Chat body that
      is translated to Messages keeps what it says; the call table refines one
      register per index.
    - Requests: on Chat the whole request, and on Responses its turns, model
      and tools, arrive in a stated normal form or the loss report says so, but
      for system items on Responses that lose a marked text or an image; on
      Messages calls that are not copied keep distinct legal ids and the
      sampling fields keep the limits of the vendor on thinking with a budget; a
      strict tool schema closes every object inside it; on Gemini and Converse turns alternate and calls
      and results are all there in order; cache markers number at most two;
      relaxing a schema ends on cyclic references and leaves only what Gemini
      takes; the prefix and the field policies of a profile are applied; a
      sampling number of two decimals is not changed by its [f32].
    - Streams of one dialect: a body of at most 16 MiB without an error passes
      unchanged and in order, on Responses when no chunk ends inside a later
      frame; no end is made up, and an error of the vendor is final.
    - Requests of the proxy: what is sent is what an admitted client asked, at
      most twice; an answer of 2xx in one piece is the health text, the model
      list, or a real answer of the upstream, copied or translated; the handler
      ends with an answer unless encoding the request panics; the guard admits
      exactly requests to a loopback host that no web page sent; the credential
      is sent once when its header is none the proxy writes itself; a request to
      a signed service has one signature, of what is sent, or is not sent; the
      text that is signed determines the request; dates follow the calendar and
      read back.
    - Counts: usage survives each wire up to the saturation that is stated.
    - Tool calls: the assembler refines one small machine per call, so
      parallel calls do not interfere and no fragment is lost or invented.
    - Errors: a vendor error without visible output is always reported, output
      is never reported as an error, and an error event reads back.
    - Profiles: parsers and spellings are inverse; a layer is data-only, as
      written and with the environment substituted; in a merge the last layer
      that sets a field wins, for every field that no merge policy joins; a load by wire always finds a complete profile;
      the model name of a request cannot choose the host it is sent to.

    ** Bounds and fuel

    Integers are [Z] with the width's wrap-around or saturation written at the
    operation ([u32_saturating_add], [usize_saturating_add], [u32_try_from]).
    The SSE loop has one unit of fuel more than the bytes it reads, each turn
    consuming a newline; the binary loop likewise, each message consuming at
    least sixteen bytes; the header parser consumes at least two bytes a turn;
    the walk over a text's environment references has a unit per byte.
    [Sse.feed_refines_spec], [EventStream.es_feed_total] and
    [EnvSubst.subst_string_spec] prove that this fuel is never exhausted.
    A search for a free slot or a free id has one unit more than the taken ones
    ([first_unused] in [EncoderCore], [first_free] in [ToolIds]), and by the
    pigeonhole one of its candidates is free.  The loops over the items of a
    request have a unit per item.  [relax_fuel] of [GeminiSchema] has one for
    each level of the schema and of the definitions, once per definition
    ([gemini_schema_accepted]).  The loop of [send_upstream] has a list of
    turns, of which two are always enough ([proxy_answers]).  The shortest
    decimal of an [f32] is searched with a fuel of 100 digits, of which nine
    decide any [f32].
    Caps are those of the source: 16 MiB of pending bytes, index 128 for tool
    calls and for content blocks.

    ** Arguments of the model

    Code of other crates is an argument where it is used: the JSON text
    ([SerdeJson]), the wording of its errors, TOML and the derived
    deserializers, the URL parser, the table of lower-case characters outside
    ASCII, SHA-256 and HMAC, the outcome of a token provider, the clock, the
    environment and the files of the user directories.

    ** Not modelled

    The HTTP crates and the loop that accepts connections, [W/client.rs],
    [W/ingest.rs], the credential stores and the OAuth flows of [A/providers]
    and the command line are I/O around other
    crates, with clocks, file locks and network calls between every two of
    their own steps.  The hashes of a signature are another crate. *)

From stdpp Require Export base tactics list option strings pretty.
From Stdlib Require Export Ascii ZArith Lia.

(** ** Notation scope of the development *)
Declare Scope wire_scope.
Delimit Scope wire_scope with wire.

#[global] Open Scope string_scope.
#[global] Open Scope list_scope.
#[global] Open Scope Z_scope.
#[global] Arguments Ascii.eqb : simpl never.
#[global] Arguments String.eqb : simpl never.

(** ** Rust's [Result]

    [Result<A, E>] is a value: the error path is data, never a side
    condition.  [let*] is the [?] operator. *)
Inductive result (E A : Type) : Type :=
| Ok (a : A)
| Err (e : E).
Arguments Ok {E A} a.
Arguments Err {E A} e.

Definition rbind {E A B} (m : result E A) (f : A -> result E B) : result E B :=
  match m with Ok a => f a | Err e => Err e end.

Definition rmap {E A B} (f : A -> B) (m : result E A) : result E B :=
  match m with Ok a => Ok (f a) | Err e => Err e end.

(** [Result::ok] *)
Definition rok {E A} (m : result E A) : option A :=
  match m with Ok a => Some a | Err _ => None end.

Definition is_ok {E A} (m : result E A) : bool :=
  match m with Ok _ => true | Err _ => false end.

Notation "'let*' p := c1 'in' c2" := (rbind c1 (fun p => c2))
  (at level 10, p pattern, c1 at level 100, c2 at level 200) : wire_scope.
#[global] Open Scope wire_scope.

(** ** Code that may panic

    An indexing or a slice out of range panics, and a loop may run out of the
    fuel of its model: both are [None] of an [outcome].  A theorem that an
    operation is never [None] excludes them at once.  [let?] sequences. *)
Definition outcome (E A : Type) : Type := option (result E A).

Definition obind {E A B} (m : outcome E A) (f : A -> outcome E B) : outcome E B :=
  match m with
  | Some (Ok a) => f a
  | Some (Err e) => Some (Err e)
  | None => None
  end.

Notation "'let?' p := c1 'in' c2" := (obind c1 (fun p => c2))
  (at level 10, p pattern, c1 at level 100, c2 at level 200) : wire_scope.

(** Neither a panic nor out of fuel. *)
Definition returns {E A} (m : outcome E A) : Prop := m <> None.

#[export] Instance result_eq_dec {E A} `{EqDecision E, EqDecision A} :
  EqDecision (result E A).
Proof. solve_decision. Defined.

(** ** Rust's [Option] helpers *)
Definition unwrap_or {A} (o : option A) (d : A) : A :=
  match o with Some a => a | None => d end.

(** [Option::or]: the receiver wins when it is [Some]. *)
Definition opt_or {A} (o d : option A) : option A :=
  match o with Some a => Some a | None => d end.

(** [Option::filter] *)
Definition opt_filter {A} (p : A -> bool) (o : option A) : option A :=
  match o with Some a => if p a then Some a else None | None => None end.

(** [Option::is_some_and] *)
Definition is_some_and {A} (o : option A) (p : A -> bool) : bool :=
  match o with Some a => p a | None => false end.

Definition is_none {A} (o : option A) : bool :=
  match o with None => true | Some _ => false end.

Definition is_some {A} (o : option A) : bool :=
  match o with None => false | Some _ => true end.

(** ** Machine integers

    A [u32], [u64] or [usize] is a [Z] in its range; every operation of
    the code that can leave the range says what it does there. *)
Definition u32_max : Z := 4294967295.
Definition u64_max : Z := 18446744073709551615.
(** Targets of this crate are 64-bit: [usize] is [u64]. *)
Definition usize_max : Z := u64_max.

Definition is_u32 (z : Z) : Prop := 0 <= z <= u32_max.
Definition is_u64 (z : Z) : Prop := 0 <= z <= u64_max.

Definition u32_saturating_add (a b : Z) : Z := Z.min (a + b) u32_max.
Definition u32_saturating_sub (a b : Z) : Z := Z.max (a - b) 0.
Definition u64_saturating_add (a b : Z) : Z := Z.min (a + b) u64_max.
Definition usize_saturating_add (a b : Z) : Z := Z.min (a + b) usize_max.

(** [u32::try_from] on a [u64]. *)
Definition u32_try_from (z : Z) : option Z :=
  if (0 <=? z) && (z <=? u32_max) then Some z else None.

(** Length of a [Vec] or of a [str] (bytes), as the [usize] it is. *)
Definition vlen {A} (l : list A) : Z := Z.of_nat (length l).
Definition slen (s : string) : Z := Z.of_nat (String.length s).

(** The kernel unfolds this vocabulary before the arithmetic under it. *)
#[global] Strategy expand [is_u32 is_u64 u32_saturating_add u32_saturating_sub
  u64_saturating_add usize_saturating_add usize_max u64_max u32_max vlen slen].

(** ** Tactics *)

(** Case on the scrutinee of the innermost [match] of the goal. *)
Ltac case_goal :=
  match goal with
  | |- context [match ?x with _ => _ end] =>
      lazymatch x with
      | context [match _ with _ => _ end] => fail
      | _ => destruct x eqn:?
      end
  end.

(** The same in a hypothesis. *)
Ltac case_hyp H :=
  match type of H with
  | context [match ?x with _ => _ end] =>
      lazymatch x with
      | context [match _ with _ => _ end] => fail
      | _ => destruct x eqn:?
      end
  end.

(** Unfold the machine-integer vocabulary and decide with [lia]. *)
Ltac int_lia :=
  unfold is_u32, is_u64, u32_saturating_add, u32_saturating_sub,
    u64_saturating_add, usize_saturating_add, usize_max, u64_max, u32_max,
    vlen, slen in *; lia.

Create HintDb wire discriminated.
Create Rewrite HintDb wire_len.
Create Rewrite HintDb wire_text.
Create Rewrite HintDb wire_json.

(** ** Shared lemmas *)
Lemma vlen_nonneg {A} (l : list A) : 0 <= vlen l.
Proof. int_lia. Qed.

Lemma vlen_app {A} (l k : list A) : vlen (l ++ k) = vlen l + vlen k.
Proof. unfold vlen. rewrite length_app. lia. Qed.

Lemma vlen_cons {A} (a : A) l : vlen (a :: l) = 1 + vlen l.
Proof. unfold vlen. cbn [length]. lia. Qed.

Lemma vlen_nil {A} : vlen (@nil A) = 0.
Proof. reflexivity. Qed.

Lemma slen_nonneg s : 0 <= slen s.
Proof. int_lia. Qed.

Lemma u32_saturating_add_range a b : is_u32 a -> is_u32 b -> is_u32 (u32_saturating_add a b).
Proof. int_lia. Qed.

Lemma u32_saturating_sub_range a b : is_u32 a -> is_u32 b -> is_u32 (u32_saturating_sub a b).
Proof. int_lia. Qed.

(** Subtracting what a non-overflowing addition added gives it back. *)
Lemma u32_saturating_add_sub a b :
  is_u32 a -> is_u32 b -> a + b <= u32_max ->
  u32_saturating_sub (u32_saturating_add a b) b = a.
Proof. int_lia. Qed.

Lemma u32_try_from_Some z : is_u32 z -> u32_try_from z = Some z.
Proof.
  unfold u32_try_from, is_u32. intros [H1 H2].
  by rewrite (proj2 (Z.leb_le 0 z) H1), (proj2 (Z.leb_le z u32_max) H2).
Qed.

Lemma u32_try_from_inv z n : u32_try_from z = Some n -> n = z /\ is_u32 n.
Proof.
  unfold u32_try_from. destruct (0 <=? z) eqn:H1, (z <=? u32_max) eqn:H2; cbn; intros [= <-].
  split; [done|]. apply Z.leb_le in H1, H2. done.
Qed.

#[export] Hint Resolve vlen_nonneg slen_nonneg u32_saturating_add_range
  u32_saturating_sub_range u32_try_from_Some : wire.
#[export] Hint Rewrite @vlen_app @vlen_cons @vlen_nil : wire_len.

Lemma returns_obind {E A B} (m : outcome E A) (f : A -> outcome E B) :
  returns m -> (forall a, m = Some (Ok a) -> returns (f a)) -> returns (obind m f).
Proof. destruct m as [[a|e]|]; cbn; [|done|done]. intros _ H. by apply H. Qed.

Lemma obind_Ok {E A B} (m : outcome E A) (f : A -> outcome E B) b :
  obind m f = Some (Ok b) -> exists a, m = Some (Ok a) /\ f a = Some (Ok b).
Proof. destruct m as [[a|e]|]; cbn; [|done|done]. by eexists. Qed.
