(* ===== verification/Text.v ===== *)
(** * Text: the parts of Rust's [str], [String] and [u8] the code uses

    A [str] is a [string] of the bytes of its UTF-8 text, so [slen] is
    [str::len]; a [Vec<u8>] is a list of [ascii], one per byte.  The
    functions are those of the Rust standard library, on every input. *)

From S2P Require Import Prelude.

(** ** Bytes *)
Abbreviation u8 := ascii (only parsing).
Definition byte_val (a : u8) : Z := Z.of_N (N_of_ascii a).
Definition byte_of (z : Z) : u8 := ascii_of_N (Z.to_N (z mod 256)).

Definition bytes_of_str (s : string) : list u8 := String.list_ascii_of_string s.
Definition str_of_bytes (l : list u8) : string := String.string_of_list_ascii l.

Definition byte_in (lo hi : Z) (a : u8) : bool :=
  (lo <=? byte_val a) && (byte_val a <=? hi).

(** ** [String::from_utf8] and [String::from_utf8_lossy]

    The cases of the decoder: an ASCII byte, a two-byte, a three-byte and a
    four-byte scalar.  An ill-formed sequence is cut at its maximal subpart,
    which becomes one U+FFFD. *)
Definition is_cont (a : u8) : bool := byte_in 128 191 a.

(** Second byte of a three-byte scalar that starts with [a]. *)
Definition second3 (a b : u8) : bool :=
  (byte_in 224 224 a && byte_in 160 191 b) || (byte_in 225 236 a && byte_in 128 191 b)
  || (byte_in 237 237 a && byte_in 128 159 b) || (byte_in 238 239 a && byte_in 128 191 b).

(** Second byte of a four-byte scalar that starts with [a]. *)
Definition second4 (a b : u8) : bool :=
  (byte_in 240 240 a && byte_in 144 191 b) || (byte_in 241 243 a && byte_in 128 191 b)
  || (byte_in 244 244 a && byte_in 128 143 b).

Definition fffd : list u8 := [byte_of 239; byte_of 191; byte_of 189].

Fixpoint utf8_lossy (l : list u8) : list u8 :=
  match l with
  | [] => []
  | a :: t =>
      if byte_in 0 127 a then a :: utf8_lossy t
      else if byte_in 194 223 a then
        match t with
        | b :: t' => if is_cont b then a :: b :: utf8_lossy t' else fffd ++ utf8_lossy t
        | [] => fffd
        end
      else if byte_in 224 239 a then
        match t with
        | b :: t' =>
            if second3 a b then
              match t' with
              | c :: t'' =>
                  if is_cont c then a :: b :: c :: utf8_lossy t''
                  else fffd ++ utf8_lossy t'
              | [] => fffd
              end
            else fffd ++ utf8_lossy t
        | [] => fffd
        end
      else if byte_in 240 244 a then
        match t with
        | b :: t' =>
            if second4 a b then
              match t' with
              | c :: t'' =>
                  if is_cont c then
                    match t'' with
                    | d :: t''' =>
                        if is_cont d then a :: b :: c :: d :: utf8_lossy t'''
                        else fffd ++ utf8_lossy t''
                    | [] => fffd
                    end
                  else fffd ++ utf8_lossy t'
              | [] => fffd
              end
            else fffd ++ utf8_lossy t
        | [] => fffd
        end
      else fffd ++ utf8_lossy t
  end.

Fixpoint utf8_valid (l : list u8) : bool :=
  match l with
  | [] => true
  | a :: t =>
      if byte_in 0 127 a then utf8_valid t
      else if byte_in 194 223 a then
        match t with b :: t' => is_cont b && utf8_valid t' | [] => false end
      else if byte_in 224 239 a then
        match t with
        | b :: c :: t' => second3 a b && is_cont c && utf8_valid t'
        | _ => false
        end
      else if byte_in 240 244 a then
        match t with
        | b :: c :: d :: t' => second4 a b && is_cont c && is_cont d && utf8_valid t'
        | _ => false
        end
      else false
  end.

Definition from_utf8_lossy (l : list u8) : string := str_of_bytes (utf8_lossy l).

(** [String::from_utf8]; [None] is its error. *)
Definition from_utf8 (l : list u8) : option string :=
  if utf8_valid l then Some (str_of_bytes l) else None.

(** ** Searching and splitting *)
Fixpoint strip_prefix (p s : string) : option string :=
  match p, s with
  | EmptyString, _ => Some s
  | String a p', String b s' => if Ascii.eqb a b then strip_prefix p' s' else None
  | String _ _, EmptyString => None
  end.

Definition starts_with (p s : string) : bool := is_some (strip_prefix p s).

Fixpoint str_rev_app (s acc : string) : string :=
  match s with EmptyString => acc | String a t => str_rev_app t (String a acc) end.
Definition str_rev (s : string) : string := str_rev_app s "".

Definition ends_with (p s : string) : bool := starts_with (str_rev p) (str_rev s).

Fixpoint str_contains (p s : string) : bool :=
  starts_with p s || match s with EmptyString => false | String _ t => str_contains p t end.

Fixpoint contains_char (c : ascii) (s : string) : bool :=
  match s with EmptyString => false | String a t => Ascii.eqb a c || contains_char c t end.

(** [str::split_once] on an ASCII character. *)
Fixpoint split_once (c : ascii) (s : string) : option (string * string) :=
  match s with
  | EmptyString => None
  | String a t =>
      if Ascii.eqb a c then Some ("", t)
      else match split_once c t with
           | Some (x, y) => Some (String a x, y)
           | None => None
           end
  end.

(** [<[String]>::join] *)
Fixpoint str_join (sep : string) (l : list string) : string :=
  match l with
  | [] => ""
  | [x] => x
  | x :: t => x +:+ sep +:+ str_join sep t
  end.

(** [matches!(s, "a" | "b" | ...)] *)
Definition one_of (s : string) (l : list string) : bool := existsb (String.eqb s) l.

(** ** Case *)
Definition to_lower (a : ascii) : ascii :=
  if byte_in 65 90 a then byte_of (byte_val a + 32) else a.

Fixpoint to_ascii_lowercase (s : string) : string :=
  match s with EmptyString => "" | String a t => String (to_lower a) (to_ascii_lowercase t) end.

Definition eq_ignore_ascii_case (s t : string) : bool :=
  String.eqb (to_ascii_lowercase s) (to_ascii_lowercase t).

(** ** [str::trim]

    The [White_Space] characters, as the UTF-8 sequences they are. *)
Definition ws1 (a : ascii) : bool := byte_in 9 13 a || byte_in 32 32 a.
Definition ws2 (a b : ascii) : bool :=
  byte_in 194 194 a && (byte_in 133 133 b || byte_in 160 160 b).
Definition ws3 (a b c : ascii) : bool :=
  (byte_in 225 225 a && byte_in 154 154 b && byte_in 128 128 c)
  || (byte_in 226 226 a && byte_in 128 128 b
      && (byte_in 128 138 c || byte_in 168 169 c || byte_in 175 175 c))
  || (byte_in 226 226 a && byte_in 129 129 b && byte_in 159 159 c)
  || (byte_in 227 227 a && byte_in 128 128 b && byte_in 128 128 c).

Fixpoint trim_start (s : string) : string :=
  match s with
  | EmptyString => ""
  | String a t =>
      if ws1 a then trim_start t
      else match t with
           | EmptyString => s
           | String b u =>
               if ws2 a b then trim_start u
               else match u with
                    | EmptyString => s
                    | String c v => if ws3 a b c then trim_start v else s
                    end
           end
  end.

(** [trim_start] of a reversed text: the sequences are met backwards. *)
Fixpoint trim_rev (s : string) : string :=
  match s with
  | EmptyString => ""
  | String a t =>
      if ws1 a then trim_rev t
      else match t with
           | EmptyString => s
           | String b u =>
               if ws2 b a then trim_rev u
               else match u with
                    | EmptyString => s
                    | String c v => if ws3 c b a then trim_rev v else s
                    end
           end
  end.

Definition trim_end (s : string) : string := str_rev (trim_rev (str_rev s)).
Definition trim (s : string) : string := trim_end (trim_start s).

Fixpoint trim_start_char (c : ascii) (s : string) : string :=
  match s with
  | EmptyString => ""
  | String a t => if Ascii.eqb a c then trim_start_char c t else s
  end.
Definition trim_end_matches (c : ascii) (s : string) : string :=
  str_rev (trim_start_char c (str_rev s)).

(** ** ASCII classes *)
Definition is_ascii_alphabetic (a : ascii) : bool := byte_in 65 90 a || byte_in 97 122 a.
Definition is_ascii_digit (a : ascii) : bool := byte_in 48 57 a.
Definition is_ascii_alphanumeric (a : ascii) : bool := is_ascii_alphabetic a || is_ascii_digit a.

(** ** Control characters *)
Definition nl : ascii := byte_of 10.
Definition cr : ascii := byte_of 13.
Definition nl_str : string := String nl "".

Definition is_empty (s : string) : bool := match s with EmptyString => true | _ => false end.

(** ** Lemmas on bytes *)
Lemma byte_val_range a : 0 <= byte_val a < 256.
Proof. unfold byte_val. pose proof (N_ascii_bounded a). lia. Qed.

Lemma byte_of_val a : byte_of (byte_val a) = a.
Proof.
  unfold byte_of. rewrite Z.mod_small by apply byte_val_range.
  unfold byte_val. rewrite N2Z.id. apply ascii_N_embedding.
Qed.

Lemma byte_val_of z : byte_val (byte_of z) = z mod 256.
Proof.
  unfold byte_val, byte_of. pose proof (Z.mod_pos_bound z 256).
  rewrite N_ascii_embedding; lia.
Qed.

Lemma byte_val_inj a b : byte_val a = byte_val b -> a = b.
Proof. intros H. by rewrite <- (byte_of_val a), H, byte_of_val. Qed.

Lemma bytes_of_str_of_bytes l : bytes_of_str (str_of_bytes l) = l.
Proof. apply String.list_ascii_of_string_of_list_ascii. Qed.

Lemma str_of_bytes_of_str s : str_of_bytes (bytes_of_str s) = s.
Proof. apply String.string_of_list_ascii_of_string. Qed.

(** stdpp keeps [String.append] folded; these are its two equations. *)
Lemma str_app_nil s : "" +:+ s = s.
Proof. reflexivity. Qed.

Lemma str_app_cons a s t : String a s +:+ t = String a (s +:+ t).
Proof. reflexivity. Qed.

Lemma str_app_nil_r s : s +:+ "" = s.
Proof. induction s as [|a s IH]; [done|]. by rewrite str_app_cons, IH. Qed.

Lemma str_app_assoc s t u : (s +:+ t) +:+ u = s +:+ t +:+ u.
Proof. induction s as [|a s IH]; [done|]. by rewrite !str_app_cons, IH. Qed.

Lemma bytes_of_str_app s t : bytes_of_str (s +:+ t) = bytes_of_str s ++ bytes_of_str t.
Proof. induction s as [|a s IH]; [done|]. rewrite str_app_cons. cbn. by f_equal. Qed.

Lemma str_of_bytes_app l k : str_of_bytes (l ++ k) = str_of_bytes l +:+ str_of_bytes k.
Proof. induction l as [|a l IH]; cbn; [done|]. rewrite str_app_cons. by f_equal. Qed.

Lemma slen_bytes s : slen s = vlen (bytes_of_str s).
Proof. unfold slen, vlen, bytes_of_str. f_equal. induction s; cbn; by f_equal. Qed.

Lemma slen_app s t : slen (s +:+ t) = slen s + slen t.
Proof. by rewrite !slen_bytes, bytes_of_str_app, vlen_app. Qed.

Lemma slen_cons a s : slen (String a s) = 1 + slen s.
Proof. unfold slen. cbn [String.length]. lia. Qed.

Lemma slen_nil : slen "" = 0.
Proof. reflexivity. Qed.

#[export] Hint Rewrite bytes_of_str_of_bytes str_of_bytes_of_str bytes_of_str_app
  str_of_bytes_app byte_of_val byte_val_of : wire_text.
#[export] Hint Rewrite slen_app slen_cons slen_nil : wire_len.

(** Induction on the length of a list: the decoder skips one to four bytes. *)
Lemma list_length_ind {A} (P : list A -> Prop) :
  (forall l, (forall k, (length k < length l)%nat -> P k) -> P l) -> forall l, P l.
Proof.
  intros step l. remember (length l) as n eqn:Hn. revert l Hn.
  induction n as [n IH] using (well_founded_induction lt_wf).
  intros l ->. apply step. intros k Hk. by eapply IH.
Qed.

(** Walk one decoder step: case on every test and on the bytes it reads. *)
Ltac utf8_cases :=
  repeat (cbn [utf8_lossy utf8_valid app] in *; try case_goal; try discriminate; try reflexivity).

Lemma utf8_lossy_id l : utf8_valid l = true -> utf8_lossy l = l.
Proof.
  induction l as [l IH] using list_length_ind.
  destruct l as [|a t]; [done|]. cbn [utf8_lossy utf8_valid].
  repeat (case_goal; try discriminate);
    rewrite ?andb_true_iff; intros; destruct_and?;
    repeat f_equal; apply IH; cbn; solve [done | lia].
Qed.

Lemma utf8_valid_fffd l : utf8_valid (fffd ++ l) = utf8_valid l.
Proof. reflexivity. Qed.

Lemma utf8_lossy_valid l : utf8_valid (utf8_lossy l) = true.
Proof.
  induction l as [l IH] using list_length_ind.
  destruct l as [|a t]; [done|]. cbn [utf8_lossy].
  repeat (case_goal; try discriminate);
    rewrite ?utf8_valid_fffd; cbn [utf8_valid];
    repeat match goal with H : byte_in _ _ _ = _ |- _ => rewrite H end;
    repeat match goal with H : _ = true |- _ => rewrite H end; cbn [andb];
    try done; apply IH; cbn; lia.
Qed.

Lemma utf8_valid_app l k : utf8_valid l = true -> utf8_valid (l ++ k) = utf8_valid k.
Proof.
  induction l as [l IH] using list_length_ind.
  destruct l as [|a t]; [done|]. cbn [utf8_valid app].
  repeat (case_goal; cbn [app]; try discriminate);
    rewrite ?andb_true_iff; intros; destruct_and?;
    repeat match goal with H : _ = true |- _ => rewrite H end; cbn [andb];
    apply IH; cbn; solve [done | lia].
Qed.

Lemma from_utf8_lossy_str s :
  utf8_valid (bytes_of_str s) = true -> from_utf8_lossy (bytes_of_str s) = s.
Proof. intros H. unfold from_utf8_lossy. by rewrite utf8_lossy_id, str_of_bytes_of_str. Qed.

Lemma from_utf8_str s :
  utf8_valid (bytes_of_str s) = true -> from_utf8 (bytes_of_str s) = Some s.
Proof. intros H. unfold from_utf8. by rewrite H, str_of_bytes_of_str. Qed.

(** A [str] of the code: its bytes are well-formed UTF-8. *)
Definition is_str (s : string) : bool := utf8_valid (bytes_of_str s).

(** ** Lemmas on splitting *)
Lemma split_once_Some c s x y :
  split_once c s = Some (x, y) -> s = x +:+ String c y /\ contains_char c x = false.
Proof.
  revert x. induction s as [|a s IH]; intros x; cbn; [done|].
  destruct (Ascii.eqb a c) eqn:E.
  - intros [= <- <-]. apply Ascii.eqb_eq in E. by subst.
  - destruct (split_once c s) as [[x' y']|] eqn:Hs; [|done].
    intros [= <- <-]. destruct (IH x' eq_refl) as [-> Hx].
    rewrite str_app_cons. cbn. by rewrite E.
Qed.

Lemma split_once_app c x y :
  contains_char c x = false -> split_once c (x +:+ String c y) = Some (x, y).
Proof.
  induction x as [|a x IH]; [by rewrite str_app_nil; cbn; rewrite Ascii.eqb_refl|].
  rewrite str_app_cons. cbn. destruct (Ascii.eqb a c); [done|]. cbn. intros H. by rewrite IH.
Qed.

Lemma strip_prefix_app p s : strip_prefix p (p +:+ s) = Some s.
Proof. induction p as [|a p IH]; [done|]. rewrite str_app_cons. cbn. by rewrite Ascii.eqb_refl. Qed.

Lemma strip_prefix_Some p s t : strip_prefix p s = Some t -> s = p +:+ t.
Proof.
  revert s. induction p as [|a p IH]; intros s H; [by injection H as ->|].
  destruct s as [|b s]; [done|]. cbn in H. destruct (Ascii.eqb a b) eqn:E; [|done].
  apply Ascii.eqb_eq in E as ->. rewrite str_app_cons. f_equal. by apply IH.
Qed.

Lemma split_once_None c s : split_once c s = None -> contains_char c s = false.
Proof.
  induction s as [|a s IH]; cbn; [done|]. destruct (Ascii.eqb a c); [done|].
  destruct (split_once c s) as [[? ?]|]; [done|]. intros _. by rewrite IH.
Qed.

Lemma contains_char_app c s t :
  contains_char c (s +:+ t) = contains_char c s || contains_char c t.
Proof. induction s as [|a s IH]; [done|]. rewrite str_app_cons. cbn. by rewrite IH, orb_assoc. Qed.

Lemma contains_char_bytes c s : contains_char c s = existsb (Ascii.eqb c) (bytes_of_str s).
Proof.
  induction s as [|a s IH]; [done|]. cbn. rewrite IH. f_equal.
  by destruct (Ascii.eqb_spec a c), (Ascii.eqb_spec c a); subst.
Qed.

(** An ASCII byte is a boundary of the text: both sides are well formed. *)
Lemma utf8_valid_cut l a k :
  byte_in 0 127 a = true -> utf8_valid (l ++ a :: k) = utf8_valid l && utf8_valid k.
Proof.
  intros Ha.
  assert (Hc : is_cont a = false).
  { unfold is_cont, byte_in in *. rewrite andb_true_iff, !Z.leb_le in Ha.
    apply andb_false_iff. left. apply Z.leb_gt. lia. }
  assert (H3 : forall b, second3 b a = false).
  { intros b. unfold second3, byte_in in *. rewrite andb_true_iff, !Z.leb_le in Ha.
    rewrite !(proj2 (Z.leb_gt _ (byte_val a))) by lia. cbn.
    by rewrite !andb_false_r. }
  assert (H4 : forall b, second4 b a = false).
  { intros b. unfold second4, byte_in in *. rewrite andb_true_iff, !Z.leb_le in Ha.
    rewrite !(proj2 (Z.leb_gt _ (byte_val a))) by lia. cbn.
    by rewrite !andb_false_r. }
  induction l as [l IH] using list_length_ind.
  destruct l as [|x t]; [cbn; by rewrite Ha|].
  cbn [utf8_valid app].
  repeat (case_goal; cbn [app] in *; simplify_list_eq; try discriminate; try reflexivity);
    rewrite ?Hc, ?H3, ?H4, ?andb_false_r, ?andb_false_l; try done;
    rewrite ?IH by (cbn; lia); rewrite ?andb_assoc; try done.
Qed.

Lemma str_join_app sep l x :
  l <> [] -> str_join sep (l ++ [x]) = str_join sep l +:+ sep +:+ x.
Proof.
  induction l as [|y l IH]; [done|]. intros _. destruct l as [|z l]; [done|].
  change (str_join sep ((y :: z :: l) ++ [x])) with (y +:+ sep +:+ str_join sep ((z :: l) ++ [x])).
  rewrite IH by done. cbn. by rewrite !str_app_assoc.
Qed.

(** [str::split_once] with a string pattern. *)
Fixpoint split_once_str (p s : string) : option (string * string) :=
  match strip_prefix p s with
  | Some rest => Some ("", rest)
  | None =>
      match s with
      | EmptyString => None
      | String a s => '(x, y) ← split_once_str p s; Some (String a x, y)
      end
  end.

Lemma split_once_str_inv p s x y : split_once_str p s = Some (x, y) -> s = x +:+ p +:+ y.
Proof.
  revert x y. induction s as [|a s IH]; intros x y; cbn [split_once_str].
  - destruct (strip_prefix p "") eqn:E; [|done]. intros [= <- <-]. by apply strip_prefix_Some in E.
  - destruct (strip_prefix p (String a s)) eqn:E; [intros [= <- <-]; by apply strip_prefix_Some in E|].
    destruct (split_once_str p s) as [[u v]|]; [|done]. intros [= <- <-]. by rewrite (IH u v).
Qed.

(** ** Lemmas on reversal and trimming *)
Lemma str_rev_app_spec s acc : str_rev_app s acc = str_rev s +:+ acc.
Proof.
  unfold str_rev. revert acc. induction s as [|a s IH]; intros acc; cbn; [done|].
  rewrite IH, (IH (String a "")). by rewrite str_app_assoc.
Qed.

Lemma str_rev_cons a s : str_rev (String a s) = str_rev s +:+ String a "".
Proof. unfold str_rev at 1. cbn. by rewrite str_rev_app_spec. Qed.

Lemma str_rev_concat s t : str_rev (s +:+ t) = str_rev t +:+ str_rev s.
Proof.
  induction s as [|a s IH].
  - rewrite str_app_nil. cbn. by rewrite str_app_nil_r.
  - by rewrite str_app_cons, !str_rev_cons, IH, str_app_assoc.
Qed.

Lemma str_rev_involutive s : str_rev (str_rev s) = s.
Proof. induction s as [|a s IH]; [done|]. rewrite str_rev_cons, str_rev_concat, IH. done. Qed.

(** A text between braces has nothing to trim: a serialized object. *)
Lemma trim_braces s : trim ("{" +:+ s +:+ "}") = "{" +:+ s +:+ "}".
Proof.
  unfold trim. assert (E : trim_start ("{" +:+ s +:+ "}") = "{" +:+ s +:+ "}").
  { change ("{" +:+ s +:+ "}") with (String "{" (s +:+ "}")).
    destruct (s +:+ "}") as [|b [|c u]]; reflexivity. }
  rewrite E. unfold trim_end.
  assert (R : str_rev ("{" +:+ s +:+ "}") = String "}" (str_rev s +:+ "{")).
  { rewrite !str_rev_concat. done. }
  rewrite R. assert (T : trim_rev (String "}" (str_rev s +:+ "{")) = String "}" (str_rev s +:+ "{")).
  { destruct (str_rev s +:+ "{") as [|b u]; [reflexivity|]. cbn.
    assert (W1 : ws1 "}" = false) by reflexivity.
    assert (W2 : ws2 b "}" = false) by (unfold ws2; by rewrite andb_false_r).
    rewrite W1, W2. destruct u as [|c v]; [done|].
    assert (W3 : ws3 c b "}" = false).
    { unfold ws3. change (byte_in 128 128 "}") with false. change (byte_in 128 138 "}") with false.
      change (byte_in 168 169 "}") with false. change (byte_in 175 175 "}") with false.
      change (byte_in 159 159 "}") with false. cbn [orb]. by rewrite !andb_false_r. }
    by rewrite W3. }
  rewrite T, <- R. apply str_rev_involutive.
Qed.

(** [str::strip_suffix] *)
Definition strip_suffix (p s : string) : option string := str_rev <$> strip_prefix (str_rev p) (str_rev s).

(** ** Trimming twice trims once *)

(** A white-space character stands at the head of the text, or of the reversed text. *)
Definition head_ws (s : string) : bool :=
  match s with
  | EmptyString => false
  | String a t =>
      ws1 a || match t with
               | EmptyString => false
               | String b u => ws2 a b || match u with EmptyString => false | String c _ => ws3 a b c end
               end
  end.

Definition head_ws_rev (s : string) : bool :=
  match s with
  | EmptyString => false
  | String a t =>
      ws1 a || match t with
               | EmptyString => false
               | String b u => ws2 b a || match u with EmptyString => false | String c _ => ws3 c b a end
               end
  end.

Lemma trim_start_spec s :
  head_ws (trim_start s) = false /\ (exists w, s = w +:+ trim_start s) /\ (head_ws s = false -> trim_start s = s).
Proof.
  remember (String.length s) as n eqn:Hn. revert s Hn.
  induction n as [n IH] using (well_founded_induction lt_wf). intros s ->.
  destruct s as [|a t]; [by repeat split; exists ""|].
  cbn [trim_start head_ws]. destruct (ws1 a) eqn:E1; cbn [orb].
  { edestruct (IH (String.length t)) as (H & (w & Hw) & _); [cbn; lia|done|].
    split; [done|]. split; [|done]. exists (String a w). rewrite str_app_cons. by f_equal. }
  destruct t as [|b u]; [split; [cbn; by rewrite E1|by split; [exists ""|]]|].
  destruct (ws2 a b) eqn:E2; cbn [orb].
  { edestruct (IH (String.length u)) as (H & (w & Hw) & _); [cbn; lia|done|].
    split; [done|]. split; [|done]. exists (String a (String b w)). rewrite !str_app_cons. by do 2 f_equal. }
  destruct u as [|c v]; [split; [cbn; by rewrite E1, E2|by split; [exists ""|]]|].
  destruct (ws3 a b c) eqn:E3.
  - edestruct (IH (String.length v)) as (H & (w & Hw) & _); [cbn; lia|done|].
    split; [done|]. split; [|done]. exists (String a (String b (String c w))).
    rewrite !str_app_cons. by do 3 f_equal.
  - split; [cbn; by rewrite E1, E2, E3|]. by split; [exists ""|].
Qed.

Lemma trim_rev_spec s :
  head_ws_rev (trim_rev s) = false /\ (exists w, s = w +:+ trim_rev s) /\ (head_ws_rev s = false -> trim_rev s = s).
Proof.
  remember (String.length s) as n eqn:Hn. revert s Hn.
  induction n as [n IH] using (well_founded_induction lt_wf). intros s ->.
  destruct s as [|a t]; [by repeat split; exists ""|].
  cbn [trim_rev head_ws_rev]. destruct (ws1 a) eqn:E1; cbn [orb].
  { edestruct (IH (String.length t)) as (H & (w & Hw) & _); [cbn; lia|done|].
    split; [done|]. split; [|done]. exists (String a w). rewrite str_app_cons. by f_equal. }
  destruct t as [|b u]; [split; [cbn; by rewrite E1|by split; [exists ""|]]|].
  destruct (ws2 b a) eqn:E2; cbn [orb].
  { edestruct (IH (String.length u)) as (H & (w & Hw) & _); [cbn; lia|done|].
    split; [done|]. split; [|done]. exists (String a (String b w)). rewrite !str_app_cons. by do 2 f_equal. }
  destruct u as [|c v]; [split; [cbn; by rewrite E1, E2|by split; [exists ""|]]|].
  destruct (ws3 c b a) eqn:E3.
  - edestruct (IH (String.length v)) as (H & (w & Hw) & _); [cbn; lia|done|].
    split; [done|]. split; [|done]. exists (String a (String b (String c w))).
    rewrite !str_app_cons. by do 3 f_equal.
  - split; [cbn; by rewrite E1, E2, E3|]. by split; [exists ""|].
Qed.

Lemma head_ws_app s t : head_ws s = true -> head_ws (s +:+ t) = true.
Proof.
  destruct s as [|a [|b [|c s]]]; [done| | |done]; rewrite !str_app_cons, str_app_nil; cbn [head_ws];
    rewrite ?orb_false_r.
  - by intros ->.
  - intros [-> | ->]%orb_true_iff; by rewrite ?orb_true_r.
Qed.

Lemma trim_end_idem s : trim_end (trim_end s) = trim_end s.
Proof.
  unfold trim_end. rewrite str_rev_involutive. f_equal.
  destruct (trim_rev_spec (str_rev s)) as (H & _). destruct (trim_rev_spec (trim_rev (str_rev s))) as (_ & _ & E). auto.
Qed.

Lemma trim_idem s : trim (trim s) = trim s.
Proof.
  unfold trim at 1. assert (E : trim_start (trim s) = trim s).
  { destruct (trim_start_spec (trim s)) as (_ & _ & H). apply H. clear H.
    destruct (head_ws (trim s)) eqn:Hh; [|done]. unfold trim, trim_end in Hh.
    destruct (trim_rev_spec (str_rev (trim_start s))) as (_ & (w & Hw) & _).
    apply (f_equal str_rev) in Hw. rewrite str_rev_involutive, str_rev_concat in Hw.
    apply (head_ws_app _ (str_rev w)) in Hh. rewrite <- Hw in Hh.
    destruct (trim_start_spec s) as (H & _). congruence. }
  rewrite E. unfold trim. apply trim_end_idem.
Qed.

Lemma one_of_In s l : one_of s l = true <-> In s l.
Proof.
  unfold one_of. rewrite existsb_exists. split.
  - by intros (x & ? & ->%String.eqb_eq).
  - intros H. exists s. by rewrite String.eqb_refl.
Qed.

Lemma one_of_app s l k : one_of s (l ++ k) = one_of s l || one_of s k.
Proof. apply existsb_app. Qed.

(** The texts of a list, one after the other. *)
Definition text_concat (l : list string) : string := fold_right String.append "" l.

Lemma text_concat_app l k : text_concat (l ++ k) = text_concat l +:+ text_concat k.
Proof. unfold text_concat. induction l as [|s l IH]; cbn; [done|]. by rewrite IH, str_app_assoc. Qed.
