(* ===== verification/Sse.v ===== *)
(** * Sse: the incremental reader of [text/event-stream] frames

    Models [stream/sse.rs] ([SseFrameReader] and its operations), the frame
    type [RawSse] and [RawSse::parse_all] of [stream/mod.rs], and the writer
    [format_sse] of [proxy.rs].  The reader is a record threaded through
    [feed], [finish], [push_line] and [take_frame]; the source's cursor loop
    is [feed_loop], whose fuel [feed] sets from the buffer length.

    [spec_feed] is the specification: cut the text into lines, run the line
    machine, keep the tail.  [feed_spec] shows that the loop implements it,
    and every later theorem is proved against it. *)

From S2P Require Import Prelude Text.

Definition MAX_SSE_PENDING : Z := 16 * 1024 * 1024.

(** One SSE frame. *)
Record RawSse := mkRawSse { raw_event : option string; raw_data : string }.

#[export] Instance RawSse_eq_dec : EqDecision RawSse.
Proof. solve_decision. Defined.

Record SseFrameReader := mkReader {
  buffer : list u8;
  event : option string;
  data : list string;
  data_bytes : Z;
  has_fields : bool
}.

Definition reader_new : SseFrameReader := mkReader [] None [] 0 false.

Definition set_buffer (b : list u8) (r : SseFrameReader) : SseFrameReader :=
  mkReader b (event r) (data r) (data_bytes r) (has_fields r).

Definition sse_line_error : string :=
  "SSE line exceeds " +:+ pretty MAX_SSE_PENDING +:+ " bytes".
Definition sse_data_error : string :=
  "SSE data exceeds " +:+ pretty MAX_SSE_PENDING +:+ " bytes".

(** [reset]: clears every field. *)
Definition reset (_ : SseFrameReader) : SseFrameReader := mkReader [] None [] 0 false.

(** [take_frame] *)
Definition take_frame (r : SseFrameReader) : SseFrameReader * option RawSse :=
  if negb (has_fields r) then (r, None)
  else (mkReader (buffer r) None [] 0 false,
        Some (mkRawSse (event r) (str_join nl_str (data r)))).

(** [line.split_once(':')], one leading space of the value removed. *)
Definition field_of (line : string) : string * string :=
  match split_once ":"%char line with
  | Some (name, value) => (name, unwrap_or (strip_prefix " " value) value)
  | None => (line, "")
  end.

(** [push_line] *)
Definition push_line (r : SseFrameReader) (line : string) :
    SseFrameReader * result string (option RawSse) :=
  if is_empty line then (let '(r', f) := take_frame r in (r', Ok f))
  else if starts_with ":" line then (r, Ok None)
  else
    let '(name, value) := field_of line in
    if String.eqb name "event" then
      (mkReader (buffer r) (Some value) (data r) (data_bytes r) true, Ok None)
    else if String.eqb name "data" then
      let extra := if bool_decide (data r = []) then slen value
                   else usize_saturating_add (slen value) 1 in
      if MAX_SSE_PENDING <? usize_saturating_add (data_bytes r) extra then
        (reset r, Err sse_data_error)
      else
        (mkReader (buffer r) (event r) (data r ++ [value])
           (usize_saturating_add (data_bytes r) extra) true, Ok None)
    else if String.eqb name "id" || String.eqb name "retry" then
      (mkReader (buffer r) (event r) (data r) (data_bytes r) true, Ok None)
    else (r, Ok None).

(** [position(|&b| b == b'\n')]: the bytes before the newline and after it. *)
Fixpoint next_line (l : list u8) : option (list u8 * list u8) :=
  match l with
  | [] => None
  | a :: t =>
      if Ascii.eqb a nl then Some ([], t)
      else match next_line t with
           | Some (x, y) => Some (a :: x, y)
           | None => None
           end
  end.

(** The line without the ['\r'] that ends it. *)
Definition strip_cr (l : list u8) : list u8 :=
  match rev l with
  | a :: t => if Ascii.eqb a cr then rev t else l
  | [] => l
  end.

(** The [while] loop of [feed]; [rest] is [self.buffer[cursor..]].  Each turn
    consumes at least the newline, so [S (length rest)] turns are enough. *)
Fixpoint feed_loop (fuel : nat) (r : SseFrameReader) (rest : list u8) (out : list RawSse) :
    SseFrameReader * result string (list RawSse * list u8) :=
  match fuel with
  | O => (r, Ok (out, rest))
  | S fuel =>
      match next_line rest with
      | None => (r, Ok (out, rest))
      | Some (line_bytes, rest') =>
          if MAX_SSE_PENDING <? vlen line_bytes then (reset r, Err sse_line_error)
          else
            match push_line r (from_utf8_lossy (strip_cr line_bytes)) with
            | (r', Err e) => (r', Err e)
            | (r', Ok None) => feed_loop fuel r' rest' out
            | (r', Ok (Some frame)) => feed_loop fuel r' rest' (out ++ [frame])
            end
      end
  end.

Definition contains_nl (l : list u8) : bool := existsb (Ascii.eqb nl) l.
#[global] Arguments contains_nl : simpl never.

(** [feed] *)
Definition feed (r : SseFrameReader) (bytes : list u8) :
    SseFrameReader * result string (list RawSse) :=
  if (MAX_SSE_PENDING <? usize_saturating_add (vlen (buffer r)) (vlen bytes))
     && negb (contains_nl bytes) && negb (contains_nl (buffer r))
  then (reset r, Err sse_line_error)
  else
    let buf := buffer r ++ bytes in
    match feed_loop (S (length buf)) (set_buffer buf r) buf [] with
    | (r', Err e) => (r', Err e)
    | (r', Ok (out, rest)) =>
        if MAX_SSE_PENDING <? vlen rest then (reset r', Err sse_line_error)
        else (set_buffer rest r', Ok out)
    end.

(** [finish] *)
Definition finish (r : SseFrameReader) : SseFrameReader * result string (option RawSse) :=
  let take r := let '(r', f) := take_frame r in (r', Ok f) in
  if bool_decide (buffer r = []) then take r
  else
    let line := from_utf8_lossy (buffer r) in
    match push_line (set_buffer [] r) (trim_end_matches cr line) with
    | (r', Ok (Some frame)) => (r', Ok (Some frame))
    | (r', Ok None) => take r'
    | (r', Err e) => (r', Err e)
    end.

(** [drain] *)
Definition drain (r : SseFrameReader) : SseFrameReader * option RawSse :=
  match finish r with (r', Ok f) => (r', f) | (r', Err _) => (r', None) end.

(** [has_open_frame] *)
Definition has_open_frame (r : SseFrameReader) : bool :=
  has_fields r || negb (bool_decide (buffer r = [])).

(** [pending_wire_bytes] *)
Definition pending_wire_bytes (r : SseFrameReader) : list u8 :=
  match event r with Some e => bytes_of_str ("event: " +:+ e +:+ nl_str) | None => [] end
  ++ concat (map (fun line => bytes_of_str ("data: " +:+ line +:+ nl_str)) (data r))
  ++ buffer r.

(** [RawSse::parse_all] *)
Definition parse_all (text : string) : result string (list RawSse) :=
  match feed reader_new (bytes_of_str text) with
  | (_, Err e) => Err e
  | (r, Ok out) =>
      match finish r with
      | (_, Err e) => Err e
      | (_, Ok None) => Ok out
      | (_, Ok (Some last)) => Ok (out ++ [last])
      end
  end.

(** [raw.data.split('\n')] *)
Fixpoint split_nl (s : string) : list string :=
  match s with
  | EmptyString => [""]
  | String a t =>
      if Ascii.eqb a nl then "" :: split_nl t
      else match split_nl t with
           | x :: r => String a x :: r
           | [] => [String a ""]
           end
  end.

(** [format_sse] *)
Definition format_sse (raw : RawSse) : string :=
  match raw_event raw with Some e => "event: " +:+ e +:+ nl_str | None => "" end
  +:+ fold_right (fun line acc => "data: " +:+ line +:+ nl_str +:+ acc) nl_str
        (split_nl (raw_data raw)).

(** ** Specification: the line machine *)

(** Complete lines of a text, and the tail after the last newline. *)
Fixpoint split_lines (l : list u8) : list (list u8) * list u8 :=
  match l with
  | [] => ([], [])
  | a :: t =>
      let '(ls, tl) := split_lines t in
      if Ascii.eqb a nl then ([] :: ls, tl)
      else match ls with
           | x :: r => ((a :: x) :: r, tl)
           | [] => ([], a :: tl)
           end
  end.

Fixpoint run_lines (r : SseFrameReader) (ls : list (list u8)) :
    SseFrameReader * result string (list RawSse) :=
  match ls with
  | [] => (r, Ok [])
  | l :: ls =>
      if MAX_SSE_PENDING <? vlen l then (reset r, Err sse_line_error)
      else match push_line r (from_utf8_lossy (strip_cr l)) with
           | (r', Err e) => (r', Err e)
           | (r', Ok f) =>
               let '(r2, res) := run_lines r' ls in
               (r2, rmap (app (option_list f)) res)
           end
  end.

Definition spec_feed (r : SseFrameReader) (bytes : list u8) :
    SseFrameReader * result string (list RawSse) :=
  let '(ls, tl) := split_lines (buffer r ++ bytes) in
  match run_lines (set_buffer [] r) ls with
  | (r', Err e) => (r', Err e)
  | (r', Ok out) =>
      if MAX_SSE_PENDING <? vlen tl then (reset r', Err sse_line_error)
      else (set_buffer tl r', Ok out)
  end.

(** Well-formed reader: the invariant of every reachable state. *)
Record reader_ok (r : SseFrameReader) : Prop := {
  ok_buffer_nl : contains_nl (buffer r) = false;
  ok_buffer_len : vlen (buffer r) <= MAX_SSE_PENDING;
  ok_data_bytes : data_bytes r = slen (str_join nl_str (data r));
  ok_data_len : data_bytes r <= MAX_SSE_PENDING;
  ok_idle : has_fields r = false -> event r = None /\ data r = []
}.

(** Feed a sequence of chunks, stopping at the first error. *)
Fixpoint feed_chunks (r : SseFrameReader) (chunks : list (list u8)) :
    SseFrameReader * result string (list RawSse) :=
  match chunks with
  | [] => (r, Ok [])
  | c :: cs =>
      match feed r c with
      | (r', Err e) => (r', Err e)
      | (r', Ok out) =>
          let '(r2, res) := feed_chunks r' cs in (r2, rmap (app out) res)
      end
  end.

(** A text that travels as one line of the wire. *)
Definition ends_cr (s : string) : bool :=
  match rev (bytes_of_str s) with a :: _ => Ascii.eqb a cr | [] => false end.

Definition wire_line (s : string) : Prop :=
  is_str s = true /\ contains_char nl s = false /\ ends_cr s = false
  /\ slen s <= MAX_SSE_PENDING.

(** A frame the format can carry: the event and every line of the data
    fit a line of the wire together with their field name. *)
Definition frame_printable (f : RawSse) : Prop :=
  match raw_event f with Some e => wire_line ("event: " +:+ e) | None => True end
  /\ Forall (fun l => wire_line ("data: " +:+ l)) (split_nl (raw_data f))
  /\ slen (raw_data f) <= MAX_SSE_PENDING.

(** ** Lines *)
Lemma next_line_split l :
  split_lines l =
  match next_line l with
  | Some (x, y) => let '(ls, tl) := split_lines y in (x :: ls, tl)
  | None => ([], l)
  end.
Proof.
  induction l as [|a l IH]; [done|]. cbn. destruct (Ascii.eqb a nl) eqn:E.
  - by destruct (split_lines l).
  - rewrite IH. destruct (next_line l) as [[x y]|]; [|done].
    by destruct (split_lines y).
Qed.

Lemma next_line_length l x y : next_line l = Some (x, y) -> (length y < length l)%nat.
Proof.
  revert x. induction l as [|a l IH]; intros x; cbn; [done|].
  destruct (Ascii.eqb a nl); [intros [= <- <-]; lia|].
  destruct (next_line l) as [[x' y']|]; [|done].
  intros [= <- <-]. specialize (IH x' eq_refl). lia.
Qed.

Lemma eqb_sym_ascii a b : Ascii.eqb a b = Ascii.eqb b a.
Proof. by destruct (Ascii.eqb_spec a b), (Ascii.eqb_spec b a); subst. Qed.

Lemma contains_nl_cons a l : contains_nl (a :: l) = Ascii.eqb a nl || contains_nl l.
Proof. unfold contains_nl. cbn. by rewrite eqb_sym_ascii. Qed.

Lemma contains_nl_app l k : contains_nl (l ++ k) = contains_nl l || contains_nl k.
Proof. apply existsb_app. Qed.

(** Text without a newline is all tail. *)
Lemma split_lines_tail l k :
  contains_nl l = false ->
  split_lines (l ++ k) =
  (let '(ls, tl) := split_lines k in
   match ls with x :: r => ((l ++ x) :: r, tl) | [] => ([], l ++ tl) end).
Proof.
  induction l as [|a l IH]; [intros _; cbn; by destruct (split_lines k) as [[|] ?]|].
  rewrite contains_nl_cons, orb_false_iff. intros [Ha Hl].
  cbn. rewrite (IH Hl), Ha. by destruct (split_lines k) as [[|] ?].
Qed.

Lemma split_lines_no_nl l : contains_nl l = false -> split_lines l = ([], l).
Proof.
  intros H. rewrite <- (app_nil_r l) at 1. rewrite split_lines_tail by done.
  cbn. by rewrite app_nil_r.
Qed.

Lemma split_lines_tail_nl l : contains_nl (split_lines l).2 = false.
Proof.
  induction l as [|a l IH]; [done|]. cbn. destruct (split_lines l) as [ls tl]. cbn in IH.
  destruct (Ascii.eqb a nl) eqn:E; [done|]. destruct ls; cbn; [|done].
  by rewrite contains_nl_cons, E, IH.
Qed.

(** The tail of the first part is completed by the second. *)
Lemma split_lines_app l k :
  split_lines (l ++ k) =
  (let '(ls, tl) := split_lines l in
   let '(ks, tk) := split_lines (tl ++ k) in (ls ++ ks, tk)).
Proof.
  induction l as [|a l IH]; [cbn; by destruct (split_lines k)|].
  cbn. rewrite IH. destruct (split_lines l) as [ls tl] eqn:El.
  destruct (Ascii.eqb a nl) eqn:E; [by destruct (split_lines (tl ++ k))|].
  destruct ls as [|x ls].
  - assert (Htl : contains_nl tl = false).
    { pose proof (split_lines_tail_nl l) as H. by rewrite El in H. }
    cbn. rewrite split_lines_tail by done.
    destruct (split_lines k) as [[|x ls] tk]; cbn; by rewrite E.
  - by destruct (split_lines (tl ++ k)).
Qed.

(** ** The line machine *)
Lemma push_line_buffer r line r' res :
  push_line r line = (r', res) ->
  match res with Ok _ => buffer r' = buffer r | Err _ => r' = reset r end.
Proof.
  unfold push_line, take_frame.
  repeat (case_goal; try discriminate); intros; simplify_eq/=; try done;
    by destruct (has_fields r); simplify_eq/=.
Qed.

Lemma push_line_set_buffer r line b :
  push_line (set_buffer b r) line =
  match push_line r line with
  | (r', Ok f) => (set_buffer b r', Ok f)
  | (r', Err e) => (r', Err e)
  end.
Proof.
  destruct r as [bf ev dt db hf]. unfold push_line, take_frame, set_buffer, reset. cbn.
  destruct (field_of line) as [name value].
  repeat (case_goal; cbn; try done).
Qed.

Lemma run_lines_app r ls ks :
  run_lines r (ls ++ ks) =
  match run_lines r ls with
  | (r', Err e) => (r', Err e)
  | (r', Ok out) => let '(r2, res) := run_lines r' ks in (r2, rmap (app out) res)
  end.
Proof.
  revert r. induction ls as [|l ls IH]; intros r.
  - cbn. destruct (run_lines r ks) as [r2 [out|e]]; done.
  - cbn. destruct (_ <? _); [done|].
    destruct (push_line r _) as [r' [f|e]]; [|done]. rewrite IH.
    destruct (run_lines r' ls) as [r2 [out|e]]; cbn; [|done].
    destruct (run_lines r2 ks) as [r3 [out'|e]]; cbn; [by rewrite app_assoc|done].
Qed.

Lemma run_lines_set_buffer r ls b :
  run_lines (set_buffer b r) ls =
  match run_lines r ls with
  | (r', Ok out) => (set_buffer b r', Ok out)
  | (r', Err e) => (r', Err e)
  end.
Proof.
  revert r. induction ls as [|l ls IH]; intros r; [done|].
  cbn [run_lines]. destruct (_ <? _); [done|].
  rewrite push_line_set_buffer. destruct (push_line r _) as [r' [f|e]]; [|done].
  rewrite IH. by destruct (run_lines r' ls) as [r2 [out|e]].
Qed.

Lemma run_lines_buffer r ls r' out : run_lines r ls = (r', Ok out) -> buffer r' = buffer r.
Proof.
  revert r out. induction ls as [|l ls IH]; intros r out; cbn; [by intros [= <- _]|].
  destruct (_ <? _); [done|].
  destruct (push_line r _) as [r1 [f|e]] eqn:Hp; [|done].
  destruct (run_lines r1 ls) as [r2 [out'|e]] eqn:Hr; cbn; [|done].
  intros [= <- _]. rewrite (IH _ _ Hr). by apply (push_line_buffer _ _ _ _ Hp).
Qed.

(** An error clears the reader. *)
Lemma run_lines_err r ls r' e : run_lines r ls = (r', Err e) -> r' = reader_new.
Proof.
  revert r. induction ls as [|l ls IH]; intros r; cbn; [done|].
  destruct (_ <? _); [by intros [= <- _]|].
  destruct (push_line r _) as [r1 [f|e1]] eqn:Hp.
  - destruct (run_lines r1 ls) as [r2 [out'|e2]] eqn:Hr; cbn; [done|].
    intros [= <- <-]. by apply (IH _ Hr).
  - intros [= <- <-]. by rewrite (push_line_buffer _ _ _ _ Hp).
Qed.

(** ** The loop implements the specification *)
Lemma feed_loop_spec fuel r rest out :
  (length rest < fuel)%nat ->
  feed_loop fuel r rest out =
  (let '(ls, tl) := split_lines rest in
   match run_lines r ls with
   | (r', Err e) => (r', Err e)
   | (r', Ok fs) => (r', Ok (out ++ fs, tl))
   end).
Proof.
  revert r rest out. induction fuel as [|fuel IH]; intros r rest out Hf; [lia|].
  cbn [feed_loop]. rewrite next_line_split.
  destruct (next_line rest) as [[x y]|] eqn:Hn; [|by cbn; rewrite app_nil_r].
  pose proof (next_line_length _ _ _ Hn) as Hlen.
  assert (Hy : (length y < fuel)%nat) by lia.
  destruct (split_lines y) as [ls tl] eqn:Hs. cbn [run_lines].
  destruct (_ <? _); [done|].
  destruct (push_line r _) as [r' [[f|]|e]]; [| |done];
    rewrite IH by done; rewrite Hs; destruct (run_lines r' ls) as [r2 [fs|e]]; cbn;
    by rewrite <- ?app_assoc.
Qed.

Lemma feed_spec r bytes :
  contains_nl (buffer r) = false -> feed r bytes = spec_feed r bytes.
Proof.
  intros Hb. unfold feed, spec_feed.
  rewrite feed_loop_spec by lia.
  set (buf := buffer r ++ bytes).
  destruct (split_lines buf) as [ls tl] eqn:Hs.
  rewrite (run_lines_set_buffer r ls buf), (run_lines_set_buffer r ls []).
  destruct (_ && _ && _) eqn:Hc.
  - rewrite !andb_true_iff, !negb_true_iff in Hc. destruct Hc as [[Hc Hn] _].
    assert (Hnl : contains_nl buf = false) by (unfold buf; by rewrite contains_nl_app, Hb, Hn).
    rewrite split_lines_no_nl in Hs by done. injection Hs as <- <-. cbn.
    replace (MAX_SSE_PENDING <? vlen buf) with true; [done|].
    symmetry. apply Z.ltb_lt in Hc. apply Z.ltb_lt. unfold buf. rewrite vlen_app. int_lia.
  - destruct (run_lines r ls) as [r' [out|e]]; cbn; [|done].
    destruct (_ <? _); done.
Qed.

(** ** Splitting the stream into chunks changes nothing *)
Lemma first_line_long l k x ls tl :
  contains_nl l = false -> split_lines (l ++ k) = (x :: ls, tl) -> vlen l <= vlen x.
Proof.
  intros Hl. rewrite split_lines_tail by done.
  destruct (split_lines k) as [[|y ys] tk]; [done|]. intros [= <- _ _].
  rewrite vlen_app. pose proof (vlen_nonneg y). lia.
Qed.

Lemma split_lines_nil l tl : split_lines l = ([], tl) -> tl = l.
Proof.
  rewrite next_line_split. destruct (next_line l) as [[x y]|]; [|by intros [= ->]].
  by destruct (split_lines y).
Qed.

Lemma spec_feed_app r a b :
  contains_nl (buffer r) = false ->
  spec_feed r (a ++ b) =
  match spec_feed r a with
  | (r1, Err e) => (r1, Err e)
  | (r1, Ok f1) => let '(r2, res) := spec_feed r1 b in (r2, rmap (app f1) res)
  end.
Proof.
  intros Hb. unfold spec_feed. rewrite app_assoc, split_lines_app.
  pose proof (split_lines_tail_nl (buffer r ++ a)) as Htl.
  destruct (split_lines (buffer r ++ a)) as [la ta]; cbn [snd] in Htl.
  destruct (split_lines (ta ++ b)) as [lb tb] eqn:Hs. rewrite run_lines_app.
  destruct (run_lines (set_buffer [] r) la) as [r1 [f1|e]] eqn:H1; [|done].
  apply run_lines_buffer in H1. destruct r1 as [bf ev dt db hf]; cbn in H1; subst bf.
  destruct (MAX_SSE_PENDING <? vlen ta) eqn:Hlen.
  - (* the open line is already too long: the second part cannot save it *)
    apply Z.ltb_lt in Hlen. destruct lb as [|x lb].
    + cbn [run_lines rmap].
      apply split_lines_nil in Hs as ->.
      rewrite (proj2 (Z.ltb_lt _ _)); [done|].
      rewrite vlen_app. pose proof (vlen_nonneg b). lia.
    + pose proof (first_line_long _ _ _ _ _ Htl Hs) as Hx. cbn [run_lines].
      rewrite (proj2 (Z.ltb_lt _ _)); [done|lia].
  - cbn [buffer set_buffer]. rewrite Hs. unfold set_buffer; cbn.
    destruct (run_lines _ lb) as [r2 [f2|e]]; [|done]. cbn.
    by destruct (MAX_SSE_PENDING <? vlen tb).
Qed.

Lemma spec_feed_buffer r a r1 res :
  spec_feed r a = (r1, res) -> contains_nl (buffer r1) = false.
Proof.
  unfold spec_feed. pose proof (split_lines_tail_nl (buffer r ++ a)) as Htl.
  destruct (split_lines (buffer r ++ a)) as [la ta]; cbn [snd] in Htl.
  destruct (run_lines _ la) as [r' [out|e]] eqn:H.
  - destruct (_ <? _); intros [= <- _]; done.
  - apply run_lines_err in H as ->. by intros [= <- _].
Qed.

Lemma feed_buffer r a r1 res :
  contains_nl (buffer r) = false -> feed r a = (r1, res) -> contains_nl (buffer r1) = false.
Proof. intros Hb. rewrite feed_spec by done. apply spec_feed_buffer. Qed.

Lemma feed_app_lem r a b :
  contains_nl (buffer r) = false ->
  feed r (a ++ b) =
  match feed r a with
  | (r1, Err e) => (r1, Err e)
  | (r1, Ok f1) => let '(r2, res) := feed r1 b in (r2, rmap (app f1) res)
  end.
Proof.
  intros Hb. rewrite !feed_spec by done. rewrite spec_feed_app by done.
  destruct (spec_feed r a) as [r1 [f1|e]] eqn:H; [|done].
  rewrite (feed_spec r1) by (by apply spec_feed_buffer in H). done.
Qed.

Lemma feed_nil r :
  contains_nl (buffer r) = false -> vlen (buffer r) <= MAX_SSE_PENDING -> feed r [] = (r, Ok []).
Proof.
  intros Hb Hl. rewrite feed_spec by done. unfold spec_feed.
  rewrite app_nil_r, split_lines_no_nl by done. cbn [run_lines].
  rewrite (proj2 (Z.ltb_ge _ _)) by done. by destruct r.
Qed.

Lemma feed_chunks_concat_lem r chunks :
  reader_ok r -> feed_chunks r chunks = feed r (concat chunks).
Proof.
  intros [Hb Hl _ _ _]. revert r Hb Hl. induction chunks as [|c cs IH]; intros r Hb Hl.
  - cbn. by rewrite feed_nil.
  - cbn [feed_chunks concat]. rewrite feed_app_lem by done.
    destruct (feed r c) as [r1 [f1|e]] eqn:H; [|done].
    rewrite IH; [done| |].
    + by eapply feed_buffer.
    + rewrite feed_spec in H by done. unfold spec_feed in H.
      destruct (split_lines _) as [la ta], (run_lines _ la) as [r' [out|e]]; [|done].
      destruct (_ <? _) eqn:Hlt; simplify_eq. cbn. by apply Z.ltb_ge in Hlt.
Qed.

(** ** The invariant *)

(** The part of [reader_ok] the line machine keeps. *)
Definition fields_ok (r : SseFrameReader) : Prop :=
  data_bytes r = slen (str_join nl_str (data r)) /\ data_bytes r <= MAX_SSE_PENDING
  /\ (has_fields r = false -> event r = None /\ data r = []).

Definition frame_ok (f : RawSse) : Prop := slen (raw_data f) <= MAX_SSE_PENDING.

Lemma reader_ok_fields r : reader_ok r -> fields_ok r.
Proof. by intros [? ? ? ? ?]. Qed.

Lemma reader_ok_new : reader_ok reader_new.
Proof. split; done. Qed.

Lemma take_frame_ok r r' f :
  fields_ok r -> take_frame r = (r', f) ->
  fields_ok r' /\ buffer r' = buffer r /\ Forall frame_ok (option_list f).
Proof.
  unfold take_frame, fields_ok, frame_ok. intros (Hd & Hm & Hi).
  destruct (has_fields r) eqn:Hf; cbn; intros [= <- <-]; cbn.
  - repeat split; try done. constructor; [cbn; lia | done].
  - rewrite Hf. repeat split; try done; by apply Hi.
Qed.

Lemma data_push_len l v :
  slen (str_join nl_str (l ++ [v])) =
  slen (str_join nl_str l) + (if bool_decide (l = []) then slen v else slen v + 1).
Proof.
  case_bool_decide as Hl; [subst l; cbn [app str_join]; rewrite slen_nil; lia|].
  rewrite str_join_app by done. rewrite !slen_app.
  change (slen nl_str) with 1. lia.
Qed.

Lemma push_line_ok r line r' res :
  fields_ok r -> push_line r line = (r', res) ->
  fields_ok r' /\ match res with
                  | Ok f => buffer r' = buffer r /\ Forall frame_ok (option_list f)
                  | Err _ => True
                  end.
Proof.
  intros Hok. unfold push_line.
  destruct (is_empty line).
  { destruct (take_frame r) as [r1 f] eqn:Ht. intros [= <- <-]. by eapply take_frame_ok. }
  destruct (starts_with ":" line); [by intros [= <- <-]|].
  destruct (field_of line) as [name value]. destruct Hok as (Hd & Hm & Hi).
  destruct (String.eqb name "event"); [by intros [= <- <-]|].
  destruct (String.eqb name "data").
  - set (extra := if bool_decide _ then _ else _).
    destruct (_ <? _) eqn:Hcap; intros [= <- <-]; [done|].
    apply Z.ltb_ge in Hcap. pose proof (slen_nonneg value) as Hv.
    assert (data_bytes r + extra <= MAX_SSE_PENDING /\
            usize_saturating_add (data_bytes r) extra = data_bytes r + extra) as [Hle Hadd].
    { unfold MAX_SSE_PENDING, usize_saturating_add, usize_max, u64_max in *. lia. }
    unfold fields_ok. cbn. rewrite Hadd, data_push_len, <- Hd.
    assert (Hx : extra = if bool_decide (data r = []) then slen value else slen value + 1).
    { clear Hadd Hcap. subst extra. case_bool_decide; [done|].
      unfold MAX_SSE_PENDING, usize_saturating_add, usize_max, u64_max in *.
      pose proof (slen_nonneg (str_join nl_str (data r))). lia. }
    by rewrite <- Hx.
  - destruct (_ || _); by intros [= <- <-].
Qed.

Lemma run_lines_ok r ls r' res :
  fields_ok r -> run_lines r ls = (r', res) ->
  fields_ok r' /\ match res with Ok fs => Forall frame_ok fs | Err _ => True end.
Proof.
  revert r res. induction ls as [|l ls IH]; intros r res Hok; cbn [run_lines].
  { by intros [= <- <-]. }
  destruct (_ <? _); [by intros [= <- <-]|].
  destruct (push_line r _) as [r1 [f|e]] eqn:Hp;
    pose proof (push_line_ok _ _ _ _ Hok Hp) as [Hok1 Hf]; [|by intros [= <- <-]].
  destruct (run_lines r1 ls) as [r2 res2] eqn:Hr. intros [= <- <-].
  destruct (IH _ _ Hok1 Hr) as [? Hfs]. split; [done|].
  destruct res2; cbn; [|done]. apply Forall_app. by destruct Hf.
Qed.

Lemma feed_ok_lem r bytes r' res :
  reader_ok r -> feed r bytes = (r', res) ->
  reader_ok r' /\ match res with Ok fs => Forall frame_ok fs | Err _ => r' = reader_new end.
Proof.
  intros Hok. rewrite feed_spec by apply Hok. unfold spec_feed.
  pose proof (split_lines_tail_nl (buffer r ++ bytes)) as Htl.
  destruct (split_lines (buffer r ++ bytes)) as [ls tl]; cbn [snd] in Htl.
  assert (Hf : fields_ok (set_buffer [] r)) by apply (reader_ok_fields _ Hok).
  destruct (run_lines _ ls) as [r1 [fs|e]] eqn:Hr;
    destruct (run_lines_ok _ _ _ _ Hf Hr) as [(Hd & Hm & Hi) Hfs].
  - destruct (_ <? _) eqn:Hl; intros [= <- <-]; [by split; [apply reader_ok_new|]|].
    split; [|done]. apply Z.ltb_ge in Hl. by split.
  - intros [= <- <-]. apply run_lines_err in Hr as ->. by split; [apply reader_ok_new|].
Qed.

Lemma finish_ok_lem r r' res :
  reader_ok r -> finish r = (r', res) ->
  reader_ok r' /\ match res with Ok f => Forall frame_ok (option_list f) | Err _ => True end.
Proof.
  intros Hok. unfold finish.
  assert (Htake : forall r0, fields_ok r0 -> buffer r0 = [] ->
            reader_ok (take_frame r0).1 /\ Forall frame_ok (option_list (take_frame r0).2)).
  { intros r0 H0 Hb. destruct (take_frame r0) as [r1 f] eqn:Ht.
    destruct (take_frame_ok _ _ _ H0 Ht) as ((? & ? & ?) & Hb1 & ?). cbn.
    split; [|done]. rewrite Hb in Hb1. split; rewrite ?Hb1; done. }
  case_bool_decide as Hb.
  - specialize (Htake r (reader_ok_fields _ Hok) Hb).
    destruct (take_frame r) as [r1 f]. by intros [= <- <-].
  - destruct (push_line (set_buffer [] r) _) as [r1 [[f|]|e]] eqn:Hp;
      pose proof (push_line_ok (set_buffer [] r) _ _ _ (reader_ok_fields _ Hok) Hp) as [H1 H2].
    + intros [= <- <-]. destruct H1 as (? & ? & ?), H2 as [Hb1 ?].
      split; [|done]. split; rewrite ?Hb1; done.
    + destruct H2 as [Hb1 _]. specialize (Htake r1 H1 Hb1).
      destruct (take_frame r1) as [r2 f]. by intros [= <- <-].
    + apply push_line_buffer in Hp. subst r1. intros [= <- <-]. by split; [apply reader_ok_new|].
Qed.

(** ** Writing and reading back *)
Lemma strip_cr_id s : ends_cr s = false -> strip_cr (bytes_of_str s) = bytes_of_str s.
Proof. unfold ends_cr, strip_cr. destruct (rev _) as [|a t]; [done|]. by intros ->. Qed.

Lemma split_lines_one l : contains_nl l = false -> split_lines (l ++ [nl]) = ([l], []).
Proof.
  intros H. rewrite split_lines_tail by done. cbn. by rewrite Ascii.eqb_refl, app_nil_r.
Qed.

Lemma contains_nl_bytes s : contains_nl (bytes_of_str s) = contains_char nl s.
Proof. by rewrite contains_char_bytes. Qed.

(** One complete line is one step of the line machine. *)
Lemma feed_line r l k :
  buffer r = [] -> wire_line l ->
  feed r (bytes_of_str (l +:+ nl_str) ++ k) =
  match push_line r l with
  | (r', Err e) => (r', Err e)
  | (r', Ok f) => let '(r2, res) := feed r' k in (r2, rmap (app (option_list f)) res)
  end.
Proof.
  intros Hb (Hs & Hn & Hc & Hl).
  rewrite feed_app_lem by (by rewrite Hb).
  rewrite bytes_of_str_app. cbn [bytes_of_str nl_str String.list_ascii_of_string].
  rewrite (feed_spec r) by (by rewrite Hb). unfold spec_feed. rewrite Hb. cbn [app].
  change (bytes_of_str nl_str) with [nl].
  rewrite split_lines_one by (by rewrite contains_nl_bytes). cbn [run_lines].
  rewrite <- slen_bytes, (proj2 (Z.ltb_ge _ _) Hl), strip_cr_id, from_utf8_lossy_str by done.
  rewrite push_line_set_buffer.
  destruct (push_line r l) as [r' [f|e]] eqn:Hp; [|done].
  pose proof (push_line_buffer _ _ _ _ Hp) as Hb'. cbn in Hb'. rewrite Hb in Hb'.
  cbn. rewrite app_nil_r.
  assert (set_buffer [] (set_buffer [] r') = r') as ->.
  { destruct r'; cbn in *. by rewrite Hb'. }
  done.
Qed.

Lemma push_event r e :
  push_line r ("event: " +:+ e)
  = (mkReader (buffer r) (Some e) (data r) (data_bytes r) true, Ok None).
Proof. reflexivity. Qed.

Lemma push_data r v :
  fields_ok r ->
  slen (str_join nl_str (data r ++ [v])) <= MAX_SSE_PENDING ->
  push_line r ("data: " +:+ v)
  = (mkReader (buffer r) (event r) (data r ++ [v])
       (slen (str_join nl_str (data r ++ [v]))) true, Ok None).
Proof.
  intros (Hd & Hm & _) Hcap.
  change (push_line r ("data: " +:+ v)) with
    (let extra := if bool_decide (data r = []) then slen v
                  else usize_saturating_add (slen v) 1 in
     if MAX_SSE_PENDING <? usize_saturating_add (data_bytes r) extra
     then (reset r, @Err string (option RawSse) sse_data_error)
     else (mkReader (buffer r) (event r) (data r ++ [v])
             (usize_saturating_add (data_bytes r) extra) true, Ok None)).
  cbv zeta. rewrite data_push_len in *. rewrite Hd in *.
  pose proof (slen_nonneg v). pose proof (slen_nonneg (str_join nl_str (data r))).
  assert (usize_saturating_add (slen (str_join nl_str (data r)))
            (if bool_decide (data r = []) then slen v else usize_saturating_add (slen v) 1)
          = slen (str_join nl_str (data r))
            + (if bool_decide (data r = []) then slen v else slen v + 1)) as ->.
  { unfold MAX_SSE_PENDING, usize_saturating_add, usize_max, u64_max in *.
    case_bool_decide; lia. }
  by rewrite (proj2 (Z.ltb_ge _ _)).
Qed.

Lemma str_join_prefix l k :
  slen (str_join nl_str l) <= slen (str_join nl_str (l ++ k)).
Proof.
  revert l. induction k as [|x k IH]; intros l; [by rewrite app_nil_r|].
  replace (l ++ x :: k) with ((l ++ [x]) ++ k) by (by rewrite <- app_assoc).
  etrans; [|apply IH]. rewrite data_push_len. pose proof (slen_nonneg x).
  case_bool_decide; lia.
Qed.

Lemma skip_none (x : SseFrameReader * result string (list RawSse)) :
  (let '(r2, res) := x in (r2, rmap (app (option_list (@None RawSse))) res)) = x.
Proof. by destruct x as [? [?|?]]. Qed.

(** The [data:] lines of a frame fill the [data] field in order. *)
Lemma feed_data_lines ls r k :
  buffer r = [] -> fields_ok r ->
  Forall (fun l => wire_line ("data: " +:+ l)) ls ->
  slen (str_join nl_str (data r ++ ls)) <= MAX_SSE_PENDING ->
  ls <> [] ->
  feed r (concat (map (fun l => bytes_of_str ("data: " +:+ l +:+ nl_str)) ls) ++ k) =
  feed (mkReader [] (event r) (data r ++ ls) (slen (str_join nl_str (data r ++ ls))) true) k.
Proof.
  revert r. induction ls as [|l ls IH]; intros r Hb Hok Hls Hcap Hne; [done|].
  inversion Hls as [|? ? Hl Hls']; subst.
  cbn [map concat]. rewrite <- app_assoc, <- str_app_assoc.
  rewrite feed_line by done.
  assert (Hcap1 : slen (str_join nl_str (data r ++ [l])) <= MAX_SSE_PENDING).
  { etrans; [|exact Hcap].
    replace (data r ++ l :: ls) with ((data r ++ [l]) ++ ls) by (by rewrite <- app_assoc).
    apply str_join_prefix. }
  rewrite push_data by done. rewrite Hb.
  set (r1 := mkReader _ _ _ _ _).
  rewrite skip_none.
  destruct ls as [|l2 ls].
  - done.
  - rewrite (IH r1); [| done | done | done | |done].
    + cbn [event data r1]. by rewrite <- app_assoc.
    + cbn [data r1]. by rewrite <- app_assoc.
Qed.

Lemma split_nl_ne s : split_nl s <> [].
Proof. destruct s as [|a s]; cbn; [done|]. destruct (Ascii.eqb a nl); [done|].
  by destruct (split_nl s). Qed.

Lemma join_split_nl s : str_join nl_str (split_nl s) = s.
Proof.
  induction s as [|a s IH]; [done|]. cbn. destruct (Ascii.eqb_spec a nl) as [->|].
  - pose proof (split_nl_ne s). destruct (split_nl s) eqn:Hs; [done|].
    cbn [str_join]. cbn in IH. by rewrite IH.
  - pose proof (split_nl_ne s). destruct (split_nl s) as [|x [|y l]] eqn:Hs; [done| |].
    + cbn in *. by rewrite IH.
    + cbn in *. by rewrite <- IH.
Qed.

Lemma format_sse_bytes f :
  bytes_of_str (format_sse f) =
  match raw_event f with Some e => bytes_of_str (("event: " +:+ e) +:+ nl_str) | None => [] end
  ++ concat (map (fun l => bytes_of_str ("data: " +:+ l +:+ nl_str)) (split_nl (raw_data f)))
  ++ [nl].
Proof.
  unfold format_sse. rewrite bytes_of_str_app. f_equal.
  { destruct (raw_event f); [|done]. by rewrite str_app_assoc. }
  generalize (split_nl (raw_data f)). intros ls. induction ls as [|l ls IH]; [done|].
  cbn [fold_right map concat]. by rewrite !bytes_of_str_app, IH, <- !app_assoc.
Qed.

Lemma feed_format f k :
  frame_printable f ->
  feed reader_new (bytes_of_str (format_sse f) ++ k) =
  (let '(r, res) := feed reader_new k in (r, rmap (cons f) res)).
Proof.
  intros (He & Hd & Hlen). rewrite format_sse_bytes, <- !app_assoc.
  assert (Hdata : forall ev hf, (hf = false -> ev = None) ->
    feed (mkReader [] ev [] 0 hf)
      (concat (map (fun l => bytes_of_str ("data: " +:+ l +:+ nl_str)) (split_nl (raw_data f)))
       ++ [nl] ++ k)
    = (let '(r, res) := feed reader_new k in
       (r, rmap (cons (mkRawSse ev (raw_data f))) res))).
  { intros ev hf Hhf. rewrite feed_data_lines; cbn [buffer data event app]; try done.
    - rewrite join_split_nl. change (nl :: k) with (bytes_of_str ("" +:+ nl_str) ++ k).
      rewrite feed_line; [|done|by repeat split].
      cbn [push_line is_empty take_frame has_fields negb raw_event option_list].
      cbn [event data buffer]. by rewrite join_split_nl.
    - repeat split; [done|by apply Hhf].
    - by rewrite join_split_nl.
    - apply split_nl_ne. }
  destruct f as [[e|] d]; cbn [raw_event raw_data] in *.
  - rewrite feed_line by done. rewrite push_event. cbn [buffer data data_bytes reader_new].
    rewrite (Hdata (Some e) true) by done. by destruct (feed reader_new k) as [? [?|?]].
  - cbn [app]. by apply (Hdata None false).
Qed.

Lemma feed_format_all fs k :
  Forall frame_printable fs ->
  feed reader_new (bytes_of_str (fold_right (fun f acc => format_sse f +:+ acc) "" fs) ++ k) =
  (let '(r, res) := feed reader_new k in (r, rmap (app fs) res)).
Proof.
  intros Hfs. induction Hfs as [|f fs Hf Hfs IH]; cbn [fold_right].
  - cbn. by destruct (feed reader_new k) as [? [?|?]].
  - rewrite bytes_of_str_app, <- app_assoc, feed_format, IH by done.
    by destruct (feed reader_new k) as [? [?|?]].
Qed.

(** The [event:] and [data:] lines of a reader, written out, fill a fresh one. *)
Lemma feed_pending r k :
  reader_ok r -> has_fields r = true -> (event r = None -> data r = [] -> False) ->
  match event r with Some e => wire_line ("event: " +:+ e) | None => True end ->
  Forall (fun l => wire_line ("data: " +:+ l)) (data r) ->
  feed reader_new (pending_wire_bytes r ++ k) = feed r k.
Proof.
  intros Hok Hf Hne He Hd. pose proof Hok as [Hb Hl Hdb Hdl _].
  unfold pending_wire_bytes.
  set (r0 := mkReader [] (event r) (data r) (data_bytes r) true).
  assert (Hr : feed r k = feed r0 (buffer r ++ k)).
  { rewrite !feed_spec by done. unfold spec_feed, r0. cbn [buffer app].
    destruct r; cbn in *. by rewrite Hf. }
  rewrite Hr. clear Hr. rewrite <- !app_assoc.
  assert (Hdata : forall hf, (hf = false -> event r = None) -> (hf = false -> data r = [] -> False) ->
    feed (mkReader [] (event r) [] 0 hf)
      (concat (map (fun l => bytes_of_str ("data: " +:+ l +:+ nl_str)) (data r)) ++ buffer r ++ k)
    = feed r0 (buffer r ++ k)).
  { intros hf H1 H2. unfold r0. destruct (data r) as [|d ds] eqn:Hds.
    - cbn [map concat app]. destruct hf; [|by destruct (H2 eq_refl eq_refl)].
      rewrite Hdb. by cbn.
    - rewrite feed_data_lines; cbn [buffer data event app]; try done.
      + by rewrite Hdb.
      + split; [done|]. split; [done|]. by intros ?%H1.
      + by rewrite <- Hdb. }
  destruct (event r) as [e|] eqn:Hev.
  - cbn [app]. rewrite <- str_app_assoc, feed_line by done.
    rewrite push_event, skip_none. cbn [buffer data data_bytes reader_new]. by apply Hdata.
  - cbn [app]. apply (Hdata false); [done|]. intros _. by apply Hne.
Qed.

(** ** Properties *)

(** Chunking is invisible: feeding the chunks of a text one after the other
    gives the frames, the final state and the error of feeding the text at once. *)
Theorem feed_chunks_concat r chunks :
  reader_ok r -> feed_chunks r chunks = feed r (concat chunks).
Proof. apply feed_chunks_concat_lem. Qed.
Lemma feed_chunks_concat_witness :
  feed_chunks reader_new [bytes_of_str "data: hel"; bytes_of_str ("lo" +:+ nl_str +:+ nl_str)]
  = feed reader_new (concat [bytes_of_str "data: hel"; bytes_of_str ("lo" +:+ nl_str +:+ nl_str)])
  /\ (feed reader_new (bytes_of_str ("data: hello" +:+ nl_str +:+ nl_str))).2
     = Ok [mkRawSse None "hello"].
Proof.
  split; [|vm_compute; reflexivity].
  apply (feed_chunks_concat reader_new _); exact reader_ok_new.
Defined.

(** Frames written by [format_sse] are read back exactly, in order, however
    the network cuts the bytes into chunks, and the reader ends empty. *)
Theorem format_feed_roundtrip fs chunks :
  Forall frame_printable fs ->
  concat chunks = bytes_of_str (fold_right (fun f acc => format_sse f +:+ acc) "" fs) ->
  feed_chunks reader_new chunks = (reader_new, Ok fs).
Proof.
  intros Hfs Hc. rewrite feed_chunks_concat_lem by apply reader_ok_new.
  rewrite Hc, <- (app_nil_r (bytes_of_str _)), feed_format_all by done.
  rewrite feed_nil by done. cbn. by rewrite app_nil_r.
Qed.

Lemma format_feed_roundtrip_witness :
  feed_chunks reader_new
    [bytes_of_str ("event: ping" +:+ nl_str +:+ "da"); bytes_of_str ("ta: {}" +:+ nl_str +:+ nl_str)]
  = (reader_new, Ok [mkRawSse (Some "ping") "{}"]).
Proof.
  apply (format_feed_roundtrip [mkRawSse (Some "ping") "{}"]);
    [|vm_compute; reflexivity].
  repeat constructor; vm_compute; done.
Defined.

(** The reader keeps its invariant on every chunk: the open line and the
    joined data stay under the 16 MiB cap, no frame exceeds it, and an error
    leaves the reader empty. *)
Theorem feed_invariant r bytes r' res :
  reader_ok r -> feed r bytes = (r', res) ->
  reader_ok r' /\ match res with Ok fs => Forall frame_ok fs | Err _ => r' = reader_new end.
Proof. apply feed_ok_lem. Qed.

Lemma feed_invariant_witness :
  reader_ok (feed reader_new (bytes_of_str ("data: a" +:+ nl_str +:+ "x"))).1
  /\ match (feed reader_new (bytes_of_str ("data: a" +:+ nl_str +:+ "x"))).2 with
     | Ok fs => Forall frame_ok fs
     | Err _ => (feed reader_new (bytes_of_str ("data: a" +:+ nl_str +:+ "x"))).1 = reader_new
     end.
Proof.
  apply (feed_invariant reader_new (bytes_of_str ("data: a" +:+ nl_str +:+ "x")));
    [exact reader_ok_new | vm_compute; reflexivity].
Defined.

(** A line of the source's loop is a step of the line machine: [feed] is
    exactly "split into lines, run them, keep the tail", so its loop always
    reaches the end of the buffer within the fuel it is given. *)
Theorem feed_refines_spec r bytes :
  reader_ok r -> feed r bytes = spec_feed r bytes.
Proof. intros H. apply feed_spec, H. Qed.

Lemma feed_refines_spec_witness :
  feed reader_new (bytes_of_str ("data: a" +:+ nl_str)) =
  spec_feed reader_new (bytes_of_str ("data: a" +:+ nl_str)).
Proof. apply (feed_refines_spec reader_new); exact reader_ok_new. Defined.

(** [pending_wire_bytes] loses nothing of an open frame: a fresh reader
    fed those bytes and then any continuation behaves like the reader itself. *)
Theorem pending_wire_bytes_resume r k :
  reader_ok r -> has_fields r = true -> (event r = None -> data r = [] -> False) ->
  match event r with Some e => wire_line ("event: " +:+ e) | None => True end ->
  Forall (fun l => wire_line ("data: " +:+ l)) (data r) ->
  feed reader_new (pending_wire_bytes r ++ k) = feed r k.
Proof. apply feed_pending. Qed.

Lemma pending_wire_bytes_resume_witness :
  let r := mkReader (bytes_of_str "da") (Some "e") ["a"] 1 true in
  feed reader_new (pending_wire_bytes r ++ bytes_of_str ("ta: b" +:+ nl_str +:+ nl_str)) =
  feed r (bytes_of_str ("ta: b" +:+ nl_str +:+ nl_str))
  /\ (feed reader_new (bytes_of_str ("event: e" +:+ nl_str +:+ "data: a" +:+ nl_str +:+ "da"))).1 = r.
Proof.
  cbv zeta. split; [|vm_compute; reflexivity]. apply pending_wire_bytes_resume.
  - split; vm_compute; done.
  - reflexivity.
  - discriminate.
  - repeat split; vm_compute; done.
  - repeat constructor; vm_compute; done.
Defined.
