(* ===== verification/Json.v ===== *)
(** * Json: [serde_json::Value] and the interface of the serializer

    [serde_json] is not part of the repository.  Its public data type
    [Value] is the inductive [json]; the accessors ([get], [as_str],
    [pointer], ...) are what its documentation states of them.  A [Map] is
    a [BTreeMap<String, Value>]: a list of bindings sorted by key, and
    [obj_insert] is [Map::insert].  Parsing and printing are the class
    [SerdeJson], with the documented behaviour the code relies on in
    [SerdeJsonLaws]. *)

From S2P Require Import Prelude Text.

(** A JSON number: an integer of [i64] or [u64], or an [f64] by its bits. *)
Inductive number : Type := NumInt (z : Z) | NumFloat (bits : Z).

Inductive json : Type :=
| JNull
| JBool (b : bool)
| JNum (n : number)
| JStr (s : string)
| JArr (l : list json)
| JObj (m : list (string * json)).

Abbreviation object := (list (string * json)) (only parsing).

(** Induction with the hypotheses for the elements of arrays and objects. *)
Lemma json_ind' (P : json -> Prop) :
  P JNull -> (forall b, P (JBool b)) -> (forall n, P (JNum n)) -> (forall s, P (JStr s)) ->
  (forall l, Forall P l -> P (JArr l)) ->
  (forall m, Forall (fun kv => P kv.2) m -> P (JObj m)) ->
  forall v, P v.
Proof.
  intros Hn Hb Hnum Hs Ha Ho. fix IH 1.
  intros [| | | |l|m]; [exact Hn | apply Hb | apply Hnum | apply Hs | apply Ha | apply Ho].
  - induction l as [|v l IHl]; constructor; [apply IH | exact IHl].
  - induction m as [|kv m IHm]; constructor; [apply IH | exact IHm].
Qed.

#[export] Instance number_eq_dec : EqDecision number.
Proof. solve_decision. Defined.

#[export] Instance json_eq_dec : EqDecision json.
Proof.
  refine (fix go v w := let _ : EqDecision json := @go in
    match v, w with
    | JNull, JNull => left _
    | JBool a, JBool b => cast_if (decide (a = b))
    | JNum a, JNum b => cast_if (decide (a = b))
    | JStr a, JStr b => cast_if (decide (a = b))
    | JArr a, JArr b => cast_if (decide (a = b))
    | JObj a, JObj b => cast_if (decide (a = b))
    | _, _ => right _
    end); abstract congruence.
Defined.

(** ** Sorted bindings: [serde_json::Map] *)
Fixpoint obj_get (k : string) (m : object) : option json :=
  match m with
  | [] => None
  | (k', v) :: m => if String.eqb k k' then Some v else obj_get k m
  end.

Fixpoint obj_insert (k : string) (v : json) (m : object) : object :=
  match m with
  | [] => [(k, v)]
  | (k', v') :: m' =>
      match String.compare k k' with
      | Lt => (k, v) :: m
      | Eq => (k, v) :: m'
      | Gt => (k', v') :: obj_insert k v m'
      end
  end.

Fixpoint obj_remove (k : string) (m : object) : object :=
  match m with
  | [] => []
  | (k', v') :: m' => if String.eqb k k' then m' else (k', v') :: obj_remove k m'
  end.

Definition obj_contains (k : string) (m : object) : bool := is_some (obj_get k m).

(** [json!({ k: v, ... })] *)
Definition jobj (kvs : list (string * json)) : json :=
  JObj (fold_left (fun m kv => obj_insert kv.1 kv.2 m) kvs []).

(** ** Accessors *)
Definition get (v : json) (k : string) : option json :=
  match v with JObj m => obj_get k m | _ => None end.

Definition as_str (v : json) : option string :=
  match v with JStr s => Some s | _ => None end.

Definition as_bool (v : json) : option bool :=
  match v with JBool b => Some b | _ => None end.

Definition as_u64 (v : json) : option Z :=
  match v with
  | JNum (NumInt z) => if (0 <=? z) && (z <=? u64_max) then Some z else None
  | _ => None
  end.

Definition as_i64 (v : json) : option Z :=
  match v with
  | JNum (NumInt z) =>
      if (-9223372036854775808 <=? z) && (z <=? 9223372036854775807) then Some z else None
  | _ => None
  end.

Definition as_array (v : json) : option (list json) :=
  match v with JArr l => Some l | _ => None end.

Definition as_object (v : json) : option object :=
  match v with JObj m => Some m | _ => None end.

Definition is_object (v : json) : bool := is_some (as_object v).
Definition is_array (v : json) : bool := is_some (as_array v).
Definition is_null (v : json) : bool := match v with JNull => true | _ => false end.
Definition is_string (v : json) : bool := is_some (as_str v).

(** A step of [Value::pointer]: a key of an object, or an index of an array. *)
Inductive ptr_token := Key (k : string) | Idx (i : nat).

Definition ptr_step (v : json) (t : ptr_token) : option json :=
  match v, t with
  | JObj m, Key k => obj_get k m
  | JObj m, Idx i => obj_get (pretty i) m
  | JArr l, Idx i => l !! i
  | _, _ => None
  end.

(** [value.pointer("/a/b/0")] is [pointer value [Key "a"; Key "b"; Idx 0]];
    a token that is not a decimal index is a [Key]. *)
Fixpoint pointer (v : json) (p : list ptr_token) : option json :=
  match p with
  | [] => Some v
  | t :: p => v' ← ptr_step v t; pointer v' p
  end.

(** The common accessor chains of the code. *)
Definition get_str (v : json) (k : string) : option string := get v k ≫= as_str.
Definition get_array (v : json) (k : string) : option (list json) := get v k ≫= as_array.
Definition get_u64 (v : json) (k : string) : option Z := get v k ≫= as_u64.
Definition pointer_str (v : json) (p : list ptr_token) : option string := pointer v p ≫= as_str.

(** [usage["key"] = v] on an object: [Value::index_mut]. *)
Definition index_set (v : json) (k : string) (x : json) : json :=
  match v with JObj m => JObj (obj_insert k x m) | _ => v end.

(** [if let Some(v) = o { item[key] = v }] *)
Definition set_opt (key : string) (o : option json) (item : json) : json :=
  match o with Some v => index_set item key v | None => item end.

(** The text leaves of a value: its strings, in whatever array or object. *)
Inductive json_leaf : json -> string -> Prop :=
| leaf_str s : json_leaf (JStr s) s
| leaf_arr l v s : In v l -> json_leaf v s -> json_leaf (JArr l) s
| leaf_obj m k v s : In (k, v) m -> json_leaf v s -> json_leaf (JObj m) s.

(** ** Well-formed values *)
Fixpoint sorted_keys (m : object) : bool :=
  match m with
  | (k, _) :: (((k', _) :: _) as m') =>
      match String.compare k k' with Lt => true | _ => false end && sorted_keys m'
  | _ => true
  end.

Fixpoint json_depth (v : json) : nat :=
  match v with
  | JArr l => S (fold_right (fun x n => Nat.max (json_depth x) n) 0%nat l)
  | JObj m => S (fold_right (fun kv n => Nat.max (json_depth (snd kv)) n) 0%nat m)
  | _ => 0%nat
  end.

(** The values a serializer prints without loss: strings are UTF-8, keys are
    sorted, integers fit, and there is no [f64] ([serde_json] parses floats
    exactly only under a feature this repository does not enable). *)
Fixpoint exact_json (v : json) : bool :=
  match v with
  | JNull | JBool _ => true
  | JNum (NumInt z) => (-9223372036854775808 <=? z) && (z <=? u64_max)
  | JNum (NumFloat _) => false
  | JStr s => is_str s
  | JArr l => forallb exact_json l
  | JObj m => sorted_keys m && forallb (fun kv => is_str (fst kv) && exact_json (snd kv)) m
  end.

(** [serde_json::from_str] refuses a nesting of 128. *)
Definition reparses (v : json) : bool := exact_json v && (json_depth v <? 128)%nat.

(** ** The serializer *)
Class SerdeJson := {
  from_str : string -> option json;
  to_string : json -> string
}.

Class SerdeJsonLaws {SJ : SerdeJson} : Prop := {
  from_to : forall v, reparses v = true -> from_str (to_string v) = Some v;
  to_string_obj : forall m, exists s, to_string (JObj m) = "{" +:+ s +:+ "}";
  to_string_utf8 : forall v, exact_json v = true -> is_str (to_string v) = true;
  to_string_one_line : forall v a, contains_char a (to_string v) = true -> 32 <= byte_val a
}.

(** [serde_json::from_slice]: the bytes must be UTF-8. *)
Definition from_slice `{SerdeJson} (l : list u8) : option json := from_utf8 l ≫= from_str.

(** ** Lemmas on maps *)
Lemma str_compare_refl s : String.compare s s = Eq.
Proof. induction s; cbn; [done|]. unfold Ascii.compare. by rewrite N.compare_refl. Qed.

Lemma str_eqb_neq s t : s <> t -> String.eqb s t = false.
Proof. intros H. by apply String.eqb_neq. Qed.

Lemma obj_get_insert_eq k v m : obj_get k (obj_insert k v m) = Some v.
Proof.
  induction m as [|[k' v'] m IH]; cbn; [by rewrite String.eqb_refl|].
  destruct (String.compare k k') eqn:E; cbn; rewrite ?String.eqb_refl; try done.
  rewrite str_eqb_neq; [done|]. intros ->. by rewrite str_compare_refl in E.
Qed.

Lemma obj_get_insert_ne k k' v m : k <> k' -> obj_get k (obj_insert k' v m) = obj_get k m.
Proof.
  intros Hne. induction m as [|[k2 v2] m IH]; cbn.
  { by rewrite str_eqb_neq. }
  destruct (String.compare k' k2) eqn:E; cbn.
  - apply String.compare_eq_iff in E as ->. by rewrite str_eqb_neq.
  - by rewrite str_eqb_neq.
  - by rewrite IH.
Qed.

Lemma obj_get_insert k k' v m :
  obj_get k (obj_insert k' v m) = if String.eqb k k' then Some v else obj_get k m.
Proof.
  destruct (String.eqb_spec k k') as [->|Hne].
  - apply obj_get_insert_eq.
  - by apply obj_get_insert_ne.
Qed.

#[export] Hint Rewrite obj_get_insert : wire_json.

Lemma str_compare_lt_trans a b c :
  String.compare a b = Lt -> String.compare b c = Lt -> String.compare a c = Lt.
Proof.
  revert b c. induction a as [|x a IH]; intros [|y b] [|z c]; cbn; try done.
  unfold Ascii.compare.
  destruct (N.compare_spec (N_of_ascii x) (N_of_ascii y)) as [Hxy|Hxy|Hxy]; try done;
    destruct (N.compare_spec (N_of_ascii y) (N_of_ascii z)) as [Hyz|Hyz|Hyz]; try done;
    intros H1 H2; destruct (N.compare_spec (N_of_ascii x) (N_of_ascii z)); try done; try lia.
  by eapply IH.
Qed.

Lemma sorted_insert k v m : sorted_keys m = true -> sorted_keys (obj_insert k v m) = true.
Proof.
  induction m as [|[k1 v1] m IH]; [done|]. intros Hs.
  assert (Hm : sorted_keys m = true).
  { destruct m as [|[k2 v2] m]; [done|]. cbn in Hs. by apply andb_true_iff in Hs as [_ ?]. }
  cbn [obj_insert]. destruct (String.compare k k1) eqn:E.
  - apply String.compare_eq_iff in E as ->. exact Hs.
  - cbn [sorted_keys] in *. by rewrite E.
  - specialize (IH Hm).
    assert (Hgt : String.compare k1 k = Lt).
    { rewrite String.compare_antisym, E. done. }
    destruct m as [|[k2 v2] m]; [cbn; by rewrite Hgt|].
    cbn [obj_insert] in *. cbn [sorted_keys] in Hs. apply andb_true_iff in Hs as [H12 _].
    destruct (String.compare k k2) eqn:E2; cbn [sorted_keys] in *; rewrite ?Hgt; cbn [andb]; try done.
    by rewrite H12.
Qed.

Lemma obj_insert_forall (P : string * json -> bool) k v m :
  P (k, v) = true -> forallb P m = true -> forallb P (obj_insert k v m) = true.
Proof.
  intros Hv. induction m as [|[k1 v1] m IH]; cbn; [by rewrite Hv|].
  rewrite andb_true_iff. intros [H1 Hm].
  destruct (String.compare k k1); cbn; rewrite ?Hv, ?H1; cbn; auto.
Qed.

(** The member of a one-member object is itself reparsed. *)
Lemma reparses_member k v : reparses (JObj [(k, v)]) = true -> reparses v = true.
Proof.
  unfold reparses. intros H. apply andb_true_iff in H as [H Hd]. apply andb_true_iff.
  assert (exact_json v = true /\ (json_depth v < 127)%nat) as [? ?]; [split|].
  - unfold exact_json in H. fold exact_json in H. cbn [forallb snd] in H.
    by rewrite !andb_true_iff in H; destruct_and?.
  - apply Nat.ltb_lt in Hd. unfold json_depth in Hd. fold json_depth in Hd. cbn [fold_right snd] in Hd. lia.
  - split; [done|]. apply Nat.ltb_lt. lia.
Qed.

(** ** Reading back what was set *)
Lemma is_object_jobj kvs : is_object (jobj kvs) = true.
Proof. reflexivity. Qed.

Lemma is_object_index_set v k x : is_object (index_set v k x) = is_object v.
Proof. by destruct v. Qed.

Lemma get_index_set v k x k' :
  is_object v = true -> get (index_set v k x) k' = if String.eqb k' k then Some x else get v k'.
Proof.
  destruct v as [| | | | |m]; try done. intros _. cbn. destruct (String.eqb k' k) eqn:E.
  - apply String.eqb_eq in E as ->. apply obj_get_insert_eq.
  - apply String.eqb_neq in E. by apply obj_get_insert_ne.
Qed.

Lemma is_object_set_opt k o v : is_object (set_opt k o v) = is_object v.
Proof. destruct o; [apply is_object_index_set|done]. Qed.

Lemma get_set_opt k o v k' :
  is_object v = true -> get (set_opt k o v) k' = if String.eqb k' k then opt_or o (get v k') else get v k'.
Proof. intros H. destruct o as [x|]; cbn; [by rewrite get_index_set|]. by destruct (String.eqb k' k). Qed.

(** The last binding of a key of [json!({ ... })] wins. *)
Fixpoint assoc_last (k : string) (kvs : list (string * json)) (d : option json) : option json :=
  match kvs with
  | [] => d
  | (k', v) :: kvs => assoc_last k kvs (if String.eqb k k' then Some v else d)
  end.

Lemma get_jobj kvs k : get (jobj kvs) k = assoc_last k kvs None.
Proof.
  unfold jobj. change None with (obj_get k []). cbn [get].
  generalize (@nil (string * json)) as m. induction kvs as [|[k' v] kvs IH]; intros m; cbn; [done|].
  rewrite IH. f_equal. destruct (String.eqb k k') eqn:E.
  - apply String.eqb_eq in E as ->. apply obj_get_insert_eq.
  - apply String.eqb_neq in E. by apply obj_get_insert_ne.
Qed.

(** Compute the comparisons of literal strings. *)
Ltac eqb_literals :=
  repeat match goal with
  | |- context [String.eqb ?a ?b] =>
      let r := eval vm_compute in (String.eqb a b) in
      lazymatch r with true => idtac | false => idtac end;
      change (String.eqb a b) with r
  end; cbn iota.

#[export] Hint Resolve is_object_jobj : wire.
#[export] Hint Rewrite get_jobj is_object_index_set : wire_json.

Lemma pointer_key v k p : pointer v (Key k :: p) = (v' ← get v k; pointer v' p).
Proof. by destruct v. Qed.

Lemma pointer_nil v : pointer v [] = Some v.
Proof. done. Qed.

(** Evaluate the goal on data of literal shape: the tests on its unknown
    texts stay as they are written. *)
Ltac eval_json :=
  lazy -[trim is_empty starts_with strip_prefix split_once_str to_ascii_lowercase
         eq_ignore_ascii_case pretty Z.ltb Z.leb Z.add Z.sub Z.min Z.max Z.modulo].
