(* ===== verification/JsonCodec.v ===== *)
(** * JsonCodec: a concrete instance of the serializer interface

    [serde_json] is a parameter of the model (class [SerdeJson] of [Json]).
    This file gives one function pair that satisfies [SerdeJsonLaws], so that
    the witnesses of theorems that assume the laws can discharge them: a value
    is written as the bits of its [Countable] code between braces.  It is not
    the JSON grammar and no component depends on it. *)

From stdpp Require Import countable.
From S2P Require Import Prelude Text Json.

(** ** Values are countable *)
Definition leaf : Type := bool + (Z + Z) + string.

Fixpoint to_tree (v : json) : gen_tree leaf :=
  match v with
  | JNull => GenNode 0 []
  | JBool b => GenLeaf (inl (inl b))
  | JNum (NumInt z) => GenLeaf (inl (inr (inl z)))
  | JNum (NumFloat z) => GenLeaf (inl (inr (inr z)))
  | JStr s => GenLeaf (inr s)
  | JArr l => GenNode 1 (map to_tree l)
  | JObj m => GenNode 2 (map (fun kv => GenNode 3 [GenLeaf (inr (fst kv)); to_tree (snd kv)]) m)
  end.

Fixpoint of_tree (t : gen_tree leaf) : json :=
  match t with
  | GenLeaf (inl (inl b)) => JBool b
  | GenLeaf (inl (inr (inl z))) => JNum (NumInt z)
  | GenLeaf (inl (inr (inr z))) => JNum (NumFloat z)
  | GenLeaf (inr s) => JStr s
  | GenNode 1 l => JArr (map of_tree l)
  | GenNode 2 l =>
      JObj (map (fun t => match t with
                          | GenNode _ [GenLeaf (inr k); v] => (k, of_tree v)
                          | _ => ("", JNull)
                          end) l)
  | GenNode _ _ => JNull
  end.

Lemma of_to_tree v : of_tree (to_tree v) = v.
Proof.
  induction v as [|b|[z|z]|s|l IH|m IH] using json_ind'; try done; cbn; f_equal;
    rewrite map_map; induction IH as [|x xs Hx _ IHl]; cbn; try done.
  - by rewrite Hx, IHl.
  - destruct x as [k v]. cbn in *. by rewrite Hx, IHl.
Qed.

#[export] Instance json_countable : Countable json :=
  inj_countable' to_tree of_tree of_to_tree.

(** ** Bits as text *)
Fixpoint bits_of_pos (p : positive) : string :=
  match p with
  | xH => ""
  | xO p => String "0" (bits_of_pos p)
  | xI p => String "1" (bits_of_pos p)
  end.

Fixpoint pos_of_bits (s : string) : option positive :=
  match s with
  | EmptyString => None
  | String a t =>
      if Ascii.eqb a "}" then (if is_empty t then Some 1%positive else None)
      else p ← pos_of_bits t;
           if Ascii.eqb a "0" then Some (xO p)
           else if Ascii.eqb a "1" then Some (xI p) else None
  end.

Lemma pos_of_bits_of p : pos_of_bits (bits_of_pos p +:+ "}") = Some p.
Proof.
  induction p as [p IH|p IH|]; [| |done]; cbn [bits_of_pos]; rewrite str_app_cons; cbn;
    by rewrite IH.
Qed.

Lemma bits_of_pos_chars p a : contains_char a (bits_of_pos p) = true -> a = "0"%char \/ a = "1"%char.
Proof.
  induction p as [p IH|p IH|]; cbn; [| |done];
    rewrite orb_true_iff; intros [H|H]; auto; apply Ascii.eqb_eq in H; auto.
Qed.

Lemma bits_of_pos_ascii p k :
  utf8_valid (bytes_of_str (bits_of_pos p +:+ k)) = utf8_valid (bytes_of_str k).
Proof.
  induction p as [p IH|p IH|]; [| |done]; cbn [bits_of_pos]; rewrite str_app_cons; cbn; exact IH.
Qed.

Definition bits_codec : SerdeJson := {|
  from_str s :=
    match s with
    | String _ t => pos_of_bits t ≫= decode
    | EmptyString => None
    end;
  to_string v := String "{" (bits_of_pos (encode v) +:+ "}")
|}.

Lemma bits_codec_laws : @SerdeJsonLaws bits_codec.
Proof.
  split; cbn.
  - intros v _. rewrite pos_of_bits_of. cbn. apply decode_encode.
  - intros m. by exists (bits_of_pos (encode (JObj m))).
  - intros v _. unfold is_str. cbn. by rewrite bits_of_pos_ascii.
  - intros v a. rewrite contains_char_app, !orb_true_iff. cbn.
    intros [H|[H|H]].
    + apply Ascii.eqb_eq in H as <-. by vm_compute.
    + apply bits_of_pos_chars in H as [->| ->]; by vm_compute.
    + rewrite orb_false_r in H. apply Ascii.eqb_eq in H as <-. by vm_compute.
Qed.
