(* ===== verification/Floats.v ===== *)
(** * Floats: the IEEE numbers of a request by their bits

    JSON numbers are read as [f64], kept as [f32] and written back through the
    shortest decimal text of the [f32] ([json_f32] of [W/map/mod.rs]), so that
    a temperature of 0.7 leaves as 0.7 and not as 0.699999988079071.  A float
    is the number of its bits; rounding is to nearest, ties to even, of an
    exact ratio of integers. *)
From S2P Require Import Prelude Text Json.

(** ** Formats: [frac] fraction bits and [ebits] exponent bits *)
Definition bias (ebits : Z) : Z := Z.shiftl 1 (ebits - 1) - 1.
Definition exponent_field (frac ebits bits : Z) : Z := Z.land (Z.shiftr bits frac) (Z.ones ebits).
Definition fraction_field (frac bits : Z) : Z := Z.land bits (Z.ones frac).
Definition sign_bit (frac ebits bits : Z) : bool := Z.testbit bits (frac + ebits).
Definition infinity (frac ebits : Z) : Z := Z.shiftl (Z.ones ebits) frac.

Definition finite (frac ebits bits : Z) : bool := negb (exponent_field frac ebits bits =? Z.ones ebits).

(** The magnitude of finite bits is [m * 2^q]. *)
Definition magnitude (frac ebits bits : Z) : Z * Z :=
  let e := exponent_field frac ebits bits in
  let f := fraction_field frac bits in
  if e =? 0 then (f, 1 - bias ebits - frac) else (f + Z.shiftl 1 frac, e - bias ebits - frac).

Definition with_sign (frac ebits : Z) (neg : bool) (bits : Z) : Z :=
  (if neg then Z.shiftl 1 (frac + ebits) else 0) + bits.

(** [m * b^q] as a ratio. *)
Definition ratio (b m q : Z) : Z * Z := if 0 <=? q then (m * b ^ q, 1) else (m, b ^ (- q)).

(** [n / d] to the nearest integer, ties to even. *)
Definition round_even (n d : Z) : Z :=
  let m := n / d in
  let r := n mod d in
  if (d <? 2 * r) || ((d =? 2 * r) && Z.odd m) then m + 1 else m.

(** The bits nearest to the positive ratio [n / d]: the mantissa carries into
    the exponent field, and past the largest number is infinity. *)
Definition pack_ratio (frac ebits n d : Z) : Z :=
  if n =? 0 then 0
  else
    let e0 := Z.log2 n - Z.log2 d in
    let '(p, q) := ratio 2 1 e0 in
    let e := if n * q <? d * p then e0 - 1 else e0 in
    let e := Z.max e (1 - bias ebits) in
    let '(u, v) := ratio 2 1 (e - frac) in
    Z.min ((e + bias ebits - 1) * Z.shiftl 1 frac + round_even (n * v) (d * u)) (infinity frac ebits).

(** ** [f64] and [f32] *)

(** The bits of [z as f64]. *)
Definition f64_of_int (z : Z) : Z := with_sign 52 11 (z <? 0) (pack_ratio 52 11 (Z.abs z) 1).

(** [Value::as_f64] by its bits. *)
Definition as_f64 (v : json) : option Z :=
  match v with
  | JNum (NumInt z) => Some (f64_of_int z)
  | JNum (NumFloat bits) => Some bits
  | _ => None
  end.

(** [f64::is_finite] *)
Definition is_finite (bits : Z) : bool := finite 52 11 bits.
Definition f32_is_finite (bits : Z) : bool := finite 23 8 bits.

(** [n as f32]; a NaN stays one. *)
Definition f32_of_f64 (bits : Z) : Z :=
  with_sign 23 8 (sign_bit 52 11 bits)
    (if is_finite bits then
       let '(m, q) := magnitude 52 11 bits in
       let '(n, d) := ratio 2 m q in pack_ratio 23 8 n d
     else if fraction_field 52 bits =? 0 then infinity 23 8
     else infinity 23 8 + Z.lor (Z.shiftl 1 22) (Z.shiftr (fraction_field 52 bits) 29)).

(** The order of numbers that are not NaN; both zeros are 0. *)
Definition f32_key (bits : Z) : Z :=
  let magnitude := Z.land bits (Z.ones 31) in if sign_bit 23 8 bits then - magnitude else magnitude.

(** ** The shortest decimal of an [f32]

    [ToString] of an [f32] prints the shortest decimal that rounds to it, the
    nearest one among those: [c * 10^x] with the largest [x].  The search goes
    down from an exponent whose power of ten is greater than the number.  At
    most fifty steps lower the floor of the number is nearer to it than half a
    unit of any [f32], so that a hundred steps always have an answer. *)
Definition rounds_to (bits c x : Z) : bool :=
  if 0 <? c then let '(n, d) := ratio 10 c x in pack_ratio 23 8 n d =? bits else false.

Fixpoint shortest_from (fuel : nat) (x bits n d : Z) : Z * Z :=
  match fuel with
  | O => (0, 0)
  | S fuel =>
      let '(p, q) := ratio 10 1 x in
      let c := (n * q) / (d * p) in
      let r := (n * q) mod (d * p) in
      if rounds_to bits (c + 1) x then
        if d * p <=? 2 * r then (c + 1, x) else if rounds_to bits c x then (c, x) else (c + 1, x)
      else if rounds_to bits c x then (c, x)
      else shortest_from fuel (x - 1) bits n d
  end.

Definition shortest_decimal (bits : Z) : Z * Z :=
  let '(m, q) := magnitude 23 8 bits in
  let '(n, d) := ratio 2 m q in
  let e := Z.log2 n - Z.log2 d + 1 in
  shortest_from 100 (Z.max (e * 31 / 100) (e * 30 / 100) + 1) (Z.land bits (Z.ones 31)) n d.

(** [value.to_string().parse::<f64>()] as a JSON value: what is not finite has
    no JSON number and becomes [null]. *)
Definition json_f32 (value : Z) : json :=
  if negb (f32_is_finite value) then JNull
  else
    let magnitude :=
      if Z.land value (Z.ones 31) =? 0 then 0
      else let '(c, x) := shortest_decimal value in let '(n, d) := ratio 10 c x in pack_ratio 52 11 n d in
    JNum (NumFloat (with_sign 52 11 (sign_bit 23 8 value) magnitude)).

Definition f32_field (value : json) (key : string) : option Z := f32_of_f64 <$> (get value key ≫= as_f64).

(** ** Checks on known numbers *)

(** 0.7 as [f32] is 0.699999988...; it leaves as the [f64] 0.7. *)
Example json_f32_seven_tenths :
  f32_of_f64 4604480259023595110 = 1060320051 /\ json_f32 1060320051 = JNum (NumFloat 4604480259023595110).
Proof. by vm_compute. Qed.

(** The least [f32] is 1e-45 and the greatest 3.4028235e38; halfway between
    two decimals the upper one is printed. *)
Example json_f32_extremes :
  json_f32 1 = JNum (NumFloat 3933566627244108473) /\ json_f32 2139095039 = JNum (NumFloat 5183643170655547384)
  /\ json_f32 1233125378 = JNum (NumFloat 4697254412635917517).
Proof. by vm_compute. Qed.

Example f64_of_int_rounds :
  f64_of_int 1 = 4607182418800017408 /\ f64_of_int (-3) = 13837309855095848960
  /\ f64_of_int (2 ^ 53 + 1) = f64_of_int (2 ^ 53) /\ f64_of_int (2 ^ 53 + 3) = f64_of_int (2 ^ 53 + 4).
Proof. by vm_compute. Qed.

(** ** Decimals of a request survive *)

(** The [f64] that a JSON reader gives for [k] hundredths. *)
Definition hundredths (k : Z) : Z :=
  with_sign 52 11 (k <? 0) (let '(n, d) := ratio 10 (Z.abs k) (-2) in pack_ratio 52 11 n d).

Definition survives (k : Z) : bool :=
  match f32_field (jobj [("v", JNum (NumFloat (hundredths k)))]) "v" with
  | Some v => match json_f32 v with JNum (NumFloat bits) => bits =? hundredths k | _ => false end
  | None => false
  end.

Lemma survives_table : forallb survives (map (fun n => Z.of_nat n - 200) (seq 0 401)) = true.
Proof. by vm_compute. Qed.

(** C40. A sampling number written with up to two decimals, from -2 to 2 -
    every value a client sends for a temperature, a [top_p] or a penalty - is
    the same number after it was kept as [f32] and written again. *)
Theorem sampling_number_survives k value key :
  -200 <= k <= 200 -> get value key = Some (JNum (NumFloat (hundredths k))) ->
  json_f32 <$> f32_field value key = Some (JNum (NumFloat (hundredths k))).
Proof.
  intros K G. assert (survives k = true) as S.
  { pose proof survives_table as T. rewrite List.forallb_forall in T. apply T, in_map_iff.
    exists (Z.to_nat (k + 200)). split; [lia|]. apply in_seq. lia. }
  unfold survives, f32_field in *. rewrite G. change (get (jobj _) "v") with (Some (JNum (NumFloat (hundredths k)))) in S.
  cbn [mbind option_bind fmap option_fmap option_map as_f64] in *.
  destruct (json_f32 _) as [| |[]| | |]; try done. by apply Z.eqb_eq in S as ->.
Qed.

Lemma sampling_number_survives_witness :
  json_f32 <$> f32_field (jobj [("temperature", JNum (NumFloat 4604480259023595110))]) "temperature"
  = Some (JNum (NumFloat 4604480259023595110)).
Proof. apply (sampling_number_survives 70); [lia|reflexivity]. Defined.
