(* ===== verification/EventStream.v ===== *)
(** * EventStream: AWS Event Stream messages

    Models [stream/eventstream.rs]: the CRC, the binary framing
    ([encode_message], [encode_exception_message], [take_message],
    [parse_headers]), the incremental reader [EventStreamReader] and the
    payload wrapping.  Slices and indexing are partial ([slice], [index]):
    a panic is the [None] of an [outcome], and so is an exhausted loop. *)

From S2P Require Import Prelude Text Json JsonCodec Sse.

Definition MAX_EVENTSTREAM_PENDING : Z := 16 * 1024 * 1024.
Definition PRELUDE_LEN : Z := 12.
Definition CRC_LEN : Z := 4.

(** ** Bytes of integers *)

(** [u32::from_be_bytes] and its siblings: big-endian value. *)
Definition be_val (l : list u8) : Z := fold_left (fun acc a => acc * 256 + byte_val a) l 0.

(** [i16::from_be_bytes], [i32], [i64] on [n] bits. *)
Definition be_signed (n : Z) (l : list u8) : Z :=
  let v := be_val l in if v <? 2 ^ (n - 1) then v else v - 2 ^ n.

(** [(z as u32).to_be_bytes()] *)
Definition u32_be_bytes (z : Z) : list u8 :=
  [byte_of (z / 16777216); byte_of (z / 65536); byte_of (z / 256); byte_of z].

(** [(z as u16).to_be_bytes()] *)
Definition u16_be_bytes (z : Z) : list u8 := [byte_of (z / 256); byte_of z].

(** [&buf[a..b]] *)
Definition slice (buf : list u8) (a b : Z) : option (list u8) :=
  if (0 <=? a) && (a <=? b) && (b <=? vlen buf)
  then Some (take (Z.to_nat (b - a)) (drop (Z.to_nat a) buf)) else None.

(** [buf[i]] *)
Definition index (buf : list u8) (i : Z) : option u8 :=
  if 0 <=? i then buf !! Z.to_nat i else None.

(** Lift a partial read into an [outcome]. *)
Definition read {E A} (o : option A) : outcome E A := Ok <$> o.

(** ** CRC-32 (IEEE), bit by bit *)
Definition CRC_POLY : Z := 3988292384. (* 0xEDB88320 *)
Definition CRC_ONES : Z := 4294967295. (* 0xFFFFFFFF *)

Definition crc_bit (crc : Z) : Z :=
  if Z.odd crc then Z.lxor (Z.shiftr crc 1) CRC_POLY else Z.shiftr crc 1.

Definition crc_byte (crc : Z) (b : u8) : Z :=
  Nat.iter 8 crc_bit (Z.lxor crc (byte_val b)).

Definition crc32_ieee (data : list u8) : Z :=
  Z.lxor (fold_left crc_byte data CRC_ONES) CRC_ONES.

(** ** Encoding *)
Definition write_string_header (out : list u8) (name value : string) : list u8 :=
  out ++ [byte_of (slen name)] ++ bytes_of_str name ++ [byte_of 7]
  ++ u16_be_bytes (slen value) ++ bytes_of_str value.

Definition encode_with_headers (headers payload : list u8) : list u8 :=
  let total := PRELUDE_LEN + vlen headers + vlen payload + CRC_LEN in
  let out := u32_be_bytes total ++ u32_be_bytes (vlen headers) in
  let out := out ++ u32_be_bytes (crc32_ieee out) ++ headers ++ payload in
  out ++ u32_be_bytes (crc32_ieee out).

Definition encode_message (event_type : string) (payload : list u8) : list u8 :=
  let headers := write_string_header [] ":message-type" "event" in
  let headers := write_string_header headers ":event-type" event_type in
  let headers := write_string_header headers ":content-type" "application/json" in
  encode_with_headers headers payload.

Definition encode_exception_message (exception_type : string) (payload : list u8) : list u8 :=
  let headers := write_string_header [] ":message-type" "exception" in
  let headers := write_string_header headers ":exception-type" exception_type in
  let headers := write_string_header headers ":content-type" "application/json" in
  encode_with_headers headers payload.

(** ** Header values *)
Definition truncated_value : string := "eventstream header value truncated".

(** [take_bytes]: the slice and the advanced cursor. *)
Definition take_bytes (buf : list u8) (i n : Z) : outcome string (list u8 * Z) :=
  if vlen buf <? i + n then Some (Err truncated_value)
  else let? bytes := read (slice buf i (i + n)) in Some (Ok (bytes, i + n)).

(** [format!("{bytes:?}")] of a byte slice. *)
Definition debug_bytes (l : list u8) : string :=
  "[" +:+ str_join ", " (map (fun b => pretty (byte_val b)) l) +:+ "]".

(** [format!("{x:02x}")] *)
Definition hex_digit (z : Z) : ascii := byte_of (if z <? 10 then 48 + z else 87 + z).
Definition hex02 (b : u8) : string :=
  String (hex_digit (byte_val b / 16)) (String (hex_digit (byte_val b mod 16)) "").

Definition read_header_value (ty : u8) (buf : list u8) (i : Z) : outcome string (string * Z) :=
  let ty := byte_val ty in
  if ty =? 0 then Some (Ok ("true", i))
  else if ty =? 1 then Some (Ok ("false", i))
  else if ty =? 2 then
    let? (b, i) := take_bytes buf i 1 in
    let? x := read (index b 0) in Some (Ok (pretty (byte_val x), i))
  else if ty =? 3 then
    let? (b, i) := take_bytes buf i 2 in Some (Ok (pretty (be_signed 16 b), i))
  else if ty =? 4 then
    let? (b, i) := take_bytes buf i 4 in Some (Ok (pretty (be_signed 32 b), i))
  else if (ty =? 5) || (ty =? 8) then
    let? (b, i) := take_bytes buf i 8 in Some (Ok (pretty (be_signed 64 b), i))
  else if ty =? 6 then
    let? (n, i) := take_bytes buf i 2 in
    let? (bytes, i) := take_bytes buf i (be_val n) in Some (Ok (debug_bytes bytes, i))
  else if ty =? 7 then
    let? (n, i) := take_bytes buf i 2 in
    let? (bytes, i) := take_bytes buf i (be_val n) in
    match from_utf8 bytes with
    | Some s => Some (Ok (s, i))
    | None => Some (Err "eventstream string header is not UTF-8")
    end
  else if ty =? 9 then
    let? (b, i) := take_bytes buf i 16 in Some (Ok (str_join "" (map hex02 b), i))
  else Some (Err ("eventstream unknown header type " +:+ pretty ty)).

Record ParsedHeaders := mkHeaders {
  event_type : option string;
  message_type : option string;
  exception_type : option string
}.

Definition set_header (h : ParsedHeaders) (name value : string) : ParsedHeaders :=
  if String.eqb name ":event-type" then mkHeaders (Some value) (message_type h) (exception_type h)
  else if String.eqb name ":message-type" then
    mkHeaders (event_type h) (Some value) (exception_type h)
  else if String.eqb name ":exception-type" then
    mkHeaders (event_type h) (message_type h) (Some value)
  else h.

(** The [while] loop of [parse_headers]; every turn advances [i]. *)
Fixpoint parse_headers_loop (fuel : nat) (buf : list u8) (i : Z) (h : ParsedHeaders) :
    outcome string ParsedHeaders :=
  match fuel with
  | O => None
  | S fuel =>
      if i <? vlen buf then
        let? b := read (index buf i) in
        let name_len := byte_val b in
        let i := i + 1 in
        if vlen buf <? i + name_len + 1 then Some (Err "eventstream header name truncated")
        else
          let? bytes := read (slice buf i (i + name_len)) in
          match from_utf8 bytes with
          | None => Some (Err "eventstream header name is not UTF-8")
          | Some name =>
              let i := i + name_len in
              let? ty := read (index buf i) in
              let? (value, i) := read_header_value ty buf (i + 1) in
              parse_headers_loop fuel buf i (set_header h name value)
          end
      else Some (Ok h)
  end.

Definition parse_headers (buf : list u8) : outcome string ParsedHeaders :=
  parse_headers_loop (S (length buf)) buf 0 (mkHeaders None None None).

(** ** Messages *)
Record EventStreamMessage := mkMessage { msg_event_type : option string; msg_payload : list u8 }.

Inductive Take :=
| TakeFrame (msg : EventStreamMessage) (consumed : Z)
| TakeException (err : string) (consumed : Z).

Record EventStreamReader := mkEventReader { es_buffer : list u8 }.

Definition es_new : EventStreamReader := mkEventReader [].

Definition contains_event (l : list string) (s : string) : bool := existsb (String.eqb s) l.

Definition block_index_events : list string :=
  ["contentBlockDelta"; "contentBlockStart"; "contentBlockStop"].

Section WithSerde.
  Context {SJ : SerdeJson}.

(** [wrap_event_payload] *)
Definition wrap_event_payload (event_type : option string) (payload : list u8) : string :=
  let text := from_utf8_lossy payload in
  match opt_filter (fun n => negb (is_empty n)) event_type with
  | None => text
  | Some event_type =>
      match from_slice payload with
      | Some (JObj map) =>
          if obj_contains event_type map then text
          else to_string (jobj [(event_type, JObj map)])
      | _ => text
      end
  end.

(** [into_raw_sse] *)
Definition into_raw_sse (m : EventStreamMessage) : RawSse :=
  mkRawSse (msg_event_type m) (wrap_event_payload (msg_event_type m) (msg_payload m)).

(** [ensure_block_index] *)
Definition ensure_block_index (event_type : string) (value : json) : list u8 :=
  let value :=
    if contains_event block_index_events event_type
       && is_none (get value "contentBlockIndex")
    then match value with
         | JObj obj => JObj (obj_insert "contentBlockIndex" (JNum (NumInt 0)) obj)
         | v => v
         end
    else value in
  bytes_of_str (to_string value).

(** [unwrap_event_payload] *)
Definition unwrap_event_payload (event_type data : string) : list u8 :=
  match from_str data with
  | Some (JObj map) =>
      match obj_get event_type map with
      | Some inner =>
          if negb (vlen map =? 1) then bytes_of_str data
          else ensure_block_index event_type inner
      | None => ensure_block_index event_type (JObj map)
      end
  | _ => bytes_of_str data
  end.

(** [exception_error] *)
Definition exception_error (exception_type : string) (payload : list u8) : string :=
  let message := unwrap_or (v ← from_slice payload; get_str v "message")
                   (from_utf8_lossy payload) in
  "eventstream exception " +:+ exception_type +:+ ": " +:+ message.

(** [take_message] *)
Definition take_message (buf : list u8) : outcome string (option Take) :=
  if vlen buf <? PRELUDE_LEN then Some (Ok None)
  else
    let? total_b := read (slice buf 0 4) in
    let? headers_b := read (slice buf 4 8) in
    let? crc_b := read (slice buf 8 12) in
    let? prelude := read (slice buf 0 8) in
    let total := be_val total_b in
    let headers_len := be_val headers_b in
    let prelude_crc := be_val crc_b in
    if negb (crc32_ieee prelude =? prelude_crc) then
      Some (Err "eventstream prelude CRC mismatch")
    else if negb ((PRELUDE_LEN + CRC_LEN <=? total) && (total <=? MAX_EVENTSTREAM_PENDING)) then
      Some (Err ("eventstream total_length " +:+ pretty total +:+ " is invalid"))
    else if vlen buf <? total then Some (Ok None)
    else
      let? message_crc_b := read (slice buf (total - CRC_LEN) total) in
      let? body := read (slice buf 0 (total - CRC_LEN)) in
      if negb (crc32_ieee body =? be_val message_crc_b) then
        Some (Err "eventstream message CRC mismatch")
      else
        let headers_end := usize_saturating_add PRELUDE_LEN headers_len in
        if total - CRC_LEN <? headers_end then
          Some (Err "eventstream headers overflow payload")
        else
          let? header_bytes := read (slice buf PRELUDE_LEN headers_end) in
          let? headers := parse_headers header_bytes in
          let? payload := read (slice buf headers_end (total - CRC_LEN)) in
          if bool_decide (message_type headers = Some "exception") then
            Some (Ok (Some (TakeException
              (exception_error (unwrap_or (exception_type headers) "unknown") payload) total)))
          else
            Some (Ok (Some (TakeFrame (mkMessage (event_type headers) payload) total))).

(** The [loop] of [feed]; [rest] is [self.buffer[cursor..]].  The result is
    what [feed] returns and the buffer it leaves. *)
Fixpoint es_feed_loop (fuel : nat) (rest : list u8) (out : list RawSse) :
    option (list u8 * result string (list RawSse * option string)) :=
  match fuel with
  | O => None
  | S fuel =>
      match take_message rest with
      | None => None
      | Some (Ok None) => Some (rest, Ok (out, None))
      | Some (Ok (Some (TakeFrame msg consumed))) =>
          es_feed_loop fuel (drop (Z.to_nat consumed) rest) (out ++ [into_raw_sse msg])
      | Some (Ok (Some (TakeException err consumed))) => Some ([], Ok (out, Some err))
      | Some (Err err) => Some (rest, Err err)
      end
  end.

(** [feed] *)
Definition es_feed (r : EventStreamReader) (bytes : list u8) :
    option (EventStreamReader * result string (list RawSse * option string)) :=
  if MAX_EVENTSTREAM_PENDING <? usize_saturating_add (vlen (es_buffer r)) (vlen bytes) then
    Some (es_new, Err ("eventstream buffer exceeds " +:+ pretty MAX_EVENTSTREAM_PENDING +:+ " bytes"))
  else
    let buf := es_buffer r ++ bytes in
    '(rest, res) ← es_feed_loop (S (length buf)) buf [];
    Some (mkEventReader rest, res).

(** [drain] *)
Definition es_drain (r : EventStreamReader) : EventStreamReader * option RawSse := (r, None).

(** [finish] *)
Definition es_finish (r : EventStreamReader) : EventStreamReader * result string (option RawSse) :=
  match es_buffer r with
  | [] => (r, Ok None)
  | b => (es_new, Err ("eventstream ended with " +:+ pretty (vlen b) +:+ " trailing bytes"))
  end.

End WithSerde.

(** ** Slices *)
Lemma slice_Some buf a b :
  0 <= a -> a <= b -> b <= vlen buf ->
  exists l, slice buf a b = Some l /\ vlen l = b - a.
Proof.
  intros Ha Hab Hb. unfold slice.
  rewrite (proj2 (Z.leb_le _ _) Ha), (proj2 (Z.leb_le _ _) Hab), (proj2 (Z.leb_le _ _) Hb).
  eexists. split; [done|]. unfold vlen in *. rewrite length_take, length_drop. lia.
Qed.

Lemma slice_app_l buf k a b :
  b <= vlen buf -> slice (buf ++ k) a b = slice buf a b.
Proof.
  intros Hb. unfold slice. rewrite vlen_app.
  pose proof (vlen_nonneg k). destruct (0 <=? a) eqn:E1; [|done].
  destruct (a <=? b) eqn:E2; [|done]. cbn [andb].
  apply Z.leb_le in E1, E2. rewrite !(proj2 (Z.leb_le _ _)) by lia.
  f_equal. unfold vlen in *. rewrite drop_app_le by lia. rewrite take_app_le; [done|].
  rewrite length_drop. lia.
Qed.

Lemma slice_exact x l y a b :
  vlen x = a -> a + vlen l = b -> slice (x ++ l ++ y) a b = Some l.
Proof.
  intros <- <-. unfold slice. rewrite !vlen_app.
  pose proof (vlen_nonneg x). pose proof (vlen_nonneg l). pose proof (vlen_nonneg y).
  rewrite !(proj2 (Z.leb_le _ _)) by lia. cbn [andb]. f_equal.
  replace (vlen x + vlen l - vlen x) with (vlen l) by lia.
  unfold vlen. rewrite !Nat2Z.id. by rewrite drop_app_length, take_app_length.
Qed.

Lemma index_Some buf i : 0 <= i < vlen buf -> exists a, index buf i = Some a.
Proof.
  intros [H0 H1]. unfold index. rewrite (proj2 (Z.leb_le _ _) H0).
  apply lookup_lt_is_Some. unfold vlen in H1. lia.
Qed.

Lemma index_exact x a y i : vlen x = i -> index (x ++ a :: y) i = Some a.
Proof.
  intros <-. unfold index. rewrite (proj2 (Z.leb_le _ _) (vlen_nonneg x)).
  unfold vlen. rewrite Nat2Z.id. by apply list_lookup_middle.
Qed.

(** ** Integers as bytes *)
Lemma be_val_app l k : be_val (l ++ k) = be_val l * 256 ^ vlen k + be_val k.
Proof.
  unfold be_val. rewrite fold_left_app. generalize (fold_left (fun acc a => acc * 256 + byte_val a) l 0).
  induction k as [|a k IH] using rev_ind; intros z.
  - cbn. rewrite Z.mul_1_r. lia.
  - rewrite !fold_left_app. cbn [fold_left]. rewrite IH, vlen_app, Z.pow_add_r by apply vlen_nonneg.
    change (256 ^ vlen [a]) with 256. lia.
Qed.

Lemma be_val_range l : 0 <= be_val l < 256 ^ vlen l.
Proof.
  induction l as [|a l IH] using rev_ind; [by cbn|].
  rewrite be_val_app, vlen_app, Z.pow_add_r by apply vlen_nonneg.
  change (256 ^ vlen [a]) with 256. unfold be_val at 2 4. cbn.
  pose proof (byte_val_range a). lia.
Qed.

Lemma be_val_inj l k : vlen l = vlen k -> be_val l = be_val k -> l = k.
Proof.
  revert k. induction l as [|a l IH] using rev_ind; intros k Hlen Hv.
  { unfold vlen in Hlen. destruct k; cbn in Hlen; [done|lia]. }
  destruct k as [|b k _] using rev_ind; [unfold vlen in Hlen; rewrite length_app in Hlen; cbn in Hlen; lia|].
  rewrite !vlen_app in Hlen. rewrite !be_val_app in Hv.
  change (vlen [a]) with 1 in *. change (vlen [b]) with 1 in *.
  change (256 ^ 1) with 256 in Hv. unfold be_val at 2 4 in Hv. cbn in Hv.
  pose proof (byte_val_range a). pose proof (byte_val_range b).
  assert (byte_val a = byte_val b) by lia.
  rewrite (IH k) by lia. f_equal. f_equal. by apply byte_val_inj.
Qed.

Lemma be_val_u32 z : 0 <= z < 4294967296 -> be_val (u32_be_bytes z) = z.
Proof.
  intros Hz. unfold be_val, u32_be_bytes. cbn [fold_left]. rewrite !byte_val_of.
  pose proof (Z.div_mod z 256). pose proof (Z.div_mod (z / 256) 256).
  pose proof (Z.div_mod (z / 65536) 256).
  rewrite (Z.mod_small (z / 16777216)) by (split; [apply Z.div_pos; lia|apply Z.div_lt_upper_bound; lia]).
  assert (z / 65536 = z / 256 / 256) by (by rewrite Z.div_div by lia).
  assert (z / 16777216 = z / 65536 / 256) by (by rewrite Z.div_div by lia).
  lia.
Qed.

Lemma be_val_u16 z : 0 <= z < 65536 -> be_val (u16_be_bytes z) = z.
Proof.
  intros Hz. unfold be_val, u16_be_bytes. cbn [fold_left]. rewrite !byte_val_of.
  rewrite (Z.mod_small (z / 256)) by (split; [apply Z.div_pos; lia|apply Z.div_lt_upper_bound; lia]).
  pose proof (Z.div_mod z 256). lia.
Qed.

(** ** No panic, no endless loop *)
Lemma take_bytes_spec buf i n :
  0 <= i -> 0 <= n -> 
  take_bytes buf i n = Some (Err truncated_value) \/
  exists l, take_bytes buf i n = Some (Ok (l, i + n)) /\ vlen l = n /\ i + n <= vlen buf.
Proof.
  intros Hi Hn. unfold take_bytes. destruct (_ <? _) eqn:E; [by left|right].
  apply Z.ltb_ge in E. destruct (slice_Some buf i (i + n)) as (l & -> & Hl); [lia..|].
  exists l. cbn. split; [done|]. lia.
Qed.

(** What a header read leaves: an error, or a cursor that moved forward. *)
Definition read_ok {A} (buf : list u8) (i : Z) (m : outcome string (A * Z)) : Prop :=
  match m with
  | None => False
  | Some (Err _) => True
  | Some (Ok (_, j)) => i <= j
  end.

Lemma take_bytes_bind {A} buf i n (f : list u8 -> Z -> outcome string (A * Z)) :
  0 <= i -> 0 <= n ->
  (forall l, vlen l = n -> read_ok buf (i + n) (f l (i + n))) ->
  read_ok buf i (let? (b, j) := take_bytes buf i n in f b j).
Proof.
  intros Hi Hn Hf. destruct (take_bytes_spec buf i n Hi Hn) as [->|(l & -> & Hl & _)]; [done|].
  cbn. specialize (Hf l Hl). unfold read_ok in *.
  destruct (f l (i + n)) as [[[? ?]|]|]; try done. lia.
Qed.

Lemma read_header_value_ok ty buf i : 0 <= i -> read_ok buf i (read_header_value ty buf i).
Proof.
  intros Hi. unfold read_header_value. cbv zeta.
  repeat match goal with
  | |- read_ok _ _ (if ?c then _ else _) => destruct c eqn:?
  | |- read_ok _ _ (Some _) => cbn; lia
  | |- read_ok _ _ (let? _ := take_bytes _ _ (be_val ?n) in _) =>
      pose proof (be_val_range n); apply take_bytes_bind; [lia..|intros ? ?]
  | |- read_ok _ _ (let? _ := take_bytes _ _ _ in _) => apply take_bytes_bind; [lia..|intros ? ?]
  end; try done.
  - destruct (index_Some l 0) as [x ->]; [lia|]. cbn. lia.
  - destruct (from_utf8 _); cbn; [lia|done].
Qed.

Lemma parse_headers_loop_returns fuel buf i h :
  0 <= i -> 0 < Z.of_nat fuel -> vlen buf - i < Z.of_nat fuel ->
  returns (parse_headers_loop fuel buf i h).
Proof.
  revert i h. induction fuel as [|fuel IH]; intros i h Hi H0 Hf.
  - lia.
  - cbn [parse_headers_loop]. destruct (i <? vlen buf) eqn:E; [|done]. apply Z.ltb_lt in E.
    destruct (index_Some buf i) as [b ->]; [lia|]. cbn [read fmap option_fmap option_map obind].
    pose proof (byte_val_range b).
    destruct (_ <? i + 1 + byte_val b + 1) eqn:E2; [done|]. apply Z.ltb_ge in E2.
    destruct (slice_Some buf (i + 1) (i + 1 + byte_val b)) as (l & -> & _); [lia..|].
    cbn [read fmap option_fmap option_map obind]. destruct (from_utf8 l); [|done].
    destruct (index_Some buf (i + 1 + byte_val b)) as [ty ->]; [lia|].
    cbn [read fmap option_fmap option_map obind].
    pose proof (read_header_value_ok ty buf (i + 1 + byte_val b + 1)) as Hr.
    destruct (read_header_value _ _ _) as [[[v j]|e]|]; cbn in *; [|done|by destruct Hr; lia].
    apply IH; lia.
Qed.

Lemma parse_headers_returns buf : returns (parse_headers buf).
Proof. apply parse_headers_loop_returns; unfold vlen; lia. Qed.

Section Messages.
Context {SJ : SerdeJson}.

(** Replace the next partial read by the bytes it yields. *)
Ltac read_slice l :=
  match goal with
  | |- context [slice ?buf ?a ?b] =>
      let H := fresh "Hs" in
      destruct (slice_Some buf a b) as (l & H & ?); [try lia..|];
      rewrite ?H; cbn [read fmap option_fmap option_map obind]
  end.

Lemma take_message_returns buf : returns (take_message buf).
Proof.
  unfold take_message. destruct (vlen buf <? PRELUDE_LEN) eqn:E; [done|].
  apply Z.ltb_ge in E. unfold PRELUDE_LEN, CRC_LEN in *.
  read_slice t. read_slice hl. read_slice c. read_slice p. cbv zeta.
  pose proof (be_val_range t). pose proof (be_val_range hl).
  destruct (negb (crc32_ieee p =? _)); [done|].
  destruct (negb _) eqn:Ht; [done|].
  apply negb_false_iff, andb_true_iff in Ht as [Ht _]. apply Z.leb_le in Ht.
  destruct (vlen buf <? be_val t) eqn:Hl; [done|]. apply Z.ltb_ge in Hl.
  read_slice mc. read_slice body.
  destruct (negb (crc32_ieee body =? _)); [done|].
  destruct (_ <? usize_saturating_add _ _) eqn:He; [done|]. apply Z.ltb_ge in He.
  assert (0 <= usize_saturating_add 12 (be_val hl) /\ 12 <= usize_saturating_add 12 (be_val hl))
    as [? ?] by (unfold usize_saturating_add, usize_max, u64_max; lia).
  read_slice hb. pose proof (parse_headers_returns hb).
  destruct (parse_headers hb) as [[h|e]|]; [|done|done]. cbn [obind].
  read_slice pl. by case_bool_decide.
Qed.

(** A frame or an exception consumes at least the 16 bytes of an empty one. *)
Definition consumed (t : Take) : Z :=
  match t with TakeFrame _ n | TakeException _ n => n end.

(** Case on the next test of a hypothesis about [take_message]. *)
Ltac take_step H :=
  match type of H with
  | context [slice ?buf ?a ?b] =>
      let l := fresh "l" in
      destruct (slice buf a b) as [l|] eqn:?; [|done];
      cbn [read fmap option_fmap option_map obind] in H
  | (if ?c then _ else _) = _ => destruct c eqn:?; try done
  end.

Lemma take_message_consumed buf t :
  take_message buf = Some (Ok (Some t)) -> 16 <= consumed t <= vlen buf.
Proof.
  unfold take_message. cbv zeta. intros H. repeat take_step H.
  destruct (parse_headers _) as [[h|e]|]; [|done|done]. cbn [obind] in H. take_step H.
  unfold PRELUDE_LEN, CRC_LEN in *.
  repeat match goal with
  | E : negb _ = false |- _ => apply negb_false_iff in E
  | E : _ && _ = true |- _ => apply andb_true_iff in E as [? ?]
  | E : (_ <=? _) = true |- _ => apply Z.leb_le in E
  | E : (_ <? _) = false |- _ => apply Z.ltb_ge in E
  end.
  destruct (bool_decide _); injection H as <-; cbn [consumed]; lia.
Qed.

(** What a message says does not depend on the bytes after it. *)
Lemma take_message_app buf k r :
  take_message buf = Some r -> r <> Ok None -> take_message (buf ++ k) = Some r.
Proof.
  unfold take_message. cbv zeta. rewrite vlen_app. pose proof (vlen_nonneg k) as Hk.
  intros H Hr. destruct (vlen buf <? PRELUDE_LEN) eqn:E; [by injection H as <-|].
  apply Z.ltb_ge in E. rewrite (proj2 (Z.ltb_ge _ _)) by lia. unfold PRELUDE_LEN in *.
  rewrite !(slice_app_l buf k _ 4), !(slice_app_l buf k _ 8), (slice_app_l buf k _ 12) by lia.
  do 4 take_step H. cbn [read fmap option_fmap option_map obind].
  take_step H. take_step H.
  match type of H with context [vlen buf <? ?t] => set (total := t) in * end.
  destruct (vlen buf <? total) eqn:E2; [by injection H as <-|].
  apply Z.ltb_ge in E2. rewrite (proj2 (Z.ltb_ge (vlen buf + _) total)) by lia.
  unfold CRC_LEN in *.
  rewrite !(slice_app_l buf k _ total), !(slice_app_l buf k _ (total - 4)) by lia.
  destruct (usize_saturating_add _ _) as [|e|e] eqn:Ee; cycle 1.
  - destruct (total - 4 <? Z.pos e) eqn:E3.
    + exact H.
    + apply Z.ltb_ge in E3. by rewrite !(slice_app_l buf k _ (Z.pos e)) by lia.
  - destruct (total - 4 <? Z.neg e) eqn:E3; [exact H|].
    apply Z.ltb_ge in E3. by rewrite !(slice_app_l buf k _ (Z.neg e)) by lia.
  - destruct (total - 4 <? 0) eqn:E3; [exact H|].
    apply Z.ltb_ge in E3. by rewrite !(slice_app_l buf k _ 0) by lia.
Qed.

(** ** The reader loop *)
Lemma es_feed_loop_returns fuel rest out :
  (length rest < fuel)%nat -> es_feed_loop fuel rest out <> None.
Proof.
  revert rest out. induction fuel as [|fuel IH]; intros rest out Hf; [lia|].
  cbn [es_feed_loop]. pose proof (take_message_returns rest) as Hr.
  destruct (take_message rest) as [[[[msg n|err n]|]|e]|] eqn:Ht; try done.
  apply take_message_consumed in Ht. cbn [consumed] in Ht.
  apply IH. rewrite length_drop. unfold vlen in Ht. lia.
Qed.

Lemma es_feed_loop_fuel f1 f2 rest out :
  (length rest < f1)%nat -> (length rest < f2)%nat ->
  es_feed_loop f1 rest out = es_feed_loop f2 rest out.
Proof.
  revert f2 rest out. induction f1 as [|f1 IH]; intros [|f2] rest out H1 H2; try lia.
  cbn [es_feed_loop].
  destruct (take_message rest) as [[[[msg n|err n]|]|e]|] eqn:Ht; try done.
  apply take_message_consumed in Ht. cbn [consumed] in Ht. unfold vlen in Ht.
  apply IH; rewrite length_drop; lia.
Qed.

(** Frames already collected stay in front. *)
Definition prefix_out (out : list RawSse)
    (x : list u8 * result string (list RawSse * option string)) :=
  (x.1, rmap (fun y => (out ++ y.1, y.2)) x.2).

Lemma prefix_out_app o1 o2 x : prefix_out o1 (prefix_out o2 x) = prefix_out (o1 ++ o2) x.
Proof. destruct x as [? [[? ?]|?]]; cbn; [|done]. unfold prefix_out. cbn. by rewrite app_assoc. Qed.

Lemma es_feed_loop_out fuel rest out :
  es_feed_loop fuel rest out = prefix_out out <$> es_feed_loop fuel rest [].
Proof.
  revert rest out. induction fuel as [|fuel IH]; intros rest out; [done|].
  cbn [es_feed_loop].
  destruct (take_message rest) as [[[[msg n|err n]|]|e]|]; try done;
    [|by cbn; unfold prefix_out; cbn; rewrite app_nil_r..].
  rewrite (IH _ (out ++ _)), (IH _ ([] ++ _)). cbn [app].
  destruct (es_feed_loop fuel _ []); cbn; [|done]. by rewrite prefix_out_app.
Qed.

Definition es_run (buf : list u8) := es_feed_loop (S (length buf)) buf [].
#[local] Arguments es_run : simpl never.

Lemma es_run_eq buf :
  es_run buf =
  match take_message buf with
  | None => None
  | Some (Ok None) => Some (buf, Ok ([], None))
  | Some (Ok (Some (TakeFrame msg n))) =>
      prefix_out [into_raw_sse msg] <$> es_run (drop (Z.to_nat n) buf)
  | Some (Ok (Some (TakeException err _))) => Some ([], Ok ([], Some err))
  | Some (Err err) => Some (buf, Err err)
  end.
Proof.
  unfold es_run at 1. cbn [es_feed_loop].
  destruct (take_message buf) as [[[[msg n|err n]|]|e]|] eqn:Ht; try done.
  apply take_message_consumed in Ht. cbn [consumed] in Ht. unfold vlen in Ht.
  rewrite es_feed_loop_out. unfold es_run.
  rewrite (es_feed_loop_fuel _ (S (length (drop (Z.to_nat n) buf)))) by (rewrite ?length_drop; lia).
  done.
Qed.

(** Reading continues where it stopped. *)
Lemma es_run_app buf k :
  es_run (buf ++ k) =
  match es_run buf with
  | None => None
  | Some (rest, Ok (out, None)) => prefix_out out <$> es_run (rest ++ k)
  | Some (rest, Ok (out, Some err)) => Some (rest, Ok (out, Some err))
  | Some (rest, Err err) => Some (rest ++ k, Err err)
  end.
Proof.
  induction buf as [buf IH] using list_length_ind.
  rewrite (es_run_eq buf). pose proof (take_message_returns buf) as Hr.
  destruct (take_message buf) as [[[[msg n|err n]|]|e]|] eqn:Ht.
  - pose proof (take_message_consumed _ _ Ht) as Hn. cbn [consumed] in Hn. unfold vlen in Hn.
    rewrite es_run_eq, (take_message_app _ k _ Ht) by done.
    rewrite drop_app_le by lia. rewrite IH by (rewrite length_drop; lia).
    destruct (es_run (drop _ buf)) as [[rest [[out [err|]]|err]]|]; try done.
    cbn -[prefix_out]. cbn [prefix_out fst snd rmap].
    destruct (es_run (rest ++ k)) as [x|]; cbn -[prefix_out]; [|done]. by rewrite prefix_out_app.
  - by rewrite es_run_eq, (take_message_app _ k _ Ht) by done.
  - cbn [fmap option_fmap option_map]. by destruct (es_run (buf ++ k)) as [[? [[? ?]|?]]|].
  - by rewrite es_run_eq, (take_message_app _ k _ Ht) by done.
  - by destruct Hr.
Qed.

End Messages.
#[global] Arguments es_run {SJ} buf : simpl never.

(** ** The checksum is injective in every byte *)
Definition word32 (c : Z) : Prop := 0 <= c < 2 ^ 32.

Lemma word32_testbit c n : word32 c -> 32 <= n -> Z.testbit c n = false.
Proof.
  intros [H0 H1] Hn. destruct (Z.eq_dec c 0) as [->|]; [apply Z.bits_0|].
  apply Z.bits_above_log2; [done|]. assert (Z.log2 c < 32) by (apply Z.log2_lt_pow2; lia). lia.
Qed.

Lemma word32_of_bits c : 0 <= c -> (forall n, 32 <= n -> Z.testbit c n = false) -> word32 c.
Proof.
  intros H0 H. split; [done|]. destruct (Z.eq_dec c 0) as [->|]; [done|].
  apply Z.log2_lt_pow2; [lia|]. apply Z.nle_gt. intros Hle.
  specialize (H _ Hle). rewrite Z.bit_log2 in H by lia. done.
Qed.

Lemma word32_lxor a b : word32 a -> word32 b -> word32 (Z.lxor a b).
Proof.
  intros Ha Hb. apply word32_of_bits.
  - apply Z.lxor_nonneg. destruct Ha, Hb. lia.
  - intros n Hn. by rewrite Z.lxor_spec, !word32_testbit.
Qed.

Lemma word32_half c : word32 c -> word32 (Z.shiftr c 1).
Proof.
  intros [H0 H1]. rewrite Z.shiftr_div_pow2 by lia. change (2 ^ 1) with 2.
  split; [apply Z.div_pos; lia|]. apply Z.div_lt_upper_bound; lia.
Qed.

Lemma word32_poly : word32 CRC_POLY.
Proof. by vm_compute. Qed.

Lemma word32_ones : word32 CRC_ONES.
Proof. by vm_compute. Qed.

Lemma word32_byte b : word32 (byte_val b).
Proof. pose proof (byte_val_range b). split; [lia|]. change (2 ^ 32) with 4294967296. lia. Qed.

Lemma lxor_cancel_r a b c : Z.lxor a c = Z.lxor b c -> a = b.
Proof.
  intros H. apply (f_equal (fun x => Z.lxor x c)) in H.
  by rewrite !Z.lxor_assoc, Z.lxor_nilpotent, !Z.lxor_0_r in H.
Qed.

Lemma crc_bit_word c : word32 c -> word32 (crc_bit c).
Proof.
  intros H. unfold crc_bit. apply word32_half in H.
  destruct (Z.odd c); [by apply word32_lxor|done].
Qed.

(** The top bit of the result is the bit that was shifted out. *)
Lemma crc_bit_top c : word32 c -> Z.testbit (crc_bit c) 31 = Z.odd c.
Proof.
  intros H. unfold crc_bit.
  assert (Hs : Z.testbit (Z.shiftr c 1) 31 = false).
  { rewrite Z.shiftr_spec by lia. by apply word32_testbit. }
  destruct (Z.odd c); [|done]. by rewrite Z.lxor_spec, Hs.
Qed.

Lemma crc_bit_inj c d : word32 c -> word32 d -> crc_bit c = crc_bit d -> c = d.
Proof.
  intros Hc Hd H. pose proof (f_equal (fun x => Z.testbit x 31) H) as Ht. cbv beta in Ht.
  rewrite !crc_bit_top in Ht by done.
  assert (Hsh : Z.shiftr c 1 = Z.shiftr d 1).
  { unfold crc_bit in H. rewrite Ht in H. destruct (Z.odd d); [by apply lxor_cancel_r in H|done]. }
  rewrite <- !Z.div2_spec in Hsh. rewrite (Z.div2_odd c), (Z.div2_odd d). congruence.
Qed.

Lemma crc_iter_word n c : word32 c -> word32 (Nat.iter n crc_bit c).
Proof. intros H. induction n as [|n IH]; [done|]. cbn. by apply crc_bit_word. Qed.

Lemma crc_iter_inj n c d :
  word32 c -> word32 d -> Nat.iter n crc_bit c = Nat.iter n crc_bit d -> c = d.
Proof.
  intros Hc Hd. induction n as [|n IH]; [done|]. cbn. intros H.
  apply IH, crc_bit_inj; auto using crc_iter_word.
Qed.

Lemma crc_byte_word c b : word32 c -> word32 (crc_byte c b).
Proof. intros H. apply crc_iter_word, word32_lxor; [done|apply word32_byte]. Qed.

Lemma crc_byte_inj_state c d b :
  word32 c -> word32 d -> crc_byte c b = crc_byte d b -> c = d.
Proof.
  intros Hc Hd H. apply crc_iter_inj in H; auto using word32_lxor, word32_byte.
  by apply lxor_cancel_r in H.
Qed.

Lemma crc_byte_inj_byte c a b : word32 c -> crc_byte c a = crc_byte c b -> a = b.
Proof.
  intros Hc H. apply crc_iter_inj in H; auto using word32_lxor, word32_byte.
  rewrite (Z.lxor_comm c (byte_val a)), (Z.lxor_comm c (byte_val b)) in H. apply lxor_cancel_r in H.
  by apply byte_val_inj.
Qed.

Lemma crc_fold_word l c : word32 c -> word32 (fold_left crc_byte l c).
Proof. revert c. induction l as [|b l IH]; intros c H; [done|]. by apply IH, crc_byte_word. Qed.

Lemma crc_fold_inj l c d :
  word32 c -> word32 d -> fold_left crc_byte l c = fold_left crc_byte l d -> c = d.
Proof.
  revert c d. induction l as [|b l IH]; intros c d Hc Hd H; [done|]. cbn in H.
  apply IH in H; [|by apply crc_byte_word..]. by apply (crc_byte_inj_state c d b).
Qed.

Lemma crc32_range l : 0 <= crc32_ieee l < 4294967296.
Proof. apply (word32_lxor _ _ (crc_fold_word l _ word32_ones) word32_ones). Qed.

Lemma crc32_one_byte x a b y :
  crc32_ieee (x ++ a :: y) = crc32_ieee (x ++ b :: y) -> a = b.
Proof.
  unfold crc32_ieee. intros H. apply lxor_cancel_r in H.
  rewrite !fold_left_app in H. cbn [fold_left] in H.
  pose proof (crc_fold_word x _ word32_ones) as Hw.
  apply crc_fold_inj in H; [|by apply crc_byte_word..]. by apply crc_byte_inj_byte in H.
Qed.

(** ** Round trip of the framing *)
Definition hdr (name value : string) : list u8 := write_string_header [] name value.

Definition header_ok (name value : string) : Prop :=
  slen name < 256 /\ slen value < 65536 /\ is_str name = true /\ is_str value = true.

Lemma write_string_header_app out name value :
  write_string_header out name value = out ++ hdr name value.
Proof. done. Qed.

Lemma hdr_vlen name value : vlen (hdr name value) = 4 + slen name + slen value.
Proof.
  unfold hdr, write_string_header. cbn [app]. rewrite !slen_bytes.
  autorewrite with wire_len. change (vlen (u16_be_bytes _)) with 2. lia.
Qed.

(** Where the fields of a written header lie in a buffer. *)
Record header_at (buf x : list u8) (name value : string) (n2 : list u8) : Prop := {
  at_len : vlen x + 4 + slen name + slen value <= vlen buf;
  at_name_len : index buf (vlen x) = Some (byte_of (slen name));
  at_name : slice buf (vlen x + 1) (vlen x + 1 + slen name) = Some (bytes_of_str name);
  at_type : index buf (vlen x + 1 + slen name) = Some (byte_of 7);
  at_value_len : slice buf (vlen x + 2 + slen name) (vlen x + 4 + slen name) = Some n2;
  at_value : slice buf (vlen x + 4 + slen name) (vlen x + 4 + slen name + slen value)
             = Some (bytes_of_str value)
}.

Lemma hdr_at x name value y :
  header_at (x ++ hdr name value ++ y) x name value (u16_be_bytes (slen value)).
Proof.
  pose proof (slen_nonneg name). pose proof (slen_nonneg value). pose proof (vlen_nonneg y).
  set (n2 := u16_be_bytes (slen value)).
  set (x1 := x ++ [byte_of (slen name)]).
  set (x2 := (x1 ++ bytes_of_str name) ++ [byte_of 7]).
  assert (L1 : vlen x1 = vlen x + 1) by (unfold x1; by rewrite vlen_app).
  assert (L2 : vlen x2 = vlen x + 2 + slen name).
  { unfold x2. rewrite !vlen_app, <- slen_bytes. change (vlen [_]) with 1. lia. }
  assert (L3 : vlen n2 = 2) by done.
  assert (E : x ++ hdr name value ++ y = x2 ++ n2 ++ bytes_of_str value ++ y).
  { unfold x2, x1, hdr, write_string_header. cbn [app]. by rewrite <- !app_assoc. }
  assert (E1 : x ++ hdr name value ++ y =
    x1 ++ bytes_of_str name ++ byte_of 7 :: n2 ++ bytes_of_str value ++ y).
  { rewrite E. unfold x2. by rewrite <- !app_assoc. }
  split.
  - rewrite E, !vlen_app, <- slen_bytes. lia.
  - rewrite E1. unfold x1. rewrite <- app_assoc. by apply index_exact.
  - rewrite E1. apply slice_exact; [lia|by rewrite <- slen_bytes].
  - rewrite E1, app_assoc. apply index_exact. rewrite vlen_app, <- slen_bytes. lia.
  - rewrite E. apply slice_exact; lia.
  - rewrite E, app_assoc. apply slice_exact; rewrite ?vlen_app, <- ?slen_bytes; lia.
Qed.

(** One turn of the loop reads one written header. *)
Lemma parse_header_step fuel x name value y h :
  header_ok name value ->
  parse_headers_loop (S fuel) (x ++ hdr name value ++ y) (vlen x) h =
  parse_headers_loop fuel (x ++ hdr name value ++ y) (vlen x + vlen (hdr name value))
    (set_header h name value).
Proof.
  intros (Hn & Hv & Un & Uv).
  pose proof (slen_nonneg name). pose proof (slen_nonneg value).
  assert (Hb : byte_val (byte_of (slen name)) = slen name)
    by (rewrite byte_val_of; by apply Z.mod_small).
  assert (Hn2 : be_val (u16_be_bytes (slen value)) = slen value) by (apply be_val_u16; lia).
  pose proof (hdr_at x name value y) as [L I1 I2 I3 I4 I5].
  set (buf := x ++ hdr name value ++ y) in *.
  cbn [parse_headers_loop]. rewrite (proj2 (Z.ltb_lt (vlen x) _)) by lia.
  rewrite I1. cbn [read fmap option_fmap option_map obind]. rewrite Hb.
  rewrite (proj2 (Z.ltb_ge _ _)) by lia.
  rewrite I2. cbn [read fmap option_fmap option_map obind]. rewrite from_utf8_str by done.
  rewrite I3. cbn [read fmap option_fmap option_map obind].
  unfold read_header_value. cbv zeta. change (byte_val (byte_of 7)) with 7. cbn [Z.eqb Pos.eqb orb].
  replace (vlen x + 1 + slen name + 1) with (vlen x + 2 + slen name) by lia.
  unfold take_bytes. rewrite (proj2 (Z.ltb_ge _ (_ + 2))) by lia.
  replace (vlen x + 2 + slen name + 2) with (vlen x + 4 + slen name) by lia.
  rewrite I4. cbn [read fmap option_fmap option_map obind]. rewrite Hn2.
  rewrite (proj2 (Z.ltb_ge _ _)) by lia. rewrite I5.
  cbn [read fmap option_fmap option_map obind]. rewrite from_utf8_str by done.
  cbn [obind]. rewrite hdr_vlen. f_equal. lia.
Qed.

Lemma parse_headers_loop_end fuel buf i h :
  i = vlen buf -> parse_headers_loop (S fuel) buf i h = Some (Ok h).
Proof. intros ->. cbn. by rewrite (proj2 (Z.ltb_ge _ _)) by lia. Qed.

(** Three headers, as the two encoders write them. *)
Lemma parse_headers_three n1 v1 n2 v2 n3 v3 :
  header_ok n1 v1 -> header_ok n2 v2 -> header_ok n3 v3 ->
  parse_headers (hdr n1 v1 ++ hdr n2 v2 ++ hdr n3 v3) =
  Some (Ok (set_header (set_header (set_header (mkHeaders None None None) n1 v1) n2 v2) n3 v3)).
Proof.
  intros H1 H2 H3. unfold parse_headers. set (buf := _ ++ _ ++ _).
  assert (exists f, length buf = (S (S (S f)))) as [f ->].
  { pose proof (hdr_vlen n1 v1). pose proof (slen_nonneg n1). pose proof (slen_nonneg v1).
    assert (3 <= vlen buf).
    { unfold buf. rewrite vlen_app. pose proof (vlen_nonneg (hdr n2 v2 ++ hdr n3 v3)). lia. }
    unfold vlen in *. exists (length buf - 3)%nat. lia. }
  etrans; [exact (parse_header_step _ [] n1 v1 _ _ H1)|]. cbn [app].
  rewrite vlen_nil, Z.add_0_l.
  etrans; [exact (parse_header_step _ (hdr n1 v1) n2 v2 _ _ H2)|].
  rewrite <- vlen_app.
  replace (hdr n1 v1 ++ hdr n2 v2 ++ hdr n3 v3)
    with ((hdr n1 v1 ++ hdr n2 v2) ++ hdr n3 v3 ++ []) by (by rewrite app_nil_r, app_assoc).
  etrans; [exact (parse_header_step _ _ n3 v3 [] _ H3)|].
  apply parse_headers_loop_end. rewrite !vlen_app, vlen_nil. lia.
Qed.

Section Roundtrip.
Context {SJ : SerdeJson}.

(** What the reader makes of a message with the parsed headers [h]. *)
Definition message_take (h : ParsedHeaders) (payload : list u8) (n : Z) : Take :=
  if bool_decide (message_type h = Some "exception")
  then TakeException (exception_error (unwrap_or (exception_type h) "unknown") payload) n
  else TakeFrame (mkMessage (event_type h) payload) n.

Lemma encode_with_headers_vlen hs p : vlen (encode_with_headers hs p) = 16 + vlen hs + vlen p.
Proof.
  unfold encode_with_headers. cbv zeta. rewrite !vlen_app.
  change (vlen (u32_be_bytes _)) with 4. lia.
Qed.

(** The fields of the frame of total length [n] at the start of a buffer. *)
Record frame_at (buf : list u8) (n : Z) (t hl c pre mc body : list u8) : Prop := {
  fr_len : 16 <= n <= vlen buf;
  fr_total : slice buf 0 4 = Some t;
  fr_headers_len : slice buf 4 8 = Some hl;
  fr_prelude_crc : slice buf 8 12 = Some c;
  fr_prelude : slice buf 0 8 = Some pre;
  fr_message_crc : slice buf (n - 4) n = Some mc;
  fr_body : slice buf 0 (n - 4) = Some body
}.

Ltac frame_start H :=
  destruct H as [Hlen S1 S2 S3 S4 S5 S6];
  unfold take_message, PRELUDE_LEN, CRC_LEN;
  rewrite (proj2 (Z.ltb_ge _ 12)) by lia;
  rewrite S1, S2, S3, S4; cbn [read fmap option_fmap option_map obind]; cbv zeta.

Lemma take_bad_prelude buf n t hl c pre mc body :
  frame_at buf n t hl c pre mc body -> crc32_ieee pre <> be_val c ->
  take_message buf = Some (Err "eventstream prelude CRC mismatch").
Proof. intros H Hc. frame_start H. by rewrite (proj2 (Z.eqb_neq _ _) Hc). Qed.

Ltac frame_body Hcrc Htot Hmax :=
  rewrite Hcrc, Z.eqb_refl; cbn [negb]; rewrite Htot;
  rewrite (proj2 (Z.leb_le _ _)), (proj2 (Z.leb_le _ _)) by lia; cbn [negb andb];
  rewrite (proj2 (Z.ltb_ge _ _)) by lia;
  match goal with S5 : slice _ (_ - 4) _ = Some _, S6 : slice _ 0 (_ - 4) = Some _ |- _ =>
    rewrite S5, S6 end; cbn [read fmap option_fmap option_map obind].

Lemma take_bad_body buf n t hl c pre mc body :
  frame_at buf n t hl c pre mc body -> crc32_ieee pre = be_val c ->
  be_val t = n -> n <= MAX_EVENTSTREAM_PENDING -> crc32_ieee body <> be_val mc ->
  take_message buf = Some (Err "eventstream message CRC mismatch").
Proof.
  intros H Hcrc Htot Hmax Hc. frame_start H. frame_body Hcrc Htot Hmax.
  by rewrite (proj2 (Z.eqb_neq _ _) Hc).
Qed.

Lemma take_good buf n t hl c pre mc body hs p h :
  frame_at buf n t hl c pre mc body -> crc32_ieee pre = be_val c ->
  be_val t = n -> n <= MAX_EVENTSTREAM_PENDING -> crc32_ieee body = be_val mc ->
  be_val hl = vlen hs -> 12 + vlen hs <= n - 4 ->
  slice buf 12 (12 + vlen hs) = Some hs -> slice buf (12 + vlen hs) (n - 4) = Some p ->
  parse_headers hs = Some (Ok h) ->
  take_message buf = Some (Ok (Some (message_take h p n))).
Proof.
  intros H Hcrc Htot Hmax Hc Hhl Hle Hhs Hp Hh. frame_start H. frame_body Hcrc Htot Hmax.
  rewrite Hc, Z.eqb_refl, Hhl. cbn [negb]. pose proof (vlen_nonneg hs).
  assert (usize_saturating_add 12 (vlen hs) = 12 + vlen hs) as ->.
  { unfold usize_saturating_add, usize_max, u64_max, MAX_EVENTSTREAM_PENDING in *. lia. }
  rewrite (proj2 (Z.ltb_ge _ _)) by lia.
  rewrite Hhs. cbn [read fmap option_fmap option_map obind]. rewrite Hh. cbn [obind].
  rewrite Hp. cbn [read fmap option_fmap option_map obind].
  unfold message_take. by case_bool_decide.
Qed.

(** [slice_exact] after reassociating the buffer. *)
Ltac slice_of x y :=
  match goal with |- slice ?buf _ _ = Some ?l =>
    replace buf with (x ++ l ++ y) by (cbn [app]; by rewrite <- ?app_assoc);
    apply slice_exact; rewrite ?vlen_app, ?vlen_nil; lia
  end.

Lemma encoded_layout hs p :
  16 + vlen hs + vlen p <= MAX_EVENTSTREAM_PENDING ->
  let n := 16 + vlen hs + vlen p in
  exists t hl c pre mc body,
    frame_at (encode_with_headers hs p) n t hl c pre mc body
    /\ crc32_ieee pre = be_val c /\ be_val t = n /\ crc32_ieee body = be_val mc
    /\ be_val hl = vlen hs
    /\ slice (encode_with_headers hs p) 12 (12 + vlen hs) = Some hs
    /\ slice (encode_with_headers hs p) (12 + vlen hs) (n - 4) = Some p.
Proof.
  intros Hmax n. pose proof (vlen_nonneg hs) as H0. pose proof (vlen_nonneg p) as H1.
  unfold MAX_EVENTSTREAM_PENDING in Hmax.
  set (a := u32_be_bytes n). set (b := u32_be_bytes (vlen hs)).
  set (c := u32_be_bytes (crc32_ieee (a ++ b))).
  set (d := u32_be_bytes (crc32_ieee ((a ++ b) ++ c ++ hs ++ p))).
  assert (He : encode_with_headers hs p = a ++ b ++ c ++ hs ++ p ++ d).
  { unfold encode_with_headers. cbv zeta.
    replace (PRELUDE_LEN + vlen hs + vlen p + CRC_LEN) with n by (unfold PRELUDE_LEN, CRC_LEN, n; lia).
    fold a b c d. by rewrite <- !app_assoc. }
  assert (Ha : be_val a = n) by (apply be_val_u32; lia).
  assert (Hb : be_val b = vlen hs) by (apply be_val_u32; lia).
  assert (Hc : be_val c = crc32_ieee (a ++ b)) by apply be_val_u32, crc32_range.
  assert (Hd : be_val d = crc32_ieee ((a ++ b) ++ c ++ hs ++ p)) by apply be_val_u32, crc32_range.
  assert (La : vlen a = 4) by done. assert (Lb : vlen b = 4) by done.
  assert (Lc : vlen c = 4) by done. assert (Ld : vlen d = 4) by done.
  clearbody a b c d. rewrite He.
  exists a, b, c, (a ++ b), d, ((a ++ b) ++ c ++ hs ++ p).
  split; [split|repeat split; try done].
  - rewrite !vlen_app. lia.
  - slice_of (@nil u8) (b ++ c ++ hs ++ p ++ d).
  - slice_of a (c ++ hs ++ p ++ d).
  - slice_of (a ++ b) (hs ++ p ++ d).
  - slice_of (@nil u8) (c ++ hs ++ p ++ d).
  - replace d with (d ++ []) at 1 by apply app_nil_r. slice_of (a ++ b ++ c ++ hs ++ p) (@nil u8).
  - slice_of (@nil u8) d.
  - slice_of (a ++ b ++ c) (p ++ d).
  - slice_of (a ++ b ++ c ++ hs) d.
Qed.

Lemma take_encoded hs p h :
  parse_headers hs = Some (Ok h) -> 16 + vlen hs + vlen p <= MAX_EVENTSTREAM_PENDING ->
  take_message (encode_with_headers hs p) =
  Some (Ok (Some (message_take h p (vlen (encode_with_headers hs p))))).
Proof.
  intros Hh Hmax. rewrite encode_with_headers_vlen.
  destruct (encoded_layout hs p Hmax) as (t & hl & c & pre & mc & body & Hf & ? & ? & ? & ? & ? & ?).
  eapply take_good; try done. pose proof (vlen_nonneg p). lia.
Qed.

(** ** A corrupted byte *)

(** A slice that spans the changed position shows the change; any other does not. *)
Lemma slice_change x a b y lo hi l :
  slice (x ++ a :: y) lo hi = Some l ->
  (lo <= vlen x < hi /\ exists u v, l = u ++ a :: v /\ slice (x ++ b :: y) lo hi = Some (u ++ b :: v))
  \/ ((vlen x < lo \/ hi <= vlen x) /\ slice (x ++ b :: y) lo hi = Some l).
Proof.
  unfold slice. rewrite !vlen_app, !vlen_cons.
  destruct (_ && _ && _) eqn:E; [|done]. intros [= <-].
  rewrite !andb_true_iff, !Z.leb_le in E. destruct E as [[H0 H1] H2].
  assert (Hd : forall c, drop (Z.to_nat lo) (x ++ c :: y) =
            if decide (lo <= vlen x) then drop (Z.to_nat lo) x ++ c :: y
            else drop (Z.to_nat lo - length x - 1) y).
  { intros c. case_decide as Hlo; unfold vlen in Hlo.
    - by rewrite drop_app_le by lia.
    - rewrite drop_app_ge by lia.
      destruct (Z.to_nat lo - length x)%nat as [|k] eqn:Hk; [lia|]. cbn. by rewrite Nat.sub_0_r. }
  rewrite !Hd. case_decide as Hlo; [|right; split; [left; lia|done]].
  set (u := drop (Z.to_nat lo) x).
  assert (Hu : Z.of_nat (length u) = vlen x - lo) by (unfold u, vlen in *; rewrite length_drop; lia).
  destruct (decide (hi <= vlen x)) as [Hhi|Hhi].
  - right. split; [by right|]. by rewrite !take_app_le by lia.
  - left. split; [lia|].
    assert (Hm : exists m, Z.to_nat (hi - lo) = (length u + S m)%nat).
    { exists (Z.to_nat (hi - lo) - length u - 1)%nat. lia. }
    destruct Hm as [m ->]. exists u, (take m y). by rewrite !take_app_add.
Qed.

(** The field values of a frame with one byte changed, in the order of [take_message]. *)
Lemma frame_at_change x a b y n t hl c pre mc body :
  a <> b ->
  frame_at (x ++ a :: y) n t hl c pre mc body ->
  crc32_ieee pre = be_val c -> crc32_ieee body = be_val mc -> be_val t = n ->
  vlen x < n ->
  exists t' hl' c' pre' mc' body',
    frame_at (x ++ b :: y) n t' hl' c' pre' mc' body'
    /\ (crc32_ieee pre' <> be_val c'
        \/ crc32_ieee pre' = be_val c' /\ be_val t' = n /\ crc32_ieee body' <> be_val mc').
Proof.
  intros Hab [Hlen S1 S2 S3 S4 S5 S6] Hc Hm Ht Hx. pose proof (vlen_nonneg x) as Hx0.
  assert (Hcrc : forall u v : list u8, crc32_ieee (u ++ a :: v) <> crc32_ieee (u ++ b :: v)).
  { intros u v H. by apply crc32_one_byte in H. }
  assert (Hbe : forall u v : list u8, be_val (u ++ a :: v) <> be_val (u ++ b :: v)).
  { intros u v H. apply be_val_inj in H; [|by rewrite !vlen_app]. by simplify_list_eq. }
  assert (Hlen' : 16 <= n <= vlen (x ++ b :: y)) by (revert Hlen; by rewrite !vlen_app, !vlen_cons).
  apply (slice_change x a b y) in S1, S2, S3, S4, S5, S6.
  destruct S1 as [(C1 & ? & ? & -> & S1)|(C1 & S1)], S2 as [(C2 & ? & ? & -> & S2)|(C2 & S2)],
    S3 as [(C3 & u3 & v3 & -> & S3)|(C3 & S3)], S4 as [(C4 & u4 & v4 & -> & S4)|(C4 & S4)],
    S5 as [(C5 & u5 & v5 & -> & S5)|(C5 & S5)], S6 as [(C6 & u6 & v6 & -> & S6)|(C6 & S6)];
    try lia; do 6 eexists; (split; [by split|]);
    first
      [ left; intros He; first [ rewrite <- Hc in He; exact (Hcrc _ _ (eq_sym He))
                               | rewrite Hc in He; exact (Hbe _ _ He) ]
      | right; split; [exact Hc|]; split; [exact Ht|]; intros He;
        first [ rewrite <- Hm in He; exact (Hcrc _ _ (eq_sym He))
              | rewrite Hm in He; exact (Hbe _ _ He) ] ].
Qed.

Lemma corrupt_byte hs p x a b y :
  16 + vlen hs + vlen p <= MAX_EVENTSTREAM_PENDING ->
  encode_with_headers hs p = x ++ a :: y -> a <> b ->
  exists e, take_message (x ++ b :: y) = Some (Err e).
Proof.
  intros Hmax He Hab. pose proof (encode_with_headers_vlen hs p) as Hlen.
  destruct (encoded_layout hs p Hmax) as (t & hl & c & pre & mc & body & Hf & Hc & Ht & Hm & _).
  rewrite He in Hf, Hlen. rewrite vlen_app, vlen_cons in Hlen. pose proof (vlen_nonneg y).
  destruct (frame_at_change _ _ b _ _ _ _ _ _ _ _ Hab Hf Hc Hm Ht)
    as (t' & hl' & c' & pre' & mc' & body' & Hf' & [Hbad|(Hc' & Ht' & Hbad)]); [lia| |].
  - eexists. by eapply take_bad_prelude.
  - eexists. by eapply take_bad_body.
Qed.

(** ** A stream of written messages *)

(** The headers of the two encoders. *)
Lemma encode_message_headers ty :
  header_ok ":event-type" ty ->
  parse_headers (hdr ":message-type" "event" ++ hdr ":event-type" ty
                 ++ hdr ":content-type" "application/json")
  = Some (Ok (mkHeaders (Some ty) (Some "event") None)).
Proof. intros H. by rewrite parse_headers_three by (done || by vm_compute). Qed.

Lemma encode_exception_headers ty :
  header_ok ":exception-type" ty ->
  parse_headers (hdr ":message-type" "exception" ++ hdr ":exception-type" ty
                 ++ hdr ":content-type" "application/json")
  = Some (Ok (mkHeaders None (Some "exception") (Some ty))).
Proof. intros H. by rewrite parse_headers_three by (done || by vm_compute). Qed.

(** A message the encoder can carry: the lengths fit their fields. *)
Definition message_ok (m : string * list u8) : Prop :=
  slen m.1 < 65536 /\ is_str m.1 = true
  /\ vlen (encode_message m.1 m.2) <= MAX_EVENTSTREAM_PENDING.

Lemma encode_message_eq ty p :
  encode_message ty p =
  encode_with_headers (hdr ":message-type" "event" ++ hdr ":event-type" ty
                       ++ hdr ":content-type" "application/json") p.
Proof.
  unfold encode_message. cbv zeta. rewrite !write_string_header_app. cbn [app].
  by rewrite <- !app_assoc.
Qed.

Lemma es_run_message m k :
  message_ok m ->
  es_run (encode_message m.1 m.2 ++ k) =
  prefix_out [into_raw_sse (mkMessage (Some m.1) m.2)] <$> es_run k.
Proof.
  destruct m as [ty p]; cbn [fst snd]. intros (Hl & Hu & Hmax); cbn [fst snd] in *.
  rewrite encode_message_eq in *. rewrite encode_with_headers_vlen in Hmax.
  rewrite es_run_eq.
  assert (Ht : header_ok ":event-type" ty) by (split; [by vm_compute|]; by repeat split).
  pose proof (take_encoded _ p _ (encode_message_headers ty Ht) Hmax) as H.
  rewrite (take_message_app _ k _ H) by done. unfold message_take. cbn [message_type event_type].
  rewrite bool_decide_false by done.
  unfold vlen. rewrite Nat2Z.id, drop_app_length. done.
Qed.

Lemma es_run_nil : es_run [] = Some ([], Ok ([], None)).
Proof. reflexivity. Qed.

Lemma es_run_messages ms :
  Forall message_ok ms ->
  es_run (concat (map (fun m => encode_message m.1 m.2) ms)) =
  Some ([], Ok (map (fun m => into_raw_sse (mkMessage (Some m.1) m.2)) ms, None)).
Proof.
  induction 1 as [|m ms Hm _ IH]; [done|]. cbn [map concat].
  by rewrite es_run_message, IH by done.
Qed.

Lemma es_feed_run r bytes :
  vlen (es_buffer r) + vlen bytes <= MAX_EVENTSTREAM_PENDING ->
  es_feed r bytes =
  ('(rest, res) ← es_run (es_buffer r ++ bytes); Some (mkEventReader rest, res)).
Proof.
  intros H. unfold es_feed. rewrite (proj2 (Z.ltb_ge _ _)); [done|].
  unfold usize_saturating_add, usize_max, u64_max, MAX_EVENTSTREAM_PENDING in *. lia.
Qed.

Lemma es_run_rest buf rest res : es_run buf = Some (rest, res) -> vlen rest <= vlen buf.
Proof.
  revert rest res. induction buf as [buf IH] using list_length_ind. intros rest res.
  rewrite es_run_eq.
  destruct (take_message buf) as [[[[msg n|err n]|]|e]|] eqn:Ht; try done;
    [|intros [= <- _]; unfold vlen; cbn; lia|by intros [= <- _]..].
  apply take_message_consumed in Ht. cbn [consumed] in Ht. unfold vlen in Ht.
  destruct (es_run (drop _ buf)) as [[rest1 res1]|] eqn:Hr; [|done].
  intros [= <- _]. apply IH in Hr; unfold vlen in *; rewrite length_drop in *; lia.
Qed.

Fixpoint es_feed_chunks (r : EventStreamReader) (chunks : list (list u8)) :
    option (EventStreamReader * result string (list RawSse * option string)) :=
  match chunks with
  | [] => Some (r, Ok ([], None))
  | c :: cs =>
      '(r1, res) ← es_feed r c;
      match res with
      | Ok (out, None) => '(r2, res2) ← es_feed_chunks r1 cs;
                          Some (r2, rmap (fun y => (out ++ y.1, y.2)) res2)
      | _ => Some (r1, res)
      end
  end.

Lemma es_run_idem buf rest out :
  es_run buf = Some (rest, Ok (out, None)) -> es_run rest = Some (rest, Ok ([], None)).
Proof.
  revert rest out. induction buf as [buf IH] using list_length_ind. intros rest out.
  rewrite es_run_eq.
  destruct (take_message buf) as [[[[msg n|err n]|]|e]|] eqn:Ht; try done.
  - apply take_message_consumed in Ht. cbn [consumed] in Ht. unfold vlen in Ht.
    destruct (es_run (drop _ buf)) as [[rest1 [[o1 e1]|e1]]|] eqn:Hr; try done.
    intros [= <- _ ->]. by apply IH in Hr; [|rewrite length_drop; lia].
  - intros [= <- _]. rewrite es_run_eq. by rewrite Ht.
Qed.

(** A reader between two chunks: no complete message is left in it. *)
Definition es_settled (r : EventStreamReader) : Prop :=
  es_run (es_buffer r) = Some (es_buffer r, Ok ([], None)).

Lemma es_feed_chunks_run r chunks rest out :
  es_settled r ->
  vlen (es_buffer r) + vlen (concat chunks) <= MAX_EVENTSTREAM_PENDING ->
  es_run (es_buffer r ++ concat chunks) = Some (rest, Ok (out, None)) ->
  es_feed_chunks r chunks = Some (mkEventReader rest, Ok (out, None)).
Proof.
  revert r out. induction chunks as [|c cs IH]; intros r out Hr Hlen Hrun.
  - cbn [concat] in Hrun. rewrite app_nil_r in Hrun. unfold es_settled in Hr.
    rewrite Hr in Hrun. injection Hrun as <- <-. by destruct r.
  - cbn [concat es_feed_chunks] in *. rewrite vlen_app in Hlen.
    pose proof (vlen_nonneg c). pose proof (vlen_nonneg (concat cs)).
    rewrite es_feed_run by lia. rewrite app_assoc, es_run_app in Hrun.
    destruct (es_run (es_buffer r ++ c)) as [[rest1 [[o1 [e1|]]|e1]]|] eqn:H1; try done.
    cbn. pose proof (es_run_rest _ _ _ H1) as Hr1. rewrite vlen_app in Hr1.
    destruct (es_run (rest1 ++ concat cs)) as [[rest2 [[o2 e2]|e2]]|] eqn:H2; try done.
    cbn in Hrun. injection Hrun as -> <- ->.
    rewrite (IH (mkEventReader rest1) o2); [done| | |done].
    + by eapply es_run_idem.
    + cbn [es_buffer]. lia.
Qed.

(** ** Wrapping of the payload *)
Lemma obj_insert_nil k v : obj_insert k v [] = [(k, v)].
Proof. reflexivity. Qed.

Lemma jobj_one k v : jobj [(k, v)] = JObj [(k, v)].
Proof. reflexivity. Qed.

(** ** Properties *)

(** C37. Untrusted bytes never make the reader panic or loop: every slice and
    index is in range and every loop ends, whatever the state and the chunk. *)
Theorem es_feed_total r bytes : es_feed r bytes <> None.
Proof.
  unfold es_feed. destruct (_ <? _); [done|].
  pose proof (es_feed_loop_returns (S (length (es_buffer r ++ bytes))) (es_buffer r ++ bytes) []) as H.
  destruct (es_feed_loop _ _ _) as [[rest res]|]; [done|]. destruct H; [lia|done].
Qed.

(** Splitting a chunk in two changes neither frames nor errors nor the
    final buffer, as long as the 16 MiB cap is not reached; an exception in
    the first part ends the stream there. *)
Theorem es_feed_app r a b :
  vlen (es_buffer r) + vlen a + vlen b <= MAX_EVENTSTREAM_PENDING ->
  es_feed r (a ++ b) =
  match es_feed r a with
  | Some (r1, Ok (out, None)) =>
      '(r2, res) ← es_feed r1 b; Some (r2, rmap (fun y => (out ++ y.1, y.2)) res)
  | Some (r1, Ok (out, Some err)) => Some (r1, Ok (out, Some err))
  | Some (r1, Err err) => Some (mkEventReader (es_buffer r1 ++ b), Err err)
  | None => None
  end.
Proof.
  intros H. pose proof (vlen_nonneg a). pose proof (vlen_nonneg b).
  rewrite !es_feed_run by (rewrite ?vlen_app; lia).
  rewrite app_assoc, es_run_app.
  destruct (es_run (es_buffer r ++ a)) as [[rest [[out [e|]]|e]]|] eqn:Hr; try done.
  cbn. rewrite es_feed_run.
  - cbn [es_buffer]. by destruct (es_run (rest ++ b)) as [[? ?]|].
  - apply es_run_rest in Hr. rewrite vlen_app in Hr. cbn [es_buffer]. lia.
Qed.

(** C35. One wrong byte anywhere in a message - length, checksum, header or
    payload - is detected: the message is an error, never a frame. *)
Theorem corrupt_byte_detected ty p x a b y :
  message_ok (ty, p) -> encode_message ty p = x ++ a :: y -> a <> b ->
  exists e, take_message (x ++ b :: y) = Some (Err e).
Proof.
  intros (_ & _ & Hmax). cbn [fst snd] in Hmax. rewrite encode_message_eq in *.
  rewrite encode_with_headers_vlen in Hmax. by apply corrupt_byte.
Qed.

(** C34. Messages written by [encode_message] come back in order, whole and
    unchanged, under every chunking of their bytes, and leave nothing behind. *)
Theorem encode_feed_roundtrip ms chunks :
  Forall message_ok ms ->
  concat chunks = concat (map (fun m => encode_message m.1 m.2) ms) ->
  vlen (concat chunks) <= MAX_EVENTSTREAM_PENDING ->
  es_feed_chunks es_new chunks =
  Some (es_new, Ok (map (fun m => into_raw_sse (mkMessage (Some m.1) m.2)) ms, None)).
Proof.
  intros Hms Hc Hlen. apply (es_feed_chunks_run es_new); [apply es_run_nil|done|].
  cbn [es_buffer es_new app]. rewrite Hc. by apply es_run_messages.
Qed.

(** An exception frame ends the stream: the frames before it in the chunk
    are still delivered, its text names the exception type and the payload,
    and the bytes after it are dropped. *)
Theorem exception_ends_stream ms ty p k :
  Forall message_ok ms -> slen ty < 65536 -> is_str ty = true ->
  vlen (concat (map (fun m => encode_message m.1 m.2) ms) ++ encode_exception_message ty p ++ k)
    <= MAX_EVENTSTREAM_PENDING ->
  es_feed es_new (concat (map (fun m => encode_message m.1 m.2) ms)
                  ++ encode_exception_message ty p ++ k) =
  Some (es_new, Ok (map (fun m => into_raw_sse (mkMessage (Some m.1) m.2)) ms,
                    Some (exception_error ty p))).
Proof.
  intros Hms Hl Hu Hlen. rewrite es_feed_run by done. cbn [es_buffer es_new app].
  rewrite es_run_app, es_run_messages by done. cbn [app].
  assert (He : encode_exception_message ty p =
    encode_with_headers (hdr ":message-type" "exception" ++ hdr ":exception-type" ty
                         ++ hdr ":content-type" "application/json") p).
  { unfold encode_exception_message. cbv zeta. rewrite !write_string_header_app. cbn [app].
    by rewrite <- !app_assoc. }
  rewrite He in *.
  assert (Hh : header_ok ":exception-type" ty) by (split; [by vm_compute|by repeat split]).
  assert (Hmax : vlen (encode_with_headers (hdr ":message-type" "exception" ++ hdr ":exception-type" ty
                         ++ hdr ":content-type" "application/json") p) <= MAX_EVENTSTREAM_PENDING).
  { rewrite !vlen_app in Hlen. pose proof (vlen_nonneg k).
    pose proof (vlen_nonneg (concat (map (fun m => encode_message m.1 m.2) ms))). lia. }
  rewrite encode_with_headers_vlen in Hmax.
  pose proof (take_encoded _ p _ (encode_exception_headers ty Hh) Hmax) as Ht.
  rewrite es_run_eq, (take_message_app _ k _ Ht) by done.
  unfold message_take. rewrite bool_decide_true by done. cbn. by rewrite app_nil_r.
Qed.

(** The reader nests a member under its event name and the writer takes it
    out again: for an object payload of a block event that carries its index,
    unwrapping the wrapped text is the payload's own text. *)
Theorem unwrap_wrap_roundtrip {SJL : SerdeJsonLaws} ty m :
  is_empty ty = false -> is_str ty = true ->
  reparses (JObj [(ty, JObj m)]) = true ->
  obj_contains ty m = false ->
  (contains_event block_index_events ty = true -> obj_contains "contentBlockIndex" m = true) ->
  unwrap_event_payload ty (wrap_event_payload (Some ty) (bytes_of_str (to_string (JObj m))))
  = bytes_of_str (to_string (JObj m)).
Proof.
  intros Hne Hu Hre Hc Hidx.
  assert (Hm : reparses (JObj m) = true).
  { by apply (reparses_member ty). }
  assert (Hex : exact_json (JObj m) = true) by (by apply andb_true_iff in Hm as [? _]).
  unfold wrap_event_payload, opt_filter. rewrite Hne. cbn [negb].
  unfold from_slice. rewrite from_utf8_str by (by apply to_string_utf8). cbn [mbind option_bind].
  rewrite from_to by done. rewrite Hc, jobj_one.
  unfold unwrap_event_payload. rewrite from_to by done. cbn [obj_get].
  rewrite String.eqb_refl. change (vlen [_] =? 1) with true. cbn [negb].
  unfold ensure_block_index. cbn [get]. f_equal. f_equal.
  destruct (contains_event block_index_events ty) eqn:Hb; [|done]. cbn [andb].
  specialize (Hidx eq_refl). unfold obj_contains in Hidx.
  by destruct (obj_get "contentBlockIndex" m).
Qed.

(** At end of stream the reader is clean exactly when no byte is left;
    otherwise the truncated message is an error and the reader is empty. *)
Theorem es_finish_clean r :
  (snd (es_finish r) = Ok None <-> es_buffer r = []) /\ es_buffer (fst (es_finish r)) = [].
Proof.
  unfold es_finish. destruct (es_buffer r) as [|a b] eqn:E; cbn; [by rewrite E|].
  split; [|done]. by split.
Qed.

End Roundtrip.

(** ** Witnesses *)
Section Witnesses.
#[local] Existing Instance bits_codec.
#[local] Existing Instance bits_codec_laws.

Lemma es_feed_app_witness :
  es_feed es_new (bytes_of_str "ab" ++ bytes_of_str "c") =
  match es_feed es_new (bytes_of_str "ab") with
  | Some (r1, Ok (out, None)) =>
      '(r2, res) ← es_feed r1 (bytes_of_str "c"); Some (r2, rmap (fun y => (out ++ y.1, y.2)) res)
  | Some (r1, Ok (out, Some err)) => Some (r1, Ok (out, Some err))
  | Some (r1, Err err) => Some (mkEventReader (es_buffer r1 ++ bytes_of_str "c"), Err err)
  | None => None
  end.
Proof. apply (es_feed_app es_new (bytes_of_str "ab") (bytes_of_str "c")). by vm_compute. Defined.

Lemma corrupt_byte_detected_witness :
  exists e, take_message (byte_of 255 :: drop 1 (encode_message "ping" (bytes_of_str "{}"))) = Some (Err e).
Proof.
  apply (corrupt_byte_detected "ping" (bytes_of_str "{}") [] (byte_of 0) (byte_of 255));
    [|vm_compute; reflexivity|by vm_compute].
  repeat split; vm_compute; done.
Defined.

Lemma encode_feed_roundtrip_witness :
  es_feed_chunks es_new
    [take 20 (encode_message "ping" (bytes_of_str "x")); drop 20 (encode_message "ping" (bytes_of_str "x"))]
  = Some (es_new, Ok ([into_raw_sse (mkMessage (Some "ping") (bytes_of_str "x"))], None)).
Proof.
  apply (encode_feed_roundtrip [("ping", bytes_of_str "x")]);
    [|vm_compute; reflexivity|vm_compute; done].
  repeat constructor; vm_compute; done.
Defined.

Lemma exception_ends_stream_witness :
  es_feed es_new (concat (map (fun m => encode_message m.1 m.2) [("ping", bytes_of_str "x")])
                  ++ encode_exception_message "throttlingException" (bytes_of_str "slow down") ++ bytes_of_str "tail")
  = Some (es_new, Ok ([into_raw_sse (mkMessage (Some "ping") (bytes_of_str "x"))],
                      Some (exception_error "throttlingException" (bytes_of_str "slow down"))))
  /\ exception_error "throttlingException" (bytes_of_str "slow down")
     = "eventstream exception throttlingException: slow down".
Proof.
  split; [|vm_compute; reflexivity].
  apply (exception_ends_stream [("ping", bytes_of_str "x")]);
    [repeat constructor|..]; vm_compute; done.
Defined.

Lemma unwrap_wrap_roundtrip_witness :
  unwrap_event_payload "messageStop"
    (wrap_event_payload (Some "messageStop")
       (bytes_of_str (to_string (JObj [("stopReason", JStr "end_turn")]))))
  = bytes_of_str (to_string (JObj [("stopReason", JStr "end_turn")])).
Proof. apply unwrap_wrap_roundtrip; try (vm_compute; reflexivity). vm_compute. discriminate. Defined.

End Witnesses.
