(* ===== verification/Ir.v ===== *)
(** * Ir: the protocol-neutral conversation and the loss report

    The data of crates/wiremux/src/ir/mod.rs, constructor by constructor and
    field by field, with the builders of the structs, and [MapError] of
    crates/wiremux/src/map/mod.rs.  A [BTreeMap<String, _>] is its list of
    bindings in key order; a float is the number of its IEEE bits
    ([Floats] says how they are rounded). *)

From S2P Require Import Prelude Text Json.

Abbreviation f32 := Z (only parsing).
Abbreviation f64 := Z (only parsing).

(** ** Requests *)
Inductive IrToolChoice := Auto | NoTool | Required | Named (name : string).

Record IrCache := mkCache {
  enabled : bool;
  retention : option string;
  min_cacheable_tokens : option Z
}.

Definition cache_default : IrCache := mkCache false None None.
Definition cache_enabled : IrCache := mkCache true (retention cache_default) (min_cacheable_tokens cache_default).
Definition with_retention (c : IrCache) (r : string) : IrCache :=
  mkCache (enabled c) (Some r) (min_cacheable_tokens c).
Definition with_min_cacheable_tokens (c : IrCache) (tokens : Z) : IrCache :=
  mkCache (enabled c) (retention c) (Some tokens).

Record IrSampling := mkSampling {
  sp_temperature : option f32;
  sp_top_p : option f32;
  sp_top_k : option Z;
  sp_max_tokens : option Z;
  sp_stop : list string;
  sp_tool_choice : IrToolChoice;
  sp_parallel_tool_calls : option bool;
  sp_store : option bool;
  sp_previous_response_id : option string;
  sp_cache : IrCache;
  sp_stream : option bool;
  sp_include_thoughts : option bool;
  sp_thinking_budget : option Z;
  sp_reasoning_effort : option string;
  sp_max_reasoning_tokens : option Z;
  sp_json_schema : option json;
  sp_json_schema_name : option string;
  sp_json_schema_description : option string;
  sp_json_schema_strict : option bool;
  sp_json_object : option bool;
  sp_include : list string;
  sp_prompt_cache_key : option string;
  sp_prompt_cache_retention : option string;
  sp_prompt_cache_mode : option string;
  sp_prompt_cache_ttl : option string;
  sp_top_logprobs : option Z;
  sp_moderation_model : option string;
  sp_moderation_input : option string;
  sp_moderation_output : option string;
  sp_include_obfuscation : option bool;
  sp_user : option string;
  sp_verbosity : option string;
  sp_safety_identifier : option string;
  sp_metadata : list (string * string);
  sp_frequency_penalty : option f32;
  sp_presence_penalty : option f32;
  sp_seed : option Z;
  sp_n : option Z;
  sp_service_tier : option string;
  sp_output_modalities : list string;
  sp_audio_voice : option string;
  sp_audio_format : option string;
  sp_logprobs : option bool;
  sp_logit_bias : list (string * f64);
  sp_prediction : option json;
  sp_web_search_options : option json;
  sp_inference_geo : option string;
  sp_performance_latency : option string;
  sp_previous_message_id : option string;
  sp_response_field_paths : list string;
  sp_additional_request_fields : option json;
  sp_prompt_variables : option json;
  sp_guardrail : option json;
  sp_container : option json;
  sp_context_management : option json;
  sp_mcp_servers : option json;
  sp_media_resolution : option string;
  sp_image_config : option json;
  sp_audio_transcription_config : option json;
  sp_translation_config : option json;
  sp_affective_dialog : option bool;
  sp_enhanced_civic_answers : option bool;
  sp_multi_speaker_speech : option json;
  sp_cached_content : option string;
  sp_safety_settings : option json;
  sp_request_labels : option json;
  sp_truncation : option string;
  sp_max_tool_calls : option Z;
  sp_background : option bool;
  sp_conversation : option json;
  sp_responses_context_management : option json;
  sp_messages_thinking : option json
}.

(** [IrSampling::default] *)
Definition sampling_default : IrSampling := {|
  sp_temperature := None;
  sp_top_p := None;
  sp_top_k := None;
  sp_max_tokens := None;
  sp_stop := [];
  sp_tool_choice := Auto;
  sp_parallel_tool_calls := None;
  sp_store := None;
  sp_previous_response_id := None;
  sp_cache := cache_default;
  sp_stream := None;
  sp_include_thoughts := None;
  sp_thinking_budget := None;
  sp_reasoning_effort := None;
  sp_max_reasoning_tokens := None;
  sp_json_schema := None;
  sp_json_schema_name := None;
  sp_json_schema_description := None;
  sp_json_schema_strict := None;
  sp_json_object := None;
  sp_include := [];
  sp_prompt_cache_key := None;
  sp_prompt_cache_retention := None;
  sp_prompt_cache_mode := None;
  sp_prompt_cache_ttl := None;
  sp_top_logprobs := None;
  sp_moderation_model := None;
  sp_moderation_input := None;
  sp_moderation_output := None;
  sp_include_obfuscation := None;
  sp_user := None;
  sp_verbosity := None;
  sp_safety_identifier := None;
  sp_metadata := [];
  sp_frequency_penalty := None;
  sp_presence_penalty := None;
  sp_seed := None;
  sp_n := None;
  sp_service_tier := None;
  sp_output_modalities := [];
  sp_audio_voice := None;
  sp_audio_format := None;
  sp_logprobs := None;
  sp_logit_bias := [];
  sp_prediction := None;
  sp_web_search_options := None;
  sp_inference_geo := None;
  sp_performance_latency := None;
  sp_previous_message_id := None;
  sp_response_field_paths := [];
  sp_additional_request_fields := None;
  sp_prompt_variables := None;
  sp_guardrail := None;
  sp_container := None;
  sp_context_management := None;
  sp_mcp_servers := None;
  sp_media_resolution := None;
  sp_image_config := None;
  sp_audio_transcription_config := None;
  sp_translation_config := None;
  sp_affective_dialog := None;
  sp_enhanced_civic_answers := None;
  sp_multi_speaker_speech := None;
  sp_cached_content := None;
  sp_safety_settings := None;
  sp_request_labels := None;
  sp_truncation := None;
  sp_max_tool_calls := None;
  sp_background := None;
  sp_conversation := None;
  sp_responses_context_management := None;
  sp_messages_thinking := None
|}.

(** [IrSampling::patch]: the closure that mutates a default is a function. *)
Definition sampling_patch (update : IrSampling -> IrSampling) : IrSampling := update sampling_default.

Inductive IrDocumentSource :=
| SrcBase64 (data : string)
| SrcText (data : string)
| SrcUrl (url : string)
| SrcS3 (uri : string) (bucket_owner : option string)
| SrcFileId (id : string).

Inductive IrPart :=
| PText (text : string)
| PImageUrl (url : string) (detail bucket_owner file_id : option string)
| PImageBase64 (media_type data : string)
| PThinking (text : string) (signature : option string)
| PRaw (type_name : string) (raw : json)
| PDocument (source : IrDocumentSource) (media_type : string) (name : option string)
    (citations_enabled : option bool) (context : option string)
| PAudio (data format : string)
| PPromptCacheBreakpoint (mode : string) (inner : IrPart).

Inductive IrItem :=
| ISystem (text : string) (prompt_cache_breakpoint : option string) (content_parts : list IrPart)
| ISystemCache (raw : json)
| ISystemGuard (raw : json)
| IDeveloper (text : string) (prompt_cache_breakpoint : option string) (content_parts : list IrPart)
| IUser (parts : list IrPart)
| IAssistant (parts : list IrPart) (phase : option string)
| IFunctionCall (call_id name arguments : string) (thought_signature : option string)
| ICustomToolCall (call_id name input : string) (responses_item : option json)
| IFunctionOutput (call_id output : string) (parts : list IrPart) (is_error : bool)
| IReasoning (encrypted summary : option string) (raw : option json)
| IHostedToolCall (kind : string) (raw : json)
| IUnknown (type_name : string) (raw : json).

Inductive IrTool :=
| TFunction (name description : string) (parameters : json) (strict : option bool)
| TNamespace (name : string) (raw : json)
| THosted (kind : string) (raw : json)
| TUnknown (type_name : string) (raw : json)
| TCachePoint (raw : json).

Record IrRequest := mkRequest {
  model : string;
  items : list IrItem;
  tools : list IrTool;
  sampling : IrSampling
}.

Definition request_new (m : string) (l : list IrItem) : IrRequest :=
  mkRequest m l [] sampling_default.
Definition with_tools (r : IrRequest) (l : list IrTool) : IrRequest :=
  mkRequest (model r) (items r) l (sampling r).
Definition with_sampling (r : IrRequest) (s : IrSampling) : IrRequest :=
  mkRequest (model r) (items r) (tools r) s.
Definition request_default : IrRequest := request_new "" [].

(** ** Stream events *)
Inductive IrStreamEvent :=
| TextDelta (text : string)
| RefusalDelta (text : string)
| ReasoningDelta (text : string)
| ReasoningSignature (signature : string)
| ToolCallStart (id name : string) (thought_signature : option string) (index : Z)
| ToolCallArgDelta (delta : string) (index : Z)
| ToolCallEnd
| AnnotationAdded (annotation : json)
| SearchEntryPoint (rendered_content : string)
| AudioDelta (data : string)
| ImageDelta (media_type data : string)
| AudioTranscriptDelta (text : string)
| CustomToolCallStart (id name : string) (index : Z)
| CustomToolCallInputDelta (delta : string) (index : Z)
| Logprobs (content : json) (refusal : option json)
| Created (unix : Z)
| ServiceTier (tier : string)
| Metadata (metadata : list (string * string))
| Moderation (input output : option json)
| Diagnostics (cache_miss_reason : json)
| Container (value : json)
| ContextManagement (value : json)
| StopSequence (text : string)
| Usage (prompt_tokens completion_tokens cache_read_tokens cache_write_tokens reasoning_tokens
         audio_tokens completion_audio_tokens : Z) (inference_geo : option string)
| FinishReason (reason : string) (vendor : option string)
| Protocol (item_type : string) (payload : json)
| UnknownEvent (event : string) (raw : json)
| Done.

#[export] Instance stream_event_eq_dec : EqDecision IrStreamEvent.
Proof. solve_decision. Defined.

(** ** Loss report *)
Inductive LossAction := Preserve | Degrade | Drop | HardErrorLoss.

#[export] Instance loss_action_eq_dec : EqDecision LossAction.
Proof. solve_decision. Defined.

Record LossEvent := mkLoss { loss_path : string; loss_action : LossAction; loss_detail : string }.
Record LossReport := mkReport { loss_events : list LossEvent }.

Definition report_new : LossReport := mkReport [].

Definition record (r : LossReport) (path : string) (action : LossAction) (detail : string) : LossReport :=
  mkReport (loss_events r ++ [mkLoss path action detail]).

Definition lossy (r : LossReport) : list LossEvent :=
  List.filter (fun e => bool_decide (loss_action e <> Preserve)) (loss_events r).

Definition loss_event_fmt (e : LossEvent) : string :=
  match loss_action e with
  | Preserve => "preserve" | Degrade => "degrade" | Drop => "drop" | HardErrorLoss => "harderror"
  end +:+ " " +:+ loss_path e +:+ ": " +:+ loss_detail e.

(** ** Map errors *)

(** [serde_json::Error] is opaque: [Json] carries its text. *)
Inductive MapError :=
| MapJson (error : string)
| HardError (path detail : string)
| Invalid (message : string).

#[export] Instance map_error_eq_dec : EqDecision MapError.
Proof. solve_decision. Defined.

Definition hard (path detail : string) : MapError := HardError path detail.

Definition map_error_fmt (e : MapError) : string :=
  match e with
  | MapJson err => "invalid JSON: " +:+ err
  | HardError path detail => "hard-error at " +:+ path +:+ ": " +:+ detail
  | Invalid m => m
  end.

(** ** Lemmas *)
Lemma lossy_record r path action detail :
  lossy (record r path action detail) =
  lossy r ++ (if decide (action = Preserve) then [] else [mkLoss path action detail]).
Proof.
  unfold lossy, record. cbn. rewrite List.filter_app. f_equal. cbn.
  by destruct action.
Qed.

(** The argument text sent for one index. *)
Definition fragments (i : Z) (evs : list IrStreamEvent) : string :=
  text_concat (omap (fun ev => match ev with
    | ToolCallArgDelta delta index | CustomToolCallInputDelta delta index =>
        if index =? i then Some delta else None
    | _ => None
    end) evs).
