(* ===== verification/ProfileTypes.v ===== *)
(** * ProfileTypes: the profile AST

    crates/wiremux-auth/src/profile/types.rs and error.rs: the enums of a
    profile with their parsers and spellings, the suggestion made for an
    unknown spelling (a case and separator fold, then an edit distance, then
    a unique prefix or suffix), and the resolved records. *)

From S2P Require Import Prelude Text Json.

(** ** Spelling suggestions *)

(** [str::replace(['_', '-'], "")] *)
Fixpoint drop_separators (s : string) : string :=
  match s with
  | EmptyString => EmptyString
  | String a s =>
      if Ascii.eqb a "_" || Ascii.eqb a "-" then drop_separators s else String a (drop_separators s)
  end.

Definition fold_enum_key (s : string) : string := drop_separators (to_ascii_lowercase s).

(** [str::chars]: a character is its lead byte with its continuation bytes. *)
Fixpoint chars_from (cur : string) (s : string) : list string :=
  match s with
  | EmptyString => [cur]
  | String a s =>
      if is_cont a then chars_from (cur +:+ String a "") s else cur :: chars_from (String a "") s
  end.
Definition chars (s : string) : list string :=
  match s with EmptyString => [] | String a s => chars_from (String a "") s end.

(** The inner loop: [pj] is [prev[j]], [prev] starts at [prev[j + 1]] and
    [cj] is [cur[j]]; the cells [cur[j + 1 ..]] are returned. *)
Fixpoint edit_cells (ca : string) (b : list string) (pj : Z) (prev : list Z) (cj : Z) : list Z :=
  match b, prev with
  | cb :: b, pj1 :: prev =>
      let cost := if String.eqb ca cb then 0 else 1 in
      let c := Z.min (Z.min (pj1 + 1) (cj + 1)) (pj + cost) in
      c :: edit_cells ca b pj1 prev c
  | _, _ => []
  end.

(** The outer loop: [i] is the row and [prev] the row before it. *)
Fixpoint edit_rows (i : Z) (a b : list string) (prev : list Z) : list Z :=
  match a with
  | [] => prev
  | ca :: a =>
      match prev with
      | [] => prev
      | p0 :: pt => edit_rows (i + 1) a b ((i + 1) :: edit_cells ca b p0 pt (i + 1))
      end
  end.

(** [(0..=b.len()).collect()] *)
Definition zseq (n : nat) : list Z := map Z.of_nat (seq 0 n).

(** [prev[b.len()]] is the last cell of the row. *)
Definition edit_distance (a b : string) : Z :=
  let a := chars a in
  let b := chars b in
  unwrap_or (edit_rows 0 a b (zseq (S (length b))) !! length b) 0.

(** Loop state of [suggest_kebab]: the best option with its distance, and the
    prefix or suffix matches. *)
Record suggest_state := mkSuggest { best : option (string * Z); prefix : list string }.

Definition suggest_best (opt : string) (dist : Z) (best : option (string * Z)) : option (string * Z) :=
  if (0 <? dist) && (dist <=? 2) then
    match best with
    | None => Some (opt, dist)
    | Some (best_opt, best_dist) =>
        if dist <? best_dist then Some (opt, dist)
        else if (dist =? best_dist) && (slen best_opt <? slen opt) then Some (opt, dist)
        else best
    end
  else best.

Fixpoint suggest_loop (folded : string) (legal : list string) (st : suggest_state) :
  option string + suggest_state :=
  match legal with
  | [] => inr st
  | opt :: legal =>
      let candidate := fold_enum_key opt in
      if String.eqb candidate folded then inl (Some opt)
      else
        let dist := edit_distance folded candidate in
        let best := suggest_best opt dist (best st) in
        let prefix :=
          if starts_with folded candidate || starts_with candidate folded
             || ends_with folded candidate || ends_with candidate folded
          then prefix st ++ [opt] else prefix st in
        suggest_loop folded legal (mkSuggest best prefix)
  end.

Definition suggest_kebab (input : string) (legal : list string) : option string :=
  let folded := fold_enum_key input in
  if is_empty folded then None
  else
    match suggest_loop folded legal (mkSuggest None []) with
    | inl r => r
    | inr st =>
        match best st with
        | Some (opt, _) => Some opt
        | None => match prefix st with [only] => Some only | _ => None end
        end
    end.

Definition unknown_kebab (field got : string) (legal : list string) : string :=
  "unknown " +:+ field +:+ " `" +:+ got +:+ "` (" +:+ str_join "|" legal +:+ ")"
  +:+ match suggest_kebab got legal with
      | Some suggest => "; did you mean `" +:+ suggest +:+ "`"
      | None => ""
      end.

(** ** Errors *)
Definition SCHEMA_VERSION_MAX : Z := 1.

(** An [io::Error] is carried as its text. *)
Inductive ProfileError :=
| PeIo (path source : string)
| PeParse (message : string)
| PeSchemaVersion (found max : Z)
| PeMissingField (field : string)
| PeForbiddenKey (key : string)
| PeInterpolation (field trigger : string)
| PeDisallowedUrl (field url : string)
| PeNativeModule (field : string)
| PeNotFound (id : string) (known : list string).

#[export] Instance profile_error_eq_dec : EqDecision ProfileError.
Proof. solve_decision. Defined.

Definition missing_required_field (field : string) : string :=
  if String.eqb field "schema_version" then
    "missing required field schema_version (set to 1; crate max " +:+ pretty SCHEMA_VERSION_MAX +:+ ")"
  else "missing required field " +:+ field.

Definition not_found_message (id : string) (known : list string) : string :=
  let listed := match known with [] => "(none)" | _ => str_join ", " known end in
  "profile `" +:+ id +:+ "` not found (known: " +:+ listed +:+ ")"
  +:+ match suggest_kebab id known with
      | Some suggest => "; did you mean `" +:+ suggest +:+ "`"
      | None => ""
      end.

(** [Display for ProfileError]; [redact_url_origin] is an argument. *)
Definition profile_error_fmt (redact_url_origin : string -> string) (e : ProfileError) : string :=
  match e with
  | PeIo path source => "failed to read " +:+ path +:+ ": " +:+ source
  | PeParse m => "failed to parse profile: " +:+ m
  | PeSchemaVersion found max =>
      "unknown schema_version " +:+ pretty found +:+ " (crate max " +:+ pretty max
      +:+ "); upgrade wiremux or pin schema_version"
  | PeMissingField f => missing_required_field f
  | PeForbiddenKey k => "refused: forbidden key name `" +:+ k +:+ "`"
  | PeInterpolation f t => "refused: command interpolation in " +:+ f +:+ " (" +:+ t +:+ ")"
  | PeDisallowedUrl f u =>
      "refused: disallowed URL in " +:+ f +:+ ": " +:+ redact_url_origin u
      +:+ " (https, or http only on 127.0.0.1 / localhost / ::1)"
  | PeNativeModule f => "refused: native module path in " +:+ f
  | PeNotFound id known => not_found_message id known +:+ "; a .toml or .json path also works"
  end.

(** ** The enums

    An enum of the profile has a parser, and a spelling: the one [Serialize]
    derives ([rename_all = kebab-case]), or [as_str]. *)
Class KebabEnum (T : Type) := {
  parse : string -> result string T;
  spelling : T -> string
}.

Inductive Wire := ChatCompletions | Messages | Responses | Gemini | Converse.

Definition NAMES : list string :=
  ["chat-completions"; "messages"; "responses"; "gemini"; "converse"].

Definition wire_as_str (w : Wire) : string :=
  match w with
  | ChatCompletions => "chat-completions"
  | Messages => "messages"
  | Responses => "responses"
  | Gemini => "gemini"
  | Converse => "converse"
  end.

Definition wire_parse (s : string) : result string Wire :=
  if String.eqb s "chat-completions" then Ok ChatCompletions
  else if String.eqb s "messages" then Ok Messages
  else if String.eqb s "responses" then Ok Responses
  else if String.eqb s "gemini" then Ok Gemini
  else if String.eqb s "converse" then Ok Converse
  else Err (unknown_kebab "wire" s NAMES).

#[export] Instance wire_enum : KebabEnum Wire := { parse := wire_parse; spelling := wire_as_str }.

#[export] Instance wire_eq_dec : EqDecision Wire.
Proof. solve_decision. Defined.

Definition wire_eqb (a b : Wire) : bool := bool_decide (a = b).

Definition wire_suggest (s : string) : option string := suggest_kebab s NAMES.

Definition default_stream_events (w : Wire) : list string :=
  match w with
  | ChatCompletions =>
      ["chunk";
       "[DONE]"]
  | Messages =>
      ["message_start";
       "content_block_start";
       "content_block_delta";
       "content_block_stop";
       "message_delta";
       "message_stop";
       "ping";
       "error"]
  | Responses =>
      ["response.created";
       "response.in_progress";
       "response.output_item.added";
       "response.content_part.added";
       "response.content_part.done";
       "response.output_text.delta";
       "response.output_text.done";
       "response.reasoning_summary_part.added";
       "response.reasoning_summary_part.done";
       "response.reasoning_summary_text.delta";
       "response.reasoning_summary_text.done";
       "response.reasoning.delta";
       "response.reasoning_text.delta";
       "response.reasoning_text.done";
       "response.refusal.delta";
       "response.refusal.done";
       "response.output_text.annotation.added";
       "response.audio.delta";
       "response.audio.done";
       "response.audio.transcript.delta";
       "response.audio.transcript.done";
       "response.function_call_arguments.delta";
       "response.function_call_arguments.done";
       "response.custom_tool_call_input.delta";
       "response.custom_tool_call_input.done";
       "response.output_item.done";
       "response.completed";
       "response.failed";
       "response.incomplete";
       "error";
       "response.web_search_call.in_progress";
       "response.web_search_call.searching";
       "response.web_search_call.completed";
       "response.file_search_call.in_progress";
       "response.file_search_call.searching";
       "response.file_search_call.completed";
       "response.code_interpreter_call.in_progress";
       "response.code_interpreter_call.interpreting";
       "response.code_interpreter_call.completed";
       "response.image_generation_call.in_progress";
       "response.image_generation_call.generating";
       "response.image_generation_call.completed";
       "response.mcp_call.in_progress";
       "response.mcp_call.completed";
       "response.mcp_call.failed";
       "response.mcp_list_tools.in_progress";
       "response.mcp_list_tools.completed";
       "response.mcp_list_tools.failed"]
  | Gemini =>
      ["chunk"]
  | Converse =>
      ["messageStart";
       "contentBlockStart";
       "contentBlockDelta";
       "contentBlockStop";
       "messageStop";
       "metadata"]
  end.

Definition default_chat_path (w : Wire) : string :=
  match w with
  | ChatCompletions => "/v1/chat/completions"
  | Messages => "/v1/messages"
  | Responses => "/v1/responses"
  | Gemini => "/v1beta/models/{model}:generateContent"
  | Converse => "/model/{model}/converse"
  end.

Inductive AuthScheme := Bearer | XApiKey | Header (name : string) | NoAuth.

Definition default_auth_scheme (w : Wire) : AuthScheme :=
  match w with
  | Messages => XApiKey
  | Gemini => Header "x-goog-api-key"
  | ChatCompletions | Responses | Converse => Bearer
  end.

Definition AUTH_SCHEME_NAMES : list string := ["bearer"; "x-api-key"; "none"; "header:<name>"].

Definition suggest_auth_scheme (s : string) : option string := suggest_kebab s AUTH_SCHEME_NAMES.

Definition auth_scheme_parse (s : string) : result ProfileError AuthScheme :=
  match strip_prefix "header:" s with
  | Some name =>
      if is_empty name then Err (PeParse "auth_scheme header: requires a header name")
      else Ok (Header name)
  | None =>
      if String.eqb s "bearer" then Ok Bearer
      else if String.eqb s "x-api-key" then Ok XApiKey
      else if String.eqb s "none" then Ok NoAuth
      else
        Err (PeParse ("unknown auth_scheme `" +:+ s +:+ "` (bearer|x-api-key|none|header:<name>)"
          +:+ match suggest_auth_scheme s with
              | Some suggest => "; did you mean `" +:+ suggest +:+ "`"
              | None => ""
              end))
  end.

(** [Serialize for AuthScheme] *)
Definition auth_scheme_str (a : AuthScheme) : string :=
  match a with
  | Bearer => "bearer" | XApiKey => "x-api-key"
  | Header name => "header:" +:+ name
  | NoAuth => "none"
  end.

Inductive ListMerge := Union | Replace.

Definition list_merge_str (m : ListMerge) : string :=
  match m with Union => "union" | Replace => "replace" end.

Definition list_merge_parse (s : string) : result string ListMerge :=
  if String.eqb s "union" then Ok Union
  else if String.eqb s "replace" || String.eqb s "verbatim" then Ok Replace
  else Err (unknown_kebab "list_merge" s ["union"; "replace"; "verbatim"]).

#[export] Instance list_merge_enum : KebabEnum ListMerge :=
  { parse := list_merge_parse; spelling := list_merge_str }.

Inductive ToolTypePolicy := Passthrough | FlattenNamespace | PolicyHardError.

Definition tool_type_policy_str (p : ToolTypePolicy) : string :=
  match p with
  | Passthrough => "passthrough" | FlattenNamespace => "flatten-namespace"
  | PolicyHardError => "hard-error"
  end.

Definition tool_type_policy_parse (s : string) : result string ToolTypePolicy :=
  if String.eqb s "passthrough" then Ok Passthrough
  else if String.eqb s "flatten-namespace" then Ok FlattenNamespace
  else if String.eqb s "hard-error" then Ok PolicyHardError
  else Err (unknown_kebab "tool_type_policy" s ["passthrough"; "flatten-namespace"; "hard-error"]).

#[export] Instance tool_type_policy_enum : KebabEnum ToolTypePolicy :=
  { parse := tool_type_policy_parse; spelling := tool_type_policy_str }.

Inductive StreamUnknownPolicy := UnknownHardError | UnknownPassthrough.

Definition stream_unknown_policy_str (p : StreamUnknownPolicy) : string :=
  match p with UnknownHardError => "hard-error" | UnknownPassthrough => "passthrough" end.

Definition stream_unknown_policy_parse (s : string) : result string StreamUnknownPolicy :=
  if String.eqb s "hard-error" then Ok UnknownHardError
  else if String.eqb s "passthrough" then Ok UnknownPassthrough
  else Err (unknown_kebab "stream_unknown_policy" s ["hard-error"; "passthrough"]).

#[export] Instance stream_unknown_policy_enum : KebabEnum StreamUnknownPolicy :=
  { parse := stream_unknown_policy_parse; spelling := stream_unknown_policy_str }.

Inductive TokenRequestFormat := FormatJson | FormatForm.

Definition token_request_format_str (f : TokenRequestFormat) : string :=
  match f with FormatJson => "json" | FormatForm => "form" end.

Definition token_request_format_parse (s : string) : result string TokenRequestFormat :=
  if String.eqb s "json" then Ok FormatJson
  else if String.eqb s "form" then Ok FormatForm
  else Err (unknown_kebab "token_request_format" s ["json"; "form"]).

#[export] Instance token_request_format_enum : KebabEnum TokenRequestFormat :=
  { parse := token_request_format_parse; spelling := token_request_format_str }.

Inductive CredsFormat := JsonPointer | ClaudeCredentials | OidcAuthJson | CopilotHosts.

Definition creds_format_str (f : CredsFormat) : string :=
  match f with
  | JsonPointer => "json-pointer" | ClaudeCredentials => "claude-credentials"
  | OidcAuthJson => "oidc-auth-json" | CopilotHosts => "copilot-hosts"
  end.

Definition creds_format_parse (s : string) : result string CredsFormat :=
  if String.eqb s "json-pointer" then Ok JsonPointer
  else if String.eqb s "claude-credentials" then Ok ClaudeCredentials
  else if String.eqb s "oidc-auth-json" then Ok OidcAuthJson
  else if String.eqb s "copilot-hosts" then Ok CopilotHosts
  else Err (unknown_kebab "creds_format" s
              ["json-pointer"; "claude-credentials"; "oidc-auth-json"; "copilot-hosts"]).

#[export] Instance creds_format_enum : KebabEnum CredsFormat :=
  { parse := creds_format_parse; spelling := creds_format_str }.

Inductive ExpiresUnit := UnitMs | UnitS.

Definition expires_unit_str (u : ExpiresUnit) : string :=
  match u with UnitMs => "ms" | UnitS => "s" end.

Definition expires_unit_parse (s : string) : result string ExpiresUnit :=
  if String.eqb s "ms" then Ok UnitMs
  else if String.eqb s "s" then Ok UnitS
  else Err (unknown_kebab "expires_unit" s ["ms"; "s"]).

#[export] Instance expires_unit_enum : KebabEnum ExpiresUnit :=
  { parse := expires_unit_parse; spelling := expires_unit_str }.

Inductive Login := SetupToken | Pkce | Device | NoLogin.

Definition login_str (l : Login) : string :=
  match l with
  | SetupToken => "setup-token" | Pkce => "pkce" | Device => "device" | NoLogin => "none"
  end.

Definition login_parse (s : string) : result string Login :=
  if String.eqb s "setup-token" then Ok SetupToken
  else if String.eqb s "pkce" then Ok Pkce
  else if String.eqb s "device" then Ok Device
  else if String.eqb s "none" then Ok NoLogin
  else Err (unknown_kebab "login" s ["setup-token"; "pkce"; "device"; "none"]).

#[export] Instance login_enum : KebabEnum Login := { parse := login_parse; spelling := login_str }.

Inductive ToolNameCase := AsIs | Snake | Kebab.

Definition tool_name_case_str (c : ToolNameCase) : string :=
  match c with AsIs => "as-is" | Snake => "snake" | Kebab => "kebab" end.

Definition tool_name_case_parse (s : string) : result string ToolNameCase :=
  if String.eqb s "as-is" then Ok AsIs
  else if String.eqb s "snake" then Ok Snake
  else if String.eqb s "kebab" then Ok Kebab
  else Err (unknown_kebab "tool_name_case" s ["as-is"; "snake"; "kebab"]).

#[export] Instance tool_name_case_enum : KebabEnum ToolNameCase :=
  { parse := tool_name_case_parse; spelling := tool_name_case_str }.

Inductive ForbiddenFieldPolicy := Strip | ForbiddenHardError.

Definition forbidden_field_policy_str (p : ForbiddenFieldPolicy) : string :=
  match p with Strip => "strip" | ForbiddenHardError => "hard-error" end.

Definition forbidden_field_policy_parse (s : string) : result string ForbiddenFieldPolicy :=
  if String.eqb s "strip" then Ok Strip
  else if String.eqb s "hard-error" then Ok ForbiddenHardError
  else Err (unknown_kebab "forbidden_field_policy" s ["strip"; "hard-error"]).

#[export] Instance forbidden_field_policy_enum : KebabEnum ForbiddenFieldPolicy :=
  { parse := forbidden_field_policy_parse; spelling := forbidden_field_policy_str }.

(** ** The records *)
Record Dialect := mkDialect {
  d_wire : option Wire;
  d_stream_events : list string;
  d_list_merge : ListMerge;
  d_tool_type_policy : ToolTypePolicy;
  d_stream_unknown_policy : StreamUnknownPolicy
}.

Record Http := mkHttp {
  h_base_url : option string;
  h_chat_path : option string;
  h_auth_scheme : option AuthScheme;
  h_headers : list (string * string);
  h_header_merge : ListMerge;
  h_aws_service : option string;
  h_aws_region : option string;
  h_gcp_key_env : option string;
  h_read_timeout_secs : option Z
}.

Record TokenResponse := mkTokenResponse {
  tr_access_token_ptr : option string;
  tr_refresh_token_ptr : option string;
  tr_expires_ptr : option string;
  tr_expires_unit : option ExpiresUnit
}.

Record OauthPack := mkOauthPack {
  op_token_url : string;
  op_token_url_fallback : option string;
  op_authorize_url : option string;
  op_authorize_params : list (string * string);
  op_device_auth_url : option string;
  op_client_id : option string;
  op_redirect_uri : option string;
  op_scopes : list string;
  op_list_merge : ListMerge;
  op_pkce : option bool;
  op_refresh_grant : option string;
  op_refresh_body : list (string * string);
  op_token_request_format : option TokenRequestFormat;
  op_token_headers : list (string * string);
  op_creds_path : option string;
  op_creds_format : option CredsFormat;
  op_access_token_ptr : option string;
  op_refresh_token_ptr : option string;
  op_expires_ptr : option string;
  op_expires_unit : option ExpiresUnit;
  op_access_env : option string;
  op_login : option Login;
  op_setup_token_hint : option string;
  op_keychain_service : option string;
  op_keychain_accounts : list string;
  op_token_response : option TokenResponse
}.

Record Fingerprint := mkFingerprint {
  fp_user_agent : option string;
  fp_x_app : option string;
  fp_system_prompt_prefix : option string;
  fp_tool_name_case : option ToolNameCase;
  fp_forbidden_body_fields : list string;
  fp_forbidden_field_policy : ForbiddenFieldPolicy;
  fp_extra_body : list (string * json)
}.

Record Betas := mkBetas { b_values : list string; b_header : string; b_merge : ListMerge }.

Definition betas_default_for (wire : option Wire) (has_oauth : bool) : Betas :=
  let merge := match wire with Some Messages => if has_oauth then Replace else Union | _ => Union end in
  mkBetas [] "anthropic-beta" merge.

Record ResolvedProfile := mkProfile {
  schema_version : Z;
  profile_id : string;
  display_name : option string;
  dialect : Dialect;
  http : Http;
  oauth : option OauthPack;
  access_env : list string;
  fingerprint : option Fingerprint;
  betas : Betas
}.

Record LoadOptions := mkLoadOptions {
  lo_id : option string;
  lo_explicit_file : option string;
  lo_extra_profile_dirs : list string;
  lo_include_shipped : bool;
  lo_include_user_config : bool
}.

Definition load_options_default : LoadOptions := mkLoadOptions None None [] true true.

(** ** The edit distance

    The specification: an edit script turns a list into another by deleting,
    inserting and replacing elements, each at cost one, anywhere in the list. *)
Inductive edit_script : list string -> list string -> Z -> Prop :=
| script_nil : edit_script [] [] 0
| script_keep x : edit_script [x] [x] 0
| script_replace x y : edit_script [x] [y] 1
| script_delete x : edit_script [x] [] 1
| script_insert y : edit_script [] [y] 1
| script_app a b n c d m :
    edit_script a b n -> edit_script c d m -> edit_script (a ++ c) (b ++ d) (n + m).

(** The recurrence on the last elements (the lists are reversed). *)
Definition edit_cost (x y : string) : Z := if String.eqb x y then 0 else 1.

Fixpoint lev (a : list string) : list string -> Z :=
  match a with
  | [] => vlen
  | x :: a' =>
      fix lev_row (b : list string) : Z :=
        match b with
        | [] => 1 + vlen a'
        | y :: b' => Z.min (Z.min (lev a' b + 1) (lev_row b' + 1)) (lev a' b' + edit_cost x y)
        end
  end.

Lemma lev_nil_r a : lev a [] = vlen a.
Proof. destruct a; cbn; [done|]. by rewrite vlen_cons. Qed.

Lemma lev_cons x a y b :
  lev (x :: a) (y :: b) =
  Z.min (Z.min (lev a (y :: b) + 1) (lev (x :: a) b + 1)) (lev a b + edit_cost x y).
Proof. done. Qed.

Arguments lev : simpl never.

Lemma lev_nil_l b : lev [] b = vlen b.
Proof. done. Qed.

Lemma edit_cost_range x y : 0 <= edit_cost x y <= 1.
Proof. unfold edit_cost. case_match; lia. Qed.

Lemma edit_cost_refl x : edit_cost x x = 0.
Proof. unfold edit_cost. by rewrite String.eqb_refl. Qed.

(** The row of distances of [a] to every prefix of a list. *)
Fixpoint lev_prefixes (ra pre b : list string) : list Z :=
  lev ra pre :: match b with [] => [] | y :: b => lev_prefixes ra (y :: pre) b end.

Lemma lev_prefixes_init pre b n :
  vlen pre = Z.of_nat n -> lev_prefixes [] pre b = map Z.of_nat (seq n (S (length b))).
Proof.
  revert pre n. induction b as [|y b IH]; intros pre n H.
  - cbn. by rewrite lev_nil_l, H.
  - cbn [lev_prefixes length]. rewrite lev_nil_l, H, (IH (y :: pre) (S n)); [done|].
    rewrite vlen_cons. lia.
Qed.

Lemma edit_cells_lev ca ra pre b :
  match lev_prefixes ra pre b with
  | [] => False
  | pj :: prev => lev (ca :: ra) pre :: edit_cells ca b pj prev (lev (ca :: ra) pre)
                  = lev_prefixes (ca :: ra) pre b
  end.
Proof.
  revert pre. induction b as [|y b IH]; intros pre; [done|].
  cbn [lev_prefixes]. specialize (IH (y :: pre)).
  destruct b as [|z b]; cbn [lev_prefixes edit_cells] in *; rewrite <- lev_cons; [done|].
  by rewrite <- IH.
Qed.

Lemma edit_rows_lev a b ra :
  edit_rows (vlen ra) a b (lev_prefixes ra [] b) = lev_prefixes (rev a ++ ra) [] b.
Proof.
  revert ra. induction a as [|x a IH]; intros ra; [done|].
  cbn [edit_rows rev].
  pose proof (edit_cells_lev x ra [] b) as H. destruct (lev_prefixes ra [] b) as [|p0 pt]; [done|].
  rewrite lev_nil_r, vlen_cons in H. replace (vlen ra + 1) with (1 + vlen ra) by lia.
  rewrite H, <- vlen_cons with (a := x), IH. by rewrite <- app_assoc.
Qed.

Lemma lev_prefixes_last ra pre b :
  lev_prefixes ra pre b !! length b = Some (lev ra (rev b ++ pre)).
Proof.
  revert pre. induction b as [|y b IH]; intros pre; [done|]. cbn.
  rewrite IH. by rewrite <- app_assoc.
Qed.

Lemma edit_distance_lev a b : edit_distance a b = lev (rev (chars a)) (rev (chars b)).
Proof.
  unfold edit_distance, zseq. cbv zeta.
  rewrite <- (lev_prefixes_init [] (chars b) 0) by done.
  change 0 with (vlen (@nil string)). rewrite edit_rows_lev, !app_nil_r, lev_prefixes_last.
  by rewrite app_nil_r.
Qed.

Lemma lev_script a b : edit_script (rev a) (rev b) (lev a b).
Proof.
  revert b. induction a as [|x a IHa].
  { induction b as [|y b IHb]; [constructor|]. rewrite lev_nil_l, vlen_cons, Z.add_comm in *.
    cbn [rev] in *. apply (script_app [] (rev b) (vlen b) [] [y] 1); [done|constructor]. }
  induction b as [|y b IHb].
  { rewrite lev_nil_r, vlen_cons, Z.add_comm. specialize (IHa []). rewrite lev_nil_r in IHa.
    apply (script_app (rev a) [] (vlen a) [x] [] 1); [done|constructor]. }
  rewrite lev_cons.
  set (d1 := lev a (y :: b)). set (d2 := lev (x :: a) b). set (d3 := lev a b).
  destruct (Z.min_spec (Z.min (d1 + 1) (d2 + 1)) (d3 + edit_cost x y)) as [[_ ->]|[_ ->]].
  - destruct (Z.min_spec (d1 + 1) (d2 + 1)) as [[_ ->]|[_ ->]].
    + rewrite <- (app_nil_r (rev (y :: b))). apply (script_app _ _ _ [x] [] 1); [apply IHa|constructor].
    + rewrite <- (app_nil_r (rev (x :: a))). apply (script_app _ _ _ [] [y] 1); [apply IHb|constructor].
  - apply (script_app _ _ _ [x] [y]); [apply IHa|]. unfold edit_cost.
    destruct (String.eqb x y) eqn:E; [|constructor]. apply String.eqb_eq in E as ->. constructor.
Qed.

(** One more element on either side costs at most one. *)
Lemma lev_cons_l x a b : lev (x :: a) b <= lev a b + 1.
Proof. destruct b; [rewrite !lev_nil_r, vlen_cons; lia|rewrite lev_cons; lia]. Qed.

Lemma lev_cons_r a y b : lev a (y :: b) <= lev a b + 1.
Proof. destruct a; [rewrite !lev_nil_l, vlen_cons; lia|rewrite lev_cons; lia]. Qed.

Lemma lev_cons_both x a y b : lev (x :: a) (y :: b) <= lev a b + edit_cost x y.
Proof. rewrite lev_cons. lia. Qed.

(** Scripts that work on the last element, as the recurrence does. *)
Inductive tail_script : list string -> list string -> Z -> Prop :=
| tail_nil : tail_script [] [] 0
| tail_subst x y a b n : tail_script a b n -> tail_script (x :: a) (y :: b) (n + edit_cost x y)
| tail_delete x a b n : tail_script a b n -> tail_script (x :: a) b (n + 1)
| tail_insert y a b n : tail_script a b n -> tail_script a (y :: b) (n + 1).

Lemma tail_script_app a b n c d m :
  tail_script c d m -> tail_script a b n -> tail_script (c ++ a) (d ++ b) (m + n).
Proof.
  intros H Ha. induction H; cbn; [done|..];
    rewrite <- Z.add_assoc, (Z.add_comm _ n), Z.add_assoc; by constructor.
Qed.

Lemma edit_tail_script a b n :
  edit_script a b n -> exists k, k <= n /\ tail_script (rev a) (rev b) k.
Proof.
  induction 1 as [|x|x y|x|y|a b n c d m _ (k1 & ? & Hk1) _ (k2 & ? & Hk2)].
  - exists 0. split; [lia|constructor].
  - exists (0 + edit_cost x x). split; [rewrite edit_cost_refl; lia|]. do 2 constructor.
  - exists (0 + edit_cost x y). split; [pose proof (edit_cost_range x y); lia|]. do 2 constructor.
  - exists (0 + 1). split; [lia|]. do 2 constructor.
  - exists (0 + 1). split; [lia|]. do 2 constructor.
  - exists (k2 + k1). split; [lia|]. rewrite !rev_app_distr. by apply tail_script_app.
Qed.

Lemma tail_script_lev a b n : tail_script a b n -> lev a b <= n.
Proof.
  induction 1; [done|..].
  - pose proof (lev_cons_both x a y b). lia.
  - pose proof (lev_cons_l x a b). lia.
  - pose proof (lev_cons_r a y b). lia.
Qed.

(** The two-row table of [edit_distance] computes the least cost of an
    edit script between the characters of the strings: there is a script of
    that cost, and no script is cheaper. *)
Theorem edit_distance_least a b :
  edit_script (chars a) (chars b) (edit_distance a b)
  /\ forall n, edit_script (chars a) (chars b) n -> edit_distance a b <= n.
Proof.
  rewrite edit_distance_lev. split.
  - rewrite <- (rev_involutive (chars a)) at 1. rewrite <- (rev_involutive (chars b)) at 1.
    apply lev_script.
  - intros n H. apply edit_tail_script in H as (k & ? & H). apply tail_script_lev in H. lia.
Qed.

(** ** Suggestions *)

(** An option is close to a folded input: a small nonzero distance, or an affix. *)
Definition close_to (folded opt : string) : Prop :=
  let candidate := fold_enum_key opt in
  0 < edit_distance folded candidate <= 2
  \/ starts_with folded candidate || starts_with candidate folded
     || ends_with folded candidate || ends_with candidate folded = true.

Lemma suggest_best_spec opt dist b o n :
  suggest_best opt dist b = Some (o, n) -> b = Some (o, n) \/ (o = opt /\ n = dist /\ 0 < dist <= 2).
Proof.
  unfold suggest_best. destruct ((0 <? dist) && (dist <=? 2)) eqn:E; [|by left].
  assert (0 < dist <= 2) by lia.
  destruct b as [[o' n']|]; repeat case_match; intros [= -> ->]; auto.
Qed.

Record suggest_ok (folded : string) (legal : list string) (st : suggest_state) : Prop := {
  best_ok : forall o n, best st = Some (o, n) -> In o legal /\ close_to folded o;
  prefix_ok : forall o, In o (prefix st) -> In o legal /\ close_to folded o
}.

Lemma suggest_loop_spec folded legal all st :
  suggest_ok folded all st -> incl legal all ->
  match suggest_loop folded legal st with
  | inl r => exists opt, r = Some opt /\ In opt legal /\ fold_enum_key opt = folded
  | inr st' => suggest_ok folded all st' /\ forall opt, In opt legal -> fold_enum_key opt <> folded
  end.
Proof.
  revert st. induction legal as [|opt legal IH]; intros st Hst Hi; [by split|].
  cbn [suggest_loop]. cbv zeta. destruct (String.eqb (fold_enum_key opt) folded) eqn:E.
  { apply String.eqb_eq in E. exists opt. by split; [|split; [left|]]. }
  apply String.eqb_neq in E.
  assert (Ho : In opt all) by (apply Hi; by left).
  match goal with |- context [suggest_loop _ _ ?s] => specialize (IH s) end.
  match type of IH with ?A -> _ => assert (HA : A) end.
  { destruct Hst as [Hb Hp]. split; cbn.
    - intros o n [?|(-> & -> & ?)]%suggest_best_spec; [by eapply Hb|]. split; [done|]. by left.
    - intros o. case_match; [|by apply Hp]. intros [?|[<-|[]]]%in_app_or; [by apply Hp|].
      split; [done|]. by right. }
  specialize (IH HA (fun x Hx => Hi x (or_intror Hx))).
  destruct (suggest_loop _ _ _) as [r|st'].
  - destruct IH as (o & ? & ? & ?). exists o. by split; [|split; [right|]].
  - destruct IH as [? Hn]. split; [done|]. intros o [<-|?]; [done|by apply Hn].
Qed.

Lemma suggest_ok_empty folded legal : suggest_ok folded legal (mkSuggest None []).
Proof. split; [done|by intros o []]. Qed.

(** A suggestion is one of the legal spellings; it is the same key as the
    input up to case and separators whenever a legal spelling is, and is
    otherwise within two edits of the input or one of the two is an affix of
    the other. *)
Theorem suggest_kebab_sound input legal opt :
  suggest_kebab input legal = Some opt ->
  In opt legal
  /\ (fold_enum_key opt = fold_enum_key input
      \/ (forall o, In o legal -> fold_enum_key o <> fold_enum_key input)
         /\ close_to (fold_enum_key input) opt).
Proof.
  unfold suggest_kebab. destruct (is_empty (fold_enum_key input)); [done|].
  pose proof (suggest_loop_spec _ legal legal _ (suggest_ok_empty (fold_enum_key input) legal)
                (incl_refl _)) as H.
  destruct (suggest_loop _ _ _) as [r|st].
  - destruct H as (o & -> & ? & ?). intros [= <-]. auto.
  - destruct H as [[Hb Hp] Hn]. destruct (best st) as [[o n]|].
    + intros [= <-]. destruct (Hb o n eq_refl). auto.
    + destruct (prefix st) as [|o [|]] eqn:E; [done| |done]. intros [= <-].
      destruct (Hp o); [by left|]. auto.
Qed.

(** A misspelling that differs from a legal spelling only in case, dashes
    or underscores is always given a suggestion with the same letters. *)
Theorem suggest_kebab_fold input legal o :
  In o legal -> fold_enum_key o = fold_enum_key input -> is_empty (fold_enum_key input) = false ->
  exists opt, suggest_kebab input legal = Some opt /\ In opt legal
              /\ fold_enum_key opt = fold_enum_key input.
Proof.
  intros Hin Hf Hne. unfold suggest_kebab. rewrite Hne.
  pose proof (suggest_loop_spec _ legal legal _ (suggest_ok_empty (fold_enum_key input) legal)
                (incl_refl _)) as H.
  destruct (suggest_loop _ _ _) as [r|st].
  - destruct H as (opt & -> & ? & ?). by exists opt.
  - destruct H as [_ Hn]. by destruct (Hn o Hin).
Qed.

(** ** Spellings *)

(** The law every enum has: its spelling parses to it. *)
Class KebabLaws (T : Type) `{KebabEnum T} : Prop :=
  parse_spelling : forall x : T, parse (spelling x) = Ok x.

Ltac spelled := intros []; reflexivity.
#[export] Instance wire_laws : KebabLaws Wire. Proof. spelled. Qed.
#[export] Instance list_merge_laws : KebabLaws ListMerge. Proof. spelled. Qed.
#[export] Instance tool_type_policy_laws : KebabLaws ToolTypePolicy. Proof. spelled. Qed.
#[export] Instance stream_unknown_policy_laws : KebabLaws StreamUnknownPolicy. Proof. spelled. Qed.
#[export] Instance token_request_format_laws : KebabLaws TokenRequestFormat. Proof. spelled. Qed.
#[export] Instance creds_format_laws : KebabLaws CredsFormat. Proof. spelled. Qed.
#[export] Instance expires_unit_laws : KebabLaws ExpiresUnit. Proof. spelled. Qed.
#[export] Instance login_laws : KebabLaws Login. Proof. spelled. Qed.
#[export] Instance tool_name_case_laws : KebabLaws ToolNameCase. Proof. spelled. Qed.
#[export] Instance forbidden_field_policy_laws : KebabLaws ForbiddenFieldPolicy. Proof. spelled. Qed.

(** A law-abiding enum spells its values apart. *)
Lemma spelling_inj `{KebabLaws T} (x y : T) : spelling x = spelling y -> x = y.
Proof. intros E. enough (Ok (E := string) x = Ok y) by congruence. by rewrite <- !parse_spelling, E. Qed.

(** [Wire::parse] accepts exactly the catalog spellings, each back to the
    wire that has it, and names the field and the legal values in its error. *)
Theorem wire_parse_spec s :
  (forall w, wire_parse s = Ok w <-> wire_as_str w = s)
  /\ (In s NAMES \/ wire_parse s = Err (unknown_kebab "wire" s NAMES)).
Proof.
  unfold wire_parse. split.
  - intros w. split.
    + repeat case_match; intros [= <-]; cbn; symmetry; by apply String.eqb_eq.
    + intros <-. by destruct w.
  - repeat (case_match eqn:E; [left; apply String.eqb_eq in E as ->; cbn; tauto|clear E]).
    by right.
Qed.

(** [AuthScheme::parse] and the serializer are inverse: a text parses to a
    scheme exactly when the scheme is printed as that text, the header scheme
    with an empty name excepted, which is refused. *)
Theorem auth_scheme_parse_iff s a :
  auth_scheme_parse s = Ok a <-> auth_scheme_str a = s /\ a <> Header "".
Proof.
  unfold auth_scheme_parse. split.
  - destruct (strip_prefix "header:" s) as [name|] eqn:E.
    + apply strip_prefix_Some in E as ->. destruct name as [|c name]; cbn [is_empty]; [done|].
      intros [= <-]. done.
    + repeat case_match; intros [= <-]; split; try done; cbn; symmetry; by apply String.eqb_eq.
  - intros [<- Hne]. destruct a as [| |name|]; try done.
    cbn [auth_scheme_str]. rewrite strip_prefix_app. by destruct name.
Qed.

(** ** Witnesses *)
Lemma edit_script_refl a : edit_script a a 0.
Proof. induction a as [|x a IH]; [constructor|]. exact (script_app [x] [x] 0 a a 0 (script_keep x) IH). Qed.

Lemma edit_distance_least_witness :
  edit_distance "mesages" "messages" = 1 /\ edit_distance "mesages" "messages" <= 0 + (1 + 0).
Proof.
  split; [vm_compute; reflexivity|].
  apply (proj2 (edit_distance_least "mesages" "messages")).
  exact (script_app ["m"; "e"; "s"] ["m"; "e"; "s"] 0 _ _ _ (edit_script_refl _)
           (script_app [] ["s"] 1 ["a"; "g"; "e"; "s"] ["a"; "g"; "e"; "s"] 0
              (script_insert "s") (edit_script_refl _))).
Defined.

Lemma suggest_kebab_sound_witness :
  In "converse" NAMES
  /\ (fold_enum_key "converse" = fold_enum_key "convrse"
      \/ (forall o, In o NAMES -> fold_enum_key o <> fold_enum_key "convrse")
         /\ close_to (fold_enum_key "convrse") "converse").
Proof. apply suggest_kebab_sound. vm_compute. reflexivity. Defined.

Lemma suggest_kebab_fold_witness :
  exists opt, suggest_kebab "Chat_Completions" NAMES = Some opt /\ In opt NAMES
              /\ fold_enum_key opt = fold_enum_key "Chat_Completions".
Proof.
  apply (suggest_kebab_fold "Chat_Completions" NAMES "chat-completions");
    [by left|vm_compute; reflexivity|vm_compute; reflexivity].
Defined.
