(* ===== verification/EnvSubst.v ===== *)
(** * EnvSubst: environment references in a profile document

    crates/wiremux-auth/src/profile/envsubst.rs: one pass over every string of
    a document.  [$VAR], [${VAR}] and [{env:VAR}] are replaced by the value of
    the variable; a variable that is missing or blank unsets the string.  The
    process environment is an argument. *)

From S2P Require Import Prelude Text Json.

(** ** Identifiers *)
Definition ident_start (a : ascii) : bool := is_ascii_alphabetic a || Ascii.eqb a "_".
Definition ident_char (a : ascii) : bool := is_ascii_alphanumeric a || Ascii.eqb a "_".

Fixpoint str_all (p : ascii -> bool) (s : string) : bool :=
  match s with EmptyString => true | String a t => p a && str_all p t end.

Definition is_ident (s : string) : bool :=
  match s with EmptyString => false | String a t => ident_start a && str_all ident_char t end.

(** The longest prefix of characters that satisfy [p]: its length. *)
Fixpoint span_len (p : ascii -> bool) (s : string) : nat :=
  match s with
  | EmptyString => O
  | String a t => if p a then S (span_len p t) else O
  end.

Definition ident_prefix_len (s : string) : nat :=
  match s with
  | EmptyString => O
  | String a _ => if ident_start a then span_len ident_char s else O
  end.

(** [&s[..n]] and [&s[n..]] *)
Fixpoint str_take (n : nat) (s : string) : string :=
  match n, s with S n, String a t => String a (str_take n t) | _, _ => "" end.
Fixpoint str_drop (n : nat) (s : string) : string :=
  match n, s with O, _ => s | S n, String _ t => str_drop n t | S _, EmptyString => "" end.

(** The reference between an opening text that was stripped and the next [}]. *)
Definition braced_ref (open : nat) (rest : string) : option (string * nat) :=
  '(var, _) ← split_once "}" rest;
  if is_ident var then Some (var, (open + String.length var + 1)%nat) else None.

Definition match_env_ref (s : string) : option (string * nat) :=
  match strip_prefix "{env:" s with
  | Some rest => braced_ref (String.length "{env:") rest
  | None =>
      match strip_prefix "${" s with
      | Some rest => braced_ref 2 rest
      | None =>
          match strip_prefix "$" s with
          | Some rest =>
              let len := ident_prefix_len rest in
              if (0 <? len)%nat then Some (str_take len rest, (1 + len)%nat) else None
          | None => None
          end
      end
  end.

(** ** Substitution *)
Inductive Subst := Keep (s : string) | Unset.

Section Env.
Context (env : string -> option string).

(** A variable that is set to something else than white space. *)
Definition env_value (var : string) : option string :=
  opt_filter (fun v => negb (is_empty (trim v))) (env var).

(** The loop of [subst_string]; [s] is [input[i..]].  A turn consumes at least
    one byte, so [length s] turns are enough.  A character that is no
    reference is copied: its continuation bytes start none either, so the
    copy goes byte by byte. *)
Fixpoint subst_loop (fuel : nat) (s out : string) (unset : bool) : string * bool :=
  match fuel, s with
  | S fuel, String a t =>
      match match_env_ref s with
      | Some (var, consumed) =>
          match env_value var with
          | Some v => subst_loop fuel (str_drop consumed s) (out +:+ v) unset
          | None => subst_loop fuel (str_drop consumed s) out true
          end
      | None => subst_loop fuel t (out +:+ String a "") unset
      end
  | _, _ => (out, unset)
  end.

Definition subst_string (input : string) : Subst :=
  let '(out, unset) := subst_loop (String.length input) input "" false in
  if unset then Unset else Keep out.

(** [walk]: a document without the unset values. *)
Fixpoint walk (value : json) : json :=
  match value with
  | JStr s => match subst_string s with Keep s => JStr s | Unset => JNull end
  | JArr arr => JArr (List.filter (fun v => negb (is_null v)) (map walk arr))
  | JObj m =>
      JObj (fold_left (fun out kv =>
              let v := walk kv.2 in if is_null v then out else obj_insert kv.1 v out) m [])
  | other => other
  end.

(** ** Specification: templates

    A text is a sequence of bytes to copy and references; a reference is
    written in one of three styles. *)
Inductive RefStyle := Bare | Braced | EnvBraced.
Inductive piece := Lit (a : ascii) | Ref (style : RefStyle) (var : string).

Definition render_ref (style : RefStyle) (var : string) : string :=
  match style with
  | Bare => "$" +:+ var
  | Braced => "${" +:+ var +:+ "}"
  | EnvBraced => "{env:" +:+ var +:+ "}"
  end.

Fixpoint render (t : list piece) : string :=
  match t with
  | [] => ""
  | Lit a :: t => String a (render t)
  | Ref style var :: t => render_ref style var +:+ render t
  end.

Definition starts_ident (s : string) : bool :=
  match s with EmptyString => false | String a _ => ident_char a end.

(** A copied byte starts no reference; a bare name ends where it can. *)
Fixpoint template_ok (t : list piece) : Prop :=
  match t with
  | [] => True
  | Lit a :: t => match_env_ref (String a (render t)) = None /\ template_ok t
  | Ref style var :: t =>
      is_ident var = true /\ (style = Bare -> starts_ident (render t) = false) /\ template_ok t
  end.

(** The text of a template whose variables are all set. *)
Fixpoint fill (t : list piece) : option string :=
  match t with
  | [] => Some ""
  | Lit a :: t => String a <$> fill t
  | Ref _ var :: t => v ← env_value var; rest ← fill t; Some (v +:+ rest)
  end.

Definition template_value (t : list piece) : Subst :=
  match fill t with Some s => Keep s | None => Unset end.

(** ** Lemmas on slices and identifiers *)
Lemma str_drop_app s t : str_drop (String.length s) (s +:+ t) = t.
Proof. induction s as [|a s IH]; [done|]. rewrite str_app_cons. exact IH. Qed.

Lemma str_take_drop n s : str_take n s +:+ str_drop n s = s.
Proof.
  revert s. induction n as [|n IH]; intros [|a s]; try done. cbn. by rewrite str_app_cons, IH.
Qed.

Lemma str_take_app s t : str_take (String.length s) (s +:+ t) = s.
Proof. induction s as [|a s IH]; [done|]. rewrite str_app_cons. cbn. by rewrite IH. Qed.

Lemma length_app s t : String.length (s +:+ t) = (String.length s + String.length t)%nat.
Proof. induction s as [|a s IH]; [done|]. rewrite str_app_cons. cbn. by rewrite IH. Qed.

Lemma span_len_app p s t :
  str_all p s = true -> match t with EmptyString => True | String a _ => p a = false end ->
  span_len p (s +:+ t) = String.length s.
Proof.
  induction s as [|a s IH]; cbn.
  - rewrite str_app_nil. by destruct t as [|b t]; [|cbn; intros _ ->].
  - intros [Ha Hs]%andb_true_iff Ht. rewrite str_app_cons. cbn. by rewrite Ha, IH.
Qed.

Lemma span_len_spec p s :
  str_all p (str_take (span_len p s) s) = true
  /\ String.length (str_take (span_len p s) s) = span_len p s
  /\ match str_drop (span_len p s) s with EmptyString => True | String a _ => p a = false end.
Proof.
  induction s as [|a s (IH1 & IH2 & IH3)]; [done|]. cbn. destruct (p a) eqn:E; cbn; [|by rewrite E].
  by rewrite E, IH1, IH2.
Qed.

Lemma ident_start_char a : ident_start a = true -> ident_char a = true.
Proof. unfold ident_start, ident_char, is_ascii_alphanumeric. intros [->| ->]%orb_true_iff; by rewrite ?orb_true_r. Qed.

Lemma is_ident_all s : is_ident s = true -> str_all ident_char s = true.
Proof. destruct s as [|a s]; [done|]. cbn. intros [H ->]%andb_true_iff. by rewrite ident_start_char. Qed.

Lemma str_all_no_char p c s : p c = false -> str_all p s = true -> contains_char c s = false.
Proof.
  intros Hc. induction s as [|a s IH]; cbn; [done|]. intros [Ha Hs]%andb_true_iff.
  destruct (Ascii.eqb_spec a c) as [->|]; [congruence|]. by rewrite IH.
Qed.

Lemma ident_prefix_app var rest :
  is_ident var = true -> starts_ident rest = false ->
  ident_prefix_len (var +:+ rest) = String.length var.
Proof.
  intros Hv Hr. pose proof (is_ident_all var Hv) as Ha. destruct var as [|a var]; [done|].
  cbn in Hv. apply andb_true_iff in Hv as [Hs _]. rewrite str_app_cons. unfold ident_prefix_len. rewrite Hs.
  rewrite <- str_app_cons. apply span_len_app; [done|]. by destruct rest.
Qed.

Lemma ident_prefix_spec s :
  (0 < ident_prefix_len s)%nat ->
  is_ident (str_take (ident_prefix_len s) s) = true
  /\ String.length (str_take (ident_prefix_len s) s) = ident_prefix_len s
  /\ starts_ident (str_drop (ident_prefix_len s) s) = false.
Proof.
  destruct s as [|a s]; cbn; [lia|]. destruct (ident_start a) eqn:E; [|lia]. intros _.
  pose proof (span_len_spec ident_char (String a s)) as (H1 & H2 & H3).
  cbn [span_len] in *. rewrite (ident_start_char a E) in *. split; [|split].
  - cbn in *. rewrite E. by rewrite (ident_start_char a E) in H1.
  - exact H2.
  - destruct (str_drop _ _); [done|exact H3].
Qed.

(** ** A reference is recognized exactly where one is written *)
Lemma braced_ref_app open var rest :
  is_ident var = true ->
  braced_ref open (var +:+ "}" +:+ rest) = Some (var, (open + String.length var + 1)%nat).
Proof.
  intros Hv. unfold braced_ref. change ("}" +:+ rest) with (String "}" rest).
  rewrite split_once_app by (by apply (str_all_no_char ident_char), is_ident_all).
  cbn [mbind option_bind]. by rewrite Hv.
Qed.

Lemma braced_ref_inv open rest var n :
  braced_ref open rest = Some (var, n) ->
  is_ident var = true /\ n = (open + String.length var + 1)%nat
  /\ exists tl, rest = var +:+ "}" +:+ tl.
Proof.
  unfold braced_ref. destruct (split_once "}" rest) as [[x y]|] eqn:E; [|done]. cbn [mbind option_bind].
  destruct (is_ident x) eqn:Hx; [|done]. intros [= <- <-].
  apply split_once_Some in E as [-> _]. split; [done|]. split; [done|]. by exists y.
Qed.

Lemma ident_head var : is_ident var = true -> exists a s, var = String a s /\ ident_start a = true.
Proof. destruct var as [|a s]; [done|]. cbn. intros [? _]%andb_true_iff. eauto. Qed.

Lemma match_env_ref_render style var rest :
  is_ident var = true -> (style = Bare -> starts_ident rest = false) ->
  match_env_ref (render_ref style var +:+ rest) = Some (var, String.length (render_ref style var)).
Proof.
  intros Hv Hb. destruct style; cbn [render_ref]; rewrite !str_app_assoc.
  - specialize (Hb eq_refl). destruct (ident_head var Hv) as (a & s & -> & Ha).
    unfold match_env_ref. change (strip_prefix "{env:" ("$" +:+ String a s +:+ rest)) with (@None string). cbn iota.
    assert (E : strip_prefix "${" ("$" +:+ String a s +:+ rest) = None).
    { change (strip_prefix "{" (String a (s +:+ rest)) = None). cbn.
      destruct (Ascii.eqb_spec "{" a) as [<-|]; done. }
    rewrite E. change (strip_prefix "$" ("$" +:+ String a s +:+ rest)) with (Some (String a s +:+ rest)).
    cbv iota. rewrite ident_prefix_app by done.
    change (0 <? String.length (String a s))%nat with true. cbv iota.
    by rewrite str_take_app.
  - unfold match_env_ref. change (strip_prefix "{env:" ("${" +:+ var +:+ "}" +:+ rest)) with (@None string).
    change (strip_prefix "${" ("${" +:+ var +:+ "}" +:+ rest)) with (Some (var +:+ "}" +:+ rest)). cbv iota.
    rewrite braced_ref_app by done. by rewrite !length_app.
  - unfold match_env_ref. change (strip_prefix "{env:" ("{env:" +:+ var +:+ "}" +:+ rest)) with (Some (var +:+ "}" +:+ rest)).
    cbv iota. rewrite braced_ref_app by done. by rewrite !length_app.
Qed.

Lemma match_env_ref_inv s var n :
  match_env_ref s = Some (var, n) ->
  exists style, is_ident var = true /\ n = String.length (render_ref style var)
    /\ s = render_ref style var +:+ str_drop n s
    /\ (style = Bare -> starts_ident (str_drop n s) = false).
Proof.
  assert (B : forall style open, (render_ref style var = open +:+ var +:+ "}") ->
    style <> Bare -> forall rest tl, n = (String.length open + String.length var + 1)%nat ->
    s = open +:+ rest -> rest = var +:+ "}" +:+ tl -> is_ident var = true ->
    exists style, is_ident var = true /\ n = String.length (render_ref style var)
      /\ s = render_ref style var +:+ str_drop n s
      /\ (style = Bare -> starts_ident (str_drop n s) = false)).
  { intros style open Hr Hs rest tl -> -> -> Hv. exists style.
    assert (L : (String.length open + String.length var + 1)%nat = String.length (render_ref style var)).
    { rewrite Hr, !length_app. cbn. lia. }
    assert (E : open +:+ var +:+ "}" +:+ tl = render_ref style var +:+ tl) by (by rewrite Hr, !str_app_assoc).
    rewrite L, E, str_drop_app. done. }
  unfold match_env_ref. destruct (strip_prefix "{env:" s) as [rest|] eqn:E1.
  { intros (Hv & Hn & tl & Ht)%braced_ref_inv. apply strip_prefix_Some in E1.
    by eapply (B EnvBraced "{env:"). }
  destruct (strip_prefix "${" s) as [rest|] eqn:E2.
  { intros (Hv & Hn & tl & Ht)%braced_ref_inv. apply strip_prefix_Some in E2.
    by eapply (B Braced "${"). }
  destruct (strip_prefix "$" s) as [rest|] eqn:E3; [|done]. apply strip_prefix_Some in E3 as ->.
  destruct (Nat.ltb_spec 0 (ident_prefix_len rest)); [|done]. intros [= <- <-].
  destruct (ident_prefix_spec rest) as (Hv & Hl & Hr); [done|]. exists Bare. cbn [render_ref].
  split; [done|]. split; [by rewrite length_app, Hl|].
  change (str_drop (S (ident_prefix_len rest)) ("$" +:+ rest)) with (str_drop (ident_prefix_len rest) rest).
  split; [|done]. by rewrite str_app_assoc, str_take_drop.
Qed.

(** ** The loop computes the value of the template *)
Lemma render_ref_length style var : (1 <= String.length (render_ref style var))%nat.
Proof. destruct style; cbn [render_ref]; rewrite !length_app; cbn [String.length]; lia. Qed.

Lemma render_ref_cons style var rest : exists a s, render_ref style var +:+ rest = String a s.
Proof. destruct style; cbn [render_ref]; rewrite !str_app_assoc; eexists _, _; reflexivity. Qed.

Definition add_fill (out : string) (unset : bool) (t : list piece) : Subst :=
  match fill t with Some s => if unset then Unset else Keep (out +:+ s) | None => Unset end.

Lemma subst_loop_template t fuel out unset :
  template_ok t -> (String.length (render t) <= fuel)%nat ->
  (let '(o, u) := subst_loop fuel (render t) out unset in if u then Unset else Keep o) = add_fill out unset t.
Proof.
  unfold add_fill. revert fuel out unset. induction t as [|[a|style var] t IH]; intros fuel out unset Hok Hf.
  - cbn. rewrite str_app_nil_r. by destruct fuel.
  - destruct Hok as [Hn Hok]. destruct fuel as [|fuel]; [cbn in Hf; lia|].
    cbn [render subst_loop]. rewrite Hn. rewrite IH by (done || cbn in Hf; lia).
    cbn [fill]. destruct (fill t) as [s|]; cbn; [|done]. by rewrite str_app_assoc.
  - destruct Hok as (Hv & Hb & Hok). cbn [render] in *.
    destruct (render_ref_cons style var (render t)) as (a & s & E).
    pose proof (render_ref_length style var) as L. rewrite length_app in Hf.
    destruct fuel as [|fuel]; [lia|]. rewrite E. cbn [subst_loop]. rewrite <- E.
    rewrite match_env_ref_render by done. rewrite str_drop_app. cbn [fill].
    destruct (env_value var) as [v|]; cbn [mbind option_bind]; rewrite IH by (done || lia).
    + destruct (fill t) as [r|]; cbn; [|done]. by rewrite str_app_assoc.
    + by destruct (fill t).
Qed.

Lemma string_length_ind (P : string -> Prop) :
  (forall s, (forall t, (String.length t < String.length s)%nat -> P t) -> P s) -> forall s, P s.
Proof.
  intros step s. remember (String.length s) as n eqn:Hn. revert s Hn.
  induction n as [n IH] using (well_founded_induction lt_wf). intros s ->. apply step.
  intros t Ht. by eapply IH.
Qed.

Lemma every_string_template s : exists t, template_ok t /\ render t = s.
Proof.
  induction s as [s IH] using string_length_ind. destruct (match_env_ref s) as [[var n]|] eqn:E.
  - destruct (match_env_ref_inv _ _ _ E) as (style & Hv & Hn & Hs & Hb).
    destruct (IH (str_drop n s)) as (t & Ht & Hr).
    { pose proof (render_ref_length style var). rewrite Hs at 2. rewrite length_app. lia. }
    exists (Ref style var :: t). cbn [template_ok render]. rewrite Hr. by rewrite <- Hs.
  - destruct s as [|a s]; [by exists []|]. destruct (IH s) as (t & Ht & Hr); [cbn; lia|].
    exists (Lit a :: t). cbn [template_ok render]. by rewrite Hr.
Qed.

Lemma subst_string_template t : template_ok t -> subst_string (render t) = template_value t.
Proof.
  intros Ht. unfold subst_string. pose proof (subst_loop_template t (String.length (render t)) "" false Ht (le_n _)) as H.
  destruct (subst_loop _ _ _ _) as [o u]. rewrite H. unfold add_fill, template_value. by destruct (fill t).
Qed.

(** ** The walk over a document *)
Fixpoint no_null (v : json) : bool :=
  match v with
  | JNull => false
  | JArr l => forallb no_null l
  | JObj m => forallb (fun kv => no_null kv.2) m
  | _ => true
  end.

Definition walk_member (out : list (string * json)) (kv : string * json) : list (string * json) :=
  let v := walk kv.2 in if is_null v then out else obj_insert kv.1 v out.

Lemma walk_obj m : walk (JObj m) = JObj (fold_left walk_member m []).
Proof. reflexivity. Qed.

Lemma obj_insert_In k v m kv : In kv (obj_insert k v m) -> kv = (k, v) \/ In kv m.
Proof.
  induction m as [|[k' v'] m IH]; cbn; [intros [<-|[]]; by left|].
  destruct (String.compare k k'); cbn; intros H; destruct_or?; auto. destruct (IH H); auto.
Qed.

(** The members of a walked object are walked members, and none is null. *)
Lemma walk_members_In m out kv :
  In kv (fold_left walk_member m out) ->
  In kv out \/ exists v, In (kv.1, v) m /\ kv.2 = walk v /\ is_null (walk v) = false.
Proof.
  revert out. induction m as [|[k v] m IH]; intros out; cbn [fold_left]; [by left|].
  intros [H|(v' & H & ? & ?)]%IH; [|right; exists v'; split; [by right|done]].
  unfold walk_member in H. cbn [fst snd] in H. destruct (is_null (walk v)) eqn:E; [by left|].
  apply obj_insert_In in H as [->|H]; [|by left]. right. exists v. split; [by left|done].
Qed.

Lemma walk_no_null v : is_null (walk v) = true \/ no_null (walk v) = true.
Proof.
  induction v as [| | |s|l IH|m IH] using json_ind'; try (by left); try (by right).
  - cbn [walk]. destruct (subst_string s); [by right|by left].
  - right. cbn [walk no_null]. apply forallb_forall. intros x [Hx Hn]%List.filter_In.
    apply in_map_iff in Hx as (y & <- & Hy). rewrite List.Forall_forall in IH.
    destruct (IH y Hy) as [E|E]; [by rewrite E in Hn|done].
  - right. rewrite walk_obj. cbn [no_null]. apply forallb_forall. intros kv [[]|(v & Hv & -> & Hn)]%walk_members_In.
    rewrite List.Forall_forall in IH. destruct (IH _ Hv) as [E|E]; [cbn in E; by rewrite E in Hn|done].
Qed.

Lemma walk_leaf v s : json_leaf (walk v) s -> exists t, json_leaf v t /\ subst_string t = Keep s.
Proof.
  revert s. induction v as [| | |t|l IH|m IH] using json_ind'; intros s; try (cbn [walk]; by inversion 1).
  - cbn [walk]. destruct (subst_string t) as [u|] eqn:E; [|by inversion 1]. inversion 1; subst.
    exists t. split; [constructor|done].
  - cbn [walk]. inversion 1 as [|? x ? Hx Hl|]; subst. apply List.filter_In in Hx as [Hx _].
    apply in_map_iff in Hx as (y & <- & Hy). rewrite List.Forall_forall in IH.
    destruct (IH y Hy s Hl) as (t & ? & ?). exists t. split; [by eapply leaf_arr|done].
  - rewrite walk_obj. inversion 1 as [| |? k x ? Hx Hl]; subst.
    apply walk_members_In in Hx as [[]|(y & Hy & E & _)]. cbn [fst snd] in *. subst x.
    rewrite List.Forall_forall in IH. destruct (IH _ Hy s Hl) as (t & ? & ?).
    exists t. split; [by eapply leaf_obj|done].
Qed.

(** ** Properties *)

(** Every text is a template - bytes to copy and references in the three
    styles - and is replaced by the template's value: each reference by its
    variable, values copied as they are, and the whole text unset when any
    variable is missing or blank. *)
Theorem subst_string_spec :
  (forall s, exists t, template_ok t /\ render t = s)
  /\ forall t, template_ok t -> subst_string (render t) = template_value t.
Proof. split; [apply every_string_template|apply subst_string_template]. Qed.

(** A substituted document holds no null, at any depth, and every text in it
    is the value of a text of the document: an unset text leaves no trace. *)
Theorem walk_unsets v :
  (walk v = JNull \/ no_null (walk v) = true)
  /\ forall s, json_leaf (walk v) s -> exists t, json_leaf v t /\ subst_string t = Keep s.
Proof.
  split; [|apply walk_leaf]. destruct (walk_no_null v) as [E|]; [|by right].
  left. by destruct (walk v).
Qed.

End Env.
