(* ===== verification/Refuse.v ===== *)
(** * Refuse: the scan that keeps a profile document data-only

    crates/wiremux-auth/src/profile/refuse.rs: no key that names code, no
    command interpolation, no native module, and no URL but [https] or [http]
    on the loopback host.  The URL parser is another crate's: an argument that
    gives the scheme and the host of a text that parses. *)

From S2P Require Import Prelude Text Json ProfileTypes.

Definition FORBIDDEN_KEYS : list string :=
  ["fn"; "function"; "js"; "javascript"; "lua"; "script"; "command"; "apply"; "normalize"].

Definition forbidden_key (k : string) : bool := existsb (eq_ignore_ascii_case k) FORBIDDEN_KEYS.

Definition is_hint_path (path : string) : bool :=
  one_of path ["display_name"; "displayName"; "oauth.setup_token_hint"; "oauth.setupTokenHint"].

Definition is_url_field (key : string) : bool :=
  one_of key ["base_url"; "baseUrl"; "token_url"; "tokenUrl"; "token_url_fallback"; "tokenUrlFallback";
    "authorize_url"; "authorizeUrl"; "device_auth_url"; "deviceAuthUrl"; "redirect_uri"; "redirectUri";
    "chat_path"; "chatPath"; "messages_path"; "messagesPath"; "responses_path"; "responsesPath";
    "gemini_path"; "geminiPath"; "converse_path"; "conversePath"].

Definition scheme_of (s : string) : option string :=
  '(scheme, _) ← split_once ":" s;
  if is_empty scheme || negb (forallb is_ascii_alphabetic (bytes_of_str scheme)) then None else Some scheme.

(** What the code reads of a parsed URL. *)
Record Url := mkUrl { url_scheme : string; host_str : option string }.

Definition loopback_host (parsed : Url) : bool :=
  match host_str parsed with
  | None => false
  | Some host =>
      let host := unwrap_or (strip_prefix "[" host ≫= strip_suffix "]") host in
      eq_ignore_ascii_case host "localhost" || eq_ignore_ascii_case host "localhost."
      || String.eqb host "127.0.0.1" || String.eqb host "::1"
  end.

Fixpoint has_dollar_paren (s : string) : bool :=
  match s with
  | String a t =>
      match t with
      | String b u =>
          if Ascii.eqb a "$" && Ascii.eqb b "(" then contains_char ")" u else has_dollar_paren t
      | EmptyString => false
      end
  | EmptyString => false
  end.

Definition refuse_interpolation (s path : string) : result ProfileError unit :=
  let bang := starts_with "!" (trim_start s) in
  let dollar := has_dollar_paren s in
  let backtick := contains_char "`" s in
  let trigger := if bang then Some "!"
                 else if dollar then Some "$(...)"
                 else if backtick && negb (is_hint_path path) then Some "backticks"
                 else None in
  match trigger with Some trigger => Err (PeInterpolation path trigger) | None => Ok tt end.

(** [s.split(['?', '#']).next()] *)
Fixpoint before_query (s : string) : string :=
  match s with
  | EmptyString => ""
  | String a t => if Ascii.eqb a "?" || Ascii.eqb a "#" then "" else String a (before_query t)
  end.

Definition is_native_module_path (s : string) : bool :=
  let path := trim (before_query (trim s)) in
  let lower := to_ascii_lowercase path in
  ends_with ".wasm" lower || ends_with ".dylib" lower || ends_with ".so" lower || ends_with ".dll" lower.

Section Urls.
Context (url_parse : string -> option Url).

Definition is_loopback_http (url : string) : bool :=
  match url_parse (trim url) with
  | None => false
  | Some parsed => eq_ignore_ascii_case (url_scheme parsed) "http" && loopback_host parsed
  end.

Definition check_url (field raw : string) : result ProfileError unit :=
  let s := trim raw in
  match url_parse s with
  | Some parsed =>
      let http := eq_ignore_ascii_case (url_scheme parsed) "http" in
      let allowed := eq_ignore_ascii_case (url_scheme parsed) "https" || (http && loopback_host parsed) in
      if allowed then Ok tt else Err (PeDisallowedUrl field raw)
  | None =>
      match scheme_of s with
      | None => Ok tt
      | Some scheme =>
          let scheme := to_ascii_lowercase scheme in
          let allowed := if String.eqb scheme "https" then true
                         else if String.eqb scheme "http" then is_loopback_http s else false in
          if allowed then Ok tt else Err (PeDisallowedUrl field raw)
      end
  end.

Definition scan_string (s : string) (key : option string) (path : string) : result ProfileError unit :=
  if is_native_module_path s then Err (PeNativeModule path)
  else
    let* _ := if is_url_field (unwrap_or key "") then check_url path s else Ok tt in
    refuse_interpolation s path.

Definition child_path (path k : string) : string := if is_empty path then k else path +:+ "." +:+ k.
Definition element_path (path : string) (i : nat) : string := path +:+ "[" +:+ pretty i +:+ "]".

Fixpoint scan_value (value : json) (key : option string) (path : string) : result ProfileError unit :=
  match value with
  | JObj m =>
      (fix members m :=
         match m with
         | [] => Ok tt
         | (k, v) :: m =>
             if forbidden_key k then Err (PeForbiddenKey k)
             else let* _ := scan_value v (Some k) (child_path path k) in members m
         end) m
  | JArr arr =>
      (fix elements i arr :=
         match arr with
         | [] => Ok tt
         | v :: arr => let* _ := scan_value v key (element_path path i) in elements (S i) arr
         end) O arr
  | JStr s => scan_string s key path
  | _ => Ok tt
  end.

Definition scan (value : json) : result ProfileError unit := scan_value value None "".

(** ** Specification: a data-only document *)

(** The text [s] stands at path [p] of a value, under the nearest key [k]. *)
Inductive text_at : json -> option string -> string -> string -> option string -> string -> Prop :=
| at_text s key path : text_at (JStr s) key path s key path
| at_member m k v key path s key' path' :
    In (k, v) m -> text_at v (Some k) (child_path path k) s key' path' -> text_at (JObj m) key path s key' path'
| at_element arr i v key path s key' path' :
    nth_error arr i = Some v -> text_at v key (element_path path i) s key' path' ->
    text_at (JArr arr) key path s key' path'.

Inductive key_in : json -> string -> Prop :=
| key_here m k v : In (k, v) m -> key_in (JObj m) k
| key_member m k0 v k : In (k0, v) m -> key_in v k -> key_in (JObj m) k
| key_element l v k : In v l -> key_in v k -> key_in (JArr l) k.

(** A URL as the gate means it: [https], [http] to the loopback host, a text
    without a scheme, or an [https] template that does not parse yet. *)
Definition url_allowed (raw : string) : Prop :=
  match url_parse (trim raw) with
  | Some u => eq_ignore_ascii_case (url_scheme u) "https" = true
              \/ eq_ignore_ascii_case (url_scheme u) "http" = true /\ loopback_host u = true
  | None => scheme_of (trim raw) = None
            \/ exists s, scheme_of (trim raw) = Some s /\ to_ascii_lowercase s = "https"
  end.

Definition text_safe (s : string) (key : option string) (path : string) : Prop :=
  is_native_module_path s = false
  /\ (forall k, key = Some k -> is_url_field k = true -> url_allowed s)
  /\ (forall w, trim_start s <> "!" +:+ w)
  /\ (forall x y z, s <> x +:+ "$(" +:+ y +:+ ")" +:+ z)
  /\ ((exists x z, s = x +:+ "`" +:+ z) -> is_hint_path path = true).

(** ** Lemmas on texts *)
Lemma contains_char_iff c s : contains_char c s = true <-> exists x z, s = x +:+ String c z.
Proof.
  split.
  - destruct (split_once c s) as [[x z]|] eqn:E.
    + intros _. apply split_once_Some in E as [-> _]. eauto.
    + apply split_once_None in E. congruence.
  - intros (x & z & ->). rewrite contains_char_app. cbn. by rewrite Ascii.eqb_refl, orb_true_r.
Qed.

Lemma starts_with_iff p s : starts_with p s = true <-> exists w, s = p +:+ w.
Proof.
  unfold starts_with. split.
  - destruct (strip_prefix p s) as [w|] eqn:E; [|done]. intros _. apply strip_prefix_Some in E. eauto.
  - intros (w & ->). by rewrite strip_prefix_app.
Qed.

Lemma has_dollar_paren_iff s :
  has_dollar_paren s = true <-> exists x y z, s = x +:+ "$(" +:+ y +:+ ")" +:+ z.
Proof.
  induction s as [|a s IH]; cbn [has_dollar_paren].
  { split; [done|]. intros ([|? ?] & y & z & H); [discriminate H|]. rewrite str_app_cons in H. done. }
  destruct s as [|b u].
  { split; [done|]. intros ([|? x] & y & z & H); [discriminate H|]. rewrite str_app_cons in H. injection H as -> H.
    by destruct x. }
  destruct (Ascii.eqb a "$" && Ascii.eqb b "(") eqn:E.
  - apply andb_true_iff in E as [->%Ascii.eqb_eq ->%Ascii.eqb_eq]. rewrite contains_char_iff. split.
    + intros (y & z & ->). by exists "", y, z.
    + intros ([|a x] & y & z & H).
      { rewrite str_app_nil in H. change ("$(" +:+ y +:+ ")" +:+ z) with (String "$" (String "(" (y +:+ ")" +:+ z))) in H.
        injection H as ->. by exists y, z. }
      destruct x as [|b x]; [discriminate H|]. rewrite !str_app_cons in H. injection H as <- <- ->.
      exists (x +:+ "$(" +:+ y), z. by rewrite !str_app_assoc.
  - rewrite IH. split.
    + intros (x & y & z & H). exists (String a x), y, z. by rewrite str_app_cons, H.
    + intros ([|a' x] & y & z & H).
      { rewrite str_app_nil in H. change ("$(" +:+ y +:+ ")" +:+ z) with (String "$" (String "(" (y +:+ ")" +:+ z))) in H.
        by injection H as -> -> _. }
      rewrite str_app_cons in H. injection H as <- H. by exists x, y, z.
Qed.

(** ** The scans against their specifications *)
Lemma check_url_iff field raw : check_url field raw = Ok tt <-> url_allowed raw.
Proof.
  unfold check_url, url_allowed. destruct (url_parse (trim raw)) as [u|] eqn:Hu.
  - destruct (eq_ignore_ascii_case (url_scheme u) "https"), (eq_ignore_ascii_case (url_scheme u) "http"),
      (loopback_host u); cbn; intuition discriminate.
  - destruct (scheme_of (trim raw)) as [s|]; [|by split; [left|]].
    unfold is_loopback_http. rewrite trim_idem, Hu.
    destruct (String.eqb_spec (to_ascii_lowercase s) "https") as [E|E].
    + split; [|done]. intros _. right. by exists s.
    + split; [by destruct (String.eqb _ "http")|]. intros [|(s' & [= <-] & ?)]; done.
Qed.

Lemma refuse_interpolation_iff s path :
  refuse_interpolation s path = Ok tt <->
  (forall w, trim_start s <> "!" +:+ w)
  /\ (forall x y z, s <> x +:+ "$(" +:+ y +:+ ")" +:+ z)
  /\ ((exists x z, s = x +:+ "`" +:+ z) -> is_hint_path path = true).
Proof.
  unfold refuse_interpolation. cbv zeta.
  pose proof (starts_with_iff "!" (trim_start s)) as Hb. pose proof (has_dollar_paren_iff s) as Hd.
  pose proof (contains_char_iff "`" s) as Hk.
  destruct (starts_with "!" (trim_start s)).
  { split; [done|]. intros (N & _). destruct (proj1 Hb eq_refl) as [w E]. by destruct (N w). }
  destruct (has_dollar_paren s).
  { split; [done|]. intros (_ & N & _). destruct (proj1 Hd eq_refl) as (x & y & z & E). by destruct (N x y z). }
  assert (A : forall w, trim_start s <> "!" +:+ w) by (intros w E; by discriminate (proj2 Hb (ex_intro _ w E))).
  assert (B : forall x y z, s <> x +:+ "$(" +:+ y +:+ ")" +:+ z).
  { intros x y z E. discriminate (proj2 Hd). by exists x, y, z. }
  destruct (contains_char "`" s); cbn [andb].
  - destruct (is_hint_path path); cbn [negb]; [by repeat split|]. split; [done|].
    intros (_ & _ & N). discriminate N. by apply Hk.
  - split; [|done]. intros _. split; [done|]. split; [done|]. intros E. by apply Hk in E.
Qed.

Lemma scan_string_iff s key path : scan_string s key path = Ok tt <-> text_safe s key path.
Proof.
  unfold scan_string, text_safe. destruct (is_native_module_path s); [by split; [|intros [? _]]|].
  rewrite <- refuse_interpolation_iff.
  assert (U : (if is_url_field (unwrap_or key "") then check_url path s else Ok tt) = Ok tt <->
              forall k, key = Some k -> is_url_field k = true -> url_allowed s).
  { destruct key as [k|]; cbn [unwrap_or].
    - destruct (is_url_field k) eqn:E.
      + rewrite check_url_iff. split; [by intros ? ? [= <-]|]. intros H. by apply (H k).
      + split; [|done]. intros _ ? [= <-]. congruence.
    - by split. }
  destruct (if is_url_field _ then _ else _) as [[]|e]; cbn [rbind].
  - split; [intros H; split; [done|]; split; [by apply U|done]|by intros (_ & _ & H)].
  - split; [done|]. intros (_ & H & _). by apply U in H.
Qed.

(** What the scan of a value under a key and a path decides. *)
Definition scanned (v : json) (key : option string) (path : string) : Prop :=
  (forall k, key_in v k -> forbidden_key k = false)
  /\ forall s key' path', text_at v key path s key' path' -> text_safe s key' path'.

Lemma scan_members_iff m key path :
  Forall (fun kv => forall key path, scan_value kv.2 key path = Ok tt <-> scanned kv.2 key path) m ->
  scan_value (JObj m) key path = Ok tt <->
  Forall (fun kv => forbidden_key kv.1 = false /\ scanned kv.2 (Some kv.1) (child_path path kv.1)) m.
Proof.
  intros Hm. cbn [scan_value]. induction Hm as [|[k v] m Hv Hm IH]; [by split; [constructor|]|].
  rewrite Forall_cons. cbn [fst snd]. rewrite <- Hv, <- IH. cbn [snd].
  destruct (forbidden_key k); [by split; [|intros [[? _] _]]|].
  destruct (scan_value v (Some k) (child_path path k)) as [[]|e]; cbn [rbind].
  - split; [by repeat split|by intros [_ ?]].
  - split; [done|]. by intros [[_ ?] _].
Qed.

Lemma scan_elements_iff arr key path :
  Forall (fun v => forall key path, scan_value v key path = Ok tt <-> scanned v key path) arr ->
  scan_value (JArr arr) key path = Ok tt <->
  forall i v, nth_error arr i = Some v -> scanned v key (element_path path i).
Proof.
  intros Ha. cbn [scan_value].
  assert (G : forall n, (fix elements i arr :=
     match arr with
     | [] => Ok tt
     | v :: arr => let* _ := scan_value v key (element_path path i) in elements (S i) arr
     end) n arr = Ok tt <-> forall i v, nth_error arr i = Some v -> scanned v key (element_path path (n + i))); [|exact (G O)].
  induction Ha as [|v arr Hv Ha IH]; intros n; [by split; [intros _ [|?]|]|].
  specialize (IH (S n)). specialize (Hv key (element_path path n)).
  destruct (scan_value v key (element_path path n)) as [[]|e]; cbn [rbind].
  - rewrite IH. split.
    + intros H [|i] x Hx; [injection Hx as <-; rewrite Nat.add_0_r; by apply Hv|].
      rewrite <- plus_n_Sm. by apply H.
    + intros H i x Hx. specialize (H (S i) x Hx). by rewrite <- plus_n_Sm in H.
  - split; [done|]. intros H. specialize (H O v eq_refl). rewrite Nat.add_0_r in H. by apply Hv in H.
Qed.

Lemma scan_value_iff v key path : scan_value v key path = Ok tt <-> scanned v key path.
Proof.
  revert key path. induction v as [|b|n|s|l IH|m IH] using json_ind'; intros key path.
  1-3: split; [intros _; split; [by inversion 1|by inversion 1]|done].
  - cbn [scan_value]. rewrite scan_string_iff. split; [|intros [_ H]; apply H; constructor].
    intros H. split; [by inversion 1|]. by inversion 1; subst.
  - rewrite scan_elements_iff by done. split.
    + intros H. split.
      * intros k Hk. inversion Hk as [| |? x ? Hx Hk']; subst. apply In_nth_error in Hx as [i Hi].
        by apply (H i x Hi).
      * intros s k' p' Ht. inversion Ht as [| |? i x ? ? ? ? ? Hx Ht']; subst. by apply (H i x Hx).
    + intros [Hk Ht] i x Hx. split; [intros k Hk'; apply Hk; eapply key_element; [by eapply nth_error_In|done]|].
      intros s k' p' Ht'. apply Ht. by eapply at_element.
  - rewrite scan_members_iff by done. rewrite List.Forall_forall. split.
    + intros H. split.
      * intros k Hk. inversion Hk as [? ? x Hx|? k0 x ? Hx Hk'|]; subst; destruct (H _ Hx) as [? [Hin _]]; [done|by apply Hin].
      * intros s k' p' Ht. inversion Ht as [|? k x ? ? ? ? ? Hx Ht'|]; subst.
        destruct (H _ Hx) as [_ [_ Hs]]. by apply Hs.
    + intros [Hk Ht] [k x] Hx. split; [apply Hk; by eapply key_here|].
      split; [intros k' Hk'; apply Hk; by eapply key_member|].
      intros s k' p' Ht'. apply Ht. by eapply at_member.
Qed.

(** ** Properties *)

(** The scan accepts exactly the data-only documents: no key at any depth is
    reserved for code, and every text, at its path, names no native module,
    starts no command, holds no [$(...)], has backticks only in a hint, and
    under a URL key is a URL the gate allows. *)
Theorem scan_accepts_data_only value :
  scan value = Ok tt <->
  (forall k, key_in value k -> forbidden_key k = false)
  /\ (forall s key path, text_at value None "" s key path -> text_safe s key path).
Proof. apply scan_value_iff. Qed.

End Urls.
