(* ===== verification/Profile.v ===== *)
(** * Profile: the layers of a profile document and what they resolve to

    crates/wiremux-auth/src/profile/parse.rs: the raw records of one layer,
    where every field may be absent, the steps from a document to a layer
    (refuse, substitute, refuse again), and [resolve], which turns a merged
    layer into the profile a host uses.  The text formats (TOML, JSON) and the
    derived deserializer are arguments. *)

From S2P Require Import Prelude Text Json ProfileTypes EnvSubst Refuse.

Abbreviation strmap := (list (string * string)) (only parsing).

Inductive RawAccessEnv := One (name : string) | Many (names : list string).

Record RawBetasTable := mkRawBetasTable {
  rb_values : option (list string);
  rb_header : option string;
  rb_merge : option ListMerge
}.

Inductive RawBetasField := BetasList (values : list string) | BetasTable (table : RawBetasTable).

Record RawTokenResponse := mkRawTokenResponse {
  rt_access_token_ptr : option string;
  rt_refresh_token_ptr : option string;
  rt_expires_ptr : option string;
  rt_expires_unit : option ExpiresUnit
}.

Record RawFingerprint := mkRawFingerprint {
  rf_user_agent : option string;
  rf_x_app : option string;
  rf_system_prompt_prefix : option string;
  rf_tool_name_case : option ToolNameCase;
  rf_forbidden_body_fields : option (list string);
  rf_forbidden_field_policy : option ForbiddenFieldPolicy;
  rf_extra_body : option (list (string * json))
}.

Record RawOauth := mkRawOauth {
  ro_token_url : option string;
  ro_token_url_fallback : option string;
  ro_authorize_url : option string;
  ro_authorize_params : option strmap;
  ro_device_auth_url : option string;
  ro_client_id : option string;
  ro_redirect_uri : option string;
  ro_scopes : option (list string);
  ro_list_merge : option ListMerge;
  ro_pkce : option bool;
  ro_refresh_grant : option string;
  ro_refresh_body : option strmap;
  ro_token_request_format : option TokenRequestFormat;
  ro_token_headers : option strmap;
  ro_creds_path : option string;
  ro_creds_format : option CredsFormat;
  ro_access_token_ptr : option string;
  ro_refresh_token_ptr : option string;
  ro_expires_ptr : option string;
  ro_expires_unit : option ExpiresUnit;
  ro_access_env : option string;
  ro_login : option Login;
  ro_setup_token_hint : option string;
  ro_keychain_service : option string;
  ro_keychain_accounts : option (list string);
  ro_token_response : option RawTokenResponse
}.

Record RawProfile := mkRawProfile {
  rp_schema_version : option Z;
  rp_id : option string;
  rp_display_name : option string;
  rp_wire : option Wire;
  rp_stream_events : option (list string);
  rp_list_merge : option ListMerge;
  rp_tool_type_policy : option ToolTypePolicy;
  rp_stream_unknown_policy : option StreamUnknownPolicy;
  rp_base_url : option string;
  rp_chat_path : option string;
  rp_messages_path : option string;
  rp_responses_path : option string;
  rp_gemini_path : option string;
  rp_converse_path : option string;
  rp_auth_scheme : option AuthScheme;
  rp_headers : option strmap;
  rp_header_merge : option ListMerge;
  rp_aws_service : option string;
  rp_aws_region : option string;
  rp_gcp_key_env : option string;
  rp_read_timeout_secs : option Z;
  rp_access_env : option RawAccessEnv;
  rp_oauth : option RawOauth;
  rp_fingerprint : option RawFingerprint;
  rp_betas : option RawBetasField;
  rp_beta_header : option string;
  rp_beta_merge : option ListMerge
}.

(** A layer that sets nothing. *)
Definition raw_empty : RawProfile :=
  mkRawProfile None None None None None None None None None None None None None None None None None
    None None None None None None None None None None.

(** ** Resolving a layer *)
(** [ListMerge::default], the other defaults of the enums. *)
Definition list_merge_default : ListMerge := Union.
Definition tool_type_policy_default : ToolTypePolicy := PolicyHardError.
Definition stream_unknown_policy_default : StreamUnknownPolicy := UnknownHardError.
Definition forbidden_field_policy_default : ForbiddenFieldPolicy := ForbiddenHardError.

Definition nonempty_text (o : option string) : option string := opt_filter (fun s => negb (is_empty s)) o.

Definition effective_chat_path (raw : RawProfile) : option string :=
  match rp_chat_path raw with
  | Some path => Some path
  | None =>
      match rp_wire raw with
      | Some Messages => rp_messages_path raw
      | Some Responses => rp_responses_path raw
      | Some Gemini => rp_gemini_path raw
      | Some Converse => rp_converse_path raw
      | Some ChatCompletions | None => None
      end
  end.

Definition resolve_access_env (raw : option RawAccessEnv) : list string :=
  match raw with
  | None => []
  | Some (One name) => if is_empty name then [] else [name]
  | Some (Many names) => List.filter (fun s => negb (is_empty s)) names
  end.

Definition resolve_token_response (t : RawTokenResponse) : TokenResponse :=
  mkTokenResponse (rt_access_token_ptr t) (rt_refresh_token_ptr t) (rt_expires_ptr t) (rt_expires_unit t).

Definition resolve_oauth (raw : RawOauth) : result ProfileError OauthPack :=
  match nonempty_text (ro_token_url raw) with
  | None => Err (PeMissingField "oauth.token_url")
  | Some token_url =>
      let claude := match ro_creds_format raw with Some ClaudeCredentials => true | _ => false end in
      let default_ptr o p := if claude then opt_or o (Some p) else o in
      let access_token_ptr := default_ptr (ro_access_token_ptr raw) "/claudeAiOauth/accessToken" in
      let refresh_token_ptr := default_ptr (ro_refresh_token_ptr raw) "/claudeAiOauth/refreshToken" in
      let expires_ptr := default_ptr (ro_expires_ptr raw) "/claudeAiOauth/expiresAt" in
      let expires_unit := opt_or (ro_expires_unit raw) (Some (if claude then UnitMs else UnitS)) in
      let pkce := match ro_pkce raw with
                  | Some v => Some v
                  | None => if is_some (ro_authorize_url raw) then Some true else None
                  end in
      Ok (mkOauthPack token_url (ro_token_url_fallback raw) (ro_authorize_url raw)
            (unwrap_or (ro_authorize_params raw) []) (ro_device_auth_url raw) (ro_client_id raw)
            (ro_redirect_uri raw) (unwrap_or (ro_scopes raw) [])
            (unwrap_or (ro_list_merge raw) list_merge_default) pkce
            (opt_or (ro_refresh_grant raw) (Some "refresh_token")) (unwrap_or (ro_refresh_body raw) [])
            (ro_token_request_format raw) (unwrap_or (ro_token_headers raw) []) (ro_creds_path raw)
            (ro_creds_format raw) access_token_ptr refresh_token_ptr expires_ptr expires_unit
            (ro_access_env raw) (ro_login raw) (ro_setup_token_hint raw) (ro_keychain_service raw)
            (unwrap_or (ro_keychain_accounts raw) []) (resolve_token_response <$> ro_token_response raw))
  end.

Definition resolve_fingerprint (raw : RawFingerprint) : Fingerprint :=
  mkFingerprint (rf_user_agent raw) (rf_x_app raw) (rf_system_prompt_prefix raw) (rf_tool_name_case raw)
    (unwrap_or (rf_forbidden_body_fields raw) [])
    (unwrap_or (rf_forbidden_field_policy raw) forbidden_field_policy_default)
    (unwrap_or (rf_extra_body raw) []).

(** The beta values, header and merge policy: a table's entries win over the
    flat keys, and both over the default of the wire. *)
Definition resolve_betas (raw : RawProfile) (wire : option Wire) (has_oauth : bool) : Betas :=
  let betas := betas_default_for wire has_oauth in
  let '(values, header, merge) :=
    match rp_betas raw with
    | Some (BetasList values) => (Some values, None, None)
    | Some (BetasTable t) => (rb_values t, rb_header t, rb_merge t)
    | None => (None, None, None)
    end in
  mkBetas (unwrap_or values (b_values betas))
    (unwrap_or (opt_or header (rp_beta_header raw)) (b_header betas))
    (unwrap_or (opt_or merge (rp_beta_merge raw)) (b_merge betas)).

Definition resolve (raw : RawProfile) : result ProfileError ResolvedProfile :=
  let chat_path := opt_or (effective_chat_path raw) (default_chat_path <$> rp_wire raw) in
  match rp_schema_version raw with
  | None => Err (PeMissingField "schema_version")
  | Some version =>
      if SCHEMA_VERSION_MAX <? version then Err (PeSchemaVersion version SCHEMA_VERSION_MAX)
      else
        match nonempty_text (rp_id raw) with
        | None => Err (PeMissingField "id")
        | Some id =>
            let wire := rp_wire raw in
            let stream_events := match rp_stream_events raw with
                                 | Some events => events
                                 | None => unwrap_or (default_stream_events <$> wire) []
                                 end in
            let* oauth := match rp_oauth raw with
                          | Some o => rmap Some (resolve_oauth o)
                          | None => Ok None
                          end in
            Ok (mkProfile version id (rp_display_name raw)
                  (mkDialect wire stream_events (unwrap_or (rp_list_merge raw) list_merge_default)
                     (unwrap_or (rp_tool_type_policy raw) tool_type_policy_default)
                     (unwrap_or (rp_stream_unknown_policy raw) stream_unknown_policy_default))
                  (mkHttp (rp_base_url raw) chat_path
                     (opt_or (rp_auth_scheme raw) (default_auth_scheme <$> wire))
                     (unwrap_or (rp_headers raw) []) (unwrap_or (rp_header_merge raw) list_merge_default)
                     (nonempty_text (rp_aws_service raw)) (nonempty_text (rp_aws_region raw))
                     (nonempty_text (rp_gcp_key_env raw))
                     (opt_filter (fun s => 0 <? s) (rp_read_timeout_secs raw)))
                  oauth (resolve_access_env (rp_access_env raw))
                  (resolve_fingerprint <$> rp_fingerprint raw)
                  (resolve_betas raw wire (is_some oauth)))
        end
  end.

(** ** From a document to a layer *)
Section Layer.
Context (url_parse : string -> option Url) (env : string -> option string).
(** [serde_json] or [toml], by the path; [serde_json::from_value]; both with
    the error text they format. *)
Context (parse_to_value : string -> option string -> result ProfileError json).
Context (from_value : option string -> json -> result ProfileError RawProfile).

Definition nested_tables : list (string * string) :=
  [("dialect", "set top-level `wire` (chat-completions|messages|responses|gemini|converse)");
   ("http", "set top-level `base_url` and `chat_path`");
   ("auth", "set top-level `auth_scheme` and `access_env`")].

Fixpoint refuse_tables (obj : list (string * json)) (tables : list (string * string)) : result ProfileError unit :=
  match tables with
  | [] => Ok tt
  | (key, hint) :: tables =>
      if is_some_and (obj_get key obj) is_object
      then Err (PeParse ("unknown table `" +:+ key +:+ "`; " +:+ hint))
      else refuse_tables obj tables
  end.

Definition refuse_nested_struct_tables (value : json) : result ProfileError unit :=
  match as_object value with None => Ok tt | Some obj => refuse_tables obj nested_tables end.

Definition parse_layer_text (text : string) (path : option string) : result ProfileError RawProfile :=
  let* value := parse_to_value text path in
  let* _ := scan url_parse value in
  let* _ := refuse_nested_struct_tables value in
  let value := walk env value in
  let* _ := scan url_parse value in
  let* _ := refuse_nested_struct_tables value in
  let* raw := from_value path value in
  match rp_schema_version raw with
  | Some found =>
      if SCHEMA_VERSION_MAX <? found then Err (PeSchemaVersion found SCHEMA_VERSION_MAX) else Ok raw
  | None => Ok raw
  end.

(** [parse_profile_str] *)
Definition parse_profile_str (text : string) : result ProfileError ResolvedProfile :=
  let* raw := parse_layer_text text None in resolve raw.

End Layer.

(** ** Properties *)

(** What every resolved profile satisfies. *)
Record profile_ok (p : ResolvedProfile) : Prop := {
  version_known : schema_version p <= SCHEMA_VERSION_MAX;
  id_set : is_empty (profile_id p) = false;
  aws_service_set : h_aws_service (http p) <> Some "";
  aws_region_set : h_aws_region (http p) <> Some "";
  gcp_key_env_set : h_gcp_key_env (http p) <> Some "";
  timeout_positive : forall t, h_read_timeout_secs (http p) = Some t -> 0 < t;
  access_env_set : ~ In "" (access_env p);
  wire_reachable : d_wire (dialect p) <> None -> h_chat_path (http p) <> None /\ h_auth_scheme (http p) <> None;
  oauth_usable : forall o, oauth p = Some o ->
    is_empty (op_token_url o) = false /\ op_refresh_grant o <> None /\ op_expires_unit o <> None
    /\ (op_authorize_url o <> None -> op_pkce o <> None)
    /\ (op_creds_format o = Some ClaudeCredentials ->
        op_access_token_ptr o <> None /\ op_refresh_token_ptr o <> None /\ op_expires_ptr o <> None)
}.

(** A layer that can be resolved: a known version, an id, and a token URL
    wherever there is an OAuth table. *)
Definition resolvable (raw : RawProfile) : Prop :=
  (exists v, rp_schema_version raw = Some v /\ v <= SCHEMA_VERSION_MAX)
  /\ (exists id, rp_id raw = Some id /\ is_empty id = false)
  /\ (forall o, rp_oauth raw = Some o -> exists url, ro_token_url o = Some url /\ is_empty url = false).

Lemma nonempty_text_Some o s : nonempty_text o = Some s <-> o = Some s /\ is_empty s = false.
Proof.
  unfold nonempty_text. destruct o as [t|]; cbn; [|by split; [|intros []]].
  destruct (is_empty t) eqn:E; cbn; split; [done|intros [[= ->] ?]; congruence| |by intros [[= ->] _]].
  intros [= ->]. done.
Qed.

Lemma nonempty_text_set o : nonempty_text o <> Some "".
Proof. intros H. by apply nonempty_text_Some in H as [_ ?]. Qed.

Lemma opt_or_Some {A} (o : option A) a : opt_or o (Some a) <> None.
Proof. by destruct o. Qed.

Lemma resolve_oauth_ok o :
  match resolve_oauth o with
  | Ok p => exists url, ro_token_url o = Some url /\ is_empty url = false
      /\ is_empty (op_token_url p) = false /\ op_refresh_grant p <> None /\ op_expires_unit p <> None
      /\ (op_authorize_url p <> None -> op_pkce p <> None)
      /\ (op_creds_format p = Some ClaudeCredentials ->
          op_access_token_ptr p <> None /\ op_refresh_token_ptr p <> None /\ op_expires_ptr p <> None)
  | Err e => e = PeMissingField "oauth.token_url" /\ nonempty_text (ro_token_url o) = None
  end.
Proof.
  unfold resolve_oauth. destruct (nonempty_text (ro_token_url o)) as [url|] eqn:E; [|done].
  apply nonempty_text_Some in E as [E1 E2]. exists url. cbn.
  split; [done|]. split; [done|]. split; [done|]. split; [apply opt_or_Some|]. split; [apply opt_or_Some|].
  split; [by destruct (ro_pkce o), (ro_authorize_url o)|]. intros ->. by repeat split; apply opt_or_Some.
Qed.

Lemma access_env_no_blank a : ~ In "" (resolve_access_env a).
Proof.
  destruct a as [[n|ns]|]; cbn; [| |by intros []].
  - destruct (is_empty n) eqn:E; [by intros []|]. by intros [->|[]].
  - intros H. by apply List.filter_In in H as [_ ?].
Qed.

Lemma resolve_facts raw :
  (resolvable raw <-> exists p, resolve raw = Ok p)
  /\ forall p, resolve raw = Ok p -> profile_ok p.
Proof.
  unfold resolvable, resolve. cbv zeta. destruct (rp_schema_version raw) as [v|].
  2:{ split; [|done]. split; [by intros [(? & [=] & _) _]|by intros []]. }
  destruct (Z.ltb_spec SCHEMA_VERSION_MAX v).
  { split; [|done]. split; [intros [(? & [= <-] & ?) _]; lia|by intros []]. }
  destruct (nonempty_text (rp_id raw)) as [id|] eqn:Hid.
  2:{ split; [|done]. split; [|by intros []]. intros (_ & (i & Hi & He) & _).
      assert (nonempty_text (rp_id raw) = Some i) by (by apply nonempty_text_Some). congruence. }
  apply nonempty_text_Some in Hid as [Hid He].
  assert (Ho : (forall o, rp_oauth raw = Some o -> exists url, ro_token_url o = Some url /\ is_empty url = false) <->
    exists oa, (match rp_oauth raw with Some o => rmap Some (resolve_oauth o) | None => Ok None end) = Ok oa).
  { destruct (rp_oauth raw) as [o|]; [|split; [by eauto|done]]. pose proof (resolve_oauth_ok o) as R.
    destruct (resolve_oauth o) as [p|e]; cbn.
    - split; [by eauto|]. intros _ ? [= <-]. destruct R as (url & ? & ? & _). eauto.
    - split; [|by intros []]. intros H'. destruct (H' o eq_refl) as (url & Hu & Hn). destruct R as [_ R].
      assert (nonempty_text (ro_token_url o) = Some url) by (by apply nonempty_text_Some). congruence. }
  destruct (match rp_oauth raw with Some o => _ | None => _ end) as [oa|e] eqn:Hoa; cbn [rbind].
  2:{ split; [|done]. split; [|by intros []]. intros (_ & _ & H'). by apply Ho in H' as []. }
  split; [split; [by eauto|]; intros _; split; [by eauto|]; split; [by eauto|apply Ho; by eauto]|].
  intros p [= <-]. split; cbn; auto using nonempty_text_set, access_env_no_blank.
  - intros t. destruct (rp_read_timeout_secs raw) as [s|]; cbn; [|done].
    destruct (Z.ltb_spec 0 s); [|done]. by intros [= <-].
  - destruct (rp_wire raw) as [w|]; [intros _; by split; apply opt_or_Some|]. by intros [].
  - intros o ->. destruct (rp_oauth raw) as [ro|]; [|done]. pose proof (resolve_oauth_ok ro) as R.
    destruct (resolve_oauth ro) as [p|]; cbn in Hoa; [|done]. injection Hoa as ->.
    destruct R as (_ & _ & _ & R). exact R.
Qed.

Lemma resolve_ok_iff raw : resolvable raw <-> exists p, resolve raw = Ok p.
Proof. apply resolve_facts. Qed.

(** [resolve] accepts exactly the resolvable layers, and what it returns is
    complete: the fields a host relies on are set and none is blank. *)
Theorem resolve_spec raw :
  (resolvable raw <-> exists p, resolve raw = Ok p)
  /\ forall p, resolve raw = Ok p -> profile_ok p.
Proof. apply resolve_facts. Qed.

(** ** The gate in front of a layer *)
Definition data_only (url_parse : string -> option Url) (value : json) : Prop :=
  (forall k, key_in value k -> forbidden_key k = false)
  /\ (forall s key path, text_at value None "" s key path -> text_safe url_parse s key path)
  /\ (forall key, In key (map fst nested_tables) -> is_some_and (get value key) is_object = false).

Lemma refuse_tables_ok obj tables :
  refuse_tables obj tables = Ok tt ->
  forall key, In key (map fst tables) -> is_some_and (obj_get key obj) is_object = false.
Proof.
  induction tables as [|[k h] tables IH]; cbn; [done|].
  destruct (is_some_and (obj_get k obj) is_object) eqn:E; [done|]. intros H key [<-|Hin]; [done|]. by apply IH.
Qed.

Lemma gate_data_only url_parse value :
  scan url_parse value = Ok tt -> refuse_nested_struct_tables value = Ok tt -> data_only url_parse value.
Proof.
  intros Hs Ht. apply scan_value_iff in Hs as [Hk Hl]. split; [done|]. split; [done|].
  intros key Hin. unfold refuse_nested_struct_tables in Ht. destruct value as [| | | | |m]; try done.
  by apply (refuse_tables_ok m nested_tables Ht).
Qed.

(** C38. A layer is read from a document that is data-only as written, and data-only
    again with the environment substituted: no variable brings in a command, a
    native module, a code key or a URL the gate refuses.  Nothing unset is left
    in it, and its version is known. *)
Theorem layer_is_data_only url_parse env parse_to_value from_value text path raw :
  parse_layer_text url_parse env parse_to_value from_value text path = Ok raw ->
  exists document,
    parse_to_value text path = Ok document /\ from_value path (walk env document) = Ok raw
    /\ data_only url_parse document /\ data_only url_parse (walk env document)
    /\ (walk env document = JNull \/ no_null (walk env document) = true)
    /\ (forall v, rp_schema_version raw = Some v -> v <= SCHEMA_VERSION_MAX).
Proof.
  unfold parse_layer_text. destruct (parse_to_value text path) as [doc|e]; [|done]. cbn [rbind].
  destruct (scan url_parse doc) as [[]|e] eqn:S1; [|done]. cbn [rbind].
  destruct (refuse_nested_struct_tables doc) as [[]|e] eqn:T1; [|done]. cbn [rbind]. cbv zeta.
  destruct (scan url_parse (walk env doc)) as [[]|e] eqn:S2; [|done]. cbn [rbind].
  destruct (refuse_nested_struct_tables (walk env doc)) as [[]|e] eqn:T2; [|done]. cbn [rbind].
  destruct (from_value path (walk env doc)) as [r|e] eqn:F; [|done]. cbn [rbind]. intros H.
  assert (E : r = raw /\ forall v, rp_schema_version raw = Some v -> v <= SCHEMA_VERSION_MAX).
  { destruct (rp_schema_version r) as [v|] eqn:V; [|injection H as <-; by rewrite V].
    destruct (Z.ltb_spec SCHEMA_VERSION_MAX v); [done|]. injection H as <-.
    split; [done|]. rewrite V. by intros ? [= <-]. }
  destruct E as [-> Hv]. exists doc. split; [done|]. split; [done|].
  split; [by apply gate_data_only|]. split; [by apply gate_data_only|]. split; [|done].
  destruct (walk_no_null env doc) as [N|]; [|by right]. left. by destruct (walk env doc).
Qed.

(** ** Witnesses *)

(** Parsers for the witnesses: the text is a base URL; a prefix is a scheme. *)
Definition sample_url_parse (s : string) : option Url :=
  match strip_prefix "https://" s with
  | Some host => Some (mkUrl "https" (Some host))
  | None =>
      match strip_prefix "http://" s with
      | Some host => Some (mkUrl "http" (Some host))
      | None => None
      end
  end.

Definition sample_env (var : string) : option string :=
  if String.eqb var "HOST" then Some "api.example" else None.

Definition sample_parse (text : string) (_ : option string) : result ProfileError json :=
  Ok (jobj [("id", JStr "x"); ("base_url", JStr text)]).

Definition sample_from_value (_ : option string) (value : json) : result ProfileError RawProfile :=
  Ok (mkRawProfile (Some 1) (get_str value "id") None None None None None None (get_str value "base_url")
        None None None None None None None None None None None None None None None None None None).

Lemma layer_is_data_only_witness :
  exists document,
    sample_parse "https://{env:HOST}" None = Ok document
    /\ text_safe sample_url_parse "https://api.example" (Some "base_url") "base_url"
    /\ get_str (walk sample_env document) "base_url" = Some "https://api.example".
Proof.
  destruct (layer_is_data_only sample_url_parse sample_env sample_parse sample_from_value
              "https://{env:HOST}" None
              (mkRawProfile (Some 1) (Some "x") None None None None None None (Some "https://api.example")
                 None None None None None None None None None None None None None None None None None None))
    as (doc & Hd & _ & _ & (_ & Ht & _) & _); [vm_compute; reflexivity|].
  injection Hd as <-. eexists. split; [reflexivity|]. split; [|vm_compute; reflexivity].
  apply Ht. apply (at_member _ "base_url" (JStr "https://api.example")); [|constructor].
  vm_compute. auto.
Defined.
