(* ===== verification/Overlay.v ===== *)
(** * Overlay: merging the layers of a profile

    crates/wiremux-auth/src/profile/overlay.rs: a later layer replaces a field
    it sets and keeps one it omits; lists and header maps follow the merge
    policy the layers ask for. *)

From S2P Require Import Prelude Text Json ProfileTypes EnvSubst Refuse Profile.

Definition max_version (a b : option Z) : option Z :=
  match a, b with
  | None, None => None
  | Some x, None | None, Some x => Some x
  | Some x, Some y => Some (Z.max x y)
  end.

(** [a.contains(&item)], then [push]. *)
Definition push_unique (a : list string) (item : string) : list string :=
  if one_of item a then a else a ++ [item].

Definition merge_list (earlier later : option (list string)) (policy : ListMerge) : option (list string) :=
  match earlier, later with
  | None, None => None
  | Some a, None => Some a
  | None, Some b => Some b
  | Some a, Some b =>
      match policy with
      | Union => Some (fold_left push_unique b a)
      | Replace => Some b
      end
  end.

(** [BTreeMap<String, String>] as its bindings, and [insert] and [get]. *)
Fixpoint smap_insert (k v : string) (m : strmap) : strmap :=
  match m with
  | [] => [(k, v)]
  | (k', v') :: m' =>
      match String.compare k k' with
      | Lt => (k, v) :: m
      | Eq => (k, v) :: m'
      | Gt => (k', v') :: smap_insert k v m'
      end
  end.

Fixpoint smap_get (k : string) (m : strmap) : option string :=
  match m with [] => None | (k', v) :: m => if String.eqb k k' then Some v else smap_get k m end.

(** [BTreeMap::extend] *)
Definition smap_extend (a b : strmap) : strmap := fold_left (fun m kv => smap_insert kv.1 kv.2 m) b a.

Definition merge_map (earlier later : option strmap) (policy : ListMerge) : option strmap :=
  match earlier, later with
  | None, None => None
  | Some a, None => Some a
  | None, Some b => Some b
  | Some a, Some b =>
      match policy with
      | Union => Some (smap_extend a b)
      | Replace => Some b
      end
  end.

Definition merge_token_response (earlier later : option RawTokenResponse) : option RawTokenResponse :=
  match earlier, later with
  | None, None => None
  | Some a, None => Some a
  | None, Some b => Some b
  | Some a, Some b =>
      Some (mkRawTokenResponse (opt_or (rt_access_token_ptr b) (rt_access_token_ptr a))
              (opt_or (rt_refresh_token_ptr b) (rt_refresh_token_ptr a))
              (opt_or (rt_expires_ptr b) (rt_expires_ptr a)) (opt_or (rt_expires_unit b) (rt_expires_unit a)))
  end.

Definition merge_oauth (earlier later : option RawOauth) : option RawOauth :=
  match earlier, later with
  | None, None => None
  | Some a, None => Some a
  | None, Some b => Some b
  | Some a, Some b =>
      let list_merge := opt_or (ro_list_merge b) (ro_list_merge a) in
      Some (mkRawOauth
        (opt_or (ro_token_url b) (ro_token_url a))
        (opt_or (ro_token_url_fallback b) (ro_token_url_fallback a))
        (opt_or (ro_authorize_url b) (ro_authorize_url a))
        (opt_or (ro_authorize_params b) (ro_authorize_params a))
        (opt_or (ro_device_auth_url b) (ro_device_auth_url a))
        (opt_or (ro_client_id b) (ro_client_id a))
        (opt_or (ro_redirect_uri b) (ro_redirect_uri a))
        (merge_list (ro_scopes a) (ro_scopes b) (unwrap_or list_merge list_merge_default))
        list_merge
        (opt_or (ro_pkce b) (ro_pkce a))
        (opt_or (ro_refresh_grant b) (ro_refresh_grant a))
        (opt_or (ro_refresh_body b) (ro_refresh_body a))
        (opt_or (ro_token_request_format b) (ro_token_request_format a))
        (opt_or (ro_token_headers b) (ro_token_headers a))
        (opt_or (ro_creds_path b) (ro_creds_path a))
        (opt_or (ro_creds_format b) (ro_creds_format a))
        (opt_or (ro_access_token_ptr b) (ro_access_token_ptr a))
        (opt_or (ro_refresh_token_ptr b) (ro_refresh_token_ptr a))
        (opt_or (ro_expires_ptr b) (ro_expires_ptr a))
        (opt_or (ro_expires_unit b) (ro_expires_unit a))
        (opt_or (ro_access_env b) (ro_access_env a))
        (opt_or (ro_login b) (ro_login a))
        (opt_or (ro_setup_token_hint b) (ro_setup_token_hint a))
        (opt_or (ro_keychain_service b) (ro_keychain_service a))
        (opt_or (ro_keychain_accounts b) (ro_keychain_accounts a))
        (merge_token_response (ro_token_response a) (ro_token_response b)))
  end.

Definition merge_fingerprint (earlier later : option RawFingerprint) : option RawFingerprint :=
  match earlier, later with
  | None, None => None
  | Some a, None => Some a
  | None, Some b => Some b
  | Some a, Some b =>
      Some (mkRawFingerprint
        (opt_or (rf_user_agent b) (rf_user_agent a)) (opt_or (rf_x_app b) (rf_x_app a))
        (opt_or (rf_system_prompt_prefix b) (rf_system_prompt_prefix a))
        (opt_or (rf_tool_name_case b) (rf_tool_name_case a))
        (opt_or (rf_forbidden_body_fields b) (rf_forbidden_body_fields a))
        (opt_or (rf_forbidden_field_policy b) (rf_forbidden_field_policy a))
        (opt_or (rf_extra_body b) (rf_extra_body a)))
  end.

Definition betas_parts (field : option RawBetasField) :
  option (list string) * option string * option ListMerge :=
  match field with
  | None => (None, None, None)
  | Some (BetasList values) => (Some values, None, None)
  | Some (BetasTable table) => (rb_values table, rb_header table, rb_merge table)
  end.

Definition rebuild_betas (values : option (list string)) (header : option string) (merge : option ListMerge) :
  option RawBetasField :=
  if is_none values && is_none header && is_none merge then None
  else Some (BetasTable (mkRawBetasTable values header merge)).

Definition merge (earlier later : RawProfile) : RawProfile :=
  let '(e_values, e_header, e_merge) := betas_parts (rp_betas earlier) in
  let '(l_values, l_header, l_merge) := betas_parts (rp_betas later) in
  let beta_merge := opt_or l_merge e_merge in
  let values := merge_list e_values l_values (unwrap_or beta_merge list_merge_default) in
  let header := opt_or l_header e_header in
  let root_list_merge := opt_or (rp_list_merge later) (rp_list_merge earlier) in
  let header_merge := opt_or (rp_header_merge later) (rp_header_merge earlier) in
  mkRawProfile
    (max_version (rp_schema_version earlier) (rp_schema_version later))
    (opt_or (rp_id later) (rp_id earlier))
    (opt_or (rp_display_name later) (rp_display_name earlier))
    (opt_or (rp_wire later) (rp_wire earlier))
    (merge_list (rp_stream_events earlier) (rp_stream_events later) (unwrap_or root_list_merge list_merge_default))
    root_list_merge
    (opt_or (rp_tool_type_policy later) (rp_tool_type_policy earlier))
    (opt_or (rp_stream_unknown_policy later) (rp_stream_unknown_policy earlier))
    (opt_or (rp_base_url later) (rp_base_url earlier))
    (opt_or (rp_chat_path later) (rp_chat_path earlier))
    (opt_or (rp_messages_path later) (rp_messages_path earlier))
    (opt_or (rp_responses_path later) (rp_responses_path earlier))
    (opt_or (rp_gemini_path later) (rp_gemini_path earlier))
    (opt_or (rp_converse_path later) (rp_converse_path earlier))
    (opt_or (rp_auth_scheme later) (rp_auth_scheme earlier))
    (merge_map (rp_headers earlier) (rp_headers later) (unwrap_or header_merge list_merge_default))
    header_merge
    (opt_or (rp_aws_service later) (rp_aws_service earlier))
    (opt_or (rp_aws_region later) (rp_aws_region earlier))
    (opt_or (rp_gcp_key_env later) (rp_gcp_key_env earlier))
    (opt_or (rp_read_timeout_secs later) (rp_read_timeout_secs earlier))
    (opt_or (rp_access_env later) (rp_access_env earlier))
    (merge_oauth (rp_oauth earlier) (rp_oauth later))
    (merge_fingerprint (rp_fingerprint earlier) (rp_fingerprint later))
    (rebuild_betas values header beta_merge)
    (opt_or (rp_beta_header later) (rp_beta_header earlier))
    (opt_or (rp_beta_merge later) (rp_beta_merge earlier)).

(** ** Layers, in order *)

(** The fold of [load_profile]: the first layer, then each later one merged over it. *)
Definition merge_layer (acc : option RawProfile) (layer : RawProfile) : option RawProfile :=
  Some (match acc with None => layer | Some earlier => merge earlier layer end).

Definition merge_layers (layers : list RawProfile) : option RawProfile := fold_left merge_layer layers None.

(** ** Lemmas *)

(** The setting of the last layer that sets a field. *)
Definition last_of {L A} (f : L -> option A) (layers : list L) : option A :=
  fold_left (fun acc layer => opt_or (f layer) acc) layers None.

(** A field that is merged field-wise. *)
Definition later_wins {A} (f : RawProfile -> option A) : Prop :=
  forall e l, f (merge e l) = opt_or (f l) (f e).

Lemma opt_or_None_r {A} (o : option A) : opt_or o None = o.
Proof. by destruct o. Qed.

Lemma fold_merge_some layers acc r :
  fold_left merge_layer layers (Some acc) = Some r -> r = fold_left merge layers acc.
Proof. revert acc. induction layers as [|l layers IH]; cbn; intros acc; [by intros [= ->]|apply IH]. Qed.

Lemma merge_layers_cons l layers r : merge_layers (l :: layers) = Some r -> r = fold_left merge layers l.
Proof. apply fold_merge_some. Qed.

Lemma fold_last_of {A} (f : RawProfile -> option A) layers acc :
  later_wins f -> f (fold_left merge layers acc) = fold_left (fun o layer => opt_or (f layer) o) layers (f acc).
Proof. intros Hf. revert acc. induction layers as [|l layers IH]; intros acc; [done|]. cbn. by rewrite IH, Hf. Qed.

Lemma merge_layers_last {A} (f : RawProfile -> option A) layers r :
  later_wins f -> merge_layers layers = Some r -> f r = last_of f layers.
Proof.
  intros Hf. destruct layers as [|l layers]; [done|]. intros ->%merge_layers_cons.
  rewrite fold_last_of by done. unfold last_of. cbn. by rewrite opt_or_None_r.
Qed.

Ltac merge_fields :=
  unfold merge; repeat match goal with |- context [betas_parts ?b] => destruct (betas_parts b) as [[? ?] ?] end.

(** *** Lists *)
Lemma push_all_unique_In b a x : In x (fold_left push_unique b a) <-> In x a \/ In x b.
Proof.
  revert a. induction b as [|y b IH]; intros a; cbn; [tauto|]. rewrite IH. unfold push_unique.
  destruct (one_of y a) eqn:E; [apply one_of_In in E|rewrite in_app_iff; cbn]; split; intros H; destruct_or?; subst; auto 6.
Qed.

Lemma push_all_unique_NoDup b a : List.NoDup a -> List.NoDup (fold_left push_unique b a).
Proof.
  revert a. induction b as [|y b IH]; intros a Ha; cbn; [done|]. apply IH. unfold push_unique.
  destruct (one_of y a) eqn:E; [done|]. apply List.NoDup_app; [done|by apply List.NoDup_cons; [intros []|apply List.NoDup_nil]|].
  intros x Hx [->|[]]. apply one_of_In in Hx. congruence.
Qed.

Lemma push_all_unique_prefix b a : exists k, fold_left push_unique b a = a ++ k.
Proof.
  revert a. induction b as [|y b IH]; intros a; cbn; [exists []; by rewrite app_nil_r|].
  destruct (IH (push_unique a y)) as [k ->]. unfold push_unique. destruct (one_of y a); [by exists k|].
  exists (y :: k). by rewrite <- app_assoc.
Qed.

(** *** Header maps *)
Lemma smap_get_insert k k' v m : smap_get k (smap_insert k' v m) = if String.eqb k k' then Some v else smap_get k m.
Proof.
  induction m as [|[k1 v1] m IH]; cbn; [done|]. destruct (String.compare k' k1) eqn:E; cbn.
  - apply String.compare_eq_iff in E as ->. by destruct (String.eqb k k1).
  - done.
  - rewrite IH. destruct (String.eqb_spec k k1) as [->|]; [|done]. destruct (String.eqb_spec k1 k') as [->|]; [|done].
    by rewrite str_compare_refl in E.
Qed.

(** The last value a list of bindings gives a key. *)
Lemma smap_get_extend k b a :
  smap_get k (smap_extend a b) =
  opt_or (fold_left (fun o kv => if String.eqb k kv.1 then Some kv.2 else o) b None) (smap_get k a).
Proof.
  unfold smap_extend. revert a. induction b as [|[k' v] b IH] using rev_ind; intros a; [done|].
  rewrite !fold_left_app. cbn. rewrite smap_get_insert. destruct (String.eqb k k'); [done|]. apply IH.
Qed.

(** Keys strictly increasing: what [smap_insert] keeps, and what a [BTreeMap] is. *)
Fixpoint smap_sorted (m : strmap) : bool :=
  match m with
  | (k, _) :: (((k', _) :: _) as m') =>
      match String.compare k k' with Lt => true | _ => false end && smap_sorted m'
  | _ => true
  end.

Lemma smap_above k m :
  (match m with [] => True | (k', _) :: _ => String.compare k k' = Lt end) -> smap_sorted m = true ->
  smap_get k m = None /\ forall o, fold_left (fun o kv => if String.eqb k kv.1 then Some kv.2 else o) m o = o.
Proof.
  revert k. induction m as [|[k1 v1] m IH]; intros k Hk Hs; [done|]. cbn.
  destruct (String.eqb_spec k k1) as [->|]; [by rewrite str_compare_refl in Hk|].
  apply IH; [|by destruct m as [|[? ?] ?]; [|cbn in Hs; apply andb_true_iff in Hs as [_ ?]]].
  destruct m as [|[k2 v2] m]; [done|]. cbn in Hs. apply andb_true_iff in Hs as [Hs _].
  eapply str_compare_lt_trans; [exact Hk|]. by destruct (String.compare k1 k2).
Qed.

Lemma fold_get k m :
  smap_sorted m = true -> fold_left (fun o kv => if String.eqb k kv.1 then Some kv.2 else o) m None = smap_get k m.
Proof.
  induction m as [|[k1 v1] m IH]; intros Hs; [done|]. cbn.
  assert (Hm : smap_sorted m = true) by (destruct m as [|[? ?] ?]; [done|cbn in Hs; by apply andb_true_iff in Hs as [_ ?]]).
  destruct (String.eqb_spec k k1) as [->|]; [|by apply IH].
  apply smap_above; [|done]. destruct m as [|[k2 v2] m]; [done|]. cbn in Hs.
  by destruct (String.compare k1 k2).
Qed.

Lemma smap_extend_get k a b : smap_sorted b = true -> smap_get k (smap_extend a b) = opt_or (smap_get k b) (smap_get k a).
Proof. intros Hb. by rewrite smap_get_extend, fold_get. Qed.

(** *** Union policies over a stack of layers *)
Definition events_of (p : RawProfile) : list string := unwrap_or (rp_stream_events p) [].
Definition header_of (k : string) (p : RawProfile) : option string := rp_headers p ≫= smap_get k.

(** No layer asks for the lists, or the headers, to be replaced. *)
Definition keeps_lists (p : RawProfile) : Prop := rp_list_merge p <> Some Replace.
Definition keeps_headers (p : RawProfile) : Prop :=
  rp_header_merge p <> Some Replace /\ (forall m, rp_headers p = Some m -> smap_sorted m = true).

Lemma opt_or_not_replace a b :
  a <> Some Replace -> b <> Some Replace -> opt_or b a <> Some Replace.
Proof. by destruct a, b. Qed.

Lemma not_replace_union o : o <> Some Replace -> unwrap_or o list_merge_default = Union.
Proof. by destruct o as [[]|]. Qed.

Lemma merge_list_merge e l : rp_list_merge (merge e l) = opt_or (rp_list_merge l) (rp_list_merge e).
Proof. by merge_fields. Qed.

Lemma merge_header_merge e l : rp_header_merge (merge e l) = opt_or (rp_header_merge l) (rp_header_merge e).
Proof. by merge_fields. Qed.

Lemma merge_events e l x :
  keeps_lists e -> keeps_lists l ->
  In x (events_of (merge e l)) <-> In x (events_of e) \/ In x (events_of l).
Proof.
  intros He Hl.
  assert (E : rp_stream_events (merge e l) = merge_list (rp_stream_events e) (rp_stream_events l) Union).
  { rewrite <- (not_replace_union (opt_or (rp_list_merge l) (rp_list_merge e)) (opt_or_not_replace _ _ He Hl)).
    by merge_fields. }
  unfold events_of. rewrite E.
  destruct (rp_stream_events e) as [a|], (rp_stream_events l) as [b|]; cbn [merge_list unwrap_or];
    [apply push_all_unique_In| | |]; cbn [In]; tauto.
Qed.

Lemma merge_headers e l :
  keeps_headers e -> keeps_headers l -> forall k, header_of k (merge e l) = opt_or (header_of k l) (header_of k e).
Proof.
  intros [He _] [Hl Hs] k.
  assert (E : rp_headers (merge e l) = merge_map (rp_headers e) (rp_headers l) Union).
  { rewrite <- (not_replace_union (opt_or (rp_header_merge l) (rp_header_merge e)) (opt_or_not_replace _ _ He Hl)).
    by merge_fields. }
  unfold header_of. rewrite E. destruct (rp_headers e) as [a|], (rp_headers l) as [b|]; cbn [merge_map mbind option_bind];
    rewrite ?opt_or_None_r; try done.
  apply smap_extend_get. by apply Hs.
Qed.

Lemma fold_merge_events layers acc x :
  keeps_lists acc -> Forall keeps_lists layers ->
  In x (events_of (fold_left merge layers acc)) <-> In x (events_of acc) \/ exists l, In l layers /\ In x (events_of l).
Proof.
  intros Ha Hl. revert acc Ha. induction Hl as [|l layers Hl Hls IH]; intros acc Ha; cbn [fold_left].
  { split; [by left|]. by intros [|(l & [] & _)]. }
  rewrite IH; [|unfold keeps_lists in *; rewrite merge_list_merge; by apply opt_or_not_replace].
  rewrite merge_events by done. split.
  - intros [[|]|(k & ? & ?)]; [by left|right; exists l; split; [by left|done]|right; exists k; split; [by right|done]].
  - intros [|(k & [<-|] & ?)]; [by left; left|by left; right|right; by exists k].
Qed.

Lemma smap_insert_sorted k v m : smap_sorted m = true -> smap_sorted (smap_insert k v m) = true.
Proof.
  induction m as [|[k1 v1] m IH]; intros Hs; [done|]. cbn [smap_insert].
  assert (Hm : smap_sorted m = true) by (destruct m as [|[? ?] ?]; [done|cbn in Hs; by apply andb_true_iff in Hs as [_ ?]]).
  destruct (String.compare k k1) eqn:E.
  - apply String.compare_eq_iff in E as ->. by destruct m as [|[? ?] ?].
  - cbn [smap_sorted]. by rewrite E.
  - specialize (IH Hm). assert (G : String.compare k1 k = Lt) by (by rewrite String.compare_antisym, E).
    destruct m as [|[k2 v2] m]; cbn [smap_insert] in *; [cbn; by rewrite G|].
    destruct (String.compare k k2) eqn:E2; cbn [smap_sorted] in *; [by rewrite G| |].
    + by rewrite G.
    + apply andb_true_iff in Hs as [-> _]. exact IH.
Qed.

Lemma merge_headers_keep e l : keeps_headers e -> keeps_headers l -> keeps_headers (merge e l).
Proof.
  intros [He Hse] [Hl Hsl]. split; [rewrite merge_header_merge; by apply opt_or_not_replace|].
  assert (E : rp_headers (merge e l) = merge_map (rp_headers e) (rp_headers l) Union).
  { rewrite <- (not_replace_union (opt_or (rp_header_merge l) (rp_header_merge e)) (opt_or_not_replace _ _ He Hl)).
    by merge_fields. }
  intros m. rewrite E. destruct (rp_headers e) as [a|], (rp_headers l) as [b|]; cbn [merge_map]; intros [= <-];
    auto. specialize (Hse a eq_refl). clear -Hse. unfold smap_extend. revert a Hse.
  induction b as [|kv b IH]; intros a Ha; [done|]. apply IH. by apply smap_insert_sorted.
Qed.

Lemma fold_merge_headers layers acc k :
  keeps_headers acc -> Forall keeps_headers layers ->
  header_of k (fold_left merge layers acc) = fold_left (fun o layer => opt_or (header_of k layer) o) layers (header_of k acc).
Proof.
  intros Ha Hl. revert acc Ha. induction Hl as [|l layers Hl Hls IH]; intros acc Ha; [done|].
  cbn [fold_left]. rewrite IH by (by apply merge_headers_keep). by rewrite merge_headers.
Qed.

Lemma betas_parts_rebuild v h m : betas_parts (rebuild_betas v h m) = (v, h, m).
Proof. by destruct v, h, m. Qed.

Lemma merge_version e l : rp_schema_version (merge e l) = max_version (rp_schema_version e) (rp_schema_version l).
Proof. by merge_fields. Qed.

Lemma fold_merge_version layers acc v :
  rp_schema_version (fold_left merge layers acc) = Some v ->
  (exists l, In l (acc :: layers) /\ rp_schema_version l = Some v)
  /\ forall l v', In l (acc :: layers) -> rp_schema_version l = Some v' -> v' <= v.
Proof.
  revert acc. induction layers as [|l layers IH]; intros acc; cbn [fold_left].
  { intros E. split; [exists acc; by split; [left|]|]. intros ? v' [<-|[]] E'. rewrite E in E'. injection E' as ->. lia. }
  intros H. apply IH in H as [(k & Hk & Hv) Hmax].
  assert (B : forall k v', k = acc \/ k = l -> rp_schema_version k = Some v' -> v' <= v).
  { intros k' v' Hk' E. assert (G : exists w, rp_schema_version (merge acc l) = Some w /\ v' <= w).
    { rewrite merge_version. destruct Hk' as [-> | ->]; rewrite E; cbn;
        [destruct (rp_schema_version l)|destruct (rp_schema_version acc)]; eexists; (split; [reflexivity|lia]). }
    destruct G as (w & G & ?). specialize (Hmax _ w (or_introl eq_refl) G). lia. }
  split.
  - destruct Hk as [<-|Hk]; [|exists k; by split; [right; right|]].
    rewrite merge_version in Hv. destruct (rp_schema_version acc) as [a|] eqn:Ea, (rp_schema_version l) as [b|] eqn:Eb;
      cbn in Hv; try done; injection Hv as Hv.
    + destruct (Z.max_spec a b) as [[_ E]|[_ E]]; rewrite E in Hv; subst;
        [exists l; by split; [right; left|]|exists acc; by split; [left|]].
    + subst. exists acc. by split; [left|].
    + subst. exists l. by split; [right; left|].
  - intros k' v' [<-|[<-|Hin]] E; [by eapply B; [left|]|by eapply B; [right|]|]. by apply (Hmax k'); [right|].
Qed.

Lemma fold_merge_no_version layers acc :
  rp_schema_version (fold_left merge layers acc) = None ->
  forall k, In k (acc :: layers) -> rp_schema_version k = None.
Proof.
  revert acc. induction layers as [|l layers IH]; intros acc Hv k Hk; cbn in Hv; [by destruct Hk as [<-|[]]|].
  pose proof (IH _ Hv) as A. pose proof (A _ (or_introl eq_refl)) as Hm. rewrite merge_version in Hm.
  destruct (rp_schema_version acc) eqn:Ea, (rp_schema_version l) eqn:El; try done.
  destruct Hk as [<-|[<-|Hk]]; [done|done|]. by apply A; right.
Qed.

(** A field of a nested table is merged field-wise too. *)
Lemma nested_later_wins {T A} (table : RawProfile -> option T) (g : T -> option A) mergeT :
  (forall e l, table (merge e l) = mergeT (table e) (table l)) ->
  (forall e l, mergeT e l ≫= g = opt_or (l ≫= g) (e ≫= g)) ->
  later_wins (fun p => table p ≫= g).
Proof. intros Ht Hg e l. by rewrite Ht, Hg. Qed.

Ltac merged_table := intros [e|] [l|]; cbn; rewrite ?opt_or_None_r; done.
Ltac oauth_field := apply merge_layers_last; [|done];
  apply (nested_later_wins rp_oauth _ merge_oauth); [intros; by merge_fields|merged_table].
Ltac fingerprint_field := apply merge_layers_last; [|done];
  apply (nested_later_wins rp_fingerprint _ merge_fingerprint); [intros; by merge_fields|merged_table].

Lemma oauth_later_wins {A} (g : RawOauth -> option A) :
  (forall e l, merge_oauth e l ≫= g = opt_or (l ≫= g) (e ≫= g)) -> later_wins (fun p => rp_oauth p ≫= g).
Proof. apply nested_later_wins. intros. by merge_fields. Qed.

Lemma token_response_later_wins {A} (g : RawTokenResponse -> option A) :
  (forall e l, merge_token_response e l ≫= g = opt_or (l ≫= g) (e ≫= g)) ->
  later_wins (fun p => (rp_oauth p ≫= ro_token_response) ≫= g).
Proof.
  intros H e l. assert (E : rp_oauth (merge e l) = merge_oauth (rp_oauth e) (rp_oauth l)) by (by merge_fields).
  rewrite E. destruct (rp_oauth e) as [a|], (rp_oauth l) as [b|]; cbn; rewrite ?opt_or_None_r; done.
Qed.

Lemma betas_header_later_wins : later_wins (fun p => (betas_parts (rp_betas p)).1.2).
Proof.
  intros e l. unfold merge. destruct (betas_parts (rp_betas e)) as [[? ?] ?], (betas_parts (rp_betas l)) as [[? ?] ?].
  cbn [rp_betas]. by rewrite betas_parts_rebuild.
Qed.

Lemma betas_merge_later_wins : later_wins (fun p => (betas_parts (rp_betas p)).2).
Proof.
  intros e l. unfold merge. destruct (betas_parts (rp_betas e)) as [[? ?] ?], (betas_parts (rp_betas l)) as [[? ?] ?].
  cbn [rp_betas]. by rewrite betas_parts_rebuild.
Qed.

(** ** Properties *)

Ltac field_wins := apply merge_layers_last; [|done]; intros ? ?; by merge_fields.

(** C39. Whatever the stack of layers, every field but those a merge policy joins (the
    stream events, the headers, the scopes and the beta values) is the setting of the
    last layer that sets it: each such field of the profile, of its oauth table, of
    the token response inside that table, of the fingerprint and of the betas table.
    The schema version is the greatest of the layers, and absent only when no layer
    has one. *)
Theorem layers_last_wins layers r :
  merge_layers layers = Some r ->
  let last {A} (f : RawProfile -> option A) := f r = last_of f layers in
  (last rp_id /\ last rp_display_name /\ last rp_wire /\ last rp_base_url /\ last rp_chat_path
   /\ last rp_messages_path /\ last rp_responses_path /\ last rp_gemini_path /\ last rp_converse_path
   /\ last rp_auth_scheme /\ last rp_aws_service /\ last rp_aws_region /\ last rp_gcp_key_env
   /\ last rp_read_timeout_secs /\ last rp_access_env /\ last rp_list_merge /\ last rp_header_merge
   /\ last rp_tool_type_policy /\ last rp_stream_unknown_policy /\ last rp_beta_header /\ last rp_beta_merge)
  /\ (last (fun p => rp_oauth p ≫= ro_token_url) /\ last (fun p => rp_oauth p ≫= ro_token_url_fallback)
      /\ last (fun p => rp_oauth p ≫= ro_authorize_url) /\ last (fun p => rp_oauth p ≫= ro_authorize_params)
      /\ last (fun p => rp_oauth p ≫= ro_device_auth_url) /\ last (fun p => rp_oauth p ≫= ro_client_id)
      /\ last (fun p => rp_oauth p ≫= ro_redirect_uri) /\ last (fun p => rp_oauth p ≫= ro_list_merge)
      /\ last (fun p => rp_oauth p ≫= ro_pkce) /\ last (fun p => rp_oauth p ≫= ro_refresh_grant)
      /\ last (fun p => rp_oauth p ≫= ro_refresh_body) /\ last (fun p => rp_oauth p ≫= ro_token_request_format)
      /\ last (fun p => rp_oauth p ≫= ro_token_headers) /\ last (fun p => rp_oauth p ≫= ro_creds_path)
      /\ last (fun p => rp_oauth p ≫= ro_creds_format) /\ last (fun p => rp_oauth p ≫= ro_access_token_ptr)
      /\ last (fun p => rp_oauth p ≫= ro_refresh_token_ptr) /\ last (fun p => rp_oauth p ≫= ro_expires_ptr)
      /\ last (fun p => rp_oauth p ≫= ro_expires_unit) /\ last (fun p => rp_oauth p ≫= ro_access_env)
      /\ last (fun p => rp_oauth p ≫= ro_login) /\ last (fun p => rp_oauth p ≫= ro_setup_token_hint)
      /\ last (fun p => rp_oauth p ≫= ro_keychain_service) /\ last (fun p => rp_oauth p ≫= ro_keychain_accounts))
  /\ (last (fun p => (rp_oauth p ≫= ro_token_response) ≫= rt_access_token_ptr)
      /\ last (fun p => (rp_oauth p ≫= ro_token_response) ≫= rt_refresh_token_ptr)
      /\ last (fun p => (rp_oauth p ≫= ro_token_response) ≫= rt_expires_ptr)
      /\ last (fun p => (rp_oauth p ≫= ro_token_response) ≫= rt_expires_unit))
  /\ (last (fun p => rp_fingerprint p ≫= rf_user_agent) /\ last (fun p => rp_fingerprint p ≫= rf_x_app)
      /\ last (fun p => rp_fingerprint p ≫= rf_system_prompt_prefix) /\ last (fun p => rp_fingerprint p ≫= rf_tool_name_case)
      /\ last (fun p => rp_fingerprint p ≫= rf_forbidden_body_fields) /\ last (fun p => rp_fingerprint p ≫= rf_forbidden_field_policy)
      /\ last (fun p => rp_fingerprint p ≫= rf_extra_body))
  /\ (last (fun p => (betas_parts (rp_betas p)).1.2) /\ last (fun p => (betas_parts (rp_betas p)).2))
  /\ (forall v, rp_schema_version r = Some v ->
        (exists l, In l layers /\ rp_schema_version l = Some v)
        /\ forall l v', In l layers -> rp_schema_version l = Some v' -> v' <= v)
  /\ (rp_schema_version r = None -> forall l, In l layers -> rp_schema_version l = None).
Proof.
  intros H last. split_and!; try field_wins; try oauth_field; try fingerprint_field;
    try (apply merge_layers_last; [apply token_response_later_wins; merged_table|done]).
  - by apply merge_layers_last; [apply betas_header_later_wins|].
  - by apply merge_layers_last; [apply betas_merge_later_wins|].
  - intros v Hv. destruct layers as [|l layers]; [done|]. apply merge_layers_cons in H as ->.
    by apply fold_merge_version.
  - intros Hv. destruct layers as [|l layers]; [done|]. apply merge_layers_cons in H as ->.
    by apply fold_merge_no_version.
Qed.

(** Under the union policy nothing of a list or of a header map is lost: the
    stream events are those of any layer, and a header has the value of the
    last layer that names it. *)
Theorem layers_union layers r :
  merge_layers layers = Some r -> Forall keeps_lists layers -> Forall keeps_headers layers ->
  (forall x, In x (events_of r) <-> exists l, In l layers /\ In x (events_of l))
  /\ forall k, header_of k r = last_of (header_of k) layers.
Proof.
  intros H Hl Hh. destruct layers as [|l layers]; [done|]. apply merge_layers_cons in H as ->.
  rewrite Forall_cons in Hl, Hh. destruct Hl as [Hl Hls], Hh as [Hh Hhs]. split.
  - intros x. rewrite fold_merge_events by done. split.
    + intros [|(k & ? & ?)]; [exists l; by split; [left|]|exists k; by split; [right|]].
    + intros (k & [<-|] & ?); [by left|right; by exists k].
  - intros k. rewrite fold_merge_headers by done. unfold last_of. cbn. by rewrite opt_or_None_r.
Qed.

(** ** Merging and resolving *)
Definition with_betas (p : RawProfile) (b : option RawBetasField) : RawProfile :=
  mkRawProfile (rp_schema_version p) (rp_id p) (rp_display_name p) (rp_wire p) (rp_stream_events p)
    (rp_list_merge p) (rp_tool_type_policy p) (rp_stream_unknown_policy p) (rp_base_url p) (rp_chat_path p)
    (rp_messages_path p) (rp_responses_path p) (rp_gemini_path p) (rp_converse_path p) (rp_auth_scheme p)
    (rp_headers p) (rp_header_merge p) (rp_aws_service p) (rp_aws_region p) (rp_gcp_key_env p)
    (rp_read_timeout_secs p) (rp_access_env p) (rp_oauth p) (rp_fingerprint p) b (rp_beta_header p) (rp_beta_merge p).

Lemma resolve_with_betas p b : betas_parts b = betas_parts (rp_betas p) -> resolve (with_betas p b) = resolve p.
Proof.
  intros E.
  assert (R : forall w o, resolve_betas (with_betas p b) w o = resolve_betas p w o).
  { intros w o. unfold resolve_betas. cbn [rp_betas rp_beta_header rp_beta_merge with_betas].
    change (match b with Some (BetasList values) => (Some values, None, None)
            | Some (BetasTable t) => (rb_values t, rb_header t, rb_merge t) | None => (None, None, None) end)
      with (betas_parts b). by rewrite E. }
  unfold resolve, effective_chat_path. cbn [rp_schema_version rp_id rp_display_name rp_wire rp_stream_events
    rp_list_merge rp_tool_type_policy rp_stream_unknown_policy rp_base_url rp_chat_path rp_messages_path
    rp_responses_path rp_gemini_path rp_converse_path rp_auth_scheme rp_headers rp_header_merge rp_aws_service
    rp_aws_region rp_gcp_key_env rp_read_timeout_secs rp_access_env rp_oauth rp_fingerprint with_betas].
  destruct (rp_schema_version p); [|done]. destruct (_ <? _); [done|]. destruct (nonempty_text _); [|done].
  destruct (match rp_oauth p with Some o => _ | None => _ end); cbn [rbind]; [|done]. by rewrite R.
Qed.

Lemma merge_list_None_r o pol : merge_list o None pol = o.
Proof. by destruct o. Qed.

Lemma merge_map_None_r o pol : merge_map o None pol = o.
Proof. by destruct o. Qed.

Lemma merge_empty_r p : merge p raw_empty = with_betas p (rp_betas (merge p raw_empty)).
Proof.
  destruct p. unfold merge, with_betas, raw_empty. cbn. destruct (betas_parts _) as [[? ?] ?]. cbn.
  rewrite merge_list_None_r, merge_map_None_r. f_equal; first [by destruct rp_schema_version | by destruct rp_oauth | by destruct rp_fingerprint].
Qed.

Lemma merge_empty_l p : merge raw_empty p = with_betas p (rp_betas (merge raw_empty p)).
Proof.
  destruct p. unfold merge, with_betas, raw_empty. cbn. destruct (betas_parts _) as [[? ?] ?]. cbn.
  rewrite !opt_or_None_r.
  f_equal; first [by destruct rp_schema_version | by destruct rp_stream_events | by destruct rp_headers
    | by destruct rp_oauth | by destruct rp_fingerprint].
Qed.

Lemma merge_betas_parts e l :
  betas_parts (rp_betas (merge e l)) =
  (merge_list (betas_parts (rp_betas e)).1.1 (betas_parts (rp_betas l)).1.1
     (unwrap_or (opt_or (betas_parts (rp_betas l)).2 (betas_parts (rp_betas e)).2) list_merge_default),
   opt_or (betas_parts (rp_betas l)).1.2 (betas_parts (rp_betas e)).1.2,
   opt_or (betas_parts (rp_betas l)).2 (betas_parts (rp_betas e)).2).
Proof.
  unfold merge. destruct (betas_parts (rp_betas e)) as [[? ?] ?], (betas_parts (rp_betas l)) as [[? ?] ?].
  cbn [rp_betas fst snd]. apply betas_parts_rebuild.
Qed.

(** A layer that sets nothing changes nothing, under or over any other layer. *)
Theorem empty_layer_neutral p :
  resolve (merge p raw_empty) = resolve p /\ resolve (merge raw_empty p) = resolve p.
Proof.
  split; [rewrite merge_empty_r|rewrite merge_empty_l]; apply resolve_with_betas; rewrite merge_betas_parts;
    cbn [rp_betas raw_empty betas_parts fst snd opt_or]; destruct (betas_parts (rp_betas p)) as [[v h] m]; cbn [fst snd];
    rewrite ?opt_or_None_r, ?merge_list_None_r; [done|by destruct v].
Qed.

(** An overlay never breaks a profile that resolves, as long as it does not
    blank the id or the token URL, and brings its own token URL when it adds
    the OAuth table. *)
Theorem overlay_keeps_resolvable e l :
  resolvable e ->
  (forall v, rp_schema_version l = Some v -> v <= SCHEMA_VERSION_MAX) ->
  rp_id l <> Some "" ->
  (forall o, rp_oauth l = Some o ->
     ro_token_url o <> Some "" /\ (rp_oauth e = None -> ro_token_url o <> None)) ->
  resolvable (merge e l) /\ exists p, resolve (merge e l) = Ok p.
Proof.
  intros (Hv & Hid & Ho) Hlv Hlid Hlo.
  assert (B : forall s, Some s <> Some "" -> is_empty s = false) by (by intros []).
  assert (R : resolvable (merge e l)).
  { split; [|split].
    - rewrite merge_version. destruct Hv as (v & -> & ?). destruct (rp_schema_version l) as [w|]; cbn; [|by eauto].
      specialize (Hlv w eq_refl). eexists. split; [reflexivity|]. lia.
    - assert (E : rp_id (merge e l) = opt_or (rp_id l) (rp_id e)) by (by merge_fields). rewrite E.
      destruct (rp_id l) as [i|]; cbn; [|done]. eauto.
    - assert (E : rp_oauth (merge e l) = merge_oauth (rp_oauth e) (rp_oauth l)) by (by merge_fields). rewrite E.
      destruct (rp_oauth e) as [a|], (rp_oauth l) as [b|]; cbn; intros o [= <-]; auto; cbn.
      + destruct (Hlo b eq_refl) as [Hb _]. destruct (ro_token_url b) as [u|]; cbn; [by eauto|by apply Ho].
      + destruct (Hlo b eq_refl) as [Hb Hn]. destruct (ro_token_url b) as [u|]; [by eauto|by destruct (Hn eq_refl)]. }
  split; [done|]. by apply resolve_ok_iff.
Qed.

(** ** Witnesses *)
Definition sample_layer (version : option Z) (id base_url : option string) (events : option (list string))
    (headers : option strmap) (o : option RawOauth) : RawProfile :=
  mkRawProfile version id None None events None None None base_url None None None None None None headers None
    None None None None None o None None None None.

Definition sample_layers : list RawProfile :=
  [sample_layer (Some 0) (Some "x") (Some "https://a.example") (Some ["ping"]) (Some [("accept", "a"); ("x-app", "w")]) None;
   sample_layer (Some 1) None None (Some ["done"; "ping"]) (Some [("accept", "b")]) None].

Definition sample_merged : RawProfile :=
  sample_layer (Some 1) (Some "x") (Some "https://a.example") (Some ["ping"; "done"])
    (Some [("accept", "b"); ("x-app", "w")]) None.

Lemma layers_last_wins_witness :
  rp_base_url sample_merged = last_of rp_base_url sample_layers /\ rp_base_url sample_merged = Some "https://a.example".
Proof.
  split; [|reflexivity].
  apply (layers_last_wins sample_layers sample_merged). vm_compute. reflexivity.
Defined.

Lemma layers_union_witness :
  In "done" (events_of sample_merged) /\ header_of "accept" sample_merged = Some "b".
Proof.
  destruct (layers_union sample_layers sample_merged) as [He Hh].
  - vm_compute; reflexivity.
  - repeat apply List.Forall_cons; try apply List.Forall_nil; unfold keeps_lists; cbn; discriminate.
  - repeat apply List.Forall_cons; try apply List.Forall_nil;
      (split; [cbn; discriminate|]; intros m [= <-]; vm_compute; reflexivity).
  - split; [|rewrite Hh; vm_compute; reflexivity]. apply He. eexists. split; [right; left; reflexivity|].
    vm_compute. auto.
Defined.

Lemma overlay_keeps_resolvable_witness :
  exists p, resolve (merge (sample_layer (Some 0) (Some "x") None None None None)
                           (sample_layer (Some 1) None (Some "https://b.example") None None None)) = Ok p.
Proof.
  apply (overlay_keeps_resolvable (sample_layer (Some 0) (Some "x") None None None None)
           (sample_layer (Some 1) None (Some "https://b.example") None None None)).
  - split; [|split]; [exists 0; split; [reflexivity|vm_compute; discriminate]|by exists "x"|discriminate].
  - intros v [= <-]. vm_compute. discriminate.
  - discriminate.
  - discriminate.
Defined.
