(* ===== verification/Catalog.v ===== *)
(** * Catalog: loading a profile by its id, or for a wire

    crates/wiremux-auth/src/profile/load.rs: the layers of the catalog, the
    fold of the layers that have the id asked for, and the fallbacks of a load
    by wire.  What is read from disk - the files of the user directories, a
    file's layer, its stem, whether a path exists - and the shipped documents
    are arguments, the same for every read of one load. *)

From stdpp Require Import sorting.
From S2P Require Import Prelude Text Json ProfileTypes EnvSubst Refuse Profile Overlay.

Record Layer := mkLayer { l_id : string; l_profile : RawProfile; l_from_shipped : bool }.

(** [BTreeSet<String>] *)
Fixpoint sset_insert (k : string) (s : list string) : list string :=
  match s with
  | [] => [k]
  | k' :: s' =>
      match String.compare k k' with
      | Lt => k :: s
      | Eq => s
      | Gt => k' :: sset_insert k s'
      end
  end.

Definition catalog_id (profile : RawProfile) (stem : option string) : option string :=
  match nonempty_text (rp_id profile) with
  | Some id => Some id
  | None => nonempty_text stem
  end.

Definition minimal_profile_for_wire (wire : Wire) : ResolvedProfile :=
  mkProfile 1 (wire_as_str wire) None
    (mkDialect (Some wire) (default_stream_events wire) list_merge_default PolicyHardError stream_unknown_policy_default)
    (mkHttp None (Some (default_chat_path wire)) (Some (default_auth_scheme wire)) [] list_merge_default None None None None)
    None [] None (betas_default_for (Some wire) false).

Section Load.
Context (env : string -> option string).
Context (documents : list (string * string)).
Context (parse_layer_str : string -> result ProfileError RawProfile).
Context (parse_layer_file : string -> result ProfileError RawProfile).
Context (user_layer_files : LoadOptions -> result ProfileError (list string)).
Context (file_stem : string -> string).

Definition env_flag_true (name : string) : bool :=
  match env name with
  | Some v => one_of (to_ascii_lowercase v) ["1"; "true"; "yes"; "on"]
  | None => false
  end.

Definition include_shipped (opts : LoadOptions) : bool :=
  lo_include_shipped opts && negb (env_flag_true "WIREMUX_NO_SHIPPED_PRESETS").

Fixpoint shipped_layers (docs : list (string * string)) : result ProfileError (list Layer) :=
  match docs with
  | [] => Ok []
  | (id, document) :: docs =>
      let* profile := parse_layer_str document in
      let* layers := shipped_layers docs in
      Ok (if is_some (catalog_id profile None) then mkLayer id profile true :: layers else layers)
  end.

Definition push_layer (path : string) : result ProfileError (list Layer) :=
  let* profile := parse_layer_file path in
  Ok (match catalog_id profile (Some (file_stem path)) with
      | Some id => [mkLayer id profile false]
      | None => []
      end).

Fixpoint push_layers (paths : list string) : result ProfileError (list Layer) :=
  match paths with
  | [] => Ok []
  | path :: paths => let* l := push_layer path in let* ls := push_layers paths in Ok (l ++ ls)
  end.

Definition collect_layers (opts : LoadOptions) : result ProfileError (list Layer) :=
  let* shipped := if include_shipped opts then shipped_layers documents else Ok [] in
  let* files := user_layer_files opts in
  let* user := push_layers files in
  let* explicit := match lo_explicit_file opts with Some path => push_layer path | None => Ok [] end in
  Ok (shipped ++ user ++ explicit).

Definition list_profiles (opts : LoadOptions) : result ProfileError (list string) :=
  let* layers := collect_layers opts in
  Ok (fold_left (fun ids layer => sset_insert (l_id layer) ids) layers []).

(** One turn of the loop of [load_profile]: the known ids and the merged layer. *)
Definition load_layer (id : string) (st : list string * option RawProfile) (layer : Layer) :
  list string * option RawProfile :=
  let '(known, acc) := st in
  let known := sset_insert (l_id layer) known in
  if negb (String.eqb (l_id layer) id) then (known, acc)
  else (known, Some (match acc with None => l_profile layer | Some earlier => merge earlier (l_profile layer) end)).

Definition load_profile (id : string) (opts : LoadOptions) : result ProfileError ResolvedProfile :=
  let* layers := collect_layers opts in
  match fold_left (load_layer id) layers ([], None) with
  | (_, Some raw) => resolve raw
  | (known, None) => Err (PeNotFound id known)
  end.

Definition unique_non_shipped_layer_ids (opts : LoadOptions) : result ProfileError (list string) :=
  let* layers := collect_layers opts in
  Ok (fold_left (fun ids layer => if l_from_shipped layer then ids else push_unique ids (l_id layer)) layers []).

(** The loop over the candidates; [None] is the end of the loop. *)
Fixpoint first_for_wire (wire : Wire) (opts : LoadOptions) (ids : list string) :
  result ProfileError (option ResolvedProfile) :=
  match ids with
  | [] => Ok None
  | id :: ids =>
      if String.eqb id (wire_as_str wire) then first_for_wire wire opts ids
      else
        match load_profile id opts with
        | Ok profile =>
            if is_some_and (d_wire (dialect profile)) (wire_eqb wire) then Ok (Some profile)
            else first_for_wire wire opts ids
        | Err err => Err err
        end
  end.

Definition load_profile_for_wire (wire : Wire) (opts : LoadOptions) : result ProfileError ResolvedProfile :=
  match load_profile (wire_as_str wire) opts with
  | Ok profile => Ok profile
  | Err (PeNotFound _ _) =>
      let* ids := unique_non_shipped_layer_ids opts in
      let* found := first_for_wire wire opts ids in
      Ok (match found with Some profile => profile | None => minimal_profile_for_wire wire end)
  | Err err => Err err
  end.

(** [path_exists] is [Path::exists]. *)
Definition looks_like_path (path_exists : string -> bool) (s : string) : bool :=
  contains_char "/" s || contains_char "\" s || ends_with ".toml" s || ends_with ".json" s || path_exists s.

Definition load_profile_from_cli (path_exists : string -> bool) (profile_arg : string) (opts : LoadOptions) :
  result ProfileError ResolvedProfile :=
  if looks_like_path path_exists profile_arg then
    let* layer := parse_layer_file profile_arg in
    match nonempty_text (rp_id layer) with
    | None => Err (PeMissingField "id")
    | Some id =>
        load_profile id (mkLoadOptions (Some id) (Some profile_arg) (lo_extra_profile_dirs opts)
                           (lo_include_shipped opts) (lo_include_user_config opts))
    end
  else load_profile profile_arg opts.

(** ** Lemmas *)
Definition str_lt (a b : string) : Prop := String.compare a b = Lt.

Lemma sset_insert_In x k s : In x (sset_insert k s) <-> x = k \/ In x s.
Proof.
  induction s as [|k' s IH]; cbn; [intuition congruence|]. destruct (String.compare k k') eqn:E; cbn.
  - apply String.compare_eq_iff in E as ->. intuition congruence.
  - intuition congruence.
  - rewrite IH. tauto.
Qed.

Lemma sset_insert_sorted k s : StronglySorted str_lt s -> StronglySorted str_lt (sset_insert k s).
Proof.
  induction 1 as [|k' s Hs IH Hf]; cbn; [by repeat constructor|]. destruct (String.compare k k') eqn:E.
  - by constructor.
  - constructor; [by constructor|]. constructor; [done|]. eapply Forall_impl; [exact Hf|].
    intros x Hx. by eapply str_compare_lt_trans.
  - constructor; [done|]. rewrite List.Forall_forall in *. intros x [->|Hx]%sset_insert_In; [|by apply Hf].
    unfold str_lt. by rewrite String.compare_antisym, E.
Qed.

Definition ids_of (layers : list Layer) : list string :=
  fold_left (fun ids layer => sset_insert (l_id layer) ids) layers [].

Lemma fold_ids layers ids :
  let out := fold_left (fun ids layer => sset_insert (l_id layer) ids) layers ids in
  (StronglySorted str_lt ids -> StronglySorted str_lt out)
  /\ forall x, In x out <-> In x ids \/ In x (map l_id layers).
Proof.
  cbv zeta. revert ids. induction layers as [|l layers IH]; intros ids; cbn; [by split; [|tauto]|].
  destruct (IH (sset_insert (l_id l) ids)) as [H1 H2]. split; [intros Hs; by apply H1, sset_insert_sorted|].
  intros x. rewrite H2, sset_insert_In. intuition congruence.
Qed.

(** The profiles of the layers that have an id, in order. *)
Definition own_layers (id : string) (layers : list Layer) : list RawProfile :=
  map l_profile (List.filter (fun l => String.eqb (l_id l) id) layers).

Lemma load_fold id layers known acc :
  fold_left (load_layer id) layers (known, acc) =
  (fold_left (fun ids layer => sset_insert (l_id layer) ids) layers known,
   fold_left merge_layer (own_layers id layers) acc).
Proof.
  unfold own_layers. revert known acc. induction layers as [|l layers IH]; intros known acc; [done|].
  cbn [fold_left load_layer List.filter]. destruct (String.eqb (l_id l) id); cbn [negb map fold_left]; apply IH.
Qed.

Lemma merge_layers_None own : merge_layers own = None <-> own = [].
Proof.
  destruct own as [|l own]; [done|]. split; [|done]. unfold merge_layers. cbn.
  enough (G : forall acc, fold_left merge_layer own (Some acc) <> None) by (intros E; by destruct (G l)).
  induction own as [|x own IH]; intros acc; cbn; [done|apply IH].
Qed.

Lemma load_profile_eq id opts layers :
  collect_layers opts = Ok layers ->
  load_profile id opts =
  match merge_layers (own_layers id layers) with
  | Some raw => resolve raw
  | None => Err (PeNotFound id (ids_of layers))
  end.
Proof.
  intros Hc. unfold load_profile. rewrite Hc. cbn [rbind]. rewrite load_fold. unfold merge_layers, ids_of.
  by destruct (fold_left merge_layer _ None).
Qed.

Lemma resolve_not_found raw id known : resolve raw <> Err (PeNotFound id known).
Proof.
  unfold resolve. cbv zeta. destruct (rp_schema_version raw) as [v|]; [|done]. destruct (_ <? v); [done|].
  destruct (nonempty_text _); [|done]. destruct (rp_oauth raw) as [o|]; cbn [rbind]; [|done].
  unfold resolve_oauth. by destruct (nonempty_text (ro_token_url o)).
Qed.

Lemma candidates_In opts layers ids id :
  collect_layers opts = Ok layers -> unique_non_shipped_layer_ids opts = Ok ids -> In id ids ->
  exists l, In l layers /\ l_from_shipped l = false /\ l_id l = id.
Proof.
  intros Hc. unfold unique_non_shipped_layer_ids. rewrite Hc. cbn. intros [= <-].
  enough (G : forall acc, In id (fold_left (fun ids layer => if l_from_shipped layer then ids else push_unique ids (l_id layer)) layers acc) ->
    In id acc \/ exists l, In l layers /\ l_from_shipped l = false /\ l_id l = id).
  { intros H. by destruct (G [] H) as [[]|]. }
  clear. induction layers as [|l layers IH]; intros acc; cbn; [by left|]. intros H. apply IH in H as [H|(k & ? & ? & ?)].
  - destruct (l_from_shipped l) eqn:E; [by left|]. unfold push_unique in H.
    destruct (one_of (l_id l) acc); [by left|]. apply in_app_or in H as [|[<-|[]]]; [by left|].
    right. exists l. by split; [left|].
  - right. exists k. by split; [right|].
Qed.

Lemma own_layers_some l layers : In l layers -> own_layers (l_id l) layers <> [].
Proof.
  intros H E. apply map_eq_nil in E.
  assert (In l (List.filter (fun x => String.eqb (l_id x) (l_id l)) layers)) as Hin.
  { apply List.filter_In. by rewrite String.eqb_refl. }
  by rewrite E in Hin.
Qed.

Lemma load_layer_found opts layers l id known :
  collect_layers opts = Ok layers -> In l layers -> load_profile (l_id l) opts <> Err (PeNotFound id known).
Proof.
  intros Hc Hl. rewrite (load_profile_eq _ _ _ Hc).
  destruct (merge_layers _) as [raw|] eqn:E; [apply resolve_not_found|].
  apply merge_layers_None in E. by apply own_layers_some in E.
Qed.

Lemma load_profile_ok id opts p : load_profile id opts = Ok p -> profile_ok p.
Proof.
  unfold load_profile. destruct (collect_layers opts) as [layers|e]; cbn [rbind]; [|done].
  destruct (fold_left (load_layer id) layers ([], None)) as [known [raw|]]; [|done].
  intros H. by apply (resolve_facts raw).
Qed.

Lemma minimal_profile_ok wire : profile_ok (minimal_profile_for_wire wire).
Proof. split; cbn; try done; solve [by destruct wire | by intros []]. Qed.

Lemma first_for_wire_spec wire opts ids :
  match first_for_wire wire opts ids with
  | Ok (Some p) => d_wire (dialect p) = Some wire /\ exists id, In id ids /\ load_profile id opts = Ok p
  | Ok None => True
  | Err e => exists id, In id ids /\ load_profile id opts = Err e
  end.
Proof.
  induction ids as [|id ids IH]; cbn; [done|].
  assert (Skip : match first_for_wire wire opts ids with
    | Ok (Some p) => d_wire (dialect p) = Some wire /\ exists k, (id = k \/ In k ids) /\ load_profile k opts = Ok p
    | Ok None => True
    | Err e => exists k, (id = k \/ In k ids) /\ load_profile k opts = Err e
    end).
  { destruct (first_for_wire wire opts ids) as [[p|]|e]; [|done|].
    - destruct IH as (? & k & ? & ?). split; [done|]. exists k. by split; [right|].
    - destruct IH as (k & ? & ?). exists k. by split; [right|]. }
  destruct (String.eqb id (wire_as_str wire)); [done|].
  destruct (load_profile id opts) as [p|e] eqn:E; [|exists id; by split; [left|]].
  destruct (is_some_and (d_wire (dialect p)) (wire_eqb wire)) eqn:W; [|done].
  split; [|exists id; by split; [left|]]. destruct (d_wire (dialect p)) as [w|]; [|done].
  cbn in W. unfold wire_eqb in W. apply bool_decide_eq_true in W. by subst.
Qed.

(** ** Properties *)

(** Files with different ids never merge: a load by id resolves the merge of
    exactly the layers that have the id, in their order, whatever else the
    catalog holds; without one it fails, and the error lists every id of the
    catalog once, sorted. *)
Theorem load_profile_own_layers id opts layers :
  collect_layers opts = Ok layers ->
  match merge_layers (own_layers id layers) with
  | Some raw => own_layers id layers <> [] /\ load_profile id opts = resolve raw
  | None =>
      own_layers id layers = []
      /\ exists known, load_profile id opts = Err (PeNotFound id known) /\ list_profiles opts = Ok known
         /\ StronglySorted str_lt known /\ forall k, In k known <-> In k (map l_id layers)
  end.
Proof.
  intros Hc. rewrite (load_profile_eq _ _ _ Hc). destruct (merge_layers (own_layers id layers)) as [raw|] eqn:E.
  - split; [|done]. intros N. apply merge_layers_None in N. congruence.
  - split; [by apply merge_layers_None|]. exists (ids_of layers). split; [done|].
    split; [unfold list_profiles; by rewrite Hc|]. destruct (fold_ids layers []) as [Hs Hin].
    split; [apply Hs; constructor|]. intros k. unfold ids_of. rewrite Hin. cbn. tauto.
Qed.

(** A load for a known dialect never fails for want of a profile: it gives the
    profile named as the wire, or the first profile of the user's own layers
    that speaks the wire, or the minimal one - never a shipped vendor pack -
    and whichever it is, it is complete. *)
Theorem load_profile_for_wire_found wire opts layers :
  collect_layers opts = Ok layers ->
  match load_profile_for_wire wire opts with
  | Ok p =>
      profile_ok p
      /\ (load_profile (wire_as_str wire) opts = Ok p
          \/ own_layers (wire_as_str wire) layers = [] /\ d_wire (dialect p) = Some wire
             /\ (p = minimal_profile_for_wire wire
                 \/ exists l, In l layers /\ l_from_shipped l = false /\ load_profile (l_id l) opts = Ok p))
  | Err e => forall id known, e <> PeNotFound id known
  end.
Proof.
  intros Hc. unfold load_profile_for_wire. set (name := wire_as_str wire).
  pose proof (load_profile_ok name opts) as Hok. pose proof (load_profile_eq name opts layers Hc) as He.
  destruct (load_profile name opts) as [p|e]; [by split; [apply Hok|left]|].
  assert (Hn : (exists id known, e = PeNotFound id known) -> own_layers name layers = []).
  { intros (i & known & ->). destruct (merge_layers _) as [raw|] eqn:E; [by destruct (resolve_not_found raw i known)|].
    by apply merge_layers_None. }
  destruct e as [| | | | | | | |id known]; try (by intros ? ?).
  specialize (Hn ltac:(eauto)). destruct (unique_non_shipped_layer_ids opts) as [ids|e] eqn:Hu.
  2:{ unfold unique_non_shipped_layer_ids in Hu. by rewrite Hc in Hu. }
  cbn [rbind]. pose proof (first_for_wire_spec wire opts ids) as Hf.
  destruct (first_for_wire wire opts ids) as [[p|]|e]; cbn [rbind].
  - destruct Hf as (Hw & i & Hi & Hl). split; [by eapply load_profile_ok|]. right. split; [done|]. split; [done|].
    right. destruct (candidates_In opts layers ids i Hc Hu Hi) as (l & ? & ? & <-). by exists l.
  - split; [apply minimal_profile_ok|]. right. split; [done|]. split; [done|]. by left.
  - destruct Hf as (i & Hi & Hl). intros id' known' ->.
    destruct (candidates_In opts layers ids i Hc Hu Hi) as (l & Hin & _ & <-).
    by apply (load_layer_found opts layers l id' known' Hc Hin).
Qed.

End Load.

(** ** Witnesses *)

(** A catalog of two user files, [mine] for Gemini and [plain] without a wire. *)
Definition sample_file (path : string) : result ProfileError RawProfile :=
  Ok (if String.eqb path "mine.toml"
      then mkRawProfile (Some 1) (Some "mine") None (Some Gemini) None None None None None None None None None None
             None None None None None None None None None None None None None
      else sample_layer (Some 1) (Some "plain") None None None None).

Definition sample_load (id : string) : result ProfileError ResolvedProfile :=
  load_profile (fun _ => None) [] sample_file sample_file (fun _ => Ok ["mine.toml"; "plain.toml"])
    (fun path => path) id load_options_default.

Definition sample_catalog : list Layer :=
  [mkLayer "mine" (match sample_file "mine.toml" with Ok p => p | Err _ => raw_empty end) false;
   mkLayer "plain" (match sample_file "plain.toml" with Ok p => p | Err _ => raw_empty end) false].

Lemma load_profile_own_layers_witness :
  exists known, sample_load "absent" = Err (PeNotFound "absent" known) /\ In "mine" known.
Proof.
  destruct (load_profile_own_layers (fun _ => None) [] sample_file sample_file
              (fun _ => Ok ["mine.toml"; "plain.toml"]) (fun path => path) "absent" load_options_default sample_catalog)
    as (_ & known & H & _ & _ & Hk); [vm_compute; reflexivity|].
  exists known. split; [exact H|]. apply Hk. vm_compute. auto.
Defined.

Lemma load_profile_for_wire_found_witness :
  exists p, load_profile_for_wire (fun _ => None) [] sample_file sample_file
              (fun _ => Ok ["mine.toml"; "plain.toml"]) (fun path => path) Gemini load_options_default = Ok p
            /\ profile_ok p.
Proof.
  pose proof (load_profile_for_wire_found (fun _ => None) [] sample_file sample_file
                (fun _ => Ok ["mine.toml"; "plain.toml"]) (fun path => path) Gemini load_options_default sample_catalog
                eq_refl) as H.
  destruct (load_profile_for_wire _ _ _ _ _ _ _ _) as [p|e] eqn:E; [|vm_compute in E; discriminate E].
  exists p. split; [reflexivity|]. exact (proj1 H).
Defined.
