(* ===== verification/StreamCore.v ===== *)
(** * StreamCore: the part of the stream root every dialect uses

    crates/wiremux/src/stream/mod.rs: field readers, the index cap, the
    protocol event, the name of a frame, the terminal-frame predicates, the
    slot table of the dialects, and the frame reader of a wire
    ([UpstreamFrames]).  The decoders and encoders of the dialects are
    modelled in their own files. *)

From S2P Require Import Prelude Text Json JsonCodec Sse EventStream Ir ProfileTypes.

Definition MAX_TOOL_CALL_INDEX : Z := 128.
Definition MAX_CONTENT_BLOCK_INDEX : Z := 128.

(** [.filter(|s| !s.is_empty())] *)
Definition nonempty (o : option string) : option string := opt_filter (fun s => negb (is_empty s)) o.

(** ** Field readers *)
Definition str_field (value : json) (key : string) : option string := get value key ≫= as_str.

Definition u32_field (value : json) (key : string) : option Z :=
  (get value key ≫= as_u64) ≫= u32_try_from.

(** [Option::filter(|v| v.is_object())] of a field. *)
Definition object_field (value : json) (key : string) : option json :=
  opt_filter is_object (get value key).

Definition check_index (value : json) (key : string) (cap : Z) (kind : string) : result MapError unit :=
  match get value key with
  | None => Ok tt
  | Some raw =>
      match as_u64 raw with
      | None => Err (Invalid (kind +:+ " index must be an unsigned integer"))
      | Some n =>
          if cap <? n then Err (Invalid (kind +:+ " index " +:+ pretty n +:+ " exceeds cap (" +:+ pretty cap +:+ ")"))
          else Ok tt
      end
  end.

Definition protocol (name : string) (value : json) : IrStreamEvent := Protocol name value.

(** ** Event names and item types *)
Definition messages_stream_event (item_type : string) : bool :=
  one_of item_type ["message_start"; "content_block_start"; "content_block_delta";
                    "content_block_stop"; "message_delta"; "message_stop"; "ping"].

Definition messages_protocol_reemits (item_type : string) : bool :=
  one_of item_type ["message_start"; "content_block_start"; "content_block_delta";
                    "content_block_stop"; "message_delta"; "message_stop"; "ping"].

Definition messages_content_block_type (item_type : string) : bool :=
  one_of item_type ["redacted_thinking"; "server_tool_use"; "web_search_tool_result";
    "web_fetch_tool_result"; "code_execution_tool_result"; "mcp_tool_use"; "mcp_tool_result";
    "bash_code_execution_tool_result"; "text_editor_code_execution_tool_result"; "search_result";
    "document"; "container_upload"; "tool_result"; "thinking"; "image"].

Definition responses_hosted_item_type (item_type : string) : bool :=
  ends_with "_call" item_type || ends_with "_call_output" item_type
  || one_of item_type ["reasoning"; "mcp_list_tools"; "mcp_approval_request";
       "mcp_approval_response"; "item_reference"; "program"; "compaction"].

Definition responses_output_item (item_type : string) (payload : json) : bool :=
  if String.eqb item_type "chunk" || String.eqb item_type "output_image" then false
  else if contains_char "." item_type || messages_stream_event item_type then false
  else if messages_content_block_type item_type then false
  else bool_decide (get_str payload "type" = Some item_type).

Definition sse_event_field (name : string) : option string :=
  if one_of name [""; "chunk"; "[DONE]"] then None else Some name.

Definition event_has_slot (wire : Wire) (ev : IrStreamEvent) : bool :=
  match ev with
  | Protocol item_type payload =>
      (wire_eqb wire Messages
       && (messages_protocol_reemits item_type
           || one_of item_type ["messages_id"; "messages_web_search_requests";
                "messages_web_fetch_requests"; "messages_cache_creation"; "messages_citation"]))
      || (wire_eqb wire Responses
          && (one_of item_type ["responses_id"; "responses_previous_id"; "responses_message_id";
                "responses_message_status"; "responses_message_phase"; "responses_message_agent";
                "responses_reasoning_id"; "responses_reasoning_status"; "responses_reasoning_content";
                "responses_tool_status"; "responses_tool_namespace"; "responses_tool_created_by";
                "responses_tool_caller"; "responses_tool_item_id"]
              || responses_output_item item_type payload))
      || (wire_eqb wire ChatCompletions
          && one_of item_type ["system_fingerprint"; "chat_completion_id"; "chat_audio_id";
               "chat_audio_expires"; "chat_accepted_prediction_tokens";
               "chat_rejected_prediction_tokens"])
      || (wire_eqb wire Gemini
          && one_of item_type ["gemini_response_id"; "gemini_safety_ratings"; "gemini_url_context";
               "gemini_citation_metadata"; "gemini_code_part"; "gemini_prompt_safety";
               "gemini_block_reason_message"; "gemini_traffic_type"; "gemini_tool_use_prompt_tokens";
               "gemini_avg_logprobs"; "gemini_candidate_tokens"; "gemini_prompt_token_details";
               "gemini_candidate_token_details"])
      || (wire_eqb wire Converse
          && one_of item_type ["additionalModelResponseFields"; "metrics"; "trace";
               "performanceConfig"; "converse_frame"; "converse_citation";
               "converse_redacted_content"])
  | UnknownEvent _ _ => wire_eqb wire Messages || wire_eqb wire Responses
  | _ => true
  end.

(** ** Payload of an unknown Responses frame *)
Fixpoint responses_payload_value_present (value : json) : bool :=
  match value with
  | JStr text => negb (is_empty (trim text))
  | JArr items => existsb responses_payload_value_present items
  | JObj m => existsb (fun kv => responses_payload_value_present kv.2) m
  | _ => false
  end.

Definition responses_payload_keys : list string :=
  ["delta"; "arguments"; "code"; "command"; "text"; "input"; "refusal"; "partial_image_b64"; "output"].

Section Serializer.
Context {SJ : SerdeJson}.

Definition responses_unknown_carries_payload (data : string) : bool :=
  match from_str data with
  | None => true
  | Some value =>
      match as_object value with
      | None => is_some_and (as_str value) (fun text => negb (is_empty (trim text)))
      | Some obj =>
          existsb (fun key => is_some_and (obj_get key obj) responses_payload_value_present)
            responses_payload_keys
      end
  end.

Definition json_text_field (value : json) (key : string) : result MapError (option string) :=
  match get value key with
  | None => Ok None
  | Some (JStr text) => if is_empty text then Ok None else Ok (Some text)
  | Some (JObj m) => Ok (Some (to_string (JObj m)))
  | Some (JArr l) => Ok (Some (to_string (JArr l)))
  | Some _ => Err (Invalid (key +:+ " must be a string, object, or array"))
  end.

(** ** Frames of the stream root *)
Definition responses_output_item_frame (payload : json) : RawSse :=
  let index := unwrap_or (get_u64 payload "output_index") 0 in
  let item := match payload with JObj m => JObj (obj_remove "output_index" m) | _ => payload end in
  mkRawSse (Some "response.output_item.done")
    (to_string (jobj [("type", JStr "response.output_item.done");
                      ("output_index", JNum (NumInt index)); ("item", item)])).

Definition encode_named (name : string) (raw : json) : RawSse :=
  mkRawSse (sse_event_field name) (match raw with JStr s => s | other => to_string other end).

Definition converse_frame_names : list string :=
  ["contentBlockDelta"; "contentBlockStart"; "contentBlockStop"; "messageStop"; "metadata"; "messageStart"].

Definition frame_event_name (wire : Wire) (raw : RawSse) : string :=
  match nonempty (raw_event raw) with
  | Some ev => ev
  | None =>
      let trimmed := trim (raw_data raw) in
      if String.eqb trimmed "[DONE]" then "[DONE]"
      else
        match wire with
        | ChatCompletions | Gemini => "chunk"
        | Converse =>
            match from_str trimmed with
            | Some value =>
                unwrap_or (List.find (fun name => is_some (get value name)) converse_frame_names)
                  "contentBlockDelta"
            | None => "contentBlockDelta"
            end
        | Messages | Responses => unwrap_or (from_str trimmed ≫= fun value => get_str value "type") "chunk"
        end
  end.

(** ** Terminal frames *)
Definition INCOMPLETE_STREAM_MESSAGE : string := "upstream stream ended before a terminal event".

Definition nonempty_reason (o : option json) : bool := is_some (nonempty (o ≫= as_str)).

Definition chat_frame_is_terminal (raw : RawSse) : bool :=
  if bool_decide (raw_event raw = Some "[DONE]") || String.eqb (trim (raw_data raw)) "[DONE]" then true
  else
    match from_str (raw_data raw) with
    | None => false
    | Some value =>
        is_some_and (pointer value [Key "choices"] ≫= as_array)
          (existsb (fun choice => nonempty_reason (get choice "finish_reason")))
    end.

Definition messages_frame_is_terminal (raw : RawSse) : bool :=
  let name := frame_event_name Messages raw in
  if String.eqb name "message_stop" then true
  else if negb (String.eqb name "message_delta") then false
  else
    match from_str (raw_data raw) with
    | None => false
    | Some value => nonempty_reason (pointer value [Key "delta"; Key "stop_reason"])
    end.

Definition converse_frame_is_terminal (raw : RawSse) : bool :=
  match from_str (raw_data raw) with
  | None => false
  | Some value => is_some (pointer_str value [Key "messageStop"; Key "stopReason"])
  end.

Definition responses_frame_is_terminal (raw : RawSse) : bool :=
  one_of (frame_event_name Responses raw)
    ["response.completed"; "response.incomplete"; "response.failed"].

Definition gemini_frame_is_terminal (raw : RawSse) : bool :=
  match from_str (raw_data raw) with
  | None => false
  | Some value =>
      if nonempty_reason (pointer value [Key "candidates"; Idx 0; Key "finishReason"]) then true
      else nonempty_reason (pointer value [Key "promptFeedback"; Key "blockReason"])
  end.

Definition frame_is_terminal (wire : Wire) (raw : RawSse) : bool :=
  match wire with
  | ChatCompletions => chat_frame_is_terminal raw
  | Messages => messages_frame_is_terminal raw
  | Responses => responses_frame_is_terminal raw
  | Gemini => gemini_frame_is_terminal raw
  | Converse => converse_frame_is_terminal raw
  end.

Definition stream_has_terminal (wire : Wire) (frames : list RawSse) : bool :=
  existsb (frame_is_terminal wire) frames.

(** ** The frame reader of a wire *)
Inductive UpstreamFrames := FramesSse (r : SseFrameReader) | FramesEvent (r : EventStreamReader).

Definition for_wire (wire : Wire) : UpstreamFrames :=
  match wire with Converse => FramesEvent es_new | _ => FramesSse reader_new end.

Definition frames_feed (u : UpstreamFrames) (bytes : list u8) :
  option (UpstreamFrames * result string (list RawSse * option string)) :=
  match u with
  | FramesSse r =>
      let '(r, res) := feed r bytes in Some (FramesSse r, rmap (fun frames => (frames, None)) res)
  | FramesEvent r => '(r, res) ← es_feed r bytes; Some (FramesEvent r, res)
  end.

Definition frames_has_open_frame (u : UpstreamFrames) : bool :=
  match u with FramesSse r => has_open_frame r | FramesEvent _ => false end.

Definition frames_pending_wire_bytes (u : UpstreamFrames) : list u8 :=
  match u with FramesSse r => pending_wire_bytes r | FramesEvent _ => [] end.

Definition frames_drain (u : UpstreamFrames) : UpstreamFrames * option RawSse :=
  match u with
  | FramesSse r => let '(r, f) := drain r in (FramesSse r, f)
  | FramesEvent r => let '(r, f) := es_drain r in (FramesEvent r, f)
  end.

Definition frames_finish (u : UpstreamFrames) : UpstreamFrames * result string (option RawSse) :=
  match u with
  | FramesSse r => let '(r, f) := finish r in (FramesSse r, f)
  | FramesEvent r => let '(r, f) := es_finish r in (FramesEvent r, f)
  end.

End Serializer.

(** ** Frame readers as an interface

    What a client of [UpstreamFrames] relies on: a chunk that is read without
    an error may be cut anywhere, and the two parts give the same frames and
    leave the reader in the same state. *)
Class FrameReader (R : Type) := {
  fr_feed : R -> list u8 -> option (R * result string (list RawSse * option string));
  fr_ok : R -> Prop
}.

Class FrameReaderLaws (R : Type) {FR : FrameReader R} : Prop := {
  fr_empty : forall r, fr_ok r -> fr_feed r [] = Some (r, Ok ([], None));
  fr_split : forall r a b r2 out,
    fr_ok r -> fr_feed r (a ++ b) = Some (r2, Ok (out, None)) ->
    exists r1 o1 o2, fr_feed r a = Some (r1, Ok (o1, None)) /\ fr_ok r1
      /\ fr_feed r1 b = Some (r2, Ok (o2, None)) /\ out = o1 ++ o2
}.

(** Feed the chunks one by one, stopping at the first error or exception. *)
Fixpoint fr_feed_chunks {R} `{FrameReader R} (r : R) (chunks : list (list u8)) :
  option (R * result string (list RawSse * option string)) :=
  match chunks with
  | [] => Some (r, Ok ([], None))
  | c :: cs =>
      match fr_feed r c with
      | Some (r1, Ok (out, None)) =>
          '(r2, res) ← fr_feed_chunks r1 cs; Some (r2, rmap (fun y => (out ++ y.1, y.2)) res)
      | other => other
      end
  end.

Lemma fr_feed_chunks_concat {R} `{FrameReaderLaws R} r chunks r2 out :
  fr_ok r -> fr_feed r (concat chunks) = Some (r2, Ok (out, None)) ->
  fr_feed_chunks r chunks = Some (r2, Ok (out, None)).
Proof.
  revert r out. induction chunks as [|c cs IH]; intros r out Hr Hf; cbn in *.
  - rewrite fr_empty in Hf by done. by injection Hf as <- <-.
  - destruct (fr_split _ _ _ _ _ Hr Hf) as (r1 & o1 & o2 & -> & Hr1 & Hb & ->).
    by rewrite (IH _ _ Hr1 Hb).
Qed.

#[export] Instance sse_frame_reader : FrameReader SseFrameReader := {
  fr_feed r bytes := let '(r', res) := feed r bytes in Some (r', rmap (fun frames => (frames, None)) res);
  fr_ok := reader_ok
}.

#[export] Instance sse_frame_reader_laws : FrameReaderLaws SseFrameReader.
Proof.
  split; cbn.
  - intros r [Hn Hl _ _ _]. by rewrite feed_nil.
  - intros r a b r2 out Hr. rewrite feed_app_lem by apply Hr.
    destruct (feed r a) as [r1 [o1|e]] eqn:Ha; [|done].
    destruct (feed_ok_lem _ _ _ _ Hr Ha) as [Hr1 _].
    destruct (feed r1 b) as [r3 [o2|e]] eqn:Hb; [|done]. intros [= <- <-].
    exists r1, o1, o2. by rewrite Hb.
Qed.

#[export] Instance event_frame_reader `{SerdeJson} : FrameReader EventStreamReader := {
  fr_feed := es_feed;
  fr_ok r := es_settled r /\ vlen (es_buffer r) <= MAX_EVENTSTREAM_PENDING
}.

Lemma es_feed_ok_run `{SerdeJson} r bytes x :
  es_feed r bytes = Some x -> is_ok x.2 = true ->
  vlen (es_buffer r) + vlen bytes <= MAX_EVENTSTREAM_PENDING
  /\ es_run (es_buffer r ++ bytes) = Some (es_buffer x.1, x.2).
Proof.
  intros Hf Hok. destruct x as [r2 res]. cbn [fst snd] in *.
  destruct (decide (vlen (es_buffer r) + vlen bytes <= MAX_EVENTSTREAM_PENDING)) as [Hl|Hl].
  - split; [done|]. rewrite es_feed_run in Hf by done.
    destruct (es_run _) as [[rest res2]|]; [|done]. by injection Hf as <- <-.
  - unfold es_feed in Hf. rewrite (proj2 (Z.ltb_lt _ _)) in Hf.
    + by injection Hf as <- <-.
    + unfold usize_saturating_add, usize_max, u64_max, MAX_EVENTSTREAM_PENDING in *. lia.
Qed.

#[export] Instance event_frame_reader_laws `{SerdeJson} : FrameReaderLaws EventStreamReader.
Proof.
  split; cbn [fr_feed fr_ok event_frame_reader].
  - intros r [Hs Hl]. rewrite es_feed_run by (rewrite vlen_nil; lia).
    rewrite app_nil_r. rewrite Hs. by destruct r.
  - intros r a b r2 out [Hs Hl] Hf.
    destruct (es_feed_ok_run _ _ _ Hf eq_refl) as [Hlen Hrun]. cbn [fst snd] in Hrun.
    rewrite vlen_app in Hlen. pose proof (vlen_nonneg a). pose proof (vlen_nonneg b).
    rewrite app_assoc, es_run_app in Hrun.
    destruct (es_run (es_buffer r ++ a)) as [[rest1 [[o1 [e1|]]|e1]]|] eqn:Ea; try done.
    cbn in Hrun. pose proof (es_run_rest _ _ _ Ea) as Hr1. rewrite vlen_app in Hr1.
    destruct (es_run (rest1 ++ b)) as [[rest2 [[o2 e2]|e2]]|] eqn:Eb; try done.
    cbn in Hrun. injection Hrun as -> <- ->.
    exists (mkEventReader rest1), o1, o2. repeat split.
    + rewrite es_feed_run by lia. by rewrite Ea.
    + cbn. by eapply es_run_idem.
    + cbn [es_buffer]. lia.
    + rewrite es_feed_run by (cbn [es_buffer]; lia). cbn [es_buffer]. rewrite Eb. by destruct r2.
Qed.

#[export] Instance upstream_frame_reader `{SerdeJson} : FrameReader UpstreamFrames := {
  fr_feed := frames_feed;
  fr_ok u := match u with FramesSse r => fr_ok r | FramesEvent r => fr_ok r end
}.

(** [UpstreamFrames] dispatches, so its laws are those of the two readers. *)
#[export] Instance upstream_frame_reader_laws `{SerdeJson} : FrameReaderLaws UpstreamFrames.
Proof.
  split; cbn [fr_feed fr_ok upstream_frame_reader].
  - intros [r|r] Hr; cbn [frames_feed].
    + pose proof (fr_empty r Hr) as H0. cbn in H0.
      destruct (feed r []) as [r' res]. injection H0 as -> E0. by rewrite E0.
    + pose proof (fr_empty r Hr) as H0. cbn in H0. by rewrite H0.
  - intros [r|r] a b u2 out Hr Hf; cbn [frames_feed] in Hf.
    + destruct (feed r (a ++ b)) as [r2 res] eqn:E. injection Hf as <- Hres.
      destruct (fr_split r a b r2 out Hr) as (r1 & o1 & o2 & Ha & Hr1 & Hb & ->).
      { cbn. by rewrite E, Hres. }
      exists (FramesSse r1), o1, o2. cbn in Ha, Hb. cbn [frames_feed].
      destruct (feed r a) as [ra ka]. injection Ha as -> Ka.
      destruct (feed r1 b) as [rb kb]. injection Hb as -> Kb.
      rewrite Ka, Kb. split; [done|]. split; [exact Hr1|]. done.
    + destruct (es_feed r (a ++ b)) as [[r2 res]|] eqn:E; [|done]. injection Hf as <- ->.
      destruct (fr_split r a b r2 out Hr E) as (r1 & o1 & o2 & Ha & Hr1 & Hb & ->).
      exists (FramesEvent r1), o1, o2. cbn in Ha, Hb. cbn [frames_feed]. by rewrite Ha, Hb.
Qed.

Lemma es_new_ok `{SerdeJson} : fr_ok es_new.
Proof. split; [|by vm_compute]. unfold es_settled. cbn [es_buffer es_new]. by rewrite es_run_eq. Qed.

Lemma for_wire_ok `{SerdeJson} wire : fr_ok (for_wire wire).
Proof. destruct wire; cbn [for_wire fr_ok upstream_frame_reader]; solve [apply reader_ok_new | apply es_new_ok]. Qed.

Lemma sse_chunks_whole `{SerdeJson} chunks r :
  reader_ok r -> fr_feed_chunks (FramesSse r) chunks = frames_feed (FramesSse r) (concat chunks).
Proof.
  revert r. induction chunks as [|c cs IH]; intros r Hr; cbn [concat fr_feed_chunks fr_feed upstream_frame_reader].
  - cbn [frames_feed]. by rewrite feed_nil by apply Hr.
  - cbn [frames_feed]. rewrite feed_app_lem by apply Hr. destruct (feed r c) as [r1 [o1|e]] eqn:Hc; [|done].
    destruct (feed_ok_lem _ _ _ _ Hr Hc) as [Hr1 _]. cbn [rmap]. rewrite (IH _ Hr1). cbn [frames_feed].
    by destruct (feed r1 (concat cs)) as [r2 [o2|e]].
Qed.

Lemma event_chunks_whole `{SerdeJson} chunks r :
  es_settled r -> vlen (es_buffer r) + vlen (concat chunks) <= MAX_EVENTSTREAM_PENDING ->
  snd <$> fr_feed_chunks (FramesEvent r) chunks = snd <$> frames_feed (FramesEvent r) (concat chunks).
Proof.
  revert r. induction chunks as [|c cs IH]; intros r Hr Hlen; cbn [concat fr_feed_chunks fr_feed upstream_frame_reader frames_feed].
  - cbn [concat] in Hlen. rewrite es_feed_run, app_nil_r, Hr by done. done.
  - cbn [concat] in Hlen. rewrite vlen_app in Hlen. pose proof (vlen_nonneg c). pose proof (vlen_nonneg (concat cs)).
    rewrite !es_feed_run by (rewrite ?vlen_app; lia). rewrite app_assoc, (es_run_app (es_buffer r ++ c)).
    destruct (es_run (es_buffer r ++ c)) as [[rest [[o1 [e|]]|e]]|] eqn:Hc; [reflexivity| |reflexivity|reflexivity].
    pose proof (es_run_rest _ _ _ Hc) as Hl. rewrite vlen_app in Hl.
    assert (Hs : es_settled (mkEventReader rest)) by (cbn; by eapply es_run_idem).
    assert (Hb : vlen (es_buffer (mkEventReader rest)) + vlen (concat cs) <= MAX_EVENTSTREAM_PENDING) by (cbn [es_buffer]; lia).
    specialize (IH _ Hs Hb). cbn [frames_feed] in IH. rewrite es_feed_run in IH by done. cbn [es_buffer] in IH.
    cbn [mbind option_bind]. destruct (fr_feed_chunks (FramesEvent (mkEventReader rest)) cs) as [[u res]|],
      (es_run (rest ++ concat cs)) as [[rest' res']|]; try done; cbn in IH |- *.
    injection IH as ->. by destruct res' as [[o2 e2]|e2].
Qed.


(** [check_index] passes exactly an absent index or an unsigned integer
    within the cap; anything else is an [Invalid] error. *)
Theorem check_index_spec value key cap kind :
  (check_index value key cap kind = Ok tt <->
     get value key = None \/ exists n, get_u64 value key = Some n /\ n <= cap)
  /\ (check_index value key cap kind = Ok tt
      \/ exists m, check_index value key cap kind = Err (Invalid m)).
Proof.
  unfold check_index, get_u64. destruct (get value key) as [raw|]; cbn; [|by split; [split; auto|left]].
  destruct (as_u64 raw) as [n|]; cbn.
  - destruct (cap <? n) eqn:E.
    + apply Z.ltb_lt in E. split; [|right; eauto].
      split; [done|]. intros [|(m & [= ->] & ?)]; [done|lia].
    + apply Z.ltb_ge in E. split; [|by left]. split; [|done]. intros _. right. eauto.
  - split; [|right; eauto]. split; [done|]. by intros [|(m & ? & _)].
Qed.

(** The private item types of a wire other than Responses. *)
Definition slot_names (wire : Wire) : list string :=
  match wire with
  | ChatCompletions => ["system_fingerprint"; "chat_completion_id"; "chat_audio_id";
      "chat_audio_expires"; "chat_accepted_prediction_tokens"; "chat_rejected_prediction_tokens"]
  | Messages => ["message_start"; "content_block_start"; "content_block_delta";
      "content_block_stop"; "message_delta"; "message_stop"; "ping"; "messages_id";
      "messages_web_search_requests"; "messages_web_fetch_requests"; "messages_cache_creation";
      "messages_citation"]
  | Responses => []
  | Gemini => ["gemini_response_id"; "gemini_safety_ratings"; "gemini_url_context";
      "gemini_citation_metadata"; "gemini_code_part"; "gemini_prompt_safety";
      "gemini_block_reason_message"; "gemini_traffic_type"; "gemini_tool_use_prompt_tokens";
      "gemini_avg_logprobs"; "gemini_candidate_tokens"; "gemini_prompt_token_details";
      "gemini_candidate_token_details"]
  | Converse => ["additionalModelResponseFields"; "metrics"; "trace"; "performanceConfig";
      "converse_frame"; "converse_citation"; "converse_redacted_content"]
  end.

Lemma event_has_slot_names wire item_type payload :
  wire <> Responses -> event_has_slot wire (Protocol item_type payload) = one_of item_type (slot_names wire).
Proof.
  intros N. unfold event_has_slot, messages_protocol_reemits, wire_eqb.
  destruct wire; try done; rewrite ?bool_decide_true, ?bool_decide_false by done;
    rewrite ?andb_false_l, ?andb_true_l, ?orb_false_l, ?orb_false_r; try done.
  by rewrite <- one_of_app.
Qed.

Lemma slot_names_disjoint w1 w2 s : In s (slot_names w1) -> In s (slot_names w2) -> w1 = w2.
Proof.
  intros H1 H2. destruct (decide (w1 = w2)) as [|N]; [done|]. exfalso.
  assert (H : forallb (fun x => negb (one_of x (slot_names w2))) (slot_names w1) = true).
  { by destruct w1, w2; vm_compute. }
  rewrite forallb_forall in H. specialize (H s H1). apply one_of_In in H2. by rewrite H2 in H.
Qed.

(** The dialect-private items stay private: outside Responses, whose
    output items are recognized by their payload, a protocol item has a slot
    on at most one wire. *)
Theorem protocol_slot_unique w1 w2 item_type payload :
  w1 <> Responses -> w2 <> Responses ->
  event_has_slot w1 (Protocol item_type payload) = true ->
  event_has_slot w2 (Protocol item_type payload) = true -> w1 = w2.
Proof.
  intros N1 N2. rewrite !event_has_slot_names, !one_of_In by done. apply slot_names_disjoint.
Qed.

(** A frame written for a named item is read back under its name on the
    wires that carry names, and the three unnamed spellings write no name. *)
Theorem encode_named_name `{SerdeJson} wire name raw :
  match sse_event_field name with
  | Some n => n = name /\ frame_event_name wire (encode_named name raw) = name
  | None => In name [""; "chunk"; "[DONE]"] /\ raw_event (encode_named name raw) = None
  end.
Proof.
  unfold encode_named, frame_event_name. cbn [raw_event raw_data].
  unfold sse_event_field, one_of, nonempty, opt_filter. cbn [existsb].
  destruct (String.eqb name "") eqn:E1; [apply String.eqb_eq in E1; cbn; auto|].
  destruct (String.eqb name "chunk") eqn:E2; [apply String.eqb_eq in E2; cbn; auto|].
  destruct (String.eqb name "[DONE]") eqn:E3; [apply String.eqb_eq in E3; cbn; auto|].
  cbn. split; [done|]. apply String.eqb_neq in E1. by destruct name.
Qed.

(** ** Witnesses *)
Section Witnesses.
#[local] Existing Instance JsonCodec.bits_codec.


Lemma protocol_slot_unique_witness :
  Gemini = Gemini /\ event_has_slot Gemini (Protocol "gemini_code_part" JNull) = true.
Proof.
  split; [|vm_compute; reflexivity].
  apply (protocol_slot_unique Gemini Gemini "gemini_code_part" JNull); vm_compute; done.
Defined.
End Witnesses.
