(* ===== verification/Usage.v ===== *)
(** * Usage: token counts across the dialects

    crates/wiremux/src/stream/usage.rs: the usage object of each dialect is
    read into the exclusive buckets of [Usage] ([from_*]) and written back
    ([encode_*], [insert_*]).  Counts are [u32]; every addition saturates. *)

From S2P Require Import Prelude Text Json Ir ProfileTypes StreamCore.

Definition jint (z : Z) : json := JNum (NumInt z).

Definition positive (z : Z) : bool := 0 <? z.

(** [obj.insert(key, v)] when the value is an object, else nothing. *)
Definition nested_u32 (value : json) (object key : string) : option Z :=
  obj ← get value object; u32_field obj key.

(** ** Chat Completions *)
Definition prediction_event (usage : json) (key item_type : string) : list IrStreamEvent :=
  match opt_filter positive (nested_u32 usage "completion_tokens_details" key) with
  | Some count => [Protocol item_type (jint count)]
  | None => []
  end.

Definition chat_prediction_token_events (usage : json) : list IrStreamEvent :=
  flat_map (fun '(key, item_type) => prediction_event usage key item_type)
    [("accepted_prediction_tokens", "chat_accepted_prediction_tokens");
     ("rejected_prediction_tokens", "chat_rejected_prediction_tokens")].

(** [if let Some(count) = o { details.insert(key, json!(count)); }] *)
Definition insert_count (key : string) (o : option Z) (m : object) : object :=
  match o with Some count => obj_insert key (jint count) m | None => m end.

Definition insert_chat_prediction_tokens (usage : json) (accepted rejected : option Z) : json :=
  if is_none accepted && is_none rejected then usage
  else
    match usage with
    | JObj obj =>
        let details := unwrap_or (obj_get "completion_tokens_details" obj) (JObj []) in
        match details with
        | JObj d =>
            let d := insert_count "accepted_prediction_tokens" accepted d in
            let d := insert_count "rejected_prediction_tokens" rejected d in
            JObj (obj_insert "completion_tokens_details" (JObj d) obj)
        | _ => usage
        end
    | _ => usage
    end.

Definition from_chat (usage : json) : IrStreamEvent :=
  let cache_read :=
    unwrap_or
      (opt_or (opt_filter positive (nested_u32 usage "prompt_tokens_details" "cached_tokens"))
        (opt_or (opt_filter positive (u32_field usage "cached_tokens"))
          (u32_field usage "prompt_cache_hit_tokens"))) 0 in
  let cache_write := unwrap_or (nested_u32 usage "prompt_tokens_details" "cache_write_tokens") 0 in
  let reasoning := unwrap_or (nested_u32 usage "completion_tokens_details" "reasoning_tokens") 0 in
  let audio_tokens := unwrap_or (nested_u32 usage "prompt_tokens_details" "audio_tokens") 0 in
  let completion_audio_tokens :=
    unwrap_or (nested_u32 usage "completion_tokens_details" "audio_tokens") 0 in
  Usage (u32_saturating_sub (unwrap_or (u32_field usage "prompt_tokens") 0) cache_read)
    (u32_saturating_sub (unwrap_or (u32_field usage "completion_tokens") 0) reasoning)
    cache_read cache_write reasoning audio_tokens completion_audio_tokens None.

(** [if n > 0 { details[key] = json!(n); }] *)
Definition set_positive (key : string) (n : Z) (v : json) : json :=
  if positive n then index_set v key (jint n) else v.

(** [usage[key] = details] when any of the counts is positive. *)
Definition set_details (key : string) (counts : list (string * Z)) (v : json) : json :=
  if existsb (fun kn => positive kn.2) counts then
    index_set v key (fold_left (fun d kn => set_positive kn.1 kn.2 d) counts (JObj []))
  else v.

Definition encode_chat (prompt_tokens completion_tokens cache_read_tokens cache_write_tokens
    reasoning_tokens audio_tokens completion_audio_tokens : Z) : json :=
  let prompt_wire := u32_saturating_add prompt_tokens cache_read_tokens in
  let completion_wire := u32_saturating_add completion_tokens reasoning_tokens in
  let usage := jobj [("prompt_tokens", jint prompt_wire);
                     ("completion_tokens", jint completion_wire);
                     ("total_tokens", jint (u32_saturating_add prompt_wire completion_wire))] in
  let usage := set_details "prompt_tokens_details"
                 [("cached_tokens", cache_read_tokens); ("cache_write_tokens", cache_write_tokens);
                  ("audio_tokens", audio_tokens)] usage in
  let usage := set_details "completion_tokens_details"
                 [("reasoning_tokens", reasoning_tokens); ("audio_tokens", completion_audio_tokens)] usage in
  jobj [("choices", JArr []); ("usage", usage)].

(** ** Messages *)
Definition web_search_event (usage : json) (key item_type : string) : list IrStreamEvent :=
  match opt_filter positive ((tools ← get usage "server_tool_use"; get tools key) ≫= as_u64) ≫= u32_try_from with
  | Some count => [Protocol item_type (jint count)]
  | None => []
  end.

Definition messages_web_search_events (usage : json) : list IrStreamEvent :=
  flat_map (fun '(key, item_type) => web_search_event usage key item_type)
    [("web_search_requests", "messages_web_search_requests");
     ("web_fetch_requests", "messages_web_fetch_requests")].

Definition insert_messages_server_tool_counts (usage : json) (search fetch : option Z) : json :=
  if is_none search && is_none fetch then usage
  else
    let tools := insert_count "web_fetch_requests" fetch (insert_count "web_search_requests" search []) in
    match usage with JObj obj => JObj (obj_insert "server_tool_use" (JObj tools) obj) | _ => usage end.

Definition kept_creation (creation : json) : object :=
  fold_left (fun kept key =>
      insert_count key (opt_filter positive (get_u64 creation key)) kept)
    ["ephemeral_5m_input_tokens"; "ephemeral_1h_input_tokens"] [].

Definition messages_cache_creation_events (usage : json) : list IrStreamEvent :=
  match object_field usage "cache_creation" with
  | None => []
  | Some creation =>
      match kept_creation creation with
      | [] => []
      | kept => [Protocol "messages_cache_creation" (JObj kept)]
      end
  end.

Definition insert_messages_cache_creation (usage : json) (creation : option json) : json :=
  match opt_filter is_object creation, usage with
  | Some creation, JObj obj => JObj (obj_insert "cache_creation" creation obj)
  | _, _ => usage
  end.

Definition from_anthropic (usage : json) : IrStreamEvent :=
  let reasoning := unwrap_or (nested_u32 usage "output_tokens_details" "thinking_tokens") 0 in
  Usage (unwrap_or (u32_field usage "input_tokens") 0)
    (u32_saturating_sub (unwrap_or (u32_field usage "output_tokens") 0) reasoning)
    (unwrap_or (u32_field usage "cache_read_input_tokens") 0)
    (unwrap_or (u32_field usage "cache_creation_input_tokens") 0)
    reasoning 0 0
    (nonempty (trim <$> get_str usage "inference_geo")).

Definition encode_anthropic (prompt_tokens completion_tokens cache_read_tokens cache_write_tokens
    reasoning_tokens : Z) (inference_geo : option string) : json :=
  let usage := jobj [("input_tokens", jint prompt_tokens);
                     ("output_tokens", jint (u32_saturating_add completion_tokens reasoning_tokens))] in
  let usage := set_positive "cache_read_input_tokens" cache_read_tokens usage in
  let usage := set_positive "cache_creation_input_tokens" cache_write_tokens usage in
  let usage := if positive reasoning_tokens
               then index_set usage "output_tokens_details" (jobj [("thinking_tokens", jint reasoning_tokens)])
               else usage in
  let usage := match inference_geo with
               | Some geo => index_set usage "inference_geo" (JStr geo)
               | None => usage
               end in
  jobj [("type", JStr "message_delta"); ("delta", JObj []); ("usage", usage)].

(** ** Responses *)
Definition from_responses (usage : json) : IrStreamEvent :=
  let cache_read := unwrap_or (nested_u32 usage "input_tokens_details" "cached_tokens") 0 in
  let cache_write := unwrap_or (nested_u32 usage "input_tokens_details" "cache_write_tokens") 0 in
  let reasoning := unwrap_or (nested_u32 usage "output_tokens_details" "reasoning_tokens") 0 in
  Usage (u32_saturating_sub (unwrap_or (u32_field usage "input_tokens") 0) cache_read)
    (u32_saturating_sub (unwrap_or (u32_field usage "output_tokens") 0) reasoning)
    cache_read cache_write reasoning 0 0 None.

Definition encode_responses (prompt_tokens completion_tokens cache_read_tokens cache_write_tokens
    reasoning_tokens : Z) : json :=
  let input_tokens := u32_saturating_add prompt_tokens cache_read_tokens in
  let output_tokens := u32_saturating_add completion_tokens reasoning_tokens in
  let usage := jobj [("input_tokens", jint input_tokens); ("output_tokens", jint output_tokens);
                     ("total_tokens", jint (u32_saturating_add input_tokens output_tokens))] in
  let usage := set_details "input_tokens_details"
                 [("cached_tokens", cache_read_tokens); ("cache_write_tokens", cache_write_tokens)] usage in
  let usage := if positive reasoning_tokens
               then index_set usage "output_tokens_details" (jobj [("reasoning_tokens", jint reasoning_tokens)])
               else usage in
  jobj [("type", JStr "response.completed");
        ("response", jobj [("status", JStr "completed"); ("usage", usage)])].

(** ** Gemini *)
Definition audio_item (total : Z) (item : json) : Z :=
  let modality := unwrap_or (get_str item "modality") "" in
  if negb (eq_ignore_ascii_case modality "AUDIO") then total
  else
    match opt_or (u32_field item "tokenCount") (u32_field item "token_count") with
    | Some n => u32_saturating_add total n
    | None => total
    end.

Definition gemini_audio_tokens (usage : json) (camel snake : string) : Z :=
  match opt_or (get usage camel) (get usage snake) ≫= as_array with
  | None => 0
  | Some details => fold_left audio_item details 0
  end.

Definition from_gemini (usage : json) : IrStreamEvent :=
  let field camel snake := unwrap_or (opt_or (u32_field usage camel) (u32_field usage snake)) 0 in
  let cache_read := field "cachedContentTokenCount" "cached_content_token_count" in
  let reasoning := field "thoughtsTokenCount" "thoughts_token_count" in
  let prompt := field "promptTokenCount" "prompt_token_count" in
  let completion := field "candidatesTokenCount" "candidates_token_count" in
  Usage (u32_saturating_sub prompt cache_read) completion cache_read 0 reasoning
    (gemini_audio_tokens usage "promptTokensDetails" "prompt_tokens_details")
    (gemini_audio_tokens usage "candidatesTokensDetails" "candidates_tokens_details") None.

Definition gemini_traffic_type_events (value : json) : list IrStreamEvent :=
  match nonempty (trim <$> pointer_str value [Key "usageMetadata"; Key "trafficType"]) with
  | None => []
  | Some kind => [Protocol "gemini_traffic_type" (JStr kind)]
  end.

Definition gemini_tool_use_prompt_events (value : json) : list IrStreamEvent :=
  match opt_filter positive
          (pointer value [Key "usageMetadata"; Key "toolUsePromptTokenCount"] ≫= as_u64) ≫= u32_try_from with
  | None => []
  | Some count => [Protocol "gemini_tool_use_prompt_tokens" (jint count)]
  end.

Definition insert_gemini_tool_use_prompt_tokens (usage : json) (count : option Z) : json :=
  match opt_filter positive count, usage with
  | Some count, JObj obj =>
      let obj := obj_insert "toolUsePromptTokenCount" (jint count) obj in
      match obj_get "totalTokenCount" obj ≫= as_u64 with
      | Some total => JObj (obj_insert "totalTokenCount" (jint (u64_saturating_add total count)) obj)
      | None => JObj obj
      end
  | _, _ => usage
  end.

Definition modality_row_kept (row : json) : bool :=
  let modality := unwrap_or (get_str row "modality") "" in
  let count := unwrap_or (get_u64 row "tokenCount") 0 in
  negb (is_empty modality) && negb (eq_ignore_ascii_case modality "IMAGE") && positive count.

Definition kept_modality_details (value : json) (path : list ptr_token) : option json :=
  let kept := match pointer value path ≫= as_array with
              | Some rows => List.filter modality_row_kept rows
              | None => []
              end in
  match kept with [] => None | _ => Some (JArr kept) end.

Definition gemini_modality_detail_events (value : json) : list IrStreamEvent :=
  match kept_modality_details value [Key "usageMetadata"; Key "promptTokensDetails"] with
  | Some details => [Protocol "gemini_prompt_token_details" details]
  | None => []
  end ++
  match kept_modality_details value [Key "usageMetadata"; Key "candidatesTokensDetails"] with
  | Some details => [Protocol "gemini_candidate_token_details" details]
  | None => []
  end.

Definition insert_gemini_modality_details (usage : json) (field : string) (details : option json) : json :=
  match opt_filter (fun rows => is_some_and (as_array rows) (fun items => negb (bool_decide (items = []))))
          details, usage with
  | Some details, JObj obj => JObj (obj_insert field details obj)
  | _, _ => usage
  end.

Definition insert_gemini_traffic_type (usage : json) (kind : option string) : json :=
  match nonempty kind, usage with
  | Some kind, JObj obj => JObj (obj_insert "trafficType" (JStr kind) obj)
  | _, _ => usage
  end.

Definition audio_rows (n : Z) : json := JArr [jobj [("modality", JStr "AUDIO"); ("tokenCount", jint n)]].

Definition encode_gemini (prompt_tokens completion_tokens cache_read_tokens reasoning_tokens
    audio_tokens completion_audio_tokens : Z) : json :=
  let prompt_wire := u32_saturating_add prompt_tokens cache_read_tokens in
  let usage := jobj [("promptTokenCount", jint prompt_wire);
                     ("candidatesTokenCount", jint completion_tokens);
                     ("totalTokenCount",
                      jint (u32_saturating_add (u32_saturating_add prompt_wire completion_tokens)
                              reasoning_tokens))] in
  let usage := set_positive "cachedContentTokenCount" cache_read_tokens usage in
  let usage := set_positive "thoughtsTokenCount" reasoning_tokens usage in
  let usage := if positive audio_tokens
               then index_set usage "promptTokensDetails" (audio_rows audio_tokens) else usage in
  let usage := if positive completion_audio_tokens
               then index_set usage "candidatesTokensDetails" (audio_rows completion_audio_tokens) else usage in
  jobj [("usageMetadata", usage)].

(** ** Lemmas *)
Lemma as_u64_jint n : is_u32 n -> as_u64 (jint n) = Some n.
Proof.
  intros [H1 H2]. cbn. rewrite (proj2 (Z.leb_le 0 n) H1).
  by rewrite (proj2 (Z.leb_le n u64_max)) by int_lia.
Qed.

Lemma u32_jint n : is_u32 n -> (Some (jint n) ≫= as_u64) ≫= u32_try_from = Some n.
Proof.
  intros H. change ((as_u64 (jint n)) ≫= u32_try_from = Some n). rewrite as_u64_jint by done.
  by apply u32_try_from_Some.
Qed.

Lemma u32_field_jint v k n : get v k = Some (jint n) -> is_u32 n -> u32_field v k = Some n.
Proof. intros E H. unfold u32_field. rewrite E. by apply u32_jint. Qed.

Lemma u32_field_none v k : get v k = None -> u32_field v k = None.
Proof. intros E. unfold u32_field. by rewrite E. Qed.

Lemma u32_field_range v k n : u32_field v k = Some n -> is_u32 n.
Proof.
  unfold u32_field. destruct (get v k ≫= as_u64) as [z|]; [|done]. apply u32_try_from_inv.
Qed.

Lemma u32_zero : is_u32 0. Proof. int_lia. Qed.

Lemma unwrap_u32_field v k : is_u32 (unwrap_or (u32_field v k) 0).
Proof. destruct (u32_field v k) eqn:E; [by eapply u32_field_range|apply u32_zero]. Qed.

Lemma unwrap_nested_u32 v o k : is_u32 (unwrap_or (nested_u32 v o k) 0).
Proof. unfold nested_u32. destruct (get v o); [apply unwrap_u32_field|apply u32_zero]. Qed.

#[export] Hint Resolve u32_zero unwrap_u32_field unwrap_nested_u32 : wire.

Lemma positive_false n : is_u32 n -> positive n = false -> n = 0.
Proof. unfold positive. rewrite Z.ltb_ge. int_lia. Qed.

Lemma is_object_set_positive key n v : is_object (set_positive key n v) = is_object v.
Proof. unfold set_positive. case_match; [apply is_object_index_set|done]. Qed.

Lemma is_object_set_details key counts v : is_object (set_details key counts v) = is_object v.
Proof. unfold set_details. case_match; [apply is_object_index_set|done]. Qed.

Lemma get_set_positive key n v k :
  is_object v = true ->
  get (set_positive key n v) k = if String.eqb k key && positive n then Some (jint n) else get v k.
Proof.
  intros H. unfold set_positive. destruct (positive n); rewrite ?andb_true_r, ?andb_false_r; [|done].
  by apply get_index_set.
Qed.

Lemma get_set_details key counts v k :
  is_object v = true ->
  get (set_details key counts v) k =
  if String.eqb k key && existsb (fun kn => positive kn.2) counts
  then Some (fold_left (fun d kn => set_positive kn.1 kn.2 d) counts (JObj [])) else get v k.
Proof.
  intros H. unfold set_details. destruct (existsb _ _); rewrite ?andb_true_r, ?andb_false_r; [|done].
  by apply get_index_set.
Qed.

(** The count of a key in a list of counts. *)
Fixpoint count_of (k : string) (counts : list (string * Z)) (d : option Z) : option Z :=
  match counts with
  | [] => d
  | (k', n) :: counts => count_of k counts (if String.eqb k k' && positive n then Some n else d)
  end.

Lemma u32_field_counts counts k v :
  Forall (fun kn => is_u32 kn.2) counts -> is_object v = true ->
  u32_field (fold_left (fun d kn => set_positive kn.1 kn.2 d) counts v) k
  = count_of k counts (u32_field v k).
Proof.
  intros Hc. revert v. induction Hc as [|[k' n] counts Hn Hc IH]; intros v Hv; [done|].
  cbn [fold_left count_of fst snd] in *. rewrite IH by (by rewrite is_object_set_positive).
  f_equal. unfold u32_field. rewrite get_set_positive by done.
  destruct (String.eqb k k' && positive n); [|done]. by apply u32_jint.
Qed.

Lemma count_of_no_positive k counts d :
  existsb (fun kn => positive kn.2) counts = false -> count_of k counts d = d.
Proof.
  revert d. induction counts as [|[k' n] counts IH]; intros d; [done|].
  cbn. intros [-> H]%orb_false_iff. rewrite andb_false_r. by apply IH.
Qed.

(** Whether or not the details object was written, its counts are read. *)
Lemma nested_set_details key counts v k :
  Forall (fun kn => is_u32 kn.2) counts -> is_object v = true -> get v key = None ->
  nested_u32 (set_details key counts v) key k = count_of k counts None.
Proof.
  intros Hc Hv Hn. unfold nested_u32. rewrite get_set_details by done.
  rewrite String.eqb_refl. cbn [andb]. destruct (existsb _ _) eqn:E.
  - cbn [mbind option_bind]. by rewrite u32_field_counts.
  - rewrite Hn. by rewrite count_of_no_positive.
Qed.

Lemma nested_set_details_ne key counts v o k :
  is_object v = true -> o <> key ->
  nested_u32 (set_details key counts v) o k = nested_u32 v o k.
Proof.
  intros Hv Hne. unfold nested_u32. rewrite get_set_details by done. by rewrite str_eqb_neq.
Qed.

Lemma unwrap_positive n : is_u32 n -> unwrap_or (if positive n then Some n else None) 0 = n.
Proof. intros H. destruct (positive n) eqn:E; [done|]. cbn. symmetry. by apply positive_false. Qed.

Lemma opt_filter_positive n :
  opt_filter positive (if positive n then Some n else None) = if positive n then Some n else None.
Proof. destruct (positive n) eqn:E; [|done]. cbn. by rewrite E. Qed.

Lemma unwrap_filter_positive o :
  (forall n, o = Some n -> is_u32 n) -> unwrap_or (opt_filter positive o) 0 = unwrap_or o 0.
Proof.
  intros H. destruct o as [n|]; [|done]. cbn. destruct (positive n) eqn:E; [done|].
  cbn. symmetry. apply positive_false; [by apply H|done].
Qed.

Ltac object_goal :=
  repeat first [rewrite is_object_set_positive|rewrite is_object_set_details|rewrite is_object_index_set
               |rewrite is_object_set_opt];
  apply is_object_jobj.

(** Read through the writes, computing literal keys. *)
Ltac read_json :=
  repeat (first [rewrite get_set_positive by object_goal
                |rewrite get_set_details by object_goal
                |rewrite get_index_set by object_goal
                |rewrite get_set_opt by object_goal
                |rewrite get_jobj]; cbn [assoc_last]; eqb_literals; cbn [andb]).

(** ** Properties *)

(** The counts of a usage event are [u32]. *)
Definition usage_u32 (ev : IrStreamEvent) : Prop :=
  match ev with
  | Usage p c cr cw r a ca _ =>
      is_u32 p /\ is_u32 c /\ is_u32 cr /\ is_u32 cw /\ is_u32 r /\ is_u32 a /\ is_u32 ca
  | _ => False
  end.

Lemma gemini_audio_u32 usage camel snake : is_u32 (gemini_audio_tokens usage camel snake).
Proof.
  unfold gemini_audio_tokens. destruct (_ ≫= as_array) as [l|]; [|apply u32_zero].
  assert (H : is_u32 0) by apply u32_zero. revert H. generalize 0.
  induction l as [|item l IH]; intros z Hz; cbn; [done|]. apply IH.
  unfold audio_item. case_match; [done|].
  destruct (opt_or _ _) as [n|] eqn:E; [|done].
  apply u32_saturating_add_range; [done|].
  destruct (u32_field item "tokenCount") eqn:E1; cbn in E; simplify_eq; by eapply u32_field_range.
Qed.

Lemma unwrap_opt_or_u32 v k1 k2 : is_u32 (unwrap_or (opt_or (u32_field v k1) (u32_field v k2)) 0).
Proof. destruct (u32_field v k1) eqn:E; cbn; [by eapply u32_field_range|apply unwrap_u32_field]. Qed.

Lemma opt_or_u32 (o d : option Z) :
  (forall n, o = Some n -> is_u32 n) -> is_u32 (unwrap_or d 0) -> is_u32 (unwrap_or (opt_or o d) 0).
Proof. intros Ho Hd. destruct o; cbn; [by apply Ho|done]. Qed.

Lemma opt_filter_inv {A} (p : A -> bool) o x : opt_filter p o = Some x -> o = Some x.
Proof. destruct o as [y|]; cbn; [|done]. by destruct (p y); intros [= ->]. Qed.

Lemma nested_u32_range v o k n : nested_u32 v o k = Some n -> is_u32 n.
Proof. unfold nested_u32. destruct (get v o); cbn; [apply u32_field_range|done]. Qed.

(** Every count of a decoded usage object, whatever the JSON, is a [u32]:
    out-of-range, negative and non-integer fields are dropped and the
    subtractions and sums saturate. *)
Theorem usage_counts_u32 usage :
  usage_u32 (from_chat usage) /\ usage_u32 (from_anthropic usage)
  /\ usage_u32 (from_responses usage) /\ usage_u32 (from_gemini usage).
Proof.
  assert (Hc : is_u32 (unwrap_or
      (opt_or (opt_filter positive (nested_u32 usage "prompt_tokens_details" "cached_tokens"))
        (opt_or (opt_filter positive (u32_field usage "cached_tokens"))
          (u32_field usage "prompt_cache_hit_tokens"))) 0)).
  { apply opt_or_u32; [by intros n ?%opt_filter_inv%nested_u32_range|].
    apply opt_or_u32; [by intros n ?%opt_filter_inv%u32_field_range|]. auto with wire. }
  unfold usage_u32, from_chat, from_anthropic, from_responses, from_gemini. cbv zeta.
  pose proof (gemini_audio_u32 usage). pose proof (unwrap_opt_or_u32 usage).
  repeat match goal with |- _ /\ _ => split end; auto with wire;
    try (apply u32_saturating_sub_range; auto with wire).
Qed.

(** Discharge [Forall is_u32] of literal lists. *)
Ltac counts_u32 := repeat (apply List.Forall_cons; [cbn [snd]; assumption|]); apply List.Forall_nil.

(** What a count saturates to when another was added to it and taken off. *)
Lemma saturated_sub a b :
  is_u32 a -> is_u32 b -> u32_saturating_sub (u32_saturating_add a b) b = Z.min a (u32_max - b).
Proof. int_lia. Qed.

Lemma chat_usage_roundtrip p c cr cw r a ca :
  Forall is_u32 [p; c; cr; cw; r; a; ca] ->
  exists usage, get (encode_chat p c cr cw r a ca) "usage" = Some usage
    /\ from_chat usage = Usage (Z.min p (u32_max - cr)) (Z.min c (u32_max - r)) cr cw r a ca None.
Proof.
  intros H. rewrite !Forall_cons in H. destruct H as (Hp & Hc & Hcr & Hcw & Hr & Ha & Hca & _).
  eexists. split; [unfold encode_chat; by read_json|].
  unfold from_chat.
  set (base := jobj _). set (d1 := set_details "prompt_tokens_details" _ _).
  assert (Hb : is_object base = true) by done.
  assert (Hd1 : is_object d1 = true) by (unfold d1; by rewrite is_object_set_details).
  assert (Hn1 : get base "prompt_tokens_details" = None) by (unfold base; by read_json).
  assert (Hn2 : get d1 "completion_tokens_details" = None) by (unfold d1, base; by read_json).
  set (u := set_details "completion_tokens_details" _ _).
  assert (N1 : forall k, nested_u32 u "prompt_tokens_details" k =
    count_of k [("cached_tokens", cr); ("cache_write_tokens", cw); ("audio_tokens", a)] None).
  { intros k. unfold u. rewrite nested_set_details_ne by done. apply nested_set_details; [counts_u32|done..]. }
  assert (N2 : forall k, nested_u32 u "completion_tokens_details" k =
    count_of k [("reasoning_tokens", r); ("audio_tokens", ca)] None).
  { intros k. apply nested_set_details; [counts_u32|done..]. }
  assert (F : forall k z, get u k = Some (jint z) -> is_u32 z -> u32_field u k = Some z)
    by (intros; by apply u32_field_jint).
  rewrite !N1, !N2. cbn [count_of]. eqb_literals. cbn [andb].
  rewrite !opt_filter_positive, !unwrap_positive by done.
  rewrite (F "prompt_tokens" (u32_saturating_add p cr)), (F "completion_tokens" (u32_saturating_add c r))
    by ((unfold u, d1, base; by read_json) || auto with wire).
  rewrite (u32_field_none u "cached_tokens"), (u32_field_none u "prompt_cache_hit_tokens")
    by (unfold u, d1, base; by read_json).
  cbn [opt_filter opt_or].
  assert (Hz : unwrap_or (opt_or (if positive cr then Some cr else None) None) 0 = cr).
  { destruct (positive cr) eqn:Ecr; cbn; [done|]. symmetry. by apply positive_false. }
  rewrite Hz. cbn [unwrap_or]. by rewrite !saturated_sub.
Qed.

Lemma u32_optional n :
  is_u32 n -> ((if positive n then Some (jint n) else None) ≫= as_u64) ≫= u32_try_from
  = if positive n then Some n else None.
Proof. intros H. destruct (positive n); [|done]. by apply u32_jint. Qed.

Lemma anthropic_usage_roundtrip p c cr cw r geo :
  Forall is_u32 [p; c; cr; cw; r] ->
  (forall g, geo = Some g -> trim g = g /\ is_empty g = false) ->
  exists usage, get (encode_anthropic p c cr cw r geo) "usage" = Some usage
    /\ from_anthropic usage = Usage p (Z.min c (u32_max - r)) cr cw r 0 0 geo.
Proof.
  intros H Hg. rewrite !Forall_cons in H. destruct H as (Hp & Hc & Hcr & Hcw & Hr & _).
  eexists. split; [unfold encode_anthropic; by read_json|]. unfold from_anthropic, get_str, nested_u32.
  set (base := jobj _).
  assert (Hb : is_object base = true) by done.
  set (u := match geo with Some _ => _ | None => _ end).
  assert (Hget : forall k, k <> "inference_geo" -> k <> "output_tokens_details" ->
    get u k = get (set_positive "cache_creation_input_tokens" cw (set_positive "cache_read_input_tokens" cr base)) k).
  { intros k Hk1 Hk2. unfold u.
    destruct geo, (positive r); rewrite ?get_index_set by object_goal;
      rewrite ?(str_eqb_neq k "inference_geo"), ?(str_eqb_neq k "output_tokens_details") by done; done. }
  assert (Hf : forall k z, k <> "inference_geo" -> k <> "output_tokens_details" ->
    get base k = Some (jint z) -> is_u32 z -> k <> "cache_read_input_tokens" ->
    k <> "cache_creation_input_tokens" -> u32_field u k = Some z).
  { intros k z ? ? E ? ? ?. apply u32_field_jint; [|done]. rewrite Hget by done.
    rewrite !get_set_positive by object_goal. by rewrite !str_eqb_neq by done. }
  rewrite (Hf "input_tokens" p), (Hf "output_tokens" (u32_saturating_add c r))
    by (done || (unfold base; by read_json) || auto with wire).
  assert (Hcr' : unwrap_or (u32_field u "cache_read_input_tokens") 0 = cr).
  { unfold u32_field. rewrite Hget by done. unfold base. read_json.
    rewrite u32_optional by done. by apply unwrap_positive. }
  assert (Hcw' : unwrap_or (u32_field u "cache_creation_input_tokens") 0 = cw).
  { unfold u32_field. rewrite Hget by done. unfold base. read_json.
    rewrite u32_optional by done. by apply unwrap_positive. }
  assert (Hr' : unwrap_or (obj ← get u "output_tokens_details"; u32_field obj "thinking_tokens") 0 = r).
  { unfold u. destruct geo; destruct (positive r) eqn:Er; unfold base; read_json; cbn [mbind option_bind];
      rewrite ?(u32_field_jint _ "thinking_tokens" r) by done; cbn [unwrap_or]; try done;
      symmetry; by apply positive_false. }
  assert (Hgeo : nonempty (trim <$> (get u "inference_geo" ≫= as_str)) = geo).
  { unfold u. destruct geo as [g|]; [|destruct (positive r); unfold base; by read_json].
    destruct (Hg g eq_refl) as [Ht He]. destruct (positive r); unfold base; read_json; cbn; rewrite Ht;
      unfold nonempty, opt_filter; by rewrite He. }
  rewrite Hcr', Hcw', Hr', Hgeo. cbn [unwrap_or]. by rewrite saturated_sub.
Qed.

Lemma responses_usage_roundtrip p c cr cw r :
  Forall is_u32 [p; c; cr; cw; r] ->
  exists usage, pointer (encode_responses p c cr cw r) [Key "response"; Key "usage"] = Some usage
    /\ from_responses usage = Usage (Z.min p (u32_max - cr)) (Z.min c (u32_max - r)) cr cw r 0 0 None.
Proof.
  intros H. rewrite !Forall_cons in H. destruct H as (Hp & Hc & Hcr & Hcw & Hr & _).
  eexists. split.
  { unfold encode_responses. rewrite pointer_key. read_json. cbn [mbind option_bind].
    rewrite pointer_key. read_json. reflexivity. }
  unfold from_responses.
  set (base := jobj [("input_tokens", _); _; _]). set (d1 := set_details "input_tokens_details" _ base).
  assert (Hd1 : is_object d1 = true) by (unfold d1; by rewrite is_object_set_details).
  set (u := if positive r then _ else _).
  assert (G : forall k, k <> "output_tokens_details" -> get u k = get d1 k).
  { intros k Hk. unfold u. destruct (positive r); [|done].
    rewrite get_index_set by done. by rewrite str_eqb_neq. }
  assert (N1 : forall k, nested_u32 u "input_tokens_details" k =
    count_of k [("cached_tokens", cr); ("cache_write_tokens", cw)] None).
  { intros k. unfold nested_u32. rewrite G by done. apply nested_set_details; [counts_u32|done..]. }
  assert (N2 : unwrap_or (nested_u32 u "output_tokens_details" "reasoning_tokens") 0 = r).
  { unfold nested_u32, u. destruct (positive r) eqn:Er; unfold d1, base; read_json;
      cbn [mbind option_bind]; rewrite ?(u32_field_jint _ "reasoning_tokens" r) by done; cbn [unwrap_or];
      [done|symmetry; by apply positive_false]. }
  rewrite !N1, N2. cbn [count_of]. eqb_literals. cbn [andb]. rewrite !unwrap_positive by done.
  rewrite (u32_field_jint u "input_tokens" (u32_saturating_add p cr)),
    (u32_field_jint u "output_tokens" (u32_saturating_add c r))
    by ((rewrite G by done; unfold d1, base; by read_json) || auto with wire).
  cbn [unwrap_or]. by rewrite !saturated_sub.
Qed.

Lemma audio_rows_total n : is_u32 n -> fold_left audio_item [jobj [("modality", JStr "AUDIO"); ("tokenCount", jint n)]] 0 = n.
Proof.
  intros H. cbn [fold_left]. unfold audio_item, get_str. read_json. cbn [mbind option_bind as_str unwrap_or].
  change (eq_ignore_ascii_case "AUDIO" "AUDIO") with true. cbn [negb].
  rewrite (u32_field_jint _ "tokenCount" n) by (done || by read_json). cbn [opt_or]. int_lia.
Qed.

Lemma gemini_usage_roundtrip p c cr r a ca :
  Forall is_u32 [p; c; cr; r; a; ca] ->
  exists usage, get (encode_gemini p c cr r a ca) "usageMetadata" = Some usage
    /\ from_gemini usage = Usage (Z.min p (u32_max - cr)) c cr 0 r a ca None.
Proof.
  intros H. rewrite !Forall_cons in H. destruct H as (Hp & Hc & Hcr & Hr & Ha & Hca & _).
  eexists. split; [unfold encode_gemini; by read_json|]. unfold from_gemini.
  set (base := jobj [("promptTokenCount", _); _; _]).
  set (s := set_positive "thoughtsTokenCount" r _).
  set (u := if positive ca then _ else _).
  assert (G : forall k, k <> "promptTokensDetails" -> k <> "candidatesTokensDetails" -> get u k = get s k).
  { intros k H1 H2. unfold u, s. destruct (positive ca), (positive a); rewrite ?get_index_set by object_goal;
      rewrite ?(str_eqb_neq k "promptTokensDetails"), ?(str_eqb_neq k "candidatesTokensDetails") by done; done. }
  assert (F : forall k n, k <> "promptTokensDetails" -> k <> "candidatesTokensDetails" -> is_u32 n ->
    get s k = (if positive n then Some (jint n) else None) ->
    u32_field u k = if positive n then Some n else None).
  { intros k n H1 H2 Hn E. unfold u32_field. rewrite G, E by done. by apply u32_optional. }
  assert (N : forall k, k <> "promptTokensDetails" -> k <> "candidatesTokensDetails" -> get s k = None ->
    u32_field u k = None).
  { intros k H1 H2 E. apply u32_field_none. by rewrite G. }
  rewrite (F "cachedContentTokenCount" cr), (F "thoughtsTokenCount" r) by (done || (unfold s, base; by read_json)).
  rewrite (N "cached_content_token_count"), (N "thoughts_token_count"),
    (N "prompt_token_count"), (N "candidates_token_count") by (done || (unfold s, base; by read_json)).
  rewrite (u32_field_jint u "promptTokenCount" (u32_saturating_add p cr)),
    (u32_field_jint u "candidatesTokenCount" c)
    by ((rewrite G by done; unfold s, base; by read_json) || auto with wire).
  assert (O : forall n, is_u32 n -> unwrap_or (opt_or (if positive n then Some n else None) None) 0 = n).
  { intros n Hn. destruct (positive n) eqn:E; cbn; [done|]. symmetry. by apply positive_false. }
  rewrite !O by done. cbn [opt_or unwrap_or]. rewrite saturated_sub by done.
  assert (A : gemini_audio_tokens u "promptTokensDetails" "prompt_tokens_details" = a).
  { unfold gemini_audio_tokens, u. destruct (positive ca), (positive a) eqn:Ea; unfold s, base; read_json;
      cbn [opt_or mbind option_bind as_array audio_rows]; rewrite ?audio_rows_total by done;
      try done; symmetry; by apply positive_false. }
  assert (CA : gemini_audio_tokens u "candidatesTokensDetails" "candidates_tokens_details" = ca).
  { unfold gemini_audio_tokens, u. destruct (positive ca) eqn:Eca, (positive a); unfold s, base; read_json;
      cbn [opt_or mbind option_bind as_array audio_rows]; rewrite ?audio_rows_total by done;
      try done; symmetry; by apply positive_false. }
  by rewrite A, CA.
Qed.

(** Usage survives the wire it is written on: for any [u32] counts each
    dialect reads back the buckets it has a slot for.  The inclusive totals of
    the wire saturate at [u32::MAX], which cuts a prompt or completion count
    at what is left beside its cache or reasoning share, and nothing else. *)
Theorem usage_roundtrip p c cr cw r a ca geo :
  Forall is_u32 [p; c; cr; cw; r; a; ca] ->
  (forall g, geo = Some g -> trim g = g /\ is_empty g = false) ->
  (exists u, get (encode_chat p c cr cw r a ca) "usage" = Some u
     /\ from_chat u = Usage (Z.min p (u32_max - cr)) (Z.min c (u32_max - r)) cr cw r a ca None)
  /\ (exists u, get (encode_anthropic p c cr cw r geo) "usage" = Some u
     /\ from_anthropic u = Usage p (Z.min c (u32_max - r)) cr cw r 0 0 geo)
  /\ (exists u, pointer (encode_responses p c cr cw r) [Key "response"; Key "usage"] = Some u
     /\ from_responses u = Usage (Z.min p (u32_max - cr)) (Z.min c (u32_max - r)) cr cw r 0 0 None)
  /\ (exists u, get (encode_gemini p c cr r a ca) "usageMetadata" = Some u
     /\ from_gemini u = Usage (Z.min p (u32_max - cr)) c cr 0 r a ca None).
Proof.
  intros H Hg. assert (H' := H). rewrite !Forall_cons in H'.
  destruct H' as (? & ? & ? & ? & ? & ? & ? & _).
  split; [by apply chat_usage_roundtrip|]. split; [|split].
  - apply anthropic_usage_roundtrip; [counts_u32|done].
  - apply responses_usage_roundtrip. counts_u32.
  - apply gemini_usage_roundtrip. counts_u32.
Qed.

(** ** Counts that travel beside the usage event *)
Lemma u32_field_insert obj k v k' :
  u32_field (JObj (obj_insert k v obj)) k' =
  if String.eqb k' k then (as_u64 v ≫= u32_try_from) else u32_field (JObj obj) k'.
Proof.
  unfold u32_field. change (JObj (obj_insert k v obj)) with (index_set (JObj obj) k v).
  rewrite get_index_set by done. by destruct (String.eqb k' k).
Qed.

Lemma u32_field_insert_count obj k o k' :
  (forall n, o = Some n -> is_u32 n) ->
  u32_field (JObj (insert_count k o obj)) k' =
  if String.eqb k' k then opt_or o (u32_field (JObj obj) k') else u32_field (JObj obj) k'.
Proof.
  intros Ho. destruct o as [n|]; cbn [insert_count opt_or]; [|by destruct (String.eqb k' k)].
  rewrite u32_field_insert, as_u64_jint by (by apply Ho). destruct (String.eqb k' k); [|done].
  cbn. apply u32_try_from_Some. by apply Ho.
Qed.

Lemma get_obj_insert obj k v k' :
  get (JObj (obj_insert k v obj)) k' = if String.eqb k' k then Some v else get (JObj obj) k'.
Proof. by apply (get_index_set (JObj obj)). Qed.

Lemma insert_prediction_nested usage acc rej o k :
  (forall n, acc = Some n -> is_u32 n) -> (forall n, rej = Some n -> is_u32 n) ->
  nested_u32 (insert_chat_prediction_tokens usage acc rej) o k =
  if String.eqb o "completion_tokens_details" &&
     match usage with
     | JObj obj => is_object (unwrap_or (obj_get "completion_tokens_details" obj) (JObj []))
     | _ => false
     end
  then
    if String.eqb k "rejected_prediction_tokens" then opt_or rej (nested_u32 usage o k)
    else if String.eqb k "accepted_prediction_tokens" then opt_or acc (nested_u32 usage o k)
    else nested_u32 usage o k
  else nested_u32 usage o k.
Proof.
  intros Ha Hr. unfold insert_chat_prediction_tokens.
  destruct (is_none acc && is_none rej) eqn:E.
  { destruct acc, rej; try done. cbn [opt_or]. by repeat case_match. }
  destruct usage as [| | | | |obj]; try (by rewrite andb_false_r).
  unfold nested_u32 at 1 2 3 4 5. cbn [get].
  destruct (obj_get "completion_tokens_details" obj) as [d|] eqn:Ed.
  - destruct d as [| | | | |d]; cbn [unwrap_or is_object as_object is_some];
      rewrite ?andb_false_r, ?andb_true_r; try done.
    rewrite get_obj_insert. destruct (String.eqb o "completion_tokens_details") eqn:Eo; [|done].
    apply String.eqb_eq in Eo as ->. cbn [get]. rewrite Ed. cbn [mbind option_bind].
    rewrite !u32_field_insert_count by done. 
    destruct (String.eqb k "rejected_prediction_tokens") eqn:E1; [|done].
    apply String.eqb_eq in E1 as ->. by eqb_literals.
  - cbn [unwrap_or is_object as_object is_some]. rewrite andb_true_r.
    rewrite get_obj_insert. destruct (String.eqb o "completion_tokens_details") eqn:Eo; [|done].
    apply String.eqb_eq in Eo as ->. cbn [get]. rewrite Ed. cbn [mbind option_bind].
    rewrite !u32_field_insert_count by done. cbn [opt_or].
    destruct (String.eqb k "rejected_prediction_tokens") eqn:E1; [|done].
    apply String.eqb_eq in E1 as ->. by eqb_literals.
Qed.

(** Two values that agree but on one key. *)
Definition same_but (key : string) (u' u : json) : Prop := forall k, k <> key -> get u' k = get u k.

Lemma same_but_insert key v m : same_but key (JObj (obj_insert key v m)) (JObj m).
Proof. intros k Hk. rewrite get_obj_insert. by rewrite str_eqb_neq. Qed.

Lemma same_but_refl key u : same_but key u u.
Proof. by intros k _. Qed.

#[local] Hint Resolve same_but_insert same_but_refl : wire.

Lemma same_but_u32 key u' u k : same_but key u' u -> k <> key -> u32_field u' k = u32_field u k.
Proof. intros H Hk. unfold u32_field. by rewrite (H k Hk). Qed.

Lemma same_but_nested key u' u o k : same_but key u' u -> o <> key -> nested_u32 u' o k = nested_u32 u o k.
Proof. intros H Hk. unfold nested_u32. by rewrite (H o Hk). Qed.

Lemma same_but_tool_counts usage s f :
  same_but "server_tool_use" (insert_messages_server_tool_counts usage s f) usage.
Proof.
  unfold insert_messages_server_tool_counts. destruct (_ && _), usage; auto with wire.
Qed.

Lemma same_but_creation usage c :
  same_but "cache_creation" (insert_messages_cache_creation usage c) usage.
Proof.
  unfold insert_messages_cache_creation. destruct (opt_filter _ _), usage; auto with wire.
Qed.

Lemma from_anthropic_same_but key u' u :
  same_but key u' u -> In key ["server_tool_use"; "cache_creation"] -> from_anthropic u' = from_anthropic u.
Proof.
  intros H Hin. unfold from_anthropic, get_str.
  assert (N : forall k, In k ["output_tokens_details"; "input_tokens"; "output_tokens";
     "cache_read_input_tokens"; "cache_creation_input_tokens"; "inference_geo"] -> k <> key).
  { intros k Hk ->. cbn in Hk, Hin. destruct_or!; by subst. }
  rewrite !(same_but_u32 _ _ _ _ H), (same_but_nested _ _ _ _ _ H), (H "inference_geo")
    by (apply N; cbn; tauto). done.
Qed.

Lemma from_gemini_same_but key u' u :
  same_but key u' u -> In key ["toolUsePromptTokenCount"; "totalTokenCount"; "trafficType"] ->
  from_gemini u' = from_gemini u.
Proof.
  intros H Hin. unfold from_gemini, gemini_audio_tokens.
  assert (N : forall k, In k ["cachedContentTokenCount"; "cached_content_token_count";
    "thoughtsTokenCount"; "thoughts_token_count"; "promptTokenCount"; "prompt_token_count";
    "candidatesTokenCount"; "candidates_token_count"; "promptTokensDetails"; "prompt_tokens_details";
    "candidatesTokensDetails"; "candidates_tokens_details"] -> k <> key).
  { intros k Hk ->. cbn in Hk, Hin. destruct_or!; by subst. }
  rewrite !(same_but_u32 _ _ _ _ H), (H "promptTokensDetails"), (H "prompt_tokens_details"),
    (H "candidatesTokensDetails"), (H "candidates_tokens_details") by (apply N; cbn; tauto). done.
Qed.

Lemma from_gemini_tool_use usage n :
  from_gemini (insert_gemini_tool_use_prompt_tokens usage n) = from_gemini usage.
Proof.
  unfold insert_gemini_tool_use_prompt_tokens. destruct (opt_filter positive n) as [c|], usage; try done.
  destruct (obj_get "totalTokenCount" _ ≫= as_u64) as [t|].
  - rewrite (from_gemini_same_but "totalTokenCount" _ _ (same_but_insert _ _ _)) by (cbn; auto).
    apply (from_gemini_same_but "toolUsePromptTokenCount"); [apply same_but_insert|cbn; auto].
  - apply (from_gemini_same_but "toolUsePromptTokenCount"); [apply same_but_insert|cbn; auto].
Qed.

Lemma same_but_prediction usage a r :
  same_but "completion_tokens_details" (insert_chat_prediction_tokens usage a r) usage.
Proof.
  unfold insert_chat_prediction_tokens. destruct (_ && _), usage; auto with wire.
  cbv zeta. destruct (unwrap_or _ _); auto with wire.
Qed.

Lemma from_chat_prediction usage a r :
  (forall n, a = Some n -> is_u32 n) -> (forall n, r = Some n -> is_u32 n) ->
  from_chat (insert_chat_prediction_tokens usage a r) = from_chat usage.
Proof.
  intros Ha Hr. unfold from_chat.
  rewrite !insert_prediction_nested by done. eqb_literals. cbn [andb].
  rewrite !(same_but_u32 _ _ _ _ (same_but_prediction usage a r)) by done.
  by repeat case_match.
Qed.

(** The counts that travel beside the usage event are inert: writing the
    prediction, tool, cache-creation, tool-prompt or traffic fields into a
    usage object changes nothing of what its decoder reads. *)
Theorem side_counts_inert usage a r c kind :
  (forall n, a = Some n -> is_u32 n) -> (forall n, r = Some n -> is_u32 n) ->
  from_chat (insert_chat_prediction_tokens usage a r) = from_chat usage
  /\ from_anthropic (insert_messages_server_tool_counts usage a r) = from_anthropic usage
  /\ from_anthropic (insert_messages_cache_creation usage c) = from_anthropic usage
  /\ from_gemini (insert_gemini_tool_use_prompt_tokens usage a) = from_gemini usage
  /\ from_gemini (insert_gemini_traffic_type usage kind) = from_gemini usage.
Proof.
  intros Ha Hr. split; [by apply from_chat_prediction|]. split; [|split; [|split]].
  - eapply from_anthropic_same_but; [apply same_but_tool_counts|cbn; auto].
  - eapply from_anthropic_same_but; [apply same_but_creation|cbn; auto].
  - apply from_gemini_tool_use.
  - unfold insert_gemini_traffic_type. destruct (nonempty kind), usage; try done.
    eapply from_gemini_same_but; [apply same_but_insert|cbn; auto].
Qed.

Definition count_event (item_type : string) (n : Z) : list IrStreamEvent :=
  if positive n then [Protocol item_type (jint n)] else [].

Lemma kept_creation_get c k :
  get_u64 (JObj (kept_creation c)) k =
  if String.eqb k "ephemeral_1h_input_tokens" then opt_filter positive (get_u64 c k)
  else if String.eqb k "ephemeral_5m_input_tokens" then opt_filter positive (get_u64 c k) else None.
Proof.
  assert (S : forall m k1 o k2, (forall n, o = Some n -> as_u64 (jint n) = Some n) ->
    get_u64 (JObj (insert_count k1 o m)) k2 =
    if String.eqb k2 k1 then opt_or o (get_u64 (JObj m) k2) else get_u64 (JObj m) k2).
  { intros m k1 o k2 Ho. unfold get_u64. destruct o as [n|]; cbn [insert_count opt_or].
    - rewrite get_obj_insert. destruct (String.eqb k2 k1); [|done]. cbn [mbind option_bind]. by apply Ho.
    - by destruct (String.eqb k2 k1). }
  assert (U : forall k n, opt_filter positive (get_u64 c k) = Some n -> as_u64 (jint n) = Some n).
  { intros k1 n H%opt_filter_inv. unfold get_u64 in H. destruct (get c k1) as [v|]; [|done].
    cbn in H. unfold as_u64 in H. destruct v as [| |[z|]| | |]; try done.
    case_match eqn:E; [|done]. injection H as ->. cbn. by rewrite E. }
  unfold kept_creation. cbn [fold_left].
  rewrite (S _ "ephemeral_1h_input_tokens") by apply U.
  rewrite (S _ "ephemeral_5m_input_tokens") by apply U.
  change (get_u64 (JObj []) k) with (@None Z).
  destruct (String.eqb k "ephemeral_1h_input_tokens") eqn:E1.
  - apply String.eqb_eq in E1 as ->. eqb_literals. by destruct (opt_filter _ _).
  - destruct (String.eqb k "ephemeral_5m_input_tokens") eqn:E2; [|done].
    apply String.eqb_eq in E2 as ->. by destruct (opt_filter _ _).
Qed.

Lemma kept_creation_idem c : kept_creation (JObj (kept_creation c)) = kept_creation c.
Proof.
  unfold kept_creation at 1 3. cbn [fold_left].
  rewrite !kept_creation_get. eqb_literals.
  destruct (get_u64 c "ephemeral_5m_input_tokens") as [n|], (get_u64 c "ephemeral_1h_input_tokens") as [k|];
    cbn [opt_filter]; repeat (case_match; cbn [opt_filter]); simplify_eq; try done.
Qed.

(** The counts that travel beside the usage event are read back from the
    object they were written into: the positive ones, as the events they came
    from, and the tool-prompt count is added to Gemini's total, saturating. *)
Theorem side_counts_roundtrip obj a r c :
  is_u32 a -> is_u32 r -> is_object (unwrap_or (obj_get "completion_tokens_details" obj) (JObj [])) = true ->
  chat_prediction_token_events (insert_chat_prediction_tokens (JObj obj) (Some a) (Some r))
    = count_event "chat_accepted_prediction_tokens" a ++ count_event "chat_rejected_prediction_tokens" r
  /\ messages_web_search_events (insert_messages_server_tool_counts (JObj obj) (Some a) (Some r))
    = count_event "messages_web_search_requests" a ++ count_event "messages_web_fetch_requests" r
  /\ messages_cache_creation_events
       (insert_messages_cache_creation (JObj obj) (Some (JObj (kept_creation c))))
     = (match kept_creation c with [] => [] | kept => [Protocol "messages_cache_creation" (JObj kept)] end)
  /\ gemini_tool_use_prompt_events
       (jobj [("usageMetadata", insert_gemini_tool_use_prompt_tokens (JObj obj) (Some a))])
     = (if positive a then count_event "gemini_tool_use_prompt_tokens" a
        else gemini_tool_use_prompt_events (jobj [("usageMetadata", JObj obj)])).
Proof.
  intros Ha Hr Hd.
  assert (P : forall n t, is_u32 n ->
    match opt_filter positive (Some n) with Some k => [Protocol t (jint k)] | None => [] end = count_event t n).
  { intros n t Hn. cbn. unfold count_event. by destruct (positive n). }
  split; [|split; [|split]].
  - unfold chat_prediction_token_events, prediction_event. cbn [flat_map].
    rewrite !insert_prediction_nested by (by intros n [= <-]). rewrite Hd. eqb_literals. cbn [andb opt_or].
    rewrite !P by done. by rewrite app_nil_r.
  - unfold messages_web_search_events, web_search_event, insert_messages_server_tool_counts.
    cbn [is_none andb flat_map]. cbv zeta. rewrite get_obj_insert. eqb_literals.
    cbn [insert_count]. cbn [mbind option_bind]. rewrite !get_obj_insert. eqb_literals.
    change (Some (jint a) ≫= as_u64) with (as_u64 (jint a)).
    change (Some (jint r) ≫= as_u64) with (as_u64 (jint r)).
    rewrite !as_u64_jint by done. unfold count_event. cbn [opt_filter].
    destruct (positive a), (positive r); cbn [mbind option_bind]; rewrite ?u32_try_from_Some by done; done.
  - unfold messages_cache_creation_events, insert_messages_cache_creation, object_field.
    cbn [opt_filter is_object as_object is_some]. rewrite get_obj_insert. eqb_literals. cbn [opt_filter].
    change (is_object (JObj (kept_creation c))) with true. cbn iota. by rewrite kept_creation_idem.
  - unfold gemini_tool_use_prompt_events. rewrite !pointer_key. read_json. cbn [mbind option_bind].
    unfold insert_gemini_tool_use_prompt_tokens. cbn [opt_filter].
    destruct (positive a) eqn:Ea; [|by rewrite !pointer_key].
    assert (Q : forall m, get (JObj m) "toolUsePromptTokenCount" = Some (jint a) ->
      match opt_filter positive (pointer (JObj m) [Key "toolUsePromptTokenCount"] ≫= as_u64) ≫= u32_try_from with
      | Some count => [Protocol "gemini_tool_use_prompt_tokens" (jint count)] | None => []
      end = count_event "gemini_tool_use_prompt_tokens" a).
    { intros m E. rewrite pointer_key, E. cbn [mbind option_bind]. rewrite pointer_nil.
      change (Some (jint a) ≫= as_u64) with (as_u64 (jint a)). rewrite as_u64_jint by done.
      cbn [opt_filter]. rewrite Ea. cbn [mbind option_bind]. rewrite u32_try_from_Some by done.
      unfold count_event. by rewrite Ea. }
    destruct (obj_get "totalTokenCount" _ ≫= as_u64) as [t|]; apply Q; rewrite !get_obj_insert; by eqb_literals.
Qed.

(** ** Witnesses *)
Lemma usage_roundtrip_witness :
  (exists u, get (encode_chat 4294967295 3 5 6 7 8 9) "usage" = Some u
     /\ from_chat u = Usage 4294967290 3 5 6 7 8 9 None)
  /\ (exists u, get (encode_anthropic 4294967295 3 5 6 7 (Some "us")) "usage" = Some u
     /\ from_anthropic u = Usage 4294967295 3 5 6 7 0 0 (Some "us")).
Proof.
  assert (H : Forall is_u32 [4294967295; 3; 5; 6; 7; 8; 9]).
  { repeat (apply List.Forall_cons; [vm_compute; split; discriminate|]). apply List.Forall_nil. }
  assert (Hg : forall g, Some "us" = Some g -> trim g = g /\ is_empty g = false).
  { intros g [= <-]. split; vm_compute; reflexivity. }
  destruct (usage_roundtrip 4294967295 3 5 6 7 8 9 (Some "us") H Hg) as (Hc & Hm & _).
  split; [exact Hc|exact Hm].
Defined.

Lemma side_counts_inert_witness :
  from_chat (insert_chat_prediction_tokens (jobj [("prompt_tokens", jint 4)]) (Some 1) None)
  = Usage 4 0 0 0 0 0 0 None.
Proof.
  destruct (side_counts_inert (jobj [("prompt_tokens", jint 4)]) (Some 1) None None None) as (H & _).
  - intros n [= <-]. vm_compute. split; discriminate.
  - discriminate.
  - rewrite H. vm_compute. reflexivity.
Defined.

Lemma side_counts_roundtrip_witness :
  messages_web_search_events (insert_messages_server_tool_counts (JObj []) (Some 2) (Some 0))
  = [Protocol "messages_web_search_requests" (jint 2)].
Proof.
  destruct (side_counts_roundtrip [] 2 0 JNull) as (_ & H & _).
  - vm_compute. split; discriminate.
  - vm_compute. split; discriminate.
  - reflexivity.
  - rewrite H. vm_compute. reflexivity.
Defined.
