(* ===== verification/Completion.v ===== *)
(** * Completion: does a body carry visible output, or a vendor error

    crates/wiremux/src/completion.rs, with the two predicates it borrows
    ([responses_has_visible_output] of stream/complete.rs and
    [converse_has_completion] of stream/converse.rs), the vendor-error texts
    of stream/complete.rs, stream/responses.rs and stream/converse.rs, and
    the two uses at the stream root: [sse_wrapped_error_message] and
    [unknown_event]. *)

From S2P Require Import Prelude Text Json JsonCodec Ir ProfileTypes StreamCore.

(** ** Field predicates *)
Definition array_any (value : json) (key : string) (pred : json -> bool) : bool :=
  is_some_and (get_array value key) (existsb pred).

Definition nonempty_str (value : json) (key : string) : bool :=
  is_some_and (get_str value key) (fun text => negb (is_empty text)).

(** [.and_then(Value::as_str).map(str::trim).filter(|text| !text.is_empty())] *)
Definition trimmed_str (value : json) (key : string) : option string :=
  nonempty (trim <$> get_str value key).

(** A field whose value satisfies a predicate. *)
Definition field_is (value : json) (key : string) (pred : json -> bool) : bool :=
  is_some_and (get value key) pred.

(** Present, not [null], and not an empty string. *)
Definition json_payload (value : option json) : bool :=
  match value with
  | None | Some JNull => false
  | Some (JStr text) => negb (is_empty text)
  | Some _ => true
  end.

(** ** Media and tool calls *)
Fixpoint media_leaf_visible (value : json) : bool :=
  match value with
  | JStr text => negb (is_empty text)
  | JObj m =>
      nonempty_str value "url" || nonempty_str value "data" || nonempty_str value "transcript"
      || (fix source_visible (m : list (string * json)) : bool :=
            match m with
            | [] => false
            | (k, x) :: m => if String.eqb "source" k then media_leaf_visible x else source_visible m
            end) m
  | _ => false
  end.

Definition media_payload_visible (value : json) : bool :=
  nonempty_str value "url" || nonempty_str value "data" || nonempty_str value "transcript"
  || field_is value "image_url" media_leaf_visible
  || field_is value "input_audio" media_leaf_visible
  || field_is value "audio" media_leaf_visible
  || field_is value "source" media_leaf_visible.

Definition content_part_visible (item : json) : bool :=
  is_some_and (as_str item) (fun text => negb (is_empty text))
  || nonempty_str item "text" || nonempty_str item "refusal" || media_payload_visible item.

Definition content_visible (value : json) : bool :=
  match value with
  | JStr text => negb (is_empty text)
  | JArr items => existsb content_part_visible items
  | _ => false
  end.

Definition argument_visible (value : json) : bool :=
  json_payload (opt_or (get value "arguments") (get value "input")).

Definition tool_call_visible (call : json) : bool :=
  if nonempty_str call "id" || nonempty_str call "name" || argument_visible call then true
  else
    existsb (fun key =>
        field_is call key (fun body =>
          nonempty_str body "name" || nonempty_str body "id" || argument_visible body))
      ["function"; "custom"].

Definition messages_tool_block_visible (block : json) : bool := tool_call_visible block.

(** ** Messages *)
Definition source_file_visible (source : json) : bool :=
  nonempty_str source "file_id" || nonempty_str source "id".

Definition messages_content_field_visible (value : option json) : bool :=
  match value with
  | None | Some JNull => false
  | Some (JStr text) => negb (is_empty text)
  | Some (JArr items) =>
      existsb (fun item =>
        is_some_and (as_str item) (fun text => negb (is_empty text))
        || nonempty_str item "text" || nonempty_str item "thinking"
        || tool_call_visible item || media_payload_visible item) items
  | Some object =>
      if is_object object then
        nonempty_str object "text" || tool_call_visible object || media_payload_visible object
      else false
  end.

Definition messages_block_has_payload (block : json) : bool :=
  nonempty_str block "text" || nonempty_str block "thinking" || nonempty_str block "signature"
  || nonempty_str block "data" || nonempty_str block "id" || nonempty_str block "name"
  || nonempty_str block "tool_use_id" || tool_call_visible block || media_payload_visible block
  || field_is block "source" source_file_visible
  || messages_content_field_visible (get block "content").

Definition messages_citation_visible (citation : json) : bool :=
  is_object citation && is_some (get_str citation "type").

Definition messages_thinking_block_visible (block : json) : bool :=
  nonempty_str block "thinking" || nonempty_str block "signature".

Definition messages_text_block_visible (block : json) : bool :=
  nonempty_str block "text" || array_any block "citations" messages_citation_visible.

Definition messages_block_keeps_completion (block : json) : bool :=
  match get_str block "type" with
  | None => false
  | Some ty =>
      if String.eqb ty "text" then messages_text_block_visible block
      else if String.eqb ty "thinking" then messages_thinking_block_visible block
      else if String.eqb ty "tool_use" then messages_tool_block_visible block
      else messages_block_has_payload block
  end.

Definition messages_content_visible (value : json) : bool :=
  array_any value "content" messages_block_keeps_completion.

(** ** Chat Completions *)
Definition audio_visible (body : json) : bool :=
  match object_field body "audio" with
  | None => false
  | Some audio => nonempty_str audio "data" || nonempty_str audio "transcript"
  end.

Definition choice_visible (choice : json) : bool :=
  let body := unwrap_or (opt_or (get choice "message") (get choice "delta")) choice in
  if field_is body "content" content_visible then true
  else if nonempty_str body "refusal" || nonempty_str body "reasoning"
          || nonempty_str body "reasoning_content" then true
  else if audio_visible body then true
  else if array_any body "tool_calls" tool_call_visible then true
  else field_is body "function_call" tool_call_visible.

(** ** Gemini *)
Definition gemini_function_call_visible (call : json) : bool :=
  nonempty_str call "id" || nonempty_str call "name" || json_payload (get call "args").

Definition gemini_response_visible (value : json) : bool :=
  nonempty_str value "name" || nonempty_str value "id" || json_payload (get value "response").

Definition gemini_side_part_visible (part : json) : bool :=
  field_is part "fileData" (fun v => nonempty_str v "fileUri" || nonempty_str v "uri")
  || field_is part "executableCode" (fun v => nonempty_str v "language" || nonempty_str v "code")
  || field_is part "codeExecutionResult" (fun v => nonempty_str v "outcome" || nonempty_str v "output")
  || field_is part "functionResponse" gemini_response_visible
  || field_is part "toolCall" gemini_function_call_visible
  || field_is part "toolResponse" gemini_response_visible.

Definition gemini_part_visible (part : json) : bool :=
  nonempty_str part "text"
  || field_is part "functionCall" gemini_function_call_visible
  || field_is part "inlineData" (fun v => nonempty_str v "data")
  || gemini_side_part_visible part.

Definition candidate_visible (candidate : json) : bool :=
  nonempty_str candidate "finishMessage"
  || is_some_and (pointer candidate [Key "content"; Key "parts"] ≫= as_array) (existsb gemini_part_visible).

(** ** Responses *)
Definition responses_arg_present (value : option json) : bool :=
  match value with
  | None | Some JNull => false
  | Some (JStr text) => negb (is_empty text)
  | Some _ => true
  end.

Definition responses_call_visible (item : json) : bool :=
  existsb (fun key => is_some (nonempty (str_field item key))) ["name"; "call_id"; "id"]
  || responses_arg_present (get item "arguments") || responses_arg_present (get item "input").

Definition responses_part_visible (part : json) : bool :=
  existsb (fun key => is_some (nonempty (str_field part key)))
    ["text"; "refusal"; "data"; "transcript"; "image_url"].

Definition responses_hosted_field_present (value : json) : bool :=
  match value with
  | JStr text => negb (is_empty text)
  | JArr items => negb (bool_decide (items = []))
  | JObj m => negb (bool_decide (m = []))
  | JNum _ | JBool _ => true
  | JNull => false
  end.

Definition responses_hosted_visible (item : json) : bool :=
  match as_object item with
  | None => false
  | Some m => existsb (fun kv => negb (String.eqb kv.1 "type") && responses_hosted_field_present kv.2) m
  end.

Definition responses_reasoning_visible (item : json) : bool :=
  is_some (nonempty (str_field item "encrypted_content"))
  || is_some_and (get_array item "summary") (existsb responses_part_visible)
  || is_some_and (get_array item "content") (existsb responses_part_visible).

Definition responses_item_visible (item : json) : bool :=
  match get_str item "type" with
  | None => false
  | Some ty =>
      if String.eqb ty "message" then
        is_some_and (get_array item "content") (existsb responses_part_visible)
      else if one_of ty ["function_call"; "custom_tool_call"] then responses_call_visible item
      else if String.eqb ty "reasoning" then responses_reasoning_visible item
      else if one_of ty ["output_audio"; "audio"] then responses_part_visible item
      else responses_hosted_visible item
  end.

Definition responses_has_visible_output (value : json) : bool :=
  if is_some (nonempty (str_field value "text")) then true
  else
    match opt_or (get_array value "output")
            (pointer value [Key "response"; Key "output"] ≫= as_array) with
    | None => false
    | Some items => existsb responses_item_visible items
    end.

(** ** Converse *)
Definition pointer_nonempty (value : json) (p : list ptr_token) : bool :=
  is_some (nonempty (pointer_str value p)).

Definition nonempty_converse_str (value : json) (key : string) : bool :=
  is_some_and (get_str value key) (fun text => negb (is_empty text)).

Fixpoint nested_nonempty_string (value : json) : bool :=
  match value with
  | JStr text => negb (is_empty (trim text))
  | JArr items => existsb nested_nonempty_string items
  | JObj m => existsb (fun kv => nested_nonempty_string kv.2) m
  | _ => false
  end.

Definition converse_tool_visible (tool : json) : bool :=
  nonempty_converse_str tool "toolUseId" || nonempty_converse_str tool "name"
  || json_payload (get tool "input").

Definition converse_media_visible (value : json) : bool :=
  nonempty_converse_str value "name"
  || pointer_nonempty value [Key "source"; Key "bytes"]
  || pointer_nonempty value [Key "source"; Key "s3Location"; Key "uri"].

Definition converse_block_visible (block : json) : bool :=
  nonempty_converse_str block "text"
  || pointer_nonempty block [Key "reasoningContent"; Key "reasoningText"; Key "text"]
  || pointer_nonempty block [Key "reasoningContent"; Key "reasoningText"; Key "signature"]
  || pointer_nonempty block [Key "reasoningContent"; Key "redactedContent"]
  || field_is block "toolUse" converse_tool_visible
  || field_is block "image" converse_media_visible
  || field_is block "document" converse_media_visible
  || field_is block "video" converse_media_visible
  || field_is block "audio" (fun audio => pointer_nonempty audio [Key "source"; Key "bytes"])
  || field_is block "guardContent" nested_nonempty_string
  || is_some_and (pointer block [Key "citationsContent"; Key "citations"]) nested_nonempty_string.

Definition converse_output_visible (value : json) : bool :=
  is_some_and (pointer value [Key "output"; Key "message"; Key "content"] ≫= as_array)
    (existsb converse_block_visible).

Definition converse_has_completion (value : json) : bool :=
  if is_some_and (get_str value "stopReason") (fun text => negb (is_empty (trim text))) then true
  else
    match get value "output" with
    | Some (JObj _) => converse_output_visible value
    | Some (JArr items) => existsb converse_block_visible items
    | _ => false
    end.

Definition converse_stream_frame (value : json) : bool :=
  existsb (fun key => is_some (get value key))
    ["messageStart"; "contentBlockStart"; "contentBlockDelta"; "contentBlockStop"; "messageStop"; "metadata"].

(** ** Any dialect *)
Definition json_has_completion (value : json) : bool :=
  array_any value "choices" choice_visible
  || array_any value "candidates" candidate_visible
  || responses_has_visible_output value
  || messages_content_visible value
  || converse_has_completion value.

(** ** Vendor errors *)
Definition json_string_error (value : json) : option string := trimmed_str value "error".

(** [find_map] over literal keys. *)
Fixpoint find_map {A B} (f : A -> option B) (l : list A) : option B :=
  match l with [] => None | a :: l => match f a with Some b => Some b | None => find_map f l end end.

(** [format!("{code}: {message}")], or the one that is there. *)
Definition code_message (code message : option string) : option string :=
  match code, message with
  | Some code, Some message => Some (code +:+ ": " +:+ message)
  | None, Some message => Some message
  | Some code, None => Some code
  | None, None => None
  end.

Definition error_code (err : json) (key : string) : option string :=
  value ← get err key;
  match as_str value with
  | Some text =>
      let text := trim text in
      if is_empty text || (String.eqb key "type" && String.eqb text "error") then None else Some text
  | None => pretty <$> as_i64 value
  end.

Definition error_object_detail (err : json) : option string :=
  code_message (find_map (error_code err) ["code"; "type"; "status"]) (trimmed_str err "message").

Definition plain_error_detail (value : json) : option string :=
  match json_string_error value with
  | Some text => Some text
  | None => object_field value "error" ≫= error_object_detail
  end.

Definition openai_error_detail (value : json) : option string :=
  match json_string_error value with
  | Some text => Some text
  | None => object_field value "error" ≫= error_object_detail
  end.

Definition responses_surface_error (value : json) : option string :=
  match plain_error_detail value with
  | Some detail => Some detail
  | None => object_field value "last_error" ≫= error_object_detail
  end.

Definition responses_gateway_error (value : json) : option string :=
  if is_some (get_str value "status") then None
  else if bool_decide (get_str value "object" = Some "response") then None
  else if starts_with "response." (unwrap_or (get_str value "type") "") then None
  else if existsb (fun key =>
            is_some_and (get_array value key) (fun items => negb (bool_decide (items = []))))
            ["output"; "content"; "choices"; "candidates"]
  then None
  else plain_error_detail value.

Definition useful_failure (err : json) : bool :=
  if negb (is_object err) then false
  else
    let message := is_some_and (get_str err "message") (fun text => negb (is_empty (trim text))) in
    let code := match get err "code" with
                | Some (JStr text) => negb (is_empty (trim text))
                | Some (JNum _) => true
                | _ => false
                end in
    message || code.

Definition failure_object (value : json) : option json :=
  opt_or (opt_filter useful_failure (pointer value [Key "response"; Key "error"]))
    (opt_filter useful_failure (pointer value [Key "response"; Key "last_error"])).

Definition last_error_code (last : json) : option string :=
  code ← get last "code";
  match as_str code with
  | Some text => let text := trim text in if is_empty text then None else Some text
  | None => pretty <$> as_i64 code
  end.

Definition failure_detail (value : json) : option string :=
  last ← failure_object value; code_message (last_error_code last) (trimmed_str last "message").

Definition complete_exception_detail (value : json) : option string :=
  if converse_has_completion value then None
  else
    match trimmed_str value "__type", trimmed_str value "message" with
    | Some ty, Some message => Some (ty +:+ ": " +:+ message)
    | Some ty, None => Some ty
    | None, Some message => Some message
    | None, None => if converse_stream_frame value then None else openai_error_detail value
    end.

Section Serializer.
Context {SJ : SerdeJson}.

(** ** At the stream root *)
Definition responses_bare_error (data : string) : option string :=
  value ← from_str data;
  match responses_gateway_error value with
  | Some detail => Some detail
  | None =>
      match json_string_error value with
      | Some text => Some text
      | None =>
          match object_field value "error" ≫= error_object_detail with
          | Some detail => Some detail
          | None => failure_detail value
          end
      end
  end.

Definition unknown_stream_detail (name : string) : string :=
  "unknown stream event `" +:+ name +:+
  "` (stream_unknown_policy = hard-error|passthrough, or add `" +:+ name +:+ "` to stream_events)".

(** [profile.dialect.stream_unknown_policy] is the argument [policy]. *)
Definition unknown_event (wire : Wire) (policy : StreamUnknownPolicy) (name data : string) :
  result MapError (option IrStreamEvent) :=
  match (if wire_eqb wire Responses && negb (responses_unknown_carries_payload data)
         then responses_bare_error data else None) with
  | Some detail => Err (Invalid detail)
  | None =>
      match policy with
      | UnknownHardError =>
          if wire_eqb wire Responses && negb (responses_unknown_carries_payload data) then Ok None
          else Err (HardError name (unknown_stream_detail name))
      | UnknownPassthrough => Ok (Some (UnknownEvent name (unwrap_or (from_str data) (JStr data))))
      end
  end.

(** [["type", "code", "status"].iter().find_map(...)] of the wrapped error. *)
Definition wrapped_code (error : json) (key : string) : option string :=
  text ← nonempty (get_str error key);
  if String.eqb key "type" && String.eqb text "error" then None else Some text.

Definition wrapped_error_object (value : json) : option json :=
  match object_field value "error" with
  | Some error => Some error
  | None => if bool_decide (get_str value "type" = Some "error") then Some value else None
  end.

Definition sse_wrapped_error_message (data : string) : option string :=
  value ← from_str data;
  if json_has_completion value || choice_visible value then None
  else
    match json_string_error value with
    | Some text => Some text
    | None =>
        error ← wrapped_error_object value;
        match find_map (wrapped_code error) ["type"; "code"; "status"],
              nonempty (get_str error "message") with
        | Some code, Some message => Some (code +:+ ": " +:+ message)
        | None, Some message => Some message
        | _, _ => Some data
        end
    end.

End Serializer.

(** ** Lemmas *)
Lemma media_leaf_visible_eq value :
  media_leaf_visible value =
  match value with
  | JStr text => negb (is_empty text)
  | JObj _ =>
      nonempty_str value "url" || nonempty_str value "data" || nonempty_str value "transcript"
      || field_is value "source" media_leaf_visible
  | _ => false
  end.
Proof.
  destruct value as [| | | | |m]; try done. cbn [media_leaf_visible]. f_equal.
  unfold field_is. cbn [get]. induction m as [|[k x] m IH]; [done|]. cbn [obj_get].
  by destruct (String.eqb "source" k).
Qed.

Lemma nonempty_Some o s : nonempty o = Some s -> o = Some s /\ is_empty s = false.
Proof. destruct o as [t|]; cbn; [|done]. destruct (is_empty t) eqn:E; cbn; [done|]. by intros [= ->]. Qed.

(** ** Text leaves *)
Definition blank (s : string) : bool := is_empty (trim s).

Lemma payload_present_leaf v :
  responses_payload_value_present v = true <-> exists s, json_leaf v s /\ blank s = false.
Proof.
  induction v as [|b|n|s|l IH|m IH] using json_ind'; cbn [responses_payload_value_present];
    try (split; [done|intros (s' & H & _); inversion H]; fail).
  - unfold blank. rewrite negb_true_iff. split; [intros H; exists s; by split; [constructor|]|].
    intros (s' & H & Hs). by inversion H; subst.
  - rewrite Forall_forall in IH. rewrite existsb_exists. split.
    + intros (v & Hv & Hp). apply IH in Hp as (s & ? & ?); [|by apply list_elem_of_In].
      exists s. split; [by econstructor|done].
    + intros (s & H & Hs). inversion H as [|? v ? Hv Hl|]; subst. exists v. split; [done|].
      apply IH; [by apply list_elem_of_In|]. by exists s.
  - rewrite Forall_forall in IH. rewrite existsb_exists. split.
    + intros ([k v] & Hv & Hp). apply IH in Hp as (s & ? & ?); [|by apply list_elem_of_In].
      exists s. split; [by econstructor|done].
    + intros (s & H & Hs). inversion H as [| |? k v ? Hv Hl]; subst. exists (k, v). split; [done|].
      apply IH; [by apply list_elem_of_In|]. by exists s.
Qed.

(** The Responses search and the Converse search are the same function. *)
Lemma nested_nonempty_string_eq v : nested_nonempty_string v = responses_payload_value_present v.
Proof. reflexivity. Qed.

Section Properties.
Context {SJ : SerdeJson}.

Lemma unknown_carries_false data :
  responses_unknown_carries_payload data = false ->
  exists value, from_str data = Some value
    /\ (forall m key v s, value = JObj m -> In key responses_payload_keys -> obj_get key m = Some v ->
          json_leaf v s -> blank s = true)
    /\ (forall s, value = JStr s -> blank s = true).
Proof.
  unfold responses_unknown_carries_payload. destruct (from_str data) as [value|]; [|done].
  intros H. exists value. split; [done|]. split.
  - intros m key v s -> Hk Hg Hl. cbn [as_object] in H.
    destruct (blank s) eqn:Eb; [done|]. exfalso.
    assert (E : responses_payload_value_present v = true) by (apply payload_present_leaf; eauto).
    enough (T : existsb (fun key => is_some_and (obj_get key m) responses_payload_value_present)
                  responses_payload_keys = true) by (rewrite T in H; done).
    apply existsb_exists. exists key. split; [done|]. by rewrite Hg.
  - intros s ->. cbn in H. unfold blank. by destruct (is_empty (trim s)).
Qed.

(** An unrecognized frame is dropped only where nothing is lost: on
    Responses, under the strict policy, when the frame is JSON whose content
    fields hold no text at any depth and that carries no vendor error.  Under
    the passthrough policy a frame is never dropped, and its data is kept. *)
Theorem unknown_event_drops_nothing wire policy name data :
  match unknown_event wire policy name data with
  | Ok None =>
      wire = Responses /\ policy = UnknownHardError /\ responses_bare_error data = None
      /\ exists value, from_str data = Some value
         /\ forall m key v s, value = JObj m -> In key responses_payload_keys ->
              obj_get key m = Some v -> json_leaf v s -> blank s = true
  | Ok (Some ev) =>
      policy = UnknownPassthrough
      /\ (ev = UnknownEvent name (JStr data) \/ exists value, from_str data = Some value /\ ev = UnknownEvent name value)
  | Err (HardError path _) => policy = UnknownHardError /\ path = name
  | Err (Invalid detail) => wire = Responses /\ responses_bare_error data = Some detail
  | Err (MapJson _) => False
  end.
Proof.
  unfold unknown_event, wire_eqb.
  destruct (bool_decide (wire = Responses)) eqn:Ew, (responses_unknown_carries_payload data) eqn:Ep;
    cbn [andb negb]; rewrite ?bool_decide_eq_true in Ew.
  - destruct policy; [done|]. split; [done|]. destruct (from_str data); cbn; eauto.
  - destruct (responses_bare_error data) as [detail|] eqn:Ed; [done|].
    destruct policy.
    + split; [done|]. split; [done|]. split; [done|].
      apply unknown_carries_false in Ep as (value & ? & ? & _). eauto.
    + split; [done|]. destruct (from_str data); cbn; eauto.
  - destruct policy; [done|]. split; [done|]. destruct (from_str data); cbn; eauto.
  - destruct policy; [done|]. split; [done|]. destruct (from_str data); cbn; eauto.
Qed.

(** A vendor error is never hidden behind an empty shell: a JSON frame
    with an [error] object, a nonblank [error] string, or the type [error]
    either shows visible output, or is reported, with the vendor's message in
    the report whenever there is one. *)
Theorem wrapped_error_reported data value :
  from_str data = Some value ->
  json_has_completion value || choice_visible value = false ->
  (is_some (json_string_error value) || is_some (object_field value "error")
   || bool_decide (get_str value "type" = Some "error")) = true ->
  exists report, sse_wrapped_error_message data = Some report
    /\ (forall text, json_string_error value = Some text -> report = text)
    /\ (forall message error,
          json_string_error value = None -> wrapped_error_object value = Some error ->
          nonempty (get_str error "message") = Some message ->
          report = message \/ exists code, report = code +:+ ": " +:+ message).
Proof.
  intros Hv Hc He. unfold sse_wrapped_error_message. rewrite Hv. cbn [mbind option_bind]. rewrite Hc.
  destruct (json_string_error value) as [text|].
  { exists text. split; [done|]. by split; [intros ? [= ->]|]. }
  assert (Ho : exists error, wrapped_error_object value = Some error).
  { unfold wrapped_error_object. destruct (object_field value "error") as [error|]; [eauto|].
    cbn in He. rewrite He. eauto. }
  destruct Ho as [error Ho]. rewrite Ho. cbn [mbind option_bind].
  destruct (find_map (wrapped_code error) _) as [code|], (nonempty (get_str error "message")) as [message|] eqn:Em;
    eexists; (split; [reflexivity|]); (split; [done|]); intros m e _ [= <-] Hm; rewrite Em in Hm; try done;
    injection Hm as ->; eauto.
Qed.

End Properties.

(** ** Witnesses *)
Section Witnesses.
#[local] Existing Instance bits_codec.
#[local] Existing Instance bits_codec_laws.

Lemma wrapped_error_reported_witness :
  exists report, sse_wrapped_error_message
    (to_string (jobj [("choices", JArr [jobj [("delta", JObj [])]]);
                      ("error", jobj [("code", JStr "overloaded"); ("message", JStr "try later")])]))
  = Some report
  /\ (report = "try later" \/ exists code, report = code +:+ ": " +:+ "try later").
Proof.
  destruct (wrapped_error_reported
    (to_string (jobj [("choices", JArr [jobj [("delta", JObj [])]]);
                      ("error", jobj [("code", JStr "overloaded"); ("message", JStr "try later")])]))
    (jobj [("choices", JArr [jobj [("delta", JObj [])]]);
           ("error", jobj [("code", JStr "overloaded"); ("message", JStr "try later")])]))
    as (report & Hr & _ & Hm).
  - apply from_to. vm_compute. reflexivity.
  - vm_compute. reflexivity.
  - vm_compute. reflexivity.
  - exists report. split; [exact Hr|].
    apply (Hm "try later" (jobj [("code", JStr "overloaded"); ("message", JStr "try later")]));
      vm_compute; reflexivity.
Defined.

End Witnesses.
