(* ===== verification/BTree.v ===== *)
(** * BTree: [BTreeMap] with integer keys

    The Standard Library's ordered map as its sorted list of bindings: what
    the code observes of it is [get], [insert], [remove], and the order of
    iteration. *)

From stdpp Require Import sorting.
From S2P Require Import Prelude.

Section BTree.
Context {V : Type}.

Abbreviation btree := (list (Z * V)) (only parsing).

Fixpoint bt_get (k : Z) (m : btree) : option V :=
  match m with
  | [] => None
  | (k', v) :: m => if k =? k' then Some v else bt_get k m
  end.

Fixpoint bt_insert (k : Z) (v : V) (m : btree) : btree :=
  match m with
  | [] => [(k, v)]
  | (k', v') :: m' =>
      if k <? k' then (k, v) :: m else if k =? k' then (k, v) :: m' else (k', v') :: bt_insert k v m'
  end.

Fixpoint bt_remove (k : Z) (m : btree) : btree :=
  match m with
  | [] => []
  | (k', v') :: m' => if k =? k' then m' else (k', v') :: bt_remove k m'
  end.

(** Keys are strictly increasing: what every operation keeps. *)
Definition bt_sorted (m : btree) : Prop := StronglySorted Z.lt (map fst m).

Lemma bt_sorted_nil : bt_sorted [].
Proof. constructor. Qed.

Lemma bt_sorted_cons k v m :
  bt_sorted ((k, v) :: m) <-> bt_sorted m /\ Forall (fun kv => k < kv.1) m.
Proof.
  unfold bt_sorted. cbn. split.
  - inversion 1 as [|? ? Hs Hf]; subst. split; [done|]. by rewrite Forall_map in Hf.
  - intros [Hs Hf]. constructor; [done|]. by rewrite Forall_map.
Qed.

Lemma bt_get_above k m : Forall (fun kv => k < kv.1) m -> bt_get k m = None.
Proof.
  induction 1 as [|[k' v'] m Hk Hm IH]; [done|]. cbn in *.
  by rewrite (proj2 (Z.eqb_neq k k')) by lia.
Qed.

Lemma bt_get_insert k k' v m :
  bt_get k' (bt_insert k v m) = if k' =? k then Some v else bt_get k' m.
Proof.
  induction m as [|[k1 v1] m IH]; cbn; [done|].
  destruct (Z.ltb_spec k k1); cbn; [done|].
  destruct (Z.eqb_spec k k1) as [->|]; cbn; [by destruct (k' =? k1)|].
  rewrite IH. destruct (Z.eqb_spec k' k1) as [->|]; [|done].
  by rewrite (proj2 (Z.eqb_neq k1 k)) by done.
Qed.

Lemma bt_get_remove k k' m :
  bt_sorted m -> bt_get k' (bt_remove k m) = if k' =? k then None else bt_get k' m.
Proof.
  induction m as [|[k1 v1] m IH]; cbn; [by case_match|].
  intros [Hs Hf]%bt_sorted_cons. specialize (IH Hs).
  destruct (Z.eqb_spec k k1) as [->|]; cbn.
  - destruct (Z.eqb_spec k' k1) as [->|]; [|done]. by apply bt_get_above.
  - rewrite IH. destruct (Z.eqb_spec k' k1) as [->|]; [|done].
    by rewrite (proj2 (Z.eqb_neq k1 k)) by done.
Qed.

Lemma bt_insert_above k v k0 m :
  Forall (fun kv => k0 < kv.1) m -> k0 < k -> Forall (fun kv => k0 < kv.1) (bt_insert k v m).
Proof.
  induction 1 as [|[k1 v1] m Hk Hm IH]; cbn; intros H0; [by repeat constructor|].
  repeat case_match; repeat constructor; cbn in *; auto.
Qed.

Lemma bt_insert_sorted k v m : bt_sorted m -> bt_sorted (bt_insert k v m).
Proof.
  induction m as [|[k1 v1] m IH]; cbn.
  { intros _. apply bt_sorted_cons. split; [apply bt_sorted_nil|constructor]. }
  intros [Hs Hf]%bt_sorted_cons. destruct (Z.ltb_spec k k1); [|destruct (Z.eqb_spec k k1) as [->|]].
  - apply bt_sorted_cons. split; [by apply bt_sorted_cons|]. constructor; [done|].
    eapply Forall_impl; [exact Hf|]. cbn. lia.
  - by apply bt_sorted_cons.
  - apply bt_sorted_cons. split; [by apply IH|]. apply bt_insert_above; [done|lia].
Qed.

Lemma bt_remove_sorted k m : bt_sorted m -> bt_sorted (bt_remove k m).
Proof.
  induction m as [|[k1 v1] m IH]; cbn; [done|].
  intros [Hs Hf]%bt_sorted_cons. destruct (Z.eqb_spec k k1) as [->|]; [done|].
  apply bt_sorted_cons. split; [by apply IH|].
  clear -Hf. induction Hf as [|[k2 v2] m Hk Hm IH]; cbn; [done|].
  destruct (k =? k2); [done|by constructor].
Qed.

Lemma bt_get_In k v m : bt_sorted m -> bt_get k m = Some v <-> In (k, v) m.
Proof.
  induction m as [|[k1 v1] m IH]; [done|]. intros [Hs Hf]%bt_sorted_cons. cbn.
  rewrite <- IH by done. destruct (Z.eqb_spec k k1) as [->|].
  - split; [by intros [= ->]; left|]. intros [[= ->]|H]; [done|].
    apply (bt_get_above k1) in Hf. by rewrite Hf in H.
  - split; [by right|]. intros [[= -> ->]|H]; done.
Qed.

(** What a sorted map contributes under one key, in iteration order. *)
Lemma filter_none {B} (P : B -> bool) l : (forall b, In b l -> P b = false) -> List.filter P l = [].
Proof.
  intros H. induction l as [|b l IH]; [done|]. cbn. rewrite H by (by left).
  apply IH. intros; apply H; by right.
Qed.

Lemma bt_flat_map_key {B} (f : Z * V -> list B) (P : B -> bool) k m :
  bt_sorted m ->
  (forall kv b, In kv m -> In b (f kv) -> kv.1 <> k -> P b = false) ->
  List.filter P (flat_map f m) =
  match bt_get k m with Some v => List.filter P (f (k, v)) | None => [] end.
Proof.
  intros Hs HP.
  assert (Hno : forall l, incl l m -> Forall (fun kv => kv.1 <> k) l -> List.filter P (flat_map f l) = []).
  { intros l Hi Hl. apply filter_none. intros b (kv & Hkv & Hb)%in_flat_map.
    apply (HP kv); [by apply Hi|done|]. rewrite List.Forall_forall in Hl. by apply Hl. }
  induction m as [|[k1 v1] m IH]; [done|]. apply bt_sorted_cons in Hs as [Hs Hf].
  cbn [flat_map bt_get]. rewrite List.filter_app. destruct (Z.eqb_spec k k1) as [->|Hne].
  - rewrite (Hno m), app_nil_r; [done|intros ? ?; by right|].
    eapply Forall_impl; [exact Hf|]. intros [k2 v2]. cbn. lia.
  - rewrite <- IH; [|done| |].
    + rewrite filter_none; [done|]. intros b Hb. apply (HP (k1, v1)); [by left|done|]. cbn. lia.
    + intros kv b Hkv. apply HP. by right.
    + intros l Hi. apply Hno. intros x Hx. right. by apply Hi.
Qed.

(** ** The entries under one key, in the order of a list *)
Definition at_index (i : Z) (l : list (Z * V)) : list V := map snd (List.filter (fun kv => i =? kv.1) l).

Lemma at_index_app i l k : at_index i (l ++ k) = at_index i l ++ at_index i k.
Proof. unfold at_index. by rewrite List.filter_app, map_app. Qed.

Lemma at_index_sorted i m : bt_sorted m -> at_index i m = option_list (bt_get i m).
Proof.
  unfold at_index. induction m as [|[k c] m IH]; [done|]. intros [Hs Hf]%bt_sorted_cons. cbn [List.filter bt_get fst].
  destruct (Z.eqb_spec i k) as [->|]; cbn [map snd].
  - f_equal. rewrite IH, bt_get_above by done. done.
  - by apply IH.
Qed.

End BTree.

#[export] Hint Resolve bt_sorted_nil bt_insert_sorted bt_remove_sorted : wire.
