(* ===== verification/Assembler.v ===== *)
(** * Assembler: merging fragmented tool-call starts

    [ToolCallAssembler] of crates/wiremux/src/stream/mod.rs: a Chat stream may
    send the id and the name of a tool call in different chunks, and argument
    fragments before either.  The assembler holds what is incomplete per call
    index and releases each call once. *)

From stdpp Require Import gmap.
From S2P Require Import Prelude Text Json Ir BTree.

Record PendingToolStart := mkPending {
  pend_id : string;
  pend_name : string;
  pend_signature : option string;
  pend_index : Z;
  pend_args : list string
}.

Record ToolCallAssembler := mkAssembler {
  pending : list (Z * PendingToolStart);
  started : gset Z
}.

Definition assembler_new : ToolCallAssembler := mkAssembler [] ∅.

Definition has_start (p : PendingToolStart) : bool :=
  negb (is_empty (pend_id p)) || negb (is_empty (pend_name p)).

Definition into_events (p : PendingToolStart) : list IrStreamEvent :=
  (if has_start p
   then [ToolCallStart (pend_id p) (pend_name p) (pend_signature p) (pend_index p)] else [])
  ++ map (fun delta => ToolCallArgDelta delta (pend_index p)) (pend_args p).

Definition flush (a : ToolCallAssembler) : ToolCallAssembler * list IrStreamEvent :=
  let started := fold_left (fun s kp => if has_start kp.2 then {[ pend_index kp.2 ]} ∪ s else s)
                   (pending a) (started a) in
  (mkAssembler [] started, flat_map (fun kp => into_events kp.2) (pending a)).

Definition push_start (a : ToolCallAssembler) (id name : string) (thought_signature : option string)
    (index : Z) : ToolCallAssembler * list IrStreamEvent :=
  if decide (index ∈ started a) then (a, [])
  else
    let '(rest, p) :=
      match bt_get index (pending a) with
      | Some prev =>
          (bt_remove index (pending a),
           mkPending (if is_empty id then pend_id prev else id)
             (if is_empty name then pend_name prev else name)
             (opt_or thought_signature (pend_signature prev)) index (pend_args prev))
      | None => (pending a, mkPending id name thought_signature index [])
      end in
    if is_empty (pend_id p) || is_empty (pend_name p)
    then (mkAssembler (bt_insert index p rest) (started a), [])
    else (mkAssembler rest ({[ index ]} ∪ started a), into_events p).

Definition add_arg (p : PendingToolStart) (delta : string) : PendingToolStart :=
  mkPending (pend_id p) (pend_name p) (pend_signature p) (pend_index p) (pend_args p ++ [delta]).

(** [FinishReason] and [Done] release the held starts. *)
Definition releases (ev : IrStreamEvent) : bool :=
  match ev with FinishReason _ _ | Done => true | _ => false end.

Definition push (a : ToolCallAssembler) (ev : IrStreamEvent) : ToolCallAssembler * list IrStreamEvent :=
  match ev with
  | ToolCallStart id name thought_signature index => push_start a id name thought_signature index
  | ToolCallArgDelta delta index =>
      match bt_get index (pending a) with
      | Some p => (mkAssembler (bt_insert index (add_arg p delta) (pending a)) (started a), [])
      | None =>
          if decide (index ∈ started a) then (a, [ToolCallArgDelta delta index])
          else (mkAssembler (bt_insert index (mkPending "" "" None index [delta]) (pending a)) (started a), [])
      end
  | other =>
      let '(a, out) := if releases other then flush a else (a, []) in (a, out ++ [other])
  end.

(** A stream: the events are pushed in order. *)
Fixpoint push_all (a : ToolCallAssembler) (evs : list IrStreamEvent) :
  ToolCallAssembler * list IrStreamEvent :=
  match evs with
  | [] => (a, [])
  | ev :: evs =>
      let '(a, out) := push a ev in let '(a, outs) := push_all a evs in (a, out ++ outs)
  end.

(** ** Projections of a stream *)

(** The slot an event of the assembler belongs to. *)
Definition slot_of (ev : IrStreamEvent) : option Z :=
  match ev with
  | ToolCallStart _ _ _ index | ToolCallArgDelta _ index => Some index
  | _ => None
  end.

(** Keep the events of one slot, and those of no slot. *)
Definition in_slot (i : Z) (ev : IrStreamEvent) : bool :=
  match slot_of ev with Some j => i =? j | None => true end.

Definition project (i : Z) (evs : list IrStreamEvent) : list IrStreamEvent := List.filter (in_slot i) evs.

Definition others (evs : list IrStreamEvent) : list IrStreamEvent :=
  List.filter (fun ev => is_none (slot_of ev)) evs.

Definition args_of (i : Z) (evs : list IrStreamEvent) : list string :=
  omap (fun ev => match ev with
                  | ToolCallArgDelta delta j => if i =? j then Some delta else None
                  | _ => None
                  end) evs.

Definition starts_of (i : Z) (evs : list IrStreamEvent) : list IrStreamEvent :=
  List.filter (fun ev => match ev with ToolCallStart _ _ _ j => i =? j | _ => false end) evs.

(** ** Invariant *)
Definition entry_ok (k : Z) (p : PendingToolStart) (s : gset Z) : Prop :=
  pend_index p = k /\ (k ∉ s) /\ (is_empty (pend_id p) || is_empty (pend_name p)) = true.

Record assembler_ok (a : ToolCallAssembler) : Prop := {
  asm_sorted : bt_sorted (pending a);
  asm_entries : forall k p, bt_get k (pending a) = Some p -> entry_ok k p (started a)
}.

Lemma assembler_ok_new : assembler_ok assembler_new.
Proof. split; [apply bt_sorted_nil|done]. Qed.

(** ** A slot on its own: the abstract view *)

(** What one slot holds: its pending call and whether it was started. *)
Record slot_state := mkSlot { slot_pending : option PendingToolStart; slot_started : bool }.

Definition view (i : Z) (a : ToolCallAssembler) : slot_state :=
  mkSlot (bt_get i (pending a)) (bool_decide (i ∈ started a)).

Definition slot_flush (s : slot_state) : slot_state * list IrStreamEvent :=
  match slot_pending s with
  | Some p => (mkSlot None (slot_started s || has_start p), into_events p)
  | None => (s, [])
  end.

Definition slot_merge (s : slot_state) (id name : string) (sig : option string) (i : Z) : PendingToolStart :=
  match slot_pending s with
  | Some prev => mkPending (if is_empty id then pend_id prev else id)
                   (if is_empty name then pend_name prev else name)
                   (opt_or sig (pend_signature prev)) i (pend_args prev)
  | None => mkPending id name sig i []
  end.

(** The specification of the assembler, one slot at a time. *)
Definition slot_push (i : Z) (s : slot_state) (ev : IrStreamEvent) : slot_state * list IrStreamEvent :=
  match ev with
  | ToolCallStart id name sig j =>
      if negb (i =? j) then (s, [])
      else if slot_started s then (s, [])
      else
        let p := slot_merge s id name sig i in
        if is_empty (pend_id p) || is_empty (pend_name p) then (mkSlot (Some p) false, [])
        else (mkSlot None true, into_events p)
  | ToolCallArgDelta delta j =>
      if negb (i =? j) then (s, [])
      else
        match slot_pending s with
        | Some p => (mkSlot (Some (add_arg p delta)) (slot_started s), [])
        | None =>
            if slot_started s then (s, [ToolCallArgDelta delta i])
            else (mkSlot (Some (mkPending "" "" None i [delta])) false, [])
        end
  | other =>
      let '(s, out) := if releases other then slot_flush s else (s, []) in (s, out ++ [other])
  end.

Fixpoint slot_push_all (i : Z) (s : slot_state) (evs : list IrStreamEvent) :
  slot_state * list IrStreamEvent :=
  match evs with
  | [] => (s, [])
  | ev :: evs => let '(s, out) := slot_push i s ev in
                 let '(s, outs) := slot_push_all i s evs in (s, out ++ outs)
  end.

(** ** The assembler is its slots side by side *)
Lemma started_flush i l (s : gset Z) :
  i ∈ fold_left (fun s (kp : Z * PendingToolStart) =>
                   if has_start kp.2 then {[ pend_index kp.2 ]} ∪ s else s) l s
  <-> i ∈ s \/ exists kp, In kp l /\ has_start kp.2 = true /\ pend_index kp.2 = i.
Proof.
  revert s. induction l as [|kp l IH]; intros s; cbn.
  - split; [auto|]. by intros [|(? & [] & _)].
  - rewrite IH. destruct (has_start kp.2) eqn:E.
    + rewrite elem_of_union, elem_of_singleton. split.
      * intros [[->|?]|(kp' & ? & ? & ?)]; eauto 10.
      * intros [?|(kp' & [<-|?] & ? & <-)]; eauto 10.
    + split.
      * intros [?|(kp' & ? & ? & ?)]; eauto 10.
      * intros [?|(kp' & [<-|?] & ? & ?)]; [eauto|congruence|eauto 10].
Qed.

Lemma flush_ok a : assembler_ok (flush a).1.
Proof. split; [apply bt_sorted_nil|done]. Qed.

Lemma flush_started a k p :
  assembler_ok a -> bt_get k (pending a) = Some p ->
  (k ∈ started (flush a).1 <-> has_start p = true).
Proof.
  intros [Hs He] Hg. destruct (He _ _ Hg) as (Hi & Hn & _). cbn. rewrite started_flush. split.
  - intros [?|([k' p'] & Hin & Hh & Hi')]; [done|]. cbn in *.
    apply bt_get_In in Hin; [|done]. destruct (He _ _ Hin) as (Hi2 & _). subst; congruence.
  - intros Hh. right. exists (k, p). split; [by apply bt_get_In|done].
Qed.

Lemma flush_started_none a k :
  assembler_ok a -> bt_get k (pending a) = None ->
  (k ∈ started (flush a).1 <-> k ∈ started a).
Proof.
  intros [Hs He] Hg. cbn. rewrite started_flush. split; [|auto].
  intros [?|([k' p'] & Hin & Hh & Hi')]; [done|]. cbn in *.
  apply bt_get_In in Hin; [|done]. destruct (He _ _ Hin) as (Hi2 & _). subst; congruence.
Qed.

Lemma in_slot_into_events i p ev : In ev (into_events p) -> in_slot i ev = (i =? pend_index p).
Proof.
  unfold into_events. intros [H|H]%in_app_or.
  - destruct (has_start p); [|done]. by destruct H as [<-|[]].
  - apply in_map_iff in H as (d & <- & _). done.
Qed.

Lemma project_all i l : (forall ev, In ev l -> in_slot i ev = true) -> project i l = l.
Proof.
  intros H. unfold project. induction l as [|ev l IH]; [done|]. cbn. rewrite H by (by left).
  f_equal. apply IH. intros; apply H; by right.
Qed.

Lemma project_none i l : (forall ev, In ev l -> in_slot i ev = false) -> project i l = [].
Proof.
  intros H. unfold project. induction l as [|ev l IH]; [done|]. cbn. rewrite H by (by left).
  apply IH. intros; apply H; by right.
Qed.

Lemma project_app i l k : project i (l ++ k) = project i l ++ project i k.
Proof. apply List.filter_app. Qed.

Lemma project_into_events i p :
  project i (into_events p) = if i =? pend_index p then into_events p else [].
Proof.
  destruct (i =? pend_index p) eqn:E.
  - apply project_all. intros ev Hev. by rewrite (in_slot_into_events i p).
  - apply project_none. intros ev Hev. by rewrite (in_slot_into_events i p).
Qed.

Lemma project_flush i a :
  assembler_ok a ->
  project i (flush a).2 = match bt_get i (pending a) with Some p => into_events p | None => [] end.
Proof.
  intros [Hs He]. cbn [flush snd]. unfold project.
  assert (Hkey : forall kp, In kp (pending a) -> pend_index kp.2 = kp.1).
  { intros [k p] Hin%bt_get_In; [|done]. by destruct (He _ _ Hin). }
  rewrite (bt_flat_map_key _ _ i) by
    (done || (intros kp ev Hin Hev Hne; rewrite (in_slot_into_events i _ _ Hev), Hkey by done;
              by apply Z.eqb_neq, not_eq_sym)).
  destruct (bt_get i (pending a)) as [p|] eqn:Hg; [|done]. cbn [snd].
  destruct (He _ _ Hg) as (Hi & _). pose proof (project_into_events i p) as P.
  by rewrite Hi, Z.eqb_refl in P.
Qed.

Lemma view_flush i a :
  assembler_ok a -> view i (flush a).1 = (slot_flush (view i a)).1.
Proof.
  intros Ha. unfold view, slot_flush. cbn [slot_pending slot_started].
  destruct (bt_get i (pending a)) as [p|] eqn:Hg; cbn [fst].
  - f_equal. pose proof (flush_started a i p Ha Hg) as H. destruct Ha as [_ He].
    destruct (He _ _ Hg) as (_ & Hn & _). rewrite (bool_decide_false (i ∈ started a)) by done. cbn [orb].
    destruct (has_start p); [by rewrite bool_decide_true by (by apply H)|].
    apply bool_decide_false. by rewrite H.
  - f_equal. apply bool_decide_ext. by apply flush_started_none.
Qed.

Lemma view_insert i k p a s :
  view i (mkAssembler (bt_insert k p (pending a)) s) =
  mkSlot (if i =? k then Some p else bt_get i (pending a)) (bool_decide (i ∈ s)).
Proof. unfold view. cbn. by rewrite bt_get_insert. Qed.

(** Seen from a slot, one step of the assembler is one step of the slot. *)
Definition step_view (i : Z) (a : ToolCallAssembler) (ev : IrStreamEvent) : Prop :=
  view i (push a ev).1 = (slot_push i (view i a) ev).1
  /\ project i (push a ev).2 = (slot_push i (view i a) ev).2.

Lemma push_other_view i a ev :
  assembler_ok a -> slot_of ev = None ->
  view i (let '(a, out) := if releases ev then flush a else (a, []) in (a, out ++ [ev])).1
  = (let '(s, out) := if releases ev then slot_flush (view i a) else (view i a, []) in (s, out ++ [ev])).1
  /\ project i (let '(a, out) := if releases ev then flush a else (a, []) in (a, out ++ [ev])).2
  = (let '(s, out) := if releases ev then slot_flush (view i a) else (view i a, []) in (s, out ++ [ev])).2.
Proof.
  intros Ha.
  intros Hs.
  assert (Hp : forall l, project i (l ++ [ev]) = project i l ++ [ev]).
  { intros l. rewrite project_app. f_equal. unfold project, in_slot. cbn. by rewrite Hs. }
  destruct (releases ev); [|split; [done|]; cbn [snd]; by rewrite Hp].
  pose proof (view_flush i a Ha) as Hv. pose proof (project_flush i a Ha) as Hf.
  destruct (flush a) as [a' out]. cbn [fst snd] in *. rewrite Hp, Hv, Hf.
  unfold slot_flush. cbn [slot_pending view]. by destruct (bt_get i (pending a)).
Qed.

Lemma push_start_view i a id name thought_signature index :
  assembler_ok a -> step_view i a (ToolCallStart id name thought_signature index).
Proof.
  intros Ha. unfold step_view.
  cbn [push slot_push]. unfold push_start. destruct Ha as [Hsort He].
  destruct (decide (index ∈ started a)) as [Hin|Hin].
  { destruct (Z.eqb_spec i index) as [->|]; cbn [negb]; [|by split].
    cbn [view slot_started]. by rewrite bool_decide_true. }
  destruct (Z.eqb_spec i index) as [->|Hne]; cbn [negb].
  + cbn [view slot_started]. rewrite (bool_decide_false (index ∈ started a)) by done.
    unfold slot_merge. cbn [slot_pending view].
    destruct (bt_get index (pending a)) as [prev|] eqn:Hg.
    * cbv zeta. destruct (is_empty _ || is_empty _); cbn [fst snd].
      -- unfold view. cbn. rewrite bt_get_insert, Z.eqb_refl. by rewrite bool_decide_false.
      -- rewrite project_into_events. cbn [pend_index]. rewrite Z.eqb_refl. split; [|done].
         unfold view. cbn. rewrite bt_get_remove, Z.eqb_refl by done.
         by rewrite bool_decide_true by set_solver.
    * cbv zeta. destruct (is_empty _ || is_empty _); cbn [fst snd].
      -- unfold view. cbn. rewrite bt_get_insert, Z.eqb_refl. by rewrite bool_decide_false.
      -- rewrite project_into_events. cbn [pend_index]. rewrite Z.eqb_refl. split; [|done].
         unfold view. cbn. rewrite Hg. by rewrite bool_decide_true by set_solver.
  + assert (Hrm : bt_get i (bt_remove index (pending a)) = bt_get i (pending a)).
    { rewrite bt_get_remove by done. by rewrite (proj2 (Z.eqb_neq i index)). }
    assert (Hst : bool_decide (i ∈ {[index]} ∪ started a) = bool_decide (i ∈ started a)).
    { apply bool_decide_ext. set_solver. }
    destruct (bt_get index (pending a)) as [prev|]; cbv zeta;
      destruct (is_empty _ || is_empty _); cbn [fst snd]; rewrite ?project_into_events; cbn [pend_index];
      rewrite ?(proj2 (Z.eqb_neq i index) Hne); unfold view; cbn;
      rewrite ?bt_get_insert, ?(proj2 (Z.eqb_neq i index) Hne), ?Hrm, ?Hst; done.
Qed.

Lemma push_arg_view i a delta index :
  assembler_ok a -> step_view i a (ToolCallArgDelta delta index).
Proof.
  intros Ha. unfold step_view.
  cbn [push slot_push]. destruct Ha as [Hsort He].
  destruct (Z.eqb_spec i index) as [->|Hne]; cbn [negb].
  + cbn [slot_pending slot_started view]. destruct (bt_get index (pending a)) as [p|] eqn:Hg.
    * cbn [fst snd]. rewrite view_insert, Z.eqb_refl. done.
    * destruct (decide (index ∈ started a)) as [Hin|Hin].
      -- rewrite bool_decide_true by done. cbn [fst snd]. unfold view, project, in_slot. cbn.
         rewrite Z.eqb_refl, Hg. by rewrite bool_decide_true.
      -- rewrite bool_decide_false by done. cbn [fst snd]. rewrite view_insert, Z.eqb_refl.
         by rewrite bool_decide_false.
  + destruct (bt_get index (pending a)) as [p|] eqn:Hg; [|destruct (decide (index ∈ started a))];
      cbn [fst snd]; rewrite ?view_insert, ?(proj2 (Z.eqb_neq i index) Hne); try done.
    unfold project, in_slot. cbn. by rewrite (proj2 (Z.eqb_neq i index) Hne).
Qed.

Lemma push_view i a ev : assembler_ok a -> step_view i a ev.
Proof.
  intros Ha. destruct ev;
    solve [by apply push_start_view | by apply push_arg_view | by apply push_other_view].
Qed.

Lemma push_start_ok a id name sig index : assembler_ok a -> assembler_ok (push_start a id name sig index).1.
Proof.
  intros [Hs He]. unfold push_start. destruct (decide (index ∈ started a)) as [|Hn]; [done|].
  assert (Hr : exists rest p,
    (match bt_get index (pending a) with
     | Some prev => (bt_remove index (pending a),
          mkPending (if is_empty id then pend_id prev else id)
            (if is_empty name then pend_name prev else name)
            (opt_or sig (pend_signature prev)) index (pend_args prev))
     | None => (pending a, mkPending id name sig index [])
     end) = (rest, p) /\ bt_sorted rest /\ pend_index p = index
     /\ forall k, bt_get k rest = if k =? index then None else bt_get k (pending a)).
  { destruct (bt_get index (pending a)) as [prev|] eqn:Hg; eexists _, _; (split; [reflexivity|]).
    - split; [by apply bt_remove_sorted|]. split; [done|]. intros k. by apply bt_get_remove.
    - split; [done|]. split; [done|]. intros k. destruct (Z.eqb_spec k index) as [->|]; done. }
  destruct Hr as (rest & p & -> & Hsr & Hpi & Hg).
  destruct (is_empty (pend_id p) || is_empty (pend_name p)) eqn:Ei; split; cbn.
  - by apply bt_insert_sorted.
  - intros k q. rewrite bt_get_insert. destruct (Z.eqb_spec k index) as [->|Hne].
    + intros [= <-]. by split.
    + rewrite Hg, (proj2 (Z.eqb_neq k index)) by done. apply He.
  - done.
  - intros k q. rewrite Hg. destruct (Z.eqb_spec k index) as [->|Hne]; [done|].
    intros (? & ? & ?)%He. split; [done|]. split; [set_solver|done].
Qed.

Lemma push_arg_ok a delta index : assembler_ok a -> assembler_ok (push a (ToolCallArgDelta delta index)).1.
Proof.
  intros [Hs He]. cbn. destruct (bt_get index (pending a)) as [p|] eqn:Hg.
  - destruct (He _ _ Hg) as (Hi & Hn & Hp). split; cbn; [by apply bt_insert_sorted|].
    intros k q. rewrite bt_get_insert. destruct (Z.eqb_spec k index) as [->|Hne]; [|apply He].
    intros [= <-]. by split.
  - destruct (decide (index ∈ started a)); [done|]. split; cbn; [by apply bt_insert_sorted|].
    intros k q. rewrite bt_get_insert. destruct (Z.eqb_spec k index) as [->|Hne]; [|apply He].
    intros [= <-]. by split.
Qed.

Lemma push_ok a ev : assembler_ok a -> assembler_ok (push a ev).1.
Proof.
  intros Ha.
  assert (Ho : forall ev0, assembler_ok
    (let '(a, out) := if releases ev0 then flush a else (a, []) in (a, out ++ [ev0])).1).
  { intros ev0. destruct (releases ev0); [|done]. apply flush_ok. }
  destruct ev; try apply (Ho (_)); [by apply push_start_ok|by apply push_arg_ok].
Qed.

Lemma push_all_ok a evs : assembler_ok a -> assembler_ok (push_all a evs).1.
Proof.
  revert a. induction evs as [|ev evs IH]; intros a Ha; [done|]. cbn.
  pose proof (push_ok a ev Ha) as H1. destruct (push a ev) as [a1 out].
  specialize (IH a1 H1). by destruct (push_all a1 evs).
Qed.

Lemma push_all_view i a evs :
  assembler_ok a ->
  view i (push_all a evs).1 = (slot_push_all i (view i a) evs).1
  /\ project i (push_all a evs).2 = (slot_push_all i (view i a) evs).2.
Proof.
  revert a. induction evs as [|ev evs IH]; intros a Ha; [by split|]. cbn.
  pose proof (push_ok a ev Ha) as H1. destruct (push_view i a ev Ha) as [Hv Hp].
  destruct (push a ev) as [a1 out]. cbn [fst snd] in *. specialize (IH a1 H1) as [Hv2 Hp2].
  destruct (push_all a1 evs) as [a2 outs]. cbn [fst snd] in *.
  destruct (slot_push i (view i a) ev) as [s1 o1]. cbn [fst snd] in *. subst s1 o1.
  destruct (slot_push_all i (view i a1) evs) as [s2 o2]. cbn [fst snd] in *. subst.
  by rewrite project_app.
Qed.

(** A slot does not see the events of the others. *)
Lemma slot_push_other i s ev : in_slot i ev = false -> slot_push i s ev = (s, []).
Proof. destruct ev; cbn; try done; by intros ->. Qed.

Lemma slot_push_all_project i s evs : slot_push_all i s (project i evs) = slot_push_all i s evs.
Proof.
  revert s. induction evs as [|ev evs IH]; intros s; [done|]. cbn.
  destruct (in_slot i ev) eqn:E.
  - cbn. destruct (slot_push i s ev) as [s1 out]. by rewrite IH.
  - rewrite slot_push_other by done. unfold project in IH. rewrite IH. by destruct (slot_push_all i s evs).
Qed.

(** ** One slot *)
Definition slot_args (s : slot_state) : list string :=
  match slot_pending s with Some p => pend_args p | None => [] end.

Record slot_ok (i : Z) (s : slot_state) : Prop := {
  slot_idle : slot_started s = true -> slot_pending s = None;
  slot_entry : forall p, slot_pending s = Some p ->
    pend_index p = i /\ (is_empty (pend_id p) || is_empty (pend_name p)) = true
}.

Lemma view_ok i a : assembler_ok a -> slot_ok i (view i a).
Proof.
  intros [_ He]. split; cbn.
  - intros H%bool_decide_eq_true. destruct (bt_get i (pending a)) as [p|] eqn:Hg; [|done].
    by destruct (He _ _ Hg) as (_ & ? & _).
  - intros p Hg. by destruct (He _ _ Hg) as (? & _ & ?).
Qed.

Lemma args_of_app i l k : args_of i (l ++ k) = args_of i l ++ args_of i k.
Proof. apply omap_app. Qed.

Lemma args_of_project i l : args_of i (project i l) = args_of i l.
Proof.
  unfold args_of, project. induction l as [|ev l IH]; [done|].
  destruct ev; cbn; rewrite ?IH; try done; destruct (i =? index) eqn:E; cbn; rewrite ?E, ?IH; done.
Qed.

Lemma args_of_into_events i p : pend_index p = i -> args_of i (into_events p) = pend_args p.
Proof.
  intros Hi. unfold into_events. rewrite args_of_app.
  assert (H : forall l, args_of i (map (fun d => ToolCallArgDelta d (pend_index p)) l) = l).
  { induction l as [|d l IH]; [done|]. cbn. rewrite Hi, Z.eqb_refl. cbn. f_equal.
    unfold args_of in IH. by rewrite Hi in IH. }
  rewrite H. by destruct (has_start p).
Qed.

Lemma slot_push_args i s ev :
  slot_ok i s ->
  args_of i (slot_push i s ev).2 ++ slot_args (slot_push i s ev).1 = slot_args s ++ args_of i [ev].
Proof.
  intros [Hid Hen].
  assert (Ho : slot_of ev = None ->
    args_of i (let '(s, out) := if releases ev then slot_flush s else (s, []) in (s, out ++ [ev])).2
    ++ slot_args (let '(s, out) := if releases ev then slot_flush s else (s, []) in (s, out ++ [ev])).1
    = slot_args s ++ args_of i [ev]).
  { intros Hs. assert (He : args_of i [ev] = []) by (by destruct ev). rewrite He, app_nil_r.
    destruct (releases ev); cbn [fst snd]; rewrite ?args_of_app, ?He, ?app_nil_r; [|done].
    unfold slot_flush, slot_args. destruct (slot_pending s) as [p|] eqn:Hp;
      cbn [fst snd slot_pending]; rewrite ?args_of_app, ?He, ?app_nil_r.
    - apply args_of_into_events. by destruct (Hen p).
    - by rewrite Hp. }
  destruct ev; try (by apply Ho); cbn [slot_push].
  - change (args_of i [ToolCallStart id name thought_signature index]) with (@nil string).
    rewrite app_nil_r. destruct (negb (i =? index)); [done|]. destruct (slot_started s) eqn:Est; [done|].
    cbv zeta. set (p := slot_merge s id name thought_signature i).
    assert (Hp : pend_index p = i /\ pend_args p = slot_args s).
    { unfold p, slot_merge, slot_args. by destruct (slot_pending s). }
    destruct Hp as [Hpi Hpa]. destruct (is_empty _ || is_empty _); cbn [fst snd slot_args slot_pending]; [done|].
    by rewrite args_of_into_events, app_nil_r.
  - unfold args_of at 2. cbn [omap list_omap]. destruct (Z.eqb_spec i index) as [->|]; cbn [negb];
      [|by rewrite app_nil_r].
    unfold slot_args at 2. destruct (slot_pending s) as [p|] eqn:Hp; [done|].
    destruct (slot_started s); [|done]. cbn. rewrite Z.eqb_refl. unfold slot_args. by rewrite Hp.
Qed.

Lemma slot_merge_index s id name sig i : pend_index (slot_merge s id name sig i) = i.
Proof. unfold slot_merge. by destruct (slot_pending s). Qed.

Lemma slot_push_ok i s ev : slot_ok i s -> slot_ok i (slot_push i s ev).1.
Proof.
  intros Hs. assert (Hf : slot_ok i (slot_flush s).1).
  { unfold slot_flush. destruct (slot_pending s) eqn:Hp; [by split|done]. }
  assert (Ho : slot_ok i (let '(s, out) := if releases ev then slot_flush s else (s, []) in (s, out ++ [ev])).1).
  { destruct (releases ev); [|done]. by destruct (slot_flush s). }
  destruct ev; try exact Ho; cbn [slot_push]; destruct (negb (i =? index)); try done.
  - destruct (slot_started s) eqn:Est; [done|]. cbv zeta.
    destruct (is_empty _ || is_empty _) eqn:Ei; cbn [fst]; split; cbn; try done.
    intros p [= <-]. by rewrite slot_merge_index.
  - destruct Hs as [Hid Hen]. destruct (slot_pending s) as [p|] eqn:Hp.
    + destruct (slot_started s) eqn:Est; [by specialize (Hid eq_refl)|]. split; [done|]. cbn.
      intros q [= <-]. by destruct (Hen p).
    + destruct (slot_started s) eqn:Est; split; cbn; try done; [by rewrite Hp|].
      by intros p [= <-].
Qed.

Lemma slot_push_all_args i s evs :
  slot_ok i s ->
  args_of i (slot_push_all i s evs).2 ++ slot_args (slot_push_all i s evs).1 = slot_args s ++ args_of i evs.
Proof.
  revert s. induction evs as [|ev evs IH]; intros s Hs; [by cbn; rewrite app_nil_r|]. cbn.
  pose proof (slot_push_args i s ev Hs) as Ha. pose proof (slot_push_ok i s ev Hs) as Hok.
  destruct (slot_push i s ev) as [s1 out]. cbn [fst snd] in *. specialize (IH s1 Hok).
  destruct (slot_push_all i s1 evs) as [s2 outs]. cbn [fst snd] in *.
  rewrite args_of_app, <- app_assoc, IH, app_assoc, Ha, <- app_assoc. f_equal.
  by rewrite <- args_of_app.
Qed.

Lemma starts_of_app i l k : starts_of i (l ++ k) = starts_of i l ++ starts_of i k.
Proof. apply List.filter_app. Qed.

Lemma starts_of_project i l : starts_of i (project i l) = starts_of i l.
Proof.
  unfold starts_of, project. induction l as [|ev l IH]; [done|].
  destruct ev; cbn; rewrite ?IH; try done; destruct (i =? index) eqn:E; cbn; rewrite ?E, ?IH; done.
Qed.

Lemma starts_of_args i p l : starts_of i (map (fun d => ToolCallArgDelta d p) l) = [].
Proof. unfold starts_of. by induction l. Qed.

Lemma starts_of_into_events i p :
  pend_index p = i -> length (starts_of i (into_events p)) = if has_start p then 1%nat else 0%nat.
Proof.
  intros Hi. unfold into_events. rewrite starts_of_app, starts_of_args, app_nil_r.
  destruct (has_start p); [|done]. cbn. by rewrite Hi, Z.eqb_refl.
Qed.

Definition started_count (s : slot_state) : nat := if slot_started s then 1%nat else 0%nat.

Lemma slot_flush_starts i s :
  slot_ok i s ->
  (length (starts_of i (slot_flush s).2) + started_count s = started_count (slot_flush s).1)%nat.
Proof.
  intros [Hid Hen]. unfold slot_flush, started_count. destruct (slot_pending s) as [p|] eqn:Hp; [|done].
  cbn [fst snd slot_started]. rewrite starts_of_into_events by (by destruct (Hen p)).
  destruct (slot_started s); [by specialize (Hid eq_refl)|]. cbn. destruct (has_start p); lia.
Qed.

Lemma slot_push_starts i s ev :
  slot_ok i s ->
  (length (starts_of i (slot_push i s ev).2) + started_count s = started_count (slot_push i s ev).1)%nat.
Proof.
  intros Hs.
  assert (Ho : slot_of ev = None ->
    (length (starts_of i (let '(s, out) := if releases ev then slot_flush s else (s, []) in (s, out ++ [ev])).2)
     + started_count s
     = started_count (let '(s, out) := if releases ev then slot_flush s else (s, []) in (s, out ++ [ev])).1)%nat).
  { intros Hn. assert (He : starts_of i [ev] = []) by (by destruct ev).
    pose proof (slot_flush_starts i s Hs) as Hf.
    destruct (releases ev); cbn [fst snd]; [|by rewrite starts_of_app, He].
    destruct (slot_flush s) as [s1 out]. cbn [fst snd] in *. by rewrite starts_of_app, He, app_nil_r. }
  destruct ev; try (by apply Ho); cbn [slot_push]; destruct (negb (i =? index)); try done.
  - destruct (slot_started s) eqn:Est; [unfold started_count; cbn; by rewrite Est|]. cbv zeta.
    set (p := slot_merge s id name thought_signature i).
    destruct (is_empty (pend_id p) || is_empty (pend_name p)) eqn:Ei; cbn [fst snd]; unfold started_count;
      cbn [slot_started]; rewrite Est; [done|].
    apply orb_false_iff in Ei as [Ei _].
    rewrite starts_of_into_events by apply slot_merge_index. unfold has_start. by rewrite Ei.
  - destruct (slot_pending s) as [p|]; [done|].
    destruct (slot_started s) eqn:Est; cbn; unfold started_count; cbn; rewrite ?Est; done.
Qed.

Lemma slot_push_all_starts i s evs :
  slot_ok i s ->
  (length (starts_of i (slot_push_all i s evs).2) + started_count s
   = started_count (slot_push_all i s evs).1)%nat /\ slot_ok i (slot_push_all i s evs).1.
Proof.
  revert s. induction evs as [|ev evs IH]; intros s Hs; [done|]. cbn.
  pose proof (slot_push_starts i s ev Hs) as Ha. pose proof (slot_push_ok i s ev Hs) as Hok.
  destruct (slot_push i s ev) as [s1 out]. cbn [fst snd] in *. destruct (IH s1 Hok) as [Hb Hok2].
  destruct (slot_push_all i s1 evs) as [s2 outs]. cbn [fst snd] in *.
  split; [|done]. rewrite starts_of_app, length_app. lia.
Qed.

Lemma others_app l k : others (l ++ k) = others l ++ others k.
Proof. apply List.filter_app. Qed.

Lemma others_into_events p : others (into_events p) = [].
Proof.
  unfold into_events. rewrite others_app.
  assert (H : others (map (fun d => ToolCallArgDelta d (pend_index p)) (pend_args p)) = []).
  { by induction (pend_args p). }
  rewrite H. by destruct (has_start p).
Qed.

Lemma others_flush a : others (flush a).2 = [].
Proof.
  cbn [flush snd]. induction (pending a) as [|kp l IH]; [done|]. cbn [flat_map].
  by rewrite others_app, others_into_events, IH.
Qed.

Lemma others_push a ev : others (push a ev).2 = others [ev].
Proof.
  assert (Ho : slot_of ev = None ->
    others (let '(a, out) := if releases ev then flush a else (a, []) in (a, out ++ [ev])).2 = others [ev]).
  { intros Hs. destruct (releases ev); [|done]. pose proof (others_flush a) as Hf.
    destruct (flush a) as [a1 out]. cbn [snd] in *. by rewrite others_app, Hf. }
  destruct ev; try (by apply Ho); cbn [push].
  - unfold push_start. case_decide; [done|].
    destruct (bt_get index (pending a)); cbv zeta; destruct (is_empty _ || is_empty _); try done;
      apply others_into_events.
  - destruct (bt_get index (pending a)); [done|]. by case_decide.
Qed.

Lemma others_push_all a evs : others (push_all a evs).2 = others evs.
Proof.
  revert a. induction evs as [|ev evs IH]; intros a; [done|]. cbn [push_all].
  pose proof (others_push a ev) as H1. destruct (push a ev) as [a1 out]. cbn [snd] in H1.
  specialize (IH a1). destruct (push_all a1 evs) as [a2 outs]. cbn [snd] in *.
  rewrite others_app, H1, IH. by rewrite <- others_app.
Qed.

(** The tool events of a slot. *)
Definition tool_events (i : Z) (evs : list IrStreamEvent) : list IrStreamEvent :=
  List.filter (fun ev => is_some_and (slot_of ev) (Z.eqb i)) evs.

Definition arg_events (i : Z) (args : list string) : list IrStreamEvent :=
  map (fun delta => ToolCallArgDelta delta i) args.

Lemma tool_events_app i l k : tool_events i (l ++ k) = tool_events i l ++ tool_events i k.
Proof. apply List.filter_app. Qed.

Lemma tool_events_project i l : tool_events i (project i l) = tool_events i l.
Proof.
  unfold tool_events, project, in_slot. induction l as [|ev l IH]; [done|]. cbn.
  destruct (slot_of ev) as [j|] eqn:E; cbn; [|by rewrite E].
  destruct (i =? j) eqn:Ej; cbn; rewrite ?E; cbn; rewrite ?Ej; by rewrite ?IH.
Qed.

Lemma tool_events_args i l : tool_events i (arg_events i l) = arg_events i l.
Proof.
  unfold tool_events, arg_events. induction l as [|d l IH]; [done|]. cbn. rewrite Z.eqb_refl. by f_equal.
Qed.

(** After its start, a slot passes its arguments through. *)
Lemma slot_started_out i s evs :
  forallb (fun ev => negb (releases ev)) evs = true -> slot_started s = true -> slot_pending s = None ->
  tool_events i (slot_push_all i s evs).2 = arg_events i (args_of i evs).
Proof.
  intros Hr Hs Hp. induction evs as [|ev evs IH]; [done|].
  cbn in Hr. apply andb_true_iff in Hr as [Hr1 Hr2]. specialize (IH Hr2). cbn [slot_push_all].
  destruct ev; cbn in Hr1; try done; cbn [slot_push releases];
    try (destruct (slot_push_all i s evs) as [s2 outs]; cbn [snd] in *; exact IH).
  - rewrite Hs. destruct (negb (i =? index)); destruct (slot_push_all i s evs) as [s2 outs]; exact IH.
  - rewrite Hs, Hp. destruct (Z.eqb_spec i index) as [<-|Hne]; cbn [negb].
    + destruct (slot_push_all i s evs) as [s2 outs]. cbn [snd] in *.
      rewrite tool_events_app, IH. unfold args_of. cbn. by rewrite Z.eqb_refl.
    + destruct (slot_push_all i s evs) as [s2 outs]. cbn [snd] in *. rewrite tool_events_app, IH.
      unfold args_of. cbn. by rewrite (proj2 (Z.eqb_neq i index)).
Qed.

Definition leads (i : Z) (args : list string) (out : list IrStreamEvent) : Prop :=
  out = [] \/ exists id name sig, is_empty id = false /\ is_empty name = false
                /\ out = ToolCallStart id name sig i :: arg_events i args.

Lemma slot_out_leads i s evs :
  slot_ok i s -> slot_started s = false ->
  forallb (fun ev => negb (releases ev)) evs = true ->
  leads i (slot_args s ++ args_of i evs) (tool_events i (slot_push_all i s evs).2).
Proof.
  revert s. induction evs as [|ev evs IH]; intros s Hok Hs Hr; [by left|].
  cbn [forallb] in Hr. apply andb_true_iff in Hr as [Hr1 Hr2].
  assert (Hpass : slot_push i s ev = (s, [ev]) -> tool_events i [ev] = [] -> args_of i [ev] = [] ->
    leads i (slot_args s ++ args_of i (ev :: evs)) (tool_events i (slot_push_all i s (ev :: evs)).2)).
  { intros E T A. cbn [slot_push_all]. rewrite E. specialize (IH s Hok Hs Hr2).
    destruct (slot_push_all i s evs) as [s2 outs]. cbn [snd] in *.
    rewrite tool_events_app, T. change (ev :: evs) with ([ev] ++ evs). by rewrite args_of_app, A. }
  assert (Hskip : forall s1, slot_push i s ev = (s1, []) -> slot_ok i s1 -> slot_started s1 = false ->
    slot_args s1 = slot_args s ++ args_of i [ev] ->
    leads i (slot_args s ++ args_of i (ev :: evs)) (tool_events i (slot_push_all i s (ev :: evs)).2)).
  { intros s1 E Ho1 Hs1 A. cbn [slot_push_all]. rewrite E. specialize (IH s1 Ho1 Hs1 Hr2).
    destruct (slot_push_all i s1 evs) as [s2 outs]. cbn [snd app] in *.
    change (ev :: evs) with ([ev] ++ evs). by rewrite args_of_app, app_assoc, <- A. }
  pose proof (slot_push_ok i s ev Hok) as Hok1.
  destruct ev; try (by apply Hpass); cbn [slot_push] in *.
  - destruct (Z.eqb_spec i index) as [<-|Hne]; cbn [negb] in *.
    2:{ apply (Hskip s); [done..|]. by rewrite app_nil_r. }
    rewrite Hs in *. cbv zeta in *. set (p := slot_merge s id name thought_signature i) in *.
    assert (Hpa : pend_args p = slot_args s) by (unfold p, slot_merge, slot_args; by destruct (slot_pending s)).
    destruct (is_empty (pend_id p) || is_empty (pend_name p)) eqn:Ei.
    + apply (Hskip (mkSlot (Some p) false)); [done..|]. rewrite app_nil_r. exact Hpa.
    + apply orb_false_iff in Ei as [Ei En]. right. exists (pend_id p), (pend_name p), (pend_signature p).
      split; [done|]. split; [done|]. cbn [slot_push_all slot_push]. rewrite Z.eqb_refl, Hs. cbn [negb].
      fold p. rewrite Ei, En. cbn [orb].
      pose proof (slot_started_out i (mkSlot None true) evs Hr2 eq_refl eq_refl) as Ho.
      destruct (slot_push_all i (mkSlot None true) evs) as [s2 outs]. cbn [snd] in *.
      rewrite tool_events_app, Ho. unfold into_events, has_start. rewrite Ei. cbn [negb orb].
      unfold p at 4 5. rewrite slot_merge_index. rewrite tool_events_app.
      fold (arg_events i (pend_args p)). rewrite tool_events_args, Hpa. cbn. rewrite Z.eqb_refl. cbn.
      unfold arg_events. by rewrite map_app.
  - destruct (Z.eqb_spec i index) as [<-|Hne]; cbn [negb] in *.
    2:{ apply (Hskip s); [done..|]. unfold args_of. cbn. rewrite (proj2 (Z.eqb_neq i index)) by done.
        by rewrite app_nil_r. }
    assert (Ha : args_of i [ToolCallArgDelta delta i] = [delta]).
    { unfold args_of. cbn. by rewrite Z.eqb_refl. }
    destruct (slot_pending s) as [p|] eqn:Hp; rewrite ?Hs in *.
    + apply (Hskip (mkSlot (Some (add_arg p delta)) false)); [done..|].
      rewrite Ha. unfold slot_args. by rewrite Hp.
    + apply (Hskip (mkSlot (Some (mkPending "" "" None i [delta])) false)); [done..|].
      rewrite Ha. unfold slot_args. by rewrite Hp.
Qed.

(** ** Properties *)

(** The whole stream: every event pushed, then the end-of-stream flush. *)
Definition assemble (evs : list IrStreamEvent) : list IrStreamEvent :=
  let '(a, out) := push_all assembler_new evs in out ++ (flush a).2.

Definition slot_new : slot_state := mkSlot None false.

Definition slot_assemble (i : Z) (evs : list IrStreamEvent) : list IrStreamEvent :=
  let '(s, out) := slot_push_all i slot_new evs in out ++ (slot_flush s).2.

Lemma slot_new_ok i : slot_ok i slot_new.
Proof. by split. Qed.

Lemma assemble_slot i evs : project i (assemble evs) = slot_assemble i evs.
Proof.
  unfold assemble, slot_assemble.
  pose proof (push_all_ok _ evs assembler_ok_new) as Ha.
  destruct (push_all_view i _ evs assembler_ok_new) as [Hv Hp].
  change (view i assembler_new) with slot_new in *.
  destruct (push_all assembler_new evs) as [a out], (slot_push_all i slot_new evs) as [s outs].
  cbn [fst snd] in *. rewrite project_app, Hp, project_flush by done. f_equal. rewrite <- Hv.
  unfold slot_flush. cbn [slot_pending view]. by destruct (bt_get i (pending a)).
Qed.

(** C20. The keyed assembler implements its specification: what it emits for a
    call index, among the events of no index, is what a machine with the state
    of that one call emits, whatever the other calls do in between. *)
Theorem assembler_refines_slots i evs : project i (assemble evs) = slot_assemble i evs.
Proof. apply assemble_slot. Qed.

(** Parallel calls do not interfere: dropping every event of the other
    calls from the input changes nothing of what is emitted for this one. *)
Theorem assembler_interleaving i evs : project i (assemble evs) = project i (assemble (project i evs)).
Proof. rewrite !assemble_slot. unfold slot_assemble. by rewrite slot_push_all_project. Qed.

(** Nothing is lost and nothing is invented: after the flush the argument
    fragments of every call are those received, in their order, every other
    event is passed through in order, and no call is started twice. *)
Theorem assembler_conserves evs :
  (forall i, args_of i (assemble evs) = args_of i evs)
  /\ others (assemble evs) = others evs
  /\ (forall i, (length (starts_of i (assemble evs)) <= 1)%nat).
Proof.
  split; [|split].
  - intros i. rewrite <- args_of_project, assemble_slot. unfold slot_assemble.
    pose proof (slot_push_all_args i slot_new evs (slot_new_ok i)) as H.
    destruct (slot_push_all_starts i slot_new evs (slot_new_ok i)) as [_ Hok].
    destruct (slot_push_all i slot_new evs) as [s out]. cbn [fst snd slot_args slot_pending slot_new app] in *.
    rewrite <- H, args_of_app. f_equal. unfold slot_flush, slot_args.
    destruct (slot_pending s) as [p|] eqn:Hp; [|done]. apply args_of_into_events.
    by destruct Hok as [_ He]; destruct (He p).
  - unfold assemble. pose proof (others_push_all assembler_new evs) as H.
    destruct (push_all assembler_new evs) as [a out]. cbn [snd] in H.
    by rewrite others_app, others_flush, app_nil_r.
  - intros i. rewrite <- starts_of_project, assemble_slot. unfold slot_assemble.
    destruct (slot_push_all_starts i slot_new evs (slot_new_ok i)) as [H Hok].
    destruct (slot_push_all i slot_new evs) as [s out]. cbn [fst snd] in *.
    pose proof (slot_flush_starts i s Hok) as Hf. rewrite starts_of_app, length_app.
    unfold started_count in *. cbn in H. repeat case_match; lia.
Qed.

(** Until a finish event arrives, the output of a call is either still
    held, or one start with its id and its name followed by exactly the
    argument fragments received so far, wherever they came in the input. *)
Theorem assembler_start_leads i evs :
  forallb (fun ev => negb (releases ev)) evs = true ->
  let out := tool_events i (push_all assembler_new evs).2 in
  out = [] \/ exists id name sig, is_empty id = false /\ is_empty name = false
                /\ out = ToolCallStart id name sig i :: arg_events i (args_of i evs).
Proof.
  intros Hr. cbv zeta. rewrite <- tool_events_project.
  destruct (push_all_view i _ evs assembler_ok_new) as [_ ->].
  change (view i assembler_new) with slot_new.
  apply (slot_out_leads i slot_new evs (slot_new_ok i) eq_refl Hr).
Qed.

(** The state invariant of the assembler is preserved by every push and
    flush: keys in order, each held call under its own index, incomplete, and
    not started; after a flush nothing is held. *)
Theorem assembler_invariant a ev :
  assembler_ok a -> assembler_ok (push a ev).1 /\ assembler_ok (flush a).1 /\ pending (flush a).1 = [].
Proof. intros Ha. split; [by apply push_ok|]. split; [apply flush_ok|done]. Qed.

(** ** Witnesses *)
Lemma assembler_start_leads_witness :
  tool_events 0 (push_all assembler_new
    [ToolCallArgDelta "{" 0; ToolCallStart "call_1" "" None 0; ToolCallStart "" "get" None 1;
     ToolCallStart "" "look" None 0; ToolCallArgDelta "}" 0]).2
  = [ToolCallStart "call_1" "look" None 0; ToolCallArgDelta "{" 0; ToolCallArgDelta "}" 0].
Proof.
  destruct (assembler_start_leads 0
    [ToolCallArgDelta "{" 0; ToolCallStart "call_1" "" None 0; ToolCallStart "" "get" None 1;
     ToolCallStart "" "look" None 0; ToolCallArgDelta "}" 0] eq_refl) as [H|(id & name & sig & _ & _ & H)];
    vm_compute; reflexivity.
Defined.

Lemma assembler_invariant_witness :
  assembler_ok (push assembler_new (ToolCallStart "call_1" "" None 3)).1.
Proof.
  destruct (assembler_invariant assembler_new (ToolCallStart "call_1" "" None 3) assembler_ok_new) as [H _].
  exact H.
Defined.
