(* ===== verification/Shapes.v ===== *)
(** * Shapes: event builders the dialects share

    The response-level events of crates/wiremux/src/stream/complete.rs that
    the stream decoders use too (creation time, metadata, service tier,
    moderation with its two wire shapes), and the object a custom tool's text
    becomes on a wire without custom tools (crates/wiremux/src/map/mod.rs). *)

From S2P Require Import Prelude Text Json Ir ProfileTypes StreamCore Usage.

(** [o.into_iter()] of an [if let Some(ev) = ... { out.push(ev) }]. *)
Definition push_opt {A B} (f : A -> B) (o : option A) : list B :=
  match o with Some a => [f a] | None => [] end.

(** [if let Some(v) = src.get(key) { dst.insert(key, v.clone()) }] *)
Definition copy_field (src : json) (dst : object) (key : string) : object :=
  match get src key with Some v => obj_insert key v dst | None => dst end.

(** ** Response metadata *)

(** The string members of an object, in key order. *)
Definition string_members (m : object) : list (string * string) :=
  omap (fun kv => match as_str kv.2 with Some s => Some (kv.1, s) | None => None end) m.

Definition string_metadata (value : option json) : option (list (string * string)) :=
  obj ← value ≫= as_object;
  match string_members obj with [] => None | l => Some l end.

Definition created_event (value : json) : option IrStreamEvent :=
  Created <$> (opt_or (get value "created_at") (pointer value [Key "response"; Key "created_at"]) ≫= as_i64).

Definition metadata_event (value : json) : option IrStreamEvent :=
  Metadata <$> string_metadata (opt_or (get value "metadata") (pointer value [Key "response"; Key "metadata"])).

Definition service_tier_event (value : json) : option IrStreamEvent :=
  ServiceTier <$> nonempty (opt_or (get value "service_tier")
                              (pointer value [Key "response"; Key "service_tier"]) ≫= as_str).

(** ** Moderation *)
Definition moderation_keys : list string :=
  ["flagged"; "categories"; "category_scores"; "category_applied_input_types"].

Definition moderation_result_to_chat (value : json) : json :=
  let result := fold_left (copy_field value) moderation_keys [] in
  jobj [("type", JStr "moderation_results");
        ("model", unwrap_or (get value "model") (JStr ""));
        ("results", JArr [JObj result])].

Definition to_chat_moderation_side (value : json) : json :=
  let otherwise :=
    if is_some (get value "results") then value
    else if is_some (get value "flagged") || is_some (get value "categories")
    then moderation_result_to_chat value else value in
  match get_str value "type" with
  | Some ty =>
      if one_of ty ["error"; "moderation_results"] then value
      else if String.eqb ty "moderation_result" then moderation_result_to_chat value
      else otherwise
  | None => otherwise
  end.

Definition moderation_results_to_responses (value : json) : json :=
  let first := get_array value "results" ≫= head in
  let model := unwrap_or (opt_or (get value "model") (r ← first; get r "model")) (JStr "") in
  let obj := obj_insert "model" model (obj_insert "type" (JStr "moderation_result") []) in
  JObj (match first with
        | Some first => fold_left (copy_field first) moderation_keys obj
        | None => obj
        end).

Definition to_responses_moderation_side (value : json) : json :=
  let otherwise :=
    if is_some (get_array value "results") then moderation_results_to_responses value else value in
  match get_str value "type" with
  | Some ty =>
      if one_of ty ["error"; "moderation_result"] then value
      else if String.eqb ty "moderation_results" then moderation_results_to_responses value
      else otherwise
  | None => otherwise
  end.

Definition moderation_object (input output : option json) (map_side : json -> json) : option json :=
  let obj := match input with Some v => obj_insert "input" (map_side v) [] | None => [] end in
  let obj := match output with Some v => obj_insert "output" (map_side v) obj | None => obj end in
  match obj with [] => None | _ => Some (JObj obj) end.

Definition chat_moderation_value (input output : option json) : option json :=
  moderation_object input output (fun side => side).

Definition responses_moderation_value (input output : option json) : option json :=
  moderation_object input output to_responses_moderation_side.

Definition moderation_event (value : json) : option IrStreamEvent :=
  moderation ← opt_or (get value "moderation") (pointer value [Key "response"; Key "moderation"]);
  if negb (is_object moderation) then None
  else
    let input := to_chat_moderation_side <$> get moderation "input" in
    let output := to_chat_moderation_side <$> get moderation "output" in
    if is_none input && is_none output then None else Some (Moderation input output).

(** ** Custom-tool input *)
Definition wrapped_json (wrap_key : string) (value : json) : json := JObj [(wrap_key, value)].

Section Serializer.
Context {SJ : SerdeJson}.

Definition json_object_or_wrapped (raw_text wrap_key : string) : json * bool :=
  match from_str raw_text with
  | Some value => if is_object value then (value, false) else (wrapped_json wrap_key value, true)
  | None => (wrapped_json wrap_key (JStr raw_text), true)
  end.

Definition json_object_or_raw (raw_text path : string) (report : LossReport) (detail wrap_key : string) :
  json * LossReport :=
  let '(value, degraded) := json_object_or_wrapped raw_text wrap_key in
  (value, if degraded then record report path Degrade detail else report).

Definition response_custom_tool_input (raw_text : string) : json :=
  if is_empty raw_text then JObj [] else (json_object_or_wrapped raw_text "raw").1.

End Serializer.

(** ** Lemmas *)
Lemma get_copy_field src dst key k :
  get (JObj (copy_field src dst key)) k =
  if String.eqb k key then opt_or (get src key) (get (JObj dst) k) else get (JObj dst) k.
Proof.
  unfold copy_field. destruct (get src key) as [v|]; cbn [opt_or].
  - rewrite get_obj_insert. by destruct (String.eqb k key).
  - by destruct (String.eqb k key).
Qed.

Lemma get_copy_fields src keys dst k :
  get (JObj (fold_left (copy_field src) keys dst)) k =
  if one_of k keys then opt_or (get src k) (get (JObj dst) k) else get (JObj dst) k.
Proof.
  revert dst. induction keys as [|key keys IH]; intros dst; [done|]. cbn [fold_left].
  rewrite IH, get_copy_field. unfold one_of. cbn [existsb].
  destruct (String.eqb k key) eqn:E; cbn [orb]; [|done].
  apply String.eqb_eq in E as ->. destruct (existsb _ keys); [|done].
  by destruct (get src key).
Qed.

(** A moderation verdict keeps its content through the two wire shapes:
    a Chat result made from a Responses one reads back the same verdict,
    category, score and model fields. *)
Theorem moderation_shapes_roundtrip value :
  let back := moderation_results_to_responses (moderation_result_to_chat value) in
  get_str back "type" = Some "moderation_result"
  /\ get back "model" = Some (unwrap_or (get value "model") (JStr ""))
  /\ forall key, In key moderation_keys -> get back key = get value key.
Proof.
  cbv zeta. unfold moderation_results_to_responses, moderation_result_to_chat.
  assert (F : get_array (jobj [("type", JStr "moderation_results");
      ("model", unwrap_or (get value "model") (JStr ""));
      ("results", JArr [JObj (fold_left (copy_field value) moderation_keys [])])]) "results" ≫= head
    = Some (JObj (fold_left (copy_field value) moderation_keys []))).
  { unfold get_array. rewrite get_jobj. cbn [assoc_last]. eqb_literals. done. }
  rewrite F. cbv zeta. rewrite get_jobj. cbn [assoc_last]. eqb_literals. cbn [opt_or unwrap_or].
  split; [|split].
  - unfold get_str. rewrite get_copy_fields. unfold one_of, moderation_keys. cbn [existsb]. eqb_literals.
    cbn [orb]. rewrite !get_obj_insert. by eqb_literals.
  - rewrite get_copy_fields. unfold one_of, moderation_keys. cbn [existsb]. eqb_literals. cbn [orb].
    rewrite !get_obj_insert. by eqb_literals.
  - intros key Hk. assert (Ho : one_of key moderation_keys = true) by (by apply one_of_In).
    rewrite get_copy_fields, Ho, get_copy_fields, Ho, !get_obj_insert.
    assert (Hm : String.eqb key "model" = false /\ String.eqb key "type" = false).
    { cbn in Hk. by destruct_or!; subst. }
    destruct Hm as [-> ->]. cbn. by destruct (get value key).
Qed.
