(* ===== verification/Chat.v ===== *)
(** * Chat: Chat Completions stream chunks

    crates/wiremux/src/stream/chat.rs: the decoder of one chunk into one
    event ([decode]) and into every event it carries ([decode_all]), and the
    encoder. *)

From S2P Require Import Prelude Text Json JsonCodec Sse Ir ProfileTypes StreamCore Usage Completion Shapes.

(** [.and_then(Value::as_str).filter(|s| !s.is_empty())] of a field. *)
Definition nonempty_field (value : json) (key : string) : option string := nonempty (get_str value key).

(** [if let Some(delta) = delta { delta.get(key) }] *)
Definition delta_get (delta : option json) (key : string) : option json := d ← delta; get d key.

(** ** Identity and log-probability events *)
Definition not_blank (o : option string) : option string :=
  opt_filter (fun text => negb (is_empty (trim text))) o.

Definition completion_id_event (value : json) : option IrStreamEvent :=
  (fun id => Protocol "chat_completion_id" (JStr id)) <$> not_blank (get_str value "id").

Definition system_fingerprint_event (value : json) : option IrStreamEvent :=
  (fun fp => Protocol "system_fingerprint" (JStr fp)) <$> not_blank (get_str value "system_fingerprint").

Definition is_number (v : json) : bool := match v with JNum _ => true | _ => false end.

Definition audio_identity_events (audio : json) : list IrStreamEvent :=
  push_opt (fun id => Protocol "chat_audio_id" (JStr id)) (nonempty (str_field audio "id"))
  ++ push_opt (fun expires => Protocol "chat_audio_expires" expires)
       (opt_filter is_number (get audio "expires_at")).

Definition present_logprob_array (value : option json) : option json :=
  items ← value ≫= as_array;
  match items with [] => None | _ => Some (JArr items) end.

Definition chat_logprobs_event (choice : json) : option IrStreamEvent :=
  logprobs ← get choice "logprobs";
  let content := present_logprob_array (get logprobs "content") in
  let refusal := present_logprob_array (get logprobs "refusal") in
  if is_none content && is_none refusal then None
  else Some (Logprobs (unwrap_or content JNull) refusal).

Definition push_logprob_items (dst : list json) (value : json) : list json :=
  match value with
  | JArr items => dst ++ items
  | JNull => dst
  | other => dst ++ [other]
  end.

Definition merged_logprob_items (content : json) (refusal : option json) : list json :=
  let out := push_logprob_items [] content in
  match refusal with Some refusal => push_logprob_items out refusal | None => out end.

Definition insert_logprob_field (logprobs : object) (key : string) (value : option json) : object :=
  match value with
  | None => logprobs
  | Some value =>
      if is_null value || is_some_and (as_array value) (fun items => bool_decide (items = []))
      then logprobs else obj_insert key value logprobs
  end.

Definition chat_logprobs_value (content : json) (refusal : option json) : option json :=
  let logprobs := insert_logprob_field [] "content" (Some content) in
  let logprobs := insert_logprob_field logprobs "refusal" refusal in
  match logprobs with [] => None | _ => Some (JObj logprobs) end.

(** ** Content parts *)
Definition chat_image_url_part (media_type data : string) : json :=
  jobj [("type", JStr "image_url");
        ("image_url", jobj [("url", JStr ("data:" +:+ media_type +:+ ";base64," +:+ data))])].

Definition image_event_from_part (part : json) : option IrStreamEvent :=
  if negb (bool_decide (get_str part "type" = Some "image_url")) then None
  else
    url ← pointer_str part [Key "image_url"; Key "url"];
    rest ← strip_prefix "data:" url;
    '(media_type, data) ← split_once_str ";base64," rest;
    if is_empty data || negb (starts_with "image/" (to_ascii_lowercase media_type)) then None
    else Some (ImageDelta media_type data).

(** A text part: of no type or of type [text]. *)
Definition text_piece (part : json) : option string :=
  let ty := get_str part "type" in
  if is_none ty || bool_decide (ty = Some "text") then get_str part "text" else None.

Definition flush_text (text : string) : list IrStreamEvent :=
  if is_empty text then [] else [TextDelta text].

(** One iteration of the loop over the parts: the state is [(out, text)]. *)
Definition content_part (st : list IrStreamEvent * string) (part : json) : list IrStreamEvent * string :=
  let '(out, text) := st in
  match as_str part with
  | Some piece => (out, text +:+ piece)
  | None =>
      if bool_decide (get_str part "type" = Some "image_url") then
        (out ++ flush_text text ++ [unwrap_or (image_event_from_part part) (protocol "image_url" part)], "")
      else
        match text_piece part with
        | Some piece => (out, text +:+ piece)
        | None => (out, text)
        end
  end.

Definition content_events (content : json) : list IrStreamEvent :=
  match nonempty (as_str content) with
  | Some text => [TextDelta text]
  | None =>
      match as_array content with
      | None => []
      | Some parts => let '(out, text) := fold_left content_part parts ([], "") in out ++ flush_text text
      end
  end.

Definition flatten_part (out : string) (part : json) : string :=
  match as_str part with
  | Some s => out +:+ s
  | None => match text_piece part with Some s => out +:+ s | None => out end
  end.

Definition flatten_content (content : json) : option string :=
  match nonempty (as_str content) with
  | Some s => Some s
  | None =>
      arr ← as_array content;
      let out := fold_left flatten_part arr "" in
      if is_empty out then None else Some out
  end.

(** ** Finish reasons *)
Definition map_finish (reason : string) : string :=
  if String.eqb reason "eos" then "stop"
  else if String.eqb reason "function_call" then "tool_calls"
  else if one_of reason ["content_filter"; "content-filter"] then "content_filter"
  else reason.

Definition encode_finish (reason : string) : string :=
  if one_of reason ["max_tokens"; "model_context_window_exceeded"] then "length"
  else if one_of reason ["failed"; "cancelled"; "canceled"; "end_turn"; "stop_sequence"; "pause_turn"]
  then "stop"
  else reason.

Definition finish_after_tool (reason : string) (saw_tool : bool) : string :=
  if saw_tool && one_of reason ["stop"; "end_turn"] then "tool_calls" else encode_finish reason.

(** ** Annotations *)
Definition annotation_url (ann : json) : option string :=
  nonempty (opt_or (pointer ann [Key "url_citation"; Key "url"]) (get ann "url") ≫= as_str).

Definition annotation_title (ann : json) : option string :=
  nonempty (opt_or (pointer ann [Key "url_citation"; Key "title"]) (get ann "title") ≫= as_str).

Definition annotation_keys : list string := ["start_index"; "end_index"; "title"; "url"].

Definition annotation_from_chat (ann : json) : json :=
  if negb (bool_decide (get_str ann "type" = Some "url_citation")) then ann
  else
    match get ann "url_citation" with
    | None => ann
    | Some cit => JObj (fold_left (copy_field cit) annotation_keys [("type", JStr "url_citation")])
    end.

Definition annotation_to_chat (ann : json) : json :=
  if negb (bool_decide (get_str ann "type" = Some "url_citation")) || is_some (get ann "url_citation")
  then ann
  else
    jobj [("type", JStr "url_citation");
          ("url_citation",
           jobj [("start_index", unwrap_or (get ann "start_index") (jint 0));
                 ("end_index", unwrap_or (get ann "end_index") (jint 0));
                 ("title", unwrap_or (get ann "title") (JStr ""));
                 ("url", unwrap_or (get ann "url") (JStr ""))])].

(** ** Tool calls *)
Definition function_body (call : json) : json := unwrap_or (get call "function") call.

Definition tool_call_index (call : json) : Z :=
  unwrap_or ((get call "index" ≫= as_u64) ≫= u32_try_from) 0.

Definition protocol_chunk (chunk : json) : list IrStreamEvent := [Protocol "chunk" chunk].

Definition is_custom_tool_call (call : json) : bool :=
  match get_str call "type" with
  | Some ty => String.eqb ty "custom"
  | None => is_some (get call "custom") && is_none (get call "function")
  end.

(** A type that is present and not [function]. *)
Definition foreign_type (call : json) : bool :=
  is_some_and (get_str call "type") (fun ty => negb (String.eqb ty "function")).

Definition singular_media_limit : MapError :=
  Invalid "decode_stream_event cannot represent every event in this Chat chunk; use decode_stream_events".

Definition singular_tool_limit : MapError :=
  Invalid "decode_stream_event cannot represent multiple Chat tool calls or a call that includes arguments; use decode_stream_events".

Definition reject_bare_chat_error (value : json) : result MapError unit :=
  if json_has_completion value then Ok tt
  else
    match json_string_error value with
    | Some text => Err (Invalid text)
    | None =>
        match object_field value "error" ≫= error_object_detail with
        | Some detail => Err (Invalid detail)
        | None => Ok tt
        end
    end.

(** [for call in calls { f(call)?; }] *)
Fixpoint for_each {A E} (f : A -> result E unit) (l : list A) : result E unit :=
  match l with [] => Ok tt | a :: l => let* _ := f a in for_each f l end.

(** [for call in calls { out.extend(f(call)?); }] *)
Fixpoint collect {A B E} (f : A -> result E (list B)) (l : list A) : result E (list B) :=
  match l with
  | [] => Ok []
  | a :: l => let* x := f a in let* y := collect f l in Ok (x ++ y)
  end.

Section Serializer.
Context {SJ : SerdeJson}.

Definition expand_custom_tool_call (call chunk : json) : result MapError (list IrStreamEvent) :=
  let custom := unwrap_or (get call "custom") call in
  let id := unwrap_or (str_field call "id") "" in
  let name := unwrap_or (str_field custom "name") "" in
  let* input := json_text_field custom "input" in
  let index := tool_call_index call in
  let out := (if negb (is_empty id) || negb (is_empty name) then [CustomToolCallStart id name index] else [])
             ++ push_opt (fun delta => CustomToolCallInputDelta delta index) input in
  match out with [] => Ok (protocol_chunk chunk) | _ => Ok out end.

Definition expand_tool_call (call chunk : json) : result MapError (list IrStreamEvent) :=
  if is_custom_tool_call call then expand_custom_tool_call call chunk
  else if foreign_type call then Ok (protocol_chunk chunk)
  else
    let func := function_body call in
    let id := unwrap_or (str_field call "id") "" in
    let name := unwrap_or (str_field func "name") "" in
    let* args := json_text_field func "arguments" in
    let index := tool_call_index call in
    let out := (if negb (is_empty id) || negb (is_empty name) then [ToolCallStart id name None index] else [])
               ++ push_opt (fun delta => ToolCallArgDelta delta index) args in
    match out with [] => Ok (protocol_chunk chunk) | _ => Ok out end.

(** [json_text_field(...).ok().flatten()] *)
Definition text_field_ok (value : json) (key : string) : option string :=
  match json_text_field value key with Ok o => o | Err _ => None end.

Definition call_bundles_arguments (call : json) : bool :=
  if foreign_type call then false
  else
    let func := function_body call in
    let started := is_some (str_field call "id") || is_some (str_field func "name") in
    started && is_some (text_field_ok func "arguments").

Definition decode_tool_call (call chunk : json) : IrStreamEvent :=
  if foreign_type call then Protocol "chunk" chunk
  else
    let func := function_body call in
    let id := str_field call "id" in
    let name := str_field func "name" in
    let index := tool_call_index call in
    if is_some id || is_some name then ToolCallStart (unwrap_or id "") (unwrap_or name "") None index
    else
      match text_field_ok func "arguments" with
      | Some delta => ToolCallArgDelta delta index
      | None => Protocol "chunk" chunk
      end.

(** ** Decoding *)
Definition chat_choices (value : json) : option (list json) := get_array value "choices".

Definition choice_finish (choice : json) : option IrStreamEvent :=
  (fun reason => FinishReason (map_finish reason) None) <$> nonempty_field choice "finish_reason".

Definition chat_usage (value : json) : option IrStreamEvent := from_chat <$> object_field value "usage".

(** [delta.reasoning_content], or [delta.reasoning] *)
Definition reasoning_text (delta : option json) : option string :=
  nonempty ((d ← delta; opt_or (get d "reasoning_content") (get d "reasoning")) ≫= as_str).

Definition delta_str (delta : option json) (key : string) : option string :=
  nonempty (delta_get delta key ≫= as_str).

Definition audio_events (audio : json) : list IrStreamEvent :=
  push_opt AudioDelta (nonempty (str_field audio "data"))
  ++ push_opt AudioTranscriptDelta (nonempty (str_field audio "transcript"))
  ++ audio_identity_events audio.

Definition delta_audio (delta : option json) : list IrStreamEvent :=
  match opt_filter is_object (delta_get delta "audio") with
  | Some audio => audio_events audio
  | None => []
  end.

(** The tool calls of the choice: [Some] ends [decode]. *)
Definition decode_calls (choice value : json) : result MapError (option IrStreamEvent) :=
  match pointer choice [Key "delta"; Key "tool_calls"] ≫= as_array with
  | Some calls =>
      let* _ := for_each (fun call =>
          let* _ := check_index call "index" MAX_TOOL_CALL_INDEX "tool call" in
          let* _ := json_text_field (function_body call) "arguments" in Ok tt) calls in
      if (1 <? vlen calls) || is_some_and (head calls) call_bundles_arguments
      then Err singular_tool_limit
      else Ok (option_map (fun call => decode_tool_call call value) (head calls))
  | None => Ok None
  end.

Definition decode_function_call (choice value : json) : result MapError (option IrStreamEvent) :=
  match opt_filter is_object (pointer choice [Key "delta"; Key "function_call"]) with
  | Some fc =>
      let* _ := json_text_field (function_body fc) "arguments" in
      if call_bundles_arguments fc then Err singular_tool_limit
      else Ok (Some (decode_tool_call fc value))
  | None => Ok None
  end.

(** The text-like fields of a delta, in the order they are looked for. *)
Definition decode_delta (choice : json) : option IrStreamEvent :=
  let delta := get choice "delta" in
  match delta_get delta "content" ≫= flatten_content with
  | Some text => Some (TextDelta text)
  | None =>
      match delta_str delta "refusal" with
      | Some text => Some (RefusalDelta text)
      | None =>
          match chat_logprobs_event choice with
          | Some ev => Some ev
          | None =>
              match reasoning_text delta with
              | Some text => Some (ReasoningDelta text)
              | None => ReasoningSignature <$> delta_str delta "reasoning_signature"
              end
          end
      end
  end.

(** Media, then the finish reason, then usage. *)
Definition decode_tail (choice value : json) : result MapError (option IrStreamEvent) :=
  let delta := get choice "delta" in
  let media := match delta_get delta "content" with Some content => content_events content | None => [] end
               ++ delta_audio delta in
  let finish := choice_finish choice in
  let usage := chat_usage value in
  if (1 <? vlen media) || (negb (bool_decide (media = [])) && (is_some finish || is_some usage))
  then Err singular_media_limit
  else Ok (opt_or (head media) (opt_or finish usage)).

Definition decode_choice (choice value : json) : result MapError (option IrStreamEvent) :=
  let* calls := decode_calls choice value in
  match calls with
  | Some ev => Ok (Some ev)
  | None =>
      let* call := decode_function_call choice value in
      match call with
      | Some ev => Ok (Some ev)
      | None =>
          match decode_delta choice with
          | Some ev => Ok (Some ev)
          | None => decode_tail choice value
          end
      end
  end.

Definition decode (value : json) : result MapError (option IrStreamEvent) :=
  let* _ := reject_bare_chat_error value in
  let choices := chat_choices value in
  let empty_choices := match choices with Some c => bool_decide (c = []) | None => true end in
  match (if empty_choices then chat_usage value else None) with
  | Some usage => Ok (Some usage)
  | None =>
      match choices ≫= head with
      | None =>
          Ok (opt_or (chat_usage value) (opt_or (moderation_event value) (system_fingerprint_event value)))
      | Some choice => decode_choice choice value
      end
  end.

Definition usage_events (value : json) : list IrStreamEvent :=
  match object_field value "usage" with
  | Some usage => from_chat usage :: chat_prediction_token_events usage
  | None => []
  end.

(** The response-level fields of a chunk. *)
Definition head_events (value : json) : list IrStreamEvent :=
  push_opt (fun ev => ev) (completion_id_event value)
  ++ push_opt ServiceTier (nonempty_field value "service_tier")
  ++ push_opt (fun ev => ev) (system_fingerprint_event value)
  ++ push_opt Created (get value "created" ≫= as_i64)
  ++ push_opt Metadata (string_metadata (get value "metadata"))
  ++ push_opt (fun ev => ev) (moderation_event value).

Definition call_events (choice value : json) : result MapError (list IrStreamEvent) :=
  match pointer choice [Key "delta"; Key "tool_calls"] ≫= as_array with
  | Some calls =>
      collect (fun call =>
          let* _ := check_index call "index" MAX_TOOL_CALL_INDEX "tool call" in
          expand_tool_call call value) calls
  | None =>
      match opt_filter is_object (pointer choice [Key "delta"; Key "function_call"]) with
      | Some fc => expand_tool_call fc value
      | None => Ok []
      end
  end.

Definition annotation_events (delta : option json) : list IrStreamEvent :=
  match delta_get delta "annotations" ≫= as_array with
  | Some anns => map (fun ann => AnnotationAdded (annotation_from_chat ann)) (List.filter is_object anns)
  | None => []
  end.

(** The fields of the choice after its tool calls. *)
Definition delta_events (choice : json) : list IrStreamEvent :=
  let delta := get choice "delta" in
  push_opt ReasoningDelta (reasoning_text delta)
  ++ push_opt ReasoningSignature (delta_str delta "reasoning_signature")
  ++ match delta_get delta "content" with Some content => content_events content | None => [] end
  ++ annotation_events delta
  ++ push_opt RefusalDelta (delta_str delta "refusal")
  ++ delta_audio delta
  ++ push_opt (fun ev => ev) (chat_logprobs_event choice)
  ++ push_opt (fun ev => ev) (choice_finish choice).

Definition decode_all (value : json) : result MapError (list IrStreamEvent) :=
  let* _ := reject_bare_chat_error value in
  let choices := chat_choices value in
  let empty_choices := match choices with Some c => bool_decide (c = []) | None => true end in
  if empty_choices && is_some (object_field value "usage") then
    Ok (push_opt (fun ev => ev) (completion_id_event value) ++ usage_events value)
  else
    match choices ≫= head with
    | None => Ok (usage_events value ++ push_opt (fun ev => ev) (moderation_event value))
    | Some choice =>
        let* calls := call_events choice value in
        Ok (head_events value ++ calls ++ delta_events choice ++ usage_events value)
    end.

(** ** Encoding *)

(** [{ "choices": [{ "index": 0, "delta": delta }] }] *)
Definition delta_chunk (delta : json) : json :=
  jobj [("choices", JArr [jobj [("index", jint 0); ("delta", delta)]])].

(** A chunk whose only choice carries one tool call. *)
Definition tool_chunk (call : list (string * json)) : json :=
  delta_chunk (jobj [("tool_calls", JArr [jobj call])]).

Definition metadata_json (m : list (string * string)) : json := JObj (map (fun kv => (kv.1, JStr kv.2)) m).

Definition encode_data (ev : IrStreamEvent) : result MapError json :=
  match ev with
  | TextDelta text => Ok (delta_chunk (jobj [("content", JStr text)]))
  | RefusalDelta text => Ok (delta_chunk (jobj [("refusal", JStr text)]))
  | ReasoningDelta text => Ok (delta_chunk (jobj [("reasoning_content", JStr text)]))
  | ReasoningSignature signature => Ok (delta_chunk (jobj [("reasoning_signature", JStr signature)]))
  | ToolCallStart id name _ index =>
      Ok (tool_chunk [("index", jint index); ("id", JStr id); ("type", JStr "function");
                      ("function", jobj [("name", JStr name); ("arguments", JStr "")])])
  | ToolCallArgDelta delta index =>
      Ok (tool_chunk [("index", jint index); ("function", jobj [("arguments", JStr delta)])])
  | ToolCallEnd => Ok (delta_chunk (JObj []))
  | AnnotationAdded annotation =>
      Ok (delta_chunk (jobj [("annotations", JArr [annotation_to_chat annotation])]))
  | AudioDelta data => Ok (delta_chunk (jobj [("audio", jobj [("data", JStr data)])]))
  | ImageDelta media_type data =>
      Ok (delta_chunk (jobj [("content", JArr [chat_image_url_part media_type data])]))
  | AudioTranscriptDelta text => Ok (delta_chunk (jobj [("audio", jobj [("transcript", JStr text)])]))
  | CustomToolCallStart id name index =>
      Ok (tool_chunk [("index", jint index); ("id", JStr id); ("type", JStr "custom");
                      ("custom", jobj [("name", JStr name); ("input", JStr "")])])
  | CustomToolCallInputDelta delta index =>
      Ok (tool_chunk [("index", jint index); ("type", JStr "custom"); ("custom", jobj [("input", JStr delta)])])
  | Logprobs content refusal =>
      let choice := jobj [("index", jint 0); ("delta", JObj [])] in
      let choice := match chat_logprobs_value content refusal with
                    | Some logprobs => index_set choice "logprobs" logprobs
                    | None => choice
                    end in
      Ok (jobj [("choices", JArr [choice])])
  | Created unix => Ok (jobj [("created", jint unix); ("choices", JArr [])])
  | ServiceTier tier => Ok (jobj [("service_tier", JStr tier); ("choices", JArr [])])
  | Metadata metadata => Ok (jobj [("metadata", metadata_json metadata); ("choices", JArr [])])
  | Moderation input output =>
      let moderation := match input with Some v => obj_insert "input" v [] | None => [] end in
      let moderation := match output with Some v => obj_insert "output" v moderation | None => moderation end in
      Ok (jobj [("moderation", JObj moderation); ("choices", JArr [])])
  | Usage p c cr cw r a ca _ => Ok (encode_chat p c cr cw r a ca)
  | FinishReason reason _ =>
      Ok (jobj [("choices", JArr [jobj [("index", jint 0); ("delta", JObj []);
                                       ("finish_reason", JStr (encode_finish reason))]])])
  | Diagnostics _ | Container _ | ContextManagement _ | StopSequence _ | SearchEntryPoint _ =>
      Ok (jobj [("choices", JArr [])])
  | Protocol item_type payload =>
      if String.eqb item_type "chat_audio_id" then
        Ok (delta_chunk (jobj [("audio", jobj [("id", payload)])]))
      else if String.eqb item_type "chat_audio_expires" then
        Ok (delta_chunk (jobj [("audio", jobj [("expires_at", payload)])]))
      else if String.eqb item_type "system_fingerprint" && is_some (not_blank (as_str payload)) then
        Ok (jobj [("system_fingerprint", JStr (unwrap_or (as_str payload) "")); ("choices", JArr [])])
      else Err (Invalid "protocol/unknown events are encoded at the stream root")
  | UnknownEvent _ _ | Done => Err (Invalid "protocol/unknown events are encoded at the stream root")
  end.

(** [Done] returns its frame before the common exit. *)
Definition encode (ev : IrStreamEvent) : result MapError RawSse :=
  match ev with
  | Done => Ok (mkRawSse None "[DONE]")
  | ev => let* data := encode_data ev in Ok (mkRawSse None (to_string data))
  end.

End Serializer.

(** ** Lemmas *)
Lemma no_error_ok value : get value "error" = None -> reject_bare_chat_error value = Ok tt.
Proof.
  intros E. unfold reject_bare_chat_error, json_string_error, trimmed_str, get_str, object_field.
  rewrite E. by destruct (json_has_completion value).
Qed.

Section Lemmas.
Context {SJ : SerdeJson}.

Definition chat_choice (delta : json) : json := jobj [("index", jint 0); ("delta", delta)].

Lemma get_chat_choice delta k :
  get (chat_choice delta) k =
  if String.eqb k "delta" then Some delta else if String.eqb k "index" then Some (jint 0) else None.
Proof. unfold chat_choice. rewrite get_jobj. cbn [assoc_last]. by destruct (String.eqb k "delta"). Qed.

(** What a chunk with one choice and nothing else decodes to. *)
Lemma decode_all_choice choice :
  let value := jobj [("choices", JArr [choice])] in
  decode_all value = (let* calls := call_events choice value in Ok (calls ++ delta_events choice)).
Proof.
  cbv zeta. set (value := jobj _).
  assert (G : forall k, get value k = if String.eqb k "choices" then Some (JArr [choice]) else None).
  { intros k. unfold value. by rewrite get_jobj. }
  assert (P : forall k, pointer value [Key "response"; Key k] = None).
  { intros k. rewrite pointer_key, G. by eqb_literals. }
  unfold decode_all. rewrite no_error_ok by (rewrite G; by eqb_literals). cbn [rbind].
  unfold chat_choices, get_array, object_field. rewrite !G. eqb_literals.
  cbn [mbind option_bind as_array head is_some andb opt_filter].
  rewrite bool_decide_false by done. cbn [andb].
  unfold head_events, usage_events, completion_id_event, system_fingerprint_event, moderation_event,
    nonempty_field, string_metadata, object_field, get_str. rewrite !G, P. eqb_literals. cbn [mbind option_bind opt_or opt_filter].
  destruct (call_events choice value) as [calls|e]; [|done]. cbn. by rewrite app_nil_r.
Qed.

(** A delta of one field: only that field is read. *)
Lemma delta_events_single k v :
  delta_events (chat_choice (jobj [(k, v)])) =
  push_opt ReasoningDelta
    (nonempty ((opt_or (if String.eqb "reasoning_content" k then Some v else None)
                       (if String.eqb "reasoning" k then Some v else None)) ≫= as_str))
  ++ push_opt ReasoningSignature (nonempty ((if String.eqb "reasoning_signature" k then Some v else None) ≫= as_str))
  ++ match (if String.eqb "content" k then Some v else None) with
     | Some content => content_events content | None => [] end
  ++ match (if String.eqb "annotations" k then Some v else None) ≫= as_array with
     | Some anns => map (fun ann => AnnotationAdded (annotation_from_chat ann)) (List.filter is_object anns)
     | None => [] end
  ++ push_opt RefusalDelta (nonempty ((if String.eqb "refusal" k then Some v else None) ≫= as_str))
  ++ match opt_filter is_object (if String.eqb "audio" k then Some v else None) with
     | Some audio => audio_events audio | None => [] end.
Proof.
  assert (G : forall key, get (jobj [(k, v)]) key = if String.eqb key k then Some v else None).
  { intros key. by rewrite get_jobj. }
  unfold delta_events, reasoning_text, delta_str, annotation_events, delta_audio, delta_get,
    chat_logprobs_event, choice_finish, nonempty_field, get_str.
  rewrite !get_chat_choice. eqb_literals. cbn [mbind option_bind]. rewrite !G.
  cbn [fmap option_fmap option_map push_opt nonempty opt_filter]. by rewrite !app_nil_r.
Qed.

Lemma call_events_single k v value :
  k <> "tool_calls" -> k <> "function_call" -> call_events (chat_choice (jobj [(k, v)])) value = Ok [].
Proof.
  intros N1 N2. unfold call_events. rewrite !pointer_key, !get_chat_choice. eqb_literals.
  cbn [mbind option_bind]. rewrite !pointer_key, !get_jobj. cbn [assoc_last].
  by rewrite !(str_eqb_neq _ k) by congruence.
Qed.

Lemma decode_all_single k v :
  k <> "tool_calls" -> k <> "function_call" ->
  decode_all (delta_chunk (jobj [(k, v)])) = Ok (delta_events (chat_choice (jobj [(k, v)]))).
Proof.
  intros N1 N2. unfold delta_chunk. fold (chat_choice (jobj [(k, v)])).
  rewrite decode_all_choice, call_events_single by done. done.
Qed.

Lemma decode_all_tool call :
  decode_all (tool_chunk call) =
  (let* evs := (let* _ := check_index (jobj call) "index" MAX_TOOL_CALL_INDEX "tool call" in
                expand_tool_call (jobj call) (tool_chunk call)) in Ok evs).
Proof.
  unfold tool_chunk, delta_chunk at 1. fold (chat_choice (jobj [("tool_calls", JArr [jobj call])])).
  rewrite decode_all_choice, delta_events_single. eqb_literals. cbn [mbind option_bind opt_or].
  unfold call_events. rewrite !pointer_key, get_chat_choice. eqb_literals. cbn [mbind option_bind].
  rewrite pointer_key, get_jobj. cbn [assoc_last]. eqb_literals. cbn [mbind option_bind].
  rewrite pointer_nil. cbn [mbind option_bind as_array collect].
  change (jobj [("choices", JArr [chat_choice (jobj [("tool_calls", JArr [jobj call])])])]) with (tool_chunk call).
  change (delta_chunk (jobj [("tool_calls", JArr [jobj call])])) with (tool_chunk call).
  destruct (check_index (jobj call) "index" MAX_TOOL_CALL_INDEX "tool call") as [[]|e]; [|done].
  cbn [rbind]. destruct (expand_tool_call (jobj call) (tool_chunk call)) as [evs|e]; [|done].
  cbn. by rewrite !app_nil_r.
Qed.

Lemma check_index_ok v n :
  get v "index" = Some (jint n) -> 0 <= n <= MAX_TOOL_CALL_INDEX ->
  check_index v "index" MAX_TOOL_CALL_INDEX "tool call" = Ok tt.
Proof.
  intros E Hn. unfold check_index. rewrite E, as_u64_jint by (unfold MAX_TOOL_CALL_INDEX in Hn; int_lia).
  by rewrite (proj2 (Z.ltb_ge _ _)) by lia.
Qed.

Lemma tool_index_ok v n :
  get v "index" = Some (jint n) -> 0 <= n <= MAX_TOOL_CALL_INDEX -> tool_call_index v = n.
Proof.
  intros E Hn. unfold tool_call_index. rewrite E. by rewrite u32_jint by (unfold MAX_TOOL_CALL_INDEX in Hn; int_lia).
Qed.
End Lemmas.

Section Properties.
Context {SJ : SerdeJson}.

Definition is_image (media_type : string) : bool := starts_with "image/" (to_ascii_lowercase media_type).

(** The events a Chat chunk carries whole: what a decoder must give back. *)
Definition chat_stable (ev : IrStreamEvent) : Prop :=
  match ev with
  | TextDelta t | RefusalDelta t | ReasoningDelta t | ReasoningSignature t
  | AudioDelta t | AudioTranscriptDelta t => is_empty t = false
  | ToolCallStart id name sig index =>
      is_empty id && is_empty name = false /\ sig = None /\ 0 <= index <= MAX_TOOL_CALL_INDEX
  | CustomToolCallStart id name index =>
      is_empty id && is_empty name = false /\ 0 <= index <= MAX_TOOL_CALL_INDEX
  | ToolCallArgDelta delta index | CustomToolCallInputDelta delta index =>
      is_empty delta = false /\ 0 <= index <= MAX_TOOL_CALL_INDEX
  | ImageDelta media_type data =>
      is_image media_type = true /\ is_empty data = false
      /\ split_once_str ";base64," (media_type +:+ ";base64," +:+ data) = Some (media_type, data)
  | FinishReason reason vendor => vendor = None /\ is_empty reason = false /\ map_finish (encode_finish reason) = reason
  | Usage p c cr cw r a ca geo =>
      Forall is_u32 [p; c; cr; cw; r; a; ca] /\ p + cr <= u32_max /\ c + r <= u32_max /\ geo = None
  | Moderation input output =>
      (is_some input || is_some output) = true
      /\ (forall v, input = Some v -> to_chat_moderation_side v = v)
      /\ (forall v, output = Some v -> to_chat_moderation_side v = v)
  | _ => False
  end.

Lemma nonempty_is s : is_empty s = false -> nonempty (Some s) = Some s.
Proof. intros E. unfold nonempty, opt_filter. by rewrite E. Qed.

Ltac single :=
  rewrite decode_all_single by done; rewrite delta_events_single; eqb_literals;
  cbn [mbind option_bind opt_or opt_filter as_str as_array push_opt];
  rewrite ?nonempty_is by done; try done.

Lemma tool_stable id name index :
  is_empty id && is_empty name = false -> 0 <= index <= MAX_TOOL_CALL_INDEX ->
  decode_all (tool_chunk [("index", jint index); ("id", JStr id); ("type", JStr "function");
     ("function", jobj [("name", JStr name); ("arguments", JStr "")])])
  = Ok [ToolCallStart id name None index].
Proof.
  intros He Hi. rewrite decode_all_tool.
  rewrite (check_index_ok _ index) by (done || by read_json). cbn [rbind].
  unfold expand_tool_call, is_custom_tool_call, foreign_type, function_body, str_field, get_str, json_text_field.
  read_json. cbn [mbind option_bind as_str is_some_and unwrap_or]. eqb_literals. cbn [negb]. read_json.
  cbn [mbind option_bind as_str unwrap_or is_empty rbind push_opt].
  rewrite (tool_index_ok _ index) by (done || by read_json).
  rewrite <- negb_andb, He. done.
Qed.

Lemma custom_stable id name index :
  is_empty id && is_empty name = false -> 0 <= index <= MAX_TOOL_CALL_INDEX ->
  decode_all (tool_chunk [("index", jint index); ("id", JStr id); ("type", JStr "custom");
     ("custom", jobj [("name", JStr name); ("input", JStr "")])])
  = Ok [CustomToolCallStart id name index].
Proof.
  intros He Hi. rewrite decode_all_tool.
  rewrite (check_index_ok _ index) by (done || by read_json). cbn [rbind].
  unfold expand_tool_call, is_custom_tool_call, expand_custom_tool_call, str_field, get_str, json_text_field.
  read_json. cbn [mbind option_bind as_str unwrap_or]. eqb_literals. read_json.
  cbn [mbind option_bind as_str unwrap_or is_empty rbind push_opt].
  rewrite (tool_index_ok _ index) by (done || by read_json).
  rewrite <- negb_andb, He. done.
Qed.

Lemma arg_stable delta index :
  is_empty delta = false -> 0 <= index <= MAX_TOOL_CALL_INDEX ->
  decode_all (tool_chunk [("index", jint index); ("function", jobj [("arguments", JStr delta)])])
  = Ok [ToolCallArgDelta delta index].
Proof.
  intros He Hi. rewrite decode_all_tool.
  rewrite (check_index_ok _ index) by (done || by read_json). cbn [rbind].
  unfold expand_tool_call, is_custom_tool_call, foreign_type, function_body, str_field, get_str, json_text_field.
  read_json. cbn [mbind option_bind as_str is_some_and unwrap_or is_some is_none andb]. read_json.
  cbn [mbind option_bind as_str unwrap_or]. rewrite He. cbn [rbind is_empty negb orb app push_opt].
  by rewrite (tool_index_ok _ index) by (done || by read_json).
Qed.

Lemma input_stable delta index :
  is_empty delta = false -> 0 <= index <= MAX_TOOL_CALL_INDEX ->
  decode_all (tool_chunk [("index", jint index); ("type", JStr "custom"); ("custom", jobj [("input", JStr delta)])])
  = Ok [CustomToolCallInputDelta delta index].
Proof.
  intros He Hi. rewrite decode_all_tool.
  rewrite (check_index_ok _ index) by (done || by read_json). cbn [rbind].
  unfold expand_tool_call, is_custom_tool_call, expand_custom_tool_call, str_field, get_str, json_text_field.
  read_json. cbn [mbind option_bind as_str unwrap_or]. eqb_literals. read_json.
  cbn [mbind option_bind as_str unwrap_or]. rewrite He. cbn [rbind is_empty negb orb app push_opt].
  by rewrite (tool_index_ok _ index) by (done || by read_json).
Qed.

Lemma image_stable media_type data :
  is_image media_type = true -> is_empty data = false ->
  split_once_str ";base64," (media_type +:+ ";base64," +:+ data) = Some (media_type, data) ->
  content_events (JArr [chat_image_url_part media_type data]) = [ImageDelta media_type data].
Proof.
  intros Hi Hd Hs. unfold content_events. cbn [nonempty opt_filter as_str as_array fold_left content_part].
  assert (E : image_event_from_part (chat_image_url_part media_type data) = Some (ImageDelta media_type data)).
  { unfold image_event_from_part, chat_image_url_part, get_str, pointer_str. read_json.
    cbn [mbind option_bind as_str]. rewrite bool_decide_true by done. cbn [negb].
    rewrite pointer_key. read_json. cbn [mbind option_bind]. rewrite pointer_key. read_json.
    cbn [mbind option_bind]. rewrite pointer_nil. cbn [mbind option_bind as_str].
    rewrite strip_prefix_app. cbn [mbind option_bind]. rewrite Hs. cbn [mbind option_bind].
    unfold is_image in Hi. by rewrite Hd, Hi. }
  change (as_str (chat_image_url_part media_type data)) with (@None string). cbn iota.
  rewrite bool_decide_true; [by rewrite E|]. unfold get_str, chat_image_url_part. read_json. done.
Qed.

Lemma finish_stable reason :
  is_empty reason = false -> map_finish (encode_finish reason) = reason ->
  decode_all (jobj [("choices", JArr [jobj [("index", jint 0); ("delta", JObj []);
     ("finish_reason", JStr (encode_finish reason))]])]) = Ok [FinishReason reason None].
Proof.
  intros He Hm. rewrite decode_all_choice. unfold call_events. rewrite !pointer_key. read_json.
  cbn [mbind option_bind]. rewrite !pointer_key. cbn [get obj_get mbind option_bind opt_filter rbind app].
  assert (Hn : is_empty (encode_finish reason) = false).
  { unfold encode_finish. by repeat case_match. }
  unfold delta_events, reasoning_text, delta_str, annotation_events, delta_audio, delta_get,
    chat_logprobs_event, choice_finish, nonempty_field, get_str. read_json.
  cbn [get obj_get mbind option_bind opt_or opt_filter as_str push_opt app].
  rewrite nonempty_is by done. cbn. by rewrite Hm.
Qed.

Lemma usage_stable p c cr cw r a ca :
  Forall is_u32 [p; c; cr; cw; r; a; ca] -> p + cr <= u32_max -> c + r <= u32_max ->
  decode_all (encode_chat p c cr cw r a ca) = Ok [Usage p c cr cw r a ca None].
Proof.
  intros H Hp Hc. destruct (chat_usage_roundtrip p c cr cw r a ca H) as (u & Hu & Hf).
  set (value := encode_chat p c cr cw r a ca) in *.
  assert (G : forall k, get value k = if String.eqb k "usage" then Some u
                        else if String.eqb k "choices" then Some (JArr []) else None).
  { intros k. destruct (String.eqb k "usage") eqn:E; [by apply String.eqb_eq in E as ->|].
    unfold value, encode_chat. rewrite get_jobj. cbn [assoc_last]. by rewrite E. }
  assert (Hobj : is_object u = true).
  { revert Hu. unfold value, encode_chat. rewrite get_jobj. cbn [assoc_last]. eqb_literals.
    intros [= <-]. by rewrite !is_object_set_details. }
  assert (Hpred : chat_prediction_token_events u = []).
  { clear Hf Hobj. revert Hu. unfold value, encode_chat. rewrite get_jobj. cbn [assoc_last]. eqb_literals.
    rewrite !Forall_cons in H. destruct H as (? & ? & ? & ? & ? & ? & ? & _).
    intros [= <-]. unfold chat_prediction_token_events, prediction_event. cbn [flat_map].
    rewrite !nested_set_details by (counts_u32 || (by rewrite is_object_set_details) || by read_json).
    cbn [count_of]. by eqb_literals. }
  unfold decode_all. rewrite no_error_ok by (rewrite G; by eqb_literals). cbn [rbind].
  unfold chat_choices, get_array, object_field. rewrite !G. eqb_literals.
  cbn [mbind option_bind as_array opt_filter]. rewrite Hobj, bool_decide_true by done. cbn [andb is_some].
  unfold completion_id_event, get_str. rewrite G. eqb_literals. cbn [mbind option_bind not_blank opt_filter fmap option_fmap option_map push_opt app].
  unfold usage_events, object_field. rewrite G. eqb_literals. cbn [opt_filter]. rewrite Hobj, Hf, Hpred.
  do 2 f_equal. rewrite !Forall_cons in H. f_equal; int_lia.
Qed.

Lemma moderation_stable input output :
  (is_some input || is_some output) = true ->
  (forall v, input = Some v -> to_chat_moderation_side v = v) ->
  (forall v, output = Some v -> to_chat_moderation_side v = v) ->
  exists data, encode_data (Moderation input output) = Ok data /\ decode_all data = Ok [Moderation input output].
Proof.
  intros Hs Hi Ho. eexists. split; [reflexivity|].
  set (m := match output with Some v => obj_insert "output" v _ | None => _ end).
  assert (Gi : get (JObj m) "input" = input).
  { unfold m. destruct output as [o|], input as [i|]; rewrite ?get_obj_insert; by eqb_literals. }
  assert (Go : get (JObj m) "output" = output).
  { unfold m. destruct output as [o|], input as [i|]; rewrite ?get_obj_insert; by eqb_literals. }
  set (value := jobj _).
  assert (G : forall k, get value k = if String.eqb k "choices" then Some (JArr [])
                        else if String.eqb k "moderation" then Some (JObj m) else None).
  { intros k. unfold value. by rewrite get_jobj. }
  unfold decode_all. rewrite no_error_ok by (rewrite G; by eqb_literals). cbn [rbind].
  unfold chat_choices, get_array, object_field, usage_events, object_field. rewrite !G. eqb_literals.
  cbn [mbind option_bind as_array opt_filter is_some head andb]. rewrite andb_false_r.
  unfold moderation_event. rewrite G. eqb_literals. cbn [opt_or mbind option_bind is_object as_object is_some negb].
  rewrite Gi, Go. destruct input as [i|], output as [o|]; try done; cbn;
    rewrite ?(Hi _ eq_refl), ?(Ho _ eq_refl); done.
Qed.

(** Every event a Chat chunk can carry whole is read back from the chunk
    the encoder writes for it, as that event alone; and the frame is an
    unnamed one holding the chunk. *)
Theorem chat_encode_decode ev :
  chat_stable ev ->
  exists data, encode ev = Ok (mkRawSse None (to_string data)) /\ decode_all data = Ok [ev].
Proof.
  intros H.
  enough (E : exists data, encode_data ev = Ok data /\ decode_all data = Ok [ev]).
  { destruct E as (data & E & D). exists data. split; [|done]. destruct ev; cbn in H; try done;
      unfold encode; by rewrite E. }
  destruct ev; cbn [chat_stable] in H; try done; try (eexists; split; [reflexivity|]; by single).
  - eexists. split; [reflexivity|]. single. unfold content_events. cbn [as_str]. by rewrite nonempty_is.
  - destruct H as (He & -> & Hi). eexists. split; [reflexivity|]. by apply tool_stable.
  - destruct H as (He & Hi). eexists. split; [reflexivity|]. by apply arg_stable.
  - eexists. split; [reflexivity|]. single. unfold audio_events, str_field, audio_identity_events, str_field.
    rewrite is_object_jobj. read_json. cbn [mbind option_bind as_str]. by rewrite nonempty_is.
  - destruct H as (Hi & Hd & Hs). eexists. split; [reflexivity|]. single. by rewrite image_stable.
  - eexists. split; [reflexivity|]. single. unfold audio_events, str_field, audio_identity_events, str_field.
    rewrite is_object_jobj. read_json. cbn [mbind option_bind as_str]. by rewrite nonempty_is.
  - destruct H as (He & Hi). eexists. split; [reflexivity|]. by apply custom_stable.
  - destruct H as (He & Hi). eexists. split; [reflexivity|]. by apply input_stable.
  - destruct H as (Hs & Hi & Ho). by apply moderation_stable.
  - destruct H as (Hu & Hp & Hc & ->). eexists. split; [reflexivity|]. by apply usage_stable.
  - destruct H as (-> & He & Hm). eexists. split; [reflexivity|]. by apply finish_stable.
Qed.

(** ** Text of a content value *)
Definition text_of (evs : list IrStreamEvent) : string :=
  fold_right (fun ev acc => match ev with TextDelta t => t +:+ acc | _ => acc end) "" evs.

Lemma text_of_app l k : text_of (l ++ k) = text_of l +:+ text_of k.
Proof.
  unfold text_of. induction l as [|ev l IH]; [done|]. cbn. rewrite IH. destruct ev; try done.
  by rewrite str_app_assoc.
Qed.

Lemma text_of_flush t : text_of (flush_text t) = t.
Proof. unfold flush_text. destruct t; [done|]. cbn. by rewrite str_app_nil_r. Qed.

(** An image part is never a text event. *)
Lemma image_part_not_text part t :
  unwrap_or (image_event_from_part part) (protocol "image_url" part) <> TextDelta t.
Proof.
  destruct (image_event_from_part part) as [ev|] eqn:E; cbn; [|done].
  unfold image_event_from_part in E. destruct (negb _); [done|].
  destruct (pointer_str part _) as [url|]; [|done]. cbn [mbind option_bind] in E.
  destruct (strip_prefix "data:" url) as [rest|]; [|done]. cbn [mbind option_bind] in E.
  destruct (split_once_str ";base64," rest) as [[m d]|]; [|done]. cbn [mbind option_bind] in E.
  destruct (_ || _); [done|]. by injection E as <-.
Qed.

Lemma image_part_no_text part : text_of [unwrap_or (image_event_from_part part) (protocol "image_url" part)] = "".
Proof.
  pose proof (image_part_not_text part) as H. destruct (unwrap_or _ _); try done. by destruct (H text).
Qed.

(** Every text event of a content value has text. *)
Lemma flush_text_nonempty s x : In (TextDelta x) (flush_text s) -> is_empty x = false.
Proof. unfold flush_text. destruct (is_empty s) eqn:Es; [done|]. intros [H|[]]. by injection H as <-. Qed.

Lemma content_parts_nonempty l out text :
  (forall x, In (TextDelta x) out -> is_empty x = false) ->
  forall x, In (TextDelta x) (let '(o, s) := fold_left content_part l (out, text) in o ++ flush_text s) ->
  is_empty x = false.
Proof.
  revert out text. induction l as [|part l IH]; intros out text Ho x; cbn [fold_left].
  - intros [?|?]%in_app_or; [by apply Ho|by eapply flush_text_nonempty].
  - unfold content_part at 2. destruct (as_str part); [by apply IH|].
    destruct (bool_decide _); [|by destruct (text_piece part); apply IH].
    apply IH. intros y. rewrite !in_app_iff. intros [?|[?|[Hy|[]]]]; [by apply Ho|by eapply flush_text_nonempty|].
    by destruct (image_part_not_text part y).
Qed.

Lemma content_events_nonempty content t : In (TextDelta t) (content_events content) -> is_empty t = false.
Proof.
  unfold content_events. destruct (nonempty (as_str content)) as [s|] eqn:E.
  - apply nonempty_Some in E as [_ E]. intros [H|[]]. by injection H as <-.
  - destruct (as_array content) as [parts|]; [|done]. by apply content_parts_nonempty.
Qed.

Lemma text_piece_image part :
  as_str part = None -> bool_decide (get_str part "type" = Some "image_url") = true -> text_piece part = None.
Proof.
  intros _ H%bool_decide_eq_true. unfold text_piece. rewrite H. done.
Qed.

Lemma content_parts_text parts out text acc :
  acc = text_of out +:+ text ->
  (let '(out, text) := fold_left content_part parts (out, text) in text_of (out ++ flush_text text))
  = fold_left flatten_part parts acc.
Proof.
  revert out text acc. induction parts as [|part parts IH]; intros out text acc ->; cbn [fold_left].
  { by rewrite text_of_app, text_of_flush. }
  unfold content_part at 2, flatten_part at 2. destruct (as_str part) as [piece|] eqn:Es.
  { apply IH. by rewrite str_app_assoc. }
  destruct (bool_decide (get_str part "type" = Some "image_url")) eqn:Ei.
  - rewrite (text_piece_image part Es Ei). apply IH.
    rewrite !text_of_app, image_part_no_text, text_of_flush. by rewrite !str_app_nil_r.
  - destruct (text_piece part) as [piece|]; apply IH; [by rewrite str_app_assoc|done].
Qed.

Lemma content_events_flat content : text_of (content_events content) = unwrap_or (flatten_content content) "".
Proof.
  unfold content_events, flatten_content. destruct (nonempty (as_str content)) as [t|] eqn:E.
  - cbn. by rewrite str_app_nil_r.
  - destruct (as_array content) as [parts|]; [|done]. cbn [mbind option_bind].
    pose proof (content_parts_text parts [] "" "" eq_refl) as H.
    destruct (fold_left content_part parts ([], "")) as [out text]. rewrite H.
    destruct (fold_left flatten_part parts "") as [|a s] eqn:F; done.
Qed.

(** The two readings of a content value agree: the text of the events the
    plural decoder makes of it, images aside, is the flattened text the
    singular decoder reports, and no event of it is an empty text. *)
Theorem content_events_text content :
  text_of (content_events content) = unwrap_or (flatten_content content) ""
  /\ (flatten_content content = None -> forall t, ~ In (TextDelta t) (content_events content)).
Proof.
  pose proof (content_events_flat content) as T.
  split; [done|]. intros Hn t Hin. rewrite Hn in T. cbn [unwrap_or] in T.
  pose proof (content_events_nonempty content t Hin) as Hne.
  apply in_split in Hin as (l1 & l2 & Hl). rewrite Hl, text_of_app in T.
  cbn in T. destruct t as [|a t]; [done|]. by destruct (text_of l1).
Qed.

(** ** Indexes of tool events *)
Definition event_index (ev : IrStreamEvent) : option Z :=
  match ev with
  | ToolCallStart _ _ _ i | ToolCallArgDelta _ i | CustomToolCallStart _ _ i | CustomToolCallInputDelta _ i => Some i
  | _ => None
  end.

(** Every tool event of a list is on index [i]. *)
Definition on_index (i : Z) (evs : list IrStreamEvent) : Prop :=
  Forall (fun ev => event_index ev = None \/ event_index ev = Some i) evs.

Definition no_index (evs : list IrStreamEvent) : Prop := Forall (fun ev => event_index ev = None) evs.

Lemma no_index_push_opt {A} (f : A -> IrStreamEvent) o :
  (forall a, o = Some a -> event_index (f a) = None) -> no_index (push_opt f o).
Proof. intros H. destruct o; cbn; repeat constructor. by apply H. Qed.

Lemma no_index_app l k : no_index l -> no_index k -> no_index (l ++ k).
Proof. unfold no_index. intros. by apply Forall_app. Qed.

Lemma no_index_content content : no_index (content_events content).
Proof.
  unfold content_events. destruct (nonempty (as_str content)); [by repeat constructor|].
  destruct (as_array content) as [parts|]; [|constructor].
  assert (H : forall out text, no_index out ->
    no_index (let '(out, text) := fold_left content_part parts (out, text) in out ++ flush_text text)).
  { assert (F : forall t, no_index (flush_text t)).
    { intros t. unfold flush_text. destruct (is_empty t); by repeat constructor. }
    induction parts as [|part parts IH]; intros out text Ho; cbn [fold_left]; [by apply no_index_app|].
    unfold content_part at 2. destruct (as_str part); [by apply IH|].
    destruct (bool_decide _); [|by destruct (text_piece part); apply IH].
    apply IH, no_index_app; [done|]. apply no_index_app; [done|]. constructor; [|constructor].
    destruct (image_event_from_part part) as [ev|] eqn:E; [|done]. cbn. unfold image_event_from_part in E.
    destruct (negb _); [done|]. destruct (pointer_str part _) as [url|]; [|done]. cbn [mbind option_bind] in E.
    destruct (strip_prefix "data:" url) as [rest|]; [|done]. cbn [mbind option_bind] in E.
    destruct (split_once_str ";base64," rest) as [[m d]|]; [|done]. cbn [mbind option_bind] in E.
    destruct (_ || _); [done|]. by injection E as <-. }
  apply H. constructor.
Qed.

Lemma no_index_delta choice : no_index (delta_events choice).
Proof.
  unfold delta_events, delta_audio, annotation_events, audio_events, audio_identity_events.
  repeat apply no_index_app; try (apply no_index_push_opt; done).
  - destruct (delta_get _ "content"); [apply no_index_content|constructor].
  - destruct (_ ≫= as_array) as [anns|]; [|constructor].
    apply Forall_forall. intros ev (a & -> & _)%list_elem_of_fmap. done.
  - destruct (opt_filter is_object _); [|constructor].
    repeat apply no_index_app; apply no_index_push_opt; done.
  - apply no_index_push_opt. intros ev H. unfold chat_logprobs_event in H.
    destruct (get choice "logprobs"); [|done]. cbn in H. destruct (_ && _); [done|]. by injection H as <-.
  - apply no_index_push_opt. intros ev H. unfold choice_finish in H.
    destruct (nonempty_field choice "finish_reason"); [|done]. by injection H as <-.
Qed.

Lemma no_index_usage value : no_index (usage_events value).
Proof.
  unfold usage_events. destruct (object_field value "usage") as [u|]; [|constructor].
  constructor; [done|]. unfold chat_prediction_token_events, prediction_event. cbn [flat_map].
  destruct (opt_filter positive (nested_u32 u _ "accepted_prediction_tokens")),
    (opt_filter positive (nested_u32 u _ "rejected_prediction_tokens")); by repeat constructor.
Qed.

Lemma no_index_head value : no_index (head_events value).
Proof.
  unfold head_events. repeat apply no_index_app; apply no_index_push_opt; intros ev H; try done.
  - unfold completion_id_event in H. destruct (not_blank _); [|done]. by injection H as <-.
  - unfold system_fingerprint_event in H. destruct (not_blank _); [|done]. by injection H as <-.
  - unfold moderation_event in H. destruct (opt_or _ _) as [m|]; [|done]. cbn in H.
    destruct (negb _); [done|]. destruct (_ && _); [done|]. by injection H as <-.
Qed.

Ltac on_index_list := repeat (apply Forall_cons; split; [cbn; auto|]); apply Forall_nil; done.

Lemma expand_tool_call_index call chunk evs :
  expand_tool_call call chunk = Ok evs -> on_index (tool_call_index call) evs.
Proof.
  unfold expand_tool_call, expand_custom_tool_call. cbv zeta.
  destruct (is_custom_tool_call call).
  - destruct (json_text_field _ "input") as [input|e]; [|done]. cbn [rbind].
    destruct (_ || _), input as [d|]; intros [= <-]; on_index_list.
  - destruct (foreign_type call); [intros [= <-]; on_index_list|].
    destruct (json_text_field _ "arguments") as [args|e]; [|done]. cbn [rbind].
    destruct (_ || _), args as [d|]; intros [= <-]; on_index_list.
Qed.

Lemma checked_index_range v cap kind :
  0 <= cap <= u32_max -> check_index v "index" cap kind = Ok tt ->
  0 <= unwrap_or ((get v "index" ≫= as_u64) ≫= u32_try_from) 0 <= cap.
Proof.
  intros Hcap. unfold check_index. destruct (get v "index") as [raw|]; [|by cbn; lia].
  cbn [mbind option_bind]. destruct (as_u64 raw) as [n|] eqn:E; [|done].
  destruct (Z.ltb_spec cap n) as [|Hn]; [done|]. intros _.
  assert (0 <= n).
  { unfold as_u64 in E. destruct raw as [| |[z|]| | |]; try done. case_match eqn:Ez; [|done].
    injection E as ->. apply andb_true_iff in Ez as [Ez _]. by apply Z.leb_le. }
  cbn [mbind option_bind]. rewrite u32_try_from_Some by int_lia. cbn. lia.
Qed.

Lemma check_index_range call :
  check_index call "index" MAX_TOOL_CALL_INDEX "tool call" = Ok tt -> 0 <= tool_call_index call <= MAX_TOOL_CALL_INDEX.
Proof. apply checked_index_range. by vm_compute. Qed.

(** The cap on an event's index. *)
Definition index_capped (ev : IrStreamEvent) : Prop :=
  forall i, event_index ev = Some i -> 0 <= i <= MAX_TOOL_CALL_INDEX.

Lemma no_index_capped evs : no_index evs -> Forall index_capped evs.
Proof. intros Hn. eapply Forall_impl; [exact Hn|]. intros ev H i. cbn in H. by rewrite H. Qed.

Lemma collect_calls_capped value calls evs :
  collect (fun call => let* _ := check_index call "index" MAX_TOOL_CALL_INDEX "tool call" in
                       expand_tool_call call value) calls = Ok evs -> Forall index_capped evs.
Proof.
  revert evs. induction calls as [|call calls IH]; intros evs; cbn [collect]; [intros [= <-]; constructor|].
  destruct (check_index call _ _ _) as [[]|e] eqn:Ec; [|done]. cbn [rbind].
  destruct (expand_tool_call call value) as [x|e] eqn:Ex; [|done]. cbn [rbind].
  destruct (collect _ calls) as [y|e]; [|done]. cbn [rbind]. intros [= <-].
  apply Forall_app. split; [|by apply IH].
  apply expand_tool_call_index in Ex. apply check_index_range in Ec.
  eapply Forall_impl; [exact Ex|]. intros ev [H|H] i; rewrite H; [done|]. by intros [= <-].
Qed.

(** The first choice carries the legacy single call, and no call list. *)
Definition legacy_call (value : json) : bool :=
  match chat_choices value ≫= head with
  | Some choice => is_none (pointer choice [Key "delta"; Key "tool_calls"] ≫= as_array)
                   && is_some (opt_filter is_object (pointer choice [Key "delta"; Key "function_call"]))
  | None => false
  end.

(** The parallel-call cap holds on every chunk that lists its calls: no
    decoded tool event has an index above 128, whatever the chunk says, and a
    chunk that claims a larger one is refused. *)
Theorem chat_index_capped value evs :
  legacy_call value = false -> decode_all value = Ok evs -> Forall index_capped evs.
Proof.
  unfold legacy_call, decode_all. intros Hl.
  destruct (reject_bare_chat_error value) as [[]|e]; [|done]. cbn [rbind]. cbv zeta.
  destruct (_ && _).
  { intros [= <-]. apply no_index_capped, no_index_app; [|apply no_index_usage].
    apply no_index_push_opt. intros ev H. unfold completion_id_event in H.
    destruct (not_blank _); [|done]. by injection H as <-. }
  destruct (chat_choices value ≫= head) as [choice|].
  - destruct (call_events choice value) as [calls|e] eqn:Ec; [|done]. cbn [rbind]. intros [= <-].
    apply Forall_app; split; [apply no_index_capped, no_index_head|].
    apply Forall_app; split; [|apply no_index_capped, no_index_app; [apply no_index_delta|apply no_index_usage]].
    unfold call_events in Ec. destruct (pointer choice [Key "delta"; Key "tool_calls"] ≫= as_array) as [l|].
    + by eapply collect_calls_capped.
    + destruct (opt_filter is_object _); [done|]. injection Ec as <-. constructor.
  - intros [= <-]. apply no_index_capped, no_index_app; [apply no_index_usage|].
    apply no_index_push_opt. intros ev H. unfold moderation_event in H. destruct (opt_or _ _) as [m|]; [|done].
    cbn in H. destruct (negb _); [done|]. destruct (_ && _); [done|]. by injection H as <-.
Qed.

(** The legacy [function_call] path has no such check: the event carries
    whatever [u32] the chunk says, above the cap or not. *)
Theorem function_call_index_uncapped name n :
  is_empty name = false -> is_u32 n ->
  decode_all (delta_chunk (jobj [("function_call", jobj [("name", JStr name); ("index", jint n)])]))
  = Ok [ToolCallStart "" name None n].
Proof.
  intros Hname Hn. set (call := jobj [("name", _); _]).
  unfold delta_chunk. fold (chat_choice (jobj [("function_call", call)])).
  rewrite decode_all_choice, delta_events_single. eqb_literals. cbn [mbind option_bind opt_or].
  unfold call_events. rewrite !pointer_key, get_chat_choice. eqb_literals. cbn [mbind option_bind].
  rewrite !pointer_key, !get_jobj. cbn [assoc_last]. eqb_literals. cbn [mbind option_bind].
  rewrite pointer_nil. cbn [opt_filter]. change (is_object call) with true. cbn iota.
  unfold expand_tool_call, is_custom_tool_call, foreign_type, function_body, str_field, get_str, json_text_field,
    tool_call_index, call.
  read_json. cbn [mbind option_bind as_str is_some is_none is_some_and andb unwrap_or]. read_json.
  cbn [mbind option_bind as_str unwrap_or rbind push_opt is_empty negb orb].
  rewrite Hname, as_u64_jint by done. cbn [mbind option_bind]. by rewrite u32_try_from_Some by done.
Qed.

(** ** Terminal frames *)
Lemma chat_terminal_choices `{SJL : !SerdeJsonLaws} data :
  is_object data = true -> reparses data = true ->
  chat_frame_is_terminal (mkRawSse None (to_string data)) =
  is_some_and (get data "choices" ≫= as_array)
    (existsb (fun choice => nonempty_reason (get choice "finish_reason"))).
Proof.
  intros Ho Hr. unfold chat_frame_is_terminal. cbn [raw_event raw_data].
  destruct data as [| | | | |m]; try done. destruct (to_string_obj m) as [s Hs].
  rewrite bool_decide_false by done. rewrite Hs at 1. rewrite trim_braces.
  change (String.eqb ("{" +:+ s +:+ "}") "[DONE]") with false. cbn [orb].
  rewrite from_to by done. rewrite pointer_key. by destruct (get (JObj m) "choices").
Qed.

(** The proxy's terminal test and the encoder agree: of the frames the
    encoder writes, exactly [Done] and a finish with a reason end the stream. *)
Theorem chat_terminal_frames `{SJL : !SerdeJsonLaws} ev raw data :
  encode ev = Ok raw -> (ev = Done \/ encode_data ev = Ok data /\ reparses data = true) ->
  chat_frame_is_terminal raw =
  match ev with Done => true | FinishReason reason _ => negb (is_empty (encode_finish reason)) | _ => false end.
Proof.
  intros He [->|[Hd Hr]]; [by injection He as <-|].
  assert (Hobj : is_object data = true).
  { destruct ev; cbn in Hd; try done; try (by injection Hd as <-). by repeat case_match; simplify_eq. }
  assert (Hraw : raw = mkRawSse None (to_string data)).
  { destruct ev; try done; unfold encode in He; rewrite Hd in He; by injection He as <-. }
  subst raw. rewrite chat_terminal_choices by done. clear He Hobj Hr.
  destruct ev; cbn [encode_data] in Hd; try done;
    repeat match type of Hd with (if ?b then _ else _) = _ => destruct b end; try done;
    injection Hd as <-;
    unfold tool_chunk, delta_chunk, encode_chat; read_json;
    cbn [mbind option_bind as_array is_some_and existsb orb]; read_json; try done.
  - destruct (chat_logprobs_value content refusal); rewrite ?get_index_set by done; eqb_literals; read_json; done.
  - unfold nonempty_reason. cbn. by destruct (is_empty (encode_finish reason)).
Qed.

End Properties.

(** ** Witnesses *)
Section Witnesses.
#[local] Existing Instance bits_codec.
#[local] Existing Instance bits_codec_laws.

Lemma chat_encode_decode_witness :
  exists data, encode (ToolCallStart "call_1" "lookup" None 2) = Ok (mkRawSse None (to_string data))
    /\ decode_all data = Ok [ToolCallStart "call_1" "lookup" None 2].
Proof. apply chat_encode_decode. vm_compute. repeat split; discriminate. Defined.

Lemma content_events_text_witness :
  text_of (content_events (JArr [JStr "a"; JStr "b"])) = "ab".
Proof.
  destruct (content_events_text (JArr [JStr "a"; JStr "b"])) as [H _]. rewrite H. vm_compute. reflexivity.
Defined.

Lemma chat_index_capped_witness :
  Forall index_capped [ToolCallStart "" "f" None 128].
Proof.
  apply (chat_index_capped (jobj [("choices", JArr [jobj [("delta", jobj [("tool_calls",
    JArr [jobj [("function", jobj [("name", JStr "f")]); ("index", jint 128)]])])]])]));
    vm_compute; reflexivity.
Defined.

Lemma function_call_index_uncapped_witness :
  decode_all (delta_chunk (jobj [("function_call", jobj [("name", JStr "f"); ("index", jint 4294967295)])]))
  = Ok [ToolCallStart "" "f" None 4294967295].
Proof. apply function_call_index_uncapped; [reflexivity|vm_compute; split; discriminate]. Defined.

Lemma chat_terminal_frames_witness :
  chat_frame_is_terminal (mkRawSse None (to_string (jobj [("choices", JArr [jobj [("index", jint 0);
     ("delta", JObj []); ("finish_reason", JStr "stop")]])]))) = true.
Proof.
  apply (chat_terminal_frames (FinishReason "stop" None) _
    (jobj [("choices", JArr [jobj [("index", jint 0); ("delta", JObj []); ("finish_reason", JStr "stop")]])]));
    [vm_compute; reflexivity|]. right. split; vm_compute; reflexivity.
Defined.
End Witnesses.
