(* ===== verification/Messages.v ===== *)
(** * Messages: Anthropic Messages stream events

    crates/wiremux/src/stream/messages.rs: the decoder of one named event, the
    encoder, and the maps of stop reasons, service tiers, image blocks and
    citations. *)

From S2P Require Import Prelude Text Json JsonCodec Sse Ir ProfileTypes StreamCore Usage Completion Shapes Chat.

(** ** Blocks *)
Definition block_index (value : json) : Z := unwrap_or ((get value "index" ≫= as_u64) ≫= u32_try_from) 0.

Definition image_delta_from_block (block : json) : option IrStreamEvent :=
  source ← get block "source";
  if match get_str source "type" with None => true | Some ty => String.eqb ty "base64" end then
    data ← nonempty (get_str source "data");
    media_type ← get_str source "media_type";
    if starts_with "image/" (to_ascii_lowercase media_type) then Some (ImageDelta media_type data) else None
  else None.

Definition annotation_from_messages_citation (citation : json) : option json :=
  let ty := unwrap_or (get_str citation "type") "" in
  url ← nonempty (if String.eqb ty "web_search_result_location" then get_str citation "url"
                  else if String.eqb ty "search_result_location" then get_str citation "source"
                  else None);
  let out := jobj [("type", JStr "url_citation"); ("url", JStr url)] in
  Some (match nonempty (get_str citation "title") with
        | Some title => index_set out "title" (JStr title)
        | None => out
        end).

Definition citation_from_annotation (annotation : json) : json :=
  let url := unwrap_or (annotation_url annotation) "" in
  let citation := jobj [("type", JStr "web_search_result_location"); ("url", JStr url);
                        ("encrypted_index", JStr ""); ("cited_text", JStr "")] in
  match annotation_title annotation with
  | Some title => index_set citation "title" (JStr title)
  | None => citation
  end.

Definition stop_details_explanation (value : json) : option string :=
  nonempty (pointer_str value [Key "delta"; Key "stop_details"; Key "explanation"]).

(** ** Stop reasons and tiers *)
Definition map_stop_reason (reason : string) : string :=
  if String.eqb reason "refusal" then "content_filter"
  else if String.eqb reason "max_tokens" then "max_tokens"
  else if String.eqb reason "tool_use" then "tool_calls"
  else if String.eqb reason "end_turn" then "stop"
  else reason.

Definition encode_stop_reason (reason : string) : string :=
  if one_of reason ["stop"; "end_turn"] then "end_turn"
  else if one_of reason ["length"; "max_tokens"] then "max_tokens"
  else if one_of reason ["tool_calls"; "tool_use"] then "tool_use"
  else reason.

Definition service_tier_from_usage (usage : json) : option string :=
  raw ← trim <$> get_str usage "service_tier";
  if eq_ignore_ascii_case raw "priority" then Some "priority"
  else if eq_ignore_ascii_case raw "standard" then Some "default"
  else None.

Definition usage_service_tier_to_messages (tier : string) : option string :=
  let t := to_ascii_lowercase (trim tier) in
  if String.eqb t "priority" then Some "priority"
  else if one_of t ["default"; "standard"] then Some "standard"
  else None.

(** ** Decoding *)

(** [nonempty_text(text, wrap)] *)
Definition nonempty_text (text : option string) (wrap : string -> IrStreamEvent) :
  result MapError (option IrStreamEvent) := Ok (wrap <$> nonempty text).

Definition check_block_index (value : json) : result MapError unit :=
  check_index value "index" MAX_CONTENT_BLOCK_INDEX "content block".

Definition decode_error (value : json) : MapError :=
  let err := unwrap_or (get value "error") value in
  let ty := unwrap_or (str_field err "type") "error" in
  let msg := unwrap_or (str_field err "message") "" in
  Invalid (ty +:+ ": " +:+ msg).

Definition decode_block_start (name : string) (value : json) : option IrStreamEvent :=
  let block := unwrap_or (get value "content_block") value in
  match get_str block "type" with
  | Some ty =>
      if String.eqb ty "tool_use" then
        Some (ToolCallStart (unwrap_or (str_field block "id") "") (unwrap_or (str_field block "name") "")
                None (block_index value))
      else if String.eqb ty "image" then
        Some (unwrap_or (image_delta_from_block block) (protocol name value))
      else if String.eqb ty "redacted_thinking" then
        if is_none (nonempty (str_field block "data")) then None else Some (protocol name value)
      else Some (protocol name value)
  | None => Some (protocol name value)
  end.

Definition decode_block_delta (name : string) (value : json) : option IrStreamEvent :=
  let delta := unwrap_or (get value "delta") value in
  match get_str delta "type" with
  | Some ty =>
      if String.eqb ty "text_delta" then TextDelta <$> nonempty (str_field delta "text")
      else if String.eqb ty "thinking_delta" then ReasoningDelta <$> nonempty (str_field delta "thinking")
      else if String.eqb ty "signature_delta" then ReasoningSignature <$> nonempty (str_field delta "signature")
      else if String.eqb ty "input_json_delta" then
        Some (ToolCallArgDelta (unwrap_or (str_field delta "partial_json") "") (block_index value))
      else if String.eqb ty "citations_delta" then
        let citation := unwrap_or (get delta "citation") delta in
        match annotation_from_messages_citation citation with
        | Some annotation => Some (AnnotationAdded annotation)
        | None => if is_some (get_str citation "type") then Some (protocol name value) else None
        end
      else Some (protocol name value)
  | None => Some (protocol name value)
  end.

Definition decode_message_delta (name : string) (value : json) : IrStreamEvent :=
  match pointer_str value [Key "delta"; Key "stop_reason"] with
  | Some reason => FinishReason (map_stop_reason reason) None
  | None =>
      match stop_details_explanation value with
      | Some text => RefusalDelta text
      | None =>
          match object_field value "usage" with
          | Some usage => from_anthropic usage
          | None => protocol name value
          end
      end
  end.

Definition decode (name : string) (value : json) : result MapError (option IrStreamEvent) :=
  if String.eqb name "ping" then Ok None
  else if String.eqb name "error" then Err (decode_error value)
  else if String.eqb name "message_stop" then Ok (Some Done)
  else if String.eqb name "message_start" then
    match pointer value [Key "message"; Key "usage"] with
    | Some usage => Ok (Some (from_anthropic usage))
    | None => Ok (Some (protocol name value))
    end
  else if String.eqb name "content_block_start" then
    let* _ := check_block_index value in Ok (decode_block_start name value)
  else if String.eqb name "content_block_delta" then
    let* _ := check_block_index value in Ok (decode_block_delta name value)
  else if String.eqb name "content_block_stop" then
    let* _ := check_block_index value in Ok (Some (protocol name value))
  else if String.eqb name "message_delta" then Ok (Some (decode_message_delta name value))
  else Ok (Some (protocol name value)).

(** ** Encoding *)
Section Serializer.
Context {SJ : SerdeJson}.

(** [{ "type": "content_block_delta", "index": index, "delta": { "type": ty, ... } }] *)
Definition block_delta (index : Z) (delta : list (string * json)) : string * json :=
  ("content_block_delta",
   jobj [("type", JStr "content_block_delta"); ("index", jint index); ("delta", jobj delta)]).

Definition block_start (index : Z) (block : list (string * json)) : string * json :=
  ("content_block_start",
   jobj [("type", JStr "content_block_start"); ("index", jint index); ("content_block", jobj block)]).

Definition tool_use_block (id name : string) : list (string * json) :=
  [("type", JStr "tool_use"); ("id", JStr id); ("name", JStr name); ("input", JObj [])].

(** [{ "type": "message_delta", "delta": {}, key: value }] *)
Definition message_delta_with (fields : list (string * json)) : string * json :=
  ("message_delta", jobj ([("type", JStr "message_delta"); ("delta", JObj [])] ++ fields)).

Definition encode_event (ev : IrStreamEvent) : result MapError (string * json) :=
  match ev with
  | TextDelta text | AudioTranscriptDelta text =>
      Ok (block_delta 0 [("type", JStr "text_delta"); ("text", JStr text)])
  | RefusalDelta text =>
      Ok ("message_delta",
          jobj [("type", JStr "message_delta");
                ("delta", jobj [("stop_details", jobj [("type", JStr "refusal"); ("explanation", JStr text)])])])
  | ReasoningDelta text => Ok (block_delta 0 [("type", JStr "thinking_delta"); ("thinking", JStr text)])
  | ReasoningSignature signature =>
      Ok (block_delta 0 [("type", JStr "signature_delta"); ("signature", JStr signature)])
  | ToolCallStart id name _ index => Ok (block_start index (tool_use_block id name))
  | CustomToolCallStart id name index => Ok (block_start index (tool_use_block id name))
  | ToolCallArgDelta delta index =>
      Ok (block_delta index [("type", JStr "input_json_delta"); ("partial_json", JStr delta)])
  | CustomToolCallInputDelta delta index =>
      let partial := to_string (response_custom_tool_input delta) in
      Ok (block_delta index [("type", JStr "input_json_delta"); ("partial_json", JStr partial)])
  | AnnotationAdded annotation =>
      Ok (block_delta 0 [("type", JStr "citations_delta"); ("citation", citation_from_annotation annotation)])
  | ServiceTier tier =>
      match usage_service_tier_to_messages tier with
      | Some mapped =>
          Ok ("message_start",
              jobj [("type", JStr "message_start");
                    ("message", jobj [("usage", jobj [("input_tokens", jint 0); ("output_tokens", jint 0);
                                                     ("service_tier", JStr mapped)])])])
      | None => Ok (block_delta 0 [("type", JStr "text_delta"); ("text", JStr "")])
      end
  | ImageDelta media_type data =>
      Ok (block_start 0 [("type", JStr "image");
                         ("source", jobj [("type", JStr "base64"); ("media_type", JStr media_type);
                                          ("data", JStr data)])])
  | AudioDelta _ | Logprobs _ _ | Created _ | Metadata _ | Moderation _ _ =>
      Ok (block_delta 0 [("type", JStr "text_delta"); ("text", JStr "")])
  | ToolCallEnd =>
      Ok ("content_block_stop", jobj [("type", JStr "content_block_stop"); ("index", jint 0)])
  | Usage p c cr cw r _ _ geo => Ok ("message_delta", encode_anthropic p c cr cw r geo)
  | FinishReason reason _ =>
      Ok ("message_delta",
          jobj [("type", JStr "message_delta");
                ("delta", jobj [("stop_reason", JStr (encode_stop_reason reason)); ("stop_sequence", JNull)])])
  | Diagnostics cache_miss_reason =>
      Ok (message_delta_with [("diagnostics", jobj [("cache_miss_reason", cache_miss_reason)])])
  | Container value => Ok (message_delta_with [("container", value)])
  | StopSequence _ | SearchEntryPoint _ => Ok (message_delta_with [])
  | ContextManagement value => Ok (message_delta_with [("context_management", value)])
  | Done => Ok ("message_stop", jobj [("type", JStr "message_stop")])
  | Protocol _ _ | UnknownEvent _ _ =>
      Err (Invalid "protocol/unknown events are encoded at the stream root")
  end.

Definition encode (ev : IrStreamEvent) : result MapError RawSse :=
  let* e := encode_event ev in Ok (mkRawSse (Some e.1) (to_string e.2)).

(** ** What a Messages event carries whole *)
Definition messages_stable (ev : IrStreamEvent) : Prop :=
  match ev with
  | TextDelta t | RefusalDelta t | ReasoningDelta t | ReasoningSignature t => is_empty t = false
  | ToolCallStart _ _ sig index => sig = None /\ 0 <= index <= MAX_CONTENT_BLOCK_INDEX
  | ToolCallArgDelta _ index => 0 <= index <= MAX_CONTENT_BLOCK_INDEX
  | ImageDelta media_type data => is_image media_type = true /\ is_empty data = false
  | Usage p c cr cw r a ca geo =>
      Forall is_u32 [p; c; cr; cw; r] /\ c + r <= u32_max /\ a = 0 /\ ca = 0
      /\ (forall g, geo = Some g -> trim g = g /\ is_empty g = false)
  | FinishReason reason vendor => vendor = None /\ map_stop_reason (encode_stop_reason reason) = reason
  | AnnotationAdded annotation =>
      exists url title, is_empty url = false
        /\ (forall t, title = Some t -> is_empty t = false)
        /\ annotation = match title with
             | Some t => index_set (jobj [("type", JStr "url_citation"); ("url", JStr url)]) "title" (JStr t)
             | None => jobj [("type", JStr "url_citation"); ("url", JStr url)]
             end
  | Done => True
  | _ => False
  end.

Lemma check_block_ok v n :
  get v "index" = Some (jint n) -> 0 <= n <= MAX_CONTENT_BLOCK_INDEX -> check_block_index v = Ok tt.
Proof.
  intros E Hn. unfold check_block_index, check_index. rewrite E, as_u64_jint by (unfold MAX_CONTENT_BLOCK_INDEX in Hn; int_lia).
  by rewrite (proj2 (Z.ltb_ge _ _)) by lia.
Qed.

Lemma block_index_ok v n :
  get v "index" = Some (jint n) -> 0 <= n <= MAX_CONTENT_BLOCK_INDEX -> block_index v = n.
Proof.
  intros E Hn. unfold block_index. rewrite E. by rewrite u32_jint by (unfold MAX_CONTENT_BLOCK_INDEX in Hn; int_lia).
Qed.

Lemma decode_delta_json index delta :
  0 <= index <= MAX_CONTENT_BLOCK_INDEX ->
  decode "content_block_delta" (block_delta index delta).2
  = Ok (decode_block_delta "content_block_delta" (block_delta index delta).2).
Proof.
  intros Hi. unfold decode. eqb_literals. cbn [snd block_delta].
  by rewrite (check_block_ok _ index) by (done || by read_json).
Qed.

Lemma decode_start_json index block :
  0 <= index <= MAX_CONTENT_BLOCK_INDEX ->
  decode "content_block_start" (block_start index block).2
  = Ok (decode_block_start "content_block_start" (block_start index block).2).
Proof.
  intros Hi. unfold decode. eqb_literals. cbn [snd block_start].
  by rewrite (check_block_ok _ index) by (done || by read_json).
Qed.

Lemma zero_index : 0 <= 0 <= MAX_CONTENT_BLOCK_INDEX.
Proof. unfold MAX_CONTENT_BLOCK_INDEX. lia. Qed.

(** Decode a block delta of literal shape. *)
Ltac delta_case :=
  eexists; split; [reflexivity|];
  rewrite decode_delta_json by (done || apply zero_index);
  unfold decode_block_delta, block_delta, str_field, get_str; cbn [snd]; read_json;
  cbn [unwrap_or mbind option_bind]; read_json; cbn [mbind option_bind as_str unwrap_or];
  eqb_literals; read_json; cbn [mbind option_bind as_str unwrap_or].

Lemma annotation_citation annotation :
  messages_stable (AnnotationAdded annotation) ->
  annotation_from_messages_citation (citation_from_annotation annotation) = Some annotation.
Proof.
  intros (url & title & Hu & Ht & ->).
  set (out := match title with Some _ => _ | None => _ end).
  assert (U : annotation_url out = Some url).
  { unfold annotation_url, out. rewrite pointer_key. destruct title as [t|]; read_json;
      cbn [mbind option_bind opt_or as_str]; by apply nonempty_is. }
  assert (T : annotation_title out = title).
  { unfold annotation_title, out. rewrite pointer_key. destruct title as [t|]; read_json;
      cbn [mbind option_bind opt_or as_str]; [|done]. apply nonempty_is. by apply Ht. }
  unfold citation_from_annotation. rewrite U, T. cbn [unwrap_or].
  unfold annotation_from_messages_citation, get_str, out. destruct title as [t|]; read_json;
    cbn [mbind option_bind as_str unwrap_or]; eqb_literals; rewrite (nonempty_is url) by done;
    cbn [mbind option_bind]; [|done]. by rewrite (nonempty_is t) by (by apply Ht).
Qed.

Lemma messages_usage_stable p c cr cw r geo :
  Forall is_u32 [p; c; cr; cw; r] -> c + r <= u32_max ->
  (forall g, geo = Some g -> trim g = g /\ is_empty g = false) ->
  decode "message_delta" (encode_anthropic p c cr cw r geo) = Ok (Some (Usage p c cr cw r 0 0 geo)).
Proof.
  intros H Hc Hg. destruct (anthropic_usage_roundtrip p c cr cw r geo H Hg) as (u & Hu & Hf).
  unfold decode. eqb_literals. unfold decode_message_delta, stop_details_explanation, pointer_str, object_field.
  assert (Hd : get (encode_anthropic p c cr cw r geo) "delta" = Some (JObj [])).
  { unfold encode_anthropic. by read_json. }
  rewrite !pointer_key, Hd, Hu. cbn [mbind option_bind]. rewrite !pointer_key.
  cbn [get obj_get mbind option_bind nonempty opt_filter].
  assert (Hobj : is_object u = true).
  { revert Hu. unfold encode_anthropic. rewrite get_jobj. cbn [assoc_last]. eqb_literals. intros [= <-].
    destruct geo, (positive r); object_goal. }
  rewrite Hobj, Hf. do 2 f_equal. rewrite !Forall_cons in H. f_equal. int_lia.
Qed.

(** Every event a Messages stream can carry whole is read back from the
    event the encoder writes for it, under the name it is written with. *)
Theorem messages_encode_decode ev :
  messages_stable ev ->
  exists name data, encode ev = Ok (mkRawSse (Some name) (to_string data)) /\ decode name data = Ok (Some ev).
Proof.
  intros H.
  enough (E : exists e, encode_event ev = Ok e /\ decode e.1 e.2 = Ok (Some ev)).
  { destruct E as ([name data] & E & D). exists name, data. unfold encode. by rewrite E. }
  destruct ev; cbn [messages_stable] in H; try done.
  - delta_case. by rewrite nonempty_is.
  - eexists. split; [reflexivity|]. cbn [fst snd]. unfold decode. eqb_literals.
    unfold decode_message_delta, stop_details_explanation, pointer_str. rewrite !pointer_key. read_json.
    cbn [mbind option_bind]. rewrite !pointer_key. read_json. cbn [mbind option_bind]. rewrite pointer_key. read_json.
    cbn [mbind option_bind]. rewrite pointer_nil. cbn [mbind option_bind as_str]. by rewrite nonempty_is.
  - delta_case. by rewrite nonempty_is.
  - delta_case. by rewrite nonempty_is.
  - destruct H as [-> Hi]. eexists. split; [reflexivity|]. rewrite decode_start_json by done.
    unfold decode_block_start, block_start, tool_use_block, str_field, get_str. cbn [snd]. read_json.
    cbn [unwrap_or]. read_json. cbn [mbind option_bind as_str unwrap_or]. eqb_literals.
    by rewrite (block_index_ok _ index) by (done || by read_json).
  - delta_case. by rewrite (block_index_ok _ index) by (done || by read_json).
  - delta_case. by rewrite annotation_citation.
  - destruct H as [Hi Hd]. eexists. split; [reflexivity|]. rewrite decode_start_json by apply zero_index.
    unfold decode_block_start, block_start, get_str. cbn [snd]. read_json. cbn [unwrap_or]. read_json.
    cbn [mbind option_bind as_str]. eqb_literals. unfold image_delta_from_block, get_str. read_json.
    cbn [mbind option_bind]. read_json. cbn [mbind option_bind as_str]. eqb_literals. rewrite nonempty_is by done.
    cbn [mbind option_bind]. unfold is_image in Hi. by rewrite Hi.
  - destruct H as (Hu & Hc & -> & -> & Hg). eexists. split; [reflexivity|]. cbn [fst snd].
    by apply messages_usage_stable.
  - destruct H as [-> Hm]. eexists. split; [reflexivity|]. cbn [fst snd]. unfold decode. eqb_literals.
    unfold decode_message_delta, pointer_str. rewrite !pointer_key. read_json. cbn [mbind option_bind].
    rewrite pointer_key. read_json. cbn [mbind option_bind]. rewrite pointer_nil. cbn [mbind option_bind as_str].
    by rewrite Hm.
  - by eexists.
Qed.
(** The tool events of a block are on the block's index. *)
Lemma image_delta_index block ev : image_delta_from_block block = Some ev -> event_index ev = None.
Proof.
  unfold image_delta_from_block. destruct (get block "source") as [src|]; [|done]. cbn [mbind option_bind].
  destruct (match get_str src "type" with None => true | Some ty => String.eqb ty "base64" end); [|done].
  destruct (nonempty (get_str src "data")); [|done]. cbn [mbind option_bind].
  destruct (get_str src "media_type"); [|done]. cbn [mbind option_bind].
  destruct (starts_with _ _); [|done]. by intros [= <-].
Qed.

Lemma block_start_index name value ev i :
  decode_block_start name value = Some ev -> event_index ev = Some i -> i = block_index value.
Proof.
  unfold decode_block_start. cbv zeta. destruct (get_str _ "type") as [ty|]; [|by intros [= <-]].
  destruct (String.eqb ty "tool_use"); [by intros [= <-] [= <-]|].
  destruct (String.eqb ty "image").
  { destruct (image_delta_from_block _) as [e|] eqn:E; intros [= <-]; [|done].
    by rewrite (image_delta_index _ _ E). }
  destruct (String.eqb ty "redacted_thinking"); [|by intros [= <-]].
  destruct (is_none _); [done|]. by intros [= <-].
Qed.

Lemma block_delta_index name value ev i :
  decode_block_delta name value = Some ev -> event_index ev = Some i -> i = block_index value.
Proof.
  assert (N : forall (f : string -> IrStreamEvent) o, (forall s, event_index (f s) = None) ->
    (f <$> nonempty o) = Some ev -> event_index ev = Some i -> i = block_index value).
  { intros f o Hf. destruct (nonempty o); [|done]. cbn. intros [= <-]. by rewrite Hf. }
  unfold decode_block_delta. cbv zeta. destruct (get_str _ "type") as [ty|]; [|by intros [= <-]].
  destruct (String.eqb ty "text_delta"); [by apply N|].
  destruct (String.eqb ty "thinking_delta"); [by apply N|].
  destruct (String.eqb ty "signature_delta"); [by apply N|].
  destruct (String.eqb ty "input_json_delta"); [by intros [= <-] [= <-]|].
  destruct (String.eqb ty "citations_delta"); [|by intros [= <-]].
  destruct (annotation_from_messages_citation _); [by intros [= <-]|].
  destruct (is_some _); [by intros [= <-]|done].
Qed.

(** No decoded Messages event has a block index above the cap: a larger
    index is an error, never an event. *)
Theorem messages_index_capped name value ev i :
  decode name value = Ok (Some ev) -> event_index ev = Some i -> 0 <= i <= MAX_CONTENT_BLOCK_INDEX.
Proof.
  intros Hd Hi.
  assert (R : check_block_index value = Ok tt -> 0 <= block_index value <= MAX_CONTENT_BLOCK_INDEX).
  { apply checked_index_range. by vm_compute. }
  unfold decode in Hd.
  destruct (String.eqb name "ping"); [done|]. destruct (String.eqb name "error"); [done|].
  destruct (String.eqb name "message_stop"); [by injection Hd as <-|].
  destruct (String.eqb name "message_start"); [by destruct (pointer value _); injection Hd as <-|].
  destruct (String.eqb name "content_block_start").
  { destruct (check_block_index value) as [[]|e]; [|done]. specialize (R eq_refl). injection Hd as Hd.
    by apply (block_start_index _ _ _ _ Hd) in Hi as ->. }
  destruct (String.eqb name "content_block_delta").
  { destruct (check_block_index value) as [[]|e]; [|done]. specialize (R eq_refl). injection Hd as Hd.
    by apply (block_delta_index _ _ _ _ Hd) in Hi as ->. }
  destruct (String.eqb name "content_block_stop").
  { destruct (check_block_index value) as [[]|e]; [|done]. by injection Hd as <-. }
  destruct (String.eqb name "message_delta"); injection Hd as <-; [|done].
  unfold decode_message_delta in Hi. destruct (pointer_str value _); [done|].
  destruct (stop_details_explanation value); [done|]. by destruct (object_field value "usage").
Qed.

(** The terminal test and the encoder agree: of the events the encoder
    writes, exactly [Done] and a finish with a reason end the stream. *)
Theorem messages_terminal_frames `{SJL : !SerdeJsonLaws} ev name data :
  encode_event ev = Ok (name, data) -> reparses data = true ->
  messages_frame_is_terminal (mkRawSse (Some name) (to_string data)) =
  match ev with Done => true | FinishReason reason _ => negb (is_empty (encode_stop_reason reason)) | _ => false end.
Proof.
  intros He Hr. unfold messages_frame_is_terminal, frame_event_name. cbn [raw_event raw_data].
  rewrite from_to by done.
  assert (P : nonempty_reason (pointer data [Key "delta"; Key "stop_reason"]) = 
    match ev with FinishReason reason _ => negb (is_empty (encode_stop_reason reason)) | _ => false end
    \/ name <> "message_delta").
  { destruct ev; cbn [encode_event] in He; try done;
      try (case_hyp He); injection He as <- <-; try (right; discriminate); left;
      unfold message_delta_with, encode_anthropic; cbn [app]; rewrite pointer_key; read_json;
      cbn [mbind option_bind]; rewrite pointer_key; read_json; cbn [get obj_get mbind option_bind]; try done.
    unfold nonempty_reason. rewrite pointer_nil. cbn. by destruct (is_empty (encode_stop_reason reason)). }
  assert (N : nonempty (Some name) = Some name /\ (name = "message_stop" <-> ev = Done)
              /\ (ev <> Done -> forall r v, ev = FinishReason r v -> name = "message_delta")).
  { destruct ev; cbn [encode_event] in He; try done; try (case_hyp He); injection He as <- <-; by repeat split. }
  destruct N as (N1 & N2 & N3). rewrite N1.
  destruct (String.eqb name "message_stop") eqn:E1.
  { apply String.eqb_eq, N2 in E1 as ->. done. }
  destruct (String.eqb name "message_delta") eqn:E2; cbn [negb].
  - apply String.eqb_eq in E2. destruct P as [->|]; [|done]. apply String.eqb_neq in E1.
    destruct ev; try done. by destruct E1; apply N2.
  - apply String.eqb_neq in E1, E2. destruct ev; try done; [by destruct E2; eapply N3|by destruct E1; apply N2].
Qed.
End Serializer.

(** ** Witnesses *)
Section Witnesses.
#[local] Existing Instance bits_codec.
#[local] Existing Instance bits_codec_laws.

Lemma messages_encode_decode_witness :
  exists name data, encode (ImageDelta "image/png" "aGk=") = Ok (mkRawSse (Some name) (to_string data))
    /\ decode name data = Ok (Some (ImageDelta "image/png" "aGk=")).
Proof. apply messages_encode_decode. vm_compute. split; reflexivity. Defined.

Lemma messages_index_capped_witness : 0 <= 7 <= MAX_CONTENT_BLOCK_INDEX.
Proof.
  apply (messages_index_capped "content_block_delta"
    (block_delta 7 [("type", JStr "input_json_delta"); ("partial_json", JStr "{}")]).2 (ToolCallArgDelta "{}" 7));
    vm_compute; reflexivity.
Defined.

Lemma messages_terminal_frames_witness :
  messages_frame_is_terminal (mkRawSse (Some "message_delta") (to_string (message_delta_with [("container", JObj [])]).2))
  = false.
Proof.
  apply (messages_terminal_frames (Container (JObj [])) "message_delta" (message_delta_with [("container", JObj [])]).2);
    vm_compute; reflexivity.
Defined.
End Witnesses.
