(* ===== verification/MapCore.v ===== *)
(** * MapCore: small maps of the request side that the streams use

    Service tiers of Gemini and Converse (crates/wiremux/src/map/gemini.rs and
    converse.rs) and the image formats of Converse (map/mod.rs). *)

From S2P Require Import Prelude Text Json Ir ProfileTypes StreamCore Usage.

(** ** Service tiers *)
Definition gemini_decode_service_tier (value : json) : option string :=
  opt_filter (fun s => negb (eq_ignore_ascii_case s "unspecified"))
    (nonempty (trim <$> opt_or (str_field value "serviceTier") (str_field value "service_tier"))).

(** The tier on the wire and, when the name changed, the note for the loss report. *)
Definition gemini_service_tier (tier : string) : option (string * option string) :=
  let trimmed := trim tier in
  if is_empty trimmed then None
  else
    let lower := to_ascii_lowercase trimmed in
    if one_of lower ["flex"; "priority"; "standard"] then Some (lower, None)
    else if String.eqb lower "default" then Some ("standard", Some "default maps to standard")
    else if String.eqb lower "auto" then Some ("standard", Some "auto maps to standard")
    else None.

Definition converse_service_tier (tier : string) : option (string * option string) :=
  let trimmed := trim tier in
  if is_empty trimmed then None
  else
    let lower := to_ascii_lowercase trimmed in
    if one_of lower ["flex"; "priority"; "reserved"; "default"] then Some (lower, None)
    else if String.eqb lower "auto" then Some ("default", Some "auto maps to default")
    else None.

(** ** Image formats of Converse *)
Definition media_type_from_converse_image_format (format : string) : string :=
  let format := trim format in
  if contains_char "/" format then format
  else
    let lower := to_ascii_lowercase format in
    if String.eqb lower "png" then "image/png"
    else if one_of lower ["jpeg"; "jpg"] then "image/jpeg"
    else if String.eqb lower "gif" then "image/gif"
    else if String.eqb lower "webp" then "image/webp"
    else if is_empty lower then "image/png"
    else "image/" +:+ lower.

Definition converse_image_format (media_type : string) : option string :=
  let media := to_ascii_lowercase media_type in
  let media := unwrap_or (strip_prefix "image/" media) media in
  if String.eqb media "png" then Some "png"
  else if one_of media ["jpeg"; "jpg"] then Some "jpeg"
  else if String.eqb media "gif" then Some "gif"
  else if String.eqb media "webp" then Some "webp"
  else None.

(** ** Lemmas *)

(** A tier the wire accepts is one of its own names, and mapping it again
    changes nothing. *)
Lemma gemini_service_tier_fixed tier mapped note :
  gemini_service_tier tier = Some (mapped, note) ->
  one_of mapped ["flex"; "priority"; "standard"] = true /\ gemini_service_tier mapped = Some (mapped, None).
Proof.
  unfold gemini_service_tier. cbv zeta. destruct (is_empty (trim tier)); [done|].
  set (lower := to_ascii_lowercase (trim tier)).
  destruct (one_of lower ["flex"; "priority"; "standard"]) eqn:E.
  - intros [= <- <-]. split; [done|]. apply one_of_In in E. cbn in E.
    destruct_or!; try done; by rewrite <- E.
  - destruct (String.eqb lower "default"); [by intros [= <- <-]|].
    destruct (String.eqb lower "auto"); [by intros [= <- <-]|done].
Qed.

Lemma converse_service_tier_fixed tier mapped note :
  converse_service_tier tier = Some (mapped, note) ->
  one_of mapped ["flex"; "priority"; "reserved"; "default"] = true
  /\ converse_service_tier mapped = Some (mapped, None).
Proof.
  unfold converse_service_tier. cbv zeta. destruct (is_empty (trim tier)); [done|].
  set (lower := to_ascii_lowercase (trim tier)).
  destruct (one_of lower ["flex"; "priority"; "reserved"; "default"]) eqn:E.
  - intros [= <- <-]. split; [done|]. apply one_of_In in E. cbn in E.
    destruct_or!; try done; by rewrite <- E.
  - destruct (String.eqb lower "auto"); [by intros [= <- <-]|done].
Qed.

(** A format read back from a media type it was written for. *)
Lemma converse_format_roundtrip media_type format :
  converse_image_format media_type = Some format ->
  converse_image_format (media_type_from_converse_image_format format) = Some format.
Proof.
  unfold converse_image_format at 1. cbv zeta. intros H.
  repeat case_hyp H; try done; by injection H as <-.
Qed.
