(* ===== verification/Gemini.v ===== *)
(** * Gemini: generateContent stream chunks

    crates/wiremux/src/stream/gemini.rs: the decoder of one chunk or one
    part of a chunk into one event, the encoder, finish reasons,
    log-probabilities, citations and grounding. *)

From S2P Require Import Prelude Text Json JsonCodec Sse Ir ProfileTypes StreamCore Usage Completion Shapes Chat MapCore.

(** ** Calls and finish reasons *)
Definition parts_of (candidate : json) : option (list json) :=
  pointer candidate [Key "content"; Key "parts"] ≫= as_array.

Definition candidate_has_function_call (candidate : json) : bool :=
  is_some_and (parts_of candidate)
    (existsb (fun p => is_some_and (get p "functionCall") gemini_function_call_visible)).

(** [format!("{name}#{seq}")] when the call has no id. *)
Definition gemini_call_id (fc : json) (name : string) (seq : Z) : string :=
  unwrap_or (nonempty (get_str fc "id")) (name +:+ "#" +:+ pretty seq).

Definition map_finish (reason : string) (has_function_call : bool) : string :=
  if String.eqb reason "STOP" then (if has_function_call then "tool_calls" else "stop")
  else if String.eqb reason "MAX_TOKENS" then "max_tokens"
  else if one_of reason ["SAFETY"; "RECITATION"; "OTHER"; "BLOCKLIST"; "PROHIBITED_CONTENT"; "SPII";
                         "IMAGE_SAFETY"; "LANGUAGE"] then "content_filter"
  else if String.eqb reason "MALFORMED_FUNCTION_CALL" then "malformed_function_call"
  else if eq_ignore_ascii_case reason "stop" then "stop"
  else reason.

Definition map_block (reason : string) : string :=
  let mapped := map_finish reason false in
  let preserved_unknown := String.eqb mapped reason && negb (eq_ignore_ascii_case reason "stop") in
  if preserved_unknown || (String.eqb mapped "stop" && negb (eq_ignore_ascii_case reason "stop"))
  then "content_filter" else mapped.

Definition is_mapped_finish_reason (reason : string) : bool :=
  one_of reason ["stop"; "max_tokens"; "length"; "content_filter"; "tool_calls"; "malformed_function_call"].

Definition is_gemini_finish_token (token : string) : bool :=
  one_of token ["STOP"; "MAX_TOKENS"; "SAFETY"; "RECITATION"; "OTHER"; "BLOCKLIST"; "PROHIBITED_CONTENT";
                "SPII"; "IMAGE_SAFETY"; "LANGUAGE"; "MALFORMED_FUNCTION_CALL"].

Definition encode_finish (reason : string) : string :=
  if one_of reason ["max_tokens"; "length"] then "MAX_TOKENS"
  else if String.eqb reason "content_filter" then "SAFETY"
  else if String.eqb reason "tool_calls" then "STOP"
  else "STOP".

Definition finish_token (reason : string) (vendor : option string) : string :=
  match opt_filter is_gemini_finish_token vendor with
  | Some token => token
  | None =>
      match opt_filter (fun token => String.eqb token reason && negb (is_mapped_finish_reason reason)) vendor with
      | Some token => token
      | None => encode_finish reason
      end
  end.

Definition gemini_error_detail (value : json) : option string :=
  match json_string_error value with
  | Some text => Some text
  | None =>
      err ← object_field value "error";
      Some (unwrap_or (error_object_detail err) "vendor error")
  end.

(** ** Usage, tiers, media *)
Definition service_tier_from_chunk (value : json) : option IrStreamEvent :=
  usage ← object_field value "usageMetadata";
  ServiceTier <$> gemini_decode_service_tier usage.

Definition usage_from_chunk (value : json) : option IrStreamEvent :=
  match object_field value "usageMetadata" with
  | Some usage => Some (from_gemini usage)
  | None =>
      n ← opt_filter (fun n => 0 <? n)
            (pointer value [Key "candidates"; Idx 0; Key "tokenCount"] ≫= as_u64);
      Some (Usage 0 (unwrap_or (u32_try_from n) u32_max) 0 0 0 0 0 None)
  end.

Definition inline_data_event (part : json) : option IrStreamEvent :=
  inline ← get part "inlineData";
  let mime := unwrap_or (str_field inline "mimeType") "" in
  data ← nonempty (str_field inline "data");
  let mime_l := to_ascii_lowercase mime in
  if starts_with "audio/" mime_l then Some (AudioDelta data)
  else if starts_with "image/" mime_l then Some (ImageDelta mime data)
  else None.

(** ** Log-probabilities *)
Definition token_bytes (token : string) : json :=
  JArr (map (fun b => jint (byte_val b)) (bytes_of_str token)).

Definition chat_token_from_gemini (cand : json) : json :=
  let token := unwrap_or (get_str cand "token") "" in
  let item := jobj [("token", JStr token); ("bytes", token_bytes token)] in
  match get cand "logProbability" with
  | Some lp => index_set item "logprob" lp
  | None => item
  end.

Definition gemini_token_from_chat (item : json) : json :=
  let cand := JObj [] in
  let cand := match get item "token" with Some token => index_set cand "token" token | None => cand end in
  match get item "logprob" with Some lp => index_set cand "logProbability" lp | None => cand end.

(** The alternatives of one position, [top_logprobs]. *)
Definition top_alternatives (top : json) : json :=
  match get_array top "candidates" with
  | Some arr => JArr (map chat_token_from_gemini arr)
  | None => JArr []
  end.

Definition logprob_item (tops : option (list json)) (i : nat) (cand : json) : json :=
  let item := chat_token_from_gemini cand in
  match t ← tops; t !! i with
  | Some top => index_set item "top_logprobs" (top_alternatives top)
  | None => item
  end.

Definition logprobs_from_result (result : json) : option json :=
  chosen ← get_array result "chosenCandidates";
  if bool_decide (chosen = []) then None
  else Some (JArr (imap (logprob_item (get_array result "topCandidates")) chosen)).

Definition top_of_item (item : json) : json :=
  let candidates := match get_array item "top_logprobs" with
                    | Some alts => map gemini_token_from_chat alts
                    | None => []
                    end in
  jobj [("candidates", JArr candidates)].

Definition logprobs_to_result (content : json) : json :=
  let arr := unwrap_or (as_array content) [] in
  jobj [("chosenCandidates", JArr (map gemini_token_from_chat arr));
        ("topCandidates", JArr (map top_of_item arr))].

(** ** Citations *)
Definition CITATION_LIST_POINTERS : list (list ptr_token) :=
  [[Key "citationMetadata"; Key "citations"];
   [Key "citationMetadata"; Key "citationSources"];
   [Key "urlContextMetadata"; Key "urlMetadata"]].

Definition set_number (key : string) (value : option json) (out : json) : json :=
  match opt_filter is_number value with
  | Some n => index_set out key n
  | None => out
  end.

Definition apply_citation_span (out : json) (start stop : option json) : json :=
  set_number "end_index" stop (set_number "start_index" start out).

Definition url_citation (url : string) (title : option string) : json :=
  let out := jobj [("type", JStr "url_citation"); ("url", JStr url)] in
  match title with Some title => index_set out "title" (JStr title) | None => out end.

Definition annotation_from_citation (cite : json) : option json :=
  url ← nonempty (opt_or (get cite "uri") (opt_or (get cite "url") (get cite "retrievedUrl")) ≫= as_str);
  let out := url_citation url (nonempty (get_str cite "title")) in
  Some (apply_citation_span out (get cite "startIndex") (get cite "endIndex")).

(** The flags an annotation carries for the list it was found in. *)
Definition from_url_context (p : list ptr_token) : bool :=
  match p with [Key a; Key b] => String.eqb a "urlContextMetadata" && String.eqb b "urlMetadata" | _ => false end.

Definition from_citation (p : list ptr_token) : bool :=
  match p with Key a :: _ :: _ => String.eqb a "citationMetadata" | _ => false end.

Definition citation_flags (p : list ptr_token) (annotation : json) : json :=
  let annotation := if from_url_context p then index_set annotation "url_context" (JBool true) else annotation in
  if from_citation p then index_set annotation "citation_metadata" (JBool true) else annotation.

Definition citation_annotations (candidate : json) : list json :=
  flat_map (fun p =>
    omap (fun cite => citation_flags p <$> annotation_from_citation cite)
      (unwrap_or (pointer candidate p ≫= as_array) []))
    CITATION_LIST_POINTERS.

Definition first_citation_annotation (candidate : json) : option json := head (citation_annotations candidate).

(** ** Grounding *)
Definition support_matches (chunk_index : Z) (support : json) : bool :=
  is_some_and (get_array support "groundingChunkIndices")
    (existsb (fun v => bool_decide (as_u64 v = Some chunk_index))).

Definition apply_support (annotation support : json) : json :=
  let annotation := apply_citation_span annotation
    (pointer support [Key "segment"; Key "startIndex"]) (pointer support [Key "segment"; Key "endIndex"]) in
  match nonempty (pointer_str support [Key "segment"; Key "text"]) with
  | Some text => index_set annotation "segment_text" (JStr text)
  | None => annotation
  end.

(** The first support of the chunk is applied, then the loop breaks. *)
Definition apply_grounding_support (annotation : json) (chunk_index : Z) (supports : list json) : json :=
  match List.find (support_matches chunk_index) supports with
  | Some support => apply_support annotation support
  | None => annotation
  end.

Definition search_entry_from_value (value : json) : option IrStreamEvent :=
  SearchEntryPoint <$> nonempty (pointer_str value
    [Key "candidates"; Idx 0; Key "groundingMetadata"; Key "searchEntryPoint"; Key "renderedContent"]).

Definition annotation_from_grounding_chunk (chunk : json) : option json :=
  url ← nonempty
    (opt_or (pointer chunk [Key "web"; Key "uri"])
       (opt_or (pointer chunk [Key "web"; Key "url"])
          (opt_or (pointer chunk [Key "image"; Key "sourceUri"])
             (opt_or (pointer chunk [Key "retrievedContext"; Key "uri"])
                (pointer chunk [Key "maps"; Key "uri"])))) ≫= as_str);
  let title := nonempty
    (opt_or (pointer chunk [Key "web"; Key "title"])
       (opt_or (pointer chunk [Key "image"; Key "title"])
          (opt_or (pointer chunk [Key "retrievedContext"; Key "title"])
             (pointer chunk [Key "maps"; Key "title"]))) ≫= as_str) in
  Some (url_citation url title).

Definition grounding_support_from_annotation (annotation : json) (chunk_index : Z) : json :=
  let segment := jobj [("startIndex", unwrap_or (get annotation "start_index") (jint 0));
                       ("endIndex", unwrap_or (get annotation "end_index") (jint 0))] in
  let segment := match nonempty (get_str annotation "segment_text") with
                 | Some text => index_set segment "text" (JStr text)
                 | None => segment
                 end in
  jobj [("segment", segment); ("groundingChunkIndices", JArr [jint chunk_index])].

Definition grounding_chunk_from_annotation (annotation : json) : json :=
  let web := jobj [("uri", JStr (unwrap_or (annotation_url annotation) ""))] in
  let web := match annotation_title annotation with
             | Some title => index_set web "title" (JStr title)
             | None => web
             end in
  jobj [("web", web)].

(** ** Decoding *)

(** What one part of the content is, when it is anything. *)
Definition decode_part (part : json) : option IrStreamEvent :=
  let text := nonempty (get_str part "text") in
  let signature := nonempty (get_str part "thoughtSignature") in
  let call := get part "functionCall" in
  match (if bool_decide (get part "thought" ≫= as_bool = Some true) then text else None) with
  | Some text => Some (ReasoningDelta text)
  | None =>
      match (if is_none call then signature else None) with
      | Some sig => Some (ReasoningSignature sig)
      | None =>
          match opt_filter gemini_function_call_visible call with
          | Some fc =>
              let name := unwrap_or (str_field fc "name") "" in
              Some (ToolCallStart (gemini_call_id fc name 0) name signature 0)
          | None => opt_or (inline_data_event part) (TextDelta <$> text)
          end
      end
  end.

(** The first grounding chunk with a URL, from the [idx]-th on. *)
Fixpoint grounding_annotation (idx : Z) (chunks : list json) (supports : option (list json)) : option json :=
  match chunks with
  | [] => None
  | chunk :: chunks =>
      match annotation_from_grounding_chunk chunk with
      | Some annotation =>
          Some (match supports with
                | Some supports => apply_grounding_support annotation idx supports
                | None => annotation
                end)
      | None => grounding_annotation (idx + 1) chunks supports
      end
  end.

Definition grounding_event (candidate : json) : option json :=
  chunks ← pointer candidate [Key "groundingMetadata"; Key "groundingChunks"] ≫= as_array;
  grounding_annotation 0 chunks
    (pointer candidate [Key "groundingMetadata"; Key "groundingSupports"] ≫= as_array).

Definition attribution_event (candidate : json) : option json :=
  attrs ← get_array candidate "groundingAttributions";
  find_map annotation_from_grounding_chunk attrs.

Definition finish_event (candidate : json) : option IrStreamEvent :=
  (fun reason => FinishReason (map_finish reason (candidate_has_function_call candidate)) (Some reason))
  <$> nonempty_field candidate "finishReason".

(** The fields of a candidate in the order they are looked for. *)
Definition decode_candidate (candidate : json) : option IrStreamEvent :=
  opt_or (parts_of candidate ≫= find_map decode_part)
    (opt_or (AnnotationAdded <$> grounding_event candidate)
      (opt_or (AnnotationAdded <$> first_citation_annotation candidate)
        (opt_or (AnnotationAdded <$> attribution_event candidate)
          (opt_or ((fun content => Logprobs content None) <$> (get candidate "logprobsResult" ≫= logprobs_from_result))
            (opt_or (finish_event candidate)
              (RefusalDelta <$> nonempty_field candidate "finishMessage")))))).

Definition first_candidate (value : json) : option json := get_array value "candidates" ≫= head.

Definition block_event (value : json) : option IrStreamEvent :=
  (fun reason => FinishReason (map_block reason) (Some reason))
  <$> nonempty (pointer_str value [Key "promptFeedback"; Key "blockReason"]).

(** A chunk whose first candidate has neither parts nor a finish reason is
    read as its usage before its other fields. *)
Definition usage_only (value : json) : bool :=
  match pointer value [Key "candidates"; Idx 0; Key "content"; Key "parts"] ≫= as_array with
  | None => true
  | Some p => bool_decide (p = [])
  end && is_none (pointer_str value [Key "candidates"; Idx 0; Key "finishReason"]).

Definition decode (value : json) : result MapError (option IrStreamEvent) :=
  let candidate := first_candidate value in
  match (if is_none candidate then block_event value else None) with
  | Some ev => Ok (Some ev)
  | None =>
      let visible := is_some_and candidate candidate_visible in
      match (if visible then None else gemini_error_detail value) with
      | Some detail => Err (HardError "error" detail)
      | None =>
          match (if usage_only value then usage_from_chunk value else None) with
          | Some ev => Ok (Some ev)
          | None =>
              match candidate with
              | None => Ok (usage_from_chunk value)
              | Some candidate =>
                  Ok (opt_or (decode_candidate candidate)
                        (opt_or (usage_from_chunk value) (search_entry_from_value value)))
              end
          end
      end
  end.

(** ** Encoding *)
Section Serializer.
Context {SJ : SerdeJson}.

(** [{ "candidates": [candidate] }] *)
Definition candidate_chunk (candidate : list (string * json)) : json :=
  jobj [("candidates", JArr [jobj candidate])].

(** [{ "candidates": [{ "content": { "role": "model", "parts": [part] } }] }] *)
Definition part_chunk (part : json) : json :=
  candidate_chunk [("content", jobj [("role", JStr "model"); ("parts", JArr [part])])].

Definition empty_chunk : json := jobj [("candidates", JArr [])].

(** The call of a start: the id is written when there is one. *)
Definition start_call (id name : string) : json :=
  let function_call := jobj [("name", JStr name); ("args", JObj [])] in
  if negb (is_empty id) then index_set function_call "id" (JStr id) else function_call.

Definition args_part (args : json) : json :=
  jobj [("functionCall", jobj [("name", JStr ""); ("args", args)])].

Definition inline_part (mime data : string) : json :=
  jobj [("inlineData", jobj [("mimeType", JStr mime); ("data", JStr data)])].

Definition encode_data (ev : IrStreamEvent) : result MapError json :=
  match ev with
  | TextDelta text | AudioTranscriptDelta text => Ok (part_chunk (jobj [("text", JStr text)]))
  | RefusalDelta text => Ok (candidate_chunk [("finishMessage", JStr text)])
  | ReasoningDelta text => Ok (part_chunk (jobj [("text", JStr text); ("thought", JBool true)]))
  | ReasoningSignature signature => Ok (part_chunk (jobj [("thoughtSignature", JStr signature)]))
  | ToolCallStart id name thought_signature _ =>
      let part := jobj [("functionCall", start_call id name)] in
      Ok (part_chunk (match nonempty thought_signature with
                      | Some sig => index_set part "thoughtSignature" (JStr sig)
                      | None => part
                      end))
  | CustomToolCallStart id name _ => Ok (part_chunk (jobj [("functionCall", start_call id name)]))
  | AnnotationAdded annotation =>
      Ok (candidate_chunk [("groundingMetadata",
            jobj [("groundingChunks", JArr [grounding_chunk_from_annotation annotation]);
                  ("groundingSupports", JArr [grounding_support_from_annotation annotation 0])])])
  | SearchEntryPoint rendered_content =>
      Ok (candidate_chunk [("groundingMetadata",
            jobj [("searchEntryPoint", jobj [("renderedContent", JStr rendered_content)])])])
  | AudioDelta data => Ok (part_chunk (inline_part "audio/mpeg" data))
  | ImageDelta media_type data => Ok (part_chunk (inline_part media_type data))
  | Logprobs content refusal =>
      let merged := JArr (merged_logprob_items content refusal) in
      Ok (candidate_chunk [("logprobsResult", logprobs_to_result merged)])
  | ServiceTier tier =>
      Ok (match gemini_service_tier tier with
          | Some (mapped, _) => jobj [("usageMetadata", jobj [("serviceTier", JStr mapped)])]
          | None => empty_chunk
          end)
  | Created _ | Metadata _ | Moderation _ _ => Ok empty_chunk
  | ToolCallArgDelta delta _ => Ok (part_chunk (args_part (unwrap_or (from_str delta) (JObj []))))
  | CustomToolCallInputDelta delta _ => Ok (part_chunk (args_part (response_custom_tool_input delta)))
  | ToolCallEnd =>
      Ok (candidate_chunk [("content", jobj [("role", JStr "model"); ("parts", JArr [])])])
  | Usage p c cr _ r a ca _ => Ok (encode_gemini p c cr r a ca)
  | FinishReason reason vendor => Ok (candidate_chunk [("finishReason", JStr (finish_token reason vendor))])
  | Diagnostics _ | Container _ | ContextManagement _ | StopSequence _ => Ok empty_chunk
  | Protocol _ _ | UnknownEvent _ _ | Done =>
      Err (Invalid "protocol/unknown events are encoded at the stream root")
  end.

(** [Done] returns its frame before the common exit. *)
Definition encode (ev : IrStreamEvent) : result MapError RawSse :=
  match ev with
  | Done => Ok (mkRawSse None "[DONE]")
  | ev => let* data := encode_data ev in Ok (mkRawSse None (to_string data))
  end.
End Serializer.

(** ** Finish reasons *)

Lemma one_of_false s l x : one_of s l = false -> In x l -> String.eqb s x = false.
Proof.
  intros H Hin. apply String.eqb_neq. intros ->. by rewrite (proj2 (one_of_In x l) Hin) in H.
Qed.

Lemma map_finish_other reason b :
  is_gemini_finish_token reason = false ->
  map_finish reason b = if eq_ignore_ascii_case reason "stop" then "stop" else reason.
Proof.
  intros H. unfold is_gemini_finish_token in H. unfold map_finish.
  rewrite !(one_of_false _ _ _ H) by (by apply one_of_In).
  destruct (one_of reason ["SAFETY"; _; _; _; _; _; _; _]) eqn:E; [|done]. exfalso.
  apply one_of_In in E. cbn in E. destruct_or!; subst; try done; by vm_compute in H.
Qed.

(** What the Gemini encoder writes for a reason read from Gemini. *)
Lemma finish_token_gemini reason b :
  is_gemini_finish_token reason = true -> finish_token (map_finish reason b) (Some reason) = reason.
Proof. intros H. unfold finish_token. cbn [opt_filter]. by rewrite H. Qed.

Lemma finish_token_unknown reason :
  is_gemini_finish_token reason = false -> is_mapped_finish_reason reason = false ->
  finish_token reason (Some reason) = reason.
Proof. intros H1 H2. unfold finish_token. cbn [opt_filter]. by rewrite H1, H2, String.eqb_refl. Qed.


(** ** Log-probabilities *)

(** A token of the Chat shape: its text, its bytes and its score. *)
Definition chat_token (token : string) (logprob : json) : json :=
  index_set (jobj [("token", JStr token); ("bytes", token_bytes token)]) "logprob" logprob.

Definition chat_item (it : string * json * list (string * json)) : json :=
  index_set (chat_token it.1.1 it.1.2) "top_logprobs" (JArr (map (fun alt => chat_token alt.1 alt.2) it.2)).

Lemma token_roundtrip token logprob :
  chat_token_from_gemini (gemini_token_from_chat (chat_token token logprob)) = chat_token token logprob.
Proof. unfold chat_token. by eval_json. Qed.

Lemma tokens_roundtrip alts :
  map chat_token_from_gemini (map gemini_token_from_chat (map (fun alt => chat_token alt.1 alt.2) alts))
  = map (fun alt => chat_token alt.1 alt.2) alts.
Proof. rewrite !map_map. apply map_ext. intros [t lp]. apply token_roundtrip. Qed.

Lemma item_roundtrip it :
  chat_token_from_gemini (gemini_token_from_chat (chat_item it)) = chat_token it.1.1 it.1.2.
Proof. unfold chat_item, chat_token. by eval_json. Qed.

Lemma alternatives_roundtrip it :
  top_alternatives (top_of_item (chat_item it)) = JArr (map (fun alt => chat_token alt.1 alt.2) it.2).
Proof.
  unfold top_alternatives, top_of_item, get_array, chat_item, chat_token. read_json.
  cbn [mbind option_bind as_array]. read_json. cbn [mbind option_bind as_array]. by rewrite tokens_roundtrip.
Qed.

Lemma logprobs_roundtrip items :
  items <> [] ->
  logprobs_from_result (logprobs_to_result (JArr (map chat_item items))) = Some (JArr (map chat_item items)).
Proof.
  intros Hne. unfold logprobs_from_result, logprobs_to_result, get_array. cbn [as_array unwrap_or]. read_json.
  cbn [mbind option_bind as_array]. rewrite bool_decide_false by (by destruct items).
  do 2 f_equal. apply list_eq. intros i.
  rewrite list_lookup_imap, !map_map, !list_lookup_fmap. destruct (items !! i) as [it|] eqn:E; [|done].
  cbn [fmap option_fmap option_map]. unfold logprob_item. cbn [mbind option_bind].
  rewrite list_lookup_fmap, E. cbn [fmap option_fmap option_map].
  rewrite item_roundtrip, alternatives_roundtrip. done.
Qed.

(** ** What a Gemini chunk carries whole *)

(** An annotation as the grounding of a chunk writes it. *)
Definition grounded_annotation (url : string) (title : option string) (start stop : number)
    (segment : option string) : json :=
  let out := index_set (index_set (url_citation url title) "start_index" (JNum start)) "end_index" (JNum stop) in
  match segment with Some text => index_set out "segment_text" (JStr text) | None => out end.

Definition gemini_stable (ev : IrStreamEvent) : Prop :=
  match ev with
  | TextDelta t | RefusalDelta t | ReasoningDelta t | ReasoningSignature t | AudioDelta t
  | SearchEntryPoint t => is_empty t = false
  | ToolCallStart id name sig index =>
      is_empty id = false /\ (forall s, sig = Some s -> is_empty s = false) /\ index = 0
  | ImageDelta media_type data => is_image media_type = true /\ is_empty data = false
  | AnnotationAdded annotation =>
      exists url title start stop segment,
        annotation = grounded_annotation url title start stop segment /\ is_empty url = false
        /\ (forall t, title = Some t -> is_empty t = false) /\ (forall t, segment = Some t -> is_empty t = false)
  | Logprobs content refusal =>
      exists items, items <> [] /\ content = JArr (map chat_item items) /\ refusal = None
  | Usage p c cr cw r a ca geo =>
      Forall is_u32 [p; c; cr; r] /\ p + cr <= u32_max /\ cw = 0 /\ a = 0 /\ ca = 0 /\ geo = None
  | FinishReason reason vendor =>
      exists token, vendor = Some token /\ is_empty token = false /\ reason = map_finish token false
        /\ (is_gemini_finish_token token = true
            \/ (is_mapped_finish_reason token = false /\ eq_ignore_ascii_case token "stop" = false))
  | _ => False
  end.

Lemma finish_token_stable token :
  is_gemini_finish_token token = true
  \/ (is_mapped_finish_reason token = false /\ eq_ignore_ascii_case token "stop" = false) ->
  finish_token (map_finish token false) (Some token) = token.
Proof.
  destruct (is_gemini_finish_token token) eqn:E; [intros _; by apply finish_token_gemini|].
  intros [?|[H1 H2]]; [done|]. rewrite map_finish_other, H2 by done. by apply finish_token_unknown.
Qed.
