(* ===== verification/Converse.v ===== *)
(** * Converse: Bedrock Converse frames and bodies

    crates/wiremux/src/stream/converse.rs: the decoder and the encoder of one
    stream frame, and of a whole body ([decode_complete], [encode_complete],
    with the parallel tool calls in a [BTreeMap]).  What makes a body visible
    and its error texts are in [Completion]. *)

From S2P Require Import Prelude Text Json JsonCodec Sse Ir ProfileTypes StreamCore Usage Completion BTree Assembler Shapes Chat MapCore.

(** ** Counts and tiers *)

(** [as u32] keeps the low 32 bits. *)
Definition usage_u32 (usage : json) (key : string) : Z := unwrap_or (get_u64 usage key) 0 mod 4294967296.

Definition usage_from_converse (usage : json) : IrStreamEvent :=
  Usage (usage_u32 usage "inputTokens") (usage_u32 usage "outputTokens")
    (usage_u32 usage "cacheReadInputTokens") (usage_u32 usage "cacheWriteInputTokens") 0 0 0 None.

Definition encode_converse_usage (prompt_tokens completion_tokens cache_read_tokens cache_write_tokens : Z) : json :=
  let usage := jobj [("inputTokens", jint prompt_tokens); ("outputTokens", jint completion_tokens)] in
  let usage := set_positive "cacheReadInputTokens" cache_read_tokens usage in
  let usage := set_positive "cacheWriteInputTokens" cache_write_tokens usage in
  let input_tokens := unwrap_or (get_u64 usage "inputTokens") 0 in
  let output_tokens := unwrap_or (get_u64 usage "outputTokens") 0 in
  index_set usage "totalTokens" (jint (u64_saturating_add input_tokens output_tokens)).

Definition service_tier_from (value : json) : option string :=
  nonempty (opt_or (pointer value [Key "metadata"; Key "serviceTier"; Key "type"])
              (pointer value [Key "serviceTier"; Key "type"]) ≫= as_str).

(** ** Blocks *)
Definition converse_image_media_type (format : string) : string :=
  let lower := to_ascii_lowercase format in
  if String.eqb lower "png" then "image/png"
  else if one_of lower ["jpeg"; "jpg"] then "image/jpeg"
  else if String.eqb lower "gif" then "image/gif"
  else if String.eqb lower "webp" then "image/webp"
  else "image/" +:+ format.

Definition audio_delta_from_block (audio : json) : option IrStreamEvent :=
  AudioDelta <$> nonempty (pointer_str audio [Key "source"; Key "bytes"]).

Definition image_delta_from_converse (image : json) : option IrStreamEvent :=
  data ← nonempty (pointer_str image [Key "source"; Key "bytes"]);
  format ← nonempty (get_str image "format");
  Some (ImageDelta (converse_image_media_type format) data).

Definition content_block_index (block : json) : result MapError Z :=
  let* _ := check_index block "contentBlockIndex" MAX_CONTENT_BLOCK_INDEX "content block" in
  Ok (unwrap_or (get_u64 block "contentBlockIndex" ≫= u32_try_from) 0).

Definition annotation_from_converse_citation (citation : json) : option json :=
  url ← nonempty (opt_or (pointer citation [Key "location"; Key "web"; Key "url"]) (get citation "source") ≫= as_str);
  let out := jobj [("type", JStr "url_citation"); ("url", JStr url)] in
  Some (match nonempty (get_str citation "title") with
        | Some title => index_set out "title" (JStr title)
        | None => out
        end).

Definition citation_from_annotation (annotation : json) : json :=
  let url := unwrap_or (annotation_url annotation) "" in
  let citation := jobj [("source", JStr url); ("location", jobj [("web", jobj [("url", JStr url)])])] in
  match annotation_title annotation with
  | Some title => index_set citation "title" (JStr title)
  | None => citation
  end.

Definition citations_content_text (block : json) : string :=
  match pointer block [Key "citationsContent"; Key "content"] ≫= as_array with
  | None => ""
  | Some parts => fold_left (fun out part => out +:+ unwrap_or (get_str part "text") "") parts ""
  end.

Definition finish_reason (reason : string) : string :=
  if one_of reason ["tool_use"; "tool-use"; "tool_calls"] then "tool_use"
  else if one_of reason ["max_tokens"; "length"] then "max_tokens"
  else if one_of reason ["content_filtered"; "content_filter"; "content-filter"] then "content_filtered"
  else if String.eqb reason "stop_sequence" then "stop_sequence"
  else if String.eqb reason "guardrail_intervened" then "guardrail_intervened"
  else "end_turn".

Definition converse_extra_keys : list string :=
  ["additionalModelResponseFields"; "metrics"; "trace"; "performanceConfig"].

Definition converse_passthrough (item_type : string) : bool := one_of item_type converse_extra_keys.

(** [source.get(key).filter(|fields| !fields.is_null())] for each of the keys. *)
Definition extra_events (source : json) : list IrStreamEvent :=
  flat_map (fun key => push_opt (Protocol key) (opt_filter (fun f => negb (is_null f)) (get source key)))
    converse_extra_keys.

Definition decode_metadata_events (value : json) : list IrStreamEvent :=
  push_opt ServiceTier (service_tier_from value)
  ++ extra_events (unwrap_or (get value "metadata") value)
  ++ push_opt usage_from_converse (pointer value [Key "metadata"; Key "usage"]).

(** ** Decoding a frame *)

(** The delta of a [contentBlockDelta]: [None] goes on to the other members. *)
Definition decode_delta (value delta : json) : result MapError (option IrStreamEvent) :=
  let reasoning key := pointer_str delta [Key "reasoningContent"; Key key] in
  match get_str delta "text" with
  | Some text => Ok (Some (TextDelta text))
  | None =>
  match reasoning "text" with
  | Some text => Ok (Some (ReasoningDelta text))
  | None =>
  match reasoning "signature" with
  | Some signature => Ok (Some (ReasoningSignature signature))
  | None =>
  match nonempty (reasoning "redactedContent") with
  | Some blob => Ok (Some (Protocol "converse_redacted_content" (JStr blob)))
  | None =>
  match pointer_str delta [Key "toolUse"; Key "input"] with
  | Some input =>
      let* index := content_block_index (unwrap_or (get value "contentBlockDelta") value) in
      Ok (Some (ToolCallArgDelta input index))
  | None =>
  match get delta "citation" with
  | Some citation =>
      Ok (Some (match annotation_from_converse_citation citation with
                | Some annotation => AnnotationAdded annotation
                | None => Protocol "converse_frame" value
                end))
  | None => Ok None
  end end end end end end.

(** The members after [contentBlockStart]. *)
Definition decode_rest (value : json) : option IrStreamEvent :=
  if is_some (get value "contentBlockStop") then None
  else
    match pointer_str value [Key "messageStop"; Key "stopReason"] with
    | Some stop => Some (FinishReason stop None)
    | None =>
        match pointer value [Key "metadata"; Key "usage"] with
        | Some usage => Some (usage_from_converse usage)
        | None =>
            match service_tier_from value with
            | Some tier => Some (ServiceTier tier)
            | None => if is_some (get value "messageStart") then None else Some (UnknownEvent "converse" value)
            end
        end
    end.

Definition decode_start (value : json) : result MapError (option IrStreamEvent) :=
  match get value "contentBlockStart" with
  | None => Ok (decode_rest value)
  | Some start =>
      match pointer start [Key "start"; Key "toolUse"] with
      | Some tool =>
          let id := unwrap_or (get_str tool "toolUseId") "" in
          let name := unwrap_or (get_str tool "name") "" in
          let* index := content_block_index start in
          Ok (Some (ToolCallStart id name None index))
      | None =>
          match pointer start [Key "start"; Key "image"] with
          | Some image => Ok (image_delta_from_converse image)
          | None =>
              match pointer start [Key "start"; Key "audio"] with
              | Some audio => Ok (audio_delta_from_block audio)
              | None => Ok (decode_rest value)
              end
          end
      end
  end.

Definition decode (value : json) : result MapError (option IrStreamEvent) :=
  match complete_exception_detail value with
  | Some detail => Err (Invalid detail)
  | None =>
      match pointer value [Key "contentBlockDelta"; Key "delta"] with
      | Some delta =>
          let* first := decode_delta value delta in
          match first with Some ev => Ok (Some ev) | None => decode_start value end
      | None => decode_start value
      end
  end.

(** ** Tool calls of a body *)
Record ConverseTool := mkTool { ct_id : string; ct_name : string; ct_args : string; ct_custom : bool }.

Definition tool_default : ConverseTool := mkTool "" "" "" false.

Definition named (t : ConverseTool) : bool := negb (is_empty (ct_id t)) || negb (is_empty (ct_name t)).

(** The open calls by index, and the ones a new id on their index closed. *)
Definition tools : Type := list (Z * ConverseTool) * list (Z * ConverseTool).

Definition note_converse_tool (ts : tools) (index : Z) (id name : string) (custom : bool) : tools :=
  let '(open, done) := ts in
  let '(open, done) :=
    match bt_get index open with
    | Some existing =>
        if negb (is_empty id) && negb (is_empty (ct_id existing)) && negb (String.eqb (ct_id existing) id)
        then (bt_remove index open, done ++ [(index, existing)])
        else (open, done)
    | None => (open, done)
    end in
  let slot := unwrap_or (bt_get index open) tool_default in
  let slot := mkTool (if is_empty (ct_id slot) then id else ct_id slot)
                     (if is_empty (ct_name slot) then name else ct_name slot)
                     (ct_args slot) custom in
  (bt_insert index slot open, done).

(** [open_tools.entry(index).or_default().args.push_str(delta)] *)
Definition push_args (ts : tools) (index : Z) (delta : string) : tools :=
  let '(open, done) := ts in
  let slot := unwrap_or (bt_get index open) tool_default in
  (bt_insert index (mkTool (ct_id slot) (ct_name slot) (ct_args slot +:+ delta) (ct_custom slot)) open, done).

Section Serializer.
Context {SJ : SerdeJson}.

Definition tool_use (id name args : string) (custom : bool) : json :=
  let input := if custom then response_custom_tool_input args
               else unwrap_or (from_str args) (JStr args) in
  jobj [("toolUse", jobj [("toolUseId", JStr id); ("name", JStr name); ("input", input)])].

(** ** Encoding a frame *)
Section Debug.
(** [{other:?}]: the derived [Debug] of an event. *)
Context (debug : IrStreamEvent -> string).

(** [{ "contentBlockDelta": { "delta": delta } }] *)
Definition block_delta (delta : list (string * json)) : json :=
  jobj [("contentBlockDelta", jobj [("delta", jobj delta)])].

(** [{ "contentBlockStart": { "start": start } }] *)
Definition block_start (start : list (string * json)) : json :=
  jobj [("contentBlockStart", jobj [("start", jobj start)])].

Definition media_block (kind format data : string) : list (string * json) :=
  [(kind, jobj [("format", JStr format); ("source", jobj [("bytes", JStr data)])])].

Definition unsupported_image (media_type : string) : MapError :=
  Invalid ("converse image format is not supported: " +:+ media_type).

Definition stop_frame (reason : string) : json :=
  jobj [("messageStop", jobj [("stopReason", JStr reason)])].

Definition encode (ev : IrStreamEvent) : result MapError json :=
  match ev with
  | TextDelta text | RefusalDelta text | AudioTranscriptDelta text => Ok (block_delta [("text", JStr text)])
  | ReasoningDelta text => Ok (block_delta [("reasoningContent", jobj [("text", JStr text)])])
  | ReasoningSignature signature =>
      Ok (block_delta [("reasoningContent", jobj [("signature", JStr signature)])])
  | ToolCallStart id name _ _ | CustomToolCallStart id name _ =>
      Ok (block_start [("toolUse", jobj [("toolUseId", JStr id); ("name", JStr name)])])
  | AnnotationAdded annotation => Ok (block_delta [("citation", citation_from_annotation annotation)])
  | ImageDelta media_type data =>
      match converse_image_format media_type with
      | None => Err (unsupported_image media_type)
      | Some format => Ok (block_start (media_block "image" format data))
      end
  | AudioDelta data => Ok (block_start (media_block "audio" "mp3" data))
  | Logprobs _ _ | Created _ | Metadata _ | Moderation _ _ => Ok (block_delta [("text", JStr "")])
  | SearchEntryPoint _ => Ok (JObj [])
  | ServiceTier tier =>
      let metadata := match converse_service_tier tier with
                      | Some (mapped, _) => obj_insert "serviceTier" (jobj [("type", JStr mapped)]) []
                      | None => []
                      end in
      Ok (jobj [("metadata", JObj metadata)])
  | ToolCallArgDelta delta _ => Ok (block_delta [("toolUse", jobj [("input", JStr delta)])])
  | CustomToolCallInputDelta delta _ =>
      let text := to_string (response_custom_tool_input delta) in
      Ok (block_delta [("toolUse", jobj [("input", JStr text)])])
  | ToolCallEnd => Ok (jobj [("contentBlockStop", JObj [])])
  | FinishReason reason _ => Ok (stop_frame (finish_reason reason))
  | Usage p c cr cw _ _ _ _ =>
      Ok (jobj [("metadata", jobj [("usage", encode_converse_usage p c cr cw)])])
  | Done => Ok (stop_frame "end_turn")
  | other => Err (Invalid ("converse stream cannot encode " +:+ debug other))
  end.
End Debug.

(** ** Encoding a body *)

(** The locals of [encode_complete]. *)
Record body_state := mkBody {
  bs_text : string;
  bs_content : list json;
  bs_tools : tools;
  bs_citations : list json;
  bs_reasoning : string;
  bs_signature : option string;
  bs_redacted : list string;
  bs_audio : string;
  bs_stop : string;
  bs_usage : option (Z * Z * Z * Z);
  bs_tier : option string;
  bs_passthrough : list (string * json)
}.

Definition body_new : body_state := mkBody "" [] ([], []) [] "" None [] "" "end_turn" None None [].

(** [flush_text(&mut text, &mut content)] *)
Definition flush_text (text : string) (content : list json) : string * list json :=
  if negb (is_empty text) then ("", content ++ [jobj [("text", JStr text)]]) else (text, content).

Definition set_text (s : body_state) (tc : string * list json) : body_state :=
  mkBody tc.1 tc.2 (bs_tools s) (bs_citations s) (bs_reasoning s) (bs_signature s) (bs_redacted s)
    (bs_audio s) (bs_stop s) (bs_usage s) (bs_tier s) (bs_passthrough s).

Definition flush_state (s : body_state) : body_state := set_text s (flush_text (bs_text s) (bs_content s)).

(** Flush the text and push a block. *)
Definition push_block (s : body_state) (block : json) : body_state :=
  let s := flush_state s in set_text s (bs_text s, bs_content s ++ [block]).

Definition set_tools (s : body_state) (ts : tools) : body_state :=
  mkBody (bs_text s) (bs_content s) ts (bs_citations s) (bs_reasoning s) (bs_signature s) (bs_redacted s)
    (bs_audio s) (bs_stop s) (bs_usage s) (bs_tier s) (bs_passthrough s).

Definition push_citation (s : body_state) (citation : json) : body_state :=
  mkBody (bs_text s) (bs_content s) (bs_tools s) (bs_citations s ++ [citation]) (bs_reasoning s)
    (bs_signature s) (bs_redacted s) (bs_audio s) (bs_stop s) (bs_usage s) (bs_tier s) (bs_passthrough s).

Definition set_reasoning (s : body_state) (reasoning : string) (signature : option string)
    (redacted : list string) : body_state :=
  mkBody (bs_text s) (bs_content s) (bs_tools s) (bs_citations s) reasoning signature redacted
    (bs_audio s) (bs_stop s) (bs_usage s) (bs_tier s) (bs_passthrough s).

(** The fields of the body that are not content. *)
Definition set_meta (s : body_state) (audio stop : string) (usage : option (Z * Z * Z * Z))
    (tier : option string) (passthrough : list (string * json)) : body_state :=
  mkBody (bs_text s) (bs_content s) (bs_tools s) (bs_citations s) (bs_reasoning s) (bs_signature s)
    (bs_redacted s) audio stop usage tier passthrough.

Definition hosted_block_key (item_type : string) : option string :=
  if String.eqb item_type "converse_guard_content" then Some "guardContent"
  else if String.eqb item_type "converse_document" then Some "document"
  else if String.eqb item_type "converse_video" then Some "video"
  else if String.eqb item_type "converse_image" then Some "image"
  else if String.eqb item_type "converse_audio" then Some "audio"
  else None.

(** The [Protocol] arms, guards in order. *)
Definition body_protocol (s : body_state) (item_type : string) (payload : json) : body_state :=
  if String.eqb item_type "converse_redacted_content" then
    match nonempty (as_str payload) with
    | Some blob => set_reasoning s (bs_reasoning s) (bs_signature s) (bs_redacted s ++ [blob])
    | None => s
    end
  else if String.eqb item_type "converse_citation" && is_object payload then push_citation s payload
  else
    match (if is_object payload then hosted_block_key item_type else None) with
    | Some key => push_block s (jobj [(key, payload)])
    | None =>
        if converse_passthrough item_type && negb (is_null payload)
        then set_meta s (bs_audio s) (bs_stop s) (bs_usage s) (bs_tier s)
               (bs_passthrough s ++ [(item_type, payload)])
        else s
    end.

(** One turn of the loop over the events. *)
Definition body_event (s : body_state) (ev : IrStreamEvent) : result MapError body_state :=
  match ev with
  | TextDelta delta | AudioTranscriptDelta delta | RefusalDelta delta =>
      Ok (set_text s (bs_text s +:+ delta, bs_content s))
  | ReasoningDelta delta => Ok (set_reasoning s (bs_reasoning s +:+ delta) (bs_signature s) (bs_redacted s))
  | ReasoningSignature signature => Ok (set_reasoning s (bs_reasoning s) (Some signature) (bs_redacted s))
  | Protocol item_type payload => Ok (body_protocol s item_type payload)
  | AudioDelta data =>
      Ok (set_meta s (bs_audio s +:+ data) (bs_stop s) (bs_usage s) (bs_tier s) (bs_passthrough s))
  | ImageDelta media_type data =>
      match converse_image_format media_type with
      | None => Err (unsupported_image media_type)
      | Some format => Ok (push_block s (jobj (media_block "image" format data)))
      end
  | AnnotationAdded annotation => Ok (push_citation s (citation_from_annotation annotation))
  | ToolCallStart id name _ index =>
      let s := flush_state s in Ok (set_tools s (note_converse_tool (bs_tools s) index id name false))
  | CustomToolCallStart id name index =>
      let s := flush_state s in Ok (set_tools s (note_converse_tool (bs_tools s) index id name true))
  | ToolCallArgDelta delta index | CustomToolCallInputDelta delta index =>
      Ok (set_tools s (push_args (bs_tools s) index delta))
  | FinishReason reason _ =>
      Ok (set_meta s (bs_audio s) (finish_reason reason) (bs_usage s) (bs_tier s) (bs_passthrough s))
  | ServiceTier tier =>
      Ok (match converse_service_tier tier with
          | Some (mapped, _) => set_meta s (bs_audio s) (bs_stop s) (bs_usage s) (Some mapped) (bs_passthrough s)
          | None => s
          end)
  | Usage p c cr cw _ _ _ _ =>
      Ok (set_meta s (bs_audio s) (bs_stop s) (Some (p, c, cr, cw)) (bs_tier s) (bs_passthrough s))
  | _ => Ok s
  end.

Fixpoint body_events (s : body_state) (evs : list IrStreamEvent) : result MapError body_state :=
  match evs with
  | [] => Ok s
  | ev :: evs => let* s := body_event s ev in body_events s evs
  end.

(** The reasoning and audio blocks in front of the content. *)
Definition body_prefix (s : body_state) : list json :=
  let signature := nonempty (bs_signature s) in
  map (fun blob => jobj [("reasoningContent", jobj [("redactedContent", JStr blob)])]) (bs_redacted s)
  ++ (if negb (is_empty (bs_reasoning s)) || is_some signature then
        let reasoning_text := jobj [("text", JStr (bs_reasoning s))] in
        let reasoning_text := match signature with
                              | Some signature => index_set reasoning_text "signature" (JStr signature)
                              | None => reasoning_text
                              end in
        [jobj [("reasoningContent", jobj [("reasoningText", reasoning_text)])]]
      else [])
  ++ (if negb (is_empty (bs_audio s)) then [jobj (media_block "audio" "mp3" (bs_audio s))] else []).

(** The state of the regrouping: blocks kept, the run of text blocks, and
    whether a run has taken the citations. *)
Definition cite_state : Type := list json * list json * bool.

Definition citations_block (content citations : list json) : json :=
  jobj [("citationsContent", jobj [("content", JArr content); ("citations", JArr citations)])].

Definition flush_run (citations : list json) (st : cite_state) : cite_state :=
  let '(kept, run, cited) := st in
  if bool_decide (run = []) then st
  else if negb cited then (kept ++ [citations_block run citations], [], true)
  else (kept ++ run, [], cited).

Definition cite_block (citations : list json) (st : cite_state) (block : json) : cite_state :=
  if is_some (get block "text") then
    let '(kept, run, cited) := st in (kept, run ++ [block], cited)
  else
    let '(kept, run, cited) := flush_run citations st in (kept ++ [block], run, cited).

(** The first run of text blocks goes under the citations. *)
Definition cite_content (citations content : list json) : list json :=
  let '(kept, run, cited) := flush_run citations (fold_left (cite_block citations) content ([], [], false)) in
  if negb cited then kept ++ [citations_block [] citations] else kept.

Definition body_content (s : body_state) : list json :=
  let content := body_prefix s ++ bs_content s in
  let '(text, content) :=
    if bool_decide (bs_citations s = []) then (bs_text s, content)
    else
      let content := if negb (is_empty (bs_text s)) then content ++ [jobj [("text", JStr (bs_text s))]]
                     else content in
      ("", cite_content (bs_citations s) content) in
  (flush_text text content).2.

(** [done_tools.extend(open_tools)] *)
Definition all_tools (ts : tools) : list (Z * ConverseTool) := ts.2 ++ ts.1.

Definition tool_blocks (ts : tools) : list json :=
  map (fun it => tool_use (ct_id it.2) (ct_name it.2) (ct_args it.2) (ct_custom it.2))
    (List.filter (fun it => named it.2) (all_tools ts)).

Definition body_json (s : body_state) : json :=
  let content := body_content s ++ tool_blocks (bs_tools s) in
  let saw_tool := existsb (fun it => named it.2) (all_tools (bs_tools s)) in
  let stop := if saw_tool && String.eqb (bs_stop s) "end_turn" then "tool_use" else bs_stop s in
  let body := jobj [("output", jobj [("message", jobj [("role", JStr "assistant"); ("content", JArr content)])]);
                    ("stopReason", JStr stop)] in
  let body := match bs_tier s with
              | Some tier => index_set body "serviceTier" (jobj [("type", JStr tier)])
              | None => body
              end in
  let body := match bs_usage s with
              | Some (p, c, cr, cw) => index_set body "usage" (encode_converse_usage p c cr cw)
              | None => body
              end in
  fold_left (fun body kf => index_set body kf.1 kf.2) (bs_passthrough s) body.

Definition encode_complete (events : list IrStreamEvent) : result MapError json :=
  let* s := body_events body_new events in Ok (body_json s).

(** ** Decoding a body *)
Definition block_text (block : json) : string :=
  let sibling := unwrap_or (get_str block "text") "" in
  let generated := citations_content_text block in
  if is_empty sibling then generated
  else if is_empty generated || String.eqb sibling generated then sibling
  else sibling +:+ generated.

Definition reasoning_events (block : json) : list IrStreamEvent :=
  let field p := nonempty (pointer_str block p) in
  push_opt ReasoningDelta (field [Key "reasoningContent"; Key "reasoningText"; Key "text"])
  ++ push_opt ReasoningSignature (field [Key "reasoningContent"; Key "reasoningText"; Key "signature"])
  ++ push_opt (fun blob => Protocol "converse_redacted_content" (JStr blob))
       (field [Key "reasoningContent"; Key "redactedContent"]).

(** A media block is its delta, or kept whole when it is an object. *)
Definition media_events (read : json -> option IrStreamEvent) (item_type : string) (media : option json) :
  list IrStreamEvent :=
  match media with
  | None => []
  | Some media =>
      match read media with
      | Some ev => [ev]
      | None => if is_object media then [Protocol item_type media] else []
      end
  end.

Definition kept_block (block : json) (key item_type : string) : list IrStreamEvent :=
  push_opt (Protocol item_type) (object_field block key).

Definition citation_event (citation : json) : list IrStreamEvent :=
  match annotation_from_converse_citation citation with
  | Some annotation => [AnnotationAdded annotation]
  | None => if is_object citation then [Protocol "converse_citation" citation] else []
  end.

Definition block_events (block : json) : list IrStreamEvent :=
  let text := block_text block in
  (if negb (is_empty text) then [TextDelta text] else [])
  ++ reasoning_events block
  ++ media_events audio_delta_from_block "converse_audio" (get block "audio")
  ++ media_events image_delta_from_converse "converse_image" (get block "image")
  ++ kept_block block "guardContent" "converse_guard_content"
  ++ kept_block block "document" "converse_document"
  ++ kept_block block "video" "converse_video"
  ++ flat_map citation_event
       (unwrap_or (pointer block [Key "citationsContent"; Key "citations"] ≫= as_array) []).

(** The events of a tool block, on the next tool index. *)
Definition tool_block_events (tool : json) (index : Z) : list IrStreamEvent :=
  let args := match get tool "input" with Some v => to_string v | None => "{}" end in
  [ToolCallStart (unwrap_or (get_str tool "toolUseId") "") (unwrap_or (get_str tool "name") "") None index;
   ToolCallArgDelta args index; ToolCallEnd].

Fixpoint decode_blocks (blocks : list json) (tool_index : Z) : list IrStreamEvent :=
  match blocks with
  | [] => []
  | block :: blocks =>
      block_events block ++
      match opt_filter converse_tool_visible (get block "toolUse") with
      | Some tool =>
          tool_block_events tool tool_index ++ decode_blocks blocks (u32_saturating_add tool_index 1)
      | None => decode_blocks blocks tool_index
      end
  end.

Definition decode_complete (value : json) : result MapError (list IrStreamEvent) :=
  match complete_exception_detail value with
  | Some detail => Err (Invalid detail)
  | None =>
      let blocks := unwrap_or (pointer value [Key "output"; Key "message"; Key "content"] ≫= as_array) [] in
      Ok (decode_blocks blocks 0
          ++ push_opt (fun reason => FinishReason reason None) (get_str value "stopReason")
          ++ push_opt ServiceTier (service_tier_from value)
          ++ push_opt usage_from_converse (get value "usage")
          ++ extra_events value
          ++ [Done])
  end.
End Serializer.

(** ** A frame gives back what was written *)
Section Properties.
Context {SJ : SerdeJson}.

Definition media_type_kept (media_type : string) : Prop :=
  exists format, converse_image_format media_type = Some format
    /\ converse_image_media_type format = media_type /\ is_empty format = false.

(** The events a Converse frame carries whole. *)
Definition converse_stable (ev : IrStreamEvent) : Prop :=
  match ev with
  | TextDelta _ | ReasoningDelta _ | ReasoningSignature _ => True
  | ToolCallStart _ _ sig index => sig = None /\ index = 0
  | ToolCallArgDelta _ index => index = 0
  | AnnotationAdded annotation =>
      exists url title, is_empty url = false
        /\ (forall t, title = Some t -> is_empty t = false)
        /\ annotation = match title with
             | Some t => index_set (jobj [("type", JStr "url_citation"); ("url", JStr url)]) "title" (JStr t)
             | None => jobj [("type", JStr "url_citation"); ("url", JStr url)]
             end
  | ImageDelta media_type data => media_type_kept media_type /\ is_empty data = false
  | AudioDelta data => is_empty data = false
  | ServiceTier tier => exists note, converse_service_tier tier = Some (tier, note) /\ is_empty tier = false
  | FinishReason reason vendor => finish_reason reason = reason /\ vendor = None
  | Usage p c cr cw r a ca geo =>
      Forall is_u32 [p; c; cr; cw] /\ r = 0 /\ a = 0 /\ ca = 0 /\ geo = None
  | _ => False
  end.

(** Decode a frame of literal shape. *)
Ltac frame_eval :=
  eexists; split; [reflexivity|]; eval_json;
  repeat (match goal with H : is_empty _ = false |- _ => rewrite !H end; eval_json); try reflexivity.

Lemma usage_u32_jint v key n : get v key = Some (jint n) -> is_u32 n -> usage_u32 v key = n.
Proof.
  intros E H. unfold usage_u32, get_u64. rewrite E. cbn [mbind option_bind].
  rewrite as_u64_jint by done. cbn [unwrap_or]. apply Z.mod_small. int_lia.
Qed.

Lemma usage_u32_positive v key n :
  get v key = (if positive n then Some (jint n) else None) -> is_u32 n -> usage_u32 v key = n.
Proof.
  intros E H. destruct (positive n) eqn:P; [by apply usage_u32_jint|].
  unfold usage_u32, get_u64. rewrite E. cbn. symmetry. rewrite (positive_false n) by done. done.
Qed.

Lemma converse_usage_roundtrip p c cr cw :
  Forall is_u32 [p; c; cr; cw] ->
  usage_from_converse (encode_converse_usage p c cr cw) = Usage p c cr cw 0 0 0 None.
Proof.
  intros H. rewrite !Forall_cons in H. destruct H as (? & ? & ? & ? & _).
  unfold usage_from_converse, encode_converse_usage.
  f_equal; [apply usage_u32_jint|apply usage_u32_jint|apply usage_u32_positive|apply usage_u32_positive];
    try done; read_json; try done; by case_match.
Qed.

(** Every event a Converse frame can carry whole is read back from the frame
    the encoder writes for it. *)
Theorem converse_encode_decode debug ev :
  converse_stable ev -> exists data, encode debug ev = Ok data /\ decode data = Ok (Some ev).
Proof.
  intros H. destruct ev; cbn [converse_stable] in H; try done; try (by frame_eval).
  - destruct H as [-> ->]. by frame_eval.
  - subst. by frame_eval.
  - destruct H as (url & [t|] & Hu & Ht & ->); [specialize (Ht _ eq_refl)|]; frame_eval.
  - destruct H as [(format & Hf & Hm & He) Hd]. cbn [encode]. rewrite Hf. frame_eval.
    rewrite <- Hm. by eval_json.
  - destruct H as (note & Ht & He). cbn [encode]. rewrite Ht. frame_eval.
  - destruct H as (Hu & -> & -> & -> & ->). eexists. split; [reflexivity|].
    rewrite <- (converse_usage_roundtrip _ _ _ _ Hu). lazy -[usage_from_converse encode_converse_usage]. done.
  - destruct H as [Hr ->]. cbn [encode]. rewrite Hr. frame_eval.
Qed.

(** ** Bounds *)
Lemma content_block_index_range block i : content_block_index block = Ok i -> 0 <= i <= MAX_CONTENT_BLOCK_INDEX.
Proof.
  unfold content_block_index, check_index, get_u64. destruct (get block "contentBlockIndex") as [raw|]; cbn [mbind option_bind].
  - destruct (as_u64 raw) as [n|] eqn:E; [|done]. destruct (Z.ltb_spec MAX_CONTENT_BLOCK_INDEX n); [done|]. cbn [rbind].
    intros [= <-]. cbn [mbind option_bind]. assert (0 <= n).
    { destruct raw as [| |[z|]| | |]; try done. cbn in E. destruct (0 <=? z) eqn:Hz; [|done]. cbn in E.
      destruct (z <=? u64_max); [|done]. injection E as <-. by apply Z.leb_le. }
    unfold MAX_CONTENT_BLOCK_INDEX in *. rewrite u32_try_from_Some by int_lia. cbn. lia.
  - intros [= <-]. cbn. unfold MAX_CONTENT_BLOCK_INDEX. lia.
Qed.

Lemma rest_no_index value ev : decode_rest value = Some ev -> event_index ev = None.
Proof.
  unfold decode_rest. destruct (is_some _); [done|]. destruct (pointer_str value _); [by intros [= <-]|].
  destruct (pointer value _); [by intros [= <-]|]. destruct (service_tier_from value); [by intros [= <-]|].
  destruct (is_some _); [done|]. by intros [= <-].
Qed.

Lemma image_no_index image ev : image_delta_from_converse image = Some ev -> event_index ev = None.
Proof.
  unfold image_delta_from_converse. destruct (nonempty (pointer_str _ _)); [|done]. cbn [mbind option_bind].
  destruct (nonempty (get_str _ _)); [|done]. by intros [= <-].
Qed.

Lemma audio_no_index audio ev : audio_delta_from_block audio = Some ev -> event_index ev = None.
Proof. unfold audio_delta_from_block. destruct (nonempty _); [|done]. by intros [= <-]. Qed.

Lemma start_index_range value ev i :
  decode_start value = Ok (Some ev) -> event_index ev = Some i -> 0 <= i <= MAX_CONTENT_BLOCK_INDEX.
Proof.
  assert (R : forall o, Ok (E := MapError) o = Ok (Some ev) ->
    (forall e, o = Some e -> event_index e = None) -> event_index ev = Some i -> 0 <= i <= MAX_CONTENT_BLOCK_INDEX).
  { intros o [= ->] Hn Hi. by rewrite (Hn ev eq_refl) in Hi. }
  unfold decode_start. destruct (get value "contentBlockStart") as [start|].
  2:{ intros H. apply (R _ H). intros e. apply rest_no_index. }
  destruct (pointer start _) as [tool|].
  { destruct (content_block_index start) as [n|e] eqn:E; [|done]. intros [= <-] [= <-].
    by apply content_block_index_range in E. }
  destruct (pointer start _); [intros H; apply (R _ H); intros e; apply image_no_index|].
  destruct (pointer start _); intros H; apply (R _ H); intros e; [apply audio_no_index|apply rest_no_index].
Qed.

(** No decoded Converse event has a block index above the cap: a larger index
    is an error, never an event. *)
Theorem converse_index_capped value ev i :
  decode value = Ok (Some ev) -> event_index ev = Some i -> 0 <= i <= MAX_CONTENT_BLOCK_INDEX.
Proof.
  unfold decode. destruct (complete_exception_detail value); [done|].
  destruct (pointer value [Key "contentBlockDelta"; Key "delta"]) as [delta|]; [|apply start_index_range].
  destruct (decode_delta value delta) as [[e|]|e] eqn:E; cbn [rbind]; [|apply start_index_range|done].
  intros [= ->]. unfold decode_delta in E. cbv zeta in E.
  destruct (get_str delta "text"); [by injection E as <-|].
  do 2 (destruct (pointer_str delta _); [by injection E as <-|]).
  destruct (nonempty _); [by injection E as <-|].
  destruct (pointer_str delta _).
  { destruct (content_block_index _) as [n|] eqn:C; [|done]. injection E as <-. intros [= <-].
    by apply content_block_index_range in C. }
  destruct (get delta "citation"); [|done]. injection E as <-.
  by destruct (annotation_from_converse_citation _).
Qed.

(** A Converse count keeps only its low 32 bits, where the reader the other
    wires share drops a count that does not fit: 2^32 + 5 input tokens are
    reported as 5. *)
Theorem converse_counts_wrap usage n :
  get usage "inputTokens" = Some (jint n) -> is_u64 n -> u32_max < n ->
  u32_field usage "inputTokens" = None
  /\ exists c cr cw, usage_from_converse usage = Usage (n mod 2 ^ 32) c cr cw 0 0 0 None.
Proof.
  intros E Hn Hm. assert (A : as_u64 (jint n) = Some n).
  { unfold jint, as_u64. destruct Hn as [H1 H2]. by rewrite (proj2 (Z.leb_le _ _) H1), (proj2 (Z.leb_le _ _) H2). }
  split.
  - unfold u32_field. rewrite E. cbn [mbind option_bind]. rewrite A. cbn [mbind option_bind]. unfold u32_try_from.
    rewrite (proj2 (Z.leb_gt n u32_max)) by done. by rewrite andb_false_r.
  - do 3 eexists. unfold usage_from_converse. f_equal. unfold usage_u32, get_u64. rewrite E.
    cbn [mbind option_bind]. by rewrite A.
Qed.

(** ** The tool calls of a body *)

(** What the calls of one index hold. *)
Definition held (i : Z) (ts : list (Z * ConverseTool)) : string :=
  text_concat (map (fun it => ct_args it.2) (List.filter (fun it => it.1 =? i) ts)).

Lemma held_app i l k : held i (l ++ k) = held i l +:+ held i k.
Proof. unfold held. by rewrite List.filter_app, map_app, text_concat_app. Qed.

Lemma held_open i open :
  bt_sorted open -> held i open = match bt_get i open with Some t => ct_args t | None => "" end.
Proof.
  intros Hs. unfold held. pose proof (bt_flat_map_key (fun kv => [kv]) (fun it => it.1 =? i) i open Hs) as F.
  assert (E : flat_map (fun kv : Z * ConverseTool => [kv]) open = open).
  { clear. induction open as [|kv l IH]; cbn; [done|]. by rewrite IH. }
  rewrite E in F. rewrite F.
  - destruct (bt_get i open); [|done]. cbn. rewrite Z.eqb_refl. cbn. by rewrite str_app_nil_r.
  - intros kv b _ [<-|[]] Hne. by apply Z.eqb_neq.
Qed.

Definition tools_ok (ts : tools) : Prop := bt_sorted ts.1.

(** What all the calls of one index hold, in the order they are written. *)
Definition tool_text (i : Z) (ts : tools) : string := held i (all_tools ts).

Lemma tool_text_open i open closed :
  bt_sorted open ->
  tool_text i (open, closed) = held i closed +:+ match bt_get i open with Some t => ct_args t | None => "" end.
Proof. intros Hs. unfold tool_text, all_tools. cbn [fst snd]. by rewrite held_app, (held_open i open). Qed.

Lemma note_tool_keeps i ts index id name custom :
  tools_ok ts ->
  tools_ok (note_converse_tool ts index id name custom)
  /\ tool_text i (note_converse_tool ts index id name custom) = tool_text i ts.
Proof.
  destruct ts as [open closed]. unfold tools_ok. cbn [fst]. intros Hs. unfold note_converse_tool.
  set (pair := match bt_get index open with Some _ => _ | None => _ end).
  assert (P : bt_sorted pair.1 /\ tool_text i pair = tool_text i (open, closed)).
  { unfold pair. destruct (bt_get index open) as [t|] eqn:E; [|done].
    destruct (_ && _ && _); [|done]. cbn [fst]. split; [by apply bt_remove_sorted|].
    rewrite !tool_text_open by auto with wire. rewrite held_app, bt_get_remove by done.
    unfold held at 2. cbn [List.filter fst map snd]. destruct (Z.eqb_spec index i) as [->|Hne].
    - rewrite Z.eqb_refl, E. cbn. by rewrite !str_app_nil_r.
    - rewrite (proj2 (Z.eqb_neq _ _)) by lia. cbn. by rewrite str_app_nil_r. }
  destruct pair as [open' closed']. destruct P as [Hs' <-]. cbn [fst] in *.
  split; [by apply bt_insert_sorted|]. rewrite !tool_text_open by auto with wire. rewrite bt_get_insert. f_equal.
  destruct (Z.eqb_spec i index) as [->|]; [|done]. by destruct (bt_get index open').
Qed.

Lemma push_args_keeps i ts index delta :
  tools_ok ts ->
  tools_ok (push_args ts index delta)
  /\ tool_text i (push_args ts index delta) = tool_text i ts +:+ (if index =? i then delta else "").
Proof.
  destruct ts as [open closed]. unfold tools_ok, push_args. cbn [fst]. intros Hs.
  split; [by apply bt_insert_sorted|]. rewrite !tool_text_open by auto with wire.
  rewrite bt_get_insert, str_app_assoc. f_equal.
  destruct (Z.eqb_spec i index) as [->|Hne].
  - rewrite Z.eqb_refl. by destruct (bt_get index open).
  - rewrite (proj2 (Z.eqb_neq index i)) by lia. by rewrite str_app_nil_r.
Qed.
End Properties.

(** ** A body gives back what was said *)
Section Bodies.
Context {SJ : SerdeJson}.
(** ** Text and reasoning of a body *)
Definition text_of (evs : list IrStreamEvent) : string :=
  text_concat (omap (fun ev => match ev with
    | TextDelta t | AudioTranscriptDelta t | RefusalDelta t => Some t
    | _ => None
    end) evs).

Definition reasoning_of (evs : list IrStreamEvent) : string :=
  text_concat (omap (fun ev => match ev with ReasoningDelta t => Some t | _ => None end) evs).

Definition text_block (text : string) : json := jobj [("text", JStr text)].

(** A block the loop pushes: text, or media without text or reasoning. *)
Definition plain_block (b : json) : Prop :=
  (exists t, b = text_block t)
  \/ (get b "text" = None /\ get b "citationsContent" = None /\ get b "reasoningContent" = None).

Definition blocks_text (blocks : list json) : string := text_concat (map block_text blocks).

Lemma blocks_text_app l k : blocks_text (l ++ k) = blocks_text l +:+ blocks_text k.
Proof. unfold blocks_text. by rewrite map_app, text_concat_app. Qed.

Lemma blocks_text_one b : blocks_text [b] = block_text b.
Proof. unfold blocks_text. cbn. apply str_app_nil_r. Qed.

Lemma block_text_text t : block_text (text_block t) = t.
Proof. unfold block_text. eval_json. by destruct t. Qed.

Lemma block_text_none b : get b "text" = None -> get b "citationsContent" = None -> block_text b = "".
Proof.
  intros T C. unfold block_text, citations_content_text, get_str. rewrite T, pointer_key, C. done.
Qed.

Lemma flush_text_keeps text content :
  Forall plain_block content ->
  Forall plain_block (flush_text text content).2
  /\ blocks_text (flush_text text content).2 +:+ (flush_text text content).1 = blocks_text content +:+ text
  /\ (text <> "" -> (flush_text text content).1 = "").
Proof.
  intros H. unfold flush_text. destruct text as [|a t]; cbn [is_empty negb fst snd]; [done|].
  split; [|split; [|done]].
  - apply Forall_app. split; [done|]. constructor; [|constructor]. left. by eexists.
  - rewrite blocks_text_app, blocks_text_one. fold (text_block (String a t)). rewrite block_text_text.
    by rewrite str_app_nil_r.
Qed.

Lemma hosted_plain item_type key payload : hosted_block_key item_type = Some key -> plain_block (jobj [(key, payload)]).
Proof.
  unfold hosted_block_key. intros H. right.
  repeat case_hyp H; try done; injection H as <-; by eval_json.
Qed.

(** What the loop keeps true, and what it has read. *)
Record body_ok (s : body_state) : Prop := {
  ok_tools : tools_ok (bs_tools s);
  ok_blocks : Forall plain_block (bs_content s);
  ok_stop : exists r, bs_stop s = finish_reason r;
  ok_extra : Forall (fun kf => converse_passthrough kf.1 = true) (bs_passthrough s)
}.

Definition body_text (s : body_state) : string := blocks_text (bs_content s) +:+ bs_text s.

Lemma body_ok_new : body_ok body_new.
Proof. split; [exact (@bt_sorted_nil ConverseTool)|constructor|by exists "stop"|constructor]. Qed.

Lemma flush_state_ok s : body_ok s -> body_ok (flush_state s) /\ body_text (flush_state s) = body_text s.
Proof.
  intros [H1 H2 H3 H4]. destruct (flush_text_keeps (bs_text s) (bs_content s) H2) as (P & T & _).
  split; [by split|]. exact T.
Qed.

Lemma push_block_ok s block :
  body_ok s -> plain_block block -> block_text block = "" ->
  body_ok (push_block s block) /\ body_text (push_block s block) = body_text s.
Proof.
  intros Hs Hb Ht. destruct (flush_state_ok s Hs) as [Hf <-]. destruct Hf as [H1 H2 H3 H4]. destruct Hs as [_ P _ _].
  split; [split; try done; apply Forall_app; split; [done|by constructor]|].
  unfold body_text, push_block. cbn [bs_content bs_text set_text fst snd].
  rewrite blocks_text_app, blocks_text_one, Ht, str_app_nil_r. done.
Qed.

Lemma media_block_plain kind format data :
  In kind ["image"; "audio"] ->
  plain_block (jobj (media_block kind format data)) /\ block_text (jobj (media_block kind format data)) = "".
Proof.
  intros H. assert (P : get (jobj (media_block kind format data)) "text" = None
    /\ get (jobj (media_block kind format data)) "citationsContent" = None
    /\ get (jobj (media_block kind format data)) "reasoningContent" = None).
  { cbn in H. destruct_or!; subst; try done; by eval_json. }
  split; [by right|]. destruct P as (T & C & _). by apply block_text_none.
Qed.

Lemma body_protocol_ok s item_type payload :
  body_ok s -> body_ok (body_protocol s item_type payload) /\ body_text (body_protocol s item_type payload) = body_text s.
Proof.
  intros Hs. unfold body_protocol.
  destruct (String.eqb item_type "converse_redacted_content").
  { destruct (nonempty (as_str payload)); [|done]. destruct Hs. by split. }
  destruct (_ && is_object payload); [destruct Hs; by split|].
  destruct (if is_object payload then hosted_block_key item_type else None) as [key|] eqn:E.
  { destruct (is_object payload); [|done]. pose proof (hosted_plain item_type key payload E) as P.
    apply push_block_ok; [done|done|]. destruct P as [[t T]|(? & ? & _)]; [|by apply block_text_none].
    unfold hosted_block_key in E. repeat case_hyp E; try done; injection E as <-; by vm_compute in T. }
  destruct (converse_passthrough item_type && negb (is_null payload)) eqn:E2; [|done].
  apply andb_true_iff in E2 as [E2 _]. destruct Hs as [H1 H2 H3 H4]. split; [|done].
  split; try done. apply Forall_app. split; [done|by constructor].
Qed.

Lemma body_protocol_keeps s item_type payload :
  bs_reasoning (body_protocol s item_type payload) = bs_reasoning s
  /\ bs_tools (body_protocol s item_type payload) = bs_tools s.
Proof. unfold body_protocol. by repeat case_match. Qed.

(** One turn: the invariant, and what the event adds. *)
Definition step_reads (s : body_state) (ev : IrStreamEvent) (s' : body_state) : Prop :=
  body_ok s' /\ body_text s' = body_text s +:+ text_of [ev]
  /\ bs_reasoning s' = bs_reasoning s +:+ reasoning_of [ev]
  /\ forall i, tool_text i (bs_tools s') = tool_text i (bs_tools s) +:+ fragments i [ev].

Lemma step_quiet s ev s' :
  body_ok s' /\ body_text s' = body_text s -> bs_reasoning s' = bs_reasoning s -> bs_tools s' = bs_tools s ->
  text_of [ev] = "" -> reasoning_of [ev] = "" -> (forall i, fragments i [ev] = "") -> step_reads s ev s'.
Proof.
  intros [H1 H2] H3 H4 Ht Hr Hf. unfold step_reads. rewrite Ht, Hr, !str_app_nil_r.
  split; [done|]. split; [done|]. split; [done|]. intros i. by rewrite Hf, str_app_nil_r, H4.
Qed.

Lemma step_text s ev t :
  body_ok s -> text_of [ev] = t -> reasoning_of [ev] = "" -> (forall i, fragments i [ev] = "") ->
  step_reads s ev (set_text s (bs_text s +:+ t, bs_content s)).
Proof.
  intros Hs Ht Hr Hf. unfold step_reads. rewrite Ht, Hr, str_app_nil_r.
  split; [destruct Hs; by split|]. split; [|split; [done|]].
  - unfold body_text. cbn. by rewrite str_app_assoc.
  - intros i. by rewrite Hf, str_app_nil_r.
Qed.

Lemma step_tools s ev s0 ts :
  body_ok s0 /\ body_text s0 = body_text s -> bs_reasoning s0 = bs_reasoning s -> tools_ok ts ->
  (forall i, tool_text i ts = tool_text i (bs_tools s) +:+ fragments i [ev]) ->
  text_of [ev] = "" -> reasoning_of [ev] = "" -> step_reads s ev (set_tools s0 ts).
Proof.
  intros [H0 H1] H2 Hts Hf Ht Hr. unfold step_reads. rewrite Ht, Hr, !str_app_nil_r.
  destruct H0. split; [by split|]. split; [exact H1|]. by split.
Qed.

Lemma body_event_ok s ev s' : body_ok s -> body_event s ev = Ok s' -> step_reads s ev s'.
Proof.
  intros Hs H. pose proof (flush_state_ok s Hs) as Hfl. pose proof (ok_tools s Hs) as Htl.
  assert (One : forall t, text_concat [t] = t) by (intros; apply str_app_nil_r).
  destruct ev; cbn [body_event] in H; try (injection H as <-);
    try (apply step_text; [done|apply One|done|done]);
    try (apply step_quiet; [split; [by destruct Hs|done]|done..]).
  - split; [by destruct Hs|]. split; [by rewrite str_app_nil_r|]. cbn [bs_reasoning set_reasoning].
    split; [unfold reasoning_of; cbn; by rewrite str_app_nil_r|]. intros i. by rewrite str_app_nil_r.
  - apply step_tools; try done; [by apply (note_tool_keeps 0)|].
    intros i. rewrite str_app_nil_r. by apply note_tool_keeps.
  - apply step_tools; try done; [by apply (push_args_keeps 0)|].
    intros i. unfold fragments. cbn. destruct (index =? i) eqn:E;
      rewrite (proj2 (push_args_keeps i _ index delta Htl)), E; cbn; by rewrite ?str_app_nil_r.
  - destruct (converse_image_format media_type) as [format|]; [|done]. injection H as <-.
    destruct (media_block_plain "image" format data) as [P T]; [by left|].
    by apply step_quiet; [apply push_block_ok|..].
  - apply step_tools; try done; [by apply (note_tool_keeps 0)|].
    intros i. rewrite str_app_nil_r. by apply note_tool_keeps.
  - apply step_tools; try done; [by apply (push_args_keeps 0)|].
    intros i. unfold fragments. cbn. destruct (index =? i) eqn:E;
      rewrite (proj2 (push_args_keeps i _ index delta Htl)), E; cbn; by rewrite ?str_app_nil_r.
  - destruct (converse_service_tier tier) as [[mapped note]|];
      (apply step_quiet; [split; [by destruct Hs|done]|done..]).
  - apply step_quiet; try done. split; [|done]. destruct Hs. split; try done. by exists reason.
  - apply step_quiet; try done; [by apply body_protocol_ok|apply body_protocol_keeps..].
Qed.

Lemma omap_cons_concat (f : IrStreamEvent -> option string) ev evs :
  text_concat (omap f (ev :: evs)) = text_concat (omap f [ev]) +:+ text_concat (omap f evs).
Proof. rewrite <- text_concat_app, <- omap_app. done. Qed.

Lemma body_events_ok evs s s' :
  body_ok s -> body_events s evs = Ok s' ->
  body_ok s' /\ body_text s' = body_text s +:+ text_of evs
  /\ bs_reasoning s' = bs_reasoning s +:+ reasoning_of evs
  /\ forall i, tool_text i (bs_tools s') = tool_text i (bs_tools s) +:+ fragments i evs.
Proof.
  revert s. induction evs as [|ev evs IH]; intros s Hs; cbn [body_events].
  { intros [= <-]. split; [done|]. split; [symmetry; apply str_app_nil_r|].
    split; [symmetry; apply str_app_nil_r|]. intros i. symmetry. apply str_app_nil_r. }
  destruct (body_event s ev) as [s1|e] eqn:E; [|done]. cbn [rbind]. intros H.
  destruct (body_event_ok s ev s1 Hs E) as (H1 & T1 & R1 & F1).
  destruct (IH s1 H1 H) as (H2 & T2 & R2 & F2). unfold text_of, reasoning_of, fragments in *.
  split; [done|]. rewrite T2, T1, R2, R1, !(omap_cons_concat _ ev evs), !str_app_assoc. split; [done|]. split; [done|].
  intros i. by rewrite F2, F1, (omap_cons_concat _ ev evs), str_app_assoc.
Qed.

(** No argument text is lost, invented or given to another call, however the
    calls of a body interleave: the calls of one index hold exactly the text
    sent for that index, in order. *)
Theorem converse_arguments_conserved evs s i :
  body_events body_new evs = Ok s -> tool_text i (bs_tools s) = fragments i evs.
Proof. intros H. by apply (body_events_ok _ _ _ body_ok_new H). Qed.

(** ** Reading a body back *)
Lemma body_stop_visible r : is_empty (trim (finish_reason r)) = false /\ is_empty (finish_reason r) = false.
Proof. unfold finish_reason. repeat case_match; by split. Qed.

(** The members of a body: the extra keys hide none of them. *)
Lemma body_get s key :
  body_ok s -> one_of key ["output"; "stopReason"] = true ->
  exists stop, get (body_json s) key =
      (if String.eqb key "output"
       then Some (jobj [("message", jobj [("role", JStr "assistant");
                     ("content", JArr (body_content s ++ tool_blocks (bs_tools s)))])])
       else Some (JStr stop))
    /\ exists r, stop = finish_reason r.
Proof.
  intros [_ _ [r Hr] Hx] Hk. unfold body_json. set (content := body_content s ++ _).
  set (stop := if _ && _ then "tool_use" else bs_stop s). exists stop.
  assert (Hs : exists r, stop = finish_reason r).
  { unfold stop. destruct (_ && _); [by exists "tool_use"|by exists r]. }
  split; [|done]. clear Hs. generalize stop as st. intros st.
  set (base := match bs_usage s with Some _ => _ | None => _ end).
  assert (Base : is_object base = true /\ get base key =
    (if String.eqb key "output"
       then Some (jobj [("message", jobj [("role", JStr "assistant"); ("content", JArr content)])])
       else Some (JStr st))).
  { apply one_of_In in Hk. cbn in Hk. unfold base.
    destruct (bs_usage s) as [[[[p c] cr] cw]|], (bs_tier s) as [tier|]; destruct_or!; subst; try done;
      (split; [by object_goal|by read_json]). }
  clearbody base. revert base Base. induction Hx as [|[k f] l Hk1 _ IH]; intros base [Ho Hb]; cbn [fold_left fst snd]; [done|].
  apply IH. split; [by rewrite is_object_index_set|]. rewrite get_index_set by done.
  cbn [fst] in Hk1. destruct (String.eqb_spec key k) as [->|]; [|exact Hb].
  apply one_of_In in Hk. cbn in Hk. destruct_or!; subst; try done; by vm_compute in Hk1.
Qed.

(** The text blocks of a run, regrouped under the citations. *)
Definition text_blocks (l : list json) : Prop := Forall (fun b => exists t, b = text_block t) l.

(** A block the regrouping does not look into. *)
Definition quiet_block (b : json) : Prop :=
  (exists t, b = text_block t) \/ (get b "text" = None /\ get b "citationsContent" = None).

(** A text read off each block, which a run keeps under its citations. *)
Section Measure.
Context (m : json -> string) (citations : list json).
Context (Hm : forall run, text_blocks run -> m (citations_block run citations) = text_concat (map m run)).

Definition measure (l : list json) : string := text_concat (map m l).

Lemma measure_app l k : measure (l ++ k) = measure l +:+ measure k.
Proof. unfold measure. by rewrite map_app, text_concat_app. Qed.

Lemma measure_cons b l : measure (b :: l) = m b +:+ measure l.
Proof. done. Qed.

Lemma measure_one b : measure [b] = m b.
Proof. apply str_app_nil_r. Qed.

Definition cite_measure (st : cite_state) : string := measure st.1.1 +:+ measure st.1.2.

Lemma flush_run_measure kept run cited :
  text_blocks run ->
  let st := flush_run citations (kept, run, cited) in
  cite_measure st = cite_measure (kept, run, cited) /\ st.1.2 = [].
Proof.
  intros H. unfold flush_run, cite_measure. cbv zeta. destruct (bool_decide_reflect (run = [])) as [->|]; [done|].
  destruct cited; cbn [negb fst snd]; rewrite !measure_app.
  - split; [apply str_app_nil_r|done].
  - rewrite measure_one, Hm by done. split; [apply str_app_nil_r|done].
Qed.

Lemma cite_block_measure st block :
  text_blocks st.1.2 -> quiet_block block ->
  cite_measure (cite_block citations st block) = cite_measure st +:+ m block
  /\ text_blocks (cite_block citations st block).1.2.
Proof.
  destruct st as [[kept run] cited]. cbn [fst snd]. intros Hr Hb. unfold cite_block.
  destruct Hb as [[t ->]|[T C]].
  - change (is_some (get (text_block t) "text")) with true. cbn iota. unfold cite_measure. cbn [fst snd].
    rewrite measure_app, measure_one, str_app_assoc. split; [done|].
    apply Forall_app. split; [done|]. constructor; [by eexists|constructor].
  - rewrite T. cbn [is_some]. destruct (flush_run_measure kept run cited Hr) as [E N].
    destruct (flush_run citations (kept, run, cited)) as [[kept' run'] cited']. cbn [fst snd] in *. subst run'.
    rewrite <- E. unfold cite_measure. cbn [fst snd]. split; [|constructor].
    rewrite measure_app, measure_one. change (measure []) with "". by rewrite !str_app_nil_r.
Qed.

Lemma cite_blocks_measure content st :
  Forall quiet_block content -> text_blocks st.1.2 ->
  cite_measure (fold_left (cite_block citations) content st) = cite_measure st +:+ measure content
  /\ text_blocks (fold_left (cite_block citations) content st).1.2.
Proof.
  intros H. revert st. induction H as [|b l Hb _ IH]; intros st Hst; cbn [fold_left].
  { split; [symmetry; apply str_app_nil_r|done]. }
  destruct (cite_block_measure st b Hst Hb) as [E1 E2]. destruct (IH _ E2) as [-> E3].
  split; [|done]. rewrite E1, str_app_assoc. done.
Qed.

Lemma cite_content_measure content :
  Forall quiet_block content -> measure (cite_content citations content) = measure content.
Proof.
  intros H. unfold cite_content.
  destruct (cite_blocks_measure content ([], [], false) H (List.Forall_nil _)) as [E R].
  destruct (fold_left (cite_block citations) content ([], [], false)) as [[kept run] cited].
  destruct (flush_run_measure kept run cited R) as [E2 N].
  destruct (flush_run citations (kept, run, cited)) as [[kept' run'] cited']. cbn [fst snd] in *. subst run'.
  rewrite E in E2. unfold cite_measure in E2. cbn [fst snd] in E2. change (measure []) with "" in E2.
  rewrite !str_app_nil_r, str_app_nil in E2. destruct cited'; cbn [negb]; [done|].
  rewrite measure_app, measure_one, Hm by constructor. cbn [map]. by rewrite E2, str_app_nil_r.
Qed.

(** What the finished content holds: the prefix, the blocks, then the text. *)
Lemma body_content_measure s :
  bs_citations s = citations ->
  (forall t, m (text_block t) = "" \/ m (text_block t) = t) ->
  Forall quiet_block (body_prefix s ++ bs_content s) ->
  exists rest, measure (body_content s) = measure (body_prefix s) +:+ measure (bs_content s) +:+ rest
    /\ rest = (if is_empty (bs_text s) then "" else m (text_block (bs_text s))).
Proof.
  intros Hc Ht Hq. eexists. split; [|done]. unfold body_content. rewrite Hc. set (text := bs_text s).
  destruct (bool_decide (citations = [])).
  - unfold flush_text. fold (text_block text). destruct (is_empty text); cbn [negb snd]; rewrite !measure_app.
    + by rewrite str_app_nil_r.
    + by rewrite measure_one, str_app_assoc.
  - cbn [flush_text is_empty negb snd]. destruct (is_empty text); cbn [negb].
    + rewrite cite_content_measure, measure_app, str_app_nil_r by done. done.
    + rewrite cite_content_measure, !measure_app, str_app_assoc; [by rewrite measure_one|].
      apply Forall_app. split; [done|]. constructor; [left; by eexists|constructor].
Qed.
End Measure.

Definition block_reasoning (b : json) : string :=
  unwrap_or (nonempty (pointer_str b [Key "reasoningContent"; Key "reasoningText"; Key "text"])) "".

Lemma citations_text run citations :
  text_blocks run -> block_text (citations_block run citations) = text_concat (map block_text run).
Proof.
  intros H. unfold block_text at 1, citations_content_text, citations_block, get_str. rewrite pointer_key. read_json.
  cbn [mbind option_bind unwrap_or is_empty]. rewrite pointer_key. read_json. cbn [mbind option_bind].
  rewrite pointer_nil. cbn [mbind option_bind as_array].
  assert (F : forall l acc, text_blocks l ->
    fold_left (fun out part => out +:+ unwrap_or (get part "text" ≫= as_str) "") l acc
    = acc +:+ text_concat (map block_text l)).
  { intros l acc Hl. revert acc. induction Hl as [|b l [t ->] _ IH]; intros acc; cbn [fold_left].
    - symmetry. apply str_app_nil_r.
    - rewrite IH, str_app_assoc. cbn [map text_concat fold_right]. rewrite block_text_text. done. }
  by rewrite F.
Qed.

Lemma citations_reasoning run citations :
  text_blocks run -> block_reasoning (citations_block run citations) = text_concat (map block_reasoning run).
Proof.
  intros H. change (block_reasoning (citations_block run citations)) with "".
  induction H as [|b l [t ->] _ IH]; [done|]. exact IH.
Qed.

Lemma prefix_quiet s : Forall quiet_block (body_prefix s).
Proof.
  unfold body_prefix. rewrite !Forall_app. split; [|split].
  - apply Forall_forall. intros b. rewrite list_elem_of_fmap. intros (blob & -> & _). by right.
  - destruct (_ || _); [|constructor]. constructor; [by right|constructor].
  - destruct (negb _); [|constructor]. constructor; [by right|constructor].
Qed.

Lemma content_quiet s : body_ok s -> Forall quiet_block (bs_content s).
Proof.
  intros [_ H _ _]. eapply Forall_impl; [exact H|]. intros b [?|(? & ? & _)]; [by left|by right].
Qed.

Lemma prefix_text s : measure block_text (body_prefix s) = "".
Proof.
  assert (H : Forall (fun b => block_text b = "") (body_prefix s)).
  { unfold body_prefix. rewrite !Forall_app. split; [|split].
    - apply Forall_forall. intros b. rewrite list_elem_of_fmap. by intros (blob & -> & _).
    - destruct (_ || _); [|constructor]. constructor; [done|constructor].
    - destruct (negb _); [|constructor]. constructor; [done|constructor]. }
  unfold measure. induction H as [|b l Hb _ IH]; cbn; [done|]. by rewrite Hb.
Qed.

Lemma prefix_reasoning s : measure block_reasoning (body_prefix s) = bs_reasoning s.
Proof.
  unfold body_prefix. rewrite !measure_app.
  assert (R : measure block_reasoning (map (fun blob => jobj [("reasoningContent",
      jobj [("redactedContent", JStr blob)])]) (bs_redacted s)) = "").
  { unfold measure. induction (bs_redacted s) as [|blob l IH]; [done|]. exact IH. }
  rewrite R. assert (A : measure block_reasoning (if negb (is_empty (bs_audio s))
     then [jobj (media_block "audio" "mp3" (bs_audio s))] else []) = "") by (by destruct (is_empty (bs_audio s))).
  rewrite A, str_app_nil_r, str_app_nil.
  destruct (is_empty (bs_reasoning s)) eqn:E; cbn [negb orb].
  - assert (bs_reasoning s = "") as -> by (by destruct (bs_reasoning s)).
    by destruct (nonempty (bs_signature s)).
  - rewrite measure_one. unfold block_reasoning. revert E. generalize (bs_reasoning s) as t. intros t E.
    destruct (nonempty (bs_signature s)); eval_json; by rewrite E.
Qed.

Lemma content_reasoning s : body_ok s -> measure block_reasoning (bs_content s) = "".
Proof.
  intros [_ H _ _]. induction H as [|b l Hb _ IH]; [done|]. rewrite measure_cons, IH, str_app_nil_r.
  destruct Hb as [[t ->]|(_ & _ & R)]; [done|]. unfold block_reasoning, pointer_str. by rewrite pointer_key, R.
Qed.

(** ** Events of a body read back *)
Definition says (ev : IrStreamEvent) : option string :=
  match ev with TextDelta t | AudioTranscriptDelta t | RefusalDelta t => Some t | _ => None end.
Definition thinks (ev : IrStreamEvent) : option string :=
  match ev with ReasoningDelta t => Some t | _ => None end.

(** An event that carries neither text nor reasoning. *)
Definition silent (ev : IrStreamEvent) : Prop := says ev = None /\ thinks ev = None.

Lemma says_text_app l k : text_of (l ++ k) = text_of l +:+ text_of k.
Proof. unfold text_of. by rewrite omap_app, text_concat_app. Qed.

Lemma says_reasoning_app l k : reasoning_of (l ++ k) = reasoning_of l +:+ reasoning_of k.
Proof. unfold reasoning_of. by rewrite omap_app, text_concat_app. Qed.

Lemma silent_events l : Forall silent l -> text_of l = "" /\ reasoning_of l = "".
Proof.
  change (text_of l) with (text_concat (omap says l)). change (reasoning_of l) with (text_concat (omap thinks l)).
  induction 1 as [|ev l [H1 H2] _ [IH1 IH2]]; [done|]. cbn. by rewrite H1, H2.
Qed.

Lemma silent_push {A} (f : A -> IrStreamEvent) o : (forall a, silent (f a)) -> Forall silent (push_opt f o).
Proof. intros H. destruct o; cbn; [|constructor]. by constructor. Qed.

Lemma silent_media read item_type media :
  (forall v ev, read v = Some ev -> silent ev) -> Forall silent (media_events read item_type media).
Proof.
  intros H. unfold media_events. destruct media as [v|]; [|constructor].
  destruct (read v) as [ev|] eqn:E; [constructor; [by eapply H|constructor]|].
  destruct (is_object v); repeat constructor.
Qed.

Lemma silent_citations l : Forall silent (flat_map citation_event l).
Proof.
  induction l as [|c l IH]; cbn [flat_map]; [constructor|]. apply Forall_app. split; [|done].
  unfold citation_event. destruct (annotation_from_converse_citation c); [repeat constructor|].
  destruct (is_object c); repeat constructor.
Qed.

Lemma block_events_say b : text_of (block_events b) = block_text b /\ reasoning_of (block_events b) = block_reasoning b.
Proof.
  unfold block_events. cbv zeta. rewrite !says_text_app, !says_reasoning_app.
  assert (S : forall l, Forall silent l -> text_of l = "" /\ reasoning_of l = "") by apply silent_events.
  destruct (S (media_events audio_delta_from_block "converse_audio" (get b "audio"))) as [-> ->].
  { apply silent_media. intros v ev. unfold audio_delta_from_block.
    destruct (nonempty (pointer_str v _)); [|done]. by intros [= <-]. }
  destruct (S (media_events image_delta_from_converse "converse_image" (get b "image"))) as [-> ->].
  { apply silent_media. intros v ev. unfold image_delta_from_converse.
    destruct (nonempty (pointer_str v _)); [|done]. cbn [mbind option_bind].
    destruct (nonempty (get_str v _)); [|done]. by intros [= <-]. }
  assert (K : forall key item_type, Forall silent (kept_block b key item_type)) by (intros; by apply silent_push).
  destruct (S _ (K "guardContent" "converse_guard_content")) as [-> ->].
  destruct (S _ (K "document" "converse_document")) as [-> ->].
  destruct (S _ (K "video" "converse_video")) as [-> ->].
  destruct (S _ (silent_citations (unwrap_or (pointer b [Key "citationsContent"; Key "citations"] ≫= as_array) [])))
    as [-> ->].
  rewrite !str_app_nil_r. unfold reasoning_events. rewrite !says_text_app, !says_reasoning_app.
  destruct (S (push_opt ReasoningSignature (nonempty (pointer_str b
     [Key "reasoningContent"; Key "reasoningText"; Key "signature"])))) as [-> ->]; [by apply silent_push|].
  destruct (S (push_opt (fun blob => Protocol "converse_redacted_content" (JStr blob)) (nonempty (pointer_str b
     [Key "reasoningContent"; Key "redactedContent"])))) as [-> ->]; [by apply silent_push|].
  rewrite !str_app_nil_r. unfold block_reasoning.
  split.
  - destruct (block_text b) as [|a t]; cbn [is_empty negb];
      destruct (nonempty (pointer_str b _)); cbn; by rewrite ?str_app_nil_r.
  - destruct (is_empty (block_text b)); cbn [negb]; destruct (nonempty (pointer_str b _)); cbn;
      by rewrite ?str_app_nil_r.
Qed.

Lemma decode_blocks_say blocks i :
  text_of (decode_blocks blocks i) = measure block_text blocks
  /\ reasoning_of (decode_blocks blocks i) = measure block_reasoning blocks.
Proof.
  revert i. induction blocks as [|b blocks IH]; intros i; [done|]. cbn [decode_blocks].
  rewrite !measure_cons, says_text_app, says_reasoning_app. destruct (block_events_say b) as [-> ->].
  destruct (opt_filter converse_tool_visible (get b "toolUse")) as [tool|].
  - rewrite says_text_app, says_reasoning_app. by destruct (IH (u32_saturating_add i 1)) as [-> ->].
  - by destruct (IH i) as [-> ->].
Qed.

Lemma tool_blocks_silent ts :
  measure block_text (tool_blocks ts) = "" /\ measure block_reasoning (tool_blocks ts) = "".
Proof.
  unfold tool_blocks. induction (List.filter _ (all_tools ts)) as [|it l [IH1 IH2]]; [done|].
  cbn [map]. rewrite !measure_cons, IH1, IH2. by split.
Qed.

Lemma body_measures s :
  body_ok s ->
  measure block_text (body_content s) = body_text s /\ measure block_reasoning (body_content s) = bs_reasoning s.
Proof.
  intros Hs. assert (Q : Forall quiet_block (body_prefix s ++ bs_content s)).
  { apply Forall_app. split; [apply prefix_quiet|by apply content_quiet]. }
  split.
  - destruct (body_content_measure block_text (bs_citations s)) with (s := s) as (rest & -> & ->);
      [intros; by apply citations_text|done|intros t; right; apply block_text_text|done|].
    rewrite prefix_text, str_app_nil, block_text_text. unfold body_text. by destruct (bs_text s).
  - destruct (body_content_measure block_reasoning (bs_citations s)) with (s := s) as (rest & -> & ->);
      [intros; by apply citations_reasoning|done|intros t; by left|done|].
    rewrite prefix_reasoning, content_reasoning by done. destruct (is_empty (bs_text s)); cbn; apply str_app_nil_r.
Qed.

(** Whatever is said in a Converse body is there when the body is read back:
    the text and the reasoning of the events, however they interleave with
    tool calls, media and citations, with a finish reason behind them. *)
Theorem converse_body_says evs body :
  encode_complete evs = Ok body ->
  exists out, decode_complete body = Ok out
    /\ text_of out = text_of evs /\ reasoning_of out = reasoning_of evs
    /\ exists reason, In (FinishReason (finish_reason reason) None) out.
Proof.
  unfold encode_complete. destruct (body_events body_new evs) as [s|e] eqn:E; [|done]. cbn [rbind]. intros [= <-].
  destruct (body_events_ok _ _ _ body_ok_new E) as (Hs & T & R & _).
  destruct (body_get s "output" Hs eq_refl) as (stop0 & Go & _).
  destruct (body_get s "stopReason" Hs eq_refl) as (stop & Gs & r & Hr). revert Go Gs. eqb_literals. intros Go Gs.
  assert (Hg : get_str (body_json s) "stopReason" = Some stop) by (unfold get_str; by rewrite Gs).
  unfold decode_complete, complete_exception_detail, converse_has_completion. rewrite Hg. cbn [is_some_and].
  subst stop. rewrite (proj1 (body_stop_visible r)). cbn [negb]. cbn iota.
  eexists. split; [reflexivity|]. rewrite pointer_key, Go. cbn [mbind option_bind]. rewrite pointer_key. read_json.
  cbn [mbind option_bind]. rewrite pointer_key. read_json. cbn [mbind option_bind]. rewrite pointer_nil.
  cbn [mbind option_bind as_array unwrap_or push_opt]. rewrite says_text_app, says_reasoning_app.
  destruct (decode_blocks_say (body_content s ++ tool_blocks (bs_tools s)) 0) as [-> ->].
  rewrite !measure_app. destruct (tool_blocks_silent (bs_tools s)) as [-> ->].
  destruct (body_measures s Hs) as [-> ->]. rewrite !str_app_nil_r, T, R.
  set (rest := [FinishReason _ _] ++ _).
  assert (Silent : Forall silent rest).
  { unfold rest. rewrite !Forall_app. split; [by repeat constructor|]. split; [by apply silent_push|].
    split; [by apply silent_push|]. split; [|by repeat constructor].
    unfold extra_events. apply Forall_forall. intros ev Hin. apply list_elem_of_In, in_flat_map in Hin as (key & _ & Hin).
    destruct (opt_filter _ _); [|done]. by destruct Hin as [<-|[]]. }
  destruct (silent_events rest Silent) as [-> ->]. rewrite !str_app_nil_r.
  split; [done|]. split; [done|]. exists r. apply in_or_app. right. by left.
Qed.
End Bodies.

(** ** Witnesses *)
Section Witnesses.
#[local] Existing Instance bits_codec.
#[local] Existing Instance bits_codec_laws.

Lemma converse_encode_decode_witness :
  exists data, encode (fun _ => "") (ImageDelta "image/jpeg" "aGk=") = Ok data
    /\ decode data = Ok (Some (ImageDelta "image/jpeg" "aGk=")).
Proof. apply converse_encode_decode. split; [|reflexivity]. exists "jpeg". by vm_compute. Defined.

Lemma converse_index_capped_witness : 0 <= 5 <= MAX_CONTENT_BLOCK_INDEX.
Proof.
  apply (converse_index_capped
    (jobj [("contentBlockDelta", jobj [("contentBlockIndex", jint 5);
             ("delta", jobj [("toolUse", jobj [("input", JStr "{}")])])])]) (ToolCallArgDelta "{}" 5));
    vm_compute; reflexivity.
Defined.

Lemma converse_counts_wrap_witness :
  u32_field (jobj [("inputTokens", jint 4294967301)]) "inputTokens" = None
  /\ exists c cr cw, usage_from_converse (jobj [("inputTokens", jint 4294967301)])
       = Usage (4294967301 mod 2 ^ 32) c cr cw 0 0 0 None.
Proof. apply (converse_counts_wrap _ 4294967301); by vm_compute. Defined.

(** Two calls that interleave, one of them taken over by a second id. *)
Definition sample_calls : list IrStreamEvent :=
  [TextDelta "let me "; ToolCallStart "a" "f" None 0; ToolCallStart "b" "g" None 1;
   ToolCallArgDelta "{" 0; ToolCallArgDelta "[1" 1; TextDelta "see"; ToolCallArgDelta "}" 0;
   AnnotationAdded (jobj [("type", JStr "url_citation"); ("url", JStr "u")]);
   ToolCallStart "c" "h" None 0; ToolCallArgDelta "{}" 0; ReasoningDelta "hm"; ToolCallArgDelta "]" 1;
   FinishReason "tool_calls" None].

Definition sample_state : body_state :=
  match body_events body_new sample_calls with Ok s => s | Err _ => body_new end.

Lemma converse_arguments_conserved_witness : tool_text 0 (bs_tools sample_state) = "{}{}".
Proof. apply (converse_arguments_conserved sample_calls sample_state 0). vm_compute. reflexivity. Defined.

Lemma converse_body_says_witness :
  exists out, decode_complete (body_json sample_state) = Ok out
    /\ text_of out = "let me see" /\ reasoning_of out = "hm"
    /\ exists reason, In (FinishReason (finish_reason reason) None) out.
Proof. apply (converse_body_says sample_calls (body_json sample_state)). vm_compute. reflexivity. Defined.
End Witnesses.
