(* ===== verification/Responses.v ===== *)
(** * Responses: OpenAI Responses stream events

    crates/wiremux/src/stream/responses.rs: the decoder of one named frame
    into one event ([decode]) or into every event it carries ([decode_all],
    [decode_terminal_events]), the side fields of tool items, and the encoder.
    The failure texts of the file are in [Completion]. *)

From S2P Require Import Prelude Text Json JsonCodec Sse Ir ProfileTypes StreamCore Usage Completion Shapes Chat.

(** [str_field(v, key).filter(|s| !s.is_empty())] *)
Definition nonempty_key (value : json) (key : string) : option string := nonempty (str_field value key).

(** ** Errors in front of a frame *)
Definition responses_frame_has_visible_body (value : json) : bool := responses_has_visible_output value.

Definition reject_bare_responses_error (value : json) : result MapError unit :=
  if responses_frame_has_visible_body value then Ok tt
  else
    match json_string_error value with
    | Some text => Err (Invalid text)
    | None =>
        match object_field value "error" ≫= error_object_detail with
        | Some detail => Err (Invalid detail)
        | None =>
            match failure_detail value with
            | Some detail => Err (Invalid detail)
            | None => Ok tt
            end
        end
    end.

Definition check_responses_indexes (value : json) : result MapError unit :=
  let* _ := check_index value "output_index" MAX_TOOL_CALL_INDEX "output" in
  let* _ := check_index value "content_index" MAX_TOOL_CALL_INDEX "content" in
  Ok tt.

Definition output_index (value : json) : Z := unwrap_or (get_u64 value "output_index" ≫= u32_try_from) 0.

Definition item_type (value : json) : option string := item ← get value "item"; get_str item "type".

(** [value.get("item").unwrap_or(value)] *)
Definition item_of (value : json) : json := unwrap_or (get value "item") value.

(** ** Content parts *)
Definition image_delta_from_output_image (part : json) : option IrStreamEvent :=
  if negb (bool_decide (get_str part "type" = Some "output_image")) then None
  else
    url ← get_str part "image_url";
    rest ← strip_prefix "data:" url;
    '(media_type, data) ← split_once_str ";base64," rest;
    if is_empty data || negb (starts_with "image/" (to_ascii_lowercase media_type)) then None
    else Some (ImageDelta media_type data).

Definition has_type (part : json) (names : list string) : bool :=
  is_some_and (get_str part "type") (fun ty => one_of ty names).

Definition audio_events_from_output_part (part : json) : list IrStreamEvent :=
  if negb (has_type part ["output_audio"; "audio"]) then []
  else push_opt AudioDelta (nonempty_key part "data")
       ++ push_opt AudioTranscriptDelta (nonempty_key part "transcript").

Definition part_events (part : json) : list IrStreamEvent :=
  (if has_type part ["output_text"; "text"] then push_opt TextDelta (nonempty_key part "text") else [])
  ++ (if has_type part ["refusal"]
      then push_opt RefusalDelta (nonempty (opt_or (str_field part "refusal") (str_field part "text")))
      else [])
  ++ (match image_delta_from_output_image part with
      | Some ev => [ev]
      | None => if has_type part ["output_image"] then [Protocol "output_image" part] else []
      end)
  ++ audio_events_from_output_part part.

Definition content_part_events (value : json) : list IrStreamEvent := part_events (unwrap_or (get value "part") value).

Definition kept_agent (item : json) : option json :=
  opt_filter (fun agent => is_some (nonempty (get_str agent "agent_name"))) (get item "agent").

Definition message_item_identity_events (item : json) : list IrStreamEvent :=
  push_opt (fun id => Protocol "responses_message_id" (JStr id)) (nonempty_key item "id")
  ++ push_opt (fun status => Protocol "responses_message_status" (JStr status)) (nonempty_key item "status")
  ++ push_opt (fun phase => Protocol "responses_message_phase" (JStr phase)) (nonempty_key item "phase")
  ++ push_opt (Protocol "responses_message_agent") (kept_agent item).

Definition message_content_events (item : json) : list IrStreamEvent :=
  message_item_identity_events item
  ++ match get_array item "content" with
     | Some content => flat_map part_events content
     | None => []
     end.

(** ** Reasoning and replayed items *)
Definition kept_reasoning_parts (item : json) : list json :=
  List.filter (fun part => bool_decide (get_str part "type" = Some "reasoning_text")
                           && is_some (nonempty_key part "text"))
    (unwrap_or (get_array item "content") []).

Definition reasoning_item_identity_events (item : json) : list IrStreamEvent :=
  if negb (bool_decide (get_str item "type" = Some "reasoning")) then []
  else
    push_opt (fun id => Protocol "responses_reasoning_id" (JStr id)) (nonempty_key item "id")
    ++ push_opt (fun status => Protocol "responses_reasoning_status" (JStr status)) (nonempty_key item "status")
    ++ match kept_reasoning_parts item with
       | [] => []
       | kept => [Protocol "responses_reasoning_content" (JArr kept)]
       end.

Definition replay_output_item (item : json) : list IrStreamEvent :=
  let ty := unwrap_or (get_str item "type") "" in
  let encrypted := is_some (nonempty (get_str item "encrypted_content")) in
  let decomposed := one_of ty ["message"; "function_call"; "custom_tool_call"; "reasoning"; "output_audio"] in
  if encrypted || (negb (is_empty ty) && negb decomposed) then
    [Protocol (if is_empty ty then "reasoning" else ty) item]
  else [].

(** The replayed item, or the identity of a reasoning item. *)
Definition terminal_item_events (item : json) : list IrStreamEvent :=
  match replay_output_item item with
  | [] => reasoning_item_identity_events item
  | replay => replay
  end.

Definition is_reasoning_content (ev : IrStreamEvent) : bool :=
  match ev with Protocol item_type _ => String.eqb item_type "responses_reasoning_content" | _ => false end.

Definition responses_terminal_keeps_output (value : json) : bool :=
  match opt_or (get_array value "output") (pointer value [Key "response"; Key "output"] ≫= as_array) with
  | None => false
  | Some items =>
      existsb (fun item => negb (bool_decide (replay_output_item item = []))
                           || existsb is_reasoning_content (reasoning_item_identity_events item)) items
  end.

Definition decode_reasoning_item (name : string) (value : json) : IrStreamEvent :=
  let item := item_of value in
  match nonempty_key item "signature" with
  | Some signature => ReasoningSignature signature
  | None =>
      match nonempty_key item "text" with
      | Some text => ReasoningDelta text
      | None => protocol name value
      end
  end.

(** ** Side fields of a tool item *)
Definition tool_item_id_event (item : json) (index : Z) : option IrStreamEvent :=
  item_id ← nonempty_key item "id";
  call_id ← nonempty_key item "call_id";
  if String.eqb item_id call_id then None
  else Some (Protocol "responses_tool_item_id" (jobj [("index", jint index); ("id", JStr item_id)])).

Definition typed_caller (o : option json) : option json :=
  opt_filter (fun caller => is_some (nonempty (get_str caller "type"))) o.

Definition tool_item_caller_event (item : json) (index : Z) : option IrStreamEvent :=
  caller ← typed_caller (get item "caller");
  Some (Protocol "responses_tool_caller" (jobj [("index", jint index); ("caller", caller)])).

Definition tool_item_created_by_event (item : json) (index : Z) : option IrStreamEvent :=
  created_by ← nonempty_key item "created_by";
  Some (Protocol "responses_tool_created_by" (jobj [("index", jint index); ("created_by", JStr created_by)])).

Definition tool_item_namespace_event (item : json) (index : Z) : option IrStreamEvent :=
  namespace ← nonempty_key item "namespace";
  Some (Protocol "responses_tool_namespace" (jobj [("index", jint index); ("namespace", JStr namespace)])).

Definition tool_item_status_event (item : json) (index : Z) : option IrStreamEvent :=
  status ← nonempty_key item "status";
  Some (Protocol "responses_tool_status" (jobj [("index", jint index); ("status", JStr status)])).

(** The five in the order the items push them. *)
Definition tool_item_events (item : json) (index : Z) : list IrStreamEvent :=
  push_opt (fun ev => ev) (tool_item_id_event item index)
  ++ push_opt (fun ev => ev) (tool_item_caller_event item index)
  ++ push_opt (fun ev => ev) (tool_item_created_by_event item index)
  ++ push_opt (fun ev => ev) (tool_item_namespace_event item index)
  ++ push_opt (fun ev => ev) (tool_item_status_event item index).

Record ResponsesToolExtra := mkExtra {
  ex_status : option string;
  ex_namespace : option string;
  ex_created_by : option string;
  ex_caller : option json;
  ex_item_id : option string
}.

Definition extra_default : ResponsesToolExtra := mkExtra None None None None None.

#[export] Instance tool_extra_eq_dec : EqDecision ResponsesToolExtra.
Proof. solve_decision. Defined.

Definition extra_is_empty (e : ResponsesToolExtra) : bool :=
  is_none (ex_status e) && is_none (ex_namespace e) && is_none (ex_created_by e)
  && is_none (ex_caller e) && is_none (ex_item_id e).

(** A field that [other] sets is taken from it. *)
Definition extra_merge (e other : ResponsesToolExtra) : ResponsesToolExtra :=
  mkExtra (opt_or (ex_status other) (ex_status e)) (opt_or (ex_namespace other) (ex_namespace e))
    (opt_or (ex_created_by other) (ex_created_by e)) (opt_or (ex_caller other) (ex_caller e))
    (opt_or (ex_item_id other) (ex_item_id e)).

Definition write_item (e : ResponsesToolExtra) (item : json) : json :=
  let item := set_opt "id" (JStr <$> nonempty (ex_item_id e)) item in
  let item := set_opt "status" (JStr <$> nonempty (ex_status e)) item in
  let item := set_opt "namespace" (JStr <$> nonempty (ex_namespace e)) item in
  let item := set_opt "created_by" (JStr <$> nonempty (ex_created_by e)) item in
  set_opt "caller" (ex_caller e) item.

Definition nonempty_payload_str (payload : json) (key : string) : option string := nonempty (get_str payload key).

Definition tool_extra_from_protocol (item_type : string) (payload : json) : option (Z * ResponsesToolExtra) :=
  index ← get_u64 payload "index" ≫= u32_try_from;
  extra ←
    (if String.eqb item_type "responses_tool_status" then
       Some (mkExtra (nonempty_payload_str payload "status") None None None None)
     else if String.eqb item_type "responses_tool_namespace" then
       Some (mkExtra None (nonempty_payload_str payload "namespace") None None None)
     else if String.eqb item_type "responses_tool_created_by" then
       Some (mkExtra None None (nonempty_payload_str payload "created_by") None None)
     else if String.eqb item_type "responses_tool_item_id" then
       Some (mkExtra None None None None (nonempty_payload_str payload "id"))
     else if String.eqb item_type "responses_tool_caller" then
       Some (mkExtra None None None (typed_caller (get payload "caller")) None)
     else None);
  if extra_is_empty extra then None else Some (index, extra).

(** ** Response-level fields and terminal frames *)
Definition response_id (value : json) (key : string) : option string :=
  not_blank (opt_or (pointer value [Key "response"; Key key]) (get value key) ≫= as_str).

Definition response_slot_events (value : json) : list IrStreamEvent :=
  push_opt (fun id => Protocol "responses_id" (JStr id)) (response_id value "id")
  ++ push_opt (fun prev => Protocol "responses_previous_id" (JStr prev)) (response_id value "previous_response_id")
  ++ push_opt (fun ev => ev) (created_event value)
  ++ push_opt (fun ev => ev) (service_tier_event value)
  ++ push_opt (fun ev => ev) (metadata_event value)
  ++ push_opt (fun ev => ev) (moderation_event value).

Definition logprobs_array (value : json) : option json :=
  JArr <$> opt_filter (fun a => negb (bool_decide (a = []))) (get_array value "logprobs").

Definition incomplete_details_reason (ir_reason : string) : option string :=
  if String.eqb ir_reason "content_filter" then Some "content_filter"
  else if one_of ir_reason ["length"; "max_tokens"] then Some "max_output_tokens"
  else None.

Definition decode_incomplete_reason (value : json) (fallback : string) : string :=
  match pointer_str value [Key "response"; Key "incomplete_details"; Key "reason"] with
  | Some r =>
      if String.eqb r "content_filter" then "content_filter"
      else if String.eqb r "max_output_tokens" then "length"
      else fallback
  | None => fallback
  end.

Definition terminal_finish_reason (name : string) (value : json) : option string :=
  match pointer_str value [Key "response"; Key "status"] with
  | Some status =>
      if String.eqb status "completed" then Some "stop"
      else if String.eqb status "incomplete" then Some (decode_incomplete_reason value "length")
      else if String.eqb status "failed" then Some "failed"
      else if negb (is_empty status) then Some status
      else None
  | None =>
      if String.eqb name "response.incomplete" then Some (decode_incomplete_reason value "incomplete")
      else if String.eqb name "response.completed"
              && is_some_and (pointer value [Key "response"; Key "usage"]) is_object then Some "stop"
      else None
  end.

Definition terminal_events (name : string) (value : json) : list IrStreamEvent :=
  flat_map terminal_item_events (unwrap_or (pointer value [Key "response"; Key "output"] ≫= as_array) [])
  ++ push_opt (fun reason => FinishReason reason None) (terminal_finish_reason name value)
  ++ push_opt from_responses (opt_filter is_object (pointer value [Key "response"; Key "usage"])).

Definition decode_terminal_events (name : string) (value : json) : option (list IrStreamEvent) :=
  if negb (one_of name ["response.completed"; "response.incomplete"; "response.failed"]) then None
  else
    let slots := response_slot_events value in
    let had_slots := negb (bool_decide (slots = [])) in
    let out := terminal_events name value ++ slots in
    if (2 <=? vlen out) || had_slots then Some out else None.

(** ** Decoding *)
Section Serializer.
Context {SJ : SerdeJson}.

Definition nonempty_delta (value : json) (wrap : string -> IrStreamEvent) : result MapError (option IrStreamEvent) :=
  Ok (wrap <$> nonempty_key value "delta").

Definition singular_limit (what : string) : MapError :=
  Invalid ("decode_stream_event cannot represent " +:+ what +:+ "; use decode_stream_events").

(** The first of at most one event. *)
Definition at_most_one (what : string) (events : list IrStreamEvent) : result MapError (option IrStreamEvent) :=
  if 1 <? vlen events then Err (singular_limit what) else Ok (head events).

Definition call_id_of (item : json) : string :=
  unwrap_or (opt_or (str_field item "call_id") (str_field item "id")) "".

(** Arguments that are an object or an array need a second event. *)
Definition structured (o : option json) : bool := is_some_and o (fun v => is_object v || is_array v).

Definition decode_call_item (value : json) (custom : bool) : result MapError (option IrStreamEvent) :=
  let item := item_of value in
  let key := if custom then "input" else "arguments" in
  if structured (get item key) then Err singular_tool_limit
  else
    let* _ := json_text_field item key in
    let name := unwrap_or (str_field item "name") "" in
    Ok (Some (if custom then CustomToolCallStart (call_id_of item) name (output_index value)
              else ToolCallStart (call_id_of item) name None (output_index value))).

(** A replayed item, or the frame itself. *)
Definition decode_replayed (name : string) (value : json) : result MapError (option IrStreamEvent) :=
  let* first := at_most_one "every event in this Responses item" (replay_output_item (item_of value)) in
  Ok (Some (unwrap_or first (protocol name value))).

Definition decode_message_item (name : string) (value : json) : result MapError (option IrStreamEvent) :=
  let item := item_of value in
  let part_count := match get_array item "content" with Some c => vlen c | None => 0 end in
  let events := message_content_events item in
  if (1 <? part_count) || (1 <? vlen events)
  then Err (singular_limit "every event in this Responses message")
  else Ok (Some (unwrap_or (head events) (protocol name value))).

Definition decode_item_added (name : string) (value : json) : result MapError (option IrStreamEvent) :=
  match item_type value with
  | Some ty =>
      if String.eqb ty "function_call" then decode_call_item value false
      else if String.eqb ty "custom_tool_call" then decode_call_item value true
      else if String.eqb ty "reasoning" then Ok (Some (decode_reasoning_item name value))
      else if String.eqb ty "message" then decode_message_item name value
      else decode_replayed name value
  | None => decode_replayed name value
  end.

Definition decode_item_done (name : string) (value : json) : result MapError (option IrStreamEvent) :=
  if is_some_and (item_type value) (fun ty => one_of ty ["function_call"; "custom_tool_call"])
  then Ok (Some ToolCallEnd)
  else decode_replayed name value.

Definition decode_completed (value : json) : result MapError (option IrStreamEvent) :=
  let* _ := reject_bare_responses_error value in
  if is_some_and (pointer_str value [Key "response"; Key "status"]) (fun s => one_of s ["cancelled"; "canceled"])
  then Ok (Some (FinishReason "cancelled" None))
  else
    match pointer value [Key "response"; Key "usage"] with
    | Some usage => Ok (Some (from_responses usage))
    | None => Ok (Some Done)
    end.

Definition decode_failed (value : json) : result MapError (option IrStreamEvent) :=
  let* _ := reject_bare_responses_error value in
  match (if responses_frame_has_visible_body value && negb (responses_terminal_keeps_output value)
         then failure_detail value else None) with
  | Some detail => Err (Invalid detail)
  | None => Ok (Some (FinishReason "failed" None))
  end.

Definition decode_vendor_error (value : json) : MapError :=
  Invalid (unwrap_or (code_message (nonempty_key value "code") (nonempty_key value "message")) "vendor error").

(** Frames that bracket a part or repeat text a delta already delivered. *)
Definition bracket_frames : list string :=
  ["response.output_text.done"; "response.content_part.done"; "response.function_call_arguments.done";
   "response.refusal.done"; "response.audio.done"; "response.audio.transcript.done";
   "response.reasoning_summary_part.added"; "response.reasoning_summary_part.done";
   "response.reasoning_summary_text.done"; "response.reasoning_text.done";
   "response.custom_tool_call_input.done"].

Definition delta_or_empty (value : json) : string := unwrap_or (str_field value "delta") "".

Definition decode_frame (name : string) (value : json) : result MapError (option IrStreamEvent) :=
  if String.eqb name "response.output_text.delta" then
    match nonempty_key value "delta" with
    | Some text => Ok (Some (TextDelta text))
    | None => Ok ((fun content => Logprobs content None) <$> logprobs_array value)
    end
  else if one_of name ["response.reasoning_summary_text.delta"; "response.reasoning.delta";
                       "response.reasoning_text.delta"] then nonempty_delta value ReasoningDelta
  else if String.eqb name "response.refusal.delta" then nonempty_delta value RefusalDelta
  else if String.eqb name "response.function_call_arguments.delta" then
    Ok (Some (ToolCallArgDelta (delta_or_empty value) (output_index value)))
  else if String.eqb name "response.output_text.annotation.added" then
    match object_field value "annotation" with
    | Some annotation => Ok (Some (AnnotationAdded annotation))
    | None => Ok (Some (protocol name value))
    end
  else if String.eqb name "response.audio.delta" then nonempty_delta value AudioDelta
  else if String.eqb name "response.audio.transcript.delta" then nonempty_delta value AudioTranscriptDelta
  else if String.eqb name "response.custom_tool_call_input.delta" then
    Ok (Some (CustomToolCallInputDelta (delta_or_empty value) (output_index value)))
  else if String.eqb name "response.content_part.added" then
    at_most_one "a Responses content part with more than one event" (content_part_events value)
  else if String.eqb name "response.output_item.added" then decode_item_added name value
  else if String.eqb name "response.output_item.done" then decode_item_done name value
  else if String.eqb name "response.completed" then decode_completed value
  else if String.eqb name "response.failed" then decode_failed value
  else if String.eqb name "response.incomplete" then
    let* _ := reject_bare_responses_error value in
    Ok (Some (FinishReason (decode_incomplete_reason value "incomplete") None))
  else if one_of name bracket_frames then
    let* _ := reject_bare_responses_error value in Ok None
  else if String.eqb name "error" then Err (decode_vendor_error value)
  else
    let* _ := reject_bare_responses_error value in Ok (Some (protocol name value)).

Definition decode (name : string) (value : json) : result MapError (option IrStreamEvent) :=
  let* _ := check_responses_indexes value in decode_frame name value.

Definition added_call_events (item : json) (index : Z) (custom : bool) : result MapError (list IrStreamEvent) :=
  let name := unwrap_or (str_field item "name") "" in
  let* delta := json_text_field item (if custom then "input" else "arguments") in
  Ok (tool_item_events item index
      ++ (if custom then CustomToolCallStart (call_id_of item) name index
          else ToolCallStart (call_id_of item) name None index)
      :: push_opt (fun d => if custom then CustomToolCallInputDelta d index else ToolCallArgDelta d index) delta).

Definition added_reasoning_events (item : json) : list IrStreamEvent :=
  match nonempty_key item "signature" with
  | Some signature => [ReasoningSignature signature]
  | None => push_opt ReasoningDelta (nonempty_key item "text")
  end ++ terminal_item_events item.

Definition added_item_events (value : json) : result MapError (list IrStreamEvent) :=
  let item := item_of value in
  let index := output_index value in
  match item_type value with
  | Some ty =>
      if String.eqb ty "function_call" then added_call_events item index false
      else if String.eqb ty "custom_tool_call" then added_call_events item index true
      else if String.eqb ty "message" then Ok (message_content_events item)
      else if String.eqb ty "reasoning" then Ok (added_reasoning_events item)
      else Ok (replay_output_item item)
  | None => Ok (replay_output_item item)
  end.

Definition decode_all (name : string) (value : json) : result MapError (list IrStreamEvent) :=
  let* _ := check_responses_indexes value in
  if String.eqb name "response.created" then Ok (response_slot_events value)
  else if String.eqb name "response.output_item.added" then added_item_events value
  else if String.eqb name "response.content_part.added" then Ok (content_part_events value)
  else if negb (String.eqb name "response.output_text.delta") then Ok []
  else Ok (push_opt TextDelta (nonempty_key value "delta")
           ++ push_opt (fun content => Logprobs content None) (logprobs_array value)).

(** ** Encoding *)
Definition annotation_without_segment_text (annotation : json) : json :=
  match annotation with JObj m => JObj (obj_remove "segment_text" m) | other => other end.

(** [(event, { "type": event, ... })] *)
Definition frame (event : string) (fields : list (string * json)) : string * json :=
  (event, jobj (("type", JStr event) :: fields)).

Definition delta_frame (event : string) (index : Z) (delta : string) : string * json :=
  frame event [("output_index", jint index); ("delta", JStr delta)].

Definition item_frame (index : Z) (item : list (string * json)) : string * json :=
  frame "response.output_item.added" [("output_index", jint index); ("item", jobj item)].

Definition created_frame (fields : list (string * json)) : string * json :=
  frame "response.created" [("response", jobj (fields ++ [("status", JStr "in_progress")]))].

Definition call_item (ty id name body : string) : list (string * json) :=
  [("type", JStr ty); ("id", JStr id); ("call_id", JStr id); ("name", JStr name); (body, JStr "")].

(** The frame name and the status of a finish reason. *)
Definition finish_frame (reason : string) : string * string :=
  if String.eqb reason "failed" then ("response.failed", "failed")
  else if one_of reason ["incomplete"; "length"; "max_tokens"; "content_filter"]
  then ("response.incomplete", "incomplete")
  else if String.eqb reason "stop" then ("response.completed", "completed")
  else ("response.completed", reason).

Definition encode_event (ev : IrStreamEvent) : result MapError (string * json) :=
  match ev with
  | TextDelta text => Ok (delta_frame "response.output_text.delta" 0 text)
  | Logprobs content refusal =>
      let merged := merged_logprob_items content refusal in
      let '(event, data) := delta_frame "response.output_text.delta" 0 "" in
      Ok (event, if negb (bool_decide (merged = [])) then index_set data "logprobs" (JArr merged) else data)
  | RefusalDelta text => Ok (delta_frame "response.refusal.delta" 0 text)
  | ReasoningDelta text => Ok (item_frame 0 [("type", JStr "reasoning"); ("text", JStr text)])
  | ReasoningSignature signature => Ok (item_frame 0 [("type", JStr "reasoning"); ("signature", JStr signature)])
  | ToolCallStart id name _ index => Ok (item_frame index (call_item "function_call" id name "arguments"))
  | AnnotationAdded annotation =>
      Ok (frame "response.output_text.annotation.added"
            [("output_index", jint 0); ("content_index", jint 0); ("annotation_index", jint 0);
             ("annotation", annotation_without_segment_text annotation)])
  | AudioDelta data => Ok (frame "response.audio.delta" [("delta", JStr data)])
  | ImageDelta media_type data =>
      Ok (item_frame 0 [("type", JStr "message"); ("role", JStr "assistant");
            ("content", JArr [jobj [("type", JStr "output_image");
                                    ("image_url", JStr ("data:" +:+ media_type +:+ ";base64," +:+ data))]])])
  | AudioTranscriptDelta text => Ok (frame "response.audio.transcript.delta" [("delta", JStr text)])
  | CustomToolCallStart id name index => Ok (item_frame index (call_item "custom_tool_call" id name "input"))
  | CustomToolCallInputDelta delta index => Ok (delta_frame "response.custom_tool_call_input.delta" index delta)
  | ToolCallArgDelta delta index => Ok (delta_frame "response.function_call_arguments.delta" index delta)
  | ToolCallEnd =>
      Ok (frame "response.output_item.done"
            [("output_index", jint 0); ("item", jobj [("type", JStr "function_call")])])
  | Usage p c cr cw r _ _ _ => Ok ("response.completed", encode_responses p c cr cw r)
  | FinishReason reason _ =>
      let '(event, status) := finish_frame reason in
      let response := jobj [("status", JStr status)] in
      let response := match incomplete_details_reason reason with
                      | Some detail => index_set response "incomplete_details" (jobj [("reason", JStr detail)])
                      | None => response
                      end in
      Ok (frame event [("response", response)])
  | Created unix => Ok (created_frame [("created_at", jint unix)])
  | ServiceTier tier => Ok (created_frame [("service_tier", JStr tier)])
  | Metadata metadata => Ok (created_frame [("metadata", metadata_json metadata)])
  | Moderation input output =>
      let response := jobj [("status", JStr "completed")] in
      let response := set_opt "moderation" (responses_moderation_value input output) response in
      Ok (frame "response.completed" [("response", response)])
  | Done => Ok (frame "response.completed" [("response", jobj [("status", JStr "completed")])])
  | Diagnostics _ | Container _ | ContextManagement _ | StopSequence _ | SearchEntryPoint _ =>
      Ok (created_frame [])
  | Protocol _ _ | UnknownEvent _ _ => Err (Invalid "protocol/unknown events are encoded at the stream root")
  end.

Definition encode (ev : IrStreamEvent) : result MapError RawSse :=
  let* e := encode_event ev in Ok (mkRawSse (Some e.1) (to_string e.2)).
End Serializer.

(** ** A frame gives back what was written *)
Section Properties.
Context {SJ : SerdeJson}.

Lemma obj_remove_absent k m : obj_get k m = None -> obj_remove k m = m.
Proof.
  induction m as [|[k' v] m IH]; [done|]. cbn [obj_get obj_remove]. destruct (String.eqb k k'); [done|].
  intros H. by rewrite IH.
Qed.

(** The events a Responses frame carries whole. *)
Definition responses_stable (ev : IrStreamEvent) : Prop :=
  match ev with
  | TextDelta t | RefusalDelta t | ReasoningDelta t | ReasoningSignature t | AudioDelta t
  | AudioTranscriptDelta t => is_empty t = false
  | ToolCallStart _ _ sig index => sig = None /\ 0 <= index <= MAX_TOOL_CALL_INDEX
  | CustomToolCallStart _ _ index => 0 <= index <= MAX_TOOL_CALL_INDEX
  | ToolCallArgDelta _ index | CustomToolCallInputDelta _ index => 0 <= index <= MAX_TOOL_CALL_INDEX
  | ToolCallEnd | Done => True
  | AnnotationAdded annotation => exists m, annotation = JObj m /\ obj_get "segment_text" m = None
  | ImageDelta media_type data =>
      is_image media_type = true /\ is_empty data = false
      /\ split_once_str ";base64," (media_type +:+ ";base64," +:+ data) = Some (media_type, data)
  | Logprobs content refusal => exists items, items <> [] /\ content = JArr items /\ refusal = None
  | Usage p c cr cw r a ca geo =>
      Forall is_u32 [p; c; cr; cw; r] /\ p + cr <= u32_max /\ c + r <= u32_max /\ a = 0 /\ ca = 0 /\ geo = None
  | FinishReason reason vendor =>
      In reason ["failed"; "incomplete"; "length"; "content_filter"; "cancelled"] /\ vendor = None
  | _ => False
  end.

Lemma indexes_ok v index :
  get v "output_index" = Some (jint index) -> get v "content_index" = None -> 0 <= index <= MAX_TOOL_CALL_INDEX ->
  check_responses_indexes v = Ok tt /\ output_index v = index.
Proof.
  intros E1 E2 Hi. unfold MAX_TOOL_CALL_INDEX in Hi. unfold check_responses_indexes, check_index, output_index, get_u64.
  rewrite E1, E2. cbn [mbind option_bind]. rewrite as_u64_jint by int_lia.
  rewrite (proj2 (Z.ltb_ge _ _)) by (unfold MAX_TOOL_CALL_INDEX; lia). cbn [mbind option_bind].
  by rewrite u32_try_from_Some by int_lia.
Qed.

Lemma decode_indexed name v index :
  get v "output_index" = Some (jint index) -> get v "content_index" = None -> 0 <= index <= MAX_TOOL_CALL_INDEX ->
  decode name v = decode_frame name v /\ output_index v = index.
Proof.
  intros E1 E2 Hi. destruct (indexes_ok v index E1 E2 Hi) as [H1 H2]. split; [|done]. unfold decode. by rewrite H1.
Qed.

(** Decode a frame of literal shape with the facts about its texts. *)
Ltac frame_eval :=
  eexists; split; [reflexivity|]; lazy -[is_empty];
  repeat (match goal with H : is_empty _ = false |- _ => rewrite !H end; lazy -[is_empty]); try reflexivity.

(** A frame with a tool index, which is checked before the rest evaluates. *)
Ltac indexed_frame i Hi :=
  eexists; split; [reflexivity|]; cbn [fst snd item_frame delta_frame frame];
  match goal with |- decode ?name ?v = _ =>
    let H1 := fresh in let H2 := fresh in
    destruct (decode_indexed name v i eq_refl eq_refl Hi) as [H1 H2]; rewrite H1; clear H1; revert H2;
    lazy -[output_index]; generalize (output_index v); intros ? ->; try reflexivity
  end.

Lemma call_item_reads id name index (custom : bool) :
  0 <= index <= MAX_TOOL_CALL_INDEX ->
  let e := item_frame index (call_item (if custom then "custom_tool_call" else "function_call") id name
                               (if custom then "input" else "arguments")) in
  decode e.1 e.2 = Ok (Some (if custom then CustomToolCallStart id name index else ToolCallStart id name None index)).
Proof.
  intros Hi e. destruct (decode_indexed e.1 e.2 index) as [-> H2]; [by destruct custom|by destruct custom|done|].
  transitivity (Ok (E := MapError) (Some (if custom then CustomToolCallStart id name (output_index e.2)
                                          else ToolCallStart id name None (output_index e.2)))); [|by rewrite H2].
  by destruct custom.
Qed.

Lemma delta_reads name index delta (custom : bool) :
  0 <= index <= MAX_TOOL_CALL_INDEX ->
  name = (if custom then "response.custom_tool_call_input.delta" else "response.function_call_arguments.delta") ->
  decode name (delta_frame name index delta).2
  = Ok (Some (if custom then CustomToolCallInputDelta delta index else ToolCallArgDelta delta index)).
Proof.
  intros Hi Hn. set (v := (delta_frame name index delta).2).
  destruct (decode_indexed name v index) as [-> H2]; [done..|].
  transitivity (Ok (E := MapError) (Some (if custom then CustomToolCallInputDelta delta (output_index v)
                                          else ToolCallArgDelta delta (output_index v)))); [|by rewrite H2].
  subst v name. by destruct custom.
Qed.

Lemma responses_usage_reads p c cr cw r :
  Forall is_u32 [p; c; cr; cw; r] -> p + cr <= u32_max -> c + r <= u32_max ->
  decode "response.completed" (encode_responses p c cr cw r) = Ok (Some (Usage p c cr cw r 0 0 None)).
Proof.
  intros H Hp Hc. destruct (responses_usage_roundtrip p c cr cw r H) as (u & Hu & Hf).
  assert (Hf' : from_responses u = Usage p c cr cw r 0 0 None).
  { rewrite Hf. rewrite !Forall_cons in H. f_equal; int_lia. }
  rewrite <- Hf'. revert Hu. clear. unfold encode_responses.
  set (v := if positive r then _ else _). intros Hu. assert (v = u) as -> by (by injection Hu). clear.
  lazy -[from_responses]. done.
Qed.

Lemma responses_image_reads media_type data :
  is_image media_type = true -> is_empty data = false ->
  split_once_str ";base64," (media_type +:+ ";base64," +:+ data) = Some (media_type, data) ->
  exists e, encode_event (ImageDelta media_type data) = Ok e /\ decode e.1 e.2 = Ok (Some (ImageDelta media_type data)).
Proof.
  intros Hi Hd Hs. eexists. split; [reflexivity|].
  set (part := jobj [("type", JStr "output_image"); _]).
  assert (P : part_events part = [ImageDelta media_type data]).
  { assert (D : image_delta_from_output_image part = Some (ImageDelta media_type data)).
    { unfold image_delta_from_output_image, get_str, part. read_json. cbn [mbind option_bind as_str].
      rewrite bool_decide_true by done. cbn [negb]. rewrite strip_prefix_app. cbn [mbind option_bind].
      rewrite Hs. cbn [mbind option_bind]. unfold is_image in Hi. by rewrite Hd, Hi. }
    unfold part_events. rewrite D. done. }
  clearbody part. lazy -[part_events]. rewrite P. done.
Qed.

(** Every event a Responses frame can carry whole is read back from the frame
    the encoder writes for it, under the name it is written with. *)
Theorem responses_encode_decode ev :
  responses_stable ev ->
  exists name data, encode ev = Ok (mkRawSse (Some name) (to_string data)) /\ decode name data = Ok (Some ev).
Proof.
  intros H.
  enough (E : exists e, encode_event ev = Ok e /\ decode e.1 e.2 = Ok (Some ev)).
  { destruct E as ([name data] & E & D). exists name, data. unfold encode. by rewrite E. }
  destruct ev; cbn [responses_stable] in H; try done.
  1-4: frame_eval.
  - destruct H as [-> Hi]. eexists. split; [reflexivity|]. by apply (call_item_reads id name index false).
  - eexists. split; [reflexivity|]. by apply (delta_reads _ index delta false).
  - frame_eval.
  - destruct H as (m & -> & Hm). eexists. split; [reflexivity|]. cbn [annotation_without_segment_text].
    rewrite obj_remove_absent by done. by lazy.
  - frame_eval.
  - destruct H as (Hi & Hd & Hs). by apply responses_image_reads.
  - frame_eval.
  - eexists. split; [reflexivity|]. by apply (call_item_reads id name index true).
  - eexists. split; [reflexivity|]. by apply (delta_reads _ index delta true).
  - destruct H as ([|i items] & Hne & -> & ->); [done|]. frame_eval.
  - destruct H as (Hu & Hp & Hc & -> & -> & ->). eexists. split; [reflexivity|]. by apply responses_usage_reads.
  - destruct H as [Hr ->]. cbn in Hr. destruct_or!; subst; try done; frame_eval.
  - frame_eval.
Qed.

(** ** Bounds *)
Lemma output_index_range value : check_responses_indexes value = Ok tt -> 0 <= output_index value <= MAX_TOOL_CALL_INDEX.
Proof.
  unfold check_responses_indexes. intros H.
  assert (C : check_index value "output_index" MAX_TOOL_CALL_INDEX "output" = Ok tt).
  { destruct (check_index value "output_index" _ _) as [[]|e]; [done|]. discriminate. }
  clear H. revert C. unfold check_index, output_index, get_u64.
  destruct (get value "output_index") as [raw|]; [|by cbn; unfold MAX_TOOL_CALL_INDEX; lia]. cbn [mbind option_bind].
  destruct (as_u64 raw) as [n|] eqn:E; [|done]. destruct (Z.ltb_spec MAX_TOOL_CALL_INDEX n); [done|]. intros _.
  assert (0 <= n).
  { unfold as_u64 in E. destruct raw as [| |[z|]| | |]; try done. case_match eqn:Ez; [|done].
    injection E as ->. apply andb_true_iff in Ez as [Ez _]. by apply Z.leb_le. }
  cbn [mbind option_bind]. unfold MAX_TOOL_CALL_INDEX in *. rewrite u32_try_from_Some by int_lia. cbn. lia.
Qed.

(** The events of a frame carry no index but the frame's. *)
Definition on_index (index : Z) (evs : list IrStreamEvent) : Prop :=
  Forall (fun ev => event_index ev = None \/ event_index ev = Some index) evs.

Lemma on_index_push {A} index (f : A -> IrStreamEvent) o :
  (forall a, o = Some a -> event_index (f a) = None \/ event_index (f a) = Some index) -> on_index index (push_opt f o).
Proof. intros H. destruct o as [a|]; cbn; [|constructor]. constructor; [by apply H|constructor]. Qed.

Lemma part_events_quiet index part : on_index index (part_events part).
Proof.
  unfold part_events, audio_events_from_output_part, on_index. rewrite !Forall_app.
  repeat match goal with |- _ /\ _ => split end.
  - destruct (has_type _ _); [|constructor]. apply on_index_push. by left.
  - destruct (has_type _ _); [|constructor]. apply on_index_push. by left.
  - destruct (image_delta_from_output_image part) as [ev|] eqn:E.
    + constructor; [|constructor]. left. unfold image_delta_from_output_image in E.
      destruct (negb _); [done|]. destruct (get_str part "image_url"); [|done]. cbn [mbind option_bind] in E.
      destruct (strip_prefix _ _); [|done]. cbn [mbind option_bind] in E.
      destruct (split_once_str _ _) as [[? ?]|]; [|done]. cbn [mbind option_bind] in E.
      destruct (_ || _); [done|]. by injection E as <-.
    + destruct (has_type _ _); [|constructor]. constructor; [by left|constructor].
  - destruct (negb _); [constructor|]. rewrite Forall_app. split; apply on_index_push; by left.
Qed.

Lemma message_events_quiet index item : on_index index (message_content_events item).
Proof.
  unfold message_content_events, message_item_identity_events, on_index. rewrite !Forall_app.
  repeat match goal with |- _ /\ _ => split end; try (apply on_index_push; by left).
  destruct (get_array item "content") as [content|]; [|constructor].
  induction content as [|part content IH]; cbn [flat_map]; [constructor|].
  apply Forall_app. split; [apply part_events_quiet|done].
Qed.

Lemma replay_quiet index item : on_index index (replay_output_item item).
Proof. unfold replay_output_item. destruct (_ || _); [|constructor]. constructor; [by left|constructor]. Qed.

Lemma terminal_item_quiet index item : on_index index (terminal_item_events item).
Proof.
  unfold terminal_item_events. pose proof (replay_quiet index item) as R. destruct (replay_output_item item); [|done].
  unfold reasoning_item_identity_events, on_index. destruct (negb _); [constructor|]. rewrite !Forall_app.
  repeat match goal with |- _ /\ _ => split end; try (apply on_index_push; by left).
  destruct (kept_reasoning_parts item); [constructor|]. constructor; [by left|constructor].
Qed.

Lemma slots_quiet index value : on_index index (response_slot_events value).
Proof.
  unfold response_slot_events, on_index. rewrite !Forall_app.
  repeat match goal with |- _ /\ _ => split end; apply on_index_push; intros a; try (by left).
  - unfold created_event. destruct (_ ≫= as_i64); [|done]. intros [= <-]. by left.
  - unfold service_tier_event. destruct (nonempty _); [|done]. intros [= <-]. by left.
  - unfold metadata_event. destruct (string_metadata _); [|done]. intros [= <-]. by left.
  - unfold moderation_event. destruct (opt_or _ _); [|done]. cbn [mbind option_bind].
    destruct (negb _); [done|]. destruct (_ && _); [done|]. intros [= <-]. by left.
Qed.

Lemma added_call_index item index custom evs :
  added_call_events item index custom = Ok evs -> on_index index evs.
Proof.
  unfold added_call_events. destruct (json_text_field item _) as [delta|]; [|done]. cbn [rbind]. intros [= <-].
  unfold on_index. apply Forall_app. split.
  - unfold tool_item_events. rewrite !Forall_app.
    repeat match goal with |- _ /\ _ => split end; apply on_index_push; intros ev E; left.
    + unfold tool_item_id_event in E. destruct (nonempty_key item "id"); [|done]. cbn [mbind option_bind] in E.
      destruct (nonempty_key item "call_id"); [|done]. cbn [mbind option_bind] in E.
      destruct (String.eqb _ _); [done|]. by injection E as <-.
    + unfold tool_item_caller_event in E. destruct (typed_caller _); [|done]. by injection E as <-.
    + unfold tool_item_created_by_event in E. destruct (nonempty_key _ _); [|done]. by injection E as <-.
    + unfold tool_item_namespace_event in E. destruct (nonempty_key _ _); [|done]. by injection E as <-.
    + unfold tool_item_status_event in E. destruct (nonempty_key _ _); [|done]. by injection E as <-.
  - constructor; [destruct custom; by right|]. apply on_index_push. intros d _. destruct custom; by right.
Qed.

Lemma decode_all_index name value evs :
  decode_all name value = Ok evs -> check_responses_indexes value = Ok tt /\ on_index (output_index value) evs.
Proof.
  unfold decode_all. destruct (check_responses_indexes value) as [[]|e]; [|done]. cbn [rbind]. intros H. split; [done|].
  destruct (String.eqb name "response.created"); [injection H as <-; apply slots_quiet|].
  destruct (String.eqb name "response.output_item.added").
  { unfold added_item_events in H. destruct (item_type value) as [ty|]; [|injection H as <-; apply replay_quiet].
    destruct (String.eqb ty "function_call"); [by eapply added_call_index|].
    destruct (String.eqb ty "custom_tool_call"); [by eapply added_call_index|].
    destruct (String.eqb ty "message"); [injection H as <-; apply message_events_quiet|].
    destruct (String.eqb ty "reasoning"); injection H as <-; [|apply replay_quiet].
    unfold added_reasoning_events. apply Forall_app. split; [|apply terminal_item_quiet].
    destruct (nonempty_key _ "signature"); [constructor; [by left|constructor]|]. apply on_index_push. by left. }
  destruct (String.eqb name "response.content_part.added"); [injection H as <-; apply part_events_quiet|].
  destruct (negb _); injection H as <-; [constructor|].
  apply Forall_app. split; apply on_index_push; by left.
Qed.

(** No event the plural decoder gives for a Responses frame has an index above
    the cap: a larger index is an error, never an event. *)
Theorem responses_index_capped name value evs ev i :
  decode_all name value = Ok evs -> In ev evs -> event_index ev = Some i -> 0 <= i <= MAX_TOOL_CALL_INDEX.
Proof.
  intros H Hin Hi. destruct (decode_all_index name value evs H) as [C F].
  unfold on_index in F. rewrite List.Forall_forall in F. destruct (F ev Hin) as [N|N]; [congruence|].
  rewrite Hi in N. injection N as ->. by apply output_index_range.
Qed.

(** ** Side fields of a tool item *)

(** What the protocol events add up to for the call on [index]. *)
Definition collect_extra (index : Z) (e : ResponsesToolExtra) (ev : IrStreamEvent) : ResponsesToolExtra :=
  match ev with
  | Protocol item_type payload =>
      match tool_extra_from_protocol item_type payload with
      | Some (i, extra) => if i =? index then extra_merge e extra else e
      | None => e
      end
  | _ => e
  end.

(** The id of the item, when it differs from the id of the call. *)
Definition own_item_id (item : json) : option string :=
  item_id ← nonempty_key item "id"; call_id ← nonempty_key item "call_id";
  if String.eqb item_id call_id then None else Some item_id.

Definition item_extra (item : json) : ResponsesToolExtra :=
  mkExtra (nonempty_key item "status") (nonempty_key item "namespace") (nonempty_key item "created_by")
    (typed_caller (get item "caller")) (own_item_id item).

Lemma opt_or_none_r {A} (o : option A) : opt_or o None = o.
Proof. by destruct o. Qed.

Lemma nonempty_key_stable v key s : nonempty_key v key = Some s -> nonempty (Some s) = Some s.
Proof. intros H. apply nonempty_is. by apply nonempty_Some in H as [_ ?]. Qed.

Lemma payload_index index k v :
  is_u32 index -> k <> "index" -> (get_u64 (jobj [("index", jint index); (k, v)]) "index" ≫= u32_try_from) = Some index.
Proof.
  intros Hi Hk. unfold get_u64. rewrite get_jobj. cbn [assoc_last]. eqb_literals.
  rewrite (str_eqb_neq "index" k) by congruence. by apply u32_jint.
Qed.

Lemma payload_field index k v : get (jobj [("index", jint index); (k, v)]) k = Some v.
Proof. rewrite get_jobj. cbn [assoc_last]. by rewrite String.eqb_refl. Qed.

Lemma typed_caller_stable o caller : typed_caller o = Some caller -> typed_caller (Some caller) = Some caller.
Proof. unfold typed_caller. destruct o as [c|]; [|done]. cbn. by destruct (is_some _) eqn:E; intros [= <-]; rewrite ?E. Qed.

(** Read one of the five events and merge it. *)
Ltac read_extra Hi :=
  cbn [push_opt fold_left mbind option_bind fmap option_fmap option_map]; unfold collect_extra, tool_extra_from_protocol;
  rewrite payload_index by (exact Hi || done); cbn [mbind option_bind]; eqb_literals;
  unfold nonempty_payload_str, get_str; rewrite payload_field; cbn [mbind option_bind as_str].

Lemma fold_text_fields item index e :
  is_u32 index ->
  let fold o := fold_left (collect_extra index) (push_opt (fun ev => ev) o) e in
  fold (tool_item_status_event item index) = extra_merge e (mkExtra (nonempty_key item "status") None None None None)
  /\ fold (tool_item_namespace_event item index)
     = extra_merge e (mkExtra None (nonempty_key item "namespace") None None None)
  /\ fold (tool_item_created_by_event item index)
     = extra_merge e (mkExtra None None (nonempty_key item "created_by") None None)
  /\ fold (tool_item_id_event item index) = extra_merge e (mkExtra None None None None (own_item_id item)).
Proof.
  intros Hi fold. unfold fold, tool_item_status_event, tool_item_namespace_event, tool_item_created_by_event,
    tool_item_id_event, own_item_id.
  split; [|split; [|split]].
  - destruct (nonempty_key item "status") as [s|] eqn:E; [|by destruct e].
    read_extra Hi. rewrite (nonempty_key_stable _ _ _ E). cbn. by rewrite Z.eqb_refl.
  - destruct (nonempty_key item "namespace") as [s|] eqn:E; [|by destruct e].
    read_extra Hi. rewrite (nonempty_key_stable _ _ _ E). cbn. by rewrite Z.eqb_refl.
  - destruct (nonempty_key item "created_by") as [s|] eqn:E; [|by destruct e].
    read_extra Hi. rewrite (nonempty_key_stable _ _ _ E). cbn. by rewrite Z.eqb_refl.
  - destruct (nonempty_key item "id") as [s|] eqn:E; [|by destruct e]. cbn [mbind option_bind].
    destruct (nonempty_key item "call_id") as [c|]; [|by destruct e]. cbn [mbind option_bind].
    destruct (String.eqb s c); [by destruct e|].
    read_extra Hi. rewrite (nonempty_key_stable _ _ _ E). cbn. by rewrite Z.eqb_refl.
Qed.

Lemma fold_caller item index e :
  is_u32 index ->
  fold_left (collect_extra index) (push_opt (fun ev => ev) (tool_item_caller_event item index)) e
  = extra_merge e (mkExtra None None None (typed_caller (get item "caller")) None).
Proof.
  intros Hi. unfold tool_item_caller_event. destruct (typed_caller (get item "caller")) as [c|] eqn:E; [|by destruct e].
  read_extra Hi. rewrite (typed_caller_stable _ _ E). cbn. by rewrite Z.eqb_refl.
Qed.

Lemma written_field item key fresh :
  is_object fresh = true -> In key ["status"; "namespace"; "created_by"] ->
  is_some (nonempty_key item key) = true ->
  nonempty_key (write_item (item_extra item) fresh) key = nonempty_key item key.
Proof.
  intros Ho Hk Hs. unfold write_item, item_extra. cbn [ex_status ex_namespace ex_created_by ex_caller ex_item_id].
  assert (Set_ : forall k o v, is_object v = true ->
    is_object (set_opt k o v) = true
    /\ forall k', get (set_opt k o v) k' = if String.eqb k' k then opt_or o (get v k') else get v k').
  { intros k o v Hv. rewrite is_object_set_opt. split; [done|]. intros k'. by rewrite get_set_opt. }
  set (v1 := set_opt "id" _ fresh). destruct (Set_ "id" (JStr <$> nonempty (own_item_id item)) fresh Ho) as [O1 G1].
  set (v2 := set_opt "status" _ v1). destruct (Set_ "status" (JStr <$> nonempty (nonempty_key item "status")) v1 O1) as [O2 G2].
  set (v3 := set_opt "namespace" _ v2). destruct (Set_ "namespace" (JStr <$> nonempty (nonempty_key item "namespace")) v2 O2) as [O3 G3].
  set (v4 := set_opt "created_by" _ v3). destruct (Set_ "created_by" (JStr <$> nonempty (nonempty_key item "created_by")) v3 O3) as [O4 G4].
  destruct (Set_ "caller" (typed_caller (get item "caller")) v4 O4) as [_ G5].
  destruct (nonempty_key item key) as [s|] eqn:E; [|done]. pose proof (nonempty_key_stable _ _ _ E) as S.
  unfold nonempty_key at 1, str_field. rewrite G5. fold v4 in G4. rewrite G4. fold v3 in G3. rewrite G3. fold v2 in G2. rewrite G2.
  cbn in Hk. destruct_or!; subst; try done; eqb_literals; rewrite E, S; exact S.
Qed.

(** The side fields of a tool item survive the trip through protocol events:
    read back for the call on the same index they are the fields of the item,
    over whatever was collected before, and written into an item they are
    found there again. *)
Theorem tool_extra_roundtrip item index e fresh key :
  is_u32 index ->
  fold_left (collect_extra index) (tool_item_events item index) e = extra_merge e (item_extra item)
  /\ (is_object fresh = true -> In key ["status"; "namespace"; "created_by"] ->
      is_some (nonempty_key item key) = true ->
      nonempty_key (write_item (item_extra item) fresh) key = nonempty_key item key).
Proof.
  intros Hi. split; [|apply written_field]. unfold tool_item_events. rewrite !fold_left_app.
  rewrite (proj2 (proj2 (proj2 (fold_text_fields item index _ Hi)))), fold_caller by done.
  rewrite (proj1 (proj2 (proj2 (fold_text_fields item index _ Hi)))).
  rewrite (proj1 (proj2 (fold_text_fields item index _ Hi))), (proj1 (fold_text_fields item index _ Hi)).
  unfold extra_merge, item_extra. cbn. destruct e as [a b c d f]. cbn.
  by destruct (nonempty_key item "status"), (nonempty_key item "namespace"), (nonempty_key item "created_by"),
    (typed_caller (get item "caller")), (own_item_id item).
Qed.

(** ** The two readings of a frame *)
Lemma head_In {A} (l : list A) a : head l = Some a -> In a l.
Proof. destruct l; [done|]. intros [= ->]. by left. Qed.

Lemma replayed_kept name value ev :
  decode_replayed name value = Ok (Some ev) ->
  In ev (replay_output_item (item_of value)) \/ ev = protocol name value.
Proof.
  unfold decode_replayed, at_most_one. destruct (1 <? vlen _); [done|]. cbn [rbind]. intros [= <-].
  destruct (head (replay_output_item (item_of value))) eqn:E; [left; by apply head_In|by right].
Qed.

Lemma call_item_kept value custom ev evs :
  decode_call_item value custom = Ok (Some ev) ->
  added_call_events (item_of value) (output_index value) custom = Ok evs -> In ev evs.
Proof.
  unfold decode_call_item, added_call_events. destruct (structured _); [done|].
  destruct (json_text_field _ _) as [o|]; [|done]. cbn [rbind]. intros [= <-] [= <-].
  apply in_or_app. right. left. by destruct custom.
Qed.

Lemma item_added_kept name value ev evs :
  decode_item_added name value = Ok (Some ev) -> added_item_events value = Ok evs ->
  In ev evs \/ ev = protocol name value.
Proof.
  unfold decode_item_added, added_item_events. cbv zeta. destruct (item_type value) as [ty|].
  2:{ intros H [= <-]. by apply replayed_kept. }
  destruct (String.eqb ty "function_call"); [intros; left; by eapply call_item_kept|].
  destruct (String.eqb ty "custom_tool_call"); [intros; left; by eapply call_item_kept|].
  destruct (String.eqb ty "reasoning") eqn:R.
  - apply String.eqb_eq in R as ->. eqb_literals. intros [= <-] [= <-].
    unfold decode_reasoning_item, added_reasoning_events.
    destruct (nonempty_key _ "signature"); [left; by left|].
    destruct (nonempty_key _ "text"); [left; by left|by right].
  - destruct (String.eqb ty "message"); intros H [= <-]; [|by apply replayed_kept].
    unfold decode_message_item in H. destruct (_ || _); [done|]. injection H as <-.
    destruct (head (message_content_events (item_of value))) eqn:E; [left; by apply head_In|by right].
Qed.

(** Where the plural decoder of a Responses frame gives events at all, the
    event the singular one gives is among them, or is the frame itself. *)
Theorem responses_plural_keeps_singular name value ev evs :
  decode name value = Ok (Some ev) -> decode_all name value = Ok evs ->
  evs = [] \/ In ev evs \/ ev = protocol name value.
Proof.
  unfold decode, decode_all. destruct (check_responses_indexes value) as [[]|e]; [|done]. cbn [rbind]. intros H.
  destruct (String.eqb name "response.created") eqn:N1.
  { apply String.eqb_eq in N1 as ->. intros _. right; right. unfold decode_frame, one_of in H. cbn [existsb bracket_frames] in H.
    revert H. eqb_literals. cbn [orb]. destruct (reject_bare_responses_error value) as [[]|]; [|done]. by intros [= <-]. }
  destruct (String.eqb name "response.output_item.added") eqn:N2.
  { apply String.eqb_eq in N2 as ->. intros E. right. eapply item_added_kept; [|exact E].
    revert H. unfold decode_frame, one_of. cbn [existsb]. eqb_literals. done. }
  destruct (String.eqb name "response.content_part.added") eqn:N3.
  { apply String.eqb_eq in N3 as ->. intros [= <-]. right; left. revert H. unfold decode_frame, one_of. cbn [existsb].
    eqb_literals. cbn [orb]. unfold at_most_one. destruct (1 <? vlen _); [done|]. intros [= E]. by apply head_In. }
  destruct (String.eqb name "response.output_text.delta") eqn:N4; cbn [negb]; intros [= <-]; [|by left].
  right; left. unfold decode_frame in H. rewrite N4 in H.
  destruct (nonempty_key value "delta") as [t|]; [injection H as <-; by left|].
  destruct (logprobs_array value); [|done]. injection H as <-. by left.
Qed.
End Properties.

(** ** Witnesses *)
Section Witnesses.
#[local] Existing Instance bits_codec.
#[local] Existing Instance bits_codec_laws.

Lemma responses_encode_decode_witness :
  exists name data, encode (ToolCallStart "c" "f" None 3) = Ok (mkRawSse (Some name) (to_string data))
    /\ decode name data = Ok (Some (ToolCallStart "c" "f" None 3)).
Proof. apply responses_encode_decode. split; [reflexivity|]. by vm_compute. Defined.

Definition sample_item : json :=
  jobj [("type", JStr "function_call"); ("id", JStr "fc_1"); ("call_id", JStr "c1"); ("name", JStr "f");
        ("status", JStr "in_progress"); ("namespace", JStr "ns")].

Definition sample_frame : json := jobj [("output_index", jint 3); ("item", sample_item)].

Definition sample_all : list IrStreamEvent :=
  match decode_all "response.output_item.added" sample_frame with Ok evs => evs | Err _ => [] end.

Lemma responses_index_capped_witness : 0 <= 3 <= MAX_TOOL_CALL_INDEX.
Proof.
  apply (responses_index_capped "response.output_item.added" sample_frame sample_all (ToolCallStart "c1" "f" None 3));
    vm_compute; [reflexivity|by do 3 right; left|reflexivity].
Defined.

Lemma tool_extra_roundtrip_witness :
  fold_left (collect_extra 3) (tool_item_events sample_item 3) extra_default
  = extra_merge extra_default (item_extra sample_item)
  /\ nonempty_key (write_item (item_extra sample_item) (JObj [])) "status" = Some "in_progress".
Proof.
  destruct (tool_extra_roundtrip sample_item 3 extra_default (JObj []) "status") as [H1 H2]; [by vm_compute|].
  split; [exact H1|]. rewrite H2; [reflexivity|reflexivity|by left|reflexivity].
Defined.

Lemma responses_plural_keeps_singular_witness :
  sample_all = [] \/ In (ToolCallStart "c1" "f" None 3) sample_all
  \/ ToolCallStart "c1" "f" None 3 = protocol "response.output_item.added" sample_frame.
Proof.
  apply (responses_plural_keeps_singular "response.output_item.added" sample_frame); vm_compute; reflexivity.
Defined.
End Witnesses.
