(* ===== verification/StreamDecode.v ===== *)
(** * StreamDecode: one frame of any dialect to IR events

    crates/wiremux/src/stream/mod.rs: [decode_stream_event] (one event),
    [decode_stream_events] (every event of the frame), [StreamDecoder] with
    its Gemini call sequence, the fan-out of a Gemini chunk, and
    [encode_stream_event]. *)

From S2P Require Import Prelude Text Json JsonCodec Floats Sse Ir ProfileTypes StreamCore Usage Completion Shapes.
From S2P Require Import Chat MapCore.
From S2P Require Messages Gemini Converse Responses.

(** ** The fan-out of a Gemini chunk *)

(** [*call_seq += 1] on a [usize]. *)
Definition seq_next (seq : Z) : Z := (seq + 1) mod (usize_max + 1).

Definition candidate0 (p : list ptr_token) : list ptr_token := Key "candidates" :: Idx 0 :: p.

Definition gemini_value_has_function_call (value : json) : bool :=
  is_some_and (pointer value (candidate0 [Key "content"; Key "parts"]) ≫= as_array)
    (existsb (fun p => is_some_and (get p "functionCall") gemini_function_call_visible)).

(** [.filter(|a| a.as_object().is_none_or(|m| !m.is_empty()) && !a.is_null())] *)
Definition call_args (fc : json) : option json :=
  opt_filter (fun a => match as_object a with Some m => negb (bool_decide (m = [])) | None => true end
                       && negb (is_null a)) (get fc "args").

Definition is_thought (part : json) : bool := bool_decide (get part "thought" ≫= as_bool = Some true).

(** A non-empty array under a key. *)
Definition nonempty_array (o : option json) : bool :=
  is_some_and (o ≫= as_array) (fun items => negb (bool_decide (items = []))).

Section Serializer.
Context {SJ : SerdeJson}.

Definition gemini_call_events (fc : json) (thought_signature : option string) (seq : Z) : list IrStreamEvent :=
  let name := unwrap_or (str_field fc "name") "" in
  let index := unwrap_or (u32_try_from seq) 0 in
  ToolCallStart (Gemini.gemini_call_id fc name seq) name thought_signature index
  :: push_opt (fun args => ToolCallArgDelta (to_string args) index) (call_args fc).

(** The thought and the signature of a part come before what the part is. *)
Definition thought_events (part : json) : list IrStreamEvent :=
  (if is_thought part then push_opt ReasoningDelta (nonempty (get_str part "text")) else [])
  ++ (if is_none (get part "functionCall")
      then push_opt ReasoningSignature (nonempty (get_str part "thoughtSignature")) else []).

Definition gemini_part_events (part : json) (call_seq : Z) : list IrStreamEvent * Z :=
  match opt_filter gemini_function_call_visible (get part "functionCall") with
  | Some fc =>
      (thought_events part ++ gemini_call_events fc (nonempty (get_str part "thoughtSignature")) call_seq,
       seq_next call_seq)
  | None =>
      (thought_events part ++
       (if gemini_side_part_visible part then [Protocol "gemini_code_part" part]
        else
          match Gemini.inline_data_event part with
          | Some ev => [ev]
          | None => if is_thought part then [] else push_opt TextDelta (nonempty (get_str part "text"))
          end), call_seq)
  end.

Fixpoint gemini_parts_events (parts : list json) (call_seq : Z) : list IrStreamEvent * Z :=
  match parts with
  | [] => ([], call_seq)
  | part :: parts =>
      let '(out, call_seq) := gemini_part_events part call_seq in
      let '(rest, call_seq) := gemini_parts_events parts call_seq in
      (out ++ rest, call_seq)
  end.

(** Every grounding chunk with a URL, the [idx]-th being the first. *)
Fixpoint grounding_events (idx : Z) (chunks : list json) (supports : option (list json)) : list IrStreamEvent :=
  match chunks with
  | [] => []
  | chunk :: chunks =>
      push_opt (fun annotation =>
          AnnotationAdded (match supports with
                           | Some supports => Gemini.apply_grounding_support annotation idx supports
                           | None => annotation
                           end)) (Gemini.annotation_from_grounding_chunk chunk)
      ++ grounding_events (idx + 1) chunks supports
  end.

Definition array_at (value : json) (p : list ptr_token) : list json :=
  unwrap_or (pointer value p ≫= as_array) [].

(** Annotations and the metadata they come from. *)
Definition fan_out_annotations (value : json) : list IrStreamEvent :=
  grounding_events 0 (array_at value (candidate0 [Key "groundingMetadata"; Key "groundingChunks"]))
    (pointer value (candidate0 [Key "groundingMetadata"; Key "groundingSupports"]) ≫= as_array)
  ++ match Gemini.first_candidate value with
     | Some candidate => map AnnotationAdded (Gemini.citation_annotations candidate)
     | None => []
     end
  ++ push_opt (Protocol "gemini_url_context")
       (opt_filter (fun m => nonempty_array (get m "urlMetadata"))
          (pointer value (candidate0 [Key "urlContextMetadata"])))
  ++ push_opt (Protocol "gemini_citation_metadata")
       (opt_filter (fun m => nonempty_array (get m "citationSources") || nonempty_array (get m "citations"))
          (pointer value (candidate0 [Key "citationMetadata"])))
  ++ flat_map (fun attr => push_opt AnnotationAdded (Gemini.annotation_from_grounding_chunk attr))
       (array_at value (candidate0 [Key "groundingAttributions"])).

Definition kept_ratings (value : json) (p : list ptr_token) : option json :=
  opt_filter (fun ratings => nonempty_array (Some ratings)) (pointer value p).

(** Search, log-probabilities, refusal text and ratings. *)
Definition fan_out_candidate (value : json) : list IrStreamEvent :=
  push_opt (fun ev => ev) (Gemini.search_entry_from_value value)
  ++ push_opt (fun content => Logprobs content None)
       (pointer value (candidate0 [Key "logprobsResult"]) ≫= Gemini.logprobs_from_result)
  ++ push_opt RefusalDelta (nonempty (pointer_str value (candidate0 [Key "finishMessage"])))
  ++ push_opt (Protocol "gemini_safety_ratings") (kept_ratings value (candidate0 [Key "safetyRatings"]))
  ++ push_opt (Protocol "gemini_prompt_safety") (kept_ratings value [Key "promptFeedback"; Key "safetyRatings"])
  ++ push_opt (fun message => Protocol "gemini_block_reason_message" (JStr message))
       (nonempty (trim <$> pointer_str value [Key "promptFeedback"; Key "blockReasonMessage"])).

Definition candidate_finish (value : json) : option string :=
  nonempty (pointer_str value (candidate0 [Key "finishReason"])).

(** How the stream ends: a block, scores, a finish reason, then usage. *)
Definition fan_out_tail (value : json) : list IrStreamEvent :=
  (if is_none (candidate_finish value) then push_opt (fun ev => ev) (Gemini.block_event value) else [])
  ++ push_opt (fun score => Protocol "gemini_avg_logprobs" (JNum (NumFloat score)))
       (opt_filter is_finite (pointer value (candidate0 [Key "avgLogprobs"]) ≫= as_f64))
  ++ push_opt (fun count => Protocol "gemini_candidate_tokens" (jint count))
       (opt_filter (fun n => 0 <? n) (pointer value (candidate0 [Key "tokenCount"]) ≫= as_u64) ≫= u32_try_from)
  ++ push_opt (fun reason =>
         FinishReason (Gemini.map_finish reason (gemini_value_has_function_call value)) (Some reason))
       (candidate_finish value)
  ++ push_opt (fun ev => ev) (Gemini.service_tier_from_chunk value)
  ++ gemini_traffic_type_events value
  ++ gemini_tool_use_prompt_events value
  ++ gemini_modality_detail_events value
  ++ push_opt (fun ev => ev) (Gemini.usage_from_chunk value).

Definition fan_out_gemini_parts (value : json) (call_seq : Z) : option (list IrStreamEvent) * Z :=
  let '(parts, seq) := gemini_parts_events (array_at value (candidate0 [Key "content"; Key "parts"])) call_seq in
  let out := push_opt (fun id => Protocol "gemini_response_id" (JStr id)) (not_blank (get_str value "responseId"))
             ++ parts ++ fan_out_annotations value ++ fan_out_candidate value ++ fan_out_tail value in
  match out with [] => (None, call_seq) | _ => (Some out, seq) end.

(** ** Expanding a complete call *)
Definition is_protocol (ev : IrStreamEvent) : bool := match ev with Protocol _ _ => true | _ => false end.

Definition expand_one_call (value call : json) : result MapError (list IrStreamEvent) :=
  let* expanded := expand_tool_call call value in
  Ok (if forallb is_protocol expanded then [] else List.filter (fun ev => negb (is_protocol ev)) expanded).

Definition expand_chat_tool_call (first : IrStreamEvent) (value : json) :
  result MapError (option (list IrStreamEvent)) :=
  if negb (is_protocol first) then Ok None
  else
    match pointer value [Key "choices"; Idx 0; Key "delta"; Key "tool_calls"] ≫= as_array with
    | None => Ok None
    | Some tool_calls =>
        let* out := collect (expand_one_call value) tool_calls in
        Ok (match out with [] => None | _ => Some out end)
    end.

Definition expand_gemini_function_call (first : IrStreamEvent) (value : json) : option (list IrStreamEvent) :=
  parts ← pointer value (candidate0 [Key "content"; Key "parts"]) ≫= as_array;
  part ← List.find (fun p => is_some (get p "functionCall")) parts;
  fc ← get part "functionCall";
  let name := unwrap_or (str_field fc "name") "" in
  args ← call_args fc;
  match first with
  | Protocol _ _ | ToolCallStart _ _ _ _ =>
      Some [ToolCallStart (Gemini.gemini_call_id fc name 0) name (nonempty (get_str part "thoughtSignature")) 0;
            ToolCallArgDelta (to_string args) 0]
  | _ => None
  end.

Definition expand_responses_function_call (first : IrStreamEvent) (value : json) : option (list IrStreamEvent) :=
  match first with
  | ToolCallStart id name thought_signature index =>
      args ← nonempty (pointer_str value [Key "item"; Key "arguments"]);
      Some [ToolCallStart id name thought_signature index; ToolCallArgDelta args index]
  | _ => None
  end.

Definition expand_complete_tool_call (wire : Wire) (first : IrStreamEvent) (raw : RawSse) :
  result MapError (option (list IrStreamEvent)) :=
  match from_str (raw_data raw) with
  | None => Ok None
  | Some value =>
      match wire with
      | ChatCompletions => expand_chat_tool_call first value
      | Gemini => Ok (expand_gemini_function_call first value)
      | Responses => Ok (expand_responses_function_call first value)
      | Messages | Converse => Ok None
      end
  end.

(** ** Decoding a frame *)
Section Decode.
(** The text of a [serde_json] error; the dialect of the profile. *)
Context (parse_error : string -> string).

Definition decode_stream_event (wire : Wire) (raw : RawSse) (dialect : Dialect) :
  result MapError (option IrStreamEvent) :=
  if is_none (raw_event raw) && is_empty (trim (raw_data raw)) then Ok None
  else
    let name := frame_event_name wire raw in
    if negb (one_of name (d_stream_events dialect))
    then unknown_event wire (d_stream_unknown_policy dialect) name (raw_data raw)
    else if String.eqb name "[DONE]" || String.eqb (trim (raw_data raw)) "[DONE]" then Ok (Some Done)
    else
      match from_str (raw_data raw) with
      | None => Err (MapJson (parse_error (raw_data raw)))
      | Some value =>
          match wire with
          | ChatCompletions => Chat.decode value
          | Messages => Messages.decode name value
          | Responses => Responses.decode name value
          | Gemini => Gemini.decode value
          | Converse => Converse.decode value
          end
      end.

Definition asks_for_plural (first : result MapError (option IrStreamEvent)) : bool :=
  match first with Err (Invalid detail) => str_contains "decode_stream_events" detail | _ => false end.

Definition chat_named_frame (first : result MapError (option IrStreamEvent)) : bool :=
  match first with
  | Ok (Some (UnknownEvent _ _)) => false
  | Ok _ => true
  | Err _ => asks_for_plural first
  end.

(** Chat: [Some] is the answer, [None] goes on with the singular one. *)
Definition chat_events (first : result MapError (option IrStreamEvent)) (raw : RawSse) :
  result MapError (option (list IrStreamEvent)) :=
  match from_str (raw_data raw) with
  | None => Ok None
  | Some value =>
      let* events := match decode_all value with
                     | Ok events => Ok events
                     | Err err => if chat_named_frame first then Err err else Ok []
                     end in
      match events with
      | [] => Ok None
      | ev :: rest =>
          if is_ok first || asks_for_plural first then
            if negb (bool_decide (rest = []) && is_protocol ev) then Ok (Some events)
            else expand_complete_tool_call ChatCompletions ev raw
          else Ok None
      end
  end.

Definition responses_events (first : result MapError (option IrStreamEvent)) (raw : RawSse) :
  result MapError (option (list IrStreamEvent)) :=
  match from_str (raw_data raw) with
  | None => Ok None
  | Some value =>
      let name := frame_event_name Responses raw in
      match (if is_ok first then Responses.decode_terminal_events name value else None) with
      | Some events => Ok (Some events)
      | None =>
          let* events := Responses.decode_all name value in
          if negb (bool_decide (events = [])) && (is_ok first || asks_for_plural first)
          then Ok (Some events) else Ok None
      end
  end.

(** ** Messages: the side fields around the first event *)
Definition is_usage (ev : IrStreamEvent) : bool := match ev with Usage _ _ _ _ _ _ _ _ => true | _ => false end.
Definition is_finish (ev : IrStreamEvent) : bool := match ev with FinishReason _ _ => true | _ => false end.
Definition is_refusal (ev : IrStreamEvent) : bool := match ev with RefusalDelta _ => true | _ => false end.

Definition messages_usage (name : string) (value : json) : option json :=
  opt_filter is_object
    (if String.eqb name "message_start" then pointer value [Key "message"; Key "usage"]
     else if String.eqb name "message_delta" then get value "usage" else None).

Definition messages_container (name : string) (value : json) : option json :=
  opt_filter is_object
    (if String.eqb name "message_start" then pointer value [Key "message"; Key "container"]
     else if String.eqb name "message_delta" then get value "container" else None).

(** What is pushed before the first event. *)
Definition messages_before (name : string) (value : json) (first : IrStreamEvent) : list IrStreamEvent :=
  let is_delta := String.eqb name "message_delta" in
  let closes := is_usage first || is_finish first in
  (if String.eqb name "message_start" && is_usage first
   then push_opt (fun id => Protocol "messages_id" (JStr id)) (not_blank (pointer_str value [Key "message"; Key "id"]))
   else [])
  ++ push_opt ServiceTier (usage ← messages_usage name value; Messages.service_tier_from_usage usage)
  ++ (if is_delta && negb (is_refusal first)
      then push_opt RefusalDelta (Messages.stop_details_explanation value) else [])
  ++ (if closes then push_opt Container (messages_container name value) else [])
  ++ (if is_delta && is_finish first
      then push_opt StopSequence (not_blank (pointer_str value [Key "delta"; Key "stop_sequence"])) else [])
  ++ (if is_delta && closes
      then push_opt ContextManagement (object_field value "context_management") else [])
  ++ (if is_delta && closes
      then push_opt Diagnostics (opt_filter is_object (pointer value [Key "diagnostics"; Key "cache_miss_reason"]))
      else []).

(** What is pushed after it. *)
Definition messages_after (name : string) (value : json) (first : IrStreamEvent) : list IrStreamEvent :=
  match messages_usage name value with
  | None => []
  | Some usage =>
      messages_web_search_events usage ++ messages_cache_creation_events usage
      ++ (if String.eqb name "message_delta" && is_finish first then [from_anthropic usage] else [])
  end.

Definition messages_events (first : IrStreamEvent) (raw : RawSse) : list IrStreamEvent :=
  match from_str (raw_data raw) with
  | None => [first]
  | Some value =>
      let name := frame_event_name Messages raw in
      messages_before name value first ++ first :: messages_after name value first
  end.

(** ** Every event of a frame *)

(** After the plural decoders of Chat and Responses. *)
Definition rest_events (wire : Wire) (first : option IrStreamEvent) (raw : RawSse) (call_seq : Z) :
  result MapError (list IrStreamEvent) * Z :=
  let metadata := if wire_eqb wire Converse
                  then match from_str (raw_data raw) with
                       | Some value => Converse.decode_metadata_events value
                       | None => []
                       end
                  else [] in
  if 2 <=? vlen metadata then (Ok metadata, call_seq)
  else
    let '(fanned, seq) := match (if wire_eqb wire Gemini then from_str (raw_data raw) else None) with
                          | Some value => fan_out_gemini_parts value call_seq
                          | None => (None, call_seq)
                          end in
    match fanned with
    | Some events => (Ok events, seq)
    | None =>
        match first with
        | None => (Ok [], seq)
        | Some first =>
            (let* expanded := expand_complete_tool_call wire first raw in
             match expanded with
             | Some events => Ok events
             | None => if wire_eqb wire Messages then Ok (messages_events first raw) else Ok [first]
             end, seq)
        end
    end.

Definition decode_stream_events_seq (wire : Wire) (raw : RawSse) (dialect : Dialect) (call_seq : Z) :
  result MapError (list IrStreamEvent) * Z :=
  let first := decode_stream_event wire raw dialect in
  let plural := match wire with
                | ChatCompletions => chat_events first raw
                | Responses => responses_events first raw
                | _ => Ok None
                end in
  match plural with
  | Err e => (Err e, call_seq)
  | Ok (Some events) => (Ok events, call_seq)
  | Ok None =>
      match first with
      | Err e => (Err e, call_seq)
      | Ok first => rest_events wire first raw call_seq
      end
  end.

Definition decode_stream_events (wire : Wire) (raw : RawSse) (dialect : Dialect) :
  result MapError (list IrStreamEvent) := (decode_stream_events_seq wire raw dialect 0).1.

(** ** The decoder of a stream *)
Record StreamDecoder := mkDecoder { gemini_call_seq : Z }.

Definition decoder_new : StreamDecoder := mkDecoder 0.

Definition decoder_decode (d : StreamDecoder) (wire : Wire) (raw : RawSse) (dialect : Dialect) :
  StreamDecoder * result MapError (list IrStreamEvent) :=
  let '(res, seq) := decode_stream_events_seq wire raw dialect (gemini_call_seq d) in (mkDecoder seq, res).

(** The events of a stream, up to the first error. *)
Fixpoint decode_stream (d : StreamDecoder) (wire : Wire) (frames : list RawSse) (dialect : Dialect) :
  StreamDecoder * result MapError (list IrStreamEvent) :=
  match frames with
  | [] => (d, Ok [])
  | raw :: frames =>
      let '(d, res) := decoder_decode d wire raw dialect in
      match res with
      | Err e => (d, Err e)
      | Ok events =>
          let '(d, rest) := decode_stream d wire frames dialect in
          (d, rmap (app events) rest)
      end
  end.
End Decode.

(** ** Encoding an event *)
Section Encode.
Context (debug : IrStreamEvent -> string).

Definition encode_stream_event (wire : Wire) (ev : IrStreamEvent) : result MapError RawSse :=
  match ev with
  | UnknownEvent event raw => Ok (encode_named event raw)
  | Protocol item_type payload =>
      if wire_eqb wire Responses && responses_output_item item_type payload
      then Ok (responses_output_item_frame payload)
      else if wire_eqb wire ChatCompletions
              && one_of item_type ["system_fingerprint"; "chat_audio_id"; "chat_audio_expires"]
      then Chat.encode ev
      else if wire_eqb wire Converse && String.eqb item_type "converse_frame"
      then Ok (mkRawSse None (to_string payload))
      else if wire_eqb wire Converse && String.eqb item_type "converse_citation"
      then Ok (mkRawSse None (to_string
             (jobj [("contentBlockDelta",
                     jobj [("contentBlockIndex", jint 0); ("delta", jobj [("citation", payload)])])])))
      else Ok (encode_named item_type payload)
  | other =>
      match wire with
      | ChatCompletions => Chat.encode other
      | Messages => Messages.encode other
      | Responses => Responses.encode other
      | Gemini => Gemini.encode other
      | Converse =>
          let* value := Converse.encode debug other in Ok (mkRawSse None (to_string value))
      end
  end.
End Encode.
End Serializer.

(** ** A Gemini chunk gives back what was written *)
Section Properties.
Context {SJ : SerdeJson}.

(** What both readings of a chunk give. *)
Definition gemini_reads (data : json) (ev : IrStreamEvent) : Prop :=
  Gemini.decode data = Ok (Some ev) /\ (fan_out_gemini_parts data 0).1 = Some [ev].

(** Evaluate both readings with the facts about the texts. *)
Ltac gemini_eval :=
  eexists; split; [reflexivity|]; split; eval_json;
  repeat (match goal with H : _ = ?b |- _ => lazymatch b with true => idtac | false => idtac end; rewrite !H end;
          eval_json);
  try reflexivity.

Lemma image_not_audio s : starts_with "image/" s = true -> starts_with "audio/" s = false.
Proof.
  unfold starts_with at 1. destruct (strip_prefix "image/" s) as [t|] eqn:E; [|done].
  by apply strip_prefix_Some in E as ->.
Qed.

Lemma gemini_image_reads media_type data :
  is_image media_type = true -> is_empty data = false ->
  gemini_reads (Gemini.part_chunk (Gemini.inline_part media_type data)) (ImageDelta media_type data).
Proof.
  intros Hi Hd. unfold is_image in Hi. pose proof (image_not_audio _ Hi) as Ha.
  split; eval_json; rewrite !Hd; eval_json; rewrite Ha, Hi; by eval_json.
Qed.

Lemma gemini_logprobs_reads result content :
  Gemini.logprobs_from_result result = Some content ->
  gemini_reads (Gemini.candidate_chunk [("logprobsResult", result)]) (Logprobs content None).
Proof. intros H. split; lazy -[Gemini.logprobs_from_result]; by rewrite H. Qed.

Lemma gemini_usage_reads p c cr r :
  Forall is_u32 [p; c; cr; r] -> p + cr <= u32_max ->
  gemini_reads (encode_gemini p c cr r 0 0) (Usage p c cr 0 r 0 0 None).
Proof.
  intros H Hp. assert (H' := H). rewrite !Forall_cons in H'. destruct H' as (? & ? & ? & ? & _).
  destruct (gemini_usage_roundtrip p c cr r 0 0) as (u & Hu & Hf).
  { counts_u32 || (repeat (apply List.Forall_cons; [by auto with wire|]); apply List.Forall_nil). }
  assert (Hf' : from_gemini u = Usage p c cr 0 r 0 0 None) by (rewrite Hf; f_equal; int_lia).
  rewrite <- Hf'. revert Hu. clear. unfold encode_gemini.
  change (positive 0) with false. cbn iota. unfold set_positive.
  destruct (positive cr), (positive r); intros Hu; injection Hu as <-; by split; lazy -[from_gemini u32_saturating_add].
Qed.

Lemma gemini_grounding_reads url title start stop segment :
  is_empty url = false -> (forall t, title = Some t -> is_empty t = false) ->
  (forall t, segment = Some t -> is_empty t = false) ->
  let annotation := Gemini.grounded_annotation url title start stop segment in
  exists data, Gemini.encode_data (AnnotationAdded annotation) = Ok data
    /\ gemini_reads data (AnnotationAdded annotation).
Proof.
  intros Hu Ht Hs annotation. eexists. split; [reflexivity|].
  assert (C : Gemini.annotation_from_grounding_chunk (Gemini.grounding_chunk_from_annotation annotation)
              = Some (Gemini.url_citation url title)).
  { subst annotation. clear Hs.
    destruct title as [t|], segment as [s|]; [specialize (Ht _ eq_refl)..|clear Ht|clear Ht];
      eval_json; rewrite Hu; try rewrite Ht; eval_json; rewrite Hu; try rewrite Ht; by eval_json. }
  assert (S : Gemini.apply_grounding_support (Gemini.url_citation url title) 0
                [Gemini.grounding_support_from_annotation annotation 0] = annotation).
  { subst annotation. clear Ht.
    destruct title as [t|], segment as [s|]; [specialize (Hs _ eq_refl)|clear Hs|specialize (Hs _ eq_refl)|clear Hs];
      lazy -[is_empty]; try rewrite Hs; lazy -[is_empty]; try rewrite Hs; by lazy. }
  revert C S. generalize (Gemini.grounding_chunk_from_annotation annotation) as chunk.
  generalize (Gemini.grounding_support_from_annotation annotation 0) as support. clearbody annotation. intros support chunk C S.
  split; lazy -[Gemini.annotation_from_grounding_chunk Gemini.apply_grounding_support]; rewrite C.
  - lazy -[Gemini.annotation_from_grounding_chunk Gemini.apply_grounding_support Gemini.url_citation]. by rewrite S.
  - lazy -[Gemini.annotation_from_grounding_chunk Gemini.apply_grounding_support Gemini.url_citation]. by rewrite S.
Qed.

(** Every event a Gemini chunk can carry whole is given back by the chunk the
    encoder writes for it: alone, and by the singular and the plural decoder. *)
Theorem gemini_encode_decode ev :
  Gemini.gemini_stable ev ->
  exists data, Gemini.encode ev = Ok (mkRawSse None (to_string data)) /\ gemini_reads data ev.
Proof.
  intros H. enough (E : exists data, Gemini.encode_data ev = Ok data /\ gemini_reads data ev).
  { destruct E as (data & E & R). exists data. split; [|done]. unfold Gemini.encode. rewrite E. by destruct ev. }
  destruct ev; cbn [Gemini.gemini_stable] in H; try done.
  - gemini_eval.
  - gemini_eval.
  - gemini_eval.
  - gemini_eval.
  - destruct H as (Hi & Hs & ->). destruct thought_signature as [s|]; [specialize (Hs _ eq_refl)|]; 
     cbn [Gemini.encode_data]; unfold Gemini.start_call; rewrite Hi; gemini_eval.
  - destruct H as (url & title & start & stop & segment & -> & Hu & Ht & Hs). by apply gemini_grounding_reads.
  - gemini_eval.
  - gemini_eval.
  - destruct H as [Hi Hd]. eexists. split; [reflexivity|]. by apply gemini_image_reads.
  - destruct H as (items & Hne & -> & ->). eexists. split; [reflexivity|].
    apply gemini_logprobs_reads. cbn [merged_logprob_items push_logprob_items app]. by apply Gemini.logprobs_roundtrip.
  - destruct H as (Hu & Hp & -> & -> & -> & ->). eexists. split; [reflexivity|]. by apply gemini_usage_reads.
  - destruct H as (token & -> & He & -> & Ht). eexists. split; [reflexivity|].
    rewrite Gemini.finish_token_stable by done. split; lazy -[is_empty Gemini.map_finish]; by rewrite !He.
Qed.
(** ** The plural reading keeps the singular one *)

(** The parts of the first candidate. *)
Definition parts0 (value : json) : list json := array_at value (candidate0 [Key "content"; Key "parts"]).

Lemma candidate0_pointer value candidate p :
  Gemini.first_candidate value = Some candidate -> pointer value (candidate0 p) = pointer candidate p.
Proof.
  unfold Gemini.first_candidate, get_array, candidate0. rewrite pointer_key.
  destruct (get value "candidates") as [[| | | |l|m]|]; try done.
  destruct l as [|c l]; [done|]. cbn [mbind option_bind as_array head]. by intros [= ->].
Qed.

Lemma candidate0_absent value p :
  is_some_and (get value "candidates") is_object = false -> Gemini.first_candidate value = None ->
  pointer value (candidate0 p) = None.
Proof.
  unfold Gemini.first_candidate, get_array, candidate0. rewrite pointer_key.
  destruct (get value "candidates") as [[| | | |l|m]|]; try done. by destruct l.
Qed.

Lemma In_push_opt {A B} (f : A -> B) o a : o = Some a -> In (f a) (push_opt f o).
Proof. intros ->. by left. Qed.

Lemma decode_part_kept part ev :
  Gemini.decode_part part = Some ev -> gemini_side_part_visible part = false ->
  In ev (gemini_part_events part 0).1.
Proof.
  unfold Gemini.decode_part, gemini_part_events, thought_events, is_thought. cbv zeta. intros H Hs. rewrite Hs.
  destruct (bool_decide (get part "thought" ≫= as_bool = Some true)).
  - destruct (nonempty (get_str part "text")) as [t|]; cbn [push_opt].
    { injection H as <-. by destruct (opt_filter _ _); left. }
    destruct (get part "functionCall") as [fc|]; cbn [is_none opt_filter] in *.
    + destruct (gemini_function_call_visible fc); [injection H as <-; by left|].
      destruct (Gemini.inline_data_event part); [injection H as <-; by left|done].
    + destruct (nonempty (get_str part "thoughtSignature")); [injection H as <-; by left|].
      destruct (Gemini.inline_data_event part); [injection H as <-; by left|done].
  - destruct (get part "functionCall") as [fc|]; cbn [is_none opt_filter] in *.
    + destruct (gemini_function_call_visible fc); [injection H as <-; by left|].
      destruct (Gemini.inline_data_event part); [injection H as <-; by left|].
      destruct (nonempty (get_str part "text")); [injection H as <-; by left|done].
    + destruct (nonempty (get_str part "thoughtSignature")); [injection H as <-; by left|].
      destruct (Gemini.inline_data_event part); [injection H as <-; by left|].
      destruct (nonempty (get_str part "text")); [injection H as <-; by left|done].
Qed.

Lemma decode_part_none part seq : Gemini.decode_part part = None -> (gemini_part_events part seq).2 = seq.
Proof.
  unfold Gemini.decode_part, gemini_part_events. cbv zeta. intros H.
  destruct (opt_filter _ _); [|done]. destruct (if bool_decide _ then _ else _); [done|].
  by destruct (if is_none _ then _ else _).
Qed.

Lemma parts_kept parts ev :
  find_map Gemini.decode_part parts = Some ev ->
  forallb (fun part => negb (gemini_side_part_visible part)) parts = true ->
  In ev (gemini_parts_events parts 0).1.
Proof.
  induction parts as [|part parts IH]; [done|]. cbn [find_map forallb gemini_parts_events].
  rewrite andb_true_iff, negb_true_iff. intros Hf [Hs Hp].
  destruct (gemini_part_events part 0) as [out seq] eqn:E.
  destruct (gemini_parts_events parts seq) as [rest seq'] eqn:E2. cbn [fst]. apply in_or_app.
  destruct (Gemini.decode_part part) as [e|] eqn:D.
  - injection Hf as ->. left. pose proof (decode_part_kept _ _ D Hs) as K. by rewrite E in K.
  - right. pose proof (decode_part_none part 0 D) as K. rewrite E in K. cbn in K. subst seq.
    specialize (IH Hf Hp). by rewrite E2 in IH.
Qed.

Lemma grounding_kept idx chunks supports annotation :
  Gemini.grounding_annotation idx chunks supports = Some annotation ->
  In (AnnotationAdded annotation) (grounding_events idx chunks supports).
Proof.
  revert idx. induction chunks as [|chunk chunks IH]; intros idx; [done|].
  cbn [Gemini.grounding_annotation grounding_events].
  destruct (Gemini.annotation_from_grounding_chunk chunk) as [a|]; cbn [push_opt app].
  - intros [= <-]. by left.
  - apply IH.
Qed.

Lemma attribution_kept attrs annotation :
  find_map Gemini.annotation_from_grounding_chunk attrs = Some annotation ->
  In (AnnotationAdded annotation)
    (flat_map (fun attr => push_opt AnnotationAdded (Gemini.annotation_from_grounding_chunk attr)) attrs).
Proof.
  induction attrs as [|attr attrs IH]; [done|]. cbn [find_map flat_map].
  destruct (Gemini.annotation_from_grounding_chunk attr); cbn [push_opt app]; [intros [= <-]; by left|apply IH].
Qed.

(** The five groups of the fan-out. *)
Lemma fan_out_In value ev seq :
  In ev (gemini_parts_events (parts0 value) seq).1 \/ In ev (fan_out_annotations value)
  \/ In ev (fan_out_candidate value) \/ In ev (fan_out_tail value) ->
  exists evs, (fan_out_gemini_parts value seq).1 = Some evs /\ In ev evs.
Proof.
  intros H. unfold fan_out_gemini_parts. fold (parts0 value).
  destruct (gemini_parts_events (parts0 value) seq) as [parts seq']. cbn [fst] in H.
  set (out := push_opt _ _ ++ _).
  assert (I : In ev out) by (unfold out; rewrite !in_app_iff; tauto).
  destruct out as [|e l]; [done|]. by exists (e :: l).
Qed.

Lemma usage_kept value ev : Gemini.usage_from_chunk value = Some ev -> In ev (fan_out_tail value).
Proof. intros H. unfold fan_out_tail. rewrite H, !in_app_iff. do 8 right. by left. Qed.

Lemma candidate_kept value candidate ev :
  Gemini.first_candidate value = Some candidate ->
  forallb (fun part => negb (gemini_side_part_visible part)) (parts0 value) = true ->
  Gemini.decode_candidate candidate = Some ev ->
  In ev (gemini_parts_events (parts0 value) 0).1 \/ In ev (fan_out_annotations value)
  \/ In ev (fan_out_candidate value) \/ In ev (fan_out_tail value).
Proof.
  intros Hc Hs Hd. pose proof (fun p => candidate0_pointer value candidate p Hc) as P.
  unfold Gemini.decode_candidate in Hd.
  destruct (Gemini.parts_of candidate ≫= find_map Gemini.decode_part) as [e|] eqn:E1; cbn [opt_or] in Hd.
  { injection Hd as ->. left. unfold parts0, array_at in *. rewrite P in *. unfold Gemini.parts_of in E1.
    destruct (pointer candidate [Key "content"; Key "parts"] ≫= as_array) as [l|]; [|done]. by apply parts_kept. }
  destruct (Gemini.grounding_event candidate) as [a|] eqn:E2; cbn [opt_or fmap option_fmap option_map] in Hd.
  { injection Hd as <-. right; left. unfold fan_out_annotations. rewrite in_app_iff. left.
    unfold Gemini.grounding_event in E2. unfold array_at. rewrite !P.
    destruct (pointer candidate [Key "groundingMetadata"; Key "groundingChunks"] ≫= as_array) as [l|]; [|done].
    by apply grounding_kept. }
  destruct (Gemini.first_citation_annotation candidate) as [a|] eqn:E3; cbn [opt_or fmap option_fmap option_map] in Hd.
  { injection Hd as <-. right; left. unfold fan_out_annotations. rewrite !in_app_iff, Hc. right; left.
    apply in_map. unfold Gemini.first_citation_annotation in E3.
    destruct (Gemini.citation_annotations candidate); [done|]. injection E3 as ->. by left. }
  destruct (Gemini.attribution_event candidate) as [a|] eqn:E4; cbn [opt_or fmap option_fmap option_map] in Hd.
  { injection Hd as <-. right; left. unfold fan_out_annotations. rewrite !in_app_iff. do 4 right.
    unfold Gemini.attribution_event, get_array in E4. unfold array_at. rewrite P, pointer_key.
    destruct (get candidate "groundingAttributions") as [x|]; [|done]. cbn [mbind option_bind] in *. rewrite pointer_nil.
    destruct (as_array x) as [l|] eqn:E5; [|done]. cbn [mbind option_bind]. rewrite E5. by apply attribution_kept. }
  destruct (get candidate "logprobsResult" ≫= Gemini.logprobs_from_result) as [c|] eqn:E5;
    cbn [opt_or fmap option_fmap option_map] in Hd.
  { injection Hd as <-. right; right; left. unfold fan_out_candidate. rewrite P, pointer_key, !in_app_iff. right; left.
    apply (In_push_opt (fun content => Logprobs content None)).
    by destruct (get candidate "logprobsResult"). }
  unfold Gemini.finish_event, nonempty_field, get_str in Hd.
  assert (G : forall k, pointer_str value (candidate0 [Key k]) = get candidate k ≫= as_str).
  { intros k. unfold pointer_str. rewrite P, pointer_key. by destruct (get candidate k). }
  destruct (nonempty (get candidate "finishReason" ≫= as_str)) as [r|] eqn:E6;
    cbn [opt_or fmap option_fmap option_map] in Hd.
  { injection Hd as <-. do 3 right. unfold fan_out_tail, candidate_finish. rewrite !in_app_iff, G, E6. do 3 right; left.
    left. do 2 f_equal. unfold gemini_value_has_function_call. by rewrite P. }
  right; right; left. unfold fan_out_candidate. rewrite !in_app_iff, G. do 2 right; left.
  destruct (nonempty (get candidate "finishMessage" ≫= as_str)) as [t|]; [|done].
  cbn in Hd. injection Hd as <-. by left.
Qed.

(** Whatever the singular decoder of a Gemini chunk reports is among the
    events of the plural one, unless a part carries code, a file or a hosted
    call, which the plural decoder keeps whole instead. *)
Theorem gemini_plural_keeps_singular value ev :
  Gemini.decode value = Ok (Some ev) ->
  is_some_and (get value "candidates") is_object = false ->
  forallb (fun part => negb (gemini_side_part_visible part)) (parts0 value) = true ->
  exists evs, (fan_out_gemini_parts value 0).1 = Some evs /\ In ev evs.
Proof.
  intros Hd Ho Hs. apply fan_out_In. unfold Gemini.decode in Hd. cbv zeta in Hd.
  destruct (Gemini.first_candidate value) as [candidate|] eqn:Hc; cbn [is_none is_some_and] in Hd.
  - destruct (if candidate_visible candidate then _ else _); [done|].
    destruct (if Gemini.usage_only value then Gemini.usage_from_chunk value else None) as [e|] eqn:E1.
    + injection Hd as ->. do 3 right. apply usage_kept. by destruct (Gemini.usage_only value).
    + injection Hd as Hd. destruct (Gemini.decode_candidate candidate) as [e|] eqn:E2; cbn [opt_or] in Hd.
      { injection Hd as ->. by apply (candidate_kept value candidate). }
      destruct (Gemini.usage_from_chunk value) as [e|] eqn:E3; cbn [opt_or] in Hd.
      { injection Hd as ->. do 3 right. by apply usage_kept. }
      right; right; left. unfold fan_out_candidate. rewrite Hd. by left.
  - destruct (Gemini.block_event value) as [e|] eqn:E1.
    { injection Hd as ->. do 3 right. unfold fan_out_tail, candidate_finish, pointer_str.
      rewrite candidate0_absent by done. cbn [mbind option_bind nonempty opt_filter is_none].
      rewrite E1. apply in_or_app. left. by left. }
    destruct (Gemini.gemini_error_detail value); [done|].
    do 3 right. apply usage_kept. destruct (Gemini.usage_only value); [|congruence].
    destruct (Gemini.usage_from_chunk value) eqn:E2; congruence.
Qed.

(** ** The call sequence of a Gemini stream *)
Definition start_index (ev : IrStreamEvent) : option Z :=
  match ev with ToolCallStart _ _ _ index => Some index | _ => None end.

(** The indexes of the calls started, in order. *)
Definition tool_starts (evs : list IrStreamEvent) : list Z := omap start_index evs.

Lemma tool_starts_app l k : tool_starts (l ++ k) = tool_starts l ++ tool_starts k.
Proof. unfold tool_starts. by rewrite omap_app. Qed.

Lemma tool_starts_push {A} (f : A -> IrStreamEvent) o :
  (forall a, o = Some a -> start_index (f a) = None) -> tool_starts (push_opt f o) = [].
Proof. intros H. destruct o as [a|]; [|done]. unfold tool_starts, push_opt. cbn. by rewrite H. Qed.

Lemma tool_starts_none evs : Forall (fun ev => start_index ev = None) evs -> tool_starts evs = [].
Proof. unfold tool_starts. induction 1 as [|ev evs H _ IH]; [done|]. cbn. by rewrite H. Qed.

Lemma no_start_push {A} (f : A -> IrStreamEvent) o :
  (forall a, o = Some a -> start_index (f a) = None) -> Forall (fun ev => start_index ev = None) (push_opt f o).
Proof. intros H. destruct o as [a|]; cbn; [|constructor]. constructor; [by apply H|constructor]. Qed.

Lemma no_start_annotations value : Forall (fun ev => start_index ev = None) (fan_out_annotations value).
Proof.
  unfold fan_out_annotations. rewrite !Forall_app. split; [|split; [|split; [|split]]].
  - generalize 0. induction (array_at _ _) as [|c l IH]; intros i; cbn [grounding_events]; [constructor|].
    apply Forall_app. split; [by apply no_start_push|apply IH].
  - destruct (Gemini.first_candidate value); [|constructor]. apply Forall_forall. intros ev.
    rewrite list_elem_of_fmap. by intros (a & -> & _).
  - by apply no_start_push.
  - by apply no_start_push.
  - induction (array_at _ _) as [|c l IH]; cbn [flat_map]; [constructor|].
    apply Forall_app. split; [by apply no_start_push|done].
Qed.

Lemma no_start_candidate value : Forall (fun ev => start_index ev = None) (fan_out_candidate value).
Proof.
  unfold fan_out_candidate. rewrite !Forall_app. split; [|repeat split; by apply no_start_push].
  apply no_start_push. intros ev. unfold Gemini.search_entry_from_value.
  destruct (nonempty _); [|done]. by intros [= <-].
Qed.

Lemma no_start_tail value : Forall (fun ev => start_index ev = None) (fan_out_tail value).
Proof.
  unfold fan_out_tail. rewrite !Forall_app.
  repeat match goal with |- _ /\ _ => split end; try (by apply no_start_push).
  - destruct (is_none _); [|constructor]. apply no_start_push. intros ev. unfold Gemini.block_event.
    destruct (nonempty _); [|done]. by intros [= <-].
  - apply no_start_push. intros ev. unfold Gemini.service_tier_from_chunk.
    destruct (object_field value "usageMetadata"); [|done]. cbn.
    destruct (gemini_decode_service_tier _); [|done]. by intros [= <-].
  - unfold gemini_modality_detail_events. apply Forall_app. split; case_match; repeat constructor.
  - apply no_start_push. intros ev. unfold Gemini.usage_from_chunk.
    destruct (object_field value "usageMetadata"); [by intros [= <-]|].
    destruct (opt_filter _ _); [|done]. by intros [= <-].
Qed.

(** A list of calls numbered from [seq], and the number after them. *)
Definition numbered (seq : Z) (starts : list Z) (next : Z) : Prop :=
  0 <= seq -> seq + vlen starts <= u32_max -> starts = seqZ seq (vlen starts) /\ next = seq + vlen starts.

Lemma numbered_nil seq : numbered seq [] seq.
Proof. intros _ _. split; [done|]. unfold vlen. cbn. lia. Qed.

Lemma numbered_app seq l mid k next :
  numbered seq l mid -> numbered mid k next -> numbered seq (l ++ k) next.
Proof.
  intros H1 H2 H0 Hb. rewrite vlen_app in *. pose proof (vlen_nonneg l). pose proof (vlen_nonneg k).
  destruct H1 as [El ->]; [lia..|]. destruct H2 as [Ek ->]; [lia..|]. split; [|lia].
  rewrite seqZ_app by lia. congruence.
Qed.

Lemma numbered_part part seq :
  numbered seq (tool_starts (gemini_part_events part seq).1) (gemini_part_events part seq).2.
Proof.
  assert (T : tool_starts (thought_events part) = []).
  { unfold thought_events. apply tool_starts_none, Forall_app. split; case_match; try constructor; by apply no_start_push. }
  unfold gemini_part_events. destruct (opt_filter gemini_function_call_visible (get part "functionCall")) as [fc|];
    cbn [fst snd]; rewrite tool_starts_app, T; cbn [app].
  - unfold gemini_call_events. cbn [tool_starts omap list_omap start_index].
    fold (tool_starts (push_opt (fun args => ToolCallArgDelta (to_string args) (unwrap_or (u32_try_from seq) 0)) (call_args fc))).
    rewrite tool_starts_push by done. intros H0 Hb. unfold vlen in *. cbn [length] in *.
    rewrite u32_try_from_Some by (int_lia). split; [done|].
    unfold seq_next. rewrite Z.mod_small; int_lia.
  - destruct (gemini_side_part_visible part); [apply numbered_nil|].
    destruct (Gemini.inline_data_event part) as [ev|] eqn:E.
    + rewrite tool_starts_none; [apply numbered_nil|]. constructor; [|constructor].
      unfold Gemini.inline_data_event in E. destruct (get part "inlineData"); [|done]. cbn [mbind option_bind] in E.
      destruct (nonempty _); [|done]. cbn [mbind option_bind] in E. repeat case_hyp E; try done; by injection E as <-.
    + destruct (is_thought part); [apply numbered_nil|]. rewrite tool_starts_push by done. apply numbered_nil.
Qed.

Lemma numbered_parts parts seq :
  numbered seq (tool_starts (gemini_parts_events parts seq).1) (gemini_parts_events parts seq).2.
Proof.
  revert seq. induction parts as [|part parts IH]; intros seq; [apply numbered_nil|]. cbn [gemini_parts_events].
  pose proof (numbered_part part seq) as P. destruct (gemini_part_events part seq) as [out mid].
  specialize (IH mid). destruct (gemini_parts_events parts mid) as [rest next]. cbn [fst snd] in *.
  rewrite tool_starts_app. by eapply numbered_app.
Qed.

Lemma numbered_fan_out value seq :
  numbered seq (tool_starts (unwrap_or (fan_out_gemini_parts value seq).1 [])) (fan_out_gemini_parts value seq).2.
Proof.
  unfold fan_out_gemini_parts. fold (parts0 value). pose proof (numbered_parts (parts0 value) seq) as P.
  destruct (gemini_parts_events (parts0 value) seq) as [parts next]. cbn [fst snd] in P.
  set (out := push_opt _ _ ++ _).
  assert (S : tool_starts out = tool_starts parts).
  { unfold out. rewrite !tool_starts_app, tool_starts_push by done.
    rewrite (tool_starts_none (fan_out_annotations value)) by apply no_start_annotations.
    rewrite (tool_starts_none (fan_out_candidate value)) by apply no_start_candidate.
    rewrite (tool_starts_none (fan_out_tail value)) by apply no_start_tail. by rewrite !app_nil_r. }
  destruct out as [|e l]; cbn [fst snd unwrap_or]; [apply numbered_nil|]. by rewrite S.
Qed.

Lemma part_not_lost part ev seq :
  Gemini.decode_part part = Some ev -> (gemini_part_events part seq).1 <> [].
Proof.
  unfold Gemini.decode_part, gemini_part_events, thought_events, is_thought. cbv zeta. intros H E.
  destruct (opt_filter _ _); cbn [fst] in E; apply app_eq_nil in E as [E1 E2]; [done|].
  apply app_eq_nil in E1 as [E0 E1].
  assert (S : (if is_none (get part "functionCall") then nonempty (get_str part "thoughtSignature") else None) = None).
  { destruct (is_none _); [|done]. by destruct (nonempty (get_str part "thoughtSignature")). }
  rewrite S in H. destruct (gemini_side_part_visible part); [done|].
  destruct (Gemini.inline_data_event part); [done|].
  by destruct (bool_decide _), (nonempty (get_str part "text")).
Qed.

Lemma parts_not_lost parts ev seq :
  find_map Gemini.decode_part parts = Some ev -> (gemini_parts_events parts seq).1 <> [].
Proof.
  revert seq. induction parts as [|part parts IH]; intros seq; [done|]. cbn [find_map gemini_parts_events].
  destruct (Gemini.decode_part part) as [e|] eqn:D.
  - intros _. pose proof (part_not_lost part e seq D) as N. destruct (gemini_part_events part seq) as [out mid].
    destruct (gemini_parts_events parts mid). cbn [fst] in *. intros E. apply app_eq_nil in E. tauto.
  - intros F. destruct (gemini_part_events part seq) as [out mid]. specialize (IH mid F).
    destruct (gemini_parts_events parts mid). cbn [fst] in *. intros E. apply app_eq_nil in E. tauto.
Qed.

(** Neither a call nor a protocol event. *)
Definition quiet (ev : IrStreamEvent) : bool := is_none (start_index ev) && negb (is_protocol ev).

Lemma usage_quiet value ev : Gemini.usage_from_chunk value = Some ev -> quiet ev = true.
Proof.
  unfold Gemini.usage_from_chunk. destruct (object_field value "usageMetadata"); [by intros [= <-]|].
  destruct (opt_filter _ _); [|done]. by intros [= <-].
Qed.

Lemma candidate_quiet candidate ev :
  Gemini.parts_of candidate ≫= find_map Gemini.decode_part = None ->
  Gemini.decode_candidate candidate = Some ev -> quiet ev = true.
Proof.
  intros P. unfold Gemini.decode_candidate, Gemini.finish_event. rewrite P. cbn [opt_or].
  destruct (Gemini.grounding_event candidate); [by intros [= <-]|].
  destruct (Gemini.first_citation_annotation candidate); [by intros [= <-]|].
  destruct (Gemini.attribution_event candidate); [by intros [= <-]|].
  destruct (get candidate "logprobsResult" ≫= _); [by intros [= <-]|].
  destruct (nonempty_field candidate "finishReason"); [by intros [= <-]|].
  destruct (nonempty_field candidate "finishMessage"); [by intros [= <-]|done].
Qed.

(** A singular start comes from a part that the fan-out does not lose. *)
Lemma gemini_single_quiet value seq ev :
  Gemini.decode value = Ok (Some ev) -> (fan_out_gemini_parts value seq).1 = None -> quiet ev = true.
Proof.
  intros Hd Hf. assert (Hp : (gemini_parts_events (parts0 value) seq).1 = []).
  { revert Hf. unfold fan_out_gemini_parts. fold (parts0 value).
    destruct (gemini_parts_events (parts0 value) seq) as [parts next]. cbn [fst].
    destruct parts as [|e parts]; [done|]. destruct (push_opt _ _); done. }
  unfold Gemini.decode in Hd. cbv zeta in Hd.
  destruct (Gemini.first_candidate value) as [candidate|] eqn:Hc; cbn [is_none is_some_and] in Hd.
  - destruct (if candidate_visible candidate then _ else _); [done|].
    destruct (if Gemini.usage_only value then _ else _) as [e|] eqn:E1.
    { injection Hd as ->. destruct (Gemini.usage_only value); [|done]. by apply (usage_quiet value). }
    injection Hd as Hd. destruct (Gemini.decode_candidate candidate) as [e|] eqn:E2; cbn [opt_or] in Hd.
    { injection Hd as ->. apply (candidate_quiet candidate); [|done].
      unfold Gemini.parts_of. unfold parts0, array_at in Hp. rewrite (candidate0_pointer _ candidate) in Hp by done.
      destruct (pointer candidate _ ≫= as_array) as [l|]; [|done]. cbn [mbind option_bind unwrap_or] in *.
      destruct (find_map Gemini.decode_part l) as [e|] eqn:F; [|done]. by destruct (parts_not_lost l e seq F). }
    destruct (Gemini.usage_from_chunk value) as [e|] eqn:E3; cbn [opt_or] in Hd.
    { injection Hd as ->. by apply (usage_quiet value). }
    unfold Gemini.search_entry_from_value in Hd. destruct (nonempty _); [by injection Hd as <-|done].
  - unfold Gemini.block_event in Hd. destruct (nonempty _); [by injection Hd as <-|].
    cbn [fmap option_fmap option_map] in Hd. destruct (Gemini.gemini_error_detail value); [done|].
    apply (usage_quiet value). destruct (Gemini.usage_only value); [|congruence].
    destruct (Gemini.usage_from_chunk value) eqn:E2; congruence.
Qed.

Lemma unknown_quiet wire policy name data ev :
  unknown_event wire policy name data = Ok (Some ev) -> quiet ev = true.
Proof. unfold unknown_event. intros H. repeat case_hyp H; try done; by injection H as <-. Qed.

Section Stream.
Context (parse_error : string -> string) (dialect : Dialect).

Lemma gemini_first raw ev :
  decode_stream_event parse_error Gemini raw dialect = Ok (Some ev) ->
  quiet ev = true \/ exists value, from_str (raw_data raw) = Some value /\ Gemini.decode value = Ok (Some ev).
Proof.
  unfold decode_stream_event. destruct (_ && _); [done|]. destruct (negb _); [intros H; left; by eapply unknown_quiet|].
  destruct (_ || _); [intros [= <-]; by left|]. destruct (from_str (raw_data raw)) as [v|]; [|done].
  intros H. right. by exists v.
Qed.

Lemma quiet_not_expanded ev raw :
  quiet ev = true -> expand_complete_tool_call Gemini ev raw = Ok None.
Proof.
  intros Q. unfold expand_complete_tool_call. destruct (from_str (raw_data raw)) as [v|]; [|done].
  f_equal. unfold expand_gemini_function_call.
  destruct (_ ≫= as_array) as [l|]; [|done]. cbn [mbind option_bind].
  destruct (List.find _ l) as [part|]; [|done]. cbn [mbind option_bind].
  destruct (get part "functionCall") as [fc|]; [|done]. cbn [mbind option_bind].
  destruct (call_args fc); [|done]. cbn [mbind option_bind]. by destruct ev.
Qed.

Lemma numbered_frame raw seq evs next :
  decode_stream_events_seq parse_error Gemini raw dialect seq = (Ok evs, next) ->
  numbered seq (tool_starts evs) next.
Proof.
  unfold decode_stream_events_seq, rest_events. change (wire_eqb Gemini Converse) with false.
  change (wire_eqb Gemini Gemini) with true. change (wire_eqb Gemini Messages) with false. cbn iota.
  change (2 <=? vlen []) with false. cbn iota.
  destruct (decode_stream_event parse_error Gemini raw dialect) as [first|e] eqn:F; [|done].
  assert (Quiet : forall ev, first = Some ev -> quiet ev = true -> forall res n,
    (let* expanded := expand_complete_tool_call Gemini ev raw in
      match expanded with Some events => Ok events | None => Ok [ev] end, n) = (Ok evs, next) ->
     res = n -> n = seq -> numbered seq (tool_starts evs) next).
  { intros ev -> Q res n H _ ->. rewrite quiet_not_expanded in H by done. cbn [rbind] in H. injection H as <- <-.
    rewrite tool_starts_none; [apply numbered_nil|]. constructor; [|constructor].
    unfold quiet in Q. by destruct (start_index ev). }
  destruct (from_str (raw_data raw)) as [value|] eqn:V.
  - pose proof (numbered_fan_out value seq) as N.
    destruct (fan_out_gemini_parts value seq) as [[fanned|] n] eqn:E; cbn [fst snd unwrap_or] in N.
    { intros [= <- <-]. exact N. }
    assert (n = seq) as ->.
    { revert E. unfold fan_out_gemini_parts. destruct (gemini_parts_events _ seq). by case_match; intros [= <-]. }
    destruct first as [ev|]; [|intros [= <- <-]; exact N]. intros H. eapply (Quiet ev); try done.
    destruct (gemini_first raw ev F) as [Q|(v & V2 & D)]; [done|].
    rewrite V in V2. injection V2 as <-. apply (gemini_single_quiet value seq); [done|]. by rewrite E.
  - destruct first as [ev|]; [|intros [= <- <-]; apply numbered_nil]. intros H. eapply (Quiet ev); try done.
    destruct (gemini_first raw ev F) as [Q|(v & V2 & D)]; [done|]. congruence.
Qed.

(** The calls a [StreamDecoder] starts on a Gemini stream are numbered one
    after the other, over parts and over frames: no two calls of a stream get
    the same index, whatever the frames are. *)
Theorem gemini_calls_numbered frames d d' evs :
  decode_stream parse_error d Gemini frames dialect = (d', Ok evs) ->
  0 <= gemini_call_seq d -> gemini_call_seq d + vlen (tool_starts evs) <= u32_max ->
  tool_starts evs = seqZ (gemini_call_seq d) (vlen (tool_starts evs))
  /\ gemini_call_seq d' = gemini_call_seq d + vlen (tool_starts evs).
Proof.
  change (decode_stream parse_error d Gemini frames dialect = (d', Ok evs) ->
          numbered (gemini_call_seq d) (tool_starts evs) (gemini_call_seq d')).
  revert d d' evs. induction frames as [|raw frames IH]; intros d d' evs; cbn [decode_stream].
  { intros [= <- <-]. apply numbered_nil. }
  unfold decoder_decode. destruct (decode_stream_events_seq parse_error Gemini raw dialect (gemini_call_seq d))
    as [res next] eqn:E. destruct res as [events|e]; [|done].
  destruct (decode_stream parse_error (mkDecoder next) Gemini frames dialect) as [d2 [rest|e]] eqn:R; [|done].
  intros [= <- <-]. rewrite tool_starts_app. eapply numbered_app; [by apply (numbered_frame raw)|].
  apply (IH _ _ _ R).
Qed.
End Stream.

(** ** Which events a wire refuses to write *)
Definition refused (wire : Wire) (ev : IrStreamEvent) : bool :=
  match wire, ev with
  | Converse, ImageDelta media_type _ => is_none (converse_image_format media_type)
  | Converse, (Diagnostics _ | Container _ | ContextManagement _ | StopSequence _) => true
  | ChatCompletions, Protocol item_type payload =>
      String.eqb item_type "system_fingerprint" && is_none (not_blank (as_str payload))
  | _, _ => false
  end.

(** [encode_stream_event] refuses exactly an image format Bedrock has no name
    for, the response-level events Converse has no frame for, and a blank Chat
    fingerprint.  Every other event is written on every wire. *)
Theorem encode_stream_event_refuses debug wire ev :
  is_ok (encode_stream_event debug wire ev) = negb (refused wire ev).
Proof.
  destruct ev; try (by destruct wire).
  - destruct wire; try done. cbn. by destruct (converse_image_format media_type).
  - destruct wire; try done.
    unfold encode_stream_event, Messages.encode, Messages.encode_event.
    by destruct (Messages.usage_service_tier_to_messages tier).
  - destruct wire; try done. unfold encode_stream_event, Responses.encode, Responses.encode_event.
    by destruct (Responses.finish_frame reason).
  - assert (Other : wire <> ChatCompletions ->
      is_ok (encode_stream_event debug wire (Protocol item_type payload)) = true).
    { intros W. unfold encode_stream_event, wire_eqb. rewrite (bool_decide_false (wire = ChatCompletions)) by done.
      cbn [andb]. by repeat case_match. }
    destruct wire; try (by apply Other). clear Other.
    cbn [encode_stream_event andb refused]. change (wire_eqb ChatCompletions Responses) with false.
    change (wire_eqb ChatCompletions ChatCompletions) with true. change (wire_eqb ChatCompletions Converse) with false.
    cbn [andb]. unfold one_of. cbn [existsb].
    destruct (String.eqb item_type "system_fingerprint") eqn:E1.
    + apply String.eqb_eq in E1 as ->. cbn [orb andb encode encode_data]. eqb_literals. cbn [andb].
      by destruct (not_blank (as_str payload)).
    + cbn [orb andb negb]. destruct (String.eqb item_type "chat_audio_id") eqn:E2; cbn [orb].
      { unfold encode, encode_data. by rewrite E2. }
      destruct (String.eqb item_type "chat_audio_expires") eqn:E3; cbn [orb]; [|done].
      unfold encode, encode_data. by rewrite E2, E3.
Qed.
End Properties.

(** ** The end of a stream *)
Section Terminal.
Context {SJ : SerdeJson}.
Context {SJL : SerdeJsonLaws}.

Lemma gemini_terminal data :
  reparses data = true ->
  gemini_frame_is_terminal (mkRawSse None (to_string data)) =
  (nonempty_reason (pointer data [Key "candidates"; Idx 0; Key "finishReason"])
   || nonempty_reason (pointer data [Key "promptFeedback"; Key "blockReason"])).
Proof. intros R. unfold gemini_frame_is_terminal. cbn [raw_data]. rewrite from_to by done. by destruct (nonempty_reason _). Qed.

Lemma converse_terminal data :
  reparses data = true ->
  converse_frame_is_terminal (mkRawSse None (to_string data)) =
  is_some (pointer_str data [Key "messageStop"; Key "stopReason"]).
Proof. intros R. unfold converse_frame_is_terminal. cbn [raw_data]. by rewrite from_to. Qed.

(** The events a wire writes as the end of a stream. *)
Definition closes_stream (wire : Wire) (ev : IrStreamEvent) : bool :=
  match wire, ev with
  | Gemini, FinishReason reason vendor => negb (is_empty (Gemini.finish_token reason vendor))
  | Converse, (FinishReason _ _ | Done) => true
  | Responses, (FinishReason _ _ | Done | Usage _ _ _ _ _ _ _ _ | Moderation _ _) => true
  | _, _ => false
  end.

(** Of the frames the three encoders write, the terminal test of the proxy
    takes exactly these as the end of a stream: a Gemini frame with a finish
    token, a Converse stop frame, and a Responses frame under one of the
    three terminal names, which usage and moderation frames also carry. *)
Theorem terminal_frames_agree debug ev :
  (forall data, Gemini.encode_data ev = Ok data -> reparses data = true ->
    gemini_frame_is_terminal (mkRawSse None (to_string data)) = closes_stream Gemini ev)
  /\ (forall data, Converse.encode debug ev = Ok data -> reparses data = true ->
    converse_frame_is_terminal (mkRawSse None (to_string data)) = closes_stream Converse ev)
  /\ (forall name data, Responses.encode_event ev = Ok (name, data) ->
    responses_frame_is_terminal (mkRawSse (Some name) (to_string data)) = closes_stream Responses ev).
Proof.
  split; [|split].
  - intros data H R. rewrite gemini_terminal by done. clear R.
    destruct ev; cbn [closes_stream Gemini.encode_data] in H |- *; try discriminate; injection H as <-;
      try reflexivity; try (by destruct (gemini_service_tier tier) as [[? ?]|]);
      try (by destruct (nonempty thought_signature)).
    unfold nonempty_reason. by destruct (Gemini.finish_token reason vendor).
  - intros data H R. rewrite converse_terminal by done. clear R.
    destruct ev; cbn [closes_stream Converse.encode] in H |- *; try discriminate; try (injection H as <-); try reflexivity.
    by destruct (converse_image_format media_type); [injection H as <-|].
  - intros name data H. unfold responses_frame_is_terminal, frame_event_name. cbn [raw_event].
    destruct ev; cbn [closes_stream Responses.encode_event] in H |- *; try discriminate; try (injection H as <- <-); try reflexivity.
    unfold Responses.finish_frame in H. repeat case_hyp H; by injection H as <- <-.
Qed.
End Terminal.

(** ** The caps on decoded indexes *)
Section Caps.
Context {SJ : SerdeJson}.

Definition within (cap : Z) (ev : IrStreamEvent) : Prop := forall i, event_index ev = Some i -> 0 <= i <= cap.

(** Hostile indexes never reach the IR: on the four wires that carry an
    index, no event a decoder gives has an index above the cap of its wire,
    whatever the JSON is.  On Chat the chunk must list its calls. *)
Theorem decoded_indexes_capped ev :
  (forall value evs, legacy_call value = false -> Chat.decode_all value = Ok evs -> In ev evs ->
     within MAX_TOOL_CALL_INDEX ev)
  /\ (forall name value evs, Responses.decode_all name value = Ok evs -> In ev evs -> within MAX_TOOL_CALL_INDEX ev)
  /\ (forall name value, Messages.decode name value = Ok (Some ev) -> within MAX_CONTENT_BLOCK_INDEX ev)
  /\ (forall value, Converse.decode value = Ok (Some ev) -> within MAX_CONTENT_BLOCK_INDEX ev).
Proof.
  unfold within. split_and!.
  - intros value evs L H Hin. pose proof (Chat.chat_index_capped value evs L H) as F.
    rewrite List.Forall_forall in F. by apply (F ev Hin).
  - intros name value evs H Hin i Hi. by apply (Responses.responses_index_capped name value evs ev).
  - intros name value H i Hi. by apply (Messages.messages_index_capped name value ev).
  - intros value H i Hi. by apply (Converse.converse_index_capped value ev).
Qed.
End Caps.

(** ** Witnesses *)
Section Witnesses.
#[local] Existing Instance bits_codec.
#[local] Existing Instance bits_codec_laws.

Lemma gemini_encode_decode_witness :
  exists data, Gemini.encode (ToolCallStart "c1" "f" (Some "sig") 0) = Ok (mkRawSse None (to_string data))
    /\ gemini_reads data (ToolCallStart "c1" "f" (Some "sig") 0).
Proof.
  apply gemini_encode_decode. split; [reflexivity|]. split; [|reflexivity]. by intros s [= <-].
Defined.

(** A thought followed by a call, and a finish reason. *)
Definition sample_chunk : json :=
  jobj [("candidates", JArr [jobj [
    ("content", jobj [("parts", JArr [
       jobj [("thought", JBool true); ("text", JStr "hm")];
       jobj [("functionCall", jobj [("name", JStr "f"); ("args", jobj [("x", jint 1)])])];
       jobj [("functionCall", jobj [("name", JStr "g")])]])]);
    ("finishReason", JStr "STOP")]])].

Lemma gemini_plural_keeps_singular_witness :
  exists evs, (fan_out_gemini_parts sample_chunk 0).1 = Some evs /\ In (ReasoningDelta "hm") evs.
Proof. apply gemini_plural_keeps_singular; vm_compute; reflexivity. Defined.

Definition sample_dialect : Dialect :=
  mkDialect (Some Gemini) (default_stream_events Gemini) Replace PolicyHardError UnknownHardError.

Definition sample_events : list IrStreamEvent :=
  let d := mkDecoder 0 in
  match decode_stream (fun s => s) d Gemini
          (repeat (mkRawSse None (to_string sample_chunk)) 2) sample_dialect with
  | (_, Ok evs) => evs
  | _ => []
  end.

Lemma gemini_calls_numbered_witness : tool_starts sample_events = seqZ 0 4 /\ 4 = 0 + 4.
Proof.
  apply (gemini_calls_numbered (fun s => s) sample_dialect
           (repeat (mkRawSse None (to_string sample_chunk)) 2) (mkDecoder 0) (mkDecoder 4) sample_events);
    vm_compute; [reflexivity | discriminate..].
Defined.
Definition finish_chunk : json := Gemini.candidate_chunk [("finishReason", JStr "STOP")].

Lemma terminal_frames_agree_witness : gemini_frame_is_terminal (mkRawSse None (to_string finish_chunk)) = true.
Proof.
  apply (proj1 (terminal_frames_agree (fun _ => "") (FinishReason "stop" (Some "STOP"))) finish_chunk);
    vm_compute; reflexivity.
Defined.

Lemma decoded_indexes_capped_witness : 0 <= 7 <= MAX_CONTENT_BLOCK_INDEX.
Proof.
  apply (proj1 (proj2 (proj2 (decoded_indexes_capped (ToolCallArgDelta "{}" 7))))
    "content_block_delta" (Messages.block_delta 7 [("type", JStr "input_json_delta"); ("partial_json", JStr "{}")]).2);
    vm_compute; reflexivity.
Defined.
End Witnesses.
