(* ===== verification/Fields.v ===== *)
(** * Fields: assignment to one field of a large record

    The stream encoder is a struct of seventy fields that its methods assign
    one at a time.  [e <| f := v |>] is [self.f = v] and [e <| f ::= g |>] is
    an in-place update [self.f = g(self.f)].  A record declares [Eta] once and
    [derive_field] gives the update of each field. *)

From S2P Require Import Prelude.

(** A record rebuilt from its projections. *)
Class Eta (R : Type) := eta : R -> R.

(** The update of one field. *)
Class Field {R T : Type} (proj : R -> T) := over : (T -> T) -> R -> R.
#[global] Hint Mode Field - - + : typeclass_instances.
Arguments over {R T} proj {_} f r : simpl never.

(** [eta r] with the occurrence of the field replaced by its new value. *)
Ltac derive_field :=
  lazymatch goal with
  | |- @Field ?R ?T ?proj =>
      let g := fresh "g" in let r := fresh "r" in
      intros g r;
      let whole := eval hnf in (eta r) in
      let hole := eval pattern (proj r) in whole in
      lazymatch hole with
      | (fun _ => ?same) _ => fail "no such field"
      | ?build _ =>
        let body := eval cbv beta in (build (g (proj r))) in exact body
      end
  end.

Notation "r <| p := v |>" := (over p (fun _ => v) r)
  (at level 1, p at level 1, v at level 99, left associativity, format "r  <| p  :=  v |>") : wire_scope.
Notation "r <| p ::= g |>" := (over p g r)
  (at level 1, p at level 1, g at level 99, left associativity, format "r  <| p  ::=  g |>") : wire_scope.
#[global] Open Scope wire_scope.

(** Read a field through the updates under it: the updated field is the new
    value, any other field is what it was.  The equation is proved for any
    record before it is used, so nested updates are never compared. *)
Ltac field_law p q i law :=
  tryif constr_eq p q
  then assert (law : forall g r, p (@over _ _ q i g r) = g (p r)) by (intros ? ?; reflexivity)
  else assert (law : forall g r, p (@over _ _ q i g r) = p r) by (intros ? ?; reflexivity).

Ltac field_step :=
  match goal with
  | |- context [?p (@over _ _ ?q ?i ?f ?r)] =>
      let _ := constr:(_ : Field p) in
      let law := fresh "law" in
      field_law p q i law; rewrite (law f r); clear law; cbv beta
  end.

Ltac field_step_in H :=
  match type of H with
  | context [?p (@over _ _ ?q ?i ?f ?r)] =>
      let _ := constr:(_ : Field p) in
      let law := fresh "law" in
      field_law p q i law; rewrite (law f r) in H; clear law; cbv beta in H
  end.

Ltac simpl_fields := repeat field_step.
Ltac simpl_fields_in H := repeat field_step_in H.
Ltac simpl_fields_all := repeat (match goal with H : _ |- _ => field_step_in H end); simpl_fields.
