(* ===== verification/EncoderCore.v ===== *)
(** * EncoderCore: the stateful stream encoder, its state and shared steps

    crates/wiremux/src/stream/encoder.rs: [StreamEncoder] as one record with
    the fields of the struct, and the methods that all wires or several of
    them use.  A method [fn f(&mut self, ..) -> Frames] is a function to
    [Frames * StreamEncoder]; hash maps and hash sets, which the code reads by
    key only, are [gmap] and [gset], ordered maps the sorted bindings of
    [BTree]. *)

From stdpp Require Import gmap.
From S2P Require Import Prelude Fields Text Json Sse Ir ProfileTypes BTree Shapes.
From S2P Require Import Responses.

Inductive BlockKind := Text | Thinking | Tool | CustomTool.

#[export] Instance block_kind_eq_dec : EqDecision BlockKind.
Proof. solve_decision. Defined.

(** One Converse tool call announced while another tool block is open. *)
Record ConverseHeld := mkConverseHeld {
  ch_id : string; ch_name : string; ch_signature : option string; ch_args : string
}.

(** One Gemini function call while its argument fragments are still open. *)
Record GeminiHeldCall := mkGeminiHeld {
  gh_id : string; gh_name : string; gh_args : string; gh_thought_signature : option string; gh_custom : bool
}.

(** A Messages tool call held while another is open: slot, id, name, arguments. *)
Definition HeldTool : Type := Z * string * string * string.

(** The struct, field by field. *)
Record StreamEncoder := mkEncoder {
  enc_wire : Wire; enc_model : string; enc_started : bool; enc_finished : bool; enc_next_block : Z;
  enc_open : option (Z * BlockKind); enc_finish : option string;
  enc_usage : option (Z * Z * Z * Z * Z * Z * Z); enc_usage_inference_geo : option string;
  enc_used_tool : gset Z; enc_saw_custom_tool : bool; enc_next_tool : Z; enc_tool_slots : gmap Z (list Z);
  enc_tool_got_arg : gset Z; enc_last_tool : gmap Z Z; enc_tool_items : gmap Z (string * string * string);
  enc_tool_ids : gmap Z string; enc_text_items : gmap Z string; enc_message_parts : gmap Z (list json);
  enc_text_annotations : gmap Z (list json); enc_text_logprobs : gmap Z (list json);
  enc_refusal_items : gmap Z string; enc_reasoning_items : gmap Z string; enc_created_at : option Z;
  enc_chat_completion_id : option string; enc_accepted_prediction_tokens : option Z;
  enc_rejected_prediction_tokens : option Z; enc_messages_id : option string;
  enc_messages_web_search_requests : option Z; enc_messages_web_fetch_requests : option Z;
  enc_messages_cache_creation : option json; enc_messages_container : option json;
  enc_messages_container_written : bool; enc_messages_context_management : option json;
  enc_messages_cache_miss : option json; enc_responses_id : option string;
  enc_responses_previous_id : option string; enc_responses_message_id : option string;
  enc_responses_message_status : option string; enc_responses_message_phase : option string;
  enc_responses_message_agent : option json; enc_responses_reasoning_id : option string;
  enc_responses_reasoning_status : option string; enc_responses_reasoning_content : option json;
  enc_responses_tool_pending : list (Z * ResponsesToolExtra);
  enc_responses_tool_extra : list (Z * ResponsesToolExtra); enc_gemini_response_id : option string;
  enc_gemini_safety_ratings : option json; enc_gemini_prompt_safety : option json;
  enc_gemini_block_reason_message : option string; enc_gemini_traffic_type : option string;
  enc_gemini_tool_use_prompt_tokens : option Z; enc_gemini_avg_logprobs : option Z;
  enc_gemini_candidate_tokens : option Z; enc_gemini_prompt_token_details : option json;
  enc_gemini_candidate_token_details : option json; enc_gemini_url_context : option json;
  enc_gemini_citation_metadata : option json; enc_converse_passthrough : list (string * json);
  enc_service_tier : option string; enc_stop_sequence : option string;
  enc_metadata : option (list (string * string)); enc_moderation : option (option json * option json);
  enc_refusal : string; enc_held_tools : list (Z * HeldTool);
  enc_responses_held : list (Z * unit); enc_converse_held : list (Z * ConverseHeld);
  enc_deferred : list IrStreamEvent; enc_closed_tools : gset Z;
  enc_gemini_open_calls : list (Z * GeminiHeldCall); enc_custom_args : gmap Z string;
  enc_gemini_deferred : list RawSse
}.

#[export] Instance encoder_eta : Eta StreamEncoder := fun e => mkEncoder
  (enc_wire e) (enc_model e) (enc_started e) (enc_finished e) (enc_next_block e) (enc_open e)
  (enc_finish e) (enc_usage e) (enc_usage_inference_geo e) (enc_used_tool e) (enc_saw_custom_tool e)
  (enc_next_tool e) (enc_tool_slots e) (enc_tool_got_arg e) (enc_last_tool e) (enc_tool_items e)
  (enc_tool_ids e) (enc_text_items e) (enc_message_parts e) (enc_text_annotations e) (enc_text_logprobs e)
  (enc_refusal_items e) (enc_reasoning_items e) (enc_created_at e) (enc_chat_completion_id e)
  (enc_accepted_prediction_tokens e) (enc_rejected_prediction_tokens e) (enc_messages_id e)
  (enc_messages_web_search_requests e) (enc_messages_web_fetch_requests e) (enc_messages_cache_creation e)
  (enc_messages_container e) (enc_messages_container_written e) (enc_messages_context_management e)
  (enc_messages_cache_miss e) (enc_responses_id e) (enc_responses_previous_id e)
  (enc_responses_message_id e) (enc_responses_message_status e) (enc_responses_message_phase e)
  (enc_responses_message_agent e) (enc_responses_reasoning_id e) (enc_responses_reasoning_status e)
  (enc_responses_reasoning_content e) (enc_responses_tool_pending e) (enc_responses_tool_extra e)
  (enc_gemini_response_id e) (enc_gemini_safety_ratings e) (enc_gemini_prompt_safety e)
  (enc_gemini_block_reason_message e) (enc_gemini_traffic_type e) (enc_gemini_tool_use_prompt_tokens e)
  (enc_gemini_avg_logprobs e) (enc_gemini_candidate_tokens e) (enc_gemini_prompt_token_details e)
  (enc_gemini_candidate_token_details e) (enc_gemini_url_context e) (enc_gemini_citation_metadata e)
  (enc_converse_passthrough e) (enc_service_tier e) (enc_stop_sequence e) (enc_metadata e)
  (enc_moderation e) (enc_refusal e) (enc_held_tools e) (enc_responses_held e) (enc_converse_held e)
  (enc_deferred e) (enc_closed_tools e) (enc_gemini_open_calls e) (enc_custom_args e)
  (enc_gemini_deferred e).

#[export] Instance set_wire : Field enc_wire := ltac:(derive_field).
#[export] Instance set_model : Field enc_model := ltac:(derive_field).
#[export] Instance set_started : Field enc_started := ltac:(derive_field).
#[export] Instance set_finished : Field enc_finished := ltac:(derive_field).
#[export] Instance set_next_block : Field enc_next_block := ltac:(derive_field).
#[export] Instance set_open : Field enc_open := ltac:(derive_field).
#[export] Instance set_finish : Field enc_finish := ltac:(derive_field).
#[export] Instance set_usage : Field enc_usage := ltac:(derive_field).
#[export] Instance set_usage_inference_geo : Field enc_usage_inference_geo := ltac:(derive_field).
#[export] Instance set_used_tool : Field enc_used_tool := ltac:(derive_field).
#[export] Instance set_saw_custom_tool : Field enc_saw_custom_tool := ltac:(derive_field).
#[export] Instance set_next_tool : Field enc_next_tool := ltac:(derive_field).
#[export] Instance set_tool_slots : Field enc_tool_slots := ltac:(derive_field).
#[export] Instance set_tool_got_arg : Field enc_tool_got_arg := ltac:(derive_field).
#[export] Instance set_last_tool : Field enc_last_tool := ltac:(derive_field).
#[export] Instance set_tool_items : Field enc_tool_items := ltac:(derive_field).
#[export] Instance set_tool_ids : Field enc_tool_ids := ltac:(derive_field).
#[export] Instance set_text_items : Field enc_text_items := ltac:(derive_field).
#[export] Instance set_message_parts : Field enc_message_parts := ltac:(derive_field).
#[export] Instance set_text_annotations : Field enc_text_annotations := ltac:(derive_field).
#[export] Instance set_text_logprobs : Field enc_text_logprobs := ltac:(derive_field).
#[export] Instance set_refusal_items : Field enc_refusal_items := ltac:(derive_field).
#[export] Instance set_reasoning_items : Field enc_reasoning_items := ltac:(derive_field).
#[export] Instance set_created_at : Field enc_created_at := ltac:(derive_field).
#[export] Instance set_chat_completion_id : Field enc_chat_completion_id := ltac:(derive_field).
#[export] Instance set_accepted_prediction_tokens : Field enc_accepted_prediction_tokens := ltac:(derive_field).
#[export] Instance set_rejected_prediction_tokens : Field enc_rejected_prediction_tokens := ltac:(derive_field).
#[export] Instance set_messages_id : Field enc_messages_id := ltac:(derive_field).
#[export] Instance set_messages_web_search_requests : Field enc_messages_web_search_requests := ltac:(derive_field).
#[export] Instance set_messages_web_fetch_requests : Field enc_messages_web_fetch_requests := ltac:(derive_field).
#[export] Instance set_messages_cache_creation : Field enc_messages_cache_creation := ltac:(derive_field).
#[export] Instance set_messages_container : Field enc_messages_container := ltac:(derive_field).
#[export] Instance set_messages_container_written : Field enc_messages_container_written := ltac:(derive_field).
#[export] Instance set_messages_context_management : Field enc_messages_context_management := ltac:(derive_field).
#[export] Instance set_messages_cache_miss : Field enc_messages_cache_miss := ltac:(derive_field).
#[export] Instance set_responses_id : Field enc_responses_id := ltac:(derive_field).
#[export] Instance set_responses_previous_id : Field enc_responses_previous_id := ltac:(derive_field).
#[export] Instance set_responses_message_id : Field enc_responses_message_id := ltac:(derive_field).
#[export] Instance set_responses_message_status : Field enc_responses_message_status := ltac:(derive_field).
#[export] Instance set_responses_message_phase : Field enc_responses_message_phase := ltac:(derive_field).
#[export] Instance set_responses_message_agent : Field enc_responses_message_agent := ltac:(derive_field).
#[export] Instance set_responses_reasoning_id : Field enc_responses_reasoning_id := ltac:(derive_field).
#[export] Instance set_responses_reasoning_status : Field enc_responses_reasoning_status := ltac:(derive_field).
#[export] Instance set_responses_reasoning_content : Field enc_responses_reasoning_content := ltac:(derive_field).
#[export] Instance set_responses_tool_pending : Field enc_responses_tool_pending := ltac:(derive_field).
#[export] Instance set_responses_tool_extra : Field enc_responses_tool_extra := ltac:(derive_field).
#[export] Instance set_gemini_response_id : Field enc_gemini_response_id := ltac:(derive_field).
#[export] Instance set_gemini_safety_ratings : Field enc_gemini_safety_ratings := ltac:(derive_field).
#[export] Instance set_gemini_prompt_safety : Field enc_gemini_prompt_safety := ltac:(derive_field).
#[export] Instance set_gemini_block_reason_message : Field enc_gemini_block_reason_message := ltac:(derive_field).
#[export] Instance set_gemini_traffic_type : Field enc_gemini_traffic_type := ltac:(derive_field).
#[export] Instance set_gemini_tool_use_prompt_tokens : Field enc_gemini_tool_use_prompt_tokens := ltac:(derive_field).
#[export] Instance set_gemini_avg_logprobs : Field enc_gemini_avg_logprobs := ltac:(derive_field).
#[export] Instance set_gemini_candidate_tokens : Field enc_gemini_candidate_tokens := ltac:(derive_field).
#[export] Instance set_gemini_prompt_token_details : Field enc_gemini_prompt_token_details := ltac:(derive_field).
#[export] Instance set_gemini_candidate_token_details : Field enc_gemini_candidate_token_details := ltac:(derive_field).
#[export] Instance set_gemini_url_context : Field enc_gemini_url_context := ltac:(derive_field).
#[export] Instance set_gemini_citation_metadata : Field enc_gemini_citation_metadata := ltac:(derive_field).
#[export] Instance set_converse_passthrough : Field enc_converse_passthrough := ltac:(derive_field).
#[export] Instance set_service_tier : Field enc_service_tier := ltac:(derive_field).
#[export] Instance set_stop_sequence : Field enc_stop_sequence := ltac:(derive_field).
#[export] Instance set_metadata : Field enc_metadata := ltac:(derive_field).
#[export] Instance set_moderation : Field enc_moderation := ltac:(derive_field).
#[export] Instance set_refusal : Field enc_refusal := ltac:(derive_field).
#[export] Instance set_held_tools : Field enc_held_tools := ltac:(derive_field).
#[export] Instance set_responses_held : Field enc_responses_held := ltac:(derive_field).
#[export] Instance set_converse_held : Field enc_converse_held := ltac:(derive_field).
#[export] Instance set_deferred : Field enc_deferred := ltac:(derive_field).
#[export] Instance set_closed_tools : Field enc_closed_tools := ltac:(derive_field).
#[export] Instance set_gemini_open_calls : Field enc_gemini_open_calls := ltac:(derive_field).
#[export] Instance set_custom_args : Field enc_custom_args := ltac:(derive_field).
#[export] Instance set_gemini_deferred : Field enc_gemini_deferred := ltac:(derive_field).

Definition new (w : Wire) : StreamEncoder := {|
  enc_wire := w; enc_model := ""; enc_started := false; enc_finished := false; enc_next_block := 0;
  enc_open := None; enc_finish := None; enc_usage := None; enc_usage_inference_geo := None;
  enc_used_tool := ∅; enc_saw_custom_tool := false; enc_next_tool := 0; enc_tool_slots := ∅;
  enc_tool_got_arg := ∅; enc_last_tool := ∅; enc_tool_items := ∅; enc_tool_ids := ∅; enc_text_items := ∅;
  enc_message_parts := ∅; enc_text_annotations := ∅; enc_text_logprobs := ∅; enc_refusal_items := ∅;
  enc_reasoning_items := ∅; enc_created_at := None; enc_chat_completion_id := None;
  enc_accepted_prediction_tokens := None; enc_rejected_prediction_tokens := None; enc_messages_id := None;
  enc_messages_web_search_requests := None; enc_messages_web_fetch_requests := None;
  enc_messages_cache_creation := None; enc_messages_container := None;
  enc_messages_container_written := false; enc_messages_context_management := None;
  enc_messages_cache_miss := None; enc_responses_id := None; enc_responses_previous_id := None;
  enc_responses_message_id := None; enc_responses_message_status := None;
  enc_responses_message_phase := None; enc_responses_message_agent := None;
  enc_responses_reasoning_id := None; enc_responses_reasoning_status := None;
  enc_responses_reasoning_content := None; enc_responses_tool_pending := [];
  enc_responses_tool_extra := []; enc_gemini_response_id := None; enc_gemini_safety_ratings := None;
  enc_gemini_prompt_safety := None; enc_gemini_block_reason_message := None;
  enc_gemini_traffic_type := None; enc_gemini_tool_use_prompt_tokens := None;
  enc_gemini_avg_logprobs := None; enc_gemini_candidate_tokens := None;
  enc_gemini_prompt_token_details := None; enc_gemini_candidate_token_details := None;
  enc_gemini_url_context := None; enc_gemini_citation_metadata := None; enc_converse_passthrough := [];
  enc_service_tier := None; enc_stop_sequence := None; enc_metadata := None; enc_moderation := None;
  enc_refusal := ""; enc_held_tools := []; enc_responses_held := []; enc_converse_held := [];
  enc_deferred := []; enc_closed_tools := ∅; enc_gemini_open_calls := []; enc_custom_args := ∅;
  enc_gemini_deferred := []
|}.

Definition with_model (m : string) (e : StreamEncoder) : StreamEncoder := e <| enc_model := m |>.

Definition Frames : Type := list RawSse.

(** [self.open.map(|(i, _)| i).unwrap_or(0)] *)
Definition open_index (e : StreamEncoder) : Z :=
  match enc_open e with Some (i, _) => i | None => 0 end.

(** [self.open.is_some_and(|(_, k)| k == kind)] *)
Definition open_is (e : StreamEncoder) (kind : BlockKind) : bool :=
  match enc_open e with Some (_, k) => bool_decide (k = kind) | None => false end.

(** [let n = self.next_block; self.next_block = n.saturating_add(1)] *)
Definition take_block (e : StreamEncoder) : Z * StreamEncoder :=
  (enc_next_block e, e <| enc_next_block ::= fun n => u32_saturating_add n 1 |>).

(** [map.entry(k).or_default().push_str(text)], [.extend(items)] *)
Definition append_str (k : Z) (text : string) (m : gmap Z string) : gmap Z string :=
  <[k := default "" (m !! k) +:+ text]> m.

Definition append_items {A} (k : Z) (items : list A) (m : gmap Z (list A)) : gmap Z (list A) :=
  <[k := default [] (m !! k) ++ items]> m.

(** ** Side fields of Responses tool items *)

(** [map.entry(k).or_default().merge(extra)] *)
Definition merge_extra (k : Z) (extra : ResponsesToolExtra) (m : list (Z * ResponsesToolExtra)) :
  list (Z * ResponsesToolExtra) :=
  bt_insert k (extra_merge (unwrap_or (bt_get k m) extra_default) extra) m.

Definition note_tool_extra (index : Z) (extra : ResponsesToolExtra) (e : StreamEncoder) : StreamEncoder :=
  match enc_last_tool e !! index with
  | Some enc => e <| enc_responses_tool_extra ::= merge_extra enc extra |>
  | None => e <| enc_responses_tool_pending ::= merge_extra index extra |>
  end.

Definition take_pending_tool_extra (index enc : Z) (e : StreamEncoder) : StreamEncoder :=
  match bt_get index (enc_responses_tool_pending e) with
  | Some extra => e <| enc_responses_tool_pending ::= bt_remove index |>
                    <| enc_responses_tool_extra ::= merge_extra enc extra |>
  | None => e
  end.

(** ** Encoded slots of tool calls *)

(** [while self.used_tool.contains(&n) { n = n.saturating_add(1) }] *)
Fixpoint first_unused (fuel : nat) (used : gset Z) (n : Z) : Z :=
  match fuel with
  | O => n
  | S fuel => if bool_decide (n ∈ used) then first_unused fuel used (u32_saturating_add n 1) else n
  end.

Definition next_slot (e : StreamEncoder) : Z * StreamEncoder :=
  match enc_wire e with
  | ChatCompletions => (first_unused (S (size (enc_used_tool e))) (enc_used_tool e) (enc_next_tool e), e)
  | _ => take_block e
  end.

(** [slots.back().is_some_and(|prev| self.tool_got_arg.contains(prev))] *)
Definition slots_served (slots : list Z) (got : gset Z) : bool :=
  match last slots with Some prev => bool_decide (prev ∈ got) | None => false end.

Definition alloc_tool (ir_index : Z) (e : StreamEncoder) : Z * StreamEncoder :=
  let '(enc, e) := next_slot e in
  let e := e <| enc_used_tool ::= fun used => {[enc]} ∪ used |>
             <| enc_next_tool ::= fun n => Z.max n (u32_saturating_add enc 1) |> in
  let slots := default [] (enc_tool_slots e !! ir_index) in
  let slots := if slots_served slots (enc_tool_got_arg e) then [] else slots in
  (enc, e <| enc_tool_slots ::= <[ir_index := slots ++ [enc]]> |>
          <| enc_last_tool ::= <[ir_index := enc]> |>).

Definition tool_enc (ir_index : Z) (e : StreamEncoder) : Z * StreamEncoder :=
  let slots := default [] (enc_tool_slots e !! ir_index) in
  let e := e <| enc_tool_slots ::= <[ir_index := slots]> |> in
  match opt_or (head slots) (enc_last_tool e !! ir_index) with
  | None => alloc_tool ir_index e
  | Some enc =>
      let e := e <| enc_tool_got_arg ::= fun got => {[enc]} ∪ got |> in
      (enc, if 1 <? vlen slots then e <| enc_tool_slots ::= <[ir_index := tail slots]> |> else e)
  end.

(** ** Custom tools *)

Definition is_custom_tool (ev : IrStreamEvent) : bool :=
  match ev with CustomToolCallStart _ _ _ | CustomToolCallInputDelta _ _ => true | _ => false end.

(** Messages and Converse have no custom-tool frame. *)
Definition custom_tool_as_function (ev : IrStreamEvent) : IrStreamEvent :=
  match ev with
  | CustomToolCallStart id name index => ToolCallStart id name None index
  | CustomToolCallInputDelta delta index => ToolCallArgDelta delta index
  | other => other
  end.

(** [self.custom_args.contains_key(&enc)] *)
Definition holds_custom (e : StreamEncoder) (enc : Z) : bool := is_some (enc_custom_args e !! enc).

Definition push_custom (enc : Z) (delta : string) (e : StreamEncoder) : StreamEncoder :=
  e <| enc_custom_args ::= append_str enc delta |>.

Definition note_custom_slot (enc : Z) (custom : bool) (e : StreamEncoder) : StreamEncoder :=
  if custom then push_custom enc "" e else e.

Section Frames.
Context {SJ : SerdeJson}.

Definition named (event : string) (data : json) : RawSse := mkRawSse (Some event) (to_string data).

(** [RawSse { event: None, data: value.to_string() }] *)
Definition unnamed (data : json) : RawSse := mkRawSse None (to_string data).

Definition take_custom_json (enc : Z) (e : StreamEncoder) : option string * StreamEncoder :=
  match enc_custom_args e !! enc with
  | None => (None, e)
  | Some args =>
      (if is_empty args then None else Some (to_string (response_custom_tool_input args)),
       e <| enc_custom_args ::= base.delete enc |>)
  end.
End Frames.
