(* ===== verification/EncoderMessages.v ===== *)
(** * EncoderMessages: the stateful encoder on the Messages wire

    crates/wiremux/src/stream/encoder.rs: [push_messages], [finish_messages]
    and the block steps they share.  A Messages stream is a sequence of
    content blocks, opened and closed one after the other.  One tool block is
    open at a time: a second call that starts meanwhile is held, and text that
    arrives meanwhile is deferred. *)

From stdpp Require Import gmap.
From S2P Require Import Prelude Fields Text Json Sse Ir ProfileTypes BTree Shapes Usage.
From S2P Require Import EncoderCore StreamDecode.
From S2P Require Messages.

(** [held.sort_by_key(..)], a stable sort. *)
Fixpoint insert_by {A} (key : A -> Z) (x : A) (l : list A) : list A :=
  match l with
  | [] => [x]
  | y :: l' => if key x <=? key y then x :: l else y :: insert_by key x l'
  end.

Definition sort_by_key {A} (key : A -> Z) (l : list A) : list A := fold_right (insert_by key) [] l.

Definition jopt_str (o : option string) : json :=
  match o with Some s => JStr s | None => JNull end.

Definition held_enc (held : HeldTool) : Z := let '(enc, _, _, _) := held in enc.

(** Events that only set fields wait for the first content before
    [message_start]. *)
Definition waits_for_start (ev : IrStreamEvent) : bool :=
  match ev with
  | ServiceTier _ | StopSequence _ | Container _ | ContextManagement _ | Diagnostics _ => true
  | _ => false
  end.

Definition messages_note (ev : IrStreamEvent) (e : StreamEncoder) : StreamEncoder :=
  match ev with
  | ServiceTier tier => e <| enc_service_tier := Some tier |>
  | StopSequence text => e <| enc_stop_sequence := Some text |>
  | Container value => e <| enc_messages_container := Some value |>
  | ContextManagement value => e <| enc_messages_context_management := Some value |>
  | Diagnostics cache_miss_reason => e <| enc_messages_cache_miss := Some cache_miss_reason |>
  | _ => e
  end.

Definition tool_block_open (e : StreamEncoder) : bool :=
  open_is e Tool || negb (bool_decide (enc_held_tools e = [])).

Definition defer (ev : IrStreamEvent) (e : StreamEncoder) : StreamEncoder :=
  e <| enc_deferred ::= fun l => l ++ [ev] |>.

(** The open tool block. *)
Definition open_tool (e : StreamEncoder) : option Z :=
  match enc_open e with Some (enc, Tool) => Some enc | _ => None end.

Section Messages.
Context {SJ : SerdeJson}.

(** ** Frames *)
Definition block_start_frame (index : Z) (block : json) : RawSse :=
  named "content_block_start"
    (jobj [("type", JStr "content_block_start"); ("index", jint index); ("content_block", block)]).

Definition block_delta_frame (index : Z) (delta : json) : RawSse :=
  named "content_block_delta"
    (jobj [("type", JStr "content_block_delta"); ("index", jint index); ("delta", delta)]).

Definition block_stop_frame (index : Z) : RawSse :=
  named "content_block_stop" (jobj [("type", JStr "content_block_stop"); ("index", jint index)]).

Definition tool_start_frame (enc : Z) (id name : string) : RawSse :=
  block_start_frame enc
    (jobj [("type", JStr "tool_use"); ("id", JStr id); ("name", JStr name); ("input", JObj [])]).

Definition tool_arg_frame (enc : Z) (delta : string) : RawSse :=
  block_delta_frame enc (jobj [("type", JStr "input_json_delta"); ("partial_json", JStr delta)]).

Definition messages_start_frame (e : StreamEncoder) : RawSse :=
  let usage := jobj [("input_tokens", jint 0); ("output_tokens", jint 0)] in
  let usage := match enc_service_tier e ≫= Messages.usage_service_tier_to_messages with
               | Some mapped => index_set usage "service_tier" (JStr mapped)
               | None => usage
               end in
  let message := jobj [("id", JStr (unwrap_or (enc_messages_id e) "msg_wiremux")); ("type", JStr "message");
                       ("role", JStr "assistant"); ("content", JArr []); ("stop_reason", JNull);
                       ("stop_sequence", JNull); ("usage", usage)] in
  let message := if is_empty (enc_model e) then message else index_set message "model" (JStr (enc_model e)) in
  let message := match enc_messages_container e with
                 | Some container => index_set message "container" container
                 | None => message
                 end in
  named "message_start" (jobj [("type", JStr "message_start"); ("message", message)]).

(** ** Opening and closing blocks *)

(** A held call is written whole: start, arguments, stop. *)
Definition flush_held_tool (held : HeldTool) (e : StreamEncoder) : Frames * StreamEncoder :=
  let '(enc, id, name, args) := held in
  let e := e <| enc_closed_tools ::= fun s => {[enc]} ∪ s |> in
  let '(text, e) := take_custom_json enc e in
  (tool_start_frame enc id name
   :: (match text with
       | Some text => [tool_arg_frame enc text]
       | None => if is_empty args then [] else [tool_arg_frame enc args]
       end)
   ++ [block_stop_frame enc], e).

Fixpoint flush_each (held : list HeldTool) (e : StreamEncoder) : Frames * StreamEncoder :=
  match held with
  | [] => ([], e)
  | h :: held =>
      let '(out, e) := flush_held_tool h e in
      let '(rest, e) := flush_each held e in
      (out ++ rest, e)
  end.

Definition flush_held_tools (e : StreamEncoder) : Frames * StreamEncoder :=
  let held := sort_by_key held_enc (map snd (enc_held_tools e)) in
  flush_each held (e <| enc_held_tools := [] |>).

Definition close_open (e : StreamEncoder) : Frames * StreamEncoder :=
  match enc_open e with
  | None => flush_held_tools e
  | Some (index, kind) =>
      let e := e <| enc_open := None |> <| enc_closed_tools ::= fun s => {[index]} ∪ s |> in
      let '(text, e) := match kind with Tool => take_custom_json index e | _ => (None, e) end in
      let '(flushed, e) := flush_held_tools e in
      (push_opt (tool_arg_frame index) text ++ [block_stop_frame index] ++ flushed, e)
  end.

Definition empty_block (kind : BlockKind) : json :=
  match kind with
  | Text => jobj [("type", JStr "text"); ("text", JStr "")]
  | Thinking => jobj [("type", JStr "thinking"); ("thinking", JStr "")]
  | Tool | CustomTool =>
      jobj [("type", JStr "tool_use"); ("id", JStr ""); ("name", JStr ""); ("input", JObj [])]
  end.

Definition ensure_block (kind : BlockKind) (e : StreamEncoder) : Frames * StreamEncoder :=
  if open_is e kind then ([], e)
  else
    let '(out, e) := close_open e in
    let '(index, e) := take_block e in
    (out ++ [block_start_frame index (empty_block kind)], e <| enc_open := Some (index, kind) |>).

(** [ensure_block] and one delta in the open block. *)
Definition block_delta_in (kind : BlockKind) (delta : json) (e : StreamEncoder) : Frames * StreamEncoder :=
  let '(out, e) := ensure_block kind e in
  (out ++ [block_delta_frame (open_index e) delta], e).

Definition emit_text (text : string) (e : StreamEncoder) : Frames * StreamEncoder :=
  block_delta_in Text (jobj [("type", JStr "text_delta"); ("text", JStr text)]) e.

(** ** Tool calls *)
Definition start_tool (enc : Z) (id name : string) (e : StreamEncoder) : Frames * StreamEncoder :=
  ([tool_start_frame enc id name], e <| enc_tool_ids ::= <[enc := id]> |> <| enc_open := Some (enc, Tool) |>).

(** The call is the open one: the ids match, or the new id is empty. *)
Definition messages_same_open (index : Z) (e : StreamEncoder) : bool :=
  is_some_and (open_tool e) (fun enc => bool_decide (enc_last_tool e !! index = Some enc)).

Definition messages_open_id (e : StreamEncoder) : string :=
  unwrap_or (enc ← open_tool e; enc_tool_ids e !! enc) "".

Definition fill_held (id name : string) (held : HeldTool) : HeldTool :=
  let '(enc, id', name', args) := held in
  (enc, if is_empty id' then id else id', if is_empty name' then name else name', args).

Definition messages_tool_start (custom : bool) (id name : string) (index : Z) (e : StreamEncoder) :
  Frames * StreamEncoder :=
  let same_open := messages_same_open index e in
  if same_open && (is_empty id || String.eqb (messages_open_id e) id) then
    ([], match open_tool e with Some enc => note_custom_slot enc custom e | None => e end)
  else if same_open then
    let '(out, e) := close_open e in
    let e := e <| enc_tool_slots ::= base.delete index |> in
    let '(enc, e) := alloc_tool index e in
    let e := note_custom_slot enc custom e in
    let '(start, e) := start_tool enc id name e in
    (out ++ start, e)
  else
    match bt_get index (enc_held_tools e) with
    | Some held =>
        let e := e <| enc_held_tools ::= bt_insert index (fill_held id name held) |> in
        ([], note_custom_slot (held_enc held) custom e)
    | None =>
        let '(enc, e) := alloc_tool index e in
        let other_tool_open := is_some_and (open_tool e) (fun open_enc => negb (open_enc =? enc)) in
        let e := note_custom_slot enc custom e in
        if other_tool_open then
          ([], e <| enc_held_tools ::= bt_insert index ((enc, id, name, "") : HeldTool) |>)
        else
          let '(out, e) := close_open e in
          let '(start, e) := start_tool enc id name e in
          (out ++ start, e)
    end.

Definition append_held (delta : string) (held : HeldTool) : HeldTool :=
  let '(enc, id, name, args) := held in (enc, id, name, args +:+ delta).

Definition messages_tool_arg (custom : bool) (delta : string) (index : Z) (e : StreamEncoder) :
  Frames * StreamEncoder :=
  let '(enc, e) := tool_enc index e in
  if bool_decide (enc_open e = Some (enc, Tool)) && (custom || holds_custom e enc) then
    ([], push_custom enc delta e)
  else
    match bt_get index (enc_held_tools e) with
    | Some held =>
        ([], if custom || holds_custom e (held_enc held) then push_custom (held_enc held) delta e
             else e <| enc_held_tools ::= bt_insert index (append_held delta held) |>)
    | None =>
        if bool_decide (enc ∈ enc_closed_tools e) then ([], e)
        else
          let text := if custom || holds_custom e enc then to_string (response_custom_tool_input delta)
                      else delta in
          ([tool_arg_frame enc text], e)
    end.

(** An image is a block of its own, opened and closed at once. *)
Definition messages_image (media_type data : string) (e : StreamEncoder) : Frames * StreamEncoder :=
  let '(out, e) := close_open e in
  let '(index, e) := take_block e in
  (out ++ [block_start_frame index
             (jobj [("type", JStr "image");
                    ("source", jobj [("type", JStr "base64"); ("media_type", JStr media_type);
                                     ("data", JStr data)])]);
           block_stop_frame index], e).

(** ** The wire *)
Context (debug : IrStreamEvent -> string).

Definition quietly (e : StreamEncoder) : result MapError Frames * StreamEncoder := (Ok [], e).

Definition sends (fe : Frames * StreamEncoder) : result MapError Frames * StreamEncoder := (Ok fe.1, fe.2).

(** What waits while a tool block is open. *)
Definition unless_tool_open (ev : IrStreamEvent) (write : StreamEncoder -> Frames * StreamEncoder)
    (e : StreamEncoder) : result MapError Frames * StreamEncoder :=
  if tool_block_open e then quietly (defer ev e) else sends (write e).

Definition messages_event (custom : bool) (ev : IrStreamEvent) (e : StreamEncoder) :
  result MapError Frames * StreamEncoder :=
  match ev with
  | StopSequence _ => quietly e
  | TextDelta text => unless_tool_open ev (emit_text text) e
  | ReasoningDelta text =>
      unless_tool_open ev
        (block_delta_in Thinking (jobj [("type", JStr "thinking_delta"); ("thinking", JStr text)])) e
  | ReasoningSignature signature =>
      unless_tool_open ev
        (block_delta_in Thinking (jobj [("type", JStr "signature_delta"); ("signature", JStr signature)])) e
  | ToolCallStart id name _ index => sends (messages_tool_start custom id name index e)
  | ToolCallArgDelta delta index => sends (messages_tool_arg custom delta index e)
  | ToolCallEnd => quietly e
  | FinishReason reason _ => quietly (e <| enc_finish := Some reason |>)
  | RefusalDelta text => quietly (e <| enc_refusal ::= fun s => s +:+ text |>)
  | ImageDelta media_type data => sends (messages_image media_type data e)
  | AudioDelta _ | Logprobs _ _ => quietly e
  | Created _ | ServiceTier _ | Metadata _ | Moderation _ _ | Diagnostics _ | Container _
  | ContextManagement _ => quietly e
  | AudioTranscriptDelta text => unless_tool_open ev (emit_text text) e
  | AnnotationAdded annotation =>
      unless_tool_open ev
        (block_delta_in Text (jobj [("type", JStr "citations_delta");
                                    ("citation", Messages.citation_from_annotation annotation)])) e
  | Usage p c cr cw r audio completion_audio geo =>
      quietly (e <| enc_usage_inference_geo := geo |>
                 <| enc_usage := Some (p, c, cr, cw, r, audio, completion_audio) |>)
  | other => ((let* frame := encode_stream_event debug ProfileTypes.Messages other in Ok [frame]), e)
  end.

Definition messages_begin (e : StreamEncoder) : Frames * StreamEncoder :=
  let e := e <| enc_started := true |> in
  ([messages_start_frame e],
   e <| enc_messages_container_written := is_some (enc_messages_container e) |>).

Definition push_messages (ev : IrStreamEvent) (e : StreamEncoder) : result MapError Frames * StreamEncoder :=
  let custom := is_custom_tool ev in
  let ev := custom_tool_as_function ev in
  let e := messages_note ev e in
  if negb (enc_started e) then
    if waits_for_start ev then quietly e
    else
      let '(start, e) := messages_begin e in
      let '(r, e) := messages_event custom ev e in
      (rmap (fun frames => start ++ frames) r, e)
  else messages_event custom ev e.

(** [for ev in deferred { if let Ok(frames) = self.push_messages(ev) { .. } }] *)
Fixpoint push_deferred (evs : list IrStreamEvent) (e : StreamEncoder) : Frames * StreamEncoder :=
  match evs with
  | [] => ([], e)
  | ev :: evs =>
      let '(r, e) := push_messages ev e in
      let '(rest, e) := push_deferred evs e in
      (unwrap_or (rok r) [] ++ rest, e)
  end.

(** The stop reason of the stream: a refusal, then a tool use, then what was
    reported. *)
Definition messages_stop (e : StreamEncoder) : string :=
  let mapped := Messages.encode_stop_reason <$> enc_finish e in
  let none_or (s : string) := match mapped with Some r => String.eqb r s | None => true end in
  if negb (is_empty (enc_refusal e)) && none_or "content_filter" then "refusal"
  else if negb (bool_decide (enc_used_tool e = ∅)) && none_or "end_turn" then "tool_use"
  else unwrap_or mapped "end_turn".

Definition messages_usage_body (e : StreamEncoder) : option json :=
  u ← enc_usage e;
  let '(p, c, cr, cw, r, _, _) := u in
  body ← get (encode_anthropic p c cr cw r (enc_usage_inference_geo e)) "usage";
  let body := insert_messages_server_tool_counts body (enc_messages_web_search_requests e)
                (enc_messages_web_fetch_requests e) in
  Some (insert_messages_cache_creation body (enc_messages_cache_creation e)).

Definition messages_delta (e : StreamEncoder) : json :=
  let delta := jobj [("stop_reason", JStr (messages_stop e)); ("stop_sequence", jopt_str (enc_stop_sequence e))] in
  let delta := if is_empty (enc_refusal e) then delta
               else index_set delta "stop_details"
                      (jobj [("type", JStr "refusal"); ("explanation", JStr (enc_refusal e))]) in
  let data := jobj [("type", JStr "message_delta"); ("delta", delta)] in
  let data := match messages_usage_body e with Some u => index_set data "usage" u | None => data end in
  let data := match enc_messages_container e with
              | Some container => if enc_messages_container_written e then data
                                  else index_set data "container" container
              | None => data
              end in
  let data := match enc_messages_context_management e with
              | Some managed => index_set data "context_management" managed
              | None => data
              end in
  match enc_messages_cache_miss e with
  | Some reason => index_set data "diagnostics" (jobj [("cache_miss_reason", reason)])
  | None => data
  end.

(** The fields [finish_messages] takes. *)
Definition messages_taken (e : StreamEncoder) : StreamEncoder :=
  let e := e <| enc_refusal := "" |> in
  if is_some (messages_usage_body e) then
    e <| enc_messages_web_search_requests := None |> <| enc_messages_web_fetch_requests := None |>
  else e.

Definition finish_messages (e : StreamEncoder) : Frames * StreamEncoder :=
  let '(start, e) := if enc_started e then ([], e) else messages_begin e in
  let '(closed, e) := close_open e in
  let deferred := enc_deferred e in
  let '(late, e) := push_deferred deferred (e <| enc_deferred := [] |>) in
  let '(closed_late, e) := close_open e in
  (start ++ closed ++ late ++ closed_late
   ++ [named "message_delta" (messages_delta e);
       named "message_stop" (jobj [("type", JStr "message_stop")])], messages_taken e).
End Messages.
