(* ===== verification/EncoderResponses.v ===== *)
(** * EncoderResponses: the stateful encoder on the Responses wire

    crates/wiremux/src/stream/encoder.rs: [push_responses],
    [finish_responses], the output items they open and close, and the calls
    held while another call is open.  An item is announced, receives deltas,
    and is written whole when it closes: the text, refusal, log-probability and
    argument buffers of the state are what the whole item is made of. *)

From stdpp Require Import gmap.
From S2P Require Import Prelude Fields Text Json Sse Ir ProfileTypes BTree Shapes Usage.
From S2P Require Import Chat EncoderCore StreamDecode.
From S2P Require Responses.

(** ** State the events set *)
Definition responses_note (ev : IrStreamEvent) (e : StreamEncoder) : StreamEncoder :=
  match ev with
  | Created unix => e <| enc_created_at := Some unix |>
  | ServiceTier tier => e <| enc_service_tier := Some tier |>
  | Metadata metadata => e <| enc_metadata := Some metadata |>
  | Moderation input output => e <| enc_moderation := Some (input, output) |>
  | _ => e
  end.

Definition waits_for_created (ev : IrStreamEvent) : bool :=
  match ev with Created _ | ServiceTier _ | Metadata _ | Moderation _ _ => true | _ => false end.

Definition part_is (ty : string) (part : json) : bool :=
  bool_decide (get part "type" ≫= as_str = Some ty).

(** [iter().position(..)] *)
Fixpoint position {A} (p : A -> bool) (l : list A) : option nat :=
  match l with
  | [] => None
  | x :: l => if p x then Some O else S <$> position p l
  end.

(** [iter_mut().find(..)], then the assignment. *)
Fixpoint update_first {A} (p : A -> bool) (f : A -> A) (l : list A) : list A :=
  match l with
  | [] => []
  | x :: l => if p x then f x :: l else x :: update_first p f l
  end.

Definition output_text_index (index : Z) (e : StreamEncoder) : Z :=
  match enc_message_parts e !! index with
  | None => 0
  | Some parts =>
      match position (part_is "output_text") parts with
      | Some found => unwrap_or (u32_try_from (Z.of_nat found)) 0
      | None =>
          if is_some_and (enc_text_items e !! index) (fun text => negb (is_empty text))
          then unwrap_or (u32_try_from (vlen parts)) 0
          else 0
      end
  end.

Definition output_text (text : string) : json := jobj [("type", JStr "output_text"); ("text", JStr text)].

(** [if !items.is_empty() { block[key] = json!(items) }] *)
Definition set_items (key : string) (items : list json) (block : json) : json :=
  if bool_decide (items = []) then block else index_set block key (JArr items).

(** The content of a message item from its buffers. *)
Definition message_content (text refusal : string) (annotations logprobs parts : list json) : list json :=
  let content := parts ++ (if is_empty text then [] else [output_text text]) in
  let decorate block := set_items "logprobs" logprobs (set_items "annotations" annotations block) in
  let content :=
    if bool_decide (annotations = []) && bool_decide (logprobs = []) then content
    else if existsb (part_is "output_text") content
    then update_first (part_is "output_text") decorate content
    else content ++ [decorate (output_text "")] in
  let content := content ++ (if is_empty refusal then []
                             else [jobj [("type", JStr "refusal"); ("refusal", JStr refusal)]]) in
  match content with [] => [output_text ""] | _ => content end.

(** One [response.output_text.done] for a text part that says something. *)
Definition text_done (index : Z) (part_index : nat) (part : json) : option json :=
  if negb (part_is "output_text" part) then None
  else
    let part_text := unwrap_or (get part "text" ≫= as_str) "" in
    part_index ← u32_try_from (Z.of_nat part_index);
    if is_empty part_text && is_none (get part "logprobs") then None
    else
      let done := jobj [("type", JStr "response.output_text.done"); ("output_index", jint index);
                        ("content_index", jint part_index); ("text", JStr part_text)] in
      Some (set_opt "logprobs" (get part "logprobs") done).

Fixpoint texts_done (index : Z) (from : nat) (content : list json) : list json :=
  match content with
  | [] => []
  | part :: content => push_opt (fun d => d) (text_done index from part) ++ texts_done index (S from) content
  end.

Definition take_tool_extra (enc : Z) (item : json) (e : StreamEncoder) : json * StreamEncoder :=
  match bt_get enc (enc_responses_tool_extra e) with
  | Some extra => (Responses.write_item extra item, e <| enc_responses_tool_extra ::= bt_remove enc |>)
  | None => (item, e)
  end.

Definition call_item (ty id name key body : string) : json :=
  jobj [("type", JStr ty); ("id", JStr id); ("call_id", JStr id); ("name", JStr name); (key, JStr body)].

Definition close_message (index : Z) (e : StreamEncoder) : list json * json * StreamEncoder :=
  let content := message_content
    (default "" (enc_text_items e !! index)) (default "" (enc_refusal_items e !! index))
    (default [] (enc_text_annotations e !! index)) (default [] (enc_text_logprobs e !! index))
    (default [] (enc_message_parts e !! index)) in
  let e' := e <| enc_text_items ::= base.delete index |> <| enc_refusal_items ::= base.delete index |>
              <| enc_text_annotations ::= base.delete index |> <| enc_text_logprobs ::= base.delete index |>
              <| enc_message_parts ::= base.delete index |> <| enc_responses_message_agent := None |> in
  let message := jobj [("type", JStr "message"); ("role", JStr "assistant"); ("content", JArr content)] in
  let message := set_opt "id" (JStr <$> enc_responses_message_id e) message in
  let message := set_opt "status" (JStr <$> enc_responses_message_status e) message in
  let message := set_opt "phase" (JStr <$> enc_responses_message_phase e) message in
  (texts_done index 0 content, set_opt "agent" (enc_responses_message_agent e) message, e').

Definition close_reasoning (index : Z) (e : StreamEncoder) : json * StreamEncoder :=
  let text := default "" (enc_reasoning_items e !! index) in
  let item := jobj [("type", JStr "reasoning")] in
  let item := set_opt "id" (JStr <$> enc_responses_reasoning_id e) item in
  let item := set_opt "status" (JStr <$> enc_responses_reasoning_status e) item in
  let has_identity := is_some (get item "id") || is_some (get item "status")
                      || is_some (enc_responses_reasoning_content e) in
  let item := if negb (is_empty text) || negb has_identity
              then index_set item "summary" (JArr [jobj [("type", JStr "summary_text"); ("text", JStr text)]])
              else item in
  (set_opt "content" (enc_responses_reasoning_content e) item,
   e <| enc_reasoning_items ::= base.delete index |> <| enc_responses_reasoning_id := None |>
     <| enc_responses_reasoning_status := None |> <| enc_responses_reasoning_content := None |>).

Definition close_call (ty key : string) (index : Z) (e : StreamEncoder) : json * StreamEncoder :=
  match enc_tool_items e !! index with
  | Some (id, name, body) =>
      take_tool_extra index (call_item ty id name key body) (e <| enc_tool_items ::= base.delete index |>)
  | None => (jobj [("type", JStr ty)], e)
  end.

Definition add_arguments (enc : Z) (delta : string) (e : StreamEncoder) : StreamEncoder :=
  e <| enc_tool_items ::= alter (fun '(id, name, args) => (id, name, args +:+ delta)) enc |>.

Section Responses.
Context {SJ : SerdeJson}.

(** ** Frames *)
Definition typed_frame (event : string) (fields : list (string * json)) : RawSse :=
  named event (jobj (("type", JStr event) :: fields)).

Definition item_added_frame (index : Z) (item : json) : RawSse :=
  typed_frame "response.output_item.added" [("output_index", jint index); ("item", item)].

Definition item_done_frame (index : Z) (item : json) : RawSse :=
  typed_frame "response.output_item.done" [("output_index", jint index); ("item", item)].

Definition item_delta_frame (event : string) (index : Z) (delta : string) : RawSse :=
  typed_frame event [("output_index", jint index); ("delta", JStr delta)].

Definition call_delta_frame (event : string) (index : Z) (item_id delta : string) : RawSse :=
  typed_frame event [("output_index", jint index); ("item_id", JStr item_id); ("delta", JStr delta)].

Definition responses_created_frame (e : StreamEncoder) : RawSse :=
  let created := jobj [("id", JStr (unwrap_or (enc_responses_id e) "resp_wiremux"));
                       ("status", JStr "in_progress")] in
  let created := set_opt "previous_response_id" (JStr <$> enc_responses_previous_id e) created in
  let created := if is_empty (enc_model e) then created else index_set created "model" (JStr (enc_model e)) in
  let created := set_opt "created_at" (jint <$> enc_created_at e) created in
  let created := set_opt "service_tier" (JStr <$> enc_service_tier e) created in
  let created := set_opt "metadata" (metadata_json <$> enc_metadata e) created in
  typed_frame "response.created" [("response", created)].

(** ** Items *)
Definition close_item (e : StreamEncoder) : Frames * StreamEncoder :=
  match enc_open e with
  | None => ([], e)
  | Some (index, kind) =>
      let e := e <| enc_open := None |> in
      let '(done, item, e) :=
        match kind with
        | Text => close_message index e
        | Thinking => let '(item, e) := close_reasoning index e in ([], item, e)
        | Tool => let '(item, e) := close_call "function_call" "arguments" index e in ([], item, e)
        | CustomTool => let '(item, e) := close_call "custom_tool_call" "input" index e in ([], item, e)
        end in
      (map (named "response.output_text.done") done ++ [item_done_frame index item], e)
  end.

Definition opening_item (kind : BlockKind) : json :=
  match kind with
  | Text => jobj [("type", JStr "message"); ("role", JStr "assistant"); ("content", JArr [])]
  | Thinking => jobj [("type", JStr "reasoning")]
  | Tool => jobj [("type", JStr "function_call")]
  | CustomTool => jobj [("type", JStr "custom_tool_call")]
  end.

Definition ensure_item (kind : BlockKind) (e : StreamEncoder) : Frames * StreamEncoder :=
  if open_is e kind then ([], e)
  else
    let '(out, e) := close_item e in
    let '(index, e) := take_block e in
    (out ++ [item_added_frame index (opening_item kind)], e <| enc_open := Some (index, kind) |>).

(** [ensure_item], then the change of the open item and its frame. *)
Definition in_item (kind : BlockKind) (change : Z -> StreamEncoder -> RawSse * StreamEncoder)
    (e : StreamEncoder) : Frames * StreamEncoder :=
  let '(out, e) := ensure_item kind e in
  let '(frame, e) := change (open_index e) e in
  (out ++ [frame], e).

(** ** Events *)
Definition responses_text (text : string) : StreamEncoder -> Frames * StreamEncoder :=
  in_item Text (fun index e => (item_delta_frame "response.output_text.delta" index text,
                                e <| enc_text_items ::= append_str index text |>)).

Definition responses_refusal (text : string) : StreamEncoder -> Frames * StreamEncoder :=
  in_item Text (fun index e => (item_delta_frame "response.refusal.delta" index text,
                                e <| enc_refusal_items ::= append_str index text |>)).

Definition responses_reasoning (text : string) : StreamEncoder -> Frames * StreamEncoder :=
  in_item Thinking (fun index e => (item_delta_frame "response.reasoning_summary_text.delta" index text,
                                    e <| enc_reasoning_items ::= append_str index text |>)).

Definition responses_signature (signature : string) : StreamEncoder -> Frames * StreamEncoder :=
  in_item Thinking (fun index e =>
    (item_added_frame index (jobj [("type", JStr "reasoning"); ("signature", JStr signature)]), e)).

Definition responses_annotation (annotation : json) : StreamEncoder -> Frames * StreamEncoder :=
  in_item Text (fun index e =>
    let annotation := Responses.annotation_without_segment_text annotation in
    let e := e <| enc_text_annotations ::= append_items index [annotation] |> in
    let count := vlen (default [] (enc_text_annotations e !! index)) in
    (typed_frame "response.output_text.annotation.added"
       [("output_index", jint index); ("content_index", jint (output_text_index index e));
        ("annotation_index", jint (unwrap_or (u32_try_from (Z.max (count - 1) 0)) 0));
        ("annotation", annotation)], e)).

Definition responses_image (media_type data : string) : StreamEncoder -> Frames * StreamEncoder :=
  in_item Text (fun index e =>
    let prior := default "" (enc_text_items e !! index) in
    let e := e <| enc_text_items ::= base.delete index |> in
    let parts := default [] (enc_message_parts e !! index)
                 ++ (if is_empty prior then [] else [output_text prior]) in
    let part := jobj [("type", JStr "output_image");
                      ("image_url", JStr ("data:" +:+ media_type +:+ ";base64," +:+ data))] in
    (typed_frame "response.content_part.added"
       [("output_index", jint index); ("content_index", jint (vlen parts)); ("part", part)],
     e <| enc_message_parts ::= <[index := parts ++ [part]]> |>)).

Definition responses_logprobs (content : json) (refusal : option json) : StreamEncoder -> Frames * StreamEncoder :=
  in_item Text (fun index e =>
    let merged := merged_logprob_items content refusal in
    let body := jobj [("type", JStr "response.output_text.delta"); ("output_index", jint index);
                      ("delta", JStr "")] in
    if bool_decide (merged = []) then (named "response.output_text.delta" body, e)
    else (named "response.output_text.delta" (index_set body "logprobs" (JArr merged)),
          e <| enc_text_logprobs ::= append_items index merged |>)).

Definition another_call_open (enc : Z) (e : StreamEncoder) : bool :=
  match enc_open e with
  | Some (open_enc, (Tool | CustomTool)) => negb (open_enc =? enc)
  | _ => false
  end.

Definition responses_tool_start (id name : string) (index : Z) (e : StreamEncoder) : Frames * StreamEncoder :=
  let '(enc, e) := alloc_tool index e in
  let other_open := another_call_open enc e in
  let e := e <| enc_tool_ids ::= <[enc := id]> |> <| enc_tool_items ::= <[enc := (id, name, "")]> |> in
  let e := take_pending_tool_extra index enc e in
  if other_open then ([], e <| enc_responses_held ::= bt_insert enc tt |>)
  else
    let '(out, e) := close_item e in
    (out ++ [item_added_frame enc (call_item "function_call" id name "arguments" "")],
     e <| enc_open := Some (enc, Tool) |>).

Definition responses_custom_start (id name : string) (index : Z) (e : StreamEncoder) : Frames * StreamEncoder :=
  let '(enc, e) := alloc_tool index e in
  let '(out, e) := close_item e in
  let e := e <| enc_tool_items ::= <[enc := (id, name, "")]> |> in
  let e := take_pending_tool_extra index enc e in
  (out ++ [item_added_frame enc (call_item "custom_tool_call" id name "input" "")],
   e <| enc_open := Some (enc, CustomTool) |>).

Definition responses_custom_input (delta : string) (index : Z) (e : StreamEncoder) : Frames * StreamEncoder :=
  let '(enc, e) := tool_enc index e in
  let e := add_arguments enc delta e in
  let item_id := match enc_tool_items e !! enc with Some (id, _, _) => id | None => "" end in
  ([call_delta_frame "response.custom_tool_call_input.delta" enc item_id delta], e).

Definition responses_tool_arg (delta : string) (index : Z) (e : StreamEncoder) : Frames * StreamEncoder :=
  let '(enc, e) := tool_enc index e in
  let e := add_arguments enc delta e in
  if is_some (bt_get enc (enc_responses_held e)) then ([], e)
  else ([call_delta_frame "response.function_call_arguments.delta" enc
           (default "" (enc_tool_ids e !! enc)) delta], e).

(** ** The wire *)
Context (debug : IrStreamEvent -> string).

Definition responses_event (ev : IrStreamEvent) (e : StreamEncoder) : result MapError Frames * StreamEncoder :=
  let sends (fe : Frames * StreamEncoder) : result MapError Frames * StreamEncoder := (Ok fe.1, fe.2) in
  match ev with
  | Created _ | ServiceTier _ | Metadata _ | Moderation _ _ | Diagnostics _ | Container _
  | ContextManagement _ | StopSequence _ => (Ok [], e)
  | TextDelta text => sends (responses_text text e)
  | RefusalDelta text => sends (responses_refusal text e)
  | ReasoningDelta text => sends (responses_reasoning text e)
  | ReasoningSignature signature => sends (responses_signature signature e)
  | ToolCallStart id name _ index => sends (responses_tool_start id name index e)
  | AnnotationAdded annotation => sends (responses_annotation annotation e)
  | AudioDelta data => (Ok [typed_frame "response.audio.delta" [("delta", JStr data)]], e)
  | ImageDelta media_type data => sends (responses_image media_type data e)
  | Logprobs content refusal => sends (responses_logprobs content refusal e)
  | AudioTranscriptDelta text => (Ok [typed_frame "response.audio.transcript.delta" [("delta", JStr text)]], e)
  | CustomToolCallStart id name index => sends (responses_custom_start id name index e)
  | CustomToolCallInputDelta delta index => sends (responses_custom_input delta index e)
  | ToolCallArgDelta delta index => sends (responses_tool_arg delta index e)
  | ToolCallEnd => sends (close_item e)
  | FinishReason reason _ => (Ok [], e <| enc_finish := Some reason |>)
  | Usage p c cr cw r audio completion_audio _ =>
      (Ok [], e <| enc_usage := Some (p, c, cr, cw, r, audio, completion_audio) |>)
  | other => ((let* frame := encode_stream_event debug ProfileTypes.Responses other in Ok [frame]), e)
  end.

Definition push_responses (ev : IrStreamEvent) (e : StreamEncoder) : result MapError Frames * StreamEncoder :=
  let e := responses_note ev e in
  if negb (enc_started e) && negb (waits_for_created ev) then
    let e := e <| enc_started := true |> in
    let start := responses_created_frame e in
    let '(r, e) := responses_event ev e in
    (rmap (fun frames => start :: frames) r, e)
  else responses_event ev e.

(** ** The end of the stream *)
Definition flush_responses_call (enc : Z) (e : StreamEncoder) : Frames * StreamEncoder :=
  match enc_tool_items e !! enc with
  | None => ([], e)
  | Some (id, name, arguments) =>
      let e := e <| enc_tool_items ::= base.delete enc |> in
      let '(item, e) := take_tool_extra enc (call_item "function_call" id name "arguments" arguments) e in
      (item_added_frame enc (call_item "function_call" id name "arguments" "")
       :: (if is_empty arguments then []
           else [call_delta_frame "response.function_call_arguments.delta" enc id arguments])
       ++ [item_done_frame enc item], e)
  end.

Fixpoint flush_responses_calls (held : list (Z * unit)) (e : StreamEncoder) : Frames * StreamEncoder :=
  match held with
  | [] => ([], e)
  | (enc, _) :: held =>
      let '(out, e) := flush_responses_call enc e in
      let '(rest, e) := flush_responses_calls held e in
      (out ++ rest, e)
  end.

Definition flush_responses_held (e : StreamEncoder) : Frames * StreamEncoder :=
  flush_responses_calls (enc_responses_held e) (e <| enc_responses_held := [] |>).

Definition responses_terminal (reason : string) : string * string :=
  if String.eqb reason "failed" then ("response.failed", "failed")
  else if one_of reason ["incomplete"; "length"; "max_tokens"; "content_filter"]
  then ("response.incomplete", "incomplete")
  else ("response.completed", "completed").

Definition responses_usage_body (e : StreamEncoder) : option json :=
  u ← enc_usage e;
  let '(p, c, cr, cw, r, _, _) := u in
  pointer (encode_responses p c cr cw r) [Key "response"; Key "usage"].

Definition responses_final (e : StreamEncoder) : RawSse :=
  let reason := unwrap_or (enc_finish e) "stop" in
  let '(event, status) := responses_terminal reason in
  let response := jobj [("id", JStr (unwrap_or (enc_responses_id e) "resp_wiremux"));
                        ("object", JStr "response"); ("status", JStr status)] in
  let response := set_opt "previous_response_id" (JStr <$> enc_responses_previous_id e) response in
  let response := set_opt "incomplete_details"
                    ((fun detail => jobj [("reason", JStr detail)]) <$> Responses.incomplete_details_reason reason)
                    response in
  let response := if is_empty (enc_model e) then response else index_set response "model" (JStr (enc_model e)) in
  let response := set_opt "usage" (responses_usage_body e) response in
  let response := set_opt "moderation"
                    ('(input, output) ← enc_moderation e; responses_moderation_value input output) response in
  let response := set_opt "metadata" (metadata_json <$> enc_metadata e) response in
  typed_frame event [("response", response)].

Definition finish_responses (e : StreamEncoder) : Frames * StreamEncoder :=
  let '(out, e) := close_item e in
  let '(held, e) := flush_responses_held e in
  (out ++ held ++ [responses_final e], e).
End Responses.
