(* ===== verification/EncoderWires.v ===== *)
(** * EncoderWires: the stateful encoder on Chat Completions, Converse and Gemini

    crates/wiremux/src/stream/encoder.rs: [push_chat], [push_converse],
    [push_gemini], their [finish] steps, and the fields each wire adds to its
    frames ([attach_chat_dest_model], [attach_dest_model],
    [attach_block_index]). *)

From stdpp Require Import gmap.
From S2P Require Import Prelude Fields Text Json Sse Ir ProfileTypes BTree StreamCore Shapes Usage.
From S2P Require Import Chat EncoderCore StreamDecode.
From S2P Require Converse Responses.

(** [if let Some(x) = value.get_mut(key) { *x = f(x) }] *)
Definition modify (value : json) (key : string) (f : json -> json) : json :=
  match get value key with Some x => index_set value key (f x) | None => value end.

(** [if let Some(obj) = value.as_object_mut() { obj.insert(key, x) }] *)
Definition insert_opt (key : string) (x : option json) (value : json) : json := set_opt key x value.

(** An object under ["/candidates/0"], by [pointer_mut]. *)
Definition modify_candidate0 (f : json -> json) (value : json) : json :=
  modify value "candidates" (fun candidates =>
    match candidates with
    | JArr (candidate :: rest) => JArr (f candidate :: rest)
    | JObj m => modify candidates "0" f
    | other => other
    end).

Definition has_finish (value : json) : bool := is_some (pointer value [Key "candidates"; Idx 0; Key "finishReason"]).

(** A side field goes into the candidate of the chunk that ends the stream. *)
Definition on_finish (key : string) (x : option json) (value : json) : json :=
  match x with
  | Some x => if has_finish value then modify_candidate0 (fun c => index_set c key x) value else value
  | None => value
  end.

(** Some Gemini side field is set. *)
Definition gemini_side (e : StreamEncoder) : bool :=
  is_some (enc_gemini_response_id e) || is_some (enc_gemini_safety_ratings e)
  || is_some (enc_gemini_url_context e) || is_some (enc_gemini_citation_metadata e)
  || is_some (enc_gemini_prompt_safety e) || is_some (enc_gemini_block_reason_message e)
  || is_some (enc_gemini_traffic_type e) || is_some (enc_gemini_tool_use_prompt_tokens e)
  || is_some (enc_gemini_avg_logprobs e) || is_some (enc_gemini_candidate_tokens e)
  || is_some (enc_gemini_prompt_token_details e) || is_some (enc_gemini_candidate_token_details e).

(** [obj.entry("promptFeedback").or_insert_with(|| json!({}))] and its fields. *)
Definition attach_prompt_feedback (e : StreamEncoder) (value : json) : json :=
  if (is_some (enc_gemini_prompt_safety e) || is_some (enc_gemini_block_reason_message e)) && has_finish value
  then
    let value := match get value "promptFeedback" with
                 | Some _ => value
                 | None => index_set value "promptFeedback" (JObj [])
                 end in
    modify value "promptFeedback" (fun feedback =>
      insert_opt "blockReasonMessage" (JStr <$> enc_gemini_block_reason_message e)
        (insert_opt "safetyRatings" (enc_gemini_prompt_safety e) feedback))
  else value.

Definition attach_usage_fields (e : StreamEncoder) (value : json) : json :=
  modify value "usageMetadata" (fun usage =>
    let usage := match enc_gemini_traffic_type e with
                 | Some kind => insert_gemini_traffic_type usage (Some kind)
                 | None => usage
                 end in
    let usage := match enc_gemini_tool_use_prompt_tokens e with
                 | Some count => insert_gemini_tool_use_prompt_tokens usage (Some count)
                 | None => usage
                 end in
    insert_gemini_modality_details
      (insert_gemini_modality_details usage "promptTokensDetails" (enc_gemini_prompt_token_details e))
      "candidatesTokensDetails" (enc_gemini_candidate_token_details e)).

Definition attach_gemini_fields (e : StreamEncoder) (value : json) : json :=
  let value := insert_opt "responseId" (JStr <$> enc_gemini_response_id e) value in
  let value := on_finish "safetyRatings" (enc_gemini_safety_ratings e) value in
  let value := on_finish "urlContextMetadata" (enc_gemini_url_context e) value in
  let value := on_finish "citationMetadata" (enc_gemini_citation_metadata e) value in
  let value := attach_prompt_feedback e value in
  let value := attach_usage_fields e value in
  let value := on_finish "avgLogprobs" ((fun score => JNum (NumFloat score)) <$> enc_gemini_avg_logprobs e) value in
  on_finish "tokenCount" (jint <$> opt_filter positive (enc_gemini_candidate_tokens e)) value.

Definition attach_block_index (value : json) (index : Z) : json :=
  fold_left (fun value key =>
      modify value key (fun x => match x with JObj m => index_set x "contentBlockIndex" (jint index) | _ => x end))
    ["contentBlockDelta"; "contentBlockStart"; "contentBlockStop"] value.

Section Wires.
Context {SJ : SerdeJson}.
Context (debug : IrStreamEvent -> string).

Definition Sent : Type := result MapError Frames * StreamEncoder.

Definition is_done (frame : RawSse) : bool := String.eqb (trim (raw_data frame)) "[DONE]".

(** ** Fields of the destination *)
Definition attach_dest_model_key (e : StreamEncoder) (key : string) (frame : RawSse) : RawSse :=
  if is_empty (enc_model e) || is_done frame then frame
  else
    match from_str (raw_data frame) with
    | Some (JObj m) => mkRawSse (raw_event frame) (to_string (JObj (obj_insert key (JStr (enc_model e)) m)))
    | _ => frame
    end.

Definition attach_dest_model (e : StreamEncoder) (frame : RawSse) : RawSse :=
  let frame := attach_dest_model_key e "modelVersion" frame in
  if is_done frame || negb (gemini_side e) then frame
  else
    match from_str (raw_data frame) with
    | Some value => mkRawSse (raw_event frame) (to_string (attach_gemini_fields e value))
    | None => frame
    end.

(** The fixed clock of a stream that never carried [Created]. *)
Definition chat_clock : Z := 1700000000.

Definition attach_chat_dest_model (e : StreamEncoder) (frame : RawSse) : RawSse :=
  if is_done frame then frame
  else
    match from_str (raw_data frame) with
    | Some (JObj obj) =>
        let obj := obj_insert "id" (JStr (unwrap_or (enc_chat_completion_id e) "chatcmpl-wiremux")) obj in
        let obj := obj_insert "object" (JStr "chat.completion.chunk") obj in
        let obj := obj_insert "created" (jint (unwrap_or (enc_created_at e) chat_clock)) obj in
        let obj := if is_empty (enc_model e) then obj else obj_insert "model" (JStr (enc_model e)) obj in
        mkRawSse (raw_event frame) (to_string (JObj obj))
    | _ => frame
    end.

(** ** Chat Completions *)
Definition chat_delta_frame (delta : json) : RawSse :=
  unnamed (jobj [("choices", JArr [jobj [("index", jint 0); ("delta", delta)]])]).

Definition chat_tool_frame (call : json) : RawSse := chat_delta_frame (jobj [("tool_calls", JArr [call])]).

Definition chat_start_frame (enc : Z) (id name : string) : RawSse :=
  chat_tool_frame (jobj [("index", jint enc); ("id", JStr id); ("type", JStr "function");
                         ("function", jobj [("name", JStr name); ("arguments", JStr "")])]).

Definition chat_arg_frame (enc : Z) (delta : string) : RawSse :=
  chat_tool_frame (jobj [("index", jint enc); ("function", jobj [("arguments", JStr delta)])]).

Definition chat_event (ev : IrStreamEvent) (e : StreamEncoder) : Sent :=
  match ev with
  | ToolCallStart id name _ index =>
      let '(enc, e) := alloc_tool index e in (Ok [chat_start_frame enc id name], e)
  | ToolCallArgDelta delta index =>
      let '(enc, e) := tool_enc index e in (Ok [chat_arg_frame enc delta], e)
  | FinishReason reason _ => (Ok [], e <| enc_finish := Some reason |>)
  | Usage p c cr cw r audio completion_audio _ =>
      (Ok [], e <| enc_usage := Some (p, c, cr, cw, r, audio, completion_audio) |>)
  | ToolCallEnd => (Ok [], e)
  | other =>
      let e := if is_custom_tool other then e <| enc_saw_custom_tool := true |> else e in
      ((let* frame := encode_stream_event debug ChatCompletions other in Ok [frame]), e)
  end.

Definition push_chat (ev : IrStreamEvent) (e : StreamEncoder) : Sent :=
  let e := match ev with Created unix => e <| enc_created_at := Some unix |> | _ => e end in
  let start := if enc_started e then []
               else [chat_delta_frame (jobj [("role", JStr "assistant")])] in
  let e := if enc_started e then e else e <| enc_started := true |> in
  let '(r, e) := chat_event ev e in
  (rmap (fun frames => map (attach_chat_dest_model e) (start ++ frames)) r, e).

Definition chat_saw_tool (e : StreamEncoder) : bool :=
  negb (bool_decide (enc_used_tool e = ∅)) || enc_saw_custom_tool e.

Definition chat_finish_frame (e : StreamEncoder) : option RawSse :=
  (fun reason =>
     unnamed (jobj [("choices",
       JArr [jobj [("index", jint 0); ("delta", JObj []);
                   ("finish_reason", JStr (finish_after_tool reason (chat_saw_tool e)))]])])) <$> enc_finish e.

Definition chat_usage_frame (e : StreamEncoder) : option RawSse :=
  '(p, c, cr, cw, r, audio, completion_audio) ← enc_usage e;
  Some (unnamed (modify (encode_chat p c cr cw r audio completion_audio) "usage" (fun usage =>
    insert_chat_prediction_tokens usage (enc_accepted_prediction_tokens e) (enc_rejected_prediction_tokens e)))).

(** The fields [finish_chat] takes. *)
Definition chat_taken (e : StreamEncoder) : StreamEncoder :=
  let e' := e <| enc_finish := None |> <| enc_usage := None |> in
  if is_some (enc_usage e)
  then e' <| enc_accepted_prediction_tokens := None |> <| enc_rejected_prediction_tokens := None |>
  else e'.

Definition finish_chat (e : StreamEncoder) : Frames * StreamEncoder :=
  let out := push_opt (fun f => f) (chat_finish_frame e) ++ push_opt (fun f => f) (chat_usage_frame e)
             ++ [mkRawSse None "[DONE]"] in
  (map (attach_chat_dest_model (chat_taken e)) out, chat_taken e).

(** ** Converse *)
Definition converse_frame_with_index (value : json) (index : Z) : RawSse :=
  unnamed (attach_block_index value index).

Definition converse_stop_frame (index : Z) : RawSse :=
  converse_frame_with_index (jobj [("contentBlockStop", JObj [])]) index.

Definition converse_input_frame (index : Z) (text : string) : RawSse :=
  converse_frame_with_index
    (jobj [("contentBlockDelta", jobj [("delta", jobj [("toolUse", jobj [("input", JStr text)])])])]) index.

Definition close_converse (e : StreamEncoder) : Frames * StreamEncoder :=
  match enc_open e with
  | None => ([], e)
  | Some (index, _) =>
      let '(text, e) := take_custom_json index (e <| enc_open := None |>) in
      (push_opt (converse_input_frame index) text ++ [converse_stop_frame index], e)
  end.

Definition ensure_converse_block (kind : BlockKind) (e : StreamEncoder) : Frames * StreamEncoder :=
  if open_is e kind then ([], e)
  else
    let '(out, e) := close_converse e in
    let '(index, e) := take_block e in
    (out, e <| enc_open := Some (index, kind) |>).

(** [ensure_converse_block], then the event in the open block. *)
Definition converse_in_block (kind : BlockKind) (ev : IrStreamEvent) (e : StreamEncoder) : Sent :=
  let '(out, e) := ensure_converse_block kind e in
  ((let* value := Converse.encode debug ev in
    Ok (out ++ [converse_frame_with_index value (open_index e)])), e).

(** A media block is opened and closed at once; a refused format changes
    nothing. *)
Definition converse_media (ev : IrStreamEvent) (e : StreamEncoder) : Sent :=
  match Converse.encode debug ev with
  | Err err => (Err err, e)
  | Ok frame =>
      let '(out, e) := close_converse e in
      let '(index, e) := take_block e in
      (Ok (out ++ [converse_frame_with_index frame index; converse_stop_frame index]), e)
  end.

Definition converse_tool_start (custom : bool) (id name : string) (signature : option string) (index : Z)
    (e : StreamEncoder) : Sent :=
  let '(enc, e) := alloc_tool index e in
  let other_open := match enc_open e with Some (open_enc, Tool) => negb (open_enc =? enc) | _ => false end in
  let e := note_custom_slot enc custom e in
  if other_open then
    (Ok [], e <| enc_converse_held ::= bt_insert enc (mkConverseHeld id name signature "") |>)
  else
    let '(out, e) := close_converse e in
    match Converse.encode debug (ToolCallStart id name signature index) with
    | Err err => (Err err, e)
    | Ok value => (Ok (out ++ [converse_frame_with_index value enc]), e <| enc_open := Some (enc, Tool) |>)
    end.

Definition converse_tool_arg (custom : bool) (delta : string) (index : Z) (e : StreamEncoder) : Sent :=
  let '(enc, e) := tool_enc index e in
  let buffered := custom || holds_custom e enc in
  match bt_get enc (enc_converse_held e) with
  | Some held =>
      (Ok [], if buffered then push_custom enc delta e
              else e <| enc_converse_held ::= bt_insert enc
                     (mkConverseHeld (ch_id held) (ch_name held) (ch_signature held) (ch_args held +:+ delta)) |>)
  | None =>
      if buffered then (Ok [], push_custom enc delta e)
      else ((let* value := Converse.encode debug (ToolCallArgDelta delta index) in
             Ok [converse_frame_with_index value enc]), e)
  end.

(** Fields that arrived earlier go into the metadata frame. *)
Definition converse_usage (ev : IrStreamEvent) (e : StreamEncoder) : Sent :=
  match Converse.encode debug ev with
  | Err err => (Err err, e)
  | Ok frame =>
      let filled := is_some_and (get frame "metadata") is_object in
      (Ok [unnamed (modify frame "metadata" (fun meta =>
                     fold_left (fun meta kv => index_set meta kv.1 kv.2) (enc_converse_passthrough e) meta))],
       if filled then e <| enc_converse_passthrough := [] |> else e)
  end.

Definition converse_event (custom : bool) (ev : IrStreamEvent) (e : StreamEncoder) : Sent :=
  match ev with
  | TextDelta _ | AudioTranscriptDelta _ | AnnotationAdded _ => converse_in_block Text ev e
  | ReasoningDelta _ | ReasoningSignature _ => converse_in_block Thinking ev e
  | ToolCallStart id name signature index => converse_tool_start custom id name signature index e
  | ToolCallArgDelta delta index => converse_tool_arg custom delta index e
  | ToolCallEnd => let '(out, e) := close_converse e in (Ok out, e)
  | FinishReason reason _ => (Ok [], e <| enc_finish := Some reason |>)
  | ImageDelta _ _ | AudioDelta _ => converse_media ev e
  | Logprobs _ _ => (Ok [], e)
  | Created _ | ServiceTier _ | Metadata _ | Moderation _ _ | Diagnostics _ | Container _
  | ContextManagement _ | StopSequence _ => (Ok [], e)
  | Usage _ _ _ _ _ _ _ _ => converse_usage ev e
  | other => ((let* frame := encode_stream_event debug ProfileTypes.Converse other in Ok [frame]), e)
  end.

Definition push_converse (ev : IrStreamEvent) (e : StreamEncoder) : Sent :=
  converse_event (is_custom_tool ev) (custom_tool_as_function ev) e.

Definition flush_converse_call (enc : Z) (held : ConverseHeld) (e : StreamEncoder) : Sent :=
  match Converse.encode debug (ToolCallStart (ch_id held) (ch_name held) (ch_signature held) enc) with
  | Err err => (Err err, e)
  | Ok value =>
      let '(text, e) := take_custom_json enc e in
      (Ok (converse_frame_with_index value enc
           :: (match text with
               | Some text => [converse_input_frame enc text]
               | None => if is_empty (ch_args held) then [] else [converse_input_frame enc (ch_args held)]
               end)
           ++ [converse_stop_frame enc]), e)
  end.

Fixpoint flush_converse_calls (held : list (Z * ConverseHeld)) (e : StreamEncoder) : Sent :=
  match held with
  | [] => (Ok [], e)
  | (enc, call) :: held =>
      match flush_converse_call enc call e with
      | (Err err, e) => (Err err, e)
      | (Ok out, e) =>
          let '(rest, e) := flush_converse_calls held e in
          (rmap (fun rest => out ++ rest) rest, e)
      end
  end.

Definition flush_converse_held (e : StreamEncoder) : Sent :=
  flush_converse_calls (enc_converse_held e) (e <| enc_converse_held := [] |>).

Definition finish_converse (e : StreamEncoder) : Sent :=
  let '(out, e) := close_converse e in
  match flush_converse_held e with
  | (Err err, e) => (Err err, e)
  | (Ok held, e) =>
      let reason := unwrap_or (enc_finish e) "end_turn" in
      ((let* frame := encode_stream_event debug ProfileTypes.Converse (FinishReason reason None) in
        Ok (out ++ held ++ [frame])), e <| enc_finish := None |>)
  end.

(** ** Gemini *)
Definition gemini_args (args : string) (custom : bool) : json :=
  if custom then response_custom_tool_input args
  else if is_empty args then JObj []
  else unwrap_or (from_str args) (JObj []).

(** A call is one frame; an unnamed call is not sent. *)
Definition gemini_call_frame (e : StreamEncoder) (call : GeminiHeldCall) : option RawSse :=
  if is_empty (gh_name call) then None
  else
    let function_call := jobj [("name", JStr (gh_name call));
                               ("args", gemini_args (gh_args call) (gh_custom call))] in
    let function_call := if is_empty (gh_id call) then function_call
                         else index_set function_call "id" (JStr (gh_id call)) in
    let part := jobj [("functionCall", function_call)] in
    let part := insert_opt "thoughtSignature" (JStr <$> nonempty (gh_thought_signature call)) part in
    Some (attach_dest_model e (unnamed
      (jobj [("candidates", JArr [jobj [("content",
         jobj [("role", JStr "model"); ("parts", JArr [part])])]])]))).

Definition flush_gemini_calls (e : StreamEncoder) : Frames * StreamEncoder :=
  let calls := map snd (enc_gemini_open_calls e) in
  let e := e <| enc_gemini_open_calls := [] |> in
  (omap (gemini_call_frame e) calls ++ enc_gemini_deferred e, e <| enc_gemini_deferred := [] |>).

(** Argument bytes may arrive before the name: such a call is filled. *)
Definition gemini_awaits_name (call : GeminiHeldCall) : bool := is_empty (gh_id call) && is_empty (gh_name call).

Definition hold_gemini_start (index : Z) (id name : string) (signature : option string) (custom : bool)
    (e : StreamEncoder) : Frames * StreamEncoder :=
  match opt_filter gemini_awaits_name (bt_get index (enc_gemini_open_calls e)) with
  | Some prev =>
      ([], e <| enc_gemini_open_calls ::= bt_insert index
             (mkGeminiHeld id name (gh_args prev) (opt_or signature (gh_thought_signature prev))
                (gh_custom prev || custom)) |>)
  | None =>
      let prev := bt_get index (enc_gemini_open_calls e) in
      let e := e <| enc_gemini_open_calls ::= bt_remove index |> in
      (push_opt (fun f => f) (call ← prev; gemini_call_frame e call),
       e <| enc_gemini_open_calls ::= bt_insert index (mkGeminiHeld id name "" signature custom) |>)
  end.

Definition append_gemini_args (index : Z) (delta : string) (custom : bool) (e : StreamEncoder) : StreamEncoder :=
  let call := match bt_get index (enc_gemini_open_calls e) with
              | Some call => mkGeminiHeld (gh_id call) (gh_name call) (gh_args call +:+ delta)
                               (gh_thought_signature call) (gh_custom call || custom)
              | None => mkGeminiHeld "" "" delta None custom
              end in
  e <| enc_gemini_open_calls ::= bt_insert index call |>.

Definition push_gemini (ev : IrStreamEvent) (e : StreamEncoder) : Sent :=
  match ev with
  | ToolCallStart id name signature index =>
      let '(out, e) := hold_gemini_start index id name signature false e in (Ok out, e)
  | CustomToolCallStart id name index =>
      let '(out, e) := hold_gemini_start index id name None true e in (Ok out, e)
  | ToolCallArgDelta delta index => (Ok [], append_gemini_args index delta false e)
  | CustomToolCallInputDelta delta index => (Ok [], append_gemini_args index delta true e)
  | ToolCallEnd => let '(out, e) := flush_gemini_calls e in (Ok out, e)
  | FinishReason _ _ =>
      let '(out, e) := flush_gemini_calls e in
      ((let* frame := encode_stream_event debug (enc_wire e) ev in Ok (out ++ [attach_dest_model e frame])), e)
  | other =>
      match encode_stream_event debug (enc_wire e) other with
      | Err err => (Err err, e)
      | Ok frame =>
          let frame := attach_dest_model e frame in
          if bool_decide (enc_gemini_open_calls e = []) then (Ok [frame], e)
          else (Ok [], e <| enc_gemini_deferred ::= fun l => l ++ [frame] |>)
      end
  end.

Definition finish_gemini (e : StreamEncoder) : Sent :=
  let '(out, e) := flush_gemini_calls e in
  ((let* frame := encode_stream_event debug (enc_wire e) Done in Ok (out ++ [frame])), e).
End Wires.
