(* ===== verification/Encoder.v ===== *)
(** * Encoder: [StreamEncoder::push] and [StreamEncoder::finish]

    crates/wiremux/src/stream/encoder.rs: the dispatch of an event.  Protocol
    events with a place in the state are kept there, each by the one wire that
    writes it; the other events go to the wire of the encoder
    ([EncoderMessages], [EncoderResponses], [EncoderWires]). *)

From stdpp Require Import gmap.
From S2P Require Import Prelude Fields Text Json JsonCodec Floats Sse Ir ProfileTypes BTree StreamCore Shapes Usage.
From S2P Require Import Chat EncoderCore StreamDecode EncoderMessages EncoderResponses EncoderWires.
From S2P Require Responses.

(** [if self.wire == wire && let Some(x) = o { self.field = Some(x) }] *)
Definition keep {T} (w : Wire) (field : StreamEncoder -> option T) {F : Field field} (o : option T)
    (e : StreamEncoder) : StreamEncoder :=
  if wire_eqb (enc_wire e) w then match o with Some _ => e <| field := o |> | None => e end else e.

Definition a_text (payload : json) : option string := not_blank (as_str payload).
Definition a_count (payload : json) : option Z := as_u64 payload ≫= u32_try_from.
Definition an_object (payload : json) : option json := opt_filter is_object (Some payload).
Definition an_array (payload : json) : option json :=
  opt_filter (fun p => is_some_and (as_array p) (fun items => negb (bool_decide (items = [])))) (Some payload).
Definition a_trimmed (payload : json) : option string := nonempty (trim <$> as_str payload).

Section Push.
Context {SJ : SerdeJson}.
Context (debug : IrStreamEvent -> string).

(** The identity of a reasoning item opens the item. *)
Definition push_reasoning_identity (item_type : string) (payload : json) (e : StreamEncoder) : Sent :=
  if negb (wire_eqb (enc_wire e) Responses) then (Ok [], e)
  else
    let e := if String.eqb item_type "responses_reasoning_id"
             then keep Responses enc_responses_reasoning_id (nonempty (as_str payload)) e
             else if String.eqb item_type "responses_reasoning_status"
             then keep Responses enc_responses_reasoning_status (nonempty (as_str payload)) e
             else keep Responses enc_responses_reasoning_content (an_array payload) e in
    if is_some (enc_responses_reasoning_id e) || is_some (enc_responses_reasoning_status e)
       || is_some (enc_responses_reasoning_content e)
    then let '(out, e) := ensure_item Thinking e in (Ok out, e)
    else (Ok [], e).

Definition push_citation (payload : json) (e : StreamEncoder) : Sent :=
  if negb (wire_eqb (enc_wire e) Messages) || negb (is_object payload) then (Ok [], e)
  else
    let '(out, e) := block_delta_in Text (jobj [("type", JStr "citations_delta"); ("citation", payload)]) e in
    (Ok out, e).

Definition gemini_code_keys : list string :=
  ["executableCode"; "codeExecutionResult"; "functionResponse"; "toolCall"; "toolResponse"; "fileData"].

Definition push_code_part (payload : json) (e : StreamEncoder) : Sent :=
  if negb (wire_eqb (enc_wire e) Gemini) || forallb (fun k => is_none (get payload k)) gemini_code_keys
  then (Ok [], e)
  else
    (Ok [attach_dest_model e (unnamed (jobj [("candidates", JArr [jobj [("content",
           jobj [("role", JStr "model"); ("parts", JArr [payload])])]])]))], e).

Definition push_redacted (payload : json) (e : StreamEncoder) : Sent :=
  if negb (wire_eqb (enc_wire e) Converse) then (Ok [], e)
  else
    match nonempty (as_str payload) with
    | None => (Ok [], e)
    | Some blob =>
        (Ok [unnamed (jobj [("contentBlockDelta",
               jobj [("contentBlockIndex", jint 0);
                     ("delta", jobj [("reasoningContent", jobj [("redactedContent", JStr blob)])])])])], e)
    end.

(** The fields a protocol event can set, in the order of the code. *)
Definition kept_protocol (item_type : string) (payload : json) (e : StreamEncoder) : option StreamEncoder :=
  let tag := String.eqb item_type in
  if wire_eqb (enc_wire e) ChatCompletions && tag "chat_completion_id" then
    Some (keep ChatCompletions enc_chat_completion_id (a_text payload) e)
  else if tag "chat_accepted_prediction_tokens" then
    Some (keep ChatCompletions enc_accepted_prediction_tokens (a_count payload) e)
  else if tag "chat_rejected_prediction_tokens" then
    Some (keep ChatCompletions enc_rejected_prediction_tokens (a_count payload) e)
  else if tag "messages_id" then Some (keep Messages enc_messages_id (a_text payload) e)
  else if tag "messages_web_search_requests" then
    Some (keep Messages enc_messages_web_search_requests (a_count payload) e)
  else if tag "messages_web_fetch_requests" then
    Some (keep Messages enc_messages_web_fetch_requests (a_count payload) e)
  else if tag "messages_cache_creation" then
    Some (keep Messages enc_messages_cache_creation (an_object payload) e)
  else if tag "responses_id" then Some (keep Responses enc_responses_id (a_text payload) e)
  else if tag "responses_previous_id" then Some (keep Responses enc_responses_previous_id (a_text payload) e)
  else if tag "responses_message_id" then Some (keep Responses enc_responses_message_id (a_text payload) e)
  else if tag "responses_message_status" then
    Some (keep Responses enc_responses_message_status (a_text payload) e)
  else if tag "responses_message_phase" then Some (keep Responses enc_responses_message_phase (a_text payload) e)
  else if tag "responses_message_agent" then
    Some (keep Responses enc_responses_message_agent
            (opt_filter (fun p => is_some_and (get p "agent_name" ≫= as_str) (fun name => negb (is_empty name)))
               (Some payload)) e)
  else if tag "gemini_response_id" then Some (keep Gemini enc_gemini_response_id (a_text payload) e)
  else if tag "gemini_url_context" then Some (keep Gemini enc_gemini_url_context (an_object payload) e)
  else if tag "gemini_citation_metadata" then
    Some (keep Gemini enc_gemini_citation_metadata (an_object payload) e)
  else if tag "gemini_safety_ratings" then Some (keep Gemini enc_gemini_safety_ratings (an_array payload) e)
  else if tag "gemini_prompt_safety" then Some (keep Gemini enc_gemini_prompt_safety (an_array payload) e)
  else if tag "gemini_block_reason_message" then
    Some (keep Gemini enc_gemini_block_reason_message (a_trimmed payload) e)
  else if tag "gemini_traffic_type" then Some (keep Gemini enc_gemini_traffic_type (a_trimmed payload) e)
  else if tag "gemini_tool_use_prompt_tokens" then
    Some (keep Gemini enc_gemini_tool_use_prompt_tokens (a_count payload) e)
  else if tag "gemini_avg_logprobs" then
    Some (keep Gemini enc_gemini_avg_logprobs (opt_filter is_finite (as_f64 payload)) e)
  else if tag "gemini_candidate_tokens" then
    Some (keep Gemini enc_gemini_candidate_tokens (opt_filter positive (as_u64 payload) ≫= u32_try_from) e)
  else if tag "gemini_prompt_token_details" then
    Some (keep Gemini enc_gemini_prompt_token_details (an_array payload) e)
  else if tag "gemini_candidate_token_details" then
    Some (keep Gemini enc_gemini_candidate_token_details (an_array payload) e)
  else None.

(** A protocol event no other wire writes. *)
Definition dropped_protocol (w : Wire) (item_type : string) : bool :=
  one_of item_type ["converse_frame"; "converse_citation"] && negb (wire_eqb w Converse)
  || one_of item_type ["converse_guard_content"; "converse_document"; "converse_video"; "converse_image";
                       "converse_audio"].

Definition push_protocol (item_type : string) (payload : json) (e : StreamEncoder) : Sent :=
  match kept_protocol item_type payload e with
  | Some e => (Ok [], e)
  | None =>
      if String.eqb item_type "messages_citation" then push_citation payload e
      else if one_of item_type ["responses_reasoning_id"; "responses_reasoning_status";
                                "responses_reasoning_content"]
      then push_reasoning_identity item_type payload e
      else
        match Responses.tool_extra_from_protocol item_type payload with
        | Some (index, extra) =>
            (Ok [], if wire_eqb (enc_wire e) Responses then note_tool_extra index extra e else e)
        | None =>
            if String.eqb item_type "gemini_code_part" then push_code_part payload e
            else if wire_eqb (enc_wire e) Converse
                    && one_of item_type ["additionalModelResponseFields"; "metrics"; "trace"; "performanceConfig"]
            then (Ok [], e <| enc_converse_passthrough ::= fun l => l ++ [(item_type, payload)] |>)
            else if String.eqb item_type "converse_redacted_content" then push_redacted payload e
            else if dropped_protocol (enc_wire e) item_type then (Ok [], e)
            else ((let* frame := encode_stream_event debug (enc_wire e) (Protocol item_type payload) in
                   Ok [frame]), e)
        end
  end.

Definition push_wire (ev : IrStreamEvent) (e : StreamEncoder) : Sent :=
  match enc_wire e with
  | Messages => push_messages debug ev e
  | Responses => push_responses debug ev e
  | ChatCompletions => push_chat debug ev e
  | Converse => push_converse debug ev e
  | Gemini => push_gemini debug ev e
  end.

(** Close open blocks and emit the terminal frames. *)
Definition finish (e : StreamEncoder) : Sent :=
  if enc_finished e then (Ok [], e)
  else
    let e := e <| enc_finished := true |> in
    match enc_wire e with
    | Messages => let '(out, e) := finish_messages debug e in (Ok out, e)
    | Responses => let '(out, e) := finish_responses e in (Ok out, e)
    | ChatCompletions => let '(out, e) := finish_chat e in (Ok out, e)
    | Gemini => finish_gemini debug e
    | Converse => finish_converse debug e
    end.

(** Annotations Gemini writes as metadata of the candidate. *)
Definition gemini_metadata_annotation (annotation : json) : bool :=
  bool_decide (get annotation "url_context" ≫= as_bool = Some true)
  || bool_decide (get annotation "citation_metadata" ≫= as_bool = Some true).

(** Encode one event; it may emit opening or closing frames first. *)
Definition push (ev : IrStreamEvent) (e : StreamEncoder) : Sent :=
  if enc_finished e then (Ok [], e)
  else
    match ev with
    | Protocol item_type payload => push_protocol item_type payload e
    | UnknownEvent _ _ => ((let* frame := encode_stream_event debug (enc_wire e) ev in Ok [frame]), e)
    | Done => finish e
    | Diagnostics _ | Container _ | ContextManagement _ | StopSequence _ =>
        if wire_eqb (enc_wire e) Messages then push_wire ev e else (Ok [], e)
    | SearchEntryPoint _ => if wire_eqb (enc_wire e) Gemini then push_wire ev e else (Ok [], e)
    | AnnotationAdded annotation =>
        if wire_eqb (enc_wire e) Gemini && gemini_metadata_annotation annotation then (Ok [], e)
        else push_wire ev e
    | other => push_wire other e
    end.

(** A whole stream: every event, then [finish]. *)
Fixpoint push_all (evs : list IrStreamEvent) (e : StreamEncoder) : Sent :=
  match evs with
  | [] => (Ok [], e)
  | ev :: evs =>
      match push ev e with
      | (Err err, e) => (Err err, e)
      | (Ok out, e) => let '(rest, e) := push_all evs e in (rmap (fun rest => out ++ rest) rest, e)
      end
  end.

Definition encode_all (evs : list IrStreamEvent) (e : StreamEncoder) : Sent :=
  match push_all evs e with
  | (Err err, e) => (Err err, e)
  | (Ok out, e) => let '(last, e) := finish e in (rmap (fun last => out ++ last) last, e)
  end.
End Push.

(** ** The order of call events *)

(** The index of a call start, and of an argument fragment. *)
Definition starts_call (ev : IrStreamEvent) : option Z :=
  match ev with ToolCallStart _ _ _ i | CustomToolCallStart _ _ i => Some i | _ => None end.

Definition feeds_call (ev : IrStreamEvent) : option Z :=
  match ev with ToolCallArgDelta _ i | CustomToolCallInputDelta _ i => Some i | _ => None end.

Definition seen_after (ev : IrStreamEvent) (seen : list Z) : list Z :=
  match starts_call ev with Some i => i :: seen | None => seen end.

(** No argument fragment comes before the start of its call: what
    [ToolCallAssembler] gives. *)
Fixpoint starts_lead (seen : list Z) (evs : list IrStreamEvent) : bool :=
  match evs with
  | [] => true
  | ev :: evs =>
      match feeds_call ev with Some i => existsb (Z.eqb i) seen | None => true end
      && starts_lead (seen_after ev seen) evs
  end.

(** ** Composition *)
Section Compose.
Context {SJ : SerdeJson} (debug : IrStreamEvent -> string).

Lemma encode_all_finished evs e : enc_finished e = true -> encode_all debug evs e = (Ok [], e).
Proof.
  intros F. unfold encode_all. assert (push_all debug evs e = (Ok [], e)) as ->.
  { induction evs as [|ev evs IH]; cbn [push_all]; [done|]. unfold push. rewrite F. by rewrite IH. }
  unfold finish. by rewrite F.
Qed.

Lemma encode_all_cons ev evs e :
  encode_all debug (ev :: evs) e =
  match push debug ev e with
  | (Err err, e) => (Err err, e)
  | (Ok out, e) => let '(rest, e) := encode_all debug evs e in (rmap (fun rest => out ++ rest) rest, e)
  end.
Proof.
  unfold encode_all. cbn [push_all]. destruct (push debug ev e) as [[out|err] e1]; [|done].
  destruct (push_all debug evs e1) as [[rest|err] e2]; cbn [rmap]; [|done].
  destruct (finish debug e2) as [[last|err] e3]; cbn [rmap]; [|done]. by rewrite app_assoc.
Qed.
End Compose.
