(* ===== verification/MessagesBlocks.v ===== *)
(** * MessagesBlocks: the Messages stream the encoder writes

    What a client of the Messages dialect relies on: [message_start] comes
    first, content blocks are numbered from zero and open one after the other,
    a delta is inside its own open block, and [message_delta] and
    [message_stop] end the stream with no block open.  The invariant of
    [push_messages] behind it also says where every allocated tool slot is. *)

From stdpp Require Import gmap sorting.
From S2P Require Import Prelude Fields Text Json JsonCodec Sse Ir ProfileTypes BTree StreamCore Shapes Usage.
From S2P Require Import EncoderCore StreamDecode EncoderMessages EncoderWires Encoder.

(** ** The protocol of a Messages stream *)
Inductive phase :=
| Before
| Body (open : option Z) (next : Z)
| Closing
| After.

Section Protocol.
Context {SJ : SerdeJson}.

(** One frame of a well-formed stream. *)
Inductive frame_step : phase -> RawSse -> phase -> Prop :=
| step_begin data : frame_step Before (named "message_start" data) (Body None 0)
| step_open n block : frame_step (Body None n) (block_start_frame n block) (Body (Some n) (n + 1))
| step_inside k n delta : frame_step (Body (Some k) n) (block_delta_frame k delta) (Body (Some k) n)
| step_close k n : frame_step (Body (Some k) n) (block_stop_frame k) (Body None n)
| step_delta n data : frame_step (Body None n) (named "message_delta" data) Closing
| step_stop data : frame_step Closing (named "message_stop" data) After.

Inductive frames_run : phase -> list RawSse -> phase -> Prop :=
| run_nil p : frames_run p [] p
| run_cons p q r f fs : frame_step p f q -> frames_run q fs r -> frames_run p (f :: fs) r.

Lemma frames_run_app p q r fs gs : frames_run p fs q -> frames_run q gs r -> frames_run p (fs ++ gs) r.
Proof. induction 1; cbn; [done|]. intros. econstructor; eauto. Qed.

Lemma frames_run_one p q f : frame_step p f q -> frames_run p [f] q.
Proof. intros. econstructor; [done|constructor]. Qed.
End Protocol.

(** ** Sorting by key *)
Section Sorting.
Context {A : Type} (key : A -> Z).

Lemma insert_by_perm x l : Permutation (insert_by key x l) (x :: l).
Proof.
  induction l as [|y l IH]; cbn; [done|]. destruct (key x <=? key y); [done|].
  rewrite IH. constructor.
Qed.

Lemma sort_by_key_perm l : Permutation (sort_by_key key l) l.
Proof. induction l as [|x l IH]; cbn; [done|]. by rewrite insert_by_perm, IH. Qed.

Lemma insert_by_sorted x l :
  StronglySorted Z.le (map key l) -> StronglySorted Z.le (map key (insert_by key x l)).
Proof.
  induction l as [|y l IH]; cbn; [by repeat constructor|]. inversion 1 as [|? ? Hs Hf]; subst.
  destruct (Z.leb_spec (key x) (key y)); cbn.
  - constructor; [done|]. constructor; [done|]. eapply Forall_impl; [exact Hf|]. cbn. lia.
  - constructor; [by apply IH|]. rewrite (Permutation_map key (insert_by_perm x l)). cbn.
    constructor; [lia|done].
Qed.

Lemma sort_by_key_sorted l : StronglySorted Z.le (map key (sort_by_key key l)).
Proof. induction l; cbn; [constructor|by apply insert_by_sorted]. Qed.

Lemma seqZ_sorted n m : StronglySorted Z.le (seqZ n m).
Proof.
  destruct (decide (0 <= m)) as [Hm|]; [|rewrite seqZ_nil by lia; constructor].
  revert n. pattern m. apply natlike_ind; [|clear m Hm; intros m Hm IH n|done].
  { intros n. rewrite seqZ_nil by lia. constructor. }
  rewrite seqZ_cons by lia. replace (Z.pred (Z.succ m)) with m by lia. constructor; [apply IH|].
  apply Forall_forall. intros x [Hx _]%elem_of_seqZ. lia.
Qed.

(** Keys that are a permutation of an interval are sorted to that interval. *)
Lemma sort_by_key_seqZ l n :
  Permutation (map key l) (seqZ n (vlen l)) -> map key (sort_by_key key l) = seqZ n (vlen l).
Proof.
  intros P. apply (StronglySorted_unique Z.le); [apply sort_by_key_sorted|apply seqZ_sorted|].
  by rewrite (Permutation_map key (sort_by_key_perm l)).
Qed.
End Sorting.

(** ** Bindings of an ordered map *)
Lemma bt_insert_new {V} k (v : V) m : bt_get k m = None -> Permutation (bt_insert k v m) ((k, v) :: m).
Proof.
  induction m as [|[k' v'] m IH]; cbn; [done|]. destruct (Z.eqb_spec k k') as [->|Hne]; [done|].
  intros H. destruct (k <? k'); [done|]. rewrite IH by done. constructor.
Qed.

(** Replacing a binding by one with the same image keeps the images. *)
Lemma bt_insert_image {V B} (f : V -> B) k v v0 m :
  bt_sorted m -> bt_get k m = Some v0 -> f v = f v0 ->
  map (fun kv => f kv.2) (bt_insert k v m) = map (fun kv => f kv.2) m.
Proof.
  induction m as [|[k' v'] m IH]; cbn; [done|]. intros [Hs Hf]%bt_sorted_cons G E.
  destruct (Z.eqb_spec k k') as [->|Hne].
  - injection G as ->. rewrite Z.ltb_irrefl. cbn. by rewrite E.
  - destruct (Z.ltb_spec k k'); cbn; [|by rewrite IH].
    rewrite bt_get_above in G; [done|]. eapply Forall_impl; [exact Hf|]. cbn. lia.
Qed.

(** ** The state the protocol depends on *)
Definition core (e : StreamEncoder) :=
  (enc_wire e, enc_started e, enc_finished e, enc_next_block e, enc_open e, enc_tool_slots e, enc_last_tool e,
   enc_held_tools e, enc_closed_tools e, enc_deferred e).

(** [enc] is a slot calls of the IR index [i] are written to. *)
Definition slot_of (e : StreamEncoder) (i enc : Z) : Prop :=
  In enc (default [] (enc_tool_slots e !! i)) \/ enc_last_tool e !! i = Some enc.

(** Where such a slot is: the open block, a held call of that index, or done. *)
Definition placed (e : StreamEncoder) (i enc : Z) : Prop :=
  enc_open e = Some (enc, Tool)
  \/ (exists held, bt_get i (enc_held_tools e) = Some held /\ held_enc held = enc)
  \/ enc ∈ enc_closed_tools e.

Definition deferrable (ev : IrStreamEvent) : bool :=
  match ev with
  | TextDelta _ | ReasoningDelta _ | ReasoningSignature _ | AudioTranscriptDelta _ | AnnotationAdded _ => true
  | _ => false
  end.

(** What [e] has told the client: held calls are numbered and not yet announced. *)
Definition phase_of (e : StreamEncoder) : phase :=
  if enc_started e then Body (fst <$> enc_open e) (enc_next_block e - vlen (enc_held_tools e)) else Before.

(** The invariant, after the IR indexes [seen] have started and with at most
    [budget] blocks numbered. *)
Record blocks_ok (fin : bool) (seen : list Z) (budget : Z) (e : StreamEncoder) : Prop := {
  ok_wire : enc_wire e = Messages;
  ok_live : enc_finished e = fin;
  ok_fresh : enc_started e = false -> enc_open e = None /\ enc_held_tools e = [] /\ enc_next_block e = 0;
  ok_sorted : bt_sorted (enc_held_tools e);
  ok_held : Permutation (map (fun kv => held_enc kv.2) (enc_held_tools e))
              (seqZ (enc_next_block e - vlen (enc_held_tools e)) (vlen (enc_held_tools e)));
  ok_holder : enc_held_tools e <> [] -> is_some (open_tool e) = true;
  ok_held_last : forall i held, bt_get i (enc_held_tools e) = Some held -> is_some (enc_last_tool e !! i) = true;
  ok_slots : forall i enc, slot_of e i enc -> placed e i enc;
  ok_seen : forall i, In i seen -> is_some (enc_last_tool e !! i) = true;
  ok_deferred : Forall (fun ev => deferrable ev = true) (enc_deferred e);
  ok_next : 0 <= enc_next_block e;
  ok_budget : enc_next_block e + vlen (enc_deferred e) <= budget
}.

(** Equal cores, field by field. *)
Record same_core (e e' : StreamEncoder) : Prop := {
  co_wire : enc_wire e' = enc_wire e;
  co_started : enc_started e' = enc_started e;
  co_finished : enc_finished e' = enc_finished e;
  co_next : enc_next_block e' = enc_next_block e;
  co_open : enc_open e' = enc_open e;
  co_slots : enc_tool_slots e' = enc_tool_slots e;
  co_last : enc_last_tool e' = enc_last_tool e;
  co_held : enc_held_tools e' = enc_held_tools e;
  co_closed : enc_closed_tools e' = enc_closed_tools e;
  co_deferred : enc_deferred e' = enc_deferred e
}.

Lemma core_fields e e' : core e' = core e -> same_core e e'.
Proof. unfold core. intros [=]. by constructor. Qed.

Lemma core_closed e e' : core e' = core e -> enc_closed_tools e' = enc_closed_tools e.
Proof. intros C. apply (core_fields _ _ C). Qed.

Lemma blocks_ok_core fin seen n e e' : core e' = core e -> blocks_ok fin seen n e -> blocks_ok fin seen n e'.
Proof.
  unfold core. intros [= E1 E2 E3 E4 E5 E6 E7 E8 E9 E10] [].
  constructor; unfold slot_of, placed, open_tool in *;
    rewrite ?E1, ?E2, ?E3, ?E4, ?E5, ?E6, ?E7, ?E8, ?E9, ?E10; try done.
  all: intros; unfold slot_of, placed in *; rewrite ?E5, ?E6, ?E7, ?E8, ?E9 in *; auto.
Qed.

Lemma phase_core e e' : core e' = core e -> phase_of e' = phase_of e.
Proof. unfold core, phase_of. by intros [= E1 -> E3 -> -> E6 E7 -> E9 E10]. Qed.

Lemma blocks_ok_weaken fin seen n m e : n <= m -> blocks_ok fin seen n e -> blocks_ok fin seen m e.
Proof. intros L []. constructor; try done. lia. Qed.

(** ** The steps *)
Section Steps.
Context {SJ : SerdeJson} (fin : bool).

Lemma take_custom_core enc e : core (take_custom_json enc e).2 = core e.
Proof. unfold take_custom_json. by destruct (enc_custom_args e !! enc). Qed.

Lemma note_custom_core enc custom e : core (note_custom_slot enc custom e) = core e.
Proof. by destruct custom. Qed.

Lemma messages_note_core ev e : core (messages_note ev e) = core e.
Proof. by destruct ev. Qed.

(** A held call written whole is one block. *)
Lemma flush_held_run held e n :
  frames_run (Body None n) (flush_held_tool held e).1 (Body None (n + 1)) \/ held_enc held <> n.
Proof.
  destruct (decide (held_enc held = n)) as [E|]; [left|by right].
  destruct held as [[[enc id] name] args]. cbn in E. subst n. cbn [flush_held_tool].
  destruct (take_custom_json enc _) as [text e'] eqn:T. cbn [fst]. unfold tool_start_frame.
  eapply run_cons; [apply step_open|]. eapply frames_run_app; [|apply frames_run_one, step_close].
  destruct text; [|destruct (is_empty args); [constructor|]]; apply frames_run_one, step_inside.
Qed.

Lemma flush_each_run held e n :
  map held_enc held = seqZ n (vlen held) ->
  frames_run (Body None n) (flush_each held e).1 (Body None (n + vlen held)).
Proof.
  revert e n. induction held as [|h held IH]; intros e n.
  { intros _. cbn. rewrite vlen_nil, Z.add_0_r. constructor. }
  rewrite vlen_cons. rewrite seqZ_cons by (pose proof (vlen_nonneg held); lia). cbn [map flush_each].
  intros [= Eh Er]. replace (Z.pred (1 + vlen held)) with (vlen held) in Er by lia.
  destruct (flush_held_run h e n) as [R|]; [|done].
  destruct (flush_held_tool h e) as [out e1]. specialize (IH e1 _ Er).
  destruct (flush_each held e1) as [rest e2]. cbn [fst] in *.
  eapply frames_run_app; [exact R|]. replace (n + (1 + vlen held)) with (Z.succ n + vlen held) by lia.
  by replace (n + 1) with (Z.succ n) by lia.
Qed.

(** After a flush the held calls are closed. *)
Definition flushed (e e' : StreamEncoder) : Prop :=
  enc_wire e' = enc_wire e /\ enc_started e' = enc_started e /\ enc_finished e' = enc_finished e
  /\ enc_next_block e' = enc_next_block e /\ enc_open e' = enc_open e
  /\ enc_tool_slots e' = enc_tool_slots e /\ enc_last_tool e' = enc_last_tool e
  /\ enc_held_tools e' = enc_held_tools e /\ enc_deferred e' = enc_deferred e
  /\ enc_closed_tools e ⊆ enc_closed_tools e'.

Lemma flushed_core e e1 e2 : flushed e e1 -> core e2 = core e1 -> flushed e e2.
Proof. unfold flushed, core. intros F [= -> -> -> -> -> -> -> -> -> ->]. exact F. Qed.

Lemma flush_held_flushed h e : flushed e (flush_held_tool h e).2 /\ held_enc h ∈ enc_closed_tools (flush_held_tool h e).2.
Proof.
  destruct h as [[[enc id] name] args]. cbn [flush_held_tool held_enc].
  pose proof (take_custom_core enc (e <| enc_closed_tools ::= fun s => {[enc]} ∪ s |>)) as C.
  destruct (take_custom_json enc _) as [text e']. cbn [snd] in *. split.
  - eapply flushed_core; [|exact C]. unfold flushed. simpl_fields. repeat split; try done; set_solver.
  - rewrite (core_closed _ _ C). simpl_fields. clear. set_solver.
Qed.

Lemma flush_each_flushed held e :
  flushed e (flush_each held e).2
  /\ forall h, In h held -> held_enc h ∈ enc_closed_tools (flush_each held e).2.
Proof.
  revert e. induction held as [|h held IH]; intros e; cbn [flush_each].
  { split; [|done]. unfold flushed. repeat split; try done. }
  pose proof (flush_held_flushed h e) as [F1 C1]. destruct (flush_held_tool h e) as [out e1].
  destruct (IH e1) as [F2 C2]. destruct (flush_each held e1) as [rest e2]. cbn [snd] in *.
  unfold flushed in *. destruct_and!. split; [|intros h' [<-|H']; [set_solver|by apply C2]].
  repeat split; try congruence. set_solver.
Qed.
(** *** Closing *)

(** What [close_open] leaves: nothing open, nothing held, every slot closed. *)
Record closed_with (e a e' : StreamEncoder) : Prop := {
  cl_wire : enc_wire e' = enc_wire e;
  cl_started : enc_started e' = enc_started e;
  cl_finished : enc_finished e' = enc_finished e;
  cl_next : enc_next_block e' = enc_next_block a;
  cl_open : enc_open e' = None;
  cl_slots : enc_tool_slots e' = enc_tool_slots a;
  cl_last : enc_last_tool e' = enc_last_tool a;
  cl_held : enc_held_tools e' = [];
  cl_deferred : enc_deferred e' = enc_deferred e;
  cl_placed : forall i enc, bt_sorted (enc_held_tools e) -> placed e i enc -> enc ∈ enc_closed_tools e'
}.

Definition closed_from (e e' : StreamEncoder) : Prop := closed_with e e e'.

Lemma sorted_held_In held_tools (h : HeldTool) i :
  bt_sorted held_tools -> bt_get i held_tools = Some h -> In h (sort_by_key held_enc (map snd held_tools)).
Proof.
  intros S G. apply bt_get_In in G; [|done].
  eapply Permutation_in; [symmetry; apply sort_by_key_perm|]. apply in_map_iff. by exists (i, h).
Qed.

Lemma flush_held_tools_from e :
  enc_open e = None -> closed_from e (flush_held_tools e).2.
Proof.
  intros O. unfold flush_held_tools.
  set (held := sort_by_key held_enc (map snd (enc_held_tools e))).
  pose proof (flush_each_flushed held (e <| enc_held_tools := [] |>)) as [F C].
  destruct (flush_each held _) as [out e']. cbn [snd] in *. unfold flushed in F. destruct_and!.
  simpl_fields_all. constructor; try done; try congruence.
  intros i enc S [H'|[(h & G & <-)|H']]; [congruence| |].
  - apply C. by eapply sorted_held_In.
  - match goal with Hsub : _ ⊆ _ |- _ => apply Hsub end. done.
Qed.

Lemma close_open_from e : closed_from e (close_open e).2.
Proof.
  unfold close_open. destruct (enc_open e) as [[index kind]|] eqn:O; [|by apply flush_held_tools_from].
  set (e1 := e <| enc_open := None |> <| enc_closed_tools ::= fun s => {[index]} ∪ s |>).
  assert (core (match kind with Tool => take_custom_json index e1 | _ => (None, e1) end).2 = core e1) as C.
  { by destruct kind; [..|apply take_custom_core|]. }
  destruct (match kind with Tool => _ | _ => _ end) as [text e2]. cbn [snd] in C.
  assert (closed_from e2 (flush_held_tools e2).2) as [].
  { apply flush_held_tools_from. by injection C as _ _ _ _ -> _ _ _ _ _. }
  destruct (flush_held_tools e2) as [out e3]. cbn [snd] in *.
  unfold core in C. injection C as W S F N O2 Sl L H Cl D. subst e1. simpl_fields_all.
  constructor; try congruence. intros i enc Hs P. apply (cl_placed0 i); [congruence|].
  unfold placed. rewrite O2, H, Cl. destruct P as [P|[P|P]]; [|by right; left|right; right; set_solver].
  rewrite O in P. injection P as <- _. right; right. clear. set_solver.
Qed.

(** The frames: the open block ends, then the held calls one by one. *)
Lemma close_open_run e n :
  Permutation (map (fun kv => held_enc kv.2) (enc_held_tools e)) (seqZ n (vlen (enc_held_tools e))) ->
  frames_run (Body (fst <$> enc_open e) n) (close_open e).1 (Body None (n + vlen (enc_held_tools e))).
Proof.
  intros P.
  assert (forall e', enc_held_tools e' = enc_held_tools e ->
    frames_run (Body None n) (flush_held_tools e').1 (Body None (n + vlen (enc_held_tools e)))) as Flush.
  { intros e' E. unfold flush_held_tools. rewrite E.
    set (held := map snd (enc_held_tools e)).
    assert (vlen (enc_held_tools e) = vlen held) as L by (unfold held, vlen; by rewrite length_map).
    assert (vlen (sort_by_key held_enc held) = vlen held) as L2.
    { unfold vlen. by rewrite (Permutation_length (sort_by_key_perm held_enc held)). }
    replace (vlen (enc_held_tools e)) with (vlen (sort_by_key held_enc held)) by congruence.
    apply flush_each_run. rewrite L2. apply sort_by_key_seqZ.
    unfold held at 1. rewrite map_map. by replace (vlen held) with (vlen (enc_held_tools e)). }
  unfold close_open. destruct (enc_open e) as [[index kind]|] eqn:O; [|by apply Flush].
  set (e1 := e <| enc_open := None |> <| enc_closed_tools ::= fun s => {[index]} ∪ s |>).
  assert (core (match kind with Tool => take_custom_json index e1 | _ => (None, e1) end).2 = core e1) as C.
  { by destruct kind; [..|apply take_custom_core|]. }
  destruct (match kind with Tool => _ | _ => _ end) as [text e2]. cbn [snd] in C.
  assert (enc_held_tools e2 = enc_held_tools e) as H by (by injection C as _ _ _ _ _ _ _ -> _ _).
  specialize (Flush e2 H). destruct (flush_held_tools e2) as [out e3]. cbn [fst fmap option_fmap option_map] in *.
  eapply frames_run_app; [|eapply frames_run_app; [apply frames_run_one, step_close|exact Flush]].
  destruct text; [|constructor]. apply frames_run_one, step_inside.
Qed.
(** *** Opening *)

(** Between blocks: started, nothing open and nothing held. *)
Definition between (e : StreamEncoder) : Prop :=
  enc_started e = true /\ enc_open e = None /\ enc_held_tools e = [].

Lemma between_phase e : between e -> phase_of e = Body None (enc_next_block e).
Proof. intros (S & O & H). unfold phase_of. rewrite S, O, H, vlen_nil. cbn. f_equal. lia. Qed.

Lemma closed_ok seen n e e' : blocks_ok fin seen n e -> closed_from e e' -> blocks_ok fin seen n e'.
Proof.
  intros [] []. constructor; try congruence.
  - intros Hs. rewrite cl_open0, cl_held0, cl_next0. split; [done|]. split; [done|]. apply ok_fresh0. congruence.
  - rewrite cl_held0. apply bt_sorted_nil.
  - rewrite cl_held0, vlen_nil, seqZ_nil by lia. done.
  - by rewrite cl_held0.
  - intros i enc H. right; right. apply (cl_placed0 i); [done|]. apply ok_slots0.
    unfold slot_of in *. by rewrite cl_slots0, cl_last0 in H.
  - intros i H. rewrite cl_last0. auto.
Qed.

Lemma close_open_ok seen n e :
  blocks_ok fin seen n e -> enc_started e = true ->
  frames_run (phase_of e) (close_open e).1 (Body None (enc_next_block e))
  /\ blocks_ok fin seen n (close_open e).2 /\ between (close_open e).2.
Proof.
  intros OK S. pose proof (close_open_run e _ (ok_held _ _ _ _ OK)) as R.
  pose proof (close_open_from e) as CF. pose proof CF as [].
  split; [|split].
  - unfold phase_of. rewrite S. by replace (enc_next_block e) with
      (enc_next_block e - vlen (enc_held_tools e) + vlen (enc_held_tools e)) at 2 by lia.
  - by apply (closed_ok seen n e).
  - by split; [congruence|].
Qed.

(** A slot that was closed stays closed; only [i] may get the new slot. *)
Definition slots_grow (i enc : Z) (e e' : StreamEncoder) : Prop :=
  forall j x, slot_of e' j x -> x = enc /\ j = i \/ slot_of e j x.

(** A block opened when nothing else is open. *)
Lemma opened_ok seen seen' n e e' kind :
  blocks_ok fin seen n e -> n < u32_max ->
  enc_wire e' = enc_wire e -> enc_started e' = true -> enc_finished e' = enc_finished e ->
  enc_next_block e' = u32_saturating_add (enc_next_block e) 1 ->
  enc_open e' = Some (enc_next_block e, kind) -> enc_held_tools e' = [] -> enc_deferred e' = enc_deferred e ->
  (forall j x, slot_of e' j x -> placed e' j x) ->
  (forall i, In i seen' -> is_some (enc_last_tool e' !! i) = true) ->
  blocks_ok fin seen' (n + 1) e' /\ enc_next_block e' = enc_next_block e + 1.
Proof.
  intros OK N W' S' F' N' O' H' D' Sl' Seen'. destruct OK.
  assert (enc_next_block e' = enc_next_block e + 1) as E.
  { rewrite N'. pose proof (vlen_nonneg (enc_deferred e)). int_lia. }
  split; [|done]. constructor; try congruence; try done.
  - rewrite H'. apply bt_sorted_nil.
  - rewrite H', vlen_nil, seqZ_nil by lia. done.
  - by rewrite H'.
  - lia.
  - rewrite E, D'. lia.
Qed.

(** Opening a block of any kind after closing what is open. *)
Lemma open_block_ok seen n kind block e :
  blocks_ok fin seen n e -> enc_started e = true -> n < u32_max ->
  let '(out, e1) := close_open e in
  let '(index, e2) := take_block e1 in
  let e3 := e2 <| enc_open := Some (index, kind) |> in
  frames_run (phase_of e) (out ++ [block_start_frame index block]) (phase_of e3)
  /\ blocks_ok fin seen (n + 1) e3 /\ enc_started e3 = true /\ enc_held_tools e3 = []
  /\ phase_of e3 = Body (Some (enc_next_block e)) (enc_next_block e + 1).
Proof.
  intros OK S N. destruct (close_open_ok seen n e OK S) as (R & OK1 & B).
  pose proof (cl_next _ _ _ (close_open_from e)) as E. destruct (close_open e) as [out e1]. cbn [fst snd] in *.
  cbn [take_block]. set (e3 := over enc_open _ _). destruct B as (S1 & O1 & H1).
  assert (enc_next_block e3 = enc_next_block e + 1) as N3.
  { subst e3. simpl_fields. rewrite E. destruct OK. pose proof (vlen_nonneg (enc_deferred e)). int_lia. }
  assert (enc_held_tools e3 = []) as H3 by (subst e3; by simpl_fields).
  assert (phase_of e3 = Body (Some (enc_next_block e)) (enc_next_block e + 1)) as P3.
  { unfold phase_of. rewrite N3, H3, vlen_nil, Z.sub_0_r. subst e3. simpl_fields. by rewrite S1, E. }
  split; [|split; [|split; [|split; [done|done]]]].
  - rewrite P3. eapply frames_run_app; [exact R|]. rewrite E. apply frames_run_one, step_open.
  - apply (opened_ok seen seen n e1 e3 kind); try done; try (subst e3; simpl_fields; apply OK1); try done.
    + intros j x H. assert (placed e1 j x) as [P|[(h & P & _)|P]] by (by apply (ok_slots _ _ _ _ OK1)).
      * by rewrite O1 in P.
      * by rewrite H1 in P.
      * by right; right.
  - subst e3. by simpl_fields.
Qed.

(** [ensure_block] for text or thinking. *)
Lemma ensure_block_ok seen n kind e :
  blocks_ok fin seen n e -> enc_started e = true -> n < u32_max -> kind <> Tool ->
  frames_run (phase_of e) (ensure_block kind e).1 (phase_of (ensure_block kind e).2)
  /\ blocks_ok fin seen (n + 1) (ensure_block kind e).2
  /\ enc_started (ensure_block kind e).2 = true
  /\ (exists k, enc_open (ensure_block kind e).2 = Some (k, kind))
  /\ enc_held_tools (ensure_block kind e).2 = [].
Proof.
  intros OK S N K. unfold ensure_block, open_is.
  destruct (enc_open e) as [[k kd]|] eqn:O; [destruct (bool_decide (kd = kind)) eqn:D|].
  - apply bool_decide_eq_true in D as ->. cbn [fst snd]. split; [constructor|].
    split; [by apply (blocks_ok_weaken _ _ n); [lia|]|]. split; [done|]. split; [by exists k|].
    destruct (enc_held_tools e) eqn:H; [done|]. exfalso.
    pose proof (ok_holder _ _ _ _ OK) as Ho. rewrite H in Ho. unfold open_tool in Ho. rewrite O in Ho.
    by destruct kind; discriminate Ho || apply K.
  - pose proof (open_block_ok seen n kind (empty_block kind) e OK S N) as H.
    destruct (close_open e) as [out e1]. destruct (take_block e1) as [index e2]. cbn [fst snd].
    cbv zeta in H. destruct H as (R & OK' & S' & H' & P'). split_and!; try done. by exists index.
  - pose proof (open_block_ok seen n kind (empty_block kind) e OK S N) as H.
    destruct (close_open e) as [out e1]. destruct (take_block e1) as [index e2]. cbn [fst snd].
    cbv zeta in H. destruct H as (R & OK' & S' & H' & P'). split_and!; try done. by exists index.
Qed.
(** *** The events that write in a block *)

(** What a step keeps: its frames continue the stream, and one block more may
    be numbered. *)
Definition step_ok (seen : list Z) (n : Z) (e : StreamEncoder) (r : Frames * StreamEncoder) : Prop :=
  frames_run (phase_of e) r.1 (phase_of r.2) /\ blocks_ok fin seen (n + 1) r.2 /\ enc_started r.2 = true.

(** No tool block is open or held after it. *)
Definition no_tool (e : StreamEncoder) : Prop := open_tool e = None /\ enc_held_tools e = [].

Lemma tool_block_open_false e : tool_block_open e = false <-> no_tool e.
Proof.
  unfold tool_block_open, open_is, no_tool, open_tool. rewrite orb_false_iff, negb_false_iff, bool_decide_eq_true.
  destruct (enc_open e) as [[k []]|]; cbn; naive_solver.
Qed.

Lemma block_delta_ok seen n kind delta e :
  blocks_ok fin seen n e -> enc_started e = true -> n < u32_max -> kind <> Tool ->
  step_ok seen n e (block_delta_in kind delta e)
  /\ no_tool (block_delta_in kind delta e).2
  /\ enc_deferred (block_delta_in kind delta e).2 = enc_deferred e.
Proof.
  intros OK S N K. unfold block_delta_in.
  destruct (ensure_block_ok seen n kind e OK S N K) as (R & OK' & S' & (k & O) & H).
  assert (enc_deferred (ensure_block kind e).2 = enc_deferred e) as D.
  { unfold ensure_block. destruct (open_is e kind); [done|].
    pose proof (cl_deferred _ _ _ (close_open_from e)). by destruct (close_open e). }
  destruct (ensure_block kind e) as [out e']. cbn [fst snd] in *. unfold step_ok. cbn [fst snd]. split_and!; try done.
  - eapply frames_run_app; [exact R|]. apply frames_run_one. unfold phase_of, open_index.
    rewrite S', O. apply step_inside.
  - split; [|done]. unfold open_tool. rewrite O. by destruct kind.
Qed.

(** Forgetting an open block that is not a tool. *)
Lemma unopen_ok seen n e e' :
  blocks_ok fin seen n e -> enc_held_tools e = [] -> open_tool e = None ->
  core e' = core (e <| enc_open := None |>) -> blocks_ok fin seen n e'.
Proof.
  intros OK H T C. apply (blocks_ok_core _ _ _ _ _ C). clear C. destruct OK.
  constructor; simpl_fields; try done.
  - intros S. by destruct (ok_fresh0 S).
  - intros j x Hs. destruct (ok_slots0 j x Hs) as [P|P]; [|by right].
    unfold open_tool in T. by rewrite P in T.
Qed.

Lemma messages_image_ok seen n media_type data e :
  blocks_ok fin seen n e -> enc_started e = true -> n < u32_max -> step_ok seen n e (messages_image media_type data e).
Proof.
  intros OK S N. unfold messages_image.
  set (block := jobj [("type", JStr "image"); _]).
  pose proof (open_block_ok seen n Text block e OK S N) as H.
  destruct (close_open e) as [out e1] eqn:C. cbn [take_block] in H |- *. cbv zeta in H.
  destruct H as (R & OK' & S' & H' & P'). rewrite P' in R. simpl_fields_in S'. simpl_fields_in H'.
  assert (enc_open e1 = None) as O1. { pose proof (cl_open _ _ _ (close_open_from e)) as O. by rewrite C in O. }
  assert (phase_of (e1 <| enc_next_block ::= fun n => u32_saturating_add n 1 |>)
          = Body None (enc_next_block e + 1)) as P.
  { revert P'. unfold phase_of. simpl_fields. rewrite S', O1, H', vlen_nil, Z.sub_0_r. by intros [= -> ->]. }
  split; [|split; [|by simpl_fields]]; cbn [fst snd].
  - rewrite P. change [?a; ?b] with ([a] ++ [b]). rewrite app_assoc. eapply frames_run_app; [exact R|].
    assert (enc_next_block e1 = enc_next_block e) as ->.
    { pose proof (cl_next _ _ _ (close_open_from e)) as E. by rewrite C in E. }
    apply frames_run_one, step_close.
  - apply (unopen_ok _ _ (over enc_open (fun _ => Some (enc_next_block e1, Text))
      (e1 <| enc_next_block ::= fun n => u32_saturating_add n 1 |>))); [done|by simpl_fields|done|].
    unfold core. simpl_fields. by rewrite O1.
Qed.

(** *** Slots *)
Record alloc_from (i enc : Z) (e e' : StreamEncoder) : Prop := {
  al_enc : enc = enc_next_block e;
  al_wire : enc_wire e' = enc_wire e;
  al_started : enc_started e' = enc_started e;
  al_finished : enc_finished e' = enc_finished e;
  al_next : enc_next_block e' = u32_saturating_add (enc_next_block e) 1;
  al_open : enc_open e' = enc_open e;
  al_last : enc_last_tool e' = <[i := enc]> (enc_last_tool e);
  al_grow : slots_grow i enc e e';
  al_held : enc_held_tools e' = enc_held_tools e;
  al_closed : enc_closed_tools e' = enc_closed_tools e;
  al_deferred : enc_deferred e' = enc_deferred e
}.

Lemma alloc_tool_from i e : enc_wire e = Messages -> alloc_from i (alloc_tool i e).1 e (alloc_tool i e).2.
Proof.
  intros W. unfold alloc_tool, next_slot. rewrite W. cbn [take_block].
  constructor; cbn [fst snd]; simpl_fields; try done.
  intros j x. unfold slot_of. simpl_fields.
  destruct (decide (j = i)) as [->|J]; [rewrite !lookup_insert_eq|rewrite !lookup_insert_ne by done; auto].
  cbn [default]. unfold id. intros [H|[= <-]]; [|by left].
  apply in_app_iff in H as [H|[<-|[]]]; [|by left].
  destruct (slots_served _ _) in H; [done|]. by right; left.
Qed.

Lemma In_tail {A} (x : A) l : In x (tail l) -> In x l.
Proof. destruct l; [done|by right]. Qed.

Lemma tool_enc_core i e :
  is_some (enc_last_tool e !! i) = true ->
  let '(enc, e') := tool_enc i e in
  slot_of e i enc /\ (forall j x, slot_of e' j x -> slot_of e j x)
  /\ core e' = core (e <| enc_tool_slots := enc_tool_slots e' |>).
Proof.
  intros L. unfold tool_enc. simpl_fields. destruct (enc_last_tool e !! i) as [last|] eqn:E; [|done]. clear L.
  set (slots := default [] (enc_tool_slots e !! i)).
  assert (exists enc, opt_or (head slots) (Some last) = Some enc /\ slot_of e i enc) as (enc & -> & P).
  { destruct slots as [|front slots'] eqn:Sl; [exists last|exists front]; split; try done; [by right|].
    left. fold slots. rewrite Sl. by left. }
  split; [done|]. simpl_fields. destruct (1 <? vlen slots).
  - split; [|unfold core; by simpl_fields].
    intros j x. unfold slot_of. simpl_fields.
    destruct (decide (j = i)) as [->|J]; [|by rewrite !lookup_insert_ne by done].
    rewrite lookup_insert_eq. cbn [default]. unfold id. intros [H|H]; [|by right].
    left. by apply In_tail.
  - split; [|unfold core; by simpl_fields]. intros j x. unfold slot_of. simpl_fields.
    destruct (decide (j = i)) as [->|J]; [|by rewrite lookup_insert_ne by done].
    by rewrite lookup_insert_eq.
Qed.
(** *** Tool calls *)

(** A call that gets the new slot: what was placed is closed, the slot opens.
    [e1] is the state the slot was allocated in, [c] the one after closing. *)
Lemma started_tool_ok seen n i enc id name e e1 a c :
  blocks_ok fin seen n e -> enc_started e = true -> n < u32_max ->
  enc_next_block e1 = enc_next_block e -> (forall j x, slot_of e1 j x -> slot_of e j x) ->
  enc_last_tool e1 = enc_last_tool e ->
  alloc_from i enc e1 a -> closed_with e a c ->
  blocks_ok fin (i :: seen) (n + 1) (start_tool enc id name c).2
  /\ phase_of (start_tool enc id name c).2 = Body (Some enc) (enc + 1)
  /\ enc_started (start_tool enc id name c).2 = true.
Proof.
  intros OK S N N1 Sl L [] CL. pose proof CL as []. cbn [start_tool snd]. set (e3 := over enc_open _ _).
  assert (enc_started e3 = true) as S3 by (subst e3; simpl_fields; congruence).
  assert (enc_held_tools e3 = []) as H3 by (subst e3; by simpl_fields).
  assert (enc_open e3 = Some (enc, Tool)) as O3 by (subst e3; by simpl_fields).
  assert (enc_last_tool e3 = <[i := enc]> (enc_last_tool e)) as L3 by (subst e3; simpl_fields; congruence).
  destruct (opened_ok seen (i :: seen) n e e3 Tool) as [OK3 N3]; try done; try (subst e3; simpl_fields; congruence).
  - intros j x H. assert (slot_of a j x) as Ha.
    { subst e3. unfold slot_of in *. simpl_fields_all. by rewrite cl_slots0, cl_last0 in H. }
    destruct (al_grow0 j x Ha) as [[-> ->]|H']; [by left|].
    right; right. subst e3. simpl_fields. apply (cl_placed0 j); [apply OK|]. apply OK, Sl, H'.
  - intros j [<-|H]; rewrite L3.
    + by rewrite lookup_insert_eq.
    + destruct (decide (j = i)) as [->|J]; [by rewrite lookup_insert_eq|].
      rewrite lookup_insert_ne by done. by apply OK.
  - split; [done|]. split; [|done]. unfold phase_of. rewrite S3, O3, H3, vlen_nil, N3. cbn. f_equal; lia.
Qed.

(** A held call that is filled keeps its slot. *)
Lemma held_update_ok seen n i h h' e e' :
  blocks_ok fin seen n e -> bt_get i (enc_held_tools e) = Some h -> held_enc h' = held_enc h ->
  core e' = core (e <| enc_held_tools ::= bt_insert i h' |>) ->
  blocks_ok fin seen n e' /\ phase_of e' = phase_of e.
Proof.
  intros OK G E C.
  pose proof (bt_insert_image held_enc i h' h (enc_held_tools e) (ok_sorted _ _ _ _ OK) G E) as I.
  assert (vlen (bt_insert i h' (enc_held_tools e)) = vlen (enc_held_tools e)) as L.
  { apply (f_equal (@length Z)) in I. rewrite !length_map in I. unfold vlen. by rewrite I. }
  split.
  - apply (blocks_ok_core _ _ _ _ _ C). clear C. destruct OK. constructor; simpl_fields; try done.
    + intros S. destruct (ok_fresh0 S) as (_ & H & _). by rewrite H in G.
    + by apply bt_insert_sorted.
    + by rewrite I, L.
    + intros _. apply ok_holder0. by intros H; rewrite H in G.
    + intros j h2. rewrite bt_get_insert. destruct (Z.eqb_spec j i) as [->|]; [|apply ok_held_last0].
      intros _. by apply (ok_held_last0 i h).
    + intros j x Hs. destruct (ok_slots0 j x Hs) as [P|[(h2 & G2 & <-)|P]]; [by left| |by right; right].
      right; left. simpl_fields. rewrite bt_get_insert. destruct (Z.eqb_spec j i) as [->|].
      * exists h'. split; [done|]. congruence.
      * by exists h2.
  - rewrite (phase_core _ _ C). unfold phase_of. simpl_fields. by rewrite L.
Qed.

(** A call that starts while another tool block is open is numbered and held. *)
Lemma held_new_ok seen n i enc id name e a e' :
  blocks_ok fin seen n e -> enc_started e = true -> n < u32_max ->
  is_some (open_tool e) = true -> bt_get i (enc_held_tools e) = None ->
  alloc_from i enc e a ->
  core e' = core (a <| enc_held_tools ::= bt_insert i ((enc, id, name, "") : HeldTool) |>) ->
  blocks_ok fin (i :: seen) (n + 1) e' /\ phase_of e' = phase_of e /\ enc_started e' = true.
Proof.
  intros OK S N O G [] C. subst enc.
  assert (enc_next_block a = enc_next_block e + 1) as N'.
  { rewrite al_next0. destruct OK. pose proof (vlen_nonneg (enc_deferred e)). int_lia. }
  set (h := (enc_next_block e, id, name, "")) in *.
  pose proof (bt_insert_new (V := HeldTool) i h _ G) as P.
  assert (vlen (bt_insert (V := HeldTool) i h (enc_held_tools a)) = vlen (enc_held_tools e) + 1) as L.
  { rewrite al_held0. apply Permutation_length in P. unfold vlen. cbn [length] in P. lia. }
  split; [|split].
  - apply (blocks_ok_core _ _ _ _ _ C). clear C. destruct OK. constructor; simpl_fields; try congruence.
    + rewrite al_held0. by apply bt_insert_sorted.
    + rewrite N', L, al_held0. rewrite (Permutation_map (fun kv => held_enc kv.2) P). cbn [map snd held_enc h].
      rewrite ok_held0. replace (enc_next_block e + 1 - (vlen (enc_held_tools e) + 1))
        with (enc_next_block e - vlen (enc_held_tools e)) by lia.
      pose proof (vlen_nonneg (enc_held_tools e)).
      rewrite (seqZ_app _ (vlen (enc_held_tools e)) 1) by lia.
      rewrite Z.sub_add, (seqZ_cons (enc_next_block e) 1) by lia. change (Z.pred 1) with 0.
      rewrite (seqZ_nil _ 0) by lia.
      by rewrite <- Permutation_cons_append.
    + intros _. unfold open_tool in *. simpl_fields. by rewrite al_open0.
    + intros j h2. rewrite al_last0, bt_get_insert, al_held0. destruct (Z.eqb_spec j i) as [->|J].
      * by rewrite lookup_insert_eq.
      * rewrite lookup_insert_ne by done. apply ok_held_last0.
    + intros j x Hs. unfold placed. simpl_fields. rewrite al_open0, al_closed0, bt_get_insert, al_held0.
      destruct (al_grow0 j x Hs) as [[-> ->]|Hs'].
      * right; left. rewrite Z.eqb_refl. by exists h.
      * destruct (ok_slots0 j x Hs') as [P'|[(h2 & G2 & <-)|P']]; [by left| |by right; right].
        right; left. destruct (Z.eqb_spec j i) as [->|]; [congruence|by exists h2].
    + intros j [<-|H]; rewrite al_last0; [by rewrite lookup_insert_eq|].
      destruct (decide (j = i)) as [->|J]; [by rewrite lookup_insert_eq|rewrite lookup_insert_ne by done; auto].
    + lia.
    + rewrite al_deferred0. lia.
  - rewrite (phase_core _ _ C). unfold phase_of. simpl_fields. rewrite L, N', al_started0, al_open0.
    destruct (enc_started e); [f_equal; lia|done].
  - pose proof (co_started _ _ (core_fields _ _ C)) as E. simpl_fields_in E. congruence.
Qed.
Lemma quiet_ok seen n e e' :
  blocks_ok fin seen n e -> enc_started e = true -> core e' = core e -> step_ok seen n e ([], e').
Proof.
  intros OK S C. split; [|split]; cbn [fst snd].
  - rewrite (phase_core _ _ C). constructor.
  - apply (blocks_ok_core _ _ _ _ _ C). apply (blocks_ok_weaken _ _ n); [lia|done].
  - rewrite (co_started _ _ (core_fields _ _ C)). done.
Qed.

Lemma seen_more seen n i e :
  blocks_ok fin seen n e -> is_some (enc_last_tool e !! i) = true -> blocks_ok fin (i :: seen) n e.
Proof. intros [] L. constructor; try done. intros j [<-|H]; auto. Qed.

(** The start frame of a call that got the next slot. *)
Lemma start_tool_step seen n i enc id name out e e1 a c :
  blocks_ok fin seen n e -> enc_started e = true -> n < u32_max ->
  enc_next_block e1 = enc_next_block e -> (forall j x, slot_of e1 j x -> slot_of e j x) ->
  enc_last_tool e1 = enc_last_tool e ->
  alloc_from i enc e1 a -> closed_with e a c ->
  frames_run (phase_of e) out (Body None (enc_next_block e)) ->
  let '(start, e3) := start_tool enc id name c in
  step_ok (i :: seen) n e (out ++ start, e3).
Proof.
  intros OK S N N1 Sl L A CL R.
  destruct (started_tool_ok seen n i enc id name e e1 a c) as (OK' & P & S'); try done.
  destruct (start_tool enc id name c) as [start e3] eqn:St. cbn [snd] in *.
  split; [|by split]. cbn [fst snd]. rewrite P. unfold start_tool in St. injection St as <- _.
  eapply frames_run_app; [exact R|]. rewrite (al_enc _ _ _ _ A), N1. apply frames_run_one, step_open.
Qed.

(** A new call in its own block: what is open is closed first. *)
Lemma start_after_close_ok seen n i enc id name custom e a :
  blocks_ok fin seen n e -> enc_started e = true -> n < u32_max -> alloc_from i enc e a ->
  let '(out, c) := close_open (note_custom_slot enc custom a) in
  let '(start, e3) := start_tool enc id name c in
  step_ok (i :: seen) n e (out ++ start, e3).
Proof.
  intros OK S N A. set (b := note_custom_slot enc custom a).
  assert (same_core a b) as B by (apply core_fields, note_custom_core).
  pose proof (close_open_from b) as CF.
  pose proof (close_open_run b (enc_next_block e - vlen (enc_held_tools e))) as R.
  destruct (close_open b) as [out c]. cbn [fst snd] in *.
  assert (enc_held_tools b = enc_held_tools e) as Hb by (destruct A, B; congruence).
  assert (enc_open b = enc_open e) as Ob by (destruct A, B; congruence).
  assert (enc_closed_tools b = enc_closed_tools e) as Cb by (destruct A, B; congruence).
  assert (closed_with e a c) as CL.
  { destruct CF. constructor; try (destruct A, B; congruence).
    intros j x Hs P. apply (cl_placed0 j); [congruence|]. unfold placed in *. by rewrite Hb, Ob, Cb. }
  apply (start_tool_step seen n i enc id name out e e a c); try done.
  unfold phase_of. rewrite S. rewrite Hb, Ob in R. specialize (R (ok_held _ _ _ _ OK)). by rewrite Z.sub_add in R.
Qed.

Lemma messages_tool_start_ok seen n custom id name index e :
  blocks_ok fin seen n e -> enc_started e = true -> n < u32_max ->
  step_ok (index :: seen) n e (messages_tool_start custom id name index e).
Proof.
  intros OK S N. unfold messages_tool_start.
  destruct (messages_same_open index e) eqn:Same; cbn [andb];
    [destruct (is_empty id || String.eqb (messages_open_id e) id)|].
  - unfold messages_same_open in Same. destruct (open_tool e) as [enc|]; [|done].
    cbn [is_some_and] in Same. apply bool_decide_eq_true in Same.
    apply quiet_ok; [|done|apply note_custom_core]. apply seen_more; [done|by rewrite Same].
  - destruct (close_open_ok seen n e OK S) as (R & OK1 & B1). pose proof (close_open_from e) as CF.
    destruct (close_open e) as [out e1]. cbn [fst snd] in *.
    set (e2 := e1 <| enc_tool_slots ::= base.delete index |>).
    assert (enc_wire e2 = Messages) as W2 by (subst e2; simpl_fields; apply OK1).
    pose proof (alloc_tool_from index e2 W2) as A. destruct (alloc_tool index e2) as [enc a]. cbn [fst snd] in A.
    apply (start_tool_step seen n index enc id name out e e2 a); try done.
    + subst e2. simpl_fields. apply CF.
    + intros j x H. assert (slot_of e1 j x) as H1.
      { unfold slot_of in *. subst e2. simpl_fields_all. destruct H as [H|H]; [left|by right].
        destruct (decide (j = index)) as [->|J]; [by rewrite lookup_delete_eq in H|by rewrite lookup_delete_ne in H]. }
      unfold slot_of in *. destruct CF. by rewrite cl_slots0, cl_last0 in H1.
    + subst e2. simpl_fields. apply CF.
    + destruct A, CF, (core_fields _ _ (note_custom_core enc custom a)). subst e2. simpl_fields_all.
      constructor; try congruence. intros j x Hs P. rewrite co_closed0, al_closed0. by apply (cl_placed0 j).
  - destruct (bt_get index (enc_held_tools e)) as [held|] eqn:G.
    + set (e1 := e <| enc_held_tools ::= bt_insert index (fill_held id name held) |>).
      destruct (held_update_ok seen n index held (fill_held id name held) e e1 OK G) as [OK1 P];
        [by destruct held as [[[? ?] ?] ?]|done|].
      assert (step_ok (index :: seen) n e1 ([], note_custom_slot (held_enc held) custom e1)) as (R & OK2 & S2).
      { apply quiet_ok; [|subst e1; by simpl_fields|apply note_custom_core]. apply seen_more; [done|].
        subst e1. simpl_fields. by apply (ok_held_last _ _ _ _ OK index held). }
      split; [|by split]. by rewrite P in R.
    + pose proof (alloc_tool_from index e (ok_wire _ _ _ _ OK)) as A.
      destruct (alloc_tool index e) as [enc a]. cbn [fst snd] in *.
      destruct (is_some_and (open_tool a) _) eqn:Other.
      * assert (is_some (open_tool e) = true) as O.
        { assert (open_tool a = open_tool e) as <- by (unfold open_tool; by rewrite (al_open _ _ _ _ A)).
          by destruct (open_tool a). }
        set (b := note_custom_slot enc custom a).
        destruct (held_new_ok seen n index enc id name e a
          (b <| enc_held_tools ::= bt_insert index ((enc, id, name, "") : HeldTool) |>) OK S N O G A)
          as (OK1 & P & S1).
        { destruct (core_fields _ _ (note_custom_core enc custom a)). fold b in co_wire0.
          unfold core. simpl_fields. subst b. congruence. }
        split; [|by split]. cbn [fst snd]. rewrite P. constructor.
      * pose proof (start_after_close_ok seen n index enc id name custom e a OK S N A) as T.
        destruct (close_open (note_custom_slot enc custom a)) as [out c].
        by destruct (start_tool enc id name c) as [start e3].
Qed.
Lemma tool_enc_ok seen n i e :
  blocks_ok fin seen n e -> is_some (enc_last_tool e !! i) = true ->
  slot_of e i (tool_enc i e).1 /\ blocks_ok fin seen n (tool_enc i e).2
  /\ phase_of (tool_enc i e).2 = phase_of e /\ enc_started (tool_enc i e).2 = enc_started e
  /\ enc_open (tool_enc i e).2 = enc_open e /\ enc_held_tools (tool_enc i e).2 = enc_held_tools e
  /\ enc_closed_tools (tool_enc i e).2 = enc_closed_tools e.
Proof.
  intros OK L. pose proof (tool_enc_core i e L) as T. destruct (tool_enc i e) as [enc e']. cbn [fst snd].
  destruct T as (Sl & G & C). apply core_fields in C as []. simpl_fields_all. split; [done|].
  split; [|split; [|done]].
  - destruct OK. unfold open_tool in *. constructor; unfold open_tool;
      rewrite ?co_started0, ?co_open0, ?co_held0, ?co_last0, ?co_next0; try congruence; try done.
    intros j x H. specialize (ok_slots0 j x (G j x H)). unfold placed in *. by rewrite co_open0, co_held0, co_closed0.
  - unfold phase_of. by rewrite co_started0, co_open0, co_next0, co_held0.
Qed.

Lemma messages_tool_arg_ok seen n custom delta index e :
  blocks_ok fin seen n e -> enc_started e = true -> In index seen ->
  step_ok seen n e (messages_tool_arg custom delta index e).
Proof.
  intros OK S I. unfold messages_tool_arg.
  destruct (tool_enc_ok seen n index e OK (ok_seen _ _ _ _ OK _ I)) as (Sl & OK1 & P & S1 & O & H & C).
  apply (ok_slots _ _ _ _ OK) in Sl. destruct (tool_enc index e) as [enc e1]. cbn [fst snd] in *.
  rewrite S in S1. unfold step_ok. rewrite <- P. fold (step_ok seen n e1). clear P.
  assert (placed e1 index enc) as Pl by (unfold placed in *; by rewrite O, H, C). clear Sl O H C e OK S.
  destruct (bool_decide (enc_open e1 = Some (enc, Tool)) && _); [by apply quiet_ok|].
  destruct (bt_get index (enc_held_tools e1)) as [held|] eqn:G.
  - destruct (custom || _); [by apply quiet_ok|].
    set (e2 := e1 <| enc_held_tools ::= bt_insert index (append_held delta held) |>).
    destruct (held_update_ok seen n index held (append_held delta held) e1 e2 OK1 G) as [OK2 P];
      [by destruct held as [[[? ?] ?] ?]|done|].
    assert (step_ok seen n e2 ([], e2)) as (R & OK3 & S2) by (apply quiet_ok; [done|subst e2; by simpl_fields|done]).
    split; [|by split]. cbn [fst snd] in *. by rewrite P in R |- *.
  - destruct (bool_decide (enc ∈ enc_closed_tools e1)) eqn:Cl; [by apply quiet_ok|].
    apply bool_decide_eq_false in Cl. destruct Pl as [Pl|[(h & Pl & _)|Pl]]; [|congruence|done].
    split; [|split; [by apply (blocks_ok_weaken _ _ n); [lia|]|done]]. cbn [fst snd].
    apply frames_run_one. unfold phase_of. rewrite S1, Pl. apply step_inside.
Qed.

Lemma defer_ok seen n ev e :
  blocks_ok fin seen n e -> enc_started e = true -> deferrable ev = true -> step_ok seen n e ([], defer ev e).
Proof.
  intros OK S D. unfold defer. split; [|split; [|by simpl_fields]]; cbn [fst snd].
  - unfold phase_of. simpl_fields. constructor.
  - destruct OK. constructor; simpl_fields; try done; [by apply Forall_app_2; [|constructor]|].
    autorewrite with wire_len. lia.
Qed.
(** *** Whole events *)
Context (debug : IrStreamEvent -> string).

(** Events [push_messages] handles itself. *)
Definition wire_event (ev : IrStreamEvent) : bool :=
  match ev with Protocol _ _ | UnknownEvent _ _ | Done | SearchEntryPoint _ => false | _ => true end.

Definition event_ok (seen : list Z) (n : Z) (ev : IrStreamEvent) (e : StreamEncoder) (r : Sent) : Prop :=
  exists out, r.1 = Ok out /\ step_ok (seen_after ev seen) n e (out, r.2).

Lemma sends_ok seen n e (r : Frames * StreamEncoder) :
  step_ok seen n e r -> exists out, (sends r).1 = Ok out /\ step_ok seen n e (out, (sends r).2).
Proof. intros H. exists r.1. split; [done|]. by destruct r. Qed.

Lemma quietly_ok seen n e e' :
  blocks_ok fin seen n e -> enc_started e = true -> core e' = core e ->
  exists out, (quietly e').1 = Ok out /\ step_ok seen n e (out, (quietly e').2).
Proof. intros OK S C. exists []. split; [done|]. by apply quiet_ok. Qed.

Lemma unless_tool_open_ok seen n ev write e :
  blocks_ok fin seen n e -> enc_started e = true -> deferrable ev = true -> step_ok seen n e (write e) ->
  exists out, (unless_tool_open ev write e).1 = Ok out /\ step_ok seen n e (out, (unless_tool_open ev write e).2).
Proof.
  intros OK S D W. unfold unless_tool_open. destruct (tool_block_open e).
  - exists []. split; [done|]. by apply defer_ok.
  - by apply sends_ok.
Qed.

Lemma messages_event_ok seen n custom ev e :
  blocks_ok fin seen n e -> enc_started e = true -> n < u32_max ->
  wire_event ev = true -> is_custom_tool ev = false ->
  (forall i, feeds_call ev = Some i -> In i seen) ->
  event_ok seen n ev e (messages_event debug custom ev e).
Proof.
  intros OK S N W Cu F. unfold event_ok, seen_after.
  destruct ev; try discriminate; cbn [messages_event starts_call];
    try (by apply quietly_ok); try (apply unless_tool_open_ok; [done|done|done|];
      by apply block_delta_ok).
  - by apply sends_ok, messages_tool_start_ok.
  - apply sends_ok, messages_tool_arg_ok; [done|done|by apply F].
  - by apply sends_ok, messages_image_ok.
Qed.

Lemma messages_begin_ok seen n e :
  blocks_ok fin seen n e -> enc_started e = false ->
  frames_run Before (messages_begin e).1 (phase_of (messages_begin e).2)
  /\ blocks_ok fin seen n (messages_begin e).2 /\ enc_started (messages_begin e).2 = true.
Proof.
  intros OK S. cbn [messages_begin fst snd]. destruct (ok_fresh _ _ _ _ OK S) as (O & H & N). split; [|split].
  - unfold phase_of. simpl_fields. rewrite O, H, N. apply frames_run_one, step_begin.
  - destruct OK. by constructor; simpl_fields.
  - by simpl_fields.
Qed.

Lemma as_function_kept ev :
  wire_event (custom_tool_as_function ev) = wire_event ev
  /\ is_custom_tool (custom_tool_as_function ev) = false
  /\ starts_call (custom_tool_as_function ev) = starts_call ev
  /\ feeds_call (custom_tool_as_function ev) = feeds_call ev.
Proof. by destruct ev. Qed.

Lemma push_messages_ok seen n ev e :
  blocks_ok fin seen n e -> n < u32_max -> wire_event ev = true ->
  (forall i, feeds_call ev = Some i -> In i seen) ->
  exists out, (push_messages debug ev e).1 = Ok out
    /\ frames_run (phase_of e) out (phase_of (push_messages debug ev e).2)
    /\ blocks_ok fin (seen_after ev seen) (n + 1) (push_messages debug ev e).2.
Proof.
  intros OK N W F. unfold push_messages. destruct (as_function_kept ev) as (W' & Cu & St & Fe).
  set (ev' := custom_tool_as_function ev) in *. set (e1 := messages_note ev' e).
  assert (core e1 = core e) as C by apply messages_note_core.
  pose proof (blocks_ok_core _ _ _ _ _ C OK) as OK1. rewrite <- (phase_core _ _ C).
  rewrite <- W' in W. assert (seen_after ev seen = seen_after ev' seen) as -> by (unfold seen_after; by rewrite St).
  rewrite <- Fe in F. clearbody e1 ev'. clear C OK.
  destruct (enc_started e1) eqn:S; cbn [negb].
  { destruct (messages_event_ok seen n (is_custom_tool ev) ev' e1) as (out & -> & R & OK2 & _); try done.
    by exists out. }
  destruct (waits_for_start ev') eqn:Wt.
  { exists []. split; [done|]. cbn [quietly snd]. split; [constructor|].
    replace (seen_after ev' seen) with seen by (by destruct ev'). by apply (blocks_ok_weaken _ _ n); [lia|]. }
  destruct (messages_begin_ok seen n e1 OK1 S) as (R0 & OK2 & S2).
  destruct (messages_begin e1) as [start e2]. cbn [fst snd] in *.
  destruct (messages_event_ok seen n (is_custom_tool ev) ev' e2) as (out & E & R & OK3 & _); try done.
  destruct (messages_event _ _ _ e2) as [r e3]. cbn [fst snd] in *. subst r. exists (start ++ out).
  split; [done|]. split; [|done]. assert (phase_of e1 = Before) as -> by (unfold phase_of; by rewrite S).
  by eapply frames_run_app.
Qed.
End Steps.

(** ** Whole streams *)

(** Vendor frames and citations passed through verbatim are not numbered by
    the encoder; every other event is. *)
Definition framed (ev : IrStreamEvent) : bool :=
  match ev with
  | UnknownEvent _ _ => false
  | Protocol item_type payload => is_some (kept_protocol item_type payload (new Messages))
  | _ => true
  end.

Section Whole.
Context {SJ : SerdeJson} (debug : IrStreamEvent -> string).

Lemma keep_core {T} w (field : StreamEncoder -> option T) {F : Field field} o e :
  core (e <| field := o |>) = core e -> core (keep w field o e) = core e.
Proof. intros C. unfold keep. destruct (wire_eqb _ w); [|done]. by destruct o. Qed.

Lemma kept_protocol_core item_type payload e e' :
  kept_protocol item_type payload e = Some e' -> core e' = core e.
Proof.
  unfold kept_protocol. intros H. repeat case_hyp H; [..|done]; injection H as <-; by apply keep_core.
Qed.

Lemma kept_protocol_wire item_type payload e e' :
  enc_wire e = enc_wire e' ->
  is_some (kept_protocol item_type payload e) = is_some (kept_protocol item_type payload e').
Proof. intros W. unfold kept_protocol. rewrite W. repeat (case_match; [done|]). done. Qed.

(** *** The end *)
Lemma push_deferred_ok seen evs n e :
  blocks_ok true seen n e -> enc_started e = true -> no_tool e -> enc_deferred e = [] ->
  Forall (fun ev => deferrable ev = true) evs -> n + vlen evs <= u32_max ->
  frames_run (phase_of e) (push_deferred debug evs e).1 (phase_of (push_deferred debug evs e).2)
  /\ blocks_ok true seen (n + vlen evs) (push_deferred debug evs e).2
  /\ enc_started (push_deferred debug evs e).2 = true.
Proof.
  revert n e. induction evs as [|ev evs IH]; intros n e OK S T D De N; cbn [push_deferred].
  { rewrite vlen_nil, Z.add_0_r. split; [constructor|by split]. }
  inversion De as [|? ? Dv De']; subst. rewrite vlen_cons in *. pose proof (vlen_nonneg evs).
  assert (exists kind delta, kind <> Tool /\ push_messages debug ev e = sends (block_delta_in kind delta e))
    as (kind & delta & K & ->).
  { unfold push_messages. destruct ev; try discriminate; cbn [is_custom_tool custom_tool_as_function messages_note];
      rewrite S; cbn [negb messages_event]; unfold unless_tool_open; rewrite (proj2 (tool_block_open_false e) T);
      (eexists _, _; split; [|reflexivity]; discriminate). }
  destruct (block_delta_ok true seen n kind delta e OK S ltac:(lia) K) as ((R & OK1 & S1) & T1 & D1).
  destruct (block_delta_in kind delta e) as [out e1]. unfold sends. cbn [fst snd rok unwrap_or] in *.
  rewrite D in D1. specialize (IH (n + 1) e1 OK1 S1 T1 D1 De' ltac:(lia)).
  destruct (push_deferred debug evs e1) as [rest e2]. cbn [fst snd] in *. destruct IH as (R2 & OK2 & S2).
  split; [by eapply frames_run_app|]. split; [|done]. by replace (n + (1 + vlen evs)) with (n + 1 + vlen evs) by lia.
Qed.

Lemma finish_messages_ok seen n e :
  blocks_ok true seen n e -> n <= u32_max ->
  frames_run (phase_of e) (finish_messages debug e).1 After
  /\ enc_finished (finish_messages debug e).2 = true.
Proof.
  intros OK N. unfold finish_messages.
  assert (exists start e1, (if enc_started e then ([], e) else messages_begin e) = (start, e1)
    /\ frames_run (phase_of e) start (phase_of e1) /\ blocks_ok true seen n e1 /\ enc_started e1 = true)
    as (start & e1 & -> & R1 & OK1 & S1).
  { destruct (enc_started e) eqn:S; [exists [], e; split_and!; try done; constructor|].
    destruct (messages_begin_ok true seen n e OK S) as (R & OK1 & S1).
    destruct (messages_begin e) as [start e1]. exists start, e1. split_and!; try done.
    assert (phase_of e = Before) as -> by (unfold phase_of; by rewrite S). done. }
  destruct (close_open_ok true seen n e1 OK1 S1) as (R2 & OK2 & B2).
  pose proof (cl_next _ _ _ (close_open_from e1)) as N2.
  destruct (close_open e1) as [closed e2]. cbn [fst snd] in *.
  set (e3 := e2 <| enc_deferred := [] |>).
  assert (blocks_ok true seen (enc_next_block e2) e3) as OK3.
  { destruct OK2. subst e3. constructor; simpl_fields; try done. rewrite vlen_nil. lia. }
  assert (between e3) as B3 by (subst e3; unfold between in *; by simpl_fields).
  destruct (push_deferred_ok seen (enc_deferred e2) (enc_next_block e2) e3) as (R4 & OK4 & S4).
  { done. } { apply B3. } { unfold no_tool, open_tool. destruct B3 as (_ & -> & ->). done. }
  { subst e3. by simpl_fields. } { apply OK2. } { destruct OK2. lia. }
  destruct (push_deferred debug (enc_deferred e2) e3) as [late e4]. cbn [fst snd] in *.
  destruct (close_open_ok true seen _ e4 OK4 S4) as (R5 & OK5 & _).
  destruct (close_open e4) as [closed_late e5]. cbn [fst snd] in *. split.
  2: { unfold messages_taken. destruct (is_some _); simpl_fields; apply OK5. }
  eapply frames_run_app; [exact R1|]. eapply frames_run_app; [exact R2|].
  assert (Body None (enc_next_block e1) = phase_of e3) as ->.
  { rewrite (between_phase e3 B3). subst e3. simpl_fields. by rewrite N2. }
  eapply frames_run_app; [exact R4|]. eapply frames_run_app; [exact R5|].
  eapply run_cons; [apply step_delta|]. apply frames_run_one, step_stop.
Qed.
Lemma finish_ok seen n e :
  blocks_ok false seen n e -> n <= u32_max ->
  exists out, (finish debug e).1 = Ok out /\ frames_run (phase_of e) out After
    /\ enc_finished (finish debug e).2 = true.
Proof.
  intros OK N. unfold finish. rewrite (ok_live _ _ _ _ OK). simpl_fields. rewrite (ok_wire _ _ _ _ OK).
  set (e1 := e <| enc_finished := true |>).
  assert (blocks_ok true seen n e1) as OK1 by (destruct OK; subst e1; by constructor; simpl_fields).
  assert (phase_of e = phase_of e1) as -> by (subst e1; unfold phase_of; by simpl_fields).
  pose proof (finish_messages_ok seen n e1 OK1 N) as [R F]. destruct (finish_messages debug e1) as [out e2].
  by exists out.
Qed.

(** One event of a live stream: it goes on, or [Done] ends it. *)
Lemma messages_push_ok seen n ev e :
  blocks_ok false seen n e -> n < u32_max -> framed ev = true ->
  (forall i, feeds_call ev = Some i -> In i seen) ->
  exists out, (push debug ev e).1 = Ok out /\
    (frames_run (phase_of e) out (phase_of (push debug ev e).2)
       /\ blocks_ok false (seen_after ev seen) (n + 1) (push debug ev e).2
     \/ enc_finished (push debug ev e).2 = true /\ frames_run (phase_of e) out After).
Proof.
  intros OK N Fr F. pose proof (ok_wire _ _ _ _ OK) as W. unfold push. rewrite (ok_live _ _ _ _ OK).
  assert (wire_event ev = true -> (forall ty p, ev <> Protocol ty p) ->
    exists out, (push_wire debug ev e).1 = Ok out /\
      (frames_run (phase_of e) out (phase_of (push_wire debug ev e).2)
       /\ blocks_ok false (seen_after ev seen) (n + 1) (push_wire debug ev e).2
     \/ enc_finished (push_wire debug ev e).2 = true /\ frames_run (phase_of e) out After)) as Wire.
  { intros We _. unfold push_wire. rewrite W.
    destruct (push_messages_ok false debug seen n ev e OK N We F) as (out & E & R & OK').
    exists out. split; [done|]. by left. }
  destruct ev; rewrite ?W; try (by apply Wire); try discriminate.
  - exists []. split; [done|]. left. split; [constructor|].
    by apply (blocks_ok_weaken _ _ n); [lia|].
  - cbn [framed] in Fr. unfold push_protocol.
    rewrite (kept_protocol_wire item_type payload (new Messages) e) in Fr by (by rewrite W).
    destruct (kept_protocol item_type payload e) as [e'|] eqn:K; [|done]. apply kept_protocol_core in K.
    exists []. split; [done|]. left. cbn [snd]. rewrite (phase_core _ _ K). split; [constructor|].
    apply (blocks_ok_core _ _ _ _ _ K). by apply (blocks_ok_weaken _ _ n); [lia|].
  - destruct (finish_ok seen n e OK ltac:(lia)) as (out & E & R & F'). exists out. split; [done|]. by right.
Qed.

Lemma encode_all_ok evs seen n e :
  blocks_ok false seen n e -> Forall (fun ev => framed ev = true) evs -> starts_lead seen evs = true ->
  n + vlen evs <= u32_max ->
  exists out e', encode_all debug evs e = (Ok out, e') /\ frames_run (phase_of e) out After.
Proof.
  revert seen n e. induction evs as [|ev evs IH]; intros seen n e OK Fr St N.
  { rewrite vlen_nil in N. destruct (finish_ok seen n e OK ltac:(lia)) as (out & E & R & _).
    unfold encode_all. cbn [push_all]. destruct (finish debug e) as [r e']. cbn [fst] in E. subst r. by exists out, e'. }
  inversion Fr; subst. rewrite vlen_cons in N. pose proof (vlen_nonneg evs).
  cbn [starts_lead] in St. apply andb_true_iff in St as [Fe St].
  destruct (messages_push_ok seen n ev e OK ltac:(lia)) as (out & E & K); [done| |].
  { intros i Hi. rewrite Hi in Fe. apply existsb_exists in Fe as (j & Hj & ->%Z.eqb_eq). done. }
  rewrite encode_all_cons. destruct (push debug ev e) as [r e1]. cbn [fst snd] in *. subst r.
  destruct K as [[R OK1]|[F R]].
  - destruct (IH _ (n + 1) e1 OK1) as (rest & e2 & -> & R2); [done|done|lia|].
    exists (out ++ rest), e2. split; [done|]. by eapply frames_run_app.
  - rewrite (encode_all_finished debug evs e1 F). exists (out ++ []), e1. split; [done|]. by rewrite app_nil_r.
Qed.

Lemma messages_start_ok model : blocks_ok false [] 0 (with_model model (new Messages)).
Proof.
  unfold with_model. constructor; simpl_fields; try done.
  - apply bt_sorted_nil.
  - intros j x [H|H]; simpl_fields_in H; by cbn in H; rewrite ?lookup_empty in H.
Qed.

(** C21. The Messages stream of an event list is well formed when every call
    starts before its fragments, the list has at most 2^32 - 1 events, and it
    holds no unknown frame and no item of a vendor but those the encoder keeps
    for a field of the message ([framed]; the others, citations among them, are
    copied and not numbered): it never fails, begins with [message_start],
    numbers its content blocks 0, 1, 2, ..., opens a block only when the last
    one is closed, writes a delta only inside its own open block - however
    parallel calls, text and images interleave - and ends with [message_delta]
    and [message_stop] after every block is closed. *)
Theorem messages_stream_well_formed model evs :
  Forall (fun ev => framed ev = true) evs -> starts_lead [] evs = true -> vlen evs <= u32_max ->
  exists frames e, encode_all debug evs (with_model model (new Messages)) = (Ok frames, e)
    /\ frames_run Before frames After.
Proof.
  intros Fr St N. apply (encode_all_ok evs [] 0); [apply messages_start_ok|done|done|lia].
Qed.
End Whole.

(** ** Witnesses *)
Section Witnesses.
#[local] Existing Instance bits_codec.

(** Two parallel calls with text between them. *)
Definition sample_events : list IrStreamEvent :=
  [ServiceTier "priority"; TextDelta "a"; ToolCallStart "c1" "f" None 4; ToolCallStart "c2" "g" None 7;
   ToolCallArgDelta "{}" 7; TextDelta "b"; ToolCallArgDelta "[" 4; ToolCallArgDelta "]" 4; RefusalDelta "no";
   ImageDelta "image/png" "AA=="; FinishReason "tool_calls" None; Done; TextDelta "late"].

Definition sample_frames : list RawSse :=
  unwrap_or (rok (encode_all (fun _ => "") sample_events (with_model "m" (new Messages))).1) [].

(** The blocks: text 0, call 1, the held call 2, the image 3, the deferred text 4. *)
Example sample_frames_blocks :
  map (fun f => (raw_event f, from_str (raw_data f) ≫= fun v => get_u64 v "index")) sample_frames =
  [(Some "message_start", None);
   (Some "content_block_start", Some 0); (Some "content_block_delta", Some 0); (Some "content_block_stop", Some 0);
   (Some "content_block_start", Some 1); (Some "content_block_delta", Some 1); (Some "content_block_delta", Some 1);
   (Some "content_block_stop", Some 1);
   (Some "content_block_start", Some 2); (Some "content_block_delta", Some 2); (Some "content_block_stop", Some 2);
   (Some "content_block_start", Some 3); (Some "content_block_stop", Some 3);
   (Some "content_block_start", Some 4); (Some "content_block_delta", Some 4); (Some "content_block_stop", Some 4);
   (Some "message_delta", None); (Some "message_stop", None)].
Proof. vm_compute. reflexivity. Qed.

Lemma messages_stream_well_formed_witness :
  exists frames e, encode_all (fun _ => "") sample_events (with_model "m" (new Messages)) = (Ok frames, e)
    /\ frames_run Before frames After.
Proof.
  apply messages_stream_well_formed; [repeat constructor|reflexivity|]. by vm_compute.
Defined.
End Witnesses.
