(* ===== verification/ChatCalls.v ===== *)
(** * ChatCalls: tool calls on the Chat Completions wire

    The slot tables of the encoder ([tool_slots], [last_tool], [used_tool],
    [next_tool]) against a reference that keeps only the list of started IR
    indexes: a call's number on the wire is its place in that list. *)

From stdpp Require Import gmap.
From S2P Require Import Prelude Fields Text Json JsonCodec Sse Ir ProfileTypes BTree StreamCore Shapes Usage.
From S2P Require Import Chat EncoderCore StreamDecode EncoderResponses EncoderWires Encoder.

(** ** The reference *)

(** Events without side effects on later frames, and without a call index of
    their own. *)
Definition chat_plain (ev : IrStreamEvent) : bool :=
  match ev with
  | Protocol _ _ | UnknownEvent _ _ | Done | Created _ | CustomToolCallStart _ _ _
  | CustomToolCallInputDelta _ _ => false
  | _ => true
  end.

(** Events of other wires, which do not even start the stream. *)
Definition chat_dropped (ev : IrStreamEvent) : bool :=
  match ev with
  | Diagnostics _ | Container _ | ContextManagement _ | StopSequence _ | SearchEntryPoint _ => true
  | _ => false
  end.

(** The place of an index among the started ones. *)
Definition place (i : Z) (started : list Z) : Z :=
  match position (Z.eqb i) started with Some p => Z.of_nat p | None => vlen started end.

Section Reference.
Context {SJ : SerdeJson}.

Definition chat_frames (started : list Z) (ev : IrStreamEvent) : list RawSse :=
  match ev with
  | ToolCallStart id name _ _ => [chat_start_frame (vlen started) id name]
  | ToolCallArgDelta delta i => [chat_arg_frame (place i started) delta]
  | FinishReason _ _ | Usage _ _ _ _ _ _ _ _ | ToolCallEnd => []
  | other => push_opt (fun f => f) (rok (Chat.encode other))
  end.

Definition started_after (ev : IrStreamEvent) (started : list Z) : list Z :=
  match starts_call ev with Some i => started ++ [i] | None => started end.

Fixpoint chat_calls (started : list Z) (evs : list IrStreamEvent) : list RawSse :=
  match evs with
  | [] => []
  | ev :: evs => chat_frames started ev ++ chat_calls (started_after ev started) evs
  end.

(** The role comes first, if anything comes. *)
Definition chat_reference (evs : list IrStreamEvent) : list RawSse :=
  match List.filter (fun ev => negb (chat_dropped ev)) evs with
  | [] => []
  | evs => chat_delta_frame (jobj [("role", JStr "assistant")]) :: chat_calls [] evs
  end.
End Reference.

(** ** The slot tables *)
Record slots_are (started : list Z) (e : StreamEncoder) : Prop := {
  sl_wire : enc_wire e = ChatCompletions;
  sl_live : enc_finished e = false;
  sl_next : enc_next_tool e = vlen started;
  sl_used : forall x, x ∈ enc_used_tool e -> x < vlen started;
  sl_slots : forall i, enc_tool_slots e !! i =
    (fun p => [Z.of_nat p]) <$> position (Z.eqb i) started;
  sl_last : forall i, enc_last_tool e !! i = Z.of_nat <$> position (Z.eqb i) started
}.

Lemma position_app i l k :
  position (Z.eqb i) (l ++ k) =
  match position (Z.eqb i) l with Some p => Some p | None => Nat.add (length l) <$> position (Z.eqb i) k end.
Proof.
  induction l as [|x l IH]; cbn [app position length]; [by destruct (position _ k)|].
  destruct (i =? x); [done|]. rewrite IH. destruct (position _ l); [done|]. by destruct (position _ k).
Qed.

Lemma position_None i l : position (Z.eqb i) l = None <-> ~ In i l.
Proof.
  induction l as [|x l IH]; cbn; [naive_solver|]. destruct (Z.eqb_spec i x) as [->|N]; [naive_solver|].
  destruct (position _ l); cbn; naive_solver.
Qed.

(** A new index gets the next number at once. *)
Lemma chat_alloc started i e :
  slots_are started e -> ~ In i started -> vlen started < u32_max ->
  (alloc_tool i e).1 = vlen started /\ slots_are (started ++ [i]) (alloc_tool i e).2.
Proof.
  intros [] New N. unfold alloc_tool, next_slot. rewrite sl_wire0.
  assert (first_unused (S (size (enc_used_tool e))) (enc_used_tool e) (enc_next_tool e) = vlen started) as ->.
  { cbn [first_unused]. rewrite bool_decide_false, sl_next0; [done|]. rewrite sl_next0.
    intros H. apply sl_used0 in H. lia. }
  simpl_fields. apply position_None in New. rewrite sl_slots0, New. cbn [fmap option_fmap option_map default].
  cbn [slots_served last]. unfold id. cbn [fst snd app]. pose proof (vlen_nonneg started).
  split; [done|]. constructor; simpl_fields; try done.
  - rewrite sl_next0, vlen_app, vlen_cons, vlen_nil. int_lia.
  - intros x. rewrite vlen_app, vlen_cons, vlen_nil. intros [->%elem_of_singleton|Hx]%elem_of_union; [lia|].
    apply sl_used0 in Hx. lia.
  - intros j. rewrite position_app. cbn [position].
    destruct (decide (j = i)) as [->|J].
    + rewrite lookup_insert_eq, New, Z.eqb_refl. cbn. by rewrite Nat.add_0_r.
    + rewrite lookup_insert_ne, sl_slots0 by done. rewrite (proj2 (Z.eqb_neq j i)) by done. cbn.
      by destruct (position (Z.eqb j) started).
  - intros j. rewrite position_app. cbn [position].
    destruct (decide (j = i)) as [->|J].
    + rewrite lookup_insert_eq, New, Z.eqb_refl. cbn. by rewrite Nat.add_0_r.
    + rewrite lookup_insert_ne, sl_last0 by done. rewrite (proj2 (Z.eqb_neq j i)) by done. cbn.
      by destruct (position (Z.eqb j) started).
Qed.

Lemma chat_tool_enc started i e :
  slots_are started e -> In i started ->
  (tool_enc i e).1 = place i started /\ slots_are started (tool_enc i e).2.
Proof.
  intros [] I. unfold tool_enc, place. simpl_fields. rewrite sl_slots0.
  destruct (position (Z.eqb i) started) as [p|] eqn:P; [|by apply position_None in P].
  cbn [fmap option_fmap option_map default from_option id head opt_or].
  change (1 <? vlen [Z.of_nat p]) with false. cbn [fst snd]. split; [done|].
  constructor; simpl_fields; try done. intros j. destruct (decide (j = i)) as [->|J].
  - by rewrite lookup_insert_eq, P.
  - by rewrite lookup_insert_ne, sl_slots0.
Qed.

(** ** The stream *)
Section Stream.
Context {SJ : SerdeJson} (debug : IrStreamEvent -> string).

(** What a frame of the wire is completed with. *)
Definition same_head (e e' : StreamEncoder) : Prop :=
  enc_model e' = enc_model e /\ enc_created_at e' = enc_created_at e
  /\ enc_chat_completion_id e' = enc_chat_completion_id e.

Lemma attach_same_head e e' frame :
  same_head e e' -> attach_chat_dest_model e' frame = attach_chat_dest_model e frame.
Proof. unfold attach_chat_dest_model. by intros (-> & -> & ->). Qed.

Lemma alloc_tool_head i e : same_head e (alloc_tool i e).2 /\ enc_started (alloc_tool i e).2 = enc_started e.
Proof.
  unfold alloc_tool, next_slot, same_head. destruct (enc_wire e); cbn [take_block fst snd]; by simpl_fields.
Qed.

Lemma tool_enc_head i e : same_head e (tool_enc i e).2 /\ enc_started (tool_enc i e).2 = enc_started e.
Proof.
  unfold tool_enc. simpl_fields. destruct (opt_or _ _).
  - unfold same_head. cbn [snd]. destruct (_ <? _); by simpl_fields.
  - match goal with |- context [alloc_tool i ?x] => destruct (alloc_tool_head i x) as [(M & C & I) St] end.
    unfold same_head. rewrite M, C, I, St. by simpl_fields.
Qed.
(** The part of the state the reference keeps. *)
Definition chat_ok (base : StreamEncoder) (started : list Z) (e : StreamEncoder) : Prop :=
  slots_are started e /\ same_head base e.

Lemma chat_ok_same base started e e' :
  chat_ok base started e -> same_head e e' -> enc_wire e' = enc_wire e -> enc_finished e' = enc_finished e ->
  enc_next_tool e' = enc_next_tool e -> enc_used_tool e' = enc_used_tool e ->
  enc_tool_slots e' = enc_tool_slots e -> enc_last_tool e' = enc_last_tool e -> chat_ok base started e'.
Proof.
  intros [[] (M & C & I)] (M' & C' & I') W F N U S L. split; [constructor|unfold same_head; split_and!]; try congruence.
  intros x. rewrite U. apply sl_used0.
Qed.

Lemma encode_chat_plain ev :
  chat_plain ev = true -> exists frame, encode_stream_event debug ChatCompletions ev = Ok frame
    /\ rok (Chat.encode ev) = Some frame.
Proof. destruct ev; try discriminate; intros _; by eexists. Qed.

Lemma chat_event_ok base started ev e :
  chat_ok base started e -> chat_plain ev = true -> vlen started < u32_max ->
  (forall i, starts_call ev = Some i -> ~ In i started) -> (forall i, feeds_call ev = Some i -> In i started) ->
  exists e', chat_event debug ev e = (Ok (chat_frames started ev), e')
    /\ chat_ok base (started_after ev started) e' /\ enc_started e' = enc_started e.
Proof.
  intros OK P N New Old. unfold started_after. pose proof OK as [Sl (M & C & I)].
  assert (forall ev', chat_plain ev' = true -> chat_frames started ev' = push_opt (fun f => f) (rok (Chat.encode ev')) ->
    exists e', (((let* frame := encode_stream_event debug ChatCompletions ev' in Ok [frame]), e) : Sent)
               = (Ok (chat_frames started ev'), e')
      /\ chat_ok base started e' /\ enc_started e' = enc_started e) as Other.
  { intros ev' P' ->. destruct (encode_chat_plain ev' P') as (frame & -> & ->). by exists e. }
  destruct ev; try discriminate; cbn [chat_event starts_call is_custom_tool]; try (by apply Other);
    try (eexists; split; [reflexivity|]; split; [|by simpl_fields];
         by (eapply chat_ok_same; [exact OK|..]; unfold same_head; simpl_fields)).
  - destruct (chat_alloc started index e Sl) as [E S']; [by apply New|done|].
    destruct (alloc_tool_head index e) as [(M' & C' & I') St].
    destruct (alloc_tool index e) as [enc e1]. cbn [fst snd] in *. subst enc. exists e1. split; [done|].
    split; [|done]. split; [done|]. unfold same_head. split_and!; congruence.
  - destruct (chat_tool_enc started index e Sl) as [E S']; [by apply Old|].
    destruct (tool_enc_head index e) as [(M' & C' & I') St].
    destruct (tool_enc index e) as [enc e1]. cbn [fst snd] in *. subst enc. exists e1. split; [done|].
    split; [|done]. split; [done|]. unfold same_head. split_and!; congruence.
Qed.
Definition role_frame : RawSse := chat_delta_frame (jobj [("role", JStr "assistant")]).

Lemma chat_push_ok base started ev e :
  chat_ok base started e -> chat_plain ev = true -> chat_dropped ev = false -> vlen started < u32_max ->
  (forall i, starts_call ev = Some i -> ~ In i started) -> (forall i, feeds_call ev = Some i -> In i started) ->
  exists e', push debug ev e
             = (Ok (map (attach_chat_dest_model base)
                     ((if enc_started e then [] else [role_frame]) ++ chat_frames started ev)), e')
    /\ chat_ok base (started_after ev started) e' /\ enc_started e' = true.
Proof.
  intros OK P D N New Old. pose proof OK as [[] _].
  assert (push debug ev e = push_chat debug ev e) as ->.
  { unfold push, push_wire. rewrite sl_live0, sl_wire0. by destruct ev. }
  unfold push_chat.
  assert ((match ev with Created unix => e <| enc_created_at := Some unix |> | _ => e end) = e) as ->
    by (by destruct ev).
  set (e1 := if enc_started e then e else e <| enc_started := true |>).
  assert (chat_ok base started e1) as OK1.
  { subst e1. destruct (enc_started e); [done|]. eapply chat_ok_same; [exact OK|..]; unfold same_head; by simpl_fields. }
  assert (enc_started e1 = true) as S1 by (subst e1; destruct (enc_started e) eqn:S; by simpl_fields).
  destruct (chat_event_ok base started ev e1 OK1 P N New Old) as (e2 & -> & OK2 & S2).
  exists e2. cbn [rmap]. split; [|split; [done|congruence]]. do 2 f_equal. apply map_ext. intros f.
  apply attach_same_head, OK2.
Qed.

(** A dropped event changes nothing. *)
Lemma chat_push_dropped base started ev e :
  chat_ok base started e -> chat_dropped ev = true -> push debug ev e = (Ok [], e).
Proof. intros [[] _] D. unfold push. rewrite sl_live0, sl_wire0. by destruct ev. Qed.

Lemma chat_push_all_ok base evs seen started e :
  chat_ok base started e -> Forall (fun ev => chat_plain ev = true) evs ->
  (forall i, In i seen <-> In i started) -> starts_lead seen evs = true ->
  NoDup (started ++ omap starts_call evs) -> vlen started + vlen evs <= u32_max ->
  exists e', push_all debug evs e
    = (Ok (map (attach_chat_dest_model base)
        (match List.filter (fun ev => negb (chat_dropped ev)) evs with
         | [] => []
         | l => (if enc_started e then [] else [role_frame]) ++ chat_calls started l
         end)), e').
Proof.
  revert seen started e. induction evs as [|ev evs IH]; intros seen started e OK P Se Le Nd N; [by exists e|].
  inversion P as [|? ? Pe Ps]; subst. rewrite vlen_cons in N. pose proof (vlen_nonneg evs). pose proof (vlen_nonneg started).
  cbn [starts_lead] in Le. apply andb_true_iff in Le as [Fe Le]. cbn [push_all List.filter].
  destruct (chat_dropped ev) eqn:D; cbn [negb].
  { rewrite (chat_push_dropped base started ev e OK D).
    assert (starts_call ev = None) as S by (by destruct ev).
    unfold seen_after in Le. cbn [omap list_omap] in Nd. rewrite S in Le, Nd.
    destruct (IH seen started e OK Ps Se Le Nd ltac:(lia)) as (e' & ->). by exists e'. }
  destruct (chat_push_ok base started ev e OK Pe D ltac:(lia)) as (e1 & -> & OK1 & S1).
  { intros i S. cbn [omap list_omap] in Nd. rewrite S in Nd. apply NoDup_app in Nd as (_ & Nd & _).
    intros I. apply (Nd i); [by apply list_elem_of_In|]. by left. }
  { intros i F. rewrite F in Fe. apply existsb_exists in Fe as (j & Hj & ->%Z.eqb_eq). by apply Se. }
  assert (exists e', push_all debug evs e1 = (Ok (map (attach_chat_dest_model base)
    (chat_calls (started_after ev started) (List.filter (fun ev => negb (chat_dropped ev)) evs))), e')) as (e' & ->).
  { destruct (IH (seen_after ev seen) (started_after ev started) e1 OK1 Ps) as (e' & ->).
    - unfold seen_after, started_after. destruct (starts_call ev) as [i|]; [|done].
      intros j. rewrite in_app_iff. cbn. rewrite Se. tauto.
    - done.
    - unfold started_after. cbn [omap list_omap] in Nd. destruct (starts_call ev); [|done].
      by rewrite <- app_assoc.
    - unfold started_after. destruct (starts_call ev); [rewrite vlen_app, vlen_cons, vlen_nil|]; lia.
    - exists e'. rewrite S1. by destruct (List.filter _ evs). }
  exists e'. cbn [rmap chat_calls]. by rewrite <- map_app, <- app_assoc.
Qed.

(** C23. On the Chat wire the slot tables compute the reference, for a stream of
    at most 2^32 - 1 events in which every call has its own IR index and starts
    before its fragments, and which has no custom-tool call, no item of a
    vendor, no unknown frame, and no [Created] or [Done] event ([chat_plain];
    [chat_custom_call_collides] shows what a custom-tool call does): however the
    calls interleave, they are numbered 0, 1, 2, ... by their start, every
    argument fragment carries the number of its own call, and every other event that
    Chat writes keeps its place. *)
Theorem chat_stream_renumbers model evs :
  Forall (fun ev => chat_plain ev = true) evs -> NoDup (omap starts_call evs) -> starts_lead [] evs = true ->
  vlen evs <= u32_max ->
  let base := with_model model (new ChatCompletions) in
  exists e, push_all debug evs base = (Ok (map (attach_chat_dest_model base) (chat_reference evs)), e).
Proof.
  intros P Nd Le N base. destruct (chat_push_all_ok base evs [] [] base) as (e & ->); [|done|done|done|done|done|].
  - split; [|by unfold same_head]. subst base. unfold with_model. constructor; simpl_fields; done.
  - exists e. unfold chat_reference. by destruct (List.filter _ evs).
Qed.

(** A custom-tool call keeps the index of the source stream while function
    calls are renumbered, so two calls of one stream can get the same
    number: a client merges them. *)
Theorem chat_custom_call_collides id name id' name' i :
  exists e frames,
    push_all debug [CustomToolCallStart id name 0; ToolCallStart id' name' None i] (new ChatCompletions)
    = (Ok (map (attach_chat_dest_model (new ChatCompletions)) frames), e)
    /\ frames = [role_frame;
         chat_tool_frame (jobj [("index", jint 0); ("id", JStr id); ("type", JStr "custom");
                                ("custom", jobj [("name", JStr name); ("input", JStr "")])]);
         chat_start_frame 0 id' name'].
Proof.
  set (e0 := new ChatCompletions).
  set (e1 := e0 <| enc_started := true |> <| enc_saw_custom_tool := true |>).
  assert (chat_ok e0 [] e0) as OK0 by (split; [by constructor|done]).
  assert (chat_ok e0 [] e1) as OK1.
  { eapply chat_ok_same; [exact OK0|..]; subst e1; unfold same_head; by simpl_fields. }
  destruct (chat_push_ok e0 [] (ToolCallStart id' name' None i) e1 OK1) as (e2 & E2 & _);
    [done|done|done|by intros ? _ []|done|].
  eexists e2, _. split; [|reflexivity]. cbn [push_all].
  change (push debug (CustomToolCallStart id name 0) e0)
    with ((Ok (map (attach_chat_dest_model e1) [role_frame;
            chat_tool_frame (jobj [("index", jint 0); ("id", JStr id); ("type", JStr "custom");
                                   ("custom", jobj [("name", JStr name); ("input", JStr "")])])]), e1) : Sent).
  cbv iota beta. rewrite E2. cbn [rmap]. assert (enc_started e1 = true) as -> by (subst e1; by simpl_fields).
  reflexivity.
Qed.
End Stream.

(** ** Witnesses *)
Section Witnesses.
#[local] Existing Instance bits_codec.

Definition sample_calls : list IrStreamEvent :=
  [Diagnostics JNull; ToolCallStart "a" "f" None 7; TextDelta "hi"; ToolCallStart "b" "g" None 2;
   ToolCallArgDelta "{" 7; ToolCallArgDelta "[]" 2; ToolCallArgDelta "}" 7; FinishReason "stop" None].

Definition call_indexes (frames : list RawSse) : list (option Z) :=
  map (fun f => v ← from_str (raw_data f);
         pointer v [Key "choices"; Idx 0; Key "delta"; Key "tool_calls"; Idx 0; Key "index"] ≫= as_u64) frames.

Lemma chat_stream_renumbers_witness :
  call_indexes (unwrap_or (rok (push_all (fun _ => "") sample_calls (new ChatCompletions)).1) [])
  = [None; Some 0; None; Some 1; Some 0; Some 1; Some 0].
Proof.
  destruct (chat_stream_renumbers (fun _ => "") "" sample_calls) as (e & E);
    [by repeat constructor|by repeat constructor; set_solver|reflexivity|by vm_compute|].
  change (with_model "" (new ChatCompletions)) with (new ChatCompletions) in E. rewrite E.
  vm_compute. reflexivity.
Defined.

(** The second call gets the number of the first. *)
Example custom_and_function_calls_collide :
  call_indexes (unwrap_or (rok (push_all (fun _ => "")
     [CustomToolCallStart "a" "f" 0; ToolCallStart "b" "g" None 1] (new ChatCompletions)).1) [])
  = [None; Some 0; Some 0].
Proof. vm_compute. reflexivity. Qed.
End Witnesses.
