(* ===== verification/GeminiCalls.v ===== *)
(** * GeminiCalls: function calls on the Gemini wire

    Gemini writes a call as one frame, so [push_gemini] holds each call open by
    IR index until it is replaced or the calls are flushed.  Each index is
    compared with a machine that knows only its own call; the other frames are
    those of the events that have one. *)

From stdpp Require Import gmap sorting.
From S2P Require Import Prelude Fields Text Json JsonCodec Sse Ir ProfileTypes BTree StreamCore Shapes Usage.
From S2P Require Import EncoderCore StreamDecode EncoderResponses EncoderWires Encoder.

(** ** One index *)
Definition call_start (id name : string) (signature : option string) (custom : bool) (s : option GeminiHeldCall) :
  list GeminiHeldCall * option GeminiHeldCall :=
  match s with
  | Some prev =>
      if is_empty (gh_id prev) && is_empty (gh_name prev)
      then ([], Some (mkGeminiHeld id name (gh_args prev) (opt_or signature (gh_thought_signature prev))
                        (gh_custom prev || custom)))
      else ([prev], Some (mkGeminiHeld id name "" signature custom))
  | None => ([], Some (mkGeminiHeld id name "" signature custom))
  end.

Definition call_delta (delta : string) (custom : bool) (s : option GeminiHeldCall) : GeminiHeldCall :=
  match s with
  | Some c => mkGeminiHeld (gh_id c) (gh_name c) (gh_args c +:+ delta) (gh_thought_signature c) (gh_custom c || custom)
  | None => mkGeminiHeld "" "" delta None custom
  end.

(** The calls index [i] sends on an event, and its open call. *)
Definition call_step (i : Z) (ev : IrStreamEvent) (s : option GeminiHeldCall) :
  list GeminiHeldCall * option GeminiHeldCall :=
  match ev with
  | ToolCallStart id name signature j => if i =? j then call_start id name signature false s else ([], s)
  | CustomToolCallStart id name j => if i =? j then call_start id name None true s else ([], s)
  | ToolCallArgDelta delta j => ([], if i =? j then Some (call_delta delta false s) else s)
  | CustomToolCallInputDelta delta j => ([], if i =? j then Some (call_delta delta true s) else s)
  | ToolCallEnd | FinishReason _ _ | Done => (push_opt (fun c => c) s, None)
  | _ => ([], s)
  end.

(** The calls of index [i] in a stream; [Done] or the end sends the last. *)
Fixpoint calls_at (i : Z) (evs : list IrStreamEvent) (s : option GeminiHeldCall) : list GeminiHeldCall :=
  match evs with
  | [] | Done :: _ => push_opt (fun c => c) s
  | ev :: evs => (call_step i ev s).1 ++ calls_at i evs (call_step i ev s).2
  end.

(** ** The frames that carry calls *)
Section Writes.
Context {SJ : SerdeJson}.

Context (debug : IrStreamEvent -> string).

(** The frame of a call: one part of one candidate, with the name, the arguments as
    JSON, and the id and the signature when there are any. *)
Record holds_call (c : GeminiHeldCall) (v part call : json) : Prop := {
  hc_part : pointer v [Key "candidates"; Idx 0; Key "content"; Key "parts"; Idx 0] = Some part;
  hc_call : get part "functionCall" = Some call;
  hc_name : get call "name" = Some (JStr (gh_name c));
  hc_id : get call "id" = if is_empty (gh_id c) then None else Some (JStr (gh_id c));
  hc_signature : get part "thoughtSignature" = JStr <$> nonempty (gh_thought_signature c);
  hc_none : gh_custom c = false -> gh_args c = "" \/ from_str (gh_args c) = None -> get call "args" = Some (JObj []);
  hc_args : forall a, gh_custom c = false -> gh_args c <> "" -> from_str (gh_args c) = Some a -> get call "args" = Some a;
  hc_custom : gh_custom c = true -> get call "args" = Some (response_custom_tool_input (gh_args c))
}.

Lemma call_frame_holds e c f :
  gemini_call_frame e c = Some f ->
  exists v part call, is_empty (gh_name c) = false /\ holds_call c v part call /\ f = attach_dest_model e (unnamed v).
Proof.
  unfold gemini_call_frame. destruct (is_empty (gh_name c)); [done|]. intros [= <-].
  assert (A : (gh_custom c = false -> gh_args c = "" \/ from_str (gh_args c) = None -> gemini_args (gh_args c) (gh_custom c) = JObj [])
    /\ (forall a, gh_custom c = false -> gh_args c <> "" -> from_str (gh_args c) = Some a -> gemini_args (gh_args c) (gh_custom c) = a)
    /\ (gh_custom c = true -> gemini_args (gh_args c) (gh_custom c) = response_custom_tool_input (gh_args c))).
  { unfold gemini_args. split_and!.
    - intros -> [->|P]; [done|]. rewrite P. by destruct (gh_args c).
    - intros a -> N P. rewrite P. by destruct (gh_args c).
    - by intros ->. }
  destruct A as (A1 & A2 & A3). revert A1 A2 A3. generalize (gemini_args (gh_args c) (gh_custom c)) as args. intros args A1 A2 A3.
  destruct (is_empty (gh_id c)) eqn:I, (nonempty (gh_thought_signature c)) eqn:S; (do 3 eexists; split; [done|split; [|reflexivity]]; constructor; [reflexivity|reflexivity|..]);
    rewrite ?I, ?S; try reflexivity; intros; (transitivity (Some args); [reflexivity|f_equal; eauto]).
Qed.

(** What an event writes by itself: the one frame a live Gemini encoder that holds
    nothing gives for it. *)
Definition alone (ev : IrStreamEvent) (f : RawSse) : Prop :=
  exists e, enc_wire e = Gemini /\ enc_finished e = false /\ enc_gemini_open_calls e = []
    /\ enc_gemini_deferred e = [] /\ (push debug ev e).1 = Ok [f].

(** A new encoder answers the event with a frame. *)
Definition speaks (ev : IrStreamEvent) : bool :=
  match (push debug ev (new Gemini)).1 with Ok (_ :: _) => true | _ => false end.

(** Items of the vendor are written at once, before what waits for the calls. *)
Definition vendor_item (ev : IrStreamEvent) : bool :=
  match ev with Protocol _ _ | UnknownEvent _ _ => true | _ => false end.

Fixpoint until_done (evs : list IrStreamEvent) : list IrStreamEvent :=
  match evs with [] | Done :: _ => [] | ev :: evs => ev :: until_done evs end.

(** The events that have a frame of their own. *)
Definition own_frames (vendor : bool) (evs : list IrStreamEvent) : list IrStreamEvent :=
  List.filter (fun ev => Bool.eqb (vendor_item ev) vendor && speaks ev) (until_done evs).

(** The frames are those of the calls [cs], of the events [evs] and of the vendor
    items [vs], each list in order, and nothing else; only a call without a name
    has no frame. *)
Inductive writes : list RawSse -> list (Z * GeminiHeldCall) -> list IrStreamEvent -> list IrStreamEvent -> Prop :=
| writes_nil : writes [] [] [] []
| writes_call e i c v part call fs cs evs vs :
    is_empty (gh_name c) = false -> holds_call c v part call -> writes fs cs evs vs ->
    writes (attach_dest_model e (unnamed v) :: fs) ((i, c) :: cs) evs vs
| writes_unnamed i c fs cs evs vs :
    is_empty (gh_name c) = true -> writes fs cs evs vs -> writes fs ((i, c) :: cs) evs vs
| writes_event ev f fs cs evs vs : alone ev f -> writes fs cs evs vs -> writes (f :: fs) cs (ev :: evs) vs
| writes_vendor ev f fs cs evs vs : alone ev f -> writes fs cs evs vs -> writes (f :: fs) cs evs (ev :: vs).

Lemma writes_app fs gs cs ds evs1 evs2 vs1 vs2 :
  writes fs cs evs1 vs1 -> writes gs ds evs2 vs2 -> writes (fs ++ gs) (cs ++ ds) (evs1 ++ evs2) (vs1 ++ vs2).
Proof.
  induction 1; cbn; intros; [done|econstructor; eauto|by apply writes_unnamed; auto|by apply writes_event; auto
    |by apply writes_vendor; auto].
Qed.

Lemma writes_events evs fs : Forall2 alone evs fs -> writes fs [] evs [].
Proof. induction 1; [constructor|by apply writes_event]. Qed.

Lemma writes_one e i c : writes (push_opt (fun f => f) (gemini_call_frame e c)) [(i, c)] [] [].
Proof.
  destruct (gemini_call_frame e c) as [f|] eqn:F; cbn.
  { apply call_frame_holds in F as (v & part & call & N & H & ->). by eapply writes_call; [| |constructor]. }
  apply writes_unnamed; [|constructor]. unfold gemini_call_frame in F. by destruct (is_empty (gh_name c)).
Qed.

Lemma writes_all e (calls : list (Z * GeminiHeldCall)) : writes (omap (gemini_call_frame e) (map snd calls)) calls [] [].
Proof.
  induction calls as [|[i c] calls IH]; [constructor|]. cbn [map snd omap list_omap].
  pose proof (writes_app _ _ _ _ _ _ _ _ (writes_one e i c) IH) as W. by destruct (gemini_call_frame e c).
Qed.
End Writes.

Lemma held_at_index i (m : list (Z * GeminiHeldCall)) :
  bt_sorted m -> at_index i m = push_opt (fun c => c) (bt_get i m).
Proof. apply at_index_sorted. Qed.

(** ** The encoder *)
Section Stream.
Context {SJ : SerdeJson} (debug : IrStreamEvent -> string).

#[local] Notation alone := (alone debug).
#[local] Notation writes := (writes debug).
#[local] Notation own_frames := (own_frames debug).
#[local] Notation speaks := (speaks debug).

(** A live Gemini encoder whose open calls are [s] at every index, and whose
    waiting frames are those of the events [d]. *)
Record calls_are (s : Z -> option GeminiHeldCall) (d : list IrStreamEvent) (e : StreamEncoder) : Prop := {
  ca_wire : enc_wire e = Gemini;
  ca_live : enc_finished e = false;
  ca_sorted : bt_sorted (enc_gemini_open_calls e);
  ca_get : forall i, bt_get i (enc_gemini_open_calls e) = s i;
  ca_deferred : Forall2 alone d (enc_gemini_deferred e);
  ca_idle : enc_gemini_open_calls e = [] -> d = []
}.

Lemma encode_gemini_ok ev : exists f, encode_stream_event debug Gemini ev = Ok f.
Proof.
  destruct ev; by eexists.
Qed.

(** The encoder without what it holds. *)
Definition put_down (e : StreamEncoder) : StreamEncoder :=
  e <| enc_gemini_open_calls := [] |> <| enc_gemini_deferred := [] |>.

Lemma attach_put_down e f : attach_dest_model (put_down e) f = attach_dest_model e f.
Proof. reflexivity. Qed.

Lemma alone_put_down ev e f :
  enc_wire e = Gemini -> enc_finished e = false -> (push debug ev (put_down e)).1 = Ok [f] -> alone ev f.
Proof. intros W F P. exists (put_down e). unfold put_down in *. by simpl_fields. Qed.

(** What a flush sends: every open call, index by index, and what waited. *)
Lemma flush_gemini_writes e d :
  bt_sorted (enc_gemini_open_calls e) -> Forall2 alone d (enc_gemini_deferred e) ->
  exists cs, writes (flush_gemini_calls e).1 cs d []
    /\ forall i, at_index i cs = push_opt (fun c => c) (bt_get i (enc_gemini_open_calls e)).
Proof.
  intros S D. exists (enc_gemini_open_calls e). split; [|intros i; by apply held_at_index].
  unfold flush_gemini_calls. cbn [fst]. rewrite <- (app_nil_r (enc_gemini_open_calls e)) at 2.
  apply (writes_app _ _ _ _ _ [] d [] []); [apply writes_all|by apply writes_events].
Qed.

(** [hold_gemini_start] at its index, and nothing at another. *)
Lemma hold_start_ok index id name signature custom e :
  bt_sorted (enc_gemini_open_calls e) ->
  let r := hold_gemini_start index id name signature custom e in
  let slot := call_start id name signature custom (bt_get index (enc_gemini_open_calls e)) in
  (exists cs, writes r.1 cs [] [] /\ forall i, at_index i cs = if i =? index then slot.1 else [])
  /\ enc_wire r.2 = enc_wire e /\ enc_finished r.2 = enc_finished e /\ enc_gemini_deferred r.2 = enc_gemini_deferred e
  /\ bt_sorted (enc_gemini_open_calls r.2)
  /\ forall i, bt_get i (enc_gemini_open_calls r.2)
       = if i =? index then slot.2 else bt_get i (enc_gemini_open_calls e).
Proof.
  intros S. unfold hold_gemini_start, call_start, gemini_awaits_name.
  assert (forall (m : list (Z * GeminiHeldCall)) v, bt_sorted m -> forall i, bt_get i (bt_insert index v m) = if i =? index then Some v else bt_get i m)
    as Get by (intros; apply bt_get_insert).
  destruct (bt_get index (enc_gemini_open_calls e)) as [prev|] eqn:G; cbn [opt_filter];
    [destruct (is_empty (gh_id prev) && is_empty (gh_name prev))|]; cbn [fst snd]; simpl_fields.
  - split; [exists []; split; [constructor|intros i; by destruct (i =? index)]|]. split_and!; try done.
    + by apply bt_insert_sorted.
    + intros i. by apply Get.
  - split.
    + exists [(index, prev)]. split; [apply writes_one|]. intros i. unfold at_index. cbn [List.filter fst].
      by destruct (i =? index).
    + split_and!; try done; [by apply bt_insert_sorted, bt_remove_sorted|].
      intros i. rewrite Get by (by apply bt_remove_sorted). destruct (i =? index) eqn:E; [done|].
      rewrite bt_get_remove by done. by rewrite E.
  - split; [exists []; split; [constructor|intros i; by destruct (i =? index)]|]. split_and!; try done.
    + by apply bt_insert_sorted, bt_remove_sorted.
    + intros i. rewrite Get by (by apply bt_remove_sorted). destruct (i =? index) eqn:E; [done|].
      rewrite bt_get_remove by done. by rewrite E.
Qed.

Lemma append_args_ok index delta custom e :
  bt_sorted (enc_gemini_open_calls e) ->
  let e' := append_gemini_args index delta custom e in
  enc_wire e' = enc_wire e /\ enc_finished e' = enc_finished e /\ enc_gemini_deferred e' = enc_gemini_deferred e
  /\ bt_sorted (enc_gemini_open_calls e')
  /\ forall i, bt_get i (enc_gemini_open_calls e')
       = if i =? index then Some (call_delta delta custom (bt_get index (enc_gemini_open_calls e)))
         else bt_get i (enc_gemini_open_calls e).
Proof.
  intros S. unfold append_gemini_args. cbv zeta. simpl_fields. split_and!; try done; [by apply bt_insert_sorted|].
  intros i. apply bt_get_insert.
Qed.

(** An event that is not about calls leaves them. *)
Definition not_a_call (ev : IrStreamEvent) : bool :=
  match ev with
  | ToolCallStart _ _ _ _ | CustomToolCallStart _ _ _ | ToolCallArgDelta _ _ | CustomToolCallInputDelta _ _
  | ToolCallEnd | FinishReason _ _ | Done => false
  | _ => true
  end.

Lemma call_step_other i ev s : not_a_call ev = true -> call_step i ev s = ([], s).
Proof. by destruct ev. Qed.

Lemma calls_are_core s d e e' :
  calls_are s d e -> enc_wire e' = enc_wire e -> enc_finished e' = enc_finished e ->
  enc_gemini_open_calls e' = enc_gemini_open_calls e -> enc_gemini_deferred e' = enc_gemini_deferred e ->
  calls_are s d e'.
Proof. intros [] W F G D. constructor; try congruence. rewrite G. done. Qed.

Lemma keep_calls {T} (field : StreamEncoder -> option T) {F : Field field} w o s d e :
  (forall e', enc_wire (e' <| field := o |>) = enc_wire e'
           /\ enc_finished (e' <| field := o |>) = enc_finished e'
           /\ enc_gemini_open_calls (e' <| field := o |>) = enc_gemini_open_calls e'
           /\ enc_gemini_deferred (e' <| field := o |>) = enc_gemini_deferred e') ->
  calls_are s d e -> calls_are s d (keep w field o e).
Proof.
  intros K C. unfold keep. destruct (wire_eqb _ w); [|done]. destruct o; [|done].
  destruct (K e) as (W & Fi & G & D). by apply (calls_are_core s d e).
Qed.

Lemma kept_calls item_type payload s d e e' :
  kept_protocol item_type payload e = Some e' -> calls_are s d e -> calls_are s d e'.
Proof.
  unfold kept_protocol. intros H C.
  repeat case_hyp H; [..|done]; injection H as <-; (apply keep_calls; [by intros e1|done]).
Qed.

(** The fields of a protocol item are kept whatever the state of the encoder. *)
Lemma gemini_kept_wire item_type payload e e' :
  enc_wire e = enc_wire e' -> is_some (kept_protocol item_type payload e) = is_some (kept_protocol item_type payload e').
Proof. intros W. unfold kept_protocol. rewrite W. repeat (case_goal; [reflexivity|]). reflexivity. Qed.

(** A protocol item is silent, or has one frame that does not depend on what the
    encoder holds. *)
Lemma protocol_cases item_type payload :
  (forall e, enc_wire e = Gemini -> (push_protocol debug item_type payload e).1 = Ok [])
  \/ exists g : StreamEncoder -> RawSse, (forall e, g (put_down e) = g e)
       /\ forall e, enc_wire e = Gemini -> (push_protocol debug item_type payload e).1 = Ok [g e].
Proof.
  destruct (is_some (kept_protocol item_type payload (new Gemini))) eqn:K.
  { left. intros e W. unfold push_protocol. rewrite (gemini_kept_wire _ _ _ e) in K by (by rewrite W).
    by destruct (kept_protocol item_type payload e). }
  assert (N : forall e, enc_wire e = Gemini -> kept_protocol item_type payload e = None).
  { intros e W. rewrite (gemini_kept_wire _ _ _ e) in K by (by rewrite W). by destruct (kept_protocol item_type payload e). }
  assert (P : forall e, enc_wire e = Gemini -> (push_protocol debug item_type payload e).1
    = if String.eqb item_type "messages_citation" then Ok []
      else if one_of item_type ["responses_reasoning_id"; "responses_reasoning_status"; "responses_reasoning_content"] then Ok []
      else match Responses.tool_extra_from_protocol item_type payload with
           | Some _ => Ok []
           | None =>
             if String.eqb item_type "gemini_code_part" then (push_code_part payload e).1
             else if String.eqb item_type "converse_redacted_content" then Ok []
             else if dropped_protocol Gemini item_type then Ok []
             else let* frame := encode_stream_event debug Gemini (Protocol item_type payload) in Ok [frame]
           end).
  { intros e W. unfold push_protocol. rewrite N by done. unfold push_citation, push_reasoning_identity, push_redacted. rewrite W.
    change (wire_eqb Gemini Messages) with false. change (wire_eqb Gemini Responses) with false.
    change (wire_eqb Gemini Converse) with false. cbn [negb orb andb]. repeat case_goal; reflexivity. }
  destruct (encode_gemini_ok (Protocol item_type payload)) as (f & E). rewrite E in P. cbn [rbind] in P.
  destruct (String.eqb item_type "messages_citation"); [by left|].
  destruct (one_of item_type _); [by left|].
  destruct (Responses.tool_extra_from_protocol item_type payload); [by left|].
  destruct (String.eqb item_type "gemini_code_part").
  { destruct (forallb (fun k => is_none (get payload k)) gemini_code_keys) eqn:Q.
    - left. intros e W. rewrite P by done. unfold push_code_part. rewrite W, Q. done.
    - right. eexists (fun e => attach_dest_model e _). split; [intros e; apply attach_put_down|].
      intros e W. rewrite P by done. unfold push_code_part. rewrite W, Q. reflexivity. }
  destruct (String.eqb item_type "converse_redacted_content"); [by left|].
  destruct (dropped_protocol Gemini item_type); [by left|]. right. by exists (fun _ => f).
Qed.

(** Any other event that is not a call is silent, or has one frame, which waits
    while calls are open. *)
Lemma plain_cases ev :
  not_a_call ev = true -> vendor_item ev = false ->
  (forall e, enc_wire e = Gemini -> enc_finished e = false -> push debug ev e = (Ok [], e))
  \/ exists f, forall e, enc_wire e = Gemini -> enc_finished e = false ->
       push debug ev e
       = if bool_decide (enc_gemini_open_calls e = []) then (Ok [attach_dest_model e f], e)
         else (Ok [], e <| enc_gemini_deferred ::= fun l => l ++ [attach_dest_model e f] |>).
Proof.
  intros Q V. destruct (encode_gemini_ok ev) as (f & E).
  assert (Wire : forall e, enc_wire e = Gemini -> enc_finished e = false -> push_wire debug ev e
    = if bool_decide (enc_gemini_open_calls e = []) then (Ok [attach_dest_model e f], e)
      else (Ok [], e <| enc_gemini_deferred ::= fun l => l ++ [attach_dest_model e f] |>)).
  { intros e W F. unfold push_wire. rewrite W.
    assert (push_gemini debug ev e = match encode_stream_event debug (enc_wire e) ev with
      | Err err => (Err err, e)
      | Ok frame => let frame := attach_dest_model e frame in
          if bool_decide (enc_gemini_open_calls e = []) then (Ok [frame], e)
          else (Ok [], e <| enc_gemini_deferred ::= fun l => l ++ [frame] |>) end) as ->
      by (by destruct ev).
    by rewrite W, E. }
  destruct ev; try discriminate;
    try (right; exists f; intros e W F; unfold push; rewrite F, ?W; by apply Wire);
    try (left; intros e W F; unfold push; by rewrite F, W).
  destruct (gemini_metadata_annotation annotation) eqn:G; [left|right; exists f]; intros e W F; unfold push; rewrite F, W, G;
    [done|by apply Wire].
Qed.

(** What the events add to the waiting frames, and what is written of them. *)
Definition plain_of (ev : IrStreamEvent) : list IrStreamEvent :=
  if Bool.eqb (vendor_item ev) false && speaks ev then [ev] else [].
Definition vendor_of (ev : IrStreamEvent) : list IrStreamEvent :=
  if Bool.eqb (vendor_item ev) true && speaks ev then [ev] else [].

(** A push of an event that is not a call. *)
Lemma push_plain_ok s d ev e :
  calls_are s d e -> not_a_call ev = true -> vendor_item ev = false ->
  exists out os d', (push debug ev e).1 = Ok out /\ writes out [] os [] /\ d ++ plain_of ev = os ++ d'
    /\ calls_are s d' (push debug ev e).2.
Proof.
  intros C Q V. pose proof C as []. unfold plain_of. rewrite V. cbn [Bool.eqb andb].
  destruct (plain_cases ev Q V) as [S|(f & S)].
  - unfold speaks. rewrite (S e), (S (new Gemini)) by done. cbn [fst snd]. exists [], [], d.
    split; [done|]. split; [constructor|]. by rewrite app_nil_r.
  - unfold speaks. rewrite (S (new Gemini)) by done. rewrite bool_decide_true by done. cbn [fst]. rewrite (S e) by done.
    assert (A : alone ev (attach_dest_model e f)).
    { apply (alone_put_down ev e); [done|done|]. rewrite S by done. by rewrite bool_decide_true. }
    destruct (bool_decide (enc_gemini_open_calls e = [])) eqn:O; cbn [fst snd].
    + apply bool_decide_eq_true in O. rewrite (ca_idle0 O) in *. exists [attach_dest_model e f], [ev], [].
      split; [done|]. split; [by apply writes_event; [|constructor]|]. done.
    + apply bool_decide_eq_false in O. exists [], [], (d ++ [ev]). split; [done|]. split; [constructor|]. split; [done|].
      constructor; simpl_fields; try done. by apply Forall2_app; [|constructor].
Qed.

Lemma push_vendor_ok s d ev e :
  calls_are s d e -> vendor_item ev = true ->
  exists out, (push debug ev e).1 = Ok out /\ writes out [] [] (vendor_of ev) /\ calls_are s d (push debug ev e).2.
Proof.
  intros C V. pose proof C as []. unfold vendor_of. rewrite V. cbn [Bool.eqb andb].
  destruct ev; try discriminate; unfold speaks, push; rewrite ca_live0.
  - assert (C' : calls_are s d (push_protocol debug item_type payload e).2).
    { unfold push_protocol. destruct (kept_protocol item_type payload e) as [e'|] eqn:K; [by apply (kept_calls item_type payload s d e)|].
      unfold push_citation, push_reasoning_identity, push_code_part, push_redacted. rewrite ca_wire0.
      change (wire_eqb Gemini Messages) with false. change (wire_eqb Gemini Responses) with false.
      change (wire_eqb Gemini Converse) with false. cbn [negb orb andb]. repeat case_goal; exact C. }
    cbn [enc_finished new]. destruct (protocol_cases item_type payload) as [P|(g & Q & P)].
    + exists []. rewrite (P e), (P (new Gemini)) by done. by split; [|split; [constructor|]].
    + exists [g e]. rewrite (P e), (P (new Gemini)) by done. split; [done|]. split; [|done].
      apply writes_vendor; [|constructor]. apply (alone_put_down _ e); [done|done|]. unfold push.
      change (enc_finished (put_down e)) with (enc_finished e). rewrite ca_live0, P by done. by rewrite Q.
  - cbn [enc_finished new]. rewrite ca_wire0. destruct (encode_gemini_ok (UnknownEvent event raw)) as (f & E).
    change (enc_wire (new Gemini)) with Gemini. rewrite E. exists [f]. split; [done|]. split; [|done].
    apply writes_vendor; [|constructor]. apply (alone_put_down _ e); [done|done|]. unfold push.
    change (enc_finished (put_down e)) with (enc_finished e). change (enc_wire (put_down e)) with (enc_wire e).
    by rewrite ca_live0, ca_wire0, E.
Qed.

Lemma call_end_ok s d e e1 :
  calls_are s d e -> enc_gemini_open_calls e1 = enc_gemini_open_calls e -> enc_gemini_deferred e1 = enc_gemini_deferred e ->
  exists cs, writes (flush_gemini_calls e1).1 cs d []
    /\ (forall i, at_index i cs = push_opt (fun c => c) (s i))
    /\ enc_gemini_open_calls (flush_gemini_calls e1).2 = []
    /\ enc_gemini_deferred (flush_gemini_calls e1).2 = []
    /\ enc_wire (flush_gemini_calls e1).2 = enc_wire e1
    /\ enc_finished (flush_gemini_calls e1).2 = enc_finished e1.
Proof.
  intros [] E D. destruct (flush_gemini_writes e1 d) as (cs & W & A); [by rewrite E|by rewrite D|]. exists cs. split; [done|].
  split; [intros i; by rewrite A, E, ca_get0|]. unfold flush_gemini_calls. cbn [snd]. by simpl_fields.
Qed.

Lemma done_alone f : encode_stream_event debug Gemini Done = Ok f -> alone Done f.
Proof. intros E. exists (new Gemini). split_and!; try done. unfold push, finish, finish_gemini, flush_gemini_calls.
  cbn [enc_finished new]. simpl_fields. cbn [enc_wire new enc_gemini_open_calls enc_gemini_deferred map omap list_omap app].
  by rewrite E.
Qed.

(** [finish] of a live encoder. *)
Lemma finish_gemini_ok s d e :
  calls_are s d e ->
  exists out cs, (finish debug e).1 = Ok out /\ enc_finished (finish debug e).2 = true /\ writes out cs (d ++ [Done]) []
    /\ forall i, at_index i cs = push_opt (fun c => c) (s i).
Proof.
  intros C. pose proof C as []. unfold finish. rewrite ca_live0. simpl_fields. rewrite ca_wire0.
  set (e1 := e <| enc_finished := true |>). unfold finish_gemini.
  destruct (call_end_ok s d e e1 C) as (cs & W & A & _ & _ & Wi & Fi); [subst e1; by simpl_fields..|].
  destruct (flush_gemini_calls e1) as [out e2]. cbn [fst snd] in *.
  assert (enc_wire e2 = Gemini) as -> by (rewrite Wi; subst e1; by simpl_fields).
  destruct (encode_gemini_ok Done) as (f & E). rewrite E. exists (out ++ [f]), (cs ++ []). split; [done|].
  split; [rewrite Fi; subst e1; by simpl_fields|].
  split; [|intros i; by rewrite app_nil_r].
  apply (writes_app _ _ _ _ _ _ _ [] []); [done|]. by apply writes_event; [apply done_alone|constructor].
Qed.

(** A frame that ends the calls is written after what waited. *)
Lemma finish_reason_alone reason vendor e f :
  enc_wire e = Gemini -> enc_finished e = false -> enc_gemini_open_calls e = [] -> enc_gemini_deferred e = [] ->
  encode_stream_event debug Gemini (FinishReason reason vendor) = Ok f ->
  alone (FinishReason reason vendor) (attach_dest_model e f).
Proof.
  intros W F O D E. exists e. split_and!; try done. unfold push, push_wire. rewrite F, W. cbn [push_gemini].
  unfold flush_gemini_calls. simpl_fields. rewrite O, D. cbn [map omap list_omap app]. simpl_fields. rewrite W, E. reflexivity.
Qed.

Lemma finish_reason_speaks reason vendor : speaks (FinishReason reason vendor) = true.
Proof.
  destruct (encode_gemini_ok (FinishReason reason vendor)) as (f & E). unfold speaks, push, push_wire.
  cbn [enc_finished enc_wire new push_gemini flush_gemini_calls enc_gemini_open_calls enc_gemini_deferred map omap list_omap app].
  simpl_fields. cbn [enc_wire new]. by rewrite E.
Qed.

(** Every event but [Done] is one step of every index. *)
Lemma push_calls_ok s d ev e :
  calls_are s d e -> ev <> Done ->
  exists out cs os d', (push debug ev e).1 = Ok out /\ writes out cs os (vendor_of ev) /\ d ++ plain_of ev = os ++ d'
    /\ (forall i, at_index i cs = (call_step i ev (s i)).1)
    /\ calls_are (fun i => (call_step i ev (s i)).2) d' (push debug ev e).2.
Proof.
  intros C Nd. destruct (not_a_call ev) eqn:Q.
  { assert (Same : forall d', calls_are s d' (push debug ev e).2 -> calls_are (fun i => (call_step i ev (s i)).2) d' (push debug ev e).2).
    { intros d' []. constructor; try done. intros i. rewrite call_step_other by done. apply ca_get0. }
    destruct (vendor_item ev) eqn:V.
    - destruct (push_vendor_ok s d ev e C V) as (out & E & W & C'). exists out, [], [], d.
      unfold plain_of. rewrite V. cbn [Bool.eqb andb]. rewrite app_nil_r. split_and!; try done; [|by apply Same].
      intros i. by rewrite call_step_other.
    - destruct (push_plain_ok s d ev e C Q V) as (out & os & d' & E & W & D & C'). exists out, [], os, d'.
      unfold vendor_of. rewrite V. cbn [Bool.eqb andb]. split_and!; try done; [|by apply Same].
      intros i. by rewrite call_step_other. }
  pose proof C as []. unfold vendor_of, push, push_wire. rewrite ca_live0, ca_wire0.
  assert (forall index id name signature custom,
    let r := hold_gemini_start index id name signature custom e in
    exists cs, writes r.1 cs [] []
      /\ (forall i, at_index i cs = (if i =? index then call_start id name signature custom (s i) else ([], s i)).1)
      /\ calls_are (fun i => (if i =? index then call_start id name signature custom (s i) else ([], s i)).2) d r.2) as Start.
  { intros index id name signature custom r.
    destruct (hold_start_ok index id name signature custom e ca_sorted0) as ((cs & W & A) & Wi & Fi & De & S & G).
    fold r in W, Wi, Fi, De, S, G. exists cs. split; [done|]. split.
    - intros i. rewrite A. destruct (Z.eqb_spec i index) as [->|]; [by rewrite ca_get0|done].
    - constructor; try congruence.
      + intros i. rewrite G. destruct (Z.eqb_spec i index) as [->|]; by rewrite ca_get0.
      + intros O. specialize (G index). rewrite O, Z.eqb_refl in G. unfold call_start in G.
        destruct (bt_get index (enc_gemini_open_calls e)); [|done]. by destruct (_ && _). }
  assert (forall index delta custom,
    calls_are (fun i => if i =? index then Some (call_delta delta custom (s i)) else s i) d
      (append_gemini_args index delta custom e)) as Arg.
  { intros index delta custom. destruct (append_args_ok index delta custom e ca_sorted0) as (Wi & Fi & De & S & G).
    constructor; try congruence.
    - intros i. rewrite G. destruct (Z.eqb_spec i index) as [->|]; by rewrite ca_get0.
    - intros O. specialize (G index). by rewrite O, Z.eqb_refl in G. }
  destruct ev; try discriminate; try done; cbn [push_gemini call_step fst snd vendor_item Bool.eqb andb].
  - destruct (Start index id name thought_signature false) as (cs & W & A & C').
    destruct (hold_gemini_start _ _ _ _ _ e) as [out e']. exists out, cs, [], d. cbn [fst snd] in *. by rewrite app_nil_r.
  - exists [], [], [], d. split; [done|]. split; [constructor|]. split; [by rewrite app_nil_r|]. split; [done|apply Arg].
  - destruct (call_end_ok s d e e C) as (cs & W & A & G & De & Wi & Fi); [done..|].
    destruct (flush_gemini_calls e) as [out e']. cbn [fst snd] in *. exists out, cs, d, []. split; [done|]. split; [done|].
    split; [done|]. split; [done|]. constructor; try congruence; rewrite ?G, ?De; [apply bt_sorted_nil|done|constructor].
  - destruct (Start index id name None true) as (cs & W & A & C').
    destruct (hold_gemini_start _ _ _ _ _ e) as [out e']. exists out, cs, [], d. cbn [fst snd] in *. by rewrite app_nil_r.
  - exists [], [], [], d. split; [done|]. split; [constructor|]. split; [by rewrite app_nil_r|]. split; [done|apply Arg].
  - destruct (call_end_ok s d e e C) as (cs & W & A & G & De & Wi & Fi); [done..|].
    destruct (flush_gemini_calls e) as [out e']. cbn [fst snd] in *. rewrite Wi, ca_wire0.
    destruct (encode_gemini_ok (FinishReason reason vendor)) as (f & E). rewrite E.
    exists (out ++ [attach_dest_model e' f]), (cs ++ []), (d ++ [FinishReason reason vendor]), []. split; [done|].
    split.
    { apply (writes_app _ _ _ _ _ _ _ [] []); [done|]. apply writes_event; [|constructor].
      apply finish_reason_alone; congruence. }
    rewrite app_nil_r. split; [unfold plain_of; by rewrite finish_reason_speaks|]. rewrite app_nil_r. split; [done|].
    constructor; try congruence; cbn [snd]; rewrite ?G, ?De; [apply bt_sorted_nil|done|constructor].
Qed.

Lemma own_frames_cons vendor ev evs :
  ev <> Done -> own_frames vendor (ev :: evs) = (if vendor then vendor_of ev else plain_of ev) ++ own_frames vendor evs.
Proof.
  intros N. unfold own_frames. assert (until_done (ev :: evs) = ev :: until_done evs) as -> by (by destruct ev).
  cbn [List.filter]. unfold vendor_of, plain_of. destruct vendor; by destruct (_ && _).
Qed.

Lemma encode_calls_ok evs s d e :
  calls_are s d e ->
  exists frames cs e', encode_all debug evs e = (Ok frames, e')
    /\ writes frames cs (d ++ own_frames false evs ++ [Done]) (own_frames true evs)
    /\ forall i, at_index i cs = calls_at i evs (s i).
Proof.
  revert s d e. induction evs as [|ev evs IH]; intros s d e C.
  { destruct (finish_gemini_ok s d e C) as (out & cs & E & _ & W & A). unfold encode_all. cbn [push_all].
    destruct (finish debug e) as [r e']. cbn [fst] in E. subst r. by exists out, cs, e'. }
  rewrite encode_all_cons. destruct (bool_decide (ev = Done)) eqn:D.
  - apply bool_decide_eq_true in D as ->. destruct (finish_gemini_ok s d e C) as (out & cs & E & F & W & A).
    assert (push debug Done e = finish debug e) as -> by (unfold push; by rewrite (ca_live _ _ _ C)).
    destruct (finish debug e) as [r e1]. cbn [fst snd] in *. subst r. rewrite encode_all_finished by done.
    exists out, cs, e1. cbn [rmap]. by rewrite app_nil_r.
  - apply bool_decide_eq_false in D. destruct (push_calls_ok s d ev e C D) as (out & cs & os & d' & E & W & Od & A & C').
    destruct (push debug ev e) as [r e1]. cbn [fst snd] in *. subst r.
    destruct (IH _ _ _ C') as (rest & ds & e2 & -> & W2 & A2). exists (out ++ rest), (cs ++ ds), e2.
    split; [done|]. rewrite !own_frames_cons by done. split.
    + replace (d ++ (plain_of ev ++ own_frames false evs) ++ [Done]) with (os ++ d' ++ own_frames false evs ++ [Done])
        by (rewrite !app_assoc, <- Od; by rewrite <- !app_assoc).
      by apply writes_app.
    + intros i. rewrite at_index_app, A, A2. by destruct ev.
Qed.

Lemma new_calls_are model : calls_are (fun _ => None) [] (with_model model (new Gemini)).
Proof. unfold with_model. constructor; simpl_fields; [done|done|apply bt_sorted_nil|done|constructor|done]. Qed.

(** C22. Gemini calls by index: for any event list the frames are those of the
    calls, each with its name, arguments, id and signature, of the events that have a
    frame of their own and of the items of a vendor, each once and in order, and a
    last one for the end; the calls are, at
    every IR index, exactly those of a machine that sees this index alone, so
    parallel calls do not interfere and none is sent twice; only a call without a
    name has no frame, and nothing makes the encoder fail. *)
Theorem gemini_calls_refine_slots model evs :
  exists frames cs e, encode_all debug evs (with_model model (new Gemini)) = (Ok frames, e)
    /\ writes frames cs (own_frames false evs ++ [Done]) (own_frames true evs)
    /\ forall i, at_index i cs = calls_at i evs None.
Proof. apply (encode_calls_ok evs (fun _ => None) []), new_calls_are. Qed.

(** The fragments sent for an index, until the stream is done. *)
Fixpoint fragments_at (i : Z) (evs : list IrStreamEvent) : string :=
  match evs with
  | [] | Done :: _ => ""
  | (ToolCallArgDelta delta j | CustomToolCallInputDelta delta j) :: evs =>
      (if i =? j then delta else "") +:+ fragments_at i evs
  | _ :: evs => fragments_at i evs
  end.

Definition args_in (cs : list GeminiHeldCall) : string := fold_right (fun c s => gh_args c +:+ s) "" cs.

Lemma args_in_app cs ds : args_in (cs ++ ds) = args_in cs +:+ args_in ds.
Proof. unfold args_in. induction cs as [|c cs IH]; cbn; [done|]. by rewrite IH, str_app_assoc. Qed.

Lemma call_step_args i ev s rest :
  ev <> Done ->
  args_in (call_step i ev s).1 +:+ (args_in (push_opt (fun c => c) (call_step i ev s).2) +:+ rest)
  = args_in (push_opt (fun c => c) s)
    +:+ (match ev with
         | ToolCallArgDelta delta j | CustomToolCallInputDelta delta j => if i =? j then delta else ""
         | _ => ""
         end +:+ rest).
Proof.
  intros _. destruct ev; cbn [call_step fst snd]; try done; try (by destruct s; cbn; rewrite ?str_app_nil_r).
  all: unfold args_in, call_start, call_delta; destruct (i =? index), s as [c|];
    cbn [fst snd push_opt fold_right gh_args]; rewrite ?str_app_nil_r, ?str_app_assoc; try done.
  all: destruct (is_empty (gh_id c) && _); cbn [fst snd push_opt fold_right gh_args]; by rewrite ?str_app_nil_r.
Qed.

Lemma calls_at_args i evs s :
  args_in (calls_at i evs s) = args_in (push_opt (fun c => c) s) +:+ fragments_at i evs.
Proof.
  revert s. induction evs as [|ev evs IH]; intros s; [cbn; by rewrite str_app_nil_r|].
  destruct (bool_decide (ev = Done)) eqn:D.
  - apply bool_decide_eq_true in D as ->. cbn. by rewrite str_app_nil_r.
  - apply bool_decide_eq_false in D. pose proof (call_step_args i ev s (fragments_at i evs) D) as K.
    transitivity (args_in ((call_step i ev s).1 ++ calls_at i evs (call_step i ev s).2)); [by destruct ev|].
    rewrite args_in_app, IH, K. f_equal. by destruct ev.
Qed.

(** No argument fragment is lost, invented or moved to another call: in
    the frames of any event list the calls of an IR index hold exactly the
    concatenation of its fragments up to [Done], in order. *)
Theorem gemini_arguments_conserved model evs :
  exists frames cs e, encode_all debug evs (with_model model (new Gemini)) = (Ok frames, e)
    /\ writes frames cs (own_frames false evs ++ [Done]) (own_frames true evs)
    /\ forall i, args_in (at_index i cs) = fragments_at i evs.
Proof.
  destruct (encode_calls_ok evs (fun _ => None) [] _ (new_calls_are model)) as (frames & cs & e & E & W & A).
  exists frames, cs, e. split; [done|]. split; [done|]. intros i. by rewrite A, calls_at_args.
Qed.
End Stream.

(** ** Witnesses *)
Section Witnesses.
#[local] Existing Instance bits_codec.

(** Parallel calls, with arguments that arrive in pieces and before a name. *)
Definition seven : json := jobj [("n", jint 7)].
Definition none : json := jobj [].

Definition parallel_calls : list IrStreamEvent :=
  [ToolCallArgDelta (String.substring 0 5 (to_string seven)) 1; ToolCallStart "x" "f" None 0; ToolCallStart "y" "g" None 1;
   ToolCallArgDelta (String.substring 0 2 (to_string none)) 0;
   ToolCallArgDelta (String.substring 5 (String.length (to_string seven)) (to_string seven)) 1; TextDelta "hi";
   ToolCallArgDelta (String.substring 2 (String.length (to_string none)) (to_string none)) 0; ToolCallEnd].

Definition sent_calls (frames : list RawSse) : list (string * option json) :=
  omap (fun f => v ← from_str (raw_data f);
          fc ← pointer v [Key "candidates"; Idx 0; Key "content"; Key "parts"; Idx 0; Key "functionCall"];
          name ← get_str fc "name"; Some (name, get fc "args")) frames.

Example parallel_calls_sent :
  sent_calls (unwrap_or (rok (encode_all (fun _ => "") parallel_calls (new Gemini)).1) [])
  = [("f", Some none); ("g", Some seven)].
Proof. vm_compute. reflexivity. Qed.
End Witnesses.
