(* ===== verification/EncoderEnds.v ===== *)
(** * EncoderEnds: the end of an encoded stream

    [StreamEncoder::finish] on every wire: it marks the encoder finished
    whatever the state is, after which no call writes anything, and except on
    Gemini, whose streams end with their finish token, the last frame it
    writes is one the terminal test of the proxy takes. *)

From stdpp Require Import gmap.
From S2P Require Import Prelude Fields Text Json JsonCodec Sse Ir ProfileTypes BTree StreamCore Shapes Usage.
From S2P Require Import EncoderCore StreamDecode EncoderMessages EncoderResponses EncoderWires Encoder.
From S2P Require Converse.

(** A step that leaves the mark alone. *)
Definition keeps_mark {A} (r : A * StreamEncoder) (e : StreamEncoder) : Prop :=
  enc_finished r.2 = enc_finished e.

Section Marks.
Context {SJ : SerdeJson} (debug : IrStreamEvent -> string).

Lemma mark_take_custom enc e : keeps_mark (take_custom_json enc e) e.
Proof. unfold keeps_mark, take_custom_json. destruct (enc_custom_args e !! enc); cbn [snd]; by simpl_fields. Qed.

Lemma mark_note_custom enc custom e : enc_finished (note_custom_slot enc custom e) = enc_finished e.
Proof. unfold note_custom_slot, push_custom. destruct custom; by simpl_fields. Qed.

Lemma mark_alloc i e : keeps_mark (alloc_tool i e) e.
Proof. unfold keeps_mark, alloc_tool, next_slot. destruct (enc_wire e); cbn [take_block snd]; by simpl_fields. Qed.

Lemma mark_tool_enc i e : keeps_mark (tool_enc i e) e.
Proof.
  unfold keeps_mark, tool_enc. simpl_fields. destruct (opt_or _ _); cbn [snd].
  - destruct (_ <? _); by simpl_fields.
  - match goal with |- context [alloc_tool i ?x] => pose proof (mark_alloc i x) as -> end. by simpl_fields.
Qed.

Lemma mark_flush_held h e : keeps_mark (flush_held_tool h e) e.
Proof.
  destruct h as [[[enc id] name] args]. cbn [flush_held_tool]. unfold keeps_mark.
  match goal with |- context [take_custom_json enc ?x] => pose proof (mark_take_custom enc x) as M end.
  destruct (take_custom_json _ _). unfold keeps_mark in M. simpl_fields_in M. exact M.
Qed.

Lemma mark_flush_each l e : keeps_mark (flush_each l e) e.
Proof.
  revert e. induction l as [|h l IH]; intros e; cbn [flush_each]; [done|]. pose proof (mark_flush_held h e) as M.
  destruct (flush_held_tool h e) as [out e1]. specialize (IH e1). destruct (flush_each l e1). unfold keeps_mark in *.
  cbn [snd] in *. congruence.
Qed.

Lemma mark_flush_held_tools e : keeps_mark (flush_held_tools e) e.
Proof. unfold flush_held_tools, keeps_mark. rewrite mark_flush_each. by simpl_fields. Qed.

Lemma mark_close_open e : keeps_mark (close_open e) e.
Proof.
  unfold close_open, keeps_mark. destruct (enc_open e) as [[index kind]|]; [|apply mark_flush_held_tools].
  set (e1 := over enc_closed_tools _ _). assert (enc_finished e1 = enc_finished e) as F by (subst e1; by simpl_fields).
  assert (enc_finished (match kind with Tool => take_custom_json index e1 | _ => (None, e1) end).2 = enc_finished e1) as M.
  { destruct kind; try done. apply mark_take_custom. }
  destruct (match kind with Tool => _ | _ => _ end) as [text e2]. cbn [snd] in M.
  pose proof (mark_flush_held_tools e2) as M2. destruct (flush_held_tools e2). unfold keeps_mark in *. cbn [snd] in *.
  congruence.
Qed.

Lemma mark_ensure_block kind e : keeps_mark (ensure_block kind e) e.
Proof.
  unfold ensure_block, keeps_mark. destruct (open_is e kind); [done|]. pose proof (mark_close_open e) as M.
  destruct (close_open e). cbn [take_block snd]. by simpl_fields.
Qed.

Lemma mark_block_delta kind delta e : keeps_mark (block_delta_in kind delta e) e.
Proof. unfold block_delta_in. pose proof (mark_ensure_block kind e). by destruct (ensure_block kind e). Qed.

Lemma mark_start_tool enc id name e : keeps_mark (start_tool enc id name e) e.
Proof. unfold start_tool, keeps_mark. cbn [snd]. by simpl_fields. Qed.

(** Close what is open and start the call. *)
Lemma mark_close_start enc id name e :
  enc_finished (let '(out, e1) := close_open e in let '(start, e2) := start_tool enc id name e1 in (out ++ start, e2)).2
  = enc_finished e.
Proof.
  pose proof (mark_close_open e) as M. destruct (close_open e) as [out e1].
  pose proof (mark_start_tool enc id name e1) as M2. destruct (start_tool enc id name e1).
  unfold keeps_mark in *. cbn [snd] in *. congruence.
Qed.

Lemma mark_messages_start custom id name index e : keeps_mark (messages_tool_start custom id name index e) e.
Proof.
  unfold messages_tool_start, keeps_mark. destruct (_ && _).
  { cbn [snd]. destruct (open_tool e); [apply mark_note_custom|done]. }
  destruct (messages_same_open index e).
  - pose proof (mark_close_open e) as M. destruct (close_open e) as [out e1].
    match goal with |- context [alloc_tool index ?x] => pose proof (mark_alloc index x) as M2 end.
    destruct (alloc_tool index _) as [enc e2].
    pose proof (mark_start_tool enc id name (note_custom_slot enc custom e2)) as M3.
    destruct (start_tool _ _ _ _). unfold keeps_mark in *. cbn [snd] in *. rewrite mark_note_custom in M3.
    simpl_fields_all. congruence.
  - destruct (bt_get _ _) as [held|].
    + cbn [snd]. rewrite mark_note_custom. by simpl_fields.
    + pose proof (mark_alloc index e) as M. destruct (alloc_tool index e) as [enc e1]. unfold keeps_mark in M.
      cbn [snd] in M. destruct (is_some_and _ _); cbn [snd].
      * simpl_fields. by rewrite mark_note_custom.
      * rewrite mark_close_start, mark_note_custom. done.
Qed.

Lemma mark_messages_arg custom delta index e : keeps_mark (messages_tool_arg custom delta index e) e.
Proof.
  unfold messages_tool_arg, keeps_mark. pose proof (mark_tool_enc index e) as M.
  destruct (tool_enc index e) as [enc e1]. unfold keeps_mark, push_custom in *. cbn [snd] in M.
  repeat case_match; cbn [snd]; simpl_fields; done.
Qed.

Lemma mark_messages_image media_type data e : keeps_mark (messages_image media_type data e) e.
Proof.
  unfold messages_image, keeps_mark. pose proof (mark_close_open e) as M. destruct (close_open e).
  cbn [take_block snd]. by simpl_fields.
Qed.

Lemma mark_messages_event custom ev e : keeps_mark (messages_event debug custom ev e) e.
Proof.
  assert (forall ev' w, (forall e', keeps_mark (w e') e') -> keeps_mark (unless_tool_open ev' w e) e) as U.
  { intros ev' w W. unfold unless_tool_open, keeps_mark, defer. destruct (tool_block_open e); cbn [snd quietly sends].
    - by simpl_fields. - apply W. }
  unfold keeps_mark in *.
  destruct ev; cbn [messages_event snd quietly sends]; try done; try (by simpl_fields);
    try (apply U; intros; apply mark_block_delta).
  - apply mark_messages_start. - apply mark_messages_arg. - apply mark_messages_image.
Qed.

Lemma mark_push_messages ev e : keeps_mark (push_messages debug ev e) e.
Proof.
  unfold push_messages, keeps_mark. set (ev' := custom_tool_as_function ev). set (e1 := messages_note ev' e).
  assert (enc_finished e1 = enc_finished e) as <- by (subst e1; destruct ev'; cbn [messages_note]; by simpl_fields).
  destruct (negb (enc_started e1)); [|apply mark_messages_event].
  destruct (waits_for_start ev'); [done|]. cbn [messages_begin].
  match goal with |- context [messages_event debug ?c ev' ?x] => pose proof (mark_messages_event c ev' x) as M end.
  destruct (messages_event _ _ _ _). unfold keeps_mark in M. cbn [snd] in *. simpl_fields_in M. exact M.
Qed.

Lemma mark_push_deferred evs e : keeps_mark (push_deferred debug evs e) e.
Proof.
  revert e. induction evs as [|ev evs IH]; intros e; cbn [push_deferred]; [done|].
  pose proof (mark_push_messages ev e) as M. destruct (push_messages debug ev e) as [r e1].
  specialize (IH e1). destruct (push_deferred debug evs e1). unfold keeps_mark in *. cbn [snd] in *. congruence.
Qed.

Lemma mark_messages_begin e : enc_finished (messages_begin e).2 = enc_finished e.
Proof. unfold messages_begin. cbn [snd]. by simpl_fields. Qed.

Lemma mark_taken e : enc_finished (messages_taken e) = enc_finished e.
Proof. unfold messages_taken. destruct (is_some _); by simpl_fields. Qed.

Lemma mark_finish_messages e : keeps_mark (finish_messages debug e) e.
Proof.
  unfold finish_messages, keeps_mark.
  assert (enc_finished (if enc_started e then ([], e) else messages_begin e).2 = enc_finished e) as M.
  { destruct (enc_started e); [done|apply mark_messages_begin]. }
  destruct (if enc_started e then _ else _) as [start e1]. cbn [snd] in M.
  pose proof (mark_close_open e1) as M1. destruct (close_open e1) as [closed e2].
  pose proof (mark_push_deferred (enc_deferred e2) (e2 <| enc_deferred := [] |>)) as M2.
  destruct (push_deferred _ _ _) as [late e3].
  pose proof (mark_close_open e3) as M3. destruct (close_open e3) as [last e4].
  unfold keeps_mark in *. cbn [snd] in *. rewrite mark_taken, M3, M2. simpl_fields. congruence.
Qed.
(** *** The other wires *)
Lemma mark_take_extra enc item e : keeps_mark (take_tool_extra enc item e) e.
Proof. unfold take_tool_extra, keeps_mark. destruct (bt_get _ _); cbn [snd]; by simpl_fields. Qed.

Lemma mark_close_call ty key index e : keeps_mark (close_call ty key index e) e.
Proof.
  unfold close_call, keeps_mark. destruct (enc_tool_items e !! index) as [[[id name] body]|]; [|done].
  rewrite mark_take_extra. by simpl_fields.
Qed.

Lemma mark_close_message index e : enc_finished (close_message index e).2 = enc_finished e.
Proof. unfold close_message. cbn [snd]. by simpl_fields. Qed.

Lemma mark_close_reasoning index e : keeps_mark (close_reasoning index e) e.
Proof. unfold close_reasoning, keeps_mark. cbn [snd]. by simpl_fields. Qed.

Lemma mark_close_item e : keeps_mark (close_item e) e.
Proof.
  unfold close_item, keeps_mark. destruct (enc_open e) as [[index kind]|]; [|done].
  assert (enc_finished (e <| enc_open := None |>) = enc_finished e) as <- by (by simpl_fields).
  generalize (e <| enc_open := None |>). clear e. intros e. destruct kind.
  - pose proof (mark_close_message index e) as M. by destruct (close_message index e) as [[done item] e'].
  - pose proof (mark_close_reasoning index e) as M. by destruct (close_reasoning index e).
  - pose proof (mark_close_call "function_call" "arguments" index e) as M. by destruct (close_call _ _ _ e).
  - pose proof (mark_close_call "custom_tool_call" "input" index e) as M. by destruct (close_call _ _ _ e).
Qed.

Lemma mark_flush_responses held e : keeps_mark (flush_responses_calls held e) e.
Proof.
  revert e. induction held as [|[enc []] held IH]; intros e; cbn [flush_responses_calls]; [done|].
  assert (keeps_mark (flush_responses_call enc e) e) as M.
  { unfold flush_responses_call, keeps_mark. destruct (enc_tool_items e !! enc) as [[[id name] args]|]; [|done].
    match goal with |- context [take_tool_extra enc ?i ?x] => pose proof (mark_take_extra enc i x) as M end.
    destruct (take_tool_extra _ _ _). unfold keeps_mark in M. cbn [snd] in *. simpl_fields_in M. exact M. }
  destruct (flush_responses_call enc e) as [out e1]. specialize (IH e1). destruct (flush_responses_calls held e1).
  unfold keeps_mark in *. cbn [snd] in *. congruence.
Qed.

Lemma mark_close_converse e : keeps_mark (close_converse e) e.
Proof.
  unfold close_converse, keeps_mark. destruct (enc_open e) as [[index kind]|]; [|done].
  pose proof (mark_take_custom index (e <| enc_open := None |>)) as M. destruct (take_custom_json _ _).
  unfold keeps_mark in M. cbn [snd] in *. simpl_fields_in M. exact M.
Qed.

Lemma mark_flush_converse held e : keeps_mark (flush_converse_calls debug held e) e.
Proof.
  revert e. induction held as [|[enc call] held IH]; intros e; cbn [flush_converse_calls]; [done|].
  assert (keeps_mark (flush_converse_call debug enc call e) e) as M.
  { unfold flush_converse_call, keeps_mark. cbn [Converse.encode].
    pose proof (mark_take_custom enc e) as M. by destruct (take_custom_json enc e). }
  destruct (flush_converse_call debug enc call e) as [[out|err] e1]; [|done].
  specialize (IH e1). destruct (flush_converse_calls debug held e1). unfold keeps_mark in *. cbn [snd] in *. congruence.
Qed.

Lemma finish_marks e : enc_finished (finish debug e).2 = true.
Proof.
  unfold finish. destruct (enc_finished e) eqn:F; [done|].
  set (e0 := e <| enc_finished := true |>). assert (enc_finished e0 = true) as F0 by (subst e0; by simpl_fields).
  destruct (enc_wire e0).
  - unfold finish_chat, chat_taken. cbn [snd]. destruct (is_some _); simpl_fields; done.
  - pose proof (mark_finish_messages e0) as M. destruct (finish_messages debug e0). unfold keeps_mark in M. cbn in *. congruence.
  - unfold finish_responses, flush_responses_held. pose proof (mark_close_item e0) as M.
    destruct (close_item e0) as [out e1].
    match goal with |- context [flush_responses_calls ?h ?x] => pose proof (mark_flush_responses h x) as M2 end.
    destruct (flush_responses_calls _ _). unfold keeps_mark in *. cbn [snd] in *. simpl_fields_all. congruence.
  - unfold finish_gemini, flush_gemini_calls. cbn [snd]. by simpl_fields.
  - unfold finish_converse, flush_converse_held. pose proof (mark_close_converse e0) as M.
    destruct (close_converse e0) as [out e1].
    match goal with |- context [flush_converse_calls debug ?h ?x] => pose proof (mark_flush_converse h x) as M2 end.
    destruct (flush_converse_calls debug _ _) as [[held|err] e2]; unfold keeps_mark in *; cbn [snd] in *; simpl_fields_all;
      congruence.
Qed.

(** Nothing comes after: no event and no second [finish] writes, fails or
    changes the state. *)
Definition closed_for_good (e : StreamEncoder) : Prop :=
  enc_finished e = true /\ finish debug e = (Ok [], e) /\ forall evs, push_all debug evs e = (Ok [], e).

(** [finish] closes the encoder for good, on every wire, in every state
    and also when it fails: afterwards any events and a second [finish]
    write nothing, report no error and change nothing. *)
Theorem encoder_silent_after_finish e : closed_for_good (finish debug e).2.
Proof.
  pose proof (finish_marks e) as F. set (e' := (finish debug e).2) in *. split; [done|]. split.
  - unfold finish. by rewrite F.
  - intros evs. induction evs as [|ev evs IH]; cbn [push_all]; [done|]. unfold push. rewrite F. by rewrite IH.
Qed.
End Marks.

(** ** The terminal frame *)
Section Terminal.
Context {SJ : SerdeJson} {SJL : SerdeJsonLaws} (debug : IrStreamEvent -> string).

Lemma converse_stop_terminal reason vendor :
  exists frame, encode_stream_event debug Converse (FinishReason reason vendor) = Ok frame
    /\ frame_is_terminal Converse frame = true.
Proof.
  assert (In (Converse.finish_reason reason) ["tool_use"; "max_tokens"; "content_filtered"; "stop_sequence";
            "guardrail_intervened"; "end_turn"]) as R.
  { unfold Converse.finish_reason. repeat case_match; cbn; tauto. }
  cbn [encode_stream_event]. eexists. split; [reflexivity|]. cbn [frame_is_terminal]. unfold converse_frame_is_terminal.
  cbn [raw_data]. cbn in R. repeat (destruct R as [<-|R]; [rewrite from_to by (by vm_compute); reflexivity|]). done.
Qed.

Lemma flush_converse_sends held e : exists out, (flush_converse_calls debug held e).1 = Ok out.
Proof.
  revert e. induction held as [|[enc call] held IH]; intros e; cbn [flush_converse_calls]; [by exists []|].
  unfold flush_converse_call. cbn [Converse.encode]. destruct (take_custom_json enc e) as [text e1].
  destruct (IH e1) as (rest & E). destruct (flush_converse_calls debug held e1) as [r e2]. cbn [fst] in *. subst r.
  by eexists.
Qed.

(** The end of the stream of [e]. *)
Definition ends_stream (e : StreamEncoder) : Prop :=
  exists out last, (finish debug e).1 = Ok (out ++ [last]) /\ frame_is_terminal (enc_wire e) last = true.

(** C24. A stream ends: whatever was written before, [finish] of a live encoder
    succeeds and its last frame is one the proxy takes as the end of the
    stream, on the Chat, Messages, Responses and Converse wires. *)
Theorem finish_is_terminal e : enc_finished e = false -> enc_wire e <> Gemini -> ends_stream e.
Proof.
  unfold ends_stream.
  intros F W. unfold finish. rewrite F. simpl_fields. set (e0 := e <| enc_finished := true |>).
  destruct (enc_wire e) eqn:Ew; try done.
  - unfold finish_chat. cbn [fst]. rewrite !map_app. cbn [map].
    rewrite app_assoc. eexists _, _. split; [reflexivity|].
    unfold attach_chat_dest_model. change (is_done (mkRawSse None "[DONE]")) with true. reflexivity.
  - unfold finish_messages. destruct (if enc_started e0 then _ else _) as [start e1].
    destruct (close_open e1) as [closed e2]. destruct (push_deferred _ _ _) as [late e3].
    destruct (close_open e3) as [last e4]. cbn [fst]. change [?a; ?b] with ([a] ++ [b]).
    rewrite !app_assoc. eexists _, _. split; [reflexivity|]. reflexivity.
  - unfold finish_responses. destruct (close_item e0) as [out e1]. destruct (flush_responses_held e1) as [held e2].
    cbn [fst]. rewrite app_assoc. eexists _, _. split; [reflexivity|].
    unfold responses_final. destruct (responses_terminal _) as [event status] eqn:T.
    unfold responses_terminal in T. by destruct (String.eqb _ "failed"); [|destruct (one_of _ _)]; injection T as <- <-.
  - unfold finish_converse. destruct (close_converse e0) as [out e1]. unfold flush_converse_held.
    match goal with |- context [flush_converse_calls debug ?h ?x] => destruct (flush_converse_sends h x) as (held & E) end.
    destruct (flush_converse_calls debug _ _) as [r e2]. cbn [fst] in E. subst r.
    destruct (converse_stop_terminal (unwrap_or (enc_finish e2) "end_turn") None) as (frame & -> & T).
    exists (out ++ held), frame. split; [by cbn; rewrite <- app_assoc|]. done.
Qed.
End Terminal.

(** ** Witnesses *)
Section Witnesses.
#[local] Existing Instance bits_codec.
#[local] Existing Instance bits_codec_laws.

Lemma finish_is_terminal_witness :
  exists out last, (finish (fun _ => "") (new Converse)).1 = Ok (out ++ [last]) /\ frame_is_terminal Converse last = true.
Proof. apply (finish_is_terminal (fun _ => "") (new Converse)); [reflexivity|discriminate]. Defined.
End Witnesses.
