(* ===== verification/Relay.v ===== *)
(** * Relay: the stream path of the proxy from one dialect to another

    crates/wiremux/src/proxy.rs: [MappedStream] puts the decoder, the tool-call
    assembler and the encoder of a response in a row, [map_sse_stream] feeds it
    the chunks of the upstream body and writes its frames, and
    [dest_error_json] is the error a client of each dialect understands.  The
    theorems compose the parts: what the client reads is the encoding of the
    assembled events of the upstream frames, however the network cut them. *)

From stdpp Require Import gmap.
From S2P Require Import Prelude Fields Text Json JsonCodec Sse EventStream Ir ProfileTypes StreamCore Usage Shapes Completion.
From S2P Require Import BTree Assembler EncoderCore StreamDecode Encoder.

(** ** Errors for the client *)

Definition error_code_char (ch : ascii) : bool := is_ascii_alphanumeric ch || Ascii.eqb ch "_".

Definition split_error_prefix (msg : string) : option string * string :=
  match split_once_str ": " msg with
  | Some (code, rest) =>
      if negb (is_empty code) && negb (is_empty rest) && forallb error_code_char (bytes_of_str code)
      then (Some code, rest) else (None, msg)
  | None => (None, msg)
  end.

Definition dest_error_json (from : Wire) (msg : string) : json :=
  match from with
  | Converse => jobj [("message", JStr msg)]
  | _ =>
      let '(code, text) := split_error_prefix msg in
      match from with
      | Messages =>
          jobj [("type", JStr "error");
                ("error", jobj [("type", JStr (unwrap_or code "api_error")); ("message", JStr text)])]
      | Responses =>
          jobj [("type", JStr "error"); ("message", JStr text); ("code", JStr (unwrap_or code "server_error"))]
      | Gemini =>
          jobj [("error", jobj [("message", JStr text); ("status", JStr (unwrap_or code "INTERNAL"))])]
      | _ =>
          jobj [("error", jobj [("type", JStr (unwrap_or code "server_error")); ("message", JStr text)])]
      end
  end.

Definition dest_stream_content_type (from : Wire) : string :=
  match from with Converse => "application/vnd.amazon.eventstream" | _ => "text/event-stream" end.

Section Bytes.
Context {SJ : SerdeJson}.

Definition dest_frame_bytes (from : Wire) (raw : RawSse) : list u8 :=
  match from with
  | Converse =>
      let event := frame_event_name from raw in
      encode_message event (unwrap_event_payload event (raw_data raw))
  | _ => bytes_of_str (format_sse raw)
  end.

Definition dest_error_bytes (from : Wire) (msg : string) : list u8 :=
  let data := to_string (dest_error_json from msg) in
  match from with
  | Converse => encode_exception_message "internalServerException" (bytes_of_str data)
  | _ => bytes_of_str (format_sse (mkRawSse (Some "error") data))
  end.

(** [event: error] with the JSON of the vendor on one line. *)
Definition same_wire_stream_error_event (body : list u8) : list u8 :=
  let data := match from_slice body with
              | Some value => to_string value
              | None => from_utf8_lossy body
              end in
  bytes_of_str (format_sse (mkRawSse (Some "error") data)).
End Bytes.

(** ** A mapped stream *)
Record MappedStream := mkMapped {
  ms_from : Wire;
  ms_target : Wire;
  ms_dialect : Dialect;
  ms_decoder : StreamDecoder;
  ms_assembler : ToolCallAssembler;
  ms_encoder : StreamEncoder;
  ms_saw_frame : bool;
  ms_saw_terminal : bool
}.

#[export] Instance mapped_eta : Eta MappedStream :=
  fun m => mkMapped (ms_from m) (ms_target m) (ms_dialect m) (ms_decoder m) (ms_assembler m) (ms_encoder m)
             (ms_saw_frame m) (ms_saw_terminal m).
#[export] Instance set_ms_from : Field ms_from := ltac:(derive_field).
#[export] Instance set_ms_target : Field ms_target := ltac:(derive_field).
#[export] Instance set_ms_dialect : Field ms_dialect := ltac:(derive_field).
#[export] Instance set_ms_decoder : Field ms_decoder := ltac:(derive_field).
#[export] Instance set_ms_assembler : Field ms_assembler := ltac:(derive_field).
#[export] Instance set_ms_encoder : Field ms_encoder := ltac:(derive_field).
#[export] Instance set_ms_saw_frame : Field ms_saw_frame := ltac:(derive_field).
#[export] Instance set_ms_saw_terminal : Field ms_saw_terminal := ltac:(derive_field).

Definition mapped_new (from target : Wire) (dialect : Dialect) (model : string) : MappedStream :=
  mkMapped from target dialect decoder_new assembler_new (with_model model (EncoderCore.new from)) false false.

Section Operations.
Context {SJ : SerdeJson} (parse_error : string -> string) (debug : IrStreamEvent -> string).

(** What [push] and [finish] of the encoder give, with an error as text. *)
Definition encode_text {A} (r : result MapError A) : result string A :=
  match r with Ok a => Ok a | Err err => Err ("encode stream: " +:+ map_error_fmt err) end.

(** Assembled events go to the encoder when the dialect has a slot for them;
    what was written stays when one of them fails. *)
Fixpoint push_events (from : Wire) (evs : list IrStreamEvent) (e : StreamEncoder) :
  list RawSse * option string * StreamEncoder :=
  match evs with
  | [] => ([], None, e)
  | ev :: evs =>
      if negb (event_has_slot from ev) then push_events from evs e
      else
        match Encoder.push debug ev e with
        | (Ok frames, e) => let '(out, err, e) := push_events from evs e in (frames ++ out, err, e)
        | (Err err, e) => ([], Some ("encode stream: " +:+ map_error_fmt err), e)
        end
  end.

(** [for ev in events.into_iter().flat_map(|ev| self.assembler.push(ev))] *)
Fixpoint push_decoded (evs : list IrStreamEvent) (m : MappedStream) : list RawSse * option string * MappedStream :=
  match evs with
  | [] => ([], None, m)
  | ev :: evs =>
      let '(a, assembled) := Assembler.push (ms_assembler m) ev in
      let '(out, err, e) := push_events (ms_from m) assembled (ms_encoder m) in
      let m := m <| ms_assembler := a |> <| ms_encoder := e |> in
      match err with
      | Some err => (out, Some err, m)
      | None => let '(rest, err, m) := push_decoded evs m in (out ++ rest, err, m)
      end
  end.

Definition decode_error_text (target : Wire) (raw : RawSse) (err : MapError) : string :=
  if wire_eqb target Responses && String.eqb (frame_event_name target raw) "response.failed"
  then map_error_fmt err
  else "decode stream: " +:+ map_error_fmt err.

Definition push_frame (raw : RawSse) (m : MappedStream) : list RawSse * option string * MappedStream :=
  let m := m <| ms_saw_frame := true |> in
  let m := if frame_is_terminal (ms_target m) raw then m <| ms_saw_terminal := true |> else m in
  match sse_wrapped_error_message (raw_data raw) with
  | Some msg => ([], Some msg, m)
  | None =>
      let '(d, decoded) := decoder_decode parse_error (ms_decoder m) (ms_target m) raw (ms_dialect m) in
      let m := m <| ms_decoder := d |> in
      match decoded with
      | Err err => ([], Some (decode_error_text (ms_target m) raw err), m)
      | Ok events => push_decoded events m
      end
  end.

(** Encoded frames, then an error from a later frame in this batch. *)
Fixpoint push_frames (frames : list RawSse) (m : MappedStream) : list RawSse * option string * MappedStream :=
  match frames with
  | [] => ([], None, m)
  | raw :: frames =>
      let '(out, err, m) := push_frame raw m in
      match err with
      | Some err => (out, Some err, m)
      | None => let '(rest, err, m) := push_frames frames m in (out ++ rest, err, m)
      end
  end.

Definition take_assembler_tail (m : MappedStream) : result string (list RawSse) * MappedStream :=
  let '(a, held) := Assembler.flush (ms_assembler m) in
  let '(out, err, e) := push_events (ms_from m) held (ms_encoder m) in
  (match err with Some err => Err err | None => Ok out end,
   m <| ms_assembler := a |> <| ms_encoder := e |>).

(** No terminal event includes an empty body and HTML labeled as
    event-stream. *)
Definition finish_encoder (m : MappedStream) : result string (list RawSse) * MappedStream :=
  if negb (ms_saw_terminal m) then (Err INCOMPLETE_STREAM_MESSAGE, m)
  else
    let '(last, e) := Encoder.finish debug (ms_encoder m) in
    (encode_text last, m <| ms_encoder := e |>).

(** ** The task that maps a body

    Items of the body are chunks or the text of a transport error.  What is
    sent is the sequence of chunks the client reads; a client that goes away
    reads a prefix.  The second component is the state to go on with, unless
    the task returned; [None] is a panic. *)
Definition Sending (S : Type) : Type := list (list u8) * option S.

Definition send_frames (from : Wire) (frames : list RawSse) : list (list u8) := map (dest_frame_bytes from) frames.

Definition emit_mapped (frames : list RawSse) (m : MappedStream) : Sending MappedStream :=
  let '(out, err, m) := push_frames frames m in
  match err with
  | Some err => (send_frames (ms_from m) out ++ [dest_error_bytes (ms_from m) err], None)
  | None => (send_frames (ms_from m) out, Some m)
  end.

Definition map_chunk (bytes : list u8) (u : UpstreamFrames) (m : MappedStream) :
  option (Sending (UpstreamFrames * MappedStream)) :=
  '(u, res) ← frames_feed u bytes;
  Some match res with
       | Err err => ([dest_error_bytes (ms_from m) err], None)
       | Ok (frames, terminal) =>
           let '(sent, m') := emit_mapped frames m in
           match m' with
           | None => (sent, None)
           | Some m' =>
               match terminal with
               | Some err => (sent ++ [dest_error_bytes (ms_from m) err], None)
               | None => (sent, Some (u, m'))
               end
           end
       end.

Fixpoint map_chunks (items : list (result string (list u8))) (u : UpstreamFrames) (m : MappedStream) :
  option (Sending (UpstreamFrames * MappedStream)) :=
  match items with
  | [] => Some ([], Some (u, m))
  | Err err :: _ => Some ([dest_error_bytes (ms_from m) err], None)
  | Ok bytes :: items =>
      '(sent, next) ← map_chunk bytes u m;
      match next with
      | None => Some (sent, None)
      | Some (u, m) => '(rest, next) ← map_chunks items u m; Some (sent ++ rest, next)
      end
  end.

(** After the last chunk: the open frame, the held calls, the end. *)
Definition map_end (u : UpstreamFrames) (m : MappedStream) : list (list u8) :=
  let error err := [dest_error_bytes (ms_from m) err] in
  let close m :=
    match take_assembler_tail m with
    | (Err err, _) => error err
    | (Ok frames, m) =>
        send_frames (ms_from m) frames
        ++ match (finish_encoder m).1 with
           | Ok last => send_frames (ms_from m) last
           | Err err => error err
           end
    end in
  match (frames_finish u).2 with
  | Ok (Some last) =>
      let '(sent, m) := emit_mapped [last] m in
      sent ++ match m with Some m => close m | None => [] end
  | Ok None => close m
  | Err err => error err
  end.

Definition map_sse_stream (from target : Wire) (dialect : Dialect) (model : string)
    (items : list (result string (list u8))) : option (list (list u8)) :=
  '(sent, next) ← map_chunks items (for_wire target) (mapped_new from target dialect model);
  Some (sent ++ match next with Some (u, m) => map_end u m | None => [] end).
End Operations.

(** ** Running without an error *)
Section Composition.
Context {SJ : SerdeJson} (parse_error : string -> string) (debug : IrStreamEvent -> string).

Lemma push_all_app xs ys e :
  Encoder.push_all debug (xs ++ ys) e =
  match Encoder.push_all debug xs e with
  | (Err err, e) => (Err err, e)
  | (Ok out, e) => let '(rest, e) := Encoder.push_all debug ys e in (rmap (app out) rest, e)
  end.
Proof.
  revert e. induction xs as [|ev xs IH]; intros e; cbn [Encoder.push_all app].
  { by destruct (Encoder.push_all debug ys e) as [[out|err] e']. }
  destruct (Encoder.push debug ev e) as [[out|err] e1]; [|done]. rewrite IH.
  destruct (Encoder.push_all debug xs e1) as [[o1|err] e2]; [|done].
  destruct (Encoder.push_all debug ys e2) as [[o2|err] e3]; cbn [rmap]; [|done]. by rewrite app_assoc.
Qed.

(** Pushing a list that goes through splits at every place. *)
Lemma push_all_app_ok xs ys e out e' :
  Encoder.push_all debug (xs ++ ys) e = (Ok out, e') ->
  exists o1 e1 o2, Encoder.push_all debug xs e = (Ok o1, e1) /\ Encoder.push_all debug ys e1 = (Ok o2, e')
    /\ out = o1 ++ o2.
Proof.
  rewrite push_all_app. destruct (Encoder.push_all debug xs e) as [[o1|err] e1]; [|done].
  destruct (Encoder.push_all debug ys e1) as [[o2|err] e2] eqn:E2; [|done]. intros [= <- <-]. by eexists _, _, _.
Qed.

Definition slotted (from : Wire) (evs : list IrStreamEvent) : list IrStreamEvent :=
  List.filter (event_has_slot from) evs.

Lemma slotted_app from xs ys : slotted from (xs ++ ys) = slotted from xs ++ slotted from ys.
Proof. apply List.filter_app. Qed.

Lemma push_events_ok from evs e out e' :
  Encoder.push_all debug (slotted from evs) e = (Ok out, e') -> push_events debug from evs e = (out, None, e').
Proof.
  revert e out. induction evs as [|ev evs IH]; intros e out; cbn [push_events slotted List.filter].
  { cbn [Encoder.push_all]. by intros [= <- <-]. }
  destruct (event_has_slot from ev); cbn [negb]; [|apply IH]. cbn [Encoder.push_all].
  destruct (Encoder.push debug ev e) as [[o|err] e1]; [|done].
  destruct (Encoder.push_all debug _ e1) as [[rest|err] e2] eqn:R; [|done]. intros [= <- <-].
  by rewrite (IH _ _ R).
Qed.

Lemma push_decoded_ok evs m out e' :
  Encoder.push_all debug (slotted (ms_from m) (Assembler.push_all (ms_assembler m) evs).2) (ms_encoder m) = (Ok out, e') ->
  push_decoded debug evs m
  = (out, None, m <| ms_assembler := (Assembler.push_all (ms_assembler m) evs).1 |> <| ms_encoder := e' |>).
Proof.
  revert m out. induction evs as [|ev evs IH]; intros m out; cbn [push_decoded Assembler.push_all].
  { cbn [snd fst slotted List.filter Encoder.push_all]. intros [= <- <-]. by destruct m. }
  destruct (Assembler.push (ms_assembler m) ev) as [a assembled].
  destruct (Assembler.push_all a evs) as [a' rest] eqn:A. cbn [fst snd]. rewrite slotted_app. intros H.
  destruct (push_all_app_ok _ _ _ _ _ H) as (o1 & e1 & o2 & H1 & H2 & ->).
  rewrite (push_events_ok _ _ _ _ _ H1). erewrite IH by (simpl_fields; rewrite A; exact H2).
  simpl_fields. rewrite A. cbn [fst]. by destruct m.
Qed.

(** A frame whose JSON is not a vendor error. *)
Definition unwrapped (raw : RawSse) : bool := is_none (sse_wrapped_error_message (raw_data raw)).

(** The state after frames that go through. *)
Definition after (frames : list RawSse) (d : StreamDecoder) (a : ToolCallAssembler) (e : StreamEncoder)
    (m : MappedStream) : MappedStream :=
  mkMapped (ms_from m) (ms_target m) (ms_dialect m) d a e
    (ms_saw_frame m || negb (bool_decide (frames = [])))
    (ms_saw_terminal m || existsb (frame_is_terminal (ms_target m)) frames).

Lemma assembler_push_all_app a xs ys :
  Assembler.push_all a (xs ++ ys)
  = let '(a1, o1) := Assembler.push_all a xs in let '(a2, o2) := Assembler.push_all a1 ys in (a2, o1 ++ o2).
Proof.
  revert a. induction xs as [|x xs IH]; intros a; cbn [Assembler.push_all app]; [by destruct (Assembler.push_all a ys)|].
  destruct (Assembler.push a x) as [a1 o1]. rewrite IH. destruct (Assembler.push_all a1 xs) as [a2 o2].
  destruct (Assembler.push_all a2 ys) as [a3 o3]. by rewrite app_assoc.
Qed.

Lemma push_frames_ok frames m d evs out e' :
  forallb unwrapped frames = true ->
  decode_stream parse_error (ms_decoder m) (ms_target m) frames (ms_dialect m) = (d, Ok evs) ->
  Encoder.push_all debug (slotted (ms_from m) (Assembler.push_all (ms_assembler m) evs).2) (ms_encoder m) = (Ok out, e') ->
  push_frames parse_error debug frames m
  = (out, None, after frames d (Assembler.push_all (ms_assembler m) evs).1 e' m).
Proof.
  revert m evs out. induction frames as [|raw frames IH]; intros m evs out; cbn [forallb decode_stream push_frames].
  { intros _ [= <- <-]. cbn. intros [= <- <-]. unfold after. rewrite !orb_false_r. by destruct m. }
  intros [U Us]%andb_true_iff. unfold push_frame, unwrapped in *.
  destruct (sse_wrapped_error_message (raw_data raw)); [done|].
  set (m1 := m <| ms_saw_frame := true |>).
  set (m2 := if frame_is_terminal (ms_target m1) raw then m1 <| ms_saw_terminal := true |> else m1).
  assert (m2 = mkMapped (ms_from m) (ms_target m) (ms_dialect m) (ms_decoder m) (ms_assembler m) (ms_encoder m) true
                 (ms_saw_terminal m || frame_is_terminal (ms_target m) raw)) as ->.
  { subst m2 m1. destruct m as [f t di de a e sf st]. cbv [over set_ms_saw_frame set_ms_saw_terminal]. cbn.
    destruct (frame_is_terminal t raw); [rewrite orb_true_r|rewrite orb_false_r]; reflexivity. }
  clear m1. cbn [ms_decoder ms_target ms_dialect]. destruct (decoder_decode _ _ _ _ _) as [d1 [events|err]]; [|done].
  destruct (decode_stream _ d1 _ frames _) as [d2 [rest|err]] eqn:D2; cbn [rmap]; [|done]. intros [= <- <-] E.
  rewrite assembler_push_all_app in E |- *.
  destruct (Assembler.push_all (ms_assembler m) events) as [a1 o1] eqn:A1.
  destruct (Assembler.push_all a1 rest) as [a2 o2] eqn:A2. cbn [fst snd] in *. rewrite slotted_app in E.
  destruct (push_all_app_ok _ _ _ _ _ E) as (out1 & e1 & out2 & E1 & E2 & ->).
  erewrite push_decoded_ok; [|simpl_fields; cbn [ms_from ms_assembler ms_encoder]; rewrite A1; exact E1].
  erewrite (IH _ rest out2); [|exact Us|simpl_fields; cbn; exact D2|simpl_fields; cbn; rewrite A1; cbn [fst]; rewrite A2; exact E2].
  unfold after. simpl_fields. cbn. rewrite A1. cbn [fst]. rewrite A2. cbn. by rewrite orb_assoc, orb_true_r.
Qed.
Lemma push_frames_app xs ys m :
  push_frames parse_error debug (xs ++ ys) m =
  match push_frames parse_error debug xs m with
  | (out, Some err, m) => (out, Some err, m)
  | (out, None, m) => let '(rest, err, m) := push_frames parse_error debug ys m in (out ++ rest, err, m)
  end.
Proof.
  revert m. induction xs as [|raw xs IH]; intros m; cbn [push_frames app].
  { by destruct (push_frames _ _ ys m) as [[out err] m']. }
  destruct (push_frame _ _ raw m) as [[out [err|]] m1]; [done|]. rewrite IH.
  destruct (push_frames _ _ xs m1) as [[o1 [err|]] m2]; [done|].
  destruct (push_frames _ _ ys m2) as [[o2 err] m3]. by rewrite app_assoc.
Qed.

(** What a stream is between never changes. *)
Definition same_route (m m' : MappedStream) : Prop :=
  ms_from m' = ms_from m /\ ms_target m' = ms_target m /\ ms_dialect m' = ms_dialect m.

Lemma push_decoded_route evs m : same_route m (push_decoded debug evs m).2.
Proof.
  revert m. induction evs as [|ev evs IH]; intros m; cbn [push_decoded]; [done|].
  destruct (Assembler.push _ ev) as [a assembled]. destruct (push_events _ _ _ _) as [[out [err|]] e].
  - cbn [snd]. unfold same_route. by simpl_fields.
  - specialize (IH (m <| ms_assembler := a |> <| ms_encoder := e |>)).
    destruct (push_decoded debug evs _) as [[rest err] m']. cbn [snd] in *. unfold same_route in *.
    by simpl_fields_in IH.
Qed.

Lemma push_frame_route raw m : same_route m (push_frame parse_error debug raw m).2.
Proof.
  unfold push_frame. set (m1 := if frame_is_terminal _ raw then _ else _).
  assert (same_route m m1) as R by (subst m1; destruct (frame_is_terminal _ _); unfold same_route; by simpl_fields).
  destruct (sse_wrapped_error_message _); [done|]. destruct (decoder_decode _ _ _ _ _) as [d [events|err]].
  - pose proof (push_decoded_route events (m1 <| ms_decoder := d |>)) as R2. unfold same_route in *.
    simpl_fields_in R2. destruct R as (? & ? & ?), R2 as (? & ? & ?). split_and!; congruence.
  - cbn [snd]. unfold same_route in *. by simpl_fields.
Qed.

Lemma push_frames_route frames m : same_route m (push_frames parse_error debug frames m).2.
Proof.
  revert m. induction frames as [|raw frames IH]; intros m; cbn [push_frames]; [done|].
  pose proof (push_frame_route raw m) as R. destruct (push_frame _ _ raw m) as [[out [err|]] m1]; [done|].
  specialize (IH m1). destruct (push_frames _ _ frames m1) as [[rest err] m2]. cbn [snd] in *.
  destruct R as (? & ? & ?), IH as (? & ? & ?). split_and!; congruence.
Qed.

(** Every cut of a body into chunks sends the same bytes. *)
Lemma map_chunks_ok chunks u u' m m' frames out :
  fr_feed_chunks u chunks = Some (u', Ok (frames, None)) ->
  push_frames parse_error debug frames m = (out, None, m') ->
  exists sent, map_chunks parse_error debug (map Ok chunks) u m = Some (sent, Some (u', m'))
    /\ concat sent = concat (send_frames (ms_from m) out).
Proof.
  revert u m frames out. induction chunks as [|c chunks IH]; intros u m frames out; cbn [fr_feed_chunks].
  { intros [= <- <-]. cbn [push_frames]. intros [= <- <-]. by exists []. }
  cbn [fr_feed upstream_frame_reader map map_chunks]. unfold map_chunk.
  destruct (frames_feed u c) as [[u1 [[o1 [err|]]|err]]|]; [done| |done|done].
  destruct (fr_feed_chunks u1 chunks) as [[u2 res]|] eqn:F; [|done]. cbn [mbind option_bind].
  destruct res as [[o2 t]|err]; [|done]. intros [= <- <- ->]. rewrite push_frames_app. unfold emit_mapped.
  pose proof (push_frames_route o1 m) as R.
  destruct (push_frames _ _ o1 m) as [[out1 [err|]] m1]; [done|]. cbn [snd] in R.
  destruct (push_frames _ _ o2 m1) as [[out2 [err|]] m2] eqn:P2; [done|]. intros [= <- <-].
  destruct (IH u1 m1 o2 out2 F P2) as (sent & E & C). rewrite E. cbn [mbind option_bind].
  eexists. split; [reflexivity|]. rewrite concat_app, C. unfold send_frames. rewrite map_app, concat_app.
  by destruct R as (-> & _).
Qed.

(** The frames of a body: those read, and the one left open at its end. *)
Definition body_frames (target : Wire) (body : list u8) : option (list RawSse) :=
  match frames_feed (for_wire target) body with
  | Some (u, Ok (frames, None)) =>
      match (frames_finish u).2 with Ok last => Some (frames ++ push_opt (fun f => f) last) | Err _ => None end
  | _ => None
  end.

(** The end of a stream that goes through. *)
Lemma map_end_ok u m last d evs out e' :
  (frames_finish u).2 = Ok last ->
  forallb unwrapped (push_opt (fun f => f) last) = true ->
  decode_stream parse_error (ms_decoder m) (ms_target m) (push_opt (fun f => f) last) (ms_dialect m) = (d, Ok evs) ->
  let '(a, assembled) := Assembler.push_all (ms_assembler m) evs in
  encode_all debug (slotted (ms_from m) (assembled ++ (Assembler.flush a).2)) (ms_encoder m) = (Ok out, e') ->
  ms_saw_terminal m || existsb (frame_is_terminal (ms_target m)) (push_opt (fun f => f) last) = true ->
  concat (map_end parse_error debug u m) = concat (send_frames (ms_from m) out).
Proof.
  intros L U D. destruct (Assembler.push_all (ms_assembler m) evs) as [a assembled] eqn:A.
  unfold encode_all. rewrite slotted_app. intros E T.
  destruct (Encoder.push_all debug _ (ms_encoder m)) as [[o|err] e1] eqn:P; [|done].
  destruct (push_all_app_ok _ _ _ _ _ P) as (o1 & e0 & o2 & P1 & P2 & ->).
  destruct (Encoder.finish debug e1) as [[o3|err] e3] eqn:F; [|done]. cbn [rmap] in E. injection E as <- <-.
  assert (push_frames parse_error debug (push_opt (fun f => f) last) m
          = (o1, None, after (push_opt (fun f => f) last) d a e0 m)) as PF.
  { erewrite push_frames_ok by (exact U || exact D || (rewrite A; exact P1)). by rewrite A. }
  set (m1 := after (push_opt (fun f => f) last) d a e0 m) in *.
  assert (concat (match take_assembler_tail debug m1 with
    | (Err err, _) => [dest_error_bytes (ms_from m) err]
    | (Ok frames, m') => send_frames (ms_from m') frames
        ++ match (finish_encoder debug m').1 with
           | Ok last => send_frames (ms_from m') last
           | Err err => [dest_error_bytes (ms_from m) err]
           end
    end) = concat (send_frames (ms_from m) (o2 ++ o3))) as Close.
  { unfold take_assembler_tail, m1, after. cbn [ms_assembler ms_from ms_encoder].
    destruct (Assembler.flush a) as [a' held]. cbn [snd] in P2. rewrite (push_events_ok _ _ _ _ _ P2).
    unfold finish_encoder. simpl_fields. cbn [ms_saw_terminal ms_from]. rewrite T. cbn [negb]. rewrite F.
    cbn [fst encode_text]. unfold send_frames. by rewrite map_app. }
  unfold map_end. rewrite L. unfold send_frames in *. rewrite <- app_assoc, map_app, concat_app.
  destruct last as [raw|]; cbn [push_opt] in *.
  - unfold emit_mapped. rewrite PF. cbn [fst snd]. rewrite concat_app. f_equal; exact Close.
  - cbn [push_frames] in PF. injection PF as <- PM. cbn [map concat app]. rewrite <- PM in Close. exact Close.
Qed.
(** The events of a body, decoded and assembled, that the dialect [from] has
    a slot for; [None] where a step reports an error or no frame ends the
    stream. *)
Definition relayed_events (from target : Wire) (dialect : Dialect) (body : list u8) : option (list IrStreamEvent) :=
  match body_frames target body with
  | None => None
  | Some frames =>
      if forallb unwrapped frames && existsb (frame_is_terminal target) frames
      then match (decode_stream parse_error decoder_new target frames dialect).2 with
           | Ok evs => Some (slotted from (assemble evs))
           | Err _ => None
           end
      else None
  end.

Lemma decode_stream_app d xs ys target dialect d2 evs :
  decode_stream parse_error d target (xs ++ ys) dialect = (d2, Ok evs) ->
  exists d1 ev1 ev2, decode_stream parse_error d target xs dialect = (d1, Ok ev1)
    /\ decode_stream parse_error d1 target ys dialect = (d2, Ok ev2) /\ evs = ev1 ++ ev2.
Proof.
  revert d evs. induction xs as [|raw xs IH]; intros d evs; cbn [app decode_stream]; [by eexists _, [], _|].
  destruct (decoder_decode _ _ _ _ _) as [d1 [events|err]]; [|done].
  destruct (decode_stream _ d1 _ (xs ++ ys) _) as [d3 [rest|err]] eqn:D; cbn [rmap]; [|done]. intros [= <- <-].
  destruct (IH _ _ D) as (d4 & ev1 & ev2 & -> & D2 & ->). cbn [rmap]. eexists _, _, _. split_and!; [done|exact D2|].
  by rewrite app_assoc.
Qed.

(** The relay is its parts in a row. *)
Lemma map_sse_stream_ok from target dialect model chunks evs out e :
  relayed_events from target dialect (concat chunks) = Some evs ->
  encode_all debug evs (with_model model (EncoderCore.new from)) = (Ok out, e) ->
  exists sent, map_sse_stream parse_error debug from target dialect model (map Ok chunks) = Some sent
    /\ concat sent = concat (send_frames from out).
Proof.
  unfold relayed_events, body_frames.
  destruct (frames_feed _ _) as [[u [[frames [err|]]|err]]|] eqn:Fd; [done| |done|done].
  destruct ((frames_finish u).2) as [last|err] eqn:L; [|done].
  destruct (forallb unwrapped _ && _) eqn:UT; [|done]. apply andb_true_iff in UT as [U T].
  destruct (decode_stream _ _ _ _ _) as [d [decoded|err]] eqn:D; cbn [snd]; [|done]. intros [= <-] E.
  destruct (decode_stream_app _ _ _ _ _ _ _ D) as (d1 & ev1 & ev2 & D1 & D2 & ->).
  rewrite forallb_app in U. apply andb_true_iff in U as [U1 U2]. rewrite existsb_app in T.
  unfold assemble in E. rewrite assembler_push_all_app in E.
  set (m0 := mapped_new from target dialect model).
  destruct (Assembler.push_all assembler_new ev1) as [a1 as1] eqn:A1.
  destruct (Assembler.push_all a1 ev2) as [a2 as2] eqn:A2.
  rewrite <- app_assoc, slotted_app in E. unfold encode_all in E.
  destruct (Encoder.push_all debug _ _) as [[o|err] e1] eqn:P; [|done].
  destruct (push_all_app_ok _ _ _ _ _ P) as (o1 & e0 & o2 & P1 & P2 & ->).
  destruct (Encoder.finish debug e1) as [[o3|err] e3] eqn:F; cbn [rmap] in E; [|done]. injection E as <- <-.
  assert (push_frames parse_error debug frames m0 = (o1, None, after frames d1 a1 e0 m0)) as PF.
  { erewrite push_frames_ok by (exact U1 || exact D1 || (cbn; rewrite A1; exact P1)). cbn. by rewrite A1. }
  destruct (map_chunks_ok chunks (for_wire target) u m0 (after frames d1 a1 e0 m0) frames o1) as (sent & M & C); [|exact PF|].
  { apply fr_feed_chunks_concat; [apply for_wire_ok|]. exact Fd. }
  unfold map_sse_stream. fold m0. rewrite M. cbn [mbind option_bind]. eexists. split; [reflexivity|].
  rewrite concat_app, C. pose proof (map_end_ok u (after frames d1 a1 e0 m0) last d ev2 (o2 ++ o3) e3 L U2 D2) as K.
  cbn [after ms_assembler ms_from ms_encoder ms_saw_terminal ms_target] in K. rewrite A2 in K.
  rewrite K.
  - cbn. unfold send_frames. rewrite !map_app, !concat_app. by rewrite app_assoc.
  - unfold encode_all. cbn [m0 mapped_new ms_from]. rewrite P2, F. done.
  - exact T.
Qed.
(** C1. The relay is the composition of its parts and nothing else: when no
    frame of the upstream body is an error and one of them ends the stream, the
    bytes sent to the client are the encoding of the assembled events of the
    decoded frames, however the network cut the body into chunks. *)
Theorem relay_composes from target dialect model chunks evs out e :
  relayed_events from target dialect (concat chunks) = Some evs ->
  encode_all debug evs (with_model model (EncoderCore.new from)) = (Ok out, e) ->
  option_map (@concat u8) (map_sse_stream parse_error debug from target dialect model (map Ok chunks))
  = Some (concat (send_frames from out)).
Proof. intros R E. destruct (map_sse_stream_ok _ _ _ _ _ _ _ _ R E) as (sent & -> & <-). done. Qed.

(** ** The end the client sees *)

(** The frames the reader gives for the items of a body. *)
Fixpoint frames_read (items : list (result string (list u8))) (u : UpstreamFrames) : list RawSse :=
  match items with
  | [] => match (frames_finish u).2 with Ok (Some last) => [last] | _ => [] end
  | Err _ :: _ => []
  | Ok bytes :: items =>
      match frames_feed u bytes with
      | Some (u, Ok (frames, None)) => frames ++ frames_read items u
      | Some (_, Ok (frames, Some _)) => frames
      | _ => []
      end
  end.

Lemma push_decoded_terminal evs m : ms_saw_terminal (push_decoded debug evs m).2 = ms_saw_terminal m.
Proof.
  revert m. induction evs as [|ev evs IH]; intros m; cbn [push_decoded]; [done|].
  destruct (Assembler.push _ ev) as [a assembled]. destruct (push_events _ _ _ _) as [[out [err|]] e].
  - cbn [snd]. by simpl_fields.
  - specialize (IH (m <| ms_assembler := a |> <| ms_encoder := e |>)).
    destruct (push_decoded debug evs _) as [[rest err] m']. cbn [snd] in *. by simpl_fields_in IH.
Qed.

Lemma push_frame_terminal raw m :
  ms_saw_terminal (push_frame parse_error debug raw m).2 = true ->
  ms_saw_terminal m = true \/ frame_is_terminal (ms_target m) raw = true.
Proof.
  unfold push_frame. simpl_fields. destruct (frame_is_terminal (ms_target m) raw); [by right|].
  destruct (sse_wrapped_error_message _); [cbn [snd]; simpl_fields; by left|].
  destruct (decoder_decode _ _ _ _ _) as [d [events|err]].
  - rewrite push_decoded_terminal. simpl_fields. by left.
  - cbn [snd]. simpl_fields. by left.
Qed.

Lemma push_frames_terminal frames m :
  ms_saw_terminal (push_frames parse_error debug frames m).2 = true ->
  ms_saw_terminal m = true \/ existsb (frame_is_terminal (ms_target m)) frames = true.
Proof.
  revert m. induction frames as [|raw frames IH]; intros m; cbn [push_frames existsb]; [by left|].
  pose proof (push_frame_terminal raw m) as T. pose proof (push_frame_route raw m) as (_ & R & _).
  destruct (push_frame _ _ raw m) as [[out [err|]] m1]; cbn [snd] in *.
  - intros H. destruct (T H) as [| ->]; [by left|by right].
  - specialize (IH m1). destruct (push_frames _ _ frames m1) as [[rest err] m2]. cbn [snd] in *.
    intros H. destruct (IH H) as [H1|H1]; [destruct (T H1) as [| ->]; [by left|by right]|].
    right. rewrite R in H1. rewrite H1. apply orb_true_r.
Qed.

(** What was sent ends with an error event. *)
Definition ends_in_error (from : Wire) (sent : list (list u8)) : Prop :=
  exists pre msg, sent = pre ++ [dest_error_bytes from msg].

Lemma ends_in_error_app from xs ys : ends_in_error from ys -> ends_in_error from (xs ++ ys).
Proof. intros (pre & msg & ->). exists (xs ++ pre), msg. by rewrite app_assoc. Qed.

Lemma ends_in_error_one from msg : ends_in_error from [dest_error_bytes from msg].
Proof. by exists [], msg. Qed.

(** Either the frames go through, or the last thing sent is an error. *)
Lemma emit_mapped_end frames m :
  let '(sent, next) := emit_mapped parse_error debug frames m in
  match next with
  | None => ends_in_error (ms_from m) sent
  | Some m' => same_route m m' /\
      (ms_saw_terminal m' = true -> ms_saw_terminal m = true \/ existsb (frame_is_terminal (ms_target m)) frames = true)
  end.
Proof.
  unfold emit_mapped. pose proof (push_frames_route frames m) as R. pose proof (push_frames_terminal frames m) as T.
  destruct (push_frames _ _ frames m) as [[out [err|]] m']; cbn [snd] in *; [|done].
  destruct R as (-> & _). apply ends_in_error_app, ends_in_error_one.
Qed.

Lemma map_end_end u m :
  ends_in_error (ms_from m) (map_end parse_error debug u m) \/ ms_saw_terminal m = true
  \/ existsb (frame_is_terminal (ms_target m)) (frames_read [] u) = true.
Proof.
  unfold map_end. cbn [frames_read].
  assert (forall m', same_route m m' -> ms_saw_terminal m' = false ->
    ends_in_error (ms_from m) (match take_assembler_tail debug m' with
      | (Err err, _) => [dest_error_bytes (ms_from m) err]
      | (Ok frames, m0) => send_frames (ms_from m0) frames
          ++ match (finish_encoder debug m0).1 with
             | Ok last => send_frames (ms_from m0) last
             | Err err => [dest_error_bytes (ms_from m) err]
             end
      end)) as Close.
  { intros m' (F & _) S. unfold take_assembler_tail. destruct (Assembler.flush _) as [a held].
    destruct (push_events _ _ _ _) as [[out [err|]] e]; [apply ends_in_error_one|].
    apply ends_in_error_app. unfold finish_encoder. simpl_fields. rewrite S. cbn [negb fst]. apply ends_in_error_one. }
  destruct ((frames_finish u).2) as [[raw|]|err]; [| |left; apply ends_in_error_one].
  - pose proof (emit_mapped_end [raw] m) as E. destruct (emit_mapped _ _ [raw] m) as [sent [m'|]].
    + destruct E as [R T]. destruct (ms_saw_terminal m') eqn:S; [right; by apply T|].
      left. apply ends_in_error_app. by apply Close.
    + left. by rewrite app_nil_r.
  - destruct (ms_saw_terminal m) eqn:S; [by right; left|]. left. by apply Close.
Qed.

Lemma map_chunks_end items u m sent next :
  map_chunks parse_error debug items u m = Some (sent, next) ->
  ends_in_error (ms_from m) (sent ++ match next with Some (u, m) => map_end parse_error debug u m | None => [] end)
  \/ ms_saw_terminal m = true \/ existsb (frame_is_terminal (ms_target m)) (frames_read items u) = true.
Proof.
  revert u m sent next. induction items as [|[bytes|err] items IH]; intros u m sent next; cbn [map_chunks].
  { intros [= <- <-]. apply map_end_end. }
  2: { intros [= <- <-]. left. rewrite app_nil_r. apply ends_in_error_one. }
  cbn [frames_read]. unfold map_chunk. destruct (frames_feed u bytes) as [[u1 [[frames t]|err]]|]; [| |done].
  2: { intros [= <- <-]. left. rewrite app_nil_r. apply ends_in_error_one. }
  cbn [mbind option_bind]. pose proof (emit_mapped_end frames m) as E.
  destruct (emit_mapped _ _ frames m) as [out [m1|]].
  2: { intros [= <- <-]. left. by rewrite app_nil_r. }
  destruct E as [(F & Tg & _) T]. destruct t as [err|].
  { intros [= <- <-]. left. rewrite app_nil_r. apply ends_in_error_app, ends_in_error_one. }
  destruct (map_chunks _ _ items u1 m1) as [[rest n]|] eqn:M; [|done]. cbn [mbind option_bind]. intros [= <- <-].
  rewrite <- app_assoc, existsb_app. destruct (IH _ _ _ _ M) as [H|[H|H]].
  - left. apply ends_in_error_app. by rewrite <- F.
  - right. destruct (T H) as [| ->]; [by left|by right].
  - right; right. rewrite Tg in H. rewrite H. apply orb_true_r.
Qed.

Lemma frames_feed_returns u bytes : exists r, frames_feed u bytes = Some r.
Proof.
  destruct u as [r|r]; cbn [frames_feed]; [destruct (feed r bytes); by eexists|].
  assert (es_feed r bytes <> None) as N.
  { unfold es_feed. destruct (_ <? _); [done|].
    pose proof (es_feed_loop_returns (S (length (es_buffer r ++ bytes))) (es_buffer r ++ bytes) []) as H.
    destruct (es_feed_loop _ _ _) as [[rest res]|]; [done|]. destruct H; [lia|done]. }
  destruct (es_feed r bytes) as [[r' res]|]; [by eexists|done].
Qed.

Lemma map_chunks_returns items u m : exists r, map_chunks parse_error debug items u m = Some r.
Proof.
  revert u m. induction items as [|[bytes|err] items IH]; intros u m; cbn [map_chunks]; [by eexists| |by eexists].
  unfold map_chunk. destruct (frames_feed_returns u bytes) as ([u1 res] & ->). cbn [mbind option_bind].
  destruct res as [[frames t]|err]; [|by eexists]. destruct (emit_mapped _ _ frames m) as [out [m1|]]; [|by eexists].
  destruct t; [by eexists|]. destruct (IH u1 m1) as ([rest n] & ->). by eexists.
Qed.

(** C16. No faked end: whatever the upstream sends - an empty body, a page of
    HTML, a stream cut short, bytes that are no frames, a transport error -
    the relay neither panics nor fails to return, and unless a frame that ends
    the stream was read the response ends with an error event of the client's
    dialect. *)
Theorem relay_ends_honestly from target dialect model items :
  exists sent, map_sse_stream parse_error debug from target dialect model items = Some sent
    /\ (existsb (frame_is_terminal target) (frames_read items (for_wire target)) = true \/ ends_in_error from sent).
Proof.
  unfold map_sse_stream.
  destruct (map_chunks_returns items (for_wire target) (mapped_new from target dialect model)) as ([s next] & M).
  rewrite M. eexists. split; [reflexivity|].
  destruct (map_chunks_end _ _ _ _ _ M) as [H|[H|H]]; [by right|done|by left].
Qed.
End Composition.


(** ** Witnesses *)
Section Witnesses.
#[local] Existing Instance bits_codec.

Definition sample_dialect (wire : Wire) : Dialect :=
  mkDialect (Some wire) (default_stream_events wire) Replace PolicyHardError UnknownHardError.

Definition chat_chunk (delta : list (string * json)) (finish : json) : RawSse :=
  mkRawSse None (to_string (jobj [("choices", JArr [jobj [("index", jint 0); ("delta", jobj delta); ("finish_reason", finish)]])])).

(** A Chat stream with a text and a call whose name and arguments come in
    different chunks. *)
Definition chat_call (fields : list (string * json)) : list (string * json) :=
  [("tool_calls", JArr [jobj (("index", jint 0) :: fields)])].

Definition sample_frames : list RawSse :=
  [chat_chunk [("content", JStr "hi")] JNull;
   chat_chunk (chat_call [("id", JStr "c1"); ("function", jobj [("arguments", JStr "{")])]) JNull;
   chat_chunk (chat_call [("function", jobj [("name", JStr "f"); ("arguments", JStr "}")])]) JNull;
   chat_chunk [] (JStr "tool_calls"); mkRawSse None "[DONE]"].

Definition sample_body : list u8 := concat (map (fun raw => bytes_of_str (format_sse raw)) sample_frames).

Definition sample_chunks : list (list u8) := [take 7 sample_body; drop 7 sample_body].

Definition no_text (s : string) : string := s.
Definition no_debug (ev : IrStreamEvent) : string := "".

Definition sample_events (from : Wire) : list IrStreamEvent :=
  unwrap_or (relayed_events no_text from ChatCompletions (sample_dialect ChatCompletions) (concat sample_chunks)) [].

Definition sample_sent (from : Wire) : list RawSse :=
  unwrap_or (rok (encode_all no_debug (sample_events from) (with_model "m" (EncoderCore.new from))).1) [].

Example sample_events_assembled :
  sample_events Gemini
  = [TextDelta "hi"; ToolCallStart "c1" "f" None 0; ToolCallArgDelta "{" 0; ToolCallArgDelta "}" 0;
     FinishReason "tool_calls" None; Done].
Proof. vm_compute. reflexivity. Qed.

Lemma relay_composes_witness :
  option_map (@concat u8)
    (map_sse_stream no_text no_debug Converse ChatCompletions (sample_dialect ChatCompletions) "m" (map Ok sample_chunks))
  = Some (concat (send_frames Converse (sample_sent Converse))).
Proof.
  apply (relay_composes no_text no_debug Converse ChatCompletions (sample_dialect ChatCompletions) "m" sample_chunks
           (sample_events Converse) (sample_sent Converse)
           (encode_all no_debug (sample_events Converse) (with_model "m" (EncoderCore.new Converse))).2);
    [vm_compute; reflexivity|].
  unfold sample_sent. destruct (encode_all no_debug (sample_events Converse) _) as [[out|err] e] eqn:E; [done|].
  exfalso. revert E. vm_compute. discriminate.
Defined.
End Witnesses.
