(* ===== verification/RelayMessages.v ===== *)
(** * RelayMessages: the Messages stream a relayed client reads

    [ToolCallAssembler] puts the start of a call in front of its fragments, the
    encoder of the Messages dialect needs exactly that to keep its content
    blocks in order, and [map_sse_stream] puts the two in a row. *)

From stdpp Require Import gmap.
From S2P Require Import Prelude Text Json JsonCodec Sse Ir ProfileTypes StreamCore Shapes BTree Assembler.
From S2P Require Import Usage EncoderCore StreamDecode EncoderMessages Encoder MessagesBlocks Relay.

(** ** What the assembler asks of the decoded events *)

(** A start that says something. *)
Definition named_start (ev : IrStreamEvent) : option Z :=
  match ev with
  | ToolCallStart id name _ i => if negb (is_empty id) || negb (is_empty name) then Some i else None
  | CustomToolCallStart _ _ i => Some i
  | _ => None
  end.

Definition custom_start (ev : IrStreamEvent) : option Z :=
  match ev with CustomToolCallStart _ _ i => Some i | _ => None end.

(** The starts a fragment may belong to: custom calls are not assembled. *)
Definition fragment_led (named custom : list Z) (ev : IrStreamEvent) : bool :=
  match ev with
  | ToolCallArgDelta _ i => existsb (Z.eqb i) named
  | CustomToolCallInputDelta _ i => existsb (Z.eqb i) custom
  | _ => true
  end.

(** Every fragment belongs to a call that was named before it. *)
Fixpoint calls_named (named custom : list Z) (evs : list IrStreamEvent) : bool :=
  match evs with
  | [] => true
  | ev :: evs =>
      fragment_led named custom ev
      && calls_named (push_opt (fun i => i) (named_start ev) ++ named) (push_opt (fun i => i) (custom_start ev) ++ custom) evs
  end.

(** ** Starts lead, seen from one index *)
Definition starts_at (i : Z) (ev : IrStreamEvent) : bool := is_some_and (starts_call ev) (Z.eqb i).

(** [starts_lead] at one index: [seen] says whether its call was started. *)
Fixpoint led_at (i : Z) (seen : bool) (evs : list IrStreamEvent) : bool :=
  match evs with
  | [] => true
  | ev :: evs => (seen || negb (is_some_and (feeds_call ev) (Z.eqb i))) && led_at i (seen || starts_at i ev) evs
  end.

Definition seen_at (i : Z) (seen : bool) (evs : list IrStreamEvent) : bool := seen || existsb (starts_at i) evs.

Lemma led_at_app i seen xs ys : led_at i seen (xs ++ ys) = led_at i seen xs && led_at i (seen_at i seen xs) ys.
Proof.
  revert seen. induction xs as [|ev xs IH]; intros seen; cbn [app led_at].
  { unfold seen_at. cbn. by rewrite orb_false_r. }
  rewrite IH. unfold seen_at. cbn [existsb]. by rewrite orb_assoc, andb_assoc.
Qed.

Lemma seen_at_app i seen xs ys : seen_at i seen (xs ++ ys) = seen_at i (seen_at i seen xs) ys.
Proof. unfold seen_at. by rewrite existsb_app, orb_assoc. Qed.

Lemma existsb_In i l : existsb (Z.eqb i) l = true <-> In i l.
Proof.
  rewrite existsb_exists. split; [by intros (j & H & ->%Z.eqb_eq)|]. intros H. exists i. by rewrite Z.eqb_refl.
Qed.

(** Leading at every index is leading. *)
Lemma starts_lead_at seen evs :
  (forall i, led_at i (existsb (Z.eqb i) seen) evs = true) -> starts_lead seen evs = true.
Proof.
  revert seen. induction evs as [|ev evs IH]; intros seen H; cbn [starts_lead]; [done|]. apply andb_true_iff. split.
  - destruct (feeds_call ev) as [i|] eqn:F; [|done]. specialize (H i). cbn [led_at] in H. rewrite F in H.
    cbn [is_some_and] in H. rewrite Z.eqb_refl in H. apply andb_true_iff in H as [H _]. by rewrite orb_false_r in H.
  - apply IH. intros i. specialize (H i). cbn [led_at] in H. apply andb_true_iff in H as [_ H].
    unfold seen_after, starts_at in *. destruct (starts_call ev) as [j|]; cbn [is_some_and existsb] in *.
    + by rewrite orb_comm.
    + by rewrite orb_false_r in H.
Qed.

Lemma led_at_project i seen evs : led_at i seen (project i evs) = led_at i seen evs.
Proof.
  revert seen. induction evs as [|ev evs IH]; intros seen; [done|]. unfold project in *. cbn [List.filter].
  destruct (in_slot i ev) eqn:S; [cbn [led_at]; by rewrite IH|]. rewrite IH. cbn [led_at].
  assert (feeds_call ev = Assembler.slot_of ev /\ starts_at i ev = false \/ feeds_call ev = None /\ starts_at i ev = false) as [[F St]|[F St]].
  { unfold in_slot, starts_at in *. destruct ev; cbn in *; try done; [by right; rewrite S|by left]. }
  - rewrite F, St, orb_false_r. unfold in_slot in S. destruct (Assembler.slot_of ev) as [j|]; [|done]. cbn [is_some_and].
    by rewrite S, orb_true_r.
  - by rewrite F, St, orb_false_r, orb_true_r.
Qed.

(** Events without a slot are not about calls. *)
Lemma starts_lead_slotted from seen evs : starts_lead seen evs = true -> starts_lead seen (slotted from evs) = true.
Proof.
  revert seen. induction evs as [|ev evs IH]; intros seen; cbn [slotted List.filter starts_lead]; [done|].
  intros [F S]%andb_true_iff. destruct (event_has_slot from ev) eqn:E.
  { cbn [starts_lead]. rewrite F. by apply IH. }
  assert (starts_call ev = None) as N by (by destruct ev). unfold seen_after in S. rewrite N in S. by apply IH.
Qed.

(** ** The assembler under that condition *)

(** One slot after the events that named [named]: [out] says whether its call
    was given out. *)
Record slot_led (i : Z) (named custom : list Z) (out : bool) (s : slot_state) : Prop := {
  sl_ok : slot_ok i s;
  sl_started : slot_started s = true -> out = true;
  sl_custom : In i custom -> out = true;
  sl_named : In i named -> out = true \/ exists p, slot_pending s = Some p /\ has_start p = true;
  sl_args : forall p, slot_pending s = Some p -> pend_args p <> [] -> has_start p = true \/ out = true
}.

Lemma slot_led_new i : slot_led i [] [] false slot_new.
Proof. constructor; [apply slot_new_ok|done|by intros []|by intros []|done]. Qed.

(** A call given out leads its fragments. *)
Lemma args_led i l : led_at i true (map (fun d => ToolCallArgDelta d i) l) = true
  /\ existsb (starts_at i) (map (fun d => ToolCallArgDelta d i) l) = false.
Proof. induction l as [|d l [IH1 IH2]]; [done|]. cbn. by rewrite IH1, IH2. Qed.

Lemma into_events_led i out p :
  pend_index p = i -> (pend_args p <> [] -> has_start p = true \/ out = true) ->
  led_at i out (into_events p) = true /\ seen_at i out (into_events p) = out || has_start p.
Proof.
  intros <- A. unfold into_events. set (i := pend_index p). destruct (args_led i (pend_args p)) as [L N].
  destruct (has_start p).
  - unfold seen_at, starts_at. cbn. rewrite Z.eqb_refl, !orb_true_r. by rewrite L.
  - cbn [app]. unfold seen_at. rewrite N, !orb_false_r. split; [|done].
    destruct (pend_args p); [done|]. destruct A as [| ->]; done.
Qed.

Lemma slot_flush_led i named custom out s :
  slot_led i named custom out s ->
  led_at i out (slot_flush s).2 = true
  /\ slot_led i named custom (seen_at i out (slot_flush s).2) (slot_flush s).1.
Proof.
  intros [Ok St Cu Na Ar]. unfold slot_flush. destruct (slot_pending s) as [p|] eqn:P; cbn [fst snd].
  - destruct (slot_entry _ _ Ok p P) as (I & _). destruct (into_events_led i out p I (Ar p eq_refl)) as [L ->].
    split; [done|]. constructor; cbn; [by split|..].
    + intros [H|H]%orb_true_iff; [by rewrite (St H)|by rewrite H, orb_true_r].
    + intros H. by rewrite (Cu H).
    + intros H. left. destruct (Na H) as [->|(q & [= ->] & ->)]; [done|by rewrite orb_true_r].
    + done.
  - split; [done|]. unfold seen_at. cbn. rewrite orb_false_r. constructor; try done; rewrite P; done.
Qed.

Lemma slot_merge_start s id name sig i :
  negb (is_empty id) || negb (is_empty name) = true
  \/ (exists p, slot_pending s = Some p /\ has_start p = true) ->
  has_start (slot_merge s id name sig i) = true.
Proof.
  unfold slot_merge, has_start. destruct (slot_pending s) as [q|]; cbn.
  - intros [H|(p & [= ->] & H)]; destruct (is_empty id) eqn:A, (is_empty name) eqn:B; rewrite ?A, ?B; cbn in *;
      rewrite ?orb_true_r; done.
  - by intros [H|(p & [=] & _)].
Qed.

Lemma slot_merge_args s id name sig i : pend_args (slot_merge s id name sig i) <> [] ->
  exists p, slot_pending s = Some p /\ pend_args p <> [].
Proof. unfold slot_merge. destruct (slot_pending s) as [p|]; cbn; [by eexists|done]. Qed.

Lemma slot_led_weaken i named custom named' custom' out out' s :
  slot_led i named custom out s -> (In i named' -> In i named \/ out' = true) ->
  (In i custom' -> In i custom \/ out' = true) -> (out = true -> out' = true) ->
  slot_led i named' custom' out' s.
Proof.
  intros [Ok St Cu Na Ar] N C O. constructor; [done|auto|..].
  - intros H. destruct (C H); auto.
  - intros H. destruct (N H) as [H'|]; [|by left]. destruct (Na H'); auto.
  - intros p P A. destruct (Ar p P A); auto.
Qed.

(** The lists of names after an event. *)
Definition names (ev : IrStreamEvent) (named : list Z) : list Z := push_opt (fun i => i) (named_start ev) ++ named.
Definition customs (ev : IrStreamEvent) (custom : list Z) : list Z := push_opt (fun i => i) (custom_start ev) ++ custom.

Lemma slot_start_led i named custom out s id name sig j :
  slot_led i named custom out s ->
  let ev := ToolCallStart id name sig j in let r := slot_push i s ev in
  led_at i out r.2 = true /\ slot_led i (names ev named) (customs ev custom) (seen_at i out r.2) r.1.
Proof.
  intros L ev r. subst r. pose proof (slot_push_ok i s ev (sl_ok _ _ _ _ _ L)) as Ok'. subst ev. cbn [slot_push] in *.
  assert (customs (ToolCallStart id name sig j) custom = custom) as -> by done.
  assert (forall k, In k (names (ToolCallStart id name sig j) named) ->
    In k named \/ k = j /\ negb (is_empty id) || negb (is_empty name) = true) as N.
  { intros k. unfold names. cbn [named_start]. destruct (negb (is_empty id) || _); cbn [push_opt app]; [|by left].
    intros [->|H]; [by right|by left]. }
  unfold seen_at. destruct (Z.eqb_spec i j) as [<-|Hne]; cbn [negb] in *.
  2: { split; [done|]. cbn. rewrite orb_false_r. eapply slot_led_weaken; [exact L| |auto|auto].
       intros H. destruct (N i H) as [|[? _]]; auto. }
  destruct (slot_started s) eqn:S.
  { split; [done|]. pose proof (sl_started _ _ _ _ _ L S) as ->. eapply slot_led_weaken; [exact L|auto..]. }
  cbv zeta in *. set (p := slot_merge s id name sig i) in *.
  assert (In i (names (ToolCallStart id name sig i) named) -> out = true \/ has_start p = true) as Np.
  { intros H. destruct (N i H) as [H'|[_ H']].
    - destruct (sl_named _ _ _ _ _ L H') as [|Q]; [by left|]. right. apply slot_merge_start. by right.
    - right. apply slot_merge_start. by left. }
  assert (pend_args p <> [] -> has_start p = true \/ out = true) as Ap.
  { intros (q & Q & A)%slot_merge_args. destruct (sl_args _ _ _ _ _ L q Q A) as [H|]; [|by right].
    left. apply slot_merge_start. right. by exists q. }
  destruct (is_empty (pend_id p) || is_empty (pend_name p)) eqn:E; cbn [fst snd] in *.
  - split; [done|]. cbn. rewrite orb_false_r. constructor; cbn; [done|done|by apply L| |].
    + intros H. destruct (Np H); [by left|]. right. by exists p.
    + intros q [= <-]. done.
  - assert (has_start p = true) as Hp by (unfold has_start; by destruct (is_empty (pend_id p))).
    destruct (into_events_led i out p) as [L1 L2]; [apply slot_merge_index|done|]. split; [done|].
    unfold seen_at in L2. rewrite L2, Hp, orb_true_r. by constructor; cbn; auto.
Qed.

Lemma slot_arg_led i named custom out s delta j :
  slot_led i named custom out s -> (i = j -> In i named) ->
  let ev := ToolCallArgDelta delta j in let r := slot_push i s ev in
  led_at i out r.2 = true /\ slot_led i (names ev named) (customs ev custom) (seen_at i out r.2) r.1.
Proof.
  intros L N ev r. subst r. pose proof (slot_push_ok i s ev (sl_ok _ _ _ _ _ L)) as Ok'. subst ev. cbn [slot_push] in *.
  unfold names, customs, seen_at. cbn [named_start custom_start push_opt app].
  destruct (Z.eqb_spec i j) as [<-|Hne]; cbn [negb] in *; [|by rewrite orb_false_r].
  specialize (N eq_refl). destruct (slot_pending s) as [p|] eqn:P; cbn [fst snd] in *.
  - split; [done|]. cbn. rewrite orb_false_r. constructor; cbn; [done|by apply L|by apply L| |].
    + intros _. destruct (sl_named _ _ _ _ _ L N) as [|(q & Q & H)]; [by left|]. right. rewrite P in Q.
      injection Q as ->. by exists (add_arg q delta).
    + intros q [= <-] _. destruct (sl_named _ _ _ _ _ L N) as [|(q & Q & H)]; [by right|]. rewrite P in Q.
      injection Q as ->. by left.
  - assert (out = true) as ->.
    { destruct (sl_named _ _ _ _ _ L N) as [|(q & Q & H)]; [done|]. by rewrite P in Q. }
    destruct (slot_started s) eqn:S; cbn [fst snd].
    + split; [done|]. by apply L.
    + split; [done|]. constructor; cbn; [done|auto..].
Qed.

Lemma slot_other_led i named custom out s ev :
  slot_led i named custom out s -> Assembler.slot_of ev = None -> fragment_led named custom ev = true ->
  let r := slot_push i s ev in
  led_at i out r.2 = true /\ slot_led i (names ev named) (customs ev custom) (seen_at i out r.2) r.1.
Proof.
  intros L N F r. subst r.
  assert (slot_push i s ev = let '(s, o) := if releases ev then slot_flush s else (s, []) in (s, o ++ [ev])) as ->
    by (by destruct ev).
  assert (exists s' o, (if releases ev then slot_flush s else (s, [])) = (s', o)
    /\ led_at i out o = true /\ slot_led i named custom (seen_at i out o) s') as (s' & o & -> & Lo & L').
  { destruct (releases ev).
    - destruct (slot_flush_led i named custom out s L) as [L1 L2]. destruct (slot_flush s) as [s' o]. by exists s', o.
    - exists s, []. split; [done|]. split; [done|]. unfold seen_at. cbn. by rewrite orb_false_r. }
  cbn [fst snd]. rewrite led_at_app, Lo, seen_at_app. cbn [andb led_at]. rewrite andb_true_r.
  set (out1 := seen_at i out o) in *.
  assert (is_some_and (feeds_call ev) (Z.eqb i) = true -> In i custom) as C.
  { destruct ev; cbn in *; try done. intros ->%Z.eqb_eq. by apply existsb_In. }
  split.
  - destruct (is_some_and (feeds_call ev) _) eqn:E; [|apply orb_true_r]. by rewrite (sl_custom _ _ _ _ _ L' (C eq_refl)).
  - unfold seen_at. cbn [existsb]. rewrite orb_false_r.
    eapply slot_led_weaken; [exact L'|..].
    + unfold names. destruct ev; cbn in *; try discriminate; auto. unfold starts_at. cbn. intros [->|H]; [|auto]. right.
      by rewrite Z.eqb_refl, orb_true_r.
    + unfold customs. destruct ev; cbn in *; try discriminate; auto. unfold starts_at. cbn. intros [->|H]; [|auto]. right.
      by rewrite Z.eqb_refl, orb_true_r.
    + by intros ->.
Qed.

Lemma slot_push_led i named custom out s ev :
  slot_led i named custom out s -> fragment_led named custom ev = true ->
  let r := slot_push i s ev in
  led_at i out r.2 = true /\ slot_led i (names ev named) (customs ev custom) (seen_at i out r.2) r.1.
Proof.
  intros L F. destruct (Assembler.slot_of ev) as [j|] eqn:S; [|by apply slot_other_led].
  destruct ev; try done; [by apply slot_start_led|]. apply slot_arg_led; [done|]. intros ->. by apply existsb_In.
Qed.

Lemma slot_push_all_led i named custom out s evs :
  slot_led i named custom out s -> calls_named named custom evs = true ->
  let r := slot_push_all i s evs in
  led_at i out r.2 = true /\ exists named' custom', slot_led i named' custom' (seen_at i out r.2) r.1.
Proof.
  revert named custom out s. induction evs as [|ev evs IH]; intros named custom out s L; cbn [calls_named slot_push_all].
  { intros _. split; [done|]. exists named, custom. unfold seen_at. cbn. by rewrite orb_false_r. }
  intros [F C]%andb_true_iff. destruct (slot_push_led i named custom out s ev L F) as [L1 L2].
  destruct (slot_push i s ev) as [s1 o1]. cbn [fst snd] in *. destruct (IH _ _ _ _ L2 C) as [L3 L4].
  destruct (slot_push_all i s1 evs) as [s2 o2]. cbn [fst snd] in *. by rewrite led_at_app, L1, L3, seen_at_app.
Qed.

(** What the assembler gives the encoder: calls that were named lead. *)
Lemma assemble_leads evs : calls_named [] [] evs = true -> starts_lead [] (assemble evs) = true.
Proof.
  intros C. apply starts_lead_at. intros i. rewrite <- led_at_project, assemble_slot. unfold slot_assemble.
  destruct (slot_push_all_led i [] [] false slot_new evs (slot_led_new i) C) as (L1 & named & custom & L2).
  destruct (slot_push_all i slot_new evs) as [s o]. cbn [fst snd existsb] in *. rewrite led_at_app, L1.
  by destruct (slot_flush_led i named custom _ s L2) as [-> _].
Qed.

(** ** The whole relay *)
Section Messages.
Context {SJ : SerdeJson} (parse_error : string -> string) (debug : IrStreamEvent -> string).

(** The events of an upstream body, in the order they were decoded. *)
Definition decoded_events (target : Wire) (dialect : Dialect) (body : list u8) : option (list IrStreamEvent) :=
  frames ← body_frames target body; rok (decode_stream parse_error decoder_new target frames dialect).2.

(** C2. From any upstream dialect to a Messages client: when the body holds no
    error frame, ends its stream and decodes, its calls are named before their
    fragments, and the at most 2^32 - 1 events that are relayed include no
    unknown frame and no item of a vendor but those the encoder keeps for a
    field of the message ([framed]; a citation or an unknown frame is copied as
    it is), the client reads one well-formed Messages stream - [message_start],
    numbered content blocks one at a time with every delta inside its block,
    [message_delta], [message_stop] - however the vendor interleaved parallel
    calls, split their names over frames, and the network cut the bytes. *)
Theorem relay_messages_well_formed target dialect model chunks decoded evs :
  decoded_events target dialect (concat chunks) = Some decoded ->
  relayed_events parse_error Messages target dialect (concat chunks) = Some evs ->
  calls_named [] [] decoded = true -> Forall (fun ev => framed ev = true) evs -> vlen evs <= u32_max ->
  exists frames, frames_run Before frames After
    /\ option_map (@concat u8) (map_sse_stream parse_error debug Messages target dialect model (map Ok chunks))
       = Some (concat (send_frames Messages frames)).
Proof.
  intros D R C F N.
  assert (evs = slotted Messages (assemble decoded)) as E.
  { unfold decoded_events, relayed_events in *. destruct (body_frames _ _) as [frames|]; [|done].
    cbn [mbind option_bind] in D. destruct (forallb _ _ && _); [|done].
    destruct (decode_stream _ _ _ _ _).2; cbn [rok] in D; [|done]. by injection D as ->; injection R as <-. }
  destruct (encode_all_ok debug evs [] 0 (with_model model (EncoderCore.new Messages))) as (out & e & En & Run);
    [apply messages_start_ok|done| |lia|].
  { rewrite E. by apply starts_lead_slotted, assemble_leads. }
  destruct (map_sse_stream_ok parse_error debug _ _ _ _ _ _ _ _ R En) as (sent & -> & Cs). exists out.
  split; [exact Run|]. cbn. by rewrite Cs.
Qed.
End Messages.

(** ** Witnesses *)
Section Witnesses.
#[local] Existing Instance bits_codec.

Lemma relay_messages_well_formed_witness :
  exists frames, frames_run Before frames After
    /\ option_map (@concat u8) (map_sse_stream no_text no_debug Messages ChatCompletions
         (sample_dialect ChatCompletions) "m" (map Ok sample_chunks)) = Some (concat (send_frames Messages frames)).
Proof.
  apply (relay_messages_well_formed no_text no_debug ChatCompletions (sample_dialect ChatCompletions) "m" sample_chunks
    (unwrap_or (decoded_events no_text ChatCompletions (sample_dialect ChatCompletions) (concat sample_chunks)) [])
    (sample_events Messages)).
  - vm_compute. reflexivity.
  - vm_compute. reflexivity.
  - vm_compute. reflexivity.
  - apply List.Forall_forall, forallb_forall. vm_compute. reflexivity.
  - vm_compute. discriminate.
Defined.

(** A fragment whose call was never named is written without a block. *)
Example orphan_fragment_has_no_block :
  exists rest e, encode_all no_debug [ToolCallArgDelta "{" 0] (EncoderCore.new Messages)
    = (Ok (messages_start_frame (EncoderCore.new Messages) :: block_delta_frame 0
             (jobj [("type", JStr "input_json_delta"); ("partial_json", JStr "{")]) :: rest), e).
Proof. eexists _, _. vm_compute. reflexivity. Qed.
End Witnesses.
