(* ===== verification/Failures.v ===== *)
(** * Failures: vendor errors inside a successful answer

    crates/wiremux/src/proxy.rs: a vendor may answer 200 with a body that is
    only an error.  The proxy finds such bodies ([*_complete_vendor_failure])
    and writes the error in the dialect of the client
    ([cross_wire_vendor_failure], [dest_error_json] of [Relay]). *)

From S2P Require Import Prelude Text Json JsonCodec Sse Ir ProfileTypes StreamCore Usage Shapes Completion.
From S2P Require Import StreamDecode Relay.

Section Failures.
Context {SJ : SerdeJson}.

Definition vendor_error_detail (err : json) : option string := error_object_detail err.

(** The error text, else the error object, as the callers combine them. *)
Definition chat_complete_vendor_failure (target : Wire) (body : list u8) : option string :=
  if negb (wire_eqb target ChatCompletions) then None
  else
    value ← from_slice body;
    if json_has_completion value then None
    else
      match json_string_error value with
      | Some text => Some text
      | None => object_field value "error" ≫= vendor_error_detail
      end.

Definition messages_complete_vendor_failure (target : Wire) (body : list u8) : option string :=
  if negb (wire_eqb target Messages) then None
  else
    value ← from_slice body;
    if messages_content_visible value then None
    else
      match json_string_error value with
      | Some text => Some text
      | None =>
          let err := object_field value "error" in
          if negb (bool_decide (get value "type" ≫= as_str = Some "error")) && is_none err then None
          else err ≫= vendor_error_detail
      end.

Definition trimmed_at (value : json) (path : list ptr_token) : option string :=
  opt_filter (fun s => negb (is_empty s)) (trim <$> (pointer value path ≫= as_str)).

Definition gemini_block_detail (value : json) : option string :=
  reason ← trimmed_at value [Key "promptFeedback"; Key "blockReason"];
  Some match trimmed_at value [Key "promptFeedback"; Key "blockReasonMessage"] with
       | Some message => reason +:+ ": " +:+ message
       | None => reason
       end.

Definition gemini_complete_vendor_failure (target : Wire) (body : list u8) : option string :=
  if negb (wire_eqb target Gemini) then None
  else
    value ← from_slice body;
    if json_has_completion value then None
    else
      match json_string_error value with
      | Some text => Some text
      | None =>
          match object_field value "error" ≫= vendor_error_detail with
          | Some detail => Some detail
          | None =>
              if is_some_and (get value "candidates" ≫= as_array) (fun items => negb (bool_decide (items = [])))
              then None
              else gemini_block_detail value
          end
      end.

Definition converse_complete_vendor_failure (target : Wire) (body : list u8) : option string :=
  if negb (wire_eqb target Converse) then None
  else from_slice body ≫= complete_exception_detail.

(** The response of a [response.failed] frame, or the body itself. *)
Definition failed_response (value : json) : json :=
  if bool_decide (get value "type" ≫= as_str = Some "response.failed")
  then unwrap_or (object_field value "response") value else value.

Definition responses_complete_vendor_failure (target : Wire) (body : list u8) : option string :=
  if negb (wire_eqb target Responses) then None
  else
    value ← from_slice body;
    let response := failed_response value in
    if responses_has_visible_output response then None
    else
      match json_string_error response with
      | Some text => Some text
      | None =>
          match object_field response "error" ≫= vendor_error_detail with
          | Some detail => Some detail
          | None =>
              if negb (bool_decide (get response "status" ≫= as_str = Some "failed")) then None
              else if is_some_and (get response "output") (fun output => negb (is_array output) && negb (is_null output))
              then None
              else find_map (object_field response) ["error"; "last_error"] ≫= vendor_error_detail
          end
      end.

(** The first failure the dialect of the body reports. *)
Definition complete_vendor_failure (target : Wire) (body : list u8) : option string :=
  opt_or (responses_complete_vendor_failure target body)
    (opt_or (chat_complete_vendor_failure target body)
      (opt_or (messages_complete_vendor_failure target body)
        (opt_or (gemini_complete_vendor_failure target body) (converse_complete_vendor_failure target body)))).

Definition cross_wire_vendor_failure (from target : Wire) (stream : bool) (body : list u8) : option (list u8) :=
  detail ← complete_vendor_failure target body;
  Some (if stream then
          if wire_eqb target from && wire_eqb from ChatCompletions then same_wire_stream_error_event body
          else dest_error_bytes from detail
        else if wire_eqb target from then body
        else bytes_of_str (to_string (dest_error_json from detail))).

(** A leaf the terminal walk does not emit becomes the vendor error. *)
Definition responses_failed_vendor_error (parse_error : string -> string) (from : Wire) (raw : RawSse)
    (dialect : Dialect) : option string :=
  if negb (wire_eqb from Responses) || negb (String.eqb (frame_event_name from raw) "response.failed") then None
  else
    match decode_stream_events parse_error from raw dialect with
    | Err err => Some (map_error_fmt err)
    | Ok _ => None
    end.
End Failures.

Definition sse_done_frame (raw : RawSse) : bool := String.eqb (trim (raw_data raw)) "[DONE]".

(** [[D] or [[DONE]]: a terminator that may be split. *)
Definition done_frame_prefix (raw : RawSse) : bool :=
  let data := trim (raw_data raw) in negb (is_empty data) && starts_with data "[DONE]".

(** ** Properties *)
Section Properties.
Context {SJ : SerdeJson}.

(** *** The answer of a vendor, by dialect

    Written down from the formats of the vendors, path by path. *)
Inductive json_step := At (key : string) | Each.

(** [good] holds of a value at this path. *)
Fixpoint found (path : list json_step) (good : json -> Prop) (v : json) : Prop :=
  match path with
  | [] => good v
  | At k :: path => exists x, get v k = Some x /\ found path good x
  | Each :: path => exists l x, v = JArr l /\ In x l /\ found path good x
  end.

Definition a_text (v : json) : Prop := exists text, v = JStr text /\ text <> "".

(** The texts of an item of the dialect: its path, for the types it is read at. *)
Definition answer_items (target : Wire) : list json_step :=
  match target with
  | ChatCompletions => [At "choices"; Each; At "message"]
  | Messages => [At "content"; Each]
  | Gemini => [At "candidates"; Each; At "content"; At "parts"; Each]
  | Responses => [At "output"; Each]
  | Converse => [At "output"; At "message"; At "content"; Each]
  end.

Definition answer_texts (target : Wire) : list (option string * list json_step) :=
  match target with
  | ChatCompletions =>
      [(None, [At "content"]); (None, [At "content"; Each; At "text"]); (None, [At "refusal"]);
       (None, [At "reasoning_content"]); (None, [At "reasoning"]); (None, [At "audio"; At "data"]);
       (None, [At "tool_calls"; Each; At "id"]); (None, [At "tool_calls"; Each; At "function"; At "name"]);
       (None, [At "tool_calls"; Each; At "function"; At "arguments"]);
       (None, [At "tool_calls"; Each; At "custom"; At "name"]); (None, [At "function_call"; At "name"])]
  | Messages =>
      [(Some "text", [At "text"]); (Some "thinking", [At "thinking"]); (Some "thinking", [At "signature"]);
       (Some "tool_use", [At "id"]); (Some "tool_use", [At "name"]); (Some "redacted_thinking", [At "data"]);
       (Some "server_tool_use", [At "name"]); (Some "web_search_tool_result", [At "tool_use_id"])]
  | Gemini =>
      [(None, [At "text"]); (None, [At "functionCall"; At "name"]); (None, [At "functionCall"; At "id"]);
       (None, [At "inlineData"; At "data"]); (None, [At "fileData"; At "fileUri"]);
       (None, [At "executableCode"; At "code"]); (None, [At "codeExecutionResult"; At "output"]);
       (None, [At "functionResponse"; At "name"])]
  | Responses =>
      [(Some "message", [At "content"; Each; At "text"]); (Some "message", [At "content"; Each; At "refusal"]);
       (Some "function_call", [At "name"]); (Some "function_call", [At "call_id"]);
       (Some "function_call", [At "arguments"]); (Some "custom_tool_call", [At "name"]);
       (Some "custom_tool_call", [At "input"]); (Some "reasoning", [At "summary"; Each; At "text"]);
       (Some "reasoning", [At "content"; Each; At "text"]); (Some "reasoning", [At "encrypted_content"]);
       (Some "image_generation_call", [At "result"]); (Some "web_search_call", [At "id"])]
  | Converse =>
      [(None, [At "text"]); (None, [At "toolUse"; At "name"]); (None, [At "toolUse"; At "toolUseId"]);
       (None, [At "reasoningContent"; At "reasoningText"; At "text"]);
       (None, [At "image"; At "source"; At "bytes"])]
  end.

Definition of_type (ty : option string) (item : json) : Prop :=
  match ty with None => True | Some ty => get item "type" = Some (JStr ty) end.

(** A Responses body may be the frame [response.failed] around the response. *)
Inductive response_of : json -> json -> Prop :=
| bare_response v : get v "type" <> Some (JStr "response.failed") -> response_of v v
| failed_frame v m : get v "type" = Some (JStr "response.failed") -> get v "response" = Some (JObj m) -> response_of v (JObj m).

(** The body has output: a non-empty text at one of the paths of the dialect. *)
Definition answers (target : Wire) (value : json) : Prop :=
  exists body, (if wire_eqb target Responses then response_of value body else body = value)
  /\ found (answer_items target)
       (fun item => exists ty path, In (ty, path) (answer_texts target) /\ of_type ty item /\ found path a_text item)
       body.

(** The guard of the body's dialect. *)
Definition says_something (target : Wire) (value : json) : bool :=
  match target with
  | ChatCompletions | Gemini => json_has_completion value
  | Messages => messages_content_visible value
  | Responses => responses_has_visible_output (failed_response value)
  | Converse => converse_has_completion value
  end.

Lemma array_any_In v k pred l x : get v k = Some (JArr l) -> In x l -> pred x = true -> array_any v k pred = true.
Proof. intros E I P. unfold array_any, get_array. rewrite E. cbn. apply existsb_exists. eauto. Qed.

Lemma existsb_member {A} (pred : A -> bool) l x : In x l -> pred x = true -> existsb pred l = true.
Proof. intros. apply existsb_exists. eauto. Qed.

Lemma nonempty_str_text v k text : get v k = Some (JStr text) -> text <> "" -> nonempty_str v k = true.
Proof. intros E N. unfold nonempty_str, get_str. rewrite E. cbn. by destruct text. Qed.

Lemma nonempty_field_text v k text : get v k = Some (JStr text) -> text <> "" -> is_some (nonempty (str_field v k)) = true.
Proof. intros E N. unfold str_field. rewrite E. cbn. by destruct text. Qed.

Lemma payload_text text : text <> "" -> json_payload (Some (JStr text)) = true.
Proof. by destruct text. Qed.

Lemma pointer_text_shows v p text : pointer v p = Some (JStr text) -> text <> "" -> pointer_nonempty v p = true.
Proof. intros E N. unfold pointer_nonempty, pointer_str. rewrite E. cbn. by destruct text. Qed.

Lemma field_is_get v k x pred : get v k = Some x -> pred x = true -> field_is v k pred = true.
Proof. intros E P. unfold field_is. by rewrite E. Qed.

Lemma or_left (a b : bool) : a = true -> (if a then true else b) = true.
Proof. by intros ->. Qed.

Lemma or_right (a b : bool) : b = true -> (if a then true else b) = true.
Proof. by destruct a. Qed.

Lemma text_visible text : text <> "" -> negb (is_empty text) = true.
Proof. by destruct text. Qed.

Lemma argument_shows v text :
  text <> "" -> get v "arguments" = Some (JStr text) \/ (get v "arguments" = None /\ get v "input" = Some (JStr text)) ->
  argument_visible v = true.
Proof. intros N [E|[E F]]; unfold argument_visible; rewrite E, ?F; by destruct text. Qed.

Lemma audio_shows v x k text :
  get v "audio" = Some x -> get x k = Some (JStr text) -> text <> "" -> In k ["data"; "transcript"] ->
  audio_visible v = true.
Proof.
  intros E F N I. unfold audio_visible, object_field. rewrite E. cbn. destruct x; try done. cbn.
  pose proof (nonempty_str_text _ _ _ F N) as ?. destruct I as [<-|[<-|[]]]; apply orb_true_iff; auto.
Qed.

Lemma responses_arg_shows v k text : get v k = Some (JStr text) -> text <> "" -> responses_arg_present (get v k) = true.
Proof. intros -> N. by destruct text. Qed.

(** What a path of [answer_texts] says, as equations on the fields. *)
Ltac found_inv := cbn [found In of_type] in *; repeat match goal with
  | H : a_text _ |- _ => destruct H as (? & -> & ?)
  | H : exists _, _ |- _ => destruct H as (? & H)
  | H : _ /\ _ |- _ => destruct H as [? H]
  | H : _ \/ _ |- _ => destruct H as [H|H]
  | H : False |- _ => destruct H
  | H : (_, _) = (_, _) |- _ => injection H as <- <-; cbn [found of_type] in *
  | H : ?x = JArr _ |- _ => subst x
  end.

(** One disjunct of a visibility test holds. *)
Ltac shows := first
  [ reflexivity
  | apply text_visible; assumption
  | eapply argument_shows; [|left; eassumption]; assumption
  | eapply audio_shows; [eassumption|eassumption|assumption|cbn; tauto]
  | eapply responses_arg_shows; [eassumption|assumption]
  | eapply nonempty_str_text; [eassumption|assumption]
  | eapply nonempty_field_text; [eassumption|assumption]
  | eapply pointer_text_shows;
      [rewrite ?pointer_key; repeat (match goal with H : get _ _ = Some _ |- _ => rewrite H end; cbn [mbind option_bind]; rewrite ?pointer_key);
       reflexivity
      |assumption]
  | eapply field_is_get; [eassumption|shows]
  | eapply array_any_In; [eassumption|eassumption|shows]
  | eapply existsb_member; [eassumption|shows]
  | apply or_left; shows
  | apply or_right; shows ].

Lemma obj_get_member k m x : obj_get k m = Some x -> In (k, x) m.
Proof.
  induction m as [|[k' y] m IH]; [done|]. cbn. destruct (String.eqb_spec k k') as [->|]; [intros [= ->]; by left|auto].
Qed.

Lemma hosted_shows item k text :
  get item k = Some (JStr text) -> text <> "" -> k <> "type" -> responses_hosted_visible item = true.
Proof.
  intros E N K. unfold responses_hosted_visible. destruct item as [| | | | |m]; try done. cbn in E |- *.
  eapply existsb_member; [by apply obj_get_member|]. cbn. apply String.eqb_neq in K. rewrite K. by destruct text.
Qed.

Definition answer_item (target : Wire) (item : json) : Prop :=
  exists ty path, In (ty, path) (answer_texts target) /\ of_type ty item /\ found path a_text item.

Lemma chat_item_shows choice message :
  get choice "message" = Some message -> answer_item ChatCompletions message -> choice_visible choice = true.
Proof.
  intros E H. unfold choice_visible. rewrite E. cbn [opt_or unwrap_or]. cbv zeta. unfold answer_item, answer_texts in H.
  found_inv; shows.
Qed.

Lemma messages_item_shows item : answer_item Messages item -> messages_block_keeps_completion item = true.
Proof.
  intros H. unfold messages_block_keeps_completion, get_str. unfold answer_item, answer_texts in H.
  found_inv; match goal with H : get _ "type" = _ |- _ => rewrite H end; cbn [mbind option_bind as_str]; eqb_literals; shows.
Qed.

Lemma gemini_item_shows item : answer_item Gemini item -> gemini_part_visible item = true.
Proof.
  intros H. unfold gemini_part_visible. unfold answer_item, answer_texts in H. found_inv; shows.
Qed.

Lemma responses_item_shows item : answer_item Responses item -> responses_item_visible item = true.
Proof.
  intros H. unfold responses_item_visible, get_str. unfold answer_item, answer_texts in H.
  found_inv; match goal with H : get _ "type" = _ |- _ => rewrite H end; cbn [mbind option_bind as_str]; eqb_literals;
    repeat match goal with |- context [one_of ?a ?b] => let v := eval vm_compute in (one_of a b) in change (one_of a b) with v end;
    cbn match; solve [shows|by eapply hosted_shows].
Qed.

Lemma converse_item_shows item : answer_item Converse item -> converse_block_visible item = true.
Proof.
  intros H. unfold converse_block_visible. unfold answer_item, answer_texts in H. found_inv; shows.
Qed.

Lemma answers_says_something target value : answers target value -> says_something target value = true.
Proof.
  intros (body & B & F). unfold says_something. destruct target; cbn [answer_items found] in F;
    match type of B with context [wire_eqb ?a ?b] => let v := eval vm_compute in (wire_eqb a b) in change (wire_eqb a b) with v in B end;
    try (cbn in B; subst body).
  - destruct F as (x & E & l & c & -> & I & m & Em & A). unfold json_has_completion.
    do 4 apply or_left. eapply array_any_In; [eassumption..|]. by eapply chat_item_shows.
  - destruct F as (x & E & l & c & -> & I & A). unfold messages_content_visible.
    eapply array_any_In; [eassumption..|]. by apply messages_item_shows.
  - destruct F as (x & E & l & c & -> & I & A).
    assert (failed_response value = body) as ->.
    { unfold failed_response. destruct B as [v T|v m T R].
      - rewrite bool_decide_false; [done|]. intros T'. apply T. destruct (get v "type") as [[]|]; cbn in T'; congruence.
      - rewrite T. cbn. unfold object_field. by rewrite R. }
    unfold responses_has_visible_output, get_array. rewrite E. cbn [mbind option_bind as_array opt_or].
    apply or_right. eapply existsb_member; [exact I|]. by apply responses_item_shows.
  - destruct F as (x & E & l & c & -> & I & content & Ec & parts & Ep & l' & part & -> & I' & A). unfold json_has_completion.
    do 3 apply or_left. apply or_right. eapply array_any_In; [eassumption..|]. unfold candidate_visible. apply or_right.
    rewrite !pointer_key, Ec. cbn [mbind option_bind]. rewrite !pointer_key, Ep. cbn.
    eapply existsb_member; [exact I'|]. by apply gemini_item_shows.
  - destruct F as (output & Eo & message & Em & content & Ec & l & block & -> & I & A). unfold converse_has_completion.
    apply or_right. rewrite Eo. destruct output as [| | | | |m]; try done. unfold converse_output_visible.
    rewrite !pointer_key, Eo. cbn [mbind option_bind]. rewrite !pointer_key, Em. cbn [mbind option_bind].
    rewrite !pointer_key, Ec. cbn. eapply existsb_member; [exact I|]. by apply converse_item_shows.
Qed.

(** C19. An answer is never thrown away: a body with output - a non-empty text, name
    or id at one of the places its dialect puts the text, the reasoning, the refusal
    or the calls of the model, [answer_items] and [answer_texts] - is not reported as
    a vendor failure, on any dialect, however many error fields it has beside that
    output. *)
Theorem vendor_failure_hides_nothing from target stream body value :
  from_slice body = Some value -> answers target value ->
  cross_wire_vendor_failure from target stream body = None.
Proof.
  intros V S%answers_says_something. unfold cross_wire_vendor_failure, complete_vendor_failure, responses_complete_vendor_failure,
    chat_complete_vendor_failure, messages_complete_vendor_failure, gemini_complete_vendor_failure,
    converse_complete_vendor_failure, complete_exception_detail.
  destruct target; cbn [wire_eqb bool_decide decide decide_rel negb opt_or]; rewrite V; cbn [mbind option_bind] in *;
    cbn [says_something] in S; by rewrite S.
Qed.

(** The client's error code when the text has none. *)
Definition default_code (from : Wire) : string :=
  match from with Messages => "api_error" | Gemini => "INTERNAL" | _ => "server_error" end.

Lemma split_error_prefix_inv msg code text : split_error_prefix msg = (Some code, text) -> msg = code +:+ ": " +:+ text.
Proof.
  unfold split_error_prefix. destruct (split_once_str ": " msg) as [[c r]|] eqn:E; [|done].
  destruct (_ && _); [|done]. intros [= <- <-]. by apply split_once_str_inv.
Qed.

Lemma split_error_prefix_text msg text code :
  split_error_prefix msg = (code, text) -> is_empty msg = false -> is_empty text = false.
Proof.
  unfold split_error_prefix. destruct (split_once_str ": " msg) as [[c r]|]; [|by intros [= <- <-]].
  destruct (is_empty c), (is_empty r) eqn:R; cbn [negb andb]; [by intros [= <- <-]..|].
  destruct (forallb _ _); by intros [= <- <-].
Qed.
(** Reading back the four shapes of [dest_error_json]. *)
Lemma error_shapes_read {Laws : SerdeJsonLaws} from code text data :
  from <> Converse -> is_empty text = false -> is_empty code = false -> code <> "error" ->
  data = match from with
         | Messages => jobj [("type", JStr "error"); ("error", jobj [("type", JStr code); ("message", JStr text)])]
         | Responses => jobj [("type", JStr "error"); ("message", JStr text); ("code", JStr code)]
         | Gemini => jobj [("error", jobj [("message", JStr text); ("status", JStr code)])]
         | _ => jobj [("error", jobj [("type", JStr code); ("message", JStr text)])]
         end ->
  exact_json data = true ->
  sse_wrapped_error_message (to_string data) = Some (code +:+ ": " +:+ text).
Proof.
  intros N T K Ne -> X. apply String.eqb_neq in Ne. unfold sse_wrapped_error_message.
  rewrite from_to by (unfold reparses; rewrite X; by destruct from). cbn [mbind option_bind].
  set (data := match from with Messages => _ | _ => _ end).
  assert (json_has_completion data || choice_visible data = false) as -> by (subst data; by destruct from; vm_compute).
  assert (json_string_error data = None) as -> by (subst data; by destruct from; vm_compute).
  assert (exists err, wrapped_error_object data = Some err
    /\ find_map (wrapped_code err) ["type"; "code"; "status"] = Some code
    /\ nonempty (get_str err "message") = Some text) as (err & -> & Fc & Fm).
  { subst data. destruct from; try done; (eexists; split; [vm_compute; reflexivity|]); cbn [find_map];
      unfold wrapped_code, nonempty, get_str; cbn; eqb_literals; cbn; rewrite ?K, ?T; cbn; rewrite ?Ne; cbn; done. }
  cbn [mbind option_bind]. by rewrite Fc, Fm.
Qed.

(** Errors survive a second hop: what the proxy writes to a client for the
    error [msg] is a frame the same proxy, placed behind it, reads as the error
    [msg] - the code it starts with and its text - where a text without a code
    gets the one its dialect has for it. *)
Theorem error_event_reads_back {Laws : SerdeJsonLaws} from msg :
  from <> Converse -> is_empty msg = false -> (split_error_prefix msg).1 <> Some "error" ->
  exact_json (dest_error_json from msg) = true ->
  sse_wrapped_error_message (to_string (dest_error_json from msg))
  = Some (if is_some (split_error_prefix msg).1 then msg else default_code from +:+ ": " +:+ msg).
Proof.
  intros N M C X. destruct (split_error_prefix msg) as [code text] eqn:E. cbn [fst] in *.
  pose proof (split_error_prefix_text _ _ _ E M) as T.
  assert (is_empty (unwrap_or code (default_code from)) = false) as K.
  { destruct code as [c|]; [|by destruct from]. unfold split_error_prefix in E.
    destruct (split_once_str ": " msg) as [[c' r]|]; [|done]. destruct (is_empty c') eqn:Ec; [done|].
    destruct (_ && _); [|done]. by injection E as -> _. }
  rewrite (error_shapes_read from (unwrap_or code (default_code from)) text); try done.
  - destruct code as [c|]; cbn [is_some unwrap_or].
    + by rewrite (split_error_prefix_inv _ _ _ E).
    + unfold split_error_prefix in E. destruct (split_once_str ": " msg) as [[c' r]|]; [destruct (_ && _); [done|]|]; by injection E as <-.
  - destruct code as [c|]; cbn; [congruence|by destruct from].
  - unfold dest_error_json. rewrite E. by destruct from.
Qed.
End Properties.

(** ** Witnesses *)
Section Witnesses.
#[local] Existing Instance bits_codec.
#[local] Existing Instance bits_codec_laws.

Lemma error_event_reads_back_witness :
  sse_wrapped_error_message (to_string (dest_error_json Messages "overloaded_error: try: later"))
  = Some "overloaded_error: try: later".
Proof.
  apply (error_event_reads_back Messages "overloaded_error: try: later");
    [discriminate|reflexivity|vm_compute; discriminate|vm_compute; reflexivity].
Defined.

Definition error_and_text : list u8 :=
  bytes_of_str (to_string (jobj [("error", JStr "late"); ("choices", JArr [jobj [("message", jobj [("content", JStr "hi")])]])])).

Lemma vendor_failure_hides_nothing_witness : cross_wire_vendor_failure Messages ChatCompletions true error_and_text = None.
Proof.
  apply (vendor_failure_hides_nothing Messages ChatCompletions true error_and_text
    (jobj [("error", JStr "late"); ("choices", JArr [jobj [("message", jobj [("content", JStr "hi")])]])]));
    [vm_compute; reflexivity|].
  eexists. split; [reflexivity|]. eexists. split; [reflexivity|]. eexists _, _. split; [reflexivity|].
  split; [left; reflexivity|]. eexists. split; [reflexivity|]. exists None, [At "content"].
  split; [left; reflexivity|]. split; [exact I|]. eexists. split; [reflexivity|]. by exists "hi".
Defined.
End Witnesses.
