(* ===== verification/Upstream.v ===== *)
(** * Upstream: the URL a request is sent to

    [W/upstream.rs]: [base_url] and [chat_path] of the profile are joined, the
    model name is put into the path as one percent-encoded segment, and the
    last method of the path becomes the streaming one.  A path that is itself
    an absolute URL is sent there.  The name of the model comes with each
    request, so the theorems are about what it cannot do: leave the host of
    the profile, or be read as anything but itself. *)
From S2P Require Import Prelude Text ProfileTypes.

Definition MISSING_BASE_URL : string := "profile has no base_url; set top-level `base_url` on the profile".

(** [str::replace] for a pattern that is not empty: after a match the rest of
    the pattern is skipped. *)
Fixpoint replace_from (skip : nat) (p r s : string) : string :=
  match s with
  | EmptyString => ""
  | String a t =>
      match skip with
      | S skip => replace_from skip p r t
      | O => if starts_with p s then r +:+ replace_from (pred (String.length p)) p r t
             else String a (replace_from 0 p r t)
      end
  end.
Definition str_replace (p r s : string) : string := replace_from 0 p r s.

(** [str::replacen] with count 1. *)
Fixpoint replace_first (p r s : string) : string :=
  match strip_prefix p s with
  | Some rest => r +:+ rest
  | None => match s with EmptyString => "" | String a t => String a (replace_first p r t) end
  end.

Fixpoint split_path_suffix (path : string) : string * string :=
  match path with
  | EmptyString => ("", "")
  | String a t =>
      if Ascii.eqb a "?" || Ascii.eqb a "#" then ("", path)
      else let '(x, y) := split_path_suffix t in (String a x, y)
  end.

(** [query.split(['?', '&']).any(|part| part == part)], by the part so far. *)
Fixpoint any_part (wanted part query : string) : bool :=
  match query with
  | EmptyString => String.eqb part wanted
  | String a t =>
      if Ascii.eqb a "?" || Ascii.eqb a "&" then String.eqb part wanted || any_part wanted "" t
      else any_part wanted (part +:+ String a "") t
  end.

(** Gemini streaming needs [alt=sse].  Keep an existing query and fragment. *)
Definition with_alt_sse (suffix : string) : string :=
  if is_empty suffix then "?alt=sse"
  else
    let '(query, fragment) :=
      match split_once "#" suffix with Some (query, fragment) => (query, Some fragment) | None => (suffix, None) end in
    let out :=
      if is_empty query then "?alt=sse"
      else if any_part "alt=sse" "" query then query
      else query +:+ "&alt=sse" in
    match fragment with Some fragment => out +:+ "#" +:+ fragment | None => out end.

Definition rewrite_stream_method (wire : option Wire) (path : string) (stream : bool) : string :=
  let '(path_only, suffix) := split_path_suffix path in
  if negb stream then path_only +:+ suffix
  else
    match wire with
    | Some Gemini =>
        match strip_suffix ":generateContent" path_only with
        | Some prefix => prefix +:+ ":streamGenerateContent" +:+ with_alt_sse suffix
        | None => path_only +:+ suffix
        end
    | Some Messages =>
        match strip_suffix ":rawPredict" path_only with
        | Some prefix => prefix +:+ ":streamRawPredict" +:+ suffix
        | None => path_only +:+ suffix
        end
    | Some Converse =>
        if ends_with "/converse" path_only then path_only +:+ "-stream" +:+ suffix else path_only +:+ suffix
    | _ => path_only +:+ suffix
    end.

Definition is_absolute_http_url (path : string) : bool :=
  match split_once_str "://" path with
  | None => false
  | Some (scheme, _) => eq_ignore_ascii_case scheme "http" || eq_ignore_ascii_case scheme "https"
  end.

(** [b"0123456789ABCDEF"[d as usize]] for a half byte. *)
Definition hex_digit (d : Z) : ascii := if d <? 10 then byte_of (48 + d) else byte_of (55 + d).

Definition segment_byte (b : ascii) : bool :=
  is_ascii_alphanumeric b || existsb (Ascii.eqb b) ["-"; "."; "_"; "~"; ":"]%char.

Fixpoint encode_model_segment (model : string) : string :=
  match model with
  | EmptyString => ""
  | String b t =>
      if segment_byte b then String b (encode_model_segment t)
      else String "%" (String (hex_digit (Z.shiftr (byte_val b) 4))
             (String (hex_digit (Z.land (byte_val b) 15)) (encode_model_segment t)))
  end.

Definition rewrite_vertex_global_host (url : string) : string :=
  replace_first "://global-aiplatform.googleapis.com" "://aiplatform.googleapis.com" url.

(** The path before the streaming method is chosen: the model is substituted
    when there is one, and no placeholder is left. *)
Definition path_for_model (template : string) (model : option string) : result string string :=
  let* path :=
    match opt_filter (fun m => negb (is_empty m)) model with
    | Some model =>
        if String.eqb model "." || String.eqb model ".."
        then Err "model is a dot segment and would change the upstream path"
        else Ok (str_replace "{model}" (encode_model_segment model) template)
    | None => Ok template
    end in
  if str_contains "{model}" path
  then Err "request has no model and the profile path still contains {model}" else Ok path.

Definition path_template (profile : ResolvedProfile) : string :=
  unwrap_or (opt_or (h_chat_path (http profile)) (default_chat_path <$> d_wire (dialect profile))) "/".

Definition upstream_url_for_model (profile : ResolvedProfile) (model : option string) (stream : bool) :
  result string string :=
  match h_base_url (http profile) with
  | None => Err MISSING_BASE_URL
  | Some base =>
      let* path := path_for_model (path_template profile) model in
      let path := trim (rewrite_stream_method (d_wire (dialect profile)) path stream) in
      Ok (rewrite_vertex_global_host
            (if is_absolute_http_url path then path
             else trim_end_matches "/" base +:+ (if starts_with "/" path then path else "/" +:+ path)))
  end.

(** ** Percent encoding

    [decode_segment] is the reference, RFC 3986: [%XY] stands for one byte. *)
Definition hex_value (c : ascii) : Z :=
  if byte_in 48 57 c then byte_val c - 48 else byte_val c - 55.

Fixpoint decode_segment (s : string) : string :=
  match s with
  | String a (String h (String l t) as u) =>
      if Ascii.eqb a "%" then String (byte_of (16 * hex_value h + hex_value l)) (decode_segment t)
      else String a (decode_segment u)
  | String a t => String a (decode_segment t)
  | EmptyString => ""
  end.

Definition every_byte (P : ascii -> bool) : bool := forallb (fun n => P (byte_of (Z.of_nat n))) (seq 0 256).

Lemma every_byte_spec P b : every_byte P = true -> P b = true.
Proof.
  unfold every_byte. rewrite List.forallb_forall. intros H.
  specialize (H (Z.to_nat (byte_val b))). pose proof (byte_val_range b).
  rewrite Z2Nat.id, byte_of_val in H by lia. apply H. apply in_seq. lia.
Qed.

(** What an encoded byte looks like: a byte of a segment, or an escape that
    stands for it, and never one of the bytes that delimit a URL. *)
Definition delimiter (a : ascii) : bool := existsb (Ascii.eqb a) ["/"; "?"; "#"; "\"; "{"; "}"; " "]%char.

Lemma segment_byte_spec b : segment_byte b = true -> delimiter b = false /\ Ascii.eqb b "%" = false.
Proof.
  intros H. assert (E : implb (segment_byte b) (negb (delimiter b) && negb (Ascii.eqb b "%")) = true).
  { apply (every_byte_spec (fun b => implb (segment_byte b) (negb (delimiter b) && negb (Ascii.eqb b "%")))).
    by vm_compute. }
  rewrite H in E. cbn in E. by rewrite andb_true_iff, !negb_true_iff in E.
Qed.

Lemma escape_spec b :
  delimiter (hex_digit (Z.shiftr (byte_val b) 4)) = false /\ delimiter (hex_digit (Z.land (byte_val b) 15)) = false
  /\ byte_of (16 * hex_value (hex_digit (Z.shiftr (byte_val b) 4)) + hex_value (hex_digit (Z.land (byte_val b) 15))) = b.
Proof.
  pose (P := fun b => negb (delimiter (hex_digit (Z.shiftr (byte_val b) 4)))
    && negb (delimiter (hex_digit (Z.land (byte_val b) 15)))
    && Ascii.eqb (byte_of (16 * hex_value (hex_digit (Z.shiftr (byte_val b) 4)) + hex_value (hex_digit (Z.land (byte_val b) 15)))) b).
  assert (E : P b = true) by (apply every_byte_spec; by vm_compute). unfold P in E.
  rewrite !andb_true_iff, !negb_true_iff, Ascii.eqb_eq in E. by destruct E as [[? ?] ?].
Qed.

Lemma decode_segment_cons b t : Ascii.eqb b "%" = false -> decode_segment (String b t) = String b (decode_segment t).
Proof. intros E. destruct t as [|h [|l t]]; cbn; by rewrite ?E. Qed.

Lemma decode_encoded model : decode_segment (encode_model_segment model) = model.
Proof.
  induction model as [|b t IH]; [done|]. cbn [encode_model_segment]. destruct (segment_byte b) eqn:E.
  - destruct (segment_byte_spec _ E) as [D P]. by rewrite decode_segment_cons, IH.
  - destruct (escape_spec b) as (_ & _ & V). cbn [decode_segment Ascii.eqb Bool.eqb]. by rewrite V, IH.
Qed.

Definition plain (s : string) : bool := forallb (fun a => negb (delimiter a)) (bytes_of_str s).

Lemma encoded_plain model : plain (encode_model_segment model) = true.
Proof.
  unfold plain. induction model as [|b t IH]; [done|]. cbn [encode_model_segment].
  destruct (segment_byte b) eqn:E; cbn [bytes_of_str String.list_ascii_of_string forallb].
  - destruct (segment_byte_spec _ E) as [D _]. by rewrite D.
  - destruct (escape_spec b) as (D1 & D2 & _). by rewrite D1, D2.
Qed.

Lemma plain_slash_free s : plain s = true -> negb (contains_char "/" s) = true.
Proof.
  unfold plain. induction s as [|a s IH]; [done|].
  cbn [bytes_of_str String.list_ascii_of_string forallb contains_char]. rewrite andb_true_iff, negb_orb. intros [D P].
  rewrite (IH P), andb_true_r. unfold delimiter in D. cbn in D. by destruct (Ascii.eqb a "/").
Qed.

(** A model name is read as itself: the path segment written for it has
    none of the bytes that end a segment, a query or a fragment, and the
    percent-decoding of the standard gives the name back byte by byte. *)
Theorem model_segment_roundtrip model :
  decode_segment (encode_model_segment model) = model /\ plain (encode_model_segment model) = true.
Proof. split; [apply decode_encoded|apply encoded_plain]. Qed.

(** ** A path has no second slash *)

(** Some slash of [s] follows another; [prev] says whether a slash is just
    before [s]. *)
Fixpoint double_slash (prev : bool) (s : string) : bool :=
  match s with
  | EmptyString => false
  | String a t => let slash := Ascii.eqb a "/" in (prev && slash) || double_slash slash t
  end.
Definition slash_free (s : string) : bool := negb (contains_char "/" s).

Lemma double_slash_suffix p x y : double_slash p (x +:+ y) = false -> exists q, double_slash q y = false.
Proof.
  revert p. induction x as [|a x IH]; intros p; [by exists p|]. rewrite str_app_cons. cbn.
  intros [_ H]%orb_false_iff. eauto.
Qed.

Lemma double_slash_weaken p s : double_slash p s = false -> double_slash false s = false.
Proof. destruct s as [|a s]; [done|]. cbn. by intros [_ H]%orb_false_iff. Qed.

Lemma double_slash_prefix p x y : double_slash p (x +:+ y) = false -> double_slash p x = false.
Proof.
  revert p. induction x as [|a x IH]; intros p; [done|]. rewrite str_app_cons. cbn.
  intros [-> H]%orb_false_iff. cbn. eauto.
Qed.

Lemma double_slash_free p y z : slash_free y = true -> y <> "" -> double_slash p (y +:+ z) = double_slash false z.
Proof.
  unfold slash_free. rewrite negb_true_iff. revert p. induction y as [|a y IH]; intros p F N; [done|].
  rewrite str_app_cons. cbn in *. apply orb_false_iff in F as [E F]. rewrite E, andb_false_r. cbn.
  destruct y; [done|]. by apply IH.
Qed.

Lemma double_slash_bridge p x y z : slash_free y = true -> y <> "" ->
  double_slash p (x +:+ y +:+ z) = double_slash p x || double_slash false z.
Proof.
  intros F N. revert p. induction x as [|a x IH]; intros p; [rewrite str_app_nil; by apply double_slash_free|].
  rewrite str_app_cons. cbn. by rewrite IH, orb_assoc.
Qed.

Lemma double_slash_trim s : double_slash false s = false -> double_slash false (trim s) = false.
Proof.
  intros H. destruct (trim_start_spec s) as (_ & (w & E) & _). rewrite E in H.
  apply double_slash_suffix in H as [q H]. apply double_slash_weaken in H. clear E.
  unfold trim, trim_end. destruct (trim_rev_spec (str_rev (trim_start s))) as (_ & (w' & E) & _).
  apply (f_equal str_rev) in E. rewrite str_rev_involutive, str_rev_concat in E. rewrite E in H.
  by apply double_slash_prefix in H.
Qed.

Lemma replace_slashes skip p r s prev prev' :
  slash_free r = true -> r <> "" -> (1 < String.length p)%nat ->
  (match skip with O => prev' = true -> prev = true | S _ => prev' = false end) ->
  double_slash prev s = false -> double_slash prev' (replace_from skip p r s) = false.
Proof.
  intros F N P. revert skip prev prev'. induction s as [|a t IH]; intros skip prev prev' K H; [done|].
  cbn [replace_from double_slash] in *. apply orb_false_iff in H as [H1 H2]. destruct skip as [|skip].
  - destruct (starts_with p (String a t)).
    + rewrite double_slash_free by done. eapply IH, H2. by destruct p as [|? [|? ?]]; cbn in *; try lia.
    + cbn [double_slash]. rewrite (IH 0%nat (Ascii.eqb a "/")) by done. rewrite orb_false_r.
      destruct prev'; [|done]. by rewrite K in H1.
  - eapply IH, H2. subst. by destruct skip.
Qed.

Lemma split_path_suffix_spec path : path = (split_path_suffix path).1 +:+ (split_path_suffix path).2.
Proof.
  induction path as [|a t IH]; [done|]. cbn. destruct (Ascii.eqb a "?" || Ascii.eqb a "#"); [done|].
  destruct (split_path_suffix t) as [x y]. cbn in *. by rewrite str_app_cons, <- IH.
Qed.

Lemma strip_suffix_Some p s t : strip_suffix p s = Some t -> s = t +:+ p.
Proof.
  unfold strip_suffix. destruct (strip_prefix _ _) as [u|] eqn:E; [|done]. intros [= <-].
  apply strip_prefix_Some, (f_equal str_rev) in E. by rewrite str_rev_concat, !str_rev_involutive in E.
Qed.

Lemma with_alt_sse_slashes suffix : double_slash false suffix = false -> double_slash false (with_alt_sse suffix) = false.
Proof.
  unfold with_alt_sse. intros H. destruct (is_empty suffix); [done|].
  destruct (split_once "#" suffix) as [[query fragment]|] eqn:S.
  - apply split_once_Some in S as [-> _]. change (String "#" fragment) with ("#" +:+ fragment) in H.
    rewrite double_slash_bridge in H by done. apply orb_false_iff in H as [Hq Hf].
    assert (forall q, double_slash false q = false -> double_slash false (q +:+ "#" +:+ fragment) = false) as K.
    { intros q Q. by rewrite double_slash_bridge, Q, Hf. }
    apply K. repeat case_goal; try done. rewrite <- (str_app_nil_r "&alt=sse"), double_slash_bridge by done.
    by rewrite Hq.
  - repeat case_goal; try done. rewrite <- (str_app_nil_r "&alt=sse"), double_slash_bridge by done. by rewrite H.
Qed.

Lemma rewrite_stream_method_slashes wire path stream :
  double_slash false path = false -> double_slash false (rewrite_stream_method wire path stream) = false.
Proof.
  intros H. unfold rewrite_stream_method. pose proof (split_path_suffix_spec path) as E.
  destruct (split_path_suffix path) as [x y]. cbn [fst snd] in E. rewrite E in H.
  assert (forall m prefix m' y', strip_suffix m x = Some prefix -> slash_free m = true -> m <> "" ->
    slash_free m' = true -> m' <> "" -> (double_slash false y = false -> double_slash false y' = false) ->
    double_slash false (prefix +:+ m' +:+ y') = false) as K.
  { intros m prefix m' y' S Fm Nm Fm' Nm' Y. apply strip_suffix_Some in S as ->.
    rewrite str_app_assoc, double_slash_bridge in H by done. apply orb_false_iff in H as [Hp Hy].
    rewrite double_slash_bridge by done. by rewrite Hp, Y. }
  destruct stream; [|done]. destruct wire as [[]|]; cbn [negb]; try done.
  - destruct (strip_suffix ":rawPredict" x) eqn:S; [|done]. by eapply K.
  - destruct (strip_suffix ":generateContent" x) eqn:S; [|done]. eapply K; try done. apply with_alt_sse_slashes.
  - destruct (ends_with "/converse" x); [|done]. rewrite double_slash_bridge by done.
    rewrite (double_slash_prefix _ _ _ H). apply double_slash_suffix in H as [q H]. by apply double_slash_weaken in H.
Qed.

Lemma double_slash_not_absolute path : double_slash false path = false -> is_absolute_http_url path = false.
Proof.
  intros H. unfold is_absolute_http_url. destruct (split_once_str "://" path) as [[x y]|] eqn:S; [|done].
  apply split_once_str_inv in S as ->. apply double_slash_suffix in H as [q H]. by destruct q.
Qed.

(** ** The host of the profile *)
Lemma trim_start_char_head c s : starts_with (String c "") (trim_start_char c s) = false.
Proof.
  induction s as [|a s IH]; [done|]. cbn. destruct (Ascii.eqb a c) eqn:E; [done|].
  unfold starts_with. cbn. destruct (Ascii.eqb c a) eqn:E'; [|done].
  apply Ascii.eqb_eq in E' as ->. by rewrite Ascii.eqb_refl in E.
Qed.

Lemma trim_end_matches_tail c s : ends_with (String c "") (trim_end_matches c s) = false.
Proof. unfold ends_with, trim_end_matches. rewrite str_rev_involutive. apply trim_start_char_head. Qed.

Lemma ends_with_cons p a s : ends_with p s = true -> ends_with p (String a s) = true.
Proof.
  unfold ends_with, starts_with. rewrite str_rev_cons. destruct (strip_prefix _ _) as [t|] eqn:E; [|done].
  apply strip_prefix_Some in E as ->. by rewrite str_app_assoc, strip_prefix_app.
Qed.

Lemma strip_prefix_slash_free g b t : slash_free g = true ->
  strip_prefix g (b +:+ String "/" t) = (fun rest => rest +:+ String "/" t) <$> strip_prefix g b.
Proof.
  unfold slash_free. rewrite negb_true_iff. revert b. induction g as [|a g IH]; intros b F; [done|]. cbn [contains_char] in F.
  apply orb_false_iff in F as [Fa F].
  destruct b as [|c b]; [rewrite str_app_nil; cbn [strip_prefix]; by rewrite Fa|].
  rewrite str_app_cons. cbn [strip_prefix].
  destruct (Ascii.eqb a c); [by apply IH|done].
Qed.

(** The pattern of the global host does not reach into the path. *)
Lemma rewrite_vertex_base b t :
  ends_with "/" b = false -> double_slash false (String "/" t) = false ->
  rewrite_vertex_global_host (b +:+ String "/" t) = rewrite_vertex_global_host b +:+ String "/" t.
Proof.
  intros E D. unfold rewrite_vertex_global_host.
  set (g := "global-aiplatform.googleapis.com"). set (r := "://aiplatform.googleapis.com").
  assert (slash_free g = true) as G by done.
  assert (forall s prev, double_slash prev s = false -> strip_prefix (String ":" (String "/" (String "/" g))) s = None) as NP.
  { intros [|x [|y [|z s]]] prev H; try done; cbn in *; destruct (Ascii.eqb ":" x) eqn:Ex; try done.
    - by destruct (Ascii.eqb "/" y).
    - destruct (Ascii.eqb_spec "/" y) as [<-|]; [|done]. destruct (Ascii.eqb_spec "/" z) as [<-|]; [|done].
      cbn in H. by rewrite !orb_true_r in H. }
  assert (forall s prev, double_slash prev s = false -> replace_first (String ":" (String "/" (String "/" g))) r s = s) as NR.
  { induction s as [|x s IH]; intros prev H; [done|]. cbn [replace_first]. rewrite (NP _ _ H). f_equal.
    cbn in H. apply orb_false_iff in H as [_ H]. eauto. }
  induction b as [|a b IH]; [by apply (NR (String "/" t) false)|].
  assert (ends_with "/" b = false) as E'.
  { destruct (ends_with "/" b) eqn:X; [|done]. by rewrite (ends_with_cons _ a _ X) in E. }
  rewrite str_app_cons. cbn [replace_first].
  assert (strip_prefix (String ":" (String "/" (String "/" g))) (String a (b +:+ String "/" t))
    = (fun rest => rest +:+ String "/" t) <$> strip_prefix (String ":" (String "/" (String "/" g))) (String a b)) as ->.
  { cbn [strip_prefix]. destruct (Ascii.eqb ":" a); [|done].
    destruct b as [|b1 b].
    { rewrite str_app_nil. destruct t as [|y t]; [done|]. cbn in D |- *.
      destruct (Ascii.eqb_spec "/" y) as [<-|]; [done|done]. }
    rewrite str_app_cons. cbn [strip_prefix]. destruct (Ascii.eqb_spec "/" b1) as [<-|]; [|done].
    destruct b as [|b2 b]; [done|]. rewrite str_app_cons. cbn [strip_prefix]. destruct (Ascii.eqb "/" b2); [|done].
    by apply strip_prefix_slash_free. }
  destruct (strip_prefix _ (String a b)) as [rest|]; cbn; [by rewrite str_app_assoc|]. by rewrite IH.
Qed.

Lemma opt_filter_kept {A} (p : A -> bool) o x : opt_filter p o = Some x -> p x = true.
Proof. destruct o as [y|]; cbn; [|done]. destruct (p y) eqn:E; [|done]. by intros [= <-]. Qed.

Lemma path_for_model_slashes template model path :
  double_slash false template = false -> path_for_model template model = Ok path -> double_slash false path = false.
Proof.
  intros D. unfold path_for_model. destruct (opt_filter _ model) as [m|] eqn:M; cbn [rbind].
  - destruct (String.eqb m "." || String.eqb m ".."); cbn; [done|]. case_goal; [done|]. intros [= <-].
    unfold str_replace. 
    refine (replace_slashes 0 "{model}" _ template false false _ _ _ (fun H => H) D);
      [apply plain_slash_free, encoded_plain| |cbn; lia].
    apply opt_filter_kept in M. destruct m as [|b m]; [done|]. cbn. by destruct (segment_byte b).
  - case_goal; [done|]. by intros [= <-].
Qed.

(** C17. The model of a request cannot choose the host: when the path of the
    profile is relative and has no empty segment, every URL asked for is the
    profile's own base URL - with the region-less Vertex host for [global] -
    followed by a path, whatever bytes the model name has. *)
Theorem model_keeps_host profile base model stream url :
  h_base_url (http profile) = Some base -> double_slash false (path_template profile) = false ->
  upstream_url_for_model profile model stream = Ok url ->
  exists tail, url = rewrite_vertex_global_host (trim_end_matches "/" base) +:+ "/" +:+ tail
    /\ double_slash false ("/" +:+ tail) = false.
Proof.
  intros B D. unfold upstream_url_for_model. rewrite B.
  destruct (path_for_model _ model) as [path|] eqn:P; cbn [rbind]; [|done].
  pose proof (path_for_model_slashes _ _ _ D P) as Q.
  apply (rewrite_stream_method_slashes (d_wire (dialect profile)) _ stream), double_slash_trim in Q.
  set (p := trim _) in *. rewrite double_slash_not_absolute by done. intros [= <-].
  assert (exists tail, (if starts_with "/" p then p else "/" +:+ p) = String "/" tail
    /\ double_slash false (String "/" tail) = false) as (tail & -> & T).
  { destruct (starts_with "/" p) eqn:S.
    - destruct p as [|a t] eqn:Ep; [done|]. exists t. unfold starts_with in S. cbn in S.
      destruct (Ascii.eqb_spec "/" a) as [<-|]; done.
    - exists p. split; [done|]. destruct p as [|a t]; [done|]. unfold starts_with in S. cbn [strip_prefix] in S.
      cbn [double_slash] in *. destruct (Ascii.eqb_spec "/" a) as [<-|N]; [done|].
      destruct (Ascii.eqb_spec a "/") as [->|]; [done|]. done. }
  exists tail. split; [|done]. apply rewrite_vertex_base; [apply trim_end_matches_tail|done].
Qed.

(** ** Witnesses *)
Definition vertex_profile : ResolvedProfile :=
  mkProfile 1 "vertex" None (mkDialect (Some Gemini) [] Replace Passthrough UnknownHardError)
    (mkHttp (Some "https://global-aiplatform.googleapis.com/") None None [] Replace None None None None)
    None [] None (betas_default_for (Some Gemini) false).

Lemma model_keeps_host_witness :
  exists url tail, upstream_url_for_model vertex_profile (Some "//evil.test/a?b:generateContent") true = Ok url
    /\ url = "https://aiplatform.googleapis.com" +:+ "/" +:+ tail.
Proof.
  edestruct (model_keeps_host vertex_profile) with (stream := true) (model := Some "//evil.test/a?b:generateContent")
    as (tail & E & _); [reflexivity|reflexivity|vm_compute; reflexivity|].
  eexists _, tail. split; [vm_compute; reflexivity|exact E].
Defined.
