(* ===== verification/Loss.v ===== *)
(** * Loss: functions that note what they change

    The request maps take [&mut LossReport] and append to it.  Here such a
    function returns what it computes with the events it appends, [noted A];
    [let!] runs one after the other and keeps the order of the events.  A map
    that can also fail returns a [result] of that, sequenced by [let*!]. *)
From S2P Require Import Prelude Text Json Ir.

Definition noted (A : Type) : Type := A * list LossEvent.

Definition quiet {A} (a : A) : noted A := (a, []).

Definition nbind {A B} (c : noted A) (f : A -> noted B) : noted B :=
  let '(a, before) := c in let '(b, after) := f a in (b, before ++ after).

Notation "'let!' p := c1 'in' c2" := (nbind c1 (fun p => c2))
  (at level 10, p pattern, c1 at level 100, c2 at level 200) : wire_scope.

(** [report.record(path, action, detail)] *)
Definition note (path : string) (action : LossAction) (detail : string) : noted unit :=
  (tt, [mkLoss path action detail]).

(** [if b { report.record(...) }] *)
Definition note_if (b : bool) (path : string) (action : LossAction) (detail : string) : noted unit :=
  if b then note path action detail else quiet tt.

Definition no_slot_if (b : bool) (path : string) : noted unit := note_if b path Drop "no slot".

(** A row of statements that only note. *)
Fixpoint note_all (l : list (noted unit)) : noted unit :=
  match l with [] => quiet tt | c :: l => let! _ := c in note_all l end.

Fixpoint nmap {A B} (f : A -> noted B) (l : list A) : noted (list B) :=
  match l with
  | [] => quiet []
  | a :: l => let! b := f a in let! bs := nmap f l in quiet (b :: bs)
  end.

(** [iter().filter_map(..).collect()] *)
Definition nfilter_map {A B} (f : A -> noted (option B)) (l : list A) : noted (list B) :=
  let! bs := nmap f l in quiet (omap id bs).

(** ** With errors *)
Definition noted_or_error (A : Type) : Type := result MapError (noted A).

Definition ebind {A B} (c : noted_or_error A) (f : A -> noted_or_error B) : noted_or_error B :=
  match c with
  | Ok (a, before) => match f a with Ok (b, after) => Ok (b, before ++ after) | Err e => Err e end
  | Err e => Err e
  end.

Notation "'let*!' p := c1 'in' c2" := (ebind c1 (fun p => c2))
  (at level 10, p pattern, c1 at level 100, c2 at level 200) : wire_scope.

Definition lift {A} (c : noted A) : noted_or_error A := Ok c.
Definition check (r : result MapError unit) : noted_or_error unit := rmap quiet r.

(** [injection] would compute the values. *)
Lemma Ok_inj {E A} (x y : A) : @Ok E A x = Ok y -> x = y.
Proof. by intros [= ->]. Qed.

(** ** Bodies

    [body["key"] = value] under a condition, on the object being built. *)
Definition put (k : string) (o : option json) (body : json) : json :=
  match o with Some v => index_set body k v | None => body end.

(** A step writes to the body and notes. *)
Definition step : Type := json -> noted json.

Definition steps (l : list step) (body : json) : noted json :=
  fold_left (fun acc s => nbind acc s) l (quiet body).

(** [if let Some(x) = o { body[k] = v(x); note }] *)
Definition set_when {A} (o : option A) (k : string) (v : A -> json) (c : noted unit) : step := fun body =>
  match o with Some x => let! _ := c in quiet (index_set body k (v x)) | None => quiet body end.

Definition only_note (c : noted unit) : step := fun body => let! _ := c in quiet body.

(** ** Lemmas *)
Lemma nbind_fst {A B} (c : noted A) (f : A -> noted B) : (nbind c f).1 = (f c.1).1.
Proof. unfold nbind. destruct c as [a e]. cbn. by destruct (f a). Qed.

Lemma nbind_snd {A B} (c : noted A) (f : A -> noted B) : (nbind c f).2 = c.2 ++ (f c.1).2.
Proof. unfold nbind. destruct c as [a e]. cbn. by destruct (f a). Qed.

Lemma nmap_fst {A B} (f : A -> noted B) l : (nmap f l).1 = map (fun a => (f a).1) l.
Proof. induction l as [|a l IH]; [done|]. cbn [nmap map]. rewrite !nbind_fst. cbn. by rewrite IH. Qed.

Lemma nmap_snd {A B} (f : A -> noted B) l : (nmap f l).2 = concat (map (fun a => (f a).2) l).
Proof.
  induction l as [|a l IH]; [done|]. cbn [nmap map concat]. rewrite !nbind_snd. cbn. by rewrite IH, app_nil_r.
Qed.

Lemma nfilter_map_fst {A B} (f : A -> noted (option B)) l : (nfilter_map f l).1 = omap (fun a => (f a).1) l.
Proof.
  unfold nfilter_map. rewrite nbind_fst, nmap_fst. cbn [quiet fst]. induction l as [|a l IH]; [done|].
  cbn. destruct ((f a).1); cbn; by rewrite IH.
Qed.

Lemma steps_from l c : (fold_left (fun acc s => nbind acc s) l c).1 = (steps l c.1).1.
Proof.
  revert c. induction l as [|s l IH]; intros c; [done|]. unfold steps. cbn [fold_left]. rewrite IH, (IH (nbind (quiet _) s)).
  by rewrite !nbind_fst.
Qed.

Lemma steps_app xs ys body : (steps (xs ++ ys) body).1 = (steps ys (steps xs body).1).1.
Proof. unfold steps at 1. by rewrite fold_left_app, steps_from. Qed.

Lemma steps_cons s l body : (steps (s :: l) body).1 = (steps l (s body).1).1.
Proof. rewrite (steps_app [s] l). unfold steps. cbn [fold_left]. by rewrite nbind_fst. Qed.

Lemma steps_nil body : (steps [] body).1 = body.
Proof. done. Qed.

Lemma get_put k o body k' : is_object body = true ->
  get (put k o body) k' = if String.eqb k' k then opt_or o (get body k') else get body k'.
Proof.
  intros O. unfold put. destruct o as [v|]; cbn [opt_or]; [|by destruct (String.eqb k' k)].
  rewrite get_index_set by done. by destruct (String.eqb k' k).
Qed.

Lemma set_when_fst {A} (o : option A) k v c body : (set_when o k v c body).1 = put k (v <$> o) body.
Proof. unfold set_when, put. destruct o; [|done]. by rewrite nbind_fst. Qed.

Lemma only_note_fst c body : (only_note c body).1 = body.
Proof. unfold only_note. by rewrite nbind_fst. Qed.

Lemma is_object_put k o body : is_object (put k o body) = is_object body.
Proof. destruct o; [apply is_object_index_set|done]. Qed.

#[export] Hint Rewrite @nbind_fst @set_when_fst only_note_fst steps_cons steps_nil : wire_json.

(** A second assignment to a key replaces the first. *)
(** Reads the fields of a literal object. *)
Ltac read_literals := repeat (rewrite ?get_jobj, ?get_index_set, ?get_put by (by rewrite ?is_object_put, ?is_object_jobj);
  cbn [assoc_last]; eqb_literals).

Lemma obj_insert_twice k v w m : obj_insert k v (obj_insert k w m) = obj_insert k v m.
Proof.
  induction m as [|[k' v'] m IH]; cbn; [by rewrite str_compare_refl|].
  destruct (String.compare k k') eqn:E; cbn; rewrite ?E, ?str_compare_refl; [done|done|by rewrite IH].
Qed.

Lemma index_set_twice body k v w : index_set (index_set body k w) k v = index_set body k v.
Proof. destruct body; try done. cbn. by rewrite obj_insert_twice. Qed.

(** ** Bodies as rows of assignments *)
Fixpoint puts (l : list (string * option json)) (body : json) : json :=
  match l with [] => body | (k, o) :: l => puts l (put k o body) end.

(** What a key holds after a row of assignments. *)
Fixpoint last_put (k : string) (l : list (string * option json)) (d : option json) : option json :=
  match l with [] => d | (k', o) :: l => last_put k l (if String.eqb k k' then opt_or o d else d) end.

Lemma get_puts l body k : is_object body = true -> get (puts l body) k = last_put k l (get body k).
Proof.
  revert body. induction l as [|[k' o] l IH]; intros body O; [done|]. cbn [puts last_put].
  rewrite IH by (by rewrite is_object_put). f_equal. rewrite get_put by done. done.
Qed.

Lemma puts_app xs ys body : puts (xs ++ ys) body = puts ys (puts xs body).
Proof. revert body. induction xs as [|[k o] xs IH]; intros body; [done|]. apply IH. Qed.

Lemma is_object_puts l body : is_object (puts l body) = is_object body.
Proof. revert body. induction l as [|[k o] l IH]; intros body; [done|]. cbn. by rewrite IH, is_object_put. Qed.

(** Steps that are assignments. *)
Lemma steps_puts (l : list step) (rows : list (list (string * option json))) body :
  Forall2 (fun s row => forall b, is_object b = true -> (s b).1 = puts row b) l rows -> is_object body = true ->
  (steps l body).1 = puts (concat rows) body.
Proof.
  intros F. revert body. induction F as [|s row l rows H _ IH]; intros body O; [done|].
  rewrite steps_cons. cbn [concat]. rewrite puts_app, H by done. apply IH. by rewrite is_object_puts.
Qed.

(** ** Nothing lost *)
Definition kept_whole (events : list LossEvent) : bool :=
  forallb (fun e => bool_decide (loss_action e = Preserve)) events.

Lemma kept_whole_app xs ys : kept_whole (xs ++ ys) = kept_whole xs && kept_whole ys.
Proof. apply forallb_app. Qed.

Lemma kept_whole_lossy events : lossy (mkReport events) = [] <-> kept_whole events = true.
Proof.
  unfold lossy, kept_whole. cbn. induction events as [|e l IH]; [done|]. cbn.
  destruct (decide (loss_action e = Preserve)) as [E|N].
  - rewrite bool_decide_false by (by intros []). rewrite (bool_decide_true (_ = _)) by done. exact IH.
  - rewrite bool_decide_true, (bool_decide_false (_ = _)) by done. done.
Qed.

Lemma kept_whole_note_if b path action detail :
  kept_whole (note_if b path action detail).2 = negb b || bool_decide (action = Preserve).
Proof. destruct b; cbn; [by rewrite andb_true_r|done]. Qed.

Lemma kept_whole_no_slot_if b path : kept_whole (no_slot_if b path).2 = negb b.
Proof. unfold no_slot_if. rewrite kept_whole_note_if. by rewrite bool_decide_false, orb_false_r. Qed.

Lemma kept_whole_note_all l : kept_whole (note_all l).2 = forallb (fun c => kept_whole c.2) l.
Proof. induction l as [|c l IH]; [done|]. cbn [note_all forallb]. by rewrite nbind_snd, kept_whole_app, IH. Qed.

Lemma kept_whole_only_note c body : kept_whole (only_note c body).2 = kept_whole c.2.
Proof. unfold only_note. by rewrite nbind_snd, kept_whole_app, andb_true_r. Qed.

Lemma steps_snd_from l c : (fold_left (fun acc s => nbind acc s) l c).2 = c.2 ++ (steps l c.1).2.
Proof.
  revert c. induction l as [|s l IH]; intros c; [by rewrite app_nil_r|].
  unfold steps. cbn [fold_left]. rewrite IH, (IH (nbind (quiet _) s)). rewrite !nbind_snd, !nbind_fst. cbn.
  by rewrite app_assoc.
Qed.

Lemma steps_snd_cons s l body : (steps (s :: l) body).2 = (s body).2 ++ (steps l (s body).1).2.
Proof. unfold steps at 1. cbn [fold_left]. rewrite steps_snd_from, nbind_snd, nbind_fst. done. Qed.

(** Every step of a row without loss is without loss. *)
Lemma kept_whole_steps l body : kept_whole (steps l body).2 = true ->
  Forall (fun s : step => exists b, kept_whole (s b).2 = true) l.
Proof.
  revert body. induction l as [|s l IH]; intros body; [constructor|]. rewrite steps_snd_cons, kept_whole_app, andb_true_iff.
  intros [H K]. constructor; [by exists body|by eapply IH].
Qed.

Lemma nmap_kept {A B} (f : A -> noted B) l :
  kept_whole (nmap f l).2 = true <-> Forall (fun a => kept_whole (f a).2 = true) l.
Proof.
  rewrite nmap_snd. induction l as [|a l IH]; cbn; [by split; [constructor|]|].
  rewrite kept_whole_app, andb_true_iff, IH. by rewrite Forall_cons.
Qed.

Lemma nfilter_map_kept {A B} (f : A -> noted (option B)) l :
  kept_whole (nfilter_map f l).2 = true <-> Forall (fun a => kept_whole (f a).2 = true) l.
Proof. unfold nfilter_map. rewrite nbind_snd, kept_whole_app, andb_true_r. apply nmap_kept. Qed.

(** ** The keys a step writes *)
Definition writes (ks : list string) (s : step) : Prop :=
  forall body, is_object body = true ->
    is_object (s body).1 = true /\ forall k, one_of k ks = false -> get (s body).1 k = get body k.

Lemma writes_put (f : json -> option json) k (c : json -> noted unit) :
  writes [k] (fun body => let! _ := c body in quiet (put k (f body) body)).
Proof.
  intros body O. rewrite nbind_fst. cbn [quiet fst]. rewrite is_object_put. split; [done|]. intros k' K.
  rewrite get_put by done. unfold one_of in K. cbn [existsb] in K. rewrite orb_false_r in K. by rewrite K.
Qed.

Lemma writes_set_when {A} (o : option A) k v c : writes [k] (set_when o k v c).
Proof.
  intros body O. rewrite set_when_fst. rewrite is_object_put. split; [done|]. intros k' K.
  rewrite get_put by done. unfold one_of in K. cbn [existsb] in K. rewrite orb_false_r in K. by rewrite K.
Qed.

Lemma writes_only_note c : writes [] (only_note c).
Proof. intros body O. by rewrite only_note_fst. Qed.

Lemma writes_steps l kss : Forall2 writes kss l -> writes (concat kss) (steps l).
Proof.
  intros F. induction F as [|ks s kss l H _ IH]; intros body O; [done|]. rewrite steps_cons.
  destruct (H body O) as [O1 G1]. destruct (IH _ O1) as [O2 G2]. split; [done|]. cbn [concat]. intros k K.
  rewrite one_of_app, orb_false_iff in K. destruct K as [K1 K2]. by rewrite G2, G1.
Qed.

(** A conditional step. *)
Lemma writes_if ks (b : json -> bool) s1 s2 : writes ks s1 -> writes ks s2 ->
  writes ks (fun body => if b body then s1 body else s2 body).
Proof. intros H1 H2 body O. destruct (b body); [by apply H1|by apply H2]. Qed.

Lemma writes_quiet ks : writes ks quiet.
Proof. by intros body O. Qed.

Lemma writes_nothing ks s : (forall body, (s body).1 = body) -> writes ks s.
Proof. intros H body O. by rewrite H. Qed.

(** An assignment to one key, whatever is noted. *)
Lemma writes_at k (s : step) : (forall body, is_object body = true -> exists o, (s body).1 = put k o body) -> writes [k] s.
Proof.
  intros H body O. destruct (H body O) as [o ->]. rewrite is_object_put. split; [done|]. intros k' K.
  rewrite get_put by done. unfold one_of in K. cbn [existsb] in K. rewrite orb_false_r in K. by rewrite K.
Qed.
