(* ===== verification/RequestCore.v ===== *)
(** * RequestCore: what the request maps of the five dialects share

    The helpers of [W/map/mod.rs] on parts, roles, media, models and sampling.
    A function that records losses is [noted].  Case folding of characters
    outside ASCII is a table of the standard library: [char_lower] gives the
    lower case of a character that is upper case. *)
From S2P Require Import Prelude Text Json Floats Ir ProfileTypes StreamCore Usage Shapes Chat Loss.

Definition json_kind (value : json) : string :=
  match value with
  | JNull => "null" | JBool _ => "bool" | JNum _ => "number" | JStr _ => "string" | JArr _ => "array"
  | JObj _ => "object"
  end.

(** [.map(str::trim).filter(|s| !s.is_empty())] *)
Definition trimmed (o : option string) : option string := nonempty (trim <$> o).

(** ** Fields *)
Definition bool_field (value : json) (key : string) : option bool := get value key ≫= as_bool.
Definition i64_field (value : json) (key : string) : option Z := get value key ≫= as_i64.

Definition string_object_field (value : json) (key : string) : list (string * string) :=
  match get value key ≫= as_object with Some m => string_members m | None => [] end.

Fixpoint stop_values (value : json) (keys : list string) : list string :=
  match keys with
  | [] => []
  | key :: keys =>
      match get value key with
      | Some (JStr s) => [s]
      | Some (JArr l) => omap as_str l
      | _ => stop_values value keys
      end
  end.

(** ** Cache breakpoints *)
Definition with_prompt_cache (part : option IrPart) (src : json) : option IrPart :=
  part ← part;
  match get src "prompt_cache_breakpoint" with
  | Some marker =>
      if is_object marker
      then Some (PPromptCacheBreakpoint (unwrap_or (trimmed (get_str marker "mode")) "explicit") part)
      else Some part
  | None => Some part
  end.

Definition peel_prompt_cache (part : IrPart) : IrPart * option string :=
  match part with PPromptCacheBreakpoint mode inner => (inner, Some mode) | other => (other, None) end.

(** Payload plus every cache breakpoint mode, outermost first. *)
Fixpoint peel_prompt_cache_modes (part : IrPart) : IrPart * list string :=
  match part with
  | PPromptCacheBreakpoint mode inner => let '(p, modes) := peel_prompt_cache_modes inner in (p, mode :: modes)
  | other => (other, [])
  end.

(** Payload plus the outermost cache breakpoint mode. *)
Definition peel_prompt_cache_all (part : IrPart) : IrPart * option string :=
  let '(p, modes) := peel_prompt_cache_modes part in (p, head modes).

(** Write [prompt_cache_breakpoint] when this wire has the field. *)
Definition apply_prompt_cache (value : json) (mode : option string) (keep : bool) : noted json :=
  match nonempty mode with
  | None => quiet value
  | Some mode =>
      if negb keep then
        let! _ := note "part.prompt_cache_breakpoint" Drop "prompt cache breakpoint has no slot" in quiet value
      else quiet (index_set value "prompt_cache_breakpoint" (jobj [("mode", JStr mode)]))
  end.

Definition drop_prompt_cache (mode : option string) : noted unit :=
  let! _ := apply_prompt_cache JNull mode false in quiet tt.

(** Record every cache breakpoint on [part]. *)
Definition drop_prompt_cache_modes (part : IrPart) : noted unit :=
  note_all (map (fun mode => drop_prompt_cache (Some mode)) (peel_prompt_cache_modes part).2).

Definition has_breakpoint (part : IrPart) : bool := is_some (peel_prompt_cache part).2.

(** Mode when a system or developer role is one text part with a breakpoint. *)
Definition role_text_breakpoint (parts : list IrPart) : option string :=
  match parts with [part] => (peel_prompt_cache part).2 | _ => None end.

(** Parts to keep in order when a role has more than one block and a breakpoint. *)
Definition role_content_parts (parts : list IrPart) : list IrPart :=
  if (1 <? length parts)%nat && existsb has_breakpoint parts then parts else [].

Definition note_role_breakpoint (mode : option string) : noted unit := drop_prompt_cache mode.

(** Text to send when a system or developer role has ordered parts. *)
Definition system_part_text (part : IrPart) : noted (option string) :=
  match (peel_prompt_cache_all part).1 with
  | PText value => quiet (Some value)
  | PThinking text _ => quiet (Some text)
  | PPromptCacheBreakpoint _ _ => quiet None
  | PImageUrl _ _ _ _ | PImageBase64 _ _ =>
      let! _ := note "part.image" Drop "system role has no image slot" in quiet None
  | PDocument _ _ _ _ _ => let! _ := note "part.document" Drop "system role has no document slot" in quiet None
  | PAudio _ _ => let! _ := note "part.audio" Drop "system role has no audio slot" in quiet None
  | PRaw _ _ => let! _ := note "part.raw" Drop "system role has no slot" in quiet None
  end.

Definition system_role_text (text : string) (content_parts : list IrPart) : noted string :=
  match content_parts with
  | [] => quiet text
  | _ => let! texts := nfilter_map system_part_text content_parts in quiet (str_join "" texts)
  end.

(** ** Notes every map takes *)
Definition note_dropped_image_detail (detail : option string) (wire : string) : noted unit :=
  note_if (is_some (nonempty detail)) "part.image.detail" Drop ("image detail has no " +:+ wire +:+ " slot").

Definition image_file_id_without_url (url : string) (file_id : option string) : bool :=
  is_empty url && is_some (nonempty file_id).

Definition drop_image_file_id_without_url (url : string) (file_id : option string) : noted bool :=
  if image_file_id_without_url url file_id
  then let! _ := note "part.image.file_id" Drop "no slot" in quiet true else quiet false.

Definition dropped_details (report : list LossEvent) : list string :=
  omap (fun e => if decide (loss_action e = Drop) then Some (loss_detail e) else None) report.

(** Non-blank Responses assistant [phase]. *)
Definition assistant_phase (phase : option string) : option string := not_blank phase.

Definition drop_assistant_phase (phase : option string) (path : string) : noted unit :=
  note_if (is_some (assistant_phase phase)) path Drop "phase has no slot".

Definition drop_dest_chat_logit_bias (s : IrSampling) : noted unit :=
  note_all
    [ no_slot_if (negb (bool_decide (sp_logit_bias s = []))) "sampling.logit_bias";
      no_slot_if (is_some (sp_prediction s)) "sampling.prediction";
      no_slot_if (is_some (sp_web_search_options s)) "sampling.web_search_options" ].

Definition drop_dest_chat_sampling_extras (s : IrSampling) : noted unit :=
  note_all
    [ no_slot_if (is_some (sp_prompt_cache_mode s)) "sampling.prompt_cache_mode";
      no_slot_if (is_some (sp_prompt_cache_ttl s)) "sampling.prompt_cache_ttl";
      no_slot_if (is_some (sp_moderation_model s)) "sampling.moderation_model";
      no_slot_if (is_some (sp_moderation_input s)) "sampling.moderation_input";
      no_slot_if (is_some (sp_moderation_output s)) "sampling.moderation_output";
      no_slot_if (is_some (sp_include_obfuscation s)) "sampling.include_obfuscation";
      drop_dest_chat_logit_bias s ].

Definition drop_dest_top_logprobs (s : IrSampling) : noted unit :=
  no_slot_if (is_some (sp_top_logprobs s)) "sampling.top_logprobs".
Definition drop_dest_logprobs (s : IrSampling) : noted unit :=
  no_slot_if (is_some (sp_logprobs s)) "sampling.logprobs".

Definition drop_dest_n_and_penalties (s : IrSampling) : noted unit :=
  note_all
    [ no_slot_if (is_some (sp_frequency_penalty s)) "sampling.frequency_penalty";
      no_slot_if (is_some (sp_presence_penalty s)) "sampling.presence_penalty";
      no_slot_if (is_some (sp_seed s)) "sampling.seed";
      no_slot_if (is_some (sp_n s)) "sampling.n";
      no_slot_if (is_some (sp_media_resolution s)) "sampling.media_resolution";
      no_slot_if (is_some (sp_image_config s)) "sampling.image_config";
      no_slot_if (is_some (sp_audio_transcription_config s)) "sampling.audio_transcription_config";
      no_slot_if (is_some (sp_translation_config s)) "sampling.translation_config";
      no_slot_if (is_some (sp_affective_dialog s)) "sampling.affective_dialog";
      no_slot_if (is_some (sp_enhanced_civic_answers s)) "sampling.enhanced_civic_answers";
      no_slot_if (is_some (sp_multi_speaker_speech s)) "sampling.multi_speaker_speech";
      no_slot_if (is_some (sp_cached_content s)) "sampling.cached_content";
      no_slot_if (is_some (sp_safety_settings s)) "sampling.safety_settings";
      no_slot_if (is_some (sp_request_labels s)) "sampling.request_labels" ].

Definition drop_responses_request_fields (s : IrSampling) : noted unit :=
  note_all
    [ no_slot_if (is_some (not_blank (sp_truncation s))) "sampling.truncation";
      no_slot_if (is_some (sp_max_tool_calls s)) "sampling.max_tool_calls";
      no_slot_if (is_some (sp_background s)) "sampling.background";
      no_slot_if (is_some (sp_conversation s)) "sampling.conversation";
      no_slot_if (is_some (sp_responses_context_management s)) "sampling.responses_context_management" ].

Definition drop_messages_native_thinking (s : IrSampling) : noted unit :=
  no_slot_if (is_some (sp_messages_thinking s)) "sampling.messages_thinking".

Definition drop_dest_output_modalities (s : IrSampling) : noted unit :=
  note_all
    [ no_slot_if (negb (bool_decide (sp_output_modalities s = []))) "sampling.output_modalities";
      no_slot_if (is_some (sp_audio_voice s)) "sampling.audio_voice";
      no_slot_if (is_some (sp_audio_format s)) "sampling.audio_format" ].

(** Stop sequences with a real value. *)
Definition kept_stop (stop : list string) : noted (list string) :=
  nfilter_map
    (fun seq =>
       if is_empty seq
       then let! _ := note "sampling.stop" Drop "stop sequence is empty" in quiet None
       else quiet (Some seq)) stop.

Definition reject_sampling_number (value : option Z) (min max : Z) (path detail : string) : result MapError unit :=
  match value with
  | Some value =>
      if negb (f32_is_finite value) || (f32_key value <? f32_key min) || (f32_key max <? f32_key value)
      then Err (hard path detail) else Ok tt
  | None => Ok tt
  end.

Definition blank (s : string) : bool := is_empty (trim s).

Definition item_path (idx : nat) : string := "items[" +:+ pretty idx +:+ "]".

Definition preserve (key detail : string) : noted unit := note ("sampling." +:+ key) Preserve detail.

Definition if_any {A B} (l : list A) (b : B) : option B := match l with [] => None | _ => Some b end.

Definition note_fields (l : list (bool * string)) : noted unit :=
  note_all (map (fun f => no_slot_if f.1 ("sampling." +:+ f.2)) l).

(** [json!(map)] of a [BTreeMap] of texts. *)
Definition json_strings (m : list (string * string)) : json := JObj (map (fun kv => (kv.1, JStr kv.2)) m).

(** The bits of -2, 0, 1 and 2. *)
Definition F32_MINUS_TWO : Z := 3221225472.
Definition F32_ZERO : Z := 0.
Definition F32_ONE : Z := 1065353216.
Definition F32_TWO : Z := 1073741824.

(** ** Media *)

(** [s.rsplit('/').next()]: what follows the last [c]. *)
Fixpoint last_segment (c : ascii) (s : string) : string :=
  match s with
  | EmptyString => ""
  | String a t => if contains_char c t then last_segment c t else if Ascii.eqb a c then t else s
  end.

Definition split_data_url (url : string) : option (string * string) :=
  rest ← strip_prefix "data:" url; split_once_str ";base64," rest.

Definition is_pdf_media_type (media : string) : bool :=
  one_of (to_ascii_lowercase media) ["application/pdf"; "application/x-pdf"; "pdf"].

Definition is_audio_media_type (media : string) : bool := starts_with "audio/" (to_ascii_lowercase media).

Definition audio_format_from_mime (mime : string) : string :=
  unwrap_or (nonempty (snd <$> split_once "/" mime)) mime.

Definition audio_mime_from_format (format : string) : string :=
  if contains_char "/" format then format else "audio/" +:+ format.

Definition converse_document_format (media_type : string) : option string :=
  let media := to_ascii_lowercase media_type in
  if one_of media ["application/pdf"; "application/x-pdf"; "pdf"] then Some "pdf"
  else if one_of media ["text/csv"; "csv"] then Some "csv"
  else if one_of media ["application/msword"; "doc"] then Some "doc"
  else if one_of media ["application/vnd.openxmlformats-officedocument.wordprocessingml.document"; "docx"]
  then Some "docx"
  else if one_of media ["application/vnd.ms-excel"; "xls"] then Some "xls"
  else if one_of media ["application/vnd.openxmlformats-officedocument.spreadsheetml.sheet"; "xlsx"]
  then Some "xlsx"
  else if one_of media ["text/html"; "html"] then Some "html"
  else if one_of media ["text/plain"; "txt"] then Some "txt"
  else if one_of media ["text/markdown"; "md"] then Some "md"
  else None.

Definition media_type_from_converse_format (format : string) : string :=
  let other := to_ascii_lowercase format in
  if String.eqb other "pdf" then "application/pdf"
  else if String.eqb other "csv" then "text/csv"
  else if String.eqb other "doc" then "application/msword"
  else if String.eqb other "docx" then "application/vnd.openxmlformats-officedocument.wordprocessingml.document"
  else if String.eqb other "xls" then "application/vnd.ms-excel"
  else if String.eqb other "xlsx" then "application/vnd.openxmlformats-officedocument.spreadsheetml.sheet"
  else if String.eqb other "html" then "text/html"
  else if String.eqb other "txt" then "text/plain"
  else if String.eqb other "md" then "text/markdown"
  else other.

(** [split(['?', '#']).next()] *)
Fixpoint before_query (url : string) : string :=
  match url with
  | EmptyString => ""
  | String a t => if Ascii.eqb a "?" || Ascii.eqb a "#" then "" else String a (before_query t)
  end.

Definition converse_image_format_from_url (url : string) : string :=
  let path := before_query url in
  let ext := if contains_char "." path then to_ascii_lowercase (last_segment "." path) else "" in
  if String.eqb ext "png" then "png"
  else if one_of ext ["jpg"; "jpeg"] then "jpeg"
  else if String.eqb ext "gif" then "gif"
  else if String.eqb ext "webp" then "webp"
  else "png".

Definition converse_audio_format (format : string) : option string :=
  let lower := to_ascii_lowercase format in
  let lower := unwrap_or (strip_prefix "audio/" lower) lower in
  if one_of lower ["mp3"; "opus"; "wav"; "aac"; "flac"; "mp4"; "ogg"; "mkv"; "mka"; "x-aac"; "m4a"; "mpeg";
                   "mpga"; "pcm"; "webm"]
  then Some lower else None.

Definition document_filename (name : option string) (media_type : string) : string :=
  match trimmed name with
  | Some name => name
  | None =>
      match converse_document_format media_type with Some ext => "document." +:+ ext | None => "document" end
  end.

Definition document_ref_source (uri : string) : IrDocumentSource :=
  let lower := to_ascii_lowercase uri in
  if starts_with "http://" lower || starts_with "https://" lower || starts_with "s3://" lower
     || starts_with "gs://" lower
  then SrcUrl uri else SrcFileId uri.

Definition function_response_mime_allowed (mime : string) : bool :=
  let mime := to_ascii_lowercase mime in
  starts_with "image/" mime || is_pdf_media_type mime || String.eqb mime "text/plain".

(** Inline bytes Gemini [functionResponse.parts] can carry. *)
Record FunctionResponseInline := mkInline { inl_mime : string; inl_data : string; inl_display_name : option string }.

Definition function_response_inline (part : IrPart) : option FunctionResponseInline :=
  '(mime, data, name) ←
    match part with
    | PImageBase64 media_type data => Some (media_type, data, None)
    | PImageUrl url _ _ _ => '(mime, data) ← split_data_url url; Some (mime, data, None)
    | PDocument (SrcBase64 data) media_type name _ _ => Some (media_type, data, name)
    | PRaw _ raw =>
        inline ← get raw "inlineData"; mime ← str_field inline "mimeType"; data ← str_field inline "data";
        Some (mime, data, str_field inline "displayName")
    | _ => None
    end;
  if is_empty (trim data) || negb (function_response_mime_allowed mime) then None
  else Some (mkInline mime data (nonempty name)).

(** Image bytes inside a function result. *)
Definition function_response_image (part : IrPart) : option (string * string) :=
  inline ← function_response_inline part;
  if starts_with "image/" (to_ascii_lowercase (inl_mime inline)) then Some (inl_mime inline, inl_data inline) else None.

Definition part_has_media_hint (part : json) : bool :=
  existsb (fun key => is_some (get part key))
    ["mediaResolution"; "mediaProcessing"; "videoMetadata"; "audioTranscription"; "speechMetadata"; "partMetadata";
     "thoughtSignature"].

(** Bytes-only view of a Gemini part kept whole for its hints. *)
Definition plain_media_part (part : IrPart) : option IrPart :=
  match part with
  | PRaw _ raw =>
      if negb (part_has_media_hint raw) then None
      else
        match get raw "inlineData" with
        | Some inline =>
            let media := unwrap_or (str_field inline "mimeType") "" in
            let data := unwrap_or (str_field inline "data") "" in
            if is_empty data then None
            else if is_audio_media_type media then Some (PAudio data (audio_format_from_mime media))
            else if is_pdf_media_type media then Some (PDocument (SrcBase64 data) media None None None)
            else Some (PImageBase64 media data)
        | None =>
            match get_str raw "text" with
            | Some text => Some (PText text)
            | None =>
                file ← get raw "fileData";
                let media := unwrap_or (str_field file "mimeType") "" in
                let uri := unwrap_or (str_field file "fileUri") "" in
                if is_pdf_media_type media && negb (is_empty uri)
                then Some (PDocument (document_ref_source uri) media None None None) else None
            end
        end
  | _ => None
  end.

Definition decode_openai_file_part (part : json) : option IrPart :=
  let file := unwrap_or (get part "file") part in
  let name := nonempty (opt_or (str_field file "filename") (opt_or (str_field part "filename")
    (opt_or (str_field file "name") (str_field part "name")))) in
  let media_type := unwrap_or (opt_or (str_field file "media_type") (str_field part "media_type")) "" in
  match opt_or (str_field file "file_id") (str_field part "file_id") with
  | Some file_id => Some (PDocument (SrcFileId file_id) media_type name None None)
  | None =>
      match opt_or (str_field file "file_url") (opt_or (str_field part "file_url")
              (opt_or (str_field file "url") (str_field part "url"))) with
      | Some url => Some (PDocument (document_ref_source url) media_type name None None)
      | None =>
          data ← opt_or (str_field file "file_data") (opt_or (str_field part "file_data") (str_field file "data"));
          let '(media_type, payload) :=
            match split_data_url data with
            | Some (mt, b64) => (mt, b64)
            | None => (if is_empty media_type then "application/pdf" else media_type, data)
            end in
          Some (PDocument (SrcBase64 payload) media_type name None None)
      end
  end.

Definition decode_input_audio_part (part : json) : option IrPart :=
  let audio := unwrap_or (get part "input_audio") part in
  data ← str_field audio "data"; Some (PAudio data (unwrap_or (str_field audio "format") "wav")).

(** ** Raw parts *)
Definition is_gemini_file_raw (raw : json) : bool := is_some (get raw "fileData") || is_some (get raw "fileUri").
Definition raw_type_name (raw : json) : option string := nonempty (get_str raw "type").
Definition messages_raw_passthrough (raw : json) : bool := is_some (raw_type_name raw) && negb (is_gemini_file_raw raw).
Definition responses_raw_passthrough (raw : json) : bool := messages_raw_passthrough raw.
Definition off_dialect_raw_path (raw : json) : string :=
  if is_some (get raw "fileData") then "item.part.fileData"
  else if is_some (get raw "fileUri") then "item.part.fileUri" else "item.part.raw".

(** ** Models *)
Definition openai_model_leaf (model : string) : string := last_segment "/" model.

(** [id == name || id.starts_with(name-)] *)
Definition model_or_variant (id name : string) : bool := String.eqb id name || starts_with (name +:+ "-") id.

Definition chat_stop_unsupported (model : string) : bool :=
  let id := to_ascii_lowercase (openai_model_leaf model) in
  let o3 := String.eqb id "o3" || (starts_with "o3-" id && negb (starts_with "o3-mini" id)) in
  o3 || model_or_variant id "o4-mini".

Definition gpt5_sampling_params_rejected (model : string) (effort : option string) : bool :=
  let id := to_ascii_lowercase (openai_model_leaf model) in
  let older := String.eqb id "gpt-5" || starts_with "gpt-5-20" id || model_or_variant id "gpt-5-mini"
               || model_or_variant id "gpt-5-nano" in
  if older then true
  else
    let later := model_or_variant id "gpt-5.1" || model_or_variant id "gpt-5.2" in
    if negb later then false
    else match trimmed effort with Some text => negb (eq_ignore_ascii_case text "none") | None => false end.

(** Official OpenAI json_schema needs a nonempty name and an object schema. *)
Definition official_json_schema (schema : json) (name : option string) : noted (option (json * string)) :=
  match trimmed name with
  | Some name =>
      if is_object schema then quiet (Some (schema, name))
      else let! _ := note "sampling.json_schema" Drop "json_schema requires nonempty name and object schema" in
           quiet None
  | None =>
      let! _ := note "sampling.json_schema" Drop "json_schema requires nonempty name and object schema" in quiet None
  end.

(** ** Tool names *)

(** The characters of a text: a byte with the continuation bytes after it. *)
Definition head_cont (s : string) : bool := match s with String b _ => is_cont b | EmptyString => false end.

Fixpoint chars (s : string) : list string :=
  match s with
  | EmptyString => []
  | String a t =>
      match chars t with
      | c :: cs => if head_cont t then String a c :: cs else String a "" :: c :: cs
      | [] => [String a ""]
      end
  end.

Section Case.
Context (char_lower : string -> option string).

Fixpoint convert_chars (sep : ascii) (first : bool) (l : list string) (out : string) : string :=
  match l with
  | [] => out
  | ch :: l =>
      let out :=
        if one_of ch ["-"; "_"] then out +:+ String sep ""
        else
          match char_lower ch with
          | Some lower =>
              (if negb first && negb (ends_with (String sep "") out) && negb (ends_with "." out)
               then out +:+ String sep "" else out) +:+ lower
          | None => out +:+ ch
          end in
      convert_chars sep false l out
  end.

Definition convert_case (name : string) (sep : ascii) : string := convert_chars sep true (chars name) "".

Definition apply_tool_name_case (name : string) (case : option ToolNameCase) : string :=
  match case with
  | None | Some AsIs => name
  | Some Snake => convert_case name "_"
  | Some Kebab => convert_case name "-"
  end.
End Case.

(** The table on ASCII characters. *)
Definition ascii_lower (ch : string) : option string :=
  match ch with
  | String a EmptyString => if byte_in 65 90 a then Some (String (to_lower a) "") else None
  | _ => None
  end.

(** ** JSON text of a payload *)
Section Serializer.
Context {SJ : SerdeJson}.

Definition value_as_string (value : json) : string :=
  match value with JStr s => s | other => to_string other end.

(** JSON tool payload, including one wrapped in cache breakpoints. *)
Definition function_output_json_text (part : IrPart) : option string :=
  match (peel_prompt_cache_all part).1 with
  | PRaw type_name raw => if String.eqb type_name "json" then Some (to_string raw) else None
  | _ => None
  end.

Definition nonempty_text (part : IrPart) : bool :=
  match part with PText text => negb (is_empty text) | _ => false end.

Definition top_level_text_or_json (part : IrPart) : option string :=
  match part with
  | PText piece => if is_empty piece then function_output_json_text part else Some piece
  | _ => function_output_json_text part
  end.

(** [text.push('\n')] before each piece but the first written text. *)
Definition join_line (text piece : string) : string :=
  if is_empty text then piece else text +:+ nl_str +:+ piece.

(** Text other wires can show for a tool result. *)
Definition function_output_text (output : string) (parts : list IrPart) : string :=
  if existsb nonempty_text parts then fold_left join_line (omap top_level_text_or_json parts) ""
  else fold_left join_line (omap function_output_json_text parts) output.
End Serializer.
