(* ===== verification/Schema.v ===== *)
(** * Schema: the JSON schemas of tools and structured output

    [fill_object_schema] and [close_objects] of [W/map/messages.rs]: before a
    tool or an output format is sent, every object schema in it gets the
    [required] and [properties] a vendor insists on, and under a strict
    contract each of its properties becomes required and no other is allowed.
    The code assigns to an object and then goes into its children; the
    definitions here go into the children of the same object and then assign,
    which [fill_object_schema_eq] and [close_objects_eq] show to be the same. *)
From S2P Require Import Prelude Text Json.

(** ** Children of a schema *)

(** What each key of a schema holds: schemas by name, one schema or a list,
    a list of schemas, a schema when it is an object. *)
Definition named_schemas : list string := ["properties"; "$defs"; "definitions"].
Definition listed_schemas : list string := ["anyOf"; "oneOf"; "allOf"; "prefixItems"].
Definition single_schemas : list string := ["additionalProperties"; "not"].

Section Children.
Context (visit : json -> json).

Definition visit_values (props : object) : object := map (fun p => (fst p, visit (snd p))) props.

(** The value of a key after its schemas were visited. *)
Definition visit_member (k : string) (x : json) : json :=
  if one_of k named_schemas then match x with JObj props => JObj (visit_values props) | _ => x end
  else if String.eqb k "items" then match x with JArr l => JArr (map visit l) | _ => visit x end
  else if one_of k listed_schemas then match x with JArr l => JArr (map visit l) | _ => x end
  else if one_of k single_schemas then match x with JObj _ => visit x | _ => x end
  else x.

Definition visit_children (m : object) : object := map (fun kv => (fst kv, visit_member (fst kv) (snd kv))) m.
End Children.

Definition is_object_schema (m : object) : bool :=
  bool_decide (obj_get "type" m ≫= as_str = Some "object") || obj_contains "properties" m.

(** ** Filling in what is missing *)
Definition fill_head (m : object) : object :=
  if is_object_schema m then
    let m := match obj_get "required" m with Some (JArr _) => m | _ => obj_insert "required" (JArr []) m end in
    if obj_contains "properties" m then m else obj_insert "properties" (JObj []) m
  else match obj_get "required" m with Some JNull => obj_insert "required" (JArr []) m | _ => m end.

Fixpoint fill_object_schema (schema : json) : json :=
  match schema with
  | JObj m => JObj (fill_head (visit_children fill_object_schema m))
  | _ => schema
  end.

Definition normalize_object_schema_required (schema : json) : json := fill_object_schema schema.

(** ** Closing objects *)
Definition property_names (m : object) : list json :=
  match obj_get "properties" m ≫= as_object with Some props => map (fun p => JStr (fst p)) props | None => [] end.

Definition close_head (close_additional : bool) (m : object) : object :=
  if is_object_schema m then
    let m := if close_additional then obj_insert "additionalProperties" (JBool false) m else m in
    match property_names m with [] => m | names => obj_insert "required" (JArr names) m end
  else m.

Fixpoint close_objects (close_additional : bool) (schema : json) : json :=
  match schema with
  | JObj m => JObj (close_head close_additional (visit_children (close_objects close_additional) m))
  | _ => schema
  end.

Definition strict_object_schema (schema : json) : json := close_objects true schema.
(** Gemini accepts [required] and rejects [additionalProperties]. *)
Definition require_every_property (schema : json) : json := close_objects false schema.

(** ** The order of the code: assign, then visit *)
Lemma obj_get_visit visit k m : obj_get k (visit_children visit m) = visit_member visit k <$> obj_get k m.
Proof.
  induction m as [|[k' v] m IH]; [done|]. cbn. destruct (String.eqb_spec k k') as [<-|]; [done|apply IH].
Qed.

Lemma visit_children_insert visit k v m :
  visit_children visit (obj_insert k v m) = obj_insert k (visit_member visit k v) (visit_children visit m).
Proof.
  unfold visit_children. induction m as [|[k' v'] m IH]; [done|]. cbn [obj_insert map fst snd].
  destruct (String.compare k k'); [done|done|]. cbn [map fst snd]. by rewrite IH.
Qed.

Lemma visit_member_required visit x : visit_member visit "required" x = x.
Proof. done. Qed.

Lemma is_object_schema_visit visit m : is_object_schema (visit_children visit m) = is_object_schema m.
Proof.
  unfold is_object_schema, obj_contains. rewrite !obj_get_visit.
  change (visit_member visit "type") with (fun x : json => x). by destruct (obj_get "type" m), (obj_get "properties" m).
Qed.

Lemma property_names_visit visit m : property_names (visit_children visit m) = property_names m.
Proof.
  unfold property_names. rewrite obj_get_visit. destruct (obj_get "properties" m) as [x|]; [|done].
  destruct x as [| | | | |props]; try done. cbn [fmap option_fmap option_map].
  change (visit_member visit "properties" (JObj props)) with (JObj (visit_values visit props)).
  cbn [mbind option_bind as_object]. unfold visit_values. by rewrite map_map.
Qed.

Lemma fill_object_schema_eq m :
  fill_object_schema (JObj m) = JObj (visit_children fill_object_schema (fill_head m)).
Proof.
  cbn [fill_object_schema]. f_equal. unfold fill_head. rewrite is_object_schema_visit, obj_get_visit.
  unfold obj_contains. destruct (is_object_schema m).
  - assert (forall n, (if is_some (obj_get "properties" (visit_children fill_object_schema n))
        then visit_children fill_object_schema n
        else obj_insert "properties" (JObj []) (visit_children fill_object_schema n))
      = visit_children fill_object_schema (if is_some (obj_get "properties" n) then n else obj_insert "properties" (JObj []) n)) as P.
    { intros n. rewrite obj_get_visit. destruct (obj_get "properties" n); [done|].
      cbn [fmap option_fmap option_map is_some]. by rewrite visit_children_insert. }
    assert (forall x, visit_member fill_object_schema "required" x = x) as R by done.
    pose proof (visit_children_insert fill_object_schema "required" (JArr []) m) as I. rewrite R in I.
    destruct (obj_get "required" m) as [x|]; cbn [fmap option_fmap option_map]; rewrite ?R; [destruct x|];
      rewrite <- ?I; apply P.
  - destruct (obj_get "required" m) as [[]|]; try done. cbn [fmap option_fmap option_map]. by rewrite visit_children_insert.
Qed.

Lemma close_objects_eq close_additional m :
  close_objects close_additional (JObj m) = JObj (visit_children (close_objects close_additional) (close_head close_additional m)).
Proof.
  cbn [close_objects]. f_equal. unfold close_head. rewrite is_object_schema_visit.
  destruct (is_object_schema m); [|done].
  set (f := close_objects close_additional).
  assert (forall n, match property_names (visit_children f n) with [] => visit_children f n
      | names => obj_insert "required" (JArr names) (visit_children f n) end
    = visit_children f match property_names n with [] => n | names => obj_insert "required" (JArr names) n end) as P.
  { intros n. rewrite property_names_visit. destruct (property_names n); [done|]. by rewrite visit_children_insert. }
  rewrite <- P. destruct close_additional; [|done]. by rewrite visit_children_insert.
Qed.

(** ** What a vendor insists on *)

(** [ok] holds of every object a reader of the schema comes to. *)
Definition member_ok (every : json -> bool) (k : string) (x : json) : bool :=
  if one_of k named_schemas then match x with JObj props => forallb (fun p => every (snd p)) props | _ => true end
  else if String.eqb k "items" then match x with JArr l => forallb every l | _ => every x end
  else if one_of k listed_schemas then match x with JArr l => forallb every l | _ => true end
  else if one_of k single_schemas then match x with JObj _ => every x | _ => true end
  else true.

Fixpoint every_schema (ok : object -> bool) (schema : json) : bool :=
  match schema with
  | JObj m => ok m && forallb (fun kv => member_ok (every_schema ok) (fst kv) (snd kv)) m
  | _ => true
  end.

(** Object schemas list what they require and have properties. *)
Definition filled (m : object) : bool :=
  implb (is_object_schema m)
    (is_some_and (obj_get "required" m) is_array && obj_contains "properties" m).

(** Object schemas allow their properties only, and require each of them. *)
Definition closed (m : object) : bool :=
  implb (is_object_schema m)
    (bool_decide (obj_get "additionalProperties" m = Some (JBool false))
     && match property_names m with [] => true | names => bool_decide (obj_get "required" m = Some (JArr names)) end).

(** Induction over schemas: the hypothesis reaches the members of an object
    and what they hold. *)
Definition held (P : json -> Prop) (x : json) : Prop :=
  P x /\ match x with JObj props => Forall (fun p => P p.2) props | JArr l => Forall P l | _ => True end.

Lemma schema_ind (P : json -> Prop) :
  (forall v, is_object v = false -> P v) -> (forall m, Forall (fun kv => held P kv.2) m -> P (JObj m)) ->
  forall v, P v.
Proof.
  intros B O v. enough (held P v) as [? _] by done.
  induction v as [| | | |l IH|m IH] using json_ind'; try (split; [by apply B|done]).
  - split; [by apply B|]. eapply Forall_impl; [exact IH|]. by intros x [H _].
  - split; [by apply O|]. eapply Forall_impl; [exact IH|]. by intros x [H _].
Qed.

(** Visiting keeps a property of the members that each visit establishes. *)
Lemma visit_children_ok (visit : json -> json) (every every' : json -> bool) m :
  (forall x, if is_object x then is_object (visit x) = true else visit x = x) ->
  (forall x, is_object x = false -> every' x = true) ->
  Forall (fun kv => held (fun x => every x = true -> every' (visit x) = true) kv.2) m ->
  forallb (fun kv => member_ok every (fst kv) (snd kv)) m = true ->
  forallb (fun kv => member_ok every' (fst kv) (snd kv)) (visit_children visit m) = true.
Proof.
  intros K B. induction 1 as [|[k x] m [H HH] _ IH]; [done|]. cbn [forallb visit_children map fst snd].
  change (map _ m) with (visit_children visit m).
  rewrite andb_true_iff. intros [M R]. rewrite IH by done. rewrite andb_true_r. clear IH R. cbn [snd] in *.
  assert (forall l, Forall (fun x => every x = true -> every' (visit x) = true) l -> forallb every l = true ->
    forallb every' (map visit l) = true) as L.
  { induction 1 as [|y l Hy _ IH]; cbn; [done|]. rewrite andb_true_iff. intros [? ?]. by rewrite Hy, IH. }
  assert (forall props, Forall (fun p => every p.2 = true -> every' (visit p.2) = true) props ->
    forallb (fun p => every p.2) props = true -> forallb (fun p => every' p.2) (visit_values visit props) = true) as V.
  { unfold visit_values. induction 1 as [|y l Hy _ IH]; cbn; [done|]. rewrite andb_true_iff. intros [? ?].
    by rewrite Hy, IH. }
  unfold member_ok, visit_member in *.
  destruct (one_of k named_schemas); [destruct x; try done; by apply V|].
  destruct (String.eqb k "items").
  { destruct (is_object x) eqn:O; [|specialize (K x); rewrite O in K; rewrite K in *; destruct x; auto].
    destruct x; try done. specialize (K (JObj m0)). cbn in K. destruct (visit (JObj m0)); try done; by apply H. }
  destruct (one_of k listed_schemas); [destruct x; try done; by apply L|].
  destruct (one_of k single_schemas); [|done]. destruct x; try done.
  destruct (visit (JObj m0)); try done; by apply H.
Qed.

Lemma every_schema_insert ok ok' k x m :
  member_ok (every_schema ok) k x = true ->
  forallb (fun kv => member_ok (every_schema ok) (fst kv) (snd kv)) m = true ->
  ok' (obj_insert k x m) = true ->
  ok' (obj_insert k x m) && forallb (fun kv => member_ok (every_schema ok) (fst kv) (snd kv)) (obj_insert k x m) = true.
Proof. intros X M O. rewrite O. cbn. by apply obj_insert_forall. Qed.

Lemma is_object_schema_insert k x m : k <> "type" -> k <> "properties" ->
  is_object_schema (obj_insert k x m) = is_object_schema m.
Proof. intros T P. unfold is_object_schema, obj_contains. by rewrite !obj_get_insert_ne. Qed.

Lemma is_object_schema_properties x m : is_object_schema (obj_insert "properties" x m) = true.
Proof. unfold is_object_schema, obj_contains. rewrite obj_get_insert_eq. apply orb_true_r. Qed.

Lemma property_names_insert k x m : k <> "properties" -> property_names (obj_insert k x m) = property_names m.
Proof. intros P. unfold property_names. by rewrite obj_get_insert_ne. Qed.

Lemma filled_fill_head m : filled (fill_head m) = true.
Proof.
  unfold fill_head, filled. destruct (is_object_schema m) eqn:S.
  - set (n := match obj_get "required" m with Some (JArr _) => m | _ => _ end).
    assert (is_some_and (obj_get "required" n) is_array = true) as R.
    { subst n. destruct (obj_get "required" m) as [[]|] eqn:E; rewrite ?obj_get_insert_eq, ?E; done. }
    destruct (obj_contains "properties" n) eqn:P; [rewrite R, P; by destruct (is_object_schema n)|].
    rewrite is_object_schema_properties, obj_get_insert_ne, R by done. unfold obj_contains. by rewrite obj_get_insert_eq.
  - assert (is_object_schema (match obj_get "required" m with Some JNull => obj_insert "required" (JArr []) m | _ => m end)
      = false) as ->; [|done].
    destruct (obj_get "required" m) as [[]|]; by rewrite ?is_object_schema_insert.
Qed.

Lemma every_schema_fill v : every_schema filled (fill_object_schema v) = true.
Proof.
  induction v as [v N|m IH] using schema_ind; [by destruct v|]. cbn [fill_object_schema every_schema].
  rewrite filled_fill_head. cbn [andb].
  assert (forallb (fun kv => member_ok (every_schema filled) (fst kv) (snd kv)) (visit_children fill_object_schema m) = true) as C.
  { apply (visit_children_ok _ (fun _ => true)); [by intros []|by intros []| |].
    - eapply Forall_impl; [exact IH|]. intros [k x] [H HH]. split; [done|].
      destruct x; try done; (eapply Forall_impl; [exact HH|]; done).
    - apply List.forallb_forall. intros [k x] _. cbn [fst snd]. unfold member_ok.
      repeat match goal with |- (if ?b then _ else _) = _ => destruct b end; destruct x; try done;
        apply List.forallb_forall; by intros. }
  unfold fill_head. repeat case_goal; try done; by repeat (apply obj_insert_forall; [done|]).
Qed.

Lemma closed_filled_head m :
  filled m = true -> closed (close_head true m) = true /\ filled (close_head true m) = true.
Proof.
  unfold close_head, filled, closed. destruct (is_object_schema m) eqn:S; [|by rewrite S].
  intros F. cbn [implb] in F. apply andb_true_iff in F as [R P].
  rewrite property_names_insert by done. destruct (property_names m) as [|n ns] eqn:N.
  - rewrite is_object_schema_insert, S, property_names_insert, N, obj_get_insert_eq by done. split; [done|].
    unfold obj_contains in *. by rewrite !obj_get_insert_ne, R, P.
  - rewrite !is_object_schema_insert, S, !property_names_insert, N by done. unfold obj_contains in *.
    rewrite obj_get_insert_ne, obj_get_insert_eq, obj_get_insert_eq by done. split; [by rewrite !bool_decide_true|].
    by rewrite !obj_get_insert_ne.
Qed.

Lemma every_schema_close v :
  every_schema filled v = true -> every_schema (fun m => closed m && filled m) (close_objects true v) = true.
Proof.
  induction v as [v N|m IH] using schema_ind; [by destruct v|]. cbn [close_objects every_schema].
  rewrite andb_true_iff. intros [F M].
  assert (filled (visit_children (close_objects true) m) = true) as F'.
  { unfold filled in *. rewrite is_object_schema_visit. unfold obj_contains in *. rewrite !obj_get_visit.
    destruct (is_object_schema m); [|done]. cbn [implb] in *. by destruct (obj_get "required" m), (obj_get "properties" m). }
  destruct (closed_filled_head _ F') as [-> ->]. cbn [andb].
  assert (forallb (fun kv => member_ok (every_schema (fun m => closed m && filled m)) (fst kv) (snd kv))
    (visit_children (close_objects true) m) = true) as C.
  { by apply (visit_children_ok _ (every_schema filled)); [intros []|intros []| |]. }
  unfold close_head. case_goal; [|done]. case_goal; by repeat (apply obj_insert_forall; [done|]).
Qed.

(** ** The schemas a reader comes to *)

(** The schemas inside a schema, keyword by keyword. *)
Inductive subschema : json -> json -> Prop :=
| sub_here v : subschema v v
| sub_named k props n x m v :
    k = "properties" \/ k = "$defs" \/ k = "definitions" ->
    In (k, JObj props) m -> In (n, x) props -> subschema x v -> subschema (JObj m) v
| sub_listed k l x m v :
    k = "items" \/ k = "anyOf" \/ k = "oneOf" \/ k = "allOf" \/ k = "prefixItems" ->
    In (k, JArr l) m -> In x l -> subschema x v -> subschema (JObj m) v
| sub_single k o m v :
    k = "items" \/ k = "additionalProperties" \/ k = "not" ->
    In (k, JObj o) m -> subschema (JObj o) v -> subschema (JObj m) v.

(** What a strict vendor asks of a schema that is of an object, or has
    properties: [required] is a list, [properties] is present, no other property
    is allowed, and [required] names every property and, when there is one,
    nothing else. *)
Definition strict_object (m : object) : Prop :=
  obj_get "type" m = Some (JStr "object") \/ obj_get "properties" m <> None ->
  exists required properties,
    obj_get "required" m = Some (JArr required) /\ obj_get "properties" m = Some properties
    /\ obj_get "additionalProperties" m = Some (JBool false)
    /\ forall props, properties = JObj props -> props <> [] -> required = map (fun p => JStr p.1) props.

Lemma every_schema_sub ok v s : subschema v s -> every_schema ok v = true -> forall m, s = JObj m -> ok m = true.
Proof.
  assert (D : forall m k x, every_schema ok (JObj m) = true -> In (k, x) m -> member_ok (every_schema ok) k x = true).
  { intros m k x E I. cbn in E. apply andb_true_iff in E as [_ E]. rewrite List.forallb_forall in E. by apply (E _ I). }
  induction 1 as [v|k props n x m v K I J _ IH|k l x m v K I J _ IH|k o m v K I _ IH]; intros E.
  - intros m ->. cbn in E. by apply andb_true_iff in E as [? _].
  - apply IH. specialize (D _ _ _ E I).
    assert (F : forallb (fun p => every_schema ok p.2) props = true) by (by destruct_or!; subst).
    rewrite List.forallb_forall in F. by apply (F _ J).
  - apply IH. specialize (D _ _ _ E I).
    assert (F : forallb (every_schema ok) l = true) by (by destruct_or!; subst).
    rewrite List.forallb_forall in F. by apply F.
  - apply IH. specialize (D _ _ _ E I). by destruct_or!; subst.
Qed.

Lemma closed_filled_strict m : closed m && filled m = true -> strict_object m.
Proof.
  intros [C F]%andb_true_iff S. unfold closed, filled in *.
  assert (is_object_schema m = true) as O.
  { unfold is_object_schema, obj_contains. destruct S as [->|S]; [by cbn|]. destruct (obj_get "properties" m); [apply orb_true_r|done]. }
  rewrite O in C, F. cbn [implb] in C, F. apply andb_true_iff in C as [A N], F as [R P].
  apply bool_decide_eq_true in A. unfold obj_contains in P. unfold property_names in N.
  destruct (obj_get "required" m) as [[| | | |required|]|]; try done.
  destruct (obj_get "properties" m) as [properties|]; [|done]. exists required, properties. split_and!; try done.
  intros props -> HP. cbn in N. destruct props as [|p props]; [done|]. cbn [map] in N.
  apply bool_decide_eq_true in N. by injection N as ->.
Qed.

(** The keywords that hold schemas, and the two the contract writes. *)
Definition touched : list string :=
  ["required"; "properties"; "$defs"; "definitions"; "items"; "anyOf"; "oneOf"; "allOf"; "prefixItems";
   "additionalProperties"; "not"].

Lemma visit_member_other visit k x : ~ In k touched -> visit_member visit k x = x.
Proof.
  intros N. unfold visit_member. repeat case_goal; try done; exfalso; apply N;
    repeat match goal with H : one_of _ _ = true |- _ => apply one_of_In in H end;
    repeat match goal with H : String.eqb _ _ = true |- _ => apply String.eqb_eq in H; subst end;
    cbn in *; intuition subst; auto 12.
Qed.

Lemma obj_get_fill_head k m : k <> "required" -> k <> "properties" -> obj_get k (fill_head m) = obj_get k m.
Proof. intros R P. unfold fill_head. repeat case_goal; by rewrite ?obj_get_insert_ne. Qed.

Lemma obj_get_close_head k b m : k <> "required" -> k <> "additionalProperties" -> obj_get k (close_head b m) = obj_get k m.
Proof. intros R P. unfold close_head. repeat case_goal; by rewrite ?obj_get_insert_ne. Qed.

Lemma property_names_fill_head m : property_names (fill_head m) = property_names m.
Proof.
  unfold fill_head, obj_contains. repeat case_goal; rewrite ?property_names_insert by done; try done.
  all: unfold property_names; rewrite obj_get_insert_eq; cbn.
  all: match goal with H : is_some (obj_get "properties" _) = false |- _ => revert H end;
    rewrite ?obj_get_insert_ne by done; by destruct (obj_get "properties" m).
Qed.

Lemma property_names_close_head b m : property_names (close_head b m) = property_names m.
Proof. unfold close_head. repeat case_goal; by rewrite ?property_names_insert. Qed.

(** C18. The parameters of a strict tool are what a vendor accepts, whatever the
    tool's schema: in every schema inside it - the values under properties, $defs and
    definitions, the items, the entries of anyOf, oneOf, allOf and prefixItems, and
    what additionalProperties and not hold - that is of an object or has properties,
    [required] is a list, [properties] is present, no other property is allowed, and
    each property is required. And the schema keeps the names of its properties and
    every keyword that holds no schema but [required] and [additionalProperties]. *)
Theorem strict_tool_schema v :
  let sent := strict_object_schema (normalize_object_schema_required v) in
  (forall m, subschema sent (JObj m) -> strict_object m)
  /\ forall m, v = JObj m -> exists m', sent = JObj m' /\ property_names m' = property_names m
       /\ forall k, ~ In k touched -> obj_get k m' = obj_get k m.
Proof.
  cbn. split.
  - intros m H. apply closed_filled_strict.
    exact (every_schema_sub (fun m => closed m && filled m) _ _ H (every_schema_close _ (every_schema_fill v)) _ eq_refl).
  - intros m ->. eexists. split; [reflexivity|]. split.
    + by rewrite property_names_close_head, property_names_visit, property_names_fill_head, property_names_visit.
    + intros k K. rewrite obj_get_close_head, obj_get_visit, obj_get_fill_head, obj_get_visit
        by (intros ->; apply K; cbn; tauto).
      destruct (obj_get k m) as [x|]; [|done]. cbn. by rewrite !visit_member_other.
Qed.
