(* ===== verification/Tools.v ===== *)
(** * Tools: from the tools of a request to the tools of a dialect

    [W/map/tools.rs].  A tool of the request is decoded to an [IrTool] and
    prepared for the target: functions pass, a namespace is flattened to
    dotted functions or passes or is refused as the policy of the profile
    says, a hosted tool needs a target that has a slot for it, and whatever is
    left out or changed is noted. *)
From S2P Require Import Prelude Text Json Ir ProfileTypes StreamCore Usage Shapes Chat Loss RequestCore.

Definition HOSTED_KINDS : list string :=
  ["web_search"; "web_search_preview"; "file_search"; "code_interpreter"; "computer"; "image_generation"; "mcp";
   "local_shell"; "shell"; "tool_search"].

Inductive PreparedTool :=
| PtFunction (name description : string) (parameters : json) (strict : option bool)
| PtRaw (raw : json).

(** ** Decoding *)
Definition is_hosted (type_name : string) : bool := one_of type_name HOSTED_KINDS.

(** [json!({"type": "object", "properties": {}})] *)
Definition empty_parameters : json := jobj [("type", JStr "object"); ("properties", JObj [])].

Definition text_or_empty (o : option string) : string := unwrap_or o "".

Definition function_from (src : json) : IrTool :=
  TFunction (text_or_empty (get_str src "name")) (text_or_empty (get_str src "description"))
    (unwrap_or (opt_or (get src "parameters") (get src "input_schema")) empty_parameters)
    (bool_field src "strict").

Definition looks_like_function (value : json) : bool :=
  is_some (get_str value "name")
  && (is_some (get value "parameters") || is_some (get value "input_schema") || is_some (get value "description")
      || bool_decide (get_str value "type" = Some "function")).

Definition decode_function_or_messages (value : json) (type_name : string) : IrTool :=
  match get value "function" with
  | Some func => function_from func
  | None => if looks_like_function value then function_from value else TUnknown type_name value
  end.

Definition decode_tool (value : json) : IrTool :=
  let type_name := text_or_empty (get_str value "type") in
  if String.eqb type_name "namespace" then TNamespace (text_or_empty (get_str value "name")) value
  else if String.eqb type_name "function" || is_empty type_name then decode_function_or_messages value type_name
  else if is_hosted type_name then THosted type_name value
  else TUnknown type_name value.

(** ** Preparing *)
Definition wire_keeps_strict (wire : Wire) : bool :=
  match wire with ChatCompletions | Responses | Converse => true | _ => false end.

Definition namespace_raw (name : string) (raw : json) : json :=
  let obj := unwrap_or (as_object raw) [] in
  let obj := obj_insert "type" (JStr "namespace") obj in
  JObj (if is_empty name then obj else obj_insert "name" (JStr name) obj).

Definition flatten_child (name path : string) (child : json) : result MapError IrTool :=
  match get_str child "name" with
  | None => Err (hard path "namespace child missing name")
  | Some child_name =>
      Ok (TFunction (name +:+ "." +:+ child_name) (text_or_empty (get_str child "description"))
            (unwrap_or (opt_or (get child "parameters") (get child "input_schema")) empty_parameters)
            (bool_field child "strict"))
  end.

(** [?] on each element, in order. *)
Fixpoint each {A B} (f : A -> result MapError B) (l : list A) : result MapError (list B) :=
  match l with
  | [] => Ok []
  | a :: l => let* b := f a in let* bs := each f l in Ok (b :: bs)
  end.

Definition flatten_namespace (name : string) (raw : json) (path : string) : result MapError (list IrTool) :=
  match get_array raw "tools" with
  | None => Err (hard path "namespace has no flatten table (tools[])")
  | Some tools =>
      let* out := each (flatten_child name path) tools in
      match out with [] => Err (hard path "namespace flatten table is empty") | _ => Ok out end
  end.

Section Prepare.
Context (char_lower : string -> option string) (wire : Wire) (policy : ToolTypePolicy) (case : option ToolNameCase).

(** A function tool under the profile's spelling of names. *)
Definition prepare_function (path name description : string) (parameters : json) (strict : option bool) :
  noted PreparedTool :=
  let! _ := no_slot_if (is_some strict && negb (wire_keeps_strict wire)) (path +:+ ".strict") in
  quiet (PtFunction (apply_tool_name_case char_lower name case) description parameters strict).

Definition prepare_flat (path : string) (tool : IrTool) : noted (option PreparedTool) :=
  match tool with
  | TFunction name description parameters strict =>
      let! t := prepare_function path name description parameters strict in quiet (Some t)
  | _ => quiet None
  end.

Definition kept (c : noted unit) (tool : PreparedTool) : noted_or_error (list PreparedTool) :=
  lift (let! _ := c in quiet [tool]).

Definition push_namespace (name : string) (raw : json) (path : string) : noted_or_error (list PreparedTool) :=
  match policy with
  | Passthrough => kept (note path Preserve "namespace passthrough") (PtRaw raw)
  | FlattenNamespace =>
      match flatten_namespace name raw path with
      | Err err => Err err
      | Ok flat =>
          lift (let! _ := note path Degrade "flatten namespace to dotted function tools" in
                nfilter_map (prepare_flat path) flat)
      end
  | PolicyHardError =>
      if wire_eqb wire Responses then kept (note path Preserve "namespace tool") (PtRaw (namespace_raw name raw))
      else Err (hard path "type=namespace is not silent-stripped; hard-error (set tool_type_policy = flatten-namespace to flatten)")
  end.

Definition push_custom_tool (raw : json) (path : string) : noted_or_error (list PreparedTool) :=
  let name := text_or_empty (get_str raw "name") in
  if is_empty (trim name) then Err (hard path "custom tool name is empty")
  else if wire_eqb wire ChatCompletions || wire_eqb wire Responses
  then kept (note path Preserve "custom tool") (PtRaw raw)
  else
    kept (note path Degrade "custom tool became a function tool")
      (PtFunction (apply_tool_name_case char_lower name case) (text_or_empty (get_str raw "description"))
         empty_parameters None).

Definition push_hosted (kind : string) (raw : json) (path : string) : noted_or_error (list PreparedTool) :=
  match policy with
  | Passthrough => kept (note path Preserve "hosted passthrough") (PtRaw raw)
  | PolicyHardError | FlattenNamespace =>
      if wire_eqb wire Responses then kept (note path Preserve ("hosted " +:+ kind)) (PtRaw raw)
      else Err (hard path ("hosted tool `" +:+ kind +:+ "` has no slot on `" +:+ wire_as_str wire +:+ "`"))
  end.

Definition push_unknown (type_name : string) (raw : json) (path : string) : noted_or_error (list PreparedTool) :=
  if String.eqb type_name "systemTool" then
    if wire_eqb wire Converse && is_object raw then Ok (quiet [PtRaw (jobj [("systemTool", raw)])])
    else lift (let! _ := note path Drop "system tool has no slot" in quiet [])
  else if String.eqb type_name "custom" then push_custom_tool raw path
  else
    match policy with
    | Passthrough => kept (note path Preserve "unknown tool passthrough") (PtRaw raw)
    | PolicyHardError | FlattenNamespace =>
        Err (hard path ("unknown tool type `" +:+ type_name +:+ "` (tool_type_policy = passthrough|flatten-namespace|hard-error)"))
    end.

(** What the loop of [prepare_tools] does with one tool. *)
Definition prepare_tool (idx : nat) (tool : IrTool) : noted_or_error (list PreparedTool) :=
  let path := "tools[" +:+ pretty idx +:+ "]" in
  match tool with
  | TFunction name description parameters strict =>
      if is_empty (trim name) then Err (hard path "function tool name is empty")
      else lift (let! t := prepare_function path name description parameters strict in quiet [t])
  | TNamespace name raw => push_namespace name raw path
  | THosted kind raw => push_hosted kind raw path
  | TCachePoint raw =>
      if wire_eqb wire Converse then Ok (quiet [PtRaw (jobj [("cachePoint", raw)])])
      else lift (let! _ := note path Drop "tool cache point has no slot" in quiet [])
  | TUnknown type_name raw => push_unknown type_name raw path
  end.

Fixpoint prepare_from (idx : nat) (tools : list IrTool) : noted_or_error (list PreparedTool) :=
  match tools with
  | [] => Ok (quiet [])
  | tool :: tools =>
      let*! out := prepare_tool idx tool in
      let*! rest := prepare_from (S idx) tools in
      Ok (quiet (out ++ rest))
  end.
End Prepare.

Definition prepare_tools (char_lower : string -> option string) (wire : Wire) (ir : IrRequest)
    (profile : ResolvedProfile) : noted_or_error (list PreparedTool) :=
  prepare_from char_lower wire (d_tool_type_policy (dialect profile))
    (fp ← fingerprint profile; fp_tool_name_case fp) 0 (tools ir).

(** ** Calls of namespaced tools *)
Definition split_namespace_name (name : string) : option (string * string) :=
  '(ns, leaf) ← split_once "." name;
  if is_empty ns || is_empty leaf then None else Some (ns, leaf).

Definition qualify_call_name (item : json) : string :=
  let name := text_or_empty (get_str item "name") in
  match get_str item "namespace" with
  | Some ns =>
      if negb (is_empty ns) && negb (starts_with (ns +:+ ".") name) then ns +:+ "." +:+ name else name
  | None => name
  end.
