(* ===== verification/Arrival.v ===== *)
(** * Arrival: what the arrival theorems of the dialects share

    A request arrives when decoding the body that was written for it gives
    the request in the normal form of the dialect.  Here are the parts of that
    argument that two dialects share: cache breakpoints on blocks, data URLs,
    and the tools, which arrive on every dialect that sends a tool of another
    type as it is. *)
From S2P Require Import Prelude Text Json Floats Ir ProfileTypes StreamCore Usage Shapes Chat Loss RequestCore.
From S2P Require Import Schema Tools.

(** ** Notes *)
Lemma kept_whole_nil : kept_whole [] = true.
Proof. done. Qed.

Lemma kept_whole_drop path detail l : kept_whole (mkLoss path Drop detail :: l) = false.
Proof. done. Qed.

(** Split the notes of a sequence. *)
Ltac kept_split H :=
  rewrite ?nbind_snd, ?kept_whole_app, ?andb_true_iff in H; cbn [fst snd quiet] in H.

Lemma omap_total {A B} (f : A -> option B) (g : A -> B) l : Forall (fun a => f a = Some (g a)) l -> omap f l = map g l.
Proof. induction 1 as [|a l H _ IH]; [done|]. cbn. by rewrite H, IH. Qed.

Lemma not_some {A} (o : option A) : negb (is_some o) = true -> o = None.
Proof. by destruct o. Qed.

Lemma not_nonempty {A} `{EqDecision A} (l : list A) : negb (negb (bool_decide (l = []))) = true -> l = [].
Proof. rewrite negb_involutive. apply bool_decide_eq_true. Qed.

Lemma kept_whole_note_fields l : kept_whole (note_fields l).2 = forallb (fun f => negb f.1) l.
Proof.
  unfold note_fields. induction l as [|f l IH]; [done|]. cbn [map note_all forallb].
  by rewrite nbind_snd, kept_whole_app, kept_whole_no_slot_if, IH.
Qed.

(** A number after it was written and read again. *)
Definition resent (t : f32) : option f32 := f32_of_f64 <$> as_f64 (json_f32 t).

(** ** Reading one key *)
Lemma opt_or_none {A} (o : option A) : opt_or o None = o.
Proof. by destruct o. Qed.

Section Readers.
Context (v : json) (k : string).

Lemma read_f32 o : get v k = json_f32 <$> o -> f32_field v k = o ≫= resent.
Proof. unfold f32_field. intros ->. by destruct o. Qed.

Lemma read_u32 o : (forall n, o = Some n -> is_u32 n) -> get v k = jint <$> o -> u32_field v k = o.
Proof.
  unfold u32_field. intros T ->. destruct o as [n|]; [|done]. specialize (T n eq_refl).
  cbn. rewrite (proj2 (Z.leb_le 0 n)), (proj2 (Z.leb_le n u64_max)) by int_lia. cbn. by apply u32_try_from_Some.
Qed.

Lemma read_i64 o : (forall n, o = Some n -> -9223372036854775808 <= n <= 9223372036854775807) ->
  get v k = jint <$> o -> i64_field v k = o.
Proof.
  unfold i64_field. intros T ->. destruct o as [n|]; [|done]. specialize (T n eq_refl).
  cbn. by rewrite (proj2 (Z.leb_le _ n)), (proj2 (Z.leb_le n _)) by lia.
Qed.

Lemma read_bool o : get v k = JBool <$> o -> bool_field v k = o.
Proof. unfold bool_field. intros ->. by destruct o. Qed.

Lemma not_blank_idem o : not_blank (not_blank o) = not_blank o.
Proof. unfold not_blank. destruct o as [s|]; [|done]. cbn. destruct (is_empty (trim s)) eqn:E; [done|]. cbn. by rewrite E. Qed.

Lemma read_text o : get v k = JStr <$> not_blank o -> not_blank (str_field v k) = not_blank o.
Proof. unfold str_field. intros ->. rewrite <- (not_blank_idem o) at 2. by destruct (not_blank o). Qed.
End Readers.

Lemma trimmed_idem o : trimmed (trimmed o) = trimmed o.
Proof.
  unfold trimmed, nonempty. destruct o as [s|]; [|done]. cbn. destruct (is_empty (trim s)) eqn:E; [done|]. cbn.
  by rewrite trim_idem, E.
Qed.

Lemma not_blank_trimmed o : not_blank (trimmed o) = trimmed o.
Proof.
  unfold trimmed, nonempty, not_blank. destruct o as [s|]; [|done]. cbn. destruct (is_empty (trim s)) eqn:E; [done|].
  cbn. by rewrite trim_idem, E.
Qed.

Lemma nonempty_trimmed o s : trimmed o = Some s -> nonempty (Some s) = Some s.
Proof. unfold trimmed, nonempty. destruct o as [t|]; [|done]. cbn. destruct (is_empty (trim t)) eqn:E; [done|]. intros [= <-]. by rewrite E. Qed.

Lemma omap_as_str l : omap as_str (map JStr l) = l.
Proof. induction l as [|x l IH]; [done|]. cbn. by rewrite IH. Qed.

Lemma string_members_map m : string_members (map (fun kv => (kv.1, JStr kv.2)) m) = m.
Proof. unfold string_members. induction m as [|[k x] m IH]; [done|]. cbn. by rewrite IH. Qed.

(** ** Values two dialects write alike *)
Definition options_value (s : IrSampling) : option json :=
  let mode := trimmed (sp_prompt_cache_mode s) in
  let ttl := trimmed (sp_prompt_cache_ttl s) in
  if is_none mode && is_none ttl then None
  else Some (put "ttl" (JStr <$> ttl) (put "mode" (JStr <$> mode) (JObj []))).

Definition mode_object (m : string) : json := jobj [("mode", JStr m)].

Definition moderation_value (s : IrSampling) : option json :=
  let model := trimmed (sp_moderation_model s) in
  let input := trimmed (sp_moderation_input s) in
  let output := trimmed (sp_moderation_output s) in
  if is_none model && is_none input && is_none output then None
  else
    let policy := if is_some input || is_some output
      then Some (put "output" (mode_object <$> output) (put "input" (mode_object <$> input) (JObj []))) else None in
    Some (put "policy" policy (put "model" (JStr <$> model) (JObj []))).

Definition sent_schema (s : IrSampling) (schema : json) : json :=
  if bool_decide (sp_json_schema_strict s = Some true)
  then strict_object_schema (normalize_object_schema_required schema) else schema.

Definition unless {A} (b : bool) (o : option A) : option A := if b then None else o.

Lemma puts_one k o body : puts [(k, o)] body = put k o body.
Proof. done. Qed.

Lemma put_none k body : put k None body = body.
Proof. done. Qed.

Lemma official_json_schema_fst schema name :
  (official_json_schema schema name).1 = (n ← trimmed name; if is_object schema then Some (schema, n) else None).
Proof.
  unfold official_json_schema. destruct (trimmed name); [|by rewrite nbind_fst].
  destruct (is_object schema); [done|]. by rewrite nbind_fst.
Qed.

(** ** Blocks under a breakpoint *)
Definition normal_mode (mode : option string) : option string :=
  (fun m => unwrap_or (trimmed (Some m)) "explicit") <$> nonempty mode.

Lemma peel_not_breakpoint part mode inner : (peel_prompt_cache_all part).1 <> PPromptCacheBreakpoint mode inner.
Proof.
  unfold peel_prompt_cache_all. enough ((peel_prompt_cache_modes part).1 <> PPromptCacheBreakpoint mode inner) as H
    by by destruct (peel_prompt_cache_modes part).
  induction part as [| | | | | | |m p IH]; try done. cbn. by destruct (peel_prompt_cache_modes p).
Qed.

Lemma data_url_splits media data :
  exists p, split_data_url ("data:" +:+ media +:+ ";base64," +:+ data) = Some p.
Proof.
  unfold split_data_url. rewrite strip_prefix_app. cbn [mbind option_bind].
  assert (forall p s r, exists q, split_once_str p (s +:+ p +:+ r) = Some q) as H; [|apply H].
  intros p s r. induction s as [|a s (q & IH)]; cbn [split_once_str].
  - rewrite str_app_nil. destruct (p +:+ r) as [|b t] eqn:E; cbn; rewrite <- E, strip_prefix_app; eauto.
  - rewrite str_app_cons. cbn [split_once_str]. destruct (strip_prefix p _); [by eexists|]. rewrite IH. destruct q. by eexists.
Qed.

Lemma with_prompt_cache_mode part value mode : is_object value = true -> get value "prompt_cache_breakpoint" = None ->
  with_prompt_cache part (apply_prompt_cache value mode true).1
  = match normal_mode mode with Some m => PPromptCacheBreakpoint m <$> part | None => part end.
Proof.
  intros O N. unfold with_prompt_cache, apply_prompt_cache, normal_mode. destruct (nonempty mode) as [m|]; cbn [fst quiet fmap option_fmap option_map negb].
  - rewrite get_index_set by done. eqb_literals. by destruct part.
  - rewrite N. by destruct part.
Qed.

(** The keys of a block are not touched by a breakpoint. *)
Lemma get_apply_prompt_cache value mode k : is_object value = true -> String.eqb k "prompt_cache_breakpoint" = false ->
  get (apply_prompt_cache value mode true).1 k = get value k.
Proof.
  intros O E. unfold apply_prompt_cache. destruct (nonempty mode); cbn [fst quiet negb]; [|done].
  by rewrite get_index_set, E.
Qed.

Ltac read_block := unfold get_str, str_field;
  repeat progress (rewrite ?get_apply_prompt_cache by (reflexivity || apply is_object_jobj);
    read_literals; cbn [mbind option_bind as_str unwrap_or opt_or]).

Lemma document_filename_some name media : nonempty (Some (document_filename name media)) = Some (document_filename name media).
Proof.
  unfold document_filename. destruct (trimmed name) as [n|] eqn:E; [by apply nonempty_trimmed in E|].
  by destruct (converse_document_format media).
Qed.

(** ** Tools *)

(** The tool a receiver reads; a namespace is sent under its name where the
    dialect keeps namespaces. *)
Definition normal_tool (keeps_namespaces : bool) (rename : string -> string) (tool : IrTool) : IrTool :=
  match tool with
  | TFunction name description parameters strict =>
      let parameters := normalize_object_schema_required parameters in
      TFunction (rename name) description
        (if bool_decide (strict = Some true) then strict_object_schema parameters else parameters) strict
  | TNamespace name raw => decode_tool (if keeps_namespaces then namespace_raw name raw else raw)
  | THosted _ raw | TUnknown _ raw | TCachePoint raw => decode_tool raw
  end.

Definition keeps_namespaces (wire : Wire) (policy : ToolTypePolicy) : bool :=
  wire_eqb wire Responses && match policy with PolicyHardError => true | _ => false end.

Section Tools.
Context (char_lower : string -> option string) (policy : ToolTypePolicy) (case : option ToolNameCase).
Context (wire : Wire) (Openai : wire = ChatCompletions \/ wire = Responses).
Context (encode_tool : PreparedTool -> json).
Hypothesis read_tool : forall name description parameters strict,
  decode_tool (encode_tool (PtFunction name description parameters strict))
  = normal_tool (keeps_namespaces wire policy) (fun _ => name) (TFunction name description parameters strict).
Hypothesis read_raw : forall raw, encode_tool (PtRaw raw) = raw.
#[local] Notation rename := (fun name => apply_tool_name_case char_lower name case).

Lemma kept_note_tool c raw out noted : kept c (PtRaw raw) = Ok (out, noted) ->
  map (fun t => decode_tool (encode_tool t)) out = [decode_tool raw].
Proof. unfold kept, lift. destruct c. intros [= <- <-]. cbn [map]. by rewrite read_raw. Qed.

Lemma prepare_tool_arrives idx tool out noted :
  prepare_tool char_lower wire policy case idx tool = Ok (out, noted) -> kept_whole noted = true ->
  map (fun t => decode_tool (encode_tool t)) out = [normal_tool (keeps_namespaces wire policy) rename tool].
Proof.
  assert (wire_keeps_strict wire = true) as Strict by by destruct Openai as [E|E]; rewrite E.
  assert (wire_eqb wire ChatCompletions || wire_eqb wire Responses = true) as Custom by by destruct Openai as [E|E]; rewrite E.
  assert (wire_eqb wire Converse = false) as NotConverse by by destruct Openai as [E|E]; rewrite E.
  intros P K. destruct tool as [name description parameters strict|name raw|kind raw|type_name raw|raw]; cbn [prepare_tool] in P.
  - destruct (is_empty (trim name)); [done|]. unfold prepare_function, no_slot_if in P. rewrite Strict in P. cbn [negb] in P.
    rewrite andb_false_r in P. injection P as <- <-. cbn [map]. by rewrite read_tool.
  - unfold push_namespace in P. unfold keeps_namespaces. cbn [normal_tool].
    destruct policy; rewrite ?andb_false_r, ?andb_true_r; [exact (kept_note_tool _ _ _ _ P)| |].
    + destruct (flatten_namespace _ _ _); [|done]. unfold lift, nbind, note in P. destruct (nfilter_map _ _). by injection P as <- <-.
    + destruct (wire_eqb wire Responses); [exact (kept_note_tool _ _ _ _ P)|done].
  - unfold push_hosted in P. destruct policy; [exact (kept_note_tool _ _ _ _ P)| |];
      (destruct (wire_eqb wire Responses); [exact (kept_note_tool _ _ _ _ P)|done]).
  - unfold push_unknown in P. rewrite NotConverse in P. destruct (String.eqb type_name "systemTool"); [by injection P as <- <-|].
    destruct (String.eqb type_name "custom").
    + unfold push_custom_tool in P. destruct (is_empty (trim _)); [done|]. rewrite Custom in P. exact (kept_note_tool _ _ _ _ P).
    + destruct policy; [exact (kept_note_tool _ _ _ _ P)|done|done].
  - rewrite NotConverse in P. by injection P as <- <-.
Qed.

Lemma prepare_from_arrives idx tools out noted :
  prepare_from char_lower wire policy case idx tools = Ok (out, noted) -> kept_whole noted = true ->
  map (fun t => decode_tool (encode_tool t)) out = map (normal_tool (keeps_namespaces wire policy) rename) tools.
Proof.
  revert idx out noted. induction tools as [|tool tools IH]; intros idx out noted; cbn [prepare_from]; [by intros [= <- <-]|].
  destruct (prepare_tool _ _ _ _ _ _) as [[out1 ev1]|] eqn:P; cbn [ebind]; [|done].
  destruct (prepare_from _ _ _ _ _ _) as [[out2 ev2]|] eqn:R; cbn [ebind quiet]; [|done].
  intros [= <- <-]. rewrite !kept_whole_app, !andb_true_iff. intros (K1 & K2 & _).
  rewrite map_app, (prepare_tool_arrives _ _ _ _ P K1), (IH _ _ _ R K2). done.
Qed.
End Tools.

