(* ===== verification/ChatRequest.v ===== *)
(** * ChatRequest: requests of the Chat Completions dialect

    [W/map/chat.rs]: [decode] reads a request body into the IR and [encode]
    writes the IR as a body.  Messages of assistant and tool calls that stand
    next to each other in the IR share one message on the wire; every part,
    item and sampling field without a slot is noted. *)
From S2P Require Import Prelude Text Json Floats Ir ProfileTypes StreamCore Usage Shapes Chat Loss RequestCore.
From S2P Require Import Schema Tools.

(** ** Decoding *)
Section Decode.
Context {SJ : SerdeJson}.

(** [part.get(k).and_then(Value::as_str).map(IrPart::Text)] *)
Definition text_part (o : option json) : option IrPart := PText <$> (o ≫= as_str).

Definition decode_image_part (part : json) : option IrPart :=
  image ← get part "image_url";
  url ← opt_or (as_str image) (str_field image "url");
  let detail := opt_filter (fun d => negb (is_empty d) && negb (String.eqb d "auto")) (get_str image "detail") in
  match detail, split_data_url url with
  | None, Some (media_type, data) => Some (PImageBase64 media_type data)
  | _, _ => Some (PImageUrl url detail None None)
  end.

Definition decode_part (part : json) : option IrPart :=
  match part with
  | JStr text => Some (PText text)
  | _ =>
      let type_name := unwrap_or (get_str part "type") "text" in
      if String.eqb type_name "text" then with_prompt_cache (text_part (get part "text")) part
      else if String.eqb type_name "image_url" then
        image ← decode_image_part part; with_prompt_cache (Some image) part
      else if String.eqb type_name "file" then with_prompt_cache (decode_openai_file_part part) part
      else if String.eqb type_name "input_audio" then with_prompt_cache (decode_input_audio_part part) part
      else if String.eqb type_name "refusal" then
        with_prompt_cache
          (PText <$> nonempty (opt_or (get part "refusal") (get part "text") ≫= as_str)) part
      else if String.eqb type_name "thinking" then
        with_prompt_cache
          (Some (PThinking (unwrap_or (opt_or (get part "text") (get part "thinking") ≫= as_str) "")
                   (str_field part "signature"))) part
      else with_prompt_cache (text_part (get part "text")) part
  end.

Definition decode_content (content : option json) : list IrPart :=
  match content with
  | Some (JStr text) => [PText text]
  | Some (JArr l) => omap decode_part l
  | _ => []
  end.

Definition visible_text (part : IrPart) : option string :=
  match (peel_prompt_cache part).1 with PText text => Some text | PThinking text _ => Some text | _ => None end.

Definition parts_text (parts : list IrPart) : string := str_join "" (omap visible_text parts).

(** [type: custom], or a call that only carries [custom]. *)
Definition is_custom_tool_call (call : json) : bool :=
  match get_str call "type" with
  | Some t => String.eqb t "custom"
  | None => is_some (get call "custom") && is_none (get call "function")
  end.

Definition decode_tool_call (call : json) : IrItem :=
  let call_id := text_or_empty (str_field call "id") in
  if is_custom_tool_call call then
    let custom := unwrap_or (get call "custom") call in
    ICustomToolCall call_id (text_or_empty (str_field custom "name"))
      (text_or_empty (value_as_string <$> get custom "input")) None
  else
    let func := unwrap_or (get call "function") call in
    IFunctionCall call_id (text_or_empty (str_field func "name"))
      (unwrap_or (value_as_string <$> get func "arguments") "{}") None.

Definition is_image (part : IrPart) : bool :=
  match part with PImageUrl _ _ _ _ | PImageBase64 _ _ => true | _ => false end.
Definition is_text (part : IrPart) : bool := match part with PText _ => true | _ => false end.

(** What a tool message keeps: its text, and the images; with a breakpoint
    the parts stay in order. *)
Definition tool_output (parts : list IrPart) : string * list IrPart :=
  if existsb has_breakpoint parts then
    ("", List.filter (fun part => let inner := (peel_prompt_cache part).1 in is_text inner || is_image inner) parts)
  else (parts_text parts, List.filter is_image parts).

Definition decode_message (msg : json) : noted (list IrItem) :=
  let role := unwrap_or (get_str msg "role") "user" in
  let parts := decode_content (get msg "content") in
  let! parts :=
    match if String.eqb role "assistant" then nonempty (str_field msg "refusal") else None with
    | Some refusal =>
        let! _ := note "messages.refusal" Degrade "refusal kept as text" in quiet (parts ++ [PText refusal])
    | None => quiet parts
    end in
  quiet
    (if String.eqb role "system" then
       [ISystem (parts_text parts) (role_text_breakpoint parts) (role_content_parts parts)]
     else if String.eqb role "developer" then
       [IDeveloper (parts_text parts) (role_text_breakpoint parts) (role_content_parts parts)]
     else if String.eqb role "assistant" then
       (if negb (bool_decide (length parts = 0%nat)) || is_none (get msg "tool_calls") then [IAssistant parts None] else [])
       ++ (match get_array msg "tool_calls" with Some calls => map decode_tool_call calls | None => [] end)
     else if String.eqb role "tool" then
       let '(output, kept) := tool_output parts in
       [IFunctionOutput (text_or_empty (str_field msg "tool_call_id")) output kept false]
     else [IUser parts]).

(** ** Sampling *)
Definition chat_logit_bias (value : json) : list (string * f64) :=
  match get value "logit_bias" ≫= as_object with
  | Some m => omap (fun kv => (fun n => (kv.1, n)) <$> as_f64 kv.2) m
  | None => []
  end.

Definition chat_object_field (value : json) (key : string) : option json :=
  opt_filter (fun v => match v with JObj (_ :: _) => true | _ => false end) (get value key).

Definition modality_name (raw : string) : string :=
  if eq_ignore_ascii_case raw "text" then "text" else if eq_ignore_ascii_case raw "audio" then "audio" else raw.

Definition chat_output_modalities (value : json) : list string :=
  match get_array value "modalities" with Some l => map modality_name (omap as_str l) | None => [] end.

Definition chat_audio_voice (value : json) : option string :=
  audio ← get value "audio";
  match get_str audio "voice" with
  | Some voice => trimmed (Some voice)
  | None => trimmed (v ← get audio "voice"; str_field v "id")
  end.

Definition chat_audio_format (value : json) : option string :=
  trimmed (audio ← get value "audio"; str_field audio "format").

Definition chat_json_object (value : json) : option bool :=
  format ← get value "response_format";
  if bool_decide (get_str format "type" = Some "json_object") then Some true else None.

Definition schema_description (value : json) : option string := trimmed (get_str value "description").

(** The schema, its name, [strict] and its description. *)
Definition chat_json_schema (value : json) : option json * option string * option bool * option string :=
  match get value "response_format" with
  | None => (None, None, None, None)
  | Some format =>
      if negb (bool_decide (get_str format "type" = Some "json_schema")) then (None, None, None, None)
      else
        let js := get format "json_schema" in
        (js ≫= (fun js => get js "schema"), nonempty (js ≫= (fun js => get_str js "name")),
         js ≫= (fun js => bool_field js "strict"), js ≫= schema_description)
  end.

Definition decode_tool_choice (value : option json) : IrToolChoice :=
  match value with
  | Some (JStr s) => if String.eqb s "none" then NoTool else if String.eqb s "required" then Required else Auto
  | Some (JObj obj) =>
      let value := JObj obj in
      match opt_or (f ← get value "function"; get_str f "name") (get_str value "name") with
      | Some name => Named name
      | None =>
          match get_str value "type" with
          | Some t => if String.eqb t "none" then NoTool else if one_of t ["required"; "any"] then Required else Auto
          | None => Auto
          end
      end
  | _ => Auto
  end.

Definition mode_at (value : json) (side : string) : option string :=
  trimmed (pointer_str value [Key "moderation"; Key "policy"; Key side; Key "mode"]).

Definition decode_sampling (value : json) : IrSampling :=
  let '(json_schema, json_schema_name, json_schema_strict, json_schema_description) := chat_json_schema value in
  let top_logprobs := u32_field value "top_logprobs" in
  let options key := not_blank (opts ← get value "prompt_cache_options"; str_field opts key) in
  {| sp_temperature := f32_field value "temperature";
     sp_top_p := f32_field value "top_p";
     sp_top_k := None;
     sp_max_tokens := opt_or (u32_field value "max_completion_tokens") (u32_field value "max_tokens");
     sp_stop := stop_values value ["stop"];
     sp_tool_choice := decode_tool_choice (get value "tool_choice");
     sp_parallel_tool_calls := bool_field value "parallel_tool_calls";
     sp_store := bool_field value "store";
     sp_previous_response_id := str_field value "previous_response_id";
     sp_cache := cache_default;
     sp_stream := bool_field value "stream";
     sp_include_thoughts := None;
     sp_thinking_budget := None;
     sp_reasoning_effort := not_blank (str_field value "reasoning_effort");
     sp_max_reasoning_tokens := u32_field value "max_reasoning_tokens";
     sp_json_schema := json_schema;
     sp_json_schema_name := json_schema_name;
     sp_json_schema_description := json_schema_description;
     sp_json_schema_strict := json_schema_strict;
     sp_json_object := chat_json_object value;
     sp_include := [];
     sp_prompt_cache_key := not_blank (str_field value "prompt_cache_key");
     sp_prompt_cache_retention := not_blank (str_field value "prompt_cache_retention");
     sp_prompt_cache_mode := options "mode";
     sp_prompt_cache_ttl := options "ttl";
     sp_top_logprobs := top_logprobs;
     sp_moderation_model := not_blank (m ← get value "moderation"; str_field m "model");
     sp_moderation_input := mode_at value "input";
     sp_moderation_output := mode_at value "output";
     sp_include_obfuscation := (opts ← get value "stream_options"; bool_field opts "include_obfuscation");
     sp_user := not_blank (str_field value "user");
     sp_verbosity := not_blank (str_field value "verbosity");
     sp_safety_identifier := not_blank (str_field value "safety_identifier");
     sp_metadata := string_object_field value "metadata";
     sp_frequency_penalty := f32_field value "frequency_penalty";
     sp_presence_penalty := f32_field value "presence_penalty";
     sp_seed := i64_field value "seed";
     sp_n := u32_field value "n";
     sp_service_tier := not_blank (str_field value "service_tier");
     sp_output_modalities := chat_output_modalities value;
     sp_audio_voice := chat_audio_voice value;
     sp_audio_format := chat_audio_format value;
     sp_logprobs := opt_or (bool_field value "logprobs") (if is_some top_logprobs then Some true else None);
     sp_logit_bias := chat_logit_bias value;
     sp_prediction := chat_object_field value "prediction";
     sp_web_search_options := chat_object_field value "web_search_options";
     sp_inference_geo := None;
     sp_performance_latency := None;
     sp_previous_message_id := None;
     sp_response_field_paths := [];
     sp_additional_request_fields := None;
     sp_prompt_variables := None;
     sp_guardrail := None;
     sp_container := None;
     sp_context_management := None;
     sp_mcp_servers := None;
     sp_media_resolution := None;
     sp_image_config := None;
     sp_audio_transcription_config := None;
     sp_translation_config := None;
     sp_affective_dialog := None;
     sp_enhanced_civic_answers := None;
     sp_multi_speaker_speech := None;
     sp_cached_content := None;
     sp_safety_settings := None;
     sp_request_labels := None;
     sp_truncation := None;
     sp_max_tool_calls := None;
     sp_background := None;
     sp_conversation := None;
     sp_responses_context_management := None;
     sp_messages_thinking := None |}.

Definition decode (value : json) : result MapError (IrRequest * LossReport) :=
  let messages := unwrap_or (get_array value "messages") [] in
  let '(items, events) := nmap decode_message messages in
  let tools := map decode_tool (unwrap_or (get_array value "tools") []) in
  Ok (mkRequest (text_or_empty (str_field value "model")) (concat items) tools (decode_sampling value),
      mkReport events).
End Decode.

(** ** Encoding messages *)
Section Encode.
Context {SJ : SerdeJson}.

Definition role_text_content (text : string) (mode : option string) : json :=
  match nonempty mode with
  | None => JStr text
  | Some mode =>
      JArr [jobj [("type", JStr "text"); ("text", JStr text);
                  ("prompt_cache_breakpoint", jobj [("mode", JStr mode)])]]
  end.

Definition text_block (text : string) : json := jobj [("type", JStr "text"); ("text", JStr text)].

Definition data_url_block (media_type data : string) : json :=
  jobj [("type", JStr "image_url");
        ("image_url", jobj [("url", JStr ("data:" +:+ media_type +:+ ";base64," +:+ data))])].

Definition audio_block (data format : string) : json :=
  jobj [("type", JStr "input_audio"); ("input_audio", jobj [("data", JStr data); ("format", JStr format)])].

Definition document_url_note : noted unit :=
  note "part.document" Drop "document url has no Chat Completions slot".

Definition encode_document (source : IrDocumentSource) (media_type : string) (name : option string) : noted json :=
  let filename := document_filename name media_type in
  match source with
  | SrcText data =>
      let! _ := note "part.document" Degrade "plain text document becomes text" in quiet (text_block data)
  | SrcBase64 data =>
      let media_type := if is_empty media_type then "application/pdf" else media_type in
      quiet (jobj [("type", JStr "file");
                   ("file", jobj [("filename", JStr filename);
                                  ("file_data", JStr ("data:" +:+ media_type +:+ ";base64," +:+ data))])])
  | SrcFileId id =>
      if is_empty (trim id) then
        let! _ := note "part.document" Drop "file id is empty" in quiet (text_block "")
      else
        quiet (jobj [("type", JStr "file");
                     ("file", put "filename" (JStr <$> trimmed name) (jobj [("file_id", JStr id)]))])
  | SrcUrl _ | SrcS3 _ _ => let! _ := document_url_note in quiet (text_block "")
  end.

(** A part without a slot is noted and left out. *)
Definition leave_out (path detail : string) : noted bool := let! _ := note path Drop detail in quiet false.

Definition keep_raw (part : IrPart) : noted bool :=
  match plain_media_part part with
  | Some (PDocument (SrcUrl _) _ _ _ _) => let! _ := document_url_note in quiet false
  | Some (PAudio data _) =>
      if blank data then leave_out "part.audio" "audio data is empty"
      else let! _ := note "part.media_hint" Drop "no slot" in quiet true
  | Some (PImageBase64 _ data) =>
      if blank data then leave_out "part.image" "image data is empty"
      else let! _ := note "part.media_hint" Drop "no slot" in quiet true
  | Some (PDocument (SrcBase64 data) _ _ _ _) =>
      if blank data then leave_out "part.document" "document data is empty"
      else let! _ := note "part.media_hint" Drop "no slot" in quiet true
  | Some _ => let! _ := note "part.media_hint" Drop "no slot" in quiet true
  | None => leave_out "part.raw" "raw part has no Chat Completions slot"
  end.

Definition keep_inner (part : IrPart) : noted bool :=
  match part with
  | PImageUrl url _ _ file_id =>
      if blank url then
        if is_some (not_blank file_id) then leave_out "part.image.file_id" "no slot"
        else leave_out "part.image" "image url is empty"
      else if image_file_id_without_url url file_id then leave_out "part.image.file_id" "no slot"
      else if is_some_and (split_data_url url) (fun p => blank p.2) then leave_out "part.image" "image data is empty"
      else quiet true
  | PAudio data _ => if blank data then leave_out "part.audio" "audio data is empty" else quiet true
  | PImageBase64 _ data => if blank data then leave_out "part.image" "image data is empty" else quiet true
  | PThinking _ _ => leave_out "part.thinking" "thinking has no Chat Completions slot"
  | PRaw _ _ => keep_raw part
  | PDocument (SrcBase64 data) _ _ _ _ =>
      if blank data then leave_out "part.document" "document data is empty" else quiet true
  | PDocument (SrcUrl _ | SrcS3 _ _) _ _ _ _ => let! _ := document_url_note in quiet false
  | _ => quiet true
  end.

(** The filter of [encode_parts]; the breakpoint of a part left out is noted. *)
Definition keep_part (part : IrPart) : noted (option IrPart) :=
  let '(inner, mode) := peel_prompt_cache_all part in
  let! keep := keep_inner inner in
  if keep then quiet (Some part) else let! _ := drop_prompt_cache mode in quiet None.

Definition encode_media (part : IrPart) : noted (option json) :=
  match plain_media_part part with
  | Some (PImageBase64 media_type data) => quiet (Some (data_url_block media_type data))
  | Some (PDocument (SrcUrl _) _ _ _ _) => let! _ := document_url_note in quiet (Some (text_block ""))
  | Some (PDocument source media_type name _ _) => let! v := encode_document source media_type name in quiet (Some v)
  | Some (PAudio data format) =>
      if blank data then
        let! _ := note "part.audio" Drop "audio data is empty" in quiet (Some (text_block ""))
      else quiet (Some (audio_block data format))
  | Some (PText text) => quiet (Some (text_block text))
  | _ => quiet None (* only parts with a media hint are left: [expect], [unreachable!] *)
  end.

Definition encode_visible (part : IrPart) : noted (option json) :=
  let '(inner, mode) := peel_prompt_cache_all part in
  let! value :=
    match inner with
    | PText text => quiet (Some (text_block text))
    | PImageUrl url detail _ _ =>
        quiet (Some (jobj [("type", JStr "image_url");
                           ("image_url", put "detail" (JStr <$> detail) (jobj [("url", JStr url)]))]))
    | PImageBase64 media_type data => quiet (Some (data_url_block media_type data))
    | PDocument source media_type name _ _ => let! v := encode_document source media_type name in quiet (Some v)
    | PAudio data format => quiet (Some (audio_block data format))
    | PRaw _ _ => encode_media inner
    | PThinking _ _ =>
        let! _ := note "part.thinking" Drop "thinking has no Chat Completions slot" in quiet None
    | PPromptCacheBreakpoint _ _ => quiet None
    end in
  match value with
  | Some value => let! value := apply_prompt_cache value mode true in quiet (Some value)
  | None => quiet None
  end.

Definition encode_parts (parts : list IrPart) : noted json :=
  let! visible := nfilter_map keep_part parts in
  match visible with
  | [] => quiet (JStr "")
  | [PText text] => quiet (JStr text)
  | _ => let! blocks := nfilter_map encode_visible visible in quiet (JArr blocks)
  end.

Definition function_call_json (call_id name arguments : string) : json :=
  jobj [("id", JStr call_id); ("type", JStr "function");
        ("function", jobj [("name", JStr name); ("arguments", JStr arguments)])].

Definition custom_tool_call_json (call_id name input : string) : json :=
  jobj [("id", JStr call_id); ("type", JStr "custom");
        ("custom", jobj [("name", JStr name); ("input", JStr input)])].

(** The calls from here on, and the items left. *)
Fixpoint take_function_calls (idx : nat) (items : list IrItem) : noted (list json * nat * list IrItem) :=
  match items with
  | IFunctionCall call_id name arguments thought_signature :: items =>
      let! _ := note_if (is_some thought_signature) (item_path idx) Drop
                  "thoughtSignature has no Chat Completions slot" in
      let! rest := take_function_calls (S idx) items in
      let '(calls, next, items) := rest in
      quiet (function_call_json call_id name arguments :: calls, next, items)
  | ICustomToolCall call_id name input _ :: items =>
      let! rest := take_function_calls (S idx) items in
      let '(calls, next, items) := rest in
      quiet (custom_tool_call_json call_id name input :: calls, next, items)
  | _ => quiet ([], idx, items)
  end.

(** Text parts in order, plus JSON tool payloads as text. *)
Definition tool_text_and_json_part (part : IrPart) : option IrPart :=
  match (peel_prompt_cache_all part).1 with
  | PText text => if is_empty text then None else Some part
  | PRaw type_name raw => if String.eqb type_name "json" then Some (PText (to_string raw)) else None
  | _ => None
  end.
Definition tool_text_and_json_parts (parts : list IrPart) : list IrPart := omap tool_text_and_json_part parts.

(** Chat writes one breakpoint mode. Each mode inside that layer is a drop. *)
Definition note_inner_breakpoint_modes (parts : list IrPart) : noted unit :=
  note_all (map (fun part =>
    let modes := (peel_prompt_cache_modes part).2 in
    let skip := if is_some_and (head modes) (fun m => negb (is_empty m)) then 1%nat else 0%nat in
    note_all (map (fun mode => drop_prompt_cache (Some mode)) (drop skip modes))) parts).

(** What the loop over the parts of a tool result notes. *)
Definition note_output_part (idx : nat) (part : IrPart) : noted unit :=
  let '(visible, modes) := peel_prompt_cache_modes part in
  let! _ := if nonempty_text visible then quiet tt
            else note_all (map (fun mode => drop_prompt_cache (Some mode)) modes) in
  if is_image visible || is_some (function_response_image visible)
  then note (item_path idx +:+ ".image") Drop "no slot"
  else
    note_if (match visible with
             | PDocument _ _ _ _ _ => true
             | PRaw type_name _ => one_of type_name ["video"; "searchResult"]
             | _ => false
             end) (item_path idx +:+ ".part") Drop "tool result document, video, or search result has no slot".

Definition tool_content (output : string) (parts : list IrPart) : noted json :=
  if existsb has_breakpoint parts then
    match List.filter (fun part => nonempty_text (peel_prompt_cache_all part).1) parts with
    | [] => quiet (JStr (function_output_text output parts))
    | text_parts =>
        let! _ := note_inner_breakpoint_modes text_parts in
        if existsb (fun part => is_some (function_output_json_text part)) parts
        then encode_parts (tool_text_and_json_parts parts) else encode_parts text_parts
    end
  else quiet (JStr (function_output_text output parts)).

Definition chat_string_role (raw : json) : bool := is_some_and (get raw "role") is_string.

Definition role_message (role : string) (content : json) : json := jobj [("role", JStr role); ("content", content)].

Definition role_content (text : string) (mode : option string) (content_parts : list IrPart) : noted json :=
  match content_parts with [] => quiet (role_text_content text mode) | _ => encode_parts content_parts end.

(** An opaque item passes when it is a message with a role. *)
Definition opaque_message (idx : nat) (raw : json) (c : noted unit) : noted (list json) :=
  if chat_string_role raw then let! _ := c in quiet [raw]
  else let! _ := note (item_path idx +:+ ".role") Drop "chat messages require role" in quiet [].

(** The messages written for one item that takes no other item with it. *)
Definition encode_item (idx : nat) (item : IrItem) : noted (list json) :=
  let path := item_path idx in
  match item with
  | ISystem text mode content_parts =>
      let! content := role_content text mode content_parts in quiet [role_message "system" content]
  | ISystemCache _ => let! _ := note path Drop "system cache point has no slot" in quiet []
  | ISystemGuard _ => let! _ := note path Drop "system guard content has no slot" in quiet []
  | IDeveloper text mode content_parts =>
      let! _ := note path Preserve "developer" in
      let! content := role_content text mode content_parts in quiet [role_message "developer" content]
  | IUser parts => let! content := encode_parts parts in quiet [role_message "user" content]
  | IFunctionOutput call_id output parts is_error =>
      let! _ := note_all (map (note_output_part idx) parts) in
      let! _ := no_slot_if is_error (path +:+ ".is_error") in
      let! content := tool_content output parts in
      quiet [jobj [("role", JStr "tool"); ("tool_call_id", JStr call_id); ("content", content)]]
  | IReasoning _ _ _ => let! _ := note path Degrade "reasoning omitted on Chat Completions" in quiet []
  | IHostedToolCall kind raw =>
      opaque_message idx raw (note path Preserve ("hosted item `" +:+ kind +:+ "` passthrough"))
  | IUnknown type_name raw =>
      if one_of type_name ["toolAddition"; "toolRemoval"]
      then let! _ := note path Drop "tool addition or removal has no slot" in quiet []
      else opaque_message idx raw (quiet tt)
  | IAssistant _ _ | IFunctionCall _ _ _ _ | ICustomToolCall _ _ _ _ => quiet []
  end.

(** The loop over the items; [fuel] is their number, and each round takes at
    least one. *)
Fixpoint encode_items (fuel : nat) (idx : nat) (items : list IrItem) : noted (list json) :=
  match fuel, items with
  | S fuel, IAssistant parts phase :: items =>
      let! _ := drop_assistant_phase phase (item_path idx +:+ ".phase") in
      let! taken := take_function_calls (S idx) items in
      let '(calls, next, items) := taken in
      let! content := encode_parts parts in
      let msg := jobj [("role", JStr "assistant"); ("content", content)] in
      let msg := match calls with [] => msg | _ => index_set msg "tool_calls" (JArr calls) end in
      let! rest := encode_items fuel next items in
      quiet (msg :: rest)
  | S fuel, (IFunctionCall _ _ _ _ | ICustomToolCall _ _ _ _) :: _ =>
      let! taken := take_function_calls idx items in
      let '(calls, next, items) := taken in
      let! rest := encode_items fuel next items in
      quiet (jobj [("role", JStr "assistant"); ("content", JNull); ("tool_calls", JArr calls)] :: rest)
  | S fuel, item :: items =>
      let! messages := encode_item idx item in
      let! rest := encode_items fuel (S idx) items in
      quiet (messages ++ rest)
  | _, _ => quiet []
  end.

Definition encode_messages (ir : IrRequest) : noted (list json) := encode_items (length (items ir)) 0 (items ir).

Definition encode_tool (tool : PreparedTool) : json :=
  match tool with
  | PtFunction name description parameters strict =>
      let parameters := normalize_object_schema_required parameters in
      let parameters := if bool_decide (strict = Some true) then strict_object_schema parameters else parameters in
      jobj [("type", JStr "function");
            ("function", put "strict" (JBool <$> strict)
               (jobj [("name", JStr name); ("description", JStr description); ("parameters", parameters)]))]
  | PtRaw raw => raw
  end.
End Encode.

(** ** Encoding sampling *)
Definition uses_max_completion_tokens (model : string) : bool :=
  let id := to_ascii_lowercase (openai_model_leaf model) in
  model_or_variant id "o1" || model_or_variant id "o3" || model_or_variant id "o4" || starts_with "gpt-5" id.

Definition encode_tool_choice (choice : IrToolChoice) : step := fun body =>
  quiet
    match choice with
    | Auto => body
    | NoTool => index_set body "tool_choice" (JStr "none")
    | Required => index_set body "tool_choice" (JStr "required")
    | Named name =>
        index_set body "tool_choice"
          (jobj [("type", JStr "function"); ("function", jobj [("name", JStr name)])])
    end.

(** A number these models reject, or the body with it. *)
Definition sampling_number (rejected : bool) (o : option f32) (key : string) (detail : string) : step := fun body =>
  match o with
  | None => quiet body
  | Some t =>
      if rejected then let! _ := note ("sampling." +:+ key) Drop detail in quiet body
      else quiet (index_set body key (json_f32 t))
  end.

(** A text with a value is sent and noted as kept. *)
Definition kept_text (o : option string) (key : string) : step :=
  set_when (not_blank o) key JStr (preserve key ("chat " +:+ key)).

Definition encode_stop (model : string) (s : IrSampling) : step := fun body =>
  match sp_stop s with
  | [] => quiet body
  | stop =>
      if chat_stop_unsupported model then
        let! _ := note "sampling.stop" Drop "o3 and o4-mini Chat Completions reject stop" in quiet body
      else
        let! kept := kept_stop stop in
        quiet (match kept with [] => body | _ => index_set body "stop" (JArr (map JStr kept)) end)
  end.

Definition encode_prompt_cache_options (s : IrSampling) : step := fun body =>
  let mode := trimmed (sp_prompt_cache_mode s) in
  let ttl := trimmed (sp_prompt_cache_ttl s) in
  if is_none mode && is_none ttl then quiet body
  else
    let! opts := set_when mode "mode" JStr (preserve "prompt_cache_mode" "chat prompt_cache_options.mode") (JObj []) in
    let! opts := set_when ttl "ttl" JStr (preserve "prompt_cache_ttl" "chat prompt_cache_options.ttl") opts in
    quiet (index_set body "prompt_cache_options" opts).

Definition GPT5_LOGPROBS : string :=
  "gpt-5 family Chat Completions reject logprobs unless gpt-5.1 or gpt-5.2 reasoning effort is none".

Definition encode_logprobs (model : string) (s : IrSampling) : step := fun body =>
  let asked := bool_decide (sp_logprobs s = Some true) in
  let top := sp_top_logprobs s in
  if gpt5_sampling_params_rejected model (sp_reasoning_effort s) && (asked || is_some top) then
    let! _ := note "sampling.logprobs" Drop GPT5_LOGPROBS in
    let! _ := note_if (is_some top) "sampling.top_logprobs" Drop GPT5_LOGPROBS in
    quiet body
  else
    let body := if asked || is_some top then index_set body "logprobs" (JBool true) else body in
    let! _ := note_if asked "sampling.logprobs" Preserve "chat logprobs" in
    set_when top "top_logprobs" jint (preserve "top_logprobs" "chat top_logprobs") body.

Definition encode_moderation (s : IrSampling) : step := fun body =>
  let model := trimmed (sp_moderation_model s) in
  let input := trimmed (sp_moderation_input s) in
  let output := trimmed (sp_moderation_output s) in
  let mode m := jobj [("mode", JStr m)] in
  if is_none model && is_none input && is_none output then quiet body
  else
    let! obj := set_when model "model" JStr (preserve "moderation_model" "chat moderation.model") (JObj []) in
    let! obj :=
      if is_some input || is_some output then
        let! policy := set_when input "input" mode
          (preserve "moderation_input" "chat moderation.policy.input.mode") (JObj []) in
        let! policy := set_when output "output" mode
          (preserve "moderation_output" "chat moderation.policy.output.mode") policy in
        quiet (index_set obj "policy" policy)
      else quiet obj in
    quiet (index_set body "moderation" obj).

Definition encode_stream (s : IrSampling) : step := fun body =>
  match sp_stream s with
  | None => quiet body
  | Some stream =>
      let body := index_set body "stream" (JBool stream) in
      quiet (if stream then index_set body "stream_options" (jobj [("include_usage", JBool true)]) else body)
  end.

(** [body["stream_options"]["include_obfuscation"] = ..] on an object that is
    created when it is missing. *)
Definition encode_obfuscation (s : IrSampling) : step := fun body =>
  match sp_include_obfuscation s with
  | None => quiet body
  | Some include_obfuscation =>
      let options := unwrap_or (object_field body "stream_options") (JObj []) in
      let! _ := preserve "include_obfuscation" "chat stream_options.include_obfuscation" in
      quiet (index_set body "stream_options"
               (index_set options "include_obfuscation" (JBool include_obfuscation)))
  end.

Definition encode_response_format (s : IrSampling) : step := fun body =>
  let otherwise :=
    quiet (if bool_decide (sp_json_object s = Some true)
           then index_set body "response_format" (jobj [("type", JStr "json_object")]) else body) in
  match sp_json_schema s with
  | None => otherwise
  | Some schema =>
      let! official := official_json_schema schema (sp_json_schema_name s) in
      match official with
      | None => otherwise
      | Some (schema, name) =>
          let schema :=
            if bool_decide (sp_json_schema_strict s = Some true)
            then strict_object_schema (normalize_object_schema_required schema) else schema in
          let json_schema := jobj [("name", JStr name); ("schema", schema)] in
          let json_schema := put "strict" (JBool <$> sp_json_schema_strict s) json_schema in
          let json_schema := put "description" (JStr <$> trimmed (sp_json_schema_description s)) json_schema in
          quiet (index_set body "response_format"
                   (jobj [("type", JStr "json_schema"); ("json_schema", json_schema)]))
      end
  end.

Definition chat_modality (raw : string) : option string :=
  if eq_ignore_ascii_case raw "text" then Some "text"
  else if eq_ignore_ascii_case raw "audio" then Some "audio" else None.

Definition encode_modalities (s : IrSampling) : step := fun body =>
  let modalities := omap chat_modality (sp_output_modalities s) in
  match sp_output_modalities s, modalities with
  | _ :: _, [] =>
      let! _ := note "sampling.output_modalities" Drop "chat modalities are text or audio" in quiet body
  | [], _ => quiet body
  | all, _ =>
      let! _ := note "sampling.output_modalities"
                  (if (length modalities <? length all)%nat then Degrade else Preserve) "chat modalities" in
      quiet (index_set body "modalities" (JArr (map JStr modalities)))
  end.

Definition encode_audio (s : IrSampling) : step := fun body =>
  let has_audio_modality := existsb (fun raw => eq_ignore_ascii_case raw "audio") (sp_output_modalities s) in
  let voice := trimmed (sp_audio_voice s) in
  if is_none voice && negb has_audio_modality then quiet body
  else
    let format := unwrap_or (trimmed (sp_audio_format s)) "wav" in
    let! audio := set_when voice "voice" JStr (preserve "audio_voice" "chat audio.voice") (JObj []) in
    quiet (index_set body "audio" (index_set audio "format" (JStr format))).

Definition encode_output_modalities_and_audio (s : IrSampling) : list step := [encode_modalities s; encode_audio s].

(** [json!(map)] of a [BTreeMap] of numbers. *)
Definition json_f64 (bits : Z) : json := if is_finite bits then JNum (NumFloat bits) else JNull.
Definition json_numbers (m : list (string * f64)) : json := JObj (map (fun kv => (kv.1, json_f64 kv.2)) m).

(** The fields of other dialects, in the order they are noted. *)
Definition fields_without_slot (s : IrSampling) : list (bool * string) :=
  [ (is_some (sp_top_k s), "top_k"); (is_some (sp_media_resolution s), "media_resolution");
    (is_some (sp_image_config s), "image_config");
    (is_some (sp_audio_transcription_config s), "audio_transcription_config");
    (is_some (sp_translation_config s), "translation_config"); (is_some (sp_affective_dialog s), "affective_dialog");
    (is_some (sp_enhanced_civic_answers s), "enhanced_civic_answers");
    (is_some (sp_multi_speaker_speech s), "multi_speaker_speech"); (is_some (sp_cached_content s), "cached_content");
    (is_some (sp_safety_settings s), "safety_settings"); (is_some (sp_request_labels s), "request_labels");
    (is_some (sp_inference_geo s), "inference_geo"); (is_some (sp_performance_latency s), "performance_latency");
    (is_some (sp_previous_message_id s), "previous_message_id");
    (negb (bool_decide (sp_response_field_paths s = [])), "response_field_paths");
    (is_some (sp_additional_request_fields s), "additional_request_fields");
    (is_some (sp_prompt_variables s), "prompt_variables"); (is_some (sp_guardrail s), "guardrail");
    (is_some (sp_container s), "container"); (is_some (sp_context_management s), "context_management") ].

Definition sampling_steps (ir : IrRequest) : list step :=
  let s := sampling ir in
  let max_completion := uses_max_completion_tokens (model ir) in
    ([ sampling_number max_completion (sp_temperature s) "temperature"
         "o-series and gpt-5 Chat Completions reject temperature";
       sampling_number max_completion (sp_top_p s) "top_p" "o-series and gpt-5 Chat Completions reject top_p";
       only_note (note_fields (fields_without_slot s));
       only_note (drop_responses_request_fields s);
       only_note (drop_messages_native_thinking s);
       only_note (no_slot_if (is_some (sp_mcp_servers s)) "sampling.mcp_servers");
       set_when (sp_max_tokens s) (if max_completion then "max_completion_tokens" else "max_tokens") jint (quiet tt);
       encode_stop (model ir) s;
       set_when (sp_frequency_penalty s) "frequency_penalty" json_f32 (quiet tt);
       set_when (sp_presence_penalty s) "presence_penalty" json_f32 (quiet tt);
       set_when (sp_seed s) "seed" jint (quiet tt);
       set_when (sp_n s) "n" jint (quiet tt);
       encode_tool_choice (sp_tool_choice s);
       set_when (sp_parallel_tool_calls s) "parallel_tool_calls" JBool
         (preserve "parallel_tool_calls" "chat parallel_tool_calls");
       set_when (sp_store s) "store" JBool (preserve "store" "chat store");
       only_note (note_if (is_some (sp_previous_response_id s)) "sampling.previous_response_id" Degrade
         "drop id, rebuild full input");
       only_note (no_slot_if (enabled (sp_cache s)) "sampling.cache");
       kept_text (sp_prompt_cache_key s) "prompt_cache_key";
       kept_text (sp_prompt_cache_retention s) "prompt_cache_retention";
       encode_prompt_cache_options s;
       encode_logprobs (model ir) s;
       encode_moderation s;
       set_when (not_blank (sp_user s)) "user" JStr (quiet tt);
       kept_text (sp_verbosity s) "verbosity";
       kept_text (sp_safety_identifier s) "safety_identifier";
       set_when (if_any (sp_metadata s) (sp_metadata s)) "metadata" json_strings (preserve "metadata" "chat metadata");
       kept_text (sp_service_tier s) "service_tier";
       encode_stream s;
       encode_obfuscation s;
       set_when (not_blank (sp_reasoning_effort s)) "reasoning_effort" JStr (quiet tt);
       only_note (no_slot_if (is_some (sp_max_reasoning_tokens s)) "sampling.max_reasoning_tokens");
       only_note (no_slot_if (is_some (sp_include_thoughts s)) "sampling.include_thoughts");
       only_note (no_slot_if (negb (bool_decide (sp_include s = []))) "sampling.include");
       only_note (no_slot_if (is_some (sp_thinking_budget s)) "sampling.thinking_budget");
       encode_response_format s ]
     ++ encode_output_modalities_and_audio s
     ++ [ set_when (if_any (sp_logit_bias s) (sp_logit_bias s)) "logit_bias" json_numbers
            (preserve "logit_bias" "chat logit_bias");
          set_when (sp_prediction s) "prediction" id (preserve "prediction" "chat prediction");
          set_when (sp_web_search_options s) "web_search_options" id
            (preserve "web_search_options" "chat web_search_options") ]).

Definition encode_sampling (ir : IrRequest) (body : json) : noted json := steps (sampling_steps ir) body.

(** ** The whole body *)

(** The ranges a vendor accepts, checked before anything is written. *)
Definition check_sampling (ir : IrRequest) : result MapError unit :=
  let s := sampling ir in
  let* _ :=
    if uses_max_completion_tokens (model ir) then Ok tt
    else
      let* _ := reject_sampling_number (sp_temperature s) F32_ZERO F32_TWO "sampling.temperature"
                  "temperature must be between 0 and 2" in
      reject_sampling_number (sp_top_p s) F32_ZERO F32_ONE "sampling.top_p" "top_p must be between 0 and 1" in
  let* _ := reject_sampling_number (sp_frequency_penalty s) F32_MINUS_TWO F32_TWO "sampling.frequency_penalty"
              "frequency_penalty must be between -2 and 2" in
  let* _ := reject_sampling_number (sp_presence_penalty s) F32_MINUS_TWO F32_TWO "sampling.presence_penalty"
              "presence_penalty must be between -2 and 2" in
  if bool_decide (sp_n s = Some 0) then Err (hard "sampling.n" "n must be at least 1")
  else if bool_decide (sp_max_tokens s = Some 0) then Err (hard "sampling.max_tokens" "max_tokens must be at least 1")
  else Ok tt.

(** [report] is what was noted before: an empty list of messages is an error
    that says what was left out. *)
Definition encode `{SerdeJson} (ir : IrRequest) (tools : list PreparedTool) (report : list LossEvent) :
  noted_or_error json :=
  let '(messages, noted_messages) := encode_messages ir in
  match messages, dropped_details (report ++ noted_messages) with
  | [], (_ :: _) as dropped => Err (Invalid ("chat messages must not be empty: " +:+ str_join "; " dropped))
  | _, _ =>
      let body := jobj [("model", JStr (model ir)); ("messages", JArr messages)] in
      let body := put "tools" (if_any tools (JArr (map encode_tool tools))) body in
      let* _ := check_sampling ir in
      Ok (let! _ := (tt, noted_messages) in encode_sampling ir body)
  end.
