(* ===== verification/ChatSampling.v ===== *)
(** * ChatSampling: sampling fields of a Chat request arrive or are reported

    [chat_fields] reads [encode_sampling] of [ChatRequest] as a table: the
    value of each key of the body.  [chat_normal] is the normal form of the
    sampling fields on this dialect - texts trimmed, blank ones absent, a
    strict schema closed - and the theorem says that what the encoder does not
    report as lost is read back in normal form. *)
From S2P Require Import Prelude Text Json Floats Ir ProfileTypes StreamCore Usage Shapes Chat Loss RequestCore.
From S2P Require Import Schema Tools Arrival ChatRequest.

(** ** The body as a table *)
Definition choice_value (choice : IrToolChoice) : option json :=
  match choice with
  | Auto => None
  | NoTool => Some (JStr "none")
  | Required => Some (JStr "required")
  | Named name => Some (jobj [("type", JStr "function"); ("function", jobj [("name", JStr name)])])
  end.

Definition stop_value (model : string) (stop : list string) : option json :=
  if chat_stop_unsupported model then None
  else let kept := List.filter (fun seq => negb (is_empty seq)) stop in if_any kept (JArr (map JStr kept)).

Definition stream_options_value (s : IrSampling) : option json :=
  let usage := if bool_decide (sp_stream s = Some true) then Some (jobj [("include_usage", JBool true)]) else None in
  match sp_include_obfuscation s with
  | None => usage
  | Some b => Some (index_set (unwrap_or usage (JObj [])) "include_obfuscation" (JBool b))
  end.

Definition format_value (s : IrSampling) : option json :=
  match sp_json_schema s, trimmed (sp_json_schema_name s) with
  | Some schema, Some name =>
      if is_object schema then
        Some (jobj [("type", JStr "json_schema");
                    ("json_schema", put "description" (JStr <$> trimmed (sp_json_schema_description s))
                       (put "strict" (JBool <$> sp_json_schema_strict s)
                          (jobj [("name", JStr name); ("schema", sent_schema s schema)])))])
      else if bool_decide (sp_json_object s = Some true) then Some (jobj [("type", JStr "json_object")]) else None
  | _, _ => if bool_decide (sp_json_object s = Some true) then Some (jobj [("type", JStr "json_object")]) else None
  end.

Definition modalities_value (s : IrSampling) : option json :=
  let sent := omap chat_modality (sp_output_modalities s) in if_any sent (JArr (map JStr sent)).

Definition has_audio (s : IrSampling) : bool :=
  existsb (fun raw => eq_ignore_ascii_case raw "audio") (sp_output_modalities s).

Definition audio_value (s : IrSampling) : option json :=
  let voice := trimmed (sp_audio_voice s) in
  if is_none voice && negb (has_audio s) then None
  else Some (index_set (put "voice" (JStr <$> voice) (JObj [])) "format"
               (JStr (unwrap_or (trimmed (sp_audio_format s)) "wav"))).

Definition asks_logprobs (model : string) (s : IrSampling) : bool :=
  (bool_decide (sp_logprobs s = Some true) || is_some (sp_top_logprobs s))
  && negb (gpt5_sampling_params_rejected model (sp_reasoning_effort s)).

Definition chat_fields_before (ir : IrRequest) : list (list (string * option json)) :=
  let s := sampling ir in
  let m := uses_max_completion_tokens (model ir) in
  [ [("temperature", unless m (json_f32 <$> sp_temperature s))]; [("top_p", unless m (json_f32 <$> sp_top_p s))];
    []; []; []; [];
    [("max_completion_tokens", unless (negb m) (jint <$> sp_max_tokens s));
     ("max_tokens", unless m (jint <$> sp_max_tokens s))];
    [("stop", stop_value (model ir) (sp_stop s))];
    [("frequency_penalty", json_f32 <$> sp_frequency_penalty s)];
    [("presence_penalty", json_f32 <$> sp_presence_penalty s)];
    [("seed", jint <$> sp_seed s)]; [("n", jint <$> sp_n s)];
    [("tool_choice", choice_value (sp_tool_choice s))];
    [("parallel_tool_calls", JBool <$> sp_parallel_tool_calls s)]; [("store", JBool <$> sp_store s)];
    []; [];
    [("prompt_cache_key", JStr <$> not_blank (sp_prompt_cache_key s))];
    [("prompt_cache_retention", JStr <$> not_blank (sp_prompt_cache_retention s))];
    [("prompt_cache_options", options_value s)];
    [("logprobs", if asks_logprobs (model ir) s then Some (JBool true) else None);
     ("top_logprobs", unless (negb (asks_logprobs (model ir) s)) (jint <$> sp_top_logprobs s))];
    [("moderation", moderation_value s)];
    [("user", JStr <$> not_blank (sp_user s))]; [("verbosity", JStr <$> not_blank (sp_verbosity s))];
    [("safety_identifier", JStr <$> not_blank (sp_safety_identifier s))];
    [("metadata", json_strings <$> if_any (sp_metadata s) (sp_metadata s))];
    [("service_tier", JStr <$> not_blank (sp_service_tier s))] ].

Definition chat_fields_after (ir : IrRequest) : list (list (string * option json)) :=
  let s := sampling ir in
  [ [("reasoning_effort", JStr <$> not_blank (sp_reasoning_effort s))];
    []; []; []; [];
    [("response_format", format_value s)];
    [("modalities", modalities_value s)]; [("audio", audio_value s)];
    [("logit_bias", json_numbers <$> if_any (sp_logit_bias s) (sp_logit_bias s))];
    [("prediction", sp_prediction s)]; [("web_search_options", sp_web_search_options s)] ].

Definition chat_fields (ir : IrRequest) : list (string * option json) :=
  concat (chat_fields_before ir)
  ++ [("stream", JBool <$> sp_stream (sampling ir)); ("stream_options", stream_options_value (sampling ir))]
  ++ concat (chat_fields_after ir).

(** ** Each step is its row *)
Lemma sampling_number_put rejected o key detail body :
  (sampling_number rejected o key detail body).1 = put key (unless rejected (json_f32 <$> o)) body.
Proof. unfold sampling_number. destruct o; [|by destruct rejected]. destruct rejected; [by rewrite nbind_fst|done]. Qed.

Lemma kept_stop_fst stop : (kept_stop stop).1 = List.filter (fun seq => negb (is_empty seq)) stop.
Proof.
  unfold kept_stop. rewrite nfilter_map_fst. induction stop as [|s l IH]; [done|]. cbn [List.filter].
  destruct (is_empty s) eqn:E; cbn [negb]; cbn; rewrite E; cbn; [exact IH|f_equal; exact IH].
Qed.

Lemma encode_stop_put model s body : (encode_stop model s body).1 = put "stop" (stop_value model (sp_stop s)) body.
Proof.
  unfold encode_stop, stop_value. destruct (sp_stop s) as [|x l]; [by destruct (chat_stop_unsupported model)|].
  destruct (chat_stop_unsupported model); [by rewrite nbind_fst|]. rewrite nbind_fst, kept_stop_fst. cbn [quiet fst].
  by destruct (List.filter _ (x :: l)).
Qed.

Lemma encode_tool_choice_put choice body : (encode_tool_choice choice body).1 = put "tool_choice" (choice_value choice) body.
Proof. by destruct choice. Qed.

Lemma encode_prompt_cache_options_put s body :
  (encode_prompt_cache_options s body).1 = put "prompt_cache_options" (options_value s) body.
Proof.
  unfold encode_prompt_cache_options, options_value. destruct (_ && _); [done|].
  by rewrite nbind_fst, nbind_fst, !set_when_fst.
Qed.

Lemma encode_logprobs_put model s body :
  (encode_logprobs model s body).1
  = put "top_logprobs" (unless (negb (asks_logprobs model s)) (jint <$> sp_top_logprobs s))
      (put "logprobs" (if asks_logprobs model s then Some (JBool true) else None) body).
Proof.
  unfold encode_logprobs, asks_logprobs. rewrite andb_comm.
  destruct (gpt5_sampling_params_rejected _ _); cbn [andb negb]; [|rewrite andb_true_r].
  - rewrite andb_false_r, andb_true_r. cbn [negb unless].
    destruct (bool_decide _ || _) eqn:E; [by rewrite !nbind_fst|]. apply orb_false_iff in E as [E1 E2].
    rewrite nbind_fst, set_when_fst. by destruct (sp_top_logprobs s).
  - rewrite andb_false_r, nbind_fst, set_when_fst. destruct (bool_decide _ || _) eqn:E; [done|].
    apply orb_false_iff in E as [E1 E2]. cbn [negb unless]. by destruct (sp_top_logprobs s).
Qed.

Lemma encode_moderation_put s body : (encode_moderation s body).1 = put "moderation" (moderation_value s) body.
Proof.
  unfold encode_moderation, moderation_value. destruct (_ && _ && _); [done|].
  rewrite !nbind_fst, set_when_fst. cbn [quiet fst]. destruct (is_some _ || is_some _); [|done].
  by rewrite !nbind_fst, !set_when_fst.
Qed.

Lemma encode_response_format_put s body :
  (encode_response_format s body).1 = put "response_format" (format_value s) body.
Proof.
  unfold encode_response_format, format_value. destruct (sp_json_schema s) as [schema|]; [|by case_bool_decide].
  rewrite nbind_fst, official_json_schema_fst. destruct (trimmed (sp_json_schema_name s)) as [name|];
    cbn [mbind option_bind]; [destruct (is_object schema); [done|]|]; by case_bool_decide.
Qed.

Lemma encode_modalities_put s body : (encode_modalities s body).1 = put "modalities" (modalities_value s) body.
Proof.
  unfold encode_modalities, modalities_value. destruct (sp_output_modalities s) as [|x l]; [done|].
  destruct (omap chat_modality (x :: l)) eqn:E; by rewrite nbind_fst.
Qed.

Lemma encode_audio_put s body : (encode_audio s body).1 = put "audio" (audio_value s) body.
Proof.
  unfold encode_audio, audio_value, has_audio. destruct (_ && _); [done|]. by rewrite nbind_fst, set_when_fst.
Qed.

Lemma encode_streams_put s body : get body "stream_options" = None -> is_object body = true ->
  (steps [encode_stream s; encode_obfuscation s] body).1
  = puts [("stream", JBool <$> sp_stream s); ("stream_options", stream_options_value s)] body.
Proof.
  intros N O. rewrite !steps_cons, steps_nil. unfold encode_stream, encode_obfuscation, stream_options_value.
  destruct (sp_include_obfuscation s) as [b|].
  - rewrite nbind_fst. cbn [preserve note fst quiet]. unfold object_field.
    destruct (sp_stream s) as [[]|]; cbn [fst quiet puts fmap option_fmap option_map put];
      rewrite ?get_index_set by (by rewrite ?is_object_index_set); eqb_literals; rewrite ?N; cbn [opt_filter unwrap_or].
    all: try done. rewrite index_set_twice, bool_decide_true by done. done.
  - cbn [quiet fst]. by destruct (sp_stream s) as [[]|].
Qed.

Ltac step_row :=
  let b := fresh "b" in let O := fresh "O" in
  intros b O; unfold kept_text;
  lazymatch goal with
  | |- (sampling_number _ _ _ _ _).1 = _ => apply sampling_number_put
  | |- (only_note _ _).1 = _ => apply only_note_fst
  | |- (encode_stop _ _ _).1 = _ => apply encode_stop_put
  | |- (encode_tool_choice _ _).1 = _ => apply encode_tool_choice_put
  | |- (encode_prompt_cache_options _ _).1 = _ => apply encode_prompt_cache_options_put
  | |- (encode_logprobs _ _ _).1 = _ => apply encode_logprobs_put
  | |- (encode_moderation _ _).1 = _ => apply encode_moderation_put
  | |- (encode_response_format _ _).1 = _ => apply encode_response_format_put
  | |- (encode_modalities _ _).1 = _ => apply encode_modalities_put
  | |- (encode_audio _ _).1 = _ => apply encode_audio_put
  | |- (set_when _ (if ?m then _ else _) _ _ _).1 = _ => rewrite set_when_fst; by destruct m
  | |- (set_when _ _ id _ _).1 = put _ ?o _ => rewrite set_when_fst; by destruct o
  | |- (set_when ?o _ id _ _).1 = _ => rewrite set_when_fst; by destruct o
  | |- (set_when _ _ _ _ _).1 = _ => rewrite set_when_fst; reflexivity
  end.

(** Read a key of a row of assignments whose keys are literals. *)
Ltac read_rows :=
  lazy beta iota zeta delta [chat_fields chat_fields_before chat_fields_after concat app last_put String.eqb Ascii.eqb Bool.eqb].

Lemma encode_sampling_puts ir body : is_object body = true -> get body "stream_options" = None ->
  (encode_sampling ir body).1 = puts (chat_fields ir) body.
Proof.
  intros O N. unfold encode_sampling, sampling_steps. cbv zeta. cbn [app encode_output_modalities_and_audio]. unfold chat_fields.
  match goal with |- (steps ?l body).1 = _ => rewrite <- (take_drop 27 l) end.
  cbn [take drop]. rewrite steps_app, puts_app.
  match goal with |- context [(steps ?l body).1] => rewrite (steps_puts l (chat_fields_before ir) body) end;
    [|unfold chat_fields_before; cbv zeta; repeat (constructor; [step_row|]); constructor|done].
  set (b1 := puts (concat (chat_fields_before ir)) body).
  assert (is_object b1 = true) as O1 by (subst b1; by rewrite is_object_puts).
  assert (get b1 "stream_options" = None) as N1.
  { subst b1. rewrite get_puts by done. read_rows. exact N. }
  clearbody b1.
  match goal with |- (steps (?x :: ?y :: ?l) b1).1 = _ => change (x :: y :: l) with ([x; y] ++ l) end.
  rewrite steps_app, puts_app, encode_streams_put by done.
  apply steps_puts; [|by rewrite is_object_puts].
  unfold chat_fields_after; cbv zeta. repeat (constructor; [step_row|]). constructor.
Qed.

(** ** The normal form *)

Definition nonempty_object (v : json) : bool := match v with JObj (_ :: _) => true | _ => false end.

Definition chat_normal (s : IrSampling) : IrSampling :=
  let with_schema {A} (o : option A) : option A := if is_some (sp_json_schema s) then o else None in
  {| sp_temperature := sp_temperature s ≫= resent;
     sp_top_p := sp_top_p s ≫= resent;
     sp_top_k := sp_top_k s;
     sp_max_tokens := sp_max_tokens s;
     sp_stop := sp_stop s;
     sp_tool_choice := sp_tool_choice s;
     sp_parallel_tool_calls := sp_parallel_tool_calls s;
     sp_store := sp_store s;
     sp_previous_response_id := sp_previous_response_id s;
     sp_cache := cache_default;
     sp_stream := sp_stream s;
     sp_include_thoughts := sp_include_thoughts s;
     sp_thinking_budget := sp_thinking_budget s;
     sp_reasoning_effort := not_blank (sp_reasoning_effort s);
     sp_max_reasoning_tokens := sp_max_reasoning_tokens s;
     sp_json_schema := sent_schema s <$> sp_json_schema s;
     sp_json_schema_name := with_schema (trimmed (sp_json_schema_name s));
     sp_json_schema_description := with_schema (trimmed (sp_json_schema_description s));
     sp_json_schema_strict := with_schema (sp_json_schema_strict s);
     sp_json_object :=
       if is_none (sp_json_schema s) && bool_decide (sp_json_object s = Some true) then Some true else None;
     sp_include := sp_include s;
     sp_prompt_cache_key := not_blank (sp_prompt_cache_key s);
     sp_prompt_cache_retention := not_blank (sp_prompt_cache_retention s);
     sp_prompt_cache_mode := trimmed (sp_prompt_cache_mode s);
     sp_prompt_cache_ttl := trimmed (sp_prompt_cache_ttl s);
     sp_top_logprobs := sp_top_logprobs s;
     sp_moderation_model := trimmed (sp_moderation_model s);
     sp_moderation_input := trimmed (sp_moderation_input s);
     sp_moderation_output := trimmed (sp_moderation_output s);
     sp_include_obfuscation := sp_include_obfuscation s;
     sp_user := not_blank (sp_user s);
     sp_verbosity := not_blank (sp_verbosity s);
     sp_safety_identifier := not_blank (sp_safety_identifier s);
     sp_metadata := sp_metadata s;
     sp_frequency_penalty := sp_frequency_penalty s ≫= resent;
     sp_presence_penalty := sp_presence_penalty s ≫= resent;
     sp_seed := sp_seed s;
     sp_n := sp_n s;
     sp_service_tier := not_blank (sp_service_tier s);
     sp_output_modalities := map modality_name (sp_output_modalities s);
     sp_audio_voice := trimmed (sp_audio_voice s);
     sp_audio_format :=
       if is_none (trimmed (sp_audio_voice s)) && negb (has_audio s) then None
       else Some (unwrap_or (trimmed (sp_audio_format s)) "wav");
     sp_logprobs := if bool_decide (sp_logprobs s = Some true) || is_some (sp_top_logprobs s) then Some true else None;
     sp_logit_bias := sp_logit_bias s;
     sp_prediction := opt_filter nonempty_object (sp_prediction s);
     sp_web_search_options := opt_filter nonempty_object (sp_web_search_options s);
     sp_inference_geo := sp_inference_geo s;
     sp_performance_latency := sp_performance_latency s;
     sp_previous_message_id := sp_previous_message_id s;
     sp_response_field_paths := sp_response_field_paths s;
     sp_additional_request_fields := sp_additional_request_fields s;
     sp_prompt_variables := sp_prompt_variables s;
     sp_guardrail := sp_guardrail s;
     sp_container := sp_container s;
     sp_context_management := sp_context_management s;
     sp_mcp_servers := sp_mcp_servers s;
     sp_media_resolution := sp_media_resolution s;
     sp_image_config := sp_image_config s;
     sp_audio_transcription_config := sp_audio_transcription_config s;
     sp_translation_config := sp_translation_config s;
     sp_affective_dialog := sp_affective_dialog s;
     sp_enhanced_civic_answers := sp_enhanced_civic_answers s;
     sp_multi_speaker_speech := sp_multi_speaker_speech s;
     sp_cached_content := sp_cached_content s;
     sp_safety_settings := sp_safety_settings s;
     sp_request_labels := sp_request_labels s;
     sp_truncation := not_blank (sp_truncation s);
     sp_max_tool_calls := sp_max_tool_calls s;
     sp_background := sp_background s;
     sp_conversation := sp_conversation s;
     sp_responses_context_management := sp_responses_context_management s;
     sp_messages_thinking := sp_messages_thinking s |}.

(** The ranges of the Rust types. *)
Record sampling_typed (s : IrSampling) : Prop := {
  typed_max_tokens : forall n, sp_max_tokens s = Some n -> is_u32 n;
  typed_top_logprobs : forall n, sp_top_logprobs s = Some n -> is_u32 n;
  typed_n : forall n, sp_n s = Some n -> is_u32 n;
  typed_seed : forall n, sp_seed s = Some n -> -9223372036854775808 <= n <= 9223372036854775807;
  typed_bias : Forall (fun kv => is_finite kv.2 = true) (sp_logit_bias s)
}.

(** ** What is not noted is not there *)
Lemma sampling_number_kept rejected o key detail body :
  kept_whole (sampling_number rejected o key detail body).2 = true -> rejected = true -> o = None.
Proof. unfold sampling_number. destruct o; [|done]. intros H ->. rewrite nbind_snd in H. done. Qed.

Lemma kept_stop_kept stop : kept_whole (kept_stop stop).2 = true -> List.filter (fun seq => negb (is_empty seq)) stop = stop.
Proof.
  unfold kept_stop, nfilter_map. rewrite nbind_snd, kept_whole_app, andb_true_iff, nmap_snd. intros [H _].
  induction stop as [|x l IH]; [done|]. cbn [map concat] in H. rewrite kept_whole_app, andb_true_iff in H.
  destruct H as [Hx Hl]. cbn [List.filter]. destruct (is_empty x); [by rewrite nbind_snd in Hx|]. cbn. by rewrite IH.
Qed.

Lemma encode_stop_kept model s body : kept_whole (encode_stop model s body).2 = true ->
  stop_value model (sp_stop s) = if_any (sp_stop s) (JArr (map JStr (sp_stop s))).
Proof.
  unfold encode_stop, stop_value. destruct (sp_stop s) as [|x l]; [by destruct (chat_stop_unsupported model)|].
  destruct (chat_stop_unsupported model); [by rewrite nbind_snd|]. rewrite nbind_snd, kept_whole_app, andb_true_iff.
  intros [H _]. by rewrite (kept_stop_kept _ H).
Qed.

Lemma encode_logprobs_kept model s body : kept_whole (encode_logprobs model s body).2 = true ->
  asks_logprobs model s = bool_decide (sp_logprobs s = Some true) || is_some (sp_top_logprobs s).
Proof.
  unfold encode_logprobs, asks_logprobs. destruct (gpt5_sampling_params_rejected _ _); cbn [andb negb]; [|by rewrite andb_true_r].
  destruct (bool_decide _ || _); [by rewrite nbind_snd|done].
Qed.

Lemma encode_response_format_kept s body schema : kept_whole (encode_response_format s body).2 = true ->
  sp_json_schema s = Some schema -> is_object schema = true /\ exists name, trimmed (sp_json_schema_name s) = Some name.
Proof.
  unfold encode_response_format, official_json_schema. intros H E. rewrite E in H.
  destruct (trimmed (sp_json_schema_name s)) as [name|]; [|by rewrite !nbind_snd in H].
  destruct (is_object schema); [by eauto|by rewrite !nbind_snd in H].
Qed.

Lemma chat_modality_name raw name : chat_modality raw = Some name -> modality_name raw = name /\ modality_name name = name.
Proof.
  unfold chat_modality, modality_name. destruct (eq_ignore_ascii_case raw "text"); [by intros [= <-]|].
  destruct (eq_ignore_ascii_case raw "audio"); [by intros [= <-]|done].
Qed.

Lemma encode_modalities_kept s body : kept_whole (encode_modalities s body).2 = true ->
  omap chat_modality (sp_output_modalities s) = map modality_name (sp_output_modalities s)
  /\ Forall (fun name => modality_name name = name) (map modality_name (sp_output_modalities s)).
Proof.
  assert (forall l, length (omap chat_modality l) <= length l)%nat as Le.
  { induction l as [|x l IH]; cbn; [done|]. destruct (chat_modality x); cbn; lia. }
  assert (forall l, (length l <= length (omap chat_modality l))%nat -> omap chat_modality l = map modality_name l
    /\ Forall (fun name => modality_name name = name) (map modality_name l)) as K.
  { induction l as [|x l IH]; cbn; [by split; [|constructor]|]. specialize (Le l).
    destruct (chat_modality x) as [y|] eqn:E; cbn; intros H; [|lia]. destruct (chat_modality_name _ _ E) as [<- N].
    destruct IH as [-> F]; [lia|]. by split; [|constructor]. }
  unfold encode_modalities. destruct (sp_output_modalities s) as [|x l]; [by split; [|constructor]|].
  destruct (omap chat_modality (x :: l)) as [|y m] eqn:E; [by rewrite nbind_snd|]. rewrite <- E. intros H. apply K.
  rewrite nbind_snd in H. destruct (_ <? _)%nat eqn:L; [done|]. by apply Nat.ltb_ge in L.
Qed.

Lemma map_id_on {A} (f : A -> A) l : Forall (fun x => f x = x) l -> map f l = l.
Proof. induction 1 as [|x l H _ IH]; [done|]. cbn. by rewrite H, IH. Qed.

Lemma logit_bias_back (m : list (string * f64)) : Forall (fun kv => is_finite kv.2 = true) m ->
  omap (fun kv : string * json => (fun n => (kv.1, n)) <$> as_f64 kv.2) (map (fun kv => (kv.1, json_f64 kv.2)) m) = m.
Proof. unfold json_f64. induction 1 as [|[k x] m H _ IH]; [done|]. cbn in *. rewrite H. cbn. by rewrite IH. Qed.

(** ** The theorem *)
Section Arrives.
Context (ir : IrRequest) (body : json).
#[local] Notation s := (sampling ir).
Let sent := (encode_sampling ir body).1.

(** Only the model, the messages and the tools are in the body so far. *)
Definition fresh_body : Prop :=
  is_object body = true /\ forall k, one_of k ["model"; "messages"; "tools"] = false -> get body k = None.

Context (Fresh : fresh_body) (Typed : sampling_typed s).
Context (Kept : kept_whole (encode_sampling ir body).2 = true).

Lemma get_sent k : one_of k ["model"; "messages"; "tools"] = false -> get sent k = last_put k (chat_fields ir) None.
Proof.
  intros K. destruct Fresh as [O B]. unfold sent. rewrite encode_sampling_puts, get_puts by (done || by apply B).
  by rewrite B.
Qed.

Lemma kept_at (i : nat) st : sampling_steps ir !! i = Some st -> exists b, kept_whole (st b).2 = true.
Proof. intros L. exact (Forall_lookup_1 _ _ _ _ (kept_whole_steps _ _ Kept) L). Qed.

(** The note of step [i] of the row was not taken. *)
Ltac not_noted i := let b := fresh "b" in let H := fresh "H" in
  destruct (kept_at i _ eq_refl) as [b H]; rewrite ?kept_whole_only_note in H; revert H.

Lemma fields_without_slot_kept : Forall (fun f => f.1 = false) (fields_without_slot s).
Proof.
  not_noted 2%nat. rewrite kept_whole_note_fields, List.forallb_forall. intros H.
  apply List.Forall_forall. intros f I. by apply negb_true_iff, H.
Qed.

Lemma responses_fields_kept :
  not_blank (sp_truncation s) = None /\ sp_max_tool_calls s = None /\ sp_background s = None
  /\ sp_conversation s = None /\ sp_responses_context_management s = None.
Proof.
  not_noted 3%nat. unfold drop_responses_request_fields. rewrite kept_whole_note_all. cbn [forallb].
  rewrite !kept_whole_no_slot_if, !andb_true_iff. intros (A & B & C & D & E & _). repeat split; by apply not_some.
Qed.

(** A field that this dialect has no slot for is not set. *)
Lemma slotless i f : fields_without_slot s !! i = Some f -> f.1 = false.
Proof. exact (Forall_lookup_1 _ _ i f fields_without_slot_kept). Qed.

Lemma none_of {A} (o : option A) : is_some o = false -> o = None.
Proof. by destruct o. Qed.

Ltac read_key :=
  match goal with
  | |- context [get sent ?k] => rewrite (get_sent k) by reflexivity; read_rows; rewrite ?opt_or_none
  end.

Lemma read_schema : chat_json_schema sent =
  let n := chat_normal s in
  (sp_json_schema n, sp_json_schema_name n, sp_json_schema_strict n, sp_json_schema_description n).
Proof.
  unfold chat_json_schema. read_key.
  cbn [chat_normal sp_json_schema sp_json_schema_name sp_json_schema_strict sp_json_schema_description].
  unfold format_value. pose proof (kept_at 34 _ eq_refl) as [b K].
  destruct (sp_json_schema s) as [schema|] eqn:E; [|by destruct (bool_decide _)].
  destruct (encode_response_format_kept _ _ _ K E) as (O & name & N). rewrite N, O.
  set (js := put "description" _ _).
  assert (get js "schema" = Some (sent_schema s schema) /\ get js "name" = Some (JStr name)
    /\ get js "strict" = JBool <$> sp_json_schema_strict s
    /\ get js "description" = JStr <$> trimmed (sp_json_schema_description s)) as (J1 & J2 & J3 & J4).
  { subst js. rewrite !get_put, !get_jobj by (by rewrite ?is_object_put). cbn [assoc_last]. eqb_literals.
    by rewrite !opt_or_none. }
  clearbody js. unfold get_str, bool_field, schema_description.
  change (get (jobj _) "type") with (Some (JStr "json_schema")).
  change (get (jobj _) "json_schema") with (Some js). cbn [mbind option_bind as_str is_some].
  rewrite bool_decide_true by done. cbn [negb]. unfold get_str. rewrite J1, J2, J3, J4. cbn [mbind option_bind as_str].
  rewrite (nonempty_trimmed _ _ N). f_equal; [f_equal; by destruct (sp_json_schema_strict s)|].
  rewrite <- (trimmed_idem (sp_json_schema_description s)) at 2. by destruct (trimmed (sp_json_schema_description s)).
Qed.

Lemma read_voice : chat_audio_voice sent = trimmed (sp_audio_voice s).
Proof.
  unfold chat_audio_voice. read_key. unfold audio_value.
  destruct (trimmed (sp_audio_voice s)) as [v|] eqn:E; [|by destruct (negb (has_audio s))].
  cbn [is_none andb mbind option_bind]. unfold get_str. rewrite get_index_set, get_put by by rewrite ?is_object_put.
  eqb_literals. cbn [fmap option_fmap option_map opt_or mbind option_bind as_str].
  by rewrite <- E, trimmed_idem.
Qed.

Lemma read_audio_format : chat_audio_format sent = sp_audio_format (chat_normal s).
Proof.
  unfold chat_audio_format. read_key. unfold audio_value. cbn [chat_normal sp_audio_format].
  destruct (_ && _); [done|]. cbn [mbind option_bind]. unfold str_field. rewrite get_index_set by by rewrite is_object_put.
  eqb_literals. cbn [mbind option_bind as_str].
  destruct (trimmed (sp_audio_format s)) as [f|] eqn:E; [|done]. cbn [unwrap_or].
  by rewrite <- E, trimmed_idem, E.
Qed.

Lemma read_options key o : (key = "mode" /\ o = sp_prompt_cache_mode s \/ key = "ttl" /\ o = sp_prompt_cache_ttl s) ->
  not_blank (opts ← get sent "prompt_cache_options"; str_field opts key) = trimmed o.
Proof.
  intros K. read_key. unfold options_value. rewrite <- (not_blank_trimmed o).
  destruct (is_none _ && is_none _) eqn:E.
  { apply andb_true_iff in E as [E1 E2]. destruct K as [[-> ->]|[-> ->]];
      [by destruct (trimmed (sp_prompt_cache_mode s))|by destruct (trimmed (sp_prompt_cache_ttl s))]. }
  cbn [mbind option_bind]. unfold str_field.
  destruct K as [[-> ->]|[-> ->]]; rewrite !get_put by (by rewrite ?is_object_put); eqb_literals;
    cbn [get obj_get]; rewrite opt_or_none.
  - by destruct (trimmed (sp_prompt_cache_mode s)).
  - by destruct (trimmed (sp_prompt_cache_ttl s)).
Qed.

Lemma read_obfuscation : (opts ← get sent "stream_options"; bool_field opts "include_obfuscation") = sp_include_obfuscation s.
Proof.
  read_key. unfold stream_options_value, bool_field. destruct (sp_include_obfuscation s) as [b|].
  - cbn [mbind option_bind]. rewrite get_index_set by by destruct (bool_decide _). by eqb_literals.
  - by destruct (bool_decide _).
Qed.

Lemma read_moderation :
  not_blank (m ← get sent "moderation"; str_field m "model") = trimmed (sp_moderation_model s)
  /\ mode_at sent "input" = trimmed (sp_moderation_input s) /\ mode_at sent "output" = trimmed (sp_moderation_output s).
Proof.
  unfold mode_at, pointer_str. rewrite !pointer_key. read_key. unfold moderation_value.
  pose proof (not_blank_trimmed (sp_moderation_model s)) as M.
  pose proof (trimmed_idem (sp_moderation_input s)) as I. pose proof (trimmed_idem (sp_moderation_output s)) as O.
  destruct (trimmed (sp_moderation_model s)) as [m|], (trimmed (sp_moderation_input s)) as [i|],
    (trimmed (sp_moderation_output s)) as [o|]; repeat split; first [exact M|exact I|exact O|done].
Qed.

Lemma read_stop : stop_values sent ["stop"] = sp_stop s.
Proof.
  unfold stop_values. read_key. pose proof (kept_at 7 _ eq_refl) as [b K]. rewrite (encode_stop_kept _ _ _ K).
  destruct (sp_stop s) as [|x l]; [done|]. cbn [if_any]. apply omap_as_str.
Qed.

Lemma read_choice : decode_tool_choice (get sent "tool_choice") = sp_tool_choice s.
Proof. read_key. by destruct (sp_tool_choice s). Qed.

Lemma read_logprobs : opt_or (bool_field sent "logprobs") (if is_some (sp_top_logprobs s) then Some true else None)
  = sp_logprobs (chat_normal s).
Proof.
  unfold bool_field. read_key. pose proof (kept_at 20 _ eq_refl) as [b K]. rewrite (encode_logprobs_kept _ _ _ K).
  cbn [chat_normal sp_logprobs]. by destruct (bool_decide _), (sp_top_logprobs s).
Qed.

Lemma read_top_logprobs : u32_field sent "top_logprobs" = sp_top_logprobs s.
Proof.
  apply read_u32; [apply Typed|]. read_key. pose proof (kept_at 20 _ eq_refl) as [b K].
  rewrite (encode_logprobs_kept _ _ _ K). destruct (sp_top_logprobs s); [|by destruct (negb _)].
  by rewrite orb_true_r.
Qed.

Lemma read_modalities : chat_output_modalities sent = sp_output_modalities (chat_normal s).
Proof.
  unfold chat_output_modalities, get_array. read_key. pose proof (kept_at 35 _ eq_refl) as [b K].
  destruct (encode_modalities_kept _ _ K) as [E F]. unfold modalities_value. rewrite E.
  cbn [chat_normal sp_output_modalities]. destruct (map modality_name _) as [|x l]; [done|].
  cbn [if_any mbind option_bind as_array]. rewrite omap_as_str. by apply map_id_on.
Qed.

Lemma read_json_object : chat_json_object sent = sp_json_object (chat_normal s).
Proof.
  unfold chat_json_object. read_key. unfold format_value. pose proof (kept_at 34 _ eq_refl) as [b K].
  cbn [chat_normal sp_json_object].
  destruct (sp_json_schema s) as [schema|] eqn:E; [|by destruct (bool_decide _)].
  destruct (encode_response_format_kept _ _ _ K E) as (O & name & N). by rewrite N, O.
Qed.

Lemma read_object o k : get sent k = o -> chat_object_field sent k = opt_filter nonempty_object o.
Proof. unfold chat_object_field. by intros ->. Qed.

Lemma read_number o k (i : nat) detail : get sent k = unless (uses_max_completion_tokens (model ir)) (json_f32 <$> o) ->
  sampling_steps ir !! i = Some (sampling_number (uses_max_completion_tokens (model ir)) o k detail) ->
  f32_field sent k = o ≫= resent.
Proof.
  intros G L. apply read_f32. rewrite G. destruct (kept_at i _ L) as [b K].
  destruct (uses_max_completion_tokens (model ir)); [|done]. by rewrite (sampling_number_kept _ _ _ _ _ K eq_refl).
Qed.

Lemma read_max_tokens : opt_or (u32_field sent "max_completion_tokens") (u32_field sent "max_tokens") = sp_max_tokens s.
Proof.
  destruct (uses_max_completion_tokens (model ir)) eqn:M.
  - rewrite (read_u32 sent "max_completion_tokens" (sp_max_tokens s)), (read_u32 sent "max_tokens" None); try done.
    + apply opt_or_none.
    + read_key. by rewrite M.
    + apply Typed.
    + read_key. by rewrite M.
  - rewrite (read_u32 sent "max_completion_tokens" None), (read_u32 sent "max_tokens" (sp_max_tokens s)); try done.
    + apply Typed.
    + read_key. by rewrite M.
    + read_key. by rewrite M.
Qed.

Lemma sampling_arrives : decode_sampling sent = chat_normal s.
Proof.
  destruct responses_fields_kept as (R1 & R2 & R3 & R4 & R5). destruct read_moderation as (M1 & M2 & M3).
  destruct Typed as [T1 T2 T3 T4 T5].
  assert (sp_previous_response_id s = None) as P.
  { not_noted 15%nat. rewrite kept_whole_note_if, bool_decide_false, orb_false_r by done. apply not_some. }
  assert (sp_max_reasoning_tokens s = None) as P1 by (not_noted 30%nat; rewrite kept_whole_no_slot_if; apply not_some).
  assert (sp_include_thoughts s = None) as P2 by (not_noted 31%nat; rewrite kept_whole_no_slot_if; apply not_some).
  assert (sp_include s = []) as P3 by (not_noted 32%nat; rewrite kept_whole_no_slot_if; apply not_nonempty).
  assert (sp_thinking_budget s = None) as P4 by (not_noted 33%nat; rewrite kept_whole_no_slot_if; apply not_some).
  assert (sp_messages_thinking s = None) as P5.
  { not_noted 4%nat. unfold drop_messages_native_thinking. rewrite kept_whole_no_slot_if. apply not_some. }
  assert (sp_mcp_servers s = None) as P6 by (not_noted 5%nat; rewrite kept_whole_no_slot_if; apply not_some).
  assert (sp_response_field_paths s = []) as P7.
  { pose proof (slotless 14 _ eq_refl) as H. cbn in H. apply not_nonempty. by rewrite H. }
  unfold decode_sampling. rewrite read_schema. cbv zeta. cbn [chat_normal sp_json_schema sp_json_schema_name sp_json_schema_strict sp_json_schema_description].
  rewrite (read_number (sp_temperature s) "temperature" 0 _) by (try reflexivity; by read_key).
  rewrite (read_number (sp_top_p s) "top_p" 1 _) by (try reflexivity; by read_key).
  rewrite read_max_tokens, read_stop, read_choice, read_top_logprobs, read_logprobs, read_modalities, read_voice,
    read_audio_format, read_json_object, read_obfuscation, M1, M2, M3.
  rewrite (read_options "mode" (sp_prompt_cache_mode s)) by auto.
  rewrite (read_options "ttl" (sp_prompt_cache_ttl s)) by auto.
  rewrite (read_bool sent "parallel_tool_calls" (sp_parallel_tool_calls s)) by by read_key.
  rewrite (read_bool sent "store" (sp_store s)), (read_bool sent "stream" (sp_stream s)) by by read_key.
  rewrite (read_text sent "reasoning_effort" (sp_reasoning_effort s)) by by read_key.
  rewrite (read_text sent "prompt_cache_key" (sp_prompt_cache_key s)) by by read_key.
  rewrite (read_text sent "prompt_cache_retention" (sp_prompt_cache_retention s)) by by read_key.
  rewrite (read_text sent "user" (sp_user s)), (read_text sent "verbosity" (sp_verbosity s)) by by read_key.
  rewrite (read_text sent "safety_identifier" (sp_safety_identifier s)) by by read_key.
  rewrite (read_text sent "service_tier" (sp_service_tier s)) by by read_key.
  rewrite (read_f32 sent "frequency_penalty" (sp_frequency_penalty s)) by by read_key.
  rewrite (read_f32 sent "presence_penalty" (sp_presence_penalty s)) by by read_key.
  rewrite (read_i64 sent "seed" (sp_seed s)), (read_u32 sent "n" (sp_n s)) by (try done; by read_key).
  rewrite (read_object (sp_prediction s) "prediction"), (read_object (sp_web_search_options s) "web_search_options")
    by by read_key.
  rewrite (read_u32 sent "max_reasoning_tokens" None) by (try done; by read_key).
  assert (str_field sent "previous_response_id" = None) as -> by (unfold str_field; by read_key).
  assert (string_object_field sent "metadata" = sp_metadata s) as ->.
  { unfold string_object_field. read_key. destruct (sp_metadata s) as [|x l]; [done|]. apply string_members_map. }
  assert (chat_logit_bias sent = sp_logit_bias s) as ->.
  { unfold chat_logit_bias. read_key. destruct (sp_logit_bias s) as [|x l]; [done|]. by apply logit_bias_back. }
  unfold chat_normal. cbv zeta. rewrite R1, R2, R3, R4, R5, P, P1, P2, P3, P4, P5, P6, P7.
  f_equal; symmetry; apply none_of;
    first [ exact (slotless 0 _ eq_refl) | exact (slotless 1 _ eq_refl) | exact (slotless 2 _ eq_refl)
          | exact (slotless 3 _ eq_refl) | exact (slotless 4 _ eq_refl) | exact (slotless 5 _ eq_refl)
          | exact (slotless 6 _ eq_refl) | exact (slotless 7 _ eq_refl) | exact (slotless 8 _ eq_refl)
          | exact (slotless 9 _ eq_refl) | exact (slotless 10 _ eq_refl) | exact (slotless 11 _ eq_refl)
          | exact (slotless 12 _ eq_refl) | exact (slotless 13 _ eq_refl) | exact (slotless 15 _ eq_refl)
          | exact (slotless 16 _ eq_refl) | exact (slotless 17 _ eq_refl) | exact (slotless 18 _ eq_refl)
          | exact (slotless 19 _ eq_refl) ].
Qed.
End Arrives.
