(* ===== verification/ChatArrives.v ===== *)
(** * ChatArrives: a Chat request arrives, or its losses are reported

    [normal_request] is what a receiver reads from a Chat body for a request:
    every part, item, tool and sampling field in the normal form of the
    dialect.  The theorem is about the whole encoder: when the loss report
    says that nothing was dropped or degraded, decoding the body gives
    exactly that. *)
From S2P Require Import Prelude Text Json JsonCodec Floats Ir ProfileTypes StreamCore Usage Shapes Chat Loss RequestCore.
From S2P Require Import Schema Tools Arrival ChatRequest ChatSampling.

(** ** Normal forms *)
Definition data_url (media_type data : string) : string := "data:" +:+ media_type +:+ ";base64," +:+ data.

Definition image_part (url : string) (detail : option string) : IrPart :=
  match opt_filter (fun d => negb (is_empty d) && negb (String.eqb d "auto")) detail, split_data_url url with
  | None, Some (media_type, data) => PImageBase64 media_type data
  | detail, _ => PImageUrl url detail None None
  end.

Definition normal_inner (part : IrPart) : IrPart :=
  match part with
  | PImageUrl url detail _ _ => image_part url detail
  | PImageBase64 media_type data => image_part (data_url media_type data) None
  | PDocument (SrcBase64 data) media_type name _ _ =>
      let media := if is_empty media_type then "application/pdf" else media_type in
      let '(media, data) := unwrap_or (split_data_url (data_url media data)) (media, data) in
      PDocument (SrcBase64 data) media (Some (document_filename name media_type)) None None
  | PDocument (SrcFileId id) _ name _ _ => PDocument (SrcFileId id) "" (trimmed name) None None
  | other => other
  end.

Definition normal_part (part : IrPart) : IrPart :=
  let '(inner, mode) := peel_prompt_cache_all part in
  match normal_mode mode with
  | Some mode => PPromptCacheBreakpoint mode (normal_inner inner)
  | None => normal_inner inner
  end.

Definition normal_parts (parts : list IrPart) : list IrPart :=
  match parts with [] => [PText ""] | _ => map normal_part parts end.

Section Normal.
Context {SJ : SerdeJson}.

(** The text of a role and its breakpoint, or its parts. *)
Definition normal_role (text : string) (mode : option string) (content_parts : list IrPart) : list IrPart :=
  match content_parts with
  | [] => match normal_mode mode with
          | Some mode => [PPromptCacheBreakpoint mode (PText text)]
          | None => [PText text]
          end
  | _ => normal_parts content_parts
  end.

(** The parts of the message of a tool result. *)
Definition tool_parts (output : string) (parts : list IrPart) : list IrPart :=
  if existsb has_breakpoint parts then
    match List.filter (fun part => nonempty_text (peel_prompt_cache_all part).1) parts with
    | [] => [PText (function_output_text output parts)]
    | text_parts =>
        normal_parts (if existsb (fun part => is_some (function_output_json_text part)) parts
                      then tool_text_and_json_parts parts else text_parts)
    end
  else [PText (function_output_text output parts)].

Definition normal_item (item : IrItem) : list IrItem :=
  match item with
  | ISystem text mode content_parts =>
      let parts := normal_role text mode content_parts in
      [ISystem (parts_text parts) (role_text_breakpoint parts) (role_content_parts parts)]
  | IDeveloper text mode content_parts =>
      let parts := normal_role text mode content_parts in
      [IDeveloper (parts_text parts) (role_text_breakpoint parts) (role_content_parts parts)]
  | IUser parts => [IUser (normal_parts parts)]
  | IAssistant parts _ => [IAssistant (normal_parts parts) None]
  | IFunctionCall call_id name arguments _ => [IFunctionCall call_id name arguments None]
  | ICustomToolCall call_id name input _ => [ICustomToolCall call_id name input None]
  | IFunctionOutput call_id output parts _ =>
      let '(output, kept) := tool_output (tool_parts output parts) in [IFunctionOutput call_id output kept false]
  | IHostedToolCall _ raw | IUnknown _ raw => (decode_message raw).1
  | ISystemCache _ | ISystemGuard _ | IReasoning _ _ _ => []
  end.

Definition normal_request (rename : string -> string) (ir : IrRequest) : IrRequest :=
  mkRequest (model ir) (concat (map normal_item (items ir))) (map (normal_tool false rename) (tools ir))
    (chat_normal (sampling ir)).
End Normal.

(** ** Parts *)
Lemma leave_out_kept path detail : kept_whole (leave_out path detail).2 = true -> False.
Proof. unfold leave_out. by rewrite nbind_snd. Qed.

Lemma document_url_kept : kept_whole document_url_note.2 = true -> False.
Proof. done. Qed.

(** The parts that have a slot on this dialect. *)
Definition has_slot (part : IrPart) : Prop :=
  match part with
  | PThinking _ _ | PRaw _ _ | PDocument (SrcUrl _ | SrcS3 _ _) _ _ _ _ => False
  | _ => True
  end.

Lemma keep_inner_kept part : kept_whole (keep_inner part).2 = true -> (keep_inner part).1 = true /\ has_slot part.
Proof.
  intros H. destruct part as [| | | |type_name raw|source| |]; cbn [keep_inner has_slot] in *; try done.
  - repeat case_hyp H; by first [destruct (leave_out_kept _ _ H)|split].
  - repeat case_hyp H; by first [destruct (leave_out_kept _ _ H)|split].
  - unfold keep_raw in H. repeat case_hyp H; by first [destruct (leave_out_kept _ _ H)|rewrite ?nbind_snd in H].
  - destruct source; try (by rewrite nbind_snd in H); try by split.
    repeat case_hyp H; by first [destruct (leave_out_kept _ _ H)|split].
  - repeat case_hyp H; by first [destruct (leave_out_kept _ _ H)|split].
Qed.

Lemma keep_part_kept part : kept_whole (keep_part part).2 = true ->
  (keep_part part).1 = Some part /\ has_slot (peel_prompt_cache_all part).1.
Proof.
  unfold keep_part. destruct (peel_prompt_cache_all part) as [inner mode]. intros H. kept_split H. destruct H as [H _].
  destruct (keep_inner_kept _ H) as [E S]. by rewrite nbind_fst, E.
Qed.

(** What [decode_part] reads before the breakpoint. *)
Definition plain_part (part : json) : option IrPart :=
  let type_name := unwrap_or (get_str part "type") "text" in
  if String.eqb type_name "text" then text_part (get part "text")
  else if String.eqb type_name "image_url" then decode_image_part part
  else if String.eqb type_name "file" then decode_openai_file_part part
  else if String.eqb type_name "input_audio" then decode_input_audio_part part
  else if String.eqb type_name "refusal" then PText <$> nonempty (opt_or (get part "refusal") (get part "text") ≫= as_str)
  else if String.eqb type_name "thinking" then
    Some (PThinking (unwrap_or (opt_or (get part "text") (get part "thinking") ≫= as_str) "") (str_field part "signature"))
  else text_part (get part "text").

Lemma decode_part_plain part : is_object part = true -> decode_part part = with_prompt_cache (plain_part part) part.
Proof.
  intros O. destruct part; try done. unfold decode_part, plain_part.
  repeat case_match; try done; by destruct (decode_image_part _).
Qed.

(** A block that reads as [part] before its breakpoint reads as [part] with it. *)
Lemma block_arrives value mode part :
  is_object value = true -> get value "prompt_cache_breakpoint" = None ->
  plain_part (apply_prompt_cache value mode true).1 = Some part ->
  decode_part (apply_prompt_cache value mode true).1
  = Some match normal_mode mode with Some m => PPromptCacheBreakpoint m part | None => part end.
Proof.
  intros O N P. rewrite decode_part_plain, with_prompt_cache_mode, P by
    (done || by unfold apply_prompt_cache; destruct (nonempty mode); cbn; rewrite ?is_object_index_set).
  by destruct (normal_mode mode).
Qed.

Lemma text_block_arrives text mode :
  decode_part (apply_prompt_cache (text_block text) mode true).1
  = Some match normal_mode mode with Some m => PPromptCacheBreakpoint m (PText text) | None => PText text end.
Proof.
  apply block_arrives; [apply is_object_jobj|by read_block|]. unfold plain_part, text_block. by read_block.
Qed.

Lemma image_block_arrives url detail mode :
  decode_part (apply_prompt_cache (jobj [("type", JStr "image_url");
    ("image_url", put "detail" (JStr <$> detail) (jobj [("url", JStr url)]))]) mode true).1
  = Some match normal_mode mode with Some m => PPromptCacheBreakpoint m (image_part url detail) | None => image_part url detail end.
Proof.
  apply block_arrives; [apply is_object_jobj|by read_block|]. unfold plain_part, decode_image_part. read_block.
  assert (forall d, as_str (put "detail" d (jobj [("url", JStr url)])) = None) as -> by by intros [].
  cbn [opt_or]. read_literals. rewrite opt_or_none. cbn [mbind option_bind as_str].
  assert (((JStr <$> detail) ≫= as_str) = detail) as -> by by destruct detail.
  unfold image_part. destruct (opt_filter _ detail); [done|]. by destruct (split_data_url url) as [[]|].
Qed.

Lemma audio_block_arrives data format mode :
  decode_part (apply_prompt_cache (audio_block data format) mode true).1
  = Some match normal_mode mode with Some m => PPromptCacheBreakpoint m (PAudio data format) | None => PAudio data format end.
Proof.
  apply block_arrives; [apply is_object_jobj|by read_block|]. unfold plain_part, decode_input_audio_part, audio_block.
  by read_block.
Qed.

Lemma document_block_arrives source media name citations context mode value :
  has_slot (PDocument source media name citations context) ->
  encode_document source media name = (value, []) ->
  decode_part (apply_prompt_cache value mode true).1
  = Some match normal_mode mode with
         | Some m => PPromptCacheBreakpoint m (normal_inner (PDocument source media name citations context))
         | None => normal_inner (PDocument source media name citations context)
         end.
Proof.
  intros S. destruct source as [data| |?|? ?|id]; cbn [encode_document has_slot normal_inner] in *; try done.
  - intros [= <-]. set (m0 := if is_empty media then _ else media). destruct (data_url_splits m0 data) as [[mt b64] E].
    change ("data:" +:+ m0 +:+ ";base64," +:+ data) with (data_url m0 data) in E.
    rewrite E. cbn [unwrap_or]. apply block_arrives; [apply is_object_jobj|by read_block|].
    unfold plain_part, decode_openai_file_part. read_block. rewrite document_filename_some.
    change ("data:" +:+ m0 +:+ ";base64," +:+ data) with (data_url m0 data). by rewrite E.
  - destruct (is_empty (trim id)); [by intros [=]|]. intros [= <-].
    apply block_arrives; [apply is_object_jobj|by read_block|].
    unfold plain_part, decode_openai_file_part. read_block. rewrite !opt_or_none.
    assert (nonempty ((JStr <$> trimmed name) ≫= as_str) = trimmed name) as N.
    { destruct (trimmed name) eqn:E; [|done]. by apply nonempty_trimmed in E. }
    destruct (trimmed name) as [n|] eqn:E; cbn [fmap option_fmap option_map mbind option_bind as_str opt_or] in *; by rewrite ?N.
Qed.

Lemma encode_visible_arrives part :
  has_slot (peel_prompt_cache_all part).1 -> kept_whole (encode_visible part).2 = true ->
  exists v, (encode_visible part).1 = Some v /\ decode_part v = Some (normal_part part).
Proof.
  pose proof (peel_not_breakpoint part) as P. unfold encode_visible, normal_part.
  destruct (peel_prompt_cache_all part) as [inner mode]. cbn [fst] in *. intros S K.
  destruct inner as [text|url detail owner id|media data| | |source media name cit ctx|data format|m p]; try done.
  - rewrite nbind_fst; cbn [quiet fst]; rewrite nbind_fst. eexists. split; [reflexivity|]. apply text_block_arrives.
  - rewrite nbind_fst; cbn [quiet fst]; rewrite nbind_fst. eexists. split; [reflexivity|]. apply image_block_arrives.
  - rewrite nbind_fst; cbn [quiet fst]; rewrite nbind_fst. eexists. split; [reflexivity|]. apply (image_block_arrives _ None).
  - destruct (encode_document source media name) as [value events] eqn:E.
    rewrite !nbind_fst. cbn [quiet fst]. rewrite nbind_fst. kept_split K. destruct K as [[K _] _].
    assert (events = []) as ->.
    { unfold encode_document in E. destruct source; [| | | |destruct (is_empty (trim _))];
        by injection E as <- <-. }
    eexists. split; [reflexivity|]. by eapply document_block_arrives.
  - rewrite nbind_fst; cbn [quiet fst]; rewrite nbind_fst. eexists. split; [reflexivity|]. apply audio_block_arrives.
  - by destruct (P m p).
Qed.

Lemma encode_parts_arrives parts : kept_whole (encode_parts parts).2 = true ->
  decode_content (Some (encode_parts parts).1) = normal_parts parts.
Proof.
  unfold encode_parts. rewrite nbind_snd, kept_whole_app, andb_true_iff, nbind_fst, nfilter_map_kept, nfilter_map_fst.
  intros [K L]. rewrite (omap_total _ id), map_id in * by (eapply Forall_impl; [exact K|]; intros p H; apply (keep_part_kept _ H)).
  assert (decode_content (Some (JArr (nfilter_map encode_visible parts).1)) = map normal_part parts
    \/ kept_whole (nfilter_map encode_visible parts).2 = false) as B.
  { destruct (kept_whole (nfilter_map encode_visible parts).2) eqn:V; [left|by right].
    apply nfilter_map_kept in V. rewrite nfilter_map_fst. cbn [decode_content]. clear L.
    induction K as [|p l Hp K IH]; [done|]. inversion_clear V as [|? ? V1 V2].
    destruct (keep_part_kept _ Hp) as [_ S]. destruct (encode_visible_arrives _ S V1) as (v & E & D).
    cbn [omap list_omap map]. rewrite E. cbn [omap list_omap]. rewrite D. f_equal. by apply IH. }
  destruct parts as [|p [|q parts]]; [done| |].
  - destruct p; try done; rewrite nbind_fst; cbn [quiet fst]; kept_split L; destruct L as [L _];
      (destruct B as [B|B]; [exact B|by rewrite B in L]).
  - destruct p; rewrite nbind_fst; cbn [quiet fst]; kept_split L; destruct L as [L _];
      (destruct B as [B|B]; [exact B|by rewrite B in L]).
Qed.

(** ** Messages *)
Section Messages.
Context {SJ : SerdeJson}.

(** The items one message is read as. *)
Definition read_message (msg : json) : list IrItem := (decode_message msg).1.

Lemma read_role_message role content : role <> "assistant" ->
  read_message (role_message role content)
  = let parts := decode_content (Some content) in
    if String.eqb role "system" then [ISystem (parts_text parts) (role_text_breakpoint parts) (role_content_parts parts)]
    else if String.eqb role "developer" then
      [IDeveloper (parts_text parts) (role_text_breakpoint parts) (role_content_parts parts)]
    else if String.eqb role "tool" then let '(output, kept) := tool_output parts in [IFunctionOutput "" output kept false]
    else [IUser parts].
Proof.
  intros N. unfold read_message, decode_message, role_message. read_block. rewrite (str_eqb_neq role "assistant" N).
  rewrite !nbind_fst. cbn [quiet fst]. by destruct (tool_output (decode_content (Some content))).
Qed.

Lemma role_content_arrives text mode content_parts :
  kept_whole (role_content text mode content_parts).2 = true ->
  decode_content (Some (role_content text mode content_parts).1) = normal_role text mode content_parts.
Proof.
  intros K. unfold role_content, normal_role in *. destruct content_parts as [|p l]; [|by apply encode_parts_arrives].
  unfold role_text_content, normal_mode. cbn [quiet fst]. destruct (nonempty mode) as [m|] eqn:E; [|done].
  pose proof (text_block_arrives text mode) as T. unfold apply_prompt_cache, normal_mode in T. rewrite E in T.
  cbn [fmap option_fmap option_map fst quiet negb] in *. unfold decode_content.
  replace (jobj [("type", _); _; _]) with (index_set (text_block text) "prompt_cache_breakpoint" (jobj [("mode", JStr m)]))
    by reflexivity. cbn [omap list_omap]. by rewrite T.
Qed.

Lemma read_tool_message call_id content :
  read_message (jobj [("role", JStr "tool"); ("tool_call_id", JStr call_id); ("content", content)])
  = let '(output, kept) := tool_output (decode_content (Some content)) in [IFunctionOutput call_id output kept false].
Proof.
  unfold read_message, decode_message. read_block. rewrite !nbind_fst. cbn [quiet fst text_or_empty unwrap_or].
  by destruct (tool_output _).
Qed.

Lemma tool_content_arrives output parts : kept_whole (tool_content output parts).2 = true ->
  decode_content (Some (tool_content output parts).1) = tool_parts output parts.
Proof.
  unfold tool_content, tool_parts. destruct (existsb has_breakpoint parts); [|done].
  destruct (List.filter _ parts) as [|p l]; [done|]. intros K. rewrite nbind_fst. kept_split K. destruct K as [_ K].
  by destruct (existsb _ parts); apply encode_parts_arrives.
Qed.

Lemma opaque_arrives idx raw c : kept_whole (opaque_message idx raw c).2 = true ->
  concat (map read_message (opaque_message idx raw c).1) = (decode_message raw).1.
Proof.
  unfold opaque_message. destruct (chat_string_role raw); rewrite nbind_fst, nbind_snd; cbn; [|done].
  intros _. by rewrite app_nil_r.
Qed.

(** The items that take a message of their own. *)
Definition alone (item : IrItem) : bool :=
  match item with IAssistant _ _ | IFunctionCall _ _ _ _ | ICustomToolCall _ _ _ _ => false | _ => true end.

Lemma encode_item_arrives idx item : alone item = true -> kept_whole (encode_item idx item).2 = true ->
  concat (map read_message (encode_item idx item).1) = normal_item item.
Proof.
  intros A K. destruct item as [text mode cp|raw|raw|text mode cp|parts| | | |call_id output parts is_error|enc sum raw|kind raw|type_name raw];
    try done; cbn [encode_item normal_item] in *.
  - kept_split K. destruct K as [K _]. rewrite nbind_fst. cbn [quiet fst map concat]. rewrite app_nil_r, read_role_message by done.
    by rewrite role_content_arrives.
  - kept_split K. destruct K as (_ & K & _). rewrite !nbind_fst. cbn [quiet fst map concat]. rewrite app_nil_r, read_role_message by done.
    by rewrite role_content_arrives.
  - kept_split K. destruct K as [K _]. rewrite nbind_fst. cbn [quiet fst map concat]. rewrite app_nil_r, read_role_message by done.
    by rewrite encode_parts_arrives.
  - kept_split K. destruct K as (_ & _ & K & _). rewrite !nbind_fst. cbn [quiet fst map concat].
    by rewrite app_nil_r, read_tool_message, tool_content_arrives.
  - by apply opaque_arrives.
  - destruct (one_of type_name _); [by rewrite nbind_snd in K|]. by apply opaque_arrives in K.
Qed.

(** ** Calls *)
Lemma read_function_call call_id name arguments :
  decode_tool_call (function_call_json call_id name arguments) = IFunctionCall call_id name arguments None.
Proof. unfold decode_tool_call, is_custom_tool_call, function_call_json. by read_block. Qed.

Lemma read_custom_call call_id name input :
  decode_tool_call (custom_tool_call_json call_id name input) = ICustomToolCall call_id name input None.
Proof. unfold decode_tool_call, is_custom_tool_call, custom_tool_call_json. by read_block. Qed.

(** The calls taken are the next items, and at least one is taken from a call. *)
Lemma take_function_calls_arrives idx l calls next rest : (take_function_calls idx l).1 = (calls, next, rest) ->
  exists taken, l = taken ++ rest /\ map decode_tool_call calls = concat (map normal_item taken)
    /\ length taken = length calls.
Proof.
  revert idx calls next rest. induction l as [|item l IH]; intros idx calls next rest H; [by injection H as <- <- <-; exists []|].
  destruct item; try (by injection H as <- <- <-; exists []); cbn [take_function_calls] in H; rewrite !nbind_fst in H.
  - destruct ((take_function_calls (S idx) l).1) as [[calls' next'] rest'] eqn:E. cbn [quiet fst] in H.
    injection H as <- <- <-. destruct (IH _ _ _ _ E) as (taken & -> & M & L).
    eexists (_ :: taken). split; [reflexivity|]. cbn [map concat normal_item app length]. by rewrite read_function_call, M, L.
  - destruct ((take_function_calls (S idx) l).1) as [[calls' next'] rest'] eqn:E. cbn [quiet fst] in H.
    injection H as <- <- <-. destruct (IH _ _ _ _ E) as (taken & -> & M & L).
    eexists (_ :: taken). split; [reflexivity|]. cbn [map concat normal_item app length]. by rewrite read_custom_call, M, L.
Qed.

Lemma normal_parts_some parts : length (normal_parts parts) <> 0%nat.
Proof. unfold normal_parts. by destruct parts. Qed.

(** The assistant's message with the calls after it. *)
Lemma read_assistant_message content calls parts : decode_content (Some content) = parts -> length parts <> 0%nat ->
  read_message match calls with
               | [] => jobj [("role", JStr "assistant"); ("content", content)]
               | _ => index_set (jobj [("role", JStr "assistant"); ("content", content)]) "tool_calls" (JArr calls)
               end
  = IAssistant parts None :: map decode_tool_call calls.
Proof.
  intros P N. unfold read_message, decode_message. destruct calls as [|c calls]; cbv zeta.
  - unfold get_array. read_block. rewrite P. cbn [nonempty opt_filter]. rewrite nbind_fst. cbn [quiet fst].
    rewrite bool_decide_false by done. done.
  - unfold get_array. read_block. rewrite P. cbn [nonempty opt_filter]. rewrite nbind_fst. cbn [quiet fst].
    rewrite bool_decide_false by done. done.
Qed.

Lemma read_calls_message calls :
  read_message (jobj [("role", JStr "assistant"); ("content", JNull); ("tool_calls", JArr calls)]) = map decode_tool_call calls.
Proof. unfold read_message, decode_message, get_array. read_block. by rewrite nbind_fst. Qed.

Lemma take_function_calls_some idx item l calls next rest :
  (take_function_calls idx (item :: l)).1 = (calls, next, rest) ->
  match item with IFunctionCall _ _ _ _ | ICustomToolCall _ _ _ _ => True | _ => False end -> (length rest <= length l)%nat.
Proof.
  intros T C. destruct (take_function_calls_arrives _ _ _ _ _ T) as (taken & E & _ & L).
  destruct taken as [|x taken]; [exfalso|by injection E as _ ->; rewrite length_app; lia].
  destruct calls; [|done]. destruct item; try done; cbn [take_function_calls] in T; rewrite !nbind_fst in T;
    by destruct ((take_function_calls (S idx) l).1) as [[? ?] ?].
Qed.

Lemma encode_items_arrives fuel idx l : (length l <= fuel)%nat -> kept_whole (encode_items fuel idx l).2 = true ->
  concat (map read_message (encode_items fuel idx l).1) = concat (map normal_item l).
Proof.
  revert idx l. induction fuel as [|fuel IH]; intros idx l F K; [by destruct l; cbn in F; [|lia]|].
  destruct l as [|item l]; [done|]. cbn [length] in F. destruct (alone item) eqn:A.
  - assert (encode_items (S fuel) idx (item :: l)
      = let! messages := encode_item idx item in let! rest := encode_items fuel (S idx) l in quiet (messages ++ rest)) as E
      by by destruct item.
    rewrite E in *. kept_split K. destruct K as (K1 & K2 & _). rewrite !nbind_fst. cbn [quiet fst].
    rewrite map_app, concat_app. cbn [map concat]. rewrite encode_item_arrives, IH by (done || lia). done.
  - destruct item; try done; cbn [encode_items] in *.
    + kept_split K. destruct K as (_ & _ & K). rewrite !nbind_fst.
      destruct ((take_function_calls (S idx) l).1) as [[calls next] rest] eqn:T. kept_split K. destruct K as (K1 & K2 & _).
      rewrite !nbind_fst. cbn [quiet fst map concat].
      destruct (take_function_calls_arrives _ _ _ _ _ T) as (taken & -> & M & L). rewrite length_app in F.
      rewrite (read_assistant_message _ calls _ (encode_parts_arrives _ K1) (normal_parts_some _)).
      rewrite IH by (done || lia). rewrite map_app, concat_app, M. done.
    + kept_split K. destruct ((take_function_calls idx _).1) as [[calls next] rest] eqn:T.
      kept_split K. destruct K as (_ & K & _). rewrite nbind_fst, T, nbind_fst. cbn [quiet fst map concat].
      destruct (take_function_calls_arrives _ _ _ _ _ T) as (taken & E & M & L).
      pose proof (take_function_calls_some _ _ _ _ _ _ T I). rewrite read_calls_message, IH, M by (done || lia).
      apply (f_equal (fun l => concat (map normal_item l))) in E. rewrite map_app, concat_app in E. by symmetry.
    + kept_split K. destruct ((take_function_calls idx _).1) as [[calls next] rest] eqn:T.
      kept_split K. destruct K as (_ & K & _). rewrite nbind_fst, T, nbind_fst. cbn [quiet fst map concat].
      destruct (take_function_calls_arrives _ _ _ _ _ T) as (taken & E & M & L).
      pose proof (take_function_calls_some _ _ _ _ _ _ T I). rewrite read_calls_message, IH, M by (done || lia).
      apply (f_equal (fun l => concat (map normal_item l))) in E. rewrite map_app, concat_app in E. by symmetry.
Qed.
End Messages.

(** ** Tools *)
Lemma read_tool name description parameters strict :
  decode_tool (encode_tool (PtFunction name description parameters strict))
  = normal_tool false (fun _ => name) (TFunction name description parameters strict).
Proof.
  cbn [encode_tool normal_tool]. set (p := if bool_decide _ then _ else _).
  unfold decode_tool, decode_function_or_messages, function_from, bool_field. read_block.
  cbn [text_or_empty unwrap_or is_empty orb]. rewrite opt_or_none. f_equal. by destruct strict.
Qed.

(** ** The request *)
Section Request.
Context {SJ : SerdeJson} (char_lower : string -> option string).

Definition profile_case (profile : ResolvedProfile) : option ToolNameCase :=
  fp ← fingerprint profile; fp_tool_name_case fp.

(** C6. What the Chat map does not report arrives: when the tools are prepared,
    the request is encoded and the loss report names nothing as dropped or
    degraded, decoding the body gives the request in the normal form of the
    dialect - every message, part, call, tool and sampling field. *)
Theorem chat_request_arrives profile ir tools noted_tools body noted :
  sampling_typed (sampling ir) ->
  prepare_tools char_lower ChatCompletions ir profile = Ok (tools, noted_tools) ->
  encode ir tools noted_tools = Ok (body, noted) ->
  lossy (mkReport (noted_tools ++ noted)) = [] ->
  exists report, decode body
  = Ok (normal_request (fun name => apply_tool_name_case char_lower name (profile_case profile)) ir, report).
Proof.
  intros T P E L. apply kept_whole_lossy in L. rewrite kept_whole_app, andb_true_iff in L. destruct L as [K1 K2].
  pose proof (prepare_from_arrives char_lower _ _ _ (or_introl eq_refl) encode_tool read_tool (fun _ => eq_refl) _ _ _ _ P K1) as Tools.
  change (keeps_namespaces ChatCompletions _) with false in Tools. unfold encode in E.
  destruct (encode_messages ir) as [messages noted_messages] eqn:M.
  set (body0 := put "tools" (if_any tools (JArr (map encode_tool tools)))
                  (jobj [("model", JStr (model ir)); ("messages", JArr messages)])) in E.
  assert (exists ev, encode_sampling ir body0 = (body, ev) /\ noted = noted_messages ++ ev) as (ev & S & ->).
  { destruct messages; [destruct (dropped_details (noted_tools ++ noted_messages)); [|done]|];
      (destruct (check_sampling ir); cbn [rbind] in E; [|done]);
      unfold nbind in E; destruct (encode_sampling ir body0) as [b ev]; injection E as <- <-; by exists ev. }
  rewrite kept_whole_app, andb_true_iff in K2. destruct K2 as [KM KS].
  assert (is_object body0 = true) as O by (subst body0; by rewrite is_object_put).
  assert (forall k, get body k = last_put k (chat_fields ir) (get body0 k)) as G.
  { intros k. change body with (body, ev).1. rewrite <- S, encode_sampling_puts, get_puts; try done.
    subst body0. by rewrite get_put. }
  assert (fresh_body body0) as F.
  { split; [done|]. intros k N. unfold one_of in N. cbn [existsb] in N. rewrite !orb_false_iff in N.
    destruct N as (N1 & N2 & N3 & _). subst body0. rewrite get_put, get_jobj by done. cbn [assoc_last].
    by rewrite N3, N1, N2. }
  assert (decode_sampling body = chat_normal (sampling ir)) as Sampling.
  { pose proof (sampling_arrives ir body0 F T) as A. rewrite S in A. by apply A. }
  unfold decode, get_array, str_field. rewrite !G. read_rows. subst body0. read_literals.
  cbn [mbind option_bind as_array as_str unwrap_or]. destruct (nmap decode_message messages) as [read report] eqn:R.
  eexists. f_equal. f_equal. unfold normal_request. f_equal.
  - change messages with (messages, noted_messages).1 in R. rewrite <- M in R.
    apply (f_equal fst) in R. rewrite nmap_fst in R. cbn [fst] in R. rewrite <- R.
    apply encode_items_arrives; [done|]. unfold encode_messages in M. by rewrite M.
  - unfold profile_case. rewrite <- Tools. destruct tools; [done|]. cbn [if_any opt_or mbind option_bind as_array unwrap_or]. by rewrite map_map.
  - done.
Qed.
End Request.

(** ** Witnesses *)
Section Witnesses.
#[local] Existing Instance bits_codec.

Definition sample_profile : ResolvedProfile :=
  mkProfile 1 "openai" None (mkDialect (Some ChatCompletions) [] Replace PolicyHardError UnknownHardError)
    (mkHttp (Some "https://api.test") None None [] Replace None None None None)
    None [] None (betas_default_for (Some ChatCompletions) false).

(** A conversation with a cached system text, an image, a call and its result,
    a strict tool, and numbers that are not exact in binary. *)
Definition sample_items : list IrItem :=
  [ ISystem "Be brief." (Some "explicit") [];
    IUser [PText "What is this?"; PImageBase64 "image/png" "iVBORw0"; PDocument (SrcFileId "file-1") "" (Some "a.pdf") None None];
    IAssistant [PText "Let me look."] None;
    IFunctionCall "call_1" "look" "{}" None; ICustomToolCall "call_2" "grep" "a b" None;
    IFunctionOutput "call_1" "a cat" [] false;
    IDeveloper "Answer in French." None [] ].

Definition sample_sampling : IrSampling :=
  let s := decode_sampling (jobj
    [("temperature", JNum (NumFloat 4604480259023595110)); ("max_tokens", jint 100); ("stop", JArr [JStr "END"]);
     ("tool_choice", jobj [("name", JStr "look")]); ("stream", JBool true); ("top_logprobs", jint 3);
     ("modalities", JArr [JStr "TEXT"]); ("metadata", jobj [("team", JStr "a")])]) in s.

Definition sample_ir : IrRequest :=
  mkRequest "gpt-4o" sample_items
    [TFunction "look" "Looks." (strict_object_schema (normalize_object_schema_required empty_parameters)) (Some true)]
    sample_sampling.

Definition sample_tools : list PreparedTool :=
  match prepare_tools ascii_lower ChatCompletions sample_ir sample_profile with Ok (tools, _) => tools | Err _ => [] end.

Definition sample_body : json := match encode sample_ir sample_tools [] with Ok (body, _) => body | Err _ => JNull end.

Definition sample_notes : list LossEvent := match encode sample_ir sample_tools [] with Ok (_, l) => l | Err _ => [] end.

(** The sample is in normal form. *)
Example sample_normal : normal_request (fun name => name) sample_ir = sample_ir.
Proof. by vm_compute. Qed.

Lemma chat_request_arrives_witness : exists report, decode sample_body = Ok (sample_ir, report).
Proof.
  apply (chat_request_arrives ascii_lower sample_profile sample_ir sample_tools [] sample_body sample_notes).
  - split; try (intros n [= <-]; unfold is_u32, u32_max; lia); try by intros n [=]. constructor.
  - vm_compute. reflexivity.
  - vm_compute. reflexivity.
  - vm_compute. reflexivity.
Defined.
End Witnesses.
