(* ===== verification/ToolIds.v ===== *)
(** * ToolIds: the ids of tool calls in a Messages request

    Anthropic accepts ids of letters, digits, [_] and [-].  [W/map/messages.rs]
    gives every call id of a request such a form the first time it meets it,
    with a numeric suffix when another call id already has that form, and
    keeps the choice in a [HashMap] that goes with the encoder.  A map is a
    [gmap]; the code only asks it for one key and whether some value is equal
    to a text, so its order does not matter.  The suffix is a [u64] that would
    need 2^64 ids in one request to wrap. *)
From stdpp Require Import gmap pretty.
From S2P Require Import Prelude Text Json Ir Usage Shapes Chat Loss RequestCore.

Notation tool_ids := (gmap string string).

(** ** The legal form of an id *)
Definition legal_id_char (c : string) : bool :=
  match c with
  | String a EmptyString => is_ascii_alphanumeric a || Ascii.eqb a "_" || Ascii.eqb a "-"
  | _ => false
  end.

(** A run of other characters becomes one [_], unless a [_] came before it. *)
Fixpoint sanitize_from (last_underscore : bool) (l : list string) : string :=
  match l with
  | [] => ""
  | c :: l =>
      if legal_id_char c then c +:+ sanitize_from (String.eqb c "_") l
      else (if last_underscore then "" else "_") +:+ sanitize_from true l
  end.

Definition sanitize_messages_tool_use_id (call_id : string) : string :=
  let out := sanitize_from false (chars call_id) in if is_empty out then "_" else out.

(** ** Claiming a form *)
Definition claimed (ids : tool_ids) (candidate : string) : bool :=
  bool_decide (map_Exists (fun _ used => used = candidate) ids).

(** The candidates in order: the form itself, then [_2], [_3], ... *)
Definition candidate_at (base : string) (k : nat) : string :=
  match k with O => base | S k => base +:+ "_" +:+ pretty (N.of_nat k + 2)%N end.

(** The loop over the suffixes; [fuel] candidates are tried. *)
Fixpoint first_free (fuel : nat) (ids : tool_ids) (base : string) (k : nat) : string :=
  match fuel with
  | O => candidate_at base k
  | S fuel => if claimed ids (candidate_at base k) then first_free fuel ids base (S k) else candidate_at base k
  end.

Definition assign_messages_tool_use_id (call_id : string) (ids : tool_ids) : string * tool_ids :=
  match ids !! call_id with
  | Some existing => (existing, ids)
  | None =>
      let candidate := first_free (S (size ids)) ids (sanitize_messages_tool_use_id call_id) 0 in
      (candidate, <[call_id := candidate]> ids)
  end.

Definition rewrite_messages_tool_use_id (call_id path : string) (ids : tool_ids) : noted (string * tool_ids) :=
  let '(id, ids) := assign_messages_tool_use_id call_id ids in
  let! _ := note_if (negb (String.eqb id call_id)) path Degrade "sanitized to Anthropic tool_use.id charset" in
  quiet (id, ids).

(** ** The form is legal *)
Definition legal_byte (a : ascii) : bool := is_ascii_alphanumeric a || Ascii.eqb a "_" || Ascii.eqb a "-".

(** [^[a-zA-Z0-9_-]+$] *)
Definition legal_tool_use_id (s : string) : bool := negb (is_empty s) && forallb legal_byte (bytes_of_str s).

Lemma legal_app s t :
  forallb legal_byte (bytes_of_str (s +:+ t)) = forallb legal_byte (bytes_of_str s) && forallb legal_byte (bytes_of_str t).
Proof. by rewrite bytes_of_str_app, forallb_app. Qed.

Lemma legal_char_byte c : legal_id_char c = true -> forallb legal_byte (bytes_of_str c) = true.
Proof. destruct c as [|a [|]]; try done. unfold legal_byte. cbn [legal_id_char]. intros H. cbn. by rewrite H. Qed.

Lemma sanitize_legal last l : forallb legal_byte (bytes_of_str (sanitize_from last l)) = true.
Proof.
  revert last. induction l as [|c l IH]; intros last; [done|]. cbn [sanitize_from].
  destruct (legal_id_char c) eqn:L; rewrite legal_app, IH, andb_true_r; [by apply legal_char_byte|by destruct last].
Qed.

Lemma sanitized_legal call_id : legal_tool_use_id (sanitize_messages_tool_use_id call_id) = true.
Proof.
  unfold sanitize_messages_tool_use_id. destruct (is_empty _) eqn:E; [done|].
  unfold legal_tool_use_id. by rewrite E, sanitize_legal.
Qed.

Lemma pretty_char_legal x : legal_byte (pretty_N_char x) = true.
Proof. unfold pretty_N_char. by repeat case_match. Qed.

Lemma pretty_go_legal x s : forallb legal_byte (bytes_of_str s) = true ->
  forallb legal_byte (bytes_of_str (pretty_N_go x s)) = true.
Proof.
  revert s. induction (N.lt_wf_0 x) as [x _ IH]; intros s L. destruct (decide (x = 0)%N) as [->|N].
  - by rewrite pretty_N_go_0.
  - rewrite pretty_N_go_step by lia. apply IH; [apply N.div_lt; lia|]. 
    change (legal_byte (pretty_N_char (x `mod` 10)) && forallb legal_byte (bytes_of_str s) = true).
    by rewrite pretty_char_legal, L.
Qed.

Lemma pretty_legal (x : N) : forallb legal_byte (bytes_of_str (pretty x)) = true.
Proof. unfold pretty, pretty_N. case_decide; [done|]. by apply pretty_go_legal. Qed.

Lemma candidate_legal base k : legal_tool_use_id base = true -> legal_tool_use_id (candidate_at base k) = true.
Proof.
  unfold legal_tool_use_id. rewrite !andb_true_iff. intros [N L]. destruct k as [|k]; [done|]. cbn [candidate_at]. split.
  - by destruct base.
  - by rewrite !legal_app, L, pretty_legal.
Qed.

Lemma first_free_candidate fuel ids base k : exists j, first_free fuel ids base k = candidate_at base j.
Proof. revert k. induction fuel as [|fuel IH]; intros k; cbn; [by exists k|]. destruct (claimed _ _); [apply IH|by exists k]. Qed.

(** ** The form is free *)
Lemma candidate_inj base : Inj (=) (=) (candidate_at base).
Proof.
  assert (forall j, candidate_at base (S j) <> base) as N.
  { intros j E. apply (f_equal slen) in E. cbn [candidate_at] in E. rewrite !slen_app in E.
    pose proof (slen_nonneg (pretty (N.of_nat j + 2)%N)). change (slen "_") with 1 in E. lia. }
  intros [|i] [|j] E; [done|by destruct (N j)|by destruct (N i)|].
  cbn in E. apply (inj (String.append base)) in E. apply (inj (String.append "_")) in E.
  apply (inj pretty) in E. f_equal. lia.
Qed.

Lemma claimed_spec ids c : claimed ids c = true <-> c ∈ (snd <$> map_to_list ids).
Proof.
  unfold claimed. rewrite bool_decide_eq_true, list_elem_of_fmap. split.
  - intros (k & v & L & <-). exists (k, v). split; [done|by apply elem_of_map_to_list].
  - intros ([k v] & -> & L). exists k, v. split; [by apply elem_of_map_to_list|done].
Qed.

Lemma first_free_stuck fuel ids base k : claimed ids (first_free fuel ids base k) = true ->
  forall j, (k <= j < k + fuel)%nat -> claimed ids (candidate_at base j) = true.
Proof.
  revert k. induction fuel as [|fuel IH]; intros k C j J; [lia|]. cbn in C.
  destruct (claimed ids (candidate_at base k)) eqn:E; [|congruence].
  destruct (decide (j = k)) as [->|]; [done|]. apply (IH (S k)); [done|lia].
Qed.

(** One candidate more than the map has values is enough. *)
Lemma first_free_unclaimed ids base : claimed ids (first_free (S (size ids)) ids base 0) = false.
Proof.
  apply not_true_iff_false. intros C. pose proof (first_free_stuck _ _ _ _ C) as A. clear C.
  set (cs := candidate_at base <$> seq 0 (S (size ids))).
  assert (NoDup cs) as D by (apply NoDup_fmap_2; [apply candidate_inj|apply NoDup_seq]).
  assert (length cs <= length (snd <$> map_to_list ids))%nat as L.
  { apply submseteq_length, NoDup_submseteq; [done|]. intros c H. apply list_elem_of_fmap in H as (j & -> & J).
    apply claimed_spec, A. apply elem_of_seq in J. lia. }
  unfold cs in L. rewrite !length_fmap, length_seq, length_map_to_list in L. lia.
Qed.

(** ** The invariant of the map *)
Record ids_ok (ids : tool_ids) : Prop := {
  ids_legal : forall k v, ids !! k = Some v -> legal_tool_use_id v = true;
  ids_inj : forall k1 k2 v, ids !! k1 = Some v -> ids !! k2 = Some v -> k1 = k2
}.

Lemma ids_ok_empty : ids_ok ∅.
Proof. split; by intros *. Qed.

Lemma claimed_lookup ids k v : ids !! k = Some v -> claimed ids v = true.
Proof. intros L. apply claimed_spec, list_elem_of_fmap. exists (k, v). split; [done|by apply elem_of_map_to_list]. Qed.

Lemma assign_ok call_id ids : ids_ok ids -> ids_ok (assign_messages_tool_use_id call_id ids).2.
Proof.
  intros [L I]. unfold assign_messages_tool_use_id. destruct (ids !! call_id) eqn:E; [by split|].
  pose proof (first_free_unclaimed ids (sanitize_messages_tool_use_id call_id)) as F.
  destruct (first_free_candidate (S (size ids)) ids (sanitize_messages_tool_use_id call_id) 0) as [j J].
  cbn [snd]. set (c := first_free _ _ _ _) in *. split.
  - intros k v. rewrite lookup_insert_Some. intros [[_ <-]|[_ H]]; [|by eapply L].
    rewrite J. by apply candidate_legal, sanitized_legal.
  - intros k1 k2 v. rewrite !lookup_insert_Some.
    intros [[<- <-]|[N1 H1]] [[<- E2]|[N2 H2]]; subst; try done.
    + apply claimed_lookup in H2. congruence.
    + apply claimed_lookup in H1. congruence.
    + by eapply I.
Qed.

Lemma assign_lookup call_id ids :
  (assign_messages_tool_use_id call_id ids).2 !! call_id = Some (assign_messages_tool_use_id call_id ids).1.
Proof.
  unfold assign_messages_tool_use_id. destruct (ids !! call_id) eqn:E; [done|]. apply lookup_insert_eq.
Qed.

(** What is claimed stays. *)
Lemma assign_extends call_id ids : ids ⊆ (assign_messages_tool_use_id call_id ids).2.
Proof.
  unfold assign_messages_tool_use_id. destruct (ids !! call_id) eqn:E; [done|]. cbn. by apply insert_subseteq.
Qed.

Lemma rewrite_fst call_id path ids : (rewrite_messages_tool_use_id call_id path ids).1 = assign_messages_tool_use_id call_id ids.
Proof. unfold rewrite_messages_tool_use_id. destruct (assign_messages_tool_use_id call_id ids). by rewrite nbind_fst. Qed.

(** An id is left alone exactly when nothing is noted. *)
Lemma rewrite_kept call_id path ids :
  kept_whole (rewrite_messages_tool_use_id call_id path ids).2 = true <->
  (assign_messages_tool_use_id call_id ids).1 = call_id.
Proof.
  unfold rewrite_messages_tool_use_id. destruct (assign_messages_tool_use_id call_id ids) as [id ids'].
  rewrite nbind_snd, kept_whole_app, andb_true_r, kept_whole_note_if. cbn.
  destruct (String.eqb_spec id call_id); cbn; by split.
Qed.

(** ** The ids of a request *)

(** The ids given to call ids met in this order, each with what it stands for. *)
Fixpoint assign_all {A} (l : list (A * string)) (ids : tool_ids) : list (A * string) * tool_ids :=
  match l with
  | [] => ([], ids)
  | (a, c) :: l =>
      let '(id, ids) := assign_messages_tool_use_id c ids in
      let '(out, ids) := assign_all l ids in ((a, id) :: out, ids)
  end.

Lemma assign_all_app {A} (l k : list (A * string)) ids :
  (assign_all (l ++ k) ids).1 = (assign_all l ids).1 ++ (assign_all k (assign_all l ids).2).1
  /\ (assign_all (l ++ k) ids).2 = (assign_all k (assign_all l ids).2).2.
Proof.
  revert ids. induction l as [|[a c] l IH]; intros ids; [done|]. cbn [app assign_all].
  destruct (assign_messages_tool_use_id c ids) as [id ids1]. specialize (IH ids1).
  destruct (assign_all (l ++ k) ids1), (assign_all l ids1) as [out ids2]. cbn in *. by destruct IH as [-> ->].
Qed.

(** One function of the final map gives all of them. *)
Lemma assign_all_ids {A} (l : list (A * string)) ids : ids_ok ids ->
  let ids' := (assign_all l ids).2 in
  ids_ok ids' /\ ids ⊆ ids' /\
  Forall2 (fun x y => x.1 = y.1 /\ ids' !! x.2 = Some y.2) l (assign_all l ids).1.
Proof.
  revert ids. induction l as [|[a c] l IH]; intros ids O; cbn; [by split_and!|].
  pose proof (assign_ok c ids O) as O1. pose proof (assign_lookup c ids) as L. pose proof (assign_extends c ids) as X.
  destruct (assign_messages_tool_use_id c ids) as [id ids1]. cbn in *.
  destruct (IH ids1 O1) as (O2 & X2 & M). destruct (assign_all l ids1) as [out ids2]. cbn in *.
  split_and!; [done|by etrans|]. constructor; [|done]. split; [done|]. by eapply lookup_weaken.
Qed.


(** ** Legal ids stay *)
Lemma legal_not_cont a : legal_byte a = true -> is_cont a = false.
Proof. by destruct a as [[] [] [] [] [] [] [] []]. Qed.

Lemma chars_legal s : forallb legal_byte (bytes_of_str s) = true ->
  chars s = map (fun a => String a "") (bytes_of_str s).
Proof.
  induction s as [|a t IH]; [done|]. unfold bytes_of_str in *. cbn [String.list_ascii_of_string forallb map chars].
  rewrite andb_true_iff. intros [_ L]. rewrite IH by done. destruct t as [|b t]; [done|].
  cbn [String.list_ascii_of_string map head_cont]. apply andb_true_iff in L as [L _]. by rewrite legal_not_cont.
Qed.

Lemma sanitize_from_legal last s : forallb legal_byte (bytes_of_str s) = true ->
  sanitize_from last (map (fun a => String a "") (bytes_of_str s)) = s.
Proof.
  revert last. unfold bytes_of_str. induction s as [|a s IH]; intros last; [done|].
  cbn [String.list_ascii_of_string forallb map sanitize_from]. rewrite andb_true_iff. intros [L R].
  unfold legal_byte in L. cbn [legal_id_char]. rewrite L, IH by done. done.
Qed.

Lemma sanitize_legal_id s : legal_tool_use_id s = true -> sanitize_messages_tool_use_id s = s.
Proof.
  unfold legal_tool_use_id, sanitize_messages_tool_use_id. rewrite andb_true_iff. intros [N L].
  rewrite chars_legal, sanitize_from_legal by done. by destruct (is_empty s).
Qed.

(** A request whose ids are all legal keeps them. *)
Definition keeps_ids (ids : tool_ids) : Prop := forall k v, ids !! k = Some v -> v = k.

Lemma assign_legal c ids : keeps_ids ids -> legal_tool_use_id c = true ->
  (assign_messages_tool_use_id c ids).1 = c /\ keeps_ids (assign_messages_tool_use_id c ids).2.
Proof.
  intros K L. unfold assign_messages_tool_use_id. destruct (ids !! c) as [v|] eqn:E; [by rewrite (K _ _ E)|].
  assert (first_free (S (size ids)) ids (sanitize_messages_tool_use_id c) 0 = c) as F.
  { rewrite sanitize_legal_id by done. cbn [first_free candidate_at]. destruct (claimed ids c) eqn:C; [|done].
    apply claimed_spec, list_elem_of_fmap in C as ([k v] & -> & M). apply elem_of_map_to_list in M.
    cbn in E. by rewrite (K _ _ M), M in E. }
  rewrite F. split; [done|]. intros k v. cbn [snd]. rewrite lookup_insert_Some. intros [[<- <-]|[_ M]]; [done|by apply K].
Qed.

Lemma assign_all_legal {A} (l : list (A * string)) ids : keeps_ids ids ->
  forallb (fun x => legal_tool_use_id x.2) l = true -> (assign_all l ids).1 = l.
Proof.
  revert ids. induction l as [|[a c] l IH]; intros ids K; [done|]. cbn [forallb assign_all snd].
  rewrite andb_true_iff. intros [L R]. destruct (assign_legal c ids K L) as [E K1].
  destruct (assign_messages_tool_use_id c ids) as [id ids1]. cbn in E, K1. subst id. specialize (IH ids1 K1 R).
  destruct (assign_all l ids1). cbn in *. by rewrite IH.
Qed.
