(* ===== verification/MessagesRequest.v ===== *)
(** * MessagesRequest: reading a request of the Messages dialect

    [decode] of [W/map/messages.rs]: the system text, the turns with their
    blocks split into items of the IR, tools and sampling.  Reading never
    fails; what has no place in the IR is noted. *)
From S2P Require Import Prelude Text Json Floats Ir ProfileTypes StreamCore Usage Shapes Chat Loss RequestCore Tools.

(** ** Parts *)
Definition block_type (block : json) : string := unwrap_or (get_str block "type") "text".

(** [.get("text").and_then(Value::as_str).map(IrPart::Text)] *)
Definition block_text (block : json) : option IrPart := PText <$> get_str block "text".

(** A Files API image stays raw: the [file_id] of the IR is one of Responses. *)
Definition messages_file_image (block : json) : option IrPart :=
  source ← get block "source";
  if bool_decide (get_str source "type" = Some "file") then
    id ← str_field source "file_id"; if is_empty id then None else Some (PRaw "image" block)
  else None.

Definition url_image (source : json) : option IrPart :=
  (fun url => PImageUrl url None None None) <$> str_field source "url".

Definition decode_image (block : json) : option IrPart :=
  source ← get block "source";
  if bool_decide (get_str source "type" = Some "base64")
  then Some (PImageBase64 (unwrap_or (str_field source "media_type") "image/png")
               (text_or_empty (str_field source "data")))
  else url_image source.

Definition document_source (source : json) : option IrDocumentSource :=
  let otherwise :=
    opt_or (SrcBase64 <$> str_field source "data")
      (opt_or (SrcUrl <$> str_field source "url") (SrcFileId <$> str_field source "file_id")) in
  match get_str source "type" with
  | Some kind =>
      if String.eqb kind "text" then SrcText <$> str_field source "data"
      else if String.eqb kind "url" then SrcUrl <$> str_field source "url"
      else if String.eqb kind "file" then SrcFileId <$> opt_or (str_field source "file_id") (str_field source "id")
      else if String.eqb kind "base64" then SrcBase64 <$> str_field source "data"
      else otherwise
  | None => otherwise
  end.

Definition is_text_source (src : IrDocumentSource) : bool := match src with SrcText _ => true | _ => false end.

Definition decode_document (block : json) : option IrPart :=
  source ← get block "source";
  let media_type := text_or_empty (opt_or (str_field source "media_type") (str_field block "media_type")) in
  let name := nonempty (opt_or (str_field block "title") (str_field block "name")) in
  src ← document_source source;
  let media_type :=
    if negb (is_empty media_type) then media_type
    else if is_text_source src then "text/plain" else "application/pdf" in
  Some (PDocument src media_type name (pointer block [Key "citations"; Key "enabled"] ≫= as_bool)
          (nonempty (str_field block "context"))).

Definition decode_content_part (block : json) : option IrPart :=
  match block with
  | JStr text => Some (PText text)
  | _ =>
      let type_name := block_type block in
      if String.eqb type_name "text" then block_text block
      else if String.eqb type_name "image" then opt_or (decode_image block) (messages_file_image block)
      else if String.eqb type_name "document" then opt_or (decode_document block) (Some (PRaw "document" block))
      else opt_or (block_text block) (Some (PRaw type_name block))
  end.

Definition is_text_part (part : IrPart) : bool := match part with PText _ => true | _ => false end.
Definition is_empty_text (part : IrPart) : bool := match part with PText text => is_empty text | _ => false end.
Definition text_of (part : IrPart) : option string := match part with PText text => Some text | _ => None end.

Section Decode.
Context {SJ : SerdeJson}.

(** Text beside an image or a document stays in block order, text alone is
    one string. *)
Definition decode_tool_result (block : json) : string * list IrPart :=
  match opt_or (get block "content") (get block "text") with
  | None => ("", [])
  | Some (JStr text) => (text, [])
  | Some (JArr l) =>
      let decoded := List.filter (fun part => negb (is_empty_text part)) (omap decode_content_part l) in
      if existsb (fun part => negb (is_text_part part)) decoded then ("", decoded)
      else (str_join "" (omap text_of decoded), [])
  | Some content => (value_as_string content, [])
  end.

(** ** Turns *)
Definition content_blocks (content : option json) : list json :=
  match content with Some (JArr l) => l | _ => [] end.

Definition flush_assistant (parts : list IrPart) : list IrItem :=
  match parts with [] => [] | _ => [IAssistant parts None] end.
Definition flush_user (parts : list IrPart) : list IrItem := match parts with [] => [] | _ => [IUser parts] end.

Definition decode_tool_use (block : json) : IrItem :=
  IFunctionCall (text_or_empty (str_field block "id")) (text_or_empty (str_field block "name"))
    (unwrap_or (value_as_string <$> get block "input") "{}") None.

Definition assistant_part (block : json) : option IrPart :=
  if String.eqb (block_type block) "thinking" then
    Some (PThinking (text_or_empty (opt_or (get block "thinking") (get block "text") ≫= as_str))
            (str_field block "signature"))
  else if String.eqb (block_type block) "redacted_thinking" then Some (PRaw "redacted_thinking" block)
  else decode_content_part block.

(** The parts before a call are an item of their own. *)
Fixpoint assistant_blocks (parts : list IrPart) (blocks : list json) : list IrItem :=
  match blocks with
  | [] => flush_assistant parts
  | block :: blocks =>
      if String.eqb (block_type block) "tool_use"
      then flush_assistant parts ++ decode_tool_use block :: assistant_blocks [] blocks
      else assistant_blocks (parts ++ option_list (assistant_part block)) blocks
  end.

Definition decode_assistant (content : option json) : list IrItem :=
  match content with
  | Some (JStr text) => [IAssistant [PText text] None]
  | _ => assistant_blocks [] (content_blocks content)
  end.

Definition decode_result_item (block : json) : IrItem :=
  let '(output, parts) := decode_tool_result block in
  IFunctionOutput (text_or_empty (str_field block "tool_use_id")) output parts
    (unwrap_or (bool_field block "is_error") false).

Fixpoint user_blocks (parts : list IrPart) (blocks : list json) : list IrItem :=
  match blocks with
  | [] => flush_user parts
  | block :: blocks =>
      if String.eqb (block_type block) "tool_result"
      then flush_user parts ++ decode_result_item block :: user_blocks [] blocks
      else user_blocks (parts ++ option_list (decode_content_part block)) blocks
  end.

Definition decode_user (content : option json) : list IrItem :=
  match content with
  | Some (JStr text) => [IUser [PText text]]
  | _ => user_blocks [] (content_blocks content)
  end.

Definition decode_message (msg : json) : list IrItem :=
  if String.eqb (unwrap_or (get_str msg "role") "user") "assistant"
  then decode_assistant (get msg "content") else decode_user (get msg "content").

Definition decode_system (system : option json) : list IrItem :=
  match system with
  | Some (JStr text) => [ISystem text None []]
  | Some (JArr l) =>
      omap (fun block => (fun text => ISystem text None []) <$> nonempty (get_str block "text")) l
  | _ => []
  end.

(** ** Sampling *)

(** [thinking] of a type the IR keeps as it is. *)
Definition native_thinking_kind (kind : string) : bool := one_of (trim kind) ["adaptive"; "between_tools"].

Definition messages_native_thinking (value : json) : option json :=
  thinking ← get value "thinking"; kind ← get_str thinking "type";
  if native_thinking_kind kind then Some thinking else None.

Definition decode_output_config_schema (value : json) : option json * option string :=
  match pointer value [Key "output_config"; Key "format"] with
  | None => (None, None)
  | Some format =>
      if bool_decide (get_str format "type" = Some "json_schema") then
        match opt_filter is_object (get format "schema") with
        | Some schema => (Some schema, Some "response")
        | None => (None, None)
        end
      else (None, None)
  end.

Definition decode_thinking (value : json) : noted (option bool * option Z) :=
  match get value "thinking" with
  | None => quiet (None, None)
  | Some thinking =>
      let unknown := let! _ := note "sampling.thinking" Drop "unknown thinking" in quiet (None, None) in
      match trim <$> get_str thinking "type" with
      | Some kind =>
          if String.eqb kind "disabled" then quiet (Some false, None)
          else if String.eqb kind "enabled" then quiet (Some true, u32_field thinking "budget_tokens")
          else if one_of kind ["adaptive"; "between_tools"] then quiet (None, None)
          else unknown
      | None => unknown
      end
  end.

Definition messages_source_has_json_schema (value : json) : bool :=
  is_some (get value "output_format") || is_some (get value "response_format") || is_some (get value "json_schema")
  || bool_decide (pointer_str value [Key "text"; Key "format"; Key "type"] = Some "json_schema")
  || is_some (pointer value [Key "output_config"; Key "format"]).

Definition decode_parallel_tool_calls (value : json) : option bool :=
  match (choice ← opt_filter is_object (get value "tool_choice"); bool_field choice "disable_parallel_tool_use") with
  | Some disable => Some (negb disable)
  | None => bool_field value "parallel_tool_calls"
  end.

Definition decode_tool_choice (value : option json) : IrToolChoice :=
  match value with
  | None => Auto
  | Some (JStr s) => if String.eqb s "none" then NoTool else if one_of s ["any"; "required"] then Required else Auto
  | Some value =>
      let by_name := match str_field value "name" with Some name => Named name | None => Auto end in
      match get_str value "type" with
      | Some t =>
          if String.eqb t "none" then NoTool else if one_of t ["any"; "required"] then Required
          else if String.eqb t "tool" then Named (text_or_empty (str_field value "name")) else by_name
      | None => by_name
      end
  end.

(** The first element that is something. *)
Fixpoint first_some {A} (l : list (option A)) : option A :=
  match l with [] => None | o :: l => opt_or o (first_some l) end.

(** The [ttl] of the first [cache_control], outer objects first. *)
Fixpoint visit_cache (value : json) : option (option string) :=
  match value with
  | JObj m =>
      match obj_get "cache_control" m with
      | Some cc => Some (get_str cc "ttl")
      | None => first_some (map (fun kv => visit_cache (snd kv)) m)
      end
  | JArr l => first_some (map visit_cache l)
  | _ => None
  end.

Definition cache_from (value : json) : IrCache :=
  match visit_cache value with Some ttl => mkCache true ttl None | None => cache_default end.

(** [str_field(..).map(trim).filter(non-empty)] *)
Definition trimmed_field (value : json) (key : string) : option string := trimmed (str_field value key).

Definition decode_sampling (value : json) : noted IrSampling :=
  let '(json_schema, json_schema_name) := decode_output_config_schema value in
  let! _ := no_slot_if (messages_source_has_json_schema value && is_none json_schema) "sampling.json_schema" in
  let! thinking := decode_thinking value in
  quiet
  {| sp_temperature := f32_field value "temperature";
     sp_top_p := f32_field value "top_p";
     sp_top_k := u32_field value "top_k";
     sp_max_tokens := u32_field value "max_tokens";
     sp_stop := stop_values value ["stop_sequences"; "stop"];
     sp_tool_choice := decode_tool_choice (get value "tool_choice");
     sp_parallel_tool_calls := decode_parallel_tool_calls value;
     sp_store := bool_field value "store";
     sp_previous_response_id := str_field value "previous_response_id";
     sp_cache := cache_from value; (* [decode] assigns it after the rest *)
     sp_stream := bool_field value "stream";
     sp_include_thoughts := thinking.1;
     sp_thinking_budget := None;
     sp_reasoning_effort := trimmed (pointer_str value [Key "output_config"; Key "effort"]);
     sp_max_reasoning_tokens := thinking.2;
     sp_json_schema := json_schema;
     sp_json_schema_name := json_schema_name;
     sp_json_schema_description := None;
     sp_json_schema_strict := None;
     sp_json_object := None;
     sp_include := [];
     sp_prompt_cache_key := None;
     sp_prompt_cache_retention := None;
     sp_prompt_cache_mode := None;
     sp_prompt_cache_ttl := None;
     sp_top_logprobs := None;
     sp_moderation_model := None;
     sp_moderation_input := None;
     sp_moderation_output := None;
     sp_include_obfuscation := None;
     sp_user := trimmed (pointer_str value [Key "metadata"; Key "user_id"]);
     sp_verbosity := None;
     sp_safety_identifier := None;
     sp_metadata := [];
     sp_frequency_penalty := None;
     sp_presence_penalty := None;
     sp_seed := None;
     sp_n := None;
     sp_service_tier := trimmed_field value "service_tier";
     sp_output_modalities := [];
     sp_audio_voice := None;
     sp_audio_format := None;
     sp_logprobs := None;
     sp_logit_bias := [];
     sp_prediction := None;
     sp_web_search_options := None;
     sp_inference_geo := trimmed_field value "inference_geo";
     sp_performance_latency := None;
     sp_previous_message_id := trimmed (pointer_str value [Key "diagnostics"; Key "previous_message_id"]);
     sp_response_field_paths := [];
     sp_additional_request_fields := None;
     sp_prompt_variables := None;
     sp_guardrail := None;
     sp_container := opt_filter (fun c => is_string c || is_object c) (get value "container");
     sp_context_management := object_field value "context_management";
     sp_mcp_servers := opt_filter is_array (get value "mcp_servers");
     sp_media_resolution := None;
     sp_image_config := None;
     sp_audio_transcription_config := None;
     sp_translation_config := None;
     sp_affective_dialog := None;
     sp_enhanced_civic_answers := None;
     sp_multi_speaker_speech := None;
     sp_cached_content := None;
     sp_safety_settings := None;
     sp_request_labels := None;
     sp_truncation := None;
     sp_max_tool_calls := None;
     sp_background := None;
     sp_conversation := None;
     sp_responses_context_management := None;
     sp_messages_thinking := messages_native_thinking value |}.

Definition decode (value : json) : result MapError (IrRequest * LossReport) :=
  let items :=
    decode_system (get value "system") ++ concat (map decode_message (unwrap_or (get_array value "messages") [])) in
  let '(sampling, events) := decode_sampling value in
  Ok (mkRequest (text_or_empty (str_field value "model")) items
        (map decode_tool (unwrap_or (get_array value "tools") [])) sampling,
      mkReport events).
End Decode.
