(* ===== verification/MessagesEncode.v ===== *)
(** * MessagesEncode: the turns of a Messages request

    The part of [encode] of [W/map/messages.rs] that writes [system] and
    [messages]: the parts of an item become content blocks, a user item takes
    the tool results after it into its turn and an assistant item the calls
    and reasoning after it, and the ids of calls and results are rewritten
    together (ToolIds).  The [&mut HashMap] is a map that goes in and comes
    out; the loop over the items goes by the items left, with their index. *)
From stdpp Require Import gmap pretty.
From S2P Require Import Prelude Text Json Floats Ir ProfileTypes StreamCore Usage Shapes Chat Loss RequestCore.
From S2P Require Import ToolIds.

(** ** Blocks *)
Definition plain_text_block (text : string) : json := jobj [("type", JStr "text"); ("text", JStr text)].

Definition ephemeral_cache_control (ttl : option string) : json :=
  put "ttl" (JStr <$> ttl) (jobj [("type", JStr "ephemeral")]).

Definition text_block (text : string) (cache : bool) (retention : option string) : json :=
  put "cache_control" (if cache then Some (ephemeral_cache_control retention) else None) (plain_text_block text).

Definition base64_image (media_type data : string) : json :=
  jobj [("type", JStr "image");
        ("source", jobj [("type", JStr "base64"); ("media_type", JStr media_type); ("data", JStr data)])].

Definition or_media (media_type default : string) : json :=
  JStr (if is_empty media_type then default else media_type).

Definition document_source_json (source : IrDocumentSource) (media_type : string) : json :=
  match source with
  | SrcBase64 data =>
      jobj [("type", JStr "base64"); ("media_type", or_media media_type "application/pdf"); ("data", JStr data)]
  | SrcText data =>
      jobj [("type", JStr "text"); ("media_type", or_media media_type "text/plain"); ("data", JStr data)]
  | SrcUrl url | SrcS3 url _ => jobj [("type", JStr "url"); ("url", JStr url)]
  | SrcFileId id => jobj [("type", JStr "file"); ("file_id", JStr id)]
  end.

Definition encode_document (source : IrDocumentSource) (media_type : string) (name : option string) : json :=
  index_set (put "title" (JStr <$> trimmed name) (jobj [("type", JStr "document")])) "source"
    (document_source_json source media_type).

(** A part without a slot is noted and left out. *)
Definition left_out (path detail : string) : noted (option json) := let! _ := note path Drop detail in quiet None.

Definition encode_image_url (url : string) (detail file_id : option string) : noted (option json) :=
  if blank url then
    if is_some_and file_id (fun id => negb (blank id)) then left_out "part.image.file_id" "no slot"
    else left_out "part.image" "image url is empty"
  else
    let! without_url := drop_image_file_id_without_url url file_id in
    if without_url then quiet None
    else
      let! _ := note_dropped_image_detail detail "messages" in
      match split_data_url url with
      | Some (media_type, data) =>
          if blank data then left_out "part.image" "image data is empty"
          else quiet (Some (base64_image media_type data))
      | None => quiet (Some (jobj [("type", JStr "image"); ("source", jobj [("type", JStr "url"); ("url", JStr url)])]))
      end.

(** Documents the wire takes, and why the others are left out. *)
Definition document_refused (source : IrDocumentSource) : option string :=
  match source with
  | SrcBase64 data => if blank data then Some "document data is empty" else None
  | SrcFileId id => if blank id then Some "file id is empty" else None
  | SrcS3 _ _ => Some "S3 document has no Messages slot"
  | _ => None
  end.

(** Every part but the raw ones and breakpoints. *)
Definition encode_plain_part (part : IrPart) : noted (option json) :=
  match part with
  | PText text => quiet (if blank text then None else Some (plain_text_block text))
  | PImageUrl url detail _ file_id => encode_image_url url detail file_id
  | PImageBase64 media_type data =>
      if blank data then left_out "part.image" "image data is empty" else quiet (Some (base64_image media_type data))
  | PDocument source media_type name citations_enabled context =>
      match document_refused source with
      | Some detail => left_out "part.document" detail
      | None =>
          let value := encode_document source media_type name in
          let value := put "citations" ((fun on => jobj [("enabled", JBool on)]) <$> citations_enabled) value in
          quiet (Some (put "context" (JStr <$> trimmed context) value))
      end
  | PAudio _ _ => left_out "part.audio" "audio has no Messages slot"
  | PThinking text signature =>
      match nonempty signature with
      | None => left_out "part.thinking" "unsigned thinking is not replayed"
      | Some sig =>
          quiet (Some (jobj [("type", JStr "thinking"); ("thinking", JStr text); ("signature", JStr sig)]))
      end
  | PRaw _ _ | PPromptCacheBreakpoint _ _ => quiet None
  end.

Definition encode_raw_part (part : IrPart) (raw : json) : noted (option json) :=
  match plain_media_part part with
  | Some plain => let! _ := note "part.media_hint" Drop "no slot" in encode_plain_part plain
  | None =>
      match function_response_image part with
      | Some (media_type, data) => quiet (Some (base64_image media_type data))
      | None =>
          if messages_raw_passthrough raw then quiet (Some raw)
          else left_out (off_dialect_raw_path raw) "raw part is not Messages-shaped"
      end
  end.

Fixpoint encode_part (part : IrPart) : noted (option json) :=
  match part with
  | PPromptCacheBreakpoint mode inner =>
      let! encoded := encode_part inner in
      match encoded with
      | Some value => let! value := apply_prompt_cache value (Some mode) false in quiet (Some value)
      | None => let! _ := apply_prompt_cache JNull (Some mode) false in quiet None
      end
  | PRaw _ raw => encode_raw_part part raw
  | _ => encode_plain_part part
  end.

(** The placeholder of a turn that would have no content. *)
Definition placeholder (path : string) : noted json :=
  let! _ := note path Degrade "empty content became '.'" in quiet (plain_text_block ".").

Definition encode_user_parts (parts : list IrPart) (path : string) : noted (list json) :=
  let! out := nfilter_map encode_part parts in
  match out with [] => let! dot := placeholder path in quiet [dot] | _ => quiet out end.

Definition encode_assistant_parts (parts : list IrPart) : noted (list json) := nfilter_map encode_part parts.

Definition reasoning_block (encrypted summary : option string) (raw : option json) : option json :=
  match opt_filter (fun raw => bool_decide (get_str raw "type" = Some "thinking")) raw with
  | Some raw => Some raw
  | None =>
      text ← opt_or summary (raw ← raw; str_field raw "summary");
      Some (put "signature" (JStr <$> encrypted) (jobj [("type", JStr "thinking"); ("thinking", JStr text)]))
  end.

Definition note_reasoning (path : string) (block : option json) : noted unit :=
  if is_some block then note path Preserve "reasoning as thinking"
  else note path Degrade "reasoning omitted (no thinking)".

(** ** Calls and results *)
Section Encode.
Context {SJ : SerdeJson}.

(** [json_object_or_raw], with the event it records. *)
Definition object_or_raw (raw_text path detail wrap_key : string) : noted json :=
  let '(value, degraded) := json_object_or_wrapped raw_text wrap_key in
  let! _ := note_if degraded path Degrade detail in quiet value.

Definition tool_use_block (call_id name arguments path : string) (ids : tool_ids) : noted (json * tool_ids) :=
  let! (id, ids) := rewrite_messages_tool_use_id call_id path ids in
  let! input := object_or_raw arguments path "tool arguments are not a JSON object" "raw" in
  quiet (jobj [("type", JStr "tool_use"); ("id", JStr id); ("name", JStr name); ("input", input)], ids).

Definition is_json_raw (part : IrPart) : option json :=
  match part with PRaw type_name raw => if String.eqb type_name "json" then Some raw else None | _ => None end.

(** A JSON payload stands as text where the parts keep their order. *)
Definition json_payload (ordered_text : bool) (raw : json) : option json :=
  if ordered_text then Some (plain_text_block (to_string raw)) else None.

Definition tool_result_part (ordered_text : bool) (part : IrPart) : noted (option json) :=
  match part with
  | PText text =>
      quiet (if ordered_text && negb (is_empty text) then Some (plain_text_block text) else None)
  | PPromptCacheBreakpoint _ _ =>
      match is_json_raw (peel_prompt_cache_all part).1 with
      | Some raw => let! _ := drop_prompt_cache_modes part in quiet (json_payload ordered_text raw)
      | None => encode_part part
      end
  | _ => match is_json_raw part with Some raw => quiet (json_payload ordered_text raw) | None => encode_part part end
  end.

Definition tool_result_block (call_id output : string) (parts : list IrPart) (is_error : bool) (path : string)
    (ids : tool_ids) : noted (json * tool_ids) :=
  let! (id, ids) := rewrite_messages_tool_use_id call_id path ids in
  let value := jobj [("type", JStr "tool_result"); ("tool_use_id", JStr id)] in
  let value := put "is_error" (if is_error then Some (JBool true) else None) value in
  let ordered_text := existsb nonempty_text parts in
  let text := if ordered_text then "" else function_output_text output parts in
  match parts with
  | [] => quiet (index_set value "content" (JStr text), ids)
  | _ =>
      let! rest := nfilter_map (tool_result_part ordered_text) parts in
      let content := (if is_empty text then [] else [plain_text_block text]) ++ rest in
      quiet (index_set value "content" (match content with [] => JStr output | _ => JArr content end), ids)
  end.

(** ** Turns *)
Definition turn (role : string) (content : list json) : json := jobj [("role", JStr role); ("content", JArr content)].

(** What an item took with it: blocks, the next index, the items left. *)
Record Taken := mkTaken { tk_blocks : list json; tk_next : nat; tk_rest : list IrItem; tk_ids : tool_ids }.

Definition more_blocks (blocks : list json) (t : Taken) : Taken :=
  mkTaken (blocks ++ tk_blocks t) (tk_next t) (tk_rest t) (tk_ids t).

(** The tool results after a user item. *)
Fixpoint take_results (idx : nat) (items : list IrItem) (ids : tool_ids) : noted Taken :=
  match items with
  | IFunctionOutput call_id output parts is_error :: items =>
      let! (result, ids) := tool_result_block call_id output parts is_error (item_path idx) ids in
      let! taken := take_results (S idx) items ids in
      quiet (more_blocks [result] taken)
  | _ => quiet (mkTaken [] idx items ids)
  end.

Definition note_thought_signature (idx : nat) (thought_signature : option string) : noted unit :=
  note_if (is_some thought_signature) (item_path idx) Drop "thoughtSignature has no Messages slot".

(** The calls and the reasoning after an assistant item. *)
Fixpoint take_calls (idx : nat) (items : list IrItem) (ids : tool_ids) : noted Taken :=
  match items with
  | IFunctionCall call_id name arguments thought_signature :: items =>
      let! _ := note_thought_signature idx thought_signature in
      let! (call, ids) := tool_use_block call_id name arguments (item_path idx) ids in
      let! taken := take_calls (S idx) items ids in
      quiet (more_blocks [call] taken)
  | ICustomToolCall call_id name input _ :: items =>
      let! (call, ids) := tool_use_block call_id name input (item_path idx) ids in
      let! taken := take_calls (S idx) items ids in
      quiet (more_blocks [call] taken)
  | IReasoning encrypted summary raw :: items =>
      let thinking := reasoning_block encrypted summary raw in
      let! _ := note_reasoning (item_path idx) thinking in
      let! taken := take_calls (S idx) items ids in
      quiet (more_blocks (option_list thinking) taken)
  | _ => quiet (mkTaken [] idx items ids)
  end.

(** [items] starts after the user item, whose index is [start]. *)
Definition encode_user (start : nat) (parts : list IrPart) (items : list IrItem) (ids : tool_ids) :
  noted (json * Taken) :=
  let! content := encode_user_parts parts (item_path start) in
  let! taken := take_results (S start) items ids in
  quiet (turn "user" (content ++ tk_blocks taken), taken).

Definition encode_assistant (start : nat) (parts : list IrPart) (items : list IrItem) (ids : tool_ids) :
  noted (json * Taken) :=
  let! content := encode_assistant_parts parts in
  let! taken := take_calls (S start) items ids in
  match content ++ tk_blocks taken with
  | [] => let! dot := placeholder (item_path start) in quiet (turn "assistant" [dot], taken)
  | content => quiet (turn "assistant" content, taken)
  end.

(** Two turns of one role the encoder can join. *)
Definition joinable (last msg : json) : option (list json * list json) :=
  role ← get_str last "role";
  if one_of role ["user"; "assistant"] && bool_decide (get_str msg "role" = Some role) then
    dst ← get_array last "content"; src ← get_array msg "content"; Some (dst, src)
  else None.

(** [last] is [messages.last_mut()]. *)
Definition push_alternating_message (messages : list json) (msg : json) (idx : nat) : noted (list json) :=
  match rev messages with
  | last :: before =>
      match joinable last msg with
      | Some (dst, src) =>
          let! _ := note (item_path idx) Degrade "consecutive turns with the same role were joined" in
          quiet (rev before ++ [index_set last "content" (JArr (dst ++ src))])
      | None => quiet (messages ++ [msg])
      end
  | [] => quiet (messages ++ [msg])
  end.

(** ** The loop *)
Record Turns := mkTurns { tn_system : list json; tn_messages : list json; tn_ids : tool_ids }.

Definition push_system (value : json) (t : Turns) : Turns := mkTurns (tn_system t ++ [value]) (tn_messages t) (tn_ids t).
Definition push_messages (l : list json) (t : Turns) : Turns := mkTurns (tn_system t) (tn_messages t ++ l) (tn_ids t).
Definition with_ids (ids : tool_ids) (t : Turns) : Turns := mkTurns (tn_system t) (tn_messages t) ids.

Definition note_role (mode : option string) (content_parts : list IrPart) : noted unit :=
  let! _ := note_role_breakpoint mode in
  note_role_breakpoint (match content_parts with [] => None | _ => Some "explicit" end).

(** System text goes to its own field, wherever it stood. *)
Definition encode_role (text : string) (mode : option string) (content_parts : list IrPart) (c : noted unit)
    (t : Turns) : noted Turns :=
  let! _ := note_role mode content_parts in
  let! _ := c in
  let! text := system_role_text text content_parts in
  quiet (push_system (text_block text false None) t).

(** Items that take no other item with them. *)
Definition encode_item (idx : nat) (item : IrItem) (t : Turns) : noted Turns :=
  let path := item_path idx in
  match item with
  | ISystem text mode content_parts =>
      encode_role text mode content_parts
        (note_if (negb (bool_decide (tn_messages t = []))) path Degrade "system message moved out of the turn list") t
  | ISystemCache _ => let! _ := note path Drop "system cache point has no slot" in quiet t
  | ISystemGuard _ => let! _ := note path Drop "system guard content has no slot" in quiet t
  | IDeveloper text mode content_parts =>
      encode_role text mode content_parts (note path Degrade "developer to system") t
  | IFunctionCall call_id name arguments thought_signature =>
      let! _ := note_thought_signature idx thought_signature in
      let! (call, ids) := tool_use_block call_id name arguments path (tn_ids t) in
      quiet (push_messages [turn "assistant" [call]] (with_ids ids t))
  | ICustomToolCall call_id name input _ =>
      let! (call, ids) := tool_use_block call_id name input path (tn_ids t) in
      quiet (push_messages [turn "assistant" [call]] (with_ids ids t))
  | IFunctionOutput call_id output parts is_error =>
      let! (result, ids) := tool_result_block call_id output parts is_error path (tn_ids t) in
      quiet (push_messages [turn "user" [result]] (with_ids ids t))
  | IReasoning encrypted summary raw =>
      let thinking := reasoning_block encrypted summary raw in
      let! _ := note_reasoning path thinking in
      quiet (push_messages (match thinking with Some b => [turn "assistant" [b]] | None => [] end) t)
  | IHostedToolCall kind raw =>
      let! _ := note path Preserve ("hosted item `" +:+ kind +:+ "` passthrough") in
      quiet (push_messages [raw] t)
  | IUnknown type_name raw =>
      if one_of type_name ["toolAddition"; "toolRemoval"]
      then let! _ := note path Drop "tool addition or removal has no slot" in quiet t
      else quiet (push_messages [raw] t)
  | IUser _ | IAssistant _ _ => quiet t
  end.

(** [fuel] is the number of items; each round takes at least one. *)
Fixpoint encode_loop (fuel : nat) (idx : nat) (items : list IrItem) (t : Turns) : noted Turns :=
  match fuel, items with
  | S fuel, IUser parts :: items =>
      let! (msg, taken) := encode_user idx parts items (tn_ids t) in
      let! messages := push_alternating_message (tn_messages t) msg idx in
      encode_loop fuel (tk_next taken) (tk_rest taken) (mkTurns (tn_system t) messages (tk_ids taken))
  | S fuel, IAssistant parts phase :: items =>
      let! _ := drop_assistant_phase phase (item_path idx +:+ ".phase") in
      let! (msg, taken) := encode_assistant idx parts items (tn_ids t) in
      encode_loop fuel (tk_next taken) (tk_rest taken) (push_messages [msg] (with_ids (tk_ids taken) t))
  | S fuel, item :: items =>
      let! t := encode_item idx item t in
      encode_loop fuel (S idx) items t
  | _, _ => quiet t
  end.

Definition messages_need_continue (ir : IrRequest) : bool :=
  match last (items ir) with
  | Some (IAssistant _ _ | IFunctionCall _ _ _ _ | ICustomToolCall _ _ _ _) => true
  | _ => false
  end.

Definition system_field (blocks : list json) : option json :=
  match blocks with
  | [] => None
  | [one] => if is_none (get one "cache_control") then Some (unwrap_or (get one "text") (JArr blocks)) else Some (JArr blocks)
  | _ => Some (JArr blocks)
  end.

Definition encode_items (ir : IrRequest) : noted (option json * list json) :=
  let! t := encode_loop (length (items ir)) 0 (items ir) (mkTurns [] [] ∅) in
  let continue := if messages_need_continue ir then [turn "user" [text_block "Continue." false None]] else [] in
  quiet (system_field (tn_system t), tn_messages t ++ continue).
End Encode.
