(* ===== verification/MessagesSampling.v ===== *)
(** * MessagesSampling: sampling fields of a Messages request

    [encode_sampling] of [W/map/messages.rs] and what it calls: the fields the
    dialect has are assigned, the others noted; thinking takes over
    [max_tokens], the temperatures and the tool choice; a model that rejects a
    forced tool gets [auto], which [restore_same_wire_messages_tool_choice]
    takes back when the client speaks the same dialect. *)
From S2P Require Import Prelude Text Json Floats Ir ProfileTypes StreamCore Usage Shapes Chat Loss RequestCore.
From S2P Require Import Schema Tools MessagesRequest.

(** ** Tools *)
Definition encode_tool (tool : PreparedTool) : json :=
  match tool with
  | PtFunction name description parameters strict =>
      let schema := normalize_object_schema_required parameters in
      let schema := if bool_decide (strict = Some true) then strict_object_schema schema else schema in
      jobj [("name", JStr name); ("description", JStr description); ("input_schema", schema)]
  | PtRaw raw => put "input_schema" (normalize_object_schema_required <$> get raw "input_schema") raw
  end.

(** ** Tool choice *)
Definition choice_of (kind : string) : json := jobj [("type", JStr kind)].

Definition encode_tool_choice (choice : IrToolChoice) : step := fun body =>
  quiet
    match choice with
    | Auto => body
    | NoTool => index_set body "tool_choice" (choice_of "none")
    | Required => index_set body "tool_choice" (choice_of "any")
    | Named name => index_set body "tool_choice" (jobj [("type", JStr "tool"); ("name", JStr name)])
    end.

Definition encode_disable_parallel_tool_use (parallel : option bool) : step := fun body =>
  let choice := object_field body "tool_choice" in
  let set choice disable := index_set body "tool_choice" (index_set choice "disable_parallel_tool_use" (JBool disable)) in
  let kept := preserve "parallel_tool_calls" "messages disable_parallel_tool_use" in
  match parallel, choice with
  | None, _ | Some true, None => quiet body
  | Some true, Some choice => let! _ := kept in quiet (set choice false)
  | Some false, choice => let! _ := kept in quiet (set (unwrap_or choice (choice_of "auto")) true)
  end.

Definition remove_key (k : string) (value : json) : json :=
  match value with JObj m => JObj (List.filter (fun kv => negb (String.eqb kv.1 k)) m) | _ => value end.

Lemma get_remove_key k v k' : get (remove_key k v) k' = if String.eqb k' k then None else get v k'.
Proof.
  destruct v as [| | | | |m]; try (cbn; by destruct (String.eqb k' k)). cbn [remove_key get].
  induction m as [|[k2 v2] m IH]; cbn [List.filter fst obj_get]; [by destruct (String.eqb k' k)|].
  destruct (String.eqb_spec k2 k) as [->|N]; cbn [negb obj_get].
  - rewrite IH. by destruct (String.eqb k' k).
  - rewrite IH. destruct (String.eqb k' k) eqn:E; [|done]. apply String.eqb_eq in E. by rewrite str_eqb_neq by congruence.
Qed.

Lemma is_object_remove_key k v : is_object (remove_key k v) = is_object v.
Proof. by destruct v. Qed.

(** [choice.insert("type", "auto"); choice.remove("name")] *)
Definition choice_auto (choice : json) : json := remove_key "name" (index_set choice "type" (JStr "auto")).

(** ** Service tier *)
Definition messages_service_tier (tier : string) : option (string * option string) :=
  let lower := to_ascii_lowercase (trim tier) in
  if one_of lower ["auto"; "standard_only"] then Some (lower, None)
  else if String.eqb lower "default" then Some ("standard_only", Some "default maps to standard_only")
  else if String.eqb lower "standard" then Some ("standard_only", Some "standard maps to standard_only")
  else None.

Definition encode_service_tier (tier : option string) : step := fun body =>
  match trimmed tier with
  | None => quiet body
  | Some tier =>
      if eq_ignore_ascii_case tier "unspecified" then quiet body
      else
        match messages_service_tier tier with
        | Some (mapped, degrade) =>
            let! _ := match degrade with
                      | Some detail => note "sampling.service_tier" Degrade detail
                      | None => quiet tt
                      end in
            quiet (index_set body "service_tier" (JStr mapped))
        | None => let! _ := note "sampling.service_tier" Drop "unmapped service_tier" in quiet body
        end
  end.

(** ** Thinking *)
Definition MESSAGES_DEFAULT_COMPLETION_TOKENS : Z := 4096.
Definition MESSAGES_DEFAULT_THINKING_BUDGET : Z := 10240.

Definition messages_effort_budget (effort : string) : Z :=
  let effort := to_ascii_lowercase (trim effort) in
  if String.eqb effort "low" then 4096
  else if String.eqb effort "high" then 32768
  else if one_of effort ["xhigh"; "x-high"] then 65536
  else MESSAGES_DEFAULT_THINKING_BUDGET.

(** The object of a client that asked for [adaptive] or [between_tools]. *)
Definition native_thinking (s : IrSampling) : option json :=
  opt_filter (fun thinking => is_some_and (get_str thinking "type") native_thinking_kind) (sp_messages_thinking s).

(** [.filter(|effort| !effort.trim().is_empty())] *)
Definition thinking_effort (s : IrSampling) : option string := not_blank (sp_reasoning_effort s).
Definition thinking_off (s : IrSampling) : bool := bool_decide (sp_include_thoughts s = Some false).

Definition drop_if (b : bool) (key detail : string) : noted unit := note_if b ("sampling." +:+ key) Drop detail.
Definition preserve_if (b : bool) (key detail : string) : noted unit := note_if b ("sampling." +:+ key) Preserve detail.

Definition note_native_thinking (s : IrSampling) : noted unit :=
  note_all
    [ preserve "messages_thinking" "messages thinking";
      drop_if (is_some (sp_include_thoughts s)) "include_thoughts" "native thinking object";
      drop_if (is_some (sp_max_reasoning_tokens s)) "max_reasoning_tokens" "native thinking object";
      drop_if (is_some (sp_thinking_budget s)) "thinking_budget" "native thinking object";
      (if is_some (thinking_effort s) then
         if thinking_off s then note "sampling.reasoning_effort" Drop "thinking disabled"
         else preserve "reasoning_effort" "messages output_config.effort"
       else quiet tt) ].

Definition note_thinking_disabled (s : IrSampling) : noted unit :=
  note_all
    [ preserve "include_thoughts" "messages thinking";
      drop_if (is_some (thinking_effort s)) "reasoning_effort" "thinking disabled";
      drop_if (is_some (sp_max_reasoning_tokens s)) "max_reasoning_tokens" "thinking disabled";
      drop_if (is_some (sp_thinking_budget s)) "thinking_budget" "thinking disabled" ].

Definition want_thinking (s : IrSampling) : bool :=
  bool_decide (sp_include_thoughts s = Some true) || is_some (thinking_effort s)
  || is_some (sp_max_reasoning_tokens s) || is_some (sp_thinking_budget s).

Definition budget_of (s : IrSampling) : Z :=
  unwrap_or (opt_or (sp_max_reasoning_tokens s) (sp_thinking_budget s))
    (match thinking_effort s with
     | Some effort => messages_effort_budget effort
     | None => MESSAGES_DEFAULT_THINKING_BUDGET
     end).

Definition note_thinking_enabled (s : IrSampling) : noted unit :=
  note_all
    [ preserve_if (bool_decide (sp_include_thoughts s = Some true)) "include_thoughts" "messages thinking";
      (if is_some (sp_max_reasoning_tokens s) then
         note_all
           [ preserve "max_reasoning_tokens" "messages thinking.budget_tokens";
             note_if (is_some_and (sp_thinking_budget s) (fun n => negb (n =? budget_of s))) "sampling.thinking_budget"
               Degrade "max_reasoning_tokens wins budget_tokens" ]
       else preserve_if (is_some (sp_thinking_budget s)) "thinking_budget" "messages thinking.budget_tokens");
      preserve_if (is_some (thinking_effort s)) "reasoning_effort" "messages thinking" ].

(** [max_tokens] must exceed the budget; [as u32] keeps the low 32 bits. *)
Definition raise_max_tokens (budget : Z) : step := fun body =>
  let current := unwrap_or (get_u64 body "max_tokens") 0 mod 2 ^ 32 in
  if current <=? budget then
    let! _ := note "sampling.max_tokens" Degrade "raised above thinking.budget_tokens" in
    quiet (index_set body "max_tokens" (jint (u32_saturating_add budget MESSAGES_DEFAULT_COMPLETION_TOKENS)))
  else quiet body.

Definition encode_thinking (s : IrSampling) : step := fun body =>
  match native_thinking s with
  | Some native => let! _ := note_native_thinking s in quiet (index_set body "thinking" native)
  | None =>
      let! _ := note_if (is_some (sp_messages_thinking s)) "sampling.messages_thinking" Drop
                  "not adaptive or between_tools" in
      if thinking_off s then
        let! _ := note_thinking_disabled s in quiet (index_set body "thinking" (choice_of "disabled"))
      else if negb (want_thinking s) then quiet body
      else
        let! _ := note_thinking_enabled s in
        raise_max_tokens (budget_of s)
          (index_set body "thinking" (jobj [("type", JStr "enabled"); ("budget_tokens", jint (budget_of s))]))
  end.

(** A field thinking does not allow. *)
Definition omit_when {A} (o : option A) (key : string) : step := fun body =>
  if is_some o then let! _ := note ("sampling." +:+ key) Drop ("thinking omits " +:+ key) in quiet (remove_key key body)
  else quiet body.

Definition auto_when_thinking (choice : IrToolChoice) : step := fun body =>
  match choice with
  | Required | Named _ =>
      let! _ := note "sampling.tool_choice" Degrade "thinking forces tool_choice auto" in
      quiet (index_set body "tool_choice"
               (match object_field body "tool_choice" with Some c => choice_auto c | None => choice_of "auto" end))
  | Auto | NoTool => quiet body
  end.

Definition omit_sampling_rejected_by_thinking (s : IrSampling) : step := fun body =>
  if bool_decide (pointer_str body [Key "thinking"; Key "type"] = Some "enabled") then
    steps [ omit_when (sp_temperature s) "temperature"; omit_when (sp_top_p s) "top_p"; omit_when (sp_top_k s) "top_k";
            auto_when_thinking (sp_tool_choice s) ] body
  else quiet body.

(** ** Models that reject a forced tool *)
Definition MODEL_FORCES_TOOL_CHOICE_AUTO : string := "model forces tool_choice auto".

Definition FORCED_TOOL_REJECTING_FAMILIES : list string :=
  ["claude-opus-5-5"; "claude-sonnet-5-5"; "claude-fable-5-1"; "claude-mythos-5-1"].

(** One [anthropic.] marker, or one region label in front of it. *)
Definition anthropic_provider_rest (id : string) : option string :=
  '(prefix, rest) ← split_once_str "anthropic." id;
  if is_empty prefix then Some rest
  else
    region ← strip_suffix "." prefix;
    if is_empty region || contains_char "." region then None else Some rest.

Definition messages_model_stem (model : string) : string :=
  let id := to_ascii_lowercase (trim (openai_model_leaf model)) in
  let id := unwrap_or (anthropic_provider_rest id) id in
  match split_once "@" id with Some (stem, _) => trim stem | None => id end.

Definition rejects_forced_tool_choice (model : string) : bool :=
  let stem := messages_model_stem model in existsb (model_or_variant stem) FORCED_TOOL_REJECTING_FAMILIES.

Definition forced_kind (kind : option string) : bool := is_some_and kind (fun k => one_of k ["tool"; "any"]).

Definition omit_forced_tool_choice_rejected_by_model (model : string) : step := fun body =>
  if rejects_forced_tool_choice model && forced_kind (pointer_str body [Key "tool_choice"; Key "type"]) then
    let! _ := note "sampling.tool_choice" Degrade MODEL_FORCES_TOOL_CHOICE_AUTO in
    quiet (put "tool_choice" (choice_auto <$> object_field body "tool_choice") body)
  else quiet body.

(** Whether the body may be written back, and the body. *)
Definition put_back_forced_tool_choice (choice : IrToolChoice) (value : json) : bool * json :=
  match object_field value "tool_choice" with
  | None => (true, value)
  | Some obj =>
      if negb (bool_decide (get_str obj "type" = Some "auto")) then (true, value)
      else
        match choice with
        | Named name =>
            (true, index_set value "tool_choice" (index_set (index_set obj "type" (JStr "tool")) "name" (JStr name)))
        | Required =>
            (true, index_set value "tool_choice" (remove_key "name" (index_set obj "type" (JStr "any"))))
        | Auto | NoTool => (false, value)
        end
  end.

Definition forced_auto_event (e : LossEvent) : bool :=
  String.eqb (loss_path e) "sampling.tool_choice" && bool_decide (loss_action e = Degrade)
  && String.eqb (loss_detail e) MODEL_FORCES_TOOL_CHOICE_AUTO.

(** [events.remove(events.iter().position(p))] *)
Fixpoint remove_first {A} (p : A -> bool) (l : list A) : list A :=
  match l with [] => [] | a :: l => if p a then l else a :: remove_first p l end.

Definition restore_same_wire_messages_tool_choice `{SerdeJson} (from to : Wire) (ir : IrRequest) (body : list u8)
    (report : list LossEvent) : list u8 * list LossEvent :=
  if wire_eqb from Messages && wire_eqb to Messages && existsb forced_auto_event report then
    match from_slice body with
    | Some value =>
        let '(put_back, value) := put_back_forced_tool_choice (sp_tool_choice (sampling ir)) value in
        if put_back then (bytes_of_str (to_string value), remove_first forced_auto_event report) else (body, report)
    | None => (body, report)
    end
  else (body, report).

(** ** The fields in order *)
Definition encode_output_config (s : IrSampling) : step := fun body =>
  let effort := if thinking_off s then None else trimmed (sp_reasoning_effort s) in
  let out := put "effort" (JStr <$> effort) (JObj []) in
  let! out :=
    match sp_json_schema s with
    | None => quiet out
    | Some schema =>
        if is_object schema then
          let! _ := preserve "json_schema" "messages output_config.format" in
          let! _ := drop_if (is_some (sp_json_schema_name s)) "json_schema_name"
                      "messages output_config.format has no name" in
          quiet (index_set out "format" (jobj [("type", JStr "json_schema"); ("schema", schema)]))
        else let! _ := note "sampling.json_schema" Drop "json_schema requires object schema" in quiet out
    end in
  quiet (match out with JObj [] => body | _ => index_set body "output_config" out end).

Definition encode_stop (s : IrSampling) : step := fun body =>
  let! stop := kept_stop (sp_stop s) in
  quiet (put "stop_sequences" (if_any stop (JArr (map JStr stop))) body).

(** [body["diagnostics"]["previous_message_id"] = ..] *)
Definition encode_previous_message_id (s : IrSampling) : step := fun body =>
  quiet (put "diagnostics"
           ((fun id => index_set (unwrap_or (object_field body "diagnostics") (JObj [])) "previous_message_id" (JStr id))
              <$> sp_previous_message_id s) body).

Definition default_max_tokens : step := fun body =>
  if is_none (get body "max_tokens") then
    let! _ := note "sampling.max_tokens" Degrade "messages requires max_tokens" in
    quiet (index_set body "max_tokens" (jint MESSAGES_DEFAULT_COMPLETION_TOKENS))
  else quiet body.

Definition no_slot_steps (l : list (bool * string)) : step := only_note (note_fields l).

Definition sampling_steps (ir : IrRequest) : list step :=
  let s := sampling ir in
  [ set_when (sp_temperature s) "temperature" json_f32 (quiet tt);
    set_when (sp_top_p s) "top_p" json_f32 (quiet tt);
    set_when (sp_top_k s) "top_k" jint (quiet tt);
    set_when (trimmed (sp_inference_geo s)) "inference_geo" JStr (quiet tt);
    encode_previous_message_id s;
    no_slot_steps
      [ (is_some (sp_performance_latency s), "performance_latency");
        (negb (bool_decide (sp_response_field_paths s = [])), "response_field_paths");
        (is_some (sp_additional_request_fields s), "additional_request_fields");
        (is_some (sp_prompt_variables s), "prompt_variables"); (is_some (sp_guardrail s), "guardrail") ];
    set_when (sp_container s) "container" id (quiet tt);
    set_when (sp_context_management s) "context_management" id (quiet tt);
    only_note (drop_responses_request_fields s);
    set_when (sp_mcp_servers s) "mcp_servers" id (quiet tt);
    set_when (sp_max_tokens s) "max_tokens" jint (quiet tt);
    encode_stop s;
    encode_tool_choice (sp_tool_choice s);
    encode_disable_parallel_tool_use (sp_parallel_tool_calls s);
    no_slot_steps
      [ (is_some (sp_store s), "store"); (is_some (sp_prompt_cache_key s), "prompt_cache_key");
        (is_some (sp_prompt_cache_retention s), "prompt_cache_retention") ];
    only_note (drop_dest_chat_sampling_extras s);
    only_note (drop_dest_top_logprobs s);
    only_note (drop_dest_logprobs s);
    only_note (drop_dest_n_and_penalties s);
    only_note (drop_dest_output_modalities s);
    no_slot_steps
      [ (is_some (sp_verbosity s), "verbosity"); (is_some (sp_safety_identifier s), "safety_identifier");
        (negb (bool_decide (sp_metadata s = [])), "metadata") ];
    encode_service_tier (sp_service_tier s);
    only_note (note_if (is_some (sp_previous_response_id s)) "sampling.previous_response_id" Degrade
      "drop id, rebuild full input");
    set_when (sp_stream s) "stream" JBool (quiet tt);
    encode_thinking s;
    omit_sampling_rejected_by_thinking s;
    omit_forced_tool_choice_rejected_by_model (model ir);
    no_slot_steps
      [ (is_some (sp_json_schema_strict s), "json_schema_strict");
        (is_some (sp_json_schema_description s), "json_schema_description") ];
    default_max_tokens;
    no_slot_steps [ (negb (bool_decide (sp_include s = [])), "include") ];
    encode_output_config s;
    no_slot_steps [ (bool_decide (sp_json_object s = Some true), "json_object") ];
    set_when (trimmed (sp_user s)) "metadata" (fun user => jobj [("user_id", JStr user)]) (quiet tt) ].

Definition encode_sampling (ir : IrRequest) (body : json) : noted json := steps (sampling_steps ir) body.
