(* ===== verification/CacheBreakpoints.v ===== *)
(** * CacheBreakpoints: [cache_control] in a Messages request

    The cache part of [W/map/messages.rs]: the markers of the caller are
    removed and at most two are set, on the last tool, the system text or the
    first user turn, when the request is estimated long enough to be cached.
    Assigning a key of a JSON value that is neither an object nor null panics,
    so the functions that tag a value return an option. *)
From stdpp Require Import gmap pretty.
From S2P Require Import Prelude Text Json JsonCodec Floats Ir ProfileTypes StreamCore Usage Shapes Chat Loss RequestCore.
From S2P Require Import Tools ToolIds MessagesRequest MessagesEncode.

(** ** The estimate *)
Definition MESSAGES_REMOTE_SOURCE_CHARS : Z := 4096.

Definition hinted_inline_prompt_chars (raw : json) : Z :=
  match get raw "inlineData" with
  | None => 0
  | Some inline =>
      let media := unwrap_or (get_str inline "mimeType") "" in
      let data := unwrap_or (get_str inline "data") "" in
      if is_empty data || is_audio_media_type media then 0 else slen data
  end.

Definition hinted_pdf_uri_chars (raw : json) : option Z :=
  file ← get raw "fileData";
  let media := unwrap_or (get_str file "mimeType") "" in
  let uri := unwrap_or (get_str file "fileUri") "" in
  if is_pdf_media_type media && negb (is_empty uri) then Some (Z.max (slen uri) MESSAGES_REMOTE_SOURCE_CHARS) else None.

Definition inline_image_prompt_chars (raw : json) : option Z :=
  inline ← get raw "inlineData"; mime ← get_str inline "mimeType"; data ← get_str inline "data";
  if is_empty data || negb (function_response_mime_allowed mime) then None
  else if starts_with "image/" (to_ascii_lowercase mime) then Some (slen data) else None.

Definition raw_prompt_chars (part : IrPart) : Z :=
  match part with
  | PRaw _ raw =>
      let inline := unwrap_or (inline_image_prompt_chars raw) 0 in
      if part_has_media_hint raw then
        if is_some (get raw "inlineData") then hinted_inline_prompt_chars raw
        else
          match get_str raw "text" with
          | Some text => if blank text then 0 else slen text
          | None => unwrap_or (hinted_pdf_uri_chars raw) inline
          end
      else inline
  | _ => 0
  end.

Definition trimmed_nonempty_len (value : option string) : Z :=
  match trimmed value with Some text => slen text | None => 0 end.

Definition document_written_chars (source : IrDocumentSource) (name context : option string) : Z :=
  match source with
  | SrcBase64 data | SrcText data => slen data
  | SrcUrl data | SrcFileId data | SrcS3 data _ => Z.max (slen data) MESSAGES_REMOTE_SOURCE_CHARS
  end + trimmed_nonempty_len name + trimmed_nonempty_len context.

(** Text the encoder writes into a thinking block. *)
Definition reasoning_prompt_chars (summary : option string) (raw : option json) : Z :=
  let len o := match o with Some text => slen text | None => 0 end in
  match opt_filter (fun raw => bool_decide (get_str raw "type" = Some "thinking")) raw with
  | Some raw => len (get_str raw "thinking")
  | None => match summary with Some text => slen text | None => len (raw ← raw; get_str raw "summary") end
  end.

Definition sumZ (l : list Z) : Z := fold_right Z.add 0 l.

Section Floor.
Context {SJ : SerdeJson}.

Fixpoint messages_part_chars (part : IrPart) : Z :=
  match part with
  | PPromptCacheBreakpoint _ inner => messages_part_chars inner
  | PText text => if blank text then 0 else slen text
  | PImageUrl url _ _ file_id =>
      if image_file_id_without_url url file_id then 0 else Z.max (slen url) MESSAGES_REMOTE_SOURCE_CHARS
  | PImageBase64 _ data => slen data
  | PDocument source _ name _ context => document_written_chars source name context
  | PAudio _ _ => 0
  | PThinking text signature => if is_some (nonempty signature) then slen text else 0
  | PRaw type_name raw => if String.eqb type_name "json" then slen (to_string raw) else raw_prompt_chars part
  end.

Definition parts_chars (parts : list IrPart) : Z := sumZ (map messages_part_chars parts).

Definition item_chars (item : IrItem) : Z :=
  match item with
  | ISystem text _ _ | IDeveloper text _ _ => slen text
  | IUser parts | IAssistant parts _ => parts_chars parts
  | IFunctionCall _ name arguments _ => slen name + slen arguments
  | ICustomToolCall _ name input _ => slen name + slen input
  | IFunctionOutput _ output parts _ => slen output + parts_chars parts
  | IReasoning _ summary raw => reasoning_prompt_chars summary raw
  | ISystemCache _ | ISystemGuard _ | IHostedToolCall _ _ | IUnknown _ _ => 0
  end.

Definition tool_chars (tool : IrTool) : Z :=
  match tool with
  | TFunction name description parameters _ => slen name + slen description + slen (to_string parameters)
  | _ => 0
  end.

(** [(chars / 4) as u32] *)
Definition cache_floor_tokens (req : IrRequest) : Z :=
  ((sumZ (map item_chars (items req)) + sumZ (map tool_chars (tools req))) / 4) mod 2 ^ 32.
End Floor.

(** ** Markers in a value *)
Definition ANTHROPIC_MAX_CACHE_CONTROL_BLOCKS : nat := 4.
Definition ANTHROPIC_PREFERRED_CACHE_CONTROL_BLOCKS : nat := 2.

Fixpoint strip_all_cache_control (value : json) : json :=
  match value with
  | JObj m =>
      JObj (List.filter (fun kv => negb (String.eqb kv.1 "cache_control"))
              (map (fun kv => (fst kv, strip_all_cache_control (snd kv))) m))
  | JArr l => JArr (map strip_all_cache_control l)
  | _ => value
  end.

Definition sum_nat (l : list nat) : nat := fold_right Nat.add 0%nat l.

Fixpoint count_cache_control (value : json) : nat :=
  match value with
  | JObj m =>
      ((if obj_contains "cache_control" m then 1 else 0)
       + sum_nat (map (fun kv => count_cache_control (snd kv)) m))%nat
  | JArr l => sum_nat (map count_cache_control l)
  | _ => 0%nat
  end.

(** [value["cache_control"] = ..]: null becomes an object, others panic. *)
Definition tag (ttl : option string) (value : json) : option json :=
  match value with
  | JNull => Some (jobj [("cache_control", ephemeral_cache_control ttl)])
  | JObj _ => Some (index_set value "cache_control" (ephemeral_cache_control ttl))
  | _ => None
  end.

Definition tag_last (ttl : option string) (l : list json) : option (list json) :=
  match rev l with
  | [] => Some []
  | last :: before => last ← tag ttl last; Some (rev before ++ [last])
  end.

Definition tag_first (ttl : option string) (l : list json) : option (list json) :=
  match l with [] => Some [] | first :: l => first ← tag ttl first; Some (first :: l) end.

Definition tag_last_tool (ttl : option string) (body : json) : option json :=
  match get_array body "tools" with
  | Some tools => tools ← tag_last ttl tools; Some (index_set body "tools" (JArr tools))
  | None => Some body
  end.

(** A text as the block that carries a marker. *)
Definition tagged_text (ttl : option string) (text : string) : json :=
  JArr [jobj [("type", JStr "text"); ("text", JStr text); ("cache_control", ephemeral_cache_control ttl)]].

(** The body, and whether something was tagged. *)
Definition tag_system_slot (ttl : option string) (first : bool) (body : json) : option (json * bool) :=
  match get body "system" with
  | Some (JArr []) => Some (body, false)
  | Some (JArr blocks) =>
      blocks ← (if first then tag_first else tag_last) ttl blocks;
      Some (index_set body "system" (JArr blocks), true)
  | Some (JStr text) => Some (index_set body "system" (tagged_text ttl text), true)
  | Some (JObj obj) =>
      Some (index_set body "system" (JObj (obj_insert "cache_control" (ephemeral_cache_control ttl) obj)), true)
  | _ => Some (body, false)
  end.

Definition tag_first_system (ttl : option string) : json -> option (json * bool) := tag_system_slot ttl true.
Definition tag_last_system (ttl : option string) : json -> option (json * bool) := tag_system_slot ttl false.

Definition nonempty_text_block (part : json) : bool :=
  bool_decide (get_str part "type" = Some "text") && is_some_and (get_str part "text") (fun text => negb (blank text)).

Definition cacheable_user_block (part : json) : bool :=
  is_some_and (get_str part "type") (fun t => one_of t ["image"; "document"; "tool_result"; "tool_use"]).

(** [iter().position(p)], and the same from the back. *)
Fixpoint position {A} (p : A -> bool) (l : list A) : option nat :=
  match l with [] => None | a :: l => if p a then Some 0%nat else S <$> position p l end.

Fixpoint rposition {A} (p : A -> bool) (l : list A) : option nat :=
  match l with
  | [] => None
  | a :: l => match rposition p l with Some i => Some (S i) | None => if p a then Some 0%nat else None end
  end.

Definition is_placeholder (part : json) : bool := bool_decide (get_str part "text" = Some ".").

(** The block a marker goes on: the first text, unless it is the placeholder
    of an empty turn and a block with a payload is there. *)
Definition chosen_block (parts : list json) : option nat :=
  let payload_idx := rposition cacheable_user_block parts in
  match position nonempty_text_block parts with
  | Some idx =>
      if is_some_and (parts !! idx) is_placeholder && is_some payload_idx then payload_idx else Some idx
  | None => payload_idx
  end.

(** [f] on the element at an index. *)
Fixpoint update_at {A} (f : A -> option A) (i : nat) (l : list A) : option (list A) :=
  match l, i with
  | [], _ => None
  | a :: l, O => a ← f a; Some (a :: l)
  | a :: l, S i => l ← update_at f i l; Some (a :: l)
  end.

Definition tag_user_content_blocks (ttl : option string) (parts : list json) : option (list json) :=
  match chosen_block parts with Some idx => update_at (tag ttl) idx parts | None => Some parts end.

Definition is_user_message (m : json) : bool := bool_decide (get_str m "role" = Some "user").

Definition tag_user (ttl : option string) (user : json) : option json :=
  match get user "content" with
  | Some (JArr parts) => parts ← tag_user_content_blocks ttl parts; Some (index_set user "content" (JArr parts))
  | Some (JStr text) => Some (if blank text then user else index_set user "content" (tagged_text ttl text))
  | _ => Some user
  end.

Definition tag_first_user_text (ttl : option string) (body : json) : option json :=
  match get_array body "messages" with
  | Some messages =>
      match position is_user_message messages with
      | Some idx =>
          messages ← update_at (tag_user ttl) idx messages; Some (index_set body "messages" (JArr messages))
      | None => Some body
      end
  | None => Some body
  end.

(** [if !tag_system(body) { tag_first_user_text(body) }] *)
Definition system_or_user (ttl : option string) (body : json) : option json :=
  match tag_first_system ttl body with
  | Some (body, true) => Some body
  | Some (body, false) => tag_first_user_text ttl body
  | None => None
  end.

(** A long [ttl] must stand early: on the tools, then the system text. *)
Definition apply_preferred_cache_breakpoints (ttl : option string) (body : json) : option json :=
  let has_tools := is_some_and (get_array body "tools") (fun l => negb (Nat.eqb (length l) 0)) in
  if is_some ttl then
    if has_tools then body ← tag_last_tool ttl body; system_or_user ttl body
    else
      match tag_first_system ttl body with
      | Some (body, true) => tag_first_user_text ttl body
      | Some (body, false) => tag_first_user_text ttl body
      | None => None
      end
  else
    match tag_last_system ttl body with
    | Some (body, true) => tag_first_user_text ttl body
    | Some (body, false) => system ← tag_first_system ttl body; tag_first_user_text ttl (fst system)
    | None => None
    end.

Definition enforce_cache_control_limit (ttl : option string) (body : json) : option json :=
  if (count_cache_control body <=? ANTHROPIC_PREFERRED_CACHE_CONTROL_BLOCKS)%nat then Some body
  else apply_preferred_cache_breakpoints ttl (strip_all_cache_control body).

(** ** The operation *)
Definition breakpoint_ttl (retention : option string) : option string :=
  match retention with
  | None => None
  | Some r =>
      if one_of r ["1h"; "long"] then Some "1h" else if one_of r ["5m"; "short"] then None else Some r
  end.

Definition caching_asked (cache : IrCache) : bool :=
  enabled cache && negb (bool_decide (retention cache = Some "none")).

Section Apply.
Context {SJ : SerdeJson}.

Definition below_floor (ir : IrRequest) : option Z :=
  opt_filter (fun floor => (0 <? floor) && (cache_floor_tokens ir <? floor)) (min_cacheable_tokens (sp_cache (sampling ir))).

Definition apply_cache_breakpoints (ir : IrRequest) (body : json) : option (noted json) :=
  let cache := sp_cache (sampling ir) in
  if negb (caching_asked cache) then Some (quiet body)
  else
    match below_floor ir with
    | Some floor =>
        Some (let! _ := note "sampling.cache" Drop ("below min_cacheable_tokens floor " +:+ pretty floor) in quiet body)
    | None =>
        let ttl := breakpoint_ttl (retention cache) in
        body ← apply_preferred_cache_breakpoints ttl (strip_all_cache_control body);
        body ← enforce_cache_control_limit ttl body;
        Some (let! _ := if Nat.eqb (count_cache_control body) 0
                        then note "sampling.cache" Drop "no cacheable block"
                        else note "sampling.cache" Preserve "messages cache" in
              quiet body)
    end.
End Apply.

(** ** Counting markers *)
Definition count_members (m : object) : nat := sum_nat (map (fun kv => count_cache_control (snd kv)) m).

Lemma sum_nat_app l k : sum_nat (l ++ k) = (sum_nat l + sum_nat k)%nat.
Proof. unfold sum_nat. induction l as [|n l IH]; cbn [app fold_right]; [done|]. rewrite IH. lia. Qed.

Lemma count_obj m : count_cache_control (JObj m) = ((if obj_contains "cache_control" m then 1 else 0) + count_members m)%nat.
Proof. done. Qed.

Lemma count_arr l : count_cache_control (JArr l) = sum_nat (map count_cache_control l).
Proof. done. Qed.

Lemma count_arr_app l k :
  count_cache_control (JArr (l ++ k)) = (count_cache_control (JArr l) + count_cache_control (JArr k))%nat.
Proof. rewrite !count_arr. rewrite map_app. apply sum_nat_app. Qed.

Lemma count_arr_rev l : count_cache_control (JArr (rev l)) = count_cache_control (JArr l).
Proof.
  induction l as [|v l IH]; [done|]. cbn [rev]. rewrite count_arr_app, IH, !count_arr. unfold sum_nat. cbn [map fold_right]. lia.
Qed.

Lemma count_members_insert k v m : (count_members (obj_insert k v m) <= count_members m + count_cache_control v)%nat.
Proof.
  unfold count_members, sum_nat. induction m as [|[k' v'] m IH]; cbn [obj_insert map fold_right fst snd]; [lia|].
  destruct (String.compare k k'); cbn [map fold_right fst snd]; lia.
Qed.

Lemma obj_contains_insert k k' v m : obj_contains k (obj_insert k' v m) = String.eqb k k' || obj_contains k m.
Proof. unfold obj_contains. rewrite obj_get_insert. by destruct (String.eqb k k'). Qed.

Lemma count_get v k x : get v k = Some x -> (count_cache_control x <= count_cache_control v)%nat.
Proof.
  destruct v as [| | | | |m]; try done. cbn [get]. rewrite count_obj. unfold count_members. intros G.
  enough (count_cache_control x <= sum_nat (map (fun kv => count_cache_control (snd kv)) m))%nat by lia.
  unfold sum_nat in *. induction m as [|[k' v'] m IH]; [done|]. cbn [obj_get] in G. cbn [map fold_right snd].
  destruct (String.eqb k k'); [injection G as ->; lia|].
  specialize (IH G). lia.
Qed.

Lemma count_index_set v k x : k <> "cache_control" ->
  (count_cache_control (index_set v k x) <= count_cache_control v + count_cache_control x)%nat.
Proof.
  intros N. destruct v as [| | | | |m]; try (cbn [index_set]; lia). cbn [index_set]. rewrite !count_obj, obj_contains_insert.
  rewrite (str_eqb_neq "cache_control" k) by congruence. pose proof (count_members_insert k x m). cbn [orb]. lia.
Qed.

Lemma count_ephemeral ttl : count_cache_control (ephemeral_cache_control ttl) = 0%nat.
Proof. by destruct ttl. Qed.

Lemma count_tag ttl v w : tag ttl v = Some w -> (count_cache_control w <= count_cache_control v + 1)%nat.
Proof.
  destruct v as [| | | | |m]; try done; intros [= <-]; [by destruct ttl|]. rewrite !count_obj.
  pose proof (count_members_insert "cache_control" (ephemeral_cache_control ttl) m) as I. rewrite count_ephemeral in I.
  rewrite obj_contains_insert, String.eqb_refl. cbn [orb].
  destruct (obj_contains "cache_control" m); lia.
Qed.

Lemma count_tagged_text ttl text : count_cache_control (tagged_text ttl text) = 1%nat.
Proof. by destruct ttl. Qed.

Lemma count_strip v : count_cache_control (strip_all_cache_control v) = 0%nat.
Proof.
  induction v as [| | | |l IH|m IH] using json_ind'; try done.
  - cbn. induction IH as [|v l H _ IH]; [done|]. cbn. by rewrite H.
  - cbn [strip_all_cache_control]. rewrite count_obj.
    assert (forall m', obj_contains "cache_control" (List.filter (fun kv => negb (String.eqb kv.1 "cache_control")) m') = false) as C.
    { unfold obj_contains. intros m'. induction m' as [|[k v] m' IHm]; [done|]. cbn [List.filter fst].
      destruct (String.eqb_spec k "cache_control") as [->|N]; cbn [negb]; [done|]. cbn [obj_get].
      by rewrite str_eqb_neq by congruence. }
    rewrite C. cbn [Nat.add]. unfold count_members. induction IH as [|[k v] m H _ IH]; [done|]. cbn [map List.filter fst snd].
    destruct (negb (String.eqb k "cache_control")); [|done]. cbn [map sum_nat fold_right snd] in *. by rewrite H.
Qed.

(** ** A value with markers added *)
Inductive marked (ttl : option string) : json -> json -> Prop :=
| marked_same v : marked ttl v v
| marked_tag v w : tag ttl v = Some w -> marked ttl v w
| marked_text text : marked ttl (JStr text) (tagged_text ttl text)
| marked_list l l' : Forall2 (marked ttl) l l' -> marked ttl (JArr l) (JArr l')
| marked_field v k x y : get v k = Some x -> marked ttl x y -> marked ttl v (index_set v k y)
| marked_trans u v w : marked ttl u v -> marked ttl v w -> marked ttl u w.

Section Marked.
Context (ttl : option string).

(** At most [n] markers more. *)
Definition added (n : nat) (v w : json) : Prop :=
  marked ttl v w /\ (count_cache_control w <= count_cache_control v + n)%nat.

Definition fresh (v : json) : Prop := count_cache_control v = 0%nat.

Lemma added_same n v : added n v v.
Proof. split; [apply marked_same|lia]. Qed.

Lemma added_trans n m u v w : added n u v -> added m v w -> added (n + m) u w.
Proof. intros [A B] [C D]. split; [by eapply marked_trans|lia]. Qed.

Lemma added_tag v w : tag ttl v = Some w -> added 1 v w.
Proof. intros T. split; [by apply marked_tag|by apply (count_tag ttl)]. Qed.

Lemma added_field v k x y : k <> "cache_control" -> get v k = Some x -> fresh x -> added 1 x y ->
  added 1 v (index_set v k y).
Proof.
  intros N G F [M C]. split; [by eapply marked_field|]. pose proof (count_index_set v k y N). unfold fresh in F. lia.
Qed.

Lemma marked_same_list l : Forall2 (marked ttl) l l.
Proof. induction l; constructor; [apply marked_same|done]. Qed.

Lemma fresh_elem l v : fresh (JArr l) -> In v l -> fresh v.
Proof.
  unfold fresh. rewrite count_arr. unfold sum_nat. induction l as [|a l IH]; [done|]. cbn [map fold_right].
  intros Z [<-|I]; [lia|]. apply IH; [lia|done].
Qed.

(** One element of a list replaced. *)
Lemma added_app pre v w post : added 1 v w -> added 1 (JArr (pre ++ v :: post)) (JArr (pre ++ w :: post)).
Proof.
  intros [M C]. split.
  - apply marked_list, Forall2_app; [apply marked_same_list|]. constructor; [done|apply marked_same_list].
  - rewrite !count_arr_app, !count_arr. unfold sum_nat. cbn [map fold_right]. lia.
Qed.

Lemma added_tag_last l l' : tag_last ttl l = Some l' -> added 1 (JArr l) (JArr l').
Proof.
  unfold tag_last. destruct (rev l) as [|last before] eqn:R.
  - intros [= <-]. assert (l = []) as -> by (by rewrite <- (rev_involutive l), R). apply added_same.
  - rewrite bind_Some. intros (w & T & [= <-]). assert (l = rev before ++ [last]) as ->.
    { by rewrite <- (rev_involutive l), R. }
    by apply (added_app _ _ _ []), added_tag.
Qed.

Lemma added_tag_first l l' : tag_first ttl l = Some l' -> added 1 (JArr l) (JArr l').
Proof.
  unfold tag_first. destruct l as [|v l]; [intros [= <-]; apply added_same|].
  rewrite bind_Some. intros (w & T & [= <-]). by apply (added_app [] _ _ l), added_tag.
Qed.

Lemma update_at_inv {A} (f : A -> option A) i l l' : update_at f i l = Some l' ->
  exists pre v w post, l = pre ++ v :: post /\ l' = pre ++ w :: post /\ f v = Some w.
Proof.
  revert i l'. induction l as [|v l IH]; intros [|i] l'; cbn; try done; rewrite bind_Some.
  - intros (w & F & [= <-]). by exists [], v, w, l.
  - intros (l2 & U & [= <-]). destruct (IH i l2 U) as (pre & a & b & post & -> & -> & F). by exists (v :: pre), a, b, post.
Qed.

Lemma added_content parts parts' : tag_user_content_blocks ttl parts = Some parts' -> added 1 (JArr parts) (JArr parts').
Proof.
  unfold tag_user_content_blocks. destruct (chosen_block parts) as [i|]; [|intros [= <-]; apply added_same].
  intros U. apply update_at_inv in U as (pre & v & w & post & -> & -> & T). by apply added_app, added_tag.
Qed.

Lemma added_text text : added 1 (JStr text) (tagged_text ttl text).
Proof. split; [apply marked_text|]. by rewrite count_tagged_text. Qed.

Lemma fresh_get v k x : fresh v -> get v k = Some x -> fresh x.
Proof. unfold fresh. intros F G. apply count_get in G. lia. Qed.

Lemma added_user user w : fresh user -> tag_user ttl user = Some w -> added 1 user w.
Proof.
  intros F. unfold tag_user. destruct (get user "content") as [[| | |text|parts|]|] eqn:G;
    try (intros [= <-]; apply added_same).
  - destruct (blank text); intros [= <-]; [apply added_same|].
    eapply added_field; [done|exact G|by eapply fresh_get|apply added_text].
  - rewrite bind_Some. intros (parts' & T & [= <-]).
    eapply added_field; [done|exact G|by eapply fresh_get|by apply added_content].
Qed.

(** A step on the body: at most one marker, in one field. *)
Definition touches (k : string) (v w : json) : Prop :=
  added 1 v w /\ forall k', k' <> k -> get w k' = get v k'.

Lemma touches_same k v : touches k v v.
Proof. split; [apply added_same|done]. Qed.

Lemma touches_field v k x y : k <> "cache_control" -> get v k = Some x -> fresh x -> added 1 x y ->
  touches k v (index_set v k y).
Proof.
  intros N G F A. split; [by eapply added_field|]. intros k' K.
  destruct v as [| | | | |m]; try done. rewrite get_index_set by done. by rewrite str_eqb_neq.
Qed.

Definition fresh_field (k : string) (v : json) : Prop := forall x, get v k = Some x -> fresh x.

Lemma fresh_fields k v : fresh v -> fresh_field k v.
Proof. intros F x G. by eapply fresh_get. Qed.

Lemma touches_fresh k k' v w : k' <> k -> touches k v w -> fresh_field k' v -> fresh_field k' w.
Proof. intros N [_ T] F x G. rewrite T in G by done. by apply F. Qed.

Lemma get_array_Some v k l : get_array v k = Some l -> get v k = Some (JArr l).
Proof. unfold get_array. destruct (get v k) as [[]|]; try done. by intros [= ->]. Qed.

Lemma touches_tools v w : fresh_field "tools" v -> tag_last_tool ttl v = Some w -> touches "tools" v w.
Proof.
  intros F. unfold tag_last_tool. destruct (get_array v "tools") as [l|] eqn:G; [|intros [= <-]; apply touches_same].
  apply get_array_Some in G. rewrite bind_Some. intros (l' & T & [= <-]).
  eapply touches_field; [done|exact G|by apply F|by apply added_tag_last].
Qed.

Lemma touches_system first v w b : fresh_field "system" v -> tag_system_slot ttl first v = Some (w, b) ->
  touches "system" v w /\ (b = false -> w = v).
Proof.
  intros F. unfold tag_system_slot. destruct (get v "system") as [[| | |text|[|x l]|m]|] eqn:G;
    try (intros [= <- <-]; split; [apply touches_same|done]).
  - intros [= <- <-]. split; [|done]. eapply touches_field; [done|exact G|by apply F|apply added_text].
  - rewrite bind_Some. intros (l' & T & [= <- <-]). split; [|done]. eapply touches_field; [done|exact G|by apply F|].
    destruct first; [by apply added_tag_first|by apply added_tag_last].
  - intros [= <- <-]. split; [|done]. eapply touches_field; [done|exact G|by apply F|by apply added_tag].
Qed.

Lemma touches_user v w : fresh_field "messages" v -> tag_first_user_text ttl v = Some w -> touches "messages" v w.
Proof.
  intros F. unfold tag_first_user_text.
  destruct (get_array v "messages") as [l|] eqn:G; [|intros [= <-]; apply touches_same].
  destruct (position is_user_message l) as [i|]; [|intros [= <-]; apply touches_same].
  apply get_array_Some in G. rewrite bind_Some. intros (l' & U & [= <-]).
  eapply touches_field; [done|exact G|by apply F|].
  apply update_at_inv in U as (pre & a & b & post & -> & -> & T). apply added_app, added_user; [|done].
  eapply fresh_elem; [by apply F|]. apply in_elt.
Qed.

(** The fields markers are set in. *)
Definition marker_fields : list string := ["tools"; "system"; "messages"].
Definition other_fields (v w : json) : Prop := forall k, one_of k marker_fields = false -> get w k = get v k.

Lemma two_touches k k' u v w : touches k u v -> touches k' v w -> one_of k marker_fields && one_of k' marker_fields = true ->
  added 2 u w /\ other_fields u w.
Proof.
  intros [A G] [B H] K. apply andb_true_iff in K as [K K']. split; [exact (added_trans 1 1 _ _ _ A B)|].
  intros f F. rewrite H, G; [done|intros ->; congruence|intros ->; congruence].
Qed.

(** At most two markers are set. *)
Lemma preferred_added v w : fresh v -> apply_preferred_cache_breakpoints ttl v = Some w -> added 2 v w /\ other_fields v w.
Proof.
  intros F. unfold apply_preferred_cache_breakpoints, system_or_user, tag_first_system, tag_last_system.
  assert (forall v' b first, tag_system_slot ttl first v = Some (v', b) -> tag_first_user_text ttl v' = Some w ->
            added 2 v w /\ other_fields v w) as SU.
  { intros v' b first S U. apply touches_system in S as [S _]; [|by apply fresh_fields].
    apply touches_user in U; [by eapply two_touches|]. eapply touches_fresh; [|exact S|by apply fresh_fields]. done. }
  destruct (is_some ttl).
  - destruct (is_some_and _ _).
    + rewrite bind_Some. intros (v1 & T & R). apply touches_tools in T; [|by apply fresh_fields].
      assert (fresh_field "system" v1) as FS by (eapply touches_fresh; [|exact T|by apply fresh_fields]; done).
      assert (fresh_field "messages" v1) as FM by (eapply touches_fresh; [|exact T|by apply fresh_fields]; done).
      destruct (tag_system_slot ttl true v1) as [[v2 []]|] eqn:S; [| |done].
      * injection R as <-. apply touches_system in S as [S _]; [|done]. by eapply two_touches.
      * apply touches_system in S as [_ S]; [|done]. rewrite (S eq_refl) in R.
        apply touches_user in R; [|done]. by eapply two_touches.
    + destruct (tag_system_slot ttl true v) as [[v1 []]|] eqn:S; [| |done]; intros U; by eapply SU.
  - destruct (tag_system_slot ttl false v) as [[v1 []]|] eqn:S; [| |done]; [intros U; by eapply SU|].
    rewrite bind_Some. intros ([v2 b] & S2 & U).
    pose proof (touches_system _ _ _ _ (fresh_fields _ _ F) S) as [_ E]. rewrite (E eq_refl) in S2. cbn [fst] in U.
    by eapply SU.
Qed.
End Marked.

(** ** Tagging succeeds *)
Definition taggable (v : json) : bool := is_object v || is_null v.

(** The elements of an array field can carry a marker. *)
Definition taggable_field (k : string) (body : json) : Prop :=
  forall l, get_array body k = Some l -> Forall (fun v => taggable v = true) l.

Lemma tag_taggable ttl v : taggable v = true -> exists w, tag ttl v = Some w.
Proof. destruct v; try done; intros _; cbn; by eexists. Qed.

Lemma tag_last_total ttl l : Forall (fun v => taggable v = true) l -> exists l', tag_last ttl l = Some l'.
Proof.
  intros F. apply Forall_rev in F. unfold tag_last. destruct (rev l) as [|v before]; [by eexists|].
  apply Forall_cons in F as [T _]. destruct (tag_taggable ttl v T) as [w ->]. by eexists.
Qed.

Lemma tag_first_total ttl l : Forall (fun v => taggable v = true) l -> exists l', tag_first ttl l = Some l'.
Proof.
  intros F. destruct l as [|v l]; [by eexists|]. apply Forall_cons in F as [T _]. cbn.
  destruct (tag_taggable ttl v T) as [w ->]. by eexists.
Qed.

Lemma position_lookup {A} (p : A -> bool) l i : position p l = Some i -> exists a, l !! i = Some a /\ p a = true.
Proof.
  revert i. induction l as [|a l IH]; intros i; [done|]. cbn. destruct (p a) eqn:P; [intros [= <-]; by exists a|].
  destruct (position p l) as [j|]; [|done]. intros [= <-]. by apply IH.
Qed.

Lemma rposition_lookup {A} (p : A -> bool) l i : rposition p l = Some i -> exists a, l !! i = Some a /\ p a = true.
Proof.
  revert i. induction l as [|a l IH]; intros i; [done|]. cbn. destruct (rposition p l) as [j|].
  - intros [= <-]. by apply IH.
  - destruct (p a) eqn:P; [|done]. intros [= <-]. by exists a.
Qed.

Lemma update_at_total {A} (f : A -> option A) l i a b : l !! i = Some a -> f a = Some b -> exists l', update_at f i l = Some l'.
Proof.
  revert i. induction l as [|v l IH]; intros [|i]; try done; cbn.
  - intros [= ->] ->. by eexists.
  - intros L F. destruct (IH i L F) as [l' ->]. by eexists.
Qed.

Lemma typed_taggable v k x : get_str v k = Some x -> taggable v = true.
Proof. by destruct v. Qed.

Lemma content_total ttl parts : exists parts', tag_user_content_blocks ttl parts = Some parts'.
Proof.
  unfold tag_user_content_blocks. destruct (chosen_block parts) as [i|] eqn:C; [|by eexists].
  assert (exists v, parts !! i = Some v /\ taggable v = true) as (v & L & T).
  { assert (forall j, rposition cacheable_user_block parts = Some j -> exists v, parts !! j = Some v /\ taggable v = true) as R.
    { intros j J. apply rposition_lookup in J as (v & L & H). exists v. split; [done|]. unfold cacheable_user_block in H.
      destruct (get_str v "type") eqn:G; [by eapply typed_taggable|done]. }
    unfold chosen_block in C. destruct (position nonempty_text_block parts) as [j|] eqn:P; [|by apply R].
    destruct (_ && _); [by apply R|]. injection C as <-. apply position_lookup in P as (v & L & H). exists v. split; [done|].
    apply andb_true_iff in H as [H _]. apply bool_decide_eq_true in H. by eapply typed_taggable. }
  destruct (tag_taggable ttl v T) as [w W]. by apply (update_at_total _ _ _ v w).
Qed.

Lemma tag_user_total ttl user : exists w, tag_user ttl user = Some w.
Proof.
  unfold tag_user. destruct (get user "content") as [[| | | |parts|]|]; try by eexists.
  destruct (content_total ttl parts) as [p ->]. by eexists.
Qed.

Lemma first_user_total ttl body : exists w, tag_first_user_text ttl body = Some w.
Proof.
  unfold tag_first_user_text. destruct (get_array body "messages") as [l|]; [|by eexists].
  destruct (position is_user_message l) as [i|] eqn:P; [|by eexists].
  apply position_lookup in P as (v & L & _). destruct (tag_user_total ttl v) as [w W].
  destruct (update_at_total _ _ _ _ _ L W) as [l' ->]. by eexists.
Qed.

Lemma system_total ttl first body : taggable_field "system" body -> exists r, tag_system_slot ttl first body = Some r.
Proof.
  unfold taggable_field, get_array, tag_system_slot. intros F.
  destruct (get body "system") as [[| | |text|l|m]|]; try by eexists. specialize (F l eq_refl).
  destruct l as [|v l]; [by eexists|].
  destruct first; [destruct (tag_first_total ttl _ F) as [l' ->]|destruct (tag_last_total ttl _ F) as [l' ->]]; by eexists.
Qed.

Lemma tools_total ttl body : taggable_field "tools" body -> exists w, tag_last_tool ttl body = Some w.
Proof.
  unfold tag_last_tool. intros F. destruct (get_array body "tools") as [l|] eqn:G; [|by eexists].
  destruct (tag_last_total ttl l (F l G)) as [l' ->]. by eexists.
Qed.

Lemma preferred_total ttl body : fresh body -> taggable_field "tools" body -> taggable_field "system" body ->
  exists w, apply_preferred_cache_breakpoints ttl body = Some w.
Proof.
  intros F T S. unfold apply_preferred_cache_breakpoints, system_or_user, tag_first_system, tag_last_system.
  pose proof (system_total ttl true body S) as [[w b] S1].
  destruct (is_some ttl).
  - destruct (is_some_and _ _).
    + destruct (tools_total ttl body T) as [w1 W1]. rewrite W1. cbn.
      assert (taggable_field "system" w1) as S2.
      { apply touches_tools in W1 as [_ W1]; [|by apply fresh_fields]. unfold taggable_field, get_array.
        rewrite W1 by done. exact S. }
      destruct (system_total ttl true w1 S2) as [[w2 []] ->]; [by eexists|]. apply first_user_total.
    + rewrite S1. destruct b; apply first_user_total.
  - destruct (system_total ttl false body S) as [[w2 b2] S2]. rewrite S2.
    destruct b2; [apply first_user_total|]. rewrite (proj2 (touches_system ttl false _ _ _ (fresh_fields _ _ F) S2) eq_refl).
    rewrite S1. cbn. apply first_user_total.
Qed.

Lemma obj_get_strip k m : k <> "cache_control" ->
  obj_get k (List.filter (fun kv => negb (String.eqb kv.1 "cache_control"))
               (map (fun kv => (fst kv, strip_all_cache_control (snd kv))) m)) = strip_all_cache_control <$> obj_get k m.
Proof.
  intros N. induction m as [|[k' v] m IH]; [done|]. cbn [map List.filter fst snd].
  destruct (String.eqb_spec k' "cache_control") as [->|N']; cbn [negb obj_get].
  - rewrite (str_eqb_neq k) by done. exact IH.
  - destruct (String.eqb k k'); [done|exact IH].
Qed.

Lemma get_strip v k : k <> "cache_control" -> get (strip_all_cache_control v) k = strip_all_cache_control <$> get v k.
Proof. intros N. destruct v; try done. by apply obj_get_strip. Qed.

Lemma taggable_strip k body : k <> "cache_control" -> taggable_field k body -> taggable_field k (strip_all_cache_control body).
Proof.
  intros N T l. unfold taggable_field, get_array in *. rewrite get_strip by done.
  destruct (get body k) as [[| | | |l'|]|]; try done. intros [= <-]. specialize (T l' eq_refl).
  apply Forall_map. eapply Forall_impl; [exact T|]. by intros [].
Qed.

Lemma pointer_strip v p : forallb (fun t => match t with Key k => negb (String.eqb k "cache_control") | Idx _ => false end) p = true ->
  pointer (strip_all_cache_control v) p = strip_all_cache_control <$> pointer v p.
Proof.
  revert v. induction p as [|[k|i] p IH]; intros v; [done| |done]. cbn [forallb]. rewrite andb_true_iff, negb_true_iff.
  intros [N P]. apply String.eqb_neq in N. rewrite !pointer_key, get_strip by done. destruct (get v k); [|done]. by apply IH.
Qed.

Lemma as_str_strip o : (strip_all_cache_control <$> o) ≫= as_str = o ≫= as_str.
Proof. by destruct o as [[]|]. Qed.

(** Outside the marked fields a body is only stripped of markers. *)
Lemma apply_other_fields `{SerdeJson} ir body body' events : apply_cache_breakpoints ir body = Some (body', events) ->
  body' = body \/ other_fields (strip_all_cache_control body) body'.
Proof.
  unfold apply_cache_breakpoints. destruct (negb _); [intros [= <- _]; by left|].
  destruct (below_floor ir); [intros [= <- _]; by left|].
  rewrite bind_Some. intros (w & W & R). destruct (preferred_added _ _ _ (count_strip body) W) as [[_ C] O].
  rewrite count_strip in C. cbn [Nat.add] in C. unfold enforce_cache_control_limit in R.
  rewrite (proj2 (Nat.leb_le _ ANTHROPIC_PREFERRED_CACHE_CONTROL_BLOCKS) C) in R. cbn [mbind option_bind] in R.
  apply (f_equal (fmap fst)) in R. cbn in R. rewrite nbind_fst in R. injection R as <-. by right.
Qed.

(** C10. The cache markers of a Messages request stay within the limit of the
    vendor: when the tools and the system blocks are objects the encoder
    returns, and where caching is asked for and the request is long enough the
    body is the one without the caller's markers, at most two markers of the
    asked lifetime added and nothing else changed; otherwise it is untouched. *)
Theorem cache_markers_bounded `{SerdeJson} (ir : IrRequest) (body : json) :
  taggable_field "tools" body -> taggable_field "system" body ->
  exists body' events, apply_cache_breakpoints ir body = Some (body', events) /\
    if caching_asked (sp_cache (sampling ir)) && is_none (below_floor ir)
    then marked (breakpoint_ttl (retention (sp_cache (sampling ir)))) (strip_all_cache_control body) body'
         /\ (count_cache_control body' <= ANTHROPIC_PREFERRED_CACHE_CONTROL_BLOCKS)%nat
         /\ (kept_whole events = true <-> count_cache_control body' <> 0%nat)
    else body' = body.
Proof.
  intros T S. unfold apply_cache_breakpoints. destruct (caching_asked _); cbn [negb andb]; [|by eexists _, _].
  destruct (below_floor ir); cbn [is_none]; [by eexists _, _|].
  set (ttl := breakpoint_ttl _). assert (fresh (strip_all_cache_control body)) as F by apply count_strip.
  destruct (preferred_total ttl _ F) as [w W]; [by apply taggable_strip..|].
  destruct (preferred_added ttl _ _ F W) as [[M C] _]. unfold fresh in F. rewrite F in C. cbn [Nat.add] in C.
  rewrite W. cbn [mbind option_bind]. unfold enforce_cache_control_limit.
  rewrite (proj2 (Nat.leb_le _ ANTHROPIC_PREFERRED_CACHE_CONTROL_BLOCKS) C). cbn [mbind option_bind].
  eexists _, _. split; [by rewrite <- surjective_pairing|]. rewrite nbind_fst, nbind_snd. cbn [quiet fst snd].
  split_and!; [done|exact C|]. rewrite app_nil_r. destruct (Nat.eqb_spec (count_cache_control w) 0); by split.
Qed.

(** ** At a request *)
#[local] Existing Instance bits_codec.

(** A request with a one-hour marker of its own on a message. *)
Definition cached_request : json :=
  jobj [("model", JStr "m");
        ("messages", JArr [jobj [("role", JStr "user");
          ("content", JArr [jobj [("type", JStr "text"); ("text", JStr "hi");
             ("cache_control", jobj [("type", JStr "ephemeral"); ("ttl", JStr "1h")])]])]])].

Definition cached_ir : IrRequest :=
  match MessagesRequest.decode cached_request with Ok (ir, _) => ir | Err _ => request_default end.

(** The body before markers: the caller's marker is still there. *)
Definition marked_body : json :=
  index_set (index_set cached_request "tools" (JArr [jobj [("name", JStr "f")]])) "system" (JStr "Be brief.").

Lemma cache_markers_bounded_witness :
  (exists body' events, apply_cache_breakpoints cached_ir marked_body = Some (body', events) /\
    if caching_asked (sp_cache (sampling cached_ir)) && is_none (below_floor cached_ir)
    then marked (breakpoint_ttl (retention (sp_cache (sampling cached_ir)))) (strip_all_cache_control marked_body) body'
         /\ (count_cache_control body' <= ANTHROPIC_PREFERRED_CACHE_CONTROL_BLOCKS)%nat
         /\ (kept_whole events = true <-> count_cache_control body' <> 0%nat)
    else body' = marked_body)
  /\ caching_asked (sp_cache (sampling cached_ir)) && is_none (below_floor cached_ir) = true
  /\ count_cache_control <$> (fst <$> apply_cache_breakpoints cached_ir marked_body) = Some 2%nat.
Proof.
  split; [|by vm_compute]. apply (cache_markers_bounded cached_ir marked_body).
  - intros l E. vm_compute in E. injection E as <-. repeat constructor.
  - intros l E. vm_compute in E. discriminate E.
Defined.
