(* ===== verification/MessagesBody.v ===== *)
(** * MessagesBody: the whole body of a Messages request

    [encode] of [W/map/messages.rs]: turns, checks, tools, sampling and cache
    markers.  The result is [None] where the encoder panics, which only
    tagging a tool that is not an object does ([cache_tag_panics]). *)
From stdpp Require Import gmap pretty.
From S2P Require Import Prelude Text Json JsonCodec Floats Ir ProfileTypes StreamCore Usage Shapes Chat Loss RequestCore.
From S2P Require Import Schema Tools ToolIds MessagesRequest MessagesEncode MessagesSampling CacheBreakpoints.

Section Encode.
Context {SJ : SerdeJson}.

(** A request without a turn is refused unless it had no item at all. *)
Definition check_turns (system : option json) (messages : list json) (report : list LossEvent) : result MapError unit :=
  match messages with
  | _ :: _ => Ok tt
  | [] =>
      if is_some system then Err (Invalid "messages must not be empty: system text needs a message turn")
      else
        match dropped_details report with
        | [] => Ok tt
        | dropped => Err (Invalid ("messages must not be empty: " +:+ str_join "; " dropped))
        end
  end.

Definition check_sampling (s : IrSampling) : result MapError unit :=
  if bool_decide (sp_max_tokens s = Some 0) then Err (hard "sampling.max_tokens" "max_tokens must be at least 1")
  else
    let* _ := reject_sampling_number (sp_temperature s) F32_ZERO F32_ONE "sampling.temperature"
                "temperature must be between 0 and 1" in
    reject_sampling_number (sp_top_p s) F32_ZERO F32_ONE "sampling.top_p" "top_p must be between 0 and 1".

(** What is built before the sampling fields. *)
Definition body_start (ir : IrRequest) (tools : list PreparedTool) (system : option json) (messages : list json) : json :=
  put "tools" (if_any tools (JArr (map encode_tool tools)))
    (put "system" system (jobj [("model", JStr (model ir)); ("messages", JArr messages)])).

(** [report] is what was noted before. *)
Definition encode (ir : IrRequest) (tools : list PreparedTool) (report : list LossEvent) :
  outcome MapError (noted json) :=
  let '((system, messages), turn_events) := encode_items ir in
  match (let* _ := check_turns system messages (report ++ turn_events) in check_sampling (sampling ir)) with
  | Err err => Some (Err err)
  | Ok _ =>
      let '(body, sampling_events) := encode_sampling ir (body_start ir tools system messages) in
      '(body, cache_events) ← apply_cache_breakpoints ir body;
      Some (Ok (body, turn_events ++ sampling_events ++ cache_events))
  end.
End Encode.

(** ** A tool that is not an object *)

(** A client can send [tools: ["x"]] with a one-hour marker; under a policy
    that passes unknown tools the encoder assigns to the text and panics. *)
Definition panicking_request : json :=
  jobj [("model", JStr "m"); ("tools", JArr [JStr "x"]);
        ("messages", JArr [jobj [("role", JStr "user");
          ("content", JArr [jobj [("type", JStr "text"); ("text", JStr "hi");
             ("cache_control", jobj [("type", JStr "ephemeral"); ("ttl", JStr "1h")])]])]])].

Definition encode_after_decode `{SerdeJson} (request : json) : outcome MapError (noted json) :=
  match MessagesRequest.decode request with
  | Ok (ir, _) =>
      match prepare_from (fun _ => None) Messages Passthrough None 0 (tools ir) with
      | Ok (prepared, events) => encode ir prepared events
      | Err err => Some (Err err)
      end
  | Err err => Some (Err err)
  end.

Lemma cache_tag_panics : @encode_after_decode bits_codec panicking_request = None.
Proof. vm_compute. reflexivity. Qed.
