(* ===== verification/MessagesCalls.v ===== *)
(** * MessagesCalls: calls and results of a written Messages request

    Every call and every result the encoder writes becomes one block, in order, and
    the ids of the blocks come from one map of call ids to ids the vendor
    accepts: different call ids stay different, so a result answers the call
    it answered. *)
From stdpp Require Import gmap pretty.
From S2P Require Import Prelude Text Json JsonCodec Floats Ir ProfileTypes StreamCore Usage Shapes Chat Loss RequestCore.
From S2P Require Import ToolIds MessagesEncode.

(** ** The calls of a request and of a body *)
Inductive Ref := RefCall | RefResult.

Definition item_ref (item : IrItem) : option (Ref * string) :=
  match item with
  | IFunctionCall call_id _ _ _ | ICustomToolCall call_id _ _ _ => Some (RefCall, call_id)
  | IFunctionOutput call_id _ _ _ => Some (RefResult, call_id)
  | _ => None
  end.
Definition item_refs (items : list IrItem) : list (Ref * string) := omap item_ref items.

Definition block_ref (b : json) : option (Ref * string) :=
  t ← get_str b "type";
  if String.eqb t "tool_use" then pair RefCall <$> get_str b "id"
  else if String.eqb t "tool_result" then pair RefResult <$> get_str b "tool_use_id"
  else None.

Definition message_refs (m : json) : list (Ref * string) := omap block_ref (unwrap_or (get_array m "content") []).
Definition body_refs (messages : list json) : list (Ref * string) := concat (map message_refs messages).

(** Parts and items the encoder writes itself, none copied from the source. *)
Fixpoint own_part (part : IrPart) : bool :=
  match part with PRaw _ _ => false | PPromptCacheBreakpoint _ inner => own_part inner | _ => true end.

Definition own_item (item : IrItem) : bool :=
  match item with
  | IUser parts | IAssistant parts _ => forallb own_part parts
  | IHostedToolCall _ _ | IUnknown _ _ => false
  | _ => true
  end.

(** ** Blocks without an id *)
Lemma image_url_ref url detail file_id b : (encode_image_url url detail file_id).1 = Some b -> block_ref b = None.
Proof.
  unfold encode_image_url, left_out. destruct (blank url); [destruct (is_some_and _ _); rewrite nbind_fst; done|].
  rewrite nbind_fst. destruct ((drop_image_file_id_without_url url file_id).1); [done|]. rewrite nbind_fst.
  destruct (split_data_url url) as [[media data]|]; [|by intros [= <-]].
  destruct (blank data); [by rewrite nbind_fst|by intros [= <-]].
Qed.

Lemma document_ref source media name o1 o2 :
  block_ref (put "context" o1 (put "citations" o2 (encode_document source media name))) = None.
Proof.
  assert (get_str (put "context" o1 (put "citations" o2 (encode_document source media name))) "type" = Some "document") as E.
  { unfold get_str, encode_document. rewrite !get_put by (by rewrite ?is_object_put, ?is_object_index_set, ?is_object_put).
    cbn [String.eqb Ascii.eqb Bool.eqb]. rewrite get_index_set by (by rewrite is_object_put).
    cbn [String.eqb Ascii.eqb Bool.eqb]. by rewrite get_put. }
  unfold block_ref. by rewrite E.
Qed.

Lemma plain_part_ref part b : (encode_plain_part part).1 = Some b -> block_ref b = None.
Proof.
  destruct part as [text|url detail owner file_id|media data|text sig|t raw|source media name cit ctx|data format|mode inner];
    cbn [encode_plain_part]; unfold left_out; try done.
  - destruct (blank text); [done|]. by intros [= <-].
  - apply image_url_ref.
  - destruct (blank data); [by rewrite nbind_fst|]. by intros [= <-].
  - destruct (nonempty sig); [by intros [= <-]|by rewrite nbind_fst].
  - destruct (document_refused source); [by rewrite nbind_fst|]. intros [= <-]. apply document_ref.
Qed.

Lemma apply_prompt_cache_off v mode : (apply_prompt_cache v mode false).1 = v.
Proof. unfold apply_prompt_cache. destruct (nonempty mode); [|done]. cbn [negb]. by rewrite nbind_fst. Qed.

Lemma part_ref part b : own_part part = true -> (encode_part part).1 = Some b -> block_ref b = None.
Proof.
  revert b. induction part as [text|url detail owner file_id|media data|text sig|t raw|source media name cit ctx|data format|mode inner IH];
    intros b O; try (apply plain_part_ref); [done|].
  cbn [encode_part own_part] in *. rewrite nbind_fst. destruct ((encode_part inner).1) as [v|] eqn:E.
  - rewrite nbind_fst, apply_prompt_cache_off. intros [= <-]. by apply IH.
  - by rewrite nbind_fst.
Qed.

Definition no_refs (l : list json) : Prop := omap block_ref l = [].

Lemma parts_refs parts : forallb own_part parts = true -> no_refs (nfilter_map encode_part parts).1.
Proof.
  unfold no_refs. rewrite nfilter_map_fst. induction parts as [|part parts IH]; [done|]. cbn [forallb omap list_omap].
  rewrite andb_true_iff. intros [O R]. destruct ((encode_part part).1) eqn:E; cbn; [|by apply IH].
  rewrite (part_ref part _ O E). by apply IH.
Qed.

Lemma user_parts_refs parts path : forallb own_part parts = true -> no_refs (encode_user_parts parts path).1.
Proof.
  intros O. unfold encode_user_parts. rewrite nbind_fst. pose proof (parts_refs parts O) as R.
  destruct ((nfilter_map encode_part parts).1); [|exact R]. unfold placeholder. by rewrite nbind_fst.
Qed.

Lemma reasoning_ref encrypted summary raw b : reasoning_block encrypted summary raw = Some b -> block_ref b = None.
Proof.
  unfold reasoning_block, opt_filter.
  assert (forall text, block_ref (put "signature" (JStr <$> encrypted) (jobj [("type", JStr "thinking"); ("thinking", JStr text)])) = None) as P.
  { intros text. unfold block_ref, get_str. rewrite get_put by done. by destruct encrypted. }
  destruct raw as [raw|].
  - case_bool_decide as E.
    + intros [= <-]. unfold block_ref. by rewrite E.
    + rewrite bind_Some. intros (text & _ & [= <-]). apply P.
  - rewrite bind_Some. intros (text & _ & [= <-]). apply P.
Qed.

(** ** Blocks with one *)
Section Calls.
Context {SJ : SerdeJson}.

Lemma tool_use_ref call_id name arguments path ids :
  let '(id, ids') := assign_messages_tool_use_id call_id ids in
  block_ref (tool_use_block call_id name arguments path ids).1.1 = Some (RefCall, id)
  /\ (tool_use_block call_id name arguments path ids).1.2 = ids'.
Proof.
  unfold tool_use_block. rewrite nbind_fst, rewrite_fst. destruct (assign_messages_tool_use_id call_id ids) as [id ids'].
  cbn [fst]. rewrite nbind_fst. done.
Qed.

Lemma tool_result_ref call_id output parts is_error path ids :
  let '(id, ids') := assign_messages_tool_use_id call_id ids in
  block_ref (tool_result_block call_id output parts is_error path ids).1.1 = Some (RefResult, id)
  /\ (tool_result_block call_id output parts is_error path ids).1.2 = ids'.
Proof.
  unfold tool_result_block. rewrite nbind_fst, rewrite_fst. destruct (assign_messages_tool_use_id call_id ids) as [id ids'].
  cbn [fst]. set (value := put "is_error" _ _).
  assert (forall c, block_ref (index_set value "content" c) = Some (RefResult, id)) as R.
  { intros c. assert (is_object value = true) as O by (unfold value; by rewrite is_object_put).
    unfold block_ref, get_str. rewrite !get_index_set by done. cbn [String.eqb Ascii.eqb Bool.eqb].
    unfold value. rewrite !get_put by done. by destruct is_error. }
  destruct parts as [|part parts]; [cbn [quiet fst snd]; by split|]. rewrite nbind_fst. cbn [quiet fst snd]. by split.
Qed.

(** What a run of items gives: its references, and the ids after it. *)
Lemma assign_cons {A} (a : A) c l ids :
  let '(id, ids') := assign_messages_tool_use_id c ids in
  assign_all ((a, c) :: l) ids = ((a, id) :: (assign_all l ids').1, (assign_all l ids').2).
Proof.
  cbn [assign_all]. destruct (assign_messages_tool_use_id c ids) as [id ids']. by destruct (assign_all l ids').
Qed.

(** [t] has taken [before] of the items, and left the rest. *)
Definition took (items : list IrItem) (ids : tool_ids) (t : Taken) : Prop :=
  exists before, items = before ++ tk_rest t
    /\ omap block_ref (tk_blocks t) = (assign_all (item_refs before) ids).1
    /\ tk_ids t = (assign_all (item_refs before) ids).2.

Lemma took_nothing idx items ids : took items ids (mkTaken [] idx items ids).
Proof. by exists []. Qed.

Lemma took_ref r c b item items ids ids' t : item_ref item = Some (r, c) -> block_ref b = Some (r, (assign_messages_tool_use_id c ids).1) ->
  ids' = (assign_messages_tool_use_id c ids).2 -> took items ids' t -> took (item :: items) ids (more_blocks [b] t).
Proof.
  intros I B -> (before & -> & R & D). exists (item :: before). cbn [more_blocks tk_rest tk_blocks tk_ids]. split; [done|].
  unfold item_refs. cbn [omap list_omap]. rewrite I. pose proof (assign_cons r c (omap item_ref before) ids) as E.
  destruct (assign_messages_tool_use_id c ids) as [id ids1]. rewrite E. cbn [app omap list_omap fst snd] in *.
  rewrite B, R, D. done.
Qed.

Lemma took_block l item items ids t : item_ref item = None -> no_refs l -> took items ids t ->
  took (item :: items) ids (more_blocks l t).
Proof.
  intros I N (before & -> & R & D). exists (item :: before). cbn [more_blocks tk_rest tk_blocks tk_ids]. split; [done|].
  unfold item_refs. cbn [omap list_omap]. rewrite I, omap_app, N. by split.
Qed.

Lemma take_results_took idx items ids : took items ids (take_results idx items ids).1.
Proof.
  revert idx ids. induction items as [|item items IH]; intros idx ids; [apply took_nothing|].
  destruct item; try apply took_nothing. cbn [take_results]. rewrite nbind_fst.
  pose proof (tool_result_ref call_id output parts is_error (item_path idx) ids) as R.
  destruct (assign_messages_tool_use_id call_id ids) as [id ids'] eqn:A.
  destruct ((tool_result_block call_id output parts is_error (item_path idx) ids).1) as [b ids2]. cbn [fst snd] in R.
  destruct R as [R ->]. rewrite nbind_fst. cbn [quiet fst]. eapply took_ref; [done| |by rewrite A|apply IH]. by rewrite A.
Qed.

Lemma take_calls_took idx items ids : took items ids (take_calls idx items ids).1.
Proof.
  revert idx ids. induction items as [|item items IH]; intros idx ids; [apply took_nothing|].
  destruct item; try apply took_nothing; cbn [take_calls]; rewrite nbind_fst.
  - rewrite nbind_fst. pose proof (tool_use_ref call_id name arguments (item_path idx) ids) as R.
    destruct (assign_messages_tool_use_id call_id ids) as [id ids'] eqn:A.
    destruct ((tool_use_block call_id name arguments (item_path idx) ids).1) as [b ids2]. cbn [fst snd] in R.
    destruct R as [R ->]. rewrite nbind_fst. cbn [quiet fst]. eapply took_ref; [done| |by rewrite A|apply IH]. by rewrite A.
  - pose proof (tool_use_ref call_id name input (item_path idx) ids) as R.
    destruct (assign_messages_tool_use_id call_id ids) as [id ids'] eqn:A.
    destruct ((tool_use_block call_id name input (item_path idx) ids).1) as [b ids2]. cbn [fst snd] in R.
    destruct R as [R ->]. rewrite nbind_fst. cbn [quiet fst]. eapply took_ref; [done| |by rewrite A|apply IH]. by rewrite A.
  - rewrite nbind_fst. cbn [quiet fst]. apply took_block; [done| |apply IH]. unfold no_refs.
    destruct (reasoning_block encrypted summary raw) as [b|] eqn:E; [|done]. cbn. by rewrite (reasoning_ref _ _ _ _ E).
Qed.

(** ** The loop *)

(** [t'] has the messages of [t] and those of [items]. *)
Definition grew (items : list IrItem) (t t' : Turns) : Prop :=
  body_refs (tn_messages t') = body_refs (tn_messages t) ++ (assign_all (item_refs items) (tn_ids t)).1
  /\ tn_ids t' = (assign_all (item_refs items) (tn_ids t)).2.

Lemma grew_app xs ys t1 t2 t3 : grew xs t1 t2 -> grew ys t2 t3 -> grew (xs ++ ys) t1 t3.
Proof.
  intros [R1 D1] [R2 D2]. unfold grew, item_refs. rewrite omap_app.
  destruct (assign_all_app (omap item_ref xs) (omap item_ref ys) (tn_ids t1)) as [E1 E2].
  rewrite E1, E2, R2, R1, D2, D1. by rewrite <- app_assoc.
Qed.

Lemma body_refs_app l k : body_refs (l ++ k) = body_refs l ++ body_refs k.
Proof. unfold body_refs. by rewrite map_app, concat_app. Qed.

Lemma body_refs_one m : body_refs [m] = message_refs m.
Proof. apply app_nil_r. Qed.

Lemma message_refs_turn role content : message_refs (turn role content) = omap block_ref content.
Proof. done. Qed.

Lemma grew_none item t t' : item_ref item = None -> body_refs (tn_messages t') = body_refs (tn_messages t) ->
  tn_ids t' = tn_ids t -> grew [item] t t'.
Proof. intros I R D. unfold grew, item_refs. cbn [omap list_omap]. rewrite I. by rewrite R, D, app_nil_r. Qed.

Lemma grew_ref item r c role b t : item_ref item = Some (r, c) ->
  block_ref b = Some (r, (assign_messages_tool_use_id c (tn_ids t)).1) ->
  grew [item] t (push_messages [turn role [b]] (with_ids (assign_messages_tool_use_id c (tn_ids t)).2 t)).
Proof.
  intros I B. unfold grew, item_refs. cbn [omap list_omap]. rewrite I. pose proof (assign_cons r c [] (tn_ids t)) as E.
  destruct (assign_messages_tool_use_id c (tn_ids t)) as [id ids1]. rewrite E. cbn [push_messages with_ids tn_messages tn_ids fst snd assign_all] in *.
  rewrite body_refs_app, body_refs_one, message_refs_turn. cbn [omap list_omap]. by rewrite B.
Qed.

Lemma encode_role_grew item text mode content c t : item_ref item = None -> grew [item] t (encode_role text mode content c t).1.
Proof. intros I. unfold encode_role. rewrite !nbind_fst. by apply grew_none. Qed.

Lemma encode_item_grew idx item t : own_item item = true ->
  match item with IUser _ | IAssistant _ _ => False | _ => True end -> grew [item] t (encode_item idx item t).1.
Proof.
  intros O N. destruct item; try done; cbn [encode_item];
    try (by apply encode_role_grew); try (rewrite nbind_fst; by apply grew_none).
  - rewrite nbind_fst, nbind_fst. pose proof (tool_use_ref call_id name arguments (item_path idx) (tn_ids t)) as R.
    destruct (assign_messages_tool_use_id call_id (tn_ids t)) as [id ids'] eqn:A.
    destruct ((tool_use_block call_id name arguments (item_path idx) (tn_ids t)).1) as [b ids2]. cbn [fst snd] in R.
    destruct R as [R ->]. pose proof (grew_ref (IFunctionCall call_id name arguments thought_signature) RefCall call_id "assistant" b t eq_refl) as G.
    rewrite A in G. by apply G.
  - rewrite nbind_fst. pose proof (tool_use_ref call_id name input (item_path idx) (tn_ids t)) as R.
    destruct (assign_messages_tool_use_id call_id (tn_ids t)) as [id ids'] eqn:A.
    destruct ((tool_use_block call_id name input (item_path idx) (tn_ids t)).1) as [b ids2]. cbn [fst snd] in R.
    destruct R as [R ->]. pose proof (grew_ref (ICustomToolCall call_id name input responses_item) RefCall call_id "assistant" b t eq_refl) as G.
    rewrite A in G. by apply G.
  - rewrite nbind_fst. pose proof (tool_result_ref call_id output parts is_error (item_path idx) (tn_ids t)) as R.
    destruct (assign_messages_tool_use_id call_id (tn_ids t)) as [id ids'] eqn:A.
    destruct ((tool_result_block call_id output parts is_error (item_path idx) (tn_ids t)).1) as [b ids2]. cbn [fst snd] in R.
    destruct R as [R ->]. pose proof (grew_ref (IFunctionOutput call_id output parts is_error) RefResult call_id "user" b t eq_refl) as G.
    rewrite A in G. by apply G.
  - rewrite nbind_fst. apply grew_none; [done| |done]. cbn [quiet fst push_messages tn_messages].
    rewrite body_refs_app. destruct (reasoning_block encrypted summary raw) as [b|] eqn:E; [|apply app_nil_r].
    rewrite body_refs_one, message_refs_turn. cbn [omap list_omap]. by rewrite (reasoning_ref _ _ _ _ E), app_nil_r.
Qed.

Lemma joinable_refs last msg dst src : joinable last msg = Some (dst, src) ->
  message_refs (index_set last "content" (JArr (dst ++ src))) = message_refs last ++ message_refs msg.
Proof.
  unfold joinable. rewrite bind_Some. intros (role & G & J). destruct (_ && _); [|done].
  rewrite bind_Some in J. destruct J as (d & D & J). rewrite bind_Some in J. destruct J as (s & S & [= <- <-]).
  unfold message_refs. rewrite D, S. cbn [unwrap_or]. rewrite <- omap_app.
  destruct last as [| | | | |m]; try done. unfold get_array. by rewrite get_index_set.
Qed.

Lemma push_alternating_refs messages msg idx :
  body_refs (push_alternating_message messages msg idx).1 = body_refs messages ++ message_refs msg.
Proof.
  unfold push_alternating_message. destruct (rev messages) as [|last before] eqn:R.
  { cbn [quiet fst]. by rewrite body_refs_app, body_refs_one. }
  destruct (joinable last msg) as [[dst src]|] eqn:J.
  - assert (messages = rev before ++ [last]) as -> by (by rewrite <- (rev_involutive messages), R).
    rewrite nbind_fst. cbn [quiet fst]. rewrite !body_refs_app, !body_refs_one, (joinable_refs _ _ _ _ J).
    by rewrite app_assoc.
  - cbn [quiet fst]. by rewrite body_refs_app, body_refs_one.
Qed.

Lemma user_turn start parts items ids : forallb own_part parts = true ->
  let '(msg, taken) := (encode_user start parts items ids).1 in
  message_refs msg = omap block_ref (tk_blocks taken) /\ took items ids taken.
Proof.
  intros O. unfold encode_user. rewrite !nbind_fst. cbn [quiet fst]. split; [|apply take_results_took].
  by rewrite message_refs_turn, omap_app, (user_parts_refs parts _ O).
Qed.

Lemma assistant_turn start parts items ids : forallb own_part parts = true ->
  let '(msg, taken) := (encode_assistant start parts items ids).1 in
  message_refs msg = omap block_ref (tk_blocks taken) /\ took items ids taken.
Proof.
  intros O. unfold encode_assistant. rewrite !nbind_fst. pose proof (parts_refs parts O) as R.
  pose proof (take_calls_took (S start) items ids) as T.
  fold (encode_assistant_parts parts) in R. set (taken := (take_calls (S start) items ids).1) in *.
  set (content := (encode_assistant_parts parts).1) in *.
  destruct (content ++ tk_blocks taken) as [|b bs] eqn:E.
  - unfold placeholder. rewrite !nbind_fst. cbn [quiet fst]. apply app_eq_nil in E as [_ E]. by rewrite E.
  - cbn [quiet fst]. split; [|done]. rewrite message_refs_turn, <- E, omap_app. unfold no_refs in R. by rewrite R.
Qed.

Lemma grew_turn item msg messages' t taken items : item_ref item = None -> took items (tn_ids t) taken ->
  message_refs msg = omap block_ref (tk_blocks taken) -> body_refs messages' = body_refs (tn_messages t) ++ message_refs msg ->
  exists before, items = before ++ tk_rest taken
    /\ grew (item :: before) t (mkTurns (tn_system t) messages' (tk_ids taken)).
Proof.
  intros I (before & -> & R & D) M B. exists before. split; [done|]. unfold grew, item_refs. cbn [omap list_omap tn_messages tn_ids].
  rewrite I. by rewrite B, M, R, D.
Qed.

Lemma encode_loop_grew fuel idx items t : (length items <= fuel)%nat -> forallb own_item items = true ->
  grew items t (encode_loop fuel idx items t).1.
Proof.
  revert idx items t. induction fuel as [|fuel IH]; intros idx [|item items] t L O.
  1, 3: by split; [rewrite app_nil_r|].
  { cbn in L. lia. }
  cbn [forallb] in O. apply andb_true_iff in O as [O OS]. cbn [length] in L.
  assert (forall before rest, items = before ++ rest -> (length rest <= fuel)%nat /\ forallb own_item rest = true) as REST.
  { intros before rest ->. rewrite forallb_app, andb_true_iff in OS. rewrite length_app in L. split; [lia|apply OS]. }
  destruct item as [| | | |parts|parts phase| | | | | |];
    try (cbn [encode_loop]; rewrite nbind_fst;
         match goal with |- grew (?i :: _) _ _ =>
           apply (grew_app [i] _ t (encode_item idx i t).1); [by apply encode_item_grew|apply IH; [lia|done]] end).
  - cbn [encode_loop]. rewrite nbind_fst. pose proof (user_turn idx parts items (tn_ids t) O) as U.
    destruct ((encode_user idx parts items (tn_ids t)).1) as [msg taken]. destruct U as [M T]. rewrite nbind_fst.
    destruct (grew_turn (IUser parts) msg (push_alternating_message (tn_messages t) msg idx).1 t taken items eq_refl T M)
      as (before & E & G); [apply push_alternating_refs|].
    destruct (REST _ _ E) as [L' O']. rewrite E. rewrite app_comm_cons. eapply grew_app; [exact G|]. by apply IH.
  - cbn [encode_loop]. rewrite nbind_fst, nbind_fst. pose proof (assistant_turn idx parts items (tn_ids t) O) as U.
    destruct ((encode_assistant idx parts items (tn_ids t)).1) as [msg taken]. destruct U as [M T].
    destruct (grew_turn (IAssistant parts phase) msg (tn_messages t ++ [msg]) t taken items eq_refl T M)
      as (before & E & G); [by rewrite body_refs_app, body_refs_one|].
    destruct (REST _ _ E) as [L' O']. rewrite E. rewrite app_comm_cons. eapply grew_app; [exact G|]. by apply IH.
Qed.

(** C11. The calls and results of a Messages body whose request has no block or
    item that is copied as it came - no part the map does not know, no hosted
    call and no unknown item; a copied block keeps its own id, of whatever form
    - are those of the request, in order and each with its own id: one map of
    call ids to ids gives the id of every block, its ids are of the form the
    vendor accepts and different call ids have different ones, so a result names
    the call it answers; ids that have the form already are not changed. *)
Theorem messages_call_ids (ir : IrRequest) : forallb own_item (items ir) = true ->
  let written := body_refs (encode_items ir).1.2 in
  (exists ids, ids_ok ids /\ Forall2 (fun x y => x.1 = y.1 /\ ids !! x.2 = Some y.2) (item_refs (items ir)) written)
  /\ (forallb (fun x => legal_tool_use_id x.2) (item_refs (items ir)) = true -> written = item_refs (items ir)).
Proof.
  intros O. cbn zeta. unfold encode_items. rewrite nbind_fst. cbn [quiet fst snd].
  destruct (encode_loop_grew (length (items ir)) 0 (items ir) (mkTurns [] [] ∅) (le_n _) O) as [R _].
  rewrite body_refs_app, R. cbn [tn_messages tn_ids]. change (body_refs []) with (@nil (Ref * string)). cbn [app].
  assert (body_refs (if messages_need_continue ir then [turn "user" [text_block "Continue." false None]] else []) = []) as ->.
  { by destruct (messages_need_continue ir). }
  rewrite app_nil_r. split.
  - destruct (assign_all_ids (item_refs (items ir)) ∅ ids_ok_empty) as (I & _ & F). by eexists.
  - intros L. apply assign_all_legal; [by intros k v|done].
Qed.
End Calls.

(** ** At a request *)
#[local] Existing Instance bits_codec.

(** Two call ids with one legal form, and the results in the other order. *)
Definition two_calls : IrRequest :=
  request_new "m" [IUser [PText "hi"]; IAssistant [PText "ok"] None; IFunctionCall "a.b" "f" "{}" None;
    ICustomToolCall "a_b" "g" "x" None; IFunctionOutput "a_b" "2" [] false; IFunctionOutput "a.b" "1" [] false].

Lemma messages_call_ids_witness :
  body_refs (encode_items two_calls).1.2 =
    [(RefCall, "a_b"); (RefCall, "a_b_2"); (RefResult, "a_b_2"); (RefResult, "a_b")]
  /\ exists ids, ids_ok ids
       /\ Forall2 (fun x y => x.1 = y.1 /\ ids !! x.2 = Some y.2) (item_refs (items two_calls))
            (body_refs (encode_items two_calls).1.2).
Proof. split; [vm_compute; reflexivity|]. apply (messages_call_ids two_calls). vm_compute. reflexivity. Defined.
