(* ===== verification/MessagesLimits.v ===== *)
(** * MessagesLimits: what a Messages request may ask for

    The limits of the vendor on the sampling fields of a written request:
    [max_tokens] is always there and above the thinking budget, thinking with a
    budget leaves out the fields it does not allow, and neither it nor a model
    that rejects it goes with a forced tool. *)
From stdpp Require Import gmap pretty.
From S2P Require Import Prelude Text Json JsonCodec Floats Ir ProfileTypes StreamCore Usage Shapes Chat Loss RequestCore.
From S2P Require Import Schema Tools ToolIds MessagesRequest MessagesEncode MessagesSampling CacheBreakpoints MessagesBody.

(** ** What each step writes *)
Lemma put_some k v body : index_set body k v = put k (Some v) body.
Proof. done. Qed.

Lemma no_put k body : body = put k None body.
Proof. done. Qed.

Ltac write_one :=
  apply writes_at; let b := fresh "b" in intros b _;
  repeat (rewrite ?nbind_fst; cbn [quiet fst]; case_match);
  rewrite ?nbind_fst; cbn [quiet fst];
  first [eexists (Some _); reflexivity | by exists None | by eexists].

Lemma writes_previous s : writes ["diagnostics"] (encode_previous_message_id s).
Proof. apply writes_at. intros body _. by eexists. Qed.

Lemma writes_stop s : writes ["stop_sequences"] (encode_stop s).
Proof. apply writes_at. intros body _. unfold encode_stop. rewrite nbind_fst. by eexists. Qed.

Lemma writes_choice c : writes ["tool_choice"] (encode_tool_choice c).
Proof. unfold encode_tool_choice. destruct c; write_one. Qed.

Lemma writes_parallel o : writes ["tool_choice"] (encode_disable_parallel_tool_use o).
Proof. unfold encode_disable_parallel_tool_use. write_one. Qed.

Lemma writes_tier o : writes ["service_tier"] (encode_service_tier o).
Proof. unfold encode_service_tier. write_one. Qed.

Lemma writes_config s : writes ["output_config"] (encode_output_config s).
Proof.
  apply writes_at. intros body _. unfold encode_output_config. rewrite nbind_fst. cbn [quiet fst].
  match goal with |- exists o, match ?out with _ => _ end = _ => destruct out as [| | | | |[|kv m]] end;
    first [by exists None | by eexists (Some _)].
Qed.

Lemma writes_default : writes ["max_tokens"] default_max_tokens.
Proof. unfold default_max_tokens. write_one. Qed.

Lemma writes_forced m : writes ["tool_choice"] (omit_forced_tool_choice_rejected_by_model m).
Proof. unfold omit_forced_tool_choice_rejected_by_model. write_one. Qed.

(** The steps before thinking and after the model's check. *)
Definition steps_before (ir : IrRequest) : list step := firstn 24 (sampling_steps ir).
Definition steps_after (ir : IrRequest) : list step := skipn 27 (sampling_steps ir).

Lemma sampling_split ir :
  sampling_steps ir = steps_before ir
    ++ [encode_thinking (sampling ir); omit_sampling_rejected_by_thinking (sampling ir);
        omit_forced_tool_choice_rejected_by_model (model ir)] ++ steps_after ir.
Proof. reflexivity. Qed.

Lemma writes_no_slots l : writes [] (no_slot_steps l).
Proof. apply writes_only_note. Qed.

#[local] Hint Resolve writes_no_slots writes_set_when writes_only_note writes_previous writes_stop writes_choice writes_parallel writes_tier
  writes_config writes_default writes_forced : messages_writes.

Ltac all_writes := repeat (apply Forall2_cons_2; [solve [eauto with messages_writes]|]); apply Forall2_nil_2.

Lemma after_writes ir : exists ks, Forall2 writes ks (skipn 2 (steps_after ir)) /\ concat ks = ["output_config"; "metadata"].
Proof.
  eexists. split.
  - unfold steps_after. cbn [skipn sampling_steps]. all_writes.
  - reflexivity.
Qed.

(** ** Before thinking *)

(** The keys of the body the sampling steps start from. *)
Definition unset_keys : list string := ["max_tokens"; "thinking"; "temperature"; "top_p"; "top_k"; "tool_choice"].
Definition unset (body : json) : Prop := is_object body = true /\ forall k, one_of k unset_keys = true -> get body k = None.

Definition choice_kind (c : IrToolChoice) : string :=
  match c with Auto => "auto" | NoTool => "none" | Required => "any" | Named _ => "tool" end.

(** The tool choice of a body that asks for [c]. *)
Definition chooses (c : IrToolChoice) (body : json) : Prop :=
  match get body "tool_choice" with
  | None => c = Auto
  | Some choice => is_object choice = true /\ get_str choice "type" = Some (choice_kind c)
  end.

Lemma chooses_start c body : is_object body = true -> get body "tool_choice" = None ->
  chooses c (encode_tool_choice c body).1.
Proof.
  intros O G. unfold chooses, encode_tool_choice. cbn [quiet fst].
  destruct c; rewrite ?get_index_set by done; eqb_literals; [by rewrite G|done..].
Qed.

Lemma chooses_parallel c o body : is_object body = true -> chooses c body ->
  chooses c (encode_disable_parallel_tool_use o body).1.
Proof.
  unfold chooses. intros O C. unfold encode_disable_parallel_tool_use, object_field.
  assert (forall v b, is_object v = true -> get_str v "type" = Some (choice_kind c) ->
    match get (index_set body "tool_choice" (index_set v "disable_parallel_tool_use" (JBool b))) "tool_choice" with
    | None => c = Auto
    | Some choice => is_object choice = true /\ get_str choice "type" = Some (choice_kind c)
    end) as SET.
  { intros v b V T. rewrite get_index_set by done. eqb_literals. rewrite is_object_index_set. split; [done|].
    unfold get_str. by rewrite get_index_set. }
  destruct (get body "tool_choice") as [v|] eqn:G.
  - destruct C as [V T]. cbn [opt_filter]. rewrite V. destruct o as [[]|]; cbn [unwrap_or];
      [rewrite nbind_fst; by apply SET|rewrite nbind_fst; by apply SET|]. cbn [quiet fst]. by rewrite G.
  - cbn [opt_filter unwrap_or]. subst c. destruct o as [[]|]; [cbn [quiet fst]; by rewrite G|rewrite nbind_fst; by apply SET|].
    cbn [quiet fst]. by rewrite G.
Qed.

Lemma chooses_other c ks s body : writes ks s -> one_of "tool_choice" ks = false -> is_object body = true ->
  chooses c body -> chooses c (s body).1.
Proof. intros W N O. unfold chooses. destruct (W body O) as [_ G]. by rewrite G. Qed.

(** The steps before thinking, as what comes before the tool choice, the
    choice, and the rest. *)
Lemma before_parts ir :
  steps_before ir = firstn 10 (sampling_steps ir)
    ++ [set_when (sp_max_tokens (sampling ir)) "max_tokens" jint (quiet tt); encode_stop (sampling ir)]
    ++ [encode_tool_choice (sp_tool_choice (sampling ir));
        encode_disable_parallel_tool_use (sp_parallel_tool_calls (sampling ir))]
    ++ skipn 14 (steps_before ir).
Proof. reflexivity. Qed.

Lemma head_writes ir : exists ks, Forall2 writes ks (firstn 10 (sampling_steps ir))
  /\ concat ks = ["temperature"; "top_p"; "top_k"; "inference_geo"; "diagnostics"; "container"; "context_management"; "mcp_servers"].
Proof.
  eexists. split.
  - cbn [firstn sampling_steps]. all_writes.
  - reflexivity.
Qed.

Lemma tail_writes ir : exists ks, Forall2 writes ks (skipn 14 (steps_before ir)) /\ concat ks = ["service_tier"; "stream"].
Proof.
  eexists. split.
  - unfold steps_before. cbn [skipn firstn sampling_steps]. all_writes.
  - reflexivity.
Qed.

(** What the body is when thinking comes. *)
Record ready (s : IrSampling) (body : json) : Prop := {
  rd_object : is_object body = true;
  rd_max : get body "max_tokens" = jint <$> sp_max_tokens s;
  rd_thinking : get body "thinking" = None;
  rd_choice : chooses (sp_tool_choice s) body;
  rd_temperature : sp_temperature s = None -> get body "temperature" = None;
  rd_top_p : sp_top_p s = None -> get body "top_p" = None;
  rd_top_k : sp_top_k s = None -> get body "top_k" = None
}.

(** The steps at the start, and what they leave unset. *)
Lemma head_unset ir body k : unset body ->
  one_of k ["max_tokens"; "thinking"; "tool_choice"]
  || (is_none (sp_temperature (sampling ir)) && String.eqb k "temperature")
  || (is_none (sp_top_p (sampling ir)) && String.eqb k "top_p")
  || (is_none (sp_top_k (sampling ir)) && String.eqb k "top_k") = true ->
  get (steps (firstn 10 (sampling_steps ir)) body).1 k = None.
Proof.
  intros [O U] K. set (s := sampling ir) in *.
  assert (exists ks, Forall2 writes ks (skipn 3 (firstn 10 (sampling_steps ir)))
    /\ concat ks = ["inference_geo"; "diagnostics"; "container"; "context_management"; "mcp_servers"]) as (ks & W & E).
  { eexists. split; [cbn [firstn skipn sampling_steps]; all_writes|reflexivity]. }
  change (firstn 10 (sampling_steps ir)) with
    ([set_when (sp_temperature s) "temperature" json_f32 (quiet tt); set_when (sp_top_p s) "top_p" json_f32 (quiet tt);
      set_when (sp_top_k s) "top_k" jint (quiet tt)] ++ skipn 3 (firstn 10 (sampling_steps ir))).
  rewrite steps_app, !steps_cons, steps_nil, !set_when_fst. pose proof (writes_steps _ _ W) as WS. rewrite E in WS.
  match goal with |- get (steps _ ?b).1 _ = _ => destruct (WS b) as [_ G]; [by rewrite !is_object_put|] end.
  rewrite !orb_true_iff, !andb_true_iff, one_of_In in K. cbn [In] in K.
  destruct K as [[[K|[N K]]|[N K]]|[N K]]; [|apply String.eqb_eq in K; subst k..].
  - repeat (destruct K as [<-|K]; [rewrite G, !get_put by (rewrite ?is_object_put; done); by apply U|]). done.
  - rewrite G, !get_put by (rewrite ?is_object_put; done). eqb_literals. destruct (sp_temperature s); [done|]. by apply U.
  - rewrite G, !get_put by (rewrite ?is_object_put; done). eqb_literals. destruct (sp_top_p s); [done|]. by apply U.
  - rewrite G, !get_put by (rewrite ?is_object_put; done). eqb_literals. destruct (sp_top_k s); [done|]. by apply U.
Qed.

Lemma before_ready ir body : unset body -> ready (sampling ir) (steps (steps_before ir) body).1.
Proof.
  intros U. pose proof (head_unset ir body) as HU. destruct (U) as [O _]. rewrite before_parts, !steps_app. set (s := sampling ir).
  destruct (head_writes ir) as (ks & W & K). pose proof (writes_steps _ _ W body O) as [O1 G1]. rewrite K in G1.
  set (b1 := (steps (firstn 10 (sampling_steps ir)) body).1) in *.
  rewrite !steps_cons, !steps_nil. 
  pose proof (writes_set_when (sp_max_tokens s) "max_tokens" jint (quiet tt) b1 O1) as [O2 G2].
  assert (get (set_when (sp_max_tokens s) "max_tokens" jint (quiet tt) b1).1 "max_tokens" = jint <$> sp_max_tokens s) as M2.
  { rewrite set_when_fst, get_put by done. eqb_literals. rewrite HU by done. by destruct (sp_max_tokens s). }
  set (b2 := (set_when (sp_max_tokens s) "max_tokens" jint (quiet tt) b1).1) in *.
  destruct (writes_stop s b2 O2) as [O3 G3]. set (b3 := (encode_stop s b2).1) in *.
  destruct (writes_choice (sp_tool_choice s) b3 O3) as [O4 G4].
  assert (chooses (sp_tool_choice s) (encode_tool_choice (sp_tool_choice s) b3).1) as C4.
  { apply chooses_start; [done|]. rewrite G3, G2 by done. by apply HU. }
  set (b4 := (encode_tool_choice (sp_tool_choice s) b3).1) in *.
  destruct (writes_parallel (sp_parallel_tool_calls s) b4 O4) as [O5 G5].
  pose proof (chooses_parallel _ (sp_parallel_tool_calls s) b4 O4 C4) as C5.
  set (b5 := (encode_disable_parallel_tool_use (sp_parallel_tool_calls s) b4).1) in *.
  destruct (tail_writes ir) as (kt & WT & KT). pose proof (writes_steps _ _ WT) as W6. rewrite KT in W6.
  destruct (W6 b5 O5) as [O6 G6].
  split; [done| | |by eapply chooses_other|intros N..]; [| |rewrite G6, G5, G4, G3, G2 by done; apply HU; [done|]; fold s; by rewrite N, ?orb_true_r..].
  - rewrite G6, G5, G4, G3 by done. exact M2.
  - rewrite G6, G5, G4, G3, G2 by done. by apply HU.
Qed.

(** ** Thinking *)

(** The counts of the request are [u32]. *)
Record counts_u32 (s : IrSampling) : Prop := {
  cu_max : forall n, sp_max_tokens s = Some n -> is_u32 n;
  cu_reasoning : forall n, sp_max_reasoning_tokens s = Some n -> is_u32 n;
  cu_budget : forall n, sp_thinking_budget s = Some n -> is_u32 n
}.

Lemma effort_budget_u32 effort : is_u32 (messages_effort_budget effort).
Proof. unfold messages_effort_budget, MESSAGES_DEFAULT_THINKING_BUDGET. repeat case_match; int_lia. Qed.

Lemma budget_u32 s : counts_u32 s -> is_u32 (budget_of s).
Proof.
  intros [_ R B]. unfold budget_of. destruct (sp_max_reasoning_tokens s) as [n|] eqn:E1; [by apply R|].
  destruct (sp_thinking_budget s) as [n|] eqn:E2; [by apply B|]. cbn [opt_or unwrap_or].
  destruct (thinking_effort s); [apply effort_budget_u32|]. unfold MESSAGES_DEFAULT_THINKING_BUDGET. int_lia.
Qed.

(** [max_tokens] above a budget, or as high as it goes. *)
Definition above_budget (body : json) (b : Z) : Prop :=
  exists n, get body "max_tokens" = Some (jint n) /\ is_u32 n /\ (b < n \/ (b = n /\ n = u32_max)).

Lemma raise_above s body b : is_u32 b -> is_object body = true ->
  get body "max_tokens" = jint <$> sp_max_tokens s -> counts_u32 s -> above_budget (raise_max_tokens b body).1 b.
Proof.
  intros B O M U. unfold raise_max_tokens, get_u64. rewrite M. destruct (sp_max_tokens s) as [n|] eqn:E; cbn [fmap option_fmap option_map].
  - pose proof (cu_max s U n E) as N. cbn [mbind option_bind]. rewrite as_u64_jint by done. cbn [unwrap_or].
    rewrite Z.mod_small by int_lia. destruct (n <=? b) eqn:L.
    + rewrite nbind_fst. cbn [quiet fst]. eexists. rewrite get_index_set by done. eqb_literals. split; [done|].
      unfold u32_saturating_add, MESSAGES_DEFAULT_COMPLETION_TOKENS. int_lia.
    + cbn [quiet fst]. exists n. rewrite M. split; [done|]. int_lia.
  - cbn [mbind option_bind unwrap_or]. change (0 mod 2 ^ 32) with 0. rewrite (proj2 (Z.leb_le 0 b)) by int_lia.
    rewrite nbind_fst. cbn [quiet fst]. eexists. rewrite get_index_set by done. eqb_literals. split; [done|].
    unfold u32_saturating_add, MESSAGES_DEFAULT_COMPLETION_TOKENS. int_lia.
Qed.

Definition thinking_kind (body : json) : option string := pointer_str body [Key "thinking"; Key "type"].
Definition choice_type (body : json) : option string := pointer_str body [Key "tool_choice"; Key "type"].

(** Thinking is on with this budget. *)
Definition thinks (body : json) (b : Z) : Prop :=
  get body "thinking" = Some (jobj [("type", JStr "enabled"); ("budget_tokens", jint b)]).

Lemma thinking_kind_of body v : get body "thinking" = Some v -> thinking_kind body = get_str v "type".
Proof. intros G. unfold thinking_kind, pointer_str. rewrite pointer_key, G. cbn [mbind option_bind]. rewrite pointer_key. unfold get_str. by destruct (get v "type"). Qed.

Lemma native_not_enabled s v : native_thinking s = Some v -> get_str v "type" <> Some "enabled".
Proof.
  unfold native_thinking. intros H E. destruct (sp_messages_thinking s) as [w|]; [|done]. cbn [opt_filter] in H.
  destruct (is_some_and _ _) eqn:K; [|done]. injection H as ->. rewrite E in K. by vm_compute in K.
Qed.

(** What the thinking step leaves. *)
Record thought (s : IrSampling) (body body' : json) : Prop := {
  tk_object : is_object body' = true;
  tk_others : forall k, one_of k ["thinking"; "max_tokens"] = false -> get body' k = get body k;
  tk_result : (exists b, is_u32 b /\ thinks body' b /\ above_budget body' b)
    \/ (thinking_kind body' <> Some "enabled" /\ get body' "max_tokens" = get body "max_tokens")
}.

Lemma thought_set s body v : is_object body = true -> get_str v "type" <> Some "enabled" ->
  thought s body (index_set body "thinking" v).
Proof.
  intros O N. split; [by rewrite is_object_index_set| |right].
  - intros k K. rewrite get_index_set by done. unfold one_of in K. cbn [existsb] in K. by destruct (String.eqb k "thinking").
  - rewrite (thinking_kind_of _ v); [|by rewrite get_index_set]. split; [done|]. by rewrite get_index_set.
Qed.

Lemma thinking_done s body : ready s body -> counts_u32 s -> thought s body (encode_thinking s body).1.
Proof.
  intros R U. pose proof (rd_object s body R) as O. unfold encode_thinking. destruct (native_thinking s) as [native|] eqn:NT.
  { rewrite nbind_fst. apply thought_set; [done|]. by eapply native_not_enabled. }
  rewrite nbind_fst. destruct (thinking_off s); [rewrite nbind_fst; by apply thought_set|].
  destruct (want_thinking s); cbn [negb].
  - rewrite nbind_fst. set (b1 := index_set body "thinking" _).
    assert (is_object b1 = true) as O1 by (unfold b1; by rewrite is_object_index_set).
    assert (get b1 "max_tokens" = jint <$> sp_max_tokens s) as M1.
    { unfold b1. rewrite get_index_set by done. eqb_literals. apply (rd_max _ _ R). }
    pose proof (raise_above s b1 (budget_of s) (budget_u32 s U) O1 M1 U) as A.
    assert (writes ["max_tokens"] (raise_max_tokens (budget_of s))) as W by (unfold raise_max_tokens; write_one).
    destruct (W b1 O1) as [O2 G2]. split; [done| |left].
    + intros k K. unfold one_of in K. cbn [existsb] in K. rewrite !orb_false_iff in K. destruct K as (K1 & K2 & _).
      rewrite G2 by (unfold one_of; cbn [existsb]; by rewrite K2). unfold b1. rewrite get_index_set by done. by rewrite K1.
    + exists (budget_of s). split; [by apply budget_u32|]. split; [|done]. unfold thinks. rewrite G2 by done.
      unfold b1. by rewrite get_index_set.
  - cbn [quiet fst]. split; [done|done|]. right. split; [|done].
    unfold thinking_kind, pointer_str. rewrite pointer_key, (rd_thinking _ _ R). done.
Qed.

(** ** After thinking *)
Definition not_forced (body : json) : Prop := forced_kind (choice_type body) = false.

Lemma choice_type_of body v : get body "tool_choice" = Some v -> choice_type body = get_str v "type".
Proof. intros G. unfold choice_type, pointer_str. rewrite pointer_key, G. cbn [mbind option_bind]. rewrite pointer_key. unfold get_str. by destruct (get v "type"). Qed.

Lemma choice_type_none body : get body "tool_choice" = None -> choice_type body = None.
Proof. intros G. unfold choice_type, pointer_str. by rewrite pointer_key, G. Qed.

Lemma chooses_type c body : chooses c body -> choice_type body = Some (choice_kind c) \/ choice_type body = None.
Proof.
  unfold chooses. destruct (get body "tool_choice") as [v|] eqn:G; [|intros _; right; by apply choice_type_none].
  intros [_ T]. left. by rewrite (choice_type_of _ _ G).
Qed.

Lemma choice_auto_type v : is_object v = true -> get_str (choice_auto v) "type" = Some "auto".
Proof. intros O. unfold choice_auto, get_str. rewrite get_remove_key. eqb_literals. by rewrite get_index_set. Qed.

Lemma omit_when_get {A} (o : option A) key body k :
  get (omit_when o key body).1 k = if is_some o && String.eqb k key then None else get body k.
Proof. unfold omit_when. destruct (is_some o); [|done]. rewrite nbind_fst. apply get_remove_key. Qed.

Lemma omit_when_object {A} (o : option A) key body : is_object (omit_when o key body).1 = is_object body.
Proof. unfold omit_when. destruct (is_some o); [|done]. rewrite nbind_fst. apply is_object_remove_key. Qed.

Lemma writes_auto c : writes ["tool_choice"] (auto_when_thinking c).
Proof. unfold auto_when_thinking. destruct c; write_one. Qed.

Lemma auto_not_forced c body : is_object body = true -> chooses c body -> not_forced (auto_when_thinking c body).1.
Proof.
  intros O C. pose proof (chooses_type _ _ C) as T. unfold not_forced, auto_when_thinking, object_field.
  destruct c; cbn [quiet fst choice_kind] in *; try (by destruct T as [-> | ->]);
    rewrite nbind_fst; cbn [quiet fst];
    (erewrite choice_type_of; [|rewrite get_index_set by done; eqb_literals; reflexivity]);
    (destruct (get body "tool_choice") as [v|]; cbn [opt_filter]; [destruct (is_object v) eqn:V; [by rewrite choice_auto_type|done]|done]).
Qed.

(** The fields thinking does not allow are gone. *)
Definition without_sampling (body : json) : Prop :=
  get body "temperature" = None /\ get body "top_p" = None /\ get body "top_k" = None.

Lemma omit_done s body body' : ready s body -> thought s body body' -> thinking_kind body' = Some "enabled" ->
  let b := (omit_sampling_rejected_by_thinking s body').1 in
  is_object b = true /\ without_sampling b /\ not_forced b
  /\ (forall k, one_of k ["temperature"; "top_p"; "top_k"; "tool_choice"] = false -> get b k = get body' k).
Proof.
  intros R [O G _] E. cbn zeta. unfold omit_sampling_rejected_by_thinking. unfold thinking_kind in E.
  rewrite bool_decide_true by done. rewrite !steps_cons, steps_nil.
  set (b3 := (omit_when (sp_top_k s) "top_k" (omit_when (sp_top_p s) "top_p" (omit_when (sp_temperature s) "temperature" body').1).1).1).
  assert (forall k, get b3 k = if is_some (sp_top_k s) && String.eqb k "top_k" then None
     else if is_some (sp_top_p s) && String.eqb k "top_p" then None
     else if is_some (sp_temperature s) && String.eqb k "temperature" then None else get body' k) as G3.
  { intros k. unfold b3. by rewrite !omit_when_get. }
  assert (is_object b3 = true) as O3 by (unfold b3; by rewrite !omit_when_object).
  destruct (writes_auto (sp_tool_choice s) b3 O3) as [O4 G4]. split_and!; [done| | |].
  - unfold without_sampling. rewrite !G4, !G3, !G by done. eqb_literals. rewrite !andb_false_r, !andb_true_r.
    pose proof (rd_temperature _ _ R). pose proof (rd_top_p _ _ R). pose proof (rd_top_k _ _ R).
    destruct (sp_temperature s), (sp_top_p s), (sp_top_k s); cbn [is_some]; split_and!; auto.
  - apply auto_not_forced; [done|]. unfold chooses. rewrite G3, G by done. eqb_literals. rewrite !andb_false_r. apply (rd_choice _ _ R).
  - intros k K. unfold one_of in K. cbn [existsb] in K. rewrite !orb_false_iff in K. destruct K as (K1 & K2 & K3 & K4 & _).
    rewrite G4 by (unfold one_of; cbn [existsb]; by rewrite K4). rewrite G3, K1, K2, K3. by rewrite !andb_false_r.
Qed.

Lemma forced_done m body : is_object body = true ->
  let b := (omit_forced_tool_choice_rejected_by_model m body).1 in
  (not_forced body -> not_forced b) /\ (rejects_forced_tool_choice m = true -> not_forced b).
Proof.
  intros O. cbn zeta. unfold omit_forced_tool_choice_rejected_by_model.
  destruct (rejects_forced_tool_choice m && forced_kind (pointer_str body [Key "tool_choice"; Key "type"])) eqn:E.
  - rewrite nbind_fst. cbn [quiet fst].
    assert (not_forced (put "tool_choice" (choice_auto <$> object_field body "tool_choice") body)) as N; [|by split].
    apply andb_true_iff in E as [_ F]. unfold not_forced, object_field. fold (choice_type body) in F.
    destruct (get body "tool_choice") as [v|] eqn:G; [|by rewrite choice_type_none in F].
    rewrite (choice_type_of _ _ G) in F. assert (is_object v = true) as V by (destruct v; done).
    cbn [opt_filter]. rewrite V. cbn [fmap option_fmap option_map].
    erewrite choice_type_of; [|rewrite get_put by done; reflexivity]. by rewrite choice_auto_type.
  - cbn [quiet fst]. split; [done|]. intros M. rewrite M in E. exact E.
Qed.

(** ** The limits *)
Record limits (m : string) (body : json) : Prop := {
  lm_max : exists n, get body "max_tokens" = Some (jint n) /\ is_u32 n;
  lm_thinking : thinking_kind body = Some "enabled" ->
    (exists b, is_u32 b /\ thinks body b /\ above_budget body b) /\ without_sampling body /\ not_forced body;
  lm_model : rejects_forced_tool_choice m = true -> not_forced body
}.

(** The limits are about these fields. *)
Lemma limits_same m body body' :
  (forall k, one_of k unset_keys = true -> get body' k = get body k) -> limits m body -> limits m body'.
Proof.
  intros G [M T R].
  assert (thinking_kind body' = thinking_kind body) as TK by (unfold thinking_kind, pointer_str; by rewrite !pointer_key, G).
  assert (choice_type body' = choice_type body) as CT by (unfold choice_type, pointer_str; by rewrite !pointer_key, G).
  split.
  - by rewrite G.
  - rewrite TK. intros E. destruct (T E) as ((b & B & TH & A) & W & N). split_and!.
    + exists b. unfold thinks, above_budget. by rewrite !G.
    + unfold without_sampling. by rewrite !G.
    + unfold not_forced. by rewrite CT.
  - unfold not_forced. rewrite CT. exact R.
Qed.

Lemma sampling_limits ir body : unset body -> counts_u32 (sampling ir) -> limits (model ir) (encode_sampling ir body).1.
Proof.
  intros U C. unfold encode_sampling. rewrite sampling_split, !steps_app. set (s := sampling ir).
  pose proof (before_ready ir body U) as R. fold s in R. set (b0 := (steps (steps_before ir) body).1) in *.
  rewrite !steps_cons, steps_nil. pose proof (thinking_done s b0 R C) as T. set (b1 := (encode_thinking s b0).1) in *.
  assert (exists b2, (omit_sampling_rejected_by_thinking s b1).1 = b2 /\ is_object b2 = true
    /\ (forall k, one_of k ["thinking"; "max_tokens"] = true -> get b2 k = get b1 k)
    /\ (thinking_kind b1 = Some "enabled" -> without_sampling b2 /\ not_forced b2)) as (b2 & -> & O2 & G2 & E2).
  { eexists. split; [done|]. destruct (decide (thinking_kind b1 = Some "enabled")) as [E|N].
    - destruct (omit_done s b0 b1 R T E) as (O & W & F & G). split_and!; [done| |by split]. intros k K. apply one_of_In in K.
      cbn in K. by repeat (destruct K as [<-|K]; [apply G|]).
    - unfold omit_sampling_rejected_by_thinking. unfold thinking_kind in *. rewrite bool_decide_false by done.
      split_and!; [apply (tk_object _ _ _ T)|done|done]. }
  destruct (writes_forced (model ir) b2 O2) as [O3 G3]. destruct (forced_done (model ir) b2 O2) as [F3 M3].
  set (b3 := (omit_forced_tool_choice_rejected_by_model (model ir) b2).1) in *.
  (* the step that gives [max_tokens] a default *)
  change (steps_after ir) with (firstn 2 (steps_after ir) ++ skipn 2 (steps_after ir)). rewrite steps_app.
  destruct (after_writes ir) as (ks & W & K). pose proof (writes_steps _ _ W) as W5. rewrite K in W5.
  assert (exists b4, (steps (firstn 2 (steps_after ir)) b3).1 = b4 /\ is_object b4 = true
    /\ (forall k, k <> "max_tokens" -> get b4 k = get b3 k)
    /\ get b4 "max_tokens" = Some (unwrap_or (get b3 "max_tokens") (jint 4096))) as (b4 & -> & O4 & G4 & M4).
  { unfold steps_after. cbn [firstn skipn sampling_steps]. rewrite !steps_cons, steps_nil. unfold no_slot_steps. rewrite only_note_fst.
    unfold default_max_tokens. destruct (get b3 "max_tokens") as [v|] eqn:G; cbn [is_none].
    - by exists b3.
    - rewrite nbind_fst. cbn [quiet fst]. eexists. split; [done|]. rewrite is_object_index_set. split_and!; [done| |].
      + intros k N. rewrite get_index_set by done. by rewrite str_eqb_neq.
      + by rewrite get_index_set. }
  destruct (W5 b4 O4) as [_ G5].
  apply (limits_same _ b4); [intros k KU; apply G5; apply one_of_In in KU; cbn in KU; by repeat (destruct KU as [<-|KU]; [reflexivity|])|].
  assert (get b4 "thinking" = get b1 "thinking") as TH by (rewrite G4, G3, G2 by done; done).
  assert (get b3 "max_tokens" = get b1 "max_tokens") as MX by (rewrite G3, G2 by done; done).
  assert (thinking_kind b4 = thinking_kind b1) as TK by (unfold thinking_kind, pointer_str; by rewrite !pointer_key, TH).
  assert (get b4 "tool_choice" = get b3 "tool_choice") as TC by (by apply G4).
  assert (choice_type b4 = choice_type b3) as CT by (unfold choice_type, pointer_str; by rewrite !pointer_key, TC).
  split.
  - rewrite M4, MX. destruct (tk_result _ _ _ T) as [(b & _ & _ & n & -> & N & _)|[_ ->]]; [by exists n|].
    rewrite (rd_max _ _ R). destruct (sp_max_tokens s) as [n|] eqn:E; [|exists 4096; split; [done|int_lia]].
    exists n. split; [done|]. by apply (cu_max s C).
  - rewrite TK. intros E. destruct (E2 E) as [(T1 & T2 & T3) N]. split_and!.
    + destruct (tk_result _ _ _ T) as [(b & B & TB & n & MB & A)|[N' _]]; [|done]. exists b. split; [done|]. unfold thinks, above_budget.
      rewrite TH, M4, MX, MB. cbn [unwrap_or]. split; [done|]. by exists n.
    + unfold without_sampling. by rewrite !G4, !G3.
    + unfold not_forced. rewrite CT. by apply F3.
  - unfold not_forced. rewrite CT. exact M3.
Qed.

(** Stripping and marking leave the limits. *)
Lemma limits_strip m body : limits m body -> limits m (strip_all_cache_control body).
Proof.
  assert (forall p, forallb (fun t => match t with Key k => negb (String.eqb k "cache_control") | Idx _ => false end) p = true ->
            pointer_str (strip_all_cache_control body) p = pointer_str body p) as P.
  { intros p K. unfold pointer_str. by rewrite pointer_strip, as_str_strip. }
  intros [M T R]. unfold thinking_kind, not_forced, choice_type in *. split.
  - destruct M as (n & M & N). exists n. by rewrite get_strip, M.
  - unfold thinking_kind. rewrite P by done. intros E. destruct (T E) as ((b & B & TH & n & MX & A) & (W1 & W2 & W3) & N). split_and!.
    + exists b. unfold thinks, above_budget. rewrite !get_strip, TH, MX by done. split_and!; [done|done|]. by exists n.
    + unfold without_sampling. by rewrite !get_strip, W1, W2, W3.
    + unfold not_forced, choice_type. by rewrite P.
  - unfold not_forced, choice_type. by rewrite P.
Qed.

Lemma unset_start ir tools system messages : unset (body_start ir tools system messages).
Proof.
  unfold unset, body_start. rewrite !is_object_put. split; [done|]. intros k K. apply one_of_In in K. cbn in K.
  by repeat (destruct K as [<-|K]; [rewrite !get_put by (by rewrite ?is_object_put)|]).
Qed.

(** C12. A written Messages request stays within the limits of the vendor, for a
    request whose counts are u32 numbers: [max_tokens] is there and a u32; when
    the body has thinking of type "enabled", that is thinking with a budget,
    [max_tokens] is above the budget, or both are the largest u32,
    [temperature], [top_p] and [top_k] are absent and no tool is forced; and a
    model that rejects a forced tool is never sent one. Thinking of another
    type, such as "adaptive", is passed on as it came and sets no limit here. *)
Theorem messages_request_limits `{SerdeJson} (ir : IrRequest) tools report body events :
  counts_u32 (sampling ir) -> MessagesBody.encode ir tools report = Some (Ok (body, events)) -> limits (model ir) body.
Proof.
  intros C. unfold MessagesBody.encode. destruct (encode_items ir) as [[system messages] turn_events].
  destruct (let* _ := _ in check_sampling (sampling ir)); [|done].
  pose proof (sampling_limits ir (body_start ir tools system messages) (unset_start _ _ _ _) C) as L.
  destruct (encode_sampling ir (body_start ir tools system messages)) as [b0 sampling_events]. cbn [fst] in L.
  destruct (apply_cache_breakpoints ir b0) as [[b1 cache_events]|] eqn:A; [|done]. intros [= <- _].
  apply apply_other_fields in A as [->|O]; [done|]. eapply limits_same; [|by apply limits_strip].
  intros k K. apply O. apply one_of_In in K. cbn in K. by repeat (destruct K as [<-|K]; [reflexivity|]).
Qed.

(** ** At a request *)
#[local] Existing Instance bits_codec.

(** Thinking by effort, with a temperature, few tokens and a forced tool. *)
Definition thinking_request : json :=
  jobj [("model", JStr "claude-opus-5-5"); ("max_tokens", jint 100); ("temperature", JNum (NumFloat 4602678819172646912));
        ("output_config", jobj [("effort", JStr "high")]); ("tool_choice", jobj [("type", JStr "any")]);
        ("messages", JArr [jobj [("role", JStr "user"); ("content", JStr "hi")]])].

Definition thinking_ir : IrRequest :=
  match MessagesRequest.decode thinking_request with Ok (ir, _) => ir | Err _ => request_default end.

Lemma messages_request_limits_witness :
  match MessagesBody.encode thinking_ir [] [] with
  | Some (Ok (body, _)) => limits "claude-opus-5-5" body /\ thinking_kind body = Some "enabled"
      /\ get body "max_tokens" = Some (jint 36864)
  | _ => False
  end.
Proof.
  destruct (MessagesBody.encode thinking_ir [] []) as [[[body events]|]|] eqn:E; [|by vm_compute in E..].
  split; [|by vm_compute in E; injection E as <- _].
  apply (messages_request_limits thinking_ir [] [] body events); [|exact E].
  split; [intros n [= <-]; int_lia|by intros n [=]..].
Defined.
