(* ===== verification/GeminiSchema.v ===== *)
(** * GeminiSchema: tool schemas for Gemini

    [relax_gemini_schema] of [W/map/gemini.rs].  Gemini takes a subset of JSON
    schema: keywords it rejects are dropped with a note, and a local reference
    is replaced by the definition it names.  A name that is being replaced is
    on a stack, so a cycle is dropped; the recursion goes by fuel, and
    [relax_total] shows that one step for each level of the schema and of the
    definitions, once per definition, is enough. *)
From stdpp Require Import pretty.
From S2P Require Import Prelude Text Json Ir Loss Schema.

(** ** Fuel and notes *)
Definition fuelled (A : Type) : Type := option (noted A).

Definition fbind {A B} (c : fuelled A) (f : A -> fuelled B) : fuelled B :=
  match c with
  | Some (a, before) => match f a with Some (b, after) => Some (b, before ++ after) | None => None end
  | None => None
  end.

Notation "'let?!' p := c1 'in' c2" := (fbind c1 (fun p => c2))
  (at level 10, p pattern, c1 at level 100, c2 at level 200) : wire_scope.

Fixpoint fmap_all {A B} (f : A -> fuelled B) (l : list A) : fuelled (list B) :=
  match l with
  | [] => Some (quiet [])
  | a :: l => let?! b := f a in let?! bs := fmap_all f l in Some (quiet (b :: bs))
  end.

(** The same with the position of each element. *)
Definition fmap_indexed {A B} (f : nat -> A -> fuelled B) (l : list A) : fuelled (list B) :=
  fmap_all (fun x => f (fst x) (snd x)) (imap pair l).

(** ** Definitions and references *)
Definition or_insert (m : object) (kv : string * json) : object :=
  if obj_contains (fst kv) m then m else obj_insert (fst kv) (snd kv) m.

(** [$defs] first, then [definitions]. *)
Definition schema_defs (schema : json) : object :=
  fold_left (fun defs key => fold_left or_insert (unwrap_or (get schema key ≫= as_object) []) defs)
    ["$defs"; "definitions"] [].

Definition local_ref_name (reference : string) : option string :=
  name ← opt_or (strip_prefix "#/$defs/" reference) (strip_prefix "#/definitions/" reference);
  if is_empty name || contains_char "/" name then None else Some name.

Definition remove (k : string) (m : object) : object := List.filter (fun kv => negb (String.eqb kv.1 k)) m.

(** [if obj.remove(key).is_some() { report.record(path.key, Drop, detail) }] *)
Definition drop_key (path detail : string) (m : object) (key : string) : noted object :=
  let! _ := note_if (obj_contains key m) (path +:+ "." +:+ key) Drop detail in quiet (remove key m).

(** ** The keywords of one node *)
Definition drop_keywords (path : string) (m : object) : noted object :=
  let! without := drop_key path "prefixItems has no Gemini slot" m "prefixItems" in
  let m := if obj_contains "prefixItems" m then or_insert without ("items", JObj []) else without in
  let! m := drop_key path "$schema has no Gemini slot" m "$schema" in
  let! m := drop_key path "exclusive bound has no Gemini slot" m "exclusiveMinimum" in
  drop_key path "exclusive bound has no Gemini slot" m "exclusiveMaximum".

Section Node.
Context (relax : string -> json -> fuelled json).

(** [f] on the member of this key; a map has one. *)
Definition visit_key (k : string) (f : json -> fuelled json) (m : object) : fuelled object :=
  fmap_all (fun kv => if String.eqb (fst kv) k then let?! x := f (snd kv) in Some (quiet (fst kv, x))
                      else Some (quiet kv)) m.

Definition relax_named (path : string) (x : json) : fuelled json :=
  match x with
  | JObj props =>
      let?! props := fmap_all (fun p => let?! y := relax (path +:+ ".properties." +:+ fst p) (snd p) in
                                        Some (quiet (fst p, y))) props in
      Some (quiet (JObj props))
  | _ => Some (quiet x)
  end.

Definition relax_list (path : string) (l : list json) : fuelled json :=
  let?! l := fmap_indexed (fun i y => relax (path +:+ "[" +:+ pretty i +:+ "]") y) l in Some (quiet (JArr l)).

Definition relax_items (path : string) (x : json) : fuelled json :=
  match x with
  | JArr l => relax_list (path +:+ ".items") l
  | _ => relax (path +:+ ".items") x
  end.

Definition relax_listed (path key : string) (x : json) : fuelled json :=
  match x with JArr l => relax_list (path +:+ "." +:+ key) l | _ => Some (quiet x) end.

Definition relax_not (path : string) (x : json) : fuelled json :=
  match x with JObj _ => relax (path +:+ ".not") x | _ => Some (quiet x) end.

(** A node without a reference. *)
Definition relax_body (path : string) (m : object) : fuelled json :=
  let?! m := Some (drop_keywords path m) in
  let?! m := visit_key "properties" (relax_named path) m in
  let?! m := visit_key "items" (relax_items path) m in
  let?! m := visit_key "anyOf" (relax_listed path "anyOf") m in
  let?! m := visit_key "oneOf" (relax_listed path "oneOf") m in
  let?! m := visit_key "allOf" (relax_listed path "allOf") m in
  let?! m := Some (drop_key path "additionalProperties has no Gemini slot" m "additionalProperties") in
  let?! m := visit_key "not" (relax_not path) m in
  Some (quiet (JObj (remove "definitions" (remove "$defs" m)))).
End Node.

(** ** The recursion *)
Section Defs.
Context (defs : object).

Definition note_ref (path detail : string) : fuelled unit := Some (note (path +:+ ".$ref") Drop detail).

Fixpoint relax_node (fuel : nat) (stack : list string) (path : string) (schema : json) : fuelled json :=
  match fuel with
  | O => None
  | S fuel =>
      let body := relax_body (relax_node fuel stack) path in
      match schema with
      | JObj m =>
          match obj_get "$ref" m ≫= as_str with
          | None => body m
          | Some reference =>
              let m := remove "$ref" m in
              match local_ref_name reference with
              | None => let?! _ := note_ref path "schema ref has no Gemini slot" in body m
              | Some name =>
                  if one_of name stack then
                    let?! _ := note_ref path "recursive schema ref has no Gemini slot" in body m
                  else
                    match obj_get name defs with
                    | Some (JObj def) => relax_node fuel (name :: stack) path (JObj (fold_left or_insert def m))
                    | _ => let?! _ := note_ref path "unresolved schema ref has no Gemini slot" in body m
                    end
              end
          end
      | _ => Some (quiet schema)
      end
  end.
End Defs.

Definition defs_depth (defs : object) : nat := fold_right (fun kv n => Nat.max (json_depth (snd kv)) n) 0%nat defs.

Definition relax_fuel (schema : json) : nat :=
  let defs := schema_defs schema in (S (S (json_depth schema)) + length defs * S (S (defs_depth defs)))%nat.

Definition relax_gemini_schema (schema : json) (path : string) : noted json :=
  match relax_node (schema_defs schema) (relax_fuel schema) [] path schema with
  | Some out => out
  | None => quiet schema (* never: [relax_total] *)
  end.

(** ** Lemmas on fuelled functions *)
Lemma fbind_inv {A B} (c : fuelled A) (f : A -> fuelled B) b : (let?! a := c in f a) = Some b ->
  exists a e b' e', c = Some (a, e) /\ f a = Some (b', e') /\ b = (b', e ++ e').
Proof.
  unfold fbind. destruct c as [[a e]|]; [|done]. destruct (f a) as [[b' e']|] eqn:F; [|done]. intros [= <-]. by exists a, e, b', e'.
Qed.

Lemma fbind_total {A B} (c : fuelled A) (f : A -> fuelled B) :
  (exists r, c = Some r) -> (forall a e, c = Some (a, e) -> exists r, f a = Some r) -> exists r, (let?! a := c in f a) = Some r.
Proof. intros [[a e] ->] F. destruct (F a e eq_refl) as [[b e'] E]. unfold fbind. rewrite E. by eexists. Qed.

Lemma fmap_all_inv {A B} (f : A -> fuelled B) l r : fmap_all f l = Some r ->
  Forall2 (fun a b => exists e, f a = Some (b, e)) l r.1.
Proof.
  revert r. induction l as [|a l IH]; intros r; cbn [fmap_all]; [by intros [= <-]|].
  intros H. apply fbind_inv in H as (b & e & b' & e' & F & H & R). apply fbind_inv in H as (bs & e1 & b1 & e2 & M & H & R1).
  injection H as <- <-. injection R1 as -> _. subst r. constructor; [by exists e|]. exact (IH _ M).
Qed.

Lemma fmap_all_total {A B} (f : A -> fuelled B) l : (forall a, In a l -> exists r, f a = Some r) -> exists r, fmap_all f l = Some r.
Proof.
  induction l as [|a l IH]; intros F; cbn [fmap_all]; [by eexists|].
  apply fbind_total; [apply F; by left|]. intros b e _. apply fbind_total; [apply IH; intros x X; apply F; by right|].
  intros bs e' _. by eexists.
Qed.

Lemma fmap_indexed_inv {A B} (f : nat -> A -> fuelled B) l r : fmap_indexed f l = Some r ->
  Forall2 (fun a b => exists i e, f i a = Some (b, e)) l r.1.
Proof.
  unfold fmap_indexed. intros H. apply fmap_all_inv in H. 
  assert (forall n (l : list A) (bs : list B), Forall2 (fun a b => exists e, f (fst a) (snd a) = Some (b, e)) (imap (fun i => pair (n + i)%nat) l) bs ->
            Forall2 (fun a b => exists i e, f i a = Some (b, e)) l bs) as G.
  { clear. intros n l. revert n. induction l as [|a l IH]; intros n bs F; cbn in F; inversion F as [|x b l' bs' X R]; subst; [constructor|].
    constructor; [destruct X as [e X]; by eexists _, e|]. apply (IH (S n)). 
    erewrite imap_ext; [exact R|]. intros i x _. cbn. f_equal. lia. }
  apply (G 0%nat). exact H.
Qed.

Lemma fmap_indexed_total {A B} (f : nat -> A -> fuelled B) l : (forall i a, In a l -> exists r, f i a = Some r) ->
  exists r, fmap_indexed f l = Some r.
Proof.
  intros F. apply fmap_all_total. intros [i a] I. apply F. cbn [snd].
  apply list_elem_of_In, list_elem_of_lookup in I as [j J]. rewrite list_lookup_imap in J.
  destruct (l !! j) as [x|] eqn:L; [|done]. cbn in J. injection J as _ <-. apply list_elem_of_In. by eapply list_elem_of_lookup_2.
Qed.

Lemma visit_key_inv k f m r : visit_key k f m = Some r ->
  Forall2 (fun kv kv' => kv'.1 = kv.1 /\ if String.eqb kv.1 k then exists e, f kv.2 = Some (kv'.2, e) else kv' = kv) m r.1.
Proof.
  intros H. apply fmap_all_inv in H. eapply Forall2_impl; [exact H|]. intros [k1 x] [k2 y] (e & E). cbn [fst snd] in *.
  destruct (String.eqb k1 k); [|by injection E as <- <- _].
  apply fbind_inv in E as (y' & e1 & p & e2 & F & E & R). injection E as <- <-. injection R as -> -> _. split; [done|by exists e1].
Qed.

Lemma visit_key_total k f m : (forall x, In (k, x) m -> exists r, f x = Some r) -> exists r, visit_key k f m = Some r.
Proof.
  intros F. apply fmap_all_total. intros [k' x] I. cbn [fst snd]. destruct (String.eqb_spec k' k) as [->|]; [|by eexists].
  apply fbind_total; [by apply F|]. intros y e _. by eexists.
Qed.

(** ** Keywords Gemini accepts *)
Definition rejected_keywords : list string :=
  ["prefixItems"; "$schema"; "exclusiveMinimum"; "exclusiveMaximum"; "additionalProperties"; "$defs"; "definitions"].

Definition no_reference (m : object) : bool := is_none (obj_get "$ref" m ≫= as_str).

Definition accepted (m : object) : bool :=
  forallb (fun k => negb (obj_contains k m)) rejected_keywords && no_reference m.

Lemma obj_get_remove k k' m : obj_get k' (remove k m) = if String.eqb k' k then None else obj_get k' m.
Proof.
  unfold remove. induction m as [|[k2 v2] m IH]; cbn [List.filter fst obj_get]; [by destruct (String.eqb k' k)|].
  destruct (String.eqb_spec k2 k) as [->|N]; cbn [negb obj_get].
  - rewrite IH. by destruct (String.eqb k' k).
  - rewrite IH. destruct (String.eqb k' k) eqn:E; [|done]. apply String.eqb_eq in E. by rewrite str_eqb_neq by congruence.
Qed.

Lemma obj_get_visit_key k f m m' e k' : visit_key k f m = Some (m', e) -> k' <> k -> obj_get k' m' = obj_get k' m.
Proof.
  intros H N. apply visit_key_inv in H. cbn [fst] in *.
  induction H as [|[k1 x] [k2 y] m m' [E V] _ IH]; [done|]. cbn [fst snd obj_get] in *. subst k2.
  destruct (String.eqb_spec k1 k) as [->|N1]; [|by injection V as ->; rewrite IH].
  by rewrite (str_eqb_neq k' k).
Qed.

Lemma obj_get_or_insert m k v k' : obj_get k' (or_insert m (k, v)) = if String.eqb k' k then Some (unwrap_or (obj_get k m) v) else obj_get k' m.
Proof.
  unfold or_insert, obj_contains. cbn [fst snd]. destruct (obj_get k m) eqn:G; cbn [is_some unwrap_or].
  - destruct (String.eqb k' k) eqn:E; [|done]. apply String.eqb_eq in E as ->. done.
  - by rewrite obj_get_insert.
Qed.

Lemma drop_key_fst path detail m k : (drop_key path detail m k).1 = remove k m.
Proof. unfold drop_key. by rewrite nbind_fst. Qed.

(** ** The result of a node *)
Section Result.
Context (relax : string -> json -> fuelled json).

Definition good (v : json) : bool := every_schema accepted v.

Context (relax_good : forall p x r, relax p x = Some r -> good r.1 = true).
Context (relax_shape : forall p x r, relax p x = Some r -> if is_object x then is_object r.1 = true else r.1 = x).

Lemma all_good {A} (f : A -> json -> Prop) l l' : (forall a b, f a b -> good b = true) -> Forall2 f l l' -> forallb good l' = true.
Proof. intros G F. induction F as [|a b l l' H _ IH]; [done|]. cbn. by rewrite (G _ _ H), IH. Qed.

Lemma named_good path x r : relax_named relax path x = Some r -> member_ok good "properties" r.1 = true.
Proof.
  change (member_ok good "properties" r.1) with (match r.1 with JObj props => forallb (fun p => good (snd p)) props | _ => true end).
  destruct x as [| | | | |props]; cbn [relax_named]; try by intros [= <-].
  intros H. apply fbind_inv in H as (ps & e & b & e' & F & [= <- <-] & ->). cbn [fst].
  apply fmap_all_inv in F. cbn [fst] in F. induction F as [|[k y] [k2 z] l l' [e2 H] _ IH]; [done|]. cbn [forallb snd].
  apply fbind_inv in H as (y' & e3 & b & e4 & R & [= <- <-] & [= -> -> _]).
  apply relax_good in R. cbn [fst] in R. by rewrite R, IH.
Qed.

Lemma list_good path l r : relax_list relax path l = Some r -> exists l', r.1 = JArr l' /\ forallb good l' = true.
Proof.
  unfold relax_list. intros H. apply fbind_inv in H as (l' & e & b & e' & F & [= <- <-] & ->). cbn [fst]. exists l'. split; [done|].
  apply fmap_indexed_inv in F. eapply all_good; [|exact F]. intros a b (i & e2 & R). exact (relax_good _ _ _ R).
Qed.

Lemma items_good path x r : relax_items relax path x = Some r -> member_ok good "items" r.1 = true.
Proof.
  change (member_ok good "items" r.1) with (match r.1 with JArr l => forallb good l | _ => good r.1 end).
  destruct x as [| | | |l|m]; cbn [relax_items]; intros H;
    try (pose proof (relax_shape _ _ _ H) as S; cbn in S; rewrite S; done).
  - apply list_good in H as (l' & -> & G). exact G.
  - pose proof (relax_shape _ _ _ H) as S. cbn in S. apply relax_good in H. by destruct r.1.
Qed.

Lemma listed_good path key k x r : one_of k listed_schemas && negb (one_of k named_schemas) && negb (String.eqb k "items") = true ->
  relax_listed relax path key x = Some r -> member_ok good k r.1 = true.
Proof.
  rewrite !andb_true_iff, !negb_true_iff. intros [[K N] I]. unfold member_ok. rewrite N, I, K.
  destruct x as [| | | |l|m]; cbn [relax_listed]; try by intros [= <-].
  intros H. apply list_good in H as (l' & -> & G). exact G.
Qed.

Lemma not_good path x r : relax_not relax path x = Some r -> member_ok good "not" r.1 = true.
Proof.
  change (member_ok good "not" r.1) with (match r.1 with JObj _ => good r.1 | _ => true end).
  destruct x as [| | | | |m]; cbn [relax_not]; try by intros [= <-]. intros H. apply relax_good in H. by destruct r.1.
Qed.

(** The members of these keys are good. *)
Definition settled (ks : list string) (m : object) : Prop :=
  Forall (fun kv => one_of kv.1 ks = true -> member_ok good kv.1 kv.2 = true) m.

Lemma settled_visit k f ks m r : (forall x r, f x = Some r -> member_ok good k r.1 = true) ->
  settled ks m -> visit_key k f m = Some r -> settled (k :: ks) r.1.
Proof.
  intros F S H. apply visit_key_inv in H. destruct r as [m' e]. cbn [fst] in *. unfold settled in *.
  induction H as [|[k1 x] [k2 y] m m' [E V] _ IH]; [constructor|]. apply Forall_cons in S as [S1 S]. constructor; [|by apply IH].
  cbn [fst snd] in *. subst k2. unfold one_of. cbn [existsb].
  destruct (String.eqb_spec k1 k) as [->|N]; cbn [orb].
  - intros _. destruct V as [e2 V]. exact (F _ _ V).
  - injection V as ->. exact S1.
Qed.

Lemma settled_remove ks k m : settled ks m -> settled ks (remove k m).
Proof. unfold settled, remove. induction 1 as [|kv m H _ IH]; [constructor|]. cbn. destruct (negb _); [by constructor|done]. Qed.

(** All members, when the others are not there. *)
Lemma settled_all m : settled ["not"; "allOf"; "oneOf"; "anyOf"; "items"; "properties"] m -> 
  (forall k, one_of k ["$defs"; "definitions"; "prefixItems"; "additionalProperties"] = true -> Forall (fun kv => kv.1 <> k) m) ->
  forallb (fun kv => member_ok good (fst kv) (snd kv)) m = true.
Proof.
  intros S L. apply List.forallb_forall. intros [k x] I. unfold settled in S. rewrite List.Forall_forall in S. specialize (S _ I). cbn [fst snd] in *.
  destruct (one_of k ["not"; "allOf"; "oneOf"; "anyOf"; "items"; "properties"]) eqn:K; [by apply S|].
  assert (one_of k ["$defs"; "definitions"; "prefixItems"; "additionalProperties"] = false) as B.
  { apply not_true_iff_false. intros B. specialize (L k B). rewrite List.Forall_forall in L. by apply (L _ I). }
  unfold one_of in *. cbn [existsb] in *. rewrite !orb_false_iff in *. unfold member_ok, one_of, named_schemas, listed_schemas, single_schemas.
  cbn [existsb]. destruct_and!. repeat match goal with H : String.eqb k _ = false |- _ => rewrite H; clear H end. done.
Qed.

Lemma obj_insert_in k v m kv : In kv (obj_insert k v m) -> kv = (k, v) \/ In kv m.
Proof.
  induction m as [|[k1 v1] m IH]; cbn [obj_insert In].
  - intros [H|H]; [by left|done].
  - destruct (String.compare k k1); cbn [In]; intros H; destruct_or?; subst; auto. destruct (IH H); auto.
Qed.

Lemma in_remove k kv m : In kv (remove k m) -> In kv m.
Proof. unfold remove. rewrite List.filter_In. by intros [? _]. Qed.

Lemma lacks_remove k m : Forall (fun kv => kv.1 <> k) (remove k m).
Proof.
  unfold remove. induction m as [|[k' v] m IH]; [constructor|]. cbn. destruct (String.eqb_spec k' k); cbn; [done|by constructor].
Qed.

Lemma lacks_keep (k k' : string) m : Forall (fun kv => kv.1 <> k) m -> Forall (fun kv : string * json => kv.1 <> k) (remove k' m).
Proof. unfold remove. induction 1 as [|kv m H _ IH]; [constructor|]. cbn. destruct (negb _); [by constructor|done]. Qed.

Lemma lacks_visit k k' f m r : visit_key k' f m = Some r -> Forall (fun kv => kv.1 <> k) m -> Forall (fun kv : string * json => kv.1 <> k) r.1.
Proof.
  intros H. apply visit_key_inv in H. induction H as [|a b m m' [E _] _ IH]; [done|]. rewrite !Forall_cons, E. intros [? ?]. by split; [|apply IH].
Qed.

Lemma lacks_get k m : Forall (fun kv : string * json => kv.1 <> k) m -> obj_get k m = None.
Proof. induction 1 as [|[k' v] m H _ IH]; [done|]. cbn in *. by rewrite str_eqb_neq by congruence. Qed.

Definition lacking (k : string) (m : object) : Prop := Forall (fun kv => kv.1 <> k) m.

Lemma drop_keywords_spec path m :
  let m1 := (drop_keywords path m).1 in
  lacking "prefixItems" m1 /\ lacking "$schema" m1 /\ lacking "exclusiveMinimum" m1 /\ lacking "exclusiveMaximum" m1
  /\ obj_get "$ref" m1 = obj_get "$ref" m
  /\ forall k x, In (k, x) m1 -> In (k, x) m \/ x = JObj [].
Proof.
  cbn zeta. unfold drop_keywords. rewrite !nbind_fst, !drop_key_fst. set (m0 := if obj_contains "prefixItems" m then _ else _).
  assert (lacking "prefixItems" m0) as P0.
  { subst m0. unfold or_insert. cbn [fst snd]. destruct (obj_contains "prefixItems" m); [|apply lacks_remove].
    destruct (obj_contains "items" _); [apply lacks_remove|]. apply List.Forall_forall. intros [k x] I E. cbn in E. subst k.
    pose proof (lacks_remove "prefixItems" m) as L. rewrite List.Forall_forall in L.
    apply obj_insert_in in I as [[=]|I]. by apply (L _ I). }
  assert (obj_get "$ref" m0 = obj_get "$ref" m) as R0.
  { subst m0. destruct (obj_contains "prefixItems" m); [rewrite obj_get_or_insert|]; rewrite !obj_get_remove; by eqb_literals. }
  assert (forall k x, In (k, x) m0 -> In (k, x) m \/ x = JObj []) as I0.
  { subst m0. assert (forall k x, In (k, x) (remove "prefixItems" m) -> In (k, x) m) as RM by (intros k x; apply in_remove).
    destruct (obj_contains "prefixItems" m); [|by left; apply RM]. unfold or_insert. cbn [fst snd].
    destruct (obj_contains "items" _); [by left; apply RM|]. intros k x I.
    apply obj_insert_in in I as [[= _ ->]|I]; [by right|left; by apply RM]. }
  split_and!.
  - by repeat apply lacks_keep.
  - do 2 apply lacks_keep. apply lacks_remove.
  - apply lacks_keep, lacks_remove.
  - apply lacks_remove.
  - rewrite !obj_get_remove. exact R0.
  - intros k x I. apply I0. by repeat apply in_remove in I.
Qed.

Lemma body_good path m r : relax_body relax path m = Some r -> no_reference m = true -> good r.1 = true /\ is_object r.1 = true.
Proof.
  intros H N. unfold relax_body in H.
  destruct (drop_keywords_spec path m) as (L1 & L2 & L3 & L4 & R0 & _).
  apply fbind_inv in H as (m0 & e0 & b0 & f0 & [= E0] & H & ->). rewrite E0 in *. cbn [fst] in *.
  assert (settled [] m0) as S0 by (apply List.Forall_forall; done).
  apply fbind_inv in H as (m1 & e1 & b1 & f1 & V1 & H & [= -> _]).
  apply fbind_inv in H as (m2 & e2 & b2 & f2 & V2 & H & [= -> _]).
  apply fbind_inv in H as (m3 & e3 & b3 & f3 & V3 & H & [= -> _]).
  apply fbind_inv in H as (m4 & e4 & b4 & f4 & V4 & H & [= -> _]).
  apply fbind_inv in H as (m5 & e5 & b5 & f5 & V5 & H & [= -> _]).
  apply fbind_inv in H as (m6 & e6 & b6 & f6 & [= D6] & H & [= -> _]).
  apply fbind_inv in H as (m7 & e7 & b7 & f7 & V7 & [= <- <-] & [= -> _]). cbn [fst].
  pose proof (f_equal fst D6) as M6. rewrite drop_key_fst in M6. cbn [fst] in M6. subst m6.
  pose proof (settled_visit "properties" _ _ _ _ (named_good path) S0 V1) as S1. cbn [fst] in S1.
  pose proof (settled_visit "items" _ _ _ _ (items_good path) S1 V2) as S2. cbn [fst] in S2.
  pose proof (settled_visit "anyOf" _ _ _ _ (fun x r => listed_good path "anyOf" "anyOf" x r eq_refl) S2 V3) as S3. cbn [fst] in S3.
  pose proof (settled_visit "oneOf" _ _ _ _ (fun x r => listed_good path "oneOf" "oneOf" x r eq_refl) S3 V4) as S4. cbn [fst] in S4.
  pose proof (settled_visit "allOf" _ _ _ _ (fun x r => listed_good path "allOf" "allOf" x r eq_refl) S4 V5) as S5. cbn [fst] in S5.
  pose proof (settled_visit "not" _ _ _ _ (not_good path) (settled_remove _ "additionalProperties" _ S5) V7) as S7. cbn [fst] in S7.
  assert (forall k, lacking k m0 -> lacking k m7) as KEEP.
  { intros k L. apply (lacks_visit k _ _ _ _ V7), lacks_keep, (lacks_visit k _ _ _ _ V5), (lacks_visit k _ _ _ _ V4),
      (lacks_visit k _ _ _ _ V3), (lacks_visit k _ _ _ _ V2), (lacks_visit k _ _ _ _ V1), L. }
  assert (lacking "additionalProperties" m7) as LA by (apply (lacks_visit _ _ _ _ _ V7), lacks_remove).
  assert (obj_get "$ref" m7 = obj_get "$ref" m) as R7.
  { rewrite (obj_get_visit_key _ _ _ _ _ _ V7), obj_get_remove by done. eqb_literals.
    rewrite (obj_get_visit_key _ _ _ _ _ "$ref" V5), (obj_get_visit_key _ _ _ _ _ "$ref" V4), (obj_get_visit_key _ _ _ _ _ "$ref" V3),
      (obj_get_visit_key _ _ _ _ _ "$ref" V2), (obj_get_visit_key _ _ _ _ _ "$ref" V1) by done. exact R0. }
  split; [|done]. unfold good. cbn [every_schema]. apply andb_true_iff. split.
  - unfold accepted, rejected_keywords, no_reference, obj_contains. cbn [forallb]. rewrite !obj_get_remove. eqb_literals.
    rewrite R7, (lacks_get "prefixItems" m7), (lacks_get "$schema" m7), (lacks_get "exclusiveMinimum" m7),
      (lacks_get "exclusiveMaximum" m7), (lacks_get "additionalProperties" m7)
      by first [exact LA | by apply KEEP]. exact N.
  - apply settled_all; [by repeat apply settled_remove|]. intros k K. unfold one_of in K. cbn [existsb] in K.
    destruct (String.eqb_spec k "$defs") as [E|_]; [rewrite E; apply lacks_keep, lacks_remove|].
    destruct (String.eqb_spec k "definitions") as [E|_]; [rewrite E; apply lacks_remove|].
    destruct (String.eqb_spec k "prefixItems") as [E|_]; [rewrite E; by do 2 apply lacks_keep; apply KEEP|].
    destruct (String.eqb_spec k "additionalProperties") as [E|_]; [rewrite E; by do 2 apply lacks_keep|done].
Qed.
End Result.

(** ** Enough fuel *)
Lemma depth_member k x m : In (k, x) m -> (json_depth x < json_depth (JObj m))%nat.
Proof.
  cbn [json_depth]. induction m as [|[k' y] m IH]; [done|]. cbn [In fold_right snd]. intros [[= _ ->]|I]; [lia|]. specialize (IH I). lia.
Qed.

Lemma depth_elem x l : In x l -> (json_depth x < json_depth (JArr l))%nat.
Proof. cbn [json_depth]. induction l as [|y l IH]; [done|]. cbn [In fold_right]. intros [ -> |I]; [lia|]. specialize (IH I). lia. Qed.

Section Total.
Context (relax : string -> json -> fuelled json) (bound : nat).

Definition small (x : json) : Prop := (json_depth x < bound)%nat \/ x = JObj [].

Context (relax_total : forall p x, small x -> exists r, relax p x = Some r).

Lemma small_member k x m : small (JObj m) -> In (k, x) m -> small x.
Proof. intros [S|E] I; [left|by injection E as ->]. pose proof (depth_member k x m I). lia. Qed.

Lemma small_elem x l : small (JArr l) -> In x l -> small x.
Proof. intros [S|E] I; [|done]. left. pose proof (depth_elem x l I). lia. Qed.

Lemma named_total path x : small x -> exists r, relax_named relax path x = Some r.
Proof.
  intros S. destruct x as [| | | | |props]; cbn [relax_named]; try by eexists. apply fbind_total; [|intros a e _; by eexists].
  apply fmap_all_total. intros [k y] I. cbn [fst snd]. apply fbind_total; [|intros a e _; by eexists].
  apply relax_total. by eapply small_member.
Qed.

Lemma list_total path l : small (JArr l) -> exists r, relax_list relax path l = Some r.
Proof.
  intros S. unfold relax_list. apply fbind_total; [|intros a e _; by eexists]. apply fmap_indexed_total. intros i a I.
  apply relax_total. by eapply small_elem.
Qed.

Lemma items_total path x : small x -> exists r, relax_items relax path x = Some r.
Proof. intros S. destruct x; cbn [relax_items]; try (by apply relax_total). by apply list_total. Qed.

Lemma listed_total path key x : small x -> exists r, relax_listed relax path key x = Some r.
Proof. intros S. destruct x; cbn [relax_listed]; try by eexists. by apply list_total. Qed.

Lemma not_total path x : small x -> exists r, relax_not relax path x = Some r.
Proof. intros S. destruct x; cbn [relax_not]; try by eexists. by apply relax_total. Qed.

(** Members of keys not visited yet are small. *)
Definition pending (ks : list string) (m : object) : Prop := forall k x, In (k, x) m -> one_of k ks = false -> small x.

Lemma pending_visit k f ks m m' e : pending ks m -> visit_key k f m = Some (m', e) -> pending (k :: ks) m'.
Proof.
  intros P H. apply visit_key_inv in H. cbn [fst] in H. intros k2 y I N. unfold one_of in N. cbn [existsb] in N.
  apply orb_false_iff in N as [N1 N2]. apply list_elem_of_In, list_elem_of_lookup in I as [i I].
  destruct (Forall2_lookup_r _ _ _ _ _ H I) as ([k1 x] & L & [E V]). cbn [fst snd] in *. subst k2. rewrite N1 in V. injection V as ->.
  apply (P k1 x); [|done]. apply list_elem_of_In. by eapply list_elem_of_lookup_2.
Qed.

Lemma pending_remove ks k m : pending ks m -> pending ks (remove k m).
Proof. intros P k2 x I. apply P. by apply in_remove in I. Qed.

Lemma pending_total k f ks m : pending ks m -> one_of k ks = false -> (forall x, small x -> exists r, f x = Some r) ->
  exists r, visit_key k f m = Some r.
Proof. intros P N F. apply visit_key_total. intros x I. apply F. by eapply P. Qed.

Lemma body_total path m : (json_depth (JObj m) <= bound)%nat -> exists r, relax_body relax path m = Some r.
Proof.
  intros D. unfold relax_body. destruct (drop_keywords_spec path m) as (_ & _ & _ & _ & _ & IN).
  apply fbind_total; [by eexists|]. intros m0 e0 [= E0].
  assert (pending [] m0) as P0.
  { intros k x I _. rewrite E0 in IN. destruct (IN k x I) as [J| -> ]; [left|by right]. pose proof (depth_member k x m J). lia. }
  apply fbind_total; [eapply pending_total; [exact P0|done|apply named_total]|]. intros m1 e1 V1. pose proof (pending_visit _ _ _ _ _ _ P0 V1) as P1.
  apply fbind_total; [eapply pending_total; [exact P1|done|apply items_total]|]. intros m2 e2 V2. pose proof (pending_visit _ _ _ _ _ _ P1 V2) as P2.
  apply fbind_total; [eapply pending_total; [exact P2|done|apply listed_total]|]. intros m3 e3 V3. pose proof (pending_visit _ _ _ _ _ _ P2 V3) as P3.
  apply fbind_total; [eapply pending_total; [exact P3|done|apply listed_total]|]. intros m4 e4 V4. pose proof (pending_visit _ _ _ _ _ _ P3 V4) as P4.
  apply fbind_total; [eapply pending_total; [exact P4|done|apply listed_total]|]. intros m5 e5 V5. pose proof (pending_visit _ _ _ _ _ _ P4 V5) as P5.
  apply fbind_total; [by eexists|]. intros m6 e6 [= D6]. apply (f_equal fst) in D6. rewrite drop_key_fst in D6. cbn [fst] in D6. subst m6.
  apply fbind_total; [eapply pending_total; [apply pending_remove, P5|done|apply not_total]|]. intros m7 e7 _. by eexists.
Qed.
End Total.

(** ** The whole recursion *)
Section Recursion.
Context (defs : object).

(** Definitions that are not being replaced. *)
Definition remaining (stack : list string) : nat := length (List.filter (fun kv => negb (one_of kv.1 stack)) defs).

Definition need (stack : list string) (depth : nat) : nat := (S (S depth) + remaining stack * S (S (defs_depth defs)))%nat.

Lemma defs_depth_of name v : obj_get name defs = Some v -> (json_depth v <= defs_depth defs)%nat.
Proof.
  unfold defs_depth. induction defs as [|[k x] l IH]; [done|]. cbn [obj_get fold_right snd].
  destruct (String.eqb name k); [intros [= ->]; lia|]. intros G. specialize (IH G). lia.
Qed.

Lemma remaining_less name stack v : obj_get name defs = Some v -> one_of name stack = false ->
  (remaining (name :: stack) < remaining stack)%nat.
Proof.
  unfold remaining. intros G N. induction defs as [|[k x] l IH]; [done|]. cbn [obj_get] in G. cbn [List.filter fst].
  assert (length (List.filter (fun kv => negb (one_of kv.1 (name :: stack))) l) <= length (List.filter (fun kv => negb (one_of kv.1 stack)) l))%nat as LE.
  { clear. induction l as [|[k x] l IH]; cbn [List.filter fst]; [done|].
    change (one_of k (name :: stack)) with (String.eqb k name || one_of k stack).
    destruct (String.eqb k name), (one_of k stack); cbn [orb negb length]; lia. }
  change (one_of k (name :: stack)) with (String.eqb k name || one_of k stack).
  destruct (String.eqb_spec name k) as [<-|NE].
  - rewrite N, String.eqb_refl. cbn [orb negb length]. lia.
  - specialize (IH G). rewrite (str_eqb_neq k name) by congruence. cbn [orb].
    destruct (one_of k stack); cbn [negb length]; lia.
Qed.

Lemma merged_depth def m : (json_depth (JObj (fold_left or_insert def m)) <= Nat.max (json_depth (JObj m)) (json_depth (JObj def)))%nat.
Proof.
  revert m. induction def as [|[k v] def IH]; intros m; cbn [fold_left]; [lia|]. etransitivity; [apply IH|].
  assert (json_depth (JObj (or_insert m (k, v))) <= Nat.max (json_depth (JObj m)) (S (json_depth v)))%nat as O.
  { unfold or_insert. cbn [fst snd]. destruct (obj_contains k m); [lia|]. cbn [json_depth].
    induction m as [|[k1 v1] m IHm]; cbn [obj_insert fold_right snd]; [lia|]. destruct (String.compare k k1); cbn [fold_right snd]; lia. }
  cbn [json_depth fold_right snd] in *. lia.
Qed.

Lemma remove_depth k m : (json_depth (JObj (remove k m)) <= json_depth (JObj m))%nat.
Proof.
  cbn [json_depth]. unfold remove. induction m as [|[k1 v1] m IH]; cbn [List.filter fold_right]; [lia|]. cbn [fst].
  destruct (negb _); cbn [fold_right snd]; lia.
Qed.

(** One step for each level, again for each definition that is replaced. *)
Lemma node_total fuel stack path schema : (need stack (json_depth schema) <= fuel)%nat ->
  exists r, relax_node defs fuel stack path schema = Some r.
Proof.
  revert stack path schema. induction fuel as [|fuel IH]; intros stack path schema F; [unfold need in F; lia|].
  cbn [relax_node]. destruct schema as [| | | | |m]; try by eexists.
  assert (forall m', (json_depth (JObj m') <= json_depth (JObj m))%nat -> exists r, relax_body (relax_node defs fuel stack) path m' = Some r) as BODY.
  { intros m' D. apply (body_total _ (json_depth (JObj m))); [|done]. intros p x [S|E]; [|subst x].
    - apply IH. unfold need in *. lia.
    - destruct fuel; [unfold need in F; cbn [json_depth] in F; lia|]. by eexists. }
  destruct (obj_get "$ref" m ≫= as_str) as [reference|]; [|by apply BODY].
  assert (forall detail, exists r, (let?! _ := note_ref path detail in relax_body (relax_node defs fuel stack) path (remove "$ref" m)) = Some r) as NOTED.
  { intros detail. apply fbind_total; [by eexists|]. intros _ _ _. apply BODY, remove_depth. }
  destruct (local_ref_name reference) as [name|]; [|apply NOTED].
  destruct (one_of name stack) eqn:N; [apply NOTED|].
  destruct (obj_get name defs) as [[| | | | |def]|] eqn:G; try apply NOTED.
  apply IH. pose proof (merged_depth def (remove "$ref" m)). pose proof (remove_depth "$ref" m).
  pose proof (defs_depth_of _ _ G). pose proof (remaining_less _ _ _ G N). unfold need in *. nia.
Qed.

Lemma node_good fuel stack path schema r : relax_node defs fuel stack path schema = Some r ->
  good r.1 = true /\ if is_object schema then is_object r.1 = true else r.1 = schema.
Proof.
  revert stack path schema r. induction fuel as [|fuel IH]; intros stack path schema r; [done|]. cbn [relax_node].
  destruct schema as [| | | | |m]; try (intros [= <-]; by split). cbn [is_object as_object is_some].
  assert (forall m', no_reference m' = true -> forall r, relax_body (relax_node defs fuel stack) path m' = Some r ->
            good r.1 = true /\ is_object r.1 = true) as BODY.
  { intros m' N r'. intros H. eapply body_good; [| |exact H|exact N].
    - intros p x r2 R. by apply IH in R as [? _].
    - intros p x r2 R. by apply IH in R as [_ ?]. }
  assert (no_reference (remove "$ref" m) = true) as NR by (unfold no_reference; by rewrite obj_get_remove).
  assert (forall detail, (let?! _ := note_ref path detail in relax_body (relax_node defs fuel stack) path (remove "$ref" m)) = Some r ->
            good r.1 = true /\ is_object r.1 = true) as NOTED.
  { intros detail H. apply fbind_inv in H as (a & e & b & e' & _ & H & ->). cbn [fst]. exact (BODY _ NR _ H). }
  destruct (obj_get "$ref" m ≫= as_str) as [reference|] eqn:G.
  - destruct (local_ref_name reference) as [name|]; [|apply NOTED]. destruct (one_of name stack); [apply NOTED|].
    destruct (obj_get name defs) as [[| | | | |def]|]; try apply NOTED. intros H. by apply IH in H.
  - apply BODY. unfold no_reference. by rewrite G.
Qed.
End Recursion.

(** C15. A schema for Gemini is relaxed in a bounded number of steps, cycles of
    references or not, and the result has, at every place a reader of the
    schema comes to, none of the keywords Gemini rejects and no reference. *)
Theorem gemini_schema_accepted schema path :
  relax_node (schema_defs schema) (relax_fuel schema) [] path schema = Some (relax_gemini_schema schema path)
  /\ every_schema accepted (relax_gemini_schema schema path).1 = true.
Proof.
  unfold relax_gemini_schema.
  destruct (node_total (schema_defs schema) (relax_fuel schema) [] path schema) as [r R].
  - unfold need, relax_fuel. apply Nat.add_le_mono_l, Nat.mul_le_mono_r. unfold remaining. apply List.filter_length_le.
  - rewrite R. split; [done|]. by apply node_good in R as [? _].
Qed.

(** A definition that refers to itself is written once. *)
Definition cyclic_schema : json :=
  let a := jobj [("type", JStr "object"); ("properties", jobj [("next", jobj [("$ref", JStr "#/$defs/a")])])] in
  jobj [("$defs", jobj [("a", a)]); ("$ref", JStr "#/$defs/a")].

Example cyclic_schema_relaxed : relax_gemini_schema cyclic_schema "p" =
  (jobj [("type", JStr "object"); ("properties", jobj [("next", JObj [])])],
   [mkLoss "p.properties.next.$ref" Drop "recursive schema ref has no Gemini slot"]).
Proof. vm_compute. reflexivity. Qed.
