(* ===== verification/GeminiRequest.v ===== *)
(** * GeminiRequest: reading a request of the Gemini dialect

    [decode] of [W/map/gemini.rs].  A content is split into items at its calls
    and results; a result without an id takes the id of a call of its name in
    the latest model turn that has none yet; the fields of sampling stand in
    [generationConfig] or at the top. *)
From stdpp Require Import pretty.
From S2P Require Import Prelude Text Json Floats Ir ProfileTypes StreamCore Usage Shapes Chat MapCore Gemini.
From S2P Require Import Loss RequestCore Tools.

Definition system_text (value : option json) : option string :=
  value ← value; parts ← get_array value "parts";
  nonempty (Some (str_join "" (omap (fun p => get_str p "text") parts))).

(** ** Results without an id *)
Definition output_id (item : IrItem) : option string :=
  match item with IFunctionOutput call_id _ _ _ => Some call_id | _ => None end.
Definition is_user (item : IrItem) : bool := match item with IUser _ => true | _ => false end.
Definition is_output (item : IrItem) : bool := is_some (output_id item).

(** Items a model turn ends before. *)
Definition turn_boundary (item : IrItem) : bool :=
  match item with IUser _ | IDeveloper _ _ _ | IFunctionOutput _ _ _ _ | ISystem _ _ _ => true | _ => false end.

Definition unmatched_id (name : string) (used : list string) (item : IrItem) : option string :=
  match item with
  | IFunctionCall call_id call_name _ _ =>
      if String.eqb call_name name && negb (one_of call_id used) then Some call_id else None
  | _ => None
  end.

(** The elements before the first that fails, and the rest. *)
Fixpoint span {A} (p : A -> bool) (l : list A) : list A * list A :=
  match l with
  | [] => ([], [])
  | a :: l' => if p a then let '(xs, ys) := span p l' in (a :: xs, ys) else ([], l)
  end.

(** [back] is the items from the last one on: the code counts an index down. *)
Definition skip_user (skip : bool) (back : list IrItem) : list IrItem :=
  match back with item :: back' => if skip && is_user item then back' else back | [] => [] end.

(** User text in front of the outputs of the same content is no boundary. *)
Definition skip_user_before_outputs (skipped : bool) (back : list IrItem) : list IrItem :=
  match back with
  | item :: (before :: _) as back' =>
      if skipped && is_user item && negb (turn_boundary before) then back' else back
  | _ => back
  end.

Definition unmatched_call_id (items : list IrItem) (name : string) (skip_trailing_user : bool) : option string :=
  let used := omap output_id items in
  let back := skip_user skip_trailing_user (rev items) in
  let '(outputs, back) := span is_output back in
  let back := skip_user_before_outputs (negb (bool_decide (length outputs = 0%nat))) back in
  let '(turn, _) := span (fun item => negb (turn_boundary item)) back in
  head (omap (unmatched_id name used) (rev turn)).

(** ** Parts *)
Definition decode_function_response_part (part : json) : option IrPart :=
  inline ← get part "inlineData";
  let media := text_or_empty (str_field inline "mimeType") in
  let data := text_or_empty (str_field inline "data") in
  if is_empty data then None
  else
    let name := nonempty (str_field inline "displayName") in
    if is_pdf_media_type media || eq_ignore_ascii_case media "text/plain"
    then Some (PDocument (SrcBase64 data) media name None None)
    else if starts_with "image/" (to_ascii_lowercase media) && is_none name then Some (PImageBase64 media data)
    else Some (PRaw "functionResponse.inlineData" (jobj [("inlineData", inline)])).

Definition decode_function_response_parts (fr : json) : list IrPart :=
  omap decode_function_response_part (unwrap_or (get_array fr "parts") []).

Definition text_parts_of (part : json) : list IrPart :=
  match get_str part "text" with
  | Some text => [if part_has_media_hint part then PRaw "text" part else PText text]
  | None => []
  end.

Definition inline_part (inline : json) : IrPart :=
  let media := text_or_empty (str_field inline "mimeType") in
  let data := text_or_empty (str_field inline "data") in
  if is_audio_media_type media then PAudio data (audio_format_from_mime media)
  else if is_pdf_media_type media then PDocument (SrcBase64 data) media None None None
  else PImageBase64 media data.

Definition file_parts (part : json) : list IrPart :=
  match get part "fileData" with
  | Some file =>
      let media := text_or_empty (str_field file "mimeType") in
      let uri := text_or_empty (str_field file "fileUri") in
      [if is_pdf_media_type media && negb (is_empty uri) && negb (part_has_media_hint part)
       then PDocument (document_ref_source uri) media None None None else PRaw "fileData" part]
  | None => if is_some (get part "fileUri") then [PRaw "fileUri" part] else []
  end.

(** The first of two keys that is there, kept raw. *)
Definition raw_of (part : json) (key other : string) : list IrPart :=
  if is_some (get part key) then [PRaw key part] else if is_some (get part other) then [PRaw other part] else [].

(** What a part that is neither a call nor a result adds to the turn. *)
Definition decode_part (part : json) : list IrPart :=
  if bool_decide (bool_field part "thought" = Some true) then
    match get_str part "text" with Some text => [PThinking text (get_str part "thoughtSignature")] | None => [] end
  else
    text_parts_of part
    ++ match get part "inlineData" with
       | Some inline =>
           if part_has_media_hint part then [PRaw "inlineData" part]
           else inline_part inline :: file_parts part ++ raw_of part "executableCode" "codeExecutionResult"
                ++ raw_of part "toolCall" "toolResponse"
       | None =>
           file_parts part ++ raw_of part "executableCode" "codeExecutionResult" ++ raw_of part "toolCall" "toolResponse"
       end.

(** ** Contents *)
Definition flush_parts (role : string) (parts : list IrPart) : list IrItem :=
  match parts with
  | [] => []
  | _ => [if String.eqb role "model" then IAssistant parts None else IUser parts]
  end.

Section Decode.
Context {SJ : SerdeJson}.

Definition decode_call (part fc : json) (seq : nat) : IrItem :=
  let name := text_or_empty (str_field fc "name") in
  IFunctionCall (gemini_call_id fc name (Z.of_nat seq)) name (to_string (unwrap_or (get fc "args") (JObj [])))
    (nonempty (get_str part "thoughtSignature")).

Definition decode_response (fr : json) (items : list IrItem) (skip_trailing_user : bool) : IrItem :=
  let name := text_or_empty (str_field fr "name") in
  let output := match get fr "response" with Some response => to_string response | None => "{}" end in
  let call_id := unwrap_or (opt_or (nonempty (get_str fr "id")) (unmatched_call_id items name skip_trailing_user)) name in
  IFunctionOutput call_id output (decode_function_response_parts fr) false.

(** The loop over the parts: the parts of the turn so far, all items so far. *)
Fixpoint decode_parts (role : string) (parts : list json) (turn : list IrPart) (items : list IrItem) : list IrItem :=
  match parts with
  | [] => items ++ flush_parts role turn
  | part :: parts =>
      match get part "functionCall", get part "functionResponse" with
      | Some fc, _ =>
          let items := items ++ flush_parts role turn in
          decode_parts role parts [] (items ++ [decode_call part fc (length items)])
      | None, Some fr =>
          let skip := negb (String.eqb role "model") && negb (bool_decide (length turn = 0%nat)) in
          let items := items ++ flush_parts role turn in
          decode_parts role parts [] (items ++ [decode_response fr items skip])
      | None, None => decode_parts role parts (turn ++ decode_part part) items
      end
  end.

Definition decode_content (content : json) (items : list IrItem) : list IrItem :=
  match get_array content "parts" with
  | Some parts => decode_parts (unwrap_or (get_str content "role") "user") parts [] items
  | None => items
  end.
End Decode.

(** ** Tools *)
Definition decode_declaration (decl : json) : IrTool :=
  TFunction (text_or_empty (str_field decl "name")) (text_or_empty (str_field decl "description"))
    (unwrap_or (opt_or (opt_filter is_object (opt_or (get decl "parametersJsonSchema") (get decl "parameters_json_schema")))
                  (get decl "parameters")) empty_parameters)
    None.

Definition decode_gemini_tool (tool : json) : list IrTool :=
  match tool with
  | JObj obj =>
      match obj_get "functionDeclarations" obj ≫= as_array with
      | Some decls =>
          map decode_declaration decls
          ++ map (fun kv => TUnknown (fst kv) (jobj [kv]))
               (List.filter (fun kv => negb (String.eqb (fst kv) "functionDeclarations")) obj)
      | None => match obj with [] => [] | (type_name, _) :: _ => [TUnknown type_name tool] end
      end
  | _ => []
  end.

Definition decode_tools (value : json) : list IrTool :=
  concat (map decode_gemini_tool (unwrap_or (get_array value "tools") [])).

(** ** Sampling *)

(** The first of the keys, in camel or snake case, that is there. *)
Definition either (value : json) (camel snake : string) : option json := opt_or (get value camel) (get value snake).

Definition modality_of (raw : string) (names : string * string * string) : option string :=
  let '(text, audio, image) := names in
  if eq_ignore_ascii_case raw "text" then Some text
  else if eq_ignore_ascii_case raw "audio" then Some audio
  else if eq_ignore_ascii_case raw "image" then Some image else None.

Definition gemini_output_modalities (cfg : json) : list string :=
  match either cfg "responseModalities" "response_modalities" ≫= as_array with
  | Some arr => omap (fun raw => modality_of raw ("text", "audio", "image")) (omap as_str arr)
  | None => []
  end.

Definition gemini_speech_obj (cfg : json) : option json := either cfg "speechConfig" "speech_config".

Definition gemini_multi_speaker_speech (cfg : json) : option json :=
  speech ← gemini_speech_obj cfg; if is_some (object_field speech "multiSpeakerVoiceConfig") then Some speech else None.

Definition gemini_speech_voice (cfg : json) : option string :=
  speech ← gemini_speech_obj cfg;
  voice_cfg ← either speech "voiceConfig" "voice_config";
  prebuilt ← either voice_cfg "prebuiltVoiceConfig" "prebuilt_voice_config";
  trimmed (opt_or (str_field prebuilt "voiceName") (str_field prebuilt "voice_name")).

Definition gemini_drop_speech_language (cfg : json) : noted unit :=
  match gemini_speech_obj cfg with
  | None => quiet tt
  | Some speech =>
      if is_some (get speech "multiSpeakerVoiceConfig") then quiet tt
      else no_slot_if (is_some (not_blank (opt_or (str_field speech "languageCode") (str_field speech "language_code"))))
             "sampling.audio_language"
  end.

Definition gemini_json_object (cfg : json) (has_schema : bool) : option bool :=
  if has_schema then None
  else if bool_decide ((either cfg "responseMimeType" "response_mime_type" ≫= as_str) = Some "application/json") then Some true
  else
    format_mime ← (opt_or (pointer cfg [Key "responseFormat"; Key "text"; Key "mimeType"])
                     (pointer cfg [Key "response_format"; Key "text"; Key "mimeType"])) ≫= as_str;
    if one_of format_mime ["APPLICATION_JSON"; "application/json"] then Some true else None.

Definition gemini_json_schema (cfg : json) : option json :=
  opt_filter is_object
    (opt_or (get cfg "responseSchema") (opt_or (get cfg "responseJsonSchema") (opt_or (get cfg "response_schema")
       (opt_or (get cfg "response_json_schema") (opt_or (pointer cfg [Key "responseFormat"; Key "text"; Key "schema"])
          (pointer cfg [Key "response_format"; Key "text"; Key "schema"])))))).

Definition thinking_config_obj (value : json) : json :=
  unwrap_or (opt_or (get value "thinkingConfig") (pointer value [Key "generationConfig"; Key "thinkingConfig"])) JNull.

Definition gemini_tool_config (value : json) : option json := either value "toolConfig" "tool_config".

Definition gemini_function_calling_config (value : json) : option json :=
  cfg ← gemini_tool_config value; either cfg "functionCallingConfig" "function_calling_config".

Definition decode_tool_choice (value : json) : IrToolChoice :=
  match gemini_function_calling_config value with
  | None => Auto
  | Some fcc =>
      let named :=
        nonempty (names ← (either fcc "allowedFunctionNames" "allowed_function_names" ≫= as_array); head (omap as_str names)) in
      match str_field fcc "mode" with
      | Some mode =>
          if one_of mode ["NONE"; "none"] then NoTool
          else if one_of mode ["ANY"; "any"] then match named with Some name => Named name | None => Required end
          else Auto
      | None => Auto
      end
  end.

Definition gemini_source_has_unmapped_tool_choice (value : json) : bool :=
  is_some (get value "tool_choice") && is_none (gemini_tool_config value).

Definition generation_config (value : json) : json := unwrap_or (get value "generationConfig") value.

Definition gemini_source_has_json_schema (value : json) : bool :=
  let cfg := generation_config value in
  is_some (get cfg "responseSchema") || is_some (get cfg "responseJsonSchema")
  || is_some (get cfg "response_schema") || is_some (get cfg "response_json_schema").

(** What the decoder notes. *)
Definition note_unmapped (value : json) : noted unit :=
  let cfg := generation_config value in
  note_all
    [ no_slot_if (gemini_source_has_unmapped_tool_choice value) "sampling.tool_choice";
      note_if (gemini_source_has_json_schema value && is_none (gemini_json_schema cfg)) "sampling.json_schema" Drop
        "json_schema requires object schema";
      gemini_drop_speech_language cfg ].

Definition decode_sampling (value : json) : noted IrSampling :=
  let cfg := generation_config value in
  let thinking := thinking_config_obj value in
  let json_schema := gemini_json_schema cfg in
  let top_logprobs := opt_or (u32_field cfg "logprobs") (u32_field cfg "top_logprobs") in
  let! _ := note_unmapped value in
  quiet
  {| sp_temperature := f32_field cfg "temperature";
     sp_top_p := opt_or (f32_field cfg "topP") (f32_field cfg "top_p");
     sp_top_k := opt_or (u32_field cfg "topK") (u32_field cfg "top_k");
     sp_max_tokens := opt_or (u32_field cfg "maxOutputTokens") (u32_field cfg "max_tokens");
     sp_stop := stop_values cfg ["stopSequences"; "stop"];
     sp_tool_choice := decode_tool_choice value;
     sp_parallel_tool_calls := bool_field value "parallel_tool_calls";
     sp_store := bool_field value "store";
     sp_previous_response_id := None;
     sp_cache := cache_default;
     sp_stream := bool_field value "stream";
     sp_include_thoughts := opt_or (bool_field thinking "includeThoughts") (bool_field thinking "include_thoughts");
     sp_thinking_budget := opt_or (u32_field thinking "thinkingBudget") (u32_field thinking "thinking_budget");
     sp_reasoning_effort := not_blank (opt_or (str_field thinking "thinkingLevel") (str_field thinking "thinking_level"));
     sp_max_reasoning_tokens := None;
     sp_json_schema := json_schema;
     sp_json_schema_name := if is_some json_schema then Some "response" else None;
     sp_json_schema_description := None;
     sp_json_schema_strict := None;
     sp_json_object := gemini_json_object cfg (is_some json_schema);
     sp_include := [];
     sp_prompt_cache_key := None;
     sp_prompt_cache_retention := None;
     sp_prompt_cache_mode := None;
     sp_prompt_cache_ttl := None;
     sp_top_logprobs := top_logprobs;
     sp_moderation_model := None;
     sp_moderation_input := None;
     sp_moderation_output := None;
     sp_include_obfuscation := None;
     sp_user := None;
     sp_verbosity := None;
     sp_safety_identifier := None;
     sp_metadata := [];
     sp_frequency_penalty := opt_or (f32_field cfg "frequencyPenalty") (f32_field cfg "frequency_penalty");
     sp_presence_penalty := opt_or (f32_field cfg "presencePenalty") (f32_field cfg "presence_penalty");
     sp_seed := i64_field cfg "seed";
     sp_n := opt_or (u32_field cfg "candidateCount") (u32_field cfg "candidate_count");
     sp_service_tier := gemini_decode_service_tier value;
     sp_output_modalities := gemini_output_modalities cfg;
     sp_audio_voice := if is_some (gemini_multi_speaker_speech cfg) then None else gemini_speech_voice cfg;
     sp_audio_format := None;
     sp_logprobs :=
       opt_or (bool_field cfg "responseLogprobs") (opt_or (bool_field cfg "response_logprobs")
         (opt_or (bool_field cfg "logprobs") (if is_some top_logprobs then Some true else None)));
     sp_logit_bias := [];
     sp_prediction := None;
     sp_web_search_options := None;
     sp_inference_geo := None;
     sp_performance_latency := None;
     sp_previous_message_id := None;
     sp_response_field_paths := [];
     sp_additional_request_fields := None;
     sp_prompt_variables := None;
     sp_guardrail := None;
     sp_container := None;
     sp_context_management := None;
     sp_mcp_servers := None;
     sp_media_resolution := trimmed (str_field cfg "mediaResolution");
     sp_image_config := object_field cfg "imageConfig";
     sp_audio_transcription_config := object_field cfg "audioTranscriptionConfig";
     sp_translation_config := object_field cfg "translationConfig";
     sp_affective_dialog := bool_field cfg "enableAffectiveDialog";
     sp_enhanced_civic_answers := bool_field cfg "enableEnhancedCivicAnswers";
     sp_multi_speaker_speech := gemini_multi_speaker_speech cfg;
     sp_cached_content := trimmed (str_field value "cachedContent");
     sp_safety_settings := opt_filter is_array (get value "safetySettings");
     sp_request_labels := object_field value "labels";
     sp_truncation := None;
     sp_max_tool_calls := None;
     sp_background := None;
     sp_conversation := None;
     sp_responses_context_management := None;
     sp_messages_thinking := None |}.

Definition decode `{SerdeJson} (value : json) : result MapError (IrRequest * LossReport) :=
  let system := match system_text (get value "systemInstruction") with Some sys => [ISystem sys None []] | None => [] end in
  let items := fold_left (fun items content => decode_content content items) (unwrap_or (get_array value "contents") []) system in
  let '(sampling, events) := decode_sampling value in
  Ok (mkRequest (text_or_empty (str_field value "model")) items (decode_tools value) sampling, mkReport events).
