(* ===== verification/GeminiEncode.v ===== *)
(** * GeminiEncode: writing a request of the Gemini dialect

    [encode] of [W/map/gemini.rs]: items become parts of contents whose roles
    are [user] and [model], adjacent parts of one role share a content; a
    result is written under the name of the latest call with its id; sampling
    goes to [generationConfig] and the fields beside it. *)
From stdpp Require Import pretty.
From S2P Require Import Prelude Text Json JsonCodec Floats Ir ProfileTypes StreamCore Usage Shapes Chat MapCore Gemini.
From S2P Require Import Loss RequestCore Schema Tools GeminiSchema.

(** ** Parts *)
Definition text_json (text : string) : json := jobj [("text", JStr text)].
Definition inline_json (mime data : string) : json :=
  jobj [("inlineData", jobj [("mimeType", JStr mime); ("data", JStr data)])].

Definition left_out (path detail : string) : noted (option json) := let! _ := note path Drop detail in quiet None.

Definition encode_document (source : IrDocumentSource) (media_type : string) : json :=
  match source with
  | SrcText data => text_json data
  | SrcBase64 data => inline_json media_type data
  | SrcUrl uri | SrcFileId uri | SrcS3 uri _ =>
      jobj [("fileData", put "mimeType" (if is_empty media_type then None else Some (JStr media_type))
                           (jobj [("fileUri", JStr uri)]))]
  end.

Definition encode_document_part (source : IrDocumentSource) (media_type : string) : noted (option json) :=
  match source with
  | SrcText data =>
      let! _ := note "part.document" Degrade "plain text document becomes text" in quiet (Some (text_json data))
  | SrcBase64 data =>
      if blank data then left_out "part.document" "document data is empty" else quiet (Some (encode_document source media_type))
  | SrcFileId id =>
      if blank id then left_out "part.document" "file id is empty" else quiet (Some (encode_document source media_type))
  | SrcS3 _ _ => left_out "part.document" "S3 document has no Gemini slot"
  | SrcUrl _ => quiet (Some (encode_document source media_type))
  end.

(** Inline bytes of this kind of media that are empty. *)
Definition empty_inline (kind : string) (raw : json) : bool :=
  is_some_and (pointer_str raw [Key "inlineData"; Key "mimeType"]) (fun mime => starts_with kind (to_ascii_lowercase mime))
  && is_some_and (pointer_str raw [Key "inlineData"; Key "data"]) blank.

Definition gemini_raw_keys : list string :=
  ["fileData"; "fileUri"; "inlineData"; "executableCode"; "codeExecutionResult"; "toolCall"; "toolResponse";
   "audioTranscription"; "speechMetadata"; "partMetadata"; "thoughtSignature"].

Definition encode_raw_part (raw : json) : noted (option json) :=
  if empty_inline "audio/" raw then left_out "part.audio" "audio data is empty"
  else if empty_inline "image/" raw then left_out "part.image" "image data is empty"
  else if existsb (fun key => is_some (get raw key)) gemini_raw_keys then quiet (Some raw)
  else left_out "part.raw" "raw part has no generateContent slot".

Definition encode_image_url (url : string) (detail file_id : option string) : noted (option json) :=
  if blank url then
    if is_some (not_blank file_id) then left_out "part.image.file_id" "no slot"
    else left_out "part.image" "image url is empty"
  else
    let! _ := note_dropped_image_detail detail "gemini" in
    match split_data_url url with
    | Some (mime, b64) =>
        if blank b64 then left_out "part.image" "image data is empty" else quiet (Some (inline_json mime b64))
    | None =>
        let! _ := note "part.image_url" Degrade "url to text placeholder" in
        quiet (Some (text_json ("[image: " +:+ url +:+ "]")))
    end.

Fixpoint encode_part (part : IrPart) : noted (option json) :=
  match part with
  | PPromptCacheBreakpoint mode inner =>
      let! encoded := encode_part inner in
      match encoded with
      | Some value => let! value := apply_prompt_cache value (Some mode) false in quiet (Some value)
      | None => let! _ := apply_prompt_cache JNull (Some mode) false in quiet None
      end
  | PText text => quiet (Some (text_json text))
  | PThinking text signature =>
      quiet (Some (put "thoughtSignature" (JStr <$> signature) (jobj [("text", JStr text); ("thought", JBool true)])))
  | PImageBase64 media_type data =>
      if blank data then left_out "part.image" "image data is empty" else quiet (Some (inline_json media_type data))
  | PDocument source media_type _ _ _ => encode_document_part source media_type
  | PAudio data format =>
      if blank data then left_out "part.audio" "audio data is empty"
      else quiet (Some (inline_json (audio_mime_from_format format) data))
  | PRaw _ raw => encode_raw_part raw
  | PImageUrl url detail _ file_id => encode_image_url url detail file_id
  end.

Definition encode_parts (parts : list IrPart) : noted (list json) := nfilter_map encode_part parts.

(** ** Contents *)
Definition content (role : string) (parts : list json) : json := jobj [("role", JStr role); ("parts", JArr parts)].

Definition last_role (contents : list json) : option string := last ← last contents; get_str last "role".

(** [contents.last_mut()] takes the part when it has the role. *)
Definition push_role_part (contents : list json) (role : string) (part : json) : list json :=
  match rev contents with
  | last :: before =>
      match (if bool_decide (get_str last "role" = Some role) then get_array last "parts" else None) with
      | Some parts => rev before ++ [index_set last "parts" (JArr (parts ++ [part]))]
      | None => contents ++ [content role [part]]
      end
  | [] => contents ++ [content role [part]]
  end.

Definition push_encoded_turn (contents : list json) (role : string) (parts : list IrPart) (idx : nat) : noted (list json) :=
  let! encoded := encode_parts parts in
  match encoded with
  | [] => let! _ := note (item_path idx) Drop "empty turn has no gemini parts" in quiet contents
  | _ =>
      let! _ := note_if (bool_decide (last_role contents = Some role)) (item_path idx) Degrade
                  "consecutive turns with the same role were joined" in
      quiet (fold_left (fun contents part => push_role_part contents role part) encoded contents)
  end.

Section Encode.
Context {SJ : SerdeJson}.

(** The state of the loop. *)
Record Turns := mkTurns { tn_system : list json; tn_contents : list json; tn_calls : list (string * string) }.

Definition with_contents (contents : list json) (t : Turns) : Turns := mkTurns (tn_system t) contents (tn_calls t).

Definition encode_role (idx : nat) (developer : bool) (text : string) (mode : option string) (content_parts : list IrPart)
    (t : Turns) : noted Turns :=
  let! _ := note_role_breakpoint mode in
  let! _ := note_role_breakpoint (match content_parts with [] => None | _ => Some "explicit" end) in
  let! _ := note_if (negb (bool_decide (tn_contents t = []))) (item_path idx) Degrade "system message moved out of the turn list" in
  let! _ := note_if developer "item.developer" Degrade "developer to systemInstruction" in
  let! role_text := system_role_text text content_parts in
  quiet (mkTurns (tn_system t ++ (if is_empty role_text then [] else [text_json role_text])) (tn_contents t) (tn_calls t)).

Definition encode_call (call_id name arguments : string) (signature : option string) (t : Turns) : noted Turns :=
  let '(args, degraded) := json_object_or_wrapped arguments "raw" in
  let! _ := note_if degraded "functionCall.args" Degrade "tool arguments are not a JSON object" in
  let part := jobj [("functionCall", jobj [("id", JStr call_id); ("name", JStr name); ("args", args)])] in
  let part := put "thoughtSignature" (JStr <$> nonempty signature) part in
  quiet (mkTurns (tn_system t) (push_role_part (tn_contents t) "model" part) (tn_calls t ++ [(call_id, name)])).

(** A part of a result: bytes the wire takes, or a note when it is media. *)
Definition encode_output_part (idx : nat) (part : IrPart) : noted (option json) :=
  let '(inner, modes) := peel_prompt_cache_modes part in
  let! _ := note_all (map (fun mode => drop_prompt_cache (Some mode)) modes) in
  match function_response_inline inner with
  | Some inline =>
      quiet (Some (jobj [("inlineData",
        put "displayName" (JStr <$> inl_display_name inline)
          (jobj [("mimeType", JStr (inl_mime inline)); ("data", JStr (inl_data inline))]))]))
  | None =>
      let! _ := no_slot_if (match inner with
                            | PImageUrl _ _ _ _ | PImageBase64 _ _ | PAudio _ _ => true
                            | PRaw _ raw => is_some (get raw "inlineData")
                            | _ => false
                            end) (item_path idx +:+ ".part") in
      quiet None
  end.

(** The name of the latest call with the id. *)
Definition call_name (calls : list (string * string)) (call_id : string) : string :=
  match List.find (fun call => String.eqb call.1 call_id) (rev calls) with Some (_, name) => name | None => call_id end.

Definition encode_output (idx : nat) (call_id output : string) (parts : list IrPart) (is_error : bool) (t : Turns) :
  noted Turns :=
  let! _ := no_slot_if is_error (item_path idx +:+ ".is_error") in
  let! wire_parts := nfilter_map (encode_output_part idx) parts in
  let peeled := map (fun part => (peel_prompt_cache_modes part).1) parts in
  let '(response, degraded) := json_object_or_wrapped (function_output_text output peeled) "result" in
  let! _ := note_if degraded "functionResponse.response" Degrade "tool output is not a JSON object" in
  let body := jobj [("id", JStr call_id); ("name", JStr (call_name (tn_calls t) call_id)); ("response", response)] in
  let body := put "parts" (if_any wire_parts (JArr wire_parts)) body in
  quiet (with_contents (push_role_part (tn_contents t) "user" (jobj [("functionResponse", body)])) t).

Definition encode_reasoning (summary : option string) (raw : option json) (t : Turns) : noted Turns :=
  match nonempty (opt_or (nonempty summary) (raw ← raw; str_field raw "summary")) with
  | Some text =>
      quiet (with_contents (push_role_part (tn_contents t) "model" (jobj [("text", JStr text); ("thought", JBool true)])) t)
  | None => let! _ := note "item.reasoning" Drop "reasoning omitted on generateContent" in quiet t
  end.

Definition encode_item (idx : nat) (item : IrItem) (t : Turns) : noted Turns :=
  let path := item_path idx in
  match item with
  | ISystemCache _ => let! _ := note path Drop "system cache point has no slot" in quiet t
  | ISystemGuard _ => let! _ := note path Drop "system guard content has no slot" in quiet t
  | ISystem text mode content_parts => encode_role idx false text mode content_parts t
  | IDeveloper text mode content_parts => encode_role idx true text mode content_parts t
  | IUser parts => let! contents := push_encoded_turn (tn_contents t) "user" parts idx in quiet (with_contents contents t)
  | IAssistant parts phase =>
      let! _ := drop_assistant_phase phase (path +:+ ".phase") in
      let! contents := push_encoded_turn (tn_contents t) "model" parts idx in quiet (with_contents contents t)
  | IFunctionCall call_id name arguments signature => encode_call call_id name arguments signature t
  | ICustomToolCall call_id name input _ => encode_call call_id name input None t
  | IFunctionOutput call_id output parts is_error => encode_output idx call_id output parts is_error t
  | IReasoning _ summary raw => encode_reasoning summary raw t
  | IHostedToolCall kind _ | IUnknown kind _ =>
      let! _ := note "item.unknown" Drop ("gemini cannot express " +:+ kind) in quiet t
  end.

Fixpoint encode_items (idx : nat) (items : list IrItem) (t : Turns) : noted Turns :=
  match items with
  | [] => quiet t
  | item :: items => let! t := encode_item idx item t in encode_items (S idx) items t
  end.
End Encode.

(** ** Tools *)
Definition GEMINI_BUILTIN_TOOL_KEYS : list string :=
  ["googleSearch"; "codeExecution"; "googleSearchRetrieval"; "urlContext"; "googleMaps"; "enterpriseWebSearch";
   "computerUse"].

Definition is_gemini_builtin_tool (value : json) : bool :=
  existsb (fun key => is_some (get value key)) GEMINI_BUILTIN_TOOL_KEYS.

Definition is_gemini_hosted_raw (raw : json) : bool := is_gemini_builtin_tool raw.

(** A declaration, or a tool that goes beside the declarations. *)
Definition encode_tool (i : nat) (tool : PreparedTool) : noted (option (json + json)) :=
  let path := "tools[" +:+ pretty i +:+ "]" in
  match tool with
  | PtFunction name description parameters strict =>
      let path := path +:+ ".parameters" in
      let! parameters := relax_gemini_schema parameters path in
      let is_strict := bool_decide (strict = Some true) in
      let! _ := note_if is_strict path Drop "strict additionalProperties has no Gemini slot" in
      let parameters := if is_strict then require_every_property parameters else parameters in
      quiet (Some (inl (jobj [("name", JStr name); ("description", JStr description); ("parameters", parameters)])))
  | PtRaw raw =>
      if is_gemini_hosted_raw raw then quiet (Some (inr raw))
      else let! _ := note path Drop "raw tool has no generateContent slot" in quiet None
  end.

Definition encode_prepared_tools (prepared : list PreparedTool) : noted (list json) :=
  let! tools := nfilter_map (fun x => encode_tool (fst x) (snd x)) (imap pair prepared) in
  let decls := omap (fun t => match t with inl d => Some d | inr _ => None end) tools in
  let hosted := omap (fun t => match t with inr h => Some h | inl _ => None end) tools in
  quiet ((match decls with [] => [] | _ => [jobj [("functionDeclarations", JArr decls)]] end) ++ hosted).

(** ** Sampling *)
Definition gemini_thinking_level (effort : string) : option (string * option string) :=
  let trimmed := trim effort in
  if is_empty trimmed then None
  else
    let lower := to_ascii_lowercase trimmed in
    if one_of lower ["xhigh"; "x-high"] then Some ("high", Some "xhigh maps to high") else Some (lower, None).

Definition note_degrade (key : string) (detail : option string) : noted unit :=
  match detail with Some detail => note ("sampling." +:+ key) Degrade detail | None => quiet tt end.

Definition encode_thinking (s : IrSampling) : step := fun cfg =>
  let thinking_budget := opt_or (sp_thinking_budget s) (sp_max_reasoning_tokens s) in
  let thinking_level := sp_reasoning_effort s ≫= gemini_thinking_level in
  if is_some (sp_include_thoughts s) || is_some thinking_budget || is_some thinking_level then
    let tc := put "includeThoughts" (JBool <$> sp_include_thoughts s) (JObj []) in
    let tc := put "thinkingBudget" (jint <$> thinking_budget) tc in
    let tc := put "thinkingLevel" (JStr <$> (fst <$> thinking_level)) tc in
    let! _ := note_degrade "reasoning_effort" (thinking_level ≫= snd) in
    quiet (index_set cfg "thinkingConfig" tc)
  else quiet cfg.

Definition encode_schema (s : IrSampling) : step := fun cfg =>
  match sp_json_schema s with
  | Some schema =>
      if is_object schema then
        let! schema := relax_gemini_schema schema "sampling.json_schema" in
        quiet (index_set (index_set cfg "responseMimeType" (JStr "application/json")) "responseSchema" schema)
      else let! _ := note "sampling.json_schema" Drop "json_schema requires object schema" in quiet cfg
  | None =>
      quiet (if bool_decide (sp_json_object s = Some true)
             then index_set cfg "responseMimeType" (JStr "application/json") else cfg)
  end.

Definition wire_modality (raw : string) : option string :=
  if eq_ignore_ascii_case raw "text" then Some "TEXT"
  else if eq_ignore_ascii_case raw "audio" then Some "AUDIO"
  else if eq_ignore_ascii_case raw "image" then Some "IMAGE" else None.

Definition encode_modalities (s : IrSampling) : step := fun cfg =>
  let modalities := omap wire_modality (sp_output_modalities s) in
  match sp_output_modalities s, modalities with
  | [], _ => quiet cfg
  | _, [] => let! _ := note "sampling.output_modalities" Drop "gemini modalities are text, audio, or image" in quiet cfg
  | all, _ =>
      let! _ := note "sampling.output_modalities"
                  (if (length modalities <? length all)%nat then Degrade else Preserve)
                  "gemini generationConfig.responseModalities" in
      quiet (index_set cfg "responseModalities" (JArr (map JStr modalities)))
  end.

Definition encode_speech (s : IrSampling) : step := fun cfg =>
  match opt_filter is_object (sp_multi_speaker_speech s) with
  | Some speech => quiet (index_set cfg "speechConfig" speech)
  | None =>
      set_when (trimmed (sp_audio_voice s)) "speechConfig"
        (fun voice => jobj [("voiceConfig", jobj [("prebuiltVoiceConfig", jobj [("voiceName", JStr voice)])])])
        (preserve "audio_voice" "gemini generationConfig.speechConfig") cfg
  end.

Definition encode_stop (s : IrSampling) : step := fun cfg =>
  let! stop := kept_stop (sp_stop s) in quiet (put "stopSequences" (if_any stop (JArr (map JStr stop))) cfg).

Definition encode_logprobs (s : IrSampling) : step := fun cfg =>
  let asked := bool_decide (sp_logprobs s = Some true) in
  let cfg := put "responseLogprobs" (if asked || is_some (sp_top_logprobs s) then Some (JBool true) else None) cfg in
  let! _ := note_if asked "sampling.logprobs" Preserve "gemini generationConfig.responseLogprobs" in
  set_when (sp_top_logprobs s) "logprobs" jint (preserve "top_logprobs" "gemini generationConfig.logprobs") cfg.

(** The fields of [generationConfig] in order. *)
Definition config_steps (s : IrSampling) : list step :=
  [ set_when (sp_temperature s) "temperature" json_f32 (quiet tt);
    set_when (sp_top_p s) "topP" json_f32 (quiet tt);
    set_when (sp_top_k s) "topK" jint (quiet tt);
    set_when (trimmed (sp_media_resolution s)) "mediaResolution" JStr (quiet tt);
    set_when (opt_filter is_object (sp_image_config s)) "imageConfig" id (quiet tt);
    set_when (opt_filter is_object (sp_audio_transcription_config s)) "audioTranscriptionConfig" id (quiet tt);
    set_when (opt_filter is_object (sp_translation_config s)) "translationConfig" id (quiet tt);
    set_when (sp_affective_dialog s) "enableAffectiveDialog" JBool (quiet tt);
    set_when (sp_enhanced_civic_answers s) "enableEnhancedCivicAnswers" JBool (quiet tt);
    only_note (note_fields
      [ (is_some (sp_inference_geo s), "inference_geo"); (is_some (sp_performance_latency s), "performance_latency");
        (is_some (sp_previous_message_id s), "previous_message_id");
        (negb (bool_decide (sp_response_field_paths s = [])), "response_field_paths");
        (is_some (sp_additional_request_fields s), "additional_request_fields");
        (is_some (sp_prompt_variables s), "prompt_variables"); (is_some (sp_guardrail s), "guardrail");
        (is_some (sp_container s), "container"); (is_some (sp_context_management s), "context_management") ]);
    only_note (drop_responses_request_fields s);
    only_note (drop_messages_native_thinking s);
    only_note (note_fields
      [ (is_some (sp_mcp_servers s), "mcp_servers"); (is_some (sp_json_schema_strict s), "json_schema_strict");
        (is_some (sp_json_schema_description s), "json_schema_description") ]);
    set_when (sp_max_tokens s) "maxOutputTokens" jint (quiet tt);
    encode_stop s;
    set_when (sp_frequency_penalty s) "frequencyPenalty" json_f32 (quiet tt);
    set_when (sp_presence_penalty s) "presencePenalty" json_f32 (quiet tt);
    set_when (sp_seed s) "seed" jint (quiet tt);
    set_when (sp_n s) "candidateCount" jint (quiet tt);
    encode_logprobs s;
    encode_thinking s;
    encode_schema s;
    encode_modalities s;
    encode_speech s;
    only_note (no_slot_if (is_some (sp_audio_format s)) "sampling.audio_format") ].

Definition encode_service_tier (s : IrSampling) : step := fun body =>
  match trimmed (sp_service_tier s) with
  | None => quiet body
  | Some tier =>
      if eq_ignore_ascii_case tier "unspecified" then quiet body
      else
        match gemini_service_tier tier with
        | Some (mapped, degrade) =>
            let! _ := note_degrade "service_tier" degrade in quiet (index_set body "serviceTier" (JStr mapped))
        | None => let! _ := note "sampling.service_tier" Drop "unmapped service_tier" in quiet body
        end
  end.

Definition encode_tool_choice (choice : IrToolChoice) : step := fun body =>
  let set fcc := index_set body "toolConfig" (jobj [("functionCallingConfig", fcc)]) in
  quiet
    match choice with
    | Auto => body
    | NoTool => set (jobj [("mode", JStr "NONE")])
    | Required => set (jobj [("mode", JStr "ANY")])
    | Named name => set (jobj [("mode", JStr "ANY"); ("allowedFunctionNames", JArr [JStr name])])
    end.

(** The budget has one slot; a second number for it is noted. *)
Definition note_second_budget (s : IrSampling) : noted unit :=
  note_if (is_some (sp_max_reasoning_tokens s) && is_some (sp_thinking_budget s)) "sampling.max_reasoning_tokens" Drop
    "thinking_budget sibling won".

Definition body_steps (s : IrSampling) (cfg : json) : list step :=
  [ (fun body => quiet (put "generationConfig" (match cfg with JObj (_ :: _) => Some cfg | _ => None end) body));
    set_when (trimmed (sp_cached_content s)) "cachedContent" JStr (quiet tt);
    set_when (opt_filter is_array (sp_safety_settings s)) "safetySettings" id (quiet tt);
    set_when (opt_filter is_object (sp_request_labels s)) "labels" id (quiet tt);
    set_when (sp_store s) "store" JBool (preserve "store" "gemini store");
    only_note (note_fields
      [ (is_some (sp_prompt_cache_key s), "prompt_cache_key");
        (is_some (sp_prompt_cache_retention s), "prompt_cache_retention") ]);
    only_note (drop_dest_chat_sampling_extras s);
    only_note (note_fields
      [ (is_some (sp_user s), "user"); (is_some (sp_verbosity s), "verbosity");
        (is_some (sp_safety_identifier s), "safety_identifier");
        (negb (bool_decide (sp_metadata s = [])), "metadata") ]);
    encode_service_tier s;
    only_note (note_fields
      [ (is_some (sp_previous_response_id s), "previous_response_id"); (enabled (sp_cache s), "cache");
        (is_some (sp_stream s), "stream") ]);
    only_note (note_second_budget s);
    encode_tool_choice (sp_tool_choice s);
    only_note (note_fields
      [ (is_some (sp_parallel_tool_calls s), "parallel_tool_calls");
        (negb (bool_decide (sp_include s = [])), "include") ]) ].

Definition encode_sampling (s : IrSampling) (body : json) : noted json :=
  let! cfg := steps (config_steps s) (JObj []) in steps (body_steps s cfg) body.

(** Declarations beside a built-in tool need a flag. *)
Definition keep_mixed_builtin_tool_flag : step := fun body =>
  let tools := unwrap_or (get_array body "tools") [] in
  let has_functions := existsb (fun tool => match get_array tool "functionDeclarations" with Some (_ :: _) => true | _ => false end) tools in
  let has_builtin := existsb is_gemini_builtin_tool tools in
  match has_functions && has_builtin && is_object body, unwrap_or (get body "toolConfig") (JObj []) with
  | true, JObj cfg =>
      let! _ := note "toolConfig.includeServerSideToolInvocations" Preserve "gemini builtin tool beside a function call" in
      quiet (index_set body "toolConfig" (index_set (JObj cfg) "includeServerSideToolInvocations" (JBool true)))
  | _, _ => quiet body
  end.

(** ** The whole body *)

(** Encrypted reasoning alone may leave a request without contents. *)
Definition omitted_reasoning_only (system_parts : list json) (report : list LossEvent) : bool :=
  let dropped text := existsb (fun e => bool_decide (loss_action e = Drop) && str_contains text (loss_detail e)) report in
  match system_parts with
  | [] => dropped "reasoning omitted on generateContent" && negb (dropped "empty turn has no gemini parts")
  | _ => false
  end.

Definition check_contents (system_parts contents : list json) (report : list LossEvent) : result MapError unit :=
  match contents with
  | _ :: _ => Ok tt
  | [] =>
      if omitted_reasoning_only system_parts report then Ok tt
      else
        let reasons :=
          (match system_parts with [] => [] | _ => ["system instruction needs a contents turn"] end)
          ++ dropped_details report in
        Err (Invalid (match reasons with
                      | [] => "gemini contents must not be empty"
                      | _ => "gemini contents must not be empty: " +:+ str_join "; " reasons
                      end))
  end.

(** [report] is what was noted before. *)
Definition encode `{SerdeJson} (ir : IrRequest) (prepared : list PreparedTool) (report : list LossEvent) :
  noted_or_error json :=
  let '(t, turn_events) := encode_items 0 (items ir) (mkTurns [] [] []) in
  let* _ := check_contents (tn_system t) (tn_contents t) (report ++ turn_events) in
  let body := jobj [("contents", JArr (tn_contents t))] in
  let body := put "model" (if is_empty (model ir) then None else Some (JStr (model ir))) body in
  let body := put "systemInstruction" (if_any (tn_system t) (jobj [("parts", JArr (tn_system t))])) body in
  if bool_decide (sp_max_tokens (sampling ir) = Some 0)
  then Err (hard "sampling.max_tokens" "max_tokens must be at least 1")
  else
    Ok (let! _ := (tt, turn_events) in
        let! tools := encode_prepared_tools prepared in
        let! body := encode_sampling (sampling ir) (put "tools" (if_any tools (JArr tools)) body) in
        keep_mixed_builtin_tool_flag body).
