(* ===== verification/GeminiTurns.v ===== *)
(** * GeminiTurns: the contents of a written Gemini request

    The roles of the contents are [user] and [model] in turn and no content is
    empty; every call and every result of the request is one part, in order,
    and a result carries the name of the latest call with its id. *)
From stdpp Require Import pretty.
From S2P Require Import Prelude Text Json JsonCodec Floats Ir ProfileTypes StreamCore Usage Shapes Chat MapCore Gemini.
From S2P Require Import Loss RequestCore Schema Tools GeminiSchema GeminiEncode.

(** ** What a reader sees *)
Definition content_role (c : json) : option string := get_str c "role".
Definition content_parts (c : json) : list json := unwrap_or (get_array c "parts") [].
Definition all_parts (contents : list json) : list json := concat (map content_parts contents).

(** No two adjacent entries are equal. *)
Fixpoint alternates (roles : list (option string)) : bool :=
  match roles with
  | a :: (b :: _) as rest => negb (bool_decide (a = b)) && alternates rest
  | _ => true
  end.

Definition turn_ok (c : json) : bool :=
  is_object c && match content_role c with Some role => one_of role ["user"; "model"] | None => false end
  && match get_array c "parts" with Some (_ :: _) => true | _ => false end.

Definition turns_ok (contents : list json) : bool := forallb turn_ok contents && alternates (map content_role contents).

(** A call, or a result, with its id and name. *)
Inductive Ref := RefCall (id name : string) | RefResult (id name : string).

Definition part_ref (part : json) : option Ref :=
  match get part "functionCall", get part "functionResponse" with
  | Some call, _ => id ← get_str call "id"; name ← get_str call "name"; Some (RefCall id name)
  | None, Some result => id ← get_str result "id"; name ← get_str result "name"; Some (RefResult id name)
  | None, None => None
  end.

(** The name of the latest call with the id among the items before. *)
Definition named_before (before : list IrItem) (id : string) : string :=
  fold_left (fun name item => match item with
                              | IFunctionCall call_id call _ _ | ICustomToolCall call_id call _ _ =>
                                  if String.eqb call_id id then call else name
                              | _ => name
                              end) before id.

Fixpoint item_refs (before items : list IrItem) : list Ref :=
  match items with
  | [] => []
  | item :: rest =>
      match item with
      | IFunctionCall id name _ _ | ICustomToolCall id name _ _ => [RefCall id name]
      | IFunctionOutput id _ _ _ => [RefResult id (named_before before id)]
      | _ => []
      end ++ item_refs (before ++ [item]) rest
  end.

(** Parts the encoder writes itself, none copied from the source. *)
Fixpoint own_part (part : IrPart) : bool :=
  match part with PRaw _ _ => false | PPromptCacheBreakpoint _ inner => own_part inner | _ => true end.

Definition own_item (item : IrItem) : bool :=
  match item with IUser parts | IAssistant parts _ => forallb own_part parts | _ => true end.

(** ** Pushing a part *)
Lemma alternates_snoc roles role : alternates roles = true -> last roles <> Some role -> alternates (roles ++ [role]) = true.
Proof.
  induction roles as [|a [|b rest] IH]; [done| |].
  - intros _ N. cbn. rewrite andb_true_r. apply negb_true_iff, bool_decide_eq_false. intros ->. by apply N.
  - cbn [alternates app]. rewrite andb_true_iff. intros [E A] N. rewrite E. apply IH; [done|]. by rewrite last_cons_cons in N.
Qed.

Lemma content_ok role part : one_of role ["user"; "model"] = true -> turn_ok (content role [part]) = true.
Proof.
  intros R. unfold turn_ok, content_role, get_str, get_array, content. rewrite is_object_jobj, !get_jobj.
  cbn [assoc_last]. eqb_literals. cbn [mbind option_bind as_str as_array]. by rewrite R.
Qed.

Lemma content_parts_new role parts : content_parts (content role parts) = parts.
Proof. done. Qed.

(** The last content, when there is one and it is a turn. *)
Lemma pushed before last role part : turn_ok last = true -> content_role last = Some role ->
  let last' := index_set last "parts" (JArr (content_parts last ++ [part])) in
  push_role_part (before ++ [last]) role part = before ++ [last']
  /\ turn_ok last' = true /\ content_role last' = Some role /\ content_parts last' = content_parts last ++ [part].
Proof.
  unfold turn_ok. rewrite !andb_true_iff. intros [[O R] P] E. cbn zeta.
  unfold push_role_part. rewrite rev_app_distr. cbn [rev app]. unfold content_role in *.
  rewrite bool_decide_eq_true_2 by done. destruct (get_array last "parts") as [parts|] eqn:G; [|done].
  unfold content_parts. rewrite G. cbn [unwrap_or]. rewrite rev_involutive. split; [done|].
  unfold get_str, get_array. rewrite !is_object_index_set, !get_index_set by done. eqb_literals. cbn [mbind option_bind as_array].
  unfold get_str in R, E. rewrite O, R, E. split; [by destruct parts|done].
Qed.

Lemma push_new contents role part : last_role contents <> Some role ->
  push_role_part contents role part = contents ++ [content role [part]].
Proof.
  unfold last_role, push_role_part. destruct contents as [|c before _] using rev_ind; [done|].
  rewrite last_snoc, rev_app_distr. cbn [mbind option_bind rev app]. intros N. by rewrite bool_decide_eq_false_2.
Qed.

Lemma push_part_ok contents role part : one_of role ["user"; "model"] = true -> turns_ok contents = true ->
  turns_ok (push_role_part contents role part) = true
  /\ all_parts (push_role_part contents role part) = all_parts contents ++ [part].
Proof.
  intros R. unfold turns_ok, all_parts. rewrite andb_true_iff. intros [F A].
  destruct (decide (last_role contents = Some role)) as [E|N].
  - unfold last_role in E. destruct contents as [|c before _] using rev_ind; [done|]. rewrite last_snoc in E.
    cbn [mbind option_bind] in E. rewrite forallb_app in F. cbn [forallb] in F. rewrite !andb_true_iff in F.
    destruct F as (F & C & _). destruct (pushed before c role part C E) as (-> & C' & E' & P').
    rewrite forallb_app, !map_app, !concat_app, F in *. cbn [forallb map concat] in *. unfold content_role in *.
    rewrite C', E', E, P', !app_nil_r, app_assoc in *. by rewrite A.
  - rewrite push_new by done. rewrite forallb_app, !map_app, F, concat_app. cbn [forallb map concat].
    rewrite content_ok by done. cbn [andb]. split; [|done]. apply alternates_snoc; [done|].
    unfold last_role in N. destruct contents as [|c before _] using rev_ind; [done|]. rewrite last_snoc in N.
    rewrite map_app. cbn [map]. rewrite last_snoc. intros [= E]. by apply N.
Qed.

Lemma push_parts_ok role parts : one_of role ["user"; "model"] = true -> forall contents, turns_ok contents = true ->
  let pushed := fold_left (fun contents part => push_role_part contents role part) parts contents in
  turns_ok pushed = true /\ all_parts pushed = all_parts contents ++ parts.
Proof.
  intros R. induction parts as [|part parts IH]; intros contents T; cbn [fold_left]; [by rewrite app_nil_r|].
  destruct (push_part_ok contents role part R T) as [T' P']. destruct (IH _ T') as [T2 P2].
  split; [done|]. cbn zeta in P2. by rewrite P2, P', <- app_assoc.
Qed.

Lemma push_turn_ok role parts idx contents : one_of role ["user"; "model"] = true -> turns_ok contents = true ->
  turns_ok (push_encoded_turn contents role parts idx).1 = true
  /\ all_parts (push_encoded_turn contents role parts idx).1 = all_parts contents ++ (encode_parts parts).1.
Proof.
  intros R T. unfold push_encoded_turn. rewrite nbind_fst. destruct (encode_parts parts).1 as [|p ps].
  - rewrite nbind_fst. cbn [quiet fst]. by rewrite app_nil_r.
  - rewrite nbind_fst. by apply (push_parts_ok role (p :: ps)).
Qed.

(** ** The parts of an item *)

(** A part of the encoder's own making refers to no call. *)
Definition no_ref (p : json) : Prop := part_ref p = None.

Ltac no_ref := unfold no_ref, part_ref, text_json, inline_json, content; read_literals; done.

Lemma document_no_ref source media b : (encode_document_part source media).1 = Some b -> no_ref b.
Proof.
  unfold encode_document_part, left_out. destruct source as [d|d|d|d|d o]; try destruct (blank d); rewrite ?nbind_fst;
    intros [= <-]; unfold encode_document; try no_ref; done.
Qed.

Lemma image_url_no_ref url detail file_id b : (encode_image_url url detail file_id).1 = Some b -> no_ref b.
Proof.
  unfold encode_image_url, left_out. destruct (blank url); [destruct (is_some _); rewrite nbind_fst; done|].
  rewrite nbind_fst. destruct (split_data_url url) as [[media data]|]; [destruct (blank data)|]; rewrite ?nbind_fst;
    intros [= <-]; no_ref.
Qed.

Lemma part_no_ref part b : own_part part = true -> (encode_part part).1 = Some b -> no_ref b.
Proof.
  revert b. induction part as [text|url detail owner file_id|media data|text sig|t raw|source media name cit ctx|data format|mode inner IH];
    intros b O; cbn [encode_part own_part] in *; try done; unfold left_out.
  - intros [= <-]. no_ref.
  - apply image_url_no_ref.
  - destruct (blank data); rewrite ?nbind_fst; intros [= <-]. no_ref.
  - intros [= <-]. no_ref.
  - apply document_no_ref.
  - destruct (blank data); rewrite ?nbind_fst; intros [= <-]. no_ref.
  - rewrite nbind_fst. destruct (encode_part inner).1 as [v|]; [|by rewrite nbind_fst].
    rewrite nbind_fst. unfold apply_prompt_cache. destruct (nonempty _); cbn [negb fst]; rewrite ?nbind_fst; intros [= <-]; by apply IH.
Qed.

Lemma parts_no_ref parts : forallb own_part parts = true -> omap part_ref (encode_parts parts).1 = [].
Proof.
  unfold encode_parts. rewrite nfilter_map_fst. induction parts as [|part parts IH]; [done|]. cbn [forallb omap list_omap].
  rewrite andb_true_iff. intros [O R]. destruct (encode_part part).1 as [b|] eqn:E; cbn; [|by apply IH].
  rewrite (part_no_ref _ _ O E). by apply IH.
Qed.

(** ** The loop *)
Lemma call_name_snoc calls id name call_id :
  call_name (calls ++ [(id, name)]) call_id = if String.eqb id call_id then name else call_name calls call_id.
Proof. unfold call_name. rewrite rev_app_distr. cbn [rev app List.find fst]. by destruct (String.eqb id call_id). Qed.

Lemma named_snoc before item id :
  named_before (before ++ [item]) id =
  match item with
  | IFunctionCall call_id name _ _ | ICustomToolCall call_id name _ _ => if String.eqb call_id id then name else named_before before id
  | _ => named_before before id
  end.
Proof. unfold named_before. by rewrite fold_left_app. Qed.

(** The state after the items [before], when the parts of the calls and
    results among them are [refs]. *)
Record after (before : list IrItem) (refs : list Ref) (t : Turns) : Prop := {
  af_turns : turns_ok (tn_contents t) = true;
  af_calls : forall id, call_name (tn_calls t) id = named_before before id;
  af_refs : forallb own_item before = true -> omap part_ref (all_parts (tn_contents t)) = refs }.

Lemma after_same before refs item t contents : after before refs t ->
  (forall id, named_before (before ++ [item]) id = named_before before id) ->
  turns_ok contents = true -> (own_item item = true -> omap part_ref (all_parts contents) = omap part_ref (all_parts (tn_contents t))) ->
  after (before ++ [item]) refs (with_contents contents t).
Proof.
  intros [T C R] N T' P. split; [done| |].
  - intros id. by rewrite N.
  - rewrite forallb_app. cbn [forallb with_contents tn_contents]. rewrite !andb_true_iff. intros (B & I & _).
    by rewrite P, R.
Qed.

Section Items.
Context {SJ : SerdeJson}.

Lemma call_after before refs item t id name arguments signature : after before refs t ->
  (item = IFunctionCall id name arguments signature \/ exists responses, item = ICustomToolCall id name arguments responses) ->
  after (before ++ [item]) (refs ++ [RefCall id name]) (encode_call id name arguments signature t).1.
Proof.
  intros [T C R] I. unfold encode_call. destruct (json_object_or_wrapped _ _) as [args degraded]. rewrite nbind_fst. cbn [quiet fst].
  match goal with |- context [push_role_part _ "model" ?p] =>
    destruct (push_part_ok (tn_contents t) "model" p eq_refl T) as [T' P'];
    assert (part_ref p = Some (RefCall id name)) as E by (unfold part_ref, get_str; read_literals; done)
  end.
  split; cbn [tn_contents tn_calls]; [done| |].
  - intros c. rewrite call_name_snoc, named_snoc, C. by destruct I as [->|[responses ->]].
  - rewrite forallb_app, andb_true_iff. intros [B _]. rewrite P', omap_app, R by done. cbn [omap list_omap]. by rewrite E.
Qed.

Lemma output_after before refs idx id output parts is_error t : after before refs t ->
  after (before ++ [IFunctionOutput id output parts is_error]) (refs ++ [RefResult id (named_before before id)])
    (encode_output idx id output parts is_error t).1.
Proof.
  intros [T C R]. unfold encode_output. rewrite !nbind_fst. destruct (json_object_or_wrapped _ _) as [response degraded].
  rewrite nbind_fst. cbn [quiet fst].
  match goal with |- context [push_role_part _ "user" ?p] =>
    destruct (push_part_ok (tn_contents t) "user" p eq_refl T) as [T' P'];
    assert (part_ref p = Some (RefResult id (named_before before id))) as E
      by (unfold part_ref, get_str; read_literals; cbn [mbind option_bind as_str]; by rewrite C)
  end.
  split; cbn [tn_contents tn_calls with_contents]; [done| |].
  - intros c. by rewrite named_snoc.
  - rewrite forallb_app, andb_true_iff. intros [B _]. rewrite P', omap_app, R by done. cbn [omap list_omap]. by rewrite E.
Qed.

Definition refs_of (before : list IrItem) (item : IrItem) : list Ref := item_refs before [item].

Lemma item_after before refs idx item t : after before refs t ->
  after (before ++ [item]) (refs ++ refs_of before item) (encode_item idx item t).1.
Proof.
  intros A. pose proof A as [T C R].
  assert (forall item, refs_of before item = [] -> (forall id, named_before (before ++ [item]) id = named_before before id) ->
    forall u, tn_contents u = tn_contents t -> tn_calls u = tn_calls t -> after (before ++ [item]) (refs ++ refs_of before item) u) as SAME.
  { intros i E N u U V. rewrite E, app_nil_r. destruct (after_same before refs i t (tn_contents t) A N T (fun _ => eq_refl)) as [T2 C2 R2].
    split; [by rewrite U|intros id; by rewrite V|by rewrite U]. }
  destruct item; cbn [encode_item]; try (rewrite nbind_fst; apply SAME; [done|intros; apply named_snoc|done|done]).
  - unfold encode_role. rewrite !nbind_fst. apply SAME; [done|intros; apply named_snoc|done|done].
  - unfold encode_role. rewrite !nbind_fst. apply SAME; [done|intros; apply named_snoc|done|done].
  - rewrite nbind_fst. cbn [quiet fst]. destruct (push_turn_ok "user" parts idx _ eq_refl T) as [T' P']. cbn [refs_of item_refs].
    rewrite app_nil_r. apply after_same; [done|intros; apply named_snoc|done|]. intros O. by rewrite P', omap_app, (parts_no_ref _ O), app_nil_r.
  - rewrite !nbind_fst. cbn [quiet fst]. destruct (push_turn_ok "model" parts idx _ eq_refl T) as [T' P']. cbn [refs_of item_refs].
    rewrite app_nil_r. apply after_same; [done|intros; apply named_snoc|done|]. intros O. by rewrite P', omap_app, (parts_no_ref _ O), app_nil_r.
  - apply call_after; [done|]. by left.
  - apply call_after; [done|]. right. by eexists.
  - by apply output_after.
  - unfold encode_reasoning. cbn [refs_of item_refs]. rewrite app_nil_r.
    destruct (nonempty _) as [text|].
    + cbn [quiet fst]. match goal with |- context [push_role_part _ "model" ?p] =>
        destruct (push_part_ok (tn_contents t) "model" p eq_refl T) as [T' P']; assert (part_ref p = None) as E by no_ref end.
      apply after_same; [done|intros; apply named_snoc|done|]. intros _. rewrite P', omap_app. cbn [omap list_omap].
      by rewrite E, app_nil_r.
    + rewrite nbind_fst. rewrite <- (app_nil_r refs). apply (SAME (IReasoning _ _ _)); [done|intros; apply named_snoc|done|done].
Qed.

Lemma items_after items : forall before refs idx t, after before refs t ->
  after (before ++ items) (refs ++ item_refs before items) (encode_items idx items t).1.
Proof.
  induction items as [|item items IH]; intros before refs idx t A; cbn [encode_items]; [by rewrite !app_nil_r|].
  rewrite nbind_fst. pose proof (IH _ _ (S idx) _ (item_after _ _ idx item _ A)) as A'.
  change (item :: items) with ([item] ++ items). rewrite app_assoc. unfold refs_of in A'. cbn [item_refs app] in *.
  by rewrite <- !app_assoc, !app_nil_l in *.
Qed.

(** ** What the body keeps *)
Lemma writes_put_quiet k (o : option json) : writes [k] (fun body => quiet (put k o body)).
Proof. apply writes_at. intros body _. by eexists. Qed.

Lemma gemini_tier_writes s : writes ["serviceTier"] (encode_service_tier s).
Proof.
  apply writes_at. intros body _. unfold encode_service_tier. destruct (trimmed _) as [tier|]; [|by exists None].
  destruct (eq_ignore_ascii_case _ _); [by exists None|]. destruct (gemini_service_tier tier) as [[mapped degrade]|]; rewrite nbind_fst;
    [by eexists (Some _)|by exists None].
Qed.

Lemma gemini_choice_writes c : writes ["toolConfig"] (encode_tool_choice c).
Proof. apply writes_at. intros body _. unfold encode_tool_choice. destruct c; cbn [quiet fst]; [by exists None|by eexists (Some _)..]. Qed.

#[local] Hint Resolve writes_put_quiet writes_set_when writes_only_note gemini_tier_writes gemini_choice_writes : gemini_writes.

Lemma body_writes s cfg : exists ks, Forall2 writes ks (body_steps s cfg)
  /\ concat ks = ["generationConfig"; "cachedContent"; "safetySettings"; "labels"; "store"; "serviceTier"; "toolConfig"].
Proof.
  eexists. split.
  - unfold body_steps. repeat (apply Forall2_cons_2; [solve [eauto with gemini_writes]|]). apply Forall2_nil_2.
  - reflexivity.
Qed.

Lemma flag_writes : writes ["toolConfig"] keep_mixed_builtin_tool_flag.
Proof.
  apply writes_at. intros body _. unfold keep_mixed_builtin_tool_flag.
  destruct (_ && _ && _); [|by exists None]. destruct (unwrap_or _ _); rewrite ?nbind_fst; [by exists None..|by eexists (Some _)].
Qed.

Lemma sampling_contents s body : is_object body = true ->
  get (encode_sampling s body).1 "contents" = get body "contents" /\ is_object (encode_sampling s body).1 = true.
Proof.
  intros O. unfold encode_sampling. rewrite nbind_fst. destruct (body_writes s (steps (config_steps s) (JObj [])).1) as (ks & F & E).
  destruct (writes_steps _ _ F body O) as [O' G]. rewrite E in G. split; [by apply G|done].
Qed.

End Items.

(** ** At a request *)
#[local] Existing Instance bits_codec.

(** Two calls under one id, a result after each, and a joined user turn. *)
Definition reused_id : IrRequest :=
  request_new "m" [IUser [PText "hi"]; IFunctionCall "c" "f" "{}" None; IFunctionOutput "c" "1" [] false;
    IUser [PText "and"]; ICustomToolCall "c" "g" "x" None; IFunctionOutput "c" "2" [] false;
    IFunctionOutput "d" "3" [] false].

