(* ===== verification/ConverseRequest.v ===== *)
(** * ConverseRequest: reading a request of the Converse dialect

    [decode] of [W/map/converse.rs]: system blocks, the turns with their calls
    and results split into items of the IR, tools and sampling.  A call or a
    result without its id is refused; a role that is neither user nor
    assistant is noted. *)
From S2P Require Import Prelude Text Json JsonCodec Floats Ir ProfileTypes StreamCore Usage Shapes Chat MapCore.
From S2P Require Import Loss RequestCore Tools.

(** ** Parts *)

(** [.pointer("/s3Location/..")] of a source, when it is a text that is not empty. *)
Definition s3_field (source : json) (key : string) : option string :=
  nonempty (pointer_str source [Key "s3Location"; Key key]).

Definition document_source (source : json) : option IrDocumentSource :=
  match str_field source "bytes" with
  | Some bytes => Some (SrcBase64 bytes)
  | None => (fun uri => SrcS3 uri (s3_field source "bucketOwner")) <$> s3_field source "uri"
  end.

Definition decode_document (doc : json) : option IrPart :=
  let format := unwrap_or (str_field doc "format") "pdf" in
  source ← get doc "source"; src ← document_source source;
  Some (PDocument src (media_type_from_converse_format format) (nonempty (str_field doc "name"))
          (pointer doc [Key "citations"; Key "enabled"] ≫= as_bool) (nonempty (str_field doc "context"))).

Definition decode_image (image : json) : option IrPart :=
  let media_type := media_type_from_converse_image_format (unwrap_or (str_field image "format") "png") in
  source ← get image "source";
  match str_field source "bytes" with
  | Some bytes => Some (PImageBase64 media_type bytes)
  | None => (fun uri => PImageUrl uri None (s3_field source "bucketOwner") None) <$> s3_field source "uri"
  end.

Definition decode_audio (audio : json) : option IrPart :=
  source ← get audio "source";
  match str_field source "bytes" with
  | Some bytes => Some (PAudio bytes (unwrap_or (str_field audio "format") "mp3"))
  | None => if is_some (s3_field source "uri") then Some (PRaw "audio" audio) else None
  end.

(** The first of these blocks that is an object is kept as it is. *)
Fixpoint decode_raw_block (keys : list string) (block : json) : option IrPart :=
  match keys with
  | [] => None
  | key :: keys =>
      match object_field block key with Some raw => Some (PRaw key raw) | None => decode_raw_block keys block end
  end.

Definition decode_media_block (block : json) : option IrPart :=
  match get block "document", get block "image", get block "audio" with
  | Some doc, _, _ => decode_document doc
  | None, Some image, _ => decode_image image
  | None, None, Some audio => decode_audio audio
  | None, None, None =>
      decode_raw_block ["video"; "cachePoint"; "guardContent"; "searchResult"; "citationsContent"] block
  end.

Definition decode_part (block : json) : option IrPart :=
  let reasoning := [Key "reasoningContent"; Key "reasoningText"] in
  match get_str block "text", pointer_str block (reasoning ++ [Key "text"]) with
  | Some text, _ => Some (PText text)
  | None, Some reason => Some (PThinking reason (nonempty (pointer_str block (reasoning ++ [Key "signature"]))))
  | None, None =>
      match nonempty (pointer_str block [Key "reasoningContent"; Key "redactedContent"]) with
      | Some blob => Some (PRaw "redactedContent" (JStr blob))
      | None => decode_media_block block
      end
  end.

(** ** Results *)
Definition tool_result_status_is_error (tool_result : json) : bool :=
  is_some_and (get_str tool_result "status") (fun status => eq_ignore_ascii_case (trim status) "error").

(** Text beside one of these stays in block order. *)
Definition ordered_beside (block : json) : bool :=
  existsb (fun key => is_some (get block key)) ["json"; "image"; "document"; "video"; "searchResult"].

(** A part of a result, or a text that belongs to the one output text. *)
Definition tool_result_block (keep_text_in_order : bool) (block : json) : option (IrPart + string) :=
  match get block "image", get block "document" with
  | Some image, _ => inl <$> decode_image image
  | None, Some doc => inl <$> decode_document doc
  | None, None =>
      match decode_raw_block ["video"; "searchResult"] block, get block "json" with
      | Some part, _ => Some (inl part)
      | None, Some value => Some (inl (PRaw "json" value))
      | None, None =>
          (fun text => if keep_text_in_order then inl (PText text) else inr text) <$> nonempty (get_str block "text")
      end
  end.

Definition tool_result_output (tool_result : json) : string * list IrPart :=
  match get_array tool_result "content" with
  | None => ("", [])
  | Some blocks =>
      let decoded := omap (tool_result_block (existsb ordered_beside blocks)) blocks in
      (str_join "" (omap (fun x => match x with inr text => Some text | inl _ => None end) decoded),
       omap (fun x => match x with inl part => Some part | inr _ => None end) decoded)
  end.

(** ** Turns *)
Definition flush_user (parts : list IrPart) : list IrItem := match parts with [] => [] | _ => [IUser parts] end.
Definition flush_assistant (parts : list IrPart) : list IrItem :=
  match parts with [] => [] | _ => [IAssistant parts None] end.

Section Decode.
Context {SJ : SerdeJson}.

Definition decode_result (tool_result : json) : result MapError IrItem :=
  match get_str tool_result "toolUseId" with
  | Some id =>
      let '(output, parts) := tool_result_output tool_result in
      Ok (IFunctionOutput id output parts (tool_result_status_is_error tool_result))
  | None => Err (Invalid "toolResult omitted toolUseId")
  end.

Definition decode_call (tool : json) : result MapError IrItem :=
  match get_str tool "toolUseId" with
  | Some id =>
      Ok (IFunctionCall id (text_or_empty (get_str tool "name"))
            (match get tool "input" with Some v => to_string v | None => "{}" end) None)
  | None => Err (Invalid "toolUse omitted toolUseId")
  end.

(** The parts before a call or a result are an item of their own. *)
Fixpoint decode_blocks (key : string) (item : json -> result MapError IrItem) (flush : list IrPart -> list IrItem)
    (parts : list IrPart) (blocks : list json) : result MapError (list IrItem) :=
  match blocks with
  | [] => Ok (flush parts)
  | block :: blocks =>
      match get block key with
      | Some own =>
          let* i := item own in let* rest := decode_blocks key item flush [] blocks in Ok (flush parts ++ i :: rest)
      | None => decode_blocks key item flush (parts ++ option_list (decode_part block)) blocks
      end
  end.

Definition decode_user (content : option json) : result MapError (list IrItem) :=
  match content ≫= as_array with
  | Some blocks => decode_blocks "toolResult" decode_result flush_user [] blocks
  | None => Ok (match content ≫= as_str with Some s => [IUser [PText s]] | None => [] end)
  end.

Definition decode_assistant (content : option json) : result MapError (list IrItem) :=
  match content ≫= as_array with
  | Some blocks => decode_blocks "toolUse" decode_call flush_assistant [] blocks
  | None => Ok (match content ≫= as_str with Some s => [IAssistant [PText s] None] | None => [] end)
  end.

Definition tool_set_change_name (block : json) : option string :=
  if is_some (object_field block "toolAddition") then Some "toolAddition"
  else if is_some (object_field block "toolRemoval") then Some "toolRemoval" else None.

Definition decode_system_role_tool_change (content : option json) : noted (list IrItem) :=
  let kept := omap (fun block => (fun name => IUnknown name block) <$> tool_set_change_name block)
                (unwrap_or (content ≫= as_array) []) in
  let! _ := note_if (bool_decide (kept = [])) "message.role" Drop "system not user or assistant" in
  quiet kept.

Definition decode_message (msg : json) : noted_or_error (list IrItem) :=
  let role := text_or_empty (get_str msg "role") in
  let content := get msg "content" in
  if String.eqb role "user" then rmap quiet (decode_user content)
  else if String.eqb role "assistant" then rmap quiet (decode_assistant content)
  else if String.eqb role "system" then lift (decode_system_role_tool_change content)
  else
    let shown := if is_empty role then "missing" else role in
    lift (let! _ := note "message.role" Drop (shown +:+ " not user or assistant") in quiet []).

Fixpoint decode_messages (messages : list json) : noted_or_error (list IrItem) :=
  match messages with
  | [] => lift (quiet [])
  | msg :: messages =>
      let*! items := decode_message msg in let*! rest := decode_messages messages in lift (quiet (items ++ rest))
  end.

Definition system_block (block : json) : option IrItem :=
  match get_str block "text" with
  | Some text => if is_empty text then None else Some (ISystem text None [])
  | None =>
      match object_field block "cachePoint" with
      | Some point => Some (ISystemCache point)
      | None => ISystemGuard <$> object_field block "guardContent"
      end
  end.

Definition decode_system (system : json) : list IrItem :=
  match system with
  | JStr text => if is_empty text then [] else [ISystem text None []]
  | JArr blocks => omap system_block blocks
  | _ => []
  end.

(** ** Sampling and tools *)
Definition converse_json_schema (schema : option json) : option json :=
  match schema with
  | Some (JStr raw) => opt_filter is_object (from_str raw)
  | Some obj => if is_object obj then Some obj else None
  | None => None
  end.

(** The schema object of [outputConfig.textFormat]. *)
Definition text_format_schema (value : json) : option json :=
  tf ← pointer value [Key "outputConfig"; Key "textFormat"];
  if bool_decide (get_str tf "type" = Some "json_schema") then pointer tf [Key "structure"; Key "jsonSchema"] else None.

Definition decode_latency (value : json) : noted (option string) :=
  match trimmed (pointer_str value [Key "performanceConfig"; Key "latency"]) with
  | Some latency =>
      if eq_ignore_ascii_case latency "standard" || eq_ignore_ascii_case latency "optimized"
      then quiet (Some (to_ascii_lowercase latency))
      else let! _ := note "sampling.performance_latency" Drop "unmapped latency" in quiet None
  | None => quiet None
  end.

(** A field of a part of the body that may be missing. *)
Definition of_part {A} (value : json) (part : string) (f : json -> option A) : option A := get value part ≫= f.

Definition decode_tool_choice (value : option json) : IrToolChoice :=
  match value with
  | None => Auto
  | Some value =>
      if is_some (get value "auto") then Auto
      else if is_some (get value "any") then Required
      else match pointer_str value [Key "tool"; Key "name"] with Some name => Named name | None => Auto end
  end.

Definition decode_sampling (value : json) : noted IrSampling :=
  let schema := text_format_schema value in
  let! latency := decode_latency value in
  quiet
  {| sp_temperature := of_part value "inferenceConfig" (fun cfg => f32_field cfg "temperature");
     sp_top_p := of_part value "inferenceConfig" (fun cfg => f32_field cfg "topP");
     sp_top_k := None;
     sp_max_tokens := of_part value "inferenceConfig" (fun cfg => (fun n => n mod 2 ^ 32) <$> get_u64 cfg "maxTokens");
     sp_stop := omap as_str (unwrap_or (of_part value "inferenceConfig" (fun cfg => get_array cfg "stopSequences")) []);
     sp_tool_choice := decode_tool_choice (pointer value [Key "toolConfig"; Key "toolChoice"]);
     sp_parallel_tool_calls := None;
     sp_store := None;
     sp_previous_response_id := None;
     sp_cache := cache_default;
     sp_stream := None;
     sp_include_thoughts := None;
     sp_thinking_budget := None;
     sp_reasoning_effort := not_blank (pointer_str value [Key "outputConfig"; Key "effort"]);
     sp_max_reasoning_tokens := None;
     sp_json_schema := schema ≫= fun js => converse_json_schema (get js "schema");
     sp_json_schema_name := schema ≫= fun js => not_blank (get_str js "name");
     sp_json_schema_description := schema ≫= fun js => not_blank (get_str js "description");
     sp_json_schema_strict := None;
     sp_json_object := None;
     sp_include := [];
     sp_prompt_cache_key := None;
     sp_prompt_cache_retention := None;
     sp_prompt_cache_mode := None;
     sp_prompt_cache_ttl := None;
     sp_top_logprobs := None;
     sp_moderation_model := None;
     sp_moderation_input := None;
     sp_moderation_output := None;
     sp_include_obfuscation := None;
     sp_user := None;
     sp_verbosity := None;
     sp_safety_identifier := None;
     sp_metadata := string_object_field value "requestMetadata";
     sp_frequency_penalty := None;
     sp_presence_penalty := None;
     sp_seed := None;
     sp_n := None;
     sp_service_tier := not_blank (pointer_str value [Key "serviceTier"; Key "type"]);
     sp_output_modalities := [];
     sp_audio_voice := None;
     sp_audio_format := None;
     sp_logprobs := None;
     sp_logit_bias := [];
     sp_prediction := None;
     sp_web_search_options := None;
     sp_inference_geo := None;
     sp_performance_latency := latency;
     sp_previous_message_id := None;
     sp_response_field_paths := omap (fun path => trimmed (as_str path)) (unwrap_or (get_array value "additionalModelResponseFieldPaths") []);
     sp_additional_request_fields := opt_filter (fun v => negb (is_null v)) (get value "additionalModelRequestFields");
     sp_prompt_variables := object_field value "promptVariables";
     sp_guardrail := object_field value "guardrailConfig";
     sp_container := None;
     sp_context_management := None;
     sp_mcp_servers := None;
     sp_media_resolution := None;
     sp_image_config := None;
     sp_audio_transcription_config := None;
     sp_translation_config := None;
     sp_affective_dialog := None;
     sp_enhanced_civic_answers := None;
     sp_multi_speaker_speech := None;
     sp_cached_content := None;
     sp_safety_settings := None;
     sp_request_labels := None;
     sp_truncation := None;
     sp_max_tool_calls := None;
     sp_background := None;
     sp_conversation := None;
     sp_responses_context_management := None;
     sp_messages_thinking := None |}.

(** The tool of a [toolSpec] as the function tool it stands for. *)
Definition function_of_spec (spec : json) : json :=
  let field key := unwrap_or (get spec key) JNull in
  let function :=
    jobj [("name", field "name"); ("description", field "description");
          ("parameters", unwrap_or (pointer spec [Key "inputSchema"; Key "json"]) (JObj []))] in
  jobj [("type", JStr "function"); ("function", put "strict" (JBool <$> bool_field spec "strict") function)].

Definition decode_tool_entry (entry : json) : option IrTool :=
  match get entry "toolSpec", object_field entry "systemTool" with
  | Some spec, _ => Some (decode_tool (function_of_spec spec))
  | None, Some system_tool => Some (TUnknown "systemTool" system_tool)
  | None, None => TCachePoint <$> object_field entry "cachePoint"
  end.

Definition decode_tools (value : json) : list IrTool :=
  omap decode_tool_entry (unwrap_or (pointer value [Key "toolConfig"; Key "tools"] ≫= as_array) []).

Definition decode (value : json) : result MapError (IrRequest * LossReport) :=
  rmap (fun x => (x.1, mkReport x.2))
  (let system := match get value "system" with Some system => decode_system system | None => [] end in
  let*! messages := decode_messages (unwrap_or (get_array value "messages") []) in
  let*! sampling := lift (decode_sampling value) in
  lift (quiet (mkRequest (text_or_empty (get_str value "modelId")) (system ++ messages) (decode_tools value) sampling))).
End Decode.

(** The count is cast, so that one past [u32] keeps its low bits: the readers
    of the other dialects drop it. *)
Example max_tokens_wrap `{SerdeJson} :
  sp_max_tokens (decode_sampling (jobj [("inferenceConfig", jobj [("maxTokens", jint (2 ^ 32 + 5))])])).1 = Some 5.
Proof. reflexivity. Qed.
