(* ===== verification/ConverseEncode.v ===== *)
(** * ConverseEncode: writing a request of the Converse dialect

    [encode] of [W/map/converse.rs]: items become blocks of messages whose
    adjacent turns of one role are joined, documents and images of an
    assistant turn move to a user turn, and document names are rewritten to
    what Bedrock takes; sampling goes to [inferenceConfig] and beside it. *)
From stdpp Require Import pretty.
From S2P Require Import Prelude Text Json JsonCodec Floats Ir ProfileTypes StreamCore Usage Shapes Chat MapCore.
From S2P Require Import Loss RequestCore Schema Tools.

(** ** Media *)
Definition left_out (path detail : string) : noted (option json) := let! _ := note path Drop detail in quiet None.

Definition text_json (text : string) : json := jobj [("text", JStr text)].

Definition encode_image_bytes (media_type data : string) : noted (option json) :=
  if blank data then left_out "part.image" "image data is empty"
  else
    match converse_image_format media_type with
    | None => left_out "part.image" "image format has no converse slot"
    | Some format =>
        quiet (Some (jobj [("image", jobj [("format", JStr format); ("source", jobj [("bytes", JStr data)])])]))
    end.

Definition s3_location (uri : string) (bucket_owner : option string) : json :=
  jobj [("s3Location", put "bucketOwner" (JStr <$> nonempty bucket_owner) (jobj [("uri", JStr uri)]))].

Definition encode_image_url (url : string) (bucket_owner : option string) : noted (option json) :=
  if negb (starts_with "s3://" (to_ascii_lowercase url)) then left_out "part.image" "image url has no converse slot"
  else
    quiet (Some (jobj [("image", jobj [("format", JStr (converse_image_format_from_url url));
                                       ("source", s3_location url bucket_owner)])])).

Definition encode_audio (data format : string) : noted (option json) :=
  if blank data then left_out "part.audio" "audio data is empty"
  else
    match converse_audio_format format with
    | None => left_out "part.audio" "audio format has no converse slot"
    | Some format =>
        quiet (Some (jobj [("audio", jobj [("format", JStr format); ("source", jobj [("bytes", JStr data)])])]))
    end.

(** ** Document names *)
Definition name_char (c : ascii) : bool :=
  is_ascii_alphanumeric c || Ascii.eqb c "-" || Ascii.eqb c "(" || Ascii.eqb c ")" || Ascii.eqb c "["
  || Ascii.eqb c "]".

(** A run of other characters becomes one space, none at the start.  The bytes
    of a character outside ASCII are a run. *)
Fixpoint clean_name (started spaced : bool) (s : string) : string :=
  match s with
  | EmptyString => ""
  | String c t =>
      if name_char c then String c (clean_name true false t)
      else if started && negb spaced then String " " (clean_name started true t)
      else clean_name started spaced t
  end.

(** At most 200 characters; what [clean_name] leaves is ASCII. *)
Definition cut_name (cleaned : string) : string :=
  if (200 <? String.length cleaned)%nat then trim (String.substring 0 200 cleaned) else cleaned.

Definition cleaned_name (raw : string) : string :=
  let cleaned := cut_name (trim (clean_name false false raw)) in
  if is_empty cleaned then "document" else cleaned.

Definition note_document_name : noted unit :=
  note "part.document.name" Degrade "document name had characters Converse rejects".

Definition converse_document_name (name : option string) : noted string :=
  match nonempty name with
  | None => quiet "document"
  | Some original =>
      let raw := trim original in
      if is_empty raw then let! _ := note_document_name in quiet "document"
      else
        let cleaned := cleaned_name raw in
        let! _ := if String.eqb cleaned original then quiet tt else note_document_name in
        quiet cleaned
  end.

Definition document_block (format name : string) (source : json) (citations : option bool) (context : option string) :
  json :=
  let doc := jobj [("format", JStr format); ("name", JStr name); ("source", source)] in
  let doc := put "citations" ((fun enabled => jobj [("enabled", JBool enabled)]) <$> citations) doc in
  jobj [("document", put "context" (JStr <$> trimmed context) doc)].

Definition encode_document (source : IrDocumentSource) (media_type : string) (name : option string)
    (citations : option bool) (context : option string) : noted (option json) :=
  let with_format (src : option json) : noted (option json) :=
    match converse_document_format media_type with
    | None => left_out "part.document" "document format has no converse slot"
    | Some format =>
        let! name := converse_document_name name in
        match src with
        | Some src => quiet (Some (document_block format name src citations context))
        | None => left_out "part.document" "document url has no converse slot"
        end
    end in
  match source with
  | SrcFileId _ => left_out "part.document" "document file_id has no converse slot"
  | SrcText data =>
      if blank data then quiet None
      else let! _ := note "part.document" Degrade "plain text document becomes text" in quiet (Some (text_json data))
  | SrcBase64 data =>
      if blank data then left_out "part.document" "document data is empty"
      else with_format (Some (jobj [("bytes", JStr data)]))
  | SrcS3 uri bucket_owner => with_format (Some (s3_location uri bucket_owner))
  | SrcUrl url => with_format (if starts_with "s3://" url then Some (s3_location url None) else None)
  end.

(** ** Parts *)
Definition reasoning_json (text : string) (signature : option string) : json :=
  jobj [("reasoningContent",
    jobj [("reasoningText", put "signature" (JStr <$> nonempty signature) (text_json text))])].

Definition encode_image_part (url : string) (detail bucket_owner file_id : option string) (data_urls : bool) :
  noted (option json) :=
  let! without_url := drop_image_file_id_without_url url file_id in
  if without_url then quiet None
  else
    let! _ := note_dropped_image_detail detail "converse" in
    match (if data_urls then split_data_url url else None) with
    | Some (media_type, data) => encode_image_bytes media_type data
    | None => encode_image_url url bucket_owner
    end.

(** Raw parts of these types that are objects have a block of their own. *)
Definition raw_block_keys : list string :=
  ["video"; "audio"; "cachePoint"; "guardContent"; "searchResult"; "citationsContent"].

Definition encode_plain_part (part : IrPart) : noted (option json) :=
  match part with
  | PText text => quiet (if blank text then None else Some (text_json text))
  | PThinking text signature => quiet (Some (reasoning_json text signature))
  | PDocument source media_type name citations context => encode_document source media_type name citations context
  | PAudio data format => encode_audio data format
  | PImageUrl url detail bucket_owner file_id => encode_image_part url detail bucket_owner file_id true
  | PImageBase64 media_type data => encode_image_bytes media_type data
  | PRaw _ _ | PPromptCacheBreakpoint _ _ => quiet None
  end.

Definition encode_raw_part (type_name : string) (raw : json) : noted (option json) :=
  if one_of type_name raw_block_keys && is_object raw then quiet (Some (jobj [(type_name, raw)]))
  else if String.eqb type_name "redactedContent" && is_some (nonempty (as_str raw)) then
    quiet (Some (jobj [("reasoningContent", jobj [("redactedContent", raw)])]))
  else
    match plain_media_part (PRaw type_name raw) with
    | Some plain => let! _ := note "part.media_hint" Drop "no slot" in encode_plain_part plain
    | None => left_out "content" "converse image/raw dropped"
    end.

Fixpoint encode_part (part : IrPart) : noted (option json) :=
  match part with
  | PPromptCacheBreakpoint mode inner =>
      let! encoded := encode_part inner in
      match encoded with
      | Some value => let! value := apply_prompt_cache value (Some mode) false in quiet (Some value)
      | None => let! _ := apply_prompt_cache JNull (Some mode) false in quiet None
      end
  | PRaw type_name raw => encode_raw_part type_name raw
  | other => encode_plain_part other
  end.

(** ** Turns *)
Definition turn (role : string) (content : list json) : json := jobj [("role", JStr role); ("content", JArr content)].

Definition last_role (messages : list json) : option string := last ← last messages; get_str last "role".
Definition last_is_user (messages : list json) : bool := bool_decide (last_role messages = Some "user").

Definition last_user_has_tool_result (messages : list json) : bool :=
  last_is_user messages
  && is_some_and (last ← last messages; get_array last "content") (existsb (fun b => is_some (get b "toolResult"))).

(** The content of the last message, when it has the role. *)
Definition open_content (role : string) (messages : list json) : option (list json) :=
  if bool_decide (last_role messages = Some role) then last ← last messages; get_array last "content" else None.

Definition set_last_content (messages : list json) (content : list json) : list json :=
  match rev messages with
  | last :: before => rev before ++ [index_set last "content" (JArr content)]
  | [] => []
  end.

(** The blocks join the last message when it has the role, or open one. *)
Definition push_blocks (role : string) (blocks messages : list json) : list json :=
  match open_content role messages with
  | Some content => set_last_content messages (content ++ blocks)
  | None => messages ++ [turn role blocks]
  end.

(** Converse rejects a user message that has a document and no text block. *)
Definition ensure_document_text (blocks : list json) : noted (list json) :=
  if existsb (fun b => is_some (get b "document")) blocks && negb (existsb (fun b => is_some (get b "text")) blocks) then
    let! _ := note "part.document" Degrade "document needs a text prompt" in
    quiet (blocks ++ [text_json "See the attached document."])
  else quiet blocks.

Definition push_user (idx : nat) (blocks messages : list json) : noted (list json) :=
  match open_content "user" messages with
  | Some content =>
      let! _ := note_if (negb (last_user_has_tool_result messages)) (item_path idx) Degrade
                  "consecutive turns with the same role were joined" in
      let! content := ensure_document_text (content ++ blocks) in
      quiet (set_last_content messages content)
  | None => let! blocks := ensure_document_text blocks in quiet (messages ++ [turn "user" blocks])
  end.

(** The state of the loop. *)
Record Turns := mkTurns { tn_system : list json; tn_messages : list json }.

Definition with_messages (messages : list json) (t : Turns) : Turns := mkTurns (tn_system t) messages.

Definition push_system (idx : nat) (block : json) (t : Turns) : noted Turns :=
  let! _ := note_if (negb (bool_decide (tn_messages t = []))) (item_path idx) Degrade
              "system message moved out of the turn list" in
  quiet (mkTurns (tn_system t ++ [block]) (tn_messages t)).

Definition encode_role (idx : nat) (text : string) (mode : option string) (content_parts : list IrPart) (t : Turns) :
  noted Turns :=
  let! _ := note_role_breakpoint mode in
  let! _ := note_role_breakpoint (match content_parts with [] => None | _ => Some "explicit" end) in
  let! role_text := system_role_text text content_parts in
  if is_empty role_text then quiet t else push_system idx (text_json role_text) t.

Definition encode_user (idx : nat) (parts : list IrPart) (t : Turns) : noted Turns :=
  let! blocks := nfilter_map encode_part parts in
  match blocks with
  | [] => quiet t
  | _ => let! messages := push_user idx blocks (tn_messages t) in quiet (with_messages messages t)
  end.

Definition is_media (block : json) : bool := is_some (get block "document") || is_some (get block "image").

Definition encode_assistant (idx : nat) (parts : list IrPart) (phase : option string) (t : Turns) : noted Turns :=
  let! _ := drop_assistant_phase phase (item_path idx +:+ ".phase") in
  let! encoded := nfilter_map encode_part parts in
  let media := List.filter is_media encoded in
  let blocks := List.filter (fun b => negb (is_media b)) encoded in
  let! _ := note_if (negb (bool_decide (media = []))) (item_path idx) Degrade
              "document and image blocks moved to a user turn" in
  let messages := match blocks with [] => tn_messages t | _ => push_blocks "assistant" blocks (tn_messages t) end in
  let! messages := match media with [] => quiet messages | _ => push_user idx media messages end in
  quiet (with_messages messages t).

(** ** Calls and results *)
Section Encode.
Context {SJ : SerdeJson}.

Definition converse_tool_input (arguments : string) : noted json :=
  match from_str arguments with
  | Some value => quiet value
  | None =>
      let! _ := note "toolUse.input" Degrade "tool arguments are not JSON" in
      quiet (jobj [("raw", JStr arguments)])
  end.

Definition tool_use_block (call_id name : string) (input : json) : json :=
  jobj [("toolUse", jobj [("toolUseId", JStr call_id); ("name", JStr name); ("input", input)])].

Definition encode_call (call_id name arguments : string) (t : Turns) : noted Turns :=
  let! input := converse_tool_input arguments in
  quiet (with_messages (push_blocks "assistant" [tool_use_block call_id name input] (tn_messages t)) t).

(** A part of a result that has a block of its own. *)
Definition result_media (part : IrPart) : bool :=
  let part := (peel_prompt_cache_all part).1 in
  match part with
  | PImageUrl _ _ _ _ | PImageBase64 _ _ | PDocument _ _ _ _ _ => true
  | PRaw type_name _ => one_of type_name ["video"; "searchResult"; "json"]
  | _ => false
  end || is_some (function_response_image part).

Definition result_text (part : IrPart) : bool :=
  match (peel_prompt_cache_all part).1 with PText text => negb (is_empty text) | _ => false end.

Definition encode_result_raw (idx : nat) (type_name : string) (raw : json) : noted (option json) :=
  if one_of type_name ["video"; "searchResult"] && is_object raw then quiet (Some (jobj [(type_name, raw)]))
  else if String.eqb type_name "json" then quiet (Some (jobj [("json", raw)]))
  else
    match function_response_image (PRaw type_name raw) with
    | Some (media_type, data) => encode_image_bytes media_type data
    | None => left_out (item_path idx +:+ ".part") "no slot"
    end.

Definition json_payload (part : IrPart) : option json :=
  match (peel_prompt_cache_all part).1 with
  | PRaw type_name raw => if String.eqb type_name "json" then Some raw else None
  | _ => None
  end.

Definition encode_result_part (idx : nat) (part : IrPart) : noted (option json) :=
  match part with
  | PText text => quiet (if is_empty text then None else Some (text_json text))
  | PImageUrl url detail bucket_owner file_id => encode_image_part url detail bucket_owner file_id false
  | PImageBase64 media_type data => encode_image_bytes media_type data
  | PDocument source media_type name citations context => encode_document source media_type name citations context
  | PRaw type_name raw => encode_result_raw idx type_name raw
  | PPromptCacheBreakpoint _ _ =>
      match json_payload part with
      | Some raw => let! _ := drop_prompt_cache_modes part in quiet (Some (jobj [("json", raw)]))
      | None => encode_part part
      end
  | PThinking _ _ | PAudio _ _ => left_out (item_path idx +:+ ".part") "no slot"
  end.

(** The text in front of the parts. *)
Definition leading_text (idx : nat) (output : string) (parts : list IrPart) : noted string :=
  let ordered_text := existsb result_text parts in
  if blank output && negb (existsb result_media parts) && negb ordered_text then
    let! _ := note (item_path idx) Degrade "empty content became '.'" in quiet "."
  else quiet (if ordered_text then "" else output).

Definition result_content (idx : nat) (output : string) (parts : list IrPart) : noted (list json) :=
  let! text := leading_text idx output parts in
  let! blocks := nfilter_map (encode_result_part idx) parts in
  let content := (if is_empty text then [] else [text_json text]) ++ blocks in
  quiet (match content with [] => [text_json "."] | _ => content end).

Definition tool_result_block (call_id : string) (content : list json) (is_error : bool) : json :=
  jobj [("toolResult",
    put "status" (if is_error then Some (JStr "error") else None)
      (jobj [("toolUseId", JStr call_id); ("content", JArr content)]))].

Definition encode_output (idx : nat) (call_id output : string) (parts : list IrPart) (is_error : bool) (t : Turns) :
  noted Turns :=
  let! content := result_content idx output parts in
  quiet (with_messages (push_blocks "user" [tool_result_block call_id content is_error] (tn_messages t)) t).

Definition is_tool_set_change (type_name : string) (raw : json) : bool :=
  one_of type_name ["toolAddition"; "toolRemoval"] && is_object raw.

Definition no_item_slot (kind : string) (t : Turns) : noted Turns :=
  let! _ := note "messages" Drop ("converse has no slot for " +:+ kind) in quiet t.

Definition encode_item (idx : nat) (item : IrItem) (t : Turns) : noted Turns :=
  match item with
  | ISystem text mode content_parts | IDeveloper text mode content_parts => encode_role idx text mode content_parts t
  | ISystemCache raw => push_system idx (jobj [("cachePoint", raw)]) t
  | ISystemGuard raw => push_system idx (jobj [("guardContent", raw)]) t
  | IUser parts => encode_user idx parts t
  | IAssistant parts phase => encode_assistant idx parts phase t
  | IFunctionCall call_id name arguments _ => encode_call call_id name arguments t
  | ICustomToolCall call_id name input _ => encode_call call_id name input t
  | IFunctionOutput call_id output parts is_error => encode_output idx call_id output parts is_error t
  | IReasoning _ (Some text) _ =>
      quiet (with_messages (push_blocks "assistant" [reasoning_json text None] (tn_messages t)) t)
  | IReasoning _ None _ => quiet t
  | IUnknown type_name raw =>
      if is_tool_set_change type_name raw then quiet (with_messages (tn_messages t ++ [turn "system" [raw]]) t)
      else no_item_slot type_name t
  | IHostedToolCall kind _ => no_item_slot kind t
  end.

Fixpoint encode_items_from (idx : nat) (items : list IrItem) (t : Turns) : noted Turns :=
  match items with
  | [] => quiet t
  | item :: items => let! t := encode_item idx item t in encode_items_from (S idx) items t
  end.

Definition encode_items (ir : IrRequest) : noted Turns := encode_items_from 0 (items ir) (mkTurns [] []).
End Encode.

(** ** Tools *)
Definition encode_tool (tool : PreparedTool) : json :=
  match tool with
  | PtFunction name description parameters strict =>
      let schema := normalize_object_schema_required parameters in
      let schema := if bool_decide (strict = Some true) then strict_object_schema schema else schema in
      jobj [("toolSpec",
        put "strict" (JBool <$> strict)
          (jobj [("name", JStr name); ("description", JStr description); ("inputSchema", jobj [("json", schema)])]))]
  | PtRaw raw => raw
  end.

Definition tool_choice_json (choice : IrToolChoice) : option json :=
  match choice with
  | Auto => Some (jobj [("auto", JObj [])])
  | NoTool => None
  | Required => Some (jobj [("any", JObj [])])
  | Named name => Some (jobj [("tool", jobj [("name", JStr name)])])
  end.

Definition encode_tools (prepared : list PreparedTool) (choice : IrToolChoice) : step := fun body =>
  match prepared, choice with
  | [], _ => quiet body
  | _, NoTool => let! _ := note "sampling.tool_choice" Degrade "no none slot" in quiet body
  | _, _ =>
        let cfg := put "toolChoice" (tool_choice_json choice) (jobj [("tools", JArr (map encode_tool prepared))]) in
        quiet (index_set body "toolConfig" cfg)
  end.

(** ** Sampling *)
Definition converse_effort (effort : string) : option (string * option string) :=
  let lower := to_ascii_lowercase (trim effort) in
  if one_of lower ["low"; "medium"; "high"; "xhigh"; "max"] then Some (lower, None)
  else if String.eqb lower "x-high" then Some ("xhigh", Some "x-high maps to xhigh") else None.

Definition note_degrade (key : string) (detail : option string) : noted unit :=
  match detail with Some detail => note ("sampling." +:+ key) Degrade detail | None => quiet tt end.

Definition if_members (v : json) : option json := match v with JObj (_ :: _) => Some v | _ => None end.

(** [inferenceConfig], with the stop sequences that are not empty. *)
Definition encode_inference (s : IrSampling) : step := fun body =>
  let cfg := put "maxTokens" (jint <$> sp_max_tokens s) (JObj []) in
  let cfg := put "temperature" (json_f32 <$> sp_temperature s) cfg in
  let cfg := put "topP" (json_f32 <$> sp_top_p s) cfg in
  let! stop := kept_stop (sp_stop s) in
  quiet (put "inferenceConfig" (if_members (put "stopSequences" (if_any stop (JArr (map JStr stop))) cfg)) body).

Definition encode_latency (s : IrSampling) : step := fun body =>
  match sp_performance_latency s with
  | Some latency =>
      let slot := unwrap_or (get body "performanceConfig") (JObj []) in
      quiet (index_set body "performanceConfig" (index_set slot "latency" (JStr latency)))
  | None => quiet body
  end.

Definition encode_service_tier (s : IrSampling) : step := fun body =>
  match sp_service_tier s with
  | Some tier =>
      match converse_service_tier tier with
      | Some (mapped, degrade) =>
          let! _ := note_degrade "service_tier" degrade in
          quiet (index_set body "serviceTier" (jobj [("type", JStr mapped)]))
      | None => let! _ := note "sampling.service_tier" Drop "unmapped service_tier" in quiet body
      end
  | None => quiet body
  end.

Section Sampling.
Context {SJ : SerdeJson}.

(** The schema of the answer as text, which [serde_json::to_string] always
    gives for a value. *)
Definition text_format (s : IrSampling) (schema : json) : json :=
  let js := jobj [("schema", JStr (to_string schema))] in
  let js := put "name" (JStr <$> sp_json_schema_name s) js in
  let js := put "description" (JStr <$> not_blank (sp_json_schema_description s)) js in
  jobj [("type", JStr "json_schema"); ("structure", jobj [("jsonSchema", js)])].

Definition output_schema (s : IrSampling) : step := fun output =>
  let unnamed := no_slot_if (is_some (sp_json_schema_name s)) "sampling.json_schema_name" in
  match sp_json_schema s with
  | Some schema =>
      if is_object schema then quiet (index_set output "textFormat" (text_format s schema))
      else
        let! _ := note "sampling.json_schema" Drop "json_schema requires object schema" in
        let! _ := unnamed in quiet output
  | None => let! _ := unnamed in quiet output
  end.

Definition output_effort (s : IrSampling) : step := fun output =>
  match sp_reasoning_effort s with
  | Some effort =>
      match converse_effort effort with
      | Some (mapped, degrade) =>
          let! _ := note_degrade "reasoning_effort" degrade in quiet (index_set output "effort" (JStr mapped))
      | None => let! _ := note "sampling.reasoning_effort" Drop "unmapped effort" in quiet output
      end
  | None => quiet output
  end.

Definition encode_output_config (s : IrSampling) : step := fun body =>
  let! output := steps [output_schema s; output_effort s] (JObj []) in
  quiet (put "outputConfig" (if_members output) body).

Definition note_description (s : IrSampling) : step := fun body =>
  let written := pointer body [Key "outputConfig"; Key "textFormat"; Key "structure"; Key "jsonSchema"; Key "description"] in
  only_note (note_if (is_some (not_blank (sp_json_schema_description s)) && is_none written)
    "sampling.json_schema_description" Drop "description needs a json schema") body.

Definition encode_metadata (s : IrSampling) : step :=
  set_when (if_any (sp_metadata s) (sp_metadata s)) "requestMetadata" json_strings
    (preserve "metadata" "converse requestMetadata").

(** The fields of the body in order. *)
Definition sampling_steps (s : IrSampling) : list step :=
  [ only_note (note_fields
      [ (is_some (sp_top_k s), "top_k"); (is_some (sp_inference_geo s), "inference_geo");
        (is_some (sp_previous_message_id s), "previous_message_id") ]);
    set_when (if_any (sp_response_field_paths s) (sp_response_field_paths s)) "additionalModelResponseFieldPaths"
      (fun paths => JArr (map JStr paths)) (quiet tt);
    set_when (sp_additional_request_fields s) "additionalModelRequestFields" id (quiet tt);
    set_when (sp_prompt_variables s) "promptVariables" id (quiet tt);
    set_when (sp_guardrail s) "guardrailConfig" id (quiet tt);
    only_note (note_fields
      [ (is_some (sp_container s), "container"); (is_some (sp_context_management s), "context_management") ]);
    only_note (drop_responses_request_fields s);
    only_note (drop_messages_native_thinking s);
    only_note (note_fields [ (is_some (sp_mcp_servers s), "mcp_servers") ]);
    encode_latency s;
    only_note (note_fields [ (is_some (sp_json_schema_strict s), "json_schema_strict") ]);
    encode_inference s;
    only_note (note_fields
      [ (is_some (sp_store s), "store"); (is_some (sp_prompt_cache_key s), "prompt_cache_key");
        (is_some (sp_prompt_cache_retention s), "prompt_cache_retention") ]);
    only_note (drop_dest_chat_sampling_extras s);
    only_note (drop_dest_top_logprobs s);
    only_note (drop_dest_logprobs s);
    only_note (drop_dest_n_and_penalties s);
    only_note (drop_dest_output_modalities s);
    encode_service_tier s;
    only_note (note_fields
      [ (is_some (sp_previous_response_id s), "previous_response_id"); (is_some (sp_stream s), "stream");
        (enabled (sp_cache s), "cache") ]);
    encode_output_config s;
    note_description s;
    only_note (note_fields
      [ (is_some (sp_max_reasoning_tokens s), "max_reasoning_tokens");
        (is_some (sp_include_thoughts s), "include_thoughts"); (is_some (sp_thinking_budget s), "thinking_budget");
        (bool_decide (sp_json_object s = Some true) && is_none (sp_json_schema s), "json_object");
        (is_some (sp_user s), "user"); (is_some (sp_verbosity s), "verbosity");
        (is_some (sp_safety_identifier s), "safety_identifier") ]);
    encode_metadata s;
    only_note (note_fields
      [ (negb (bool_decide (sp_include s = [])), "include");
        (is_some (sp_parallel_tool_calls s), "parallel_tool_calls") ]) ].

Definition encode_sampling (s : IrSampling) : step := steps (sampling_steps s).

(** ** The whole body *)
Definition note_model (ir : IrRequest) : noted unit :=
  note_if (negb (is_empty (model ir))) "model" Drop "modelId is the /model/{modelId}/converse URL, not a JSON field".

Definition check_messages (t : Turns) (report : list LossEvent) : result MapError unit :=
  match tn_messages t with
  | _ :: _ => Ok tt
  | [] =>
      let dropped :=
        (match tn_system t with [] => [] | _ => ["system block needs a message turn"] end)
        ++ dropped_details (List.filter (fun e => negb (String.eqb (loss_path e) "model")) report) in
      Err (Invalid (match dropped with
                    | [] => "converse messages must not be empty"
                    | _ => "converse messages must not be empty: " +:+ str_join "; " dropped
                    end))
  end.

Definition check_sampling (s : IrSampling) : result MapError unit :=
  let* _ := if bool_decide (sp_max_tokens s = Some 0)
            then Err (hard "sampling.max_tokens" "max_tokens must be at least 1") else Ok tt in
  let* _ := reject_sampling_number (sp_temperature s) F32_ZERO F32_ONE "sampling.temperature"
              "temperature must be between 0 and 1" in
  reject_sampling_number (sp_top_p s) F32_ZERO F32_ONE "sampling.top_p" "top_p must be between 0 and 1".

(** [report] is what was noted before. *)
Definition encode (ir : IrRequest) (prepared : list PreparedTool) (report : list LossEvent) : noted_or_error json :=
  let '(t, events) := let! _ := note_model ir in encode_items ir in
  let* _ := check_messages t (report ++ events) in
  let* _ := check_sampling (sampling ir) in
  let body := put "system" (if_any (tn_system t) (JArr (tn_system t))) (jobj [("messages", JArr (tn_messages t))]) in
  Ok (let! _ := (tt, events) in
      let! body := encode_sampling (sampling ir) body in
      encode_tools prepared (sp_tool_choice (sampling ir)) body).
End Sampling.
