(* ===== verification/ConverseTurns.v ===== *)
(** * ConverseTurns: the messages of a written Converse request

    No two adjacent messages are both of the user or both of the assistant, a
    user message with a document has a text, documents and images are in user
    messages only, document names are of the form Bedrock takes, and the calls
    and results of the request are the blocks that name one, in order. *)
From stdpp Require Import pretty.
From S2P Require Import Prelude Text Json JsonCodec Floats Ir ProfileTypes StreamCore Usage Shapes Chat MapCore.
From S2P Require Import Loss RequestCore Schema Tools ConverseEncode.

(** ** Document names *)

(** Letters, digits, [-], parentheses and brackets, with single spaces. *)
Fixpoint legal_chars (after_space : bool) (s : string) : bool :=
  match s with
  | EmptyString => true
  | String c t =>
      if name_char c then legal_chars false t
      else Ascii.eqb c " " && negb after_space && legal_chars true t
  end.

Definition legal_document_name (name : string) : bool :=
  negb (is_empty name) && (String.length name <=? 200)%nat && legal_chars false name && String.eqb (trim name) name.

Lemma legal_weaken s : legal_chars true s = true -> legal_chars false s = true.
Proof. destruct s as [|c t]; [done|]. cbn [legal_chars]. destruct (name_char c); [done|]. by rewrite andb_false_r. Qed.

Lemma legal_chars_app s t b : legal_chars b (s +:+ t) = true -> legal_chars b s = true /\ legal_chars false t = true.
Proof.
  revert b. induction s as [|c s IH]; intros b.
  - rewrite str_app_nil. split; [done|]. destruct b; [by apply legal_weaken|done].
  - rewrite str_app_cons. cbn [legal_chars]. destruct (name_char c); [apply IH|].
    rewrite !andb_true_iff. intros [[E N] L]. destruct (IH true L) as [S T]. by rewrite E, N, S.
Qed.

Lemma clean_legal s started spaced : legal_chars spaced (clean_name started spaced s) = true.
Proof.
  revert started spaced. induction s as [|c s IH]; intros started spaced; [done|]. cbn [clean_name].
  destruct (name_char c) eqn:N; [cbn [legal_chars]; by rewrite N|].
  destruct (started && negb spaced) eqn:S; [|apply IH]. apply andb_true_iff in S as [_ S].
  cbn [legal_chars]. change (name_char " ") with false. cbn iota. by rewrite S, IH.
Qed.

Lemma trim_infix s : exists a b, s = a +:+ trim s +:+ b.
Proof.
  destruct (trim_start_spec s) as (_ & (a & E) & _). destruct (trim_rev_spec (str_rev (trim_start s))) as (_ & (w & R) & _).
  exists a, (str_rev w). rewrite E at 1. f_equal. apply (f_equal str_rev) in R.
  rewrite str_rev_involutive, str_rev_concat in R. rewrite R. done.
Qed.

Lemma substring_prefix n s : exists t, s = String.substring 0 n s +:+ t.
Proof.
  revert s. induction n as [|n IH]; intros [|c s]; cbn [String.substring]; [by exists ""|by exists (String c s)|by exists ""|].
  destruct (IH s) as [t E]. exists t. rewrite str_app_cons. by rewrite <- E.
Qed.

Lemma substring_length n s : (String.length (String.substring 0 n s) <= n)%nat.
Proof. revert s. induction n as [|n IH]; intros [|c s]; cbn [String.substring String.length]; try lia. pose proof (IH s). lia. Qed.

Lemma string_length_app s t : String.length (s +:+ t) = (String.length s + String.length t)%nat.
Proof. induction s as [|c s IH]; [done|]. rewrite str_app_cons. cbn [String.length]. by rewrite IH. Qed.

Lemma trim_length s : (String.length (trim s) <= String.length s)%nat.
Proof. destruct (trim_infix s) as (a & b & E). rewrite E at 2. rewrite !string_length_app. lia. Qed.

Lemma trim_legal s : legal_chars false s = true -> legal_chars false (trim s) = true.
Proof.
  intros L. destruct (trim_infix s) as (a & b & E). rewrite E in L. apply legal_chars_app in L as [_ L]. by apply legal_chars_app in L as [L _].
Qed.

Lemma cleaned_legal raw : legal_document_name (cleaned_name raw) = true.
Proof.
  unfold cleaned_name. set (x := clean_name false false raw).
  assert (exists y, cut_name (trim x) = trim y /\ legal_chars false y = true /\ (String.length (trim y) <= 200)%nat) as (y & -> & L & N).
  { unfold cut_name. assert (legal_chars false x = true) as LX by apply clean_legal. destruct (Nat.ltb_spec 200 (String.length (trim x))).
    - eexists. split; [reflexivity|]. apply trim_legal in LX. destruct (substring_prefix 200 (trim x)) as [t E]. split.
      + rewrite E in LX. by apply legal_chars_app in LX as [LX _].
      + etransitivity; [apply trim_length|]. apply substring_length.
    - exists x. split; [done|]. split; [done|lia]. }
  destruct (is_empty (trim y)) eqn:E; [done|]. unfold legal_document_name. rewrite E, trim_idem, String.eqb_refl, (trim_legal _ L).
  by rewrite (proj2 (Nat.leb_le _ _) N).
Qed.

Lemma document_name_legal name : legal_document_name (converse_document_name name).1 = true.
Proof.
  unfold converse_document_name. destruct (nonempty name) as [original|]; [|done].
  destruct (is_empty (trim original)); rewrite nbind_fst; [done|]. apply cleaned_legal.
Qed.

(** ** Blocks *)
Inductive Ref := RefCall (id name : string) | RefResult (id : string).

Definition block_ref (b : json) : option Ref :=
  match get b "toolUse", get b "toolResult" with
  | Some call, _ => id ← get_str call "toolUseId"; name ← get_str call "name"; Some (RefCall id name)
  | None, Some tool_result => RefResult <$> get_str tool_result "toolUseId"
  | None, None => None
  end.

(** A document has a legal name and a text is not blank. *)
Definition block_ok (b : json) : bool :=
  match get b "document" with
  | Some doc => match get_str doc "name" with Some name => legal_document_name name | None => false end
  | None => true
  end
  && match get_str b "text" with Some text => negb (blank text) | None => true end.

(** A block of a part: well formed and without a call. *)
Definition plain_block (b : json) : Prop := block_ok b = true /\ block_ref b = None.

(** The fields of a one-member object. *)
Lemma get_one k v k' : get (jobj [(k, v)]) k' = if String.eqb k' k then Some v else None.
Proof. rewrite get_jobj. cbn [assoc_last]. rewrite String.eqb_sym. by destruct (String.eqb k k'). Qed.

Ltac one_member := unfold plain_block, block_ok, block_ref, get_str; rewrite ?get_one; eqb_literals; cbn [mbind option_bind as_str];
  eqb_literals.

Lemma text_plain text : blank text = false -> plain_block (text_json text).
Proof. intros B. unfold text_json. one_member. by rewrite B. Qed.

Lemma image_bytes_plain media_type data b : (encode_image_bytes media_type data).1 = Some b -> plain_block b.
Proof.
  unfold encode_image_bytes, left_out. destruct (blank data); [by rewrite nbind_fst|].
  destruct (converse_image_format media_type); [|by rewrite nbind_fst]. intros [= <-]. by one_member.
Qed.

Lemma image_url_plain url owner b : (encode_image_url url owner).1 = Some b -> plain_block b.
Proof.
  unfold encode_image_url, left_out. destruct (negb _); [by rewrite nbind_fst|]. intros [= <-]. by one_member.
Qed.

Lemma image_part_plain url detail owner file_id data_urls b :
  (encode_image_part url detail owner file_id data_urls).1 = Some b -> plain_block b.
Proof.
  unfold encode_image_part. rewrite nbind_fst. destruct (drop_image_file_id_without_url url file_id).1; [done|].
  rewrite nbind_fst. destruct (if data_urls then _ else _) as [[m d]|]; [apply image_bytes_plain|apply image_url_plain].
Qed.

Lemma audio_plain data format b : (encode_audio data format).1 = Some b -> plain_block b.
Proof.
  unfold encode_audio, left_out. destruct (blank data); [by rewrite nbind_fst|].
  destruct (converse_audio_format format); [|by rewrite nbind_fst]. intros [= <-]. by one_member.
Qed.

Lemma document_plain source media_type name citations context b :
  (encode_document source media_type name citations context).1 = Some b -> plain_block b.
Proof.
  unfold encode_document, left_out.
  assert (forall format n src, legal_document_name n = true -> plain_block (document_block format n src citations context)) as BLOCK.
  { intros format n src L. unfold document_block. one_member.
    rewrite !get_put by (by rewrite ?is_object_put, ?is_object_jobj). eqb_literals. rewrite get_jobj. cbn [assoc_last].
    eqb_literals. cbn [mbind option_bind as_str]. by rewrite L. }
  pose proof (document_name_legal name) as L. destruct (converse_document_name name) as [n events].
  destruct source; try (destruct (blank _) eqn:B); try (destruct (starts_with "s3://" _));
    try (destruct (converse_document_format media_type)); repeat (rewrite nbind_fst; cbn [quiet fst]); try done; intros [= <-];
    try (by apply BLOCK); by apply text_plain.
Qed.

Lemma reasoning_plain text signature : plain_block (reasoning_json text signature).
Proof. unfold reasoning_json. by one_member. Qed.

Lemma plain_part_plain part b : (encode_plain_part part).1 = Some b -> plain_block b.
Proof.
  destruct part; cbn [encode_plain_part]; try done.
  - destruct (blank text) eqn:B; intros [= <-]. by apply text_plain.
  - apply image_part_plain.
  - apply image_bytes_plain.
  - intros [= <-]. apply reasoning_plain.
  - apply document_plain.
  - apply audio_plain.
Qed.

Lemma raw_part_plain type_name raw b : (encode_raw_part type_name raw).1 = Some b -> plain_block b.
Proof.
  unfold encode_raw_part, left_out. destruct (one_of type_name raw_block_keys) eqn:K; cbn [andb].
  - unfold one_of, raw_block_keys in K. cbn [existsb] in K.
    assert (plain_block (jobj [(type_name, raw)])) as P.
    { repeat (apply orb_true_iff in K as [K|K]; [apply String.eqb_eq in K as ->; by one_member|]). done. }
    destruct (is_object raw); [by intros [= <-]|]. destruct (_ && _); [intros [= <-]; by one_member|].
    destruct (plain_media_part _); rewrite nbind_fst; [apply plain_part_plain|done].
  - destruct (_ && _); [intros [= <-]; by one_member|].
    destruct (plain_media_part _); rewrite nbind_fst; [apply plain_part_plain|done].
Qed.

Lemma part_plain part b : (encode_part part).1 = Some b -> plain_block b.
Proof.
  revert b. induction part; intros b; try apply plain_part_plain; [apply raw_part_plain|].
  cbn [encode_part]. rewrite nbind_fst. destruct (encode_part part).1 as [v|]; [|by rewrite nbind_fst].
  rewrite nbind_fst. unfold apply_prompt_cache. destruct (nonempty _); cbn [negb fst]; rewrite ?nbind_fst; intros [= <-]; by apply IHpart.
Qed.

Lemma parts_plain parts : List.Forall plain_block (nfilter_map encode_part parts).1.
Proof.
  rewrite nfilter_map_fst. apply List.Forall_forall. intros b I. apply list_elem_of_In, list_elem_of_omap in I as (part & _ & E).
  by apply part_plain in E.
Qed.

Lemma plain_refs blocks : List.Forall plain_block blocks -> omap block_ref blocks = [].
Proof. intros F. induction F as [|b l [_ E] F IH]; [done|]. cbn [omap list_omap]. by rewrite E. Qed.

Lemma plain_ok blocks : List.Forall plain_block blocks -> forallb block_ok blocks = true.
Proof. intros F. induction F as [|b l [E _] F IH]; [done|]. cbn [forallb]. by rewrite E. Qed.

(** ** Messages *)
Definition message_role (m : json) : option string := get_str m "role".
Definition message_content (m : json) : list json := unwrap_or (get_array m "content") [].
Definition all_blocks (messages : list json) : list json := concat (map message_content messages).

Definition has_document (b : json) : bool := is_some (get b "document").
Definition has_text (b : json) : bool := is_some (get b "text").

(** What the content of a message of the role is. *)
Definition content_ok (role : string) (content : list json) : bool :=
  negb (bool_decide (content = []))
  && (if String.eqb role "user"
      then forallb block_ok content && (negb (existsb has_document content) || existsb has_text content)
      else if String.eqb role "assistant"
      then forallb block_ok content && forallb (fun b => negb (is_media b)) content
      else String.eqb role "system").

Definition message_ok (m : json) : bool :=
  is_object m && is_some (get_array m "content")
  && match message_role m with Some role => content_ok role (message_content m) | None => false end.

(** Adjacent messages have different roles, changes of the tool set apart. *)
Fixpoint separated (roles : list (option string)) : bool :=
  match roles with
  | a :: (b :: _) as rest => (negb (bool_decide (a = b)) || bool_decide (a = Some "system")) && separated rest
  | _ => true
  end.

Definition messages_ok (messages : list json) : bool :=
  forallb message_ok messages && separated (map message_role messages).

Lemma separated_snoc roles role : separated roles = true -> last roles <> Some role \/ role = Some "system" ->
  separated (roles ++ [role]) = true.
Proof.
  induction roles as [|a [|b rest] IH]; [done| |].
  - intros _ N. cbn [separated app]. rewrite andb_true_r, orb_true_iff. destruct (decide (a = role)) as [->|D].
    + right. apply bool_decide_eq_true. by destruct N as [N|].
    + left. by rewrite bool_decide_eq_false_2.
  - cbn [separated app]. rewrite !andb_true_iff. intros [E A] N. split; [done|]. apply IH; [done|]. by rewrite last_cons_cons in N.
Qed.

Lemma turn_role role content : message_role (turn role content) = Some role.
Proof. done. Qed.

Lemma turn_content role content : message_content (turn role content) = content.
Proof. done. Qed.

Lemma turn_ok role content : content_ok role content = true -> message_ok (turn role content) = true.
Proof. intros C. unfold message_ok. by rewrite turn_role, turn_content, C. Qed.

(** The last message of a role. *)
Record opened (role : string) (messages content : list json) : Prop := {
  op_content : content_ok role content = true;
  op_set : forall content', content_ok role content' = true -> messages_ok (set_last_content messages content') = true;
  op_blocks : exists before, all_blocks messages = before ++ content
    /\ forall content', all_blocks (set_last_content messages content') = before ++ content' }.

Lemma open_content_some role messages content : messages_ok messages = true -> open_content role messages = Some content ->
  opened role messages content.
Proof.
  unfold messages_ok, open_content, last_role. rewrite andb_true_iff. intros [F S].
  destruct messages as [|m before _] using rev_ind; [done|]. rewrite last_snoc. cbn [mbind option_bind].
  case_bool_decide as R; [|done]. intros C. rewrite forallb_app, andb_true_iff in F. destruct F as [F M].
  cbn [forallb] in M. rewrite andb_true_r in M. pose proof M as OK. unfold message_ok in M.
  rewrite !andb_true_iff in M. destruct M as [[O _] K]. unfold message_role, message_content in K. rewrite R, C in K.
  assert (forall c, set_last_content (before ++ [m]) c = before ++ [index_set m "content" (JArr c)]) as SET.
  { intros c. unfold set_last_content. rewrite rev_app_distr. cbn [rev app]. by rewrite rev_involutive. }
  assert (forall c, message_role (index_set m "content" (JArr c)) = Some role
                    /\ message_content (index_set m "content" (JArr c)) = c) as GET.
  { intros c. unfold message_role, message_content, get_str, get_array. rewrite !get_index_set by done. eqb_literals. by split. }
  split; [done| |].
  - intros c E. unfold messages_ok. rewrite SET, forallb_app, map_app, F. cbn [forallb map]. destruct (GET c) as [GR GC]. rewrite GR.
    rewrite map_app in S. cbn [map] in S. unfold message_role at 2 in S. rewrite R in S. rewrite S.
    unfold message_ok. rewrite GR, GC, E, is_object_index_set, O. unfold get_array. rewrite get_index_set by done. done.
  - exists (all_blocks before). unfold all_blocks. rewrite map_app, concat_app. cbn [map concat]. rewrite app_nil_r.
    unfold message_content at 2. rewrite C. split; [done|]. intros c. rewrite SET, map_app, concat_app. cbn [map concat].
    rewrite app_nil_r. by destruct (GET c) as [_ ->].
Qed.

Lemma open_content_none role messages content : messages_ok messages = true -> open_content role messages = None ->
  content_ok role content = true ->
  messages_ok (messages ++ [turn role content]) = true /\ all_blocks (messages ++ [turn role content]) = all_blocks messages ++ content.
Proof.
  unfold messages_ok, open_content, last_role, all_blocks. rewrite andb_true_iff. intros [F S] N C.
  rewrite forallb_app, !map_app, F, concat_app. cbn [forallb map concat andb]. rewrite turn_ok, turn_role, turn_content, app_nil_r by done.
  split; [|done]. cbn [andb]. apply separated_snoc; [done|]. left. intros L.
  destruct messages as [|m before _] using rev_ind; [done|]. rewrite map_app in L. cbn [map] in L. rewrite last_snoc in L.
  injection L as L. unfold message_role in L. rewrite last_snoc in N. cbn [mbind option_bind] in N. rewrite bool_decide_eq_true_2 in N by done.
  rewrite forallb_app in F. cbn [forallb] in F. unfold message_ok in F. rewrite N in F. by rewrite !andb_false_r in F.
Qed.

(** Blocks of a role joined to the messages. *)
Lemma push_blocks_ok role blocks messages : content_ok role blocks = true -> messages_ok messages = true ->
  (forall content, content_ok role content = true -> content_ok role (content ++ blocks) = true) ->
  messages_ok (push_blocks role blocks messages) = true
  /\ all_blocks (push_blocks role blocks messages) = all_blocks messages ++ blocks.
Proof.
  intros B M J. unfold push_blocks. destruct (open_content role messages) as [content|] eqn:O.
  - destruct (open_content_some _ _ _ M O) as [C S (before & E & W)]. split; [by apply S, J|]. by rewrite W, E, app_assoc.
  - by apply open_content_none.
Qed.

Lemma nonempty_app {A} (l k : list A) : negb (bool_decide (l = [])) = true -> negb (bool_decide (l ++ k = [])) = true.
Proof. rewrite !negb_true_iff, !bool_decide_eq_false. intros N E. by apply app_eq_nil in E as [-> _]. Qed.

Lemma assistant_joins blocks content : content_ok "assistant" blocks = true -> content_ok "assistant" content = true ->
  content_ok "assistant" (content ++ blocks) = true.
Proof.
  unfold content_ok. eqb_literals. rewrite !andb_true_iff, !forallb_app, !andb_true_iff. intros (_ & B1 & B2) (N & C1 & C2).
  split; [by apply nonempty_app|]. by rewrite B1, B2, C1, C2.
Qed.

Lemma result_joins block content : block_ok block = true -> has_document block = false -> content_ok "user" content = true ->
  content_ok "user" (content ++ [block]) = true.
Proof.
  unfold content_ok. eqb_literals. rewrite !andb_true_iff, forallb_app, !existsb_app. cbn [forallb existsb].
  intros B D (N & C & T). rewrite B, C, D. split; [by apply nonempty_app|]. split; [done|].
  rewrite !orb_false_r. rewrite orb_true_iff in *. destruct T as [T|T]; [by left|]. right. by rewrite T.
Qed.

Lemma user_content content : content_ok "user" content = true <->
  negb (bool_decide (content = [])) = true /\ forallb block_ok content = true
  /\ negb (existsb has_document content) || existsb has_text content = true.
Proof. unfold content_ok. eqb_literals. by rewrite !andb_true_iff. Qed.

Lemma ensured blocks : forallb block_ok blocks = true -> negb (bool_decide (blocks = [])) = true ->
  content_ok "user" (ensure_document_text blocks).1 = true
  /\ exists more, (ensure_document_text blocks).1 = blocks ++ more /\ omap block_ref more = [].
Proof.
  intros B N. unfold ensure_document_text. fold has_document has_text. destruct (_ && _) eqn:E.
  - rewrite nbind_fst. cbn [quiet fst]. split; [|by exists [text_json "See the attached document."]].
    unfold content_ok. eqb_literals. rewrite !andb_true_iff. split; [by apply nonempty_app|].
    rewrite forallb_app, B, !existsb_app. split; [done|]. cbn [existsb]. by rewrite !orb_true_r.
  - cbn [quiet fst]. split; [|exists []; by rewrite app_nil_r]. unfold content_ok. eqb_literals. rewrite N, B. cbn [andb].
    apply andb_false_iff in E as [E|E]; [by rewrite E|]. apply negb_false_iff in E. by rewrite E, orb_true_r.
Qed.

Lemma push_user_ok idx blocks messages : List.Forall plain_block blocks -> blocks <> [] -> messages_ok messages = true ->
  messages_ok (push_user idx blocks messages).1 = true
  /\ omap block_ref (all_blocks (push_user idx blocks messages).1) = omap block_ref (all_blocks messages).
Proof.
  intros P N M. pose proof (plain_ok _ P) as B. pose proof (plain_refs _ P) as R. unfold push_user.
  destruct (open_content "user" messages) as [content|] eqn:O.
  - rewrite !nbind_fst. cbn [quiet fst]. destruct (open_content_some _ _ _ M O) as [C S (before & E & W)].
    destruct (ensured (content ++ blocks)) as (C' & more & EM & RM).
    { apply user_content in C as (_ & C & _). by rewrite forallb_app, C. }
    { apply user_content in C as (C & _). by apply nonempty_app. }
    split; [by apply S|]. rewrite W, EM, E, !omap_app. by rewrite R, RM, !app_nil_r.
  - rewrite nbind_fst. cbn [quiet fst]. destruct (ensured blocks B) as (C' & more & EM & RM); [by apply negb_true_iff, bool_decide_eq_false|].
    destruct (open_content_none _ _ _ M O C') as [M' ->]. split; [done|]. rewrite EM, !omap_app. by rewrite R, RM, !app_nil_r.
Qed.

(** ** The loop *)
Definition item_ref (item : IrItem) : list Ref :=
  match item with
  | IFunctionCall id name _ _ | ICustomToolCall id name _ _ => [RefCall id name]
  | IFunctionOutput id _ _ _ => [RefResult id]
  | _ => []
  end.
Definition item_refs (items : list IrItem) : list Ref := concat (map item_ref items).

(** Not a change of the tool set, which is copied as it is. *)
Definition own_item (item : IrItem) : bool :=
  match item with IUnknown type_name raw => negb (is_tool_set_change type_name raw) | _ => true end.

Record grew (items : list IrItem) (t t' : Turns) : Prop := {
  gr_ok : messages_ok (tn_messages t) = true -> messages_ok (tn_messages t') = true;
  gr_refs : messages_ok (tn_messages t) = true -> forallb own_item items = true ->
    omap block_ref (all_blocks (tn_messages t')) = omap block_ref (all_blocks (tn_messages t)) ++ item_refs items }.

Lemma grew_same item t t' : item_ref item = [] -> tn_messages t' = tn_messages t -> grew [item] t t'.
Proof. intros I E. split; rewrite E; [done|]. unfold item_refs. cbn [map concat]. by rewrite I, !app_nil_r. Qed.

Lemma push_system_same idx block t : tn_messages (push_system idx block t).1 = tn_messages t.
Proof. unfold push_system. by rewrite nbind_fst. Qed.

Lemma encode_role_same idx text mode parts t : tn_messages (encode_role idx text mode parts t).1 = tn_messages t.
Proof. unfold encode_role. rewrite !nbind_fst. destruct (is_empty _); [done|apply push_system_same]. Qed.

Lemma grew_push item role block t : content_ok role [block] = true -> item_refs [item] = option_list (block_ref block) ->
  (forall content, content_ok role content = true -> content_ok role (content ++ [block]) = true) ->
  grew [item] t (with_messages (push_blocks role [block] (tn_messages t)) t).
Proof.
  intros C R J. split; intros M; destruct (push_blocks_ok role [block] _ C M J) as [M' E]; cbn [with_messages tn_messages]; [done|].
  intros _. by rewrite E, omap_app, R.
Qed.

Lemma assistant_block block : block_ok block = true -> is_media block = false -> content_ok "assistant" [block] = true.
Proof. intros B N. unfold content_ok. eqb_literals. cbn [forallb]. by rewrite B, N. Qed.

Lemma user_grew idx parts t : grew [IUser parts] t (encode_user idx parts t).1.
Proof.
  unfold encode_user. rewrite nbind_fst. pose proof (parts_plain parts) as P. destruct (nfilter_map encode_part parts).1 as [|b l].
  - by apply grew_same.
  - rewrite nbind_fst. cbn [quiet fst]. split; intros M; destruct (push_user_ok idx (b :: l) _ P ltac:(done) M) as [M' R];
      cbn [with_messages tn_messages]; [done|]. intros _. by rewrite R, app_nil_r.
Qed.

Lemma plain_filter f blocks : List.Forall plain_block blocks -> List.Forall plain_block (List.filter f blocks).
Proof. rewrite !List.Forall_forall. intros F b [I _]%List.filter_In. by apply F. Qed.

Lemma assistant_blocks_ok blocks messages : List.Forall plain_block blocks -> forallb (fun b => negb (is_media b)) blocks = true ->
  messages_ok messages = true ->
  let pushed := match blocks with [] => messages | _ => push_blocks "assistant" blocks messages end in
  messages_ok pushed = true /\ omap block_ref (all_blocks pushed) = omap block_ref (all_blocks messages).
Proof.
  intros P N M. destruct blocks as [|b l]; [done|]. cbn zeta iota.
  assert (content_ok "assistant" (b :: l) = true) as C.
  { unfold content_ok. eqb_literals. by rewrite N, (plain_ok _ P). }
  destruct (push_blocks_ok "assistant" (b :: l) messages C M) as [M' E]; [intros; by apply assistant_joins|].
  split; [done|]. by rewrite E, omap_app, (plain_refs _ P), app_nil_r.
Qed.

Lemma assistant_grew idx parts phase t : grew [IAssistant parts phase] t (encode_assistant idx parts phase t).1.
Proof.
  unfold encode_assistant. rewrite !nbind_fst. cbn [quiet fst]. set (encoded := (nfilter_map encode_part parts).1).
  pose proof (parts_plain parts : List.Forall plain_block encoded) as P.
  set (media := List.filter is_media encoded). set (blocks := List.filter (fun b => negb (is_media b)) encoded).
  assert (forall messages, messages_ok messages = true ->
    messages_ok (match media with [] => quiet messages | _ => push_user idx media messages end).1 = true
    /\ omap block_ref (all_blocks (match media with [] => quiet messages | _ => push_user idx media messages end).1)
       = omap block_ref (all_blocks messages)) as MEDIA.
  { intros messages M. pose proof (plain_filter is_media _ P : List.Forall plain_block media) as PM.
    destruct media as [|b l] eqn:E; [done|]. by apply push_user_ok. }
  assert (forallb (fun b => negb (is_media b)) blocks = true) as N.
  { apply forallb_forall. intros b [_ I]%List.filter_In. done. }
  split; intros M; destruct (assistant_blocks_ok blocks _ (plain_filter _ _ P) N M) as [M1 R1]; destruct (MEDIA _ M1) as [M2 R2];
    cbn [with_messages tn_messages]; [done|]. intros _. rewrite app_nil_r. etransitivity; [exact R2|exact R1].
Qed.

Section Items.
Context {SJ : SerdeJson}.

Lemma call_grew item id name arguments t : item_refs [item] = [RefCall id name] ->
  grew [item] t (encode_call id name arguments t).1.
Proof.
  intros I. unfold encode_call. rewrite nbind_fst. cbn [quiet fst]. set (input := (converse_tool_input arguments).1).
  assert (block_ok (tool_use_block id name input) = true /\ is_media (tool_use_block id name input) = false
          /\ block_ref (tool_use_block id name input) = Some (RefCall id name)) as (B & N & R).
  { unfold tool_use_block, is_media. one_member. split; [done|]. split; [done|]. by read_literals. }
  apply grew_push; [by apply assistant_block|by rewrite I, R|]. intros content C. apply assistant_joins; [by apply assistant_block|done].
Qed.

Lemma output_grew idx id output parts is_error t :
  grew [IFunctionOutput id output parts is_error] t (encode_output idx id output parts is_error t).1.
Proof.
  unfold encode_output. rewrite nbind_fst. cbn [quiet fst]. set (content := (result_content idx output parts).1).
  set (block := tool_result_block id content is_error).
  assert (block_ok block = true /\ has_document block = false /\ block_ref block = Some (RefResult id)) as (B & N & R).
  { unfold block, tool_result_block, has_document. one_member. split; [done|]. split; [done|]. by read_literals. }
  apply grew_push; [|by rewrite R|].
  - apply user_content. cbn [forallb existsb]. by rewrite B, N.
  - intros c C. by apply result_joins.
Qed.

Lemma change_grew type_name raw t : is_tool_set_change type_name raw = true ->
  grew [IUnknown type_name raw] t (with_messages (tn_messages t ++ [turn "system" [raw]]) t).
Proof.
  intros I. split; cbn [with_messages tn_messages].
  - unfold messages_ok. rewrite !andb_true_iff, forallb_app, map_app. intros [F S]. rewrite F. split; [done|].
    apply separated_snoc; [done|]. by right.
  - intros _. cbn [forallb own_item]. by rewrite I.
Qed.

Lemma item_grew idx item t : grew [item] t (encode_item idx item t).1.
Proof.
  destruct item; cbn [encode_item]; try (by apply call_grew); try (apply grew_same; [done|apply push_system_same]);
    try (apply grew_same; [done|apply encode_role_same]).
  - apply user_grew.
  - apply assistant_grew.
  - apply output_grew.
  - destruct summary as [text|]; [|by apply grew_same]. destruct (reasoning_plain text None) as [B R].
    apply grew_push; [by apply assistant_block|by rewrite R|]. intros c C. apply assistant_joins; [by apply assistant_block|done].
  - by apply grew_same.
  - destruct (is_tool_set_change type_name raw) eqn:I; [by apply change_grew|]. by apply grew_same.
Qed.

Lemma items_grew items : forall idx t, grew items t (encode_items_from idx items t).1.
Proof.
  induction items as [|item items IH]; intros idx t; cbn [encode_items_from].
  - split; [done|]. intros _ _. by rewrite app_nil_r.
  - rewrite nbind_fst. destruct (item_grew idx item t) as [M1 R1]. destruct (IH (S idx) (encode_item idx item t).1) as [M2 R2].
    split; [by intros M; apply M2, M1|]. intros M. cbn [forallb]. rewrite andb_true_iff. intros [O OS].
    rewrite R2, R1 by (try apply M1; try done; cbn [forallb]; by rewrite O).
    unfold item_refs. cbn [map concat]. by rewrite app_nil_r, app_assoc.
Qed.

(** ** What the body keeps *)
Lemma writes_inference s : writes ["inferenceConfig"] (encode_inference s).
Proof. apply writes_at. intros body _. unfold encode_inference. rewrite nbind_fst. by eexists. Qed.

Lemma writes_latency s : writes ["performanceConfig"] (encode_latency s).
Proof.
  apply writes_at. intros body _. unfold encode_latency. destruct (sp_performance_latency s); [by eexists (Some _)|by exists None].
Qed.

Lemma converse_tier_writes s : writes ["serviceTier"] (encode_service_tier s).
Proof.
  apply writes_at. intros body _. unfold encode_service_tier. destruct (sp_service_tier s) as [tier|]; [|by exists None].
  destruct (converse_service_tier tier) as [[mapped degrade]|]; rewrite nbind_fst; [by eexists (Some _)|by exists None].
Qed.

Lemma writes_output s : writes ["outputConfig"] (encode_output_config s).
Proof. apply writes_at. intros body _. unfold encode_output_config. rewrite nbind_fst. by eexists. Qed.

Lemma writes_description s : writes [] (note_description s).
Proof. apply writes_nothing. intros body. unfold note_description. apply only_note_fst. Qed.

Lemma writes_metadata s : writes ["requestMetadata"] (encode_metadata s).
Proof. apply writes_set_when. Qed.

#[local] Hint Resolve writes_set_when writes_only_note writes_inference writes_latency converse_tier_writes writes_output
  writes_description writes_metadata : converse_writes.

Lemma sampling_writes s : exists ks, Forall2 writes ks (sampling_steps s)
  /\ concat ks = ["additionalModelResponseFieldPaths"; "additionalModelRequestFields"; "promptVariables"; "guardrailConfig";
       "performanceConfig"; "inferenceConfig"; "serviceTier"; "outputConfig"; "requestMetadata"].
Proof.
  eexists. split.
  - unfold sampling_steps. repeat (apply Forall2_cons_2; [solve [eauto with converse_writes]|]). apply Forall2_nil_2.
  - reflexivity.
Qed.

Lemma tools_write prepared choice : writes ["toolConfig"] (encode_tools prepared choice).
Proof.
  apply writes_at. intros body _. unfold encode_tools. destruct prepared; [by exists None|].
  destruct choice; rewrite ?nbind_fst; [by eexists (Some _)|by exists None|by eexists (Some _)..].
Qed.

End Items.

(** ** At a request *)
#[local] Existing Instance bits_codec.

(** A document beside an answer, a result joined to it, and a name with a dot. *)
Definition document_answer : IrRequest :=
  request_new "m" [IUser [PText "hi"]; IFunctionCall "c" "f" "{}" None; IFunctionOutput "c" "1" [] false;
    IAssistant [PText "ok"; PDocument (SrcBase64 "YQ==") "application/pdf" (Some "a.  b.pdf") None None] None;
    IFunctionOutput "d" "2" [] false; IUser [PText "and"]].

Definition document_names (messages : list json) : list string :=
  omap (fun b => doc ← get b "document"; get_str doc "name") (all_blocks messages).

