(* ===== verification/ResponsesRequest.v ===== *)
(** * ResponsesRequest: reading a request of the Responses dialect

    [decode] of [W/map/responses.rs]: instructions, the items of the input
    with their parts, tools and sampling.  Items of a type of their own keep
    the whole item; nothing fails and nothing is noted. *)
From S2P Require Import Prelude Text Json Floats Ir ProfileTypes StreamCore Usage Shapes Chat Loss RequestCore Tools.

(** ** Parts *)
Definition visible_text (part : IrPart) : option string := match part with PText text => Some text | _ => None end.
Definition parts_text (parts : list IrPart) : string := str_join "" (omap visible_text parts).

Definition responses_image_detail (part : json) : option string :=
  opt_filter (fun detail => negb (String.eqb detail "auto")) (trimmed (get_str part "detail")).

Definition image_url_of (part : json) : option string :=
  opt_or (u ← get part "image_url"; opt_or (as_str u) (str_field u "url")) (str_field part "url").

(** A field of the part, or of its [source]. *)
Definition or_in_source (part : json) (key : string) : option string :=
  opt_or (str_field part key) (source ← get part "source"; str_field source key).

(** Detail has to stay on the image URL: base64 parts have no detail. *)
Definition decode_image (part : json) : option IrPart :=
  let file_id := nonempty (str_field part "file_id") in
  let detail := responses_image_detail part in
  match image_url_of part with
  | Some url =>
      match (if is_none file_id && is_none detail then split_data_url url else None) with
      | Some (media_type, data) => Some (PImageBase64 media_type data)
      | None => Some (PImageUrl url detail None file_id)
      end
  | None =>
      match or_in_source part "data" with
      | Some data => Some (PImageBase64 (unwrap_or (or_in_source part "media_type") "image/png") data)
      | None => (fun file_id => PImageUrl "" detail None (Some file_id)) <$> file_id
      end
  end.

Definition text_part (part : json) : option IrPart := PText <$> get_str part "text".

(** A part by its type, without its cache breakpoint. *)
Definition typed_part (part : json) : option IrPart :=
  let type_name := unwrap_or (get_str part "type") "text" in
  if one_of type_name ["input_text"; "output_text"; "text"] then text_part part
  else if one_of type_name ["input_image"; "image"] then decode_image part
  else if one_of type_name ["input_file"; "file"] then decode_openai_file_part part
  else if String.eqb type_name "input_audio" then decode_input_audio_part part
  else if String.eqb type_name "thinking" then
    Some (PThinking (text_or_empty (opt_or (get part "text") (get part "thinking") ≫= as_str))
            (str_field part "signature"))
  else opt_or (text_part part) (Some (PRaw type_name part)).

Definition decode_part (part : json) : option IrPart :=
  match part with JStr text => Some (PText text) | _ => with_prompt_cache (typed_part part) part end.

Definition decode_parts (content : option json) : list IrPart :=
  match content with
  | Some (JStr text) => [PText text]
  | Some (JArr l) => omap decode_part l
  | _ => []
  end.

(** ** Items *)
Definition is_hosted_item (ty : string) : bool :=
  ends_with "_call" ty || one_of ty ["web_search_call"; "file_search_call"].

Definition reasoning_summary (item : json) : option string :=
  match str_field item "summary" with
  | Some s => Some s
  | None =>
      arr ← get_array item "summary";
      match omap (fun part => opt_or (get_str part "text") (as_str part)) arr with
      | [] => None
      | texts => Some (str_join (String (ascii_of_nat 10) "") texts)
      end
  end.

Definition decode_message_item (item : json) : list IrItem :=
  let role := unwrap_or (get_str item "role") "user" in
  let parts := decode_parts (get item "content") in
  if String.eqb role "system" then [ISystem (parts_text parts) (role_text_breakpoint parts) (role_content_parts parts)]
  else if String.eqb role "developer" then
    [IDeveloper (parts_text parts) (role_text_breakpoint parts) (role_content_parts parts)]
  else if String.eqb role "assistant" then [IAssistant parts (not_blank (str_field item "phase"))]
  else [IUser parts].

Section Decode.
Context {SJ : SerdeJson}.

Definition is_text (part : IrPart) : bool := is_some (visible_text part).

(** Text beside an image or a file stays in part order, text alone is one
    string. *)
Definition function_output (item : json) : string * list IrPart :=
  match get item "output" with
  | Some (JArr arr) =>
      let decoded := List.filter (fun part => negb (bool_decide (visible_text part = Some ""))) (omap decode_part arr) in
      if existsb (fun part => negb (is_text part)) decoded then ("", decoded) else (parts_text decoded, [])
  | Some other => (value_as_string other, [])
  | None => ("", [])
  end.

Definition decode_function_output (item : json) : IrItem :=
  let '(output, parts) := function_output item in
  IFunctionOutput (text_or_empty (str_field item "call_id")) output parts false.

Definition call_id_of (item : json) : string := text_or_empty (opt_or (str_field item "call_id") (str_field item "id")).

Definition decode_typed_item (ty : string) (item : json) : list IrItem :=
  if String.eqb ty "function_call" then
    [IFunctionCall (call_id_of item) (qualify_call_name item)
       (unwrap_or (value_as_string <$> get item "arguments") "{}") None]
  else if String.eqb ty "custom_tool_call" then
    [ICustomToolCall (call_id_of item) (text_or_empty (str_field item "name"))
       (text_or_empty (value_as_string <$> get item "input")) (Some item)]
  else if String.eqb ty "function_call_output" then [decode_function_output item]
  else if String.eqb ty "reasoning" then
    [IReasoning (str_field item "encrypted_content") (reasoning_summary item) (Some item)]
  else if String.eqb ty "message" || is_empty ty then decode_message_item item
  else if is_hosted_item ty then [IHostedToolCall ty item]
  else [IUnknown ty item].

Definition decode_input_item (item : json) : list IrItem :=
  match item with
  | JStr text => [IUser [PText text]]
  | _ => decode_typed_item (text_or_empty (get_str item "type")) item
  end.

Definition decode_input (input : option json) : list IrItem :=
  match input with
  | Some (JStr text) => [IUser [PText text]]
  | Some (JArr arr) => concat (map decode_input_item arr)
  | _ => []
  end.

(** ** Sampling *)
Definition responses_conversation (value : json) : option json :=
  opt_filter (fun c => is_some (not_blank (as_str c)) || is_object c) (get value "conversation").

Definition decode_include (value : json) : list string := omap as_str (unwrap_or (get_array value "include") []).

Definition text_format_of (value : json) : option json := t ← get value "text"; get t "format".

Definition responses_json_object (value : json) : option bool :=
  format ← text_format_of value; if bool_decide (get_str format "type" = Some "json_object") then Some true else None.

(** The schema, its name, [strict] and its description. *)
Definition responses_json_schema (value : json) : option json * option string * option bool * option string :=
  match text_format_of value with
  | None => (None, None, None, None)
  | Some format =>
      if negb (bool_decide (get_str format "type" = Some "json_schema")) then (None, None, None, None)
      else
        (get format "schema", nonempty (get_str format "name"), bool_field format "strict",
         trimmed (get_str format "description"))
  end.

Definition decode_tool_choice (value : option json) : IrToolChoice :=
  match value with
  | None => Auto
  | Some (JStr s) => if String.eqb s "none" then NoTool else if String.eqb s "required" then Required else Auto
  | Some value =>
      match opt_or (get_str value "name") (f ← get value "function"; get_str f "name") with
      | Some name => Named name
      | None =>
          match get_str value "type" with
          | Some t => if String.eqb t "none" then NoTool else if String.eqb t "required" then Required else Auto
          | None => Auto
          end
      end
  end.

Definition mode_at (value : json) (side : string) : option string :=
  trimmed (pointer_str value [Key "moderation"; Key "policy"; Key side; Key "mode"]).

Definition decode_sampling (value : json) : IrSampling :=
  let '(json_schema, json_schema_name, json_schema_strict, json_schema_description) := responses_json_schema value in
  let reasoning key := r ← get value "reasoning"; str_field r key in
  let options key := not_blank (opts ← get value "prompt_cache_options"; str_field opts key) in
  {| sp_temperature := f32_field value "temperature";
     sp_top_p := f32_field value "top_p";
     sp_top_k := None;
     sp_max_tokens := opt_or (u32_field value "max_output_tokens") (u32_field value "max_tokens");
     sp_stop := stop_values value ["stop"];
     sp_tool_choice := decode_tool_choice (get value "tool_choice");
     sp_parallel_tool_calls := bool_field value "parallel_tool_calls";
     sp_store := bool_field value "store";
     sp_previous_response_id := str_field value "previous_response_id";
     sp_cache := cache_default;
     sp_stream := bool_field value "stream";
     sp_include_thoughts := (fun _ => true) <$> not_blank (reasoning "summary");
     sp_thinking_budget := None;
     sp_reasoning_effort := not_blank (reasoning "effort");
     sp_max_reasoning_tokens := (r ← get value "reasoning"; u32_field r "max_tokens");
     sp_json_schema := json_schema;
     sp_json_schema_name := json_schema_name;
     sp_json_schema_description := json_schema_description;
     sp_json_schema_strict := json_schema_strict;
     sp_json_object := responses_json_object value;
     sp_include := decode_include value;
     sp_prompt_cache_key := not_blank (str_field value "prompt_cache_key");
     sp_prompt_cache_retention := not_blank (str_field value "prompt_cache_retention");
     sp_prompt_cache_mode := options "mode";
     sp_prompt_cache_ttl := options "ttl";
     sp_top_logprobs := u32_field value "top_logprobs";
     sp_moderation_model := not_blank (m ← get value "moderation"; str_field m "model");
     sp_moderation_input := mode_at value "input";
     sp_moderation_output := mode_at value "output";
     sp_include_obfuscation := (opts ← get value "stream_options"; bool_field opts "include_obfuscation");
     sp_user := not_blank (str_field value "user");
     sp_verbosity := trimmed (pointer_str value [Key "text"; Key "verbosity"]);
     sp_safety_identifier := not_blank (str_field value "safety_identifier");
     sp_metadata := string_object_field value "metadata";
     sp_frequency_penalty := None;
     sp_presence_penalty := None;
     sp_seed := None;
     sp_n := None;
     sp_service_tier := not_blank (str_field value "service_tier");
     sp_output_modalities := [];
     sp_audio_voice := None;
     sp_audio_format := None;
     sp_logprobs := None;
     sp_logit_bias := [];
     sp_prediction := None;
     sp_web_search_options := None;
     sp_inference_geo := None;
     sp_performance_latency := None;
     sp_previous_message_id := None;
     sp_response_field_paths := [];
     sp_additional_request_fields := None;
     sp_prompt_variables := None;
     sp_guardrail := None;
     sp_container := None;
     sp_context_management := None;
     sp_mcp_servers := None;
     sp_media_resolution := None;
     sp_image_config := None;
     sp_audio_transcription_config := None;
     sp_translation_config := None;
     sp_affective_dialog := None;
     sp_enhanced_civic_answers := None;
     sp_multi_speaker_speech := None;
     sp_cached_content := None;
     sp_safety_settings := None;
     sp_request_labels := None;
     sp_truncation := not_blank (str_field value "truncation");
     sp_max_tool_calls := u32_field value "max_tool_calls";
     sp_background := bool_field value "background";
     sp_conversation := responses_conversation value;
     sp_responses_context_management := opt_filter is_array (get value "context_management");
     sp_messages_thinking := None |}.

Definition decode (value : json) : result MapError (IrRequest * LossReport) :=
  let instructions :=
    match nonempty (str_field value "instructions") with Some text => [ISystem text None []] | None => [] end in
  Ok (mkRequest (text_or_empty (str_field value "model")) (instructions ++ decode_input (get value "input"))
        (map decode_tool (unwrap_or (get_array value "tools") [])) (decode_sampling value),
      mkReport []).
End Decode.

(** A system or developer message that is one text with a cache breakpoint
    loses its text: [parts_text] sees only bare text parts, and a breakpoint
    on the only part keeps no parts. *)
Definition marked_system : json :=
  jobj [("role", JStr "system");
        ("content", JArr [jobj [("type", JStr "input_text"); ("text", JStr "rules");
                                ("prompt_cache_breakpoint", jobj [("mode", JStr "explicit")])]])].

Example marked_system_text_lost `{SerdeJson} : decode_input_item marked_system = [ISystem "" (Some "explicit") []].
Proof. reflexivity. Qed.

(** The image of a system message without a breakpoint is not kept either. *)
Definition illustrated_system : json :=
  jobj [("role", JStr "system");
        ("content", JArr [jobj [("type", JStr "input_text"); ("text", JStr "rules")];
                          jobj [("type", JStr "input_image"); ("image_url", JStr "https://a.test/x.png")]])].

Example system_image_lost `{SerdeJson} : decode_input_item illustrated_system = [ISystem "rules" None []].
Proof. reflexivity. Qed.
