(* ===== verification/ResponsesEncode.v ===== *)
(** * ResponsesEncode: writing a request of the Responses dialect

    [encode] of [W/map/responses.rs]: system text becomes [instructions],
    every other item an item of [input]; signed thinking of an assistant turn
    becomes reasoning items before it; dotted names of namespace tools are
    split again where the profile keeps those tools. *)
From stdpp Require Import pretty.
From S2P Require Import Prelude Text Json Floats Ir ProfileTypes StreamCore Usage Shapes Chat Loss RequestCore.
From S2P Require Import Schema Tools.

(** ** Parts *)
Definition text_block (text_ty text : string) : json := jobj [("type", JStr text_ty); ("text", JStr text)].

Definition encode_input_image (url : string) (detail file_id : option string) : json :=
  let image := put "file_id" (JStr <$> nonempty file_id) (jobj [("type", JStr "input_image")]) in
  let image := put "image_url" (if is_empty url then None else Some (JStr url)) image in
  put "detail" (JStr <$> nonempty detail) image.

Definition data_url (media_type data : string) : string := "data:" +:+ media_type +:+ ";base64," +:+ data.

Definition data_image (media_type data : string) : json :=
  jobj [("type", JStr "input_image"); ("image_url", JStr (data_url media_type data))].

Definition audio_block (data format : string) : json :=
  jobj [("type", JStr "input_audio"); ("input_audio", jobj [("data", JStr data); ("format", JStr format)])].

Definition left_out (path detail : string) : noted (option json) := let! _ := note path Drop detail in quiet None.
Definition leave_out (path detail : string) : noted bool := let! _ := note path Drop detail in quiet false.

Definition encode_document (source : IrDocumentSource) (media_type : string) (name : option string) (text_ty : string) :
  noted (option json) :=
  let obj := put "filename" (JStr <$> trimmed name) (jobj [("type", JStr "input_file")]) in
  match source with
  | SrcS3 _ _ => left_out "part.document" "S3 document has no Responses slot"
  | SrcText data =>
      let! _ := note "part.document" Degrade "plain text document becomes text" in quiet (Some (text_block text_ty data))
  | SrcBase64 data =>
      if blank data then left_out "part.document" "document data is empty"
      else
        let media_type := if is_empty media_type then "application/pdf" else media_type in
        let obj :=
          if is_none (get_str obj "filename") then index_set obj "filename" (JStr (document_filename None media_type))
          else obj in
        quiet (Some (index_set obj "file_data" (JStr (data_url media_type data))))
  | SrcUrl url => quiet (Some (index_set obj "file_url" (JStr url)))
  | SrcFileId id =>
      if blank id then left_out "part.document" "file id is empty"
      else quiet (Some (index_set obj "file_id" (JStr id)))
  end.

(** A Messages Files API image: Responses rejects that part. *)
Definition messages_file_image_raw (raw : json) : bool :=
  bool_decide (get_str raw "type" = Some "image") && bool_decide (pointer_str raw [Key "source"; Key "type"] = Some "file").

Definition blank_image (url : string) (file_id : option string) : bool := blank url && blank (unwrap_or file_id "").
Definition empty_data_url (url : string) : bool := is_some_and (split_data_url url) (fun p => blank p.2).

Definition keep_raw (part : IrPart) (raw : json) : noted bool :=
  match plain_media_part part with
  | Some (PAudio data _) =>
      if blank data then leave_out "part.audio" "audio data is empty"
      else let! _ := note "part.media_hint" Drop "no slot" in quiet true
  | Some (PImageBase64 _ data) =>
      if blank data then leave_out "part.image" "image data is empty"
      else let! _ := note "part.media_hint" Drop "no slot" in quiet true
  | Some _ => let! _ := note "part.media_hint" Drop "no slot" in quiet true
  | None =>
      if messages_file_image_raw raw then leave_out "part.raw" "Messages image file_id has no Responses slot"
      else if responses_raw_passthrough raw then quiet true
      else leave_out (off_dialect_raw_path raw) "raw part is not Responses-shaped"
  end.

Definition keep_inner (part : IrPart) : noted bool :=
  match part with
  | PImageUrl url _ _ file_id =>
      if blank_image url file_id then leave_out "part.image" "image url is empty"
      else if empty_data_url url then leave_out "part.image" "image data is empty"
      else quiet true
  | PAudio data _ => if blank data then leave_out "part.audio" "audio data is empty" else quiet true
  | PImageBase64 _ data => if blank data then leave_out "part.image" "image data is empty" else quiet true
  | PThinking _ _ => leave_out "part.thinking" "thinking has no Responses slot"
  | PRaw _ raw => keep_raw part raw
  | PText _ | PDocument _ _ _ _ _ | PPromptCacheBreakpoint _ _ => quiet true
  end.

(** The filter of [encode_parts]. *)
Definition keep_part (part : IrPart) : noted (option IrPart) :=
  let! keep := keep_inner (peel_prompt_cache_all part).1 in quiet (if keep then Some part else None).

Definition encode_bytes_image (media_type data : string) : noted (option json) :=
  if blank data then left_out "part.image" "image data is empty" else quiet (Some (data_image media_type data)).

Definition encode_audio (data format : string) : noted (option json) :=
  if blank data then left_out "part.audio" "audio data is empty" else quiet (Some (audio_block data format)).

Definition encode_raw_part (text_ty : string) (part : IrPart) (raw : json) : noted (option json) :=
  match plain_media_part part with
  | Some (PImageBase64 media_type data) => encode_bytes_image media_type data
  | Some (PDocument source media_type name _ _) => encode_document source media_type name text_ty
  | Some (PAudio data format) => encode_audio data format
  | Some (PText text) => quiet (Some (text_block text_ty text))
  | _ => quiet (Some raw)
  end.

Definition encode_inner (text_ty : string) (part : IrPart) : noted (option json) :=
  match part with
  | PText text => quiet (Some (text_block text_ty text))
  | PImageUrl url detail _ file_id =>
      if empty_data_url url then left_out "part.image" "image data is empty"
      else quiet (Some (encode_input_image url detail file_id))
  | PImageBase64 media_type data => encode_bytes_image media_type data
  | PDocument source media_type name _ _ => encode_document source media_type name text_ty
  | PAudio data format => encode_audio data format
  | PRaw _ raw => encode_raw_part text_ty part raw
  | PThinking _ _ => left_out "part.thinking" "thinking has no Responses slot"
  | PPromptCacheBreakpoint _ _ => quiet None
  end.

Definition encode_visible (text_ty : string) (part : IrPart) : noted (option json) :=
  let '(inner, mode) := peel_prompt_cache_all part in
  let! value := encode_inner text_ty inner in
  match value with
  | Some value => let! value := apply_prompt_cache value mode true in quiet (Some value)
  | None => quiet None
  end.

Definition encode_parts (parts : list IrPart) (input : bool) : noted (list json) :=
  let text_ty := if input then "input_text" else "output_text" in
  let! visible := nfilter_map keep_part parts in
  match visible, input with
  | [PText text], true => quiet [text_block text_ty text]
  | _, _ => nfilter_map (encode_visible text_ty) visible
  end.

(** ** Items *)
Definition role_text_message (role text mode : string) : json :=
  jobj [("role", JStr role);
        ("content", JArr [index_set (text_block "input_text" text) "prompt_cache_breakpoint" (jobj [("mode", JStr mode)])])].

Definition message (role : string) (content : list json) : json := jobj [("role", JStr role); ("content", JArr content)].

Definition encode_function_call (call_id name arguments : string) (restore : bool) : json :=
  match (if restore then split_namespace_name name else None) with
  | Some (ns, leaf) =>
      jobj [("type", JStr "function_call"); ("call_id", JStr call_id); ("name", JStr leaf); ("namespace", JStr ns);
            ("arguments", JStr arguments)]
  | None =>
      jobj [("type", JStr "function_call"); ("call_id", JStr call_id); ("name", JStr name); ("arguments", JStr arguments)]
  end.

Definition encode_reasoning (encrypted summary : option string) (raw : option json) : json :=
  match raw with
  | Some raw => raw
  | None =>
      let obj := put "encrypted_content" (JStr <$> encrypted) (jobj [("type", JStr "reasoning")]) in
      put "summary" ((fun s => JArr [jobj [("type", JStr "summary_text"); ("text", JStr s)]]) <$> summary) obj
  end.

Definition is_signed_thinking (part : IrPart) : bool :=
  match part with PThinking _ signature => is_some (nonempty signature) | _ => false end.

(** The reasoning items of the signed thinking of a turn, and the other parts. *)
Definition peel_signed_thinking (parts : list IrPart) : noted (list json * list IrPart) :=
  let signed := omap (fun part => match part with
                                  | PThinking text signature =>
                                      (fun sig => encode_reasoning (Some sig) (nonempty (Some text)) None) <$> nonempty signature
                                  | _ => None
                                  end) parts in
  let! _ := note_all (map (fun _ => note "part.thinking" Preserve "signed thinking remapped to reasoning") signed) in
  quiet (signed, List.filter (fun part => negb (is_signed_thinking part)) parts).

(** ** Results *)
Section Encode.
Context {SJ : SerdeJson}.

Definition no_output_slot (idx : nat) : noted (list json) :=
  let! _ := note (item_path idx +:+ ".part") Drop "function_call_output has no slot" in quiet [].

(** The first mode that is not empty is kept, the others are noted. *)
Fixpoint keep_one_mode (kept : bool) (modes : list string) (item : json) : noted json :=
  match modes with
  | [] => quiet item
  | mode :: modes =>
      if negb kept && negb (is_empty mode) then
        let! item := apply_prompt_cache item (Some mode) true in keep_one_mode true modes item
      else let! _ := drop_prompt_cache (Some mode) in keep_one_mode kept modes item
  end.

(** A part under cache breakpoints. *)
Definition encode_marked_output (ordered_text : bool) (part : IrPart) : noted (list json) :=
  let '(inner, modes) := peel_prompt_cache_modes part in
  match (match inner with PRaw type_name raw => if String.eqb type_name "json" then Some raw else None | _ => None end) with
  | Some raw =>
      if ordered_text then
        let! item := keep_one_mode false modes (text_block "input_text" (to_string raw)) in quiet [item]
      else let! _ := drop_prompt_cache_modes part in quiet []
  | None =>
      let! items := encode_parts [inner] true in
      let! items :=
        match nonempty (head modes) with
        | Some mode => nmap (fun item => apply_prompt_cache item (Some mode) true) items
        | None => quiet items
        end in
      let! _ := note_all (map (fun mode => drop_prompt_cache (Some mode)) (tail modes)) in
      let! _ := match items with [] => drop_prompt_cache_modes part | _ => quiet tt end in
      quiet items
  end.

(** What a part of a result adds to its content; parts that add something
    make the output a list. *)
Definition encode_output_part (idx : nat) (ordered_text : bool) (part : IrPart) : noted (list json) :=
  match part with
  | PText text => quiet (if ordered_text && negb (is_empty text) then [text_block "input_text" text] else [])
  | PImageUrl url detail _ file_id =>
      if blank_image url file_id then let! _ := note "part.image" Drop "image url is empty" in quiet []
      else if empty_data_url url then let! _ := note "part.image" Drop "image data is empty" in quiet []
      else quiet [encode_input_image url detail file_id]
  | PImageBase64 media_type data => let! b := encode_bytes_image media_type data in quiet (option_list b)
  | PDocument source media_type name _ _ =>
      let! b := encode_document source media_type name "input_text" in quiet (option_list b)
  | PRaw type_name raw =>
      if String.eqb type_name "json" then
        quiet (if ordered_text then [text_block "input_text" (to_string raw)] else [])
      else
        match function_response_image part with
        | Some (media_type, data) => quiet [data_image media_type data]
        | None => no_output_slot idx
        end
  | PPromptCacheBreakpoint _ _ => encode_marked_output ordered_text part
  | PThinking _ _ | PAudio _ _ => no_output_slot idx
  end.

Definition encode_function_output (call_id output : string) (parts : list IrPart) (is_error : bool) (idx : nat) :
  noted json :=
  let! _ := no_slot_if is_error (item_path idx +:+ ".is_error") in
  let ordered_text := existsb nonempty_text parts in
  let text := if ordered_text then "" else function_output_text output parts in
  let! structured := nmap (encode_output_part idx ordered_text) parts in
  let output_value :=
    match concat structured with
    | [] => if negb ordered_text && negb (is_empty text) then JStr text else JStr output
    | content => JArr ((if is_empty text then [] else [text_block "input_text" text]) ++ content)
    end in
  quiet (jobj [("type", JStr "function_call_output"); ("call_id", JStr call_id); ("output", output_value)]).

(** ** The input *)
Record Input := mkInput { in_instructions : list string; in_items : list json }.

Definition push_items (items : list json) (t : Input) : Input := mkInput (in_instructions t) (in_items t ++ items).

Definition encode_role (idx : nat) (role : string) (c : noted unit) (text : string) (mode : option string)
    (content_parts : list IrPart) (t : Input) : noted Input :=
  match content_parts, nonempty mode with
  | _ :: _, _ => let! content := encode_parts content_parts true in quiet (push_items [message role content] t)
  | [], Some mode => quiet (push_items [role_text_message role text mode] t)
  | [], None =>
      let! _ := c in
      let! _ := note_if (negb (bool_decide (in_items t = []))) (item_path idx) Degrade
                  "system message moved out of the turn list" in
      quiet (mkInput (in_instructions t ++ [text]) (in_items t))
  end.

Definition encode_assistant (idx : nat) (parts : list IrPart) (phase : option string) (t : Input) : noted Input :=
  let! peeled := peel_signed_thinking parts in
  let '(signed, rest) := peeled in
  let t := push_items signed t in
  if negb (bool_decide (length rest = 0%nat)) || negb (existsb is_signed_thinking parts) then
    let! content := encode_parts rest false in
    let msg := jobj [("type", JStr "message"); ("role", JStr "assistant"); ("content", JArr content)] in
    quiet (push_items [put "phase" (JStr <$> assistant_phase phase) msg] t)
  else
    let! _ := note_if (is_some (assistant_phase phase)) (item_path idx +:+ ".phase") Drop "phase has no assistant message" in
    quiet t.

Definition custom_call_item (call_id name input : string) (responses_item : option json) : json :=
  let item := unwrap_or (opt_filter is_object responses_item) (jobj [("type", JStr "custom_tool_call")]) in
  index_set (index_set (index_set (index_set item "type" (JStr "custom_tool_call")) "call_id" (JStr call_id))
    "name" (JStr name)) "input" (JStr input).

Definition encode_item (restore_calls : bool) (idx : nat) (item : IrItem) (t : Input) : noted Input :=
  match item with
  | ISystem text mode content_parts => encode_role idx "system" (quiet tt) text mode content_parts t
  | IDeveloper text mode content_parts =>
      encode_role idx "developer" (note (item_path idx) Degrade "developer to system") text mode content_parts t
  | ISystemCache _ => let! _ := note (item_path idx) Drop "system cache point has no slot" in quiet t
  | ISystemGuard _ => let! _ := note (item_path idx) Drop "system guard content has no slot" in quiet t
  | IUser parts => let! content := encode_parts parts true in quiet (push_items [message "user" content] t)
  | IAssistant parts phase => encode_assistant idx parts phase t
  | IFunctionCall call_id name arguments thought_signature =>
      let! _ := note_if (is_some thought_signature) "item.function_call" Drop "thoughtSignature has no Responses slot" in
      quiet (push_items [encode_function_call call_id name arguments restore_calls] t)
  | ICustomToolCall call_id name input responses_item =>
      quiet (push_items [custom_call_item call_id name input responses_item] t)
  | IFunctionOutput call_id output parts is_error =>
      let! item := encode_function_output call_id output parts is_error idx in quiet (push_items [item] t)
  | IReasoning encrypted summary raw => quiet (push_items [encode_reasoning encrypted summary raw] t)
  | IUnknown type_name raw =>
      if one_of type_name ["toolAddition"; "toolRemoval"]
      then let! _ := note (item_path idx) Drop "tool addition or removal has no slot" in quiet t
      else quiet (push_items [raw] t)
  | IHostedToolCall _ raw => quiet (push_items [raw] t)
  end.

Fixpoint encode_items_from (restore_calls : bool) (idx : nat) (items : list IrItem) (t : Input) : noted Input :=
  match items with
  | [] => quiet t
  | item :: items => let! t := encode_item restore_calls idx item t in encode_items_from restore_calls (S idx) items t
  end.

Definition blank_line : string := String (ascii_of_nat 10) (String (ascii_of_nat 10) "").

Definition encode_items (ir : IrRequest) (restore_calls : bool) : noted (option string * list json) :=
  let! t := encode_items_from restore_calls 0 (items ir) (mkInput [] []) in
  quiet (if_any (in_instructions t) (str_join blank_line (in_instructions t)), in_items t).

Definition encode_tool (tool : PreparedTool) : json :=
  match tool with
  | PtFunction name description parameters strict =>
      let parameters := normalize_object_schema_required parameters in
      let parameters := if bool_decide (strict = Some true) then strict_object_schema parameters else parameters in
      put "strict" (JBool <$> strict)
        (jobj [("type", JStr "function"); ("name", JStr name); ("description", JStr description);
               ("parameters", parameters)])
  | PtRaw raw => raw
  end.
End Encode.

(** ** Sampling *)

(** [body[key][sub] = v], on an object that is created when it is missing. *)
Definition set_in (key sub : string) (v : json) (body : json) : json :=
  index_set body key (index_set (unwrap_or (object_field body key) (JObj [])) sub v).

(** A text with a value is sent and noted as kept. *)
Definition kept_text (o : option string) (key : string) : step :=
  set_when (not_blank o) key JStr (preserve key ("responses " +:+ key)).

Definition gpt5_reject (key : string) : string :=
  "gpt-5 family Responses reject " +:+ key +:+ " unless gpt-5.1 or gpt-5.2 reasoning effort is none".

(** A field the gpt-5 family rejects, or the body with it. *)
Definition unless_rejected {A} (rejected : bool) (o : option A) (key : string) (v : A -> json) (c : noted unit) : step :=
  fun body =>
    if rejected && is_some o then let! _ := note ("sampling." +:+ key) Drop (gpt5_reject key) in quiet body
    else set_when o key v c body.

Definition encode_tool_choice (choice : IrToolChoice) : step := fun body =>
  quiet
    match choice with
    | Auto => body
    | NoTool => index_set body "tool_choice" (JStr "none")
    | Required => index_set body "tool_choice" (JStr "required")
    | Named name => index_set body "tool_choice" (jobj [("type", JStr "function"); ("name", JStr name)])
    end.

Definition encode_responses_request_fields (s : IrSampling) : list step :=
  [ kept_text (sp_truncation s) "truncation";
    set_when (sp_max_tool_calls s) "max_tool_calls" jint (preserve "max_tool_calls" "responses max_tool_calls");
    set_when (sp_background s) "background" JBool (preserve "background" "responses background");
    set_when (sp_conversation s) "conversation" id (preserve "conversation" "responses conversation");
    set_when (sp_responses_context_management s) "context_management" id
      (preserve "responses_context_management" "responses context_management") ].

Definition encode_prompt_cache_options (s : IrSampling) : step := fun body =>
  let mode := trimmed (sp_prompt_cache_mode s) in
  let ttl := trimmed (sp_prompt_cache_ttl s) in
  if is_none mode && is_none ttl then quiet body
  else
    let! opts := set_when mode "mode" JStr (preserve "prompt_cache_mode" "responses prompt_cache_options.mode") (JObj []) in
    let! opts := set_when ttl "ttl" JStr (preserve "prompt_cache_ttl" "responses prompt_cache_options.ttl") opts in
    quiet (index_set body "prompt_cache_options" opts).

Definition encode_moderation (s : IrSampling) : step := fun body =>
  let model := trimmed (sp_moderation_model s) in
  let input := trimmed (sp_moderation_input s) in
  let output := trimmed (sp_moderation_output s) in
  let mode m := jobj [("mode", JStr m)] in
  if is_none model && is_none input && is_none output then quiet body
  else
    let! obj := set_when model "model" JStr (preserve "moderation_model" "responses moderation.model") (JObj []) in
    let! obj :=
      if is_some input || is_some output then
        let! policy := set_when input "input" mode
          (preserve "moderation_input" "responses moderation.policy.input.mode") (JObj []) in
        let! policy := set_when output "output" mode
          (preserve "moderation_output" "responses moderation.policy.output.mode") policy in
        quiet (index_set obj "policy" policy)
      else quiet obj in
    quiet (index_set body "moderation" obj).

Definition encode_verbosity (s : IrSampling) : step := fun body =>
  match not_blank (sp_verbosity s) with
  | Some verbosity =>
      let! _ := preserve "verbosity" "responses text.verbosity" in quiet (set_in "text" "verbosity" (JStr verbosity) body)
  | None => quiet body
  end.

Definition encode_obfuscation (s : IrSampling) : step := fun body =>
  match sp_include_obfuscation s with
  | Some include_obfuscation =>
      let! _ := preserve "include_obfuscation" "responses stream_options.include_obfuscation" in
      quiet (set_in "stream_options" "include_obfuscation" (JBool include_obfuscation) body)
  | None => quiet body
  end.

Definition encode_include_thoughts (s : IrSampling) : step := fun body =>
  match sp_include_thoughts s with
  | Some true =>
      let! _ := preserve "include_thoughts" "responses reasoning.summary" in
      quiet (set_in "reasoning" "summary" (JStr "auto") body)
  | Some false => let! _ := note "sampling.include_thoughts" Drop "no slot" in quiet body
  | None => quiet body
  end.

Definition encode_text_format (s : IrSampling) : step := fun body =>
  let otherwise :=
    quiet (if bool_decide (sp_json_object s = Some true)
           then set_in "text" "format" (jobj [("type", JStr "json_object")]) body else body) in
  match sp_json_schema s with
  | None => otherwise
  | Some schema =>
      let! official := official_json_schema schema (sp_json_schema_name s) in
      match official with
      | None => otherwise
      | Some (schema, name) =>
          let schema :=
            if bool_decide (sp_json_schema_strict s = Some true)
            then strict_object_schema (normalize_object_schema_required schema) else schema in
          let format := jobj [("type", JStr "json_schema"); ("name", JStr name); ("schema", schema)] in
          let format := put "strict" (JBool <$> sp_json_schema_strict s) format in
          let format := put "description" (JStr <$> trimmed (sp_json_schema_description s)) format in
          quiet (set_in "text" "format" format body)
      end
  end.

(** The fields of other dialects, in the order they are noted. *)
Definition fields_without_slot (s : IrSampling) : list (bool * string) :=
  [ (is_some (sp_top_k s), "top_k"); (is_some (sp_inference_geo s), "inference_geo");
    (is_some (sp_performance_latency s), "performance_latency");
    (is_some (sp_previous_message_id s), "previous_message_id");
    (negb (bool_decide (sp_response_field_paths s = [])), "response_field_paths");
    (is_some (sp_additional_request_fields s), "additional_request_fields");
    (is_some (sp_prompt_variables s), "prompt_variables"); (is_some (sp_guardrail s), "guardrail");
    (is_some (sp_container s), "container"); (is_some (sp_context_management s), "context_management") ].

Definition sampling_steps (ir : IrRequest) : list step :=
  let s := sampling ir in
  let rejected := gpt5_sampling_params_rejected (model ir) (sp_reasoning_effort s) in
  [ unless_rejected rejected (sp_temperature s) "temperature" json_f32 (quiet tt);
    unless_rejected rejected (sp_top_p s) "top_p" json_f32 (quiet tt);
    only_note (note_fields (fields_without_slot s)) ]
  ++ encode_responses_request_fields s
  ++ [ only_note (no_slot_if (is_some (sp_mcp_servers s)) "sampling.mcp_servers");
       set_when (sp_max_tokens s) "max_output_tokens" jint (quiet tt);
       only_note (no_slot_if (negb (bool_decide (sp_stop s = []))) "sampling.stop");
       encode_tool_choice (sp_tool_choice s);
       set_when (sp_parallel_tool_calls s) "parallel_tool_calls" JBool
         (preserve "parallel_tool_calls" "responses parallel_tool_calls");
       set_when (sp_store s) "store" JBool (preserve "store" "responses store");
       set_when (sp_previous_response_id s) "previous_response_id" JStr
         (preserve "previous_response_id" "responses previous_response_id");
       only_note (no_slot_if (enabled (sp_cache s)) "sampling.cache");
       kept_text (sp_prompt_cache_key s) "prompt_cache_key";
       kept_text (sp_prompt_cache_retention s) "prompt_cache_retention";
       encode_prompt_cache_options s;
       unless_rejected rejected (sp_top_logprobs s) "top_logprobs" jint (preserve "top_logprobs" "responses top_logprobs");
       encode_moderation s;
       set_when (not_blank (sp_user s)) "user" JStr (quiet tt);
       kept_text (sp_safety_identifier s) "safety_identifier";
       set_when (if_any (sp_metadata s) (sp_metadata s)) "metadata" json_strings
         (preserve "metadata" "responses metadata");
       encode_verbosity s;
       kept_text (sp_service_tier s) "service_tier";
       set_when (sp_stream s) "stream" JBool (quiet tt);
       encode_obfuscation s;
       set_when (if_any (sp_include s) (sp_include s)) "include" (fun l => JArr (map JStr l)) (quiet tt);
       set_when (not_blank (sp_reasoning_effort s)) "reasoning" (fun effort => jobj [("effort", JStr effort)]) (quiet tt);
       encode_include_thoughts s;
       only_note (note_fields
         [ (is_some (sp_max_reasoning_tokens s), "max_reasoning_tokens");
           (is_some (sp_thinking_budget s), "thinking_budget") ]);
       only_note (drop_messages_native_thinking s);
       only_note (drop_dest_n_and_penalties s);
       only_note (drop_dest_output_modalities s);
       only_note (drop_dest_logprobs s);
       only_note (drop_dest_chat_logit_bias s);
       encode_text_format s ].

Definition encode_sampling (ir : IrRequest) : step := steps (sampling_steps ir).

(** ** The whole body *)
Definition check_input (instructions : option string) (input : list json) (report : list LossEvent) : result MapError unit :=
  match input, instructions with
  | _ :: _, _ => Ok tt
  | [], Some _ => Err (Invalid "responses input must not be empty: instructions need an input turn")
  | [], None =>
      Err (Invalid (match dropped_details report with
                    | [] => "responses input must not be empty"
                    | dropped => "responses input must not be empty: " +:+ str_join "; " dropped
                    end))
  end.

Definition check_sampling (ir : IrRequest) : result MapError unit :=
  let s := sampling ir in
  let* _ :=
    if gpt5_sampling_params_rejected (model ir) (sp_reasoning_effort s) then Ok tt
    else
      let* _ := reject_sampling_number (sp_temperature s) F32_ZERO F32_TWO "sampling.temperature"
                  "temperature must be between 0 and 2" in
      reject_sampling_number (sp_top_p s) F32_ZERO F32_ONE "sampling.top_p" "top_p must be between 0 and 1" in
  if bool_decide (sp_max_tokens s = Some 0) then Err (hard "sampling.max_tokens" "max_tokens must be at least 1")
  else Ok tt.

(** Dotted names are split only when native namespace tools are kept. *)
Definition keeps_namespaces (profile : ResolvedProfile) : bool :=
  match d_tool_type_policy (dialect profile) with PolicyHardError => true | _ => false end.

(** [report] is what was noted before. *)
Definition encode `{SerdeJson} (ir : IrRequest) (prepared : list PreparedTool) (profile : ResolvedProfile)
    (report : list LossEvent) : noted_or_error json :=
  let '((instructions, input), events) := encode_items ir (keeps_namespaces profile) in
  let* _ := check_input instructions input (report ++ events) in
  let* _ := check_sampling ir in
  let body := jobj [("model", JStr (model ir)); ("input", JArr input)] in
  let body := put "instructions" (JStr <$> instructions) body in
  let body := put "tools" (if_any prepared (JArr (map encode_tool prepared))) body in
  Ok (let! _ := (tt, events) in encode_sampling ir body).
