(* ===== verification/ResponsesArrives.v ===== *)
(** * ResponsesArrives: the turns of a Responses request arrive, or their
    losses are reported

    [normal_items] is what a receiver reads from a Responses body for the
    items of a request: one text of instructions, then every item in the
    normal form of the dialect.  The theorem is about the whole encoder: when
    the loss report says that nothing was dropped or degraded, decoding the
    body gives exactly these items, the model and the tools.  What its reader
    loses of a system item unreported is left out by [texts_are_read]. *)
From S2P Require Import Prelude Text Json JsonCodec Floats Ir ProfileTypes StreamCore Usage Shapes Chat Loss RequestCore.
From S2P Require Import Schema Tools Arrival ResponsesRequest ResponsesEncode.

(** ** Normal forms *)
Definition sent_detail (detail : option string) : option string :=
  opt_filter (fun d => negb (String.eqb d "auto")) (trimmed detail).

Definition image_part (url : string) (detail file_id : option string) : IrPart :=
  let file_id := nonempty file_id in
  let detail := sent_detail detail in
  if is_empty url then PImageUrl "" detail None file_id
  else match (if is_none file_id && is_none detail then split_data_url url else None) with
       | Some (media_type, data) => PImageBase64 media_type data
       | None => PImageUrl url detail None file_id
       end.

Definition normal_inner (part : IrPart) : IrPart :=
  match part with
  | PImageUrl url detail _ file_id => image_part url detail file_id
  | PImageBase64 media_type data => image_part (data_url media_type data) None None
  | PDocument (SrcText data) _ _ _ _ => PText data
  | PDocument (SrcBase64 data) media_type name _ _ =>
      let media := if is_empty media_type then "application/pdf" else media_type in
      let '(m, data) := unwrap_or (split_data_url (data_url media data)) (media, data) in
      PDocument (SrcBase64 data) m (Some (unwrap_or (trimmed name) (document_filename None media))) None None
  | PDocument (SrcUrl url) _ name _ _ => PDocument (document_ref_source url) "" (trimmed name) None None
  | PDocument (SrcFileId id) _ name _ _ => PDocument (SrcFileId id) "" (trimmed name) None None
  | other => other
  end.

Definition marked (mode : option string) (part : IrPart) : IrPart :=
  match normal_mode mode with Some m => PPromptCacheBreakpoint m part | None => part end.

(** A part of another type is sent as it is. *)
Definition normal_part (part : IrPart) : option IrPart :=
  let '(inner, mode) := peel_prompt_cache_all part in
  match inner with
  | PRaw _ raw => decode_part (apply_prompt_cache raw mode true).1
  | _ => Some (marked mode (normal_inner inner))
  end.

Definition normal_parts (parts : list IrPart) : list IrPart := omap normal_part parts.

(** A dotted name is split and read again; the name space is not put twice
    before a name that starts with it. *)
Definition normal_name (restore : bool) (name : string) : string :=
  match (if restore then split_namespace_name name else None) with
  | Some (ns, leaf) => if starts_with (ns +:+ ".") leaf then leaf else ns +:+ "." +:+ leaf
  | None => name
  end.

Section Normal.
Context {SJ : SerdeJson}.

(** The parts a part of a result is read as. *)
Definition normal_output_part (ordered_text : bool) (part : IrPart) : list IrPart :=
  match part with
  | PText text => if ordered_text && negb (is_empty text) then [PText text] else []
  | PRaw type_name raw =>
      if String.eqb type_name "json" then (if ordered_text then [PText (to_string raw)] else [])
      else match function_response_image part with
           | Some (media_type, data) => [image_part (data_url media_type data) None None]
           | None => []
           end
  | PPromptCacheBreakpoint _ _ =>
      let '(inner, modes) := peel_prompt_cache_modes part in
      match (match inner with PRaw type_name raw => if String.eqb type_name "json" then Some raw else None | _ => None end) with
      | Some raw =>
          if ordered_text then [marked (List.find (fun m => negb (is_empty m)) modes) (PText (to_string raw))] else []
      | None => option_list (normal_part part)
      end
  | part => [normal_inner part]
  end.

Definition read_output (content : list IrPart) : string * list IrPart :=
  let decoded := List.filter (fun part => negb (bool_decide (visible_text part = Some ""))) content in
  if existsb (fun part => negb (is_text part)) decoded then ("", decoded) else (parts_text decoded, []).

(** Text and JSON alone are one string; every other part makes a list. *)
Definition fills_content (ordered_text : bool) (part : IrPart) : bool :=
  match (peel_prompt_cache_modes part).1 with
  | PText text => if has_breakpoint part then true else ordered_text && negb (is_empty text)
  | PRaw type_name _ => negb (String.eqb type_name "json") || ordered_text
  | _ => true
  end.

Definition normal_output (output : string) (parts : list IrPart) : string * list IrPart :=
  let ordered_text := existsb nonempty_text parts in
  let text := if ordered_text then "" else function_output_text output parts in
  if existsb (fills_content ordered_text) parts then
    read_output ((if is_empty text then [] else [PText text]) ++ concat (map (normal_output_part ordered_text) parts))
  else (if negb ordered_text && negb (is_empty text) then text else output, []).

(** ** Items *)
Definition normal_role (item : string -> option string -> list IrPart -> IrItem) (text : string)
    (mode : option string) (content_parts : list IrPart) : list IrItem :=
  match content_parts, nonempty mode with
  | _ :: _, _ =>
      let parts := normal_parts content_parts in
      [item (parts_text parts) (role_text_breakpoint parts) (role_content_parts parts)]
  | [], Some mode => [item text (normal_mode (Some mode)) []]
  | [], None => []
  end.

(** The reader keeps the text of a system or developer item: its parts are read as
    plain texts, or as several of which one is marked. One marked text is read
    without its text ([marked_system_text_lost]), and an image among unmarked parts
    is not kept ([system_image_lost]). *)
Definition role_is_read (mode : option string) (content_parts : list IrPart) : bool :=
  match content_parts with
  | [] => is_none (nonempty mode)
  | _ =>
      let parts := normal_parts content_parts in
      forallb is_text parts || ((1 <? length parts)%nat && existsb has_breakpoint parts)
  end.

Definition texts_are_read (item : IrItem) : bool :=
  match item with
  | ISystem _ mode content_parts | IDeveloper _ mode content_parts => role_is_read mode content_parts
  | _ => true
  end.

Definition normal_thinking (part : IrPart) : option IrItem :=
  match part with
  | PThinking text signature =>
      (fun sig => IReasoning (Some sig) (nonempty (Some text))
                    (Some (encode_reasoning (Some sig) (nonempty (Some text)) None))) <$> nonempty signature
  | _ => None
  end.

Definition normal_item (restore : bool) (item : IrItem) : list IrItem :=
  match item with
  | ISystem text mode content_parts => normal_role ISystem text mode content_parts
  | IDeveloper text mode content_parts => normal_role IDeveloper text mode content_parts
  | ISystemCache _ | ISystemGuard _ => []
  | IUser parts => [IUser (normal_parts parts)]
  | IAssistant parts phase =>
      let rest := List.filter (fun part => negb (is_signed_thinking part)) parts in
      omap normal_thinking parts
      ++ (if negb (bool_decide (length rest = 0%nat)) || negb (existsb is_signed_thinking parts)
          then [IAssistant (normal_parts rest) (assistant_phase phase)] else [])
  | IFunctionCall call_id name arguments _ => [IFunctionCall call_id (normal_name restore name) arguments None]
  | ICustomToolCall call_id name input it =>
      [ICustomToolCall call_id name input (Some (custom_call_item call_id name input it))]
  | IFunctionOutput call_id output parts _ =>
      let '(output, parts) := normal_output output parts in [IFunctionOutput call_id output parts false]
  | IReasoning encrypted summary raw =>
      match raw with
      | Some raw => decode_input_item raw
      | None => [IReasoning encrypted summary (Some (encode_reasoning encrypted summary None))]
      end
  | IHostedToolCall _ raw | IUnknown _ raw => decode_input_item raw
  end.

(** The texts that become the instructions. *)
Definition plain_role (item : IrItem) : option string :=
  match item with
  | ISystem text mode [] => if is_none (nonempty mode) then Some text else None
  | _ => None
  end.

Definition normal_items (restore : bool) (l : list IrItem) : list IrItem :=
  match nonempty (Some (str_join blank_line (omap plain_role l))) with Some text => [ISystem text None []] | None => [] end
  ++ concat (map (normal_item restore) l).
End Normal.

(** ** Parts *)
Lemma left_out_kept path detail : kept_whole (left_out path detail).2 = true -> False.
Proof. unfold left_out. by rewrite nbind_snd. Qed.

Lemma input_leave_out_kept path detail : kept_whole (leave_out path detail).2 = true -> False.
Proof. unfold leave_out. by rewrite nbind_snd. Qed.

(** What the filter of [encode_parts] lets through without a note. *)
Definition has_slot (part : IrPart) : Prop :=
  match part with
  | PThinking _ _ => False
  | PImageUrl url _ _ file_id => blank_image url file_id = false
  | PRaw _ raw => plain_media_part part = None /\ is_object raw = true
  | _ => True
  end.

Lemma passthrough_object raw : responses_raw_passthrough raw = true -> is_object raw = true.
Proof. by destruct raw. Qed.

Lemma input_inner_kept part : kept_whole (keep_inner part).2 = true -> (keep_inner part).1 = true /\ has_slot part.
Proof.
  intros H. destruct part as [| | | |type_name raw| | |]; cbn [keep_inner has_slot] in *; try done;
    try (repeat case_hyp H; by first [destruct (input_leave_out_kept _ _ H)|split]).
  unfold keep_raw in *. destruct (plain_media_part _) as [p|] eqn:P.
  - destruct p; repeat case_hyp H; try (by destruct (input_leave_out_kept _ _ H)); by rewrite nbind_snd in H.
  - destruct (messages_file_image_raw raw); [by destruct (input_leave_out_kept _ _ H)|].
    destruct (responses_raw_passthrough raw) eqn:R; [|by destruct (input_leave_out_kept _ _ H)].
    apply passthrough_object in R. done.
Qed.

Lemma input_part_kept part : kept_whole (keep_part part).2 = true ->
  (keep_part part).1 = Some part /\ has_slot (peel_prompt_cache_all part).1.
Proof.
  unfold keep_part. intros H. kept_split H. destruct H as [H _].
  destruct (input_inner_kept _ H) as [E S]. by rewrite nbind_fst, E.
Qed.

Lemma decode_part_typed part : is_object part = true -> decode_part part = with_prompt_cache (typed_part part) part.
Proof. by destruct part. Qed.

(** A block that reads as [part] before its breakpoint reads as [part] with it. *)
Lemma responses_block_arrives value mode part :
  is_object value = true -> get value "prompt_cache_breakpoint" = None ->
  typed_part (apply_prompt_cache value mode true).1 = Some part ->
  decode_part (apply_prompt_cache value mode true).1 = Some (marked mode part).
Proof.
  intros O N P. rewrite decode_part_typed, with_prompt_cache_mode, P by
    (done || by unfold apply_prompt_cache; destruct (nonempty mode); cbn; rewrite ?is_object_index_set).
  unfold marked. by destruct (normal_mode mode).
Qed.

Lemma responses_text_block_arrives ty text mode : one_of ty ["input_text"; "output_text"; "text"] = true ->
  decode_part (apply_prompt_cache (text_block ty text) mode true).1 = Some (marked mode (PText text)).
Proof.
  intros T. apply responses_block_arrives; [apply is_object_jobj|by read_block|]. unfold typed_part, text_part, text_block. read_block.
  by rewrite T.
Qed.

(** The members of an image block. *)
Lemma image_members url detail file_id k : get (encode_input_image url detail file_id) k
  = if String.eqb k "detail" then JStr <$> nonempty detail
    else if String.eqb k "image_url" then (if is_empty url then None else Some (JStr url))
    else if String.eqb k "file_id" then JStr <$> nonempty file_id
    else if String.eqb k "type" then Some (JStr "input_image") else None.
Proof.
  unfold encode_input_image. rewrite !get_put by (by rewrite ?is_object_put). rewrite get_jobj. cbn [assoc_last].
  destruct (String.eqb_spec k "detail") as [->|_]; eqb_literals; [by rewrite !opt_or_none|].
  destruct (String.eqb_spec k "image_url") as [->|_]; eqb_literals; [by rewrite !opt_or_none|].
  destruct (String.eqb_spec k "file_id") as [->|_]; eqb_literals; [by rewrite !opt_or_none|]. done.
Qed.

Lemma as_str_map (o : option string) : ((JStr <$> o) ≫= as_str) = o.
Proof. by destruct o. Qed.

Lemma nonempty_idem o : nonempty (nonempty o) = nonempty o.
Proof. destruct o as [s|]; [|done]. unfold nonempty, opt_filter. by destruct (negb (is_empty s)) eqn:E; cbn; rewrite ?E. Qed.

Lemma trimmed_nonempty o : trimmed (nonempty o) = trimmed o.
Proof. destruct o as [s|]; [|done]. by destruct s. Qed.

Lemma responses_image_block_arrives url detail file_id mode : (is_empty url = true -> nonempty file_id <> None) ->
  decode_part (apply_prompt_cache (encode_input_image url detail file_id) mode true).1
  = Some (marked mode (image_part url detail file_id)).
Proof.
  intros B. assert (is_object (encode_input_image url detail file_id) = true) as O
    by (unfold encode_input_image; by rewrite !is_object_put).
  apply responses_block_arrives; [done|by rewrite image_members|]. set (v := (apply_prompt_cache _ _ _).1).
  assert (forall k, String.eqb k "prompt_cache_breakpoint" = false -> get v k = get (encode_input_image url detail file_id) k) as G
    by (intros k E; by apply get_apply_prompt_cache).
  clearbody v. unfold typed_part, get_str. rewrite (G "type") by reflexivity. rewrite image_members. eqb_literals.
  cbn [mbind option_bind as_str unwrap_or]. eqb_literals.
  unfold decode_image, responses_image_detail, image_url_of, or_in_source, str_field, get_str.
  rewrite !G by reflexivity. rewrite !image_members. eqb_literals. cbn [mbind option_bind opt_or].
  rewrite !as_str_map, nonempty_idem, trimmed_nonempty. change (opt_filter _ (trimmed detail)) with (sent_detail detail).
  unfold image_part. destruct (is_empty url) eqn:E; cbn [mbind option_bind as_str opt_or].
  - destruct (nonempty file_id) eqn:F; [done|]. by destruct (B eq_refl).
  - by destruct (if is_none (nonempty file_id) && _ then _ else _) as [[]|].
Qed.

Lemma data_image_arrives media data mode :
  decode_part (apply_prompt_cache (data_image media data) mode true).1
  = Some (marked mode (image_part (data_url media data) None None)).
Proof. by apply (responses_image_block_arrives (data_url media data) None None mode). Qed.

Lemma blank_image_empty url file_id : blank_image url file_id = false -> is_empty url = true -> nonempty file_id <> None.
Proof. destruct url; [|done]. intros B _. destruct file_id as [s|]; [|done]. by destruct s. Qed.

Lemma responses_audio_block_arrives data format mode :
  decode_part (apply_prompt_cache (audio_block data format) mode true).1 = Some (marked mode (PAudio data format)).
Proof.
  apply responses_block_arrives; [apply is_object_jobj|by read_block|]. unfold typed_part, decode_input_audio_part, audio_block.
  by read_block.
Qed.

(** A file block reads as its document. *)
Lemma responses_file_block_arrives value filename key payload mode part :
  is_object value = true -> nonempty filename = filename -> one_of key ["file_data"; "file_url"; "file_id"] = true ->
  (forall k, get value k = if String.eqb k key then Some (JStr payload)
     else if String.eqb k "filename" then JStr <$> filename
     else if String.eqb k "type" then Some (JStr "input_file") else None) ->
  part = (if String.eqb key "file_id" then PDocument (SrcFileId payload) "" filename None None
          else if String.eqb key "file_url" then PDocument (document_ref_source payload) "" filename None None
          else let '(m, data) := unwrap_or (split_data_url payload) ("application/pdf", payload) in
               PDocument (SrcBase64 data) m filename None None) ->
  decode_part (apply_prompt_cache value mode true).1 = Some (marked mode part).
Proof.
  intros O N K G ->. apply responses_block_arrives; [done| |].
  - rewrite G. unfold one_of in K. cbn [existsb] in K.
    destruct (String.eqb_spec "prompt_cache_breakpoint" key) as [<-|_]; [done|]. by eqb_literals.
  - set (v := (apply_prompt_cache _ _ _).1).
    assert (forall k, String.eqb k "prompt_cache_breakpoint" = false -> get v k = get value k) as A
      by (intros k E; by apply get_apply_prompt_cache).
    clearbody v. unfold typed_part, get_str. rewrite (A "type"), G by reflexivity.
    unfold one_of in K. cbn [existsb] in K. rewrite orb_false_r, !orb_true_iff, !String.eqb_eq in K.
    destruct K as [-> | [-> | ->]]; eqb_literals; cbn [mbind option_bind as_str unwrap_or]; eqb_literals;
      unfold decode_openai_file_part, str_field; rewrite !A by reflexivity; rewrite !G; eqb_literals;
      cbn [mbind option_bind as_str unwrap_or opt_or]; rewrite ?A, ?G by reflexivity; eqb_literals;
      cbn [mbind option_bind as_str unwrap_or opt_or]; rewrite ?as_str_map, ?opt_or_none;
      (assert (opt_or filename filename = filename) as -> by by destruct filename); rewrite ?N; try done.
    by destruct (split_data_url payload) as [[]|].
Qed.

Lemma responses_document_block_arrives source media name citations context ty value mode :
  one_of ty ["input_text"; "output_text"; "text"] = true ->
  encode_document source media name ty = (Some value, []) ->
  decode_part (apply_prompt_cache value mode true).1
  = Some (marked mode (normal_inner (PDocument source media name citations context))).
Proof.
  intros T. unfold encode_document. set (o := put "filename" (JStr <$> trimmed name) (jobj [("type", JStr "input_file")])).
  assert (forall k, get o k = if String.eqb k "filename" then JStr <$> trimmed name
    else if String.eqb k "type" then Some (JStr "input_file") else None) as G.
  { intros k. unfold o. rewrite get_put, get_jobj by done. cbn [assoc_last].
    destruct (String.eqb_spec k "filename") as [->|_]; eqb_literals; by rewrite ?opt_or_none. }
  assert (is_object o = true) as O by by unfold o; rewrite is_object_put.
  assert (nonempty (trimmed name) = trimmed name) as N by (destruct (trimmed name) eqn:E; [by apply nonempty_trimmed in E|done]).
  clearbody o. destruct source as [data|data|url|bucket key|id]; cbn [normal_inner].
  - destruct (blank data); [by intros [=]|]. intros [= <-]. set (m := if is_empty media then _ else _).
    destruct (data_url_splits m data) as [[mt b64] E]. change ("data:" +:+ m +:+ ";base64," +:+ data) with (data_url m data) in E.
    rewrite E. cbn [unwrap_or].
    eapply (responses_file_block_arrives _ (Some (unwrap_or (trimmed name) (document_filename None m))) "file_data" (data_url m data));
      [| | |intros k|by eqb_literals; rewrite E].
    + rewrite is_object_index_set. by destruct (is_none _); rewrite ?is_object_index_set.
    + destruct (trimmed name) eqn:F; cbn [unwrap_or]; [done|]. apply document_filename_some.
    + done.
    + rewrite get_index_set by by destruct (is_none _); rewrite ?is_object_index_set.
      destruct (String.eqb k "file_data"); [done|]. unfold get_str. rewrite G. eqb_literals. rewrite as_str_map.
      destruct (trimmed name) as [n|] eqn:F; cbn [is_none unwrap_or fmap option_fmap option_map];
        rewrite ?get_index_set by done; rewrite G, ?F; by destruct (String.eqb k "filename").
  - by intros [=].
  - intros [= <-]. apply (responses_file_block_arrives _ (trimmed name) "file_url" url); [by rewrite is_object_index_set|done|done| |done].
    intros k. by rewrite get_index_set, G.
  - by unfold left_out; cbn; intros [=].
  - destruct (blank id); [by unfold left_out; cbn; intros [=]|]. intros [= <-].
    apply (responses_file_block_arrives _ (trimmed name) "file_id" id); [by rewrite is_object_index_set|done|done| |done].
    intros k. by rewrite get_index_set, G.
Qed.

(** The note of a document that is not written whole. *)
Lemma document_kept source media name ty : kept_whole (encode_document source media name ty).2 = true ->
  exists value, encode_document source media name ty = (Some value, []).
Proof.
  unfold encode_document. destruct source as [data|data|url|bucket key|id]; cbv zeta; intros K;
    try (by rewrite nbind_snd in K); try (by destruct (left_out_kept _ _ K)); try (by eexists);
    (destruct (blank _); [by destruct (left_out_kept _ _ K)|by eexists]).
Qed.

Lemma responses_encode_visible_arrives ty part : one_of ty ["input_text"; "output_text"; "text"] = true ->
  has_slot (peel_prompt_cache_all part).1 -> kept_whole (encode_visible ty part).2 = true ->
  exists v, (encode_visible ty part).1 = Some v /\ decode_part v = normal_part part.
Proof.
  intros T. pose proof (peel_not_breakpoint part) as P. unfold encode_visible, normal_part.
  destruct (peel_prompt_cache_all part) as [inner mode]. cbn [fst] in *. intros S K. kept_split K. destruct K as [K _].
  rewrite nbind_fst.
  assert (forall v, (encode_inner ty inner).1 = Some v -> exists w,
    (match (encode_inner ty inner).1 with
     | Some value => let! value0 := apply_prompt_cache value mode true in quiet (Some value0)
     | None => quiet None end).1 = Some w /\ w = (apply_prompt_cache v mode true).1) as W.
  { intros v ->. rewrite nbind_fst. by eexists. }
  assert (exists v, (encode_inner ty inner).1 = Some v /\ decode_part (apply_prompt_cache v mode true).1
    = match inner with PRaw _ raw => decode_part (apply_prompt_cache raw mode true).1
      | _ => Some (marked mode (normal_inner inner)) end) as (v & E & D).
  { destruct inner as [text|url detail owner id|media data| |type_name raw|source media name cit ctx|data format|m p];
      cbn [encode_inner] in *; try done.
    - eexists. split; [done|]. by apply responses_text_block_arrives.
    - destruct (empty_data_url url); [by destruct (left_out_kept _ _ K)|]. eexists. split; [done|].
      apply responses_image_block_arrives. by apply blank_image_empty.
    - unfold encode_bytes_image in *. destruct (blank data); [by destruct (left_out_kept _ _ K)|]. eexists. split; [done|].
      apply data_image_arrives.
    - destruct S as [S _]. unfold encode_raw_part. rewrite S. by eexists.
    - destruct (document_kept _ _ _ _ K) as [v E]. rewrite E. exists v. split; [done|]. by eapply responses_document_block_arrives.
    - unfold encode_audio in *. destruct (blank data); [by destruct (left_out_kept _ _ K)|]. eexists. split; [done|].
      apply responses_audio_block_arrives.
    - by destruct (P m p). }
  destruct (W v E) as (w & Ew & ->). by eexists.
Qed.

Lemma responses_encode_parts_arrives parts input : kept_whole (encode_parts parts input).2 = true ->
  decode_parts (Some (JArr (encode_parts parts input).1)) = normal_parts parts.
Proof.
  unfold encode_parts. intros K. kept_split K. destruct K as [K L]. rewrite nbind_fst.
  apply nfilter_map_kept in K. rewrite nfilter_map_fst in *.
  rewrite (omap_total _ id), map_id in * by (eapply Forall_impl; [exact K|]; intros p H; apply (input_part_kept _ H)).
  set (ty := if input then _ else _) in *.
  assert (one_of ty ["input_text"; "output_text"; "text"] = true) as T by by destruct input.
  assert (kept_whole (nfilter_map (encode_visible ty) parts).2 = true ->
    decode_parts (Some (JArr (nfilter_map (encode_visible ty) parts).1)) = normal_parts parts) as B.
  { intros V. apply nfilter_map_kept in V. rewrite nfilter_map_fst. cbn [decode_parts]. clear L.
    induction K as [|p l Hp K IH]; [done|]. inversion_clear V as [|? ? V1 V2].
    destruct (input_part_kept _ Hp) as [_ S]. destruct (responses_encode_visible_arrives _ _ T S V1) as (v & E & D).
    unfold normal_parts in *. cbn [omap list_omap]. rewrite E. cbn [omap list_omap]. rewrite D, IH by done. done. }
  destruct parts as [|[] [|]]; try (exact (B L)); destruct input; exact (B L).
Qed.

(** ** Results *)
Section Outputs.
Context {SJ : SerdeJson}.

Lemma drop_prompt_cache_kept mode : kept_whole (drop_prompt_cache (Some mode)).2 = true -> is_empty mode = true.
Proof. unfold drop_prompt_cache, apply_prompt_cache, nonempty, opt_filter. by destruct mode. Qed.

Lemma keep_one_mode_arrives kept modes item : kept_whole (keep_one_mode kept modes item).2 = true ->
  (keep_one_mode kept modes item).1
  = if kept then item else (apply_prompt_cache item (List.find (fun m => negb (is_empty m)) modes) true).1.
Proof.
  revert kept item. induction modes as [|mode modes IH]; intros kept item K; [by destruct kept|]. cbn [keep_one_mode List.find] in *.
  destruct kept; cbn [negb andb] in *.
  - kept_split K. destruct K as [_ K]. by rewrite nbind_fst, IH.
  - destruct (is_empty mode) eqn:E; cbn [negb] in *; kept_split K; destruct K as [_ K]; by rewrite nbind_fst, IH.
Qed.

Lemma encode_parts_one inner : (forall m p, inner <> PPromptCacheBreakpoint m p) ->
  kept_whole (encode_parts [inner] true).2 = true ->
  has_slot inner /\ kept_whole (encode_inner "input_text" inner).2 = true
  /\ (encode_parts [inner] true).1 = option_list (encode_inner "input_text" inner).1.
Proof.
  intros N K. assert (peel_prompt_cache_all inner = (inner, None)) as P by by destruct inner; try done; destruct (N mode inner).
  unfold encode_parts in *. kept_split K. destruct K as [K L]. rewrite nbind_fst.
  apply nfilter_map_kept in K. rewrite nfilter_map_fst in *. rewrite Forall_singleton in K.
  destruct (input_part_kept _ K) as [E S]. rewrite P in S. cbn [omap list_omap] in *. rewrite E in *. split; [done|].
  assert (kept_whole (nfilter_map (encode_visible "input_text") [inner]).2 = true ->
    kept_whole (encode_inner "input_text" inner).2 = true
    /\ (nfilter_map (encode_visible "input_text") [inner]).1 = option_list (encode_inner "input_text" inner).1) as B.
  { intros V. rewrite nfilter_map_fst. apply nfilter_map_kept in V. rewrite Forall_singleton in V. cbn [omap list_omap].
    unfold encode_visible in *. rewrite P in *. kept_split V. destruct V as [V _]. split; [done|].
    rewrite nbind_fst. by destruct (encode_inner "input_text" inner).1. }
  destruct inner; exact (B L) || by split.
Qed.

Lemma normal_part_marked part inner mode modes : peel_prompt_cache_modes part = (inner, mode :: modes) ->
  normal_part part = normal_part (PPromptCacheBreakpoint mode inner).
Proof.
  intros P. pose proof (peel_not_breakpoint part) as N. unfold normal_part, peel_prompt_cache_all in *. rewrite P in *.
  cbn [peel_prompt_cache_modes fst head] in *.
  assert (peel_prompt_cache_modes inner = (inner, [])) as -> by (destruct inner; try done; by destruct (N mode0 inner)).
  done.
Qed.

Definition json_of (part : IrPart) : option json :=
  match part with PRaw type_name raw => if String.eqb type_name "json" then Some raw else None | _ => None end.

Lemma marked_output_arrives ordered_text part inner mode modes :
  peel_prompt_cache_modes part = (inner, mode :: modes) ->
  kept_whole (encode_marked_output ordered_text part).2 = true ->
  omap decode_part (encode_marked_output ordered_text part).1
  = match json_of inner with
    | Some raw => if ordered_text then [marked (List.find (fun m => negb (is_empty m)) (mode :: modes)) (PText (to_string raw))] else []
    | None => option_list (normal_part part)
    end
  /\ bool_decide ((encode_marked_output ordered_text part).1 = []) = is_some (json_of inner) && negb ordered_text.
Proof.
  intros P. pose proof (peel_not_breakpoint part) as N. unfold peel_prompt_cache_all in N.
  unfold encode_marked_output. rewrite P in *. cbn [fst] in N. change (match inner with PRaw _ _ => _ | _ => None end) with (json_of inner).
  destruct (json_of inner) as [raw|] eqn:J.
  - destruct ordered_text; intros K; [|by rewrite nbind_fst]. kept_split K. destruct K as [K _]. rewrite nbind_fst.
    cbn [quiet fst]. rewrite keep_one_mode_arrives by done. cbn [omap list_omap].
    rewrite responses_text_block_arrives by done. by split.
  - intros K. rewrite (normal_part_marked _ _ _ _ P). kept_split K. destruct K as (K1 & K2 & _).
    destruct (encode_parts_one inner) as (S & KI & E); [intros m p; apply (N m p)|done|]. clear K1.
    rewrite !nbind_fst. cbn [quiet fst head] in *. rewrite E in *.
    assert (peel_prompt_cache_all (PPromptCacheBreakpoint mode inner) = (inner, Some mode)) as PA.
    { unfold peel_prompt_cache_all. cbn. by destruct inner; try done; destruct (N mode0 inner). }
    destruct (responses_encode_visible_arrives "input_text" (PPromptCacheBreakpoint mode inner)) as (v & Ev & D); [done|by rewrite PA| |].
    { unfold encode_visible. rewrite PA. kept_split KI. rewrite nbind_snd, kept_whole_app, KI. cbn [andb].
      destruct (encode_inner "input_text" inner).1 as [w|]; [|done]. rewrite nbind_snd.
      unfold apply_prompt_cache. by destruct (nonempty (Some mode)). }
    rewrite <- D. unfold encode_visible in Ev. rewrite PA, nbind_fst in Ev.
    destruct (encode_inner "input_text" inner).1 as [w|]; [|done]. rewrite nbind_fst in Ev. cbn [quiet fst] in Ev.
    injection Ev as <-. cbn [option_list].
    change (option_list (Some w)) with [w]. unfold apply_prompt_cache in *.
    destruct (nonempty (Some mode)) as [m|] eqn:M; [|by cbn; destruct (decode_part w)].
    rewrite nmap_fst. cbn [map]. assert (nonempty (Some m) = Some m) as -> by by (rewrite <- M, nonempty_idem).
    cbn [fst quiet negb]. cbn [omap list_omap]. by destruct (decode_part _).
Qed.

Lemma option_list_some {A} (a : A) : option_list (Some a) = [a].
Proof. done. Qed.

Lemma unmarked value : (apply_prompt_cache value None true).1 = value.
Proof. done. Qed.

Lemma output_part_arrives idx ordered_text part : kept_whole (encode_output_part idx ordered_text part).2 = true ->
  omap decode_part (encode_output_part idx ordered_text part).1 = normal_output_part ordered_text part
  /\ bool_decide ((encode_output_part idx ordered_text part).1 = []) = negb (fills_content ordered_text part).
Proof.
  intros K. destruct part as [text|url detail owner id|media data|text signature|type_name raw|source media name cit ctx|data format|mode inner];
    cbn [encode_output_part normal_output_part] in *; unfold fills_content; cbn [peel_prompt_cache_modes fst].
  - change (has_breakpoint (PText text)) with false. cbv iota. destruct (ordered_text && _); [|done]. cbn [quiet fst omap list_omap].
    by rewrite <- (unmarked (text_block _ _)), responses_text_block_arrives.
  - destruct (blank_image url id) eqn:B; [by rewrite nbind_snd in K|]. destruct (empty_data_url url); [by rewrite nbind_snd in K|].
    cbn [quiet fst omap list_omap]. rewrite <- (unmarked (encode_input_image _ _ _)), responses_image_block_arrives; [done|by apply blank_image_empty].
  - kept_split K. destruct K as [K _]. rewrite nbind_fst. unfold encode_bytes_image in *.
    destruct (blank data); [by destruct (left_out_kept _ _ K)|]. cbn [quiet fst]. rewrite option_list_some. cbn [omap list_omap].
    by rewrite <- (unmarked (data_image _ _)), data_image_arrives.
  - by unfold no_output_slot in K; rewrite nbind_snd in K.
  - destruct (String.eqb type_name "json"); cbn [negb orb].
    + destruct ordered_text; [|done]. cbn [quiet fst omap list_omap]. by rewrite <- (unmarked (text_block _ _)), responses_text_block_arrives.
    + destruct (function_response_image (PRaw type_name raw)) as [[media data]|]; [|by unfold no_output_slot in K; rewrite nbind_snd in K].
      cbn [quiet fst omap list_omap]. by rewrite <- (unmarked (data_image _ _)), data_image_arrives.
  - kept_split K. destruct K as [K _]. rewrite nbind_fst. destruct (document_kept _ _ _ _ K) as [v E]. rewrite E.
    cbn [quiet fst]. rewrite option_list_some. cbn [omap list_omap].
    by rewrite <- (unmarked v), (responses_document_block_arrives source media name cit ctx "input_text").
  - by unfold no_output_slot in K; rewrite nbind_snd in K.
  - set (part := PPromptCacheBreakpoint mode inner) in *. destruct (peel_prompt_cache_modes inner) as [p modes] eqn:Q.
    assert (peel_prompt_cache_modes part = (p, mode :: modes)) as P by by unfold part; cbn; rewrite Q.
    destruct (marked_output_arrives _ _ _ _ _ P K) as [A B]. rewrite A, B. cbn [fst].
    change (has_breakpoint part) with true. split; [done|]. unfold json_of. destruct p; try done. cbv iota.
    destruct (String.eqb type_name "json"); [|done]. by destruct ordered_text.
Qed.

Lemma output_parts_arrive idx ordered_text parts : kept_whole (nmap (encode_output_part idx ordered_text) parts).2 = true ->
  omap decode_part (concat (nmap (encode_output_part idx ordered_text) parts).1)
    = concat (map (normal_output_part ordered_text) parts)
  /\ bool_decide (concat (nmap (encode_output_part idx ordered_text) parts).1 = [])
    = negb (existsb (fills_content ordered_text) parts).
Proof.
  rewrite nmap_kept, nmap_fst. induction 1 as [|part l K _ [IH1 IH2]]; [done|]. cbn [map concat existsb].
  destruct (output_part_arrives _ _ _ K) as [A B]. rewrite omap_app, A, IH1. split; [done|].
  rewrite negb_orb, <- B, <- IH2. by destruct (encode_output_part idx ordered_text part).1.
Qed.

Lemma function_output_arrives call_id output parts is_error idx :
  kept_whole (encode_function_output call_id output parts is_error idx).2 = true ->
  decode_input_item (encode_function_output call_id output parts is_error idx).1
  = let '(output, parts) := normal_output output parts in [IFunctionOutput call_id output parts false].
Proof.
  unfold encode_function_output, normal_output. intros K. kept_split K. destruct K as (_ & K & _). rewrite !nbind_fst. cbn [quiet fst].
  set (ordered_text := existsb nonempty_text parts) in *. set (text := if ordered_text then _ else _).
  destruct (output_parts_arrive _ _ _ K) as [A B].
  assert (forall v, decode_input_item (jobj [("type", JStr "function_call_output"); ("call_id", JStr call_id); ("output", v)])
    = let '(output, parts) := match v with
        | JArr arr => read_output (omap decode_part arr) | other => (value_as_string other, []) end in
      [IFunctionOutput call_id output parts false]) as R.
  { intros v. unfold decode_input_item, decode_typed_item, decode_function_output, function_output. read_block.
    destruct v as [| | | |l|]; try done. unfold read_output.
    by match goal with |- context [existsb ?f ?d] => destruct (existsb f d) end. }
  rewrite R. destruct (concat (nmap _ parts).1) as [|x l] eqn:C.
  - rewrite bool_decide_true in B by done. destruct (existsb (fills_content ordered_text) parts); [done|]. by destruct (negb ordered_text && _).
  - rewrite bool_decide_false in B by done. destruct (existsb (fills_content ordered_text) parts); [|done]. f_equal. f_equal.
    rewrite omap_app, A. f_equal. destruct (is_empty text); [done|]. cbn [omap list_omap].
    by rewrite <- (unmarked (text_block _ _)), responses_text_block_arrives.
Qed.
End Outputs.

(** ** Items *)
Section Items.
Context {SJ : SerdeJson}.

Lemma read_message role content : role <> "assistant" ->
  decode_input_item (message role content)
  = let parts := decode_parts (Some (JArr content)) in
    if String.eqb role "system" then [ISystem (parts_text parts) (role_text_breakpoint parts) (role_content_parts parts)]
    else if String.eqb role "developer" then
      [IDeveloper (parts_text parts) (role_text_breakpoint parts) (role_content_parts parts)]
    else [IUser parts].
Proof.
  intros N. unfold decode_input_item, decode_typed_item, decode_message_item, message. read_block.
  cbn [text_or_empty unwrap_or is_empty orb]. by rewrite (str_eqb_neq role "assistant" N).
Qed.

Lemma read_assistant content phase :
  decode_input_item (put "phase" (JStr <$> assistant_phase phase)
    (jobj [("type", JStr "message"); ("role", JStr "assistant"); ("content", JArr content)]))
  = [IAssistant (decode_parts (Some (JArr content))) (assistant_phase phase)].
Proof.
  unfold assistant_phase. pose proof (not_blank_idem phase) as I. destruct (not_blank phase) as [p|]; [|reflexivity].
  cbn [fmap option_fmap option_map put]. unfold decode_input_item, decode_typed_item, decode_message_item. read_block.
  cbn [text_or_empty unwrap_or is_empty orb]. eqb_literals. by rewrite I.
Qed.

Lemma read_reasoning encrypted summary :
  decode_input_item (encode_reasoning encrypted summary None)
  = [IReasoning encrypted summary (Some (encode_reasoning encrypted summary None))].
Proof. by destruct encrypted, summary. Qed.

Lemma read_call_item call_id name arguments restore :
  decode_input_item (encode_function_call call_id name arguments restore)
  = [IFunctionCall call_id (normal_name restore name) arguments None].
Proof.
  unfold encode_function_call, normal_name. destruct (if restore then _ else _) as [[ns leaf]|] eqn:E; [|reflexivity].
  assert (is_empty ns = false) as N.
  { destruct restore; [|done]. unfold split_namespace_name in E. destruct (split_once "." name) as [[a b]|]; [|done].
    cbn in E. destruct (is_empty a) eqn:A; [done|]. cbn in E. destruct (is_empty b); [done|]. by injection E as <- <-. }
  unfold decode_input_item, decode_typed_item, qualify_call_name, call_id_of. read_block.
  cbn [text_or_empty unwrap_or fmap option_fmap option_map value_as_string]. rewrite N. cbn [negb andb].
  by destruct (starts_with (ns +:+ ".") leaf).
Qed.

Lemma read_custom_item call_id name input it :
  decode_input_item (custom_call_item call_id name input it)
  = [ICustomToolCall call_id name input (Some (custom_call_item call_id name input it))].
Proof.
  unfold custom_call_item. set (o := unwrap_or (opt_filter is_object it) _).
  assert (is_object o = true) as O by (subst o; destruct it as [[]|]; done). clearbody o.
  set (v := index_set _ "input" _).
  assert (forall k, get v k = if String.eqb k "input" then Some (JStr input) else if String.eqb k "name" then Some (JStr name)
    else if String.eqb k "call_id" then Some (JStr call_id)
    else if String.eqb k "type" then Some (JStr "custom_tool_call") else get o k) as G
    by (intros k; unfold v; by rewrite !get_index_set by by rewrite ?is_object_index_set).
  assert (is_object v = true) as V by (unfold v; by rewrite !is_object_index_set). clearbody v.
  transitivity (decode_typed_item (text_or_empty (get_str v "type")) v); [by destruct v|].
  unfold decode_typed_item, call_id_of, get_str, str_field. rewrite !G. eqb_literals.
  cbn [mbind option_bind as_str text_or_empty unwrap_or]. by eqb_literals.
Qed.

(** What an item adds. *)
Record adds (t t' : Input) (plain : list string) (read : list IrItem) : Prop := mk_adds {
  adds_instructions : in_instructions t' = in_instructions t ++ plain;
  adds_items : concat (map decode_input_item (in_items t')) = concat (map decode_input_item (in_items t)) ++ read
}.

Lemma adds_push values t read : concat (map decode_input_item values) = read -> adds t (push_items values t) [] read.
Proof. intros <-. split; [by rewrite app_nil_r|]. cbn [push_items in_items]. by rewrite map_app, concat_app. Qed.

Lemma adds_one value t read : decode_input_item value = read -> adds t (push_items [value] t) [] read.
Proof. intros E. apply adds_push. cbn. by rewrite app_nil_r. Qed.

Lemma adds_nothing t : adds t t [] [].
Proof. split; by rewrite app_nil_r. Qed.

Lemma adds_trans t1 t2 t3 p1 p2 r1 r2 : adds t1 t2 p1 r1 -> adds t2 t3 p2 r2 -> adds t1 t3 (p1 ++ p2) (r1 ++ r2).
Proof. intros [A1 B1] [A2 B2]. split; [by rewrite A2, A1, app_assoc|by rewrite B2, B1, app_assoc]. Qed.

Lemma role_arrives idx role c text mode content_parts t : (role = "system" \/ role = "developer") ->
  role_is_read mode content_parts = true ->
  kept_whole (encode_role idx role c text mode content_parts t).2 = true ->
  adds t (encode_role idx role c text mode content_parts t).1
    (match content_parts with [] => if is_none (nonempty mode) then [text] else [] | _ => [] end)
    (normal_role (if String.eqb role "system" then ISystem else IDeveloper) text mode content_parts).
Proof.
  intros R T K. unfold encode_role, normal_role in *. destruct content_parts as [|p l].
  - destruct (nonempty mode) as [m|] eqn:M.
    + unfold role_is_read in T. by rewrite M in T.
    + rewrite !nbind_fst. cbn [quiet fst]. split; cbn; [done|by rewrite app_nil_r].
  - kept_split K. destruct K as [K _]. rewrite nbind_fst. cbn [quiet fst]. apply adds_one.
    rewrite read_message by (destruct R as [-> | ->]; done). cbv zeta. rewrite (responses_encode_parts_arrives _ _ K).
    by destruct R as [-> | ->].
Qed.

Lemma signed_arrive parts :
  concat (map decode_input_item (peel_signed_thinking parts).1.1) = omap normal_thinking parts
  /\ (peel_signed_thinking parts).1.2 = List.filter (fun part => negb (is_signed_thinking part)) parts.
Proof.
  unfold peel_signed_thinking. rewrite nbind_fst. cbn [quiet fst snd]. split; [|done].
  induction parts as [|part parts IH]; [done|]. destruct part; cbn [omap list_omap normal_thinking]; try exact IH.
  destruct (nonempty signature); [|exact IH]. cbn [fmap option_fmap option_map map concat].
  rewrite read_reasoning, IH. done.
Qed.

Lemma assistant_arrives idx parts phase t : kept_whole (encode_assistant idx parts phase t).2 = true ->
  adds t (encode_assistant idx parts phase t).1 [] (normal_item true (IAssistant parts phase)).
Proof.
  intros K. unfold encode_assistant in *. destruct (signed_arrive parts) as [S R]. kept_split K. destruct K as [_ K].
  rewrite nbind_fst. destruct (peel_signed_thinking parts).1 as [signed rest]. cbn [fst snd] in S, R. subst rest.
  cbn [normal_item]. set (rest := List.filter _ parts) in *. destruct (negb _ || negb _).
  - kept_split K. destruct K as [K _]. rewrite nbind_fst. cbn [quiet fst].
    apply (adds_trans t (push_items signed t) _ [] []); [by apply adds_push|]. apply adds_one. by rewrite read_assistant, (responses_encode_parts_arrives _ _ K).
  - rewrite nbind_fst, app_nil_r. cbn [quiet fst]. by apply adds_push.
Qed.

Lemma item_arrives restore idx item t : texts_are_read item = true ->
  kept_whole (encode_item restore idx item t).2 = true ->
  adds t (encode_item restore idx item t).1 (option_list (plain_role item)) (normal_item restore item).
Proof.
  intros T K. destruct item as [text mode cp|raw|raw|text mode cp|parts|parts phase|call_id name arguments sig|call_id name input it
    |call_id output parts is_error|enc sum raw|kind raw|type_name raw]; cbn [encode_item] in *.
  - pose proof (role_arrives _ _ _ _ _ _ _ (or_introl eq_refl) T K) as A. cbn [plain_role normal_item]. destruct cp; [|exact A].
    by destruct (nonempty mode).
  - by rewrite nbind_snd in K.
  - by rewrite nbind_snd in K.
  - pose proof (role_arrives _ _ _ _ _ _ _ (or_intror eq_refl) T K) as A. cbn [plain_role normal_item]. destruct cp; [|exact A].
    destruct (nonempty mode) eqn:M; [exact A|]. unfold encode_role in K. by rewrite M, nbind_snd in K.
  - kept_split K. destruct K as [K _]. rewrite nbind_fst. cbn [quiet fst]. apply adds_one.
    rewrite read_message by done. cbv zeta. by rewrite (responses_encode_parts_arrives _ _ K).
  - by apply assistant_arrives.
  - rewrite nbind_fst. cbn [quiet fst]. apply adds_one, read_call_item.
  - apply adds_one, read_custom_item.
  - kept_split K. destruct K as [K _]. rewrite nbind_fst. cbn [quiet fst]. apply adds_one, function_output_arrives, K.
  - apply adds_one. destruct raw; [done|]. apply read_reasoning.
  - by apply adds_one.
  - destruct (one_of type_name _); [by rewrite nbind_snd in K|]. by apply adds_one.
Qed.

Lemma items_arrive restore l : forallb texts_are_read l = true -> forall idx t, kept_whole (encode_items_from restore idx l t).2 = true ->
  adds t (encode_items_from restore idx l t).1 (omap plain_role l) (concat (map (normal_item restore) l)).
Proof.
  induction l as [|item l IH]; intros T idx t K; [apply adds_nothing|]. cbn [encode_items_from] in *. kept_split K.
  cbn [forallb] in T. apply andb_true_iff in T as [T1 T2].
  destruct K as [K1 K2]. rewrite nbind_fst.
  assert (omap plain_role (item :: l) = option_list (plain_role item) ++ omap plain_role l) as ->
    by (cbn; by destruct (plain_role item)).
  cbn [map concat]. eapply adds_trans; [by apply item_arrives|]. by apply (IH T2).
Qed.
End Items.

(** ** The body *)
Lemma writes_unless {A} rejected (o : option A) key v c : writes [key] (unless_rejected rejected o key v c).
Proof.
  apply writes_at. intros body _. unfold unless_rejected. destruct (rejected && is_some o); [|rewrite set_when_fst; by eexists].
  rewrite nbind_fst. by exists None.
Qed.

Lemma responses_choice_writes choice : writes ["tool_choice"] (encode_tool_choice choice).
Proof. apply writes_at. intros body _. destruct choice; [by exists None|by eexists (Some _)..]. Qed.

Lemma writes_options s : writes ["prompt_cache_options"] (encode_prompt_cache_options s).
Proof.
  apply writes_at. intros body _. unfold encode_prompt_cache_options. destruct (_ && _); [by exists None|].
  rewrite !nbind_fst. by eexists (Some _).
Qed.

Lemma writes_moderation s : writes ["moderation"] (encode_moderation s).
Proof.
  apply writes_at. intros body _. unfold encode_moderation. destruct (_ && _ && _); [by exists None|].
  rewrite !nbind_fst. by eexists (Some _).
Qed.

Lemma writes_verbosity s : writes ["text"] (encode_verbosity s).
Proof.
  apply writes_at. intros body _. unfold encode_verbosity. destruct (not_blank _); [rewrite nbind_fst; by eexists (Some _)|by exists None].
Qed.

Lemma writes_obfuscation s : writes ["stream_options"] (encode_obfuscation s).
Proof.
  apply writes_at. intros body _. unfold encode_obfuscation.
  destruct (sp_include_obfuscation s); [rewrite nbind_fst; by eexists (Some _)|by exists None].
Qed.

Lemma writes_thoughts s : writes ["reasoning"] (encode_include_thoughts s).
Proof.
  apply writes_at. intros body _. unfold encode_include_thoughts.
  destruct (sp_include_thoughts s) as [[]|]; rewrite ?nbind_fst; [by eexists (Some _)|by exists None|by exists None].
Qed.

Lemma writes_text_format s : writes ["text"] (encode_text_format s).
Proof.
  apply writes_at. intros body _. unfold encode_text_format.
  destruct (sp_json_schema s); [rewrite nbind_fst; destruct (official_json_schema _ _).1 as [[schema name]|]; [by eexists (Some _)|]|];
    (destruct (bool_decide _); [by eexists (Some _)|by exists None]).
Qed.

#[local] Hint Resolve writes_set_when writes_only_note writes_unless responses_choice_writes writes_options writes_moderation
  writes_verbosity writes_obfuscation writes_thoughts writes_text_format : responses_writes.

(** The sampling steps leave the turns and the tools alone. *)
Lemma sampling_leaves ir body k : is_object body = true -> one_of k ["model"; "input"; "instructions"; "tools"] = true ->
  get (encode_sampling ir body).1 k = get body k.
Proof.
  intros O K. assert (exists ks, Forall2 writes ks (sampling_steps ir)
    /\ forall k, one_of k ["model"; "input"; "instructions"; "tools"] = true -> one_of k (concat ks) = false) as (ks & F & N).
  { eexists. split.
    - unfold sampling_steps, encode_responses_request_fields, kept_text. cbn [app].
      repeat (apply Forall2_cons_2; [solve [eauto with responses_writes]|]). apply Forall2_nil_2.
    - intros k' [<- | [<- | [<- | [<- | []]]]]%one_of_In; reflexivity. }
  apply (writes_steps _ _ F body O). by apply N.
Qed.

Section Request.
Context {SJ : SerdeJson} (char_lower : string -> option string).

Lemma read_function_tool profile name description parameters strict :
  decode_tool (encode_tool (PtFunction name description parameters strict))
  = normal_tool (keeps_namespaces profile) (fun _ => name) (TFunction name description parameters strict).
Proof.
  cbn [encode_tool normal_tool]. set (p := if bool_decide _ then _ else _).
  unfold decode_tool, decode_function_or_messages, looks_like_function, function_from, bool_field, get_str.
  destruct strict as [b|]; cbn [fmap option_fmap option_map put]; reflexivity.
Qed.

(** The name of a tool in the spelling of the profile. *)
Definition sent_tool_name (profile : ResolvedProfile) (name : string) : string :=
  apply_tool_name_case char_lower name (fp ← fingerprint profile; fp_tool_name_case fp).

(** C7. What the Responses map does not report arrives, but for what its reader is
    known to lose of a system or developer item: when each of these is a text without
    a cache mark, or has parts that are read as plain texts or as several of which
    one is marked, the tools are prepared, the request is encoded and the loss report
    names nothing as dropped or degraded, decoding the body gives the model, the items and the tools of the request in the
    normal form of the dialect - the texts of the system as one text of
    instructions, then every turn, part, call, result and reasoning item in order. *)
Theorem responses_request_arrives profile ir tools noted_tools body noted :
  forallb texts_are_read (items ir) = true ->
  prepare_tools char_lower Responses ir profile = Ok (tools, noted_tools) ->
  encode ir tools profile noted_tools = Ok (body, noted) ->
  lossy (mkReport (noted_tools ++ noted)) = [] ->
  decode body
  = Ok (mkRequest (model ir) (normal_items (keeps_namespaces profile) (items ir))
          (map (normal_tool (keeps_namespaces profile) (sent_tool_name profile)) (Ir.tools ir)) (decode_sampling body),
        mkReport []).
Proof.
  intros TR P E L. apply kept_whole_lossy in L. rewrite kept_whole_app, andb_true_iff in L. destruct L as [K1 K2].
  pose proof (prepare_from_arrives char_lower _ _ _ (or_intror eq_refl) encode_tool (read_function_tool profile)
    (fun _ => eq_refl) _ _ _ _ P K1) as Tools.
  unfold encode in E. destruct (encode_items ir _) as [[instructions input] events] eqn:I.
  destruct (check_input _ _ _) as [|err]; cbn [ebind] in E; [|done]. destruct (check_sampling ir); cbn [ebind] in E; [|done].
  set (body0 := put "tools" _ _) in E.
  apply Ok_inj in E. pose proof (f_equal fst E) as B. pose proof (f_equal snd E) as N.
  rewrite nbind_fst in B. rewrite nbind_snd in N. cbn [fst snd] in B, N. subst body noted.
  rewrite kept_whole_app, andb_true_iff in K2. destruct K2 as [KI _].
  assert (is_object body0 = true) as O by (subst body0; by rewrite !is_object_put).
  assert (forall k, one_of k ["model"; "input"; "instructions"; "tools"] = true ->
    get (encode_sampling ir body0).1 k = get body0 k) as G by (intros k Hk; by apply sampling_leaves).
  change (Arrival.keeps_namespaces Responses (d_tool_type_policy (dialect profile))) with (keeps_namespaces profile) in Tools.
  unfold encode_items in I. pose proof (items_arrive (keeps_namespaces profile) (items ir) TR 0 (mkInput [] [])) as A.
  destruct (encode_items_from _ 0 (items ir) (mkInput [] [])) as [t ev]. cbn [nbind quiet fst snd app] in A, I.
  injection I as <- <- <-. rewrite app_nil_r in KI. destruct (A KI) as [A1 A2]. cbn [in_instructions in_items map concat app] in A1, A2.
  unfold decode, str_field, get_array. rewrite !G by done. subst body0.
  rewrite !get_put, !get_jobj by (by rewrite ?is_object_put). cbn [assoc_last]. eqb_literals. rewrite !opt_or_none.
  cbn [mbind option_bind as_str opt_or fmap]. f_equal. f_equal. f_equal.
  - unfold normal_items. rewrite A1. cbn [decode_input]. rewrite A2. f_equal. by destruct (omap plain_role (items ir)).
  - change (sent_tool_name profile) with (fun name => apply_tool_name_case char_lower name
      (fp ← fingerprint profile; fp_tool_name_case fp)). rewrite <- Tools.
    destruct tools; [done|]. cbn [if_any mbind option_bind as_array unwrap_or opt_or]. by rewrite map_map.
Qed.
End Request.

(** ** At a request *)
#[local] Existing Instance bits_codec.

Definition responses_profile : ResolvedProfile :=
  mkProfile 1 "openai" None (mkDialect (Some Responses) [] Replace PolicyHardError UnknownHardError)
    (mkHttp (Some "https://api.test") None None [] Replace None None None None)
    None [] None (betas_default_for (Some Responses) false).

(** Two texts of the system, a marked part, an image with detail, signed
    thinking, a call of a namespaced tool and a result with a file. *)
Definition sample_items : list IrItem :=
  [ ISystem "Be brief." None []; ISystem "Be kind." None [];
    IUser [PPromptCacheBreakpoint "explicit" (PText "Read this."); PImageUrl "https://a.test/x.png" (Some "high") None None;
           PDocument (SrcBase64 "JVBERi0") "" (Some "a.pdf") None None];
    IAssistant [PThinking "Look first." (Some "sig"); PText "Let me look."] (Some "commentary");
    IFunctionCall "call_1" "fs.read" "{}" None;
    IFunctionOutput "call_1" "" [PText "one"; PDocument (SrcFileId "file-1") "" None None None] false;
    IReasoning (Some "enc") None None ].

Definition sample_ir : IrRequest :=
  mkRequest "gpt-5" sample_items [TFunction "look" "Looks." (normalize_object_schema_required empty_parameters) None]
    (sampling (request_new "gpt-5" [])).

Definition sample_tools : list PreparedTool :=
  match prepare_tools ascii_lower Responses sample_ir responses_profile with Ok (tools, _) => tools | Err _ => [] end.

Definition sample_sent : json * list LossEvent :=
  match encode sample_ir sample_tools responses_profile [] with Ok sent => sent | Err _ => (JNull, []) end.

Lemma responses_request_arrives_witness :
  exists s, decode sample_sent.1
  = Ok (mkRequest "gpt-5"
          [ ISystem ("Be brief." +:+ blank_line +:+ "Be kind.") None [];
            IUser [PPromptCacheBreakpoint "explicit" (PText "Read this."); PImageUrl "https://a.test/x.png" (Some "high") None None;
                   PDocument (SrcBase64 "JVBERi0") "application/pdf" (Some "a.pdf") None None];
            IReasoning (Some "sig") (Some "Look first.") (Some (encode_reasoning (Some "sig") (Some "Look first.") None));
            IAssistant [PText "Let me look."] (Some "commentary");
            IFunctionCall "call_1" "fs.read" "{}" None;
            IFunctionOutput "call_1" "" [PText "one"; PDocument (SrcFileId "file-1") "" None None None] false;
            IReasoning (Some "enc") None (Some (encode_reasoning (Some "enc") None None)) ]
          (Ir.tools sample_ir) s, mkReport []).
Proof.
  exists (decode_sampling sample_sent.1).
  rewrite (responses_request_arrives ascii_lower responses_profile sample_ir sample_tools [] sample_sent.1 sample_sent.2).
  - vm_compute. reflexivity.
  - vm_compute. reflexivity.
  - vm_compute. reflexivity.
  - vm_compute. reflexivity.
  - vm_compute. reflexivity.
Defined.
