(* ===== verification/Requests.v ===== *)
(** * Requests: a request from one dialect to another

    [decode] and [encode] of [W/map/mod.rs]: the body of a request becomes the
    internal request of its dialect, and an internal request becomes a body
    under the profile: its prefix is put before the system text, the tools are
    prepared, the dialect writes the body, and the extra and the forbidden
    fields of the fingerprint are applied last.  The text of a JSON error and
    the lower case of characters outside ASCII are arguments. *)
From stdpp Require Import pretty.
From S2P Require Import Prelude Text Json JsonCodec Floats Ir ProfileTypes StreamCore Usage Shapes Chat Loss RequestCore.
From S2P Require Import Schema Tools Arrival.
From S2P Require ChatRequest ChatSampling MessagesRequest MessagesSampling MessagesLimits CacheBreakpoints MessagesBody.
From S2P Require GeminiRequest GeminiEncode GeminiTurns ConverseRequest ConverseEncode ConverseTurns.
From S2P Require ResponsesRequest ResponsesEncode ResponsesArrives MessagesEncode.

Definition quoted_wire (wire : Wire) : string := "request body for wire `" +:+ wire_as_str wire +:+ "`".

(** ** The profile on a request *)
Definition is_system (item : IrItem) : bool := match item with ISystem _ _ _ => true | _ => false end.

(** [{prefix}{text}], unless it is there. *)
Definition with_prefix (prefix text : string) : string := if starts_with prefix text then text else prefix +:+ text.

Fixpoint prefix_first (prefix : string) (l : list IrItem) : option (list IrItem) :=
  match l with
  | [] => None
  | ISystem text mode content_parts :: l => Some (ISystem (with_prefix prefix text) mode content_parts :: l)
  | item :: l => (fun l => item :: l) <$> prefix_first prefix l
  end.

Definition apply_system_prefix (ir : IrRequest) (profile : ResolvedProfile) : IrRequest :=
  match (fp ← fingerprint profile; fp_system_prompt_prefix fp) with
  | None => ir
  | Some prefix =>
      if is_empty prefix then ir
      else mkRequest (model ir) (unwrap_or (prefix_first prefix (items ir)) (ISystem prefix None [] :: items ir))
             (tools ir) (sampling ir)
  end.

(** [ir.sampling.store = None] *)
Definition no_store (s : IrSampling) : IrSampling :=
  {| sp_temperature := sp_temperature s; sp_top_p := sp_top_p s; sp_top_k := sp_top_k s;
     sp_max_tokens := sp_max_tokens s; sp_stop := sp_stop s; sp_tool_choice := sp_tool_choice s;
     sp_parallel_tool_calls := sp_parallel_tool_calls s; sp_store := None;
     sp_previous_response_id := sp_previous_response_id s; sp_cache := sp_cache s; sp_stream := sp_stream s;
     sp_include_thoughts := sp_include_thoughts s; sp_thinking_budget := sp_thinking_budget s;
     sp_reasoning_effort := sp_reasoning_effort s; sp_max_reasoning_tokens := sp_max_reasoning_tokens s;
     sp_json_schema := sp_json_schema s; sp_json_schema_name := sp_json_schema_name s;
     sp_json_schema_description := sp_json_schema_description s; sp_json_schema_strict := sp_json_schema_strict s;
     sp_json_object := sp_json_object s; sp_include := sp_include s; sp_prompt_cache_key := sp_prompt_cache_key s;
     sp_prompt_cache_retention := sp_prompt_cache_retention s; sp_prompt_cache_mode := sp_prompt_cache_mode s;
     sp_prompt_cache_ttl := sp_prompt_cache_ttl s; sp_top_logprobs := sp_top_logprobs s;
     sp_moderation_model := sp_moderation_model s; sp_moderation_input := sp_moderation_input s;
     sp_moderation_output := sp_moderation_output s; sp_include_obfuscation := sp_include_obfuscation s;
     sp_user := sp_user s; sp_verbosity := sp_verbosity s; sp_safety_identifier := sp_safety_identifier s;
     sp_metadata := sp_metadata s; sp_frequency_penalty := sp_frequency_penalty s;
     sp_presence_penalty := sp_presence_penalty s; sp_seed := sp_seed s; sp_n := sp_n s;
     sp_service_tier := sp_service_tier s; sp_output_modalities := sp_output_modalities s;
     sp_audio_voice := sp_audio_voice s; sp_audio_format := sp_audio_format s; sp_logprobs := sp_logprobs s;
     sp_logit_bias := sp_logit_bias s; sp_prediction := sp_prediction s;
     sp_web_search_options := sp_web_search_options s; sp_inference_geo := sp_inference_geo s;
     sp_performance_latency := sp_performance_latency s; sp_previous_message_id := sp_previous_message_id s;
     sp_response_field_paths := sp_response_field_paths s;
     sp_additional_request_fields := sp_additional_request_fields s; sp_prompt_variables := sp_prompt_variables s;
     sp_guardrail := sp_guardrail s; sp_container := sp_container s;
     sp_context_management := sp_context_management s; sp_mcp_servers := sp_mcp_servers s;
     sp_media_resolution := sp_media_resolution s; sp_image_config := sp_image_config s;
     sp_audio_transcription_config := sp_audio_transcription_config s;
     sp_translation_config := sp_translation_config s; sp_affective_dialog := sp_affective_dialog s;
     sp_enhanced_civic_answers := sp_enhanced_civic_answers s; sp_multi_speaker_speech := sp_multi_speaker_speech s;
     sp_cached_content := sp_cached_content s; sp_safety_settings := sp_safety_settings s;
     sp_request_labels := sp_request_labels s; sp_truncation := sp_truncation s;
     sp_max_tool_calls := sp_max_tool_calls s; sp_background := sp_background s;
     sp_conversation := sp_conversation s; sp_responses_context_management := sp_responses_context_management s;
     sp_messages_thinking := sp_messages_thinking s |}.

Definition strip_or_refuse_store (ir : IrRequest) (profile : ResolvedProfile) : noted_or_error IrRequest :=
  match fingerprint profile with
  | None => Ok (quiet ir)
  | Some fp =>
      if is_none (sp_store (sampling ir)) then Ok (quiet ir)
      else if negb (one_of "store" (fp_forbidden_body_fields fp)) then Ok (quiet ir)
      else
        match fp_forbidden_field_policy fp with
        | ForbiddenHardError => Err (hard "sampling.store" "forbidden body field `store`")
        | Strip =>
            lift (let! _ := note "sampling.store" Drop "forbidden_body_fields strip" in
                  quiet (mkRequest (model ir) (items ir) (tools ir) (no_store (sampling ir))))
        end
  end.

Definition merge_extra_body (body : json) (profile : ResolvedProfile) : json :=
  match fingerprint profile, body with
  | Some fp, JObj _ => fold_left (fun body kv => index_set body kv.1 kv.2) (fp_extra_body fp) body
  | _, _ => body
  end.

Fixpoint forbid (policy : ForbiddenFieldPolicy) (keys : list string) (body : json) : noted_or_error json :=
  match keys with
  | [] => Ok (quiet body)
  | key :: keys =>
      if is_none (get body key) then forbid policy keys body
      else
        match policy with
        | ForbiddenHardError => Err (hard key ("forbidden body field `" +:+ key +:+ "`"))
        | Strip =>
            let*! _ := lift (note key Drop "forbidden_body_fields strip") in
            forbid policy keys (MessagesSampling.remove_key key body)
        end
  end.

Definition apply_forbidden_fields (body : json) (profile : ResolvedProfile) : noted_or_error json :=
  match fingerprint profile with
  | None => Ok (quiet body)
  | Some fp => forbid (fp_forbidden_field_policy fp) (fp_forbidden_body_fields fp) body
  end.

Section Requests.
Context {SJ : SerdeJson} (json_error : string -> string) (char_lower : string -> option string).

(** ** Reading *)
Definition decode (wire : Wire) (bytes : string) : result MapError (IrRequest * LossReport) :=
  match from_str bytes with
  | None => Err (Invalid (quoted_wire wire +:+ " is invalid JSON: " +:+ json_error bytes))
  | Some value =>
      if negb (is_object value) then Err (Invalid (quoted_wire wire +:+ " must be a JSON object, got " +:+ json_kind value))
      else
        match wire with
        | ChatCompletions => ChatRequest.decode value
        | Messages => MessagesRequest.decode value
        | Responses => ResponsesRequest.decode value
        | Gemini => GeminiRequest.decode value
        | Converse => ConverseRequest.decode value
        end
  end.

(** ** Writing *)

(** The body of the dialect; [report] is what was noted before. *)
Definition encode_wire (wire : Wire) (ir : IrRequest) (prepared : list PreparedTool) (profile : ResolvedProfile)
    (report : list LossEvent) : outcome MapError (noted json) :=
  match wire with
  | ChatCompletions => Some (ChatRequest.encode ir prepared report)
  | Messages => MessagesBody.encode ir prepared report
  | Responses => Some (ResponsesEncode.encode ir prepared profile report)
  | Gemini => Some (GeminiEncode.encode ir prepared report)
  | Converse => Some (ConverseEncode.encode ir prepared report)
  end.

(** What the dialect writes for a request of this profile, and the notes. *)
Definition dialect_body (wire : Wire) (ir : IrRequest) (profile : ResolvedProfile) : outcome MapError (noted json) :=
  let? p := Some (strip_or_refuse_store (apply_system_prefix ir profile) profile) in
  let '(ir, store_events) := p in
  let? p := Some (prepare_tools char_lower wire ir profile) in
  let '(prepared, tool_events) := p in
  let? p := encode_wire wire ir prepared profile (store_events ++ tool_events) in
  let '(body, events) := p in
  Some (Ok (body, store_events ++ tool_events ++ events)).

Definition encode (wire : Wire) (ir : IrRequest) (profile : ResolvedProfile) : outcome MapError (string * LossReport) :=
  let? p := dialect_body wire ir profile in
  let '(body, events) := p in
  let? p := Some (apply_forbidden_fields (merge_extra_body body profile) profile) in
  let '(body, forbidden_events) := p in
  Some (Ok (to_string body, mkReport (events ++ forbidden_events))).
End Requests.

(** ** Every dialect writes an object *)
Lemma some_object body k v : get body k = Some v -> is_object body = true.
Proof. by destruct body. Qed.

Lemma chat_object `{SerdeJson} ir prepared report body noted :
  ChatRequest.encode ir prepared report = Ok (body, noted) -> is_object body = true.
Proof.
  unfold ChatRequest.encode. destruct (ChatRequest.encode_messages ir) as [messages events].
  set (body0 := put "tools" _ _). intros E.
  assert (body = (ChatRequest.encode_sampling ir body0).1) as ->.
  { destruct messages, (dropped_details (report ++ events)); try done;
      (destruct (ChatRequest.check_sampling ir); cbn [rbind] in E; [|done]);
      apply Ok_inj in E; apply (f_equal fst) in E; by rewrite nbind_fst in E. }
  assert (is_object body0 = true) as O by (subst body0; by rewrite is_object_put).
  rewrite ChatSampling.encode_sampling_puts; [by rewrite is_object_puts|done|].
  subst body0. rewrite get_put by done. eqb_literals. by read_literals.
Qed.

Lemma responses_object `{SerdeJson} ir prepared profile report body noted :
  ResponsesEncode.encode ir prepared profile report = Ok (body, noted) -> is_object body = true.
Proof.
  unfold ResponsesEncode.encode. destruct (ResponsesEncode.encode_items ir _) as [[instructions input] events].
  destruct (ResponsesEncode.check_input _ _ _); cbn [rbind]; [|done]. destruct (ResponsesEncode.check_sampling ir); cbn [rbind]; [|done].
  intros E%Ok_inj. apply (f_equal fst) in E. rewrite nbind_fst in E. cbn [fst] in E. subst body.
  apply (some_object _ "model" (JStr (model ir))). rewrite ResponsesArrives.sampling_leaves by (by rewrite ?is_object_put).
  rewrite !get_put by (by rewrite ?is_object_put). eqb_literals. by read_literals.
Qed.

Lemma converse_object `{SerdeJson} ir prepared report body noted :
  ConverseEncode.encode ir prepared report = Ok (body, noted) -> is_object body = true.
Proof.
  unfold ConverseEncode.encode. destruct (let! _ := ConverseEncode.note_model ir in ConverseEncode.encode_items ir) as [t events].
  destruct (ConverseEncode.check_messages t _); cbn [rbind]; [|done]. destruct (ConverseEncode.check_sampling _); cbn [rbind]; [|done].
  intros B%Ok_inj. apply (f_equal fst) in B. rewrite !nbind_fst in B. change (body, noted).1 with body in B. subst body.
  match goal with |- context [ConverseEncode.encode_sampling ?s ?b] => set (start := b) end.
  assert (is_object start = true) as O by (unfold start; by rewrite is_object_put).
  destruct (ConverseTurns.sampling_writes (sampling ir)) as (ks & F & K). destruct (writes_steps _ _ F start O) as [O1 _].
  by destruct (ConverseTurns.tools_write prepared (sp_tool_choice (sampling ir)) _ O1).
Qed.

Lemma gemini_object `{SerdeJson} ir prepared report body noted :
  GeminiEncode.encode ir prepared report = Ok (body, noted) -> is_object body = true.
Proof.
  unfold GeminiEncode.encode. destruct (GeminiEncode.encode_items 0 (items ir) _) as [t events].
  destruct (GeminiEncode.check_contents _ _ _); cbn [rbind]; [|done]. case_bool_decide; [done|]. intros B%Ok_inj.
  apply (f_equal fst) in B. rewrite !nbind_fst in B. change (body, noted).1 with body in B. subst body.
  match goal with |- context [GeminiEncode.encode_sampling ?s ?b] => destruct (GeminiTurns.sampling_contents s b) as [_ O] end.
  { by rewrite !is_object_put. }
  by destruct (GeminiTurns.flag_writes _ O).
Qed.

Lemma thinking_writes s : writes ["thinking"; "max_tokens"] (MessagesSampling.encode_thinking s).
Proof.
  assert (forall v k body, is_object body = true -> one_of k ["thinking"; "max_tokens"] = false ->
    get (index_set body "thinking" v) k = get body k) as T.
  { intros v k body O K. rewrite get_index_set by done. unfold one_of in K. cbn [existsb] in K. apply orb_false_iff in K as [-> _]. done. }
  intros body O. unfold MessagesSampling.encode_thinking. destruct (MessagesSampling.native_thinking s); rewrite !nbind_fst; cbn [quiet fst].
  { rewrite is_object_index_set. split; [done|]. intros k K. by apply T. }
  destruct (MessagesSampling.thinking_off s); rewrite ?nbind_fst; cbn [quiet fst].
  { rewrite is_object_index_set. split; [done|]. intros k K. by apply T. }
  destruct (negb _); [done|]. rewrite nbind_fst. unfold MessagesSampling.raise_max_tokens.
  destruct (_ <=? _); rewrite ?nbind_fst; cbn [quiet fst]; rewrite ?is_object_index_set; (split; [done|]); intros k K.
  - rewrite get_index_set by by rewrite is_object_index_set. pose proof K as K'. unfold one_of in K'. cbn [existsb] in K'.
    rewrite orb_false_r in K'. apply orb_false_iff in K' as [_ ->]. by apply T.
  - by apply T.
Qed.

Lemma omit_when_writes {A} (o : option A) key : writes [key] (MessagesSampling.omit_when o key).
Proof.
  intros body O. rewrite MessagesLimits.omit_when_object. split; [done|]. intros k K. rewrite MessagesLimits.omit_when_get.
  unfold one_of in K. cbn [existsb] in K. rewrite orb_false_r in K. rewrite K. by rewrite ?andb_false_r.
Qed.

Lemma omit_sampling_writes s :
  writes ["temperature"; "top_p"; "top_k"; "tool_choice"] (MessagesSampling.omit_sampling_rejected_by_thinking s).
Proof.
  apply (writes_if _ (fun body => bool_decide (pointer_str body [Key "thinking"; Key "type"] = Some "enabled"))); [|apply writes_quiet].
  apply (writes_steps _ [["temperature"]; ["top_p"]; ["top_k"]; ["tool_choice"]]).
  repeat apply Forall2_cons_2; try apply omit_when_writes; [apply MessagesLimits.writes_auto|apply Forall2_nil_2].
Qed.

Definition keeps_model (st : step) : Prop := exists ks, writes ks st /\ one_of "model" ks = false.

Lemma keeps_model_get st body : keeps_model st -> is_object body = true ->
  is_object (st body).1 = true /\ get (st body).1 "model" = get body "model".
Proof. intros (ks & W & N) O. destruct (W body O) as [O' G]. split; [done|]. by apply G. Qed.

Lemma keeps_model_steps l : (exists ks, Forall2 writes ks l /\ one_of "model" (concat ks) = false) -> keeps_model (steps l).
Proof. intros (ks & F & N). exists (concat ks). split; [by apply writes_steps|done]. Qed.

Lemma keeps_model_app xs ys body : keeps_model (steps xs) -> keeps_model (steps ys) -> is_object body = true ->
  is_object (steps (xs ++ ys) body).1 = true /\ get (steps (xs ++ ys) body).1 "model" = get body "model".
Proof.
  intros X Y O. rewrite steps_app. destruct (keeps_model_get _ _ X O) as [O1 G1].
  destruct (keeps_model_get _ _ Y O1) as [O2 G2]. by rewrite G2, G1.
Qed.

Lemma messages_sampling_model ir body : is_object body = true ->
  get (MessagesSampling.encode_sampling ir body).1 "model" = get body "model".
Proof.
  intros O. change (MessagesSampling.encode_sampling ir) with (steps (MessagesSampling.sampling_steps ir)).
  rewrite MessagesLimits.sampling_split, MessagesLimits.before_parts, <- !app_assoc.
  destruct (MessagesLimits.head_writes ir) as (k1 & W1 & E1). destruct (MessagesLimits.tail_writes ir) as (k2 & W2 & E2).
  destruct (MessagesLimits.after_writes ir) as (k3 & W3 & E3).
  assert (keeps_model (steps (firstn 10 (MessagesSampling.sampling_steps ir)))) as H1 by (apply keeps_model_steps; exists k1; by rewrite E1).
  assert (keeps_model (steps (skipn 14 (MessagesLimits.steps_before ir)))) as H2 by (apply keeps_model_steps; exists k2; by rewrite E2).
  assert (keeps_model (steps (skipn 2 (MessagesLimits.steps_after ir)))) as H3 by (apply keeps_model_steps; exists k3; by rewrite E3).
  assert (forall l body, is_object body = true -> (exists ks, Forall2 writes ks l /\ one_of "model" (concat ks) = false) ->
    is_object (steps l body).1 = true /\ get (steps l body).1 "model" = get body "model") as S
    by (intros l b Ob W; exact (keeps_model_get _ _ (keeps_model_steps _ W) Ob)).
  rewrite steps_app. destruct (keeps_model_get _ _ H1 O) as [O1 <-]. set (b1 := (steps (firstn 10 _) body).1) in *. clearbody b1.
  rewrite steps_app. destruct (S [set_when (sp_max_tokens (sampling ir)) "max_tokens" jint (quiet tt); MessagesSampling.encode_stop (sampling ir)] b1 O1) as [O2 <-].
  { exists [["max_tokens"]; ["stop_sequences"]]. split; [|done]. repeat apply Forall2_cons_2;
      [apply writes_set_when|apply MessagesLimits.writes_stop|apply Forall2_nil_2]. }
  set (b2 := (steps [_; _] b1).1) in *. clearbody b2. rewrite steps_app.
  match goal with |- context [steps [?x; ?y] b2] => destruct (S [x; y] b2 O2) as [O3 <-]; [|set (b3 := (steps [x; y] b2).1) in *] end.
  { exists [["tool_choice"]; ["tool_choice"]]. split; [|done]. repeat apply Forall2_cons_2;
      [apply MessagesLimits.writes_choice|apply MessagesLimits.writes_parallel|apply Forall2_nil_2]. }
  clearbody b3. rewrite steps_app. destruct (keeps_model_get _ _ H2 O3) as [O4 <-]. set (b4 := (steps _ b3).1) in *. clearbody b4.
  rewrite steps_app. match goal with |- context [steps [?x; ?y; ?z] b4] => destruct (S [x; y; z] b4 O4) as [O5 <-]; [|set (b5 := (steps [x; y; z] b4).1) in *] end.
  { exists [["thinking"; "max_tokens"]; ["temperature"; "top_p"; "top_k"; "tool_choice"]; ["tool_choice"]]. split; [|done].
    repeat apply Forall2_cons_2; [apply thinking_writes|apply omit_sampling_writes|apply MessagesLimits.writes_forced|apply Forall2_nil_2]. }
  clearbody b5. change (MessagesLimits.steps_after ir) with
    (firstn 2 (MessagesLimits.steps_after ir) ++ skipn 2 (MessagesLimits.steps_after ir)). rewrite steps_app.
  destruct (S (firstn 2 (MessagesLimits.steps_after ir)) b5 O5) as [O6 <-].
  { exists [[]; ["max_tokens"]]. split; [|done]. apply Forall2_cons_2; [apply MessagesLimits.writes_no_slots|].
    apply Forall2_cons_2; [apply MessagesLimits.writes_default|apply Forall2_nil_2]. }
  by destruct (keeps_model_get _ _ H3 O6).
Qed.

Lemma messages_object `{SerdeJson} ir prepared report body noted :
  MessagesBody.encode ir prepared report = Some (Ok (body, noted)) -> is_object body = true.
Proof.
  unfold MessagesBody.encode. destruct (MessagesEncode.encode_items ir) as [[system messages] turn_events].
  destruct (let* _ := _ in MessagesBody.check_sampling (sampling ir)); [|done].
  set (start := MessagesBody.body_start _ _ _ _).
  assert (is_object start = true /\ get start "model" = Some (JStr (model ir))) as [O M].
  { subst start. unfold MessagesBody.body_start. rewrite !is_object_put. split; [done|].
    rewrite !get_put by (by rewrite ?is_object_put). by eqb_literals. }
  pose proof (messages_sampling_model ir start O) as G. rewrite M in G.
  destruct (MessagesSampling.encode_sampling ir start) as [b0 sampling_events]. cbn [fst] in G.
  destruct (CacheBreakpoints.apply_cache_breakpoints ir b0) as [[b1 cache_events]|] eqn:A; [|done]. intros [= <- _].
  apply CacheBreakpoints.apply_other_fields in A as [->|F]; [by eapply some_object|].
  assert (get b1 "model" = Some (CacheBreakpoints.strip_all_cache_control (JStr (model ir)))) as B.
  { rewrite F by done. by rewrite CacheBreakpoints.get_strip, G by done. }
  by apply some_object in B.
Qed.

Section Policy.
Context {SJ : SerdeJson} (char_lower : string -> option string).

Lemma wire_object wire ir prepared profile report body events :
  encode_wire wire ir prepared profile report = Some (Ok (body, events)) -> is_object body = true.
Proof.
  destruct wire; cbn [encode_wire]; intros E; [injection E as E; by eapply chat_object|by eapply messages_object| | |];
    injection E as E; [by eapply responses_object|by eapply gemini_object|by eapply converse_object].
Qed.

Lemma dialect_body_object wire ir profile body events :
  dialect_body char_lower wire ir profile = Some (Ok (body, events)) -> is_object body = true.
Proof.
  unfold dialect_body. intros H. apply obind_Ok in H as ([ir' ev1] & _ & H). apply obind_Ok in H as ([prepared ev2] & _ & H).
  apply obind_Ok in H as ([b ev3] & W & H). injection H as <- _. by eapply wire_object.
Qed.

(** ** Extra and forbidden fields *)
Definition extra_fields (profile : ResolvedProfile) : list (string * json) :=
  match fingerprint profile with Some fp => fp_extra_body fp | None => [] end.
Definition forbidden_fields (profile : ResolvedProfile) : list string :=
  match fingerprint profile with Some fp => fp_forbidden_body_fields fp | None => [] end.
Definition field_policy (profile : ResolvedProfile) : ForbiddenFieldPolicy :=
  match fingerprint profile with Some fp => fp_forbidden_field_policy fp | None => ForbiddenHardError end.

(** A field of the dialect's body under the extra fields. *)
Definition merged_field (body : json) (profile : ResolvedProfile) (k : string) : option json :=
  assoc_last k (extra_fields profile) (get body k).

Lemma fold_extra l body k : is_object body = true ->
  is_object (fold_left (fun body kv => index_set body kv.1 kv.2) l body) = true
  /\ get (fold_left (fun body kv => index_set body kv.1 kv.2) l body) k = assoc_last k l (get body k).
Proof.
  revert body. induction l as [|[k' v] l IH]; intros body O; [done|]. cbn [fold_left fst snd].
  destruct (IH (index_set body k' v)) as [O' G]; [by rewrite is_object_index_set|]. split; [done|].
  rewrite G, get_index_set by done. done.
Qed.

Lemma merge_extra_get body profile k : is_object body = true ->
  get (merge_extra_body body profile) k = merged_field body profile k.
Proof.
  intros O. unfold merge_extra_body, merged_field, extra_fields. destruct (fingerprint profile) as [fp|]; [|done].
  destruct body; try done. by apply fold_extra.
Qed.

Definition stripped (k : string) : LossEvent := mkLoss k Drop "forbidden_body_fields strip".

Lemma forbid_strip keys body : exists body' events, forbid Strip keys body = Ok (body', events)
  /\ (forall k, get body' k = if one_of k keys then None else get body k)
  /\ forall e, In e events <-> exists k, e = stripped k /\ one_of k keys = true /\ get body k <> None.
Proof.
  revert body. induction keys as [|key keys IH]; intros body.
  { eexists _, _. split; [done|]. split; [done|]. intros e. split; [done|]. by intros (k & _ & K & _). }
  cbn [forbid]. assert (forall k, one_of k (key :: keys) = String.eqb k key || one_of k keys) as C by done.
  destruct (get body key) as [v|] eqn:G; cbn [is_none].
  - destruct (IH (MessagesSampling.remove_key key body)) as (body' & events & -> & B & E).
    unfold lift, nbind, note, ebind. cbn [app].
    eexists _, _. split; [done|]. split.
    + intros k. rewrite B, C, MessagesSampling.get_remove_key. by destruct (String.eqb k key), (one_of k keys).
    + intros e. cbn [In quiet]. rewrite ?app_nil_r. split.
      * intros [<-|I]; [by exists key; rewrite C, String.eqb_refl, G|]. apply E in I as (k & -> & K & N). exists k.
        rewrite C, K, orb_true_r. split; [done|]. split; [done|]. rewrite MessagesSampling.get_remove_key in N.
        by destruct (String.eqb k key).
      * intros (k & -> & K & N). rewrite C in K. destruct (String.eqb k key) eqn:Q; [left; apply String.eqb_eq in Q; by subst k|right].
        apply E. exists k. split; [done|]. split; [done|]. by rewrite MessagesSampling.get_remove_key, Q.
  - destruct (IH body) as (body' & events & -> & B & E). eexists _, _. split; [done|]. split.
    + intros k. rewrite B, C. destruct (String.eqb_spec k key) as [->|_]; [|done]. by destruct (one_of key keys).
    + intros e. rewrite E. split; intros (k & -> & K & N); exists k; (split; [done|]).
      * by rewrite C, K, orb_true_r.
      * rewrite C in K. destruct (String.eqb k key) eqn:Q; [|done]. apply String.eqb_eq in Q. by subst k.
Qed.

Lemma forbid_hard keys body : match forbid ForbiddenHardError keys body with
  | Ok (body', events) => body' = body /\ events = [] /\ forall k, one_of k keys = true -> get body k = None
  | Err err => exists k, err = hard k ("forbidden body field `" +:+ k +:+ "`") /\ one_of k keys = true /\ get body k <> None
  end.
Proof.
  induction keys as [|key keys IH]; [done|]. cbn [forbid].
  assert (forall k, one_of k (key :: keys) = String.eqb k key || one_of k keys) as C by done.
  destruct (get body key) as [v|] eqn:G; cbn [is_none].
  - exists key. by rewrite C, String.eqb_refl, G.
  - destruct (forbid ForbiddenHardError keys body) as [[body' events]|err].
    + destruct IH as (-> & -> & N). split; [done|]. split; [done|]. intros k. rewrite C.
      destruct (String.eqb_spec k key) as [->|_]; [done|]. apply N.
    + destruct IH as (k & -> & K & N). exists k. by rewrite C, K, orb_true_r.
Qed.

(** C8. What is sent is the body of the dialect with the extra fields of the
    profile set and its forbidden fields absent, extra ones included: under
    the strip policy every forbidden field that was there is in the loss
    report, under the hard-error policy the request is refused instead. *)
Theorem request_policy wire ir profile body events :
  dialect_body char_lower wire ir profile = Some (Ok (body, events)) ->
  let field := merged_field body profile in
  let forbidden k := one_of k (forbidden_fields profile) in
  match encode char_lower wire ir profile with
  | Some (Ok (text, report)) =>
      exists sent, text = to_string sent
      /\ (forall k, get sent k = if forbidden k then None else field k)
      /\ forall e, In e (loss_events report) <-> In e events \/ exists k, e = stripped k /\ forbidden k = true /\ field k <> None
  | Some (Err err) =>
      field_policy profile = ForbiddenHardError
      /\ exists k, err = hard k ("forbidden body field `" +:+ k +:+ "`") /\ forbidden k = true /\ field k <> None
  | None => False
  end.
Proof.
  intros D field forbidden. pose proof (dialect_body_object _ _ _ _ _ D) as O.
  pose proof (fun k => merge_extra_get body profile k O) as M. unfold encode. rewrite D. cbn [obind].
  unfold apply_forbidden_fields. unfold forbidden, field, forbidden_fields, field_policy in *.
  destruct (fingerprint profile) as [fp|].
  - destruct (fp_forbidden_field_policy fp).
    + destruct (forbid_strip (fp_forbidden_body_fields fp) (merge_extra_body body profile)) as (sent & ev & -> & B & E).
      cbn [obind]. exists sent. split; [done|]. split; [intros k; by rewrite B, M|]. intros e. cbn [loss_events].
      rewrite in_app_iff, E. by setoid_rewrite M.
    + pose proof (forbid_hard (fp_forbidden_body_fields fp) (merge_extra_body body profile)) as F.
      destruct (forbid _ _ _) as [[sent ev]|err]; cbn [obind].
      * destruct F as (-> & -> & N). exists (merge_extra_body body profile). split; [done|]. split.
        -- intros k. destruct (one_of k _) eqn:K; [by apply N|by rewrite M].
        -- intros e. rewrite app_nil_r. split; [by left|]. intros [I|(k & _ & K & X)]; [done|]. rewrite <- M in X. by rewrite N in X.
      * destruct F as (k & -> & K & X). split; [done|]. exists k. by rewrite <- M.
  - cbn [obind quiet]. exists (merge_extra_body body profile). split; [done|]. split; [by intros k; rewrite M|].
    intros e. rewrite app_nil_r. split; [by left|]. by intros [I|(k & _ & K & _)].
Qed.

(** ** The prefix of the profile *)
Definition prefix_of (profile : ResolvedProfile) : option string :=
  nonempty (fp ← fingerprint profile; fp_system_prompt_prefix fp).

Lemma prefix_applied ir profile : apply_system_prefix ir profile
  = match prefix_of profile with
    | Some prefix =>
        mkRequest (model ir) (unwrap_or (prefix_first prefix (items ir)) (ISystem prefix None [] :: items ir)) (tools ir) (sampling ir)
    | None => ir
    end.
Proof.
  unfold apply_system_prefix, prefix_of. destruct (fp ← fingerprint profile; fp_system_prompt_prefix fp) as [p|]; [|done].
  unfold nonempty, opt_filter. by destruct (is_empty p).
Qed.

Lemma starts_with_app p s : starts_with p (p +:+ s) = true.
Proof. unfold starts_with. by rewrite strip_prefix_app. Qed.

Lemma with_prefix_starts p s : starts_with p (with_prefix p s) = true.
Proof. unfold with_prefix. destruct (starts_with p s) eqn:E; [done|]. apply starts_with_app. Qed.

Lemma with_prefix_idem p s : with_prefix p (with_prefix p s) = with_prefix p s.
Proof. unfold with_prefix at 1. by rewrite with_prefix_starts. Qed.

Lemma prefix_first_some p l : match prefix_first p l with
  | Some l' => exists before text mode parts after, l = before ++ ISystem text mode parts :: after
      /\ existsb is_system before = false /\ l' = before ++ ISystem (with_prefix p text) mode parts :: after
  | None => existsb is_system l = false
  end.
Proof.
  induction l as [|item l IH]; [done|]. destruct item as [t m ps0| | | | | | | | | | |]; cbn [prefix_first];
    [by exists [], t, m, ps0, l|..];
    (destruct (prefix_first p l) as [l'|]; cbn [fmap option_fmap option_map]; [|exact IH];
     destruct IH as (before & t1 & m1 & ps1 & after & -> & N & ->);
     by eexists (_ :: before), t1, m1, ps1, after).
Qed.

Lemma prefix_first_app p before text mode parts after : existsb is_system before = false ->
  prefix_first p (before ++ ISystem text mode parts :: after) = Some (before ++ ISystem (with_prefix p text) mode parts :: after).
Proof.
  induction before as [|item before IH]; [done|]. cbn [existsb app]. rewrite orb_false_iff. intros [N B].
  destruct item; try done; cbn [prefix_first]; by rewrite IH.
Qed.

(** The prefix of the profile stands at the start of the first system
    message, a message of its own where there was none; the other items are
    those of the request, and applying it again changes nothing. *)
Theorem system_prefix_first ir profile prefix : prefix_of profile = Some prefix ->
  let prefixed := apply_system_prefix ir profile in
  (exists before text mode parts after,
    items prefixed = before ++ ISystem (with_prefix prefix text) mode parts :: after
    /\ starts_with prefix (with_prefix prefix text) = true /\ existsb is_system before = false
    /\ (items ir = before ++ ISystem text mode parts :: after
        \/ existsb is_system (items ir) = false /\ text = prefix /\ before = [] /\ after = items ir))
  /\ apply_system_prefix prefixed profile = prefixed.
Proof.
  intros P. cbv zeta. rewrite !prefix_applied, P. cbn [items model tools sampling].
  pose proof (prefix_first_some prefix (items ir)) as F. destruct (prefix_first prefix (items ir)) as [l|]; cbn [unwrap_or].
  - destruct F as (before & text & mode & parts & after & E & N & ->). split.
    + exists before, text, mode, parts, after. split; [done|]. split; [apply with_prefix_starts|]. split; [done|]. by left.
    + rewrite prefix_first_app by done. by rewrite with_prefix_idem.
  - assert (with_prefix prefix prefix = prefix) as I.
    { unfold with_prefix. pose proof (starts_with_app prefix "") as S. rewrite str_app_nil_r in S. by rewrite S. }
    split.
    + exists [], prefix, None, [], (items ir). rewrite I. split; [done|]. split; [by rewrite <- I at 2; apply with_prefix_starts|].
      split; [done|]. by right.
    + cbn [prefix_first unwrap_or]. by rewrite I.
Qed.

(** A profile without its prefix. *)
Definition without_prefix (profile : ResolvedProfile) : ResolvedProfile :=
  mkProfile (schema_version profile) (profile_id profile) (display_name profile) (dialect profile) (http profile)
    (oauth profile) (access_env profile)
    ((fun fp => mkFingerprint (fp_user_agent fp) (fp_x_app fp) None (fp_tool_name_case fp) (fp_forbidden_body_fields fp)
                  (fp_forbidden_field_policy fp) (fp_extra_body fp)) <$> fingerprint profile)
    (betas profile).

(** A system message with ordered parts is written from the parts. *)
Lemma wire_ignores_text wire m s ts text text' mode part parts rest prepared profile report :
  (wire = Messages -> CacheBreakpoints.caching_asked (sp_cache s) = false) ->
  encode_wire wire (mkRequest m (ISystem text mode (part :: parts) :: rest) ts s) prepared profile report
  = encode_wire wire (mkRequest m (ISystem text' mode (part :: parts) :: rest) ts s) prepared profile report.
Proof.
  intros C. destruct wire; [reflexivity| |reflexivity..]. cbn [encode_wire]. specialize (C eq_refl).
  unfold MessagesBody.encode.
  replace (MessagesEncode.encode_items (mkRequest m (ISystem text mode (part :: parts) :: rest) ts s))
    with (MessagesEncode.encode_items (mkRequest m (ISystem text' mode (part :: parts) :: rest) ts s)) by by destruct rest.
  destruct (MessagesEncode.encode_items _) as [[system messages] turn_events]. cbn [sampling].
  destruct (let* _ := _ in MessagesBody.check_sampling s); [|done].
  change (MessagesSampling.encode_sampling (mkRequest m (ISystem text mode (part :: parts) :: rest) ts s))
    with (MessagesSampling.encode_sampling (mkRequest m (ISystem text' mode (part :: parts) :: rest) ts s)).
  change (MessagesBody.body_start (mkRequest m (ISystem text mode (part :: parts) :: rest) ts s))
    with (MessagesBody.body_start (mkRequest m (ISystem text' mode (part :: parts) :: rest) ts s)).
  destruct (MessagesSampling.encode_sampling _ _) as [body events].
  unfold CacheBreakpoints.apply_cache_breakpoints. cbn [sampling]. by rewrite C.
Qed.

(** C9. The prefix of the profile is not sent when the system message that opens
    the request has ordered parts: every dialect writes the parts, and the
    prefix is put before the text beside them, so the body and the notes are
    those of the profile without the prefix. On Messages this is for a request
    that asks for no prompt caching; with caching the text beside the parts
    counts towards the length from which markers are placed, so the prefix can
    still change where they are. *)
Theorem prefix_lost_on_parts wire ir profile text mode part parts rest :
  items ir = ISystem text mode (part :: parts) :: rest ->
  (wire = Messages -> CacheBreakpoints.caching_asked (sp_cache (sampling ir)) = false) ->
  dialect_body char_lower wire ir profile = dialect_body char_lower wire ir (without_prefix profile).
Proof.
  intros I C. unfold dialect_body. rewrite !prefix_applied.
  assert (prefix_of (without_prefix profile) = None) as -> by by unfold prefix_of; cbn; destruct (fingerprint profile).
  assert (forall ir', strip_or_refuse_store ir' (without_prefix profile) = strip_or_refuse_store ir' profile) as S.
  { intros ir'. unfold strip_or_refuse_store. cbn [without_prefix fingerprint]. by destruct (fingerprint profile). }
  assert (forall ir', prepare_tools char_lower wire ir' (without_prefix profile) = prepare_tools char_lower wire ir' profile) as T.
  { intros ir'. unfold prepare_tools. cbn [without_prefix fingerprint dialect]. by destruct (fingerprint profile). }
  assert (forall ir' prepared report, encode_wire wire ir' prepared (without_prefix profile) report
    = encode_wire wire ir' prepared profile report) as W by by destruct wire.
  destruct ir as [m l ts s]. cbn [items model tools sampling] in *. subst l. rewrite S. clear S.
  set (l := match prefix_of profile with Some _ => _ | None => _ end).
  assert (exists text', l = mkRequest m (ISystem text' mode (part :: parts) :: rest) ts s) as [text' ->]
    by (unfold l; destruct (prefix_of profile); by eexists).
  unfold strip_or_refuse_store. cbn [sampling model items tools].
  assert (forall s' ev, sp_cache s' = sp_cache s ->
    (let? p := Some (prepare_tools char_lower wire (mkRequest m (ISystem text' mode (part :: parts) :: rest) ts s') profile) in
     let '(prepared, tool_events) := p in
     let? p := encode_wire wire (mkRequest m (ISystem text' mode (part :: parts) :: rest) ts s') prepared profile (ev ++ tool_events) in
     let '(body, events) := p in Some (Ok (body, ev ++ tool_events ++ events)))
    = (let? p := Some (prepare_tools char_lower wire (mkRequest m (ISystem text mode (part :: parts) :: rest) ts s') (without_prefix profile)) in
     let '(prepared, tool_events) := p in
     let? p := encode_wire wire (mkRequest m (ISystem text mode (part :: parts) :: rest) ts s') prepared (without_prefix profile) (ev ++ tool_events) in
     let '(body, events) := p in Some (Ok (body, ev ++ tool_events ++ events)))) as R.
  { intros s' ev K. rewrite T. unfold prepare_tools. cbn [tools obind].
    destruct (prepare_from char_lower wire _ _ 0 ts) as [[prepared tool_events]|]; [|done]. cbn [obind]. rewrite W.
    by rewrite (wire_ignores_text wire m s' ts text' text) by (rewrite K; exact C). }
  destruct (fingerprint profile) as [fp|]; [|by apply R]. destruct (is_none (sp_store s)); [by apply R|].
  destruct (negb _); [by apply R|]. destruct (fp_forbidden_field_policy fp); [|done]. by apply R.
Qed.
End Policy.

(** ** At a request *)
#[local] Existing Instance bits_codec.

Definition sample_fingerprint : Fingerprint :=
  mkFingerprint None None (Some "You are Code. ") None ["temperature"; "store"; "region"] Strip
    [("region", JStr "eu"); ("tier", JStr "fast")].

Definition sample_profile : ResolvedProfile :=
  mkProfile 1 "p" None (mkDialect (Some ChatCompletions) [] Replace PolicyHardError UnknownHardError)
    (mkHttp (Some "https://api.test") None None [] Replace None None None None)
    None [] (Some sample_fingerprint) (betas_default_for (Some ChatCompletions) false).

(** A request that sets [store] and a temperature. *)
Definition sample_sampling : IrSampling :=
  ChatRequest.decode_sampling (jobj [("store", JBool true); ("temperature", jint 1)]).

Definition sample_ir : IrRequest := mkRequest "m" [IUser [PText "hi"]] [] sample_sampling.

(** The first system message has two parts, one of them marked. *)
Definition parted_ir : IrRequest :=
  mkRequest "m" [ISystem "a" None [PText "a"; PPromptCacheBreakpoint "explicit" (PText "b")]; IUser [PText "hi"]] []
    (sampling (request_new "m" [])).

Lemma request_policy_witness :
  exists text report sent, encode ascii_lower Gemini sample_ir sample_profile = Some (Ok (text, report))
  /\ text = to_string sent /\ get sent "tier" = Some (JStr "fast") /\ get sent "region" = None
  /\ In (stripped "region") (loss_events report).
Proof.
  destruct (dialect_body ascii_lower Gemini sample_ir sample_profile) as [[[body events]|]|] eqn:D;
    [|vm_compute in D; discriminate..].
  pose proof (request_policy ascii_lower Gemini sample_ir sample_profile body events D) as P. cbv zeta in P.
  destruct (encode ascii_lower Gemini sample_ir sample_profile) as [[[text report]|err]|]; [|by destruct P|done].
  destruct P as (sent & T & F & E). exists text, report, sent. split; [done|]. split; [done|].
  rewrite !F. split; [done|]. split; [done|]. apply E. right. by exists "region".
Defined.

Lemma system_prefix_first_witness :
  apply_system_prefix (apply_system_prefix parted_ir sample_profile) sample_profile = apply_system_prefix parted_ir sample_profile
  /\ option_map (fun item => match item with ISystem text _ _ => text | _ => "" end)
       (head (items (apply_system_prefix parted_ir sample_profile))) = Some "You are Code. a".
Proof.
  destruct (system_prefix_first parted_ir sample_profile "You are Code. " eq_refl) as [_ I]. split; [exact I|reflexivity].
Defined.

(** The text of the prefix is in the body of no dialect. *)
Lemma prefix_lost_on_parts_witness :
  Forall (fun wire => dialect_body ascii_lower wire parted_ir sample_profile
                      = dialect_body ascii_lower wire parted_ir (without_prefix sample_profile)
                      /\ is_some (dialect_body ascii_lower wire parted_ir sample_profile ≫= fun r => match r with Ok _ => Some tt | Err _ => None end) = true)
    [ChatCompletions; Messages; Responses; Gemini; Converse].
Proof.
  repeat (constructor; [split; [by eapply (prefix_lost_on_parts ascii_lower _ parted_ir sample_profile)|vm_compute; reflexivity]|]).
  constructor.
Defined.
