(* ===== verification/CompleteCalls.v ===== *)
(** * CompleteCalls: the call table of the complete-body encoders

    src/crates/wiremux/src/stream/complete.rs gathers the tool calls of a list
    of events before it writes a body: the open calls by index in a
    [BTreeMap], the ones a second id on their index committed in a [Vec].
    [solo] is the same table for one index alone, one register and the calls
    it gave up: what interleaved indices must not change. *)

From S2P Require Import Prelude Text Json Ir StreamCore Usage BTree Shapes Chat.

(** ** The table *)
Record IndexedTool := mkIndexed {
  it_id : string;
  it_name : string;
  it_args : string;
  it_custom : bool;
  it_signature : option string
}.

Definition blank_indexed_tool : IndexedTool := mkIndexed "" "" "" false None.

(** [open_tools] and [done_tools]. *)
Definition calls : Type := list (Z * IndexedTool) * list (Z * IndexedTool).

Definition calls_new : calls := ([], []).

(** The slot takes the first non-empty id and name, the first signature, and
    the last [custom]. *)
Definition start_slot (slot : IndexedTool) (id name : string) (custom : bool) (signature : option string) :
  IndexedTool :=
  mkIndexed (if is_empty (it_id slot) then id else it_id slot)
            (if is_empty (it_name slot) then name else it_name slot)
            (it_args slot) custom
            (match it_signature slot with None => signature | Some s => Some s end).

(** Another id on the same index commits the earlier call. *)
Definition takes_over (id : string) (existing : IndexedTool) : bool :=
  negb (is_empty id) && negb (is_empty (it_id existing)) && negb (String.eqb (it_id existing) id).

Definition indexed_tool_start (ts : calls) (index : Z) (id name : string) (custom : bool)
    (signature : option string) : calls :=
  let '(open, done) := ts in
  let '(open, done) :=
    match bt_get index open with
    | Some existing =>
        if takes_over id existing then (bt_remove index open, done ++ [(index, existing)]) else (open, done)
    | None => (open, done)
    end in
  let slot := unwrap_or (bt_get index open) blank_indexed_tool in
  (bt_insert index (start_slot slot id name custom signature) open, done).

Definition push_fragment (slot : IndexedTool) (delta : string) : IndexedTool :=
  mkIndexed (it_id slot) (it_name slot) (it_args slot +:+ delta) (it_custom slot) (it_signature slot).

Definition indexed_tool_delta (ts : calls) (index : Z) (delta : string) : calls :=
  let '(open, done) := ts in
  let slot := unwrap_or (bt_get index open) blank_indexed_tool in
  (bt_insert index (push_fragment slot delta) open, done).

(** The committed calls, then the open ones in the order of their indices. *)
Definition indexed_tool_finish (ts : calls) : list (Z * IndexedTool) := ts.2 ++ ts.1.

(** ** What the encoders share *)

(** A text part goes before an image, and the text starts over. *)
Definition flush_typed (ty text : string) (parts : list json) : list json :=
  if negb (is_empty text) then parts ++ [jobj [("type", JStr ty); ("text", JStr text)]] else parts.

Definition extend_logprobs_content (dst : list json) (content : json) : list json :=
  push_logprob_items dst content.

Definition no_signature (signature : option string) : option string := None.

(** [json!(text)] when it is not empty. *)
Definition if_text (text : string) : option json := JStr <$> nonempty (Some text).

(** An array that has an item. *)
Definition if_items (items : list json) : option json := match items with [] => None | _ => Some (JArr items) end.

(** [metadata.filter(|m| !m.is_empty())] *)
Definition metadata_body (metadata : option (list (string * string))) : option json :=
  match metadata with Some ((_ :: _) as m) => Some (metadata_json m) | _ => None end.

(** The first block of a type takes the fields; without one, a new block does. *)
Fixpoint decorate_first (ty : string) (decorate : json -> json) (blocks : list json) : option (list json) :=
  match blocks with
  | [] => None
  | block :: blocks =>
      if bool_decide (get_str block "type" = Some ty) then Some (decorate block :: blocks)
      else cons block <$> decorate_first ty decorate blocks
  end.

(** ** The arms every encoder has *)
Section Arms.
(** What the encoder keeps of [thought_signature]. *)
Context (sig : option string -> option string).

Definition call_arm (ts : calls) (ev : IrStreamEvent) : calls :=
  match ev with
  | ToolCallStart id name signature index => indexed_tool_start ts index id name false (sig signature)
  | CustomToolCallStart id name index => indexed_tool_start ts index id name true None
  | ToolCallArgDelta delta index | CustomToolCallInputDelta delta index => indexed_tool_delta ts index delta
  | _ => ts
  end.

Definition call_table (evs : list IrStreamEvent) : calls := fold_left call_arm evs calls_new.

(** ** One index alone *)

(** The calls given up, and the one that is open. *)
Definition register : Type := list IndexedTool * option IndexedTool.

Definition solo_start (r : register) (id name : string) (custom : bool) (signature : option string) : register :=
  match r.2 with
  | Some existing =>
      if takes_over id existing
      then (r.1 ++ [existing], Some (start_slot blank_indexed_tool id name custom signature))
      else (r.1, Some (start_slot existing id name custom signature))
  | None => (r.1, Some (start_slot blank_indexed_tool id name custom signature))
  end.

Definition solo_delta (r : register) (delta : string) : register :=
  (r.1, Some (push_fragment (unwrap_or r.2 blank_indexed_tool) delta)).

Definition solo_arm (i : Z) (r : register) (ev : IrStreamEvent) : register :=
  match ev with
  | ToolCallStart id name signature index =>
      if index =? i then solo_start r id name false (sig signature) else r
  | CustomToolCallStart id name index => if index =? i then solo_start r id name true None else r
  | ToolCallArgDelta delta index | CustomToolCallInputDelta delta index =>
      if index =? i then solo_delta r delta else r
  | _ => r
  end.

Definition solo (i : Z) (evs : list IrStreamEvent) : list IndexedTool :=
  let r := fold_left (solo_arm i) evs ([], None) in r.1 ++ option_list r.2.

(** The calls the table holds under an index, in the order they are written. *)
Definition calls_at (i : Z) (ts : calls) : list IndexedTool :=
  at_index i (indexed_tool_finish ts).

(** ** The table is its registers *)
Definition registered (i : Z) (ts : calls) : register := (at_index i ts.2, bt_get i ts.1).

Lemma start_registered i ts index id name custom signature :
  bt_sorted ts.1 ->
  bt_sorted (indexed_tool_start ts index id name custom signature).1
  /\ registered i (indexed_tool_start ts index id name custom signature)
     = if index =? i then solo_start (registered i ts) id name custom signature else registered i ts.
Proof.
  destruct ts as [open closed]. cbn [fst]. intros Hs. unfold indexed_tool_start.
  destruct (bt_get index open) as [t|] eqn:E; [destruct (takes_over id t) eqn:T|];
    (split; [cbn [fst]; auto with wire|]); unfold registered, solo_start; cbn [fst snd];
    rewrite ?at_index_app, !bt_get_insert, ?bt_get_remove by done; rewrite (Z.eqb_sym i index);
    (destruct (Z.eqb_spec index i) as [<-|Hne];
     [rewrite ?E; cbn [unwrap_or]; rewrite ?T, ?Z.eqb_refl|]); try reflexivity.
  - unfold at_index. cbn [List.filter fst]. by rewrite Z.eqb_refl.
  - f_equal. unfold at_index at 2. cbn [List.filter fst]. rewrite (proj2 (Z.eqb_neq i index)) by congruence.
    by rewrite app_nil_r.
Qed.

Lemma delta_registered i ts index delta :
  bt_sorted ts.1 ->
  bt_sorted (indexed_tool_delta ts index delta).1
  /\ registered i (indexed_tool_delta ts index delta)
     = if index =? i then solo_delta (registered i ts) delta else registered i ts.
Proof.
  destruct ts as [open closed]. cbn [fst]. intros Hs. unfold indexed_tool_delta.
  split; [cbn [fst]; auto with wire|]. unfold registered, solo_delta. cbn [fst snd].
  rewrite bt_get_insert, (Z.eqb_sym i index). by destruct (Z.eqb_spec index i) as [<-|].
Qed.

Lemma arm_registered i ts ev :
  bt_sorted ts.1 ->
  bt_sorted (call_arm ts ev).1 /\ registered i (call_arm ts ev) = solo_arm i (registered i ts) ev.
Proof. intros Hs. destruct ev; try done; cbn; auto using start_registered, delta_registered. Qed.

Lemma table_registered i evs ts :
  bt_sorted ts.1 ->
  bt_sorted (fold_left call_arm evs ts).1
  /\ registered i (fold_left call_arm evs ts) = fold_left (solo_arm i) evs (registered i ts).
Proof.
  revert ts. induction evs as [|ev evs IH]; intros ts Hs; [done|]. cbn [fold_left].
  destruct (arm_registered i ts ev Hs) as [Hs' <-]. by apply IH.
Qed.

Lemma table_sorted evs : bt_sorted (call_table evs).1.
Proof. exact (proj1 (table_registered 0 evs calls_new bt_sorted_nil)). Qed.

Lemma calls_at_registered i ts :
  bt_sorted ts.1 -> calls_at i ts = (registered i ts).1 ++ option_list (registered i ts).2.
Proof.
  intros Hs. unfold calls_at, indexed_tool_finish. change (at_index i (ts.2 ++ ts.1) = at_index i ts.2 ++ option_list (bt_get i ts.1)).
  by rewrite at_index_app, (at_index_sorted i ts.1).
Qed.

Lemma table_at_index i evs : calls_at i (call_table evs) = solo i evs.
Proof.
  rewrite calls_at_registered by apply table_sorted.
  unfold call_table. destruct (table_registered i evs calls_new bt_sorted_nil) as [_ ->]. reflexivity.
Qed.

(** C5. The calls of a body do not depend on how the indices interleave: under
    each index the table holds what that index alone would have gathered,
    committed calls first. *)
Theorem calls_independent i evs : calls_at i (call_table evs) = solo i evs.
Proof. apply table_at_index. Qed.

(** ** No fragment is lost *)
Definition register_text (r : register) : string := text_concat (map it_args (r.1 ++ option_list r.2)).

Lemma register_text_start r id name custom signature :
  register_text (solo_start r id name custom signature) = register_text r.
Proof.
  destruct r as [l [t|]]; unfold register_text, solo_start; cbn [fst snd].
  - destruct (takes_over id t); cbn [fst snd]; rewrite !map_app, !text_concat_app; cbn;
      rewrite ?str_app_nil_r; done.
  - rewrite !map_app, !text_concat_app. cbn. done.
Qed.

Lemma register_text_delta r delta : register_text (solo_delta r delta) = register_text r +:+ delta.
Proof.
  destruct r as [l [t|]]; unfold register_text, solo_delta; cbn [fst snd];
    rewrite !map_app, !text_concat_app; cbn; by rewrite ?str_app_nil_r, ?str_app_assoc.
Qed.

Lemma solo_text i evs r :
  register_text (fold_left (solo_arm i) evs r) = register_text r +:+ fragments i evs.
Proof.
  revert r. induction evs as [|ev evs IH]; intros r; [cbn; by rewrite str_app_nil_r|].
  cbn [fold_left]. rewrite IH. unfold fragments. cbn [omap list_omap].
  destruct ev; try done; cbn [solo_arm]; destruct (_ =? i); try done;
    rewrite ?register_text_start, ?register_text_delta; cbn; by rewrite ?str_app_assoc.
Qed.

Lemma calls_text i evs : text_concat (map it_args (calls_at i (call_table evs))) = fragments i evs.
Proof. rewrite table_at_index. unfold solo. apply (solo_text i evs ([], None)). Qed.
End Arms.

(** ** What a list of events says *)

(** The texts a message is made of. *)
Inductive channel := ChText | ChRefusal | ChReasoning | ChAudio | ChTranscript.

#[export] Instance channel_eq_dec : EqDecision channel.
Proof. solve_decision. Defined.

(** One text, on its channel. *)
Definition only (ch : channel) (t : string) : channel -> string := fun c => if decide (c = ch) then t else "".

Definition say (ch : channel) (ev : IrStreamEvent) : option string :=
  match ch, ev with
  | ChText, TextDelta t | ChRefusal, RefusalDelta t | ChReasoning, ReasoningDelta t
  | ChAudio, AudioDelta t | ChTranscript, AudioTranscriptDelta t => Some t
  | _, _ => None
  end.

Definition said (ch : channel) (evs : list IrStreamEvent) : string := text_concat (omap (say ch) evs).

Definition is_call (ev : IrStreamEvent) : bool :=
  match ev with
  | ToolCallStart _ _ _ _ | CustomToolCallStart _ _ _ | ToolCallArgDelta _ _ | CustomToolCallInputDelta _ _
  | ToolCallEnd => true
  | _ => false
  end.

Definition calls_of (evs : list IrStreamEvent) : list IrStreamEvent := List.filter is_call evs.

(** The texts and the call events of a list. *)
Definition tells (evs : list IrStreamEvent) (texts : channel -> string) (calls : list IrStreamEvent) : Prop :=
  (forall ch, said ch evs = texts ch) /\ calls_of evs = calls.

(** Where a dialect has no transcripts they are text. *)
Definition transcript_as_text (ev : IrStreamEvent) : IrStreamEvent :=
  match ev with AudioTranscriptDelta t => TextDelta t | ev => ev end.

Definition quiet (ev : IrStreamEvent) : Prop := (forall ch, say ch ev = None) /\ is_call ev = false.

Lemma said_app ch l k : said ch (l ++ k) = said ch l +:+ said ch k.
Proof. unfold said. by rewrite omap_app, text_concat_app. Qed.

Lemma said_cons ch ev l : said ch (ev :: l) = unwrap_or (say ch ev) "" +:+ said ch l.
Proof. unfold said. cbn. by destruct (say ch ev). Qed.

Lemma tells_app l k f g c d :
  tells l f c -> tells k g d -> tells (l ++ k) (fun ch => f ch +:+ g ch) (c ++ d).
Proof.
  intros [Hf <-] [Hg <-]. split.
  - intros ch. by rewrite said_app, Hf, Hg.
  - unfold calls_of. apply List.filter_app.
Qed.

Lemma tells_quiet l : Forall quiet l -> tells l (fun _ => "") [].
Proof.
  induction 1 as [|ev l [H C] _ [IH IC]]; [done|]. split.
  - intros ch. by rewrite said_cons, H, IH.
  - unfold calls_of. cbn. by rewrite C.
Qed.

Ltac silent := split; [by intros []|done].

Lemma quiet_push {A} (f : A -> IrStreamEvent) o : (forall a, o = Some a -> quiet (f a)) -> Forall quiet (push_opt f o).
Proof. destruct o as [a|]; repeat constructor; by destruct (H a eq_refl). Qed.

Lemma quiet_map {A} (f : A -> IrStreamEvent) l : (forall a, quiet (f a)) -> Forall quiet (map f l).
Proof. intros H. induction l; constructor; auto. Qed.

(** One event of a channel, when there is text. *)
Definition speak (ch : channel) (t : string) : IrStreamEvent :=
  match ch with
  | ChText => TextDelta t | ChRefusal => RefusalDelta t | ChReasoning => ReasoningDelta t
  | ChAudio => AudioDelta t | ChTranscript => AudioTranscriptDelta t
  end.

Lemma tells_push ch o : tells (push_opt (speak ch) o) (fun c => unwrap_or (t ← o; say c (speak ch t)) "") [].
Proof.
  destruct o as [t|]; [|done]. split; [|by destruct ch].
  intros c. cbn [push_opt]. rewrite said_cons. apply str_app_nil_r.
Qed.

Lemma tells_text_push ch t : tells (push_opt (speak ch) (nonempty (Some t))) (only ch t) [].
Proof.
  destruct (tells_push ch (nonempty (Some t))) as [S C]. split; [|done].
  intros c. rewrite S. destruct t as [|a t]; by destruct c, ch.
Qed.

Definition start_of (tool : IndexedTool) (index : Z) : IrStreamEvent :=
  if it_custom tool then CustomToolCallStart (it_id tool) (it_name tool) index
  else ToolCallStart (it_id tool) (it_name tool) None index.

Definition delta_of (tool : IndexedTool) (index : Z) : list IrStreamEvent :=
  push_opt (fun delta => if it_custom tool then CustomToolCallInputDelta delta index else ToolCallArgDelta delta index)
    (nonempty (Some (it_args tool))).

(** The events a call is read back as. *)
Definition call_spoken (tool : IndexedTool) (index : Z) : list IrStreamEvent :=
  start_of tool index :: delta_of tool index ++ [ToolCallEnd].

Lemma tells_call tool index : tells (call_spoken tool index) (fun _ => "") (call_spoken tool index).
Proof.
  unfold call_spoken, start_of, delta_of. split.
  - intros ch. destruct (it_custom tool), (nonempty _); by destruct ch.
  - destruct (it_custom tool), (nonempty _); done.
Qed.

(** ** Parts and texts *)
Definition text_part (ty text : string) : json := jobj [("type", JStr ty); ("text", JStr text)].

Definition part_text (part : json) : string := unwrap_or (get_str part "text") "".

Definition parts_text (parts : list json) : string := text_concat (map part_text parts).

Lemma parts_text_app l k : parts_text (l ++ k) = parts_text l +:+ parts_text k.
Proof. unfold parts_text. by rewrite map_app, text_concat_app. Qed.

Lemma part_text_part ty text : part_text (text_part ty text) = text.
Proof. unfold part_text, get_str, text_part. rewrite get_jobj. cbn [assoc_last]. by eqb_literals. Qed.

Lemma flush_typed_text ty text parts : parts_text (flush_typed ty text parts) = parts_text parts +:+ text.
Proof.
  unfold flush_typed. destruct (is_empty text) eqn:E; cbn [negb].
  - destruct text; [by rewrite str_app_nil_r|done].
  - rewrite parts_text_app. unfold parts_text at 2. cbn [map text_concat fold_right].
    change (jobj _) with (text_part ty text). rewrite part_text_part. by rewrite str_app_nil_r.
Qed.

Lemma as_str_jobj kvs : as_str (jobj kvs) = None.
Proof. done. Qed.

Lemma opt_or_None {A} (o : option A) : opt_or o None = o.
Proof. by destruct o. Qed.

Lemma if_text_str t : nonempty (if_text t ≫= as_str) = nonempty (Some t).
Proof. unfold if_text, nonempty. cbn [opt_filter]. by destruct t. Qed.

Lemma tells_if_text ch t : tells (push_opt (speak ch) (nonempty (if_text t ≫= as_str))) (only ch t) [].
Proof. rewrite if_text_str. apply tells_text_push. Qed.

Lemma collect_map {A B} (f : json -> result MapError (list B)) (g : A -> json) (h : A -> list B) l :
  (forall a, f (g a) = Ok (h a)) -> collect f (map g l) = Ok (flat_map h l).
Proof. intros H. induction l as [|a l IH]; [done|]. cbn. by rewrite H, IH. Qed.

(** The text of the parts of one type. *)
Definition typed_text (ty : string) (part : json) : string :=
  if bool_decide (get_str part "type" = Some ty) then part_text part else "".

Definition typed_parts (ty : string) (parts : list json) : string := text_concat (map (typed_text ty) parts).

Lemma typed_parts_app ty l k : typed_parts ty (l ++ k) = typed_parts ty l +:+ typed_parts ty k.
Proof. unfold typed_parts. by rewrite map_app, text_concat_app. Qed.

Lemma typed_text_part ty text : typed_text ty (text_part ty text) = text.
Proof.
  unfold typed_text. rewrite part_text_part, bool_decide_true; [done|].
  unfold text_part, get_str. by rewrite get_jobj.
Qed.

Lemma flush_typed_parts ty text parts : typed_parts ty (flush_typed ty text parts) = typed_parts ty parts +:+ text.
Proof.
  unfold flush_typed. destruct (is_empty text) eqn:E; cbn [negb].
  - destruct text; [by rewrite str_app_nil_r|done].
  - rewrite typed_parts_app. change (jobj _) with (text_part ty text). unfold typed_parts at 2. cbn [map text_concat fold_right].
    by rewrite typed_text_part, str_app_nil_r.
Qed.

Lemma typed_parts_foreign ty part ty' :
  get_str part "type" = Some ty' -> ty' <> ty -> typed_parts ty [part] = "".
Proof.
  intros T N. unfold typed_parts, typed_text. cbn [map]. rewrite T, bool_decide_false; [done|]. congruence.
Qed.
