(* ===== verification/CompleteChat.v ===== *)
(** * CompleteChat: whole Chat Completions bodies

    The Chat half of src/crates/wiremux/src/stream/complete.rs:
    [encode_chat_complete] folds the events into one [chat.completion] object,
    [decode_chat_complete] reads [choices[0].message] back. *)

From S2P Require Import Prelude Fields Text Json JsonCodec Ir ProfileTypes StreamCore Usage Completion BTree Shapes Chat.
From S2P Require Import CompleteCalls.

(** ** Encoding *)

(** The locals of [encode_chat_complete]. *)
Record chat_body := mkChatBody {
  cb_text : string; cb_refusal : string; cb_reasoning : string; cb_signature : option string;
  cb_finish : option string; cb_usage : option (Z * Z * Z * Z * Z * Z * Z); cb_annotations : list json;
  cb_audio_data : string; cb_audio_transcript : string; cb_audio_id : option string;
  cb_audio_expires : option json; cb_accepted : option Z; cb_rejected : option Z;
  cb_images : list json; cb_logprobs_content : list json; cb_logprobs_refusal : list json;
  cb_created : option Z; cb_service_tier : option string; cb_fingerprint : option string;
  cb_completion_id : option string; cb_metadata : option (list (string * string));
  cb_moderation : option (option json * option json); cb_calls : calls
}.

#[export] Instance chat_body_eta : Eta chat_body := fun s =>
  mkChatBody (cb_text s) (cb_refusal s) (cb_reasoning s) (cb_signature s) (cb_finish s) (cb_usage s)
    (cb_annotations s) (cb_audio_data s) (cb_audio_transcript s) (cb_audio_id s) (cb_audio_expires s)
    (cb_accepted s) (cb_rejected s) (cb_images s) (cb_logprobs_content s) (cb_logprobs_refusal s)
    (cb_created s) (cb_service_tier s) (cb_fingerprint s) (cb_completion_id s) (cb_metadata s)
    (cb_moderation s) (cb_calls s).

#[export] Instance over_cb_text : Field cb_text := ltac:(derive_field).
#[export] Instance over_cb_refusal : Field cb_refusal := ltac:(derive_field).
#[export] Instance over_cb_reasoning : Field cb_reasoning := ltac:(derive_field).
#[export] Instance over_cb_signature : Field cb_signature := ltac:(derive_field).
#[export] Instance over_cb_finish : Field cb_finish := ltac:(derive_field).
#[export] Instance over_cb_usage : Field cb_usage := ltac:(derive_field).
#[export] Instance over_cb_annotations : Field cb_annotations := ltac:(derive_field).
#[export] Instance over_cb_audio_data : Field cb_audio_data := ltac:(derive_field).
#[export] Instance over_cb_audio_transcript : Field cb_audio_transcript := ltac:(derive_field).
#[export] Instance over_cb_audio_id : Field cb_audio_id := ltac:(derive_field).
#[export] Instance over_cb_audio_expires : Field cb_audio_expires := ltac:(derive_field).
#[export] Instance over_cb_accepted : Field cb_accepted := ltac:(derive_field).
#[export] Instance over_cb_rejected : Field cb_rejected := ltac:(derive_field).
#[export] Instance over_cb_images : Field cb_images := ltac:(derive_field).
#[export] Instance over_cb_logprobs_content : Field cb_logprobs_content := ltac:(derive_field).
#[export] Instance over_cb_logprobs_refusal : Field cb_logprobs_refusal := ltac:(derive_field).
#[export] Instance over_cb_created : Field cb_created := ltac:(derive_field).
#[export] Instance over_cb_service_tier : Field cb_service_tier := ltac:(derive_field).
#[export] Instance over_cb_fingerprint : Field cb_fingerprint := ltac:(derive_field).
#[export] Instance over_cb_completion_id : Field cb_completion_id := ltac:(derive_field).
#[export] Instance over_cb_metadata : Field cb_metadata := ltac:(derive_field).
#[export] Instance over_cb_moderation : Field cb_moderation := ltac:(derive_field).
#[export] Instance over_cb_calls : Field cb_calls := ltac:(derive_field).

Definition chat_body_new : chat_body := {|
  cb_text := ""; cb_refusal := ""; cb_reasoning := ""; cb_signature := None; cb_finish := None;
  cb_usage := None; cb_annotations := []; cb_audio_data := ""; cb_audio_transcript := "";
  cb_audio_id := None; cb_audio_expires := None; cb_accepted := None; cb_rejected := None;
  cb_images := []; cb_logprobs_content := []; cb_logprobs_refusal := []; cb_created := None;
  cb_service_tier := None; cb_fingerprint := None; cb_completion_id := None; cb_metadata := None;
  cb_moderation := None; cb_calls := calls_new |}.

(** The identities and counts that travel as [Protocol] events. *)
Definition chat_protocol (item_type : string) (payload : json) (s : chat_body) : chat_body :=
  match not_blank (as_str payload) with
  | Some text =>
      if String.eqb item_type "system_fingerprint" then s <| cb_fingerprint := Some text |>
      else if String.eqb item_type "chat_completion_id" then s <| cb_completion_id := Some text |>
      else if String.eqb item_type "chat_audio_id" then s <| cb_audio_id := Some text |>
      else s
  | None =>
      let count := as_u64 payload ≫= u32_try_from in
      if String.eqb item_type "chat_audio_expires" && is_number payload
      then s <| cb_audio_expires := Some payload |>
      else if String.eqb item_type "chat_accepted_prediction_tokens" then s <| cb_accepted := count |>
      else if String.eqb item_type "chat_rejected_prediction_tokens" then s <| cb_rejected := count |>
      else s
  end.

Definition chat_body_event (s : chat_body) (ev : IrStreamEvent) : chat_body :=
  match ev with
  | TextDelta delta => s <| cb_text ::= fun text => text +:+ delta |>
  | RefusalDelta delta => s <| cb_refusal ::= fun refusal => refusal +:+ delta |>
  | ReasoningDelta delta => s <| cb_reasoning ::= fun reasoning => reasoning +:+ delta |>
  | ReasoningSignature signature => s <| cb_signature := Some signature |>
  | AnnotationAdded annotation => s <| cb_annotations ::= fun anns => anns ++ [annotation_to_chat annotation] |>
  | AudioDelta data => s <| cb_audio_data ::= fun audio => audio +:+ data |>
  | ImageDelta media_type data =>
      s <| cb_images ::= fun images =>
             flush_typed "text" (cb_text s) images ++ [chat_image_url_part media_type data] |>
        <| cb_text := "" |>
  | AudioTranscriptDelta text => s <| cb_audio_transcript ::= fun transcript => transcript +:+ text |>
  | Logprobs content refusal =>
      let s := s <| cb_logprobs_content ::= fun l => extend_logprobs_content l content |> in
      match refusal with
      | Some refusal => s <| cb_logprobs_refusal ::= fun l => extend_logprobs_content l refusal |>
      | None => s
      end
  | Created unix => s <| cb_created := Some unix |>
  | ServiceTier tier => s <| cb_service_tier := Some tier |>
  | Protocol item_type payload => chat_protocol item_type payload s
  | Metadata metadata => s <| cb_metadata := Some metadata |>
  | Moderation input output => s <| cb_moderation := Some (input, output) |>
  | FinishReason reason _ => s <| cb_finish := Some reason |>
  | Usage p c cr cw r a ca _ => s <| cb_usage := Some (p, c, cr, cw, r, a, ca) |>
  | ToolCallStart _ _ _ _ | CustomToolCallStart _ _ _ | ToolCallArgDelta _ _ | CustomToolCallInputDelta _ _ =>
      s <| cb_calls ::= fun ts => call_arm no_signature ts ev |>
  | _ => s
  end.

Definition chat_message_content (text refusal : string) (images : list json) (no_tools : bool) : json :=
  match images with
  | [] => if is_empty text && (negb (is_empty refusal) || negb no_tools) then JNull else JStr text
  | _ => JArr (flush_typed "text" text images)
  end.

Definition chat_tool_call_value (id name args : string) (custom : bool) : json :=
  if custom then
    jobj [("id", JStr id); ("type", JStr "custom");
          ("custom", jobj [("name", JStr name); ("input", JStr args)])]
  else
    jobj [("id", JStr id); ("type", JStr "function");
          ("function", jobj [("name", JStr name); ("arguments", JStr args)])].

Definition chat_tool_calls (s : chat_body) : list json :=
  map (fun it => chat_tool_call_value (it_id it.2) (it_name it.2) (it_args it.2) (it_custom it.2))
    (indexed_tool_finish (cb_calls s)).

Definition chat_finish (s : chat_body) (saw_tool : bool) : option string :=
  match cb_finish s with
  | Some reason => Some (finish_after_tool reason saw_tool)
  | None => if saw_tool then Some "tool_calls" else None
  end.

Definition chat_audio (s : chat_body) : option json :=
  if negb (is_empty (cb_audio_data s)) || negb (is_empty (cb_audio_transcript s))
     || is_some (cb_audio_id s) || is_some (cb_audio_expires s)
  then
    Some (set_opt "transcript" (if_text (cb_audio_transcript s))
           (set_opt "data" (if_text (cb_audio_data s))
             (set_opt "expires_at" (cb_audio_expires s)
               (set_opt "id" (JStr <$> cb_audio_id s) (jobj [])))))
  else None.

Definition chat_message (s : chat_body) : json :=
  let tool_calls := chat_tool_calls s in
  let message := jobj [("role", JStr "assistant")] in
  let message := index_set message "content"
    (chat_message_content (cb_text s) (cb_refusal s) (cb_images s) (bool_decide (tool_calls = []))) in
  let message := set_opt "tool_calls" (if_items tool_calls) message in
  let message := set_opt "refusal" (if_text (cb_refusal s)) message in
  let message := set_opt "reasoning_content" (if_text (cb_reasoning s)) message in
  let message := set_opt "reasoning_signature" (JStr <$> cb_signature s) message in
  let message := set_opt "annotations" (if_items (cb_annotations s)) message in
  set_opt "audio" (chat_audio s) message.

Definition chat_logprobs (s : chat_body) : option json :=
  let content := if_items (cb_logprobs_content s) in
  let refusal := if_items (cb_logprobs_refusal s) in
  if is_some content || is_some refusal
  then Some (set_opt "refusal" refusal (set_opt "content" content (jobj []))) else None.

Definition chat_body_choice (s : chat_body) : json :=
  let choice := jobj [("index", jint 0); ("message", chat_message s)] in
  let choice := set_opt "logprobs" (chat_logprobs s) choice in
  set_opt "finish_reason" (JStr <$> chat_finish s (negb (bool_decide (chat_tool_calls s = [])))) choice.

Definition chat_usage_body (s : chat_body) : option json :=
  '(p, c, cr, cw, r, a, ca) ← cb_usage s;
  usage ← get (encode_chat p c cr cw r a ca) "usage";
  Some (insert_chat_prediction_tokens usage (cb_accepted s) (cb_rejected s)).

Definition chat_body_json (s : chat_body) (model : string) : json :=
  let out := jobj [("id", JStr (unwrap_or (cb_completion_id s) "chatcmpl-wiremux"));
                   ("object", JStr "chat.completion"); ("choices", JArr [chat_body_choice s])] in
  let out := set_opt "model" (if_text model) out in
  let out := set_opt "created" (jint <$> cb_created s) out in
  let out := set_opt "service_tier" (JStr <$> cb_service_tier s) out in
  let out := set_opt "system_fingerprint" (JStr <$> cb_fingerprint s) out in
  let out := set_opt "metadata" (metadata_body (cb_metadata s)) out in
  let out := set_opt "moderation" ('(input, output) ← cb_moderation s; chat_moderation_value input output) out in
  set_opt "usage" (chat_usage_body s) out.

Definition encode_chat_complete (events : list IrStreamEvent) (model : string) : json :=
  chat_body_json (fold_left chat_body_event events chat_body_new) model.

(** ** Decoding *)
Section Serializer.
Context {SJ : SerdeJson}.

Definition complete_chat_custom_call (call : json) : result MapError (list IrStreamEvent) :=
  let custom := unwrap_or (get call "custom") call in
  let id := unwrap_or (str_field call "id") "" in
  let name := unwrap_or (str_field custom "name") "" in
  let* input := json_text_field custom "input" in
  let index := tool_call_index call in
  Ok ([CustomToolCallStart id name index]
      ++ push_opt (fun delta => CustomToolCallInputDelta delta index) input ++ [ToolCallEnd]).

Definition complete_chat_tool_call (call : json) : result MapError (list IrStreamEvent) :=
  if bool_decide (get_str call "type" = Some "custom") then complete_chat_custom_call call
  else if foreign_type call then Ok [Protocol "chunk" call]
  else
    let func := unwrap_or (get call "function") call in
    let id := unwrap_or (str_field call "id") "" in
    let name := unwrap_or (str_field func "name") "" in
    let* args := json_text_field func "arguments" in
    let index := tool_call_index call in
    Ok ([ToolCallStart id name None index]
        ++ push_opt (fun delta => ToolCallArgDelta delta index) args ++ [ToolCallEnd]).

Definition complete_chat_calls (message : json) : result MapError (list IrStreamEvent) :=
  match get_array message "tool_calls" with
  | Some calls =>
      collect (fun call =>
        let* _ := check_index call "index" MAX_TOOL_CALL_INDEX "tool call" in complete_chat_tool_call call) calls
  | None => match object_field message "function_call" with Some fc => complete_chat_tool_call fc | None => Ok [] end
  end.

Definition complete_chat_audio (message : json) : list IrStreamEvent :=
  match object_field message "audio" with Some audio => audio_events audio | None => [] end.

Definition complete_chat_annotations (message : json) : list IrStreamEvent :=
  match get_array message "annotations" with
  | Some anns => map (fun ann => AnnotationAdded (annotation_from_chat ann)) (List.filter is_object anns)
  | None => []
  end.

Definition complete_chat_message (message : json) : result MapError (list IrStreamEvent) :=
  let* calls := complete_chat_calls message in
  Ok (push_opt ReasoningDelta
        (nonempty (opt_or (get message "reasoning_content") (get message "reasoning") ≫= as_str))
      ++ push_opt ReasoningSignature (nonempty (get_str message "reasoning_signature"))
      ++ match get message "content" with Some content => content_events content | None => [] end
      ++ push_opt RefusalDelta (nonempty (get_str message "refusal"))
      ++ complete_chat_annotations message ++ complete_chat_audio message ++ calls).

Definition complete_chat_choice (choice : json) : result MapError (list IrStreamEvent) :=
  let* message := match get choice "message" with Some message => complete_chat_message message | None => Ok [] end in
  Ok (message ++ push_opt (fun ev => ev) (chat_logprobs_event choice)
      ++ push_opt (fun reason => FinishReason (map_finish reason) None)
           (nonempty (get_str choice "finish_reason"))).

Definition complete_chat_head (value : json) : list IrStreamEvent :=
  push_opt ServiceTier (nonempty (get_str value "service_tier"))
  ++ push_opt (fun ev => ev) (system_fingerprint_event value)
  ++ push_opt (fun ev => ev) (completion_id_event value)
  ++ push_opt Created (get value "created" ≫= as_i64)
  ++ push_opt Metadata (string_metadata (get value "metadata"))
  ++ push_opt (fun ev => ev) (moderation_event value).

Definition complete_chat_usage (value : json) : list IrStreamEvent :=
  match object_field value "usage" with
  | Some usage => from_chat usage :: chat_prediction_token_events usage
  | None => []
  end.

Definition decode_chat_complete (value : json) : result MapError (list IrStreamEvent) :=
  match (if json_has_completion value then None else plain_error_detail value) with
  | Some detail => Err (Invalid detail)
  | None =>
      let* choice := match get_array value "choices" ≫= head with
                     | Some choice => complete_chat_choice choice
                     | None => Ok []
                     end in
      Ok (complete_chat_head value ++ choice ++ complete_chat_usage value)
  end.
End Serializer.

(** ** What a body is made of *)

Lemma image_part_silent m d : parts_text [chat_image_url_part m d] = "".
Proof. unfold parts_text, part_text, get_str, chat_image_url_part. cbn [map]. by rewrite get_jobj. Qed.

(** The parts [content] is written with: text that is not empty, or an image. *)
Definition written_part (part : json) : Prop :=
  (exists t, is_empty t = false /\ part = text_part "text" t) \/ (exists m d, part = chat_image_url_part m d).

Lemma flush_typed_written text parts :
  Forall written_part parts -> Forall written_part (flush_typed "text" text parts).
Proof.
  intros H. unfold flush_typed. destruct (is_empty text) eqn:E; [done|]. cbn [negb]. apply Forall_app. split; [done|].
  constructor; [|done]. left. by exists text.
Qed.

Definition body_said (s : chat_body) (ch : channel) : string :=
  match ch with
  | ChText => parts_text (cb_images s) +:+ cb_text s
  | ChRefusal => cb_refusal s
  | ChReasoning => cb_reasoning s
  | ChAudio => cb_audio_data s
  | ChTranscript => cb_audio_transcript s
  end.

Lemma chat_protocol_keeps item_type payload s :
  cb_images (chat_protocol item_type payload s) = cb_images s
  /\ (forall ch, body_said (chat_protocol item_type payload s) ch = body_said s ch)
  /\ cb_calls (chat_protocol item_type payload s) = cb_calls s.
Proof.
  unfold chat_protocol. destruct (not_blank _);
    repeat (lazymatch goal with |- context [if ?b then _ else _] => destruct b end);
    (split; [done|split; [|done]]); intros ch; by destruct ch.
Qed.

Lemma chat_event_keeps s ev :
  Forall written_part (cb_images s) ->
  Forall written_part (cb_images (chat_body_event s ev))
  /\ (forall ch, body_said (chat_body_event s ev) ch = body_said s ch +:+ unwrap_or (say ch ev) "")
  /\ cb_calls (chat_body_event s ev) = call_arm no_signature (cb_calls s) ev.
Proof.
  intros H. destruct ev;
    try (split; [exact H|split; [|reflexivity]]; intros ch; destruct ch; (reflexivity || (symmetry; apply str_app_nil_r))).
  - split; [exact H|split; [|reflexivity]]. intros ch; destruct ch; try (symmetry; apply str_app_nil_r).
    change (parts_text (cb_images s) +:+ cb_text s +:+ text = (parts_text (cb_images s) +:+ cb_text s) +:+ text).
    by rewrite str_app_assoc.
  - split; [|split; [|reflexivity]].
    + change (Forall written_part (flush_typed "text" (cb_text s) (cb_images s) ++ [chat_image_url_part media_type data])).
      apply Forall_app. split; [by apply flush_typed_written|]. constructor; [|done]. right. by do 2 eexists.
    + intros ch; destruct ch; try (symmetry; apply str_app_nil_r).
      change (parts_text (flush_typed "text" (cb_text s) (cb_images s) ++ [chat_image_url_part media_type data]) +:+ ""
              = (parts_text (cb_images s) +:+ cb_text s) +:+ "").
      by rewrite parts_text_app, flush_typed_text, image_part_silent, !str_app_nil_r.
  - destruct refusal; (split; [exact H|split; [|reflexivity]]); intros ch; destruct ch; symmetry; apply str_app_nil_r.
  - destruct (chat_protocol_keeps item_type payload s) as (I & B & C). cbn [chat_body_event]. rewrite I, C.
    split; [done|]. split; [|done]. intros ch. rewrite B. by destruct ch; rewrite str_app_nil_r.
Qed.

Lemma chat_events_keep evs s :
  Forall written_part (cb_images s) ->
  let s' := fold_left chat_body_event evs s in
  Forall written_part (cb_images s')
  /\ (forall ch, body_said s' ch = body_said s ch +:+ said ch evs)
  /\ cb_calls s' = fold_left (call_arm no_signature) evs (cb_calls s).
Proof.
  cbv zeta. revert s. induction evs as [|ev evs IH]; intros s H.
  - split; [done|]. split; [|done]. intros ch. symmetry. apply str_app_nil_r.
  - cbn [fold_left]. destruct (chat_event_keeps s ev H) as (H1 & B1 & C1).
    destruct (IH _ H1) as (H2 & B2 & C2). split; [done|]. split; [|by rewrite C2, C1].
    intros ch. by rewrite B2, B1, said_cons, str_app_assoc.
Qed.

(** ** What a body is read back as *)
Lemma tells_text evs :
  (forall ev, In ev evs -> is_call ev = false /\ forall ch, ch <> ChText -> say ch ev = None) ->
  tells evs (fun ch => match ch with ChText => text_of evs | _ => "" end) [].
Proof.
  induction evs as [|ev evs IH]; intros H; [split; [by intros []|done]|].
  destruct IH as [IH IC]; [intros; apply H; by right|]. destruct (H ev) as [C S]; [by left|]. split.
  - intros ch. rewrite said_cons, IH. destruct ch; try (by rewrite S). by destruct ev.
  - unfold calls_of in *. cbn. by rewrite C.
Qed.

Lemma content_event content ev :
  In ev (content_events content) -> is_call ev = false /\ forall ch, ch <> ChText -> say ch ev = None.
Proof.
  set (plain := fun ev => is_call ev = false /\ forall ch, ch <> ChText -> say ch ev = None).
  assert (T : forall t, Forall plain (flush_text t)).
  { intros t. unfold flush_text. destruct (is_empty t); repeat constructor. by intros []. }
  assert (I : forall part, plain (unwrap_or (image_event_from_part part) (protocol "image_url" part))).
  { intros part. destruct (image_event_from_part part) as [e|] eqn:E; cbn [unwrap_or]; [|split; [done|by intros []]].
    unfold image_event_from_part in E. destruct (negb _); [done|].
    destruct (pointer_str part _) as [url|]; [|done]. cbn [mbind option_bind] in E.
    destruct (strip_prefix "data:" url) as [rest|]; [|done]. cbn [mbind option_bind] in E.
    destruct (split_once_str ";base64," rest) as [[m d]|]; [|done]. cbn [mbind option_bind] in E.
    destruct (_ || _); [done|]. injection E as <-. split; [done|by intros []]. }
  enough (F : Forall plain (content_events content)) by (rewrite List.Forall_forall in F; apply F).
  unfold content_events. destruct (nonempty _); [repeat constructor; by intros []|].
  destruct (as_array content) as [parts|]; [|done].
  assert (P : forall parts out text, Forall plain out ->
    Forall plain (let '(out, text) := fold_left content_part parts (out, text) in out ++ flush_text text)).
  { clear parts. intros parts. induction parts as [|part parts IH]; intros out text Ho; cbn [fold_left].
    - apply Forall_app. by split.
    - unfold content_part at 2. destruct (as_str part); [by apply IH|]. destruct (bool_decide _).
      + apply IH. rewrite !Forall_app. repeat split; auto.
      + by destruct (text_piece part); apply IH. }
  by apply P.
Qed.

Lemma tells_content content :
  tells (content_events content)
    (fun ch => match ch with ChText => unwrap_or (flatten_content content) "" | _ => "" end) [].
Proof.
  destruct (tells_text (content_events content) (content_event content)) as [S C]. split; [|done].
  intros ch. rewrite S. destruct ch; [apply content_events_flat|done..].
Qed.

Lemma flatten_written parts acc :
  Forall written_part parts -> fold_left flatten_part parts acc = acc +:+ parts_text parts.
Proof.
  intros H. revert acc. induction H as [|part parts W _ IH]; intros acc; [by rewrite str_app_nil_r|].
  cbn [fold_left]. rewrite IH. change (part :: parts) with ([part] ++ parts). rewrite parts_text_app, <- str_app_assoc.
  f_equal. destruct W as [(t & _ & ->)|(m & d & ->)].
  - unfold parts_text. cbn [map text_concat fold_right]. rewrite part_text_part, str_app_nil_r.
    unfold flatten_part, text_part, text_piece, get_str. rewrite as_str_jobj. read_json.
    cbn [mbind option_bind as_str is_none orb]. by rewrite bool_decide_true.
  - rewrite image_part_silent, str_app_nil_r. unfold flatten_part, chat_image_url_part, text_piece, get_str.
    rewrite as_str_jobj. read_json. cbn [mbind option_bind as_str is_none orb]. by rewrite bool_decide_false.
Qed.

Lemma flatten_message text refusal images no_tools :
  Forall written_part images ->
  unwrap_or (flatten_content (chat_message_content text refusal images no_tools)) "" = parts_text images +:+ text.
Proof.
  intros H. unfold chat_message_content. destruct images as [|i images].
  - destruct (is_empty text) eqn:E.
    + destruct text; [|done]. by destruct (_ || _).
    + cbn [andb]. unfold flatten_content. cbn [as_str]. by rewrite nonempty_is.
  - unfold flatten_content. cbn [as_str nonempty opt_filter as_array mbind option_bind].
    rewrite flatten_written by (by apply flush_typed_written). rewrite flush_typed_text.
    cbn [String.append]. set (t := parts_text _ +:+ _). by destruct t.
Qed.

Section Reading.
Context {SJ : SerdeJson}.

Lemma written_call tool :
  complete_chat_tool_call (chat_tool_call_value (it_id tool) (it_name tool) (it_args tool) (it_custom tool))
  = Ok (call_spoken tool 0).
Proof.
  unfold complete_chat_tool_call, chat_tool_call_value, call_spoken, start_of, delta_of.
  destruct (it_custom tool).
  - unfold get_str at 1. read_json. cbn [mbind option_bind as_str]. rewrite bool_decide_true by done.
    unfold complete_chat_custom_call, tool_call_index, str_field, get_str, json_text_field. read_json.
    cbn [unwrap_or]. read_json. cbn [mbind option_bind as_str unwrap_or]. by destruct (it_args tool).
  - unfold get_str at 1. read_json. cbn [mbind option_bind as_str]. rewrite bool_decide_false by done.
    unfold foreign_type, get_str at 1. read_json. cbn [mbind option_bind as_str is_some_and]. eqb_literals. cbn [negb].
    unfold tool_call_index, str_field, get_str, json_text_field. read_json.
    cbn [unwrap_or]. read_json. cbn [mbind option_bind as_str unwrap_or]. by destruct (it_args tool).
Qed.

Lemma written_call_index tool :
  check_index (chat_tool_call_value (it_id tool) (it_name tool) (it_args tool) (it_custom tool)) "index"
    MAX_TOOL_CALL_INDEX "tool call" = Ok tt.
Proof. unfold check_index, chat_tool_call_value. by destruct (it_custom tool); read_json. Qed.

(** The events the calls of a body are read back as. *)
Definition calls_spoken (ts : calls) : list IrStreamEvent :=
  flat_map (fun it => call_spoken it.2 0) (indexed_tool_finish ts).

Lemma tells_calls ts : tells (calls_spoken ts) (fun _ => "") (calls_spoken ts).
Proof.
  unfold calls_spoken. induction (indexed_tool_finish ts) as [|it l [IH IC]]; [done|]. cbn [flat_map].
  destruct (tells_call it.2 0) as [S C]. split.
  - intros ch. by rewrite said_app, IH, S.
  - unfold calls_of in *. by rewrite List.filter_app, C, IC.
Qed.

Lemma quiet_identity audio : Forall quiet (audio_identity_events audio).
Proof. apply Forall_app. split; apply quiet_push; intros ? _; by split; [intros []|]. Qed.

Lemma tells_audio s :
  tells (complete_chat_audio (chat_message s))
    (fun c => only ChAudio (cb_audio_data s) c +:+ only ChTranscript (cb_audio_transcript s) c) [].
Proof.
  unfold complete_chat_audio, object_field, chat_message. read_json. rewrite opt_or_None.
  unfold chat_audio. destruct (_ || _) eqn:B.
  - cbn [mbind option_bind opt_filter]. rewrite !is_object_set_opt, is_object_jobj. cbn iota.
    unfold audio_events, str_field, get_str. read_json. rewrite !opt_or_None.
    rewrite (app_assoc (push_opt AudioDelta _)).
    pose proof (tells_app _ _ _ _ _ _ (tells_if_text ChAudio (cb_audio_data s))
      (tells_if_text ChTranscript (cb_audio_transcript s))) as T.
    set (audio := set_opt "transcript" _ _).
    destruct (tells_app _ _ _ _ _ _ T (tells_quiet _ (quiet_identity audio))) as [S C].
    split; [|exact C]. intros ch. etransitivity; [apply S|]. apply str_app_nil_r.
  - cbn [mbind option_bind opt_filter]. apply orb_false_iff in B as [[[B1 B2]%orb_false_iff _]%orb_false_iff _].
    destruct (cb_audio_data s), (cb_audio_transcript s); try done. split; [by intros []|done].
Qed.

Lemma calls_read s : complete_chat_calls (chat_message s) = Ok (calls_spoken (cb_calls s)).
Proof.
  unfold complete_chat_calls, get_array, object_field, chat_message. read_json. rewrite opt_or_None.
  unfold chat_tool_calls, calls_spoken. destruct (indexed_tool_finish (cb_calls s)) as [|it l] eqn:E; [done|].
  cbn [map if_items mbind option_bind as_array].
  change (chat_tool_call_value _ _ _ _ :: map ?f l) with (map f (it :: l)).
  rewrite (collect_map _ _ (fun it => call_spoken it.2 0)); [done|].
  intros a. rewrite written_call_index. apply written_call.
Qed.

Lemma tells_message s :
  Forall written_part (cb_images s) ->
  exists out, complete_chat_message (chat_message s) = Ok out /\ tells out (body_said s) (calls_spoken (cb_calls s)).
Proof.
  intros W. unfold complete_chat_message. rewrite calls_read. cbn [rbind]. eexists. split; [reflexivity|].
  assert (A : Forall quiet (complete_chat_annotations (chat_message s))).
  { unfold complete_chat_annotations. destruct (get_array _ _); [|done]. apply quiet_map. intros a. by split; [intros []|]. }
  pose proof (tells_audio s) as T.
  pose proof (tells_app _ _ _ _ _ _ (tells_quiet _ A) (tells_app _ _ _ _ _ _ T (tells_calls (cb_calls s)))) as Z.
  clear A T. set (tail := complete_chat_annotations _ ++ _) in *. clearbody tail.
  unfold get_str, chat_message at 1 2 3 4 5. read_json. rewrite !opt_or_None.
  assert (R : opt_or (if_text (cb_reasoning s)) None = if_text (cb_reasoning s)) by apply opt_or_None.
  pose proof (tells_if_text ChReasoning (cb_reasoning s)) as T1.
  pose proof (tells_if_text ChRefusal (cb_refusal s)) as T2.
  set (no_tools := bool_decide _). clearbody no_tools.
  pose proof (tells_content (chat_message_content (cb_text s) (cb_refusal s) (cb_images s) no_tools)) as T3.
  assert (S : Forall quiet (push_opt ReasoningSignature (nonempty ((JStr <$> cb_signature s) ≫= as_str)))).
  { apply quiet_push. intros a _. by split; [intros []|]. }
  destruct (tells_app _ _ _ _ _ _ T1 (tells_app _ _ _ _ _ _ (tells_quiet _ S)
    (tells_app _ _ _ _ _ _ T3 (tells_app _ _ _ _ _ _ T2 Z)))) as [Say Calls].
  split; [|exact Calls]. intros ch. etransitivity; [apply Say|]. rewrite (flatten_message _ _ _ _ W).
  by destruct ch; cbn; rewrite ?str_app_nil_r.
Qed.

Lemma chat_value_get s model k :
  one_of k ["error"; "response"] = true -> get (chat_body_json s model) k = None.
Proof.
  intros H. apply one_of_In in H. unfold chat_body_json. destruct H as [<-|[<-|[]]]; by read_json.
Qed.

Lemma quiet_head value : Forall quiet (complete_chat_head value).
Proof.
  unfold complete_chat_head. rewrite !Forall_app. repeat split; apply quiet_push; intros ev E; try silent.
  - unfold system_fingerprint_event in E. destruct (not_blank _); [|done]. injection E as <-. silent.
  - unfold completion_id_event in E. destruct (not_blank _); [|done]. injection E as <-. silent.
  - unfold moderation_event in E. destruct (opt_or _ _); [|done]. cbn [mbind option_bind] in E.
    destruct (negb _); [done|]. destruct (_ && _); [done|]. injection E as <-. silent.
Qed.

Lemma quiet_logprobs choice : Forall quiet (push_opt (fun ev => ev) (chat_logprobs_event choice)).
Proof.
  apply quiet_push. intros ev E. unfold chat_logprobs_event in E. destruct (get choice _); [|done].
  cbn [mbind option_bind] in E. destruct (_ && _); [done|]. injection E as <-. silent.
Qed.

Lemma quiet_usage value : Forall quiet (complete_chat_usage value).
Proof.
  unfold complete_chat_usage. destruct (object_field value "usage") as [usage|]; [|done]. constructor; [silent|].
  unfold chat_prediction_token_events, prediction_event. cbn [flat_map]. rewrite !Forall_app.
  repeat split; try done; (destruct (opt_filter _ _); [|done]); apply Forall_cons; (split; [silent|done]).
Qed.

(** C4. A Chat body always reads back, and what it says is what the events
    said: on every channel the same text, however the pieces interleave with
    images and calls, and the calls of the table in the order they are
    written, each with its id, name and whole argument text. *)
Theorem chat_body_says evs model :
  exists out, decode_chat_complete (encode_chat_complete evs model) = Ok out
    /\ (forall ch, said ch out = said ch evs)
    /\ calls_of out = calls_spoken (call_table no_signature evs).
Proof.
  destruct (chat_events_keep evs chat_body_new) as (W & B & C); [done|]. unfold encode_chat_complete.
  set (s := fold_left chat_body_event evs chat_body_new) in *.
  assert (E : plain_error_detail (chat_body_json s model) = None).
  { unfold plain_error_detail, json_string_error, trimmed_str, get_str, object_field.
    by rewrite (chat_value_get s model "error"). }
  unfold decode_chat_complete. rewrite E. 
  destruct (tells_message s W) as (out & M & T).
  replace (if json_has_completion _ then _ else _) with (@None string) by (by destruct (json_has_completion _)).
  replace (get_array (chat_body_json s model) "choices" ≫= head) with (Some (chat_body_choice s))
    by (unfold get_array, chat_body_json; by read_json).
  unfold complete_chat_choice.
  replace (get (chat_body_choice s) "message") with (Some (chat_message s)) by (unfold chat_body_choice; by read_json).
  rewrite M. cbn [rbind]. eexists. split; [reflexivity|].
  assert (F : Forall quiet (push_opt (fun reason => FinishReason (map_finish reason) None)
                (nonempty (get_str (chat_body_choice s) "finish_reason")))) by (apply quiet_push; intros; silent).
  destruct (tells_app _ _ _ _ _ _ (tells_quiet _ (quiet_head (chat_body_json s model)))
    (tells_app _ _ _ _ _ _
      (tells_app _ _ _ _ _ _ T (tells_app _ _ _ _ _ _ (tells_quiet _ (quiet_logprobs (chat_body_choice s))) (tells_quiet _ F)))
      (tells_quiet _ (quiet_usage (chat_body_json s model))))) as [Say Calls].
  split.
  - intros ch. etransitivity; [apply Say|]. cbn beta. rewrite !str_app_nil_r, str_app_nil, B. by destruct ch.
  - etransitivity; [apply Calls|]. by rewrite !app_nil_r, C.
Qed.
End Reading.
