(* ===== verification/CompleteMessages.v ===== *)
(** * CompleteMessages: whole Messages bodies

    The Messages half of src/crates/wiremux/src/stream/complete.rs:
    [encode_messages_complete] folds the events into one [message] object,
    [decode_messages_complete] reads its content blocks back. *)

From S2P Require Import Prelude Fields Text Json JsonCodec Ir ProfileTypes StreamCore Usage Completion BTree Shapes.
From S2P Require Import Chat CompleteCalls Messages.

(** ** Encoding *)

(** The locals of [encode_messages_complete]. *)
Record messages_body := mkMessagesBody {
  mb_text : string; mb_refusal : string; mb_reasoning : string; mb_signature : option string;
  mb_finish : option string; mb_id : option string; mb_web_search : option Z; mb_web_fetch : option Z;
  mb_cache_creation : option json; mb_usage : option (Z * Z * Z * Z * Z * option string);
  mb_service_tier : option string; mb_diagnostics : option json; mb_container : option json;
  mb_context : option json; mb_stop_sequence : option string; mb_citations : list json;
  mb_images : list json; mb_calls : calls
}.

#[export] Instance messages_body_eta : Eta messages_body := fun s =>
  mkMessagesBody (mb_text s) (mb_refusal s) (mb_reasoning s) (mb_signature s) (mb_finish s) (mb_id s)
    (mb_web_search s) (mb_web_fetch s) (mb_cache_creation s) (mb_usage s) (mb_service_tier s)
    (mb_diagnostics s) (mb_container s) (mb_context s) (mb_stop_sequence s) (mb_citations s)
    (mb_images s) (mb_calls s).

#[export] Instance over_mb_text : Field mb_text := ltac:(derive_field).
#[export] Instance over_mb_refusal : Field mb_refusal := ltac:(derive_field).
#[export] Instance over_mb_reasoning : Field mb_reasoning := ltac:(derive_field).
#[export] Instance over_mb_signature : Field mb_signature := ltac:(derive_field).
#[export] Instance over_mb_finish : Field mb_finish := ltac:(derive_field).
#[export] Instance over_mb_id : Field mb_id := ltac:(derive_field).
#[export] Instance over_mb_web_search : Field mb_web_search := ltac:(derive_field).
#[export] Instance over_mb_web_fetch : Field mb_web_fetch := ltac:(derive_field).
#[export] Instance over_mb_cache_creation : Field mb_cache_creation := ltac:(derive_field).
#[export] Instance over_mb_usage : Field mb_usage := ltac:(derive_field).
#[export] Instance over_mb_service_tier : Field mb_service_tier := ltac:(derive_field).
#[export] Instance over_mb_diagnostics : Field mb_diagnostics := ltac:(derive_field).
#[export] Instance over_mb_container : Field mb_container := ltac:(derive_field).
#[export] Instance over_mb_context : Field mb_context := ltac:(derive_field).
#[export] Instance over_mb_stop_sequence : Field mb_stop_sequence := ltac:(derive_field).
#[export] Instance over_mb_citations : Field mb_citations := ltac:(derive_field).
#[export] Instance over_mb_images : Field mb_images := ltac:(derive_field).
#[export] Instance over_mb_calls : Field mb_calls := ltac:(derive_field).

Definition messages_body_new : messages_body := {|
  mb_text := ""; mb_refusal := ""; mb_reasoning := ""; mb_signature := None; mb_finish := None;
  mb_id := None; mb_web_search := None; mb_web_fetch := None; mb_cache_creation := None;
  mb_usage := None; mb_service_tier := None; mb_diagnostics := None; mb_container := None;
  mb_context := None; mb_stop_sequence := None; mb_citations := []; mb_images := [];
  mb_calls := calls_new |}.

Definition messages_content_block (item_type : string) (payload : json) : bool :=
  if one_of item_type ["chunk"; "output_image"] then false
  else if responses_hosted_item_type item_type then false
  else bool_decide (get_str payload "type" = Some item_type).

(** Push a block behind the text there is. *)
Definition push_native (block : json) (s : messages_body) : messages_body :=
  s <| mb_images ::= fun images => flush_typed "text" (mb_text s) images ++ [block] |> <| mb_text := "" |>.

Definition base64_image (media_type data : string) : json :=
  jobj [("type", JStr "image");
        ("source", jobj [("type", JStr "base64"); ("media_type", JStr media_type); ("data", JStr data)])].

(** The [Protocol] arms, guards in order. *)
Definition messages_protocol (item_type : string) (payload : json) (s : messages_body) : messages_body :=
  if String.eqb item_type "messages_citation" && is_object payload
  then s <| mb_citations ::= fun l => l ++ [payload] |>
  else if messages_content_block item_type payload then push_native payload s
  else if String.eqb item_type "messages_id" then
    match not_blank (as_str payload) with Some text => s <| mb_id := Some text |> | None => s end
  else if String.eqb item_type "messages_web_search_requests" then
    s <| mb_web_search := as_u64 payload ≫= u32_try_from |>
  else if String.eqb item_type "messages_web_fetch_requests" then
    s <| mb_web_fetch := as_u64 payload ≫= u32_try_from |>
  else if String.eqb item_type "messages_cache_creation" && is_object payload
  then s <| mb_cache_creation := Some payload |>
  else s.

Definition messages_body_event (s : messages_body) (ev : IrStreamEvent) : messages_body :=
  match ev with
  | TextDelta delta | AudioTranscriptDelta delta => s <| mb_text ::= fun text => text +:+ delta |>
  | RefusalDelta delta => s <| mb_refusal ::= fun refusal => refusal +:+ delta |>
  | AnnotationAdded annotation => s <| mb_citations ::= fun l => l ++ [citation_from_annotation annotation] |>
  | Protocol item_type payload => messages_protocol item_type payload s
  | ImageDelta media_type data => push_native (base64_image media_type data) s
  | ReasoningDelta delta => s <| mb_reasoning ::= fun reasoning => reasoning +:+ delta |>
  | ReasoningSignature signature => s <| mb_signature := Some signature |>
  | ServiceTier tier => s <| mb_service_tier := Some tier |>
  | Diagnostics cache_miss_reason => s <| mb_diagnostics := Some cache_miss_reason |>
  | Container value => s <| mb_container := Some value |>
  | ContextManagement value => s <| mb_context := Some value |>
  | StopSequence text => s <| mb_stop_sequence := Some text |>
  | FinishReason reason _ => s <| mb_finish := Some (encode_stop_reason reason) |>
  | Usage p c cr cw r _ _ geo => s <| mb_usage := Some (p, c, cr, cw, r, geo) |>
  | ToolCallStart _ _ _ _ | CustomToolCallStart _ _ _ | ToolCallArgDelta _ _ | CustomToolCallInputDelta _ _ =>
      s <| mb_calls ::= fun ts => call_arm no_signature ts ev |>
  | _ => s
  end.

(** The content before the calls: text behind the media, citations on the first text. *)
Definition cited_blocks (s : messages_body) : list json :=
  let images := flush_typed "text" (mb_text s) (mb_images s) in
  match mb_citations s with
  | [] => images
  | citations =>
      match decorate_first "text" (fun block => index_set block "citations" (JArr citations)) images with
      | Some images => images
      | None => images ++ [jobj [("type", JStr "text"); ("text", JStr ""); ("citations", JArr citations)]]
      end
  end.

Definition thinking_blocks (s : messages_body) : list json :=
  if negb (is_empty (mb_reasoning s)) || is_some (mb_signature s)
  then [set_opt "signature" (JStr <$> mb_signature s)
          (jobj [("type", JStr "thinking"); ("thinking", JStr (mb_reasoning s))])]
  else [].

Section Serializer.
Context {SJ : SerdeJson}.

Definition messages_tool_input (args : string) (custom : bool) : json :=
  if custom then response_custom_tool_input args else unwrap_or (from_str args) (JObj []).

Definition messages_tool_use_value (id name args : string) (custom : bool) : json :=
  jobj [("type", JStr "tool_use"); ("id", JStr id); ("name", JStr name);
        ("input", messages_tool_input args custom)].

Definition messages_tool_blocks (ts : calls) : list json :=
  map (fun it => messages_tool_use_value (it_id it.2) (it_name it.2) (it_args it.2) (it_custom it.2))
    (indexed_tool_finish ts).

Definition messages_usage_body (s : messages_body) : option json :=
  '(p, c, cr, cw, r, geo) ← mb_usage s;
  usage ← get (encode_anthropic p c cr cw r geo) "usage";
  Some (insert_messages_cache_creation
          (insert_messages_server_tool_counts usage (mb_web_search s) (mb_web_fetch s))
          (mb_cache_creation s)).

(** [out["usage"]["service_tier"]], over a usage made when there is none. *)
Definition set_usage_tier (tier : option string) (out : json) : json :=
  match tier ≫= usage_service_tier_to_messages with
  | None => out
  | Some mapped =>
      let usage := unwrap_or (object_field out "usage")
                     (jobj [("input_tokens", jint 0); ("output_tokens", jint 0)]) in
      index_set out "usage" (index_set usage "service_tier" (JStr mapped))
  end.

(** A refusal names its explanation, and the stop reason unless another one was given. *)
Definition set_refusal (s : messages_body) (out : json) : json :=
  if negb (is_empty (mb_refusal s)) then
    let out := index_set out "stop_details"
                 (jobj [("type", JStr "refusal"); ("explanation", JStr (mb_refusal s))]) in
    if match mb_finish s with None => true | Some r => String.eqb r "content_filter" end
    then index_set out "stop_reason" (JStr "refusal") else out
  else out.

Definition messages_content (s : messages_body) : list json :=
  thinking_blocks s ++ cited_blocks s ++ messages_tool_blocks (mb_calls s).

Definition messages_body_json (s : messages_body) (model : string) : json :=
  let out := jobj [("id", JStr (unwrap_or (mb_id s) "msg_wiremux")); ("type", JStr "message");
                   ("role", JStr "assistant"); ("content", JArr (messages_content s))] in
  let out := set_opt "model" (if_text model) out in
  let out := set_opt "stop_reason" (JStr <$> mb_finish s) out in
  let out := set_refusal s out in
  let out := set_opt "usage" (messages_usage_body s) out in
  let out := set_usage_tier (mb_service_tier s) out in
  let out := set_opt "diagnostics"
               ((fun reason => jobj [("cache_miss_reason", reason)]) <$> mb_diagnostics s) out in
  let out := set_opt "container" (mb_container s) out in
  let out := set_opt "context_management" (mb_context s) out in
  set_opt "stop_sequence" (JStr <$> mb_stop_sequence s) out.

Definition encode_messages_complete (events : list IrStreamEvent) (model : string) : json :=
  messages_body_json (fold_left messages_body_event events messages_body_new) model.

(** ** Decoding *)
Definition citation_events (citation : json) : list IrStreamEvent :=
  match annotation_from_messages_citation citation with
  | Some annotation => [AnnotationAdded annotation]
  | None =>
      if is_object citation && is_some (get_str citation "type")
      then [Protocol "messages_citation" citation] else []
  end.

Definition text_block_events (block : json) : list IrStreamEvent :=
  push_opt TextDelta (nonempty (str_field block "text"))
  ++ match get_array block "citations" with Some citations => flat_map citation_events citations | None => [] end.

Definition thinking_block_events (block : json) : list IrStreamEvent :=
  push_opt ReasoningDelta (nonempty (str_field block "thinking"))
  ++ push_opt ReasoningSignature (nonempty (str_field block "signature")).

(** A block kept whole under its type. *)
Definition kept_block_events (ty : string) (block : json) : list IrStreamEvent :=
  if messages_block_has_payload block then [Protocol ty block] else [].

Definition tool_block_events (block : json) (index : Z) : list IrStreamEvent :=
  [ToolCallStart (unwrap_or (str_field block "id") "") (unwrap_or (str_field block "name") "") None index]
  ++ push_opt (fun input => ToolCallArgDelta (to_string input) index)
       (opt_filter (fun v => negb (is_null v)) (get block "input"))
  ++ [ToolCallEnd].

(** One iteration of the loop over the blocks: its events, and the next index. *)
Definition messages_block_events (tool_index : Z) (block : json) : list IrStreamEvent * Z :=
  match get_str block "type" with
  | None => ([], tool_index)
  | Some ty =>
      if String.eqb ty "text" then (text_block_events block, tool_index)
      else if String.eqb ty "thinking" then (thinking_block_events block, tool_index)
      else if String.eqb ty "image" then
        (match image_delta_from_block block with
         | Some ev => [ev]
         | None => kept_block_events "image" block
         end, tool_index)
      else if String.eqb ty "tool_use" then
        if messages_tool_block_visible block
        then (tool_block_events block tool_index, u32_saturating_add tool_index 1)
        else ([], tool_index)
      else (kept_block_events ty block, tool_index)
  end.

Fixpoint messages_content_events (tool_index : Z) (blocks : list json) : list IrStreamEvent :=
  match blocks with
  | [] => []
  | block :: blocks =>
      let '(evs, tool_index) := messages_block_events tool_index block in
      evs ++ messages_content_events tool_index blocks
  end.

Definition messages_usage_events (value : json) : list IrStreamEvent :=
  match object_field value "usage" with
  | Some usage =>
      push_opt ServiceTier (service_tier_from_usage usage) ++ [from_anthropic usage]
      ++ messages_web_search_events usage ++ messages_cache_creation_events usage
  | None => []
  end.

(** What follows the content. *)
Definition messages_tail_events (value : json) : list IrStreamEvent :=
  push_opt RefusalDelta (nonempty (pointer_str value [Key "stop_details"; Key "explanation"]))
  ++ push_opt StopSequence (nonempty (get_str value "stop_sequence"))
  ++ push_opt (fun reason => FinishReason (map_stop_reason reason) None) (get_str value "stop_reason")
  ++ push_opt Diagnostics (opt_filter is_object (pointer value [Key "diagnostics"; Key "cache_miss_reason"]))
  ++ push_opt Container (object_field value "container")
  ++ push_opt ContextManagement (object_field value "context_management")
  ++ messages_usage_events value
  ++ push_opt (fun id => Protocol "messages_id" (JStr id)) (not_blank (get_str value "id")).

Definition decode_messages_complete (value : json) : result MapError (list IrStreamEvent) :=
  let out := match get_array value "content" with
             | Some content => messages_content_events 0 content
             | None => []
             end in
  match (match out with [] => plain_error_detail value | _ => None end) with
  | Some detail => Err (Invalid detail)
  | None => Ok (out ++ messages_tail_events value)
  end.
End Serializer.

(** ** What a block says *)

(** A hosted block is not one the encoder makes of texts and calls. *)
Definition foreign_block (ty : string) : Prop := ~ In ty ["text"; "thinking"; "tool_use"].

Definition foreign_blocks (ev : IrStreamEvent) : Prop :=
  match ev with
  | Protocol item_type payload => messages_content_block item_type payload = true -> foreign_block item_type
  | _ => True
  end.

(** A block of [images]: a text, or one that is foreign. *)
Definition media_block (block : json) : Prop :=
  exists ty, get_str block "type" = Some ty /\ (ty = "text" \/ foreign_block ty).

Lemma text_media t : media_block (text_part "text" t).
Proof. exists "text". split; [|by left]. unfold text_part, get_str. by rewrite get_jobj. Qed.

Lemma flush_media text blocks : Forall media_block blocks -> Forall media_block (flush_typed "text" text blocks).
Proof.
  intros H. unfold flush_typed. destruct (negb _); [|done]. apply Forall_app. split; [done|].
  constructor; [apply text_media|done].
Qed.

Definition messages_said (s : messages_body) (ch : channel) : string :=
  match ch with
  | ChText => typed_parts "text" (mb_images s) +:+ mb_text s
  | ChRefusal => mb_refusal s
  | ChReasoning => mb_reasoning s
  | _ => ""
  end.

Lemma push_native_keeps ty block s :
  Forall media_block (mb_images s) -> get_str block "type" = Some ty -> foreign_block ty ->
  Forall media_block (mb_images (push_native block s))
  /\ (forall ch, messages_said (push_native block s) ch = messages_said s ch)
  /\ mb_calls (push_native block s) = mb_calls s.
Proof.
  intros H T F. split; [|split; [|done]].
  - change (Forall media_block (flush_typed "text" (mb_text s) (mb_images s) ++ [block])).
    apply Forall_app. split; [by apply flush_media|]. constructor; [|done]. exists ty. split; [done|by right].
  - intros ch. destruct ch; try done.
    change (typed_parts "text" (flush_typed "text" (mb_text s) (mb_images s) ++ [block]) +:+ ""
            = typed_parts "text" (mb_images s) +:+ mb_text s).
    rewrite typed_parts_app, flush_typed_parts, !str_app_nil_r. rewrite (typed_parts_foreign _ _ ty T).
    + by rewrite str_app_nil_r.
    + intros ->. apply F. by left.
Qed.

Lemma messages_protocol_keeps item_type payload s :
  Forall media_block (mb_images s) -> foreign_blocks (Protocol item_type payload) ->
  Forall media_block (mb_images (messages_protocol item_type payload s))
  /\ (forall ch, messages_said (messages_protocol item_type payload s) ch = messages_said s ch)
  /\ mb_calls (messages_protocol item_type payload s) = mb_calls s.
Proof.
  intros H F. unfold messages_protocol. destruct (_ && _); [split; [done|split; [|done]]; by intros []|].
  destruct (messages_content_block item_type payload) eqn:B.
  - apply (push_native_keeps item_type); [done| |by apply F].
    unfold messages_content_block in B. destruct (one_of _ _); [done|]. destruct (responses_hosted_item_type _); [done|].
    by apply bool_decide_eq_true in B.
  - destruct (not_blank _); repeat (lazymatch goal with |- context [if ?b then _ else _] => destruct b end);
      (split; [done|split; [|done]]); by intros [].
Qed.

Lemma messages_event_keeps s ev :
  Forall media_block (mb_images s) -> foreign_blocks ev ->
  Forall media_block (mb_images (messages_body_event s ev))
  /\ (forall ch, In ch [ChText; ChRefusal; ChReasoning] ->
        messages_said (messages_body_event s ev) ch
        = messages_said s ch +:+ unwrap_or (say ch (transcript_as_text ev)) "")
  /\ mb_calls (messages_body_event s ev) = call_arm no_signature (mb_calls s) ev.
Proof.
  intros H F.
  assert (App : forall t, typed_parts "text" (mb_images s) +:+ mb_text s +:+ t
                          = (typed_parts "text" (mb_images s) +:+ mb_text s) +:+ t) by (intros; by rewrite str_app_assoc).
  destruct ev;
    try (split; [exact H|split; [|reflexivity]]; intros ch Hch; destruct ch;
         (reflexivity || apply App || (symmetry; apply str_app_nil_r) || (exfalso; cbn in Hch; intuition discriminate))).
  - destruct (push_native_keeps "image" (base64_image media_type data) s H) as (I & B & C).
    { unfold base64_image, get_str. by rewrite get_jobj. }
    { intros [|[|[|[]]]]; done. }
    split; [exact I|split; [|exact C]]. intros ch _. cbn [messages_body_event]. rewrite B. by destruct ch; rewrite str_app_nil_r.
  - destruct (messages_protocol_keeps item_type payload s H F) as (I & B & C).
    split; [exact I|split; [|exact C]]. intros ch _. cbn [messages_body_event]. rewrite B. by destruct ch; rewrite str_app_nil_r.
Qed.

Lemma messages_events_keep evs s :
  Forall media_block (mb_images s) -> Forall foreign_blocks evs ->
  let s' := fold_left messages_body_event evs s in
  Forall media_block (mb_images s')
  /\ (forall ch, In ch [ChText; ChRefusal; ChReasoning] ->
        messages_said s' ch = messages_said s ch +:+ said ch (map transcript_as_text evs))
  /\ mb_calls s' = fold_left (call_arm no_signature) evs (mb_calls s).
Proof.
  cbv zeta. intros H F. revert s H. induction F as [|ev evs E _ IH]; intros s H.
  - split; [done|]. split; [|done]. intros ch _. symmetry. apply str_app_nil_r.
  - cbn [fold_left map]. destruct (messages_event_keeps s ev H E) as (H1 & B1 & C1).
    destruct (IH _ H1) as (H2 & B2 & C2). split; [done|]. split; [|by rewrite C2, C1].
    intros ch Hch. by rewrite B2, B1, said_cons, str_app_assoc.
Qed.

(** ** What the blocks are read back as *)
Section Reading.
Context {SJ : SerdeJson}.

Lemma quiet_citations citations : Forall quiet (flat_map citation_events citations).
Proof.
  induction citations as [|c l IH]; [done|]. cbn [flat_map]. apply Forall_app. split; [|done].
  unfold citation_events. destruct (annotation_from_messages_citation c); [|destruct (_ && _); [|done]];
    apply Forall_cons; (split; [silent|done]).
Qed.

Lemma image_delta_quiet block ev : image_delta_from_block block = Some ev -> quiet ev.
Proof.
  unfold image_delta_from_block. destruct (get block "source") as [src|]; [|done]. cbn [mbind option_bind].
  destruct (match get_str src "type" with None => true | Some ty => String.eqb ty "base64" end); [|done].
  destruct (nonempty (get_str src "data")); [|done]. cbn [mbind option_bind].
  destruct (get_str src "media_type"); [|done]. cbn [mbind option_bind].
  destruct (starts_with _ _); [|done]. intros [= <-]. silent.
Qed.

Lemma quiet_kept ty block : Forall quiet (kept_block_events ty block).
Proof. unfold kept_block_events. destruct (messages_block_has_payload block); [|done]. apply Forall_cons. split; [silent|done]. Qed.

Lemma tells_media_block block i :
  media_block block ->
  exists evs, messages_block_events i block = (evs, i) /\ tells evs (only ChText (typed_text "text" block)) [].
Proof.
  intros (ty & T & M). unfold messages_block_events, typed_text. rewrite T.
  destruct M as [->|F].
  - eqb_literals. rewrite bool_decide_true by done. eexists. split; [reflexivity|].
    unfold text_block_events, part_text, str_field, get_str.
    assert (C : Forall quiet match get_array block "citations" with
                             | Some citations => flat_map citation_events citations | None => [] end).
    { destruct (get_array _ _); [apply quiet_citations|done]. }
    assert (N : nonempty (get block "text" ≫= as_str) = nonempty (Some (unwrap_or (get block "text" ≫= as_str) ""))).
    { by destruct (get block "text" ≫= as_str) as [[|]|]. }
    rewrite N. destruct (tells_app _ _ _ _ _ _ (tells_text_push ChText (unwrap_or (get block "text" ≫= as_str) ""))
      (tells_quiet _ C)) as [S K].
    split; [|exact K]. intros ch. etransitivity; [apply S|]. apply str_app_nil_r.
  - assert (N : ty <> "text" /\ ty <> "thinking" /\ ty <> "tool_use") by (unfold foreign_block in F; cbn in F; intuition).
    destruct N as (N1 & N2 & N3). rewrite bool_decide_false by congruence.
    rewrite (str_eqb_neq _ _ N1), (str_eqb_neq _ _ N2), (str_eqb_neq _ _ N3).
    assert (Q : forall evs, Forall quiet evs -> tells evs (only ChText "") []).
    { intros evs Hq. destruct (tells_quiet _ Hq) as [S K]. split; [|done]. intros ch. rewrite S. by destruct ch. }
    destruct (String.eqb ty "image"); (eexists; split; [reflexivity|]); apply Q; [|apply quiet_kept].
    destruct (image_delta_from_block block) as [ev|] eqn:E; [|apply quiet_kept].
    apply Forall_cons. split; [by apply (image_delta_quiet block)|done].
Qed.

Lemma tells_media_blocks blocks i rest :
  Forall media_block blocks ->
  exists evs, messages_content_events i (blocks ++ rest) = evs ++ messages_content_events i rest
    /\ tells evs (only ChText (typed_parts "text" blocks)) [].
Proof.
  induction 1 as [|block blocks M _ (evs & E & T)].
  - exists []. split; [done|]. split; [|done]. by intros [].
  - cbn [app messages_content_events]. destruct (tells_media_block block i M) as (first & -> & T1). rewrite E.
    exists (first ++ evs). split; [by rewrite app_assoc|]. destruct (tells_app _ _ _ _ _ _ T1 T) as [S K].
    split; [|exact K]. intros ch. etransitivity; [apply S|].
    change (block :: blocks) with ([block] ++ blocks). rewrite typed_parts_app.
    replace (typed_parts "text" [block]) with (typed_text "text" block)
      by (unfold typed_parts; cbn; by rewrite str_app_nil_r).
    unfold only. by destruct (decide _).
Qed.

(** Citations do not change what the blocks say. *)
Lemma decorate_media key v blocks blocks' :
  key <> "type" -> key <> "text" -> Forall media_block blocks ->
  decorate_first "text" (fun block => index_set block key v) blocks = Some blocks' ->
  Forall media_block blocks' /\ typed_parts "text" blocks' = typed_parts "text" blocks.
Proof.
  intros Ht Hx H. revert blocks'. induction H as [|block blocks M H IH]; intros blocks' D; [done|].
  cbn [decorate_first] in D. destruct (bool_decide _) eqn:B.
  - injection D as <-. apply bool_decide_eq_true in B.
    assert (O : is_object block = true) by (by destruct block).
    assert (G : forall k, k <> key -> get (index_set block key v) k = get block k).
    { intros k Hk. rewrite get_index_set by done. by rewrite str_eqb_neq. }
    assert (T : get_str (index_set block key v) "type" = Some "text") by (unfold get_str; rewrite G; [exact B|congruence]).
    split; [constructor; [|done]; exists "text"; split; [done|by left]|].
    unfold typed_parts. cbn [map text_concat fold_right]. f_equal. unfold typed_text. rewrite T, B.
    unfold part_text, get_str. rewrite G; [done|congruence].
  - destruct (decorate_first _ _ blocks) as [l|]; [|done]. injection D as <-. destruct (IH l eq_refl) as [IH1 IH2].
    split; [by constructor|]. unfold typed_parts in *. cbn [map text_concat fold_right]. by f_equal.
Qed.

Lemma cited_media s :
  Forall media_block (mb_images s) ->
  Forall media_block (cited_blocks s)
  /\ typed_parts "text" (cited_blocks s) = typed_parts "text" (mb_images s) +:+ mb_text s.
Proof.
  intros H. unfold cited_blocks. pose proof (flush_media (mb_text s) _ H) as F.
  pose proof (flush_typed_parts "text" (mb_text s) (mb_images s)) as T.
  destruct (mb_citations s) as [|c l]; [done|]. destruct (decorate_first _ _ _) as [blocks|] eqn:D.
  - destruct (decorate_media "citations" _ _ blocks ltac:(done) ltac:(done) F D) as [D1 D2]. by rewrite D2.
  - assert (B : get_str (jobj [("type", JStr "text"); ("text", JStr ""); ("citations", JArr (c :: l))]) "type" = Some "text")
      by (unfold get_str; by rewrite get_jobj).
    split.
    + apply Forall_app. split; [done|]. constructor; [|done]. exists "text". split; [exact B|by left].
    + rewrite typed_parts_app, T. set (t := typed_parts "text" [_]). enough (t = "") as -> by apply str_app_nil_r.
      unfold t, typed_parts, typed_text. cbn [map]. rewrite B, bool_decide_true by done.
      unfold part_text, get_str. by rewrite get_jobj.
Qed.

(** ** The calls *)

(** A call is skipped when it has no id, no name and the input [null]. *)
Definition said_call (id name : string) (input : json) : bool :=
  negb (is_empty id) || negb (is_empty name) || json_payload (Some input).

(** The calls of a body, numbered from zero, with the text of their inputs. *)
Fixpoint messages_calls_spoken (i : Z) (tools : list (Z * IndexedTool)) : list IrStreamEvent :=
  match tools with
  | [] => []
  | (_, tool) :: tools =>
      let input := messages_tool_input (it_args tool) (it_custom tool) in
      if said_call (it_id tool) (it_name tool) input then
        ToolCallStart (it_id tool) (it_name tool) None i
        :: (if is_null input then [] else [ToolCallArgDelta (to_string input) i])
        ++ ToolCallEnd :: messages_calls_spoken (u32_saturating_add i 1) tools
      else messages_calls_spoken i tools
  end.

Lemma tool_block_read id name args custom i :
  let input := messages_tool_input args custom in
  messages_block_events i (messages_tool_use_value id name args custom)
  = if said_call id name input
    then (ToolCallStart id name None i :: (if is_null input then [] else [ToolCallArgDelta (to_string input) i])
          ++ [ToolCallEnd], u32_saturating_add i 1)
    else ([], i).
Proof.
  cbv zeta. unfold messages_tool_use_value. set (input := messages_tool_input args custom). clearbody input.
  unfold messages_block_events, get_str at 1. read_json. cbn [mbind option_bind as_str]. eqb_literals.
  replace (messages_tool_block_visible _) with (said_call id name input).
  - destruct (said_call id name input); [|done]. unfold tool_block_events, str_field. read_json.
    cbn [mbind option_bind as_str unwrap_or]. by destruct input.
  - unfold messages_tool_block_visible, tool_call_visible, nonempty_str, argument_visible, field_is, get_str. read_json.
    cbn [mbind option_bind as_str is_some_and opt_or existsb]. unfold said_call.
    destruct (negb (is_empty id)), (negb (is_empty name)), (json_payload (Some input)); done.
Qed.

Lemma tells_tool_blocks tools i :
  let evs := messages_content_events i (map (fun it =>
    messages_tool_use_value (it_id it.2) (it_name it.2) (it_args it.2) (it_custom it.2)) tools) in
  evs = messages_calls_spoken i tools /\ tells evs (fun _ => "") evs.
Proof.
  cbv zeta. revert i. induction tools as [|[k tool] tools IH]; intros i; [done|].
  cbn [map messages_content_events messages_calls_spoken snd]. rewrite tool_block_read.
  destruct (said_call _ _ _); [|apply IH]. destruct (IH (u32_saturating_add i 1)) as [E [S C]].
  split; [by rewrite <- E, <- app_comm_cons, <- app_assoc|].
  set (rest := messages_content_events _ _) in *. destruct (is_null _); (split; [intros ch; rewrite said_app, S; by destruct ch|]);
    unfold calls_of in *; cbn; by rewrite C.
Qed.

(** ** The body *)
Lemma tells_thinking s i rest :
  exists evs, messages_content_events i (thinking_blocks s ++ rest) = evs ++ messages_content_events i rest
    /\ tells evs (only ChReasoning (mb_reasoning s)) [].
Proof.
  unfold thinking_blocks. destruct (_ || _) eqn:B.
  - cbn [app messages_content_events]. unfold messages_block_events, get_str at 1. read_json.
    cbn [opt_or mbind option_bind as_str]. eqb_literals. eexists. split; [reflexivity|].
    unfold thinking_block_events, str_field. read_json. rewrite opt_or_None. cbn [mbind option_bind as_str].
    assert (Q : Forall quiet (push_opt ReasoningSignature (nonempty ((JStr <$> mb_signature s) ≫= as_str))))
      by (apply quiet_push; intros; silent).
    destruct (tells_app _ _ _ _ _ _ (tells_text_push ChReasoning (mb_reasoning s)) (tells_quiet _ Q)) as [S K].
    split; [|exact K]. intros ch. etransitivity; [apply S|]. apply str_app_nil_r.
  - exists []. split; [done|]. apply orb_false_iff in B as [B _]. destruct (mb_reasoning s); [|done].
    split; [by intros []|done].
Qed.

Lemma set_refusal_get s out k :
  is_object out = true ->
  is_object (set_refusal s out) = true
  /\ (one_of k ["stop_details"; "stop_reason"] = false -> get (set_refusal s out) k = get out k).
Proof.
  intros O. unfold set_refusal. destruct (negb _); [|done].
  destruct (match mb_finish s with None => _ | Some _ => _ end); rewrite !is_object_index_set; (split; [done|]);
    intros [K1 K2]%orb_false_iff; (apply orb_false_iff in K2 as [K2 _]);
    rewrite !get_index_set by (by rewrite ?is_object_index_set); by rewrite ?K1, ?K2.
Qed.

Lemma set_usage_tier_get tier out k :
  is_object out = true ->
  is_object (set_usage_tier tier out) = true
  /\ (String.eqb k "usage" = false -> get (set_usage_tier tier out) k = get out k).
Proof.
  intros O. unfold set_usage_tier. destruct (_ ≫= _); [|done]. rewrite is_object_index_set. split; [done|].
  intros K. rewrite get_index_set by done. by rewrite K.
Qed.

(** What the keys of an encoded body hold. *)
Lemma messages_value_get s model k :
  one_of k ["diagnostics"; "container"; "context_management"; "stop_sequence"; "usage"; "stop_reason"; "model"] = false ->
  get (messages_body_json s model) k =
  if String.eqb k "stop_details" then
    (if negb (is_empty (mb_refusal s))
     then Some (jobj [("type", JStr "refusal"); ("explanation", JStr (mb_refusal s))]) else None)
  else get (jobj [("id", JStr (unwrap_or (mb_id s) "msg_wiremux")); ("type", JStr "message");
                  ("role", JStr "assistant"); ("content", JArr (messages_content s))]) k.
Proof.
  intros K. unfold one_of in K. cbn [existsb] in K. rewrite !orb_false_iff in K.
  destruct K as (K1 & K2 & K3 & K4 & K5 & K6 & K7 & _). unfold messages_body_json.
  set (out0 := jobj _). set (out1 := set_opt "stop_reason" _ _).
  assert (O1 : is_object out1 = true) by (unfold out1, out0; object_goal).
  assert (G1 : get out1 k = get out0 k).
  { unfold out1. rewrite !get_set_opt by (rewrite ?is_object_set_opt; apply is_object_jobj). by rewrite K6, K7. }
  destruct (set_refusal_get s out1 k O1) as [O2 _]. set (out2 := set_opt "usage" _ _).
  assert (O3 : is_object out2 = true) by (unfold out2; by rewrite is_object_set_opt).
  destruct (set_usage_tier_get (mb_service_tier s) out2 k O3) as [O4 G4].
  rewrite !get_set_opt by (rewrite ?is_object_set_opt; exact O4). rewrite K1, K2, K3, K4, (G4 K5).
  unfold out2. rewrite get_set_opt by done. rewrite K5.
  destruct (String.eqb k "stop_details") eqn:D.
  - apply String.eqb_eq in D as ->. unfold set_refusal. destruct (negb (is_empty (mb_refusal s))).
    + destruct (match mb_finish s with None => _ | Some _ => _ end);
        rewrite !get_index_set by (by rewrite ?is_object_index_set); by eqb_literals.
    + rewrite G1. unfold out0. rewrite get_jobj. by eqb_literals.
  - destruct (set_refusal_get s out1 k O1) as [_ G2]. rewrite G2; [exact G1|].
    unfold one_of. cbn [existsb]. by rewrite D, K6.
Qed.

Lemma quiet_messages_tail value :
  exists rest, messages_tail_events value
    = push_opt (speak ChRefusal) (nonempty (pointer_str value [Key "stop_details"; Key "explanation"])) ++ rest
    /\ Forall quiet rest.
Proof.
  eexists. split; [reflexivity|]. rewrite !Forall_app. repeat split; try (apply quiet_push; intros; silent).
  unfold messages_usage_events. destruct (object_field value "usage") as [usage|]; [|done]. rewrite !Forall_app.
  split; [apply quiet_push; intros; silent|]. split; [apply Forall_cons; split; [silent|done]|]. split.
  - unfold messages_web_search_events, web_search_event. cbn [flat_map]. rewrite !Forall_app.
    repeat split; try done; (destruct (_ ≫= _); [|done]); apply Forall_cons; (split; [silent|done]).
  - unfold messages_cache_creation_events. destruct (object_field usage "cache_creation"); [|done].
    destruct (kept_creation _); [done|]. apply Forall_cons. split; [silent|done].
Qed.

(** A Messages body reads back what the events said: text and transcripts as
    text, the refusal, the reasoning, and behind them the calls of the table,
    numbered from zero, each with its input. *)
Theorem messages_body_says evs model :
  Forall foreign_blocks evs ->
  exists out, decode_messages_complete (encode_messages_complete evs model) = Ok out
    /\ (forall ch, In ch [ChText; ChRefusal; ChReasoning] -> said ch out = said ch (map transcript_as_text evs))
    /\ calls_of out = messages_calls_spoken 0 (indexed_tool_finish (call_table no_signature evs)).
Proof.
  intros F. destruct (messages_events_keep evs messages_body_new) as (M & B & C); [done|done|].
  unfold encode_messages_complete. set (s := fold_left messages_body_event evs messages_body_new) in *.
  unfold decode_messages_complete, get_array. rewrite (messages_value_get s model "content") by done.
  eqb_literals. rewrite get_jobj. cbn [assoc_last]. eqb_literals. cbn [mbind option_bind as_array].
  unfold messages_content.
  destruct (tells_thinking s 0 (cited_blocks s ++ messages_tool_blocks (mb_calls s))) as (e1 & -> & T1).
  destruct (cited_media s M) as [M2 Txt].
  destruct (tells_media_blocks (cited_blocks s) 0 (messages_tool_blocks (mb_calls s)) M2) as (e2 & -> & T2).
  destruct (tells_tool_blocks (indexed_tool_finish (mb_calls s)) 0) as [E3 T3].
  unfold messages_tool_blocks. rewrite E3. rewrite E3, C in T3. rewrite C.
  change (fold_left (call_arm no_signature) evs (mb_calls messages_body_new)) with (call_table no_signature evs) in *.
  clear E3. set (calls := messages_calls_spoken 0 (indexed_tool_finish (call_table no_signature evs))) in *.
  assert (E0 : plain_error_detail (messages_body_json s model) = None).
  { unfold plain_error_detail, json_string_error, trimmed_str, get_str, object_field.
    rewrite (messages_value_get s model "error") by done. eqb_literals. by rewrite get_jobj. }
  assert (X : match e1 ++ e2 ++ calls with [] => plain_error_detail (messages_body_json s model) | _ => None end = None)
    by (destruct (e1 ++ e2 ++ calls); [exact E0|done]).
  rewrite X. clear X E0.
  eexists. split; [reflexivity|].
  destruct (quiet_messages_tail (messages_body_json s model)) as (rest & -> & Q).
  assert (R : nonempty (pointer_str (messages_body_json s model) [Key "stop_details"; Key "explanation"])
              = nonempty (Some (mb_refusal s))).
  { unfold pointer_str. rewrite pointer_key, (messages_value_get s model "stop_details") by done. eqb_literals.
    destruct (mb_refusal s); [done|]. cbn [is_empty negb mbind option_bind]. rewrite pointer_key. by read_json. }
  rewrite R.
  destruct (tells_app _ _ _ _ _ _ (tells_app _ _ _ _ _ _ T1 (tells_app _ _ _ _ _ _ T2 T3))
    (tells_app _ _ _ _ _ _ (tells_text_push ChRefusal (mb_refusal s)) (tells_quiet _ Q))) as [S K].
  split; [|etransitivity; [apply K|by rewrite app_nil_r]].
  intros ch Hch. etransitivity; [apply S|]. pose proof (B ch Hch) as Bc. cbn beta. rewrite Txt.
  destruct ch; cbn [messages_said] in Bc; try (rewrite Bc; cbn; by rewrite ?str_app_nil_r);
    exfalso; cbn in Hch; intuition discriminate.
Qed.
End Reading.

(** ** Witnesses *)
Section Witnesses.
#[local] Existing Instance bits_codec.

Definition sample_message : list IrStreamEvent :=
  [TextDelta "look "; ToolCallStart "a" "f" None 0; ToolCallStart "b" "g" None 1; ToolCallArgDelta "[1" 1;
   ImageDelta "image/png" "aGk="; AudioTranscriptDelta "here"; ToolCallArgDelta "]" 1; RefusalDelta "no";
   AnnotationAdded (jobj [("type", JStr "url_citation"); ("url", JStr "u")]);
   Protocol "redacted_thinking" (jobj [("type", JStr "redacted_thinking"); ("data", JStr "x")])].

Lemma messages_body_says_witness :
  exists out, decode_messages_complete (encode_messages_complete sample_message "m") = Ok out
    /\ said ChText out = "look here".
Proof.
  destruct (messages_body_says sample_message "m") as (out & D & S & _).
  - repeat (apply Forall_cons; split; [try exact I|]); try apply Forall_nil; [|exact I].
    intros _ [|[|[|[]]]]; discriminate.
  - exists out. split; [exact D|]. rewrite S; [reflexivity|by left].
Defined.
End Witnesses.
