(* ===== verification/CompleteGemini.v ===== *)
(** * CompleteGemini: whole Gemini bodies

    The Gemini half of src/crates/wiremux/src/stream/complete.rs:
    [encode_gemini_complete] folds the events into one candidate;
    [decode_gemini_complete] reads a body as the one chunk of a stream. *)

From S2P Require Import Prelude Fields Text Json JsonCodec Floats Sse Ir ProfileTypes StreamCore Usage Completion BTree Shapes.
From S2P Require Import Chat MapCore StreamDecode CompleteCalls.
From S2P Require Gemini.

(** ** Encoding *)

(** The locals of [encode_gemini_complete]. *)
Record gemini_body := mkGeminiBody {
  gb_text : string; gb_refusal : string; gb_reasoning : string; gb_signature : option string;
  gb_finish : option string; gb_usage : option (Z * Z * Z * Z * Z * Z);
  gb_chunks : list json; gb_supports : list json; gb_search : option string; gb_media : list json;
  gb_logprobs : list json; gb_tier : option string; gb_response_id : option string;
  gb_safety : option json; gb_prompt_safety : option json; gb_block_message : option string;
  gb_traffic : option string; gb_tool_tokens : option Z; gb_avg_logprobs : option Z;
  gb_candidate_tokens : option Z; gb_prompt_details : option json; gb_candidate_details : option json;
  gb_url_context : option json; gb_citation : option json; gb_code_parts : list json; gb_calls : calls
}.

#[export] Instance gemini_body_eta : Eta gemini_body := fun s =>
  mkGeminiBody (gb_text s) (gb_refusal s) (gb_reasoning s) (gb_signature s) (gb_finish s) (gb_usage s)
    (gb_chunks s) (gb_supports s) (gb_search s) (gb_media s) (gb_logprobs s) (gb_tier s)
    (gb_response_id s) (gb_safety s) (gb_prompt_safety s) (gb_block_message s) (gb_traffic s)
    (gb_tool_tokens s) (gb_avg_logprobs s) (gb_candidate_tokens s) (gb_prompt_details s)
    (gb_candidate_details s) (gb_url_context s) (gb_citation s) (gb_code_parts s) (gb_calls s).

#[export] Instance over_gb_text : Field gb_text := ltac:(derive_field).
#[export] Instance over_gb_refusal : Field gb_refusal := ltac:(derive_field).
#[export] Instance over_gb_reasoning : Field gb_reasoning := ltac:(derive_field).
#[export] Instance over_gb_signature : Field gb_signature := ltac:(derive_field).
#[export] Instance over_gb_finish : Field gb_finish := ltac:(derive_field).
#[export] Instance over_gb_usage : Field gb_usage := ltac:(derive_field).
#[export] Instance over_gb_chunks : Field gb_chunks := ltac:(derive_field).
#[export] Instance over_gb_supports : Field gb_supports := ltac:(derive_field).
#[export] Instance over_gb_search : Field gb_search := ltac:(derive_field).
#[export] Instance over_gb_media : Field gb_media := ltac:(derive_field).
#[export] Instance over_gb_logprobs : Field gb_logprobs := ltac:(derive_field).
#[export] Instance over_gb_tier : Field gb_tier := ltac:(derive_field).
#[export] Instance over_gb_response_id : Field gb_response_id := ltac:(derive_field).
#[export] Instance over_gb_safety : Field gb_safety := ltac:(derive_field).
#[export] Instance over_gb_prompt_safety : Field gb_prompt_safety := ltac:(derive_field).
#[export] Instance over_gb_block_message : Field gb_block_message := ltac:(derive_field).
#[export] Instance over_gb_traffic : Field gb_traffic := ltac:(derive_field).
#[export] Instance over_gb_tool_tokens : Field gb_tool_tokens := ltac:(derive_field).
#[export] Instance over_gb_avg_logprobs : Field gb_avg_logprobs := ltac:(derive_field).
#[export] Instance over_gb_candidate_tokens : Field gb_candidate_tokens := ltac:(derive_field).
#[export] Instance over_gb_prompt_details : Field gb_prompt_details := ltac:(derive_field).
#[export] Instance over_gb_candidate_details : Field gb_candidate_details := ltac:(derive_field).
#[export] Instance over_gb_url_context : Field gb_url_context := ltac:(derive_field).
#[export] Instance over_gb_citation : Field gb_citation := ltac:(derive_field).
#[export] Instance over_gb_code_parts : Field gb_code_parts := ltac:(derive_field).
#[export] Instance over_gb_calls : Field gb_calls := ltac:(derive_field).

Definition gemini_body_new : gemini_body := {|
  gb_text := ""; gb_refusal := ""; gb_reasoning := ""; gb_signature := None; gb_finish := None;
  gb_usage := None; gb_chunks := []; gb_supports := []; gb_search := None; gb_media := [];
  gb_logprobs := []; gb_tier := None; gb_response_id := None; gb_safety := None;
  gb_prompt_safety := None; gb_block_message := None; gb_traffic := None; gb_tool_tokens := None;
  gb_avg_logprobs := None; gb_candidate_tokens := None; gb_prompt_details := None;
  gb_candidate_details := None; gb_url_context := None; gb_citation := None; gb_code_parts := [];
  gb_calls := calls_new |}.

Definition plain_text_part (text : string) : json := jobj [("text", JStr text)].

Definition flush_plain (text : string) (parts : list json) : list json :=
  if negb (is_empty text) then parts ++ [plain_text_part text] else parts.

(** Push inline media behind the text there is. *)
Definition push_media (mime data : string) (s : gemini_body) : gemini_body :=
  s <| gb_media ::= fun media =>
         flush_plain (gb_text s) media
         ++ [jobj [("inlineData", jobj [("mimeType", JStr mime); ("data", JStr data)])]] |>
    <| gb_text := "" |>.

(** Annotations that stand for other metadata are not grounding. *)
Definition grounding_annotation_kept (annotation : json) : bool :=
  negb (bool_decide (get annotation "url_context" ≫= as_bool = Some true))
  && negb (bool_decide (get annotation "citation_metadata" ≫= as_bool = Some true)).

Definition code_part (payload : json) : bool :=
  existsb (fun key => is_some (get payload key))
    ["executableCode"; "codeExecutionResult"; "functionResponse"; "toolCall"; "toolResponse"; "fileData"].

(** The [Protocol] arms, guards in order. *)
Definition gemini_protocol (item_type : string) (payload : json) (s : gemini_body) : gemini_body :=
  let tag := String.eqb item_type in
  let items := nonempty_array (Some payload) in
  let trimmed := nonempty (trim <$> as_str payload) in
  let count := as_u64 payload ≫= u32_try_from in
  if tag "gemini_response_id" then
    match not_blank (as_str payload) with Some text => s <| gb_response_id := Some text |> | None => s end
  else if tag "gemini_safety_ratings" && items then s <| gb_safety := Some payload |>
  else if tag "gemini_prompt_safety" && items then s <| gb_prompt_safety := Some payload |>
  else if tag "gemini_block_reason_message" then s <| gb_block_message := trimmed |>
  else if tag "gemini_traffic_type" then s <| gb_traffic := trimmed |>
  else if tag "gemini_tool_use_prompt_tokens" then s <| gb_tool_tokens := count |>
  else if tag "gemini_avg_logprobs" then s <| gb_avg_logprobs := opt_filter is_finite (as_f64 payload) |>
  else if tag "gemini_candidate_tokens" then s <| gb_candidate_tokens := count |>
  else if tag "gemini_prompt_token_details" && is_array payload then s <| gb_prompt_details := Some payload |>
  else if tag "gemini_candidate_token_details" && is_array payload then s <| gb_candidate_details := Some payload |>
  else if tag "gemini_url_context" && is_object payload then s <| gb_url_context := Some payload |>
  else if tag "gemini_citation_metadata" && is_object payload then s <| gb_citation := Some payload |>
  else if tag "gemini_code_part" && code_part payload then s <| gb_code_parts ::= fun l => l ++ [payload] |>
  else s.

Definition kept_signature (signature : option string) : option string := nonempty signature.

Definition gemini_body_event (s : gemini_body) (ev : IrStreamEvent) : gemini_body :=
  match ev with
  | TextDelta delta | AudioTranscriptDelta delta => s <| gb_text ::= fun text => text +:+ delta |>
  | RefusalDelta delta => s <| gb_refusal ::= fun refusal => refusal +:+ delta |>
  | AnnotationAdded annotation =>
      if grounding_annotation_kept annotation then
        let idx := vlen (gb_chunks s) in
        s <| gb_chunks ::= fun l => l ++ [Gemini.grounding_chunk_from_annotation annotation] |>
          <| gb_supports ::= fun l => l ++ [Gemini.grounding_support_from_annotation annotation idx] |>
      else s
  | SearchEntryPoint rendered_content => s <| gb_search := Some rendered_content |>
  | AudioDelta data => push_media "audio/mpeg" data s
  | ImageDelta media_type data => push_media media_type data s
  | Logprobs content refusal =>
      let s := s <| gb_logprobs ::= fun l => extend_logprobs_content l content |> in
      match refusal with
      | Some refusal => s <| gb_logprobs ::= fun l => extend_logprobs_content l refusal |>
      | None => s
      end
  | ReasoningDelta delta => s <| gb_reasoning ::= fun reasoning => reasoning +:+ delta |>
  | ReasoningSignature signature => s <| gb_signature := Some signature |>
  | FinishReason reason vendor => s <| gb_finish := Some (Gemini.finish_token reason vendor) |>
  | Usage p c cr _ r a ca _ => s <| gb_usage := Some (p, c, cr, r, a, ca) |>
  | ToolCallStart _ _ _ _ | CustomToolCallStart _ _ _ | ToolCallArgDelta _ _ | CustomToolCallInputDelta _ _ =>
      s <| gb_calls ::= fun ts => call_arm kept_signature ts ev |>
  | ServiceTier tier =>
      match gemini_service_tier tier with Some (mapped, _) => s <| gb_tier := Some mapped |> | None => s end
  | Protocol item_type payload => gemini_protocol item_type payload s
  | _ => s
  end.

Section Serializer.
Context {SJ : SerdeJson}.

Definition gemini_call_args (args : string) (custom : bool) : json :=
  if custom then response_custom_tool_input args else unwrap_or (from_str args) (JObj []).

Definition gemini_function_call_value (id name args : string) (thought_signature : option string)
    (custom : bool) : option json :=
  if is_empty name then None
  else
    let function_call := jobj [("name", JStr name); ("args", gemini_call_args args custom)] in
    let function_call := set_opt "id" (if_text id) function_call in
    Some (set_opt "thoughtSignature" (JStr <$> nonempty thought_signature)
            (jobj [("functionCall", function_call)])).

Definition gemini_tool_parts (ts : calls) : list json :=
  omap (fun it => gemini_function_call_value (it_id it.2) (it_name it.2) (it_args it.2) (it_signature it.2)
                    (it_custom it.2)) (indexed_tool_finish ts).

Definition thought_parts (s : gemini_body) : list json :=
  if negb (is_empty (gb_reasoning s)) || is_some (gb_signature s)
  then [set_opt "thoughtSignature" (JStr <$> gb_signature s)
          (jobj [("text", JStr (gb_reasoning s)); ("thought", JBool true)])]
  else [].

Definition gemini_parts (s : gemini_body) : list json :=
  thought_parts s ++ flush_plain (gb_text s) (gb_media s) ++ gb_code_parts s ++ gemini_tool_parts (gb_calls s).

Definition grounding_body (s : gemini_body) : option json :=
  match gb_chunks s, gb_search s with
  | [], None => None
  | chunks, search =>
      let metadata := match chunks with
                      | [] => jobj []
                      | _ => jobj [("groundingChunks", JArr chunks); ("groundingSupports", JArr (gb_supports s))]
                      end in
      Some (set_opt "searchEntryPoint" ((fun html => jobj [("renderedContent", JStr html)]) <$> search) metadata)
  end.

Definition gemini_candidate (s : gemini_body) : json :=
  let candidate := jobj [("content", jobj [("role", JStr "model"); ("parts", JArr (gemini_parts s))])] in
  let candidate := set_opt "finishReason" (JStr <$> gb_finish s) candidate in
  let candidate := set_opt "avgLogprobs" ((fun score => JNum (NumFloat score)) <$> gb_avg_logprobs s) candidate in
  let candidate := set_opt "tokenCount" (jint <$> opt_filter positive (gb_candidate_tokens s)) candidate in
  let candidate := set_opt "safetyRatings" (gb_safety s) candidate in
  let candidate := set_opt "urlContextMetadata" (gb_url_context s) candidate in
  let candidate := set_opt "citationMetadata" (gb_citation s) candidate in
  let candidate := set_opt "finishMessage" (if_text (gb_refusal s)) candidate in
  let candidate := set_opt "groundingMetadata" (grounding_body s) candidate in
  set_opt "logprobsResult" (Gemini.logprobs_to_result <$> if_items (gb_logprobs s)) candidate.

(** [promptFeedback]: the ratings, and the message in the same object. *)
Definition prompt_feedback (s : gemini_body) : option json :=
  let feedback := (fun ratings => jobj [("safetyRatings", ratings)]) <$> gb_prompt_safety s in
  match gb_block_message s with
  | None => feedback
  | Some message => Some (index_set (unwrap_or feedback (jobj [])) "blockReasonMessage" (JStr message))
  end.

Definition gemini_usage_body (s : gemini_body) : option json :=
  '(p, c, cr, r, a, ca) ← gb_usage s;
  meta ← get (encode_gemini p c cr r a ca) "usageMetadata";
  let usage := insert_gemini_traffic_type meta (gb_traffic s) in
  let usage := insert_gemini_tool_use_prompt_tokens usage (gb_tool_tokens s) in
  let usage := insert_gemini_modality_details usage "promptTokensDetails" (gb_prompt_details s) in
  Some (insert_gemini_modality_details usage "candidatesTokensDetails" (gb_candidate_details s)).

(** The tier goes into the usage, or makes one. *)
Definition set_gemini_tier (tier : option string) (out : json) : json :=
  match tier with
  | None => out
  | Some tier =>
      match get out "usageMetadata" with
      | Some (JObj meta) => index_set out "usageMetadata" (JObj (obj_insert "serviceTier" (JStr tier) meta))
      | _ => index_set out "usageMetadata" (jobj [("serviceTier", JStr tier)])
      end
  end.

Definition gemini_body_json (s : gemini_body) (model : string) : json :=
  let out := jobj [("candidates", JArr [gemini_candidate s]);
                   ("responseId", JStr (unwrap_or (gb_response_id s) "gemini-wiremux"))] in
  let out := set_opt "modelVersion" (if_text model) out in
  let out := set_opt "promptFeedback" (prompt_feedback s) out in
  let out := set_opt "usageMetadata" (gemini_usage_body s) out in
  set_gemini_tier (gb_tier s) out.

Definition encode_gemini_complete (events : list IrStreamEvent) (model : string) : json :=
  gemini_body_json (fold_left gemini_body_event events gemini_body_new) model.

(** ** Decoding *)
Section Decode.
Context (parse_error : string -> string).

Definition decode_gemini_complete (value : json) (dialect : Dialect) : result MapError (list IrStreamEvent) :=
  match (if json_has_completion value then None
         else if is_some (json_string_error value) then plain_error_detail value else None) with
  | Some detail => Err (Invalid detail)
  | None => decode_stream_events parse_error Gemini (mkRawSse None (to_string value)) dialect
  end.
End Decode.
End Serializer.

(** ** What a body is made of *)

(** Media that is an image, and a code part without text, calls or media. *)
Definition plain_code (part : json) : Prop :=
  get part "text" = None /\ get part "functionCall" = None /\ get part "thoughtSignature" = None
  /\ get part "inlineData" = None.

Definition gemini_native (ev : IrStreamEvent) : Prop :=
  match ev with
  | ImageDelta mime _ => starts_with "audio/" (to_ascii_lowercase mime) = false
  | Protocol item_type payload => item_type = "gemini_code_part" -> plain_code payload
  | _ => True
  end.

Definition inline_part (mime data : string) : json :=
  jobj [("inlineData", jobj [("mimeType", JStr mime); ("data", JStr data)])].

(** The audio of an inline part. *)
Definition part_audio (part : json) : string :=
  match get part "inlineData" with
  | Some inline =>
      if starts_with "audio/" (to_ascii_lowercase (unwrap_or (str_field inline "mimeType") ""))
      then unwrap_or (str_field inline "data") "" else ""
  | None => ""
  end.

Definition parts_audio (parts : list json) : string := text_concat (map part_audio parts).

Lemma parts_audio_app l k : parts_audio (l ++ k) = parts_audio l +:+ parts_audio k.
Proof. unfold parts_audio. by rewrite map_app, text_concat_app. Qed.

Definition media_part (part : json) : Prop :=
  (exists t, is_empty t = false /\ part = plain_text_part t) \/ (exists mime data, part = inline_part mime data).

Lemma plain_part_text t : part_text (plain_text_part t) = t.
Proof. unfold part_text, get_str, plain_text_part. by rewrite get_jobj. Qed.

Lemma plain_part_audio t : part_audio (plain_text_part t) = "".
Proof. unfold part_audio, plain_text_part. by rewrite get_jobj. Qed.

Lemma inline_part_text mime data : part_text (inline_part mime data) = "".
Proof. unfold part_text, get_str, inline_part. by rewrite get_jobj. Qed.

Lemma inline_part_audio mime data :
  part_audio (inline_part mime data) = if starts_with "audio/" (to_ascii_lowercase mime) then data else "".
Proof.
  unfold part_audio, inline_part. read_json. unfold str_field. read_json. by cbn [mbind option_bind as_str unwrap_or].
Qed.

Lemma flush_plain_keeps text parts :
  Forall media_part parts ->
  Forall media_part (flush_plain text parts)
  /\ parts_text (flush_plain text parts) = parts_text parts +:+ text
  /\ parts_audio (flush_plain text parts) = parts_audio parts.
Proof.
  intros H. unfold flush_plain. destruct (is_empty text) eqn:E; cbn [negb].
  - destruct text; [|done]. by rewrite str_app_nil_r.
  - rewrite parts_text_app, parts_audio_app. unfold parts_text at 2, parts_audio at 2.
    cbn [map text_concat fold_right]. rewrite plain_part_text, plain_part_audio, !str_app_nil_r.
    split; [|done]. apply Forall_app. split; [done|]. constructor; [|done]. left. by exists text.
Qed.

Definition gemini_said (s : gemini_body) (ch : channel) : string :=
  match ch with
  | ChText => parts_text (gb_media s) +:+ gb_text s
  | ChRefusal => gb_refusal s
  | ChReasoning => gb_reasoning s
  | ChAudio => parts_audio (gb_media s)
  | ChTranscript => ""
  end.

(** The invariant of the fold. *)
Definition gemini_ok (s : gemini_body) : Prop :=
  Forall media_part (gb_media s) /\ Forall plain_code (gb_code_parts s).

Lemma push_media_keeps mime data s :
  gemini_ok s ->
  gemini_ok (push_media mime data s)
  /\ (forall ch, gemini_said (push_media mime data s) ch
        = gemini_said s ch +:+ match ch with
                               | ChAudio => if starts_with "audio/" (to_ascii_lowercase mime) then data else ""
                               | _ => ""
                               end)
  /\ gb_calls (push_media mime data s) = gb_calls s.
Proof.
  intros [H K]. destruct (flush_plain_keeps (gb_text s) _ H) as (F & T & A). split; [split; [|exact K]|split; [|done]].
  - change (Forall media_part (flush_plain (gb_text s) (gb_media s) ++ [inline_part mime data])).
    apply Forall_app. split; [done|]. constructor; [|done]. right. by do 2 eexists.
  - intros ch. destruct ch; try (symmetry; apply str_app_nil_r).
    + change (parts_text (flush_plain (gb_text s) (gb_media s) ++ [inline_part mime data]) +:+ ""
              = (parts_text (gb_media s) +:+ gb_text s) +:+ "").
      rewrite parts_text_app, T. unfold parts_text at 2. cbn [map text_concat fold_right].
      by rewrite inline_part_text, !str_app_nil_r.
    + change (parts_audio (flush_plain (gb_text s) (gb_media s) ++ [inline_part mime data])
              = parts_audio (gb_media s) +:+ if starts_with "audio/" (to_ascii_lowercase mime) then data else "").
      rewrite parts_audio_app, A. unfold parts_audio at 2. cbn [map text_concat fold_right].
      by rewrite inline_part_audio, str_app_nil_r.
Qed.

Lemma gemini_protocol_keeps item_type payload s :
  gemini_ok s -> gemini_native (Protocol item_type payload) ->
  gemini_ok (gemini_protocol item_type payload s)
  /\ (forall ch, gemini_said (gemini_protocol item_type payload s) ch = gemini_said s ch)
  /\ gb_calls (gemini_protocol item_type payload s) = gb_calls s.
Proof.
  intros [H K] N. unfold gemini_protocol. cbv zeta.
  destruct (String.eqb item_type "gemini_code_part") eqn:E.
  - apply String.eqb_eq in E as ->. eqb_literals. cbn [andb]. destruct (code_part payload); [|done].
    split; [split; [exact H|]|split; [|done]]; [|by intros []].
    change (Forall plain_code (gb_code_parts s ++ [payload])). apply Forall_app. split; [done|].
    constructor; [by apply N|done].
  - cbn [andb]. destruct (not_blank _); repeat (lazymatch goal with |- context [if ?b then _ else _] => destruct b end);
      (split; [split; [exact H|exact K]|split; [|done]]); by intros [].
Qed.

Lemma gemini_event_keeps s ev :
  gemini_ok s -> gemini_native ev ->
  gemini_ok (gemini_body_event s ev)
  /\ (forall ch, gemini_said (gemini_body_event s ev) ch
        = gemini_said s ch +:+ unwrap_or (say ch (transcript_as_text ev)) "")
  /\ gb_calls (gemini_body_event s ev) = call_arm kept_signature (gb_calls s) ev.
Proof.
  intros Ok N. pose proof Ok as [H K].
  assert (App : forall t, parts_text (gb_media s) +:+ gb_text s +:+ t
                          = (parts_text (gb_media s) +:+ gb_text s) +:+ t) by (intros; by rewrite str_app_assoc).
  destruct ev;
    try (split; [exact (conj H K)|split; [|reflexivity]]; intros ch; destruct ch;
         (reflexivity || apply App || (symmetry; apply str_app_nil_r))).
  - cbn [gemini_body_event]. destruct (grounding_annotation_kept annotation);
      (split; [exact (conj H K)|split; [|reflexivity]]); intros ch; destruct ch; symmetry; apply str_app_nil_r.
  - destruct (push_media_keeps "audio/mpeg" data s Ok) as (I & B & C). cbn [gemini_body_event].
    split; [exact I|split; [|exact C]]. intros ch. rewrite B. by destruct ch.
  - destruct (push_media_keeps media_type data s Ok) as (I & B & C). cbn [gemini_body_event].
    split; [exact I|split; [|exact C]]. intros ch. rewrite B. cbn in N. rewrite N. by destruct ch.
  - cbn [gemini_body_event]. destruct refusal;
      (split; [exact (conj H K)|split; [|reflexivity]]); intros ch; destruct ch; symmetry; apply str_app_nil_r.
  - cbn [gemini_body_event]. destruct (gemini_service_tier tier) as [[mapped note]|];
      (split; [exact (conj H K)|split; [|reflexivity]]); intros ch; destruct ch; symmetry; apply str_app_nil_r.
  - destruct (gemini_protocol_keeps item_type payload s Ok N) as (I & B & C). cbn [gemini_body_event].
    split; [exact I|split; [|exact C]]. intros ch. rewrite B. by destruct ch; rewrite str_app_nil_r.
Qed.

Lemma gemini_events_keep evs s :
  gemini_ok s -> Forall gemini_native evs ->
  let s' := fold_left gemini_body_event evs s in
  gemini_ok s'
  /\ (forall ch, gemini_said s' ch = gemini_said s ch +:+ said ch (map transcript_as_text evs))
  /\ gb_calls s' = fold_left (call_arm kept_signature) evs (gb_calls s).
Proof.
  cbv zeta. intros H F. revert s H. induction F as [|ev evs E _ IH]; intros s H.
  - split; [done|]. split; [|done]. intros ch. symmetry. apply str_app_nil_r.
  - cbn [fold_left map]. destruct (gemini_event_keeps s ev H E) as (H1 & B1 & C1).
    destruct (IH _ H1) as (H2 & B2 & C2). split; [done|]. split; [|by rewrite C2, C1].
    intros ch. by rewrite B2, B1, said_cons, str_app_assoc.
Qed.

(** ** What the parts are read back as *)
Section Reading.
Context {SJ : SerdeJson}.

Lemma gemini_text_part_read t seq :
  gemini_part_events (plain_text_part t) seq = (push_opt TextDelta (nonempty (Some t)), seq).
Proof.
  unfold gemini_part_events, plain_text_part. read_json. cbn [opt_filter].
  unfold thought_events, is_thought, Gemini.inline_data_event, get_str. read_json.
  cbn [mbind option_bind as_bool as_str is_none nonempty opt_filter push_opt app].
  by unfold gemini_side_part_visible, field_is; read_json.
Qed.

Lemma tells_media_part part seq :
  media_part part ->
  exists evs, gemini_part_events part seq = (evs, seq)
    /\ tells evs (fun ch => match ch with ChText => part_text part | ChAudio => part_audio part | _ => "" end) [].
Proof.
  intros [(t & _ & ->)|(mime & data & ->)].
  - rewrite gemini_text_part_read. eexists. split; [reflexivity|]. destruct (tells_text_push ChText t) as [S C].
    split; [|exact C]. intros ch. etransitivity; [apply S|]. rewrite plain_part_text, plain_part_audio. by destruct ch.
  - assert (G : forall k, get (inline_part mime data) k =
      if String.eqb k "inlineData" then Some (jobj [("mimeType", JStr mime); ("data", JStr data)]) else None).
    { intros k. unfold inline_part. by rewrite get_jobj. }
    rewrite inline_part_text, inline_part_audio.
    unfold gemini_part_events, thought_events, is_thought, Gemini.inline_data_event, gemini_side_part_visible, field_is,
      get_str, str_field.
    rewrite !G. eqb_literals. cbn [opt_filter mbind option_bind]. read_json.
    cbn [opt_filter mbind option_bind as_bool as_str is_none nonempty push_opt app is_some_and orb unwrap_or].
    rewrite bool_decide_false by done. cbn [app]. eexists. split; [reflexivity|].
    destruct data as [|a d]; cbn [is_empty negb mbind option_bind].
    { destruct (starts_with "audio/" _); (split; [by intros []|done]). }
    destruct (starts_with "audio/" _); [split; [by intros []; try apply str_app_nil_r|done]|].
    destruct (starts_with "image/" _); (split; [by intros []|done]).
Qed.

Lemma tells_plain_code part seq :
  plain_code part -> exists evs, gemini_part_events part seq = (evs, seq) /\ tells evs (fun _ => "") [].
Proof.
  intros (T & F & S & I). unfold gemini_part_events, thought_events, Gemini.inline_data_event, get_str.
  rewrite F, T, S, I. cbn [opt_filter mbind option_bind as_str is_none nonempty push_opt app].
  eexists. split; [reflexivity|]. destruct (is_thought part); cbn [app]; destruct (gemini_side_part_visible part);
    (split; [by intros []|done]).
Qed.

(** Parts that make no call leave the sequence of calls alone. *)
Lemma tells_parts (P : json -> Prop) (f : channel -> json -> string) parts seq rest :
  (forall part seq, P part -> exists evs, gemini_part_events part seq = (evs, seq) /\ tells evs (fun ch => f ch part) []) ->
  Forall P parts ->
  exists evs, (gemini_parts_events (parts ++ rest) seq).1 = evs ++ (gemini_parts_events rest seq).1
    /\ tells evs (fun ch => text_concat (map (f ch) parts)) [].
Proof.
  intros R. induction 1 as [|part parts Hp _ (evs & E & T)].
  - exists []. split; [done|]. split; [|done]. by intros [].
  - cbn [app gemini_parts_events]. destruct (R part seq Hp) as (first & -> & T1).
    destruct (gemini_parts_events (parts ++ rest) seq) as [out next]. cbn [fst] in *. subst out.
    exists (first ++ evs). split; [by rewrite app_assoc|]. apply (tells_app _ _ _ _ _ _ T1 T).
Qed.

(** ** The calls *)

(** The calls of a body: the unnamed ones are not written, a call without an
    id is named after its place. *)
Fixpoint gemini_calls_spoken (seq : Z) (tools : list (Z * IndexedTool)) : list IrStreamEvent :=
  match tools with
  | [] => []
  | (_, tool) :: tools =>
      if is_empty (it_name tool) then gemini_calls_spoken seq tools
      else
        let index := unwrap_or (u32_try_from seq) 0 in
        let id := if is_empty (it_id tool) then it_name tool +:+ "#" +:+ pretty seq else it_id tool in
        let args := gemini_call_args (it_args tool) (it_custom tool) in
        ToolCallStart id (it_name tool) (nonempty (it_signature tool)) index
        :: (match args with JNull | JObj [] => [] | _ => [ToolCallArgDelta (to_string args) index] end)
        ++ gemini_calls_spoken (seq_next seq) tools
  end.

Lemma call_part_read tool part seq :
  gemini_function_call_value (it_id tool) (it_name tool) (it_args tool) (it_signature tool) (it_custom tool) = Some part ->
  let args := gemini_call_args (it_args tool) (it_custom tool) in
  let index := unwrap_or (u32_try_from seq) 0 in
  gemini_part_events part seq =
  (ToolCallStart (if is_empty (it_id tool) then it_name tool +:+ "#" +:+ pretty seq else it_id tool) (it_name tool)
     (nonempty (it_signature tool)) index
   :: (match args with JNull | JObj [] => [] | _ => [ToolCallArgDelta (to_string args) index] end), seq_next seq).
Proof.
  cbv zeta. unfold gemini_function_call_value. destruct (is_empty (it_name tool)) eqn:N; [done|].
  set (args := gemini_call_args _ _). clearbody args. intros [= <-].
  unfold gemini_part_events. read_json.
  set (fc := set_opt "id" _ _).
  assert (V : gemini_function_call_visible fc = true).
  { unfold gemini_function_call_visible, nonempty_str, get_str, fc. read_json. cbn [opt_or mbind option_bind as_str is_some_and].
    rewrite N. by rewrite orb_true_r. }
  cbn [opt_filter]. rewrite V. unfold thought_events, is_thought, get_str at 1 2. read_json.
  cbn [opt_or mbind option_bind as_bool as_str is_none app]. rewrite bool_decide_false by done. cbn [app].
  unfold gemini_call_events, Gemini.gemini_call_id, call_args, str_field, get_str, fc. read_json.
  rewrite ?opt_or_None. cbn [opt_or mbind option_bind as_str unwrap_or].
  f_equal. f_equal.
  - f_equal.
    + rewrite if_text_str. unfold nonempty. cbn [opt_filter]. by destruct (it_id tool).
    + destruct (it_signature tool) as [[|]|]; done.
  - destruct args as [| | | | |[|]]; done.
Qed.

Lemma tells_tool_parts tools seq :
  let evs := (gemini_parts_events (omap (fun it => gemini_function_call_value (it_id it.2) (it_name it.2)
    (it_args it.2) (it_signature it.2) (it_custom it.2)) tools) seq).1 in
  evs = gemini_calls_spoken seq tools /\ tells evs (fun _ => "") evs.
Proof.
  cbv zeta. revert seq. induction tools as [|[k tool] tools IH]; intros seq; [done|].
  cbn [omap list_omap gemini_calls_spoken snd].
  destruct (gemini_function_call_value _ _ _ _ _) as [part|] eqn:E.
  - cbn [gemini_parts_events]. rewrite (call_part_read tool part seq E).
    destruct (is_empty (it_name tool)) eqn:N; [unfold gemini_function_call_value in E; by rewrite N in E|].
    destruct (IH (seq_next seq)) as [IE [S C]].
    set (rest := gemini_parts_events _ (seq_next seq)) in *. destruct rest as [out next]. cbn [fst] in *. subst out.
    split; [by rewrite <- app_comm_cons|].
    set (start := ToolCallStart _ _ _ _). set (deltas := match gemini_call_args _ _ with JNull => _ | _ => _ end).
    assert (D : tells (start :: deltas) (fun _ => "") (start :: deltas)).
    { unfold deltas. destruct (gemini_call_args _ _) as [| | | | |[|]]; (split; [by intros []|done]). }
    split; [intros ch; rewrite said_app, S; by destruct D as [-> _]|].
    destruct D as [_ D]. unfold calls_of in *. by rewrite List.filter_app, C, D.
  - unfold gemini_function_call_value in E. destruct (is_empty (it_name tool)); [apply IH|done].
Qed.

Lemma tells_thought s rest seq :
  exists evs, (gemini_parts_events (thought_parts s ++ rest) seq).1 = evs ++ (gemini_parts_events rest seq).1
    /\ tells evs (only ChReasoning (gb_reasoning s)) [].
Proof.
  unfold thought_parts. destruct (_ || _) eqn:B.
  - cbn [app gemini_parts_events]. set (part := set_opt _ _ _).
    assert (G : forall k, get part k = if String.eqb k "thoughtSignature" then opt_or (JStr <$> gb_signature s) None
      else if String.eqb k "thought" then Some (JBool true)
      else if String.eqb k "text" then Some (JStr (gb_reasoning s)) else None).
    { intros k. unfold part. rewrite get_set_opt by apply is_object_jobj. rewrite get_jobj. cbn [assoc_last].
      destruct (String.eqb k "thoughtSignature") eqn:K; [|by destruct (String.eqb k "thought")].
      apply String.eqb_eq in K as ->. by eqb_literals. }
    unfold gemini_part_events, thought_events, is_thought, Gemini.inline_data_event, gemini_side_part_visible, field_is, get_str.
    rewrite !G. eqb_literals. rewrite opt_or_None.
    cbn [opt_filter mbind option_bind as_bool as_str is_none is_some_and orb]. rewrite bool_decide_true by done.
    destruct (gemini_parts_events rest seq) as [out next]. cbn [fst]. eexists. split; [reflexivity|].
    assert (Q : Forall quiet (push_opt ReasoningSignature (nonempty ((JStr <$> gb_signature s) ≫= as_str))))
      by (apply quiet_push; intros; silent).
    rewrite app_nil_r.
    destruct (tells_app _ _ _ _ _ _ (tells_text_push ChReasoning (gb_reasoning s)) (tells_quiet _ Q)) as [S K].
    split; [|exact K]. intros ch. etransitivity; [apply S|]. apply str_app_nil_r.
  - exists []. split; [done|]. apply orb_false_iff in B as [B _]. destruct (gb_reasoning s); [|done].
    split; [by intros []|done].
Qed.

Lemma text_concat_empty {A} (f : A -> string) l : (forall a, f a = "") -> text_concat (map f l) = "".
Proof. intros H. unfold text_concat. induction l as [|a l IH]; [done|]. cbn. by rewrite H, IH. Qed.

Lemma parts_read s :
  gemini_ok s ->
  tells (gemini_parts_events (gemini_parts s) 0).1
    (fun ch => match ch with ChRefusal => "" | _ => gemini_said s ch end)
    (gemini_calls_spoken 0 (indexed_tool_finish (gb_calls s))).
Proof.
  intros [M K]. unfold gemini_parts.
  destruct (tells_thought s (flush_plain (gb_text s) (gb_media s) ++ gb_code_parts s ++ gemini_tool_parts (gb_calls s)) 0)
    as (e1 & -> & T1).
  destruct (flush_plain_keeps (gb_text s) _ M) as (M2 & Tx & Au).
  destruct (tells_parts media_part (fun ch part => match ch with ChText => part_text part | ChAudio => part_audio part | _ => "" end)
    (flush_plain (gb_text s) (gb_media s)) 0 (gb_code_parts s ++ gemini_tool_parts (gb_calls s))) as (e2 & -> & T2);
    [apply tells_media_part|done|].
  destruct (tells_parts plain_code (fun _ _ => "") (gb_code_parts s) 0 (gemini_tool_parts (gb_calls s))) as (e3 & -> & T3);
    [apply tells_plain_code|done|].
  unfold gemini_tool_parts. destruct (tells_tool_parts (indexed_tool_finish (gb_calls s)) 0) as [E T4]. rewrite E in *.
  destruct (tells_app _ _ _ _ _ _ T1 (tells_app _ _ _ _ _ _ T2 (tells_app _ _ _ _ _ _ T3 T4))) as [S C].
  split; [|exact C]. intros ch. etransitivity; [apply S|]. cbn beta.
  rewrite (text_concat_empty (fun _ : json => "") (gb_code_parts s)) by done.
  fold (parts_text (flush_plain (gb_text s) (gb_media s))).
  destruct ch; cbn [gemini_said]; try (rewrite <- Tx); try (rewrite <- Au);
    unfold only; cbn [decide]; rewrite ?text_concat_empty by done; cbn; by rewrite ?str_app_nil_r.
Qed.

(** ** The body *)
Lemma gemini_value_get s model k :
  one_of k ["usageMetadata"; "promptFeedback"; "modelVersion"] = false ->
  is_object (gemini_body_json s model) = true
  /\ get (gemini_body_json s model) k
     = get (jobj [("candidates", JArr [gemini_candidate s]);
                  ("responseId", JStr (unwrap_or (gb_response_id s) "gemini-wiremux"))]) k.
Proof.
  intros K. unfold one_of in K. cbn [existsb] in K. rewrite !orb_false_iff in K. destruct K as (K1 & K2 & K3 & _).
  unfold gemini_body_json. set (out0 := jobj _). set (out1 := set_opt "usageMetadata" _ _).
  assert (O1 : is_object out1 = true) by (unfold out1, out0; object_goal).
  assert (G1 : get out1 k = get out0 k).
  { unfold out1. rewrite !get_set_opt by (rewrite ?is_object_set_opt; apply is_object_jobj). by rewrite K1, K2, K3. }
  assert (S : forall x, is_object (index_set out1 "usageMetadata" x) = true
                        /\ get (index_set out1 "usageMetadata" x) k = get out0 k).
  { intros x. rewrite is_object_index_set. split; [done|]. rewrite get_index_set by done. by rewrite K1. }
  unfold set_gemini_tier. destruct (gb_tier s); [|done]. destruct (get out1 "usageMetadata") as [[]|]; apply S.
Qed.

Lemma gemini_candidate_at s model p :
  pointer (gemini_body_json s model) (candidate0 p) = pointer (gemini_candidate s) p.
Proof.
  unfold candidate0. rewrite pointer_key. destruct (gemini_value_get s model "candidates" eq_refl) as [_ ->].
  rewrite get_jobj. cbn [assoc_last]. by eqb_literals.
Qed.

Lemma gemini_candidate_parts s :
  pointer (gemini_candidate s) [Key "content"; Key "parts"] = Some (JArr (gemini_parts s))
  /\ pointer (gemini_candidate s) [Key "finishMessage"] = if_text (gb_refusal s).
Proof.
  unfold gemini_candidate. rewrite !pointer_key. read_json. rewrite ?opt_or_None. cbn [mbind option_bind].
  rewrite pointer_key. read_json. split; [done|]. by destruct (if_text _).
Qed.

Lemma quiet_annotations value : Forall quiet (fan_out_annotations value).
Proof.
  unfold fan_out_annotations. rewrite !Forall_app. repeat split.
  - generalize 0 as idx. induction (array_at value _) as [|c l IH]; intros idx; [done|]. cbn [grounding_events].
    apply Forall_app. split; [apply quiet_push; intros; silent|apply IH].
  - destruct (Gemini.first_candidate value); [|done]. apply quiet_map. intros; silent.
  - apply quiet_push; intros; silent.
  - apply quiet_push; intros; silent.
  - induction (array_at value _) as [|c l IH]; [done|]. cbn [flat_map]. apply Forall_app.
    split; [apply quiet_push; intros; silent|done].
Qed.

Lemma quiet_tail value : Forall quiet (fan_out_tail value).
Proof.
  unfold fan_out_tail. rewrite !Forall_app. repeat split; try (apply quiet_push; intros; silent).
  - destruct (is_none _); [|done]. apply quiet_push. intros ev E. unfold Gemini.block_event in E.
    destruct (nonempty _); [|done]. injection E as <-. silent.
  - apply quiet_push. intros ev E. unfold Gemini.service_tier_from_chunk in E.
    destruct (object_field _ _) as [usage|]; [|done]. cbn [mbind option_bind] in E.
    destruct (gemini_decode_service_tier usage); [|done]. injection E as <-. silent.
  - unfold gemini_modality_detail_events. apply Forall_app.
    split; destruct (kept_modality_details _ _); try done; apply Forall_cons; (split; [silent|done]).
  - apply quiet_push. intros ev E. unfold Gemini.usage_from_chunk in E.
    destruct (object_field value "usageMetadata"); [injection E as <-; silent|].
    destruct (opt_filter _ _); [|done]. injection E as <-. silent.
Qed.

Lemma gemini_decode_ok s model : exists first, Gemini.decode (gemini_body_json s model) = Ok first.
Proof.
  unfold Gemini.decode, Gemini.first_candidate, get_array.
  destruct (gemini_value_get s model "candidates" eq_refl) as [_ ->]. rewrite get_jobj. cbn [assoc_last]. eqb_literals.
  cbn [mbind option_bind as_array head is_none].
  replace (Gemini.gemini_error_detail (gemini_body_json s model)) with (@None string).
  - destruct (is_some_and _ _); (destruct (if Gemini.usage_only _ then _ else _) as [ev|]; by eexists).
  - unfold Gemini.gemini_error_detail, json_string_error, trimmed_str, get_str, object_field.
    destruct (gemini_value_get s model "error" eq_refl) as [_ ->]. by rewrite get_jobj.
Qed.

Lemma gemini_fan_out s model :
  gemini_ok s -> is_some (not_blank (Some (unwrap_or (gb_response_id s) "gemini-wiremux"))) = true ->
  exists out seq, fan_out_gemini_parts (gemini_body_json s model) 0 = (Some out, seq)
    /\ tells out (gemini_said s) (gemini_calls_spoken 0 (indexed_tool_finish (gb_calls s))).
Proof.
  intros H B. set (value := gemini_body_json s model). destruct (gemini_candidate_parts s) as [P F].
  assert (A : array_at value (candidate0 [Key "content"; Key "parts"]) = gemini_parts s)
    by (unfold array_at, value; by rewrite gemini_candidate_at, P).
  assert (R : get_str value "responseId" = Some (unwrap_or (gb_response_id s) "gemini-wiremux")).
  { unfold get_str, value. destruct (gemini_value_get s model "responseId" eq_refl) as [_ ->]. by rewrite get_jobj. }
  pose proof (parts_read s H) as T. unfold fan_out_gemini_parts. rewrite A, R.
  destruct (gemini_parts_events (gemini_parts s) 0) as [parts seq]. cbn [fst] in T.
  destruct (not_blank _) as [id|]; [|done]. cbn [push_opt app]. do 2 eexists. split; [reflexivity|].
  assert (C : tells (fan_out_candidate value) (only ChRefusal (gb_refusal s)) []).
  { unfold fan_out_candidate, pointer_str at 1. unfold value at 3. rewrite gemini_candidate_at, F.
    assert (Q1 : Forall quiet (push_opt (fun ev => ev) (Gemini.search_entry_from_value value))).
    { apply quiet_push. intros ev E. unfold Gemini.search_entry_from_value in E.
      destruct (nonempty _); [|done]. injection E as <-. silent. }
    assert (Q2 : Forall quiet (push_opt (fun content => Logprobs content None)
                   (pointer value (candidate0 [Key "logprobsResult"]) ≫= Gemini.logprobs_from_result)))
      by (apply quiet_push; intros; silent).
    set (rest := push_opt (Protocol "gemini_safety_ratings") _ ++ _).
    assert (Q3 : Forall quiet rest).
    { unfold rest. rewrite !Forall_app. repeat split; apply quiet_push; intros; silent. }
    destruct (tells_app _ _ _ _ _ _ (tells_quiet _ Q1) (tells_app _ _ _ _ _ _ (tells_quiet _ Q2)
      (tells_app _ _ _ _ _ _ (tells_if_text ChRefusal (gb_refusal s)) (tells_quiet _ Q3)))) as [S K].
    split; [|exact K]. intros ch. etransitivity; [apply S|]. apply str_app_nil_r. }
  assert (Q0 : Forall quiet [Protocol "gemini_response_id" (JStr id)]) by (apply Forall_cons; split; [silent|done]).
  destruct (tells_app _ _ _ _ _ _ (tells_quiet _ Q0) (tells_app _ _ _ _ _ _ T
    (tells_app _ _ _ _ _ _ (tells_quiet _ (quiet_annotations value))
      (tells_app _ _ _ _ _ _ C (tells_quiet _ (quiet_tail value)))))) as [S K].
  split; [|etransitivity; [apply K|]; by rewrite app_nil_l, app_nil_r].
  intros ch. etransitivity; [apply S|]. destruct ch; cbn; by rewrite ?str_app_nil_r.
Qed.

Lemma response_id_shown evs s :
  (forall id, gb_response_id s = Some id -> not_blank (Some id) = Some id) ->
  forall id, gb_response_id (fold_left gemini_body_event evs s) = Some id -> not_blank (Some id) = Some id.
Proof.
  revert s. induction evs as [|ev evs IH]; intros s H; [exact H|]. cbn [fold_left]. apply IH. clear IH evs.
  destruct ev; try exact H; cbn [gemini_body_event].
  - destruct (grounding_annotation_kept annotation); exact H.
  - destruct refusal; exact H.
  - destruct (gemini_service_tier tier) as [[]|]; exact H.
  - unfold gemini_protocol. cbv zeta. destruct (String.eqb item_type "gemini_response_id").
    + destruct (not_blank (as_str payload)) as [text|] eqn:E; [|exact H]. intros id Hid.
      change (Some text = Some id) in Hid. injection Hid as <-. unfold not_blank, opt_filter in *.
      destruct (as_str payload) as [t|]; [|done]. destruct (negb _) eqn:B; [|done]. injection E as ->. by rewrite B.
    + repeat (lazymatch goal with |- context [if ?b then _ else _] => destruct b end); exact H.
Qed.

Section Wire.
Context {SJL : SerdeJsonLaws} (parse_error : string -> string) (dialect : Dialect).

(** A frame of an object goes to the decoder of the dialect. *)
Lemma gemini_frame value :
  is_object value = true -> reparses value = true -> one_of "chunk" (d_stream_events dialect) = true ->
  decode_stream_event parse_error Gemini (mkRawSse None (to_string value)) dialect = Gemini.decode value.
Proof.
  intros O R D. destruct value as [| | | | |m]; try done. destruct (to_string_obj m) as [s Hs].
  unfold decode_stream_event, frame_event_name. cbn [raw_event raw_data is_none nonempty opt_filter].
  rewrite from_to by done. rewrite Hs, trim_braces.
  change (String.eqb ("{" +:+ s +:+ "}") "[DONE]") with false. change (is_empty ("{" +:+ s +:+ "}")) with false.
  cbn [andb]. rewrite D. done.
Qed.

(** A Gemini body reads back, as a chunk of a stream, what the events said:
    text and transcripts as text, the refusal, the reasoning and the audio,
    and the named calls of the table, each with its signature and its
    arguments, numbered in the order they are written. *)
Theorem gemini_body_says evs model :
  Forall gemini_native evs -> one_of "chunk" (d_stream_events dialect) = true ->
  reparses (encode_gemini_complete evs model) = true ->
  exists out, decode_gemini_complete parse_error (encode_gemini_complete evs model) dialect = Ok out
    /\ (forall ch, said ch out = said ch (map transcript_as_text evs))
    /\ calls_of out = gemini_calls_spoken 0 (indexed_tool_finish (call_table kept_signature evs)).
Proof.
  intros N D R. destruct (gemini_events_keep evs gemini_body_new) as (H & B & C); [by repeat constructor|done|].
  pose proof (response_id_shown evs gemini_body_new ltac:(done)) as I. unfold encode_gemini_complete in *.
  set (s := fold_left gemini_body_event evs gemini_body_new) in *.
  destruct (gemini_value_get s model "error" eq_refl) as [O E].
  destruct (gemini_fan_out s model H) as (out & seq & F & S & K).
  { destruct (gb_response_id s) as [id|] eqn:G; [|reflexivity]. cbn [unwrap_or]. by rewrite (I id eq_refl). }
  unfold decode_gemini_complete.
  assert (X : (if json_has_completion (gemini_body_json s model) then None
         else if is_some (json_string_error (gemini_body_json s model))
              then plain_error_detail (gemini_body_json s model) else None) = None).
  { unfold json_string_error, trimmed_str, get_str. rewrite E, get_jobj. by destruct (json_has_completion _). }
  rewrite X. unfold decode_stream_events, decode_stream_events_seq. rewrite gemini_frame by done.
  destruct (gemini_decode_ok s model) as [first ->]. unfold rest_events.
  change (wire_eqb Gemini Converse) with false. change (wire_eqb Gemini Gemini) with true. cbn iota.
  change (2 <=? vlen []) with false. cbn iota. cbn [raw_data]. rewrite from_to by done. rewrite F.
  exists out. split; [reflexivity|]. split; [|by rewrite K, C].
  intros ch. rewrite S, B. by destruct ch.
Qed.
End Wire.
End Reading.

(** ** Witnesses *)
Section Witnesses.
#[local] Existing Instance bits_codec.
#[local] Existing Instance bits_codec_laws.

Definition sample_reply : list IrStreamEvent :=
  [ReasoningDelta "hm"; TextDelta "look "; ToolCallStart "" "f" (Some "s") 0; ImageDelta "image/png" "aGk=";
   ToolCallStart "b" "g" None 1; ToolCallArgDelta "{}" 1; AudioDelta "UklG"; AudioTranscriptDelta "here";
   Protocol "gemini_code_part" (jobj [("executableCode", jobj [("code", JStr "x")])])].

Definition chunk_dialect : Dialect := mkDialect (Some Gemini) ["chunk"] Replace PolicyHardError UnknownHardError.

Lemma gemini_body_says_witness :
  exists out, decode_gemini_complete (fun _ => "") (encode_gemini_complete sample_reply "m") chunk_dialect = Ok out
    /\ said ChText out = "look here" /\ said ChAudio out = "UklG".
Proof.
  destruct (gemini_body_says (fun _ => "") chunk_dialect sample_reply "m") as (out & D & S & _).
  - repeat (apply Forall_cons; split; [try exact I; try reflexivity|]); try apply Forall_nil; try reflexivity.
    intros _. repeat split.
  - reflexivity.
  - vm_compute. reflexivity.
  - exists out. split; [exact D|]. rewrite !S. split; reflexivity.
Defined.
End Witnesses.
