(* ===== verification/CompleteResponses.v ===== *)
(** * CompleteResponses: whole Responses bodies

    The Responses half of src/crates/wiremux/src/stream/complete.rs:
    [encode_responses_complete] folds the events into one [response] object;
    [decode_responses_complete] reads a body as a terminal frame and puts the
    events of its output items in front of the finish. *)

From S2P Require Import Prelude Fields Text Json JsonCodec Sse Ir ProfileTypes StreamCore Usage Completion BTree Shapes.
From S2P Require Import Chat Responses StreamDecode CompleteCalls.

(** ** Encoding *)

(** The locals of [encode_responses_complete]. *)
Record responses_body := mkResponsesBody {
  rb_text : string; rb_refusal : string; rb_reasoning : string; rb_signature : option string;
  rb_finish : option string; rb_id : option string; rb_previous_id : option string;
  rb_message_id : option string; rb_message_status : option string; rb_message_phase : option string;
  rb_message_agent : option json; rb_reasoning_id : option string; rb_reasoning_status : option string;
  rb_reasoning_content : option json; rb_usage : option (Z * Z * Z * Z * Z); rb_annotations : list json;
  rb_audio_data : string; rb_audio_transcript : string; rb_images : list json; rb_logprobs : list json;
  rb_created : option Z; rb_service_tier : option string; rb_metadata : option (list (string * string));
  rb_moderation : option (option json * option json); rb_extras : list (Z * ResponsesToolExtra);
  rb_calls : calls; rb_replay : list json; rb_saw_reasoning : bool
}.

#[export] Instance responses_body_eta : Eta responses_body := fun s =>
  mkResponsesBody (rb_text s) (rb_refusal s) (rb_reasoning s) (rb_signature s) (rb_finish s) (rb_id s)
    (rb_previous_id s) (rb_message_id s) (rb_message_status s) (rb_message_phase s) (rb_message_agent s)
    (rb_reasoning_id s) (rb_reasoning_status s) (rb_reasoning_content s) (rb_usage s) (rb_annotations s)
    (rb_audio_data s) (rb_audio_transcript s) (rb_images s) (rb_logprobs s) (rb_created s)
    (rb_service_tier s) (rb_metadata s) (rb_moderation s) (rb_extras s) (rb_calls s) (rb_replay s)
    (rb_saw_reasoning s).

#[export] Instance over_rb_text : Field rb_text := ltac:(derive_field).
#[export] Instance over_rb_refusal : Field rb_refusal := ltac:(derive_field).
#[export] Instance over_rb_reasoning : Field rb_reasoning := ltac:(derive_field).
#[export] Instance over_rb_signature : Field rb_signature := ltac:(derive_field).
#[export] Instance over_rb_finish : Field rb_finish := ltac:(derive_field).
#[export] Instance over_rb_id : Field rb_id := ltac:(derive_field).
#[export] Instance over_rb_previous_id : Field rb_previous_id := ltac:(derive_field).
#[export] Instance over_rb_message_id : Field rb_message_id := ltac:(derive_field).
#[export] Instance over_rb_message_status : Field rb_message_status := ltac:(derive_field).
#[export] Instance over_rb_message_phase : Field rb_message_phase := ltac:(derive_field).
#[export] Instance over_rb_message_agent : Field rb_message_agent := ltac:(derive_field).
#[export] Instance over_rb_reasoning_id : Field rb_reasoning_id := ltac:(derive_field).
#[export] Instance over_rb_reasoning_status : Field rb_reasoning_status := ltac:(derive_field).
#[export] Instance over_rb_reasoning_content : Field rb_reasoning_content := ltac:(derive_field).
#[export] Instance over_rb_usage : Field rb_usage := ltac:(derive_field).
#[export] Instance over_rb_annotations : Field rb_annotations := ltac:(derive_field).
#[export] Instance over_rb_audio_data : Field rb_audio_data := ltac:(derive_field).
#[export] Instance over_rb_audio_transcript : Field rb_audio_transcript := ltac:(derive_field).
#[export] Instance over_rb_images : Field rb_images := ltac:(derive_field).
#[export] Instance over_rb_logprobs : Field rb_logprobs := ltac:(derive_field).
#[export] Instance over_rb_created : Field rb_created := ltac:(derive_field).
#[export] Instance over_rb_service_tier : Field rb_service_tier := ltac:(derive_field).
#[export] Instance over_rb_metadata : Field rb_metadata := ltac:(derive_field).
#[export] Instance over_rb_moderation : Field rb_moderation := ltac:(derive_field).
#[export] Instance over_rb_extras : Field rb_extras := ltac:(derive_field).
#[export] Instance over_rb_calls : Field rb_calls := ltac:(derive_field).
#[export] Instance over_rb_replay : Field rb_replay := ltac:(derive_field).
#[export] Instance over_rb_saw_reasoning : Field rb_saw_reasoning := ltac:(derive_field).

Definition responses_body_new : responses_body := {|
  rb_text := ""; rb_refusal := ""; rb_reasoning := ""; rb_signature := None; rb_finish := None;
  rb_id := None; rb_previous_id := None; rb_message_id := None; rb_message_status := None;
  rb_message_phase := None; rb_message_agent := None; rb_reasoning_id := None;
  rb_reasoning_status := None; rb_reasoning_content := None; rb_usage := None; rb_annotations := [];
  rb_audio_data := ""; rb_audio_transcript := ""; rb_images := []; rb_logprobs := []; rb_created := None;
  rb_service_tier := None; rb_metadata := None; rb_moderation := None; rb_extras := [];
  rb_calls := calls_new; rb_replay := []; rb_saw_reasoning := false |}.

Definition output_image_part (media_type data : string) : json :=
  jobj [("type", JStr "output_image");
        ("image_url", JStr ("data:" +:+ media_type +:+ ";base64," +:+ data))].

(** [tool_extras.entry(index).or_default().merge(extra)] *)
Definition add_extra (index : Z) (extra : ResponsesToolExtra) (m : list (Z * ResponsesToolExtra)) :
  list (Z * ResponsesToolExtra) :=
  bt_insert index (extra_merge (unwrap_or (bt_get index m) extra_default) extra) m.

(** The [Protocol] arms, guards in order. *)
Definition responses_protocol (item_type : string) (payload : json) (s : responses_body) : responses_body :=
  let tag := String.eqb item_type in
  let text := not_blank (as_str payload) in
  let kept := nonempty (as_str payload) in
  match tool_extra_from_protocol item_type payload with
  | Some (index, extra) => s <| rb_extras ::= add_extra index extra |>
  | None =>
      if tag "responses_id" then match text with Some t => s <| rb_id := Some t |> | None => s end
      else if tag "responses_previous_id" then
        match text with Some t => s <| rb_previous_id := Some t |> | None => s end
      else if tag "responses_message_id" then
        match text with Some t => s <| rb_message_id := Some t |> | None => s end
      else if tag "responses_message_status" then
        match text with Some t => s <| rb_message_status := Some t |> | None => s end
      else if tag "responses_message_phase" then
        match text with Some t => s <| rb_message_phase := Some t |> | None => s end
      else if tag "responses_message_agent" && is_some (nonempty (get_str payload "agent_name"))
      then s <| rb_message_agent := Some payload |>
      else if tag "responses_reasoning_id" then
        match kept with Some t => s <| rb_reasoning_id := Some t |> | None => s end
      else if tag "responses_reasoning_status" then
        match kept with Some t => s <| rb_reasoning_status := Some t |> | None => s end
      else if tag "responses_reasoning_content" then
        if nonempty_array (Some payload) then s <| rb_reasoning_content := Some payload |> else s
      else if responses_output_item item_type payload then
        s <| rb_saw_reasoning ::= fun seen => seen || tag "reasoning" |>
          <| rb_replay ::= fun items => items ++ [payload] |>
      else s
  end.

Definition responses_body_event (s : responses_body) (ev : IrStreamEvent) : responses_body :=
  match ev with
  | TextDelta delta => s <| rb_text ::= fun text => text +:+ delta |>
  | RefusalDelta delta => s <| rb_refusal ::= fun refusal => refusal +:+ delta |>
  | ReasoningDelta delta => s <| rb_reasoning ::= fun reasoning => reasoning +:+ delta |>
  | ReasoningSignature signature => s <| rb_signature := Some signature |>
  | AnnotationAdded annotation =>
      s <| rb_annotations ::= fun l => l ++ [annotation_without_segment_text annotation] |>
  | AudioDelta data => s <| rb_audio_data ::= fun audio => audio +:+ data |>
  | ImageDelta media_type data =>
      s <| rb_images ::= fun images =>
             flush_typed "output_text" (rb_text s) images ++ [output_image_part media_type data] |>
        <| rb_text := "" |>
  | AudioTranscriptDelta text => s <| rb_audio_transcript ::= fun transcript => transcript +:+ text |>
  | Logprobs content refusal =>
      let s := s <| rb_logprobs ::= fun l => extend_logprobs_content l content |> in
      match refusal with
      | Some refusal => s <| rb_logprobs ::= fun l => extend_logprobs_content l refusal |>
      | None => s
      end
  | Created unix => s <| rb_created := Some unix |>
  | ServiceTier tier => s <| rb_service_tier := Some tier |>
  | Metadata metadata => s <| rb_metadata := Some metadata |>
  | Moderation input output => s <| rb_moderation := Some (input, output) |>
  | FinishReason reason _ => s <| rb_finish := Some reason |>
  | Usage p c cr cw r _ _ _ => s <| rb_usage := Some (p, c, cr, cw, r) |>
  | ToolCallStart _ _ _ _ | CustomToolCallStart _ _ _ | ToolCallArgDelta _ _ | CustomToolCallInputDelta _ _ =>
      s <| rb_calls ::= fun ts => call_arm no_signature ts ev |>
  | Protocol item_type payload => responses_protocol item_type payload s
  | _ => s
  end.

Definition responses_complete_status (reason : string) : string :=
  if String.eqb reason "failed" then "failed"
  else if one_of reason ["incomplete"; "length"; "max_tokens"; "content_filter"] then "incomplete"
  else "completed".

Definition responses_tool_call_value (id name args : string) (custom : bool) (extra : ResponsesToolExtra) : json :=
  write_item extra
    (jobj [("type", JStr (if custom then "custom_tool_call" else "function_call")); ("id", JStr id);
           ("call_id", JStr id); ("name", JStr name); ((if custom then "input" else "arguments"), JStr args)]).

(** The calls, each taking the side fields of its index away. *)
Fixpoint responses_tool_items (extras : list (Z * ResponsesToolExtra)) (tools : list (Z * IndexedTool)) : list json :=
  match tools with
  | [] => []
  | (index, tool) :: tools =>
      responses_tool_call_value (it_id tool) (it_name tool) (it_args tool) (it_custom tool)
        (unwrap_or (bt_get index extras) extra_default)
      :: responses_tool_items (bt_remove index extras) tools
  end.

Definition reasoning_items (s : responses_body) : list json :=
  let keep := is_some (rb_reasoning_id s) || is_some (rb_reasoning_status s) || is_some (rb_reasoning_content s) in
  if negb (rb_saw_reasoning s)
     && (negb (is_empty (rb_reasoning s)) || is_some (rb_signature s) || keep)
  then
    let item := jobj [("type", JStr "reasoning")] in
    let item := set_opt "id" (JStr <$> rb_reasoning_id s) item in
    let item := set_opt "status" (JStr <$> rb_reasoning_status s) item in
    let item := set_opt "summary"
      ((fun text => JArr [jobj [("type", JStr "summary_text"); ("text", text)]]) <$> if_text (rb_reasoning s)) item in
    let item := set_opt "content" (rb_reasoning_content s) item in
    [set_opt "signature" (JStr <$> rb_signature s) item]
  else [].

(** Annotations and log-probabilities on a text part. *)
Definition decorate_text (s : responses_body) (part : json) : json :=
  set_opt "logprobs" (if_items (rb_logprobs s)) (set_opt "annotations" (if_items (rb_annotations s)) part).

Definition decorated_parts (s : responses_body) : list json :=
  let content := flush_typed "output_text" (rb_text s) (rb_images s) in
  if is_some (if_items (rb_annotations s)) || is_some (if_items (rb_logprobs s)) then
    match decorate_first "output_text" (decorate_text s) content with
    | Some content => content
    | None => content ++ [decorate_text s (jobj [("type", JStr "output_text"); ("text", JStr "")])]
    end
  else content.

Definition message_items (s : responses_body) : list json :=
  if negb (is_empty (rb_text s)) || negb (is_empty (rb_refusal s)) || is_some (if_items (rb_annotations s))
     || is_some (if_items (rb_logprobs s)) || is_some (if_items (rb_images s))
  then
    let content := decorated_parts s
      ++ (if negb (is_empty (rb_refusal s))
          then [jobj [("type", JStr "refusal"); ("refusal", JStr (rb_refusal s))]] else []) in
    let message := jobj [("type", JStr "message"); ("role", JStr "assistant"); ("content", JArr content)] in
    let message := set_opt "id" (JStr <$> rb_message_id s) message in
    let message := set_opt "status" (JStr <$> rb_message_status s) message in
    let message := set_opt "phase" (JStr <$> rb_message_phase s) message in
    [set_opt "agent" (rb_message_agent s) message]
  else [].

Definition audio_items (s : responses_body) : list json :=
  if negb (is_empty (rb_audio_data s)) || negb (is_empty (rb_audio_transcript s)) then
    [set_opt "transcript" (if_text (rb_audio_transcript s))
       (set_opt "data" (if_text (rb_audio_data s)) (jobj [("type", JStr "output_audio")]))]
  else [].

Definition responses_output (s : responses_body) : list json :=
  rb_replay s ++ reasoning_items s ++ message_items s ++ audio_items s
  ++ responses_tool_items (rb_extras s) (indexed_tool_finish (rb_calls s)).

Definition responses_usage_body (s : responses_body) : option json :=
  '(p, c, cr, cw, r) ← rb_usage s;
  pointer (encode_responses p c cr cw r) [Key "response"; Key "usage"].

Definition responses_body_json (s : responses_body) (model : string) : json :=
  let status := unwrap_or (responses_complete_status <$> rb_finish s) "completed" in
  let out := jobj [("id", JStr (unwrap_or (rb_id s) "resp_wiremux")); ("object", JStr "response");
                   ("status", JStr status); ("output", JArr (responses_output s))] in
  let out := set_opt "previous_response_id" (JStr <$> rb_previous_id s) out in
  let out := set_opt "incomplete_details"
               ((fun detail => jobj [("reason", JStr detail)]) <$> (rb_finish s ≫= incomplete_details_reason)) out in
  let out := set_opt "model" (if_text model) out in
  let out := set_opt "created_at" (jint <$> rb_created s) out in
  let out := set_opt "service_tier" (JStr <$> rb_service_tier s) out in
  let out := set_opt "metadata" (metadata_body (rb_metadata s)) out in
  let out := set_opt "moderation" ('(input, output) ← rb_moderation s; responses_moderation_value input output) out in
  let out := set_opt "output_text" (if_text (rb_text s)) out in
  set_opt "usage" (responses_usage_body s) out.

Definition encode_responses_complete (events : list IrStreamEvent) (model : string) : json :=
  responses_body_json (fold_left responses_body_event events responses_body_new) model.

(** ** Decoding the output items *)
Section Serializer.
Context {SJ : SerdeJson}.

(** [push_output_audio_events] *)
Definition output_audio_events (value : json) : list IrStreamEvent :=
  push_opt AudioDelta (nonempty (str_field value "data"))
  ++ push_opt AudioTranscriptDelta (nonempty (str_field value "transcript")).

Definition complete_text_events (part : json) : list IrStreamEvent :=
  push_opt TextDelta (nonempty (str_field part "text"))
  ++ (match get_array part "annotations" with
      | Some anns => map AnnotationAdded (List.filter is_object anns)
      | None => []
      end)
  ++ push_opt (fun content => Logprobs content None) (logprobs_array part).

Definition complete_part_events (part : json) : list IrStreamEvent :=
  match get_str part "type" with
  | None => []
  | Some ty =>
      if one_of ty ["output_text"; "text"] then complete_text_events part
      else if String.eqb ty "refusal" then
        push_opt RefusalDelta (nonempty (opt_or (str_field part "refusal") (str_field part "text")))
      else if one_of ty ["output_audio"; "audio"] then output_audio_events part
      else if String.eqb ty "output_image" then
        [unwrap_or (image_delta_from_output_image part) (Protocol "output_image" part)]
      else []
  end.

Definition complete_call_events (item : json) (index : Z) (custom : bool) : result MapError (list IrStreamEvent) :=
  let id := call_id_of item in
  let name := unwrap_or (str_field item "name") "" in
  let* body := json_text_field item (if custom then "input" else "arguments") in
  Ok (tool_item_events item index
      ++ [if custom then CustomToolCallStart id name index else ToolCallStart id name None index]
      ++ push_opt (fun delta => if custom then CustomToolCallInputDelta delta index else ToolCallArgDelta delta index)
           body
      ++ [ToolCallEnd]).

Definition complete_reasoning_events (item : json) : list IrStreamEvent :=
  reasoning_item_identity_events item
  ++ match get_array item "summary" with
     | Some parts =>
         flat_map (fun part =>
             if is_some_and (get_str part "type") (fun ty => one_of ty ["summary_text"; "text"])
             then push_opt ReasoningDelta (nonempty (str_field part "text")) else []) parts
     | None => []
     end.

(** One iteration of the loop over the items: its events, and the next index. *)
Definition complete_item_events (tool_index : Z) (item : json) : result MapError (list IrStreamEvent * Z) :=
  match get_str item "type" with
  | None => Ok ([], tool_index)
  | Some ty =>
      if String.eqb ty "message" then
        Ok (message_item_identity_events item
            ++ match get_array item "content" with
               | Some content => flat_map complete_part_events content
               | None => []
               end, tool_index)
      else if String.eqb ty "output_audio" then Ok (output_audio_events item, tool_index)
      else if String.eqb ty "function_call" then
        let* evs := complete_call_events item tool_index false in Ok (evs, u32_saturating_add tool_index 1)
      else if String.eqb ty "custom_tool_call" then
        let* evs := complete_call_events item tool_index true in Ok (evs, u32_saturating_add tool_index 1)
      else if String.eqb ty "reasoning" then Ok (complete_reasoning_events item, tool_index)
      else Ok ([], tool_index)
  end.

Fixpoint complete_items_events (tool_index : Z) (items : list json) : result MapError (list IrStreamEvent) :=
  match items with
  | [] => Ok []
  | item :: items =>
      let* first := complete_item_events tool_index item in
      let* rest := complete_items_events first.2 items in
      Ok (first.1 ++ rest)
  end.

Definition complete_responses_output_events (value : json) : result MapError (list IrStreamEvent) :=
  match opt_or (get_array value "output") (pointer value [Key "response"; Key "output"] ≫= as_array) with
  | Some items => complete_items_events 0 items
  | None => Ok []
  end.

(** ** Decoding a body *)
Section Decode.
Context (parse_error : string -> string) (dialect : Dialect).

(** The terminal frame a body is read as. *)
Definition terminal_frame (value : json) : RawSse :=
  let name := unwrap_or (get_str value "type") "" in
  if one_of name ["response.completed"; "response.incomplete"] then mkRawSse (Some name) (to_string value)
  else
    let status := unwrap_or (get_str value "status") "" in
    let event := if String.eqb status "incomplete" then "response.incomplete"
                 else if String.eqb status "failed" then "response.failed"
                 else "response.completed" in
    mkRawSse (Some event) (to_string (jobj [("type", JStr event); ("response", value)])).

(** The events a splice goes before. *)
Definition ends_response (ev : IrStreamEvent) : bool :=
  match ev with FinishReason _ _ | Usage _ _ _ _ _ _ _ _ | Done => true | _ => false end.

(** [events.splice(insert_at..insert_at, extra)] at the first of them. *)
Fixpoint splice_before_end (extra events : list IrStreamEvent) : list IrStreamEvent :=
  match events with
  | [] => extra
  | ev :: rest => if ends_response ev then extra ++ events else ev :: splice_before_end extra rest
  end.

Definition decode_responses_complete (value : json) : result MapError (list IrStreamEvent) :=
  match opt_or (responses_gateway_error value)
          (if responses_has_visible_output value then None else responses_surface_error value) with
  | Some detail => Err (Invalid detail)
  | None =>
      let* events := decode_stream_events parse_error Responses (terminal_frame value) dialect in
      let* extra := complete_responses_output_events value in
      Ok (match extra with
          | [] => events
          | _ =>
              splice_before_end extra events
              ++ push_opt (fun ev => ev) (created_event value)
              ++ push_opt (fun ev => ev) (service_tier_event value)
              ++ push_opt (fun ev => ev) (metadata_event value)
              ++ push_opt (fun ev => ev) (moderation_event value)
          end)
  end.
End Decode.
End Serializer.

(** ** What a body is made of *)

(** A replayed item is not one the encoder makes of texts and calls. *)
Definition composed_items : list string := ["message"; "output_audio"; "function_call"; "custom_tool_call"; "reasoning"].

Definition foreign_items (ev : IrStreamEvent) : Prop :=
  match ev with
  | Protocol item_type payload => responses_output_item item_type payload = true -> ~ In item_type composed_items
  | _ => True
  end.

Definition foreign_item (item : json) : Prop :=
  exists ty, get_str item "type" = Some ty /\ ~ In ty composed_items.

Definition written_output (part : json) : Prop :=
  (exists t, part = text_part "output_text" t) \/ (exists m d, part = output_image_part m d).

Lemma flush_output text parts : Forall written_output parts -> Forall written_output (flush_typed "output_text" text parts).
Proof.
  intros H. unfold flush_typed. destruct (negb _); [|done]. apply Forall_app. split; [done|].
  constructor; [|done]. left. by exists text.
Qed.

Definition responses_said (s : responses_body) (ch : channel) : string :=
  match ch with
  | ChText => typed_parts "output_text" (rb_images s) +:+ rb_text s
  | ChRefusal => rb_refusal s
  | ChReasoning => rb_reasoning s
  | ChAudio => rb_audio_data s
  | ChTranscript => rb_audio_transcript s
  end.

(** The invariant of the fold. *)
Definition responses_ok (s : responses_body) : Prop :=
  Forall written_output (rb_images s) /\ Forall foreign_item (rb_replay s) /\ rb_saw_reasoning s = false
  /\ forall id, rb_id s = Some id -> not_blank (Some id) = Some id.

Lemma not_blank_again o id : not_blank o = Some id -> not_blank (Some id) = Some id.
Proof. unfold not_blank. destruct o as [t|]; [|done]. cbn. destruct (negb _) eqn:B; [|done]. intros [= ->]. by rewrite B. Qed.

Lemma output_item_type item_type payload :
  responses_output_item item_type payload = true -> get_str payload "type" = Some item_type.
Proof.
  unfold responses_output_item. destruct (_ || _); [done|]. destruct (_ || _); [done|].
  destruct (messages_content_block_type item_type); [done|]. apply bool_decide_eq_true.
Qed.

(** What [responses_protocol] leaves alone. *)
Definition same_speech (s s' : responses_body) : Prop :=
  (forall ch, responses_said s' ch = responses_said s ch) /\ rb_calls s' = rb_calls s.

Lemma responses_protocol_keeps item_type payload s :
  responses_ok s -> foreign_items (Protocol item_type payload) ->
  responses_ok (responses_protocol item_type payload s) /\ same_speech s (responses_protocol item_type payload s).
Proof.
  intros (W & R & N & I) F. unfold responses_protocol. cbv zeta.
  assert (Same : forall s', rb_images s' = rb_images s -> rb_replay s' = rb_replay s ->
    rb_saw_reasoning s' = rb_saw_reasoning s -> rb_id s' = rb_id s ->
    (forall ch, responses_said s' ch = responses_said s ch) -> rb_calls s' = rb_calls s ->
    responses_ok s' /\ same_speech s s').
  { intros s' E1 E2 E3 E4 E5 E6. unfold responses_ok. rewrite E1, E2, E3, E4. done. }
  destruct (tool_extra_from_protocol item_type payload) as [[index extra]|]; [apply Same; try done; by intros []|].
  destruct (String.eqb item_type "responses_id").
  { destruct (not_blank (as_str payload)) as [t|] eqn:B; [|done]. split; [split; [done|split; [done|split; [done|]]]|by split; [intros []|]].
    intros id H. change (Some t = Some id) in H. injection H as <-. by eapply not_blank_again. }
  destruct (responses_output_item item_type payload) eqn:O.
  - assert (T := output_item_type _ _ O). specialize (F O).
    assert (E : String.eqb item_type "reasoning" = false).
    { apply str_eqb_neq. intros ->. apply F. unfold composed_items. cbn. tauto. }
    rewrite E. destruct (not_blank (as_str payload)), (nonempty (as_str payload));
      repeat (lazymatch goal with |- context [if ?b then _ else _] => destruct b end); try done;
      try (apply Same; try done; by intros []);
      (split; [|by split; [intros []|]]);
      (split; [exact W|]); (split; [apply Forall_app; split; [exact R|]; constructor; [by exists item_type|done]|]);
      (split; [|exact I]); change (rb_saw_reasoning s || false = false); by rewrite N.
  - destruct (not_blank (as_str payload)), (nonempty (as_str payload));
      repeat (lazymatch goal with |- context [if ?b then _ else _] => destruct b end); try done;
      apply Same; try done; by intros [].
Qed.

Lemma output_image_silent media_type data : typed_parts "output_text" [output_image_part media_type data] = "".
Proof.
  apply (typed_parts_foreign _ _ "output_image"); [|done]. unfold output_image_part, get_str. by rewrite get_jobj.
Qed.

Lemma responses_event_keeps s ev :
  responses_ok s -> foreign_items ev ->
  responses_ok (responses_body_event s ev)
  /\ (forall ch, responses_said (responses_body_event s ev) ch = responses_said s ch +:+ unwrap_or (say ch ev) "")
  /\ rb_calls (responses_body_event s ev) = call_arm no_signature (rb_calls s) ev.
Proof.
  intros Ok F. pose proof Ok as (W & R & N & I).
  assert (App : forall t, typed_parts "output_text" (rb_images s) +:+ rb_text s +:+ t
                          = (typed_parts "output_text" (rb_images s) +:+ rb_text s) +:+ t)
    by (intros; by rewrite str_app_assoc).
  destruct ev;
    try (split; [exact Ok|split; [|reflexivity]]; intros ch; destruct ch;
         (reflexivity || apply App || (symmetry; apply str_app_nil_r))).
  - split; [|split; [|reflexivity]].
    + split; [|done].
      change (Forall written_output (flush_typed "output_text" (rb_text s) (rb_images s) ++ [output_image_part media_type data])).
      apply Forall_app. split; [by apply flush_output|]. constructor; [|done]. right. by do 2 eexists.
    + intros ch; destruct ch; try (symmetry; apply str_app_nil_r).
      change (typed_parts "output_text" (flush_typed "output_text" (rb_text s) (rb_images s) ++ [output_image_part media_type data]) +:+ ""
              = (typed_parts "output_text" (rb_images s) +:+ rb_text s) +:+ "").
      rewrite typed_parts_app, flush_typed_parts, output_image_silent. by rewrite !str_app_nil_r.
  - cbn [responses_body_event]. destruct refusal;
      (split; [exact Ok|split; [|reflexivity]]); intros ch; destruct ch; symmetry; apply str_app_nil_r.
  - destruct (responses_protocol_keeps item_type payload s Ok F) as (O & B & C). cbn [responses_body_event].
    split; [exact O|split; [|exact C]]. intros ch. rewrite B. by destruct ch; rewrite str_app_nil_r.
Qed.

Lemma responses_events_keep evs s :
  responses_ok s -> Forall foreign_items evs ->
  let s' := fold_left responses_body_event evs s in
  responses_ok s'
  /\ (forall ch, responses_said s' ch = responses_said s ch +:+ said ch evs)
  /\ rb_calls s' = fold_left (call_arm no_signature) evs (rb_calls s).
Proof.
  cbv zeta. intros H F. revert s H. induction F as [|ev evs E _ IH]; intros s H.
  - split; [done|]. split; [|done]. intros ch. symmetry. apply str_app_nil_r.
  - cbn [fold_left]. destruct (responses_event_keeps s ev H E) as (H1 & B1 & C1).
    destruct (IH _ H1) as (H2 & B2 & C2). split; [done|]. split; [|by rewrite C2, C1].
    intros ch. by rewrite B2, B1, said_cons, str_app_assoc.
Qed.

(** [output_text] is the text behind the last image: a message that ends with an
    image has none, whatever text its parts hold. *)
Lemma output_text_behind_image evs media_type data model :
  get (encode_responses_complete (evs ++ [ImageDelta media_type data]) model) "output_text" = None.
Proof.
  unfold encode_responses_complete. rewrite fold_left_app. cbn [fold_left].
  set (s := fold_left responses_body_event evs responses_body_new).
  set (s' := responses_body_event s (ImageDelta media_type data)).
  assert (T : rb_text s' = "") by reflexivity. clearbody s'. unfold responses_body_json. rewrite T.
  rewrite !get_set_opt by (rewrite ?is_object_set_opt; apply is_object_jobj). by rewrite get_jobj.
Qed.

(** ** What the items are read back as *)
Section Reading.
Context {SJ : SerdeJson}.

Lemma quiet_message_identity item : Forall quiet (message_item_identity_events item).
Proof. unfold message_item_identity_events. rewrite !Forall_app. repeat split; apply quiet_push; intros; silent. Qed.

Lemma quiet_reasoning_identity item : Forall quiet (reasoning_item_identity_events item).
Proof.
  unfold reasoning_item_identity_events. destruct (negb _); [done|]. rewrite !Forall_app.
  repeat split; try (apply quiet_push; intros; silent).
  destruct (kept_reasoning_parts item); [done|]. apply Forall_cons. split; [silent|done].
Qed.

Lemma quiet_tool_item item index : Forall quiet (tool_item_events item index).
Proof.
  unfold tool_item_events, tool_item_id_event, tool_item_caller_event, tool_item_created_by_event,
    tool_item_namespace_event, tool_item_status_event.
  rewrite !Forall_app. repeat split; apply quiet_push; intros ev E;
    repeat (lazymatch type of E with
            | (?x ≫= _) = _ => destruct x; [cbn [mbind option_bind] in E|done]
            | (if ?b then _ else _) = _ => destruct b; [done|]
            end); injection E as <-; silent.
Qed.

(** A text part with or without its decoration. *)
Lemma tells_text_part part :
  get_str part "type" = Some "output_text" ->
  tells (complete_part_events part) (only ChText (part_text part)) [].
Proof.
  intros T. unfold complete_part_events. rewrite T. cbn [one_of existsb]. eqb_literals. cbn [orb].
  unfold complete_text_events, part_text, str_field, get_str.
  assert (N : nonempty (get part "text" ≫= as_str) = nonempty (Some (unwrap_or (get part "text" ≫= as_str) ""))).
  { by destruct (get part "text" ≫= as_str) as [[|]|]. }
  rewrite N. set (rest := _ ++ push_opt (fun content => Logprobs content None) _).
  assert (Q : Forall quiet rest).
  { unfold rest. apply Forall_app. split; [|apply quiet_push; intros; silent].
    destruct (get_array part "annotations"); [|done]. apply quiet_map. intros; silent. }
  destruct (tells_app _ _ _ _ _ _ (tells_text_push ChText (unwrap_or (get part "text" ≫= as_str) "")) (tells_quiet _ Q))
    as [S K].
  split; [|exact K]. intros ch. etransitivity; [apply S|]. apply str_app_nil_r.
Qed.

(** A part of the message content: a text, decorated or not, or an image. *)
Definition output_part (part : json) : Prop :=
  get_str part "type" = Some "output_text" \/ exists m d, part = output_image_part m d.

Lemma tells_output_part part :
  output_part part -> tells (complete_part_events part) (only ChText (typed_text "output_text" part)) [].
Proof.
  intros [T|(m & d & ->)].
  - unfold typed_text. rewrite T, bool_decide_true by done. by apply tells_text_part.
  - assert (Z : typed_text "output_text" (output_image_part m d) = "").
    { unfold typed_text, output_image_part, get_str. rewrite get_jobj. cbn [assoc_last]. eqb_literals.
      cbn [mbind option_bind as_str]. by rewrite bool_decide_false. }
    rewrite Z. unfold complete_part_events. unfold output_image_part at 1, get_str at 1. rewrite get_jobj.
    cbn [assoc_last]. eqb_literals. cbn [mbind option_bind as_str one_of existsb]. eqb_literals. cbn [orb].
    assert (Q : quiet (unwrap_or (image_delta_from_output_image (output_image_part m d))
                         (Protocol "output_image" (output_image_part m d)))).
    { destruct (image_delta_from_output_image _) as [ev|] eqn:E; [|silent]. cbn [unwrap_or].
      unfold image_delta_from_output_image in E. destruct (negb _); [done|].
      destruct (get_str _ "image_url") as [url|]; [|done]. cbn [mbind option_bind] in E.
      destruct (strip_prefix "data:" url) as [rest|]; [|done]. cbn [mbind option_bind] in E.
      destruct (split_once_str ";base64," rest) as [[mt data]|]; [|done]. cbn [mbind option_bind] in E.
      destruct (_ || _); [done|]. injection E as <-. silent. }
    destruct (tells_quiet [_] (Forall_cons_2 _ _ _ Q (Forall_nil_2 _))) as [S K]. split; [|exact K].
    intros ch. rewrite S. by destruct ch.
Qed.

Lemma tells_output_parts parts :
  Forall output_part parts ->
  tells (flat_map complete_part_events parts) (only ChText (typed_parts "output_text" parts)) [].
Proof.
  induction 1 as [|part parts H _ IH]; [split; [by intros []|done]|]. cbn [flat_map].
  destruct (tells_app _ _ _ _ _ _ (tells_output_part part H) IH) as [S K]. split; [|exact K].
  intros ch. etransitivity; [apply S|]. unfold only. by destruct (decide _).
Qed.

Lemma decorate_part s part k :
  is_object part = true -> k <> "annotations" -> k <> "logprobs" -> get (decorate_text s part) k = get part k.
Proof.
  intros O A L. unfold decorate_text. rewrite !get_set_opt by (by rewrite ?is_object_set_opt).
  by rewrite (str_eqb_neq _ _ A), (str_eqb_neq _ _ L).
Qed.

Lemma decorate_text_keeps s part :
  get_str part "type" = Some "output_text" ->
  get_str (decorate_text s part) "type" = Some "output_text"
  /\ typed_text "output_text" (decorate_text s part) = typed_text "output_text" part.
Proof.
  intros T. assert (O : is_object part = true) by (by destruct part).
  assert (T' : get_str (decorate_text s part) "type" = Some "output_text") by (unfold get_str; by rewrite decorate_part).
  split; [exact T'|]. unfold typed_text. rewrite T, T'. unfold part_text, get_str. by rewrite decorate_part.
Qed.

Lemma decorate_first_keeps s parts parts' :
  Forall output_part parts -> decorate_first "output_text" (decorate_text s) parts = Some parts' ->
  Forall output_part parts' /\ typed_parts "output_text" parts' = typed_parts "output_text" parts.
Proof.
  intros H. revert parts'. induction H as [|part parts P H IH]; intros parts' D; [done|]. cbn [decorate_first] in D.
  destruct (bool_decide _) eqn:B.
  - injection D as <-. apply bool_decide_eq_true in B. destruct (decorate_text_keeps s part B) as [T E].
    split; [constructor; [by left|done]|]. unfold typed_parts. cbn [map text_concat fold_right]. by rewrite E.
  - destruct (decorate_first _ _ parts) as [l|]; [|done]. injection D as <-. destruct (IH l eq_refl) as [IH1 IH2].
    split; [by constructor|]. unfold typed_parts in *. cbn [map text_concat fold_right]. by f_equal.
Qed.

Lemma written_output_part part : written_output part -> output_part part.
Proof.
  intros [[t ->]|H]; [left|by right]. unfold text_part, get_str. by rewrite get_jobj.
Qed.

Lemma decorated_parts_keep s :
  Forall written_output (rb_images s) ->
  Forall output_part (decorated_parts s)
  /\ typed_parts "output_text" (decorated_parts s) = typed_parts "output_text" (rb_images s) +:+ rb_text s.
Proof.
  intros W. unfold decorated_parts.
  pose proof (flush_typed_parts "output_text" (rb_text s) (rb_images s)) as T.
  assert (P : Forall output_part (flush_typed "output_text" (rb_text s) (rb_images s))).
  { eapply Forall_impl; [by apply flush_output|]. apply written_output_part. }
  destruct (_ || _); [|done]. destruct (decorate_first _ _ _) as [parts|] eqn:D.
  - destruct (decorate_first_keeps s _ parts P D) as [D1 D2]. by rewrite D2.
  - assert (B : get_str (jobj [("type", JStr "output_text"); ("text", JStr "")]) "type" = Some "output_text")
      by (unfold get_str; by rewrite get_jobj).
    destruct (decorate_text_keeps s _ B) as [B1 B2]. split.
    + apply Forall_app. split; [done|]. constructor; [by left|done].
    + rewrite typed_parts_app, T. set (z := typed_parts "output_text" [_]).
      enough (z = "") as -> by apply str_app_nil_r. unfold z, typed_parts. cbn [map]. rewrite B2.
      unfold typed_text, part_text, get_str. read_json. cbn [mbind option_bind as_str unwrap_or].
      by rewrite bool_decide_true.
Qed.

(** ** Items in a row *)

(** A list of items that keeps the call index. *)
Definition reads (items : list json) (texts : channel -> string) : Prop :=
  forall i rest, exists evs, tells evs texts []
    /\ complete_items_events i (items ++ rest) = (let* tail := complete_items_events i rest in Ok (evs ++ tail)).

Lemma reads_one item evs texts :
  (forall i, complete_item_events i item = Ok (evs, i)) -> tells evs texts [] -> reads [item] texts.
Proof. intros E T i rest. exists evs. split; [done|]. cbn [app complete_items_events]. by rewrite E. Qed.

Lemma reads_nil : reads [] (fun _ => "").
Proof. intros i rest. exists []. split; [done|]. cbn [app]. by destruct (complete_items_events i rest). Qed.

Lemma reads_app l k f g : reads l f -> reads k g -> reads (l ++ k) (fun ch => f ch +:+ g ch).
Proof.
  intros L K i rest. destruct (L i (k ++ rest)) as (e1 & T1 & E1). destruct (K i rest) as (e2 & T2 & E2).
  exists (e1 ++ e2). split; [apply (tells_app _ _ _ _ _ _ T1 T2)|]. rewrite <- app_assoc, E1, E2.
  destruct (complete_items_events i rest); [|done]. cbn [rbind]. by rewrite app_assoc.
Qed.

Lemma reads_same l f g : reads l f -> (forall ch, f ch = g ch) -> reads l g.
Proof.
  intros L E i rest. destruct (L i rest) as (evs & [S C] & H). exists evs. split; [split; [|done]|done].
  intros ch. by rewrite S.
Qed.

Lemma reads_foreign items : Forall foreign_item items -> reads items (fun _ => "").
Proof.
  induction 1 as [|item items (ty & T & F) _ IH]; [apply reads_nil|].
  apply (reads_same (item :: items) (fun ch => "" +:+ "")); [|done].
  apply (reads_app [item] items); [|exact IH]. apply (reads_one item []); [|by split].
  intros i. unfold complete_item_events. rewrite T. unfold composed_items in F. cbn in F.
  rewrite !str_eqb_neq by (intros ->; apply F; tauto). done.
Qed.

Lemma only_empty ch c : only ch "" c = "".
Proof. unfold only. by destruct (decide _). Qed.

Lemma reads_reasoning s : rb_saw_reasoning s = false -> reads (reasoning_items s) (only ChReasoning (rb_reasoning s)).
Proof.
  intros N. unfold reasoning_items. rewrite N. cbn [negb andb]. destruct (_ || _ || _) eqn:B.
  - set (item := set_opt "signature" _ _).
    assert (T : get_str item "type" = Some "reasoning").
    { unfold item, get_str. by read_json. }
    assert (S : get_array item "summary" = match nonempty (Some (rb_reasoning s)) with
      | Some t => Some [jobj [("type", JStr "summary_text"); ("text", JStr t)]] | None => None end).
    { unfold item, get_array. read_json. unfold if_text. by destruct (nonempty _). }
    apply (reads_one item (complete_reasoning_events item)).
    + intros i. unfold complete_item_events. rewrite T. by eqb_literals.
    + unfold complete_reasoning_events. rewrite S.
      assert (E : forall t, nonempty (Some (rb_reasoning s)) = Some t ->
        flat_map (fun part => if is_some_and (get_str part "type") (fun ty => one_of ty ["summary_text"; "text"])
             then push_opt ReasoningDelta (nonempty (str_field part "text")) else [])
          [jobj [("type", JStr "summary_text"); ("text", JStr t)]] = [ReasoningDelta t]).
      { intros t H. cbn [flat_map]. unfold get_str, str_field. read_json. cbn [mbind option_bind as_str is_some_and].
        rewrite (proj2 (one_of_In _ _)) by (by left). apply nonempty_Some in H as [_ H]. by rewrite nonempty_is. }
      destruct (nonempty (Some (rb_reasoning s))) as [t|] eqn:Q.
      * rewrite (E t eq_refl). apply nonempty_Some in Q as [Q _]. injection Q as ->.
        destruct (tells_app _ _ _ _ _ _ (tells_quiet _ (quiet_reasoning_identity item))
          (tells_push ChReasoning (Some t))) as [Say Calls].
        split; [|exact Calls]. intros ch. etransitivity; [apply Say|]. by destruct ch.
      * destruct (rb_reasoning s); [|done]. rewrite app_nil_r.
        destruct (tells_quiet _ (quiet_reasoning_identity item)) as [Say Calls]. split; [|exact Calls].
        intros ch. by rewrite Say, only_empty.
  - rewrite !orb_false_iff in B. destruct B as [[B _] _]. destruct (rb_reasoning s); [|done].
    apply (reads_same [] (fun _ => "")); [apply reads_nil|]. intros ch. by rewrite only_empty.
Qed.

Lemma reads_message s :
  Forall written_output (rb_images s) ->
  reads (message_items s)
    (fun ch => only ChText (typed_parts "output_text" (rb_images s) +:+ rb_text s) ch +:+ only ChRefusal (rb_refusal s) ch).
Proof.
  intros W. unfold message_items. destruct (decorated_parts_keep s W) as [P T].
  destruct (_ || _ || _) eqn:B.
  - set (refusals := if negb (is_empty (rb_refusal s)) then _ else _). set (item := set_opt "agent" _ _).
    assert (Ty : get_str item "type" = Some "message") by (unfold item, get_str; by read_json).
    assert (C : get_array item "content" = Some (decorated_parts s ++ refusals)) by (unfold item, get_array; by read_json).
    assert (R : tells (flat_map complete_part_events refusals) (only ChRefusal (rb_refusal s)) []).
    { unfold refusals. destruct (rb_refusal s) as [|a t] eqn:Er; cbn [is_empty negb flat_map].
      - split; [|done]. intros ch. by rewrite only_empty.
      - unfold complete_part_events, get_str, str_field. read_json. cbn [mbind option_bind as_str one_of existsb opt_or].
        eqb_literals. cbn [orb]. rewrite app_nil_r. apply (tells_text_push ChRefusal). }
    apply (reads_one item (message_item_identity_events item ++ flat_map complete_part_events (decorated_parts s ++ refusals))).
    + intros i. unfold complete_item_events. rewrite Ty, C. by eqb_literals.
    + rewrite flat_map_app.
      destruct (tells_app _ _ _ _ _ _ (tells_quiet _ (quiet_message_identity item))
        (tells_app _ _ _ _ _ _ (tells_output_parts _ P) R)) as [Say Calls].
      split; [|exact Calls]. intros ch. etransitivity; [apply Say|]. by rewrite T.
  - rewrite !orb_false_iff in B. destruct B as [[[[B1 B2] _] _] B5].
    destruct (rb_text s); [|done]. destruct (rb_refusal s); [|done]. destruct (rb_images s); [|done].
    apply (reads_same [] (fun _ => "")); [apply reads_nil|]. intros ch. by rewrite !only_empty.
Qed.

Lemma reads_audio s :
  reads (audio_items s)
    (fun ch => only ChAudio (rb_audio_data s) ch +:+ only ChTranscript (rb_audio_transcript s) ch).
Proof.
  unfold audio_items. destruct (_ || _) eqn:B.
  - set (item := set_opt "transcript" _ _).
    assert (Ty : get_str item "type" = Some "output_audio") by (unfold item, get_str; by read_json).
    apply (reads_one item (output_audio_events item)).
    + intros i. unfold complete_item_events. rewrite Ty. by eqb_literals.
    + unfold output_audio_events, item, str_field. read_json. rewrite !opt_or_None.
      apply (tells_app _ _ _ _ [] [] (tells_if_text ChAudio _) (tells_if_text ChTranscript _)).
  - apply orb_false_iff in B as [B1 B2]. destruct (rb_audio_data s); [|done]. destruct (rb_audio_transcript s); [|done].
    apply (reads_same [] (fun _ => "")); [apply reads_nil|]. intros ch. by rewrite !only_empty.
Qed.

(** ** The calls *)

(** The calls of a body, numbered from an index on. *)
Fixpoint numbered_calls (i : Z) (tools : list (Z * IndexedTool)) : list IrStreamEvent :=
  match tools with
  | [] => []
  | (_, tool) :: tools => call_spoken tool i ++ numbered_calls (u32_saturating_add i 1) tools
  end.

Lemma call_item_read tool extra i :
  exists side, Forall quiet side
    /\ complete_item_events i
         (responses_tool_call_value (it_id tool) (it_name tool) (it_args tool) (it_custom tool) extra)
       = Ok (side ++ call_spoken tool i, u32_saturating_add i 1).
Proof.
  set (item := responses_tool_call_value _ _ _ _ _).
  assert (G : forall k, one_of k ["caller"; "created_by"; "namespace"; "status"; "id"] = false ->
    get item k = get (jobj [("type", JStr (if it_custom tool then "custom_tool_call" else "function_call"));
      ("id", JStr (it_id tool)); ("call_id", JStr (it_id tool)); ("name", JStr (it_name tool));
      ((if it_custom tool then "input" else "arguments"), JStr (it_args tool))]) k).
  { intros k K. unfold one_of in K. cbn [existsb] in K. rewrite !orb_false_iff in K. destruct K as (K1 & K2 & K3 & K4 & K5 & _).
    unfold item, responses_tool_call_value, write_item. rewrite !get_set_opt by (rewrite ?is_object_set_opt; apply is_object_jobj).
    by rewrite K1, K2, K3, K4, K5. }
  exists (tool_item_events item i). split; [apply quiet_tool_item|].
  unfold complete_item_events, get_str. rewrite G by done.
  assert (Id : call_id_of item = it_id tool).
  { unfold call_id_of, str_field. rewrite (G "call_id") by done. by destruct (it_custom tool); read_json. }
  assert (Nm : str_field item "name" = Some (it_name tool)).
  { unfold str_field. rewrite (G "name") by done. by destruct (it_custom tool); read_json. }
  assert (Bd : json_text_field item (if it_custom tool then "input" else "arguments") = Ok (nonempty (Some (it_args tool)))).
  { unfold json_text_field. rewrite G by (by destruct (it_custom tool)). destruct (it_custom tool); read_json; by destruct (it_args tool). }
  unfold call_spoken, start_of, delta_of. destruct (it_custom tool); read_json; cbn [mbind option_bind as_str]; eqb_literals;
    unfold complete_call_events; rewrite Bd, Id, Nm; reflexivity.
Qed.

Lemma tells_tools extras tools i :
  exists evs, complete_items_events i (responses_tool_items extras tools) = Ok evs
    /\ tells evs (fun _ => "") (numbered_calls i tools).
Proof.
  revert extras i. induction tools as [|[index tool] tools IH]; intros extras i; [by exists []|].
  cbn [responses_tool_items complete_items_events numbered_calls].
  set (extra := unwrap_or (bt_get index extras) extra_default).
  destruct (call_item_read tool extra i) as (side & Q & ->). cbn [rbind fst snd].
  destruct (IH (bt_remove index extras) (u32_saturating_add i 1)) as (evs & -> & T). cbn [rbind].
  eexists. split; [reflexivity|].
  destruct (tells_app _ _ _ _ _ _ (tells_app _ _ _ _ _ _ (tells_quiet _ Q) (tells_call tool i)) T) as [S C].
  split; [|exact C]. intros ch. etransitivity; [apply S|done].
Qed.

Lemma tells_output s :
  responses_ok s ->
  exists evs, complete_items_events 0 (responses_output s) = Ok evs
    /\ tells evs (responses_said s) (numbered_calls 0 (indexed_tool_finish (rb_calls s))).
Proof.
  intros (W & R & N & _). unfold responses_output.
  pose proof (reads_app _ _ _ _ (reads_foreign _ R) (reads_app _ _ _ _ (reads_reasoning s N)
    (reads_app _ _ _ _ (reads_message s W) (reads_audio s)))) as L.
  rewrite !app_assoc in L. rewrite !app_assoc.
  destruct (L 0 (responses_tool_items (rb_extras s) (indexed_tool_finish (rb_calls s)))) as (evs & T & ->).
  destruct (tells_tools (rb_extras s) (indexed_tool_finish (rb_calls s)) 0) as (tail & -> & T2). cbn [rbind].
  eexists. split; [reflexivity|]. destruct (tells_app _ _ _ _ _ _ T T2) as [S C]. split; [|exact C].
  intros ch. etransitivity; [apply S|]. cbn beta. destruct ch; cbn; by rewrite ?str_app_nil_r.
Qed.

(** ** The body *)
Lemma responses_value_get s model k :
  one_of k ["usage"; "output_text"; "moderation"; "metadata"; "service_tier"; "created_at"; "model";
            "incomplete_details"; "previous_response_id"] = false ->
  get (responses_body_json s model) k
  = get (jobj [("id", JStr (unwrap_or (rb_id s) "resp_wiremux")); ("object", JStr "response");
               ("status", JStr (unwrap_or (responses_complete_status <$> rb_finish s) "completed"));
               ("output", JArr (responses_output s))]) k.
Proof.
  intros K. unfold one_of in K. cbn [existsb] in K. rewrite !orb_false_iff in K.
  destruct K as (K1 & K2 & K3 & K4 & K5 & K6 & K7 & K8 & K9 & _). unfold responses_body_json.
  rewrite !get_set_opt by (rewrite ?is_object_set_opt; apply is_object_jobj).
  by rewrite K1, K2, K3, K4, K5, K6, K7, K8, K9.
Qed.

Lemma quiet_replay item : Forall quiet (terminal_item_events item).
Proof.
  unfold terminal_item_events, replay_output_item. cbv zeta.
  destruct (_ || _); [apply Forall_cons; split; [silent|done]|apply quiet_reasoning_identity].
Qed.

Lemma quiet_side_events value :
  Forall quiet (push_opt (fun ev => ev) (created_event value) ++ push_opt (fun ev => ev) (service_tier_event value)
    ++ push_opt (fun ev => ev) (metadata_event value) ++ push_opt (fun ev => ev) (moderation_event value)).
Proof.
  rewrite !Forall_app. repeat split; apply quiet_push; intros ev E.
  - unfold created_event in E. destruct (_ ≫= as_i64); [|done]. injection E as <-. silent.
  - unfold service_tier_event in E. destruct (nonempty _); [|done]. injection E as <-. silent.
  - unfold metadata_event in E. destruct (string_metadata _); [|done]. injection E as <-. silent.
  - unfold moderation_event in E. destruct (opt_or _ _); [|done]. cbn [mbind option_bind] in E.
    destruct (negb _); [done|]. destruct (_ && _); [done|]. injection E as <-. silent.
Qed.

Lemma quiet_terminal name value : Forall quiet (terminal_events name value ++ response_slot_events value).
Proof.
  unfold terminal_events, response_slot_events.
  assert (A : forall l, Forall quiet (flat_map terminal_item_events l)).
  { induction l as [|a l IH]; [done|]. cbn [flat_map]. apply Forall_app. split; [apply quiet_replay|done]. }
  pose proof (quiet_side_events value) as S. rewrite !Forall_app in *. destruct S as (S1 & S2 & S3 & S4).
  repeat split; try done; try apply A; apply quiet_push; intros; silent.
Qed.

(** A splice among quiet events says what it splices in. *)
Lemma tells_splice extra events f c :
  tells extra f c -> Forall quiet events -> tells (splice_before_end extra events) f c.
Proof.
  intros [S C] Q. induction Q as [|ev events [Hs Hc] Q [IS IC]]; [by split|]. cbn [splice_before_end].
  destruct (ends_response ev).
  - destruct (tells_quiet (ev :: events)) as [QS QC]; [by constructor|]. split.
    + intros ch. by rewrite said_app, S, QS, str_app_nil_r.
    + unfold calls_of in *. by rewrite List.filter_app, C, QC, app_nil_r.
  - split; [intros ch; by rewrite said_cons, Hs, IS|]. unfold calls_of in *. cbn. by rewrite Hc.
Qed.

Section Wire.
Context {SJL : SerdeJsonLaws} (parse_error : string -> string) (dialect : Dialect).

Definition terminal_names : list string := ["response.completed"; "response.incomplete"; "response.failed"].

(** The frame a body is wrapped in. *)
Definition wrapped (event : string) (value : json) : json := jobj [("type", JStr event); ("response", value)].

Definition status_event (s : responses_body) : string :=
  let status := unwrap_or (responses_complete_status <$> rb_finish s) "completed" in
  if String.eqb status "incomplete" then "response.incomplete"
  else if String.eqb status "failed" then "response.failed" else "response.completed".

Lemma status_event_terminal s : In (status_event s) terminal_names.
Proof. unfold status_event. cbv zeta. destruct (String.eqb _ _); [by right; left|]. destruct (String.eqb _ _); [by right; right; left|by left]. Qed.

Lemma terminal_frame_body s model :
  terminal_frame (responses_body_json s model)
  = mkRawSse (Some (status_event s)) (to_string (wrapped (status_event s) (responses_body_json s model))).
Proof.
  assert (T : get_str (responses_body_json s model) "type" = None)
    by (unfold get_str; rewrite (responses_value_get s model "type") by done; by read_json).
  assert (S : get_str (responses_body_json s model) "status"
              = Some (unwrap_or (responses_complete_status <$> rb_finish s) "completed"))
    by (unfold get_str; rewrite (responses_value_get s model "status") by done; by read_json).
  unfold terminal_frame, status_event, wrapped. rewrite T, S. reflexivity.
Qed.

Lemma wrapped_ok s model event :
  In event terminal_names ->
  exists ev, Responses.decode event (wrapped event (responses_body_json s model)) = Ok ev.
Proof.
  set (value := wrapped event (responses_body_json s model)). intros E.
  assert (G : forall k, get value k = if String.eqb k "response" then Some (responses_body_json s model)
                          else if String.eqb k "type" then Some (JStr event) else None).
  { intros k. unfold value, wrapped. rewrite get_jobj. cbn [assoc_last]. by destruct (String.eqb k "response"). }
  assert (I : check_responses_indexes value = Ok tt).
  { unfold check_responses_indexes, check_index. rewrite !G. by eqb_literals. }
  assert (F : failure_detail value = None).
  { unfold failure_detail, failure_object. rewrite !pointer_key, G. eqb_literals. cbn [mbind option_bind].
    rewrite !pointer_key, !(responses_value_get s model) by done. by read_json. }
  assert (R : reject_bare_responses_error value = Ok tt).
  { unfold reject_bare_responses_error, json_string_error, trimmed_str, get_str, object_field. rewrite !G. eqb_literals.
    cbn [mbind option_bind fmap option_fmap option_map nonempty opt_filter]. rewrite F. by destruct (responses_frame_has_visible_body value). }
  unfold Responses.decode. rewrite I. cbn [rbind].
  destruct E as [<-|[<-|[<-|[]]]]; unfold decode_frame; unfold one_of; cbn [existsb]; eqb_literals; cbn [orb]; eqb_literals.
  - unfold decode_completed. rewrite R. cbn [rbind]. destruct (is_some_and _ _); [by eexists|]. case_match; by eexists.
  - rewrite R. by eexists.
  - unfold decode_failed. rewrite R, F. cbn [rbind]. destruct (_ && _); by eexists.
Qed.

Lemma terminal_decoded s model :
  (forall name, In name terminal_names -> one_of name (d_stream_events dialect) = true) ->
  (forall id, rb_id s = Some id -> not_blank (Some id) = Some id) ->
  reparses (wrapped (status_event s) (responses_body_json s model)) = true ->
  exists events, decode_stream_events parse_error Responses (terminal_frame (responses_body_json s model)) dialect = Ok events
    /\ Forall quiet events.
Proof.
  intros D I R. rewrite terminal_frame_body. pose proof (status_event_terminal s) as T.
  set (name := status_event s) in *. set (value := wrapped name (responses_body_json s model)) in *.
  destruct (wrapped_ok s model name T) as [first F]. fold value in F.
  assert (N : nonempty (Some name) = Some name) by (destruct T as [<-|[<-|[<-|[]]]]; done).
  assert (N2 : String.eqb name "[DONE]" = false) by (destruct T as [<-|[<-|[<-|[]]]]; done).
  assert (Fr : decode_stream_event parse_error Responses (mkRawSse (Some name) (to_string value)) dialect = Ok first).
  { unfold decode_stream_event, frame_event_name. cbn [raw_event raw_data is_none andb]. rewrite N, (D name T), N2.
    cbn [negb orb]. rewrite from_to by done.
    assert (Hs : exists t, to_string value = "{" +:+ t +:+ "}") by apply to_string_obj.
    destruct Hs as [t ->]. rewrite trim_braces. change (String.eqb ("{" +:+ t +:+ "}") "[DONE]") with false. exact F. }
  assert (S : exists id, response_id value "id" = Some id).
  { unfold response_id. rewrite pointer_key. unfold value at 1, wrapped. read_json. cbn [mbind option_bind].
    rewrite pointer_key, (responses_value_get s model "id") by done. read_json. cbn [mbind option_bind].
    rewrite pointer_nil. cbn [opt_or mbind option_bind as_str].
    destruct (rb_id s) as [id|] eqn:E; [exists id; by apply I|by eexists]. }
  assert (P : decode_terminal_events name value = Some (terminal_events name value ++ response_slot_events value)).
  { unfold decode_terminal_events. change (one_of name _) with (one_of name terminal_names).
    rewrite (proj2 (one_of_In name terminal_names) T). cbn [negb].
    replace (bool_decide (response_slot_events value = [])) with false; [by rewrite orb_true_r|].
    symmetry. apply bool_decide_eq_false. destruct S as [id S]. unfold response_slot_events. by rewrite S. }
  exists (terminal_events name value ++ response_slot_events value). split; [|apply quiet_terminal].
  unfold decode_stream_events, decode_stream_events_seq. rewrite Fr.
  unfold responses_events, frame_event_name. cbn [raw_event raw_data]. rewrite from_to by done.
  rewrite N. cbn [is_ok]. by rewrite P.
Qed.

(** A Responses body reads back what the events said on every channel, and
    the calls of the table, function and custom, numbered from zero, each with
    its id, name and whole argument text. *)
Theorem responses_body_says evs model :
  Forall foreign_items evs ->
  (forall name, In name terminal_names -> one_of name (d_stream_events dialect) = true) ->
  (forall name, In name terminal_names -> reparses (wrapped name (encode_responses_complete evs model)) = true) ->
  exists out, decode_responses_complete parse_error dialect (encode_responses_complete evs model) = Ok out
    /\ (forall ch, said ch out = said ch evs)
    /\ calls_of out = numbered_calls 0 (indexed_tool_finish (call_table no_signature evs)).
Proof.
  intros F D R. destruct (responses_events_keep evs responses_body_new) as (Ok & B & C); [|done|].
  { split; [done|]. split; [done|]. by split. }
  unfold encode_responses_complete in *. set (s := fold_left responses_body_event evs responses_body_new) in *.
  destruct (terminal_decoded s model D ltac:(apply Ok) (R _ (status_event_terminal s))) as (events & E & Q).
  destruct (tells_output s Ok) as (extra & X & T).
  unfold decode_responses_complete.
  assert (G : opt_or (responses_gateway_error (responses_body_json s model))
      (if responses_has_visible_output (responses_body_json s model) then None
       else responses_surface_error (responses_body_json s model)) = None).
  { unfold responses_gateway_error, get_str at 1. rewrite (responses_value_get s model "status") by done. read_json.
    cbn [mbind option_bind as_str is_some opt_or]. destruct (responses_has_visible_output _); [done|].
    unfold responses_surface_error, plain_error_detail, json_string_error, trimmed_str, get_str, object_field.
    rewrite !(responses_value_get s model) by done. by read_json. }
  rewrite G, E. cbn [rbind]. unfold complete_responses_output_events, get_array.
  rewrite (responses_value_get s model "output") by done. read_json. cbn [mbind option_bind as_array opt_or].
  rewrite X. cbn [rbind]. rewrite C in T.
  change (fold_left (call_arm no_signature) evs (rb_calls responses_body_new)) with (call_table no_signature evs) in T.
  assert (Say : tells extra (fun ch => said ch evs) (numbered_calls 0 (indexed_tool_finish (call_table no_signature evs)))).
  { destruct T as [S K]. split; [|done]. intros ch. rewrite S, B. by destruct ch. }
  eexists. split; [reflexivity|]. destruct extra as [|ev extra].
  - destruct Say as [S K]. destruct (tells_quiet _ Q) as [QS QC]. split; [intros ch; by rewrite QS, <- S|by rewrite QC, <- K].
  - destruct (tells_app _ _ _ _ _ _ (tells_splice _ _ _ _ Say Q)
      (tells_quiet _ (quiet_side_events (responses_body_json s model)))) as [S K].
    split; [|etransitivity; [apply K|by rewrite app_nil_r]].
    intros ch. etransitivity; [apply S|]. apply str_app_nil_r.
Qed.
End Wire.
End Reading.

(** ** Witnesses *)
Section Witnesses.
#[local] Existing Instance bits_codec.
#[local] Existing Instance bits_codec_laws.

Definition sample_turn : list IrStreamEvent :=
  [ReasoningDelta "hm"; TextDelta "look "; ToolCallStart "a" "f" None 0; ImageDelta "image/png" "aGk=";
   CustomToolCallStart "b" "g" 1; CustomToolCallInputDelta "x" 1; AudioDelta "UklG"; TextDelta "here";
   Protocol "responses_tool_status" (jobj [("index", jint 1); ("status", JStr "completed")]);
   Protocol "web_search_call" (jobj [("type", JStr "web_search_call"); ("id", JStr "w")]);
   FinishReason "length" None].

Definition terminal_dialect : Dialect :=
  mkDialect (Some Responses) terminal_names Replace PolicyHardError UnknownHardError.

Lemma responses_body_says_witness :
  exists out, decode_responses_complete (fun _ => "") terminal_dialect (encode_responses_complete sample_turn "m") = Ok out
    /\ said ChText out = "look here" /\ said ChAudio out = "UklG".
Proof.
  destruct (responses_body_says (fun _ => "") terminal_dialect sample_turn "m") as (out & D & S & _).
  - repeat (apply Forall_cons; split; [try exact I; try (intros H; vm_compute in H; discriminate)|]); try apply Forall_nil.
    { intros _ [|[|[|[|[|[]]]]]]; discriminate. }
    exact I.
  - intros name [<-|[<-|[<-|[]]]]; reflexivity.
  - intros name [<-|[<-|[<-|[]]]]; vm_compute; reflexivity.
  - exists out. split; [exact D|]. rewrite !S. split; reflexivity.
Defined.
End Witnesses.
