(* ===== verification/Complete.v ===== *)
(** * Complete: a whole body of any dialect

    The dispatch of src/crates/wiremux/src/stream/complete.rs: [encode_response]
    and [decode_response] by wire, and the loss report of a Gemini finish
    reason that no dialect knows. *)

From S2P Require Import Prelude Text Json JsonCodec Ir ProfileTypes StreamCore Usage Completion Shapes.
From S2P Require Import CompleteCalls CompleteChat CompleteMessages CompleteGemini CompleteResponses.
From S2P Require Chat Converse.

Section Serializer.
Context {SJ : SerdeJson}.

(** ** Encoding *)
Definition encode_response_with_model (wire : Wire) (events : list IrStreamEvent) (model : string) :
  result MapError json :=
  match wire with
  | ChatCompletions => Ok (encode_chat_complete events model)
  | Messages => Ok (encode_messages_complete events model)
  | Gemini => Ok (encode_gemini_complete events model)
  | Responses => Ok (encode_responses_complete events model)
  | Converse => Converse.encode_complete events
  end.

Definition encode_response (wire : Wire) (events : list IrStreamEvent) : result MapError json :=
  encode_response_with_model wire events "".

(** ** Decoding *)
Section Decode.
(** The text of a [serde_json] error, of a text and of bytes; the profile's dialect. *)
Context (parse_error : string -> string) (slice_error : list u8 -> string) (dialect : Dialect).

Definition decode_response_value (wire : Wire) (value : json) : result MapError (list IrStreamEvent) :=
  match wire with
  | ChatCompletions => decode_chat_complete value
  | Messages => decode_messages_complete value
  | Responses => decode_responses_complete parse_error dialect value
  | Gemini => decode_gemini_complete parse_error value dialect
  | Converse => Converse.decode_complete value
  end.

Definition finishes_with (vendor : string) (ev : IrStreamEvent) : bool :=
  match ev with FinishReason reason _ => String.eqb reason vendor | _ => false end.

(** A finish reason of the vendor that the events carry unchanged. *)
Definition record_preserved_gemini_finish (value : json) (events : list IrStreamEvent) (report : LossReport) :
  LossReport :=
  match nonempty (pointer_str value [Key "candidates"; Idx 0; Key "finishReason"]) with
  | None => report
  | Some vendor =>
      if eq_ignore_ascii_case vendor "stop" then report
      else if existsb (finishes_with vendor) events
      then record report "candidates[0].finishReason" Preserve vendor else report
  end.

Definition decode_response_with_loss (wire : Wire) (bytes : list u8) :
  result MapError (list IrStreamEvent * LossReport) :=
  match from_slice bytes with
  | None => Err (MapJson (slice_error bytes))
  | Some value =>
      let* events := decode_response_value wire value in
      Ok (events, if wire_eqb wire Gemini then record_preserved_gemini_finish value events report_new else report_new)
  end.

Definition decode_response (wire : Wire) (bytes : list u8) : result MapError (list IrStreamEvent) :=
  rmap fst (decode_response_with_loss wire bytes).

(** ** Nothing is lost in a decoded body's report *)

(** Reading a body loses nothing by its report: it holds at most one note, of
    a Gemini finish reason kept as it is, and then some finish of the events
    is that reason. *)
Theorem body_report_preserves wire bytes events report :
  decode_response_with_loss wire bytes = Ok (events, report) ->
  lossy report = []
  /\ (loss_events report = []
      \/ exists vendor vendor', wire = Gemini /\ In (FinishReason vendor vendor') events
           /\ eq_ignore_ascii_case vendor "stop" = false
           /\ loss_events report = [mkLoss "candidates[0].finishReason" Preserve vendor]).
Proof.
  unfold decode_response_with_loss. destruct (from_slice bytes) as [value|]; [|done].
  destruct (decode_response_value wire value) as [evs|]; [|done]. cbn [rbind]. intros [= -> <-].
  destruct (wire_eqb wire Gemini) eqn:W; [|split; [done|by left]].
  unfold record_preserved_gemini_finish. destruct (nonempty _) as [vendor|]; [|split; [done|by left]].
  destruct (eq_ignore_ascii_case vendor "stop") eqn:S; [split; [done|by left]|].
  destruct (existsb _ _) eqn:E; [|split; [done|by left]]. split; [done|]. right.
  apply existsb_exists in E as (ev & H & F). destruct ev; try done. apply String.eqb_eq in F as <-.
  exists reason, vendor0. split; [|done]. by destruct wire.
Qed.
End Decode.
End Serializer.

(** ** A Chat body as a Messages body *)
Section Translation.
Context {SJ : SerdeJson}.

(** The tags of the [Protocol] events a Chat body gives. *)
Definition chat_tags : list string :=
  ["chunk"; "image_url"; "system_fingerprint"; "chat_completion_id"; "chat_audio_id"; "chat_audio_expires";
   "chat_accepted_prediction_tokens"; "chat_rejected_prediction_tokens"].

Definition chat_tagged (ev : IrStreamEvent) : Prop :=
  match ev with Protocol item_type _ => In item_type chat_tags | _ => True end.

Lemma tagged_foreign ev : chat_tagged ev -> foreign_blocks ev.
Proof.
  destruct ev; try done. cbn. intros H _. unfold foreign_block. cbn.
  destruct H as [<-|[<-|[<-|[<-|[<-|[<-|[<-|[<-|[]]]]]]]]]; intros [|[|[|[]]]]; discriminate.
Qed.

Lemma tagged_push {A} (f : A -> IrStreamEvent) o :
  (forall a, o = Some a -> chat_tagged (f a)) -> Forall chat_tagged (push_opt f o).
Proof. destruct o as [a|]; intros H; repeat constructor. by apply H. Qed.

Ltac tagged := cbn; unfold chat_tags; cbn; tauto.

Lemma content_tagged content : Forall chat_tagged (Chat.content_events content).
Proof.
  assert (T : forall t, Forall chat_tagged (Chat.flush_text t)).
  { intros t. unfold Chat.flush_text. destruct (is_empty t); repeat constructor. }
  assert (I : forall part, chat_tagged (unwrap_or (Chat.image_event_from_part part) (protocol "image_url" part))).
  { intros part. destruct (Chat.image_event_from_part part) as [ev|] eqn:E; [|tagged]. cbn [unwrap_or].
    unfold Chat.image_event_from_part in E. destruct (negb _); [done|].
    destruct (pointer_str part _) as [url|]; [|done]. cbn [mbind option_bind] in E.
    destruct (strip_prefix "data:" url) as [rest|]; [|done]. cbn [mbind option_bind] in E.
    destruct (split_once_str ";base64," rest) as [[m d]|]; [|done]. cbn [mbind option_bind] in E.
    destruct (_ || _); [done|]. by injection E as <-. }
  unfold Chat.content_events. destruct (nonempty _); [by repeat constructor|].
  destruct (as_array content) as [parts|]; [|done].
  assert (P : forall parts out text, Forall chat_tagged out ->
    Forall chat_tagged (let '(out, text) := fold_left Chat.content_part parts (out, text) in out ++ Chat.flush_text text)).
  { clear parts. intros parts. induction parts as [|part parts IH]; intros out text Ho; cbn [fold_left].
    - apply Forall_app. by split.
    - unfold Chat.content_part at 2. destruct (as_str part); [by apply IH|]. destruct (bool_decide _).
      + apply IH. rewrite !Forall_app. repeat split; auto.
      + by destruct (Chat.text_piece part); apply IH. }
  by apply P.
Qed.

Lemma call_tagged call evs : complete_chat_tool_call call = Ok evs -> Forall chat_tagged evs.
Proof.
  unfold complete_chat_tool_call, complete_chat_custom_call. intros H.
  assert (L : forall (f : string -> IrStreamEvent) o start, (forall t, chat_tagged (f t)) -> chat_tagged start ->
    Forall chat_tagged ([start] ++ push_opt f o ++ [ToolCallEnd])).
  { intros f o start F S. rewrite !Forall_app. repeat split; repeat constructor; [done|]. apply tagged_push. auto. }
  destruct (bool_decide _).
  - destruct (json_text_field _ _) as [o|]; [|done]. cbn [rbind] in H. injection H as <-. by apply L.
  - destruct (Chat.foreign_type call); [injection H as <-; repeat constructor; tagged|].
    destruct (json_text_field _ _) as [o|]; [|done]. cbn [rbind] in H. injection H as <-. by apply L.
Qed.

Lemma calls_tagged message evs : complete_chat_calls message = Ok evs -> Forall chat_tagged evs.
Proof.
  unfold complete_chat_calls. destruct (get_array message "tool_calls") as [calls|].
  - revert evs. induction calls as [|call calls IH]; intros evs H; cbn [Chat.collect] in H; [by injection H as <-|].
    destruct (check_index _ _ _ _); [|done]. cbn [rbind] in H.
    destruct (complete_chat_tool_call call) as [x|] eqn:X; [|done]. cbn [rbind] in H.
    destruct (Chat.collect _ calls) as [y|]; [|done]. cbn [rbind] in H. injection H as <-.
    apply Forall_app. split; [by eapply call_tagged|by apply IH].
  - destruct (object_field message "function_call") as [fc|]; [apply call_tagged|by intros [= <-]].
Qed.

Lemma chat_decoded_tagged value evs : decode_chat_complete value = Ok evs -> Forall chat_tagged evs.
Proof.
  unfold decode_chat_complete. intros H. destruct (if json_has_completion value then _ else _); [done|].
  set (choice := match get_array value "choices" ≫= head with Some _ => _ | None => _ end) in H.
  assert (C : forall c, choice = Ok c -> Forall chat_tagged c).
  { unfold choice. destruct (_ ≫= head) as [ch|]; [|by intros c [= <-]]. unfold complete_chat_choice.
    set (message := match get ch "message" with Some _ => _ | None => _ end).
    assert (M : forall m, message = Ok m -> Forall chat_tagged m).
    { unfold message. destruct (get ch "message") as [msg|]; [|by intros m [= <-]]. unfold complete_chat_message.
      destruct (complete_chat_calls msg) as [calls|] eqn:K; [|done]. cbn [rbind]. intros m [= <-].
      apply calls_tagged in K. rewrite !Forall_app. repeat split; try done; try (apply tagged_push; done).
      - destruct (get msg "content"); [apply content_tagged|done].
      - unfold complete_chat_annotations. destruct (get_array msg "annotations") as [anns|]; [|done].
        induction (List.filter is_object anns); by constructor.
      - unfold complete_chat_audio. destruct (object_field msg "audio") as [audio|]; [|done].
        unfold Chat.audio_events, Chat.audio_identity_events. rewrite !Forall_app.
        repeat split; apply tagged_push; intros; tagged. }
    destruct message as [m|]; [|done]. cbn [rbind]. intros c [= <-]. rewrite !Forall_app. repeat split; [by apply M| |].
    - apply tagged_push. intros ev E. unfold Chat.chat_logprobs_event in E. destruct (get ch "logprobs"); [|done].
      cbn [mbind option_bind] in E. destruct (_ && _); [done|]. by injection E as <-.
    - by apply tagged_push. }
  destruct choice as [c|]; [|done]. cbn [rbind] in H. injection H as <-. rewrite !Forall_app.
  repeat split; [|by apply C|].
  - unfold complete_chat_head. rewrite !Forall_app. repeat split; apply tagged_push; intros ev E; try done.
    + unfold Chat.system_fingerprint_event in E. destruct (Chat.not_blank _); [|done]. injection E as <-. tagged.
    + unfold Chat.completion_id_event in E. destruct (Chat.not_blank _); [|done]. injection E as <-. tagged.
    + unfold Shapes.moderation_event in E. destruct (opt_or _ _); [|done]. cbn [mbind option_bind] in E.
      destruct (negb _); [done|]. destruct (_ && _); [done|]. by injection E as <-.
  - unfold complete_chat_usage. destruct (object_field value "usage") as [usage|]; [|done]. constructor; [done|].
    unfold Usage.chat_prediction_token_events, Usage.prediction_event. cbn [flat_map]. rewrite !Forall_app.
    repeat split; try done; (destruct (opt_filter _ _); [|done]); repeat constructor; tagged.
Qed.

(** C3. A Chat body translated to Messages keeps what it says: whatever the body
    is, when it decodes, its Messages body decodes too, with the same refusal
    and reasoning, its transcripts and text as text, and its calls in the
    order of the table. *)
Theorem chat_body_as_messages value evs model :
  decode_chat_complete value = Ok evs ->
  exists body out, encode_response_with_model Messages evs model = Ok body
    /\ decode_messages_complete body = Ok out
    /\ (forall ch, In ch [ChText; ChRefusal; ChReasoning] -> said ch out = said ch (map transcript_as_text evs))
    /\ calls_of out = messages_calls_spoken 0 (indexed_tool_finish (call_table no_signature evs)).
Proof.
  intros D. assert (F : Forall foreign_blocks evs).
  { eapply Forall_impl; [by eapply chat_decoded_tagged|]. apply tagged_foreign. }
  destruct (messages_body_says evs model F) as (out & E & S). by exists (encode_messages_complete evs model), out.
Qed.
End Translation.

(** ** Witnesses *)
Section Witnesses.
#[local] Existing Instance bits_codec.

Definition sample_chat_body : json :=
  jobj [("choices", JArr [jobj [("message", jobj
    [("content", JStr "hi"); ("reasoning", JStr "hm");
     ("tool_calls", JArr [jobj [("id", JStr "a"); ("function", jobj [("name", JStr "f"); ("arguments", JStr "{}")])]])])]])].

Definition sample_chat_events : list IrStreamEvent :=
  match decode_chat_complete sample_chat_body with Ok evs => evs | Err _ => [] end.

Lemma chat_body_as_messages_witness :
  exists body out, encode_response_with_model Messages sample_chat_events "m" = Ok body
    /\ decode_messages_complete body = Ok out
    /\ (forall ch, In ch [ChText; ChRefusal; ChReasoning] -> said ch out = said ch (map transcript_as_text sample_chat_events))
    /\ calls_of out = messages_calls_spoken 0 (indexed_tool_finish (call_table no_signature sample_chat_events)).
Proof. apply (chat_body_as_messages sample_chat_body). vm_compute. reflexivity. Defined.

Definition sample_gemini_bytes : list u8 :=
  bytes_of_str (to_string (jobj [("candidates", JArr [jobj [("finishReason", JStr "ODD")]])])).

Lemma body_report_preserves_witness :
  exists events report,
    decode_response_with_loss (fun _ => "") (fun _ => "") chunk_dialect Gemini sample_gemini_bytes = Ok (events, report)
    /\ lossy report = [].
Proof.
  destruct (decode_response_with_loss (fun _ => "") (fun _ => "") chunk_dialect Gemini sample_gemini_bytes)
    as [[events report]|] eqn:E; [|vm_compute in E; discriminate].
  exists events, report. split; [reflexivity|].
  apply (body_report_preserves (fun _ => "") (fun _ => "") chunk_dialect Gemini sample_gemini_bytes events report E).
Defined.
End Witnesses.
