(* ===== verification/SameWire.v ===== *)
(** * SameWire: a stream that needs no translation

    crates/wiremux/src/proxy.rs: when the client speaks the dialect of the
    upstream, [passthrough_sse] sends the bytes on as they are.  [SameWireGate]
    reads them too, so that a page of HTML, a stream cut short or a vendor
    error is not sent as a finished answer, and [json_completion_to_sse] makes
    a stream of a JSON completion that came in its place. *)

From stdpp Require Import gmap.
From S2P Require Import Prelude Fields Text Json JsonCodec Sse EventStream Ir ProfileTypes StreamCore Usage Shapes Completion.
From S2P Require Import EncoderCore StreamDecode Encoder Relay Failures Complete.

Definition MAX_UPSTREAM_BODY : Z := 16 * 1024 * 1024.

(** ** The state of the gate *)
Record SameWireGate := mkGate {
  sg_from : Wire;
  sg_dialect : Dialect;
  sg_reader : UpstreamFrames;
  sg_saw_frame : bool;
  sg_saw_terminal : bool;
  sg_saw_vendor_error : bool;
  sg_drop_rest : bool;
  sg_held : list u8
}.

#[export] Instance gate_eta : Eta SameWireGate :=
  fun g => mkGate (sg_from g) (sg_dialect g) (sg_reader g) (sg_saw_frame g) (sg_saw_terminal g)
             (sg_saw_vendor_error g) (sg_drop_rest g) (sg_held g).
#[export] Instance set_sg_from : Field sg_from := ltac:(derive_field).
#[export] Instance set_sg_dialect : Field sg_dialect := ltac:(derive_field).
#[export] Instance set_sg_reader : Field sg_reader := ltac:(derive_field).
#[export] Instance set_sg_saw_frame : Field sg_saw_frame := ltac:(derive_field).
#[export] Instance set_sg_saw_terminal : Field sg_saw_terminal := ltac:(derive_field).
#[export] Instance set_sg_saw_vendor_error : Field sg_saw_vendor_error := ltac:(derive_field).
#[export] Instance set_sg_drop_rest : Field sg_drop_rest := ltac:(derive_field).
#[export] Instance set_sg_held : Field sg_held := ltac:(derive_field).

Inductive SameWirePush := Hold | Forward (bytes : list u8).

Inductive SameWireEnd :=
| EndDone (tail : list u8)
| EndReplace (message : string)
| EndAppend (tail : list u8) (message : string)
| EndPromote (bytes : list u8).

Definition gate_new (from : Wire) (dialect : Dialect) : SameWireGate :=
  mkGate from dialect (for_wire from) false false false false [].

Section Operations.
Context {SJ : SerdeJson} (parse_error : string -> string) (slice_error : list u8 -> string)
  (debug : IrStreamEvent -> string).

(** ** A JSON completion as a stream *)
Definition json_completion_to_sse (from target : Wire) (body : list u8) (dialect : Dialect) (model : string) :
  option (list u8) :=
  match decode_response parse_error slice_error dialect target body with
  | Ok (_ :: _ as events) =>
      let '(frames, err, e) := push_events debug from events (with_model model (EncoderCore.new from)) in
      match err with
      | Some _ => None
      | None =>
          let last := match Encoder.finish debug e with (Ok last, _) => last | (Err _, _) => [] end in
          match frames ++ last with
          | [] => None
          | frames => Some (concat (map (dest_frame_bytes from) frames))
          end
      end
  | _ => None
  end.

(** ** Reading a chunk *)
Definition note_terminal (raw : RawSse) (g : SameWireGate) : SameWireGate :=
  if frame_is_terminal (sg_from g) raw || is_some (sse_wrapped_error_message (raw_data raw))
  then g <| sg_saw_terminal := true |> else g.

(** Frames written again, without a [[DONE]]. *)
Fixpoint rewrite_frames (frames : list RawSse) (g : SameWireGate) : list u8 * SameWireGate :=
  match frames with
  | [] => ([], g)
  | raw :: frames =>
      if sse_done_frame raw then rewrite_frames frames g
      else let '(out, g) := rewrite_frames frames (note_terminal raw g) in (bytes_of_str (format_sse raw) ++ out, g)
  end.

Definition held_plus (bytes : list u8) (g : SameWireGate) : list u8 * SameWireGate :=
  (sg_held g ++ bytes, g <| sg_held := [] |>).

Definition no_frame_message (g : SameWireGate) (body : list u8) : string :=
  unwrap_or
    (opt_or (responses_complete_vendor_failure (sg_from g) body)
      (opt_or (chat_complete_vendor_failure (sg_from g) body)
        (opt_or (messages_complete_vendor_failure (sg_from g) body)
          (gemini_complete_vendor_failure (sg_from g) body))))
    INCOMPLETE_STREAM_MESSAGE.

(** The first frame that is a failure of the vendor, and the frames before it. *)
Fixpoint failed_frame (from : Wire) (dialect : Dialect) (frames : list RawSse) : option (list RawSse * string) :=
  match frames with
  | [] => None
  | raw :: frames =>
      match responses_failed_vendor_error parse_error from raw dialect with
      | Some msg => Some ([], msg)
      | None => '(before, msg) ← failed_frame from dialect frames; Some (raw :: before, msg)
      end
  end.

Definition wraps_error (raw : RawSse) : bool := is_some (sse_wrapped_error_message (raw_data raw)).

(** [push] once the reader gave the frames of the chunk. *)
Definition gate_frames (bytes : list u8) (frames : list RawSse) (terminal : option string) (g : SameWireGate) :
  SameWireGate * result string SameWirePush :=
  match failed_frame (sg_from g) (sg_dialect g) frames with
  | Some (before, msg) =>
      let '(out, g) := rewrite_frames before g in
      let g := g <| sg_saw_frame := true |> <| sg_saw_terminal := true |> <| sg_saw_vendor_error := true |>
                 <| sg_drop_rest := true |> <| sg_held := [] |> in
      (g <| sg_reader := (frames_finish (sg_reader g)).1 |>, Ok (Forward (out ++ dest_error_bytes (sg_from g) msg)))
  | None =>
      if wire_eqb (sg_from g) Responses && negb (sg_saw_vendor_error g) && frames_has_open_frame (sg_reader g)
         && negb (bool_decide (frames = [])) && negb (existsb wraps_error frames)
      then
        let '(out, g) := rewrite_frames frames g in
        (g <| sg_saw_frame := true |> <| sg_held := frames_pending_wire_bytes (sg_reader g) |>, Ok (Forward out))
      else if is_some terminal then
        let '(out, g) := held_plus bytes (g <| sg_saw_frame := true |> <| sg_saw_terminal := true |>) in
        (g, Ok (Forward out))
      else if bool_decide (frames = []) then
        if negb (sg_saw_frame g) then (g <| sg_held ::= fun held => held ++ bytes |>, Ok Hold)
        else if sg_saw_vendor_error g then (g, Ok Hold)
        else if wire_eqb (sg_from g) Responses && frames_has_open_frame (sg_reader g)
        then (g <| sg_held ::= fun held => held ++ bytes |>, Ok Hold)
        else (g, Ok (Forward bytes))
      else
        let g := if existsb wraps_error frames then g <| sg_saw_vendor_error := true |> else g in
        if sg_saw_vendor_error g then
          let '(out, g) := rewrite_frames frames (g <| sg_saw_frame := true |> <| sg_held := [] |>) in
          (g, Ok (Forward out))
        else
          let g := fold_left (fun g raw => note_terminal raw g) frames (g <| sg_saw_frame := true |>) in
          let '(out, g) := held_plus bytes g in (g, Ok (Forward out))
  end.

(** [push]; [None] where the reader would panic. *)
Definition gate_push (bytes : list u8) (g : SameWireGate) : option (SameWireGate * result string SameWirePush) :=
  if sg_drop_rest g then Some (g, Ok Hold)
  else if negb (sg_saw_frame g)
          && (MAX_UPSTREAM_BODY <? usize_saturating_add (vlen (sg_held g)) (vlen bytes))
  then Some (g, Err INCOMPLETE_STREAM_MESSAGE)
  else
    '(u, res) ← frames_feed (sg_reader g) bytes;
    let g := g <| sg_reader := u |> in
    Some match res with
         | Err err =>
             if sg_saw_frame g then (g, Err err)
             else
               let body := sg_held g ++ bytes in
               let message := no_frame_message g body in
               if negb (String.eqb message INCOMPLETE_STREAM_MESSAGE) then (g, Err message)
               else (g <| sg_held := body |>, Ok Hold)
         | Ok (frames, terminal) => gate_frames bytes frames terminal g
         end.

(** ** The end of the body *)
Definition no_frame_end (g : SameWireGate) (body : list u8) : SameWireEnd :=
  let message := no_frame_message g body in
  if negb (String.eqb message INCOMPLETE_STREAM_MESSAGE) then EndReplace message
  else
    match json_completion_to_sse (sg_from g) (sg_from g) body (sg_dialect g) "" with
    | Some sse => EndPromote sse
    | None => EndReplace message
    end.

Definition gate_close (tail : list u8) (g : SameWireGate) : SameWireEnd :=
  if negb (sg_saw_frame g) then no_frame_end g tail
  else if negb (sg_saw_terminal g) then EndAppend tail INCOMPLETE_STREAM_MESSAGE
  else EndDone tail.

Definition gate_finish (g : SameWireGate) : SameWireEnd :=
  if sg_drop_rest g then EndDone []
  else
    match (frames_finish (sg_reader g)).2 with
    | Err err => if negb (sg_saw_frame g) then no_frame_end g (sg_held g) else EndAppend (sg_held g) err
    | Ok None => gate_close (sg_held g) g
    | Ok (Some raw) =>
        let g := g <| sg_saw_frame := true |> in
        match responses_failed_vendor_error parse_error (sg_from g) raw (sg_dialect g) with
        | Some msg => EndReplace msg
        | None =>
            let synthesized :=
              if sg_saw_vendor_error g && negb (done_frame_prefix raw) then bytes_of_str (format_sse raw) else [] in
            gate_close (sg_held g ++ synthesized) (note_terminal raw g)
        end
    end.

(** ** The task of [passthrough_sse]

    Its items are the chunks of the body, or the text of a transport error;
    what it sends is the list of the data frames. *)
Definition transport_error_bytes (from : Wire) (eventstream : bool) (msg : string) : list u8 :=
  if eventstream && negb (wire_eqb from Converse)
  then encode_exception_message "internalServerException" (bytes_of_str (to_string (jobj [("message", JStr msg)])))
  else dest_error_bytes from msg.

Definition sent_end (from : Wire) (e : SameWireEnd) : list (list u8) :=
  let sent tail := match tail with [] => [] | _ => [tail] end in
  match e with
  | EndDone tail => sent tail
  | EndReplace message => [dest_error_bytes from message]
  | EndAppend tail message => sent tail ++ [dest_error_bytes from message]
  | EndPromote bytes => [bytes]
  end.

Fixpoint pass_chunks (eventstream : bool) (items : list (result string (list u8))) (g : SameWireGate) :
  option (list (list u8)) :=
  match items with
  | [] => Some (sent_end (sg_from g) (gate_finish g))
  | Err msg :: _ => Some [transport_error_bytes (sg_from g) eventstream msg]
  | Ok bytes :: items =>
      '(g, res) ← gate_push bytes g;
      match res with
      | Err msg => Some [dest_error_bytes (sg_from g) msg]
      | Ok Hold => pass_chunks eventstream items g
      | Ok (Forward chunk) => cons chunk <$> pass_chunks eventstream items g
      end
  end.

Definition passthrough_sse (from : Wire) (dialect : Dialect) (content_type : string)
    (items : list (result string (list u8))) : option (list (list u8)) :=
  pass_chunks (str_contains "eventstream" content_type) items (gate_new from dialect).
End Operations.

(** ** Bytes pass unchanged *)
Section Transparent.
Context {SJ : SerdeJson} (parse_error : string -> string) (slice_error : list u8 -> string)
  (debug : IrStreamEvent -> string).

(** A frame that is no error. *)
Definition plain_frame (from : Wire) (dialect : Dialect) (raw : RawSse) : bool :=
  negb (wraps_error raw) && is_none (responses_failed_vendor_error parse_error from raw dialect).

(** How the chunks lie: at most 16 MiB come before the first frame ([waiting]
    counts them while there is none), and on the Responses wire no later chunk
    ends inside a frame. *)
Fixpoint steady (from : Wire) (u : UpstreamFrames) (waiting : option Z) (chunks : list (list u8)) : bool :=
  match chunks with
  | [] => true
  | c :: chunks =>
      match frames_feed u c with
      | Some (u, Ok (frames, None)) =>
          let waiting' := if bool_decide (frames = []) then (fun n => n + vlen c) <$> waiting else None in
          match waiting with Some n => n + vlen c <=? MAX_UPSTREAM_BODY | None => true end
          && negb (wire_eqb from Responses && frames_has_open_frame u && is_none waiting')
          && steady from u waiting' chunks
      | _ => false
      end
  end.

Lemma failed_none from dialect frames :
  forallb (plain_frame from dialect) frames = true -> failed_frame parse_error from dialect frames = None.
Proof.
  induction frames as [|raw frames IH]; [done|]. cbn [forallb failed_frame]. unfold plain_frame at 1.
  intros [[_ P]%andb_true_iff F]%andb_true_iff. destruct (responses_failed_vendor_error _ _ _ _); [done|].
  by rewrite IH.
Qed.

Lemma wraps_none from dialect frames :
  forallb (plain_frame from dialect) frames = true -> existsb wraps_error frames = false.
Proof.
  induction frames as [|raw frames IH]; [done|]. cbn [forallb existsb]. unfold plain_frame at 1.
  intros [[W _]%andb_true_iff F]%andb_true_iff. rewrite IH by done. by destruct (wraps_error raw).
Qed.

(** What a gate that saw no error has kept: everything before the first frame,
    nothing afterwards. *)
Record copying (from : Wire) (dialect : Dialect) (u : UpstreamFrames) (frames : list RawSse) (read sent : list u8)
    (g : SameWireGate) : Prop := {
  cp_from : sg_from g = from;
  cp_dialect : sg_dialect g = dialect;
  cp_reader : sg_reader g = u;
  cp_frame : sg_saw_frame g = negb (bool_decide (frames = []));
  cp_terminal : sg_saw_terminal g = existsb (frame_is_terminal from) frames;
  cp_error : sg_saw_vendor_error g = false;
  cp_drop : sg_drop_rest g = false;
  cp_sent : sent ++ sg_held g = read;
  cp_held : if bool_decide (frames = []) then sent = [] else sg_held g = []
}.

Lemma note_terminals from dialect frames g :
  sg_from g = from -> forallb (plain_frame from dialect) frames = true ->
  fold_left (fun g raw => note_terminal raw g) frames g
  = g <| sg_saw_terminal := sg_saw_terminal g || existsb (frame_is_terminal from) frames |>.
Proof.
  intros F. revert g F. induction frames as [|raw frames IH]; intros g F; cbn [forallb fold_left existsb].
  { intros _. rewrite orb_false_r. by destruct g. }
  unfold plain_frame at 1. intros [[W _]%andb_true_iff P]%andb_true_iff. unfold wraps_error in W.
  assert (N : note_terminal raw g = g <| sg_saw_terminal := sg_saw_terminal g || frame_is_terminal from raw |>).
  { unfold note_terminal. rewrite F. destruct (sse_wrapped_error_message _); [done|]. rewrite orb_false_r.
    destruct (frame_is_terminal from raw); destruct g; cbn; by rewrite ?orb_true_r, ?orb_false_r. }
  rewrite N, IH by (done || by destruct g). destruct g; cbn. by rewrite orb_assoc.
Qed.

Lemma copy_chunk from dialect u u' old frames read sent g c :
  copying from dialect u old read sent g ->
  frames_feed u c = Some (u', Ok (frames, None)) ->
  forallb (plain_frame from dialect) frames = true ->
  (old = [] -> vlen read + vlen c <= MAX_UPSTREAM_BODY) ->
  (from = Responses -> frames_has_open_frame u' = true -> old ++ frames = []) ->
  exists g' push, gate_push parse_error c g = Some (g', Ok push)
    /\ copying from dialect u' (old ++ frames) (read ++ c)
         (sent ++ match push with Forward bytes => bytes | Hold => [] end) g'.
Proof.
  intros [F D R S T V X H K] Fd P Cap Open. unfold gate_push. rewrite X, R, Fd.
  assert (C : negb (sg_saw_frame g) && (MAX_UPSTREAM_BODY <? usize_saturating_add (vlen (sg_held g)) (vlen c)) = false).
  { rewrite S. destruct (bool_decide (old = [])) eqn:E; [|done]. apply bool_decide_eq_true in E.
    specialize (Cap E). subst sent read. cbn [app negb andb] in *.
    unfold usize_saturating_add, MAX_UPSTREAM_BODY in *. lia. }
  rewrite C. cbn [mbind option_bind]. unfold gate_frames. simpl_fields. rewrite F, D, V.
  rewrite (failed_none _ _ _ P), (wraps_none _ _ _ P). cbn [is_some negb andb].
  destruct (wire_eqb from Responses && frames_has_open_frame u' && negb (bool_decide (frames = []))) eqn:O.
  { apply andb_true_iff in O as [[W Op]%andb_true_iff Ne]. exfalso.
    assert (E : old ++ frames = []) by (apply Open; [by destruct from|done]).
    apply app_eq_nil in E as [-> ->]. done. }
  rewrite !andb_true_r, O. destruct (bool_decide (frames = [])) eqn:E.
  - apply bool_decide_eq_true in E as ->. rewrite app_nil_r in *. rewrite S.
    destruct (bool_decide (old = [])) eqn:E; cbn [negb].
    + eexists _, Hold. split; [reflexivity|]. rewrite app_nil_r.
      split; simpl_fields; try done; [by rewrite E|by rewrite app_assoc, H|by rewrite E].
    + rename K into Hd. rewrite Hd, app_nil_r in H.
      replace (wire_eqb from Responses && frames_has_open_frame u') with false.
      2: { symmetry. apply not_true_iff_false. intros [W Op]%andb_true_iff. apply bool_decide_eq_false in E. apply E, Open; [by destruct from|done]. }
      eexists _, (Forward c). split; [reflexivity|].
      split; simpl_fields; try done; [by rewrite S, E|by rewrite Hd, app_nil_r, H|by rewrite E].
  - apply bool_decide_eq_false in E.
    rewrite (note_terminals from dialect) by (done || by simpl_fields).
    simpl_fields. rewrite V. unfold held_plus. simpl_fields. eexists _, (Forward (sg_held g ++ c)).
    split; [reflexivity|].
    assert (N : old ++ frames <> []) by (intros [_ N]%app_eq_nil; done).
    split; simpl_fields; try done; [by rewrite bool_decide_false|by rewrite existsb_app, T| |by rewrite bool_decide_false].
    by rewrite app_nil_r, app_assoc, H.
Qed.

(** The part of the end that a copy has. *)
Definition copy_end (from : Wire) (frames : list RawSse) : list u8 :=
  if existsb (frame_is_terminal from) frames then [] else dest_error_bytes from INCOMPLETE_STREAM_MESSAGE.

Lemma concat_sent_tail (tail : list u8) : concat (match tail with [] => [] | _ => [tail] end) = tail.
Proof. destruct tail; [done|]. apply app_nil_r. Qed.

Lemma copy_close from frames sent g tail :
  sg_saw_frame g = true -> sg_saw_terminal g = existsb (frame_is_terminal from) frames ->
  sent ++ concat (sent_end from (gate_close parse_error slice_error debug tail g)) = (sent ++ tail) ++ copy_end from frames.
Proof.
  intros S T. unfold gate_close, copy_end. rewrite S, T. cbn [negb].
  destruct (existsb _ frames); cbn [negb sent_end].
  - by rewrite concat_sent_tail, app_nil_r.
  - rewrite concat_app, concat_sent_tail. cbn [concat]. by rewrite app_nil_r, app_assoc.
Qed.

Lemma copy_finish from dialect u frames read sent g last :
  copying from dialect u frames read sent g ->
  (frames_finish u).2 = Ok last ->
  forallb (plain_frame from dialect) (push_opt (fun f => f) last) = true ->
  frames ++ push_opt (fun f => f) last <> [] ->
  sent ++ concat (sent_end from (gate_finish parse_error slice_error debug g))
  = read ++ copy_end from (frames ++ push_opt (fun f => f) last).
Proof.
  intros Cp L P N. pose proof Cp as [F D R S T V X H K]. unfold gate_finish. rewrite X, R, L.
  destruct last as [raw|]; cbn [push_opt] in *.
  2: { rewrite app_nil_r in *. rewrite (copy_close from frames) by (by rewrite ?S, ?bool_decide_false). by rewrite H. }
  simpl_fields. rewrite F, D, V. cbn [forallb] in P. rewrite andb_true_r in P. pose proof P as P'.
  unfold plain_frame in P'. apply andb_true_iff in P' as [_ Q].
  assert (E : responses_failed_vendor_error parse_error from raw dialect = None)
    by (by destruct (responses_failed_vendor_error _ _ _ _)).
  rewrite E. cbn [andb]. rewrite app_nil_r.
  pose proof (note_terminals from dialect [raw] (g <| sg_saw_frame := true |>)) as Nt. cbn [fold_left forallb] in Nt.
  rewrite Nt by (by simpl_fields || by rewrite P).
  rewrite (copy_close from (frames ++ [raw])) by (simpl_fields; by rewrite ?existsb_app, ?T). by rewrite H.
Qed.

Lemma copy_chunks from dialect eventstream chunks u u' old frames read sent g last :
  copying from dialect u old read sent g ->
  fr_feed_chunks u chunks = Some (u', Ok (frames, None)) ->
  steady from u (if bool_decide (old = []) then Some (vlen read) else None) chunks = true ->
  (frames_finish u').2 = Ok last ->
  forallb (plain_frame from dialect) (frames ++ push_opt (fun f => f) last) = true ->
  old ++ frames ++ push_opt (fun f => f) last <> [] ->
  exists out, pass_chunks parse_error slice_error debug eventstream (map Ok chunks) g = Some out
    /\ sent ++ concat out = (read ++ concat chunks) ++ copy_end from (old ++ frames ++ push_opt (fun f => f) last).
Proof.
  revert u old frames read sent g. induction chunks as [|c chunks IH]; intros u old frames read sent g Cp; cbn [fr_feed_chunks].
  { intros [= <- <-] _ L P N. cbn [map pass_chunks app concat] in *. eexists. split; [reflexivity|].
    rewrite app_nil_r. erewrite (cp_from _ _ _ _ _ _ _ Cp). by eapply copy_finish. }
  cbn [fr_feed upstream_frame_reader map pass_chunks steady].
  destruct (frames_feed u c) as [[u1 [[o1 [err|]]|err]]|] eqn:Fd; [done| |done|done].
  destruct (fr_feed_chunks u1 chunks) as [[u2 res]|] eqn:Fr; [|done]. cbn [mbind option_bind].
  destruct res as [[o2 t]|err]; [|done]. intros [= <- <- ->].
  intros [[Cap Op]%andb_true_iff St]%andb_true_iff L P N.
  rewrite <- app_assoc, forallb_app in P. apply andb_true_iff in P as [P1 P2].
  destruct (copy_chunk from dialect u u1 old o1 read sent g c Cp Fd P1) as (g1 & push & E & Cp1).
  { intros ->. cbn in Cap. lia. }
  { intros -> Ho. rewrite Ho in Op. cbn [wire_eqb andb] in Op. destruct (bool_decide (o1 = [])) eqn:E1; [|done].
    apply bool_decide_eq_true in E1 as ->. rewrite app_nil_r.
    destruct (bool_decide (old = [])) eqn:E2; [by apply bool_decide_eq_true in E2|done]. }
  assert (W : (if bool_decide (old ++ o1 = []) then Some (vlen (read ++ c)) else None)
              = (if bool_decide (o1 = [])
                 then (fun n => n + vlen c) <$> (if bool_decide (old = []) then Some (vlen read) else None) else None)).
  { destruct (decide (o1 = [])) as [->|N1].
    - rewrite app_nil_r. destruct (bool_decide (old = [])); [|done]. cbn. f_equal. apply vlen_app.
    - rewrite !bool_decide_false; [done|done|]. by intros [_ ?]%app_eq_nil. }
  rewrite <- W in St. rewrite <- app_assoc, app_assoc in N.
  destruct (IH u1 (old ++ o1) o2 (read ++ c) _ g1 Cp1 Fr St L P2 N) as (out & E' & C).
  rewrite E. cbn [mbind option_bind]. destruct push as [|bytes]; rewrite E'.
  - exists out. split; [done|]. rewrite app_nil_r in C. rewrite C. cbn [concat]. by rewrite !app_assoc.
  - exists (bytes :: out). split; [done|]. cbn [concat]. rewrite app_assoc, C. by rewrite !app_assoc.
Qed.

(** Outside the Responses wire any cut of a body of at most 16 MiB is steady. *)
Lemma any_cut_steady from chunks : from <> Responses -> forall u u' out waiting,
  fr_feed_chunks u chunks = Some (u', Ok (out, None)) ->
  (forall n, waiting = Some n -> n + vlen (concat chunks) <= MAX_UPSTREAM_BODY) ->
  steady from u waiting chunks = true.
Proof.
  intros R. induction chunks as [|c chunks IH]; intros u u' out waiting; cbn [fr_feed_chunks steady]; [done|].
  cbn [fr_feed upstream_frame_reader]. destruct (frames_feed u c) as [[u1 [[o1 [err|]]|err]]|]; [done| |done|done].
  destruct (fr_feed_chunks u1 chunks) as [[u2 res]|] eqn:Fr; [|done]. cbn [mbind option_bind].
  destruct res as [[o2 t]|err]; [|done]. intros [= <- <- ->] W. cbn [concat] in W.
  assert (wire_eqb from Responses = false) as -> by (unfold wire_eqb; by rewrite bool_decide_false).
  cbn [andb negb]. rewrite andb_true_r. pose proof (vlen_nonneg (concat chunks)). apply andb_true_iff. split.
  - destruct waiting as [n|]; [|done]. specialize (W n eq_refl). rewrite vlen_app in W. apply Z.leb_le. lia.
  - eapply IH; [done|]. intros n. destruct (bool_decide (o1 = [])); [|done]. destruct waiting as [m|]; [|done].
    intros [= <-]. specialize (W m eq_refl). rewrite vlen_app in W. lia.
Qed.

End Transparent.

(** ** No end is made up *)
Section Honest.
Context {SJ : SerdeJson} (parse_error : string -> string) (slice_error : list u8 -> string)
  (debug : IrStreamEvent -> string).

(** A frame that ends the answer, as an end or as an error. *)
Definition ends_answer (from : Wire) (raw : RawSse) : bool := frame_is_terminal from raw || wraps_error raw.

(** The reader gives such a frame, or an exception, while it reads the items. *)
Fixpoint reads_end (from : Wire) (items : list (result string (list u8))) (u : UpstreamFrames) : bool :=
  match items with
  | [] => match (frames_finish u).2 with Ok (Some last) => ends_answer from last | _ => false end
  | Err _ :: _ => false
  | Ok bytes :: items =>
      match frames_feed u bytes with
      | Some (u, Ok (frames, terminal)) =>
          existsb (ends_answer from) frames || is_some terminal || reads_end from items u
      | Some (u, Err _) => reads_end from items u
      | None => false
      end
  end.

(** The last thing sent is an error. *)
Definition closes_with_error (from : Wire) (eventstream : bool) (sent : list (list u8)) : Prop :=
  exists pre msg, concat sent = pre ++ dest_error_bytes from msg
                  \/ concat sent = pre ++ transport_error_bytes from eventstream msg.

Lemma closes_app from eventstream xs ys :
  closes_with_error from eventstream ys -> closes_with_error from eventstream (xs ++ ys).
Proof.
  intros (pre & msg & [E|E]); exists (concat xs ++ pre), msg; [left|right]; by rewrite concat_app, E, app_assoc.
Qed.

Lemma closes_dest from eventstream pre msg : closes_with_error from eventstream [pre ++ dest_error_bytes from msg].
Proof. exists pre, msg. left. apply app_nil_r. Qed.

Lemma closes_one from eventstream msg : closes_with_error from eventstream [dest_error_bytes from msg].
Proof. apply (closes_dest _ _ []). Qed.

(** What writing frames again leaves of the state. *)
Lemma rewrite_frames_state frames g :
  let g' := (rewrite_frames frames g).2 in
  sg_from g' = sg_from g /\ sg_dialect g' = sg_dialect g /\ sg_reader g' = sg_reader g
  /\ sg_drop_rest g' = sg_drop_rest g /\ sg_saw_frame g' = sg_saw_frame g
  /\ (sg_saw_terminal g' = true -> sg_saw_terminal g = true \/ existsb (ends_answer (sg_from g)) frames = true).
Proof.
  cbv zeta. revert g. induction frames as [|raw frames IH]; intros g; cbn [rewrite_frames existsb].
  { cbn [snd]. split_and!; try done. by left. }
  destruct (sse_done_frame raw).
  { destruct (IH g) as (? & ? & ? & ? & ? & T). split_and!; try done. intros Ht. destruct (T Ht) as [|E]; [by left|right].
    by rewrite E, orb_true_r. }
  destruct (IH (note_terminal raw g)) as (A & B & C & D & E & T). destruct (rewrite_frames frames _) as [out g'].
  cbn [snd] in *. unfold note_terminal in *. fold (wraps_error raw) in *. fold (ends_answer (sg_from g) raw) in *.
  destruct (ends_answer (sg_from g) raw) eqn:En; simpl_fields_in A; simpl_fields_in B; simpl_fields_in C;
    simpl_fields_in D; simpl_fields_in E; simpl_fields_in T; split_and!; try done.
  intros _. by right.
Qed.

Lemma note_terminals_state frames g :
  let g' := fold_left (fun g raw => note_terminal raw g) frames g in
  sg_from g' = sg_from g /\ sg_dialect g' = sg_dialect g /\ sg_reader g' = sg_reader g
  /\ sg_drop_rest g' = sg_drop_rest g /\ sg_saw_frame g' = sg_saw_frame g
  /\ (sg_saw_terminal g' = true -> sg_saw_terminal g = true \/ existsb (ends_answer (sg_from g)) frames = true).
Proof.
  cbv zeta. revert g. induction frames as [|raw frames IH]; intros g; cbn [fold_left existsb].
  { split_and!; try done. by left. }
  destruct (IH (note_terminal raw g)) as (A & B & C & D & E & T).
  unfold note_terminal in *. fold (wraps_error raw) in *. fold (ends_answer (sg_from g) raw) in *.
  destruct (ends_answer (sg_from g) raw) eqn:En; simpl_fields_in A; simpl_fields_in B; simpl_fields_in C;
    simpl_fields_in D; simpl_fields_in E; simpl_fields_in T; split_and!; try done.
  intros _. by right.
Qed.

(** One chunk of frames: either it ends in an error and drops the rest, or the
    state says truly whether an end and whether any frame was read. *)
Record chunk_state (bytes : list u8) (frames : list RawSse) (terminal : option string) (g g' : SameWireGate)
    (res : result string SameWirePush) : Prop := {
  ck_from : sg_from g' = sg_from g;
  ck_dialect : sg_dialect g' = sg_dialect g;
  ck_push : exists push, res = Ok push;
  ck_drop : sg_drop_rest g' = true -> exists pre msg, res = Ok (Forward (pre ++ dest_error_bytes (sg_from g) msg));
  ck_reader : sg_drop_rest g' = false -> sg_reader g' = sg_reader g;
  ck_terminal : sg_drop_rest g' = false -> sg_saw_terminal g' = true ->
    sg_saw_terminal g = true \/ existsb (ends_answer (sg_from g)) frames = true \/ is_some terminal = true;
  ck_frame : sg_saw_frame g' = false ->
    sg_saw_frame g = false /\ sg_held g' = sg_held g ++ bytes /\ res = Ok Hold
}.

Lemma gate_frames_state bytes frames terminal g g' res :
  sg_drop_rest g = false -> gate_frames parse_error bytes frames terminal g = (g', res) ->
  chunk_state bytes frames terminal g g' res.
Proof.
  intros X. unfold gate_frames. destruct (failed_frame _ _ _ frames) as [[before msg]|].
  { pose proof (rewrite_frames_state before g) as (A & B & C & D & E & T).
    destruct (rewrite_frames before g) as [out g1]. cbn [snd] in *. intros [= <- <-].
    split; simpl_fields; try done; [by eexists|]. intros _. rewrite A. by exists out, msg. }
  destruct (_ && negb (existsb wraps_error frames)).
  { pose proof (rewrite_frames_state frames g) as (A & B & C & D & E & T).
    destruct (rewrite_frames frames g) as [out g1]. cbn [snd] in *. intros [= <- <-].
    split; simpl_fields; try done; [by eexists|congruence|]. intros _ H. destruct (T H); auto. }
  destruct (is_some terminal) eqn:Tm.
  { unfold held_plus. intros [= <- <-]. split; simpl_fields; try done; [by eexists|congruence|].
    intros _ _. by right; right. }
  destruct (bool_decide (frames = [])) eqn:N.
  { destruct (negb (sg_saw_frame g)) eqn:S; [|destruct (sg_saw_vendor_error g); [|destruct (_ && _)]];
      intros [= <- <-]; split; simpl_fields; try done; try (by eexists); try congruence; try (by left);
      try (intros Sf; by rewrite Sf in S). }
  set (g1 := if existsb wraps_error frames then _ else g).
  assert (G : sg_from g1 = sg_from g /\ sg_dialect g1 = sg_dialect g /\ sg_reader g1 = sg_reader g /\ sg_drop_rest g1 = false
              /\ sg_saw_terminal g1 = sg_saw_terminal g)
    by (unfold g1; destruct (existsb _ _); by simpl_fields).
  clearbody g1. destruct G as (G1 & G5 & G2 & G3 & G4). destruct (sg_saw_vendor_error g1).
  - pose proof (rewrite_frames_state frames (g1 <| sg_saw_frame := true |> <| sg_held := [] |>)) as (A & B & C & D & E & T).
    simpl_fields_in A. simpl_fields_in B. simpl_fields_in C. simpl_fields_in D. simpl_fields_in E. simpl_fields_in T.
    destruct (rewrite_frames frames _) as [out g2]. cbn [snd] in *. intros [= <- <-].
    split; try congruence; [by eexists|]. intros _ Ht. rewrite G1, G4 in T. destruct (T Ht); auto.
  - pose proof (note_terminals_state frames (g1 <| sg_saw_frame := true |>)) as (A & B & C & D & E & T).
    simpl_fields_in A. simpl_fields_in B. simpl_fields_in C. simpl_fields_in D. simpl_fields_in E. simpl_fields_in T.
    unfold held_plus. set (g2 := fold_left _ frames _) in *. clearbody g2. intros [= <- <-].
    split; simpl_fields; try congruence; [by eexists|]. intros _ Ht. rewrite G1, G4 in T. destruct (T Ht); auto.
Qed.

(** The end of a gate that dropped nothing. *)
Lemma gate_finish_honest eventstream g :
  sg_drop_rest g = false ->
  let sent := sent_end (sg_from g) (gate_finish parse_error slice_error debug g) in
  sg_saw_terminal g = true \/ reads_end (sg_from g) [] (sg_reader g) = true
  \/ closes_with_error (sg_from g) eventstream sent
  \/ (sg_saw_frame g = false /\ exists bytes, sent = [bytes]
       /\ json_completion_to_sse parse_error slice_error debug (sg_from g) (sg_from g) (sg_held g) (sg_dialect g) "" = Some bytes).
Proof.
  intros X. cbv zeta. unfold gate_finish. rewrite X. cbn [reads_end].
  assert (No : forall body, let sent := sent_end (sg_from g) (no_frame_end parse_error slice_error debug g body) in
    closes_with_error (sg_from g) eventstream sent \/ exists bytes, sent = [bytes]
      /\ json_completion_to_sse parse_error slice_error debug (sg_from g) (sg_from g) body (sg_dialect g) "" = Some bytes).
  { intros body. cbv zeta. unfold no_frame_end. destruct (negb _); [left; apply closes_one|].
    destruct (json_completion_to_sse _ _ _ _ _ body _ _) as [sse|]; [right; by exists sse|left; apply closes_one]. }
  destruct ((frames_finish (sg_reader g)).2) as [[raw|]|err].
  - simpl_fields. destruct (responses_failed_vendor_error _ _ _ _); [right; right; left; apply closes_one|].
    destruct (sg_saw_terminal g) eqn:T; [by left|]. destruct (ends_answer (sg_from g) raw) eqn:En; [by right; left|].
    right; right; left. unfold gate_close, note_terminal. simpl_fields. fold (wraps_error raw).
    fold (ends_answer (sg_from g) raw). rewrite En. simpl_fields. rewrite T. cbn [negb sent_end].
    apply closes_app, closes_one.
  - unfold gate_close. destruct (sg_saw_frame g) eqn:S; cbn [negb].
    + destruct (sg_saw_terminal g) eqn:T; [by left|]. right; right; left. cbn [negb sent_end]. apply closes_app, closes_one.
    + right; right. destruct (No (sg_held g)) as [C|C]; [by left|right; by split].
  - right; right. destruct (sg_saw_frame g) eqn:S; cbn [negb].
    + left. apply closes_app, closes_one.
    + destruct (No (sg_held g)) as [C|C]; [by left|right; by split].
Qed.

(** The body is a completion that came whole, and its stream is all that is sent. *)
Definition promoted (from : Wire) (dialect : Dialect) (held : list u8) (items : list (result string (list u8)))
    (sent : list (list u8)) : Prop :=
  exists chunks bytes, items = map Ok chunks /\ sent = [bytes]
    /\ json_completion_to_sse parse_error slice_error debug from from (held ++ concat chunks) dialect "" = Some bytes.

Lemma transport_closes from eventstream msg : closes_with_error from eventstream [transport_error_bytes from eventstream msg].
Proof. exists [], msg. right. apply app_nil_r. Qed.

Lemma dropped_chunks eventstream items g :
  sg_drop_rest g = true ->
  exists sent, pass_chunks parse_error slice_error debug eventstream items g = Some sent
    /\ (sent = [] \/ exists msg, sent = [transport_error_bytes (sg_from g) eventstream msg]).
Proof.
  intros X. induction items as [|[bytes|msg] items IH]; cbn [pass_chunks].
  - unfold gate_finish. rewrite X. eexists. split; [done|by left].
  - unfold gate_push. rewrite X. cbn [mbind option_bind]. apply IH.
  - eexists. split; [done|]. right. by exists msg.
Qed.

Lemma pass_chunks_honest eventstream items g :
  sg_drop_rest g = false ->
  exists sent, pass_chunks parse_error slice_error debug eventstream items g = Some sent
    /\ (sg_saw_terminal g = true \/ reads_end (sg_from g) items (sg_reader g) = true
        \/ closes_with_error (sg_from g) eventstream sent
        \/ (sg_saw_frame g = false /\ promoted (sg_from g) (sg_dialect g) (sg_held g) items sent)).
Proof.
  revert g. induction items as [|[bytes|msg] items IH]; intros g X.
  - cbn [pass_chunks]. eexists. split; [done|].
    destruct (gate_finish_honest eventstream g X) as [H|[H|[H|[S (bytes & E & J)]]]]; [by left|by right; left|by do 2 right; left|].
    do 3 right. split; [done|]. exists [], bytes. cbn [concat]. by rewrite app_nil_r.
  - cbn [pass_chunks]. unfold gate_push. rewrite X.
    destruct (negb (sg_saw_frame g) && _).
    { cbn [mbind option_bind]. eexists. split; [done|]. do 2 right; left. apply closes_one. }
    cbn [reads_end]. destruct (frames_feed_returns (sg_reader g) bytes) as ([u res] & ->). cbn [mbind option_bind].
    destruct res as [[frames terminal]|err].
    + destruct (gate_frames parse_error bytes frames terminal (g <| sg_reader := u |>)) as [g' res] eqn:G.
      apply gate_frames_state in G; [|by simpl_fields]. destruct G as [A Dl [push ->] B C D E].
      simpl_fields_in A. simpl_fields_in Dl. simpl_fields_in B. simpl_fields_in C. simpl_fields_in D. simpl_fields_in E.
      destruct (sg_drop_rest g') eqn:X'.
      * destruct (B eq_refl) as (pre & msg & [= ->]). destruct (dropped_chunks eventstream items g' X') as (sent & -> & S).
        eexists. split; [reflexivity|]. do 2 right; left. rewrite A in S. destruct S as [->|(msg' & ->)]; [apply closes_dest|].
        apply (closes_app _ _ [_]), transport_closes.
      * destruct (IH g' X') as (sent & P & H). rewrite A, Dl, C in H by done.
        exists (match push with Forward chunk => chunk :: sent | Hold => sent end).
        split; [by destruct push; rewrite P|].
        destruct H as [T|[R|[K|[S (chunks & out & -> & -> & J)]]]].
        -- destruct (D eq_refl T) as [?|[N|N]]; [by left|right; left|right; left]; by rewrite N, ?orb_true_r.
        -- right; left. by rewrite R, orb_true_r.
        -- do 2 right; left. destruct push as [|chunk]; [done|]. by apply (closes_app _ _ [chunk]).
        -- destruct (E S) as (S' & Hd & [= ->]). do 3 right. split; [done|]. exists (bytes :: chunks), out.
           split_and!; [done|done|]. rewrite Hd in J. cbn [concat]. by rewrite app_assoc.
    + destruct (sg_saw_frame _) eqn:S; simpl_fields_in S.
      { eexists. split; [done|]. do 2 right; left. simpl_fields. apply closes_one. }
      destruct (negb _).
      { eexists. split; [done|]. do 2 right; left. simpl_fields. apply closes_one. }
      destruct (IH (g <| sg_reader := u |> <| sg_held := sg_held (g <| sg_reader := u |>) ++ bytes |>)) as (sent & P & H);
        [by simpl_fields|].
      exists sent. split; [done|]. simpl_fields_in H.
      destruct H as [T|[R|[K|[_ (chunks & out & -> & -> & J)]]]]; [by left|by right; left|by do 2 right; left|].
      do 3 right. split; [done|]. exists (bytes :: chunks), out. split_and!; [done|done|]. cbn [concat]. by rewrite app_assoc.
  - cbn [pass_chunks]. eexists. split; [done|]. do 2 right; left. apply transport_closes.
Qed.

(** C26. No end is made up on one wire: whatever the upstream sends, the proxy
    returns, and unless the reader gave a frame that ends the answer, what is
    sent ends with an error, or the body came whole as a JSON completion and
    its stream is all that is sent. *)
Theorem same_wire_ends_honestly from dialect content_type items :
  exists sent, passthrough_sse parse_error slice_error debug from dialect content_type items = Some sent
    /\ (reads_end from items (for_wire from) = true
        \/ closes_with_error from (str_contains "eventstream" content_type) sent
        \/ exists chunks events bytes, items = map Ok chunks /\ sent = [bytes] /\ events <> []
             /\ decode_response parse_error slice_error dialect from (concat chunks) = Ok events
             /\ json_completion_to_sse parse_error slice_error debug from from (concat chunks) dialect "" = Some bytes).
Proof.
  destruct (pass_chunks_honest (str_contains "eventstream" content_type) items (gate_new from dialect) eq_refl)
    as (sent & P & H).
  exists sent. split; [done|]. destruct H as [H|[H|[H|[_ (chunks & bytes & E & S & J)]]]]; [done|by left|by right; left|].
  do 2 right. cbn [gate_new sg_from sg_dialect sg_held app] in *. pose proof J as J'. unfold json_completion_to_sse in J'.
  destruct (decode_response _ _ _ from (concat chunks)) as [[|ev events]|] eqn:D; [done| |done].
  by exists chunks, (ev :: events), bytes.
Qed.



(** ** After a vendor error *)

(** Once an error of the vendor was read, a frame is sent only if it is not
    [[DONE]]: nothing behind the error makes the answer look finished. *)
Lemma rewrite_frames_out frames g :
  (rewrite_frames frames g).1
  = concat (map (fun raw => bytes_of_str (format_sse raw)) (List.filter (fun raw => negb (sse_done_frame raw)) frames)).
Proof.
  revert g. induction frames as [|raw frames IH]; intros g; [done|]. cbn [rewrite_frames List.filter].
  destruct (sse_done_frame raw); cbn [negb]; [apply IH|]. specialize (IH (note_terminal raw g)).
  destruct (rewrite_frames frames _) as [out g']. cbn [fst] in *. by rewrite IH.
Qed.

Lemma failed_frame_before from dialect frames before msg :
  failed_frame parse_error from dialect frames = Some (before, msg) -> exists rest, frames = before ++ rest.
Proof.
  revert before. induction frames as [|raw frames IH]; intros before; [done|]. cbn [failed_frame].
  destruct (responses_failed_vendor_error _ _ _ _); [intros [= <- <-]; by eexists|].
  destruct (failed_frame _ _ _ frames) as [[b m]|]; [|done]. cbn. intros [= <- <-].
  destruct (IH b eq_refl) as (rest & ->). by exists rest.
Qed.

Definition error_bytes (from : Wire) (eventstream : bool) (e : list u8) : Prop :=
  exists msg, e = dest_error_bytes from msg \/ e = transport_error_bytes from eventstream msg.

(** Frames of the upstream without [[DONE]], and then perhaps errors. *)
Definition only_frames (from : Wire) (eventstream : bool) (sent : list (list u8)) : Prop :=
  exists frames errors, concat sent = concat (map (fun raw => bytes_of_str (format_sse raw)) frames) ++ concat errors
    /\ Forall (fun raw => sse_done_frame raw = false) frames /\ Forall (error_bytes from eventstream) errors.

Lemma error_bytes_dest from eventstream msg : error_bytes from eventstream (dest_error_bytes from msg).
Proof. exists msg. by left. Qed.

Lemma error_bytes_transport from eventstream msg : error_bytes from eventstream (transport_error_bytes from eventstream msg).
Proof. exists msg. by right. Qed.

Lemma undone frames : Forall (fun raw => sse_done_frame raw = false) (List.filter (fun raw => negb (sse_done_frame raw)) frames).
Proof. apply List.Forall_forall. intros raw [_ H]%filter_In. by destruct (sse_done_frame raw). Qed.

Lemma only_frames_app from eventstream frames xs sent :
  Forall (fun raw => sse_done_frame raw = false) frames ->
  concat xs = concat (map (fun raw => bytes_of_str (format_sse raw)) frames) ->
  only_frames from eventstream sent -> only_frames from eventstream (xs ++ sent).
Proof.
  intros F X (fs & es & E & G & H). exists (frames ++ fs), es. split_and!; [|by apply Forall_app|done].
  by rewrite concat_app, X, E, map_app, concat_app, app_assoc.
Qed.

Lemma only_errors from eventstream errors :
  Forall (error_bytes from eventstream) errors -> only_frames from eventstream errors.
Proof. intros H. by exists [], errors. Qed.

Lemma only_frames_error from eventstream msg : only_frames from eventstream [dest_error_bytes from msg].
Proof. apply only_errors. constructor; [apply error_bytes_dest|done]. Qed.

Lemma only_frames_nil from eventstream : only_frames from eventstream [].
Proof. by apply only_errors. Qed.

(** The gate after a vendor error. *)
Record after_error (g : SameWireGate) : Prop := {
  ae_error : sg_saw_vendor_error g = true;
  ae_frame : sg_saw_frame g = true;
  ae_held : sg_held g = [];
  ae_sse : match sg_reader g with FramesSse _ => True | FramesEvent _ => False end
}.

Lemma rewrite_frames_keeps frames g :
  let g' := (rewrite_frames frames g).2 in
  sg_saw_vendor_error g' = sg_saw_vendor_error g /\ sg_held g' = sg_held g.
Proof.
  cbv zeta. revert g. induction frames as [|raw frames IH]; intros g; [done|]. cbn [rewrite_frames].
  destruct (sse_done_frame raw); [apply IH|]. destruct (IH (note_terminal raw g)) as [A B].
  destruct (rewrite_frames frames _) as [out g']. cbn [snd] in *. unfold note_terminal in *.
  destruct (_ || _); simpl_fields_in A; by simpl_fields_in B.
Qed.

(** What a chunk sends that has an error, or comes after one. *)
Record error_chunk (g g' : SameWireGate) (push : SameWirePush) : Prop := {
  ec_from : sg_from g' = sg_from g;
  ec_after : sg_drop_rest g' = false -> after_error g';
  ec_sent : exists fs e, (match push with Hold => [] | Forward out => out end)
      = concat (map (fun raw => bytes_of_str (format_sse raw)) fs) ++ e
    /\ Forall (fun raw => sse_done_frame raw = false) fs
    /\ (e = [] \/ sg_drop_rest g' = true /\ exists msg, e = dest_error_bytes (sg_from g) msg)
}.

Lemma error_frames bytes frames g :
  match sg_reader g with FramesSse _ => True | FramesEvent _ => False end ->
  sg_drop_rest g = false -> after_error g \/ existsb wraps_error frames = true ->
  exists g' push, gate_frames parse_error bytes frames None g = (g', Ok push) /\ error_chunk g g' push.
Proof.
  intros R X W. unfold gate_frames. destruct (failed_frame _ _ _ frames) as [[before msg]|].
  { pose proof (rewrite_frames_state before g) as (A & _). pose proof (rewrite_frames_out before g) as O.
    destruct (rewrite_frames before g) as [out g2]. cbn [fst snd] in *. eexists _, _. split; [reflexivity|].
    split; simpl_fields; [done|done|]. rewrite A, O. eexists _, _. split; [reflexivity|]. split; [apply undone|].
    right. split; [done|]. by exists msg. }
  assert (N : wire_eqb (sg_from g) Responses && negb (sg_saw_vendor_error g) && frames_has_open_frame (sg_reader g)
         && negb (bool_decide (frames = [])) && negb (existsb wraps_error frames) = false).
  { destruct W as [[-> _ _ _]| ->]; cbn [negb]; by rewrite ?andb_false_r. }
  rewrite N. cbn [is_some]. clear N. destruct (bool_decide (frames = [])) eqn:N.
  { apply bool_decide_eq_true in N as ->. destruct W as [[V S H Rd]|?]; [|done]. rewrite S, V. cbn [negb].
    eexists _, _. split; [reflexivity|]. split; [done|done|]. exists [], []. split_and!; [done|done|by left]. }
  assert (E : sg_saw_vendor_error (if existsb wraps_error frames then g <| sg_saw_vendor_error := true |> else g) = true).
  { destruct (existsb wraps_error frames); [by simpl_fields|]. by destruct W as [[? _ _ _]|?]. }
  rewrite E. set (g2 := (if existsb wraps_error frames then _ else g) <| sg_saw_frame := true |> <| sg_held := [] |>).
  assert (F2 : sg_from g2 = sg_from g /\ sg_saw_vendor_error g2 = true /\ sg_saw_frame g2 = true
    /\ sg_held g2 = [] /\ sg_reader g2 = sg_reader g).
  { unfold g2. simpl_fields. rewrite E. by destruct (existsb _ _); simpl_fields. }
  clearbody g2. destruct F2 as (H1 & H3 & H4 & H5 & H6).
  pose proof (rewrite_frames_state frames g2) as (A & _ & B & C & D & _).
  pose proof (rewrite_frames_keeps frames g2) as [K L]. pose proof (rewrite_frames_out frames g2) as O.
  destruct (rewrite_frames frames g2) as [out g3]. cbn [fst snd] in *. eexists _, _. split; [reflexivity|].
  split; [by rewrite A|intros _; split; [by rewrite K|by rewrite D|by rewrite L|by rewrite B, H6]|].
  eexists _, []. rewrite O, app_nil_r. split; [reflexivity|]. split; [apply undone|by left].
Qed.

Lemma not_done_prefix raw : done_frame_prefix raw = false -> sse_done_frame raw = false.
Proof.
  unfold done_frame_prefix, sse_done_frame. destruct (String.eqb_spec (trim (raw_data raw)) "[DONE]") as [E|]; [|done].
  by rewrite E.
Qed.

Lemma after_error_finish eventstream g :
  after_error g -> sg_drop_rest g = false ->
  only_frames (sg_from g) eventstream (sent_end (sg_from g) (gate_finish parse_error slice_error debug g)).
Proof.
  intros [V S H R] X. unfold gate_finish. rewrite X.
  assert (Cl : forall g' tail, sg_saw_frame g' = true -> (tail = [] \/ exists raw, done_frame_prefix raw = false /\ tail = bytes_of_str (format_sse raw)) ->
    only_frames (sg_from g) eventstream (sent_end (sg_from g) (gate_close parse_error slice_error debug tail g'))).
  { intros g' tail S' T. unfold gate_close. rewrite S'. cbn [negb].
    assert (K : forall sent, only_frames (sg_from g) eventstream sent ->
              only_frames (sg_from g) eventstream (match tail with [] => [] | _ => [tail] end ++ sent)).
    { intros sent. destruct T as [->|(raw & D & ->)]; [done|]. apply (only_frames_app _ _ [raw]).
      - constructor; [by apply not_done_prefix|done].
      - rewrite concat_sent_tail. cbn [map concat]. by rewrite app_nil_r. }
    destruct (sg_saw_terminal g'); cbn [negb sent_end].
    - rewrite <- (app_nil_r (match tail with [] => [] | _ => [tail] end)). apply K, only_frames_nil.
    - apply K, only_frames_error. }
  destruct ((frames_finish (sg_reader g)).2) as [[raw|]|err].
  - simpl_fields. destruct (responses_failed_vendor_error _ _ _ _); [apply only_frames_error|]. rewrite V, H. cbn [app].
    apply Cl.
    + unfold note_terminal. destruct (_ || _); by simpl_fields.
    + destruct (done_frame_prefix raw) eqn:D; cbn [negb andb]; [by left|]. right. by exists raw.
  - rewrite H. apply Cl; [done|by left].
  - rewrite S, H. cbn [negb sent_end app]. apply only_frames_error.
Qed.

Lemma after_chunk eventstream items g g' push rest :
  error_chunk g g' push ->
  (after_error g' -> sg_drop_rest g' = false ->
   pass_chunks parse_error slice_error debug eventstream items g' = Some rest -> only_frames (sg_from g') eventstream rest) ->
  pass_chunks parse_error slice_error debug eventstream items g' = Some rest ->
  only_frames (sg_from g) eventstream (match push with Hold => rest | Forward out => out :: rest end).
Proof.
  intros [F A (fs & e & O & U & E)] IH P. rewrite F in IH. destruct (sg_drop_rest g') eqn:X.
  - destruct (dropped_chunks eventstream items g' X) as (rest' & P' & R). rewrite P in P'. injection P' as <-. rewrite F in R.
    assert (Er : Forall (error_bytes (sg_from g) eventstream) (match e with [] => [] | _ => [e] end ++ rest)).
    { apply Forall_app. split.
      - destruct E as [->|[_ (msg & ->)]]; [done|]. destruct (dest_error_bytes _ msg) eqn:M; [done|].
        rewrite <- M. constructor; [apply error_bytes_dest|done].
      - destruct R as [->|(msg & ->)]; [done|]. constructor; [apply error_bytes_transport|done]. }
    exists fs, (match e with [] => [] | _ => [e] end ++ rest). split; [|by split].
    rewrite concat_app, concat_sent_tail, app_assoc, <- O. by destruct push.
  - destruct E as [->|[? _]]; [|done]. rewrite app_nil_r in O. specialize (IH (A eq_refl) eq_refl P).
    destruct push as [|out]; [done|].
    apply (only_frames_app _ _ fs [out]); [done| |done]. cbn [concat]. by rewrite app_nil_r.
Qed.

(** A gate whose chunk has an error, or that had one before. *)
Lemma error_chunks eventstream items g bytes sent :
  after_error g \/ (exists r u frames, sg_reader g = FramesSse r /\ frames_feed (sg_reader g) bytes = Some (u, Ok (frames, None))
                   /\ existsb wraps_error frames = true) ->
  sg_drop_rest g = false ->
  (forall g' rest, after_error g' -> sg_drop_rest g' = false ->
     pass_chunks parse_error slice_error debug eventstream items g' = Some rest -> only_frames (sg_from g') eventstream rest) ->
  pass_chunks parse_error slice_error debug eventstream (Ok bytes :: items) g = Some sent ->
  only_frames (sg_from g) eventstream sent.
Proof.
  intros W X IH. cbn [pass_chunks]. unfold gate_push. rewrite X.
  destruct (negb _ && _); [cbn [mbind option_bind]; intros [= <-]; apply only_frames_error|].
  assert (exists r, sg_reader g = FramesSse r) as [r Rd].
  { destruct W as [[_ _ _ R]|(r & _ & _ & R & _)]; [|by exists r]. destruct (sg_reader g) as [r|]; [by exists r|done]. }
  rewrite Rd in *. cbn [frames_feed] in *. destruct (feed r bytes) as [r' [frames|err]] eqn:Fd; cbn [rmap mbind option_bind] in *.
  - destruct (error_frames bytes frames (g <| sg_reader := FramesSse r' |>)) as (g' & push & E & C).
    { by simpl_fields. }
    { by simpl_fields. }
    { destruct W as [[V S H _]|(_ & u & fs & _ & [= _ <-] & ?)]; [left|by right]. by split; simpl_fields. }
    rewrite E. cbn [mbind option_bind]. intros P.
    assert (exists rest, pass_chunks parse_error slice_error debug eventstream items g' = Some rest
      /\ sent = match push with Hold => rest | Forward out => out :: rest end) as (rest & P' & ->).
    { destruct push; [by exists sent|]. destruct (pass_chunks _ _ _ _ items g') as [rest|]; [|done].
      injection P as <-. by exists rest. }
    pose proof (after_chunk eventstream items _ g' push rest C (IH g' rest) P') as K. by simpl_fields_in K.
  - destruct W as [[V S H _]|(_ & u & fs & _ & ? & _)]; [|done]. simpl_fields. rewrite S.
    cbn [mbind option_bind]. intros [= <-]. simpl_fields. apply only_frames_error.
Qed.

Lemma after_error_chunks eventstream items g sent :
  after_error g -> sg_drop_rest g = false ->
  pass_chunks parse_error slice_error debug eventstream items g = Some sent -> only_frames (sg_from g) eventstream sent.
Proof.
  revert g sent. induction items as [|[bytes|msg] items IH]; intros g sent A X P.
  - cbn [pass_chunks] in P. injection P as <-. by apply after_error_finish.
  - eapply error_chunks; [by left|done| |exact P]. intros g' rest. apply IH.
  - cbn [pass_chunks] in P. injection P as <-. apply only_errors. constructor; [apply error_bytes_transport|done].
Qed.

(** A vendor error is final on one wire: from the chunk in which a frame wraps
    an error, and in whatever state the gate is, all that is sent are frames of
    the upstream other than [[DONE]] and error events, so no terminator behind
    the error, split over chunks or not, makes the answer look finished. *)
Theorem vendor_error_is_final eventstream items g r bytes u frames sent :
  sg_reader g = FramesSse r -> sg_drop_rest g = false ->
  frames_feed (FramesSse r) bytes = Some (u, Ok (frames, None)) -> existsb wraps_error frames = true ->
  pass_chunks parse_error slice_error debug eventstream (Ok bytes :: items) g = Some sent ->
  only_frames (sg_from g) eventstream sent.
Proof.
  intros R X Fd W. apply error_chunks; [|done|intros g1 rest A1 X1 P1; by eapply after_error_chunks].
  right. exists r, u, frames. by rewrite R.
Qed.
End Honest.

(** ** Witnesses *)
Section Witnesses.
#[local] Existing Instance bits_codec.

Definition no_slice (l : list u8) : string := "".

Definition copied (from : Wire) (chunks : list (list u8)) : option (list (list u8)) :=
  passthrough_sse no_text no_slice no_debug from (sample_dialect from) "text/event-stream" (map Ok chunks).


Definition error_chunk_bytes : list u8 :=
  bytes_of_str (format_sse (mkRawSse None (to_string (jobj [("error", jobj [("message", JStr "overloaded")])])))).

Definition error_gate : SameWireGate := gate_new ChatCompletions (sample_dialect ChatCompletions).

Definition error_sent : list (list u8) :=
  unwrap_or (pass_chunks no_text no_slice no_debug false [Ok error_chunk_bytes; Ok (bytes_of_str "data: [D"); Ok (bytes_of_str ("ONE]" +:+ nl_str +:+ nl_str))] error_gate) [].

Lemma vendor_error_is_final_witness : only_frames ChatCompletions false error_sent.
Proof.
  apply (vendor_error_is_final no_text no_slice no_debug false
           [Ok (bytes_of_str "data: [D"); Ok (bytes_of_str ("ONE]" +:+ nl_str +:+ nl_str))] error_gate reader_new error_chunk_bytes
           (FramesSse (feed reader_new error_chunk_bytes).1)
           (match (feed reader_new error_chunk_bytes).2 with Ok frames => frames | Err _ => [] end));
    vm_compute; reflexivity.
Defined.

(** On the Responses wire the part of a comment that a chunk cuts off is held
    back and put in front of a later chunk, although the end of the comment is
    sent on at once: the client reads the next line as part of the comment. *)
Definition cut_comment : list (list u8) :=
  [bytes_of_str ("data: a" +:+ nl_str +:+ nl_str +:+ ": pi"); bytes_of_str ("ng" +:+ nl_str);
   bytes_of_str ("data: b" +:+ nl_str +:+ nl_str);
   bytes_of_str ("event: response.completed" +:+ nl_str +:+ "data: {}" +:+ nl_str +:+ nl_str)].

Definition data_read (body : list u8) : list string :=
  match (feed reader_new body).2 with Ok frames => map raw_data frames | Err _ => [] end.

Lemma cut_comment_swallows_frame :
  data_read (concat cut_comment) = ["a"; "b"; "{}"]
  /\ option_map (fun sent => data_read (concat sent)) (copied Responses cut_comment) = Some ["a"; "{}"].
Proof. vm_compute. split; reflexivity. Qed.
End Witnesses.
