(* ===== verification/Guard.v ===== *)
(** * Guard: which requests the proxy serves at all

    crates/wiremux/src/proxy.rs: the proxy listens on the loopback address
    without asking for a credential, so a page of a browser must not reach it.
    [request_guard] looks at the Host, the Origin, the site and the content
    type of a request; [same_wire_success_rejection] at the type of an answer
    that is passed through. *)

From S2P Require Import Prelude Text Json.

(** ** Text of a header *)

(** [rsplit_once] *)
Definition rsplit_once (c : ascii) (s : string) : option (string * string) :=
  match split_once c (str_rev s) with Some (after, before) => Some (str_rev before, str_rev after) | None => None end.

(** [split(c).next()] *)
Definition split_first (c : ascii) (s : string) : string :=
  match split_once c s with Some (first, _) => first | None => s end.

Definition is_port (port : string) : bool := negb (is_empty port) && forallb is_ascii_digit (bytes_of_str port).

(** ** The Host *)
Definition host_is_loopback (host : string) : bool :=
  let host := trim host in
  if is_empty host then false
  else if String.eqb host "::1" then true
  else
    match strip_prefix "[" host with
    | Some rest =>
        match split_once "]" rest with
        | None => false
        | Some (addr, after) =>
            if negb (String.eqb addr "::1") then false
            else match strip_prefix ":" after with Some port => is_port port | None => is_empty after end
        end
    | None =>
        let name :=
          match rsplit_once ":" host with
          | Some (name, port) => if negb (is_empty name) && is_port port then name else host
          | None => host
          end in
        String.eqb name "127.0.0.1" || eq_ignore_ascii_case name "localhost"
    end.

Definition is_json_content_type (value : string) : bool :=
  eq_ignore_ascii_case (trim (split_first ";" value)) "application/json".

(** ** A request *)

(** The headers of a request: names in lower case, and a value as text when it
    is visible ASCII. *)
Definition HeaderMap : Type := list (string * option string).

Record Request := mkRequest {
  rq_method : string;
  rq_path : string;
  rq_query : option string;
  rq_headers : HeaderMap;
  rq_body : list (result string (list u8))
}.

(** [headers().get(name)], and its text. *)
Definition header_get (name : string) (headers : HeaderMap) : option (option string) :=
  snd <$> List.find (fun h => String.eqb h.1 name) headers.
Definition header_text (name : string) (headers : HeaderMap) : option string := mjoin (header_get name headers).

(** A response with its body in one piece. *)
Record Reply := mkReply { re_status : Z; re_type : string; re_body : list u8 }.

Definition text_reply (status : Z) (body : string) : Reply :=
  mkReply status "text/plain; charset=utf-8" (bytes_of_str body).

Definition bytes_response (status : Z) (content_type : string) (body : list u8) : Reply :=
  mkReply status (if is_empty content_type then "application/json" else content_type) body.

Definition request_guard (req : Request) (post : bool) : option Reply :=
  let headers := rq_headers req in
  if negb (host_is_loopback (unwrap_or (header_text "host" headers) "")) then Some (text_reply 403 ("forbidden host" +:+ nl_str))
  else if is_some (header_get "origin" headers) then Some (text_reply 403 ("forbidden origin" +:+ nl_str))
  else if is_some_and (header_text "sec-fetch-site" headers) (fun site => eq_ignore_ascii_case site "cross-site")
  then Some (text_reply 403 ("forbidden site" +:+ nl_str))
  else if post && negb (is_json_content_type (unwrap_or (header_text "content-type" headers) ""))
  then Some (text_reply 415 ("json required" +:+ nl_str))
  else None.

(** ** An answer that is passed through *)
Definition ascii_space (a : ascii) : bool := byte_in 9 10 a || byte_in 12 13 a || byte_in 32 32 a.

(** [trim_ascii_start] *)
Fixpoint trim_ascii_start (l : list u8) : list u8 :=
  match l with
  | a :: t => if ascii_space a then trim_ascii_start t else l
  | [] => []
  end.

Definition same_wire_success_is_json (content_type : string) (body : list u8) : bool :=
  if negb (is_empty content_type) && negb (is_json_content_type content_type) then false
  else match trim_ascii_start body with a :: _ => Ascii.eqb a "{" || Ascii.eqb a "[" | [] => false end.

Definition same_wire_success_rejection (content_type : string) (body : list u8) : option string :=
  if same_wire_success_is_json content_type body then None
  else if negb (is_empty content_type) && negb (is_json_content_type content_type)
  then Some ("upstream success content type is not application/json" +:+ nl_str)
  else Some ("upstream success body is not a JSON object or array" +:+ nl_str).

(** ** Which hosts are accepted *)

(** The names of the loopback host, without and with a port. *)
Definition loopback_name (name : string) : Prop := name = "127.0.0.1" \/ to_ascii_lowercase name = "localhost".

Inductive loopback_authority : string -> Prop :=
| loopback_bare_v6 : loopback_authority "::1"
| loopback_v6 : loopback_authority "[::1]"
| loopback_v6_port port : is_port port = true -> loopback_authority ("[::1]:" +:+ port)
| loopback_host name : loopback_name name -> loopback_authority name
| loopback_host_port name port :
    loopback_name name -> is_port port = true -> loopback_authority (name +:+ ":" +:+ port).

Lemma eq_ignore_case_lower s t : eq_ignore_ascii_case s t = true <-> to_ascii_lowercase s = to_ascii_lowercase t.
Proof. unfold eq_ignore_ascii_case. apply String.eqb_eq. Qed.

Lemma loopback_name_test name :
  String.eqb name "127.0.0.1" || eq_ignore_ascii_case name "localhost" = true <-> loopback_name name.
Proof. unfold loopback_name. rewrite orb_true_iff, String.eqb_eq, eq_ignore_case_lower. done. Qed.

Lemma contains_char_rev c s : contains_char c (str_rev s) = contains_char c s.
Proof.
  induction s as [|a s IH]; [done|]. rewrite str_rev_cons, contains_char_app, IH. cbn [contains_char].
  rewrite orb_false_r. apply orb_comm.
Qed.

Lemma rsplit_once_Some c s x y : rsplit_once c s = Some (x, y) -> s = x +:+ String c y /\ contains_char c y = false.
Proof.
  unfold rsplit_once. destruct (split_once c (str_rev s)) as [[after before]|] eqn:E; [|done]. intros [= <- <-].
  apply split_once_Some in E as [E N]. split.
  - rewrite <- (str_rev_involutive s), E, str_rev_concat, str_rev_cons. by rewrite str_app_assoc.
  - by rewrite contains_char_rev.
Qed.

Lemma rsplit_once_app c x y : contains_char c y = false -> rsplit_once c (x +:+ String c y) = Some (x, y).
Proof.
  intros N. unfold rsplit_once. rewrite str_rev_concat, str_rev_cons, str_app_assoc.
  change (String c "" +:+ str_rev x) with (String c (str_rev x)).
  rewrite split_once_app by (by rewrite contains_char_rev). by rewrite !str_rev_involutive.
Qed.

Lemma rsplit_once_None c s : contains_char c s = false -> rsplit_once c s = None.
Proof.
  intros N. destruct (rsplit_once c s) as [[x y]|] eqn:E; [|done]. apply rsplit_once_Some in E as [-> _].
  rewrite contains_char_app in N. cbn [contains_char] in N. by rewrite Ascii.eqb_refl, orb_true_r in N.
Qed.

Lemma port_no_colon c port : is_ascii_digit c = false -> is_port port = true -> contains_char c port = false.
Proof.
  intros D [_ P]%andb_true_iff. rewrite contains_char_bytes. apply not_true_iff_false. intros [a [I E]]%existsb_exists.
  apply Ascii.eqb_eq in E as <-. rewrite forallb_forall in P. specialize (P _ I). congruence.
Qed.

Lemma lower_contains c s : to_lower c = c -> contains_char c s = true -> contains_char c (to_ascii_lowercase s) = true.
Proof.
  intros L. induction s as [|a s IH]; [done|]. cbn [contains_char to_ascii_lowercase].
  intros [->%Ascii.eqb_eq|H]%orb_true_iff; [by rewrite L, Ascii.eqb_refl|]. by rewrite IH, orb_true_r.
Qed.

(** A loopback name has neither a colon nor a bracket. *)
Lemma loopback_name_no c name : c = ":"%char \/ c = "["%char -> loopback_name name -> contains_char c name = false.
Proof.
  intros C N. apply not_true_iff_false. intros H. apply lower_contains in H; [|by destruct C as [->| ->]].
  destruct N as [->|N]; [by destruct C as [->| ->]|]. rewrite N in H. by destruct C as [->| ->].
Qed.

Lemma loopback_name_nonempty name : loopback_name name -> is_empty name = false.
Proof. by destruct name; intros [?|?]. Qed.

Lemma strip_bracket_None s : contains_char "[" s = false -> strip_prefix "[" s = None.
Proof.
  destruct s as [|a s]; [done|]. cbn [contains_char strip_prefix]. intros [H _]%orb_false_iff.
  destruct (Ascii.eqb_spec "[" a) as [<-|]; [|done]. by rewrite Ascii.eqb_refl in H.
Qed.

Lemma host_name_case host :
  is_empty host = false -> host <> "::1" -> strip_prefix "[" host = None ->
  (let name := match rsplit_once ":" host with
               | Some (name, port) => if negb (is_empty name) && is_port port then name else host
               | None => host
               end in
   String.eqb name "127.0.0.1" || eq_ignore_ascii_case name "localhost" = true)
  <-> (loopback_name host \/ exists name port, host = name +:+ ":" +:+ port /\ loopback_name name /\ is_port port = true).
Proof.
  intros Ne N6 Nb. cbv zeta. rewrite loopback_name_test. destruct (rsplit_once ":" host) as [[name port]|] eqn:E.
  - destruct (rsplit_once_Some _ _ _ _ E) as [-> C]. destruct (negb (is_empty name) && is_port port) eqn:P.
    + apply andb_true_iff in P as [_ P]. split.
      * intros H. right. by exists name, port.
      * intros [H|(name' & port' & E' & H & P')].
        -- apply (loopback_name_no ":") in H; [|by left]. rewrite contains_char_app in H. cbn [contains_char] in H.
           by rewrite Ascii.eqb_refl, orb_true_r in H.
        -- change (name' +:+ ":" +:+ port') with (name' +:+ String ":" port') in E'. rewrite E' in E.
           rewrite rsplit_once_app in E by (by apply port_no_colon). by injection E as -> ->.
    + split; [by left|]. intros [H|(name' & port' & E' & H & P')]; [done|].
      change (name' +:+ ":" +:+ port') with (name' +:+ String ":" port') in E'. rewrite E' in E.
      rewrite rsplit_once_app in E by (by apply port_no_colon). injection E as -> ->.
      by rewrite P', (loopback_name_nonempty _ H) in P.
  - split; [by left|]. intros [H|(name' & port' & E' & H & P')]; [done|]. subst host.
    change (name' +:+ ":" +:+ port') with (name' +:+ String ":" port') in E.
    by rewrite rsplit_once_app in E by (by apply port_no_colon).
Qed.

Lemma strip_prefix_none p s t : strip_prefix p s = None -> s <> p +:+ t.
Proof. intros E ->. by rewrite strip_prefix_app in E. Qed.

(** A loopback name, alone or with a port. *)
Definition named_host (h : string) : Prop :=
  loopback_name h \/ exists name port, h = name +:+ ":" +:+ port /\ loopback_name name /\ is_port port = true.

Lemma authority_cases h :
  loopback_authority h <->
  h = "::1" \/ (exists rest, h = String "[" rest /\ (rest = "::1]" \/ exists port, rest = "::1]:" +:+ port /\ is_port port = true))
  \/ named_host h.
Proof.
  split.
  - intros [| |port P|name L|name port L P]; [by left| | | |]; right.
    + left. exists "::1]". split; [done|by left].
    + left. exists ("::1]:" +:+ port). split; [done|right; by exists port].
    + right. by left.
    + right. right. by exists name, port.
  - intros [->|[(rest & -> & [->|(port & -> & P)])|[L|(name & port & -> & L & P)]]].
    + constructor.
    + apply loopback_v6.
    + by apply (loopback_v6_port port).
    + by apply loopback_host.
    + by apply loopback_host_port.
Qed.

Lemma named_no_bracket rest : named_host (String "[" rest) -> False.
Proof.
  assert (N : forall n, loopback_name (String "[" n) -> False).
  { intros n L. apply (loopback_name_no "[") in L; [done|by right]. }
  intros [L|([|a n] & port & E & L & P)]; [by eapply N|by apply loopback_name_nonempty in L|].
  rewrite str_app_cons in E. assert (a = "["%char) as -> by congruence. by eapply N.
Qed.

Lemma split_once_bracket addr after rest :
  split_once "]" rest = Some (addr, after) ->
  (rest = "::1]" <-> addr = "::1" /\ after = "")
  /\ forall port, rest = "::1]:" +:+ port <-> addr = "::1" /\ after = ":" +:+ port.
Proof.
  intros S. destruct (split_once_Some _ _ _ _ S) as [E _]. split; [|intros port]; split.
  - intros ->. cbn in S. by injection S as <- <-.
  - intros [-> ->]. done.
  - intros ->. cbn in S. by injection S as <- <-.
  - intros [-> ->]. done.
Qed.

(** The accepted hosts are the loopback authorities and no other text: no name
    that resolves to the loopback address, no trailing dot, no other spelling
    of the address. *)
Lemma host_is_loopback_iff host : host_is_loopback host = true <-> loopback_authority (trim host).
Proof.
  unfold host_is_loopback. set (h := trim host). clearbody h. rewrite authority_cases.
  destruct (is_empty h) eqn:Ne.
  { destruct h; [|done]. split; [done|]. intros [H|[(rest & H & _)|[L|([] & port & E & L & P)]]]; try done;
      by apply loopback_name_nonempty in L. }
  destruct (String.eqb_spec h "::1") as [->|N6]; [split; [by left|done]|].
  destruct (strip_prefix "[" h) as [rest|] eqn:B.
  - apply strip_prefix_Some in B as ->. change ("[" +:+ rest) with (String "[" rest).
    assert (A : forall P : Prop, (String "[" rest = "::1" \/ (exists r, String "[" rest = String "[" r /\ (r = "::1]" \/ exists port, r = "::1]:" +:+ port /\ is_port port = true)) \/ named_host (String "[" rest))
              <-> (rest = "::1]" \/ exists port, rest = "::1]:" +:+ port /\ is_port port = true)).
    { intros _. split.
      - intros [?|[(r & E & H)|H]]; [done| |by apply named_no_bracket in H]. by injection E as <-.
      - intros H. right; left. by exists rest. }
    rewrite (A True). destruct (split_once "]" rest) as [[addr after]|] eqn:S.
    + destruct (split_once_bracket _ _ _ S) as [E1 E2].
      assert (E : (rest = "::1]" \/ exists port, rest = "::1]:" +:+ port /\ is_port port = true)
                  <-> addr = "::1" /\ (after = "" \/ exists port, after = ":" +:+ port /\ is_port port = true)).
      { rewrite E1. setoid_rewrite E2. naive_solver. }
      rewrite E. destruct (String.eqb_spec addr "::1") as [->|Na]; cbn [negb]; [|naive_solver].
      destruct (strip_prefix ":" after) as [port|] eqn:P.
      * apply strip_prefix_Some in P as ->. split; [intros; split; [done|right; by exists port]|].
        intros [_ [?|(p & Ep & Hp)]]; [done|]. change (String ":" port = String ":" p) in Ep. by injection Ep as <-.
      * split; [destruct after; [intros; split; [done|by left]|done]|].
        intros [_ [->|(p & -> & _)]]; [done|]. by rewrite strip_prefix_app in P.
    + split; [done|]. intros [->|(port & -> & _)]; done.
  - rewrite host_name_case by done. split; [intros H; right; right; exact H|].
    intros [?|[(rest & -> & _)|H]]; [done| |exact H]. pose proof (strip_prefix_app "[" rest) as P. change ("[" +:+ rest) with (String "[" rest) in P. congruence.
Qed.

(** ** What the guard lets through *)

(** C32. A request that the guard lets through names the loopback host in its first
    Host header, comes from no page of another site, and a POST carries JSON:
    these are the only conditions. *)
Theorem guard_admits req post :
  request_guard req post = None <->
  loopback_authority (trim (unwrap_or (header_text "host" (rq_headers req)) ""))
  /\ Forall (fun h => h.1 <> "origin") (rq_headers req)
  /\ (forall site, header_text "sec-fetch-site" (rq_headers req) = Some site -> to_ascii_lowercase site <> "cross-site")
  /\ (post = true -> to_ascii_lowercase (trim (split_first ";" (unwrap_or (header_text "content-type" (rq_headers req)) "")))
                     = "application/json").
Proof.
  unfold request_guard. rewrite <- host_is_loopback_iff.
  assert (O : is_some (header_get "origin" (rq_headers req)) = false <-> Forall (fun h => h.1 <> "origin") (rq_headers req)).
  { unfold header_get. induction (rq_headers req) as [|[n v] l IH]; [done|]. cbn [List.find fst].
    rewrite Forall_cons, <- IH. cbn [fst]. destruct (String.eqb_spec n "origin"); naive_solver. }
  rewrite <- O. unfold is_json_content_type.
  destruct (host_is_loopback _); cbn [negb]; [|naive_solver].
  destruct (is_some (header_get _ _)); [naive_solver|].
  assert (Si : is_some_and (header_text "sec-fetch-site" (rq_headers req)) (fun site => eq_ignore_ascii_case site "cross-site") = false
    <-> forall site, header_text "sec-fetch-site" (rq_headers req) = Some site -> to_ascii_lowercase site <> "cross-site").
  { destruct (header_text _ _) as [site|]; [|done]. cbn [is_some_and]. split.
    - intros E s [= <-] H. apply not_true_iff_false in E. apply E. by apply eq_ignore_case_lower.
    - intros H. apply not_true_iff_false. rewrite eq_ignore_case_lower. by apply H. }
  rewrite <- Si. destruct (is_some_and _ _); [naive_solver|].
  set (ct := trim _). clearbody ct.
  assert (J : eq_ignore_ascii_case ct "application/json" = true <-> to_ascii_lowercase ct = "application/json")
    by apply eq_ignore_case_lower.
  rewrite <- J. destruct post; cbn [andb]; [|naive_solver]. destruct (eq_ignore_ascii_case _ _); naive_solver.
Qed.

(** An answer that is passed through as JSON begins an object or an array. *)
Theorem passed_success_is_json content_type body :
  same_wire_success_rejection content_type body = None <->
  (content_type = "" \/ is_json_content_type content_type = true)
  /\ exists space a rest, body = space ++ a :: rest /\ forallb ascii_space space = true /\ (a = "{"%char \/ a = "["%char).
Proof.
  assert (T : (match trim_ascii_start body with a :: _ => Ascii.eqb a "{" || Ascii.eqb a "[" | [] => false end) = true
    <-> exists space a rest, body = space ++ a :: rest /\ forallb ascii_space space = true /\ (a = "{"%char \/ a = "["%char)).
  { induction body as [|b body IH]; cbn [trim_ascii_start].
    - split; [done|]. by intros ([|? ?] & ? & ? & ? & _).
    - destruct (ascii_space b) eqn:S.
      + rewrite IH. split.
        * intros (space & a & rest & -> & Sp & A). exists (b :: space), a, rest. cbn. by rewrite S.
        * intros ([|b' space] & a & rest & E & Sp & A); injection E as -> ->.
          -- by destruct A as [->| ->].
          -- cbn in Sp. apply andb_true_iff in Sp as [_ Sp]. by exists space, a, rest.
      + rewrite orb_true_iff, !Ascii.eqb_eq. split.
        * intros A. by exists [], b, body.
        * intros ([|b' space] & a & rest & E & Sp & A); injection E as -> ->; [done|]. cbn in Sp. by rewrite S in Sp. }
  unfold same_wire_success_rejection, same_wire_success_is_json. rewrite <- T.
  destruct content_type as [|c ct]; cbn [is_empty negb andb].
  - destruct (match trim_ascii_start body with [] => false | _ => _ end); naive_solver.
  - destruct (is_json_content_type (String c ct)); cbn [negb].
    + destruct (match trim_ascii_start body with [] => false | _ => _ end); naive_solver.
    + naive_solver.
Qed.
