(* ===== verification/Headers.v ===== *)
(** * Headers: what the proxy sends beside the body

    crates/wiremux/src/headers.rs and profile_auth.rs: the headers of a request
    to the upstream, of the profile, of its fingerprint, and one for the
    credential; [proxy_token] of cli.rs and the two steps of proxy.rs around
    it, which say what the credential is; [bearer_token_applied] of
    aws_sign.rs; and [forward_inbound_headers] of proxy.rs, what is taken from
    the headers of the client.

    A request of the HTTP client is the list of its headers, to which [header]
    appends. *)

From S2P Require Import Prelude Text Json Ir ProfileTypes Guard.

Definition OutHeaders : Type := list (string * string).

Definition GROK_BUILD_PROXY_HOST : string := "cli-chat-proxy.grok.com".
Definition GROK_CHAT_PROXY_CLIENT_VERSION : string := "1.0.46".
Definition GROK_CHAT_PROXY_CLIENT_IDENTIFIER : string := "wiremux".

(** ** Headers that are credentials *)
Definition is_profile_auth_header (profile : ResolvedProfile) (name : string) : bool :=
  if eq_ignore_ascii_case name "authorization" || eq_ignore_ascii_case name "x-api-key" then true
  else match h_auth_scheme (http profile) with Some (Header header) => eq_ignore_ascii_case name header | _ => false end.

Definition profile_header_credential (profile : ResolvedProfile) : option string :=
  snd <$> List.find (fun h => is_profile_auth_header profile h.1 && negb (is_empty (trim h.2))) (h_headers (http profile)).

(** ** The headers of a profile *)
Definition ua_override (profile : ResolvedProfile) : bool :=
  is_some (match fingerprint profile with Some fp => fp_user_agent fp | None => None end).
Definition beta_override (profile : ResolvedProfile) : bool := negb (bool_decide (b_values (betas profile) = [])).

(** One turn of the loop over the headers of the profile: the headers so far,
    and whether one of them is the credential. *)
Definition profile_header (profile : ResolvedProfile) (acc : OutHeaders * bool) (h : string * string) : OutHeaders * bool :=
  let '(req, profile_auth) := acc in
  let '(name, value) := h in
  if ua_override profile && eq_ignore_ascii_case name "user-agent" then acc
  else if beta_override profile && eq_ignore_ascii_case name (b_header (betas profile)) then acc
  else if is_profile_auth_header profile name then
    if is_empty (trim value) then acc else (req ++ [(name, value)], true)
  else (req ++ [(name, value)], profile_auth).

Definition header_present (profile : ResolvedProfile) (name : string) : bool :=
  existsb (fun h => eq_ignore_ascii_case h.1 name) (h_headers (http profile)).

Section Hosts.
(** The host of a URL that parses. *)
Context (host_of : string -> option string).

Definition grok_build_proxy_host (base_url : string) : bool :=
  match host_of base_url with
  | None => false
  | Some host => eq_ignore_ascii_case (trim_end_matches "." host) GROK_BUILD_PROXY_HOST
  end.

Definition grok_build_default_headers (profile : ResolvedProfile) : OutHeaders :=
  match h_base_url (http profile) with
  | None => []
  | Some base =>
      if negb (grok_build_proxy_host base) then []
      else
        (if negb (header_present profile "x-grok-client-version")
         then [("x-grok-client-version", GROK_CHAT_PROXY_CLIENT_VERSION)] else [])
        ++ (if negb (header_present profile "x-grok-client-identifier")
            then [("x-grok-client-identifier", GROK_CHAT_PROXY_CLIENT_IDENTIFIER)] else [])
  end.

(** The header that carries the token. *)
Definition token_headers (profile : ResolvedProfile) (token : string) : OutHeaders :=
  match unwrap_or (h_auth_scheme (http profile)) Bearer with
  | NoAuth => []
  | Bearer => [("authorization", "Bearer " +:+ token)]
  | XApiKey => if starts_with "sk-ant-oat" token then [("authorization", "Bearer " +:+ token)] else [("x-api-key", token)]
  | Header name => [(name, token)]
  end.

Definition fingerprint_headers (profile : ResolvedProfile) : OutHeaders :=
  match fingerprint profile with
  | None => []
  | Some fp =>
      match fp_user_agent fp with Some ua => [("user-agent", ua)] | None => [] end
      ++ match fp_x_app fp with Some app => [("x-app", app)] | None => [] end
  end.

Definition apply_profile_headers (req : OutHeaders) (profile : ResolvedProfile) (token : option string) : OutHeaders :=
  let '(req, profile_auth) := fold_left (profile_header profile) (h_headers (http profile)) (req, false) in
  let req := req ++ grok_build_default_headers profile in
  let req := req ++ fingerprint_headers profile in
  let req := if beta_override profile
             then req ++ [(b_header (betas profile), str_join "," (b_values (betas profile)))] else req in
  match token with
  | Some token => if negb profile_auth then req ++ token_headers profile token else req
  | None => req
  end.

(** [apply_provider_headers], given the quota project of the provider. *)
Definition apply_provider_headers (req : OutHeaders) (profile : ResolvedProfile) (quota : option string) : OutHeaders :=
  if header_present profile "x-goog-user-project" then req
  else match quota with Some quota => req ++ [("x-goog-user-project", quota)] | None => req end.

Definition bearer_token_applied (profile : ResolvedProfile) (token : option string) : bool :=
  match opt_filter (fun t => negb (is_empty (trim t))) token with
  | None => false
  | Some token =>
      match unwrap_or (h_auth_scheme (http profile)) Bearer with
      | NoAuth => false
      | Bearer => true
      | XApiKey => starts_with "sk-ant-oat" token
      | Header name => eq_ignore_ascii_case name "authorization"
      end
  end.

(** ** The token *)
Inductive ProxyTokenError := Unauthorized (detail : string) | Gateway (detail : string).

(** An error of a provider: its text, and whether the token endpoint was not
    reached ([is_oauth_transport_error]). *)
Record AuthFailure := mkAuthFailure { af_transport : bool; af_text : string }.

Definition proxy_token_error_from_auth (err : AuthFailure) : ProxyTokenError :=
  if af_transport err then Gateway (af_text err) else Unauthorized (af_text err).

(** What the proxy asks of a token provider: whether it is a [StaticToken], and
    the outcome of [get_token]. *)
Record Provider := mkProvider { pv_static : bool; pv_get_token : result AuthFailure string }.

Definition static_token (key : string) : Provider := mkProvider true (Ok key).

Definition provider_has_token (provider : Provider) : bool := negb (pv_static provider).

Definition scheme_is_none (profile : ResolvedProfile) : bool :=
  match h_auth_scheme (http profile) with Some NoAuth => true | _ => false end.

Definition empty_token : ProxyTokenError := Unauthorized "empty token is not auth_scheme none".

Section Token.
(** The list of the ways to give a credential, [credential_options]. *)
Context (credential_options : ResolvedProfile -> string).

Definition proxy_token (profile : ResolvedProfile) (provider : Provider) : result ProxyTokenError (option string) :=
  if scheme_is_none profile && is_none (oauth profile) then Ok None
  else
    match profile_header_credential profile with
    | Some value =>
        let token := trim (unwrap_or (opt_or (strip_prefix "Bearer " value) (strip_prefix "bearer " value)) value) in
        if is_empty token then Err empty_token else Ok (Some token)
    | None =>
        if is_some (oauth profile) || negb (bool_decide (access_env profile = [])) || provider_has_token provider then
          match pv_get_token provider with
          | Err err => Err (proxy_token_error_from_auth err)
          | Ok token => if is_empty (trim token) then Err empty_token else Ok (Some token)
          end
        else Err (Unauthorized ("no credentials (set " +:+ credential_options profile +:+ ")"))
    end.

Definition profile_auths_without_provider (profile : ResolvedProfile) : bool :=
  is_some (profile_header_credential profile)
  || is_some_and (h_aws_service (http profile)) (fun service => negb (is_empty service))
  || (scheme_is_none profile && is_none (oauth profile)).

(** [resolve_proxy_token]: the slot of the state, and what building a provider
    gives when it is empty. *)
Definition resolve_proxy_token (profile : ResolvedProfile) (built : result AuthFailure Provider) (slot : option Provider) :
  option Provider * result ProxyTokenError (option string) :=
  match slot with
  | Some provider => (slot, proxy_token profile provider)
  | None =>
      match built with
      | Ok provider => (Some provider, proxy_token profile provider)
      | Err err =>
          if profile_auths_without_provider profile then (None, proxy_token profile (static_token ""))
          else (None, Err (proxy_token_error_from_auth err))
      end
  end.
End Token.
End Hosts.

(** ** Headers of the client *)
Definition ignored_inbound : list string :=
  ["host"; "content-type"; "content-length"; "accept"; "connection"; "authorization"].

(** [split(',').map(trim).filter(nonempty)] *)
Fixpoint split_char (c : ascii) (s : string) : list string :=
  match s with
  | EmptyString => [""]
  | String a t =>
      if Ascii.eqb a c then "" :: split_char c t
      else match split_char c t with x :: r => String a x :: r | [] => [String a ""] end
  end.
Definition tokens_of (raw : string) : list string :=
  List.filter (fun t => negb (is_empty t)) (map trim (split_char "," raw)).

Record Inbound := mkInbound { in_betas : list string; in_version : option string; in_loss : LossReport }.

Definition forward_header (messages profile_has_version : bool) (acc : Inbound) (h : string * option string) : Inbound :=
  let '(name, value) := h in
  if one_of name ignored_inbound then acc
  else
    let taken := if messages && eq_ignore_ascii_case name "anthropic-beta"
                 then match value with Some raw => tokens_of raw | None => [] end else [] in
    if negb (bool_decide (taken = [])) then mkInbound (in_betas acc ++ taken) (in_version acc) (in_loss acc)
    else
      let version :=
        if messages && eq_ignore_ascii_case name "anthropic-version" && negb profile_has_version && is_none (in_version acc)
        then opt_filter (fun t => negb (is_empty t)) (trim <$> value) else None in
      match version with
      | Some version => mkInbound (in_betas acc) (Some version) (in_loss acc)
      | None =>
          mkInbound (in_betas acc) (in_version acc)
            (record (in_loss acc) ("header." +:+ to_ascii_lowercase name) Drop "not forwarded")
      end.

Definition add_beta (values : list string) (token : string) : list string :=
  if existsb (String.eqb token) values then values else values ++ [token].

Definition set_betas (profile : ResolvedProfile) (betas : Betas) : ResolvedProfile :=
  mkProfile (schema_version profile) (profile_id profile) (display_name profile) (dialect profile) (http profile)
    (oauth profile) (access_env profile) (fingerprint profile) betas.

Definition extend_betas (profile : ResolvedProfile) (extra : list string) : ResolvedProfile :=
  let b := betas profile in
  let header := if is_empty (trim (b_header b)) then "anthropic-beta" else b_header b in
  let values :=
    match b_values b with
    | [] => match List.find (fun h => eq_ignore_ascii_case h.1 header) (h_headers (http profile)) with
            | Some (_, value) => tokens_of value
            | None => []
            end
    | values => values
    end in
  set_betas profile (mkBetas (fold_left add_beta extra values) header (b_merge b)).

Definition forward_inbound_headers (profile : ResolvedProfile) (loss : LossReport) (target : Wire) (headers : HeaderMap) :
  ResolvedProfile * LossReport * option string :=
  let messages := wire_eqb target Messages in
  let has_version := existsb (fun h => eq_ignore_ascii_case h.1 "anthropic-version") (h_headers (http profile)) in
  let acc := fold_left (forward_header messages has_version) headers (mkInbound [] None loss) in
  let profile := if messages && negb (bool_decide (in_betas acc = [])) then extend_betas profile (in_betas acc) else profile in
  (profile, in_loss acc, in_version acc).

(** ** One credential *)
Section Credentials.
Context (host_of : string -> option string).

(** No name that the proxy writes itself is the credential header of the
    profile. *)
Definition own_names_plain (profile : ResolvedProfile) : bool :=
  forallb (fun name => negb (is_profile_auth_header profile name))
    ["user-agent"; "x-app"; "x-grok-client-version"; "x-grok-client-identifier"; b_header (betas profile)].

(** The credentials among the headers of the profile. *)
Definition own_credentials (profile : ResolvedProfile) : OutHeaders :=
  List.filter (fun h => is_profile_auth_header profile h.1 && negb (is_empty (trim h.2))) (h_headers (http profile)).

Definition auth_only (profile : ResolvedProfile) (l : OutHeaders) : OutHeaders :=
  List.filter (fun h => is_profile_auth_header profile h.1) l.

Lemma auth_only_app profile l k : auth_only profile (l ++ k) = auth_only profile l ++ auth_only profile k.
Proof. apply List.filter_app. Qed.

Lemma auth_header_case profile m n :
  eq_ignore_ascii_case m n = true -> is_profile_auth_header profile m = is_profile_auth_header profile n.
Proof.
  intros E%eq_ignore_case_lower. unfold is_profile_auth_header, eq_ignore_ascii_case. by rewrite E.
Qed.

Lemma own_name profile name :
  own_names_plain profile = true ->
  In name ["user-agent"; "x-app"; "x-grok-client-version"; "x-grok-client-identifier"; b_header (betas profile)] ->
  is_profile_auth_header profile name = false.
Proof. unfold own_names_plain. rewrite forallb_forall. intros H I. specialize (H _ I). by destruct (is_profile_auth_header _ _). Qed.

Lemma profile_loop profile l acc :
  own_names_plain profile = true ->
  let own := List.filter (fun h => is_profile_auth_header profile h.1 && negb (is_empty (trim h.2))) l in
  let r := fold_left (profile_header profile) l acc in
  auth_only profile r.1 = auth_only profile acc.1 ++ own /\ r.2 = acc.2 || negb (bool_decide (own = [])).
Proof.
  intros S. cbv zeta. revert acc. induction l as [|[name value] l IH]; intros [req auth]; cbn [fold_left List.filter].
  { cbn [fst snd]. by rewrite app_nil_r, orb_false_r. }
  unfold profile_header at 2 4. cbn [fst snd].
  destruct (ua_override profile && eq_ignore_ascii_case name "user-agent") eqn:U.
  { apply andb_true_iff in U as [_ U]. rewrite (auth_header_case _ _ _ U), (own_name _ "user-agent" S) by (by left).
    exact (IH (req, auth)). }
  destruct (beta_override profile && eq_ignore_ascii_case name (b_header (betas profile))) eqn:B.
  { apply andb_true_iff in B as [_ B].
    rewrite (auth_header_case _ _ _ B), (own_name _ _ S) by (do 4 right; by left). exact (IH (req, auth)). }
  destruct (is_profile_auth_header profile name) eqn:A; cbn [andb].
  - destruct (is_empty (trim value)) eqn:E; cbn [negb]; [exact (IH (req, auth))|].
    destruct (IH (req ++ [(name, value)], true)) as [P Q]. rewrite P, Q. cbn [fst snd]. rewrite auth_only_app.
    unfold auth_only at 2. cbn [List.filter fst]. rewrite A, <- app_assoc. by rewrite orb_true_r.
  - destruct (IH (req ++ [(name, value)], auth)) as [P Q]. rewrite P, Q. cbn [fst snd]. rewrite auth_only_app.
    unfold auth_only at 2. cbn [List.filter fst]. by rewrite A, app_nil_r.
Qed.

Lemma token_headers_auth profile token : auth_only profile (token_headers profile token) = token_headers profile token.
Proof.
  unfold token_headers, auth_only, is_profile_auth_header. destruct (h_auth_scheme (http profile)) as [[| |name|]|]; cbn [unwrap_or]; try done.
  - by destruct (starts_with _ token).
  - cbn [List.filter fst]. assert (eq_ignore_ascii_case name name = true) as -> by (by apply eq_ignore_case_lower).
    by destruct (_ || _).
Qed.

Lemma plain_header profile name value :
  own_names_plain profile = true ->
  In name ["user-agent"; "x-app"; "x-grok-client-version"; "x-grok-client-identifier"; b_header (betas profile)] ->
  auth_only profile [(name, value)] = [].
Proof. intros S I. unfold auth_only. cbn [List.filter fst]. by rewrite (own_name _ _ S I). Qed.

Lemma grok_plain profile : own_names_plain profile = true -> auth_only profile (grok_build_default_headers host_of profile) = [].
Proof.
  intros S. unfold grok_build_default_headers. destruct (h_base_url _); [|done]. destruct (negb _); [done|].
  rewrite auth_only_app.
  destruct (negb (header_present _ "x-grok-client-version")); destruct (negb (header_present _ "x-grok-client-identifier"));
    rewrite ?(plain_header _ _ _ S) by (cbn; tauto); done.
Qed.

Lemma fingerprint_plain profile : own_names_plain profile = true -> auth_only profile (fingerprint_headers profile) = [].
Proof.
  intros S. unfold fingerprint_headers. destruct (fingerprint profile) as [fp|]; [|done]. rewrite auth_only_app.
  destruct (fp_user_agent fp), (fp_x_app fp); rewrite ?(plain_header _ _ _ S) by (cbn; tauto); done.
Qed.

Lemma credential_headers profile token :
  own_names_plain profile = true ->
  auth_only profile (apply_profile_headers host_of [] profile token)
  = match own_credentials profile, token with
    | [], Some token => token_headers profile token
    | own, _ => own
    end.
Proof.
  intros S. destruct (profile_loop profile (h_headers (http profile)) ([], false) S) as [P Q].
  unfold apply_profile_headers. destruct (fold_left _ _ _) as [req auth]. cbn [fst snd orb] in *. subst auth.
  fold (own_credentials profile) in *.
  set (r := if beta_override profile then _ else _).
  assert (R : auth_only profile r = own_credentials profile).
  { unfold r. destruct (beta_override profile); rewrite ?auth_only_app, ?grok_plain, ?fingerprint_plain, P by done;
      rewrite ?(plain_header _ _ _ S) by (cbn; tauto); by rewrite !app_nil_r. }
  destruct token as [t|]; [|rewrite R; by destruct (own_credentials profile)].
  destruct (own_credentials profile) as [|h own]; cbn [negb]; [|by rewrite bool_decide_false].
  rewrite bool_decide_true by done. cbn [negb]. by rewrite auth_only_app, R, token_headers_auth.
Qed.

(** C33. The credential is sent once, when the credential header of the profile is
    none that the proxy writes itself (the user agent, x-app, the header of the
    betas, the two of Grok): when the profile has a credential header that is not
    blank, those of the profile are sent as they are and the token is not; otherwise
    the token is sent, in at most one header. For a profile whose credential header
    is one of those names [own_name_sent_twice] shows it fails. *)
Theorem credential_sent_once profile token :
  own_names_plain profile = true ->
  auth_only profile (apply_profile_headers host_of [] profile token)
  = match own_credentials profile, token with
    | [], Some token => token_headers profile token
    | own, _ => own
    end
  /\ forall t, (length (token_headers profile t) <= 1)%nat.
Proof.
  intros S. split; [by apply credential_headers|].
  intros t. unfold token_headers. destruct (unwrap_or _ _); [|destruct (starts_with _ t)| |]; cbn; lia.
Qed.

(** A request is signed exactly when no header says who is asking: the test
    that skips the signature agrees with the headers that are sent. *)
Theorem bearer_test_agrees profile token :
  own_names_plain profile = true -> own_credentials profile = [] -> is_empty (trim token) = false ->
  bearer_token_applied profile (Some token)
  = existsb (fun h => eq_ignore_ascii_case h.1 "authorization") (apply_profile_headers host_of [] profile (Some token)).
Proof.
  intros S O T. pose proof (credential_headers profile (Some token) S) as C. rewrite O in C.
  assert (E : forall l, existsb (fun h : string * string => eq_ignore_ascii_case h.1 "authorization") l
    = existsb (fun h : string * string => eq_ignore_ascii_case h.1 "authorization") (auth_only profile l)).
  { unfold auth_only. induction l as [|h l IH]; [done|]. cbn [existsb List.filter].
    destruct (eq_ignore_ascii_case h.1 "authorization") eqn:A.
    - assert (is_profile_auth_header profile h.1 = true) as -> by (unfold is_profile_auth_header; by rewrite A).
      cbn [existsb]. by rewrite A.
    - cbn [orb]. destruct (is_profile_auth_header profile h.1); cbn [existsb]; by rewrite ?A. }
  rewrite E, C. unfold bearer_token_applied, token_headers. cbn [opt_filter]. rewrite T. cbn [negb].
  destruct (unwrap_or _ _) as [| |name|]; try done; [by destruct (starts_with _ token)|]. cbn. by rewrite orb_false_r.
Qed.

End Credentials.

Section Tokens.
Context (credential_options : ResolvedProfile -> string).

(** The proxy goes on without a token only when the profile says so, and never
    with a blank one. *)
Theorem proxy_token_never_blank profile provider token :
  proxy_token credential_options profile provider = Ok token ->
  match token with
  | None => h_auth_scheme (http profile) = Some NoAuth /\ oauth profile = None
  | Some token => is_empty (trim token) = false
  end.
Proof.
  unfold proxy_token, scheme_is_none.
  destruct (match h_auth_scheme (http profile) with Some NoAuth => true | _ => false end && is_none (oauth profile)) eqn:N.
  { intros [= <-]. destruct (h_auth_scheme (http profile)) as [[]|]; try done. by destruct (oauth profile). }
  destruct (profile_header_credential profile) as [value|].
  { set (t := trim _). destruct (is_empty t) eqn:E; [done|]. intros [= <-]. unfold t in *. by rewrite trim_idem. }
  destruct (_ || provider_has_token provider); [|done].
  destruct (pv_get_token provider) as [t|err]; [|done]. destruct (is_empty (trim t)) eqn:E; [done|]. by intros [= <-].
Qed.

(** A profile that signs its requests is refused like any other when no token
    provider can be built, unless it also has [auth_scheme = "none"]. *)
Lemma signing_profile_refused profile err slot res :
  profile_header_credential profile = None ->
  scheme_is_none profile && is_none (oauth profile) = false ->
  resolve_proxy_token credential_options profile (Err err) None = (slot, res) -> is_ok res = false.
Proof.
  intros C N. unfold resolve_proxy_token. destruct (profile_auths_without_provider profile); [|by intros [= _ <-]].
  intros [= _ <-]. unfold proxy_token. rewrite N, C. cbn [static_token pv_get_token]. by destruct (_ || _).
Qed.
End Tokens.

(** ** Betas of the client *)
Lemma add_beta_in values token t : In t (add_beta values token) <-> In t values \/ t = token.
Proof.
  unfold add_beta. destruct (existsb (String.eqb token) values) eqn:E.
  - apply existsb_exists in E as (x & I & <-%String.eqb_eq). naive_solver.
  - rewrite in_app_iff. cbn. naive_solver.
Qed.

Lemma add_beta_nodup values token : NoDup values -> NoDup (add_beta values token).
Proof.
  unfold add_beta. intros N. destruct (existsb (String.eqb token) values) eqn:E; [done|].
  apply NoDup_app. split; [done|]. split; [|apply NoDup_singleton].
  intros x I ->%list_elem_of_singleton. apply not_true_iff_false in E. apply E, existsb_exists. exists token.
  split; [by apply list_elem_of_In|apply String.eqb_refl].
Qed.

Lemma add_betas extra values :
  (forall t, In t (fold_left add_beta extra values) <-> In t values \/ In t extra)
  /\ (NoDup values -> NoDup (fold_left add_beta extra values)).
Proof.
  revert values. induction extra as [|token extra IH]; intros values; cbn [fold_left].
  { split; [cbn; tauto|done]. }
  destruct (IH (add_beta values token)) as [I N]. split.
  - intros t. rewrite I, add_beta_in. cbn. naive_solver.
  - intros H. apply N. by apply add_beta_nodup.
Qed.

(** ** What is forwarded *)

Definition not_forwarded (name : string) : LossEvent := mkLoss ("header." +:+ to_ascii_lowercase name) Drop "not forwarded".

(** The headers that only a Messages upstream is given. *)
Definition anthropic_header (name : string) : Prop :=
  to_ascii_lowercase name = "anthropic-beta" \/ to_ascii_lowercase name = "anthropic-version".

(** What one header of the client gives: ignored, betas, the version, or a
    note that it is not forwarded. *)
Lemma forward_header_step messages has_version acc name value :
  let acc' := forward_header messages has_version acc (name, value) in
  (loss_events (in_loss acc') = loss_events (in_loss acc)
   /\ (one_of name ignored_inbound = true \/ messages = true /\ anthropic_header name))
  \/ (loss_events (in_loss acc') = loss_events (in_loss acc) ++ [not_forwarded name]
      /\ in_betas acc' = in_betas acc /\ in_version acc' = in_version acc).
Proof.
  cbv zeta. unfold forward_header. destruct (one_of name ignored_inbound); [left; split; [done|by left]|].
  destruct (messages && eq_ignore_ascii_case name "anthropic-beta") eqn:B.
  - apply andb_true_iff in B as [-> B%eq_ignore_case_lower].
    destruct (negb (bool_decide _)); [left; split; [done|right; split; [done|by left]]|].
    destruct (if _ && is_none _ then _ else None) as [v|]; [|by right].
    left. split; [done|right; split; [done|by left]].
  - cbn [bool_decide negb]. rewrite bool_decide_true by done. cbn [negb].
    destruct (messages && eq_ignore_ascii_case name "anthropic-version") eqn:E.
    + apply andb_true_iff in E as [-> E%eq_ignore_case_lower]. cbn [andb].
      destruct (if _ && is_none _ then _ else None) as [v|]; [left; split; [done|]; right; split; [done|by right]|by right].
    + cbn [andb]. by right.
Qed.

Lemma forward_headers_noted messages has_version headers acc :
  let r := fold_left (forward_header messages has_version) headers acc in
  (forall name value, In (name, value) headers -> one_of name ignored_inbound = false ->
     (messages = true /\ anthropic_header name) \/ In (not_forwarded name) (loss_events (in_loss r)))
  /\ incl (loss_events (in_loss acc)) (loss_events (in_loss r)).
Proof.
  cbv zeta. revert acc. induction headers as [|[name value] headers IH]; intros acc; cbn [fold_left]; [split; [done|apply incl_refl]|].
  destruct (IH (forward_header messages has_version acc (name, value))) as [F I].
  destruct (forward_header_step messages has_version acc name value) as [[E C]|[E _]]; rewrite E in I.
  - split; [|done]. intros n v [[= <- <-]|H] O; [|by eapply F]. left. destruct C as [C|C]; [congruence|done].
  - split; [|intros x H; apply I, in_app_iff; by left]. intros n v [[= <- <-]|H] O; [|by eapply F].
    right. apply I, in_app_iff. right. by left.
Qed.

(** Nothing of the client's headers is passed on unseen: a header that is not
    of the connection is noted as dropped, unless it is one that a Messages
    upstream is given; of the profile only the betas change, and they keep
    their values and gain each token of the client once. *)
Theorem inbound_headers_noted profile loss target headers profile' loss' version :
  forward_inbound_headers profile loss target headers = (profile', loss', version) ->
  (forall name value, In (name, value) headers -> one_of name ignored_inbound = false ->
     (target = Messages /\ anthropic_header name) \/ In (not_forwarded name) (loss_events loss'))
  /\ set_betas profile (betas profile') = profile'
  /\ incl (b_values (betas profile)) (b_values (betas profile'))
  /\ (NoDup (b_values (betas profile)) -> b_values (betas profile) <> [] -> NoDup (b_values (betas profile'))).
Proof.
  unfold forward_inbound_headers.
  set (has_version := existsb _ _). set (acc := fold_left _ headers _). intros [= <- <- <-].
  destruct (forward_headers_noted (wire_eqb target Messages) has_version headers (mkInbound [] None loss)) as [F _].
  fold acc in F. split.
  { intros name value I O. destruct (F name value I O) as [[M A]|H]; [left|by right]. split; [|done]. by destruct target. }
  assert (Id : set_betas profile (betas profile) = profile) by (by destruct profile).
  destruct (wire_eqb target Messages && negb (bool_decide (in_betas acc = []))); [|by split_and!; [|apply incl_refl|]].
  unfold extend_betas, set_betas. cbn [betas b_values].
  match goal with |- context [fold_left add_beta ?x ?v] => destruct (add_betas x v) as [I N] end.
  split; [done|]. split.
  - intros t H. apply I. left. by destruct (b_values (betas profile)).
  - intros D Ne. apply N. by destruct (b_values (betas profile)).
Qed.

(** ** Witnesses *)
Section Witnesses.
Definition key_profile (scheme : option AuthScheme) (headers : list (string * string)) : ResolvedProfile :=
  mkProfile 1 "p" None (mkDialect (Some Messages) [] Replace PolicyHardError UnknownHardError)
    (mkHttp (Some "https://api.test") None scheme headers Replace (Some "bedrock") None None None) None [] None
    (mkBetas [] "anthropic-beta" Union).

Definition no_host (url : string) : option string := None.

Lemma credential_sent_once_witness :
  auth_only (key_profile (Some XApiKey) [("x-api-key", "k")])
    (apply_profile_headers no_host [] (key_profile (Some XApiKey) [("x-api-key", "k")]) (Some "t")) = [("x-api-key", "k")].
Proof. destruct (credential_sent_once no_host (key_profile (Some XApiKey) [("x-api-key", "k")]) (Some "t") eq_refl) as [E _]. exact E. Defined.

(** The credential header is the user agent and the fingerprint has one: the header
    of the profile is skipped, the fingerprint's and the token's are both sent. *)
Definition agent_profile : ResolvedProfile :=
  mkProfile 1 "p" None (mkDialect (Some Messages) [] Replace PolicyHardError UnknownHardError)
    (mkHttp (Some "https://api.test") None (Some (Header "user-agent")) [("user-agent", "key")] Replace None None None None) None []
    (Some (mkFingerprint (Some "agent/1") None None None [] Strip [])) (mkBetas [] "anthropic-beta" Union).

Example own_name_sent_twice :
  own_credentials agent_profile = [("user-agent", "key")]
  /\ auth_only agent_profile (apply_profile_headers no_host [] agent_profile (Some "t"))
     = [("user-agent", "agent/1"); ("user-agent", "t")].
Proof. by vm_compute. Qed.

Lemma bearer_test_agrees_witness :
  existsb (fun h => eq_ignore_ascii_case h.1 "authorization")
    (apply_profile_headers no_host [] (key_profile (Some XApiKey) []) (Some "sk-ant-oat01")) = true.
Proof. rewrite <- (bearer_test_agrees no_host (key_profile (Some XApiKey) []) "sk-ant-oat01"); reflexivity. Defined.

Lemma proxy_token_never_blank_witness : is_empty (trim "k") = false.
Proof.
  exact (proxy_token_never_blank (fun _ => "") (key_profile (Some XApiKey) [("x-api-key", " k ")]) (static_token "") (Some "k") eq_refl).
Defined.

Definition client_headers : HeaderMap := [("host", Some "127.0.0.1"); ("x-api-key", Some "client"); ("anthropic-beta", Some "a, b,a")].

Lemma inbound_headers_noted_witness :
  In (not_forwarded "x-api-key")
    (loss_events (forward_inbound_headers (key_profile None []) report_new Messages client_headers).1.2).
Proof.
  destruct (inbound_headers_noted (key_profile None []) report_new Messages client_headers _ _ _ eq_refl) as [F _].
  destruct (F "x-api-key" (Some "client")) as [[_ [A|A]]|H]; [by right; left|reflexivity|discriminate A|discriminate A|exact H].
Defined.
End Witnesses.
