(* ===== verification/Dates.v ===== *)
(** * Dates: civil dates from a count of seconds

    Signatures and stored credentials carry dates.  [amz_date_now] of
    crates/wiremux/src/aws_sign.rs, [civil_from_days] and [format_amz_date] of
    crates/wiremux-auth/src/providers/aws.rs, and [format_rfc3339_epoch],
    [parse_rfc3339] and [days_since_epoch] of its helpers.rs each have the
    arithmetic of their own.  [next_day] is the calendar they are compared
    with.  A [SystemTime] is its number of seconds since 1970; the clock is an
    argument. *)

From S2P Require Import Prelude Text EventStream.

(** [{n:04}] and [{n:02}] of a number that is not negative. *)
Fixpoint zeros (n : nat) : string := match n with O => "" | S n => String "0" (zeros n) end.
Definition pad0 (width : Z) (n : Z) : string :=
  let digits := pretty n in zeros (Z.to_nat (width - slen digits)) +:+ digits.

(** [as i32] *)
Definition to_i32 (n : Z) : Z := (n + 2 ^ 31) mod 2 ^ 32 - 2 ^ 31.

(** ** The civil date of a day *)
Definition civil_from_days (z : Z) : Z * Z * Z :=
  let z := z + 719468 in
  let era := Z.quot (if 0 <=? z then z else z - 146096) 146097 in
  let doe := z - era * 146097 in
  let yoe := (doe - doe / 1460 + doe / 36524 - doe / 146096) / 365 in
  let y := yoe + era * 400 in
  let doy := doe - (365 * yoe + yoe / 4 - yoe / 100) in
  let mp := (5 * doy + 2) / 153 in
  let d := doy - (153 * mp + 2) / 5 + 1 in
  let m := if mp <? 10 then mp + 3 else mp - 9 in
  let y := if m <=? 2 then y + 1 else y in
  (to_i32 y, m, d).

Definition format_amz_date (unix_secs : Z) : string * string :=
  let days := unix_secs / 86400 in
  let sod := unix_secs mod 86400 in
  let '(year, month, day) := civil_from_days days in
  let hour := sod / 3600 in
  let min := (sod mod 3600) / 60 in
  let sec := sod mod 60 in
  let date := pad0 4 year +:+ pad0 2 month +:+ pad0 2 day in
  (date +:+ "T" +:+ pad0 2 hour +:+ pad0 2 min +:+ pad0 2 sec +:+ "Z", date).

(** [amz_date_now], of the seconds of the clock. *)
Definition amz_date_at (secs : Z) : string :=
  let days := secs / 86400 in
  let sod := secs mod 86400 in
  let z := days + 719468 in
  let era := Z.quot (if 0 <=? z then z else z - 146096) 146097 in
  let doe := z - era * 146097 in
  let yoe := (doe - doe / 1460 + doe / 36524 - doe / 146096) / 365 in
  let y := yoe + era * 400 in
  let doy := doe - (365 * yoe + yoe / 4 - yoe / 100) in
  let mp := (5 * doy + 2) / 153 in
  let d := doy - (153 * mp + 2) / 5 + 1 in
  let m := if mp <? 10 then mp + 3 else mp - 9 in
  let year := if m <=? 2 then y + 1 else y in
  pad0 4 year +:+ pad0 2 m +:+ pad0 2 d +:+ "T"
  +:+ pad0 2 (sod / 3600) +:+ pad0 2 ((sod mod 3600) / 60) +:+ pad0 2 (sod mod 60) +:+ "Z".

Definition format_rfc3339_epoch (total_secs : Z) : string :=
  let days := total_secs / 86400 + 719468 in
  let day_secs := total_secs mod 86400 in
  let era := days / 146097 in
  let doe := days mod 146097 in
  let yoe := (doe - doe / 1460 + doe / 36524 - doe / 146096) / 365 in
  let y := yoe + era * 400 in
  let doy := doe - (365 * yoe + yoe / 4 - yoe / 100) in
  let mp := (5 * doy + 2) / 153 in
  let d := doy - (153 * mp + 2) / 5 + 1 in
  let m := if mp <? 10 then mp + 3 else mp - 9 in
  let y := if m <=? 2 then y + 1 else y in
  pad0 4 y +:+ "-" +:+ pad0 2 m +:+ "-" +:+ pad0 2 d +:+ "T"
  +:+ pad0 2 (day_secs / 3600) +:+ ":" +:+ pad0 2 ((day_secs mod 3600) / 60) +:+ ":" +:+ pad0 2 (day_secs mod 60) +:+ "Z".

(** ** Reading a date *)
Definition days_since_epoch (year month day : Z) : Z :=
  let y := if month <=? 2 then year - 1 else year in
  let m := if month <=? 2 then month + 9 else month - 3 in
  let era := y / 400 in
  let yoe := y mod 400 in
  let doy := (153 * m + 2) / 5 + day - 1 in
  let doe := yoe * 365 + yoe / 4 - yoe / 100 + doy in
  era * 146097 + doe - 719468.

(** [parse] of an unsigned and of a signed number, of texts of a few bytes. *)
Definition parse_digits (s : string) : option Z :=
  if is_empty s || negb (forallb is_ascii_digit (bytes_of_str s)) then None
  else Some (fold_left (fun n a => n * 10 + (byte_val a - 48)) (bytes_of_str s) 0).
Definition parse_unsigned (s : string) : option Z := parse_digits (unwrap_or (strip_prefix "+" s) s).
Definition parse_signed (s : string) : option Z :=
  match strip_prefix "-" s with Some s => Z.opp <$> parse_digits s | None => parse_unsigned s end.

(** [s[lo..hi].parse().map_err(..)?] *)
Definition number (what : string) (parse : string -> option Z) (s : string) (lo hi : Z) : outcome string Z :=
  let? digits := read (slice (bytes_of_str s) lo hi) in
  Some match parse (str_of_bytes digits) with
       | Some n => Ok n
       | None => Err (what +:+ ": invalid digit found in string")
       end.

Definition is_ascii (s : string) : bool := forallb (fun a => byte_val a <? 128) (bytes_of_str s).

(** [find(['Z', '+', '-'])] from a place on. *)
Fixpoint find_zone (l : list u8) (i : Z) : option Z :=
  match l with
  | [] => None
  | a :: l => if Ascii.eqb a "Z" || Ascii.eqb a "+" || Ascii.eqb a "-" then Some i else find_zone l (i + 1)
  end.

Definition zone_start (s : string) : outcome string (option Z) :=
  let b := bytes_of_str s in
  if 19 <? slen s then
    let? a := read (index b 19) in
    if Ascii.eqb a "." then let? rest := read (slice b 20 (slen s)) in Some (Ok (find_zone rest 20))
    else Some (Ok (Some 19))
  else Some (Ok None).

Definition zone_offset (s : string) (tz_start : option Z) : outcome string Z :=
  let b := bytes_of_str s in
  match tz_start with
  | None => Some (Ok 0)
  | Some pos =>
      let? utc := (if pos <? slen s then let? a := read (index b pos) in Some (Ok (Ascii.eqb a "Z")) else Some (Ok false)) in
      if utc then Some (Ok 0)
      else if pos + 5 <=? slen s then
        let? a := read (index b pos) in
        let sign := if Ascii.eqb a "+" then 1 else -1 in
        let? oh := number "tz hour" parse_signed s (pos + 1) (pos + 3) in
        let? c := read (index b (pos + 3)) in
        let om_start := if Ascii.eqb c ":" then pos + 4 else pos + 3 in
        if slen s <? om_start + 2 then Some (Err "tz min too short")
        else
          let? om := number "tz min" parse_signed s om_start (om_start + 2) in
          Some (Ok (sign * (oh * 3600 + om * 60)))
      else Some (Ok 0)
  end.

Definition parse_rfc3339 (s : string) : outcome string Z :=
  let s := trim s in
  if slen s <? 19 then Some (Err "date too short")
  else if negb (is_ascii s) then Some (Err "non-ASCII date")
  else
    let? year := number "year" parse_signed s 0 4 in
    let? month := number "month" parse_unsigned s 5 7 in
    let? day := number "day" parse_unsigned s 8 10 in
    let? hour := number "hour" parse_unsigned s 11 13 in
    let? min := number "min" parse_unsigned s 14 16 in
    let? sec := number "sec" parse_unsigned s 17 19 in
    if negb ((1 <=? month) && (month <=? 12)) then Some (Err ("month " +:+ pretty month +:+ " out of range"))
    else if negb ((1 <=? day) && (day <=? 31)) then Some (Err ("day " +:+ pretty day +:+ " out of range"))
    else if (23 <? hour) || (59 <? min) || (59 <? sec) then Some (Err "time out of range")
    else
      let base_secs := days_since_epoch year month day * 86400 + hour * 3600 + min * 60 + sec in
      let? tz_start := zone_start s in
      let? offset_secs := zone_offset s tz_start in
      Some (Ok (Z.max (base_secs - offset_secs) 0)).

(** ** The calendar *)
Definition is_leap (y : Z) : bool := (y mod 4 =? 0) && (negb (y mod 100 =? 0) || (y mod 400 =? 0)).

Definition days_in_month (y m : Z) : Z :=
  if m =? 2 then (if is_leap y then 29 else 28)
  else if (m =? 4) || (m =? 6) || (m =? 9) || (m =? 11) then 30 else 31.

Definition valid_date (date : Z * Z * Z) : Prop :=
  let '(y, m, d) := date in 1 <= m <= 12 /\ 1 <= d <= days_in_month y m.

Definition next_day (date : Z * Z * Z) : Z * Z * Z :=
  let '(y, m, d) := date in
  if d <? days_in_month y m then (y, m, d + 1) else if m <? 12 then (y, m + 1, 1) else (y + 1, 1, 1).

(** ** Days and dates are inverse *)

(** The year of a cycle of 400 years that starts in March, and the day in it. *)
Lemma cycle_year doe :
  0 <= doe <= 146096 ->
  let yoe := (doe - doe / 1460 + doe / 36524 - doe / 146096) / 365 in
  0 <= yoe <= 399 /\ 0 <= doe - (365 * yoe + yoe / 4 - yoe / 100) <= 364 + (if is_leap (yoe + 1) then 1 else 0).
Proof.
  intros H. cbv zeta. unfold is_leap. Z.to_euclidean_division_equations.
  split; [lia|]. split; [lia|].
  repeat match goal with |- context [?a =? ?b] => destruct (Z.eqb_spec a b) end; cbn [negb andb orb]; lia.
Qed.

Lemma is_leap_cycle y era : is_leap (y + era * 400) = is_leap y.
Proof.
  unfold is_leap.
  replace ((y + era * 400) mod 4) with (y mod 4) by (Z.to_euclidean_division_equations; lia).
  replace ((y + era * 400) mod 100) with (y mod 100) by (Z.to_euclidean_division_equations; lia).
  replace ((y + era * 400) mod 400) with (y mod 400) by (Z.to_euclidean_division_equations; lia). done.
Qed.

(** The month of a day in a year that starts in March. *)
Definition march_length (mp : Z) : Z := if (mp =? 1) || (mp =? 3) || (mp =? 6) || (mp =? 8) then 30 else 31.

Lemma march_month doy :
  0 <= doy <= 365 ->
  let mp := (5 * doy + 2) / 153 in
  let d := doy - (153 * mp + 2) / 5 + 1 in
  0 <= mp <= 11 /\ 1 <= d /\ (153 * mp + 2) / 5 + d - 1 = doy
  /\ (mp = 11 -> d = doy - 336) /\ (mp <> 11 -> d <= march_length mp).
Proof.
  intros H. cbv zeta. set (mp := (5 * doy + 2) / 153).
  assert (M : 153 * mp <= 5 * doy + 2 < 153 * mp + 153) by (unfold mp; Z.to_euclidean_division_equations; lia).
  clearbody mp. assert (R : 0 <= mp <= 11) by lia. split; [done|].
  assert (C : mp = 0 \/ mp = 1 \/ mp = 2 \/ mp = 3 \/ mp = 4 \/ mp = 5 \/ mp = 6 \/ mp = 7 \/ mp = 8 \/ mp = 9 \/ mp = 10 \/ mp = 11) by lia.
  unfold march_length. repeat destruct C as [->|C]; [..|subst mp];
    split_and!; intros; cbn [orb Z.eqb Pos.eqb]; Z.to_euclidean_division_equations; lia.
Qed.

(** Every formatter computes the same date: the year without the cast. *)
Definition civil_date (z : Z) : Z * Z * Z :=
  let z := z + 719468 in
  let era := z / 146097 in
  let doe := z mod 146097 in
  let yoe := (doe - doe / 1460 + doe / 36524 - doe / 146096) / 365 in
  let doy := doe - (365 * yoe + yoe / 4 - yoe / 100) in
  let mp := (5 * doy + 2) / 153 in
  let m := if mp <? 10 then mp + 3 else mp - 9 in
  (yoe + era * 400 + (if m <=? 2 then 1 else 0), m, doy - (153 * mp + 2) / 5 + 1).

Lemma era_floor z : Z.quot (if 0 <=? z then z else z - 146096) 146097 = z / 146097.
Proof. destruct (Z.leb_spec 0 z); Z.to_euclidean_division_equations; lia. Qed.

Lemma civil_date_spec z :
  let '(y, m, d) := civil_date z in valid_date (y, m, d) /\ days_since_epoch y m d = z.
Proof.
  unfold civil_date. set (era := (z + 719468) / 146097). set (doe := (z + 719468) mod 146097).
  assert (E : z + 719468 = era * 146097 + doe) by (unfold era, doe; Z.to_euclidean_division_equations; lia).
  assert (B : 0 <= doe <= 146096) by (unfold doe; Z.to_euclidean_division_equations; lia). clearbody era doe.
  pose proof (cycle_year doe B) as Y. cbv zeta in *. set (yoe := (doe - _ + _ - _) / 365) in *.
  set (doy := doe - (365 * yoe + yoe / 4 - yoe / 100)) in *. destruct Y as [Y D].
  assert (Dy : doe = yoe * 365 + yoe / 4 - yoe / 100 + doy) by (unfold doy; lia).
  clearbody yoe. assert (D' : 0 <= doy <= 365) by (destruct (is_leap (yoe + 1)); lia).
  pose proof (march_month doy D') as M. cbv zeta in M. set (mp := (5 * doy + 2) / 153) in *.
  set (d := doy - (153 * mp + 2) / 5 + 1) in *. clearbody doy mp d.
  destruct M as (M & D1 & Md & F & L). unfold valid_date, days_since_epoch, days_in_month.
  assert (Lp : is_leap (yoe + era * 400 + 1) = is_leap (yoe + 1))
    by (replace (yoe + era * 400 + 1) with (yoe + 1 + era * 400) by lia; apply is_leap_cycle).
  destruct (Z.ltb_spec mp 10) as [Hm|Hm].
  - assert (N : (mp + 3 <=? 2) = false) by lia. rewrite N. rewrite !Z.add_0_r.
    replace (mp + 3 - 3) with mp by lia.
    replace ((yoe + era * 400) / 400) with era by (Z.to_euclidean_division_equations; lia).
    replace ((yoe + era * 400) mod 400) with yoe by (Z.to_euclidean_division_equations; lia).
    split; [|lia]. split; [lia|]. split; [done|]. specialize (L ltac:(lia)). unfold march_length in L.
    destruct (Z.eqb_spec (mp + 3) 2); [lia|].
    destruct (Z.eqb_spec mp 1), (Z.eqb_spec mp 3), (Z.eqb_spec mp 6), (Z.eqb_spec mp 8),
      (Z.eqb_spec (mp + 3) 4), (Z.eqb_spec (mp + 3) 6), (Z.eqb_spec (mp + 3) 9), (Z.eqb_spec (mp + 3) 11); cbn in *; lia.
  - assert (N : (mp - 9 <=? 2) = true) by lia. rewrite N.
    replace (mp - 9 + 9) with mp by lia. replace (yoe + era * 400 + 1 - 1) with (yoe + era * 400) by lia.
    replace ((yoe + era * 400) / 400) with era by (Z.to_euclidean_division_equations; lia).
    replace ((yoe + era * 400) mod 400) with yoe by (Z.to_euclidean_division_equations; lia).
    split; [|lia]. split; [lia|]. split; [done|]. rewrite Lp.
    destruct (Z.eqb_spec (mp - 9) 2).
    + specialize (F ltac:(lia)). destruct (is_leap (yoe + 1)); lia.
    + specialize (L ltac:(lia)). unfold march_length in L. assert (mp = 10) as -> by lia. cbn in L. change (10 - 9) with 1. cbn [Z.eqb Pos.eqb orb]. lia.
Qed.

(** The days before a year that starts in March. *)
Lemma march_years y :
  y / 400 * 146097 + (y mod 400 * 365 + y mod 400 / 4 - y mod 400 / 100) = 365 * y + y / 4 - y / 100 + y / 400.
Proof. Z.to_euclidean_division_equations. lia. Qed.

Lemma march_step y : 365 * y + y / 4 - y / 100 + y / 400
  = 365 * (y - 1) + (y - 1) / 4 - (y - 1) / 100 + (y - 1) / 400 + (if is_leap y then 366 else 365).
Proof.
  unfold is_leap. Z.to_euclidean_division_equations.
  repeat match goal with |- context [?a =? ?b] => destruct (Z.eqb_spec a b) end; cbn [negb andb orb]; lia.
Qed.

Lemma days_from_march y m d :
  days_since_epoch y m d
  = (let y := if m <=? 2 then y - 1 else y in 365 * y + y / 4 - y / 100 + y / 400)
    + (153 * (if m <=? 2 then m + 9 else m - 3) + 2) / 5 + d - 1 - 719468.
Proof. unfold days_since_epoch. cbv zeta. set (y' := if m <=? 2 then y - 1 else y). rewrite <- (march_years y'). lia. Qed.

(** The calendar goes on by one day. *)
Lemma days_step date :
  valid_date date ->
  let '(y, m, d) := date in let '(y', m', d') := next_day date in
  valid_date (y', m', d') /\ days_since_epoch y' m' d' = days_since_epoch y m d + 1.
Proof.
  destruct date as [[y m] d]. intros [M D]. unfold next_day. rewrite days_from_march.
  destruct (Z.ltb_spec d (days_in_month y m)).
  { split; [unfold valid_date; lia|]. rewrite days_from_march. lia. }
  assert (d = days_in_month y m) as -> by lia.
  assert (C : m = 1 \/ m = 2 \/ m = 3 \/ m = 4 \/ m = 5 \/ m = 6 \/ m = 7 \/ m = 8 \/ m = 9 \/ m = 10 \/ m = 11 \/ m = 12) by lia.
  destruct (decide (m = 2)) as [->|N2].
  { cbn [Z.ltb Z.compare Pos.compare Pos.compare_cont]. change (2 + 1) with 3. split; [by split|].
    rewrite days_from_march. change (3 <=? 2) with false. change (2 <=? 2) with true. cbv zeta iota.
    rewrite (march_step y). unfold days_in_month. cbn [Z.eqb Pos.eqb]. destruct (is_leap y);
      change ((153 * (3 - 3) + 2) / 5) with 0; change ((153 * (2 + 9) + 2) / 5) with 337; lia. }
  destruct (Z.ltb_spec m 12) as [H12|H12]; rewrite days_from_march.
  - split; [split; [lia|unfold days_in_month; repeat case_match; lia]|].
    assert ((m + 1 <=? 2) = (m <=? 2)) as -> by lia. cbv zeta. set (g := 365 * _ + _ / 4 - _ / 100 + _ / 400). clearbody g.
    unfold days_in_month. repeat destruct C as [->|C]; try subst m; try lia;
      cbn [Z.leb Z.eqb Z.compare Pos.compare Pos.compare_cont Pos.eqb orb]; Z.to_euclidean_division_equations; lia.
  - assert (m = 12) as -> by lia. split; [by split|]. change (1 <=? 2) with true. change (12 <=? 2) with false.
    change (days_in_month y 12) with 31. cbv zeta iota. replace (y + 1 - 1) with y by lia.
    set (g := 365 * _ + _ / 4 - _ / 100 + _ / 400). clearbody g. Z.to_euclidean_division_equations. lia.
Qed.

(** Days are counted in the order of the dates, so no two dates share one. *)
Lemma month_days y m : 1 <= m <= 12 -> days_since_epoch y m 1 + days_in_month y m
  = if m <? 12 then days_since_epoch y (m + 1) 1 else days_since_epoch (y + 1) 1 1.
Proof.
  intros M. assert (L : 1 <= days_in_month y m) by (unfold days_in_month; repeat case_match; lia).
  pose proof (days_step (y, m, days_in_month y m)) as S. cbn [valid_date next_day] in S.
  rewrite (proj2 (Z.ltb_ge _ _) (Z.le_refl _)) in S.
  destruct (m <? 12); destruct (S ltac:(lia)) as [_ E]; rewrite E, !days_from_march; lia.
Qed.

Lemma days_later y m d y' m' d' :
  valid_date (y, m, d) -> valid_date (y', m', d') -> y < y' \/ y = y' /\ (m < m' \/ m = m' /\ d < d') ->
  days_since_epoch y m d < days_since_epoch y' m' d'.
Proof.
  intros [M D] [M' D'].
  assert (In : forall k, (k <= 11)%nat -> forall n, 1 <= n -> n + Z.of_nat k <= 12 -> forall w,
    days_since_epoch w n 1 <= days_since_epoch w (n + Z.of_nat k) 1).
  { induction k as [|k IH]; intros Hk n Hn Hs w; [by rewrite Z.add_0_r|].
    pose proof (IH ltac:(lia) n Hn ltac:(lia) w) as H. pose proof (month_days w (n + Z.of_nat k) ltac:(lia)) as E.
    rewrite (proj2 (Z.ltb_lt _ _)) in E by lia.
    assert (0 <= days_in_month w (n + Z.of_nat k)) by (unfold days_in_month; repeat case_match; lia).
    replace (n + Z.of_nat (S k)) with (n + Z.of_nat k + 1) by lia. lia. }
  assert (Le : forall w n n', 1 <= n <= n' -> n' <= 12 -> days_since_epoch w n 1 <= days_since_epoch w n' 1).
  { intros w n n' H H'. replace n' with (n + Z.of_nat (Z.to_nat (n' - n))) by lia. apply In; lia. }
  assert (Dec : forall w n, 1 <= n <= 12 -> days_since_epoch w n 1 + days_in_month w n <= days_since_epoch (w + 1) 1 1).
  { intros w n H. pose proof (month_days w n H) as E. destruct (Z.ltb_spec n 12); [|lia].
    pose proof (month_days w 12 ltac:(lia)) as E'. change (12 <? 12) with false in E'. cbn iota in E'.
    change (days_in_month w 12) with 31 in E'. pose proof (Le w (n + 1) 12 ltac:(lia) ltac:(lia)). lia. }
  assert (Ye : forall k : nat, days_since_epoch (y + 1) 1 1 <= days_since_epoch (y + 1 + Z.of_nat k) 1 1).
  { induction k as [|k IH]; [by rewrite Z.add_0_r|]. pose proof (Dec (y + 1 + Z.of_nat k) 1 ltac:(lia)) as H.
    change (days_in_month (y + 1 + Z.of_nat k) 1) with 31 in H.
    replace (y + 1 + Z.of_nat (S k)) with (y + 1 + Z.of_nat k + 1) by lia. lia. }
  assert (Dd : forall w n e, days_since_epoch w n e = days_since_epoch w n 1 + e - 1) by (intros; rewrite !days_from_march; lia).
  rewrite (Dd y m d), (Dd y' m' d'). intros [H|[-> [H|[-> H]]]]; [| |lia].
  - pose proof (Dec y m M). pose proof (Ye (Z.to_nat (y' - y - 1))) as E.
    replace (y + 1 + Z.of_nat (Z.to_nat (y' - y - 1))) with y' in E by lia.
    pose proof (Le y' 1 m' ltac:(lia) ltac:(lia)). lia.
  - pose proof (month_days y' m M) as E. rewrite (proj2 (Z.ltb_lt _ _)) in E by lia.
    pose proof (Le y' (m + 1) m' ltac:(lia) ltac:(lia)). lia.
Qed.

Lemma days_inj y m d y' m' d' :
  valid_date (y, m, d) -> valid_date (y', m', d') -> days_since_epoch y m d = days_since_epoch y' m' d' ->
  (y, m, d) = (y', m', d').
Proof.
  intros V V' E. destruct (decide ((y, m, d) = (y', m', d'))) as [|N]; [done|]. exfalso.
  assert (C : (y < y' \/ y = y' /\ (m < m' \/ m = m' /\ d < d')) \/ (y' < y \/ y' = y /\ (m' < m \/ m' = m /\ d' < d))).
  { destruct (Z.lt_trichotomy y y') as [|[->|]]; [tauto| |tauto].
    destruct (Z.lt_trichotomy m m') as [|[->|]]; [tauto| |tauto].
    destruct (Z.lt_trichotomy d d') as [|[->|]]; [tauto|done|tauto]. }
  destruct C as [C|C]; [pose proof (days_later _ _ _ _ _ _ V V' C)|pose proof (days_later _ _ _ _ _ _ V' V C)]; lia.
Qed.

(** The year of a date within the range of the cast. *)
Lemma civil_from_days_date z : 0 <= z < 2 ^ 39 -> civil_from_days z = civil_date z.
Proof.
  intros H. unfold civil_from_days, civil_date. rewrite era_floor.
  replace (z + 719468 - (z + 719468) / 146097 * 146097) with ((z + 719468) mod 146097) by (Z.to_euclidean_division_equations; lia).
  set (era := (z + 719468) / 146097). set (doe := (z + 719468) mod 146097).
  assert (B : 0 <= doe <= 146096) by (unfold doe; Z.to_euclidean_division_equations; lia).
  assert (Er : 0 <= era <= 4000000) by (unfold era; Z.to_euclidean_division_equations; lia). clearbody era doe.
  destruct (cycle_year doe B) as [Y _]. set (yoe := (doe - _ + _ - _) / 365) in *. clearbody yoe.
  set (mp := (5 * _ + 2) / 153). set (m := if mp <? 10 then _ else _).
  f_equal. f_equal. unfold to_i32. destruct (m <=? 2); rewrite ?Z.add_0_r; rewrite Z.mod_small by lia; lia.
Qed.

(** Dates follow the calendar: day 0 is the first of January 1970, every day
    has a date of the calendar, and the date of the next day is the next date. *)
Theorem dates_follow_calendar z :
  0 <= z < 2 ^ 39 - 1 ->
  civil_from_days 0 = (1970, 1, 1) /\ valid_date (civil_from_days z)
  /\ civil_from_days (z + 1) = next_day (civil_from_days z).
Proof.
  intros H. rewrite !civil_from_days_date by lia. split; [reflexivity|].
  pose proof (civil_date_spec z) as S. destruct (civil_date z) as [[y m] d]. destruct S as [V E]. split; [done|].
  pose proof (days_step (y, m, d) V) as N. destruct (next_day (y, m, d)) as [[y' m'] d']. destruct N as [V' E'].
  pose proof (civil_date_spec (z + 1)) as S. destruct (civil_date (z + 1)) as [[y1 m1] d1]. destruct S as [V1 E1].
  apply days_inj; [done|done|lia].
Qed.

Lemma amz_date_at_date secs :
  amz_date_at secs
  = let '(y, m, d) := civil_date (secs / 86400) in
    pad0 4 y +:+ pad0 2 m +:+ pad0 2 d +:+ "T"
    +:+ pad0 2 (secs mod 86400 / 3600) +:+ pad0 2 (secs mod 86400 mod 3600 / 60) +:+ pad0 2 (secs mod 86400 mod 60) +:+ "Z".
Proof.
  unfold amz_date_at, civil_date. rewrite era_floor. set (z := secs / 86400).
  replace (z + 719468 - (z + 719468) / 146097 * 146097) with ((z + 719468) mod 146097) by (Z.to_euclidean_division_equations; lia).
  set (mp := (5 * _ + 2) / 153). set (m := if mp <? 10 then _ else _).
  destruct (m <=? 2); by rewrite ?Z.add_0_r.
Qed.

(** The two signers write the same date, and it is cut off the stamp. *)
Theorem signing_dates_agree secs :
  0 <= secs < 2 ^ 55 -> (format_amz_date secs).1 = amz_date_at secs /\ starts_with (format_amz_date secs).2 (amz_date_at secs) = true.
Proof.
  intros H. rewrite amz_date_at_date. unfold format_amz_date.
  rewrite civil_from_days_date by (Z.to_euclidean_division_equations; lia).
  destruct (civil_date (secs / 86400)) as [[y m] d]. cbn [fst snd]. rewrite !str_app_assoc. split; [done|].
  unfold starts_with. set (p := pad0 4 y +:+ pad0 2 m +:+ pad0 2 d).
  match goal with |- is_some (strip_prefix p ?s) = true => replace s with (p +:+ ("T" +:+ pad0 2 (secs mod 86400 / 3600)
    +:+ pad0 2 (secs mod 86400 mod 3600 / 60) +:+ pad0 2 (secs mod 86400 mod 60) +:+ "Z")) end.
  - by rewrite strip_prefix_app.
  - unfold p. by rewrite !str_app_assoc.
Qed.

(** ** A written date is read back *)

(** An ASCII byte that is no white space. *)
Definition plain_char (a : ascii) : bool := (byte_val a <? 128) && negb (ws1 a).

Definition two_check (n : Z) : bool :=
  match pad0 2 n with
  | String a (String b EmptyString) =>
      bool_decide (parse_unsigned (pad0 2 n) = Some n) && plain_char a && plain_char b
  | _ => false
  end.

Definition four_check (n : Z) : bool :=
  match pad0 4 n with
  | String a (String b (String c (String d EmptyString))) =>
      bool_decide (parse_signed (pad0 4 n) = Some n) && plain_char a && plain_char b && plain_char c && plain_char d
  | _ => false
  end.

Lemma checked (check : Z -> bool) k n :
  forallb check (map Z.of_nat (seq 0 (Z.to_nat k))) = true -> 0 <= n < k -> check n = true.
Proof.
  rewrite forallb_forall. intros H B. apply H, in_map_iff. exists (Z.to_nat n). split; [lia|]. apply in_seq. lia.
Qed.

Lemma two_digits n : 0 <= n <= 99 -> exists a b, pad0 2 n = String a (String b "")
  /\ parse_unsigned (String a (String b "")) = Some n /\ plain_char a = true /\ plain_char b = true.
Proof.
  intros B. assert (C : two_check n = true) by (apply (checked _ 100); [vm_compute; reflexivity|lia]).
  unfold two_check in C. destruct (pad0 2 n) as [|a [|b []]]; try done. exists a, b.
  apply andb_true_iff in C as [[P%bool_decide_eq_true A]%andb_true_iff B']. done.
Qed.

Lemma four_digits n : 0 <= n <= 9999 -> exists a b c d, pad0 4 n = String a (String b (String c (String d "")))
  /\ parse_signed (String a (String b (String c (String d "")))) = Some n
  /\ plain_char a = true /\ plain_char b = true /\ plain_char c = true /\ plain_char d = true.
Proof.
  intros B. assert (C : four_check n = true) by (apply (checked _ 10000); [vm_compute; reflexivity|lia]).
  unfold four_check in C. destruct (pad0 4 n) as [|a [|b [|c [|d []]]]]; try done. exists a, b, c, d.
  rewrite !andb_true_iff in C. destruct C as [[[[P%bool_decide_eq_true ?] ?] ?] ?]. done.
Qed.

Lemma trim_plain a s b : plain_char a = true -> plain_char b = true -> trim (String a (s +:+ String b "")) = String a (s +:+ String b "").
Proof.
  unfold plain_char. intros [A1 A2]%andb_true_iff [B1 B2]%andb_true_iff.
  apply Z.ltb_lt in A1. apply Z.ltb_lt in B1. apply negb_true_iff in A2, B2.
  assert (Wa : (forall x, ws2 a x = false) /\ (forall x y, ws3 a x y = false)) by (split; intros; unfold ws2, ws3, byte_in; lia).
  assert (Wb : (forall x, ws2 x b = false) /\ (forall x y, ws3 x y b = false)) by (split; intros; unfold ws2, ws3, byte_in; lia).
  destruct Wa as [A3 A4], Wb as [B3 B4].
  assert (T : trim_start (String a (s +:+ String b "")) = String a (s +:+ String b "")).
  { apply trim_start_spec. cbn [head_ws]. rewrite A2. cbn [orb].
    repeat case_match; by rewrite ?A3, ?A4. }
  unfold trim. rewrite T. unfold trim_end.
  assert (R : str_rev (String a (s +:+ String b "")) = String b (str_rev s +:+ String a "")).
  { by rewrite str_rev_cons, str_rev_concat, str_rev_cons, str_app_assoc. }
  rewrite R. assert (Tr : trim_rev (String b (str_rev s +:+ String a "")) = String b (str_rev s +:+ String a "")).
  { apply trim_rev_spec. cbn [head_ws_rev]. rewrite B2. cbn [orb].
    repeat case_match; by rewrite ?B3, ?B4. }
  rewrite Tr, <- R. apply str_rev_involutive.
Qed.

Lemma format_rfc3339_date t :
  format_rfc3339_epoch t
  = let '(y, m, d) := civil_date (t / 86400) in
    pad0 4 y +:+ "-" +:+ pad0 2 m +:+ "-" +:+ pad0 2 d +:+ "T" +:+ pad0 2 (t mod 86400 / 3600) +:+ ":"
    +:+ pad0 2 (t mod 86400 mod 3600 / 60) +:+ ":" +:+ pad0 2 (t mod 86400 mod 60) +:+ "Z".
Proof.
  unfold format_rfc3339_epoch, civil_date. set (mp := (5 * _ + 2) / 153). set (m := if mp <? 10 then _ else _).
  destruct (m <=? 2); by rewrite ?Z.add_0_r.
Qed.

(** The year 10000 begins at 253402300800. *)
Lemma year_range z : 0 <= z < 2932897 -> let '(y, m, d) := civil_date z in 1970 <= y <= 9999.
Proof.
  intros H. pose proof (civil_date_spec z) as S. destruct (civil_date z) as [[y m] d]. destruct S as [V E].
  split.
  - destruct (decide (1970 <= y)); [done|]. exfalso.
    pose proof (days_later y m d 1970 1 1 V ltac:(by split) ltac:(lia)) as L.
    change (days_since_epoch 1970 1 1) with 0 in L. lia.
  - destruct (decide (y <= 9999)); [done|]. exfalso.
    assert (L : days_since_epoch 9999 12 31 < days_since_epoch y m d) by (apply days_later; [by split|done|lia]).
    change (days_since_epoch 9999 12 31) with 2932896 in L. lia.
Qed.

(** A written date is read back as the same second, up to the year 9999. *)
Theorem date_round_trip t :
  0 <= t < 253402300800 -> parse_rfc3339 (format_rfc3339_epoch t) = Some (Ok t).
Proof.
  intros H. rewrite format_rfc3339_date.
  pose proof (year_range (t / 86400) ltac:(Z.to_euclidean_division_equations; lia)) as Y.
  pose proof (civil_date_spec (t / 86400)) as S. destruct (civil_date (t / 86400)) as [[y m] d]. destruct S as [[M D] E].
  assert (D' : 1 <= d <= 31) by (unfold days_in_month in D; repeat case_match; lia).
  set (h := t mod 86400 / 3600). set (mi := t mod 86400 mod 3600 / 60). set (s := t mod 86400 mod 60).
  assert (Hh : 0 <= h <= 23) by (unfold h; Z.to_euclidean_division_equations; lia).
  assert (Hm : 0 <= mi <= 59) by (unfold mi; Z.to_euclidean_division_equations; lia).
  assert (Hs : 0 <= s <= 59) by (unfold s; Z.to_euclidean_division_equations; lia).
  assert (T : t = t / 86400 * 86400 + h * 3600 + mi * 60 + s) by (unfold h, mi, s; Z.to_euclidean_division_equations; lia).
  clearbody h mi s.
  destruct (four_digits y ltac:(lia)) as (y1 & y2 & y3 & y4 & -> & Py & Y1 & Y2 & Y3 & Y4).
  destruct (two_digits m ltac:(lia)) as (m1 & m2 & -> & Pm & M1 & M2).
  destruct (two_digits d ltac:(lia)) as (d1 & d2 & -> & Pd & D1 & D2).
  destruct (two_digits h ltac:(lia)) as (h1 & h2 & -> & Ph & H1 & H2).
  destruct (two_digits mi ltac:(lia)) as (i1 & i2 & -> & Pi & I1 & I2).
  destruct (two_digits s ltac:(lia)) as (s1 & s2 & -> & Ps & S1 & S2).
  match goal with |- parse_rfc3339 ?x = _ => set (x0 := x) end.
  assert (Tr : trim x0 = x0).
  { exact (trim_plain y1 (String y2 (String y3 (String y4 (String "-" (String m1 (String m2 (String "-" (String d1 (String d2
      (String "T" (String h1 (String h2 (String ":" (String i1 (String i2 (String ":" (String s1 (String s2 ""))))))))))))))))))
      "Z" Y1 eq_refl). }
  assert (Nu : forall what parse lo hi digits n,
    slice (bytes_of_str x0) lo hi = Some (bytes_of_str digits) -> parse digits = Some n -> number what parse x0 lo hi = Some (Ok n)).
  { intros what parse lo hi digits n Sl P. unfold number. rewrite Sl. cbn [read fmap option_fmap option_map obind].
    by rewrite str_of_bytes_of_str, P. }
  assert (As : is_ascii x0 = true).
  { assert (Pc : forall a, plain_char a = true -> (byte_val a <? 128) = true) by (intros a [? _]%andb_true_iff; done).
    unfold x0. clear Tr Nu x0. cbv [is_ascii bytes_of_str String.list_ascii_of_string String.append forallb]. by rewrite !Pc. }
  unfold parse_rfc3339. rewrite Tr. change (slen x0 <? 19) with false. rewrite As. cbn [negb].
  rewrite (Nu "year" parse_signed 0 4 (String y1 (String y2 (String y3 (String y4 "")))) y eq_refl Py). cbn [obind].
  rewrite (Nu "month" parse_unsigned 5 7 (String m1 (String m2 "")) m eq_refl Pm). cbn [obind].
  rewrite (Nu "day" parse_unsigned 8 10 (String d1 (String d2 "")) d eq_refl Pd). cbn [obind].
  rewrite (Nu "hour" parse_unsigned 11 13 (String h1 (String h2 "")) h eq_refl Ph). cbn [obind].
  rewrite (Nu "min" parse_unsigned 14 16 (String i1 (String i2 "")) mi eq_refl Pi). cbn [obind].
  rewrite (Nu "sec" parse_unsigned 17 19 (String s1 (String s2 "")) s eq_refl Ps). cbn [obind].
  assert ((1 <=? m) && (m <=? 12) = true) as -> by lia. assert ((1 <=? d) && (d <=? 31) = true) as -> by lia.
  assert ((23 <? h) || (59 <? mi) || (59 <? s) = false) as -> by lia. cbn [negb].
  change (zone_start x0) with (Some (Ok (Some 19) : result string (option Z))). cbn [obind].
  change (zone_offset x0 (Some 19)) with (Some (Ok 0 : result string Z)). cbn [obind]. rewrite E. do 2 f_equal. lia.
Qed.

(** ** Reading a date never panics *)
Lemma number_returns what parse s lo hi :
  0 <= lo -> lo <= hi -> hi <= slen s -> returns (number what parse s lo hi).
Proof.
  intros A B C. unfold number, slice. rewrite slen_bytes in C.
  assert ((0 <=? lo) && (lo <=? hi) && (hi <=? vlen (bytes_of_str s)) = true) as -> by lia.
  cbn [read fmap option_fmap option_map obind]. done.
Qed.

Lemma obind_returns {E A B} (m : outcome E A) (f : A -> outcome E B) :
  returns m -> (forall a, m = Some (Ok a) -> returns (f a)) -> returns (obind m f).
Proof. unfold returns. intros H F. destruct m as [[a|e]|]; cbn [obind]; [by apply F|done|done]. Qed.

Lemma index_returns s i : 0 <= i < slen s -> returns (read (E := string) (index (bytes_of_str s) i)).
Proof.
  intros H. rewrite slen_bytes in H. unfold index, read, returns. assert ((0 <=? i) = true) as -> by lia.
  destruct (lookup_lt_is_Some_2 (bytes_of_str s) (Z.to_nat i)) as [a ->]; [unfold vlen in H; lia|done].
Qed.

Lemma find_zone_from l i pos : find_zone l i = Some pos -> i <= pos.
Proof.
  revert i. induction l as [|a l IH]; intros i; cbn [find_zone]; [done|]. destruct (_ || _); [intros [= ->]; lia|].
  intros H. apply IH in H. lia.
Qed.

(** Whatever the text, reading it as a date returns a second or an error: no
    index is out of range. *)
Theorem date_never_panics s : parse_rfc3339 s <> None.
Proof.
  unfold parse_rfc3339. set (x := trim s). clearbody x. destruct (Z.ltb_spec (slen x) 19) as [|L]; [done|].
  destruct (negb (is_ascii x)); [done|].
  do 6 (apply obind_returns; [apply number_returns; lia|intros ? _]).
  destruct (negb _); [done|]. destruct (negb _); [done|]. destruct (_ || _); [done|].
  apply obind_returns.
  - unfold zone_start. destruct (Z.ltb_spec 19 (slen x)); [|done]. apply obind_returns; [apply index_returns; lia|].
    intros ch _. destruct (Ascii.eqb ch "."); [|done]. apply obind_returns; [|done]. unfold slice. rewrite slen_bytes in *.
    assert ((0 <=? 20) && (20 <=? vlen (bytes_of_str x)) && (vlen (bytes_of_str x) <=? vlen (bytes_of_str x)) = true) as -> by lia. done.
  - intros zone Z. apply obind_returns; [|done]. unfold zone_offset. destruct zone as [pos|]; [|done].
    assert (P : 19 <= pos).
    { revert Z. unfold zone_start. destruct (19 <? slen x); [|done]. destruct (index _ 19) as [ch|]; [|done].
      cbn [read fmap option_fmap option_map obind]. destruct (Ascii.eqb ch "."); [|intros [= <-]; lia].
      destruct (slice _ 20 _); [|done]. cbn [read fmap option_fmap option_map obind]. intros [= F].
      apply find_zone_from in F. lia. }
    apply obind_returns.
    { destruct (Z.ltb_spec pos (slen x)); [|done]. apply obind_returns; [apply index_returns; lia|done]. }
    intros [] _; [done|]. destruct (Z.leb_spec (pos + 5) (slen x)); [|done].
    apply obind_returns; [apply index_returns; lia|intros ch _]. apply obind_returns; [apply number_returns; lia|intros oh _].
    apply obind_returns; [apply index_returns; lia|intros c _].
    set (om := if Ascii.eqb c ":" then pos + 4 else pos + 3). assert (pos + 3 <= om) by (unfold om; destruct (Ascii.eqb c ":"); lia).
    destruct (Z.ltb_spec (slen x) (om + 2)); [done|]. apply obind_returns; [apply number_returns; lia|done].
Qed.

(** ** Witnesses *)
Lemma dates_follow_calendar_witness : civil_from_days (19782 + 1) = next_day (civil_from_days 19782).
Proof. apply (dates_follow_calendar 19782). lia. Defined.

Lemma signing_dates_agree_witness : (format_amz_date 1709210096).1 = amz_date_at 1709210096.
Proof. apply (signing_dates_agree 1709210096). lia. Defined.

Lemma date_round_trip_witness : parse_rfc3339 (format_rfc3339_epoch 1709210096) = Some (Ok 1709210096).
Proof. apply date_round_trip. lia. Defined.

Example leap_day : amz_date_at 1709210096 = "20240229T123456Z".
Proof. vm_compute. reflexivity. Qed.
