(* ===== verification/Signing.v ===== *)
(** * Signing: requests signed for AWS

    [sign_aws_request] of crates/wiremux-auth/src/providers/aws.rs builds the
    canonical text of a request and signs it; crates/wiremux/src/aws_sign.rs
    decides whether a request is signed, and puts the signature on it.  The
    hash and the keyed hash are of other crates: [sha256] and [hmac].  The
    region and the text of a missing credential, which look at files and the
    environment, are arguments too, as is the URL parser. *)

From stdpp Require Import sorting.
From S2P Require Import Prelude Text Json Ir ProfileTypes EventStream Sse Catalog Upstream Guard Headers Dates.

Definition SIGV4_ALGO : string := "AWS4-HMAC-SHA256".

(** ** Encodings *)
Definition lower_hex_digit (d : Z) : ascii := if d <? 10 then byte_of (48 + d) else byte_of (87 + d).

Fixpoint hex_encode (bytes : list u8) : string :=
  match bytes with
  | [] => ""
  | b :: bytes =>
      String (lower_hex_digit (Z.shiftr (byte_val b) 4)) (String (lower_hex_digit (Z.land (byte_val b) 15)) (hex_encode bytes))
  end.

Definition unreserved (b : ascii) : bool := is_ascii_alphanumeric b || existsb (Ascii.eqb b) ["-"; "."; "_"; "~"]%char.

Fixpoint percent_encode (s : string) : string :=
  match s with
  | EmptyString => ""
  | String b t =>
      if unreserved b then String b (percent_encode t)
      else String "%" (String (hex_digit (Z.shiftr (byte_val b) 4)) (String (hex_digit (Z.land (byte_val b) 15)) (percent_encode t)))
  end.

(** [split('/').map(percent_encode).join("/")]: an empty segment stays empty. *)
Definition canonical_uri (path : string) : string :=
  if is_empty path then "/" else str_join "/" (map percent_encode (split_char "/" path)).

(** Runs of white space become one space, and none is left at the ends. *)
Fixpoint fold_spaces (prev_space : bool) (s : string) : string :=
  let space rest := if prev_space then fold_spaces true rest else String " " (fold_spaces true rest) in
  match s with
  | EmptyString => ""
  | String a t =>
      if ws1 a then space t
      else match t with
           | String b u =>
               if ws2 a b then space u
               else match u with
                    | String c v => if ws3 a b c then space v else String a (fold_spaces false t)
                    | EmptyString => String a (fold_spaces false t)
                    end
           | EmptyString => String a (fold_spaces false t)
           end
  end.
Definition trim_header_value (v : string) : string := fold_spaces false (trim v).

Definition to_upper (a : ascii) : ascii := if byte_in 97 122 a then byte_of (byte_val a - 32) else a.
Fixpoint to_ascii_uppercase (s : string) : string :=
  match s with EmptyString => "" | String a t => String (to_upper a) (to_ascii_uppercase t) end.

(** ** The request to sign *)
Record AwsCredentials := mkAwsCredentials {
  access_key_id : string;
  secret_access_key : string;
  session_token : string;
  expiration : option Z
}.

Record AwsSignParams := mkSignParams {
  sp_method : string;
  sp_host : string;
  sp_path : string;
  sp_query : string;
  sp_region : string;
  sp_service : string;
  sp_extra_headers : list (string * string);
  sp_payload : list u8;
  sp_amz_date : string
}.

(** [sort_by(|a, b| a.0.cmp(&b.0))], which is stable, and [dedup_by]. *)
Fixpoint sorted_insert (h : string * string) (l : OutHeaders) : OutHeaders :=
  match l with
  | [] => [h]
  | x :: rest => if String.ltb h.1 x.1 then h :: l else x :: sorted_insert h rest
  end.
Definition sort_headers (l : OutHeaders) : OutHeaders := fold_left (fun acc h => sorted_insert h acc) l [].

Fixpoint dedup_headers (last : option string) (l : OutHeaders) : OutHeaders :=
  match l with
  | [] => []
  | h :: l => if bool_decide (last = Some h.1) then dedup_headers last l else h :: dedup_headers (Some h.1) l
  end.

Definition signed_headers (creds : AwsCredentials) (params : AwsSignParams) : OutHeaders :=
  let headers := [("host", sp_host params); ("x-amz-date", sp_amz_date params)] in
  let headers :=
    if negb (is_empty (session_token creds))
       && negb (existsb (fun h => eq_ignore_ascii_case h.1 "x-amz-security-token") (sp_extra_headers params))
    then headers ++ [("x-amz-security-token", session_token creds)] else headers in
  let headers := headers ++ map (fun h => (to_ascii_lowercase h.1, h.2)) (sp_extra_headers params) in
  dedup_headers None (sort_headers headers).

Section Hashes.
Context (sha256 : list u8 -> list u8) (hmac : list u8 -> list u8 -> result string (list u8)).

Definition canonical_request (params : AwsSignParams) (headers : OutHeaders) : string :=
  let canonical_headers := text_concat (map (fun h => h.1 +:+ ":" +:+ trim_header_value h.2 +:+ nl_str) headers) in
  let path := if is_empty (sp_path params) then "/" else sp_path params in
  to_ascii_uppercase (sp_method params) +:+ nl_str
  +:+ canonical_uri path +:+ nl_str
  +:+ sp_query params +:+ nl_str
  +:+ canonical_headers +:+ nl_str
  +:+ str_join ";" (map fst headers) +:+ nl_str
  +:+ hex_encode (sha256 (sp_payload params)).

Definition signing_key (secret date region service : string) : result string (list u8) :=
  let* k_date := hmac (bytes_of_str ("AWS4" +:+ secret)) (bytes_of_str date) in
  let* k_region := hmac k_date (bytes_of_str region) in
  let* k_service := hmac k_region (bytes_of_str service) in
  hmac k_service (bytes_of_str "aws4_request").

(** [amz_date[..8]] panics inside a character. *)
Definition date_stamp_of (amz_date : string) : option string :=
  let b := bytes_of_str amz_date in
  match index b 8 with
  | Some a => if is_cont a then None else str_of_bytes <$> slice b 0 8
  | None => str_of_bytes <$> slice b 0 8
  end.

Definition sign_aws_request (creds : AwsCredentials) (params : AwsSignParams) : outcome string string :=
  if slen (sp_amz_date params) <? 8 then Some (Err "x-amz-date is too short")
  else
    let? date_stamp := read (date_stamp_of (sp_amz_date params)) in
    let headers := signed_headers creds params in
    let canonical := canonical_request params headers in
    let credential_scope := date_stamp +:+ "/" +:+ sp_region params +:+ "/" +:+ sp_service params +:+ "/aws4_request" in
    let string_to_sign := SIGV4_ALGO +:+ nl_str +:+ sp_amz_date params +:+ nl_str +:+ credential_scope +:+ nl_str
                          +:+ hex_encode (sha256 (bytes_of_str canonical)) in
    let? key := Some (signing_key (secret_access_key creds) date_stamp (sp_region params) (sp_service params)) in
    let? mac := Some (hmac key (bytes_of_str string_to_sign)) in
    Some (Ok (SIGV4_ALGO +:+ " Credential=" +:+ access_key_id creds +:+ "/" +:+ credential_scope
              +:+ ", SignedHeaders=" +:+ str_join ";" (map fst headers) +:+ ", Signature=" +:+ hex_encode mac)).

(** ** Whether a request is signed *)
Inductive AwsSignError := AwsAuth (message : string) | AwsTransport (message : string).

Record AwsSigV4Headers := mkSigV4 { sv_authorization : string; sv_amz_date : string; sv_session_token : string }.

(** The parts of a URL that parses: host, path and query. *)
Record ParsedUrl := mkParsedUrl { pu_host : option string; pu_path : string; pu_query : option string }.

Context (url_parse : string -> result string ParsedUrl) (resolve_region : ResolvedProfile -> string)
  (missing_creds_message : ResolvedProfile -> string).

Definition prepare_aws_sigv4 (profile : ResolvedProfile) (url method : string) (body : list u8)
    (creds : option AwsCredentials) (amz_date : string) : outcome AwsSignError (option AwsSigV4Headers) :=
  match opt_filter (fun s => negb (is_empty s)) (h_aws_service (http profile)) with
  | None => Some (Ok None)
  | Some service =>
      match opt_filter (fun c => negb (is_empty (access_key_id c)) && negb (is_empty (secret_access_key c))) creds with
      | None => Some (Err (AwsAuth (missing_creds_message profile)))
      | Some creds =>
          match url_parse url with
          | Err err => Some (Err (AwsTransport ("aws sigv4 url: " +:+ err)))
          | Ok parsed =>
              match opt_filter (fun h => negb (is_empty h)) (pu_host parsed) with
              | None => Some (Err (AwsTransport "aws sigv4 url has no host"))
              | Some host =>
                  let path := if is_empty (pu_path parsed) then "/" else pu_path parsed in
                  let query := unwrap_or (pu_query parsed) "" in
                  match sign_aws_request creds
                          (mkSignParams method host path query (resolve_region profile) service
                             [("content-type", "application/json")] body amz_date) with
                  | None => None
                  | Some (Err err) => Some (Err (AwsAuth err))
                  | Some (Ok authorization) =>
                      Some (Ok (Some (mkSigV4 authorization amz_date (session_token creds))))
                  end
              end
          end
      end
  end.

(** [HeaderMap::insert] replaces every value of the name. *)
Definition header_insert (name value : string) (req : OutHeaders) : OutHeaders :=
  List.filter (fun h => negb (eq_ignore_ascii_case h.1 name)) req ++ [(name, value)].

(** Whether a text is a header value, and the message when it is not. *)
Context (header_value : string -> option string).

Definition parse_header (value : string) : result AwsSignError string :=
  match header_value value with
  | None => Ok value
  | Some err => Err (AwsTransport ("aws sigv4 header: " +:+ err))
  end.

Definition insert_sigv4 (req : OutHeaders) (headers : AwsSigV4Headers) : result AwsSignError OutHeaders :=
  let* authorization := parse_header (sv_authorization headers) in
  let req := header_insert "authorization" authorization req in
  let* amz_date := parse_header (sv_amz_date headers) in
  let req := header_insert "x-amz-date" amz_date req in
  if negb (is_empty (sv_session_token headers)) then
    let* token := parse_header (sv_session_token headers) in
    Ok (header_insert "x-amz-security-token" token req)
  else Ok req.

(** [apply_aws_sigv4]: the credentials that were found, and the clock. *)
Definition apply_aws_sigv4 (profile : ResolvedProfile) (url method : string) (body : list u8)
    (req : result string OutHeaders) (bearer_applied : bool) (creds : result AwsSignError (option AwsCredentials)) (now : Z) :
  outcome AwsSignError OutHeaders :=
  match req with
  | Err err => Some (Err (AwsTransport err))
  | Ok built =>
      if bearer_applied then Some (Ok built)
      else if match h_aws_service (http profile) with None => true | Some s => is_empty s end then Some (Ok built)
      else
        let? creds := Some creds in
        match creds with
        | None => Some (Err (AwsAuth (missing_creds_message profile)))
        | Some creds =>
            let? headers := prepare_aws_sigv4 profile url method body (Some creds) (amz_date_at now) in
            match headers with
            | None => Some (Ok built)
            | Some headers => Some (insert_sigv4 built headers)
            end
        end
  end.
End Hashes.

(** ** Splitting and joining *)
Lemma split_char_free c s : contains_char c s = false -> split_char c s = [s].
Proof.
  induction s as [|a s IH]; [done|]. cbn [contains_char split_char]. rewrite orb_false_iff. intros [-> H].
  by rewrite (IH H).
Qed.

Lemma split_char_app c s t : contains_char c s = false -> split_char c (s +:+ String c t) = s :: split_char c t.
Proof.
  induction s as [|a s IH]; cbn [contains_char].
  - intros _. rewrite str_app_nil. cbn [split_char]. by rewrite Ascii.eqb_refl.
  - rewrite orb_false_iff, str_app_cons. intros [E H]. cbn [split_char]. by rewrite E, (IH H).
Qed.

Lemma split_char_join c l :
  l <> [] -> Forall (fun s => contains_char c s = false) l -> split_char c (str_join (String c "") l) = l.
Proof.
  intros N F. induction F as [|s l Hs F IH]; [done|]. destruct l as [|t l]; [by apply split_char_free|].
  change (str_join (String c "") (s :: t :: l)) with (s +:+ String c "" +:+ str_join (String c "") (t :: l)).
  rewrite str_app_cons, str_app_nil, split_char_app by done. by rewrite IH.
Qed.

Lemma join_split_char c s : str_join (String c "") (split_char c s) = s.
Proof.
  assert (N : forall s, split_char c s <> []).
  { intros u. destruct u as [|a u]; [done|]. cbn. destruct (Ascii.eqb a c); [done|]. by destruct (split_char c u). }
  induction s as [|a s IH]; [done|]. cbn [split_char]. specialize (N s). destruct (Ascii.eqb_spec a c) as [->|E].
  - destruct (split_char c s) as [|x l]; [done|].
    change (str_join (String c "") ("" :: x :: l)) with ("" +:+ String c "" +:+ str_join (String c "") (x :: l)).
    by rewrite IH, str_app_nil, str_app_cons, str_app_nil.
  - destruct (split_char c s) as [|x l]; [done|]. destruct l as [|y l]; [cbn in IH |- *; by rewrite IH|].
    change (str_join (String c "") (String a x :: y :: l)) with (String a x +:+ String c "" +:+ str_join (String c "") (y :: l)).
    rewrite str_app_cons. f_equal. by rewrite <- IH.
Qed.

(** ** The encodings lose nothing *)
Lemma unreserved_spec b : unreserved b = true -> Ascii.eqb b "%" = false /\ Ascii.eqb b nl = false /\ Ascii.eqb b "/" = false.
Proof.
  intros H. pose (P := fun b => implb (unreserved b) (negb (Ascii.eqb b "%") && negb (Ascii.eqb b nl) && negb (Ascii.eqb b "/"))).
  assert (E : P b = true) by (apply every_byte_spec; by vm_compute). unfold P in E. rewrite H in E. cbn [implb] in E.
  rewrite !andb_true_iff, !negb_true_iff in E. by destruct E as [[? ?] ?].
Qed.

Lemma percent_decodes s : decode_segment (percent_encode s) = s.
Proof.
  induction s as [|b t IH]; [done|]. cbn [percent_encode]. destruct (unreserved b) eqn:E.
  - destruct (unreserved_spec _ E) as (P & _). by rewrite decode_segment_cons, IH.
  - destruct (escape_spec b) as (_ & _ & V). cbn [decode_segment Ascii.eqb Bool.eqb]. by rewrite V, IH.
Qed.

Lemma hex_digit_plain b c :
  In c [nl; "/"%char] ->
  Ascii.eqb (hex_digit (Z.shiftr (byte_val b) 4)) c = false /\ Ascii.eqb (hex_digit (Z.land (byte_val b) 15)) c = false.
Proof.
  intros H. pose (P := fun b => forallb (fun c => negb (Ascii.eqb (hex_digit (Z.shiftr (byte_val b) 4)) c)
                                  && negb (Ascii.eqb (hex_digit (Z.land (byte_val b) 15)) c)) [nl; "/"%char]).
  assert (E : P b = true) by (apply every_byte_spec; by vm_compute). unfold P in E. rewrite forallb_forall in E.
  specialize (E c H). by rewrite andb_true_iff, !negb_true_iff in E.
Qed.

Lemma percent_plain c s : In c [nl; "/"%char] -> contains_char c (percent_encode s) = false.
Proof.
  intros H. induction s as [|b t IH]; [done|]. cbn [percent_encode]. destruct (unreserved b) eqn:E; cbn [contains_char].
  - destruct (unreserved_spec _ E) as (_ & E1 & E2). rewrite IH, orb_false_r.
    by destruct H as [<-|[<-|[]]].
  - destruct (hex_digit_plain b c H) as [-> ->]. rewrite IH. by destruct H as [<-|[<-|[]]].
Qed.

#[local] Instance percent_encode_inj : Inj (=) (=) percent_encode.
Proof. intros s t H. by rewrite <- (percent_decodes s), H, percent_decodes. Qed.

Lemma join_free c d l :
  Ascii.eqb d c = false -> Forall (fun s => contains_char c s = false) l -> contains_char c (str_join (String d "") l) = false.
Proof.
  intros D F. induction F as [|s l Hs F IH]; [done|]. destruct l as [|t l]; [done|].
  change (str_join (String d "") (s :: t :: l)) with (s +:+ String d "" +:+ str_join (String d "") (t :: l)).
  rewrite !contains_char_app, Hs, IH. cbn [contains_char]. by rewrite D.
Qed.

Lemma canonical_uri_free path : contains_char nl (canonical_uri path) = false.
Proof.
  unfold canonical_uri. destruct (is_empty path); [done|]. apply join_free; [done|].
  apply Forall_map, Forall_true. intros s. apply percent_plain. by left.
Qed.

Lemma canonical_uri_inj p q : p <> "" -> q <> "" -> canonical_uri p = canonical_uri q -> p = q.
Proof.
  intros P Q. unfold canonical_uri. destruct p as [|a p], q as [|b q]; [done..|]. cbn [is_empty].
  set (s := String a p). set (t := String b q). intros E.
  assert (F : forall s, split_char "/" (str_join "/" (map percent_encode (split_char "/" s))) = map percent_encode (split_char "/" s)).
  { intros u. apply split_char_join.
    - destruct u as [|c u]; [done|]. cbn. destruct (Ascii.eqb c "/"); [done|]. by destruct (split_char "/" u).
    - apply Forall_map, Forall_true. intros v. apply percent_plain. right. by left. }
  apply (f_equal (split_char "/")) in E. rewrite !F in E. apply (inj (fmap percent_encode)) in E.
  by rewrite <- (join_split_char "/" s), E, join_split_char.
Qed.

Definition lower_value (c : ascii) : Z := if byte_in 48 57 c then byte_val c - 48 else byte_val c - 87.

Lemma lower_hex_spec b :
  byte_of (16 * lower_value (lower_hex_digit (Z.shiftr (byte_val b) 4)) + lower_value (lower_hex_digit (Z.land (byte_val b) 15))) = b
  /\ Ascii.eqb (lower_hex_digit (Z.shiftr (byte_val b) 4)) nl = false /\ Ascii.eqb (lower_hex_digit (Z.land (byte_val b) 15)) nl = false.
Proof.
  pose (P := fun b => Ascii.eqb (byte_of (16 * lower_value (lower_hex_digit (Z.shiftr (byte_val b) 4))
                                          + lower_value (lower_hex_digit (Z.land (byte_val b) 15)))) b
    && negb (Ascii.eqb (lower_hex_digit (Z.shiftr (byte_val b) 4)) nl) && negb (Ascii.eqb (lower_hex_digit (Z.land (byte_val b) 15)) nl)).
  assert (E : P b = true) by (apply every_byte_spec; by vm_compute). unfold P in E.
  rewrite !andb_true_iff, !negb_true_iff, Ascii.eqb_eq in E. by destruct E as [[? ?] ?].
Qed.

Lemma hex_encode_inj : Inj (=) (=) hex_encode.
Proof.
  intros l. induction l as [|b l IH]; intros [|c k]; [done..|]. cbn [hex_encode]. intros E.
  injection E as E1 E2 E3. destruct (lower_hex_spec b) as [B _], (lower_hex_spec c) as [C _].
  rewrite E1, E2, C in B. by rewrite B, (IH _ E3).
Qed.

Lemma hex_encode_free l : contains_char nl (hex_encode l) = false.
Proof.
  induction l as [|b l IH]; [done|]. cbn [hex_encode contains_char]. destruct (lower_hex_spec b) as (_ & -> & ->). done.
Qed.

(** White space inside a value is folded: no line of it is left. *)
Lemma fold_spaces_free s : forall prev, contains_char nl (fold_spaces prev s) = false.
Proof.
  assert (S : forall (prev : bool) rest, (forall p, contains_char nl (fold_spaces p rest) = false) ->
    contains_char nl (if prev then fold_spaces true rest else String " " (fold_spaces true rest)) = false).
  { intros [|] rest H; [apply H|]. cbn [contains_char]. by rewrite H. }
  assert (A : forall a t, ws1 a = false -> contains_char nl t = false -> contains_char nl (String a t) = false).
  { intros a t W H. cbn [contains_char]. rewrite H, orb_false_r. destruct (Ascii.eqb_spec a nl) as [->|]; [done|done]. }
  remember (String.length s) as n eqn:Hn. assert (L : (String.length s <= n)%nat) by lia. clear Hn. revert s L.
  induction n as [|n IH]; intros s L prev; destruct s as [|a t]; cbn [String.length] in L; [done|lia|done|].
  cbn [fold_spaces]. destruct (ws1 a) eqn:W1; [apply S; intros p; apply IH; lia|].
  assert (T : forall p, contains_char nl (fold_spaces p t) = false) by (intros p; apply IH; lia).
  destruct t as [|b u]; [by apply A|]. cbn [String.length] in L.
  destruct (ws2 a b); [apply S; intros p; apply IH; lia|].
  destruct u as [|c v]; [by apply A|]. cbn [String.length] in L.
  destruct (ws3 a b c); [apply S; intros p; apply IH; lia|by apply A].
Qed.

(** ** The canonical text *)
Definition header_line (h : string * string) : string := h.1 +:+ ":" +:+ trim_header_value h.2.

Definition path_of (params : AwsSignParams) : string := if is_empty (sp_path params) then "/" else sp_path params.

(** What the client may sign: no line break in the method or the query, and
    header names without a line break or a colon. *)
Definition signable (params : AwsSignParams) (headers : OutHeaders) : Prop :=
  contains_char nl (sp_method params) = false /\ contains_char nl (sp_query params) = false
  /\ Forall (fun h => contains_char nl h.1 = false /\ contains_char ":" h.1 = false) headers.

Definition canonical_lines (sha256 : list u8 -> list u8) (params : AwsSignParams) (headers : OutHeaders) : list string :=
  [to_ascii_uppercase (sp_method params); canonical_uri (path_of params); sp_query params]
  ++ map header_line headers ++ [""; str_join ";" (map fst headers); hex_encode (sha256 (sp_payload params))].

Lemma join_nl x k : k <> [] -> str_join nl_str (x :: k) = x +:+ nl_str +:+ str_join nl_str k.
Proof. by destruct k. Qed.

Lemma header_lines headers x rest :
  text_concat (map (fun h => h.1 +:+ ":" +:+ trim_header_value h.2 +:+ nl_str) headers) +:+ str_join nl_str (x :: rest)
  = str_join nl_str (map header_line headers ++ x :: rest).
Proof.
  induction headers as [|h l IH]; [apply str_app_nil|].
  change (map header_line (h :: l) ++ x :: rest) with (header_line h :: (map header_line l ++ x :: rest)).
  rewrite (join_nl (header_line h)) by (by destruct l). rewrite <- IH. cbn [map]. unfold header_line.
  change (text_concat (?a :: ?b)) with (a +:+ text_concat b). by rewrite !str_app_assoc.
Qed.

Lemma canonical_joined sha256 params headers :
  canonical_request sha256 params headers = str_join nl_str (canonical_lines sha256 params headers).
Proof.
  unfold canonical_request, canonical_lines. cbn zeta. fold (path_of params).
  set (names := str_join ";" (map fst headers)). set (hash := hex_encode (sha256 (sp_payload params))).
  cbn [app]. rewrite !join_nl by (by destruct headers). rewrite <- header_lines, !join_nl by done.
  cbn [str_join]. by rewrite !str_app_nil.
Qed.

Lemma upper_free s : contains_char nl s = false -> contains_char nl (to_ascii_uppercase s) = false.
Proof.
  induction s as [|a s IH]; [done|]. cbn [contains_char to_ascii_uppercase]. rewrite !orb_false_iff. intros [A H].
  split; [|by apply IH]. pose (P := fun a => implb (negb (Ascii.eqb a nl)) (negb (Ascii.eqb (to_upper a) nl))).
  assert (E : P a = true) by (apply every_byte_spec; by vm_compute). unfold P in E. rewrite A in E. cbn [implb negb] in E.
  by apply negb_true_iff in E.
Qed.

Lemma canonical_lines_free sha256 params headers :
  signable params headers -> Forall (fun s => contains_char nl s = false) (canonical_lines sha256 params headers).
Proof.
  intros (M & Q & H). unfold canonical_lines. apply Forall_app. split.
  - repeat constructor; [by apply upper_free|apply canonical_uri_free|done].
  - apply Forall_app. split.
    + apply Forall_map. apply (Forall_impl _ _ _ H). intros h [N _]. unfold header_line.
      rewrite !contains_char_app, N. apply fold_spaces_free.
    + repeat constructor; [|apply hex_encode_free]. apply join_free; [done|]. apply Forall_map.
      apply (Forall_impl _ _ _ H). by intros h [N _].
Qed.

Lemma header_line_inj h k :
  contains_char ":" h.1 = false -> contains_char ":" k.1 = false -> header_line h = header_line k ->
  h.1 = k.1 /\ trim_header_value h.2 = trim_header_value k.2.
Proof.
  unfold header_line. rewrite !str_app_cons, !str_app_nil. intros H K E.
  apply (f_equal (split_once ":")) in E. rewrite !split_once_app in E by done. by injection E.
Qed.

(** ** The signed headers *)
Definition name_le (h k : string * string) : Prop := String.compare k.1 h.1 <> Lt.
Definition valued (name : string) (l : OutHeaders) : list string :=
  map snd (List.filter (fun h => String.eqb h.1 name) l).

Lemma ltb_compare s t : String.ltb s t = true <-> str_lt s t.
Proof. unfold String.ltb, str_lt. by destruct (String.compare s t). Qed.

Lemma name_le_trans h k l : name_le h k -> name_le k l -> name_le h l.
Proof.
  unfold name_le. intros HK KL L. destruct (String.compare h.1 k.1) eqn:E.
  - apply String.compare_eq_iff in E. rewrite E in L. done.
  - apply KL. by eapply str_compare_lt_trans.
  - apply HK. by rewrite String.compare_antisym, E.
Qed.

Lemma sorted_insert_In h l x : In x (sorted_insert h l) <-> x = h \/ In x l.
Proof.
  induction l as [|y l IH]; cbn; [intuition congruence|]. destruct (String.ltb h.1 y.1); cbn; [intuition congruence|].
  rewrite IH. tauto.
Qed.

Lemma sorted_insert_sorted h l : StronglySorted name_le l -> StronglySorted name_le (sorted_insert h l).
Proof.
  induction 1 as [|y l S IH F]; cbn; [by repeat constructor|]. destruct (String.ltb h.1 y.1) eqn:E.
  - apply ltb_compare in E. unfold str_lt in E.
    assert (H : name_le h y) by (unfold name_le; by rewrite String.compare_antisym, E).
    constructor; [by constructor|]. constructor; [done|]. apply (Forall_impl _ _ _ F). intros x. by apply name_le_trans.
  - constructor; [done|]. rewrite List.Forall_forall in *. intros x [->|X]%sorted_insert_In; [|by apply F].
    unfold name_le. intros L. apply ltb_compare in L. congruence.
Qed.

Lemma sort_headers_sorted l : StronglySorted name_le (sort_headers l).
Proof.
  unfold sort_headers. assert (G : forall l acc, StronglySorted name_le acc ->
    StronglySorted name_le (fold_left (fun acc h => sorted_insert h acc) l acc)).
  { induction l0 as [|h k IH]; intros acc S; [done|]. by apply IH, sorted_insert_sorted. }
  apply G. constructor.
Qed.

(** The sort is stable: the values of a name stay in their order. *)
Lemma sorted_insert_valued name h l :
  StronglySorted name_le l -> valued name (sorted_insert h l) = valued name l ++ valued name [h].
Proof.
  unfold valued. induction 1 as [|y l S IH F]; [done|]. cbn [sorted_insert]. destruct (String.ltb h.1 y.1) eqn:E.
  - cbn [List.filter]. destruct (String.eqb_spec h.1 name) as [<-|N].
    + assert (Z : List.filter (fun k => String.eqb k.1 h.1) (y :: l) = []).
      { assert (A : forall k, In k (y :: l) -> name_le y k).
        { intros k [<-|K]; [|by rewrite List.Forall_forall in F; apply F].
          unfold name_le. intros L. pose proof (String.compare_antisym y.1 y.1) as A. by rewrite L in A. }
        apply ltb_compare in E. unfold str_lt in E.
        induction (y :: l) as [|k m IHm]; [done|]. cbn [List.filter]. destruct (String.eqb_spec k.1 h.1) as [K|_].
        - specialize (A k (or_introl eq_refl)). unfold name_le in A. by rewrite K, E in A.
        - apply IHm. intros k' K'. apply A. by right. }
      cbn [List.filter] in Z. rewrite Z. done.
    + by rewrite app_nil_r.
  - cbn [List.filter]. destruct (String.eqb y.1 name); cbn [map app]; by rewrite IH.
Qed.

Lemma sort_headers_valued name l : valued name (sort_headers l) = valued name l.
Proof.
  unfold sort_headers. assert (G : forall l acc, StronglySorted name_le acc ->
    valued name (fold_left (fun acc h => sorted_insert h acc) l acc) = valued name acc ++ valued name l).
  { induction l0 as [|h k IH]; intros acc S; [by rewrite app_nil_r|].
    cbn [fold_left]. rewrite IH by (by apply sorted_insert_sorted). rewrite sorted_insert_valued by done.
    rewrite <- app_assoc. f_equal. unfold valued. cbn [List.filter]. by destruct (String.eqb h.1 name). }
  by apply G; constructor.
Qed.

Lemma name_le_other h k : name_le h k -> h.1 <> k.1 -> str_lt h.1 k.1.
Proof.
  unfold name_le, str_lt. intros L N. rewrite (String.compare_antisym k.1 h.1) in L.
  destruct (String.compare h.1 k.1) eqn:E; [by apply String.compare_eq_iff in E|done|done].
Qed.

Lemma lt_name_le s h k : str_lt s h.1 -> name_le h k -> str_lt s k.1.
Proof.
  intros S L. destruct (decide (h.1 = k.1)) as [<-|N]; [done|].
  eapply str_compare_lt_trans; [exact S|]. by apply name_le_other.
Qed.

Lemma str_lt_irrefl s : ~ str_lt s s.
Proof. unfold str_lt. intros L. pose proof (String.compare_antisym s s) as A. by rewrite L in A. Qed.

(** What is kept beside a last name is past it, in order, one per name. *)
Definition from_last (last : option string) (l : OutHeaders) : Prop :=
  forall s, last = Some s -> Forall (fun h => s = h.1 \/ str_lt s h.1) l.

Lemma dedup_past l : forall last s,
  StronglySorted name_le l -> from_last last l -> last = Some s -> Forall (fun h => str_lt s h.1) (dedup_headers last l).
Proof.
  induction l as [|h l IH]; intros last s S P ->; [constructor|]. inversion_clear S as [|? ? S1 F].
  pose proof (P s eq_refl) as Q. inversion_clear Q as [|? ? Q1 Q2]. cbn [dedup_headers].
  case_bool_decide as E; [apply (IH _ s); [done|by intros s' [= <-]|done]|]. destruct Q1 as [->|Q1]; [done|].
  constructor; [done|]. assert (B : Forall (fun k => str_lt h.1 k.1) (dedup_headers (Some h.1) l)).
  { apply (IH _ h.1); [done| |done]. intros s' [= <-]. apply (Forall_impl _ _ _ F). intros k K.
    destruct (decide (h.1 = k.1)); [by left|right; by apply name_le_other]. }
  apply (Forall_impl _ _ _ B). intros k K. by eapply str_compare_lt_trans.
Qed.

Lemma from_next h l : Forall (name_le h) l -> from_last (Some h.1) l.
Proof.
  intros F s [= <-]. apply (Forall_impl _ _ _ F). intros k K.
  destruct (decide (h.1 = k.1)); [by left|right; by apply name_le_other].
Qed.

Lemma dedup_sorted l : forall last, StronglySorted name_le l -> StronglySorted str_lt (map fst (dedup_headers last l)).
Proof.
  induction l as [|h l IH]; intros last S; [constructor|]. inversion_clear S as [|? ? S1 F]. cbn [dedup_headers].
  case_bool_decide; [by apply IH|]. cbn [map]. constructor; [by apply IH|]. apply Forall_map.
  by apply (dedup_past l (Some h.1) h.1 S1); [apply from_next|].
Qed.

Lemma valued_cons name h l : valued name (h :: l) = if String.eqb h.1 name then h.2 :: valued name l else valued name l.
Proof. unfold valued. cbn [List.filter]. by destruct (String.eqb h.1 name). Qed.

Lemma valued_past name l : Forall (fun h => str_lt name h.1) l -> valued name l = [].
Proof.
  induction 1 as [|h l H F IH]; [done|]. rewrite valued_cons. destruct (String.eqb_spec h.1 name) as [E|]; [|done].
  rewrite E in H. by apply str_lt_irrefl in H.
Qed.

Lemma dedup_valued name l : forall last,
  StronglySorted name_le l -> from_last last l ->
  valued name (dedup_headers last l) = if bool_decide (last = Some name) then [] else take 1 (valued name l).
Proof.
  induction l as [|h l IH]; intros last S P; [by case_bool_decide|]. case_bool_decide as D.
  { apply valued_past. by apply (dedup_past (h :: l) last). }
  inversion_clear S as [|? ? S1 F]. cbn [dedup_headers]. case_bool_decide as E.
  - rewrite IH; [|done|intros s L; specialize (P s L); by inversion_clear P]. rewrite bool_decide_eq_false_2 by done.
    rewrite valued_cons. destruct (String.eqb_spec h.1 name) as [<-|]; [done|done].
  - rewrite !valued_cons, IH by (try done; by apply from_next). destruct (String.eqb_spec h.1 name) as [->|N].
    + rewrite bool_decide_eq_true_2 by done. by destruct (valued name l).
    + rewrite bool_decide_eq_false_2 by congruence. done.
Qed.

(** The headers of a request before they are sorted: the two it always has,
    the session token, and those of the caller in lower case. *)
Definition offered_headers (creds : AwsCredentials) (params : AwsSignParams) : OutHeaders :=
  [("host", sp_host params); ("x-amz-date", sp_amz_date params)]
  ++ (if negb (is_empty (session_token creds))
         && negb (existsb (fun h => eq_ignore_ascii_case h.1 "x-amz-security-token") (sp_extra_headers params))
      then [("x-amz-security-token", session_token creds)] else [])
  ++ map (fun h => (to_ascii_lowercase h.1, h.2)) (sp_extra_headers params).

Lemma signed_headers_offered creds params :
  signed_headers creds params = dedup_headers None (sort_headers (offered_headers creds params)).
Proof. unfold signed_headers, offered_headers. by destruct (_ && _). Qed.

(** The headers that are signed are in strictly ascending order, so each name
    is there once, and its value is the first that was offered: the host and
    the date of the request cannot be replaced by a header of the caller. *)
Theorem signed_headers_sorted creds params name :
  StronglySorted str_lt (map fst (signed_headers creds params))
  /\ valued name (signed_headers creds params) = take 1 (valued name (offered_headers creds params))
  /\ valued "host" (signed_headers creds params) = [sp_host params]
  /\ valued "x-amz-date" (signed_headers creds params) = [sp_amz_date params].
Proof.
  assert (V : forall name, valued name (signed_headers creds params) = take 1 (valued name (offered_headers creds params))).
  { intros n. rewrite signed_headers_offered, dedup_valued by (done || apply sort_headers_sorted).
    by rewrite bool_decide_eq_false_2, sort_headers_valued. }
  split_and!; [|apply V|by rewrite V|by rewrite V].
  rewrite signed_headers_offered. apply dedup_sorted, sort_headers_sorted.
Qed.

Lemma lines_inj h k :
  Forall (fun h => contains_char nl h.1 = false /\ contains_char ":" h.1 = false) h ->
  Forall (fun h => contains_char nl h.1 = false /\ contains_char ":" h.1 = false) k ->
  map header_line h = map header_line k ->
  map (fun h => (h.1, trim_header_value h.2)) h = map (fun h => (h.1, trim_header_value h.2)) k.
Proof.
  intros H. revert k. induction H as [|x l [_ X] H IH]; intros k K E; [by destruct k|].
  destruct k as [|y k]; [done|]. inversion_clear K as [|? ? [_ Y] K']. cbn [map] in E |- *. injection E as E1 E2.
  destruct (header_line_inj x y X Y E1) as [-> ->]. by rewrite (IH k K' E2).
Qed.

(** C31. What is signed says what is sent: two requests with one canonical text
    have the same method, path, query, signed headers up to white space, and
    hash of the body.  No byte of a path or of a header value can be read as
    the end of its field. *)
Theorem canonical_injective sha256 p q h k :
  signable p h -> signable q k -> canonical_request sha256 p h = canonical_request sha256 q k ->
  to_ascii_uppercase (sp_method p) = to_ascii_uppercase (sp_method q) /\ path_of p = path_of q /\ sp_query p = sp_query q
  /\ map (fun h => (h.1, trim_header_value h.2)) h = map (fun h => (h.1, trim_header_value h.2)) k
  /\ sha256 (sp_payload p) = sha256 (sp_payload q).
Proof.
  intros P Q E. rewrite !canonical_joined in E. apply (f_equal (split_char nl)) in E.
  assert (S : forall p h, signable p h -> split_char nl (str_join nl_str (canonical_lines sha256 p h)) = canonical_lines sha256 p h).
  { intros p' h' H. apply split_char_join; [done|by apply canonical_lines_free]. }
  rewrite !S in E by done. unfold canonical_lines in E. cbn [app] in E. injection E as EM EU EQ E.
  apply app_inj_2 in E as [EL E]; [|done]. injection E as _ EH. destruct P as (_ & _ & P), Q as (_ & _ & Q).
  assert (NE : forall p, path_of p <> "") by (intros r; unfold path_of; by destruct (sp_path r)).
  split_and!; [done|by apply canonical_uri_inj|done|by apply lines_inj|by apply hex_encode_inj].
Qed.

(** ** What is sent is signed, or nothing is *)
Definition present (name : string) (req : OutHeaders) : list string :=
  map snd (List.filter (fun h => eq_ignore_ascii_case h.1 name) req).

Lemma inserted name value other req :
  present other (header_insert name value req)
  = if eq_ignore_ascii_case name other then [value] else present other req.
Proof.
  unfold present, header_insert. rewrite List.filter_app, map_app. cbn [List.filter fst].
  assert (F : forall h : string * string, eq_ignore_ascii_case h.1 name = true ->
    eq_ignore_ascii_case h.1 other = eq_ignore_ascii_case name other).
  { intros h E. apply eq_ignore_case_lower in E. unfold eq_ignore_ascii_case. by rewrite E. }
  destruct (eq_ignore_ascii_case name other) eqn:O.
  - cbn [map snd]. replace (List.filter _ _) with (@nil (string * string)); [done|].
    induction req as [|h l IH]; [done|]. cbn [List.filter]. destruct (eq_ignore_ascii_case h.1 name) eqn:E; cbn [negb]; [done|].
    cbn [List.filter]. destruct (eq_ignore_ascii_case h.1 other) eqn:B; [|done].
    apply eq_ignore_case_lower in B, O. rewrite <- O in B. apply eq_ignore_case_lower in B. congruence.
  - cbn [map]. rewrite app_nil_r. induction req as [|h l IH]; [done|]. cbn [List.filter].
    destruct (eq_ignore_ascii_case h.1 name) eqn:E; cbn [negb List.filter].
    + by rewrite (F h E), IH.
    + destruct (eq_ignore_ascii_case h.1 other); cbn [map]; by rewrite IH.
Qed.

Section Signed.
Context (sha256 : list u8 -> list u8) (hmac : list u8 -> list u8 -> result string (list u8))
  (url_parse : string -> result string ParsedUrl) (resolve_region : ResolvedProfile -> string)
  (missing_creds_message : ResolvedProfile -> string) (header_value : string -> option string).

(** The request the signature is of. *)
Definition params_of (profile : ResolvedProfile) (service method : string) (body : list u8) (parsed : ParsedUrl) (host amz_date : string) :
  AwsSignParams :=
  mkSignParams method host (if is_empty (pu_path parsed) then "/" else pu_path parsed) (unwrap_or (pu_query parsed) "")
    (resolve_region profile) service [("content-type", "application/json")] body amz_date.

Lemma prepared profile url method body creds amz_date h :
  prepare_aws_sigv4 sha256 hmac url_parse resolve_region missing_creds_message profile url method body (Some creds) amz_date
  = Some (Ok (Some h)) ->
  exists service parsed host,
    h_aws_service (http profile) = Some service /\ url_parse url = Ok parsed /\ pu_host parsed = Some host /\ is_empty host = false
    /\ is_empty (access_key_id creds) = false /\ is_empty (secret_access_key creds) = false
    /\ sign_aws_request sha256 hmac creds (params_of profile service method body parsed host amz_date)
       = Some (Ok (sv_authorization h))
    /\ sv_amz_date h = amz_date /\ sv_session_token h = session_token creds.
Proof.
  unfold prepare_aws_sigv4. destruct (h_aws_service (http profile)) as [service|]; cbn [opt_filter]; [|done].
  destruct (negb (is_empty service)); [|done]. cbn [opt_filter].
  destruct (is_empty (access_key_id creds)) eqn:K1; [done|]. destruct (is_empty (secret_access_key creds)) eqn:K2; [done|].
  cbn [negb andb]. destruct (url_parse url) as [parsed|] eqn:U; [|done]. destruct (pu_host parsed) as [host|] eqn:H; [|done].
  cbn [opt_filter]. destruct (is_empty host) eqn:HE; [done|]. cbn [negb].
  fold (params_of profile service method body parsed host amz_date).
  destruct (sign_aws_request _ _ _ _) as [[auth|]|] eqn:S; [|done..]. intros [= <-]. by eexists _, _, _.
Qed.

Definition unsigned (profile : ResolvedProfile) : Prop :=
  match h_aws_service (http profile) with None => True | Some s => s = "" end.

(** C30. A request to a signed service goes out with exactly one [authorization]
    header, the signature of the method, the URL and the body that are sent,
    and one date, which is the one that was signed, or it does not go out.
    A request with a bearer token, or of a profile that names no service, is
    left as it is. *)
Theorem signed_or_refused profile url method body req bearer_applied creds now out :
  apply_aws_sigv4 sha256 hmac url_parse resolve_region missing_creds_message header_value
    profile url method body req bearer_applied creds now = Some (Ok out) ->
  exists built, req = Ok built /\
    (((bearer_applied = true \/ unsigned profile) /\ out = built)
     \/ (bearer_applied = false /\ exists keys service parsed host authorization,
           creds = Ok (Some keys) /\ is_empty (access_key_id keys) = false /\ is_empty (secret_access_key keys) = false
           /\ h_aws_service (http profile) = Some service /\ url_parse url = Ok parsed
           /\ pu_host parsed = Some host /\ is_empty host = false
           /\ sign_aws_request sha256 hmac keys (params_of profile service method body parsed host (amz_date_at now))
              = Some (Ok authorization)
           /\ present "authorization" out = [authorization] /\ present "x-amz-date" out = [amz_date_at now]
           /\ present "x-amz-security-token" out
              = (if is_empty (session_token keys) then present "x-amz-security-token" built else [session_token keys]))).
Proof.
  unfold apply_aws_sigv4. destruct req as [built|]; [|done]. intros H. exists built. split; [done|].
  destruct bearer_applied; [injection H as <-; left; by split; [left|]|].
  unfold unsigned. destruct (h_aws_service (http profile)) as [s|] eqn:V; [|injection H as <-; left; by split; [right|]].
  destruct s as [|a s]; [injection H as <-; left; by split; [right|]|]. cbn [is_empty] in H. right. split; [done|].
  destruct creds as [[keys|]|]; cbn [obind] in H; [|done..].
  destruct (prepare_aws_sigv4 _ _ _ _ _ _ _ _ _ _ _) as [[[h|]|]|] eqn:P; cbn [obind] in H; [| |done..].
  - apply prepared in P as (service & parsed & host & V' & U & HO & HE & K1 & K2 & S & D & T).
    rewrite V in V'. injection V' as <-. exists keys, (String a s), parsed, host, (sv_authorization h).
    do 8 (split; [done|]). injection H as H. unfold insert_sigv4, parse_header in H. rewrite D, T in H.
    destruct (header_value (sv_authorization h)); cbn [rbind] in H; [done|].
    destruct (header_value (amz_date_at now)); cbn [rbind] in H; [done|].
    destruct (is_empty (session_token keys)); cbn [negb] in H.
    + injection H as <-. by rewrite !inserted.
    + destruct (header_value (session_token keys)); cbn [rbind] in H; [done|]. injection H as <-. by rewrite !inserted.
  - exfalso. unfold prepare_aws_sigv4 in P. rewrite V in P. cbn in P. destruct (_ && _); [|done].
    destruct (url_parse url) as [parsed|]; [|done]. destruct (pu_host parsed) as [host|]; [|done]. cbn in P.
    destruct (is_empty host); [done|]. cbn in P. by destruct (sign_aws_request _ _ _ _) as [[]|].
Qed.
End Signed.

(** ** The stamp of the date *)
Lemma stamp_of_eight d t : String.length d = 8%nat -> date_stamp_of (d +:+ String "T" t) = Some d.
Proof.
  intros L. do 8 (destruct d as [|? d]; [done|]). destruct d; [|done]. rewrite !str_app_cons, str_app_nil.
  unfold date_stamp_of, slice, index, bytes_of_str. cbn [String.list_ascii_of_string].
  rewrite (proj2 (Z.leb_le 8 (vlen _))) by (unfold vlen; cbn [length]; lia). reflexivity.
Qed.

Lemma stamp_written secs : 0 <= secs < 253402300800 -> date_stamp_of (amz_date_at secs) = Some (format_amz_date secs).2.
Proof.
  intros H. rewrite amz_date_at_date. unfold format_amz_date. rewrite civil_from_days_date by (Z.to_euclidean_division_equations; lia).
  pose proof (year_range (secs / 86400) ltac:(Z.to_euclidean_division_equations; lia)) as Y.
  pose proof (civil_date_spec (secs / 86400)) as S. destruct (civil_date (secs / 86400)) as [[y m] d]. destruct S as [V _]. cbn [snd].
  assert (B : 1 <= m <= 12 /\ 1 <= d <= 31).
  { destruct V as [M D]. split; [done|]. unfold days_in_month in D. repeat case_match; lia. }
  rewrite <- !(str_app_assoc (pad0 2 m)), <- str_app_assoc, str_app_cons, str_app_nil. apply stamp_of_eight.
  destruct (four_digits y ltac:(lia)) as (? & ? & ? & ? & -> & _), (two_digits m ltac:(lia)) as (? & ? & -> & _),
    (two_digits d ltac:(lia)) as (? & ? & -> & _). reflexivity.
Qed.

Lemma sign_returns sha256 hmac creds params : date_stamp_of (sp_amz_date params) <> None -> sign_aws_request sha256 hmac creds params <> None.
Proof.
  unfold sign_aws_request. intros D. destruct (_ <? 8); [done|]. destruct (date_stamp_of _); [|done]. cbn.
  destruct (signing_key _ _ _ _ _); [|done]. cbn. by destruct (hmac _ _).
Qed.

(** A clock before the year 10000 gives a stamp, the date the other signer
    writes, and signing never panics. *)
Theorem signing_never_panics sha256 hmac url_parse resolve_region missing_creds_message header_value
    profile url method body req bearer_applied creds now :
  0 <= now < 253402300800 ->
  apply_aws_sigv4 sha256 hmac url_parse resolve_region missing_creds_message header_value
    profile url method body req bearer_applied creds now <> None.
Proof.
  intros H. unfold apply_aws_sigv4. destruct req; [|done]. destruct bearer_applied; [done|]. destruct (match _ with None => _ | _ => _ end); [done|].
  destruct creds as [[keys|]|]; [|done..]. cbn [obind].
  destruct (prepare_aws_sigv4 _ _ _ _ _ _ _ _ _ _ _) as [[[h|]|]|] eqn:P; [done..|]. exfalso. unfold prepare_aws_sigv4 in P.
  repeat (case_match; try done);
    match goal with S : sign_aws_request _ _ _ _ = None |- _ => revert S end; apply sign_returns; cbn [sp_amz_date]; by rewrite stamp_written.
Qed.

(** ** Witnesses *)
Definition test_params (method value : string) : AwsSignParams :=
  mkSignParams method "h" "/a b" "" "us-east-1" "bedrock" [("content-type", value)] (bytes_of_str "{}") "20260915T000000Z".
Definition test_hash (l : list u8) : list u8 := take 3 l.
Definition test_keys : AwsCredentials := mkAwsCredentials "AKIATEST" "secret" "token" None.

Lemma canonical_injective_witness :
  map (fun h => (h.1, trim_header_value h.2)) [("content-type", "a  b ")]
  = map (fun h => (h.1, trim_header_value h.2)) [("content-type", "a b")].
Proof.
  refine (proj1 (proj2 (proj2 (proj2 (canonical_injective test_hash (test_params "post" "a  b ") (test_params "POST" "a b")
    [("content-type", "a  b ")] [("content-type", "a b")] _ _ _))))).
  - unfold signable. repeat constructor.
  - unfold signable. repeat constructor.
  - by vm_compute.
Defined.

Definition bedrock_profile : ResolvedProfile :=
  key_profile None [].
Definition test_url (url : string) : result string ParsedUrl :=
  if is_empty url then Err "relative URL without a base" else Ok (mkParsedUrl (Some "h") "/model/m/converse" None).

Definition test_mac (k d : list u8) : result string (list u8) := Ok (take 2 k).
Definition signed_request : OutHeaders :=
  [("accept", "*/*");
   ("authorization", "AWS4-HMAC-SHA256 Credential=AKIATEST/20240229/us-east-1/bedrock/aws4_request, SignedHeaders=content-type;host;x-amz-date;x-amz-security-token, Signature=4157");
   ("x-amz-date", "20240229T123456Z"); ("x-amz-security-token", "token")].

Lemma signed_or_refused_witness : exists authorization, present "authorization" signed_request = [authorization].
Proof.
  destruct (signed_or_refused test_hash test_mac test_url (fun _ => "us-east-1") (fun _ => "no keys") (fun _ => None)
    bedrock_profile "https://h/model/m/converse" "POST" (bytes_of_str "{}") (Ok [("accept", "*/*"); ("authorization", "stale")]) false
    (Ok (Some test_keys)) 1709210096 signed_request ltac:(vm_compute; reflexivity))
    as (built & _ & [[[B|U] _]|(_ & keys & service & parsed & host & authorization & _ & _ & _ & _ & _ & _ & _ & _ & P & _)]).
  - discriminate B.
  - discriminate U.
  - exists authorization. exact P.
Defined.

Lemma signing_never_panics_witness :
  apply_aws_sigv4 test_hash test_mac test_url (fun _ => "us-east-1") (fun _ => "no keys") (fun _ => None)
    bedrock_profile "" "POST" [] (Ok []) false (Ok (Some test_keys)) 0 <> None.
Proof. apply signing_never_panics. split; [by vm_compute|by vm_compute]. Defined.

(** No keys, no request. *)
Example no_keys_no_request :
  apply_aws_sigv4 test_hash (fun k d => Ok d) test_url (fun _ => "us-east-1") (fun _ => "no keys") (fun _ => None)
    bedrock_profile "https://h/model/m/converse" "POST" (bytes_of_str "{}") (Ok []) false (Ok None) 0 = Some (Err (AwsAuth "no keys")).
Proof. reflexivity. Qed.

(** A path that is escaped already is escaped again, as the service does. *)
Example escaped_twice : canonical_uri "/model/a%3Ab/converse" = "/model/a%253Ab/converse".
Proof. reflexivity. Qed.
