(* ===== verification/Proxy.v ===== *)
(** * Proxy: from a request of a client to its answer

    [handle_inner] of crates/wiremux/src/proxy.rs, with [send_upstream],
    [handle_count] and the functions they call.  A handler is given the request
    and, turn by turn, what the world outside says when it is asked ([Turn]):
    the token provider, the keys of AWS and the clock, and the upstream itself.
    It returns the requests that went upstream, in order, and the answer.  Log
    lines are not part of either. *)

From S2P Require Import Prelude Fields Text Json JsonCodec Sse Ir ProfileTypes StreamCore Usage Shapes Completion.
From S2P Require Import StreamDecode Relay Failures Upstream Loss RequestCore Requests Complete SameWire Guard Headers Dates Signing.
From S2P Require Chat MessagesSampling.

Definition MAX_BODY : Z := 8 * 1024 * 1024.
(** The limit of an upstream body is [MAX_UPSTREAM_BODY] of [SameWire]. *)

(** [format!("{err}\n")] *)
Definition line (s : string) : string := s +:+ nl_str.

Definition request_body_too_large : Reply :=
  text_reply 413 (line ("request body too large (max " +:+ pretty MAX_BODY +:+ " bytes)")).
Definition request_body_too_large_len (len : Z) : Reply :=
  text_reply 413 (line ("request body too large (Content-Length: " +:+ pretty len +:+ " bytes, max " +:+ pretty MAX_BODY +:+ " bytes)")).

(** ** Reading bodies *)
Inductive BodyError := LengthLimit | ReadError (text : string).

(** [Limited::new(body, cap).collect()]: the first chunk past the cap ends it. *)
Fixpoint read_capped_body (chunks : list (result string (list u8))) (cap : Z) : result BodyError (list u8) :=
  match chunks with
  | [] => Ok []
  | Err text :: _ => Err (ReadError text)
  | Ok chunk :: chunks =>
      if cap <? vlen chunk then Err LengthLimit
      else rmap (app chunk) (read_capped_body chunks (cap - vlen chunk))
  end.

(** An answer of the upstream; [E] is an error of the HTTP client. *)
Record Response (E : Type) := mkResponse {
  rs_status : Z;
  rs_type : string;
  rs_length : option Z;
  rs_chunks : list (result E (list u8))
}.
Arguments mkResponse {E}.
Arguments rs_status {E}.
Arguments rs_type {E}.
Arguments rs_length {E}.
Arguments rs_chunks {E}.

(** ** What the path says *)

(** [split(pat).nth(1)] *)
Definition split_nth1 (pat s : string) : option string :=
  '(_, rest) ← split_once_str pat s;
  Some (match split_once_str pat rest with Some (x, _) => x | None => rest end).

Definition nonempty_model (model : string) : option string := if is_empty model then None else Some model.

Definition without_suffix (first second rest : string) : string :=
  unwrap_or (opt_or (strip_suffix first rest) (strip_suffix second rest)) rest.

Definition model_from_dest_path (from : Wire) (path : string) : option string :=
  match from with
  | Gemini =>
      rest ← split_nth1 "/models/" path;
      nonempty_model (split_first "?" (without_suffix ":streamGenerateContent" ":generateContent" rest))
  | Converse =>
      rest ← strip_prefix "/model/" path;
      model ← opt_or (strip_suffix "/converse-stream" rest) (strip_suffix "/converse" rest);
      nonempty_model model
  | Messages =>
      rest ← split_nth1 "/models/" path;
      nonempty_model (split_first "?" (without_suffix ":streamRawPredict" ":rawPredict" rest))
  | ChatCompletions =>
      rest ← strip_prefix "/openai/deployments/" path;
      model ← strip_suffix "/chat/completions" rest;
      let model := split_first "?" model in
      if contains_char "/" model then None else nonempty_model model
  | Responses => None
  end.

Definition unused_query_part (from : Wire) (loss : LossReport) (part : string) : LossReport :=
  let part := trim part in
  if is_empty part then loss
  else if wire_eqb from Gemini && starts_with "alt=sse" part then loss
  else record loss ("query." +:+ split_first "=" part) Drop "not forwarded".
Definition record_unused_query (loss : LossReport) (from : Wire) (query : string) : LossReport :=
  fold_left (unused_query_part from) (split_char "&" query) loss.

Definition dest_stream_from_request (from : Wire) (path query : string) : bool :=
  match from with
  | Converse => ends_with "/converse-stream" path
  | Gemini => ends_with ":streamGenerateContent" path || existsb (starts_with "alt=sse") (split_char "&" query)
  | Messages => ends_with ":streamRawPredict" path
  | _ => false
  end.

(** [ir.sampling.stream = Some(true)] *)
Definition stream_on (s : IrSampling) : IrSampling :=
  {| sp_temperature := sp_temperature s; sp_top_p := sp_top_p s; sp_top_k := sp_top_k s;
     sp_max_tokens := sp_max_tokens s; sp_stop := sp_stop s; sp_tool_choice := sp_tool_choice s;
     sp_parallel_tool_calls := sp_parallel_tool_calls s; sp_store := sp_store s;
     sp_previous_response_id := sp_previous_response_id s; sp_cache := sp_cache s; sp_stream := Some true;
     sp_include_thoughts := sp_include_thoughts s; sp_thinking_budget := sp_thinking_budget s;
     sp_reasoning_effort := sp_reasoning_effort s; sp_max_reasoning_tokens := sp_max_reasoning_tokens s;
     sp_json_schema := sp_json_schema s; sp_json_schema_name := sp_json_schema_name s;
     sp_json_schema_description := sp_json_schema_description s; sp_json_schema_strict := sp_json_schema_strict s;
     sp_json_object := sp_json_object s; sp_include := sp_include s; sp_prompt_cache_key := sp_prompt_cache_key s;
     sp_prompt_cache_retention := sp_prompt_cache_retention s; sp_prompt_cache_mode := sp_prompt_cache_mode s;
     sp_prompt_cache_ttl := sp_prompt_cache_ttl s; sp_top_logprobs := sp_top_logprobs s;
     sp_moderation_model := sp_moderation_model s; sp_moderation_input := sp_moderation_input s;
     sp_moderation_output := sp_moderation_output s; sp_include_obfuscation := sp_include_obfuscation s;
     sp_user := sp_user s; sp_verbosity := sp_verbosity s; sp_safety_identifier := sp_safety_identifier s;
     sp_metadata := sp_metadata s; sp_frequency_penalty := sp_frequency_penalty s;
     sp_presence_penalty := sp_presence_penalty s; sp_seed := sp_seed s; sp_n := sp_n s;
     sp_service_tier := sp_service_tier s; sp_output_modalities := sp_output_modalities s;
     sp_audio_voice := sp_audio_voice s; sp_audio_format := sp_audio_format s; sp_logprobs := sp_logprobs s;
     sp_logit_bias := sp_logit_bias s; sp_prediction := sp_prediction s;
     sp_web_search_options := sp_web_search_options s; sp_inference_geo := sp_inference_geo s;
     sp_performance_latency := sp_performance_latency s; sp_previous_message_id := sp_previous_message_id s;
     sp_response_field_paths := sp_response_field_paths s;
     sp_additional_request_fields := sp_additional_request_fields s; sp_prompt_variables := sp_prompt_variables s;
     sp_guardrail := sp_guardrail s; sp_container := sp_container s;
     sp_context_management := sp_context_management s; sp_mcp_servers := sp_mcp_servers s;
     sp_media_resolution := sp_media_resolution s; sp_image_config := sp_image_config s;
     sp_audio_transcription_config := sp_audio_transcription_config s;
     sp_translation_config := sp_translation_config s; sp_affective_dialog := sp_affective_dialog s;
     sp_enhanced_civic_answers := sp_enhanced_civic_answers s; sp_multi_speaker_speech := sp_multi_speaker_speech s;
     sp_cached_content := sp_cached_content s; sp_safety_settings := sp_safety_settings s;
     sp_request_labels := sp_request_labels s; sp_truncation := sp_truncation s;
     sp_max_tool_calls := sp_max_tool_calls s; sp_background := sp_background s;
     sp_conversation := sp_conversation s; sp_responses_context_management := sp_responses_context_management s;
     sp_messages_thinking := sp_messages_thinking s |}.

(** ** Counting tokens *)
Inductive CountRoute := CountMessages | CountGemini.
Inductive CountUrlError := NoEndpoint | UpstreamError (err : string).

Definition count_route (path : string) : option CountRoute :=
  let path := trim_end_matches "/" path in
  if ends_with "/count_tokens" path then Some CountMessages
  else if ends_with ":countTokens" path then Some CountGemini
  else None.

Definition split_query_fragment (url : string) : string * option string * option string :=
  let '(before, fragment) := match split_once "#" url with Some (path, fragment) => (path, Some fragment) | None => (url, None) end in
  match split_once "?" before with
  | Some (path, query) => (path, Some query, fragment)
  | None => (before, None, fragment)
  end.

Definition join_query_fragment (path : string) (query fragment : option string) : string :=
  path +:+ match query with Some q => "?" +:+ q | None => "" end +:+ match fragment with Some f => "#" +:+ f | None => "" end.

Definition rewrite_count_url (url : string) (route : CountRoute) : option string :=
  let '(base, query, fragment) := split_query_fragment url in
  let trimmed := trim_end_matches "/" base in
  rewritten ← match route with
              | CountMessages => if ends_with "/messages" trimmed then Some (trimmed +:+ "/count_tokens") else None
              | CountGemini => prefix ← strip_suffix ":generateContent" trimmed; Some (prefix +:+ ":countTokens")
              end;
  Some (join_query_fragment rewritten query fragment).

Definition count_dialect_rejection (from target route : Wire) : option string :=
  if wire_eqb from route && wire_eqb target route then None
  else if negb (wire_eqb from target) then Some (line "token count is not mapped across dialects")
  else Some (line "this count URL does not match the profile wire").

Definition count_upstream_url (profile : ResolvedProfile) (model : option string) (route : CountRoute) :
  result CountUrlError string :=
  match upstream_url_for_model profile model false with
  | Err err => Err (UpstreamError err)
  | Ok url => match rewrite_count_url url route with Some url => Ok url | None => Err NoEndpoint end
  end.

Section Counting.
Context {SJ : SerdeJson}.

Definition count_model (from : Wire) (path : string) (body : list u8) (override_model : option string) : option string :=
  match opt_filter (fun m => negb (is_empty m)) override_model with
  | Some model => Some model
  | None =>
      match opt_filter (fun m => negb (is_empty m)) (value ← from_slice body; get value "model" ≫= as_str) with
      | Some model => Some model
      | None =>
          let lookup := trim_end_matches "/" path in
          model_from_dest_path from
            (match strip_suffix ":countTokens" lookup with Some prefix => prefix +:+ ":generateContent" | None => lookup end)
      end
  end.

Definition rewrite_count_body_model (body : list u8) (model : string) (insert_if_missing : bool) : option (list u8) :=
  value ← from_slice body;
  obj ← as_object value;
  let rewritten := Some (bytes_of_str (to_string (JObj (obj_insert "model" (JStr model) obj)))) in
  match get value "model" with
  | Some existing =>
      match as_str existing with
      | Some text => if String.eqb text model then None else rewritten
      | None => if insert_if_missing then rewritten else None
      end
  | None => if insert_if_missing then rewritten else None
  end.

Definition count_body_hides_vendor_error (route : CountRoute) (body : list u8) : bool :=
  match from_slice body with
  | None => false
  | Some value =>
      if negb (is_object value) then false
      else
        let token_key := match route with CountMessages => "input_tokens" | CountGemini => "totalTokens" end in
        if is_some_and (get value token_key) Chat.is_number then false
        else if is_some (json_string_error value) then true
        else match opt_filter is_object (get value "error") with
             | None => false
             | Some err => is_some (vendor_error_detail err)
             end
  end.
End Counting.

(** ** The proxy *)

(** What the proxy keeps of a token provider: whether it is a [StaticToken],
    whether it can refresh, and its quota project. *)
Record Source := mkSource { so_static : bool; so_can_refresh : bool; so_quota : option string }.

(** [ProxyState]; the slot of the provider is passed along instead. *)
Record ProxyState := mkState { ps_from : Wire; ps_profile : ResolvedProfile; ps_model_override : option string }.

(** A request that is sent upstream; its method is POST. *)
Record OutRequest := mkOut { or_url : string; or_headers : OutHeaders; or_body : list u8 }.

(** One turn of the loop of [send_upstream], as the world outside sees it. *)
Record Turn (E : Type) := mkTurn {
  tn_built : result AuthFailure Source;
  tn_token : Source -> result AuthFailure string;
  tn_creds : result AwsSignError (option AwsCredentials);
  tn_now : Z;
  tn_answer : OutRequest -> result E (Response E)
}.
Arguments mkTurn {E}.
Arguments tn_built {E}.
Arguments tn_token {E}.
Arguments tn_creds {E}.
Arguments tn_now {E}.
Arguments tn_answer {E}.

(** [OutOfTurns] is the end of a list of turns that is too short. *)
Inductive SendEnd (E : Type) := SendPanic | SendOutOfTurns | Refused (reply : Reply) | Answered (resp : Response E).
Arguments SendPanic {E}.
Arguments SendOutOfTurns {E}.
Arguments Refused {E}.
Arguments Answered {E}.

(** The answer to the client: a reply, or a stream with the chunks its task
    sends ([None] when it panics). *)
Inductive Answer :=
| Panicked
| OutOfTurns
| Whole (reply : Reply)
| Streamed (status : Z) (content_type : string) (sent : option (list (list u8))).

Section Handler.
Context {SJ : SerdeJson} {E : Type}.
(** Texts of the JSON crate and of derived [Debug]; the lower case of the tool
    names outside ASCII. *)
Context (json_error : string -> string) (parse_error : string -> string) (slice_error : list u8 -> string)
  (debug : IrStreamEvent -> string) (char_lower : string -> option string).
(** Credentials, hosts, hashes and the configuration of AWS. *)
Context (credential_options : ResolvedProfile -> string) (host_of : string -> option string)
  (sha256 : list u8 -> list u8) (hmac : list u8 -> list u8 -> result string (list u8))
  (url_parse : string -> result string ParsedUrl) (resolve_region : ResolvedProfile -> string)
  (missing_creds_message : ResolvedProfile -> string) (header_value : string -> option string).
(** The HTTP client: why a request cannot be built, and
    [format_oauth_transport_error]. *)
Context (build_error : OutRequest -> option string) (transport_error : string -> E -> string -> string).

(** ** Sending *)
Definition source_now (turn : Turn E) (source : Source) : Provider := mkProvider (so_static source) (tn_token turn source).

Definition turn_token (state : ProxyState) (turn : Turn E) (slot : option Source) :
  option Source * result ProxyTokenError (option string) :=
  let profile := ps_profile state in
  let '(_, token) := resolve_proxy_token credential_options profile (rmap (source_now turn) (tn_built turn)) (source_now turn <$> slot) in
  (match slot with Some _ => slot | None => rok (tn_built turn) end, token).

Definition upstream_headers (state : ProxyState) (header_profile : ResolvedProfile) (anthropic_version : option string)
    (url : string) (slot : option Source) (token : option string) : OutHeaders :=
  let req := [("content-type", "application/json")] in
  let req := if str_contains "/converse-stream" url then req ++ [("accept", "application/vnd.amazon.eventstream")] else req in
  let req := apply_profile_headers host_of req header_profile token in
  let req := match opt_filter (fun v => negb (is_empty v)) anthropic_version with
             | Some version => req ++ [("anthropic-version", version)]
             | None => req
             end in
  match slot with Some source => apply_provider_headers req (ps_profile state) (so_quota source) | None => req end.

Definition turn_request (state : ProxyState) (header_profile : ResolvedProfile) (anthropic_version : option string)
    (url : string) (encoded : list u8) (turn : Turn E) (slot : option Source) : option Source * outcome Reply OutRequest :=
  let '(slot, token) := turn_token state turn slot in
  (slot,
   match token with
   | Err (Unauthorized detail) => Some (Err (text_reply 401 (line detail)))
   | Err (Gateway detail) => Some (Err (text_reply 502 (line detail)))
   | Ok token =>
       let headers := upstream_headers state header_profile anthropic_version url slot token in
       let built := match build_error (mkOut url headers encoded) with Some err => Err err | None => Ok headers end in
       match apply_aws_sigv4 sha256 hmac url_parse resolve_region missing_creds_message header_value
               (ps_profile state) url "POST" encoded built (bearer_token_applied (ps_profile state) token)
               (tn_creds turn) (tn_now turn) with
       | None => None
       | Some (Err (AwsAuth err)) => Some (Err (text_reply 401 (line err)))
       | Some (Err (AwsTransport err)) => Some (Err (text_reply 502 (line err)))
       | Some (Ok headers) => Some (Ok (mkOut url headers encoded))
       end
   end).

Definition can_refresh (slot : option Source) : bool := is_some_and slot so_can_refresh.

(** [mark_stale] shows in what the next turn says of the token. *)
Fixpoint send_upstream (state : ProxyState) (header_profile : ResolvedProfile) (anthropic_version : option string)
    (url : string) (encoded : list u8) (turns : list (Turn E)) (retried : bool) (slot : option Source) :
  option Source * list OutRequest * SendEnd E :=
  match turns with
  | [] => (slot, [], SendOutOfTurns)
  | turn :: turns =>
      let '(slot, request) := turn_request state header_profile anthropic_version url encoded turn slot in
      match request with
      | None => (slot, [], SendPanic)
      | Some (Err reply) => (slot, [], Refused reply)
      | Some (Ok request) =>
          match tn_answer turn request with
          | Err err => (slot, [request], Refused (text_reply 502 (line (transport_error "upstream" err url))))
          | Ok resp =>
              if (rs_status resp =? 401) && negb retried && can_refresh slot then
                let '(slot, sent, ended) := send_upstream state header_profile anthropic_version url encoded turns true slot in
                (slot, request :: sent, ended)
              else (slot, [request], Answered resp)
          end
      end
  end.

(** ** Reading the answer *)
Fixpoint read_chunks (url : string) (chunks : list (result E (list u8))) (buf : list u8) (cap : Z) : result string (list u8) :=
  match chunks with
  | [] => Ok buf
  | Err err :: _ => Err (transport_error "upstream body" err url)
  | Ok chunk :: chunks =>
      if cap <? usize_saturating_add (vlen buf) (vlen chunk) then Err ("upstream body exceeds " +:+ pretty cap +:+ " bytes")
      else read_chunks url chunks (buf ++ chunk) cap
  end.

Definition read_capped_upstream (url : string) (resp : Response E) (cap : Z) : result string (list u8) :=
  match rs_length resp with
  | Some len =>
      if cap <? len then Err ("upstream body too large (Content-Length: " +:+ pretty len +:+ " bytes)")
      else read_chunks url (rs_chunks resp) [] cap
  | None => read_chunks url (rs_chunks resp) [] cap
  end.

Definition is_success (status : Z) : bool := (200 <=? status) && (status <=? 299).

(** What a stream task gets: chunks, and the text of a transport error. *)
Definition stream_items (url : string) (resp : Response E) : list (result string (list u8)) :=
  map (fun item => match item with Ok chunk => Ok chunk | Err err => Err (transport_error "upstream stream" err url) end) (rs_chunks resp).

(** ** Handlers *)
Definition models_list (state : ProxyState) : Reply :=
  let id := unwrap_or (opt_filter (fun m => negb (is_empty m)) (ps_model_override state)) (profile_id (ps_profile state)) in
  bytes_response 200 "application/json"
    (bytes_of_str (to_string (jobj [("object", JStr "list");
       ("data", JArr [jobj [("id", JStr id); ("object", JStr "model"); ("owned_by", JStr "wiremux")]])]))).

Definition Handled : Type := option Source * list OutRequest * Answer.

Definition count_answer (route : CountRoute) (url : string) (resp : Response E) : Reply :=
  match read_capped_upstream url resp MAX_UPSTREAM_BODY with
  | Err err => text_reply 502 (line err)
  | Ok body =>
      match (if is_success (rs_status resp) then same_wire_success_rejection (rs_type resp) body else None) with
      | Some message => text_reply 502 message
      | None =>
          if is_success (rs_status resp) && count_body_hides_vendor_error route body
          then bytes_response 400 "application/json" body
          else bytes_response (rs_status resp) (rs_type resp) body
      end
  end.

(** The body that is counted, with the model of [--model] written into it. *)
Definition count_body (route : CountRoute) (body : list u8) (override model : option string) : list u8 :=
  if is_some_and override (fun m => negb (is_empty m)) then
    match model with
    | Some model =>
        unwrap_or (rewrite_count_body_model body model (match route with CountMessages => true | CountGemini => false end)) body
    | None => body
    end
  else body.

Definition handle_count (state : ProxyState) (route : CountRoute) (path query : string) (headers : HeaderMap)
    (body : list u8) (turns : list (Turn E)) (slot : option Source) : Handled :=
  let refuse reply : Handled := (slot, [], Whole reply) in
  let route_wire := match route with CountMessages => Messages | CountGemini => Gemini end in
  match d_wire (dialect (ps_profile state)) with
  | None => refuse (text_reply 400 (line "profile has no wire; set `wire` on the profile"))
  | Some target =>
      match count_dialect_rejection (ps_from state) target route_wire with
      | Some message => refuse (text_reply 501 message)
      | None =>
          let loss := record_unused_query report_new (ps_from state) query in
          let '(header_profile, loss, anthropic_version) := forward_inbound_headers (ps_profile state) loss target headers in
          let model := count_model (ps_from state) path body (ps_model_override state) in
          match count_upstream_url (ps_profile state) model route with
          | Err NoEndpoint => refuse (text_reply 501 (line "this profile has no count endpoint"))
          | Err (UpstreamError err) => refuse (text_reply 400 (line err))
          | Ok url =>
              let '(slot, sent, ended) :=
                send_upstream state header_profile anthropic_version url (count_body route body (ps_model_override state) model) turns false slot in
              (slot, sent,
               match ended with
               | SendPanic => Panicked
               | SendOutOfTurns => OutOfTurns
               | Refused reply => Whole reply
               | Answered resp => Whole (count_answer route url resp)
               end)
          end
      end
  end.

(** [decode] of the bytes of a body. *)
Definition decode_body (wire : Wire) (bytes : list u8) : result MapError (IrRequest * LossReport) :=
  match from_utf8 bytes with
  | Some text => Requests.decode json_error wire text
  | None => Err (Invalid (quoted_wire wire +:+ " is invalid JSON: " +:+ slice_error bytes))
  end.

Definition set_model (ir : IrRequest) (m : string) : IrRequest := Ir.mkRequest m (items ir) (tools ir) (sampling ir).

(** The request that is to be encoded: its stream flag and its model may come
    from the path, and the model from [--model]. *)
Definition read_request (state : ProxyState) (path query : string) (body : list u8) : result MapError (IrRequest * LossReport) :=
  let from := ps_from state in
  let* p := decode_body from body in
  let '(ir, loss) := p in
  let ir := if dest_stream_from_request from path query then with_sampling ir (stream_on (sampling ir)) else ir in
  let loss := record_unused_query loss from query in
  let ir := if is_empty (model ir) then match model_from_dest_path from path with Some m => set_model ir m | None => ir end else ir in
  Ok match opt_filter (fun m => negb (is_empty m)) (ps_model_override state) with
     | Some m => if negb (String.eqb (model ir) m) then (set_model ir m, record loss "model" Degrade "proxy --model") else (ir, loss)
     | None => (ir, loss)
     end.

Definition streams (ir : IrRequest) : bool := bool_decide (sp_stream (sampling ir) = Some true).

(** The body sent for a request. *)
Definition encode_body (state : ProxyState) (target : Wire) (ir : IrRequest) : outcome MapError (list u8 * list LossEvent) :=
  let? p := Requests.encode char_lower target ir (ps_profile state) in
  let '(encoded, loss) := p in
  Some (Ok (MessagesSampling.restore_same_wire_messages_tool_choice (ps_from state) target ir (bytes_of_str encoded) (loss_events loss))).

(** The answer once the body of the upstream was read. *)
Definition answer_body (state : ProxyState) (target : Wire) (ir : IrRequest) (resp : Response E) (body : list u8) : Reply :=
  let from := ps_from state in
  let stream := streams ir in
  let dialect := dialect (ps_profile state) in
  let status := rs_status resp in
  let success := is_success status in
  let failure := cross_wire_vendor_failure from target stream body in
  match (if success then failure else None) with
  | Some mapped =>
      if stream then bytes_response status (dest_stream_content_type from) mapped
      else bytes_response 400 "application/json" mapped
  | None =>
      match (if stream && success then json_completion_to_sse parse_error slice_error debug from target body dialect (model ir) else None) with
      | Some sse => bytes_response status (dest_stream_content_type from) sse
      | None =>
          if wire_eqb target from then
            match (if success then same_wire_success_rejection (rs_type resp) body else None) with
            | Some message => text_reply 502 message
            | None => bytes_response status (rs_type resp) body
            end
          else if negb success then
            match failure with
            | Some mapped =>
                if stream then bytes_response status (dest_stream_content_type from) mapped
                else bytes_response status "application/json" mapped
            | None => bytes_response status (rs_type resp) body
            end
          else
            match decode_response parse_error slice_error dialect target body with
            | Err err => text_reply 502 (line ("decode upstream body: " +:+ map_error_fmt err))
            | Ok events =>
                match encode_response_with_model from events (model ir) with
                | Err err => text_reply 502 (line ("encode client body: " +:+ map_error_fmt err))
                | Ok mapped => bytes_response status "application/json" (bytes_of_str (to_string mapped))
                end
            end
      end
  end.

Definition answer (state : ProxyState) (target : Wire) (ir : IrRequest) (url : string) (resp : Response E) : Answer :=
  let from := ps_from state in
  let dialect := dialect (ps_profile state) in
  if str_contains "text/event-stream" (rs_type resp) || str_contains "eventstream" (rs_type resp) then
    if wire_eqb target from then
      Streamed (rs_status resp) (if is_empty (rs_type resp) then "text/event-stream" else rs_type resp)
        (passthrough_sse parse_error slice_error debug from dialect (rs_type resp) (stream_items url resp))
    else
      Streamed (rs_status resp) (dest_stream_content_type from)
        (map_sse_stream parse_error debug from target dialect (model ir) (stream_items url resp))
  else
    match read_capped_upstream url resp MAX_UPSTREAM_BODY with
    | Err err => Whole (text_reply 502 (line err))
    | Ok body => Whole (answer_body state target ir resp body)
    end.

(** A POST with the body in hand. *)
Definition handle_post (state : ProxyState) (path query : string) (headers : HeaderMap) (body : list u8)
    (turns : list (Turn E)) (slot : option Source) : Handled :=
  let refuse reply : Handled := (slot, [], Whole reply) in
  match read_request state path query body with
  | Err err => refuse (text_reply 400 (line (map_error_fmt err)))
  | Ok (ir, dec_loss) =>
      match d_wire (dialect (ps_profile state)) with
      | None => refuse (text_reply 400 (line "profile has no wire; cannot encode"))
      | Some target =>
          let '(header_profile, dec_loss, anthropic_version) := forward_inbound_headers (ps_profile state) dec_loss target headers in
          match encode_body state target ir with
          | None => (slot, [], Panicked)
          | Some (Err err) => refuse (text_reply 400 (line (map_error_fmt err)))
          | Some (Ok (encoded, enc_loss)) =>
              match upstream_url_for_model (ps_profile state) (Some (model ir)) (streams ir) with
              | Err err => refuse (text_reply 400 (line err))
              | Ok url =>
                  let '(slot, sent, ended) := send_upstream state header_profile anthropic_version url encoded turns false slot in
                  (slot, sent,
                   match ended with
                   | SendPanic => Panicked
                   | SendOutOfTurns => OutOfTurns
                   | Refused reply => Whole reply
                   | Answered resp => answer state target ir url resp
                   end)
              end
          end
      end
  end.

(** [parse::<u64>] of a header. *)
Definition content_length (headers : HeaderMap) : option Z :=
  opt_filter (fun n => n <? 2 ^ 64) (header_text "content-length" headers ≫= parse_unsigned).

Definition handle_inner (state : ProxyState) (req : Request) (turns : list (Turn E)) (slot : option Source) : Handled :=
  let refuse reply : Handled := (slot, [], Whole reply) in
  let is_post := String.eqb (rq_method req) "POST" in
  let is_get := String.eqb (rq_method req) "GET" in
  let path := rq_path req in
  match request_guard req is_post with
  | Some denied => refuse denied
  | None =>
      if is_get && one_of path ["/"; "/health"; "/healthz"] then refuse (text_reply 200 (line "ok"))
      else if is_get && String.eqb path "/v1/models" then refuse (models_list state)
      else if negb is_post then refuse (text_reply 405 (line "POST required"))
      else
        match opt_filter (fun len => MAX_BODY <? len) (content_length (rq_headers req)) with
        | Some len => refuse (request_body_too_large_len len)
        | None =>
            match read_capped_body (rq_body req) MAX_BODY with
            | Err LengthLimit => refuse request_body_too_large
            | Err (ReadError err) => refuse (text_reply 400 (line ("read body: " +:+ err)))
            | Ok body =>
                if MAX_BODY <? vlen body then refuse request_body_too_large
                else
                  match count_route path with
                  | Some route => handle_count state route path (unwrap_or (rq_query req) "") (rq_headers req) body turns slot
                  | None => handle_post state path (unwrap_or (rq_query req) "") (rq_headers req) body turns slot
                  end
            end
        end
  end.
End Handler.

(** ** The URL of a count *)
Lemma trim_start_char_free c d s : contains_char d s = false -> contains_char d (trim_start_char c s) = false.
Proof.
  induction s as [|a s IH]; [done|]. intros H. cbn [trim_start_char]. destruct (Ascii.eqb a c); [|done].
  cbn [contains_char] in H. apply orb_false_iff in H as [_ H]. by apply IH.
Qed.

Lemma trim_end_free c d s : contains_char d s = false -> contains_char d (trim_end_matches c s) = false.
Proof. intros H. unfold trim_end_matches. rewrite contains_char_rev. apply trim_start_char_free. by rewrite contains_char_rev. Qed.

Lemma split_join_parts path query fragment :
  contains_char "#" path = false -> contains_char "?" path = false -> (forall q, query = Some q -> contains_char "#" q = false) ->
  split_query_fragment (join_query_fragment path query fragment) = (path, query, fragment).
Proof.
  intros P Q H. unfold split_query_fragment, join_query_fragment.
  assert (N : forall c s, contains_char c s = false -> split_once c s = None).
  { intros c s F. destruct (split_once c s) as [[x y]|] eqn:S; [|done]. apply split_once_Some in S as [-> _].
    rewrite contains_char_app in F. cbn [contains_char] in F. rewrite Ascii.eqb_refl in F. by destruct (contains_char c x). }
  assert (S : forall c x y, contains_char c x = false -> split_once c (x +:+ String c y) = Some (x, y)) by apply split_once_app.
  set (start := path +:+ match query with Some q => "?" +:+ q | None => "" end).
  assert (F : contains_char "#" start = false).
  { unfold start. rewrite contains_char_app, P. destruct query as [q|]; [|done]. rewrite str_app_cons, str_app_nil. cbn [contains_char].
    by rewrite (H q eq_refl). }
  assert (B : match split_once "?" start with Some (p, q) => (p, Some q, fragment) | None => (start, None, fragment) end = (path, query, fragment)).
  { unfold start. destruct query as [q|].
    - by rewrite str_app_cons, str_app_nil, (S "?"%char).
    - by rewrite str_app_nil_r, (N "?"%char). }
  rewrite <- str_app_assoc. fold start. destruct fragment as [f|].
  - by rewrite str_app_cons, str_app_nil, (S "#"%char).
  - by rewrite str_app_nil_r, (N "#"%char).
Qed.

Lemma split_parts_free url path query fragment :
  split_query_fragment url = (path, query, fragment) ->
  contains_char "#" path = false /\ contains_char "?" path = false /\ (forall q, query = Some q -> contains_char "#" q = false).
Proof.
  unfold split_query_fragment. intros H.
  assert (exists before, contains_char "#" before = false
    /\ match split_once "?" before with Some (p, q) => (p, Some q, fragment) | None => (before, None, fragment) end = (path, query, fragment))
    as (before & F & B).
  { destruct (split_once "#" url) as [[before f]|] eqn:S.
    - exists before. apply split_once_Some in S as [_ F]. split; [done|].
      destruct (split_once "?" before) as [[p q]|]; congruence.
    - exists url. apply split_once_None in S. split; [done|].
      destruct (split_once "?" url) as [[p q]|]; congruence. }
  destruct (split_once "?" before) as [[p q]|] eqn:S; injection B as -> <-.
  - apply split_once_Some in S as [-> P]. rewrite contains_char_app in F. cbn [contains_char] in F.
    apply orb_false_iff in F as [F1 F2]. apply orb_false_iff in F2 as [_ F2]. split_and!; [done|done|by intros q' [= <-]].
  - by apply split_once_None in S.
Qed.

(** A count goes to the URL of the request it counts: only the end of the path
    is other, the query and the fragment stay. *)
Theorem count_url_stays url route out :
  rewrite_count_url url route = Some out ->
  let '(path, query, fragment) := split_query_fragment url in
  exists prefix, split_query_fragment out
      = (prefix +:+ match route with CountMessages => "/count_tokens" | CountGemini => ":countTokens" end, query, fragment)
    /\ trim_end_matches "/" path = prefix +:+ match route with CountMessages => "" | CountGemini => ":generateContent" end.
Proof.
  unfold rewrite_count_url. destruct (split_query_fragment url) as [[path query] fragment] eqn:S.
  apply split_parts_free in S as (P & Q & H). apply (trim_end_free "/") in P, Q.
  set (trimmed := trim_end_matches "/" path) in *. clearbody trimmed. destruct route.
  - destruct (ends_with _ _); [|done]. cbn [mbind option_bind]. intros [= <-]. exists trimmed.
    rewrite split_join_parts, str_app_nil_r; [done|by rewrite contains_char_app, P|by rewrite contains_char_app, Q|done].
  - destruct (strip_suffix _ _) as [prefix|] eqn:E; [|done]. cbn [mbind option_bind]. intros [= <-]. exists prefix.
    apply strip_suffix_Some in E. subst trimmed. rewrite contains_char_app in P, Q. apply orb_false_iff in P as [P _], Q as [Q _].
    rewrite split_join_parts; [done|by rewrite contains_char_app, P|by rewrite contains_char_app, Q|done].
Qed.

(** ** Bodies *)
Lemma read_capped_spec chunks : forall cap body, 0 <= cap -> read_capped_body chunks cap = Ok body ->
  exists pieces, chunks = map Ok pieces /\ body = concat pieces /\ vlen body <= cap.
Proof.
  induction chunks as [|[chunk|err] chunks IH]; intros cap body C; cbn [read_capped_body].
  - intros [= <-]. exists []. split_and!; [done|done|by unfold vlen].
  - destruct (Z.ltb_spec cap (vlen chunk)) as [|L]; [done|].
    destruct (read_capped_body chunks (cap - vlen chunk)) as [rest|] eqn:R; [|done]. cbn [rmap]. intros [= <-].
    destruct (IH (cap - vlen chunk) rest ltac:(lia) R) as (pieces & -> & -> & B). exists (chunk :: pieces). split_and!; [done|done|].
    unfold vlen in *. cbn [concat]. rewrite length_app, Nat2Z.inj_add. lia.
  - done.
Qed.

(** ** What is sent *)
Section Sending.
Context {SJ : SerdeJson} {E : Type}.
Context (json_error : string -> string) (parse_error : string -> string) (slice_error : list u8 -> string)
  (debug : IrStreamEvent -> string) (char_lower : string -> option string).
Context (credential_options : ResolvedProfile -> string) (host_of : string -> option string)
  (sha256 : list u8 -> list u8) (hmac : list u8 -> list u8 -> result string (list u8))
  (url_parse : string -> result string ParsedUrl) (resolve_region : ResolvedProfile -> string)
  (missing_creds_message : ResolvedProfile -> string) (header_value : string -> option string).
Context (build_error : OutRequest -> option string) (transport_error : string -> E -> string -> string).

Notation turn_request := (turn_request (E := E) credential_options host_of sha256 hmac url_parse resolve_region missing_creds_message
  header_value build_error).
Notation send_upstream := (send_upstream credential_options host_of sha256 hmac url_parse resolve_region missing_creds_message
  header_value build_error transport_error).
Notation handle_inner := (handle_inner json_error parse_error slice_error debug char_lower credential_options host_of sha256 hmac
  url_parse resolve_region missing_creds_message header_value build_error transport_error).
Notation handle_post := (handle_post json_error parse_error slice_error debug char_lower credential_options host_of sha256 hmac
  url_parse resolve_region missing_creds_message header_value build_error transport_error).
Notation handle_count := (handle_count credential_options host_of sha256 hmac url_parse resolve_region missing_creds_message
  header_value build_error transport_error).

Definition same_request (url : string) (encoded : list u8) (r : OutRequest) : Prop := or_url r = url /\ or_body r = encoded.

(** The last request sent is the one that was answered. *)
Definition answered_last (turns : list (Turn E)) (sent : list OutRequest) (ended : SendEnd E) : Prop :=
  match ended with
  | Answered resp => exists turn before request, In turn turns /\ sent = before ++ [request] /\ tn_answer turn request = Ok resp
  | Refused reply => is_success (re_status reply) = false
  | _ => True
  end.

Lemma turn_request_same state hp version url encoded turn slot slot' r :
  turn_request state hp version url encoded turn slot = (slot', Some (Ok r)) -> same_request url encoded r.
Proof.
  unfold Proxy.turn_request. destruct (turn_token _ _ _ _) as [s [token|[]]]; [|done..].
  destruct (apply_aws_sigv4 _ _ _ _ _ _ _ _ _ _ _ _ _ _) as [[headers|[]]|]; [|done..]. by intros [= _ <-].
Qed.

Lemma turn_request_refused state hp version url encoded turn slot slot' reply :
  turn_request state hp version url encoded turn slot = (slot', Some (Err reply)) -> is_success (re_status reply) = false.
Proof.
  unfold Proxy.turn_request. destruct (turn_token _ _ _ _) as [s [token|[]]]; [|by intros [= _ <-]..].
  destruct (apply_aws_sigv4 _ _ _ _ _ _ _ _ _ _ _ _ _ _) as [[headers|[]]|]; by intros [= _ <-].
Qed.

Lemma send_shape state hp version url encoded turns : forall retried slot slot' sent ended,
  send_upstream state hp version url encoded turns retried slot = (slot', sent, ended) ->
  Forall (same_request url encoded) sent /\ (length sent <= if retried then 1 else 2)%nat /\ answered_last turns sent ended
  /\ (((if retried then 1 else 2) <= length turns)%nat -> ended <> SendOutOfTurns).
Proof.
  induction turns as [|turn turns IH]; intros retried slot slot' sent ended; cbn [Proxy.send_upstream].
  { intros [= <- <- <-]. split_and!; [done|destruct retried; cbn; lia|done|]. destruct retried; cbn; lia. }
  destruct (turn_request state hp version url encoded turn slot) as [s [[request|reply]|]] eqn:T.
  - apply turn_request_same in T. destruct (tn_answer turn request) as [resp|err] eqn:A.
    + destruct (_ && negb retried && can_refresh s) eqn:B.
      * apply andb_true_iff in B as [[_ N]%andb_true_iff _]. destruct retried; [done|].
        destruct (send_upstream state hp version url encoded turns true s) as [[s2 sent2] ended2] eqn:S.
        intros [= <- <- <-]. destruct (IH _ _ _ _ _ S) as (F & L & W & O). split_and!.
        -- by constructor.
        -- cbn [length]. lia.
        -- destruct ended2; try done. destruct W as (t & before & r & I & -> & R). exists t, (request :: before), r.
           split_and!; [by right|done|done].
        -- cbn [length]. intros H. apply O. lia.
      * intros [= <- <- <-]. split_and!; [by apply Forall_singleton|destruct retried; cbn; lia| |done].
        exists turn, [], request. split_and!; [by left|done|done].
    + intros [= <- <- <-]. split_and!; [by apply Forall_singleton|destruct retried; cbn; lia|done|done].
  - intros [= <- <- <-]. split_and!; [done|destruct retried; cbn; lia|by eapply turn_request_refused|done].
  - intros [= <- <- <-]. split_and!; [done|destruct retried; cbn; lia|done|done].
Qed.

(** A clock before the year 10000. *)
Definition clock_ok (turn : Turn E) : Prop := 0 <= tn_now turn < 253402300800.

Lemma turn_request_returns state hp version url encoded turn slot slot' :
  clock_ok turn -> turn_request state hp version url encoded turn slot <> (slot', None).
Proof.
  intros C. unfold Proxy.turn_request. destruct (turn_token _ _ _ _) as [s [token|[]]]; [|done..].
  destruct (apply_aws_sigv4 _ _ _ _ _ _ _ _ _ _ _ _ _ _) as [[headers|[]]|] eqn:A; [done..|].
  exfalso. revert A. by apply signing_never_panics.
Qed.

Lemma send_returns state hp version url encoded turns : forall retried slot slot' sent,
  Forall clock_ok turns -> send_upstream state hp version url encoded turns retried slot <> (slot', sent, SendPanic).
Proof.
  induction turns as [|turn turns IH]; intros retried slot slot' sent C; cbn [Proxy.send_upstream]; [done|].
  apply Forall_cons in C as [C1 C].
  destruct (turn_request state hp version url encoded turn slot) as [s [[request|reply]|]] eqn:T; [|done|].
  - destruct (tn_answer turn request) as [resp|err]; [|done].
    destruct (_ && negb retried && can_refresh s); [|done].
    destruct (send_upstream state hp version url encoded turns true s) as [[s2 sent2] ended2] eqn:S.
    intros [= -> <- ->]. by apply (IH true s slot' sent2 C).
  - exfalso. by apply (turn_request_returns state hp version url encoded turn slot s C1).
Qed.

(** ** What a handler does *)

(** The one dialect of a count. *)
Definition count_wire (route : CountRoute) : Wire := match route with CountMessages => Messages | CountGemini => Gemini end.

(** The URL and the body a request of the client stands for. *)
Definition asks (state : ProxyState) (req : Request) (body : list u8) (target : Wire) (url : string) (encoded : list u8) : Prop :=
  match count_route (rq_path req) with
  | Some route =>
      let model := count_model (ps_from state) (rq_path req) body (ps_model_override state) in
      ps_from state = count_wire route /\ target = count_wire route
      /\ count_upstream_url (ps_profile state) model route = Ok url
      /\ encoded = count_body route body (ps_model_override state) model
  | None =>
      exists ir loss enc_loss,
        read_request json_error slice_error state (rq_path req) (unwrap_or (rq_query req) "") body = Ok (ir, loss)
        /\ encode_body char_lower state target ir = Some (Ok (encoded, enc_loss))
        /\ upstream_url_for_model (ps_profile state) (Some (model ir)) (streams ir) = Ok url
  end.

(** A request that got as far as the upstream: admitted, a POST, its body read
    whole and within the limit. *)
Definition admitted (state : ProxyState) (req : Request) (body : list u8) (target : Wire) : Prop :=
  request_guard req true = None /\ rq_method req = "POST"
  /\ (exists pieces, rq_body req = map Ok pieces /\ body = concat pieces) /\ vlen body <= MAX_BODY
  /\ d_wire (dialect (ps_profile state)) = Some target.

(** What is answered without the upstream: a refusal, the health of the proxy, its
    one model; or nothing, when the request cannot be written at all. *)
Inductive answered_here (state : ProxyState) (req : Request) : Answer -> Prop :=
| here_refused reply : is_success (re_status reply) = false -> answered_here state req (Whole reply)
| here_health :
    request_guard req false = None -> rq_method req = "GET" -> In (rq_path req) ["/"; "/health"; "/healthz"] ->
    answered_here state req (Whole (text_reply 200 (line "ok")))
| here_models :
    request_guard req false = None -> rq_method req = "GET" -> rq_path req = "/v1/models" ->
    answered_here state req (Whole (models_list state))
| here_panic body target ir loss :
    admitted state req body target ->
    read_request json_error slice_error state (rq_path req) (unwrap_or (rq_query req) "") body = Ok (ir, loss) ->
    encode_body char_lower state target ir = None -> answered_here state req Panicked.

Lemma count_dialect_none from target route :
  count_dialect_rejection from target route = None -> from = route /\ target = route.
Proof.
  unfold count_dialect_rejection, wire_eqb. repeat case_bool_decide; try done; by destruct (negb _).
Qed.

(** What becomes of the answer of the upstream. *)
Definition answers (state : ProxyState) (req : Request) (body : list u8) (target : Wire) (url : string) (ended : SendEnd E) (ans : Answer) : Prop :=
  ans = match ended with
        | SendPanic => Panicked
        | SendOutOfTurns => OutOfTurns
        | Refused reply => Whole reply
        | Answered resp =>
            match count_route (rq_path req) with
            | Some route => Whole (count_answer transport_error route url resp)
            | None =>
                match read_request json_error slice_error state (rq_path req) (unwrap_or (rq_query req) "") body with
                | Ok (ir, _) => answer parse_error slice_error debug transport_error state target ir url resp
                | Err _ => Panicked
                end
            end
        end.

Lemma post_cases state path query headers body turns slot :
  (exists a, handle_post state path query headers body turns slot = (slot, [], a)
     /\ ((exists reply, a = Whole reply /\ is_success (re_status reply) = false)
         \/ (a = Panicked /\ exists ir loss target,
               read_request json_error slice_error state path query body = Ok (ir, loss)
               /\ d_wire (dialect (ps_profile state)) = Some target /\ encode_body char_lower state target ir = None)))
  \/ exists ir loss target hp version encoded enc_loss url,
       read_request json_error slice_error state path query body = Ok (ir, loss)
       /\ d_wire (dialect (ps_profile state)) = Some target
       /\ encode_body char_lower state target ir = Some (Ok (encoded, enc_loss))
       /\ upstream_url_for_model (ps_profile state) (Some (model ir)) (streams ir) = Ok url
       /\ handle_post state path query headers body turns slot
          = let '(slot, sent, ended) := send_upstream state hp version url encoded turns false slot in
            (slot, sent, match ended with
                         | SendPanic => Panicked
                         | SendOutOfTurns => OutOfTurns
                         | Refused reply => Whole reply
                         | Answered resp => answer parse_error slice_error debug transport_error state target ir url resp
                         end).
Proof.
  unfold Proxy.handle_post. destruct (read_request _ _ _ _ _ _) as [[ir loss]|]; [|left; eexists; split; [done|]; left; by eexists].
  destruct (d_wire _) as [target|] eqn:W; [|left; eexists; split; [done|]; left; by eexists].
  destruct (forward_inbound_headers _ _ _ _) as [[hp l] version].
  destruct (encode_body _ _ _ _) as [[[encoded enc_loss]|]|] eqn:EB; [|left; eexists; split; [done|]; left; by eexists|].
  2: { left. eexists. split; [done|]. right. split; [done|]. by exists ir, loss, target. }
  destruct (upstream_url_for_model _ _ _) as [url|] eqn:U; [|left; eexists; split; [done|]; left; by eexists].
  right. by exists ir, loss, target, hp, version, encoded, enc_loss, url.
Qed.

Lemma count_cases state route path query headers body turns slot :
  (exists reply, handle_count state route path query headers body turns slot = (slot, [], Whole reply)
     /\ is_success (re_status reply) = false)
  \/ exists target hp version url,
       let model := count_model (ps_from state) path body (ps_model_override state) in
       d_wire (dialect (ps_profile state)) = Some target
       /\ ps_from state = count_wire route /\ target = count_wire route
       /\ count_upstream_url (ps_profile state) model route = Ok url
       /\ handle_count state route path query headers body turns slot
          = let '(slot, sent, ended) :=
              send_upstream state hp version url (count_body route body (ps_model_override state) model) turns false slot in
            (slot, sent, match ended with
                         | SendPanic => Panicked
                         | SendOutOfTurns => OutOfTurns
                         | Refused reply => Whole reply
                         | Answered resp => Whole (count_answer transport_error route url resp)
                         end).
Proof.
  unfold Proxy.handle_count. destruct (d_wire _) as [target|] eqn:W; [|left; by eexists].
  destruct (count_dialect_rejection _ _ _) as [message|] eqn:D.
  { left. eexists. split; [done|]. unfold count_dialect_rejection in D.
    repeat case_hyp D; first [discriminate D|by injection D as <-]. }
  apply count_dialect_none in D as [D1 D2].
  destruct (forward_inbound_headers _ _ _ _) as [[hp l] version].
  destruct (count_upstream_url _ _ _) as [url|[]] eqn:U; [|left; by eexists..].
  right. by exists target, hp, version, url.
Qed.

(** Either nothing is sent, or the request was admitted and one request to one
    URL with one body was sent, at most twice. *)
Lemma handled_cases state req turns slot :
  (exists a, handle_inner state req turns slot = (slot, [], a) /\ answered_here state req a)
  \/ exists body target url encoded hp version slot' sent ended ans,
       admitted state req body target /\ asks state req body target url encoded
       /\ send_upstream state hp version url encoded turns false slot = (slot', sent, ended)
       /\ answers state req body target url ended ans /\ handle_inner state req turns slot = (slot', sent, ans).
Proof.
  assert (R : forall reply, is_success (re_status reply) = false -> exists a, (slot, [], Whole reply) = (slot, [] : list OutRequest, a) /\ answered_here state req a)
    by (intros reply Z; eexists; split; [done|by apply here_refused]).
  unfold Proxy.handle_inner. destruct (request_guard req _) as [denied|] eqn:G.
  { left. apply R. unfold request_guard in G.
    repeat case_hyp G; first [discriminate G|by injection G as <-]. }
  destruct (String.eqb_spec (rq_method req) "GET") as [Get|]; cbn [andb].
  { rewrite Get in G. cbn in G. left. destruct (one_of (rq_path req) _) eqn:O.
    { eexists. split; [done|]. by apply here_health; [..|by apply one_of_In]. }
    destruct (String.eqb_spec (rq_path req) "/v1/models") as [M|]; [eexists; split; [done|]; by apply here_models|].
    rewrite Get. by apply R. }
  destruct (String.eqb_spec (rq_method req) "POST") as [P|]; cbn [negb] in *; [|left; by apply R].
  destruct (opt_filter _ (content_length _)); [left; by apply R|].
  destruct (read_capped_body (rq_body req) MAX_BODY) as [body|[]] eqn:B; [|left; by apply R..].
  destruct (Z.ltb_spec MAX_BODY (vlen body)) as [|L]; [left; by apply R|].
  apply read_capped_spec in B as (pieces & B1 & B2 & _); [|done].
  assert (A : forall target, d_wire (dialect (ps_profile state)) = Some target -> admitted state req body target).
  { intros target W. unfold admitted. split_and!; try done. by exists pieces. }
  destruct (count_route (rq_path req)) as [route|] eqn:CR.
  - destruct (count_cases state route (rq_path req) (unwrap_or (rq_query req) "") (rq_headers req) body turns slot)
      as [(reply & -> & N)|(target & hp & version & url & W & D1 & D2 & U & ->)]; [left; by apply R|right].
    destruct (send_upstream _ _ _ _ _ _ _ _) as [[slot' sent] ended] eqn:S.
    exists body, target, url. do 3 eexists. exists slot', sent, ended. eexists. split_and!; [by apply A| |exact S| |reflexivity].
    + unfold asks. by rewrite CR.
    + unfold answers. by rewrite CR.
  - destruct (post_cases state (rq_path req) (unwrap_or (rq_query req) "") (rq_headers req) body turns slot)
      as [(a & -> & [(reply & -> & N)|(-> & ir & loss & target & D & W & EB)])
         |(ir & loss & target & hp & version & encoded & enc_loss & url & D & W & EB & U & ->)]; [left; by apply R| |right].
    { left. eexists. split; [done|]. apply (here_panic state req body target ir loss); [by apply A|done|done]. }
    destruct (send_upstream _ _ _ _ _ _ _ _) as [[slot' sent] ended] eqn:S.
    exists body, target, url, encoded, hp, version, slot', sent, ended. eexists. split_and!; [by apply A| |exact S| |reflexivity].
    + unfold asks. rewrite CR. by exists ir, loss, enc_loss.
    + unfold answers. by rewrite CR, D.
Qed.

(** C27. What is sent is what was asked: when a request goes upstream, the client
    was admitted and sent a POST whose body was read whole and is at most 8
    MiB; every request goes to the URL of the profile for the model of the
    client, or of [--model], with the body written for it, and there are at most
    two of them.
    A count goes upstream only when the client, the profile and the path speak
    one dialect. *)
Theorem proxy_sends state req turns slot slot' sent ans :
  handle_inner state req turns slot = (slot', sent, ans) -> sent <> [] ->
  exists body target url encoded,
    admitted state req body target /\ asks state req body target url encoded
    /\ Forall (same_request url encoded) sent /\ (length sent <= 2)%nat.
Proof.
  intros H N. destruct (handled_cases state req turns slot)
    as [(a & HA & _)|(body & target & url & encoded & hp & version & s & sent' & ended & ans' & A & Q & S & _ & HA)];
    rewrite HA in H; injection H as <- <- <-; [done|].
  exists body, target, url, encoded. by destruct (send_shape _ _ _ _ _ _ _ _ _ _ _ S) as (F & L & _).
Qed.

(** C29. Two turns of the loop are enough: with a clock before the year 10000 the
    handler ends with an answer - a reply, or a stream whose task ends - and the one
    case in which it panics is that writing the request that was read panics, which
    [cache_tag_panics] shows it can. *)
Theorem proxy_answers state req turns slot :
  (2 <= length turns)%nat -> Forall clock_ok turns ->
  match (handle_inner state req turns slot).2 with
  | Whole _ => True
  | Streamed _ _ sent => sent <> None
  | OutOfTurns => False
  | Panicked =>
      exists body target ir loss, admitted state req body target
        /\ read_request json_error slice_error state (rq_path req) (unwrap_or (rq_query req) "") body = Ok (ir, loss)
        /\ encode_body char_lower state target ir = None
  end.
Proof.
  intros T C. destruct (handled_cases state req turns slot)
    as [(a & -> & N)|(body & target & url & encoded & hp & version & s & sent' & ended & ans' & A & Q & S & X & ->)].
  { destruct N as [| | |body target ir loss]; try done. by exists body, target, ir, loss. }
  pose proof (send_shape _ _ _ _ _ _ _ _ _ _ _ S) as (_ & _ & _ & O). specialize (O T). cbn [snd].
  unfold answers in X. subst ans'. destruct ended as [| | |resp]; [|done|done|].
  { by apply (send_returns _ _ _ _ _ _ _ _ _ _ C) in S. }
  unfold asks in Q. destruct (count_route _); [done|]. destruct Q as (ir & loss & enc_loss & -> & _).
  unfold answer. destruct (_ || _); [|by destruct (read_capped_upstream _ _ _ _)].
  destruct (wire_eqb _ _).
  - unfold passthrough_sse. destruct (pass_chunks_honest parse_error slice_error debug (str_contains "eventstream" (rs_type resp))
      (stream_items transport_error url resp) (gate_new (ps_from state) (dialect (ps_profile state))) eq_refl) as (out & -> & _). done.
  - unfold map_sse_stream. destruct (map_chunks_returns parse_error debug (stream_items transport_error url resp)
      (for_wire target) (mapped_new (ps_from state) target (dialect (ps_profile state)) (model ir))) as ([out next] & ->). done.
Qed.

(** ** A success is a success *)

(** What a successful answer in one piece holds: for a client that asked for a
    stream, the stream of a whole completion or the error of the vendor;
    otherwise the JSON of an upstream of the same dialect, or the events of a
    body of another dialect written as a body of the client's, and no failure
    of the vendor. *)
Definition successful_body (state : ProxyState) (target : Wire) (ir : IrRequest) (content_type : string) (body out : list u8) : Prop :=
  let from := ps_from state in
  let dialect := dialect (ps_profile state) in
  (streams ir = true
   /\ (cross_wire_vendor_failure from target true body = Some out
       \/ json_completion_to_sse parse_error slice_error debug from target body dialect (model ir) = Some out))
  \/ (cross_wire_vendor_failure from target (streams ir) body = None
      /\ ((target = from /\ out = body /\ same_wire_success_is_json content_type body = true)
          \/ (target <> from /\ exists events mapped,
                 decode_response parse_error slice_error dialect target body = Ok events
                 /\ encode_response_with_model from events (model ir) = Ok mapped /\ out = bytes_of_str (to_string mapped)))).

Lemma rejection_none content_type body :
  same_wire_success_rejection content_type body = None -> same_wire_success_is_json content_type body = true.
Proof. unfold same_wire_success_rejection. destruct (same_wire_success_is_json _ _); [done|]. by destruct (_ && _). Qed.

Lemma answer_body_success state target ir (resp : Response E) body :
  let r := answer_body parse_error slice_error debug state target ir resp body in
  is_success (re_status r) = true ->
  is_success (rs_status resp) = true /\ re_status r = rs_status resp /\ successful_body state target ir (rs_type resp) body (re_body r).
Proof.
  cbv zeta. unfold answer_body, successful_body. destruct (is_success (rs_status resp)) eqn:S.
  - rewrite andb_true_r. cbn [negb].
    destruct (cross_wire_vendor_failure _ _ (streams ir) _) as [mapped|] eqn:F.
    { destruct (streams ir) eqn:X; [|done]. intros _. split_and!; [done|done|]. left. by split; [|left]. }
    destruct (if streams ir then _ else None) as [sse|] eqn:J.
    { destruct (streams ir) eqn:X; [|done]. intros _. split_and!; [done|done|]. left. by split; [|right]. }
    unfold wire_eqb. case_bool_decide as W.
    + destruct (same_wire_success_rejection _ _) eqn:K; [done|]. apply rejection_none in K.
      intros _. split_and!; [done|done|]. right. split; [done|]. by left.
    + destruct (decode_response _ _ _ _ _) as [events|]; [|done].
      destruct (encode_response_with_model _ _ _) as [mapped|] eqn:M; [|done].
      intros _. split_and!; [done|done|]. right. split; [done|]. right. split; [done|]. by exists events, mapped.
  - rewrite andb_false_r. cbn [negb]. destruct (wire_eqb target _); [cbn; by rewrite S|].
    destruct (cross_wire_vendor_failure _ _ _ _) as [mapped|]; [destruct (streams ir)|]; cbn; by rewrite S.
Qed.

Lemma count_answer_success route url (resp : Response E) :
  let r := count_answer transport_error route url resp in
  is_success (re_status r) = true ->
  exists body, read_capped_upstream transport_error url resp MAX_UPSTREAM_BODY = Ok body
    /\ is_success (rs_status resp) = true /\ re_status r = rs_status resp /\ re_body r = body
    /\ same_wire_success_is_json (rs_type resp) body = true /\ count_body_hides_vendor_error route body = false.
Proof.
  cbv zeta. unfold count_answer. destruct (read_capped_upstream _ _ _ _) as [body|]; [|done]. intros H. exists body. split; [done|]. revert H.
  destruct (is_success (rs_status resp)) eqn:S.
  - destruct (same_wire_success_rejection _ _) eqn:K; [done|]. apply rejection_none in K.
    destruct (count_body_hides_vendor_error _ _) eqn:V; [done|]. done.
  - cbn. congruence.
Qed.

End Sending.

(** ** Witnesses *)
Section Witnesses.
#[local] Existing Instance bits_codec.

Definition test_state : ProxyState := mkState ChatCompletions (key_profile None [("authorization", "Bearer k")]) None.
Definition test_body : json :=
  jobj [("model", JStr "m"); ("messages", JArr [jobj [("role", JStr "user"); ("content", JStr "hi")]])].
Definition test_request (path : string) : Request :=
  Guard.mkRequest "POST" path None [("host", Some "localhost:8080"); ("content-type", Some "application/json")]
    [Ok (bytes_of_str (to_string test_body))].
Definition test_answer : list u8 :=
  bytes_of_str (to_string (jobj [("type", JStr "message"); ("role", JStr "assistant"); ("model", JStr "m");
    ("content", JArr [jobj [("type", JStr "text"); ("text", JStr "hello")]]); ("stop_reason", JStr "end_turn")])).
Definition test_turn (status : Z) : Turn string :=
  mkTurn (Ok (mkSource true true None)) (fun _ => Ok "t") (Err (AwsAuth "no keys")) 0
    (fun _ => Ok (mkResponse status "application/json" None [Ok test_answer])).

Definition test_handle (req : Request) (turns : list (Turn string)) : Handled :=
  handle_inner (fun _ => "json") (fun _ => "json") (fun _ => "json") (fun _ => "event") (fun _ => None) (fun _ => "a key")
    (fun _ => None) test_hash test_mac test_url (fun _ => "us-east-1") (fun _ => "no keys") (fun _ => None)
    (fun _ => None) (fun context err url => context +:+ ": " +:+ err) test_state req turns None.

Lemma triple_eta {A B C} (p : A * B * C) : p = (p.1.1, p.1.2, p.2).
Proof. by destruct p as [[a b] c]. Qed.

Definition chat_request : Request := test_request "/v1/chat/completions".
Definition refreshed : Handled := test_handle chat_request [test_turn 401; test_turn 200].
Definition whole_reply (a : Answer) : Reply := match a with Whole r => r | _ => text_reply 500 "" end.

Lemma count_url_stays_witness :
  exists prefix, split_query_fragment "https://h/v1beta/models/m:countTokens?key=k" = (prefix +:+ ":countTokens", Some "key=k", None).
Proof.
  destruct (count_url_stays "https://h/v1beta/models/m:generateContent?key=k" CountGemini "https://h/v1beta/models/m:countTokens?key=k"
    ltac:(by vm_compute)) as (prefix & E & _).
  by exists prefix.
Defined.

(** A token that is refused once, and a body of Messages as one of Chat. *)
Example refreshed_and_translated :
  length (refreshed.1.2) = 2%nat /\ re_status (whole_reply refreshed.2) = 200
  /\ match decode_response (fun _ => "") (fun _ => "") (dialect (ps_profile test_state)) ChatCompletions (re_body (whole_reply refreshed.2)) with
     | Ok events => existsb (fun ev => match ev with TextDelta t => String.eqb t "hello" | _ => false end) events
     | Err _ => false
     end = true.
Proof. vm_compute. split_and!; reflexivity. Qed.

Lemma proxy_sends_witness :
  exists url encoded, Forall (same_request url encoded) refreshed.1.2 /\ (length refreshed.1.2 <= 2)%nat.
Proof.
  destruct (proxy_sends (fun _ => "json") (fun _ => "json") (fun _ => "json") (fun _ => "event") (fun _ => None) (fun _ => "a key")
    (fun _ => None) test_hash test_mac test_url (fun _ => "us-east-1") (fun _ => "no keys") (fun _ => None)
    (fun _ => None) (fun context err url => context +:+ ": " +:+ err) test_state chat_request [test_turn 401; test_turn 200] None
    refreshed.1.1 refreshed.1.2 refreshed.2 (triple_eta refreshed) ltac:(by vm_compute)) as (body & target & url & encoded & _ & _ & W).
  by exists url, encoded.
Defined.

Lemma proxy_answers_witness :
  match (test_handle chat_request [test_turn 401; test_turn 401]).2 with OutOfTurns => False | _ => True end.
Proof.
  pose proof (proxy_answers (fun _ => "json") (fun _ => "json") (fun _ => "json") (fun _ => "event") (fun _ => None) (fun _ => "a key")
    (fun _ => None) test_hash test_mac test_url (fun _ => "us-east-1") (fun _ => "no keys") (fun _ => None)
    (fun _ => None) (fun context err url => context +:+ ": " +:+ err) test_state chat_request [test_turn 401; test_turn 401] None
    ltac:(cbn; lia) ltac:(repeat constructor; by vm_compute)) as H.
  unfold test_handle. destruct (handle_inner _ _ _ _ _ _ _ _ _ _ _ _ _ _ _ _ _ _ _).2; [exact I|exact H|exact I|exact I].
Defined.

End Witnesses.
